(* ===== verification/_CoqProject ===== *)
-Q . S2P
Prelude.v
Status.v
LeafMeta.v
LeafNode.v
LeafOps.v
LeafCells.v
LeafEncode.v
LeafFixup.v
LeafSpec.v
LeafRefine.v
LeafPlain.v
LeafMove.v
NodeSearch.v
LeafTheorems.v
NodeSearchSpec.v
NonLeaf.v
NonLeafSpec.v
NodeTheorems.v
TreeFlat.v
PStats.v
Overflow.v
OverflowSpec.v
OverflowTheorems.v
Snapshot.v
SnapshotSpec.v
SnapshotTheorems.v
Scavenger.v
ScavengerTheorems.v
Tree.v
TreeSpec.v
TreeTheorems.v
TreeWrite.v
TreeEdit.v
TreeSplit.v
TreeSplitLeaf.v
TreeDescend.v
TreeStore.v
TreeLeafWrite.v
TreePut.v
TreeRequests.v
TreeHistory.v
TreeFaults.v
Hash.v
NodeCache.v
NodeCacheRep.v
NodeCacheSpec.v
NodeCacheStep.v
NodeCacheRefine.v
NodeCacheClock.v
NodeCacheAdd.v
NodeCacheHistory.v
NodeCacheParts.v
NodeCacheTheorems.v
Range.v
RangeWalk.v
RangeSpec.v
RangeLeaf.v
RangeTree.v
RangeChunk.v
RangeTheorems.v
RangeRescue.v
RangeFaults.v
HashTable.v
HashTableRep.v
HashTableOps.v
HashTableSpec.v
HashTableSet.v
HashTableInit.v
HashTableUndo.v
HashTableClear.v
HashTableLoad.v
HashTableTheorems.v
Slab.v
SlabRep.v
SlabScan.v
SlabAlloc.v
SlabFree.v
SlabLoad.v
SlabStore.v
SlabTheorems.v
