(* ===== verification/Prelude.v ===== *)
(** * ZetaScale: a verified model of the b-tree storage engine

    ZetaScale keeps the objects of a container in a b-tree of fixed-size nodes
    on flash (src/btree). Leaves hold variable-size entries in a packed format,
    large objects continue in chains of overflow nodes, and several versions of
    a key live side by side for the sake of snapshots. A request runs from the
    root to a leaf, splits full nodes on its way, scavenges the leaf, changes
    it, and flushes the modified nodes at its end. This development translates
    that engine into executable definitions and proves that they implement a
    map with snapshots.

    ** Parts of the program and their files

    - Machine integers, byte buffers, assertions, generic lemmas and tactics:
      [Prelude]. Status codes (btree_raw.h): [Status].
    - Leaf pages (btree_var_leaf.c/.h): [LeafMeta] has the packed metadata of an
      entry, [LeafNode] the page and its readers, [LeafOps] insertion, removal,
      update, split, merge and balancing with prefix sharing. [LeafCells]
      relates the bytes to a list of cells; [LeafEncode], [LeafFixup],
      [LeafSpec] and [LeafRefine] lift the operations to lists of
      entries ([leaf_rep]); [LeafPlain] is the default format without prefix
      sharing ([leaf_plain]), where sizes are exact; [LeafMove] has the
      interface [LeafPages] that both formats implement, used for merging and
      balancing; [LeafTheorems] states the contract.
    - Search in a node (bsearch_key_low and its callers in btree_raw.c):
      [NodeSearch], over a class [NodeView] that leaves and non-leaf nodes
      implement; [NodeSearchSpec] shows it finds the newest version in a range
      of sequence numbers.
    - Non-leaf nodes (btree_raw.c: insert_key, split_copy, find_key_non_leaf and
      others): [NonLeaf], [NonLeafSpec] ([nl_rep]), [NodeTheorems].
    - Big objects (allocate_overflow_data, delete_overflow_data,
      get_leaf_data_nth_key, btree_leaf_insert_low): [Overflow],
      [OverflowSpec] (chains of nodes), [OverflowTheorems].
    - Statistics persisted in nodes (set_node_pstats, btree_raw_crash_stats):
      [PStats].
    - Snapshot metadata (btree_snapshot.c): [Snapshot], [SnapshotSpec],
      [SnapshotTheorems].
    - The scavenger (btree_scavenger.c: scavenge_node_all_keys): [Scavenger],
      [ScavengerTheorems].
    - The tree and reads (btree_raw_find, btree_raw_get): [Tree]. [TreeFlat]
      sees a tree as the sequence of its leaves with the separators between
      them; [TreeSpec] relates the nodes to it ([subtree], and [ctx], the path
      from the root with a hole); [TreeTheorems] has the reads.
    - Writes and deletes (btree_raw_write, btree_raw_delete and everything they
      call for one object): [TreeWrite]. [TreeEdit] changes a node below its
      parent, [TreeSplit] and [TreeSplitLeaf] are the splits and how even
      they are, [TreeDescend] the descent, [TreeStore] the objects and the
      overflow nodes they own and what readers see, [TreeLeafWrite]
      the change of the leaf, [TreePut] the passes of a write, flush and
      rollback, and deletes.
    - Whole requests and sequences of requests: [TreeRequests], [TreeHistory].
      [TreeFaults] has runs that show defects.
    - The node cache (btree_map.c, btree_pmap.c, btree_hash.c): [Hash] is the
      hash function, [NodeCache] the hash table with its chains, clock and free
      list over a heap of entries, [NodeCacheParts] the partitioned cache.
      [NodeCacheSpec] is the cache as a list of objects; [NodeCacheRep] relates
      chains of pointers to lists, [NodeCacheStep] shows that the primitives
      keep the representation, [NodeCacheRefine], [NodeCacheClock]
      and [NodeCacheAdd] that each operation refines the
      specification's; [NodeCacheHistory] runs sequences of operations and
      [NodeCacheTheorems] states what they guarantee.
    - Range queries (btree_range.c; get_leaf_key_index, get_leaf_data_index):
      [Range] has queries, cursors, the selection of versions and the filling of
      results in both directions, [RangeWalk] the walk over the tree, chunks,
      and the start and end of a query. [RangeSpec] is the listing of a range,
      [RangeLeaf] shows that a leaf adds its part of it, [RangeTree] that the
      walk with its stack visits the leaves in order, [RangeChunk] that a chunk
      is the next part; [RangeTheorems] has whole queries. [RangeRescue] is the
      query that repeats a failed request (btree_raw_rescue_validate),
      [RangeFaults] has the defects of descending queries and small buffers.
    - The object directory of a shard, through which the flash layer finds the
      nodes and objects by key (src/ssd/fifo): [HashTable] has the hash table
      (hash.c), the use that mcd_fth_osd_slab_set and mcd_fth_osd_slab_get of
      mcd_osd.c make of it in store mode, the rollbacks mcd_osd_trx_revert and
      mcd_osd_trx_insert, and delete_all_objects (recovery.c); [HashTableRep]
      relates chains of nodes to lists of entries ([dir_inv]), [HashTableOps]
      shows that insertion and deletion keep the invariant, [HashTableSpec]
      relates the directory to a map of objects ([dir_rep]); [HashTableSet] has
      the writes and deletions, [HashTableInit] the new directory
      and its capacity, [HashTableUndo] the rollbacks,
      [HashTableClear] the deletion of a container, [HashTableLoad] the recovery
      from the object table (update_hash_table of mcd_rec.c);
      [HashTableTheorems] the life of a directory.
    - The slabs of a shard, the blocks of its objects (mcd_osd.c): [Slab] has
      segments, classes, bit maps, allocation, deallocation, the return of empty
      segments and the new shard; [SlabRep] the words of the maps and the
      tables of their search, the invariant ([slab_inv]) and the map of the
      slabs in use ([slab_rep]); [SlabScan] takes and frees slabs of a segment
      and searches the maps, [SlabAlloc] gives segments to classes and has the
      loop of an allocation, [SlabFree] deallocation, raw objects, the new shard
      and when an allocation is rejected.
    - The object store, directory and slabs together: [SlabStore] has the whole
      mcd_fth_osd_slab_set in store mode and log_sync_postprocess of mcd_rec.c;
      [SlabLoad] the recovery of segments (shard_recover), of the slabs of the
      objects (update_hash_table) and of the free segments; [SlabStore] also the
      restart from the recorded lists; [SlabTheorems] the life of slabs and
      store.

    ** State and effects

    A leaf page is a record with its header array and its data area as bytes; a
    tree ([Tree.tree]) is a record of the root id, the node store, the overflow
    store with cache and deletion lists, the statistics, the ids the allocator
    will hand out and the stored copy of the last flush. Operations take and
    return these states. [None] means that an assertion fails or memory outside
    a buffer is accessed (assertions are active in every build of the program;
    those that only debug builds have, dbg_assert, are left out); a theorem that
    concludes [Some] excludes both. Errors are status values. The
    storage below the nodes, the allocators, the sequence number generator and
    the key comparison are parameters. Integers are [Z], with the wrap-around of
    the C types written out where it can occur.

    Loops that are not structural carry fuel with a bound that the theorems
    prove sufficient: the number of nodes for a descent (twice that for a write,
    which may visit a full node twice), the number of entries for splits of a
    leaf and for passes of a write, since each leaves the leaf of the key with
    fewer entries, one round for the loop over the objects of a request of one;
    in the node cache the number of entries of the heap, which bounds every
    chain, the list of entries and the rounds of the replacement; in a chunk of
    a range query twice the number of nodes, each being entered and left once,
    over a stack of 32 nodes, which is enough for trees of less than 2^32 nodes.
    The memory that the walk does not initialise is a parameter. In the object
    directory the length of the node table bounds every chain; a pass of
    delete_all_objects over a bucket, which may continue on a free list, takes
    at most twice that, and there are at most as many passes as entries; the
    recovery loop advances with each record. The keys on flash are a parameter,
    a function from block addresses to keys. The shift of an int by 32 and more
    in the bit maps of the free lists is undefined in C and modelled as on x86.
    A repeated round of a slab allocation has used up a place or a segment, so
    the number of segments times the slabs of a segment plus one bounds them; a
    search takes at most as many words as the part of the thread has slabs; the
    allocation for a raw object needs one round, which the theorem shows. What
    the memory of a new bit map holds beyond the bytes that are cleared is a
    parameter. The lists of segments on flash are what update_class writes at
    each change of a class ([recorded_lists]).

    ** What is proved

    - Leaves and nodes: every operation refines its counterpart on lists of
      entries or separators, with exact sizes; the space checks are sound; in the
      default format splits always succeed and leave room in both parts; a search
      finds the versions whose sequence numbers the request asks for, stated
      without the code's comparison; metadata round-trips.
    - Objects: what is inserted is read back; in the default format a deletion
      frees exactly the chain.
    - Snapshots: the metadata is sorted and recoverable after any history, and
      in the default format scavenging is invisible to every reader.
    - Tree: a read returns the newest version its reader may see. A write or a
      delete always ends; when it succeeds, the key has its new state for
      readers of the active state and no other key and no snapshot sees a
      change; when it does not, no reader sees a change. A history of requests
      implements a map, snapshots are isolated, and the tree stays well formed.
    - Node cache: from its creation on any sequence of calls is free of faults
      and gives the answers of the specification; a referenced object is never
      replaced, an unreferenced one is found within two turns of the clock, and
      the number of entries is bounded.
    - Range queries: a chunk of an ascending query returns the next part of the
      listing of its range, whatever is in uninitialised memory; read to its
      end, the query returns exactly the keys of the range that the map of the
      history holds, and through a snapshot always the same. The query of a
      rescue is accepted if and only if the failed one had both bounds.
    - Object directory: in every state of its life (created or recovered, then
      written, deleted from, rolled back and cleared of containers) it refines a
      map from containers and keys to objects, no assertion fails, recovery
      rebuilds exactly the recorded objects, rollbacks restore the map, and a
      write is rejected below capacity only for a free node it does not see.
    - Slabs: an allocation always ends without a failed assertion, and the slabs
      it gives are large enough, in the shard and apart from all others in use;
      one slab is refused only when no segment is free and the part of the
      thread in the segments of the class is in use, or the hand of the search
      has just wrapped around.
    - Object store: in every state of its life (new, then written, deleted from,
      synchronised and restarted) it refines a map from containers and keys to
      objects; no block belongs to two objects and every slab in use is that of
      an object or waits for the log; a restart finds every object again and
      frees the slabs that waited.
    - Defects: wrap-around of the in-leaf size of big objects, growth by removal
      under prefix sharing, an error code stored as a pointer, drifting
      counters, a crash after an uneven split, the loss of an object after a
      failed flush, and in the node cache deleted objects that are served,
      needless replacements and a stale hand of the clock; descending queries
      that end at a tombstone or follow a null pointer, and queries that do not
      advance when a key buffer is too small; in the object directory an empty
      table that rejects a write and a rolled-back key that finds the object of
      another; a segment that cannot be used again once it is freed, bit maps
      that recovery does not clear, a segment that recovery gives out twice and
      an object too large for a segment that takes all of them, each as a run of
      the model or a theorem.

    The theorems on writes assume the default page format, the limits
    [btree_raw_init] enforces (four entries per page), a comparison that tells
    keys apart, storage that reads nodes without errors, and that a version
    which must stay leaves room for the new one now or after a split ([roomy]);
    objects of up to a seventh of a page always satisfy the last
    ([TreeSplitLeaf]). A history is of such objects, with successful flushes and
    allocations and a fixed set of snapshots. Those on slabs assume one device file, a
    segment of a power of two of at most 2^16 blocks, at most 64 threads and the
    collector of slabs off, which is the default; those on the store also that
    writes to flash succeed, and for a restart that the maps of classes with
    less than 8 slabs per segment happen to be clear.

    ** Not modelled

    Concurrency: node locks and the retries they cause, the flusher and
    scavenger threads; requests run one at a time, also between the chunks of a
    range query. Batches and bulk insertion, range updates, in-place range
    queries (they fail an assertion as they start), forced deletes with
    rebalancing, hash (syndrome) indexes, transactions and the order of node
    writes in a flush, crash recovery of nodes. The tree reads its nodes from a
    store, not through the node cache. Of the flash layer only the object
    directory, the slabs and the store made of them are modelled: the contents
    of log records, checkpoints and their replay, the collector of slabs, quotas
    of containers, expiry, compression, eviction of the fifo mode, backup, locks
    and statistics are left out. The b-tree is not connected to the store: its
    theorems take the storage of nodes as a parameter. Replication,
    messaging and the C API wrapper are reached through callbacks only and are
    not part of the development. *)

From Stdlib Require Export ZArith Lia.
From coqutil Require Export Byte Word.LittleEndianList.
From stdpp Require Export base list option numbers.

#[export] Set Default Goal Selector "!".

(** ** Scopes and notation *)

Open Scope Z_scope.

(** [n2z] is the conversion from list lengths to the integers of the C code. *)
Abbreviation n2z := Z.of_nat.
Abbreviation z2n := Z.to_nat.
Abbreviation lenZ l := (Z.of_nat (length l)).

#[export] Instance byte_eq_dec : EqDecision byte := Byte.byte_eq_dec.

(** ** Machine integers

    The unsigned types of the source are integers modulo their width; a
    conversion to a narrower type keeps the low bits. *)

Definition u8 (z : Z) : Z := z mod 2 ^ 8.
Definition u16 (z : Z) : Z := z mod 2 ^ 16.
Definition u32 (z : Z) : Z := z mod 2 ^ 32.
Definition u64 (z : Z) : Z := z mod 2 ^ 64.
Definition i16 (z : Z) : Z := (z + 2 ^ 15) mod 2 ^ 16 - 2 ^ 15.
Definition i32 (z : Z) : Z := (z + 2 ^ 31) mod 2 ^ 32 - 2 ^ 31.

Lemma u16_small z : 0 <= z < 2 ^ 16 -> u16 z = z.
Proof. apply Z.mod_small. Qed.

Lemma u32_small z : 0 <= z < 2 ^ 32 -> u32 z = z.
Proof. apply Z.mod_small. Qed.

Lemma u64_small z : 0 <= z < 2 ^ 64 -> u64 z = z.
Proof. apply Z.mod_small. Qed.

Lemma i32_small z : - 2 ^ 31 <= z < 2 ^ 31 -> i32 z = z.
Proof. intros H. unfold i32. rewrite Z.mod_small; lia. Qed.

Lemma u64_range z : 0 <= u64 z < 2 ^ 64.
Proof. apply Z.mod_pos_bound. lia. Qed.

(** ** Assertions

    A C [assert] (and an access outside an array) aborts the program; the
    model is partial there, and a theorem that an operation returns [Some _]
    shows that no assertion fails and no access is out of bounds. *)

Definition assert_ (b : bool) : option unit := if b then Some () else None.

Lemma assert_true b : b = true -> assert_ b = Some ().
Proof. by intros ->. Qed.

Lemma assert_Some b u : assert_ b = Some u -> b = true.
Proof. by destruct b. Qed.

(** ** Byte buffers *)

(** The [len] bytes at offset [off], when they lie inside the buffer. *)
Definition read_bytes (a : list byte) (off len : nat) : option (list byte) :=
  if decide (off + len <= length a)%nat then Some (take len (drop off a)) else None.

(** A little-endian unsigned field of [len] bytes. *)
Definition read_le (a : list byte) (off len : nat) : option Z :=
  le_combine <$> read_bytes a off len.

(** Overwrite the bytes at [off] by [bs] in place. *)
Definition write_bytes (a : list byte) (off : nat) (bs : list byte) : option (list byte) :=
  if decide (off + length bs <= length a)%nat
  then Some (take off a ++ bs ++ drop (off + length bs) a) else None.

Lemma read_bytes_mid pre bs post off len :
  off = length pre -> len = length bs ->
  read_bytes (pre ++ bs ++ post) off len = Some bs.
Proof.
  intros -> ->. unfold read_bytes. rewrite decide_True by (rewrite !length_app; lia).
  by rewrite drop_app_length, take_app_length.
Qed.

Lemma read_bytes_front bs post len :
  len = length bs -> read_bytes (bs ++ post) 0 len = Some bs.
Proof. apply (read_bytes_mid [] bs post). done. Qed.

Lemma read_bytes_all bs len : len = length bs -> read_bytes bs 0 len = Some bs.
Proof.
  intros ->. rewrite <- (app_nil_r bs) at 1. apply (read_bytes_mid [] bs []); done.
Qed.

Lemma read_bytes_app_l a b off len :
  (off + len <= length a)%nat -> read_bytes (a ++ b) off len = read_bytes a off len.
Proof.
  intros H. unfold read_bytes. rewrite !decide_True by (rewrite ?length_app; lia).
  rewrite drop_app_le by lia. rewrite take_app_le; [done|]. rewrite length_drop. lia.
Qed.

Lemma read_bytes_drop a off off' len :
  read_bytes (drop off a) off' len =
  (if decide (off <= length a)%nat then read_bytes a (off + off') len
   else if decide (off' + len = 0)%nat then Some [] else None).
Proof.
  unfold read_bytes. rewrite length_drop, drop_drop.
  repeat case_decide; try lia; try done.
  assert (len = 0)%nat as -> by lia. by rewrite take_0.
Qed.

Lemma read_bytes_length a off len bs : read_bytes a off len = Some bs -> length bs = len.
Proof.
  unfold read_bytes. case_decide; [|done]. intros [= <-].
  rewrite length_take, length_drop. lia.
Qed.

(** [pow_byte n] bounds an unsigned field of [n] bytes. *)
Lemma le_combine_split_small n z :
  0 <= z < 2 ^ (8 * Z.of_nat n) -> le_combine (le_split n z) = z.
Proof. intros H. rewrite le_combine_split. apply Z.mod_small. by rewrite Z.mul_comm. Qed.

Lemma read_le_mid pre n z post off :
  off = length pre -> 0 <= z < 2 ^ (8 * Z.of_nat n) ->
  read_le (pre ++ le_split n z ++ post) off n = Some z.
Proof.
  intros -> Hz. unfold read_le.
  rewrite (read_bytes_mid _ (le_split n z)) by (by rewrite ?length_le_split).
  cbn. by rewrite le_combine_split_small.
Qed.

Lemma read_le_app_l a b off len :
  (off + len <= length a)%nat -> read_le (a ++ b) off len = read_le a off len.
Proof. intros H. unfold read_le. by rewrite read_bytes_app_l. Qed.

Lemma read_le_bound a off len z :
  read_le a off len = Some z -> 0 <= z < 2 ^ (8 * Z.of_nat len).
Proof.
  unfold read_le. destruct (read_bytes a off len) as [bs|] eqn:E; [|done].
  intros [= <-]. rewrite <- (read_bytes_length _ _ _ _ E). apply le_combine_bound.
Qed.

(** Shift a read past a known prefix. *)
Lemma read_bytes_app_r a b off len :
  read_bytes (a ++ b) (length a + off) len = read_bytes b off len.
Proof.
  unfold read_bytes. rewrite length_app, drop_app_add.
  repeat case_decide; try lia; done.
Qed.

Lemma read_le_app_r a b off len :
  read_le (a ++ b) (length a + off) len = read_le b off len.
Proof. unfold read_le. by rewrite read_bytes_app_r. Qed.

Lemma write_bytes_mid pre old new post off :
  off = length pre -> length new = length old ->
  write_bytes (pre ++ old ++ post) off new = Some (pre ++ new ++ post).
Proof.
  intros -> Hlen. unfold write_bytes.
  rewrite decide_True by (rewrite !length_app; lia).
  rewrite take_app_length, drop_app_add, Hlen, drop_app_length. done.
Qed.

(** ** Lists *)

Lemma list_split_at {A} (l : list A) i x :
  l !! i = Some x -> l = take i l ++ x :: drop (S i) l.
Proof. intros H. by rewrite take_drop_middle. Qed.

Lemma Forall_at {A} {P : A -> Prop} {l i x} : Forall P l -> l !! i = Some x -> P x.
Proof. apply Forall_lookup_1. Qed.

Lemma length_concat_map {A B} (f : A -> list B) l :
  length (concat (f <$> l)) = sum_list_with (fun x => length (f x)) l.
Proof. induction l as [|x l IH]; [done|]. cbn. by rewrite length_app, IH. Qed.

Lemma lookup_app_add {A} (l1 l2 : list A) i : (l1 ++ l2) !! (length l1 + i)%nat = l2 !! i.
Proof. rewrite lookup_app_r by lia. f_equal. lia. Qed.

Lemma last_elem {A} (l : list A) x : list.last l = Some x -> x ∈ l.
Proof. intros (l' & ->)%last_Some. apply elem_of_app. right. by apply list_elem_of_singleton. Qed.

Lemma filter_all {A} (P : A -> Prop) `{!forall x, Decision (P x)} (l : list A) :
  Forall P l -> filter P l = l.
Proof. induction 1 as [|x l Hx Hl IH]; [done|]. rewrite filter_cons, decide_True by done. by rewrite IH. Qed.

Lemma filter_none {A} (l : list A) (P : A -> Prop) `{!forall x, Decision (P x)} :
  (forall x, x ∈ l -> ~ P x) -> filter P l = [].
Proof.
  induction l as [|x l IH]; [done|]. intros Hno. rewrite filter_cons, decide_False by (apply Hno; left).
  apply IH. intros y Hy. apply Hno. by right.
Qed.

Lemma Forall_filter_sub {A} (P Q : A -> Prop) `{!forall x, Decision (P x)} (l : list A) :
  Forall Q l -> Forall Q (filter P l).
Proof.
  induction 1 as [|x l Hx Hl IH]; [done|]. rewrite filter_cons. case_decide; [by constructor|done].
Qed.

(** ** Automation *)

(** Side conditions on numbers and booleans of concrete databases. *)
Create HintDb zs.
#[export] Hint Extern 1 (_ < _) => lia : zs.
#[export] Hint Extern 1 (_ <= _) => lia : zs.
#[export] Hint Extern 1 (_ = true) => reflexivity : zs.

(** Split the pending case distinctions of a goal on booleans and options. *)
Ltac case_if :=
  match goal with
  | |- context [if ?b then _ else _] => destruct b eqn:?
  end.

(** Turn boolean comparisons in the context into propositions. *)
Ltac b2p :=
  repeat match goal with
  | H : (_ && _) = true |- _ => apply andb_prop in H as [? ?]
  | H : (_ && _) = false |- _ => apply andb_false_iff in H
  | H : (_ || _) = false |- _ => apply orb_false_iff in H as [? ?]
  | H : negb _ = true |- _ => apply negb_true_iff in H
  | H : negb _ = false |- _ => apply negb_false_iff in H
  | H : (_ <? _)%Z = true |- _ => apply Z.ltb_lt in H
  | H : (_ <? _)%Z = false |- _ => apply Z.ltb_ge in H
  | H : (_ <=? _)%Z = true |- _ => apply Z.leb_le in H
  | H : (_ <=? _)%Z = false |- _ => apply Z.leb_gt in H
  | H : (_ =? _)%Z = true |- _ => apply Z.eqb_eq in H
  | H : (_ =? _)%Z = false |- _ => apply Z.eqb_neq in H
  end.

(** Run a chain of option binds whose heads are known. *)
Ltac runs := cbn [mbind option_bind mret option_ret fmap option_map option_fmap].

(** Discharge the assertion at the head of a chain of binds with [tac]. *)
Ltac pass_assert tac :=
  lazymatch goal with
  | |- mbind _ (assert_ ?b) = _ =>
      let H := fresh in
      assert (b = true) as H by tac; rewrite (assert_true b H); clear H; runs
  end.
Tactic Notation "pass" "by" tactic3(tac) := pass_assert tac.

(** Peel a successful chain of binds in hypothesis [H]. *)
Ltac peel H :=
  repeat match type of H with
  | mbind _ ?m = Some _ =>
      let E := fresh "E" in
      let v := fresh "v" in
      destruct m as [v|] eqn:E; cbn [mbind option_bind] in H; [|discriminate H]
  end.
