(* ===== verification/Status.v ===== *)
(** * Status codes (btree/btree_raw.h)

    The codes of [btree_status_t] the modelled functions return or test, with
    their numeric values: one function hands a status to its caller through an
    unsigned integer. *)

From S2P Require Import Prelude.

Inductive btree_status :=
  | BTREE_SUCCESS | BTREE_FAILURE | BTREE_OBJECT_TOO_BIG | BTREE_FLASH_EIO | BTREE_FLASH_EINCONS
  | BTREE_OUT_OF_STORAGE_SPACE | BTREE_BUFFER_TOO_SMALL | BTREE_KEY_NOT_FOUND
  | BTREE_TOO_MANY_SNAPSHOTS | BTREE_PARENT_FULL_FOR_SPLIT | BTREE_NO_NODE_REFS
  | BTREE_QUERY_DONE | BTREE_WARNING | BTREE_INVALID_QUERY | BTREE_QUERY_PAUSED | BTREE_SKIPPED | BTREE_RETRY
  | BTREE_RESCUE_NOT_NEEDED.

#[export] Instance btree_status_eq_dec : EqDecision btree_status.
Proof. solve_decision. Defined.

Definition status_code (r : btree_status) : Z :=
  match r with
  | BTREE_SUCCESS => 0
  | BTREE_FAILURE => 1
  | BTREE_OBJECT_TOO_BIG => 13
  | BTREE_FLASH_EIO => 84
  | BTREE_FLASH_EINCONS => 98
  | BTREE_OUT_OF_STORAGE_SPACE => 137
  | BTREE_BUFFER_TOO_SMALL => 155
  | BTREE_KEY_NOT_FOUND => 157
  | BTREE_TOO_MANY_SNAPSHOTS => 166
  | BTREE_PARENT_FULL_FOR_SPLIT => 167
  | BTREE_NO_NODE_REFS => 168
  | BTREE_QUERY_DONE => 152
  | BTREE_WARNING => 154
  | BTREE_INVALID_QUERY => 156
  | BTREE_QUERY_PAUSED => 162
  | BTREE_SKIPPED => 165
  | BTREE_RETRY => 172
  | BTREE_RESCUE_NOT_NEEDED => 170
  end.

Definition storage_error (r : btree_status) : bool :=
  bool_decide (r = BTREE_FLASH_EINCONS) || bool_decide (r = BTREE_FLASH_EIO).
