(* ===== verification/LeafMeta.v ===== *)
(** * Key metadata of the b-tree leaf (btree/btree_var_leaf.{h,c})

    The tree parameters the leaf code reads, the fixed-size [key_meta] used in
    memory, the four packed on-page formats ([key_meta_type1_t] ..
    [key_meta_type4_t]), the conversions between them and the choice of a
    key's shared prefix. *)

From S2P Require Import Prelude.

(** ** Tree parameters *)

(** The fields of [btree_raw_t] the leaf code reads, together with the
    process-wide switches it consults ([bt_storm_mode], [datasz_in_overflow],
    [space_op_disabled], [min_common_length]). [cmp_cb] is the comparison
    callback of the container. *)
Record btree_raw := mk_btree_raw {
  max_key_size : Z;
  nodesize : Z;
  nodesize_less_hdr : Z;
  big_object_size : Z;
  bt_storm_mode : bool;
  datasz_in_overflow : Z;
  space_op_disabled : bool;
  min_common_length : Z;
  cmp_cb : list byte -> list byte -> Z
}.

Definition BTREE_MAX_NODE_SIZE : Z := 32768.
Definition SIZEOF_BTREE_RAW_NODE : Z := 136.
Definition SIZEOF_ENTRY_HEADER : Z := 3.
Definition MAX_UINT8_T : Z := 255.
Definition MAX_UINT16_T : Z := 65535.

Definition get_data_in_overflownode (bt : btree_raw) : Z :=
  if bt_storm_mode bt then datasz_in_overflow bt else nodesize_less_hdr bt.

(** The object (key and data) is too big for a leaf: its data goes to
    overflow nodes. *)
Definition big_object_kd (bt : btree_raw) (k d : Z) : bool :=
  big_object_size bt <=? k + d.

(** Bytes of a big object's data kept in the leaf: the residue that does not
    fill an overflow node, when it is small enough. The subtraction is an
    unsigned 64-bit one. *)
Definition btree_get_bigobj_inleaf (bt : btree_raw) (keylen datalen : Z) : Z :=
  let ovdatasize := get_data_in_overflownode bt in
  let rem := u64 (big_object_size bt - keylen) in
  if datalen <=? ovdatasize then 0
  else if datalen mod ovdatasize <? rem then datalen mod ovdatasize else 0.

(** Bytes of data stored next to the key, the expression the leaf code writes
    out at every use. *)
Definition data_inleaf (bt : btree_raw) (keylen datalen : Z) : Z :=
  if big_object_kd bt keylen datalen
  then btree_get_bigobj_inleaf bt keylen datalen else datalen.

(** ** Metadata types *)

(** The [meta_type] of an entry; [BTREE_KEY_META_NONE] stands for every value
    that is not one of the four formats (a zeroed header). *)
Inductive key_meta_type :=
  | BTREE_KEY_META_NONE
  | BTREE_KEY_META_TYPE1
  | BTREE_KEY_META_TYPE2
  | BTREE_KEY_META_TYPE3
  | BTREE_KEY_META_TYPE4.

#[export] Instance key_meta_type_eq_dec : EqDecision key_meta_type.
Proof. solve_decision. Defined.

Record key_meta := mk_key_meta {
  keylen : Z;
  datalen : Z;
  prefix_idx : Z;
  prefix_len : Z;
  ptr : Z;
  seqno : Z;
  tombstone : bool;
  meta_type : key_meta_type;
  compact_meta : bool
}.

#[export] Instance key_meta_eq_dec : EqDecision key_meta.
Proof. solve_decision. Defined.

(** [key_meta_t key_meta = {0}]. *)
Definition key_meta_zero : key_meta :=
  mk_key_meta 0 0 0 0 0 0 false BTREE_KEY_META_NONE false.

Definition set_prefix (km : key_meta) (pidx plen : Z) : key_meta :=
  mk_key_meta (keylen km) (datalen km) pidx plen (ptr km) (seqno km)
    (tombstone km) (meta_type km) (compact_meta km).

Definition set_meta_type (km : key_meta) (t : key_meta_type) : key_meta :=
  mk_key_meta (keylen km) (datalen km) (prefix_idx km) (prefix_len km) (ptr km)
    (seqno km) (tombstone km) t (compact_meta km).

Definition set_compact (km : key_meta) (c : bool) : key_meta :=
  mk_key_meta (keylen km) (datalen km) (prefix_idx km) (prefix_len km) (ptr km)
    (seqno km) (tombstone km) (meta_type km) c.

Definition set_seqno (km : key_meta) (s : Z) : key_meta :=
  mk_key_meta (keylen km) (datalen km) (prefix_idx km) (prefix_len km) (ptr km)
    s (tombstone km) (meta_type km) (compact_meta km).

Definition set_tombstone (km : key_meta) (t : bool) : key_meta :=
  mk_key_meta (keylen km) (datalen km) (prefix_idx km) (prefix_len km) (ptr km)
    (seqno km) t (meta_type km) (compact_meta km).

Definition set_datalen (km : key_meta) (d : Z) : key_meta :=
  mk_key_meta (keylen km) d (prefix_idx km) (prefix_len km) (ptr km)
    (seqno km) (tombstone km) (meta_type km) (compact_meta km).

(** [sizeof] of the packed structures. *)
Definition get_meta_type_to_size (t : key_meta_type) : Z :=
  match t with
  | BTREE_KEY_META_TYPE1 => 8
  | BTREE_KEY_META_TYPE2 => 13
  | BTREE_KEY_META_TYPE3 => 24
  | BTREE_KEY_META_TYPE4 => 34
  | BTREE_KEY_META_NONE => 0
  end.

Definition btree_leaf_get_max_meta : Z :=
  let a := if get_meta_type_to_size BTREE_KEY_META_TYPE2 <? get_meta_type_to_size BTREE_KEY_META_TYPE1
           then get_meta_type_to_size BTREE_KEY_META_TYPE1
           else get_meta_type_to_size BTREE_KEY_META_TYPE2 in
  let b := if get_meta_type_to_size BTREE_KEY_META_TYPE4 <? get_meta_type_to_size BTREE_KEY_META_TYPE3
           then get_meta_type_to_size BTREE_KEY_META_TYPE3
           else get_meta_type_to_size BTREE_KEY_META_TYPE4 in
  if b <? a then a else b.

(** The sizes [btree_raw_init] derives from the node size. *)
Definition init_nodesize_less_hdr (nodesize : Z) : Z := nodesize - SIZEOF_BTREE_RAW_NODE.
Definition init_big_object_size (nodesize : Z) : Z :=
  init_nodesize_less_hdr nodesize / 4 - SIZEOF_ENTRY_HEADER - btree_leaf_get_max_meta.

Definition get_key_meta_space_used (bt : btree_raw) (km : key_meta) : Z :=
  get_meta_type_to_size (meta_type km) + (keylen km - prefix_len km)
  + data_inleaf bt (keylen km) (datalen km).

Definition get_key_meta_type (km : key_meta) : key_meta_type :=
  if compact_meta km then BTREE_KEY_META_TYPE1
  else if (keylen km <? MAX_UINT8_T) && (datalen km <? MAX_UINT8_T) then BTREE_KEY_META_TYPE2
  else if (keylen km <? MAX_UINT16_T) && (datalen km <? MAX_UINT16_T) then BTREE_KEY_META_TYPE3
  else BTREE_KEY_META_TYPE4.

(** ** Packed formats *)

(** The bytes [key_meta_to_key_metax] stores for a given type; a field is
    truncated to its width. *)
Definition key_metax_bytes (t : key_meta_type) (km : key_meta) : list byte :=
  match t with
  | BTREE_KEY_META_NONE => []
  | BTREE_KEY_META_TYPE1 => le_split 8 (seqno km)
  | BTREE_KEY_META_TYPE2 =>
      le_split 1 (keylen km) ++ le_split 1 (datalen km) ++ le_split 2 (prefix_idx km)
      ++ le_split 1 (prefix_len km) ++ le_split 8 (seqno km)
  | BTREE_KEY_META_TYPE3 =>
      le_split 2 (keylen km) ++ le_split 2 (datalen km) ++ le_split 2 (prefix_idx km)
      ++ le_split 2 (prefix_len km) ++ le_split 8 (ptr km) ++ le_split 8 (seqno km)
  | BTREE_KEY_META_TYPE4 =>
      le_split 4 (keylen km) ++ le_split 8 (datalen km) ++ le_split 2 (prefix_idx km)
      ++ le_split 4 (prefix_len km) ++ le_split 8 (ptr km) ++ le_split 8 (seqno km)
  end.

Definition key_meta_to_key_metax (km : key_meta) : key_meta_type * list byte :=
  let t := get_key_meta_type km in (t, key_metax_bytes t km).

(** The readers of the packed structures at an offset of the data area; each
    fills the fields its format holds and leaves the rest of [km]. *)
Definition key_meta2_to_key_meta (a : list byte) (off : nat) (km : key_meta) : option key_meta :=
  kl ← read_le a off 1;
  dl ← read_le a (off + 1) 1;
  pi ← read_le a (off + 2) 2;
  pl ← read_le a (off + 4) 1;
  sq ← read_le a (off + 5) 8;
  Some (mk_key_meta kl dl pi pl 0 sq (tombstone km) (meta_type km) (compact_meta km)).

Definition key_meta3_to_key_meta (a : list byte) (off : nat) (km : key_meta) : option key_meta :=
  kl ← read_le a off 2;
  dl ← read_le a (off + 2) 2;
  pi ← read_le a (off + 4) 2;
  pl ← read_le a (off + 6) 2;
  p ← read_le a (off + 8) 8;
  sq ← read_le a (off + 16) 8;
  Some (mk_key_meta kl dl pi pl p sq (tombstone km) (meta_type km) (compact_meta km)).

Definition key_meta4_to_key_meta (a : list byte) (off : nat) (km : key_meta) : option key_meta :=
  kl ← read_le a off 4;
  dl ← read_le a (off + 4) 8;
  pi ← read_le a (off + 12) 2;
  pl ← read_le a (off + 14) 4;
  p ← read_le a (off + 18) 8;
  sq ← read_le a (off + 26) 8;
  Some (mk_key_meta kl dl pi pl p sq (tombstone km) (meta_type km) (compact_meta km)).

(** ** Shared prefixes *)

(** The loop of [get_common_part]. *)
Fixpoint common_length (k1 k2 : list byte) : Z :=
  match k1, k2 with
  | b1 :: k1', b2 :: k2' => if decide (b1 = b2) then 1 + common_length k1' k2' else 0
  | _, _ => 0
  end.

Definition get_common_part (bt : btree_raw) (k1 k2 : list byte) : Z :=
  if space_op_disabled bt then 0
  else let i := common_length k1 k2 in
       if i <? min_common_length bt then 0 else i.

(** Prefix and compactness of [key] given the previous key of the node. *)
Definition build_key_prefix_int (bt : btree_raw) (prev_key key : list byte)
    (prev_key_index : Z) (prev_km km : key_meta) : key_meta :=
  let plen := get_common_part bt prev_key key in
  let '(pidx, plen) :=
    if plen =? 0 then (0, plen)
    else if 0 <? prefix_len prev_km then
      (prefix_idx prev_km,
       if prefix_len prev_km <? plen then prefix_len prev_km else plen)
    else (u16 prev_key_index, plen) in
  let km := set_compact (set_prefix km pidx plen) false in
  if (lenZ key =? keylen prev_km) && (datalen km =? datalen prev_km)
     && (prefix_len km =? prefix_len prev_km) && (prefix_idx km =? prefix_idx prev_km)
     && (ptr km =? 0) && negb (prefix_len prev_km =? 0)
     && negb (space_op_disabled bt)
  then set_compact km true else km.

(** ** Well-formed parameters *)

(** What [btree_raw_init] and its callers establish for the sizes, kept to the
    facts the leaf theorems need. *)
Record bt_ok (bt : btree_raw) : Prop := {
  bt_node : nodesize bt = nodesize_less_hdr bt + SIZEOF_BTREE_RAW_NODE;
  bt_node_max : nodesize bt <= BTREE_MAX_NODE_SIZE;
  bt_less_hdr : 0 < nodesize_less_hdr bt;
  bt_big : 2 * MAX_UINT8_T <= big_object_size bt <= nodesize_less_hdr bt;
  bt_ovf : 0 < get_data_in_overflownode bt;
  bt_common : 0 < min_common_length bt
}.
Existing Class bt_ok.

Lemma btree_get_bigobj_inleaf_bound bt kl dl :
  bt_ok bt -> 0 <= kl <= big_object_size bt -> 0 <= dl ->
  0 <= btree_get_bigobj_inleaf bt kl dl <= big_object_size bt - kl.
Proof.
  intros Hbt Hk Hd. unfold btree_get_bigobj_inleaf.
  pose proof (bt_big _ Hbt). pose proof (bt_ovf _ Hbt) as Ho.
  pose proof (bt_node _ Hbt). pose proof (bt_node_max _ Hbt).
  unfold BTREE_MAX_NODE_SIZE, SIZEOF_BTREE_RAW_NODE, MAX_UINT8_T in *.
  rewrite u64_small by lia.
  pose proof (Z.mod_pos_bound dl _ Ho).
  repeat case_if; b2p; lia.
Qed.

Lemma data_inleaf_bound bt kl dl :
  bt_ok bt -> 0 <= kl <= big_object_size bt -> 0 <= dl ->
  0 <= data_inleaf bt kl dl <= big_object_size bt - kl.
Proof.
  intros Hbt Hk Hd. unfold data_inleaf, big_object_kd. case_if; b2p.
  - by apply btree_get_bigobj_inleaf_bound.
  - lia.
Qed.

(** ** Round trip of the packed formats *)

Lemma read_le_skip m x rest off n :
  (m <= off)%nat -> read_le (le_split m x ++ rest) off n = read_le rest (off - m) n.
Proof.
  intros H. replace off with (length (le_split m x) + (off - m))%nat at 1
    by (rewrite length_le_split; lia).
  apply read_le_app_r.
Qed.

Lemma read_le_here n z rest :
  0 <= z < 2 ^ (8 * Z.of_nat n) -> read_le (le_split n z ++ rest) 0 n = Some z.
Proof. apply (read_le_mid [] n z rest). done. Qed.

Lemma length_key_metax_bytes t km :
  length (key_metax_bytes t km) = z2n (get_meta_type_to_size t).
Proof. destruct t; cbn [key_metax_bytes]; rewrite ?length_app, ?length_le_split; done. Qed.

(** The field ranges of each packed format. *)
Definition meta_fits (t : key_meta_type) (km : key_meta) : Prop :=
  0 <= seqno km < 2 ^ 64 /\
  match t with
  | BTREE_KEY_META_NONE => False
  | BTREE_KEY_META_TYPE1 => True
  | BTREE_KEY_META_TYPE2 =>
      0 <= keylen km < 2 ^ 8 /\ 0 <= datalen km < 2 ^ 8 /\ 0 <= prefix_idx km < 2 ^ 16 /\
      0 <= prefix_len km < 2 ^ 8 /\ ptr km = 0
  | BTREE_KEY_META_TYPE3 =>
      0 <= keylen km < 2 ^ 16 /\ 0 <= datalen km < 2 ^ 16 /\ 0 <= prefix_idx km < 2 ^ 16 /\
      0 <= prefix_len km < 2 ^ 16 /\ 0 <= ptr km < 2 ^ 64
  | BTREE_KEY_META_TYPE4 =>
      0 <= keylen km < 2 ^ 32 /\ 0 <= datalen km < 2 ^ 64 /\ 0 <= prefix_idx km < 2 ^ 16 /\
      0 <= prefix_len km < 2 ^ 32 /\ 0 <= ptr km < 2 ^ 64
  end.

Lemma bind_read {B} a off n z (f : Z -> option B) :
  read_le a off n = Some z -> (x ← read_le a off n; f x) = f z.
Proof. by intros ->. Qed.

(** Evaluate the field readers of a packed structure one after the other. *)
Ltac read_field :=
  rewrite read_le_app_r;
  repeat (rewrite read_le_skip by lia; cbn [Nat.sub]);
  apply read_le_here; cbn; lia.

Ltac read_fields :=
  repeat (etransitivity; [apply bind_read; read_field|]; cbv beta); done.

Lemma key_meta2_decode pre post km km0 :
  meta_fits BTREE_KEY_META_TYPE2 km ->
  key_meta2_to_key_meta (pre ++ key_metax_bytes BTREE_KEY_META_TYPE2 km ++ post) (length pre) km0
  = Some (mk_key_meta (keylen km) (datalen km) (prefix_idx km) (prefix_len km) (ptr km)
            (seqno km) (tombstone km0) (meta_type km0) (compact_meta km0)).
Proof.
  intros (Hs & Hk & Hd & Hi & Hl & ->). unfold key_meta2_to_key_meta, key_metax_bytes.
  rewrite <- !app_assoc, <- (Nat.add_0_r (length pre)), <- !Nat.add_assoc. cbn [Nat.add].
  read_fields.
Qed.

Lemma key_meta3_decode pre post km km0 :
  meta_fits BTREE_KEY_META_TYPE3 km ->
  key_meta3_to_key_meta (pre ++ key_metax_bytes BTREE_KEY_META_TYPE3 km ++ post) (length pre) km0
  = Some (mk_key_meta (keylen km) (datalen km) (prefix_idx km) (prefix_len km) (ptr km)
            (seqno km) (tombstone km0) (meta_type km0) (compact_meta km0)).
Proof.
  intros (Hs & Hk & Hd & Hi & Hl & Hp). unfold key_meta3_to_key_meta, key_metax_bytes.
  rewrite <- !app_assoc, <- (Nat.add_0_r (length pre)), <- !Nat.add_assoc. cbn [Nat.add].
  read_fields.
Qed.

Lemma key_meta4_decode pre post km km0 :
  meta_fits BTREE_KEY_META_TYPE4 km ->
  key_meta4_to_key_meta (pre ++ key_metax_bytes BTREE_KEY_META_TYPE4 km ++ post) (length pre) km0
  = Some (mk_key_meta (keylen km) (datalen km) (prefix_idx km) (prefix_len km) (ptr km)
            (seqno km) (tombstone km0) (meta_type km0) (compact_meta km0)).
Proof.
  intros (Hs & Hk & Hd & Hi & Hl & Hp). unfold key_meta4_to_key_meta, key_metax_bytes.
  rewrite <- !app_assoc, <- (Nat.add_0_r (length pre)), <- !Nat.add_assoc. cbn [Nat.add].
  read_fields.
Qed.

Lemma key_meta1_decode pre post km :
  meta_fits BTREE_KEY_META_TYPE1 km ->
  read_le (pre ++ key_metax_bytes BTREE_KEY_META_TYPE1 km ++ post) (length pre) 8 = Some (seqno km).
Proof. intros (Hs & _). apply read_le_mid; [done|cbn; lia]. Qed.

(** ** The chosen prefix is shared with the previous key *)

Lemma common_length_spec k1 k2 :
  0 <= common_length k1 k2 <= lenZ k1 /\ common_length k1 k2 <= lenZ k2 /\
  take (z2n (common_length k1 k2)) k1 = take (z2n (common_length k1 k2)) k2.
Proof.
  revert k2; induction k1 as [|b1 k1 IH]; intros k2; cbn [common_length length].
  { split_and?; [lia..|]. by rewrite !take_0. }
  destruct k2 as [|b2 k2].
  { split_and?; [cbn [length]; lia..|]. by rewrite !take_0. }
  case_decide as Hb; [|split_and?; [cbn [length]; lia..|]; by rewrite !take_0]. subst b2.
  destruct (IH k2) as (Hle & Hle2 & Heq).
  split; [cbn [length]; lia|]. split; [cbn [length]; lia|].
  replace (z2n (1 + common_length k1 k2)) with (S (z2n (common_length k1 k2))) by lia.
  cbn. by rewrite Heq.
Qed.

Lemma get_common_part_spec bt k1 k2 :
  0 <= get_common_part bt k1 k2 <= lenZ k1 /\ get_common_part bt k1 k2 <= lenZ k2 /\
  take (z2n (get_common_part bt k1 k2)) k1 = take (z2n (get_common_part bt k1 k2)) k2.
Proof.
  destruct (common_length_spec k1 k2) as (? & ? & ?). unfold get_common_part.
  repeat case_if; change (z2n 0) with 0%nat; rewrite ?take_0; split_and?; try done; lia.
Qed.
