(* ===== verification/LeafNode.v ===== *)
(** * The compact b-tree leaf (btree/btree_var_leaf.c)

    A leaf page holds an array of entry headers that grows to the right and a
    data area of variable-size entries (metadata, key suffix, data) that grows
    to the left. The model keeps the two regions: [headers] is the array of
    [nkeys] headers, [area] the bytes from [insert_ptr] to the end of the
    page; the dead bytes between them are not represented. A pointer into the
    area is the suffix of the area that starts there. Operations are partial:
    [None] is a failed assertion or an access outside the page. *)

From S2P Require Import Prelude LeafMeta.

(** ** Data *)

(** [key_meta_type] and [tombstone] share the first byte of the packed
    header; [header_offset] is a 16-bit offset from [insert_ptr]. *)
Record entry_header := mk_entry_header {
  eh_tombstone : bool;
  eh_meta_type : key_meta_type;
  header_offset : Z
}.

Record btree_raw_node := mk_btree_raw_node {
  nflags : Z;
  level : Z;
  logical_id : Z;
  next : Z;
  rightmost : Z;
  headers : list entry_header;
  area : list byte
}.

Definition LEAF_NODE : Z := 2.
Definition BAD_CHILD : Z := 0.

Definition nkeys (n : btree_raw_node) : Z := lenZ (headers n).
Definition insert_ptr (bt : btree_raw) (n : btree_raw_node) : Z :=
  nodesize bt - lenZ (area n).

Definition set_headers (n : btree_raw_node) (hs : list entry_header) : btree_raw_node :=
  mk_btree_raw_node (nflags n) (level n) (logical_id n) (next n) (rightmost n) hs (area n).
Definition set_area (n : btree_raw_node) (a : list byte) : btree_raw_node :=
  mk_btree_raw_node (nflags n) (level n) (logical_id n) (next n) (rightmost n) (headers n) a.
Definition set_next (n : btree_raw_node) (x : Z) : btree_raw_node :=
  mk_btree_raw_node (nflags n) (level n) (logical_id n) x (rightmost n) (headers n) (area n).
Definition set_offset (h : entry_header) (o : Z) : entry_header :=
  mk_entry_header (eh_tombstone h) (eh_meta_type h) (u16 o).
Definition set_eh_type (h : entry_header) (t : key_meta_type) : entry_header :=
  mk_entry_header (eh_tombstone h) t (header_offset h).

(** The key and its attributes as handed between the leaf and its callers. *)
Record key_info := mk_key_info {
  ki_ptr : Z;
  ki_key : list byte;
  ki_keylen : Z;
  ki_datalen : Z;
  ki_seqno : Z;
  ki_tombstone : bool
}.

Definition btree_leaf_init (n : btree_raw_node) : btree_raw_node :=
  mk_btree_raw_node LEAF_NODE (level n) (logical_id n) (next n) BAD_CHILD [] [].

Definition btree_leaf_num_entries (n : btree_raw_node) : Z := nkeys n.

Definition btree_leaf_used_space (bt : btree_raw) (n : btree_raw_node) : Z :=
  nkeys n * SIZEOF_ENTRY_HEADER + (nodesize bt - insert_ptr bt n).

Definition btree_leaf_get_nth_entry (n : btree_raw_node) (num : nat) : option entry_header :=
  headers n !! num.

(** ** Reading an entry *)

(** A compact entry repeats the metadata of the previous one. *)
Definition key_meta1_to_key_meta (prev : key_meta) (sq : Z) : key_meta :=
  set_compact (set_meta_type (set_seqno prev sq) BTREE_KEY_META_TYPE1) true.

Fixpoint btree_leaf_get_meta (n : btree_raw_node) (index : nat) : option key_meta :=
  h ← headers n !! index;
  let off := z2n (header_offset h) in
  km ← match eh_meta_type h with
       | BTREE_KEY_META_TYPE1 =>
           sq ← read_le (area n) off 8;
           match index with
           | O => None
           | S i => prev ← btree_leaf_get_meta n i; Some (key_meta1_to_key_meta prev sq)
           end
       | BTREE_KEY_META_TYPE2 => key_meta2_to_key_meta (area n) off key_meta_zero
       | BTREE_KEY_META_TYPE3 => key_meta3_to_key_meta (area n) off key_meta_zero
       | BTREE_KEY_META_TYPE4 => key_meta4_to_key_meta (area n) off key_meta_zero
       | BTREE_KEY_META_NONE => None
       end;
  let km := set_tombstone (set_meta_type km (eh_meta_type h)) (eh_tombstone h) in
  _ ← assert_ (negb (keylen km =? 0));
  _ ← assert_ (prefix_len km <=? keylen km);
  Some km.

(** Metadata at an explicit offset of the area, for an entry whose header
    offset is being computed. *)
Definition key_metax_to_key_meta (n : btree_raw_node) (off : nat) (t : key_meta_type)
    (index : nat) : option key_meta :=
  km ← match t with
       | BTREE_KEY_META_TYPE1 =>
           sq ← read_le (area n) off 8;
           prev ← btree_leaf_get_meta n index;
           Some (key_meta1_to_key_meta prev sq)
       | BTREE_KEY_META_TYPE2 => key_meta2_to_key_meta (area n) off key_meta_zero
       | BTREE_KEY_META_TYPE3 => key_meta3_to_key_meta (area n) off key_meta_zero
       | BTREE_KEY_META_TYPE4 => key_meta4_to_key_meta (area n) off key_meta_zero
       | BTREE_KEY_META_NONE => None
       end;
  Some (set_meta_type km t).

(** The key an entry's prefix points to, following the chain of prefixes for
    at most [fuel] entries. *)
Fixpoint get_key_prefix (fuel : nat) (n : btree_raw_node) (index : nat) : option (list byte) :=
  match fuel with
  | O => None
  | S fuel =>
      h ← headers n !! index;
      km ← btree_leaf_get_meta n index;
      if negb (prefix_len km =? 0) then get_key_prefix fuel n (z2n (prefix_idx km))
      else Some (drop (z2n (get_meta_type_to_size (meta_type km) + header_offset h)) (area n))
  end.

Definition btree_leaf_get_nth_key_info2 (n : btree_raw_node) (index : nat) : option key_info :=
  h ← headers n !! index;
  km ← btree_leaf_get_meta n index;
  prefix ← (if negb (prefix_len km =? 0)
            then get_key_prefix (S (length (headers n))) n (z2n (prefix_idx km))
            else Some []);
  let short_key := drop (z2n (header_offset h + get_meta_type_to_size (meta_type km))) (area n) in
  p ← read_bytes prefix 0 (z2n (prefix_len km));
  s ← read_bytes short_key 0 (z2n (keylen km - prefix_len km));
  Some (mk_key_info (ptr km) (p ++ s) (keylen km) (datalen km) (seqno km) (eh_tombstone h)).

(** The variant that allocates the key buffer; allocation does not fail in
    the model. *)
Definition btree_leaf_get_nth_key_info (n : btree_raw_node) (index : nat) : option key_info :=
  btree_leaf_get_nth_key_info2 n index.

Definition btree_leaf_is_key_tombstoned (n : btree_raw_node) (index : nat) : option bool :=
  h ← headers n !! index; Some (eh_tombstone h).

(** Pointer to the in-leaf data of an entry, and its full data length. *)
Definition btree_leaf_get_data_nth_key (n : btree_raw_node) (index : nat)
    : option (list byte * Z) :=
  _ ← assert_ (n2z index <? nkeys n);
  h ← headers n !! index;
  km ← btree_leaf_get_meta n index;
  Some (drop (z2n (header_offset h + get_meta_type_to_size (meta_type km)
                   + keylen km - prefix_len km)) (area n), datalen km).

Definition btree_leaf_get_nth_key (n : btree_raw_node) (index : nat)
    : option (list byte * Z * Z) :=
  ki ← btree_leaf_get_nth_key_info n index;
  Some (ki_key ki, ki_keylen ki, ki_seqno ki).

(** ** Fix-ups after a change of the page *)

(** Add [shift] to the prefix index of entry [index] when it lies past
    [base]; the 16-bit field is updated in place. *)
Definition adjust_field (a : list byte) (idx_off len_off len_w : nat) (base shift : Z)
    : option (list byte) :=
  pl ← read_le a len_off len_w;
  pi ← read_le a idx_off 2;
  if (0 <? pl) && (base <? pi) then write_bytes a idx_off (le_split 2 (pi + shift)) else Some a.

Definition btree_leaf_adjust_prefix_idx (n : btree_raw_node) (index : nat) (base shift : Z)
    : option btree_raw_node :=
  h ← headers n !! index;
  let off := z2n (header_offset h) in
  match eh_meta_type h with
  | BTREE_KEY_META_TYPE1 => Some n
  | BTREE_KEY_META_TYPE2 =>
      a ← adjust_field (area n) (off + 2) (off + 4) 1 base shift; Some (set_area n a)
  | BTREE_KEY_META_TYPE3 =>
      a ← adjust_field (area n) (off + 4) (off + 6) 2 base shift; Some (set_area n a)
  | BTREE_KEY_META_TYPE4 =>
      a ← adjust_field (area n) (off + 12) (off + 14) 4 base shift; Some (set_area n a)
  | BTREE_KEY_META_NONE => None
  end.

(** [count] entries starting at [from]. *)
Fixpoint btree_leaf_adjust_prefix_idxes (n : btree_raw_node) (from count : nat) (base shift : Z)
    : option btree_raw_node :=
  match count with
  | O => Some n
  | S count =>
      n' ← btree_leaf_adjust_prefix_idx n from base shift;
      btree_leaf_adjust_prefix_idxes n' (S from) count base shift
  end.

(** Recompute the offsets of the headers from the sizes of the entries. *)
Fixpoint adjust_offsets_loop (bt : btree_raw) (n : btree_raw_node) (count i : nat)
    (offset prev_prefix_len : Z) : option btree_raw_node :=
  match count with
  | O => Some n
  | S count =>
      h ← btree_leaf_get_nth_entry n i;
      let n := set_headers n (<[i := set_offset h offset]> (headers n)) in
      _ ← assert_ (offset <? lenZ (area n));
      km ← key_metax_to_key_meta n (z2n offset) (eh_meta_type h) i;
      _ ← assert_ ((prev_prefix_len =? 0) || (prefix_len km <=? prev_prefix_len));
      _ ← assert_ (negb (keylen km =? 0));
      let offset := offset + get_meta_type_to_size (eh_meta_type h) + keylen km - prefix_len km
                    + data_inleaf bt (keylen km) (datalen km) in
      _ ← assert_ (offset <=? lenZ (area n));
      adjust_offsets_loop bt n count (S i) offset (prefix_len km)
  end.

Definition btree_leaf_adjust_offsets (bt : btree_raw) (n : btree_raw_node) : option btree_raw_node :=
  adjust_offsets_loop bt n (length (headers n)) 0 0 0.

(** ** Writing entries *)

Definition build_key_prefix (bt : btree_raw) (n : btree_raw_node) (index : nat)
    (key : list byte) (km : key_meta) : option key_meta :=
  let km := set_prefix km 0 0 in
  match index with
  | O => Some km
  | S i =>
      prev_km ← btree_leaf_get_meta n i;
      ki ← btree_leaf_get_nth_key_info2 n i;
      Some (build_key_prefix_int bt (ki_key ki) key (n2z i) prev_km km)
  end.

(** A dry run copies nothing: the destination bytes are irrelevant. *)
Definition btree_memcpy (src : list byte) (len : nat) (dry_run : bool) : option (list byte) :=
  if dry_run then Some (replicate len Byte.x00) else read_bytes src 0 len.

Definition append_entry_to_tmp_buf (bt : btree_raw) (km : key_meta) (key : list byte)
    (data : list byte) (datalen_ : Z) (dry_run : bool) : option (key_meta_type * list byte) :=
  let '(t, meta) := key_meta_to_key_metax km in
  m ← btree_memcpy meta (length meta) dry_run;
  k ← btree_memcpy (drop (z2n (prefix_len km)) key) (z2n (keylen km - prefix_len km)) dry_run;
  d ← (if negb (big_object_kd bt (keylen km) (datalen km))
       then btree_memcpy data (z2n datalen_) dry_run
       else btree_memcpy data (z2n (btree_get_bigobj_inleaf bt (keylen km) (datalen km))) dry_run);
  Some (t, m ++ k ++ d).

(** The loop over the entries whose prefix the change may affect; it stops at
    the first entry that had no prefix, gets none and is not compact. Returns
    the new metadata types of the copied entries and their bytes. *)
Fixpoint copy_impacted_loop (bt : btree_raw) (n : btree_raw_node) (count idx : nat)
    (prev_key : list byte) (prev_key_index : Z) (prev_km : key_meta) (dry_run : bool)
    : option (list key_meta_type * list byte) :=
  match count with
  | O => Some ([], [])
  | S count =>
      ki ← btree_leaf_get_nth_key_info n idx;
      old_km ← btree_leaf_get_meta n idx;
      let new_km := build_key_prefix_int bt prev_key (ki_key ki) prev_key_index prev_km
        (mk_key_meta (ki_keylen ki) (ki_datalen ki) 0 0 (ki_ptr ki) (ki_seqno ki)
           false BTREE_KEY_META_NONE false) in
      _ ← assert_ (prefix_idx new_km <? nkeys n);
      if negb (bool_decide (meta_type old_km = BTREE_KEY_META_TYPE1))
         && ((prefix_len new_km =? 0) && (prefix_len old_km =? 0))
      then Some ([], [])
      else
        d ← btree_leaf_get_data_nth_key n idx;
        e ← append_entry_to_tmp_buf bt new_km (ki_key ki) d.1 d.2 dry_run;
        rest ← copy_impacted_loop bt n count (S idx) (ki_key ki) (prev_key_index + 1) new_km dry_run;
        Some (e.1 :: rest.1, e.2 ++ rest.2)
  end.

Definition copy_impacted_keys_to_tmp_buf (bt : btree_raw) (n : btree_raw_node) (from : nat)
    (prev_key_index : Z) (prev_key : option (list byte)) (prev_km : key_meta) (dry_run : bool)
    : option (list key_meta_type * list byte) :=
  match prev_key with
  | Some k => copy_impacted_loop bt n (length (headers n) - from) from k prev_key_index prev_km dry_run
  | None =>
      if decide (from < length (headers n))%nat then
        ki ← btree_leaf_get_nth_key_info n from;
        km ← btree_leaf_get_meta n from;
        d ← btree_leaf_get_data_nth_key n from;
        let first_km := mk_key_meta (ki_keylen ki) (ki_datalen ki) 0 0 (ki_ptr ki) (ki_seqno ki)
                          (tombstone km) (meta_type km) false in
        e ← append_entry_to_tmp_buf bt first_km (ki_key ki) d.1 d.2 dry_run;
        rest ← copy_impacted_loop bt n (length (headers n) - S from) (S from)
                 (ki_key ki) 0 first_km dry_run;
        Some (e.1 :: rest.1, e.2 ++ rest.2)
      else Some ([], [])
  end.

(** Store the metadata types of the copied entries in the header array. *)
Fixpoint set_types (hs : list entry_header) (ts : list key_meta_type) : list entry_header :=
  match hs, ts with
  | h :: hs', t :: ts' => set_eh_type h t :: set_types hs' ts'
  | _, _ => hs
  end.
