(* ===== verification/LeafOps.v ===== *)
(** * Operations on the b-tree leaf (btree/btree_var_leaf.c)

    Insertion, removal, update, split, the space check and the moves between
    sibling leaves, composed as the source composes them. *)

From S2P Require Import Prelude LeafMeta LeafNode.

(** Bytes of the area that hold the entries before [index]. *)
Definition bytes_before (bt : btree_raw) (n : btree_raw_node) (index : nat) : option Z :=
  match index with
  | O => Some 0
  | S i =>
      h ← headers n !! i;
      km ← btree_leaf_get_meta n i;
      Some (header_offset h + get_key_meta_space_used bt km)
  end.

(** The entries from [from] on, copied in bulk. *)
Definition copy_rest (n : btree_raw_node) (from : nat) (dry_run : bool) : option (list byte) :=
  h ← btree_leaf_get_nth_entry n from;
  btree_memcpy (drop (z2n (header_offset h)) (area n))
    (z2n (lenZ (area n) - header_offset h)) dry_run.

Definition btree_leaf_insert_key_index (bt : btree_raw) (n : btree_raw_node)
    (key data : list byte) (datalen_ : Z) (ki : key_info) (index : nat) (dry_run : bool)
    : option (btree_raw_node * Z) :=
  _ ← assert_ (ki_keylen ki =? lenZ key);
  _ ← assert_ (lenZ key <? max_key_size bt);
  let old_used_space := btree_leaf_used_space bt n in
  km ← build_key_prefix bt n index key
         (mk_key_meta (lenZ key) datalen_ 0 0 (ki_ptr ki) (ki_seqno ki)
            false BTREE_KEY_META_NONE false);
  let '(t, _) := key_meta_to_key_metax km in
  let km := set_meta_type km t in
  (* headers before the index, the new one, the rest *)
  let hdrs_before := take index (headers n) in
  let ent_hdr := mk_entry_header (ki_tombstone ki) t 0 in
  let hdrs_after := drop index (headers n) in
  (* entries before the index *)
  length_to_copy ← bytes_before bt n index;
  before ← btree_memcpy (area n) (z2n length_to_copy) dry_run;
  (* the new entry *)
  e ← append_entry_to_tmp_buf bt km (ki_key ki) data datalen_ dry_run;
  (* the impacted entries, one by one *)
  imp ← copy_impacted_keys_to_tmp_buf bt n index (n2z index) (Some key) km dry_run;
  let items_copied := (index + 1 + length imp.1)%nat in
  (* the others in bulk *)
  rest ← (if decide (length (headers n) + 1 <= items_copied)%nat then Some []
          else copy_rest n (items_copied - 1) dry_run);
  let new_area := before ++ e.2 ++ imp.2 ++ rest in
  let new_used_space := (nkeys n + 1) * SIZEOF_ENTRY_HEADER + lenZ new_area in
  _ ← assert_ (dry_run || (new_used_space <=? nodesize_less_hdr bt));
  let bytes_increased := i32 (new_used_space - old_used_space) in
  if dry_run then Some (n, bytes_increased)
  else
    let hdrs := hdrs_before ++ set_eh_type ent_hdr e.1 :: set_types hdrs_after imp.1 in
    n1 ← btree_leaf_adjust_offsets bt (set_area (set_headers n hdrs) new_area);
    n2 ← btree_leaf_adjust_prefix_idxes n1 items_copied
           (length (headers n) + 1 - items_copied) (n2z index - 1) 1;
    Some (n2, bytes_increased).

Definition btree_leaf_remove_key_index_int (bt : btree_raw) (n : btree_raw_node)
    (index : nat) (dry_run : bool) : option (btree_raw_node * Z) :=
  let old_used_space := btree_leaf_used_space bt n in
  let hdrs_before := take index (headers n) in
  let hdrs_after := drop (index + 1) (headers n) in
  length_to_copy ← bytes_before bt n index;
  before ← btree_memcpy (area n) (z2n length_to_copy) dry_run;
  _ ← btree_leaf_get_meta n index;
  prev ← match index with
         | O => Some (None, key_meta_zero)
         | S i =>
             ki ← btree_leaf_get_nth_key_info n i;
             km ← btree_leaf_get_meta n i;
             Some (Some (ki_key ki), km)
         end;
  imp ← copy_impacted_keys_to_tmp_buf bt n (index + 1) (n2z index - 1) prev.1 prev.2 dry_run;
  let items_copied := (index + length imp.1)%nat in
  rest ← (if decide (length (headers n) - 1 <= items_copied)%nat then Some []
          else copy_rest n (items_copied + 1) dry_run);
  let new_area := before ++ imp.2 ++ rest in
  let new_used_space := (nkeys n - 1) * SIZEOF_ENTRY_HEADER + lenZ new_area in
  let bytes_decreased := i32 (old_used_space - new_used_space) in
  if dry_run then Some (n, bytes_decreased)
  else
    (* the entries must not reach down into the header array *)
    _ ← assert_ (new_used_space <? nodesize_less_hdr bt);
    let hdrs := hdrs_before ++ set_types hdrs_after imp.1 in
    n1 ← btree_leaf_adjust_offsets bt (set_area (set_headers n hdrs) new_area);
    n2 ← btree_leaf_adjust_prefix_idxes n1 items_copied
           (length (headers n) - 1 - items_copied) (n2z index) (-1);
    Some (n2, bytes_decreased).

Definition btree_leaf_remove_key_index (bt : btree_raw) (n : btree_raw_node) (index : nat)
    : option (btree_raw_node * Z) :=
  btree_leaf_remove_key_index_int bt n index false.

Definition MAX_META_SIZE : Z :=
  get_meta_type_to_size BTREE_KEY_META_TYPE4 + SIZEOF_ENTRY_HEADER.
Definition BTREE_LEAF_ENTRY_MAX_SIZE (keylen_ datalen_ : Z) : Z :=
  keylen_ + datalen_ + MAX_META_SIZE.

(** Replace (or add) the entry at [index]. Returns the node, the bytes saved
    against the worst-case entry size and the growth of the node. *)
Definition btree_leaf_update_key (bt : btree_raw) (n : btree_raw_node) (key data : list byte)
    (datalen_ seqno_ ptr_ : Z) (insert_tombstone : bool) (index : nat) (key_exists : bool)
    : option (btree_raw_node * Z * Z) :=
  _ ← assert_ (lenZ key <? max_key_size bt);
  let ki := mk_key_info ptr_ key (lenZ key) datalen_ seqno_ insert_tombstone in
  r ← (if key_exists then btree_leaf_remove_key_index_int bt n index false else Some (n, 0));
  let '(n1, bytes_decreased) := r in
  i ← btree_leaf_insert_key_index bt n1 key data datalen_ ki index false;
  let '(n2, bytes_increased) := i in
  let size_expected := i32 (BTREE_LEAF_ENTRY_MAX_SIZE (lenZ key) datalen_) in
  let size_increased := i32 (bytes_increased - bytes_decreased) in
  Some (n2, i32 (size_expected - size_increased), size_increased).

(** Would the entry not fit? *)
Definition btree_leaf_is_full_index (bt : btree_raw) (n : btree_raw_node) (key : list byte)
    (datalen_ : Z) (insert_tombstone key_exists : bool) (index : nat) : option bool :=
  let used_space := btree_leaf_used_space bt n in
  let bytes_free := nodesize_less_hdr bt - used_space in
  if (nkeys n <=? n2z index)
     && (i32 (BTREE_LEAF_ENTRY_MAX_SIZE (lenZ key) (data_inleaf bt (lenZ key) datalen_)) <? bytes_free)
  then Some false
  else
    bytes_needed ←
      (if key_exists then
         km ← btree_leaf_get_meta n index;
         let old_datalen := datalen km in
         let new_meta_type := get_key_meta_type (set_datalen (set_compact km false) datalen_) in
         let new_datalen := data_inleaf bt (lenZ key) datalen_ in
         let old_datalen := data_inleaf bt (lenZ key) old_datalen in
         let needed := i32 (new_datalen - old_datalen + get_meta_type_to_size new_meta_type) in
         Some (if needed <? 0 then 0 else needed)
       else
         let ki := mk_key_info (if big_object_kd bt (lenZ key) datalen_ then 0xdeadc0de else 0)
                     key (lenZ key) datalen_ 0 insert_tombstone in
         r ← btree_leaf_insert_key_index bt n key [] datalen_ ki index true;
         Some r.2);
    Some (bytes_free <? bytes_needed).

(** ** Splitting *)

(** The two scans of [btree_leaf_find_split_idx]; each visits at most the
    entries on one side of the middle. *)
Fixpoint split_scan_left (n : btree_raw_node) (middle_index : nat) (half_offset : Z) : option nat :=
  match middle_index with
  | O => Some O
  | S m =>
      h ← btree_leaf_get_nth_entry n m;
      if header_offset h - SIZEOF_ENTRY_HEADER <=? half_offset then Some m
      else split_scan_left n m half_offset
  end.

Fixpoint split_scan_right (n : btree_raw_node) (count middle_index : nat) (half_offset : Z)
    : option nat :=
  match count with
  | O => Some middle_index
  | S count =>
      h ← btree_leaf_get_nth_entry n (S middle_index);
      if half_offset <? header_offset h + SIZEOF_ENTRY_HEADER then Some middle_index
      else split_scan_right n count (S middle_index) half_offset
  end.

Definition btree_leaf_find_split_idx (bt : btree_raw) (n : btree_raw_node) : option nat :=
  let middle_index := (length (headers n) / 2)%nat in
  let half_offset := btree_leaf_used_space bt n / 2 in
  h ← btree_leaf_get_nth_entry n middle_index;
  m ← (if half_offset <? header_offset h + SIZEOF_ENTRY_HEADER * n2z middle_index
       then split_scan_left n middle_index half_offset
       else split_scan_right n (length (headers n) - 1 - middle_index) middle_index half_offset);
  let m := if nkeys n - 1 <=? n2z m then nkeys n - 2 else n2z m in
  if m <? 0 then None else Some (z2n m).

Record split_result := mk_split_result {
  sr_from : btree_raw_node;
  sr_to : btree_raw_node;
  sr_key : list byte;
  sr_keylen : Z;
  sr_seqno : Z;
  sr_bytes_increased : Z
}.

Definition btree_leaf_split (bt : btree_raw) (from_node to_node : btree_raw_node) (split_key : nat)
    : option split_result :=
  let used_space_old := btree_leaf_used_space bt from_node in
  middle_index ← (match split_key with
                  | O => btree_leaf_find_split_idx bt from_node
                  | S m => Some m
                  end);
  (* the left part, unchanged *)
  ent_hdr ← btree_leaf_get_nth_entry from_node (middle_index + 1);
  left_area ← btree_memcpy (area from_node) (z2n (header_offset ent_hdr)) false;
  let left_hdrs := take (middle_index + 1) (headers from_node) in
  (* the right part: the impacted entries, then the others in bulk *)
  let hdrs := drop (middle_index + 1) (headers from_node) in
  imp ← copy_impacted_keys_to_tmp_buf bt from_node (middle_index + 1) 0 None key_meta_zero false;
  let j := length imp.1 in
  rest ← (if nkeys from_node - 1 <? n2z (j + middle_index + 1) then Some []
          else copy_rest from_node (j + middle_index + 1) false);
  let to1 := set_area (set_headers to_node (set_types hdrs imp.1)) (imp.2 ++ rest) in
  to2 ← btree_leaf_adjust_offsets bt to1;
  to3 ← btree_leaf_adjust_prefix_idxes to2 0 (length (headers to2)) 0 (- (n2z middle_index + 1));
  k ← btree_leaf_get_nth_key from_node middle_index;
  let '(key_out, key_out_len, seqno_out) := k in
  let from1 := set_area (set_headers from_node left_hdrs) left_area in
  let used_space_new := btree_leaf_used_space bt from1 + btree_leaf_used_space bt to3 in
  Some (mk_split_result from1 to3 key_out key_out_len seqno_out
          (i32 (used_space_new - used_space_old))).

(** ** Moving entries between leaves *)

(** Copy up to [num_keys] entries; stops when the target is full or has
    reached [size_limit] (0: no limit). Returns the target and the number of
    entries copied. *)
Fixpoint btree_leaf_copy_keys (bt : btree_raw) (from_node : btree_raw_node) (from_index : nat)
    (to_node : btree_raw_node) (to_index num_keys : nat) (size_limit : Z)
    : option (btree_raw_node * nat) :=
  match num_keys with
  | O => Some (to_node, O)
  | S num_keys =>
      ki ← btree_leaf_get_nth_key_info from_node from_index;
      d ← btree_leaf_get_data_nth_key from_node from_index;
      full ← btree_leaf_is_full_index bt to_node (ki_key ki) (ki_datalen ki) false false to_index;
      if (full : bool) then Some (to_node, O)
      else
        r ← btree_leaf_insert_key_index bt to_node (ki_key ki) d.1 d.2 ki to_index false;
        let used_space := btree_leaf_used_space bt r.1 in
        if negb (size_limit =? 0) && (size_limit <=? used_space) then Some (r.1, 1%nat)
        else
          s ← btree_leaf_copy_keys bt from_node (S from_index) r.1 (S to_index) num_keys size_limit;
          Some (s.1, S s.2)
  end.

Definition btree_leaf_move_key (bt : btree_raw) (from : btree_raw_node) (from_idx : nat)
    (to : btree_raw_node) (to_idx : nat) : option (btree_raw_node * btree_raw_node) :=
  ki ← btree_leaf_get_nth_key_info2 from from_idx;
  d ← btree_leaf_get_data_nth_key from from_idx;
  r ← btree_leaf_insert_key_index bt to (ki_key ki) d.1 d.2 ki to_idx false;
  s ← btree_leaf_remove_key_index bt from from_idx;
  Some (s.1, r.1).

Definition last_index (n : btree_raw_node) : nat := (length (headers n) - 1)%nat.

(** The last key of a node; reading it from an empty node is out of bounds. *)
Definition last_key_info (n : btree_raw_node) : option key_info :=
  btree_leaf_get_nth_key_info2 n (last_index n).

(** Give keys back until the last key of [to_node] fits the parent. *)
Fixpoint shift_left_back (bt : btree_raw) (keys_moved : nat) (to_node tmp : btree_raw_node)
    (ki : key_info) (max_keylen : Z) : option (btree_raw_node * btree_raw_node * nat) :=
  if negb (max_keylen <? ki_keylen ki) then Some (to_node, tmp, keys_moved)
  else match keys_moved with
       | O => Some (to_node, tmp, O)
       | S keys_moved =>
           r ← btree_leaf_move_key bt to_node (last_index to_node) tmp 0;
           ki ← last_key_info r.1;
           shift_left_back bt keys_moved r.1 r.2 ki max_keylen
       end.

(** Balance two siblings by moving the first keys of [from_node] to the end
    of [to_node]. Returns both nodes and the key information of the new last
    key of [to_node], [None] when nothing was moved. *)
Definition btree_leaf_shift_left (bt : btree_raw) (from_node to_node : btree_raw_node)
    (max_keylen : Z) : option (btree_raw_node * btree_raw_node * option key_info) :=
  let tmp := btree_leaf_init from_node in
  let avg_size := (btree_leaf_used_space bt from_node + btree_leaf_used_space bt to_node) / 2 in
  let nkeys_from := length (headers from_node) in
  let nkeys_to := length (headers to_node) in
  c ← btree_leaf_copy_keys bt from_node 0 to_node nkeys_to nkeys_from avg_size;
  let '(to_node, keys_copied) := c in
  t ← btree_leaf_copy_keys bt from_node keys_copied tmp 0 (nkeys_from - keys_copied) 0;
  ki ← last_key_info to_node;
  b ← shift_left_back bt keys_copied to_node t.1 ki max_keylen;
  let '(to_node, tmp, keys_moved) := b in
  let from_node := set_area (set_headers from_node (headers tmp)) (area tmp) in
  if decide (keys_moved = 0%nat) then Some (from_node, to_node, None)
  else ki ← last_key_info to_node; Some (from_node, to_node, Some ki).

(** Move the last keys of [from_node] to the front of [to_node] until the
    target holds more than the average. *)
Fixpoint shift_right_loop (bt : btree_raw) (copy_idx : nat) (from_node to_node : btree_raw_node)
    (avg_size : Z) : option (btree_raw_node * btree_raw_node * nat) :=
  match copy_idx with
  | O => Some (from_node, to_node, O)
  | S copy_idx' =>
      ki ← btree_leaf_get_nth_key_info2 from_node copy_idx;
      full ← btree_leaf_is_full_index bt to_node (ki_key ki) (ki_datalen ki) false false 0;
      if (full : bool) then Some (from_node, to_node, O)
      else
        r ← btree_leaf_move_key bt from_node copy_idx to_node 0;
        if avg_size <? btree_leaf_used_space bt r.2 then Some (r.1, r.2, 1%nat)
        else
          s ← shift_right_loop bt copy_idx' r.1 r.2 avg_size;
          Some (s.1, S s.2)
  end.

Fixpoint shift_right_back (bt : btree_raw) (keys_moved : nat) (from_node to_node : btree_raw_node)
    (ki : key_info) (max_keylen : Z) : option (btree_raw_node * btree_raw_node * nat) :=
  if negb (max_keylen <? ki_keylen ki) then Some (from_node, to_node, keys_moved)
  else match keys_moved with
       | O => Some (from_node, to_node, O)
       | S keys_moved =>
           r ← btree_leaf_move_key bt to_node 0 from_node (length (headers from_node));
           ki ← last_key_info r.2;
           shift_right_back bt keys_moved r.2 r.1 ki max_keylen
       end.

Definition btree_leaf_shift_right (bt : btree_raw) (from_node to_node : btree_raw_node)
    (max_keylen : Z) : option (btree_raw_node * btree_raw_node * option key_info) :=
  let avg_size := (btree_leaf_used_space bt from_node + btree_leaf_used_space bt to_node) / 2 in
  r ← shift_right_loop bt (length (headers from_node) - 1) from_node to_node avg_size;
  let '(from_node, to_node, keys_moved) := r in
  ki ← last_key_info from_node;
  b ← shift_right_back bt keys_moved from_node to_node ki max_keylen;
  let '(from_node, to_node, keys_moved) := b in
  if decide (keys_moved = 0%nat) then Some (from_node, to_node, None)
  else ki ← last_key_info from_node; Some (from_node, to_node, Some ki).

(** Append [from_node] to its left sibling. [false]: not everything fitted
    (the target then holds part of the keys and the caller drops it). *)
Definition btree_leaf_merge_left (bt : btree_raw) (from_node to_node : btree_raw_node)
    : option (btree_raw_node * btree_raw_node * bool) :=
  let nkeys_from := length (headers from_node) in
  c ← btree_leaf_copy_keys bt from_node 0 to_node (length (headers to_node)) nkeys_from
        (nodesize_less_hdr bt);
  let '(to_node, keys_copied) := c in
  if decide (keys_copied <> nkeys_from) then Some (from_node, to_node, false)
  else Some (set_area (set_headers from_node []) [], set_next to_node (next from_node), true).

Definition btree_leaf_merge_right (bt : btree_raw) (from_node to_node : btree_raw_node)
    : option (btree_raw_node * btree_raw_node) :=
  let tmp := btree_leaf_init to_node in
  let nkeys_from := length (headers from_node) in
  let nkeys_to := length (headers to_node) in
  c ← btree_leaf_copy_keys bt from_node 0 tmp 0 nkeys_from 0;
  _ ← assert_ (bool_decide (c.2 = nkeys_from));
  c' ← btree_leaf_copy_keys bt to_node 0 c.1 nkeys_from nkeys_to 0;
  _ ← assert_ (bool_decide (c'.2 = nkeys_to));
  Some (set_area (set_headers from_node []) [],
        set_area (set_headers to_node (headers c'.1)) (area c'.1)).

(** Forget the overflow data of an entry (asynchronous delete). *)
Definition btree_leaf_unset_dataptr (n : btree_raw_node) (index : nat) (datalen_ : Z)
    : option btree_raw_node :=
  h ← headers n !! index;
  let off := z2n (header_offset h) in
  match eh_meta_type h with
  | BTREE_KEY_META_TYPE1 => None
  | BTREE_KEY_META_TYPE2 => None
  | BTREE_KEY_META_TYPE3 =>
      a ← write_bytes (area n) (off + 8) (le_split 8 0);
      a ← write_bytes a (off + 2) (le_split 2 datalen_);
      Some (set_area n a)
  | BTREE_KEY_META_TYPE4 =>
      a ← write_bytes (area n) (off + 18) (le_split 8 0);
      a ← write_bytes a (off + 4) (le_split 8 datalen_);
      Some (set_area n a)
  | BTREE_KEY_META_NONE => None
  end.
