(* ===== verification/LeafCells.v ===== *)
(** * What a leaf page means: entries, cells and the layout invariant

    An [entry] is what a leaf stores for the rest of the system: a key, its
    in-leaf data, its data length, overflow pointer, sequence number and
    tombstone. A [cell] is an entry together with its encoding choices (shared
    prefix, metadata format). [layout] says that a page is the rendering of a
    list of cells; [leaf_rep] that a page holds a list of entries. The lemmas
    here show that every accessor reads a page back correctly. *)

From S2P Require Import Prelude LeafMeta LeafNode LeafOps.

(** ** Entries and cells *)

Record entry := mk_entry {
  e_key : list byte;
  e_datalen : Z;
  e_data : list byte;
  e_ptr : Z;
  e_seqno : Z;
  e_tomb : bool
}.

Record cell := mk_cell {
  c_entry : entry;
  c_pidx : Z;
  c_plen : Z;
  c_type : key_meta_type
}.

Definition c_key (c : cell) : list byte := e_key (c_entry c).

(** The metadata of a cell. *)
Definition c_meta (c : cell) : key_meta :=
  let e := c_entry c in
  mk_key_meta (lenZ (e_key e)) (e_datalen e) (c_pidx c) (c_plen c) (e_ptr e) (e_seqno e)
    (e_tomb e) (c_type c) (bool_decide (c_type c = BTREE_KEY_META_TYPE1)).

Definition e_info (e : entry) : key_info :=
  mk_key_info (e_ptr e) (e_key e) (lenZ (e_key e)) (e_datalen e) (e_seqno e) (e_tomb e).

Definition cell_bytes (c : cell) : list byte :=
  key_metax_bytes (c_type c) (c_meta c) ++ drop (z2n (c_plen c)) (c_key c) ++ e_data (c_entry c).

Definition cells_area (cs : list cell) : list byte := concat (cell_bytes <$> cs).

Fixpoint cells_headers (off : Z) (cs : list cell) : list entry_header :=
  match cs with
  | [] => []
  | c :: cs => mk_entry_header (e_tomb (c_entry c)) (c_type c) off
               :: cells_headers (off + lenZ (cell_bytes c)) cs
  end.

(** ** Well-formedness *)

(** What the callers of the leaf code pass: a non-empty key below the size
    limits, the in-leaf part of the data, and an overflow pointer exactly for
    big objects. *)
Record entry_ok (bt : btree_raw) (e : entry) : Prop := {
  eo_key : 0 < lenZ (e_key e) < max_key_size bt;
  eo_big_key : lenZ (e_key e) <= big_object_size bt;
  eo_datalen : 0 <= e_datalen e < 2 ^ 64;
  eo_data : lenZ (e_data e) = data_inleaf bt (lenZ (e_key e)) (e_datalen e);
  eo_ptr : 0 <= e_ptr e < 2 ^ 64;
  eo_seqno : 0 <= e_seqno e < 2 ^ 64;
  eo_big : e_ptr e = 0 <-> big_object_kd bt (lenZ (e_key e)) (e_datalen e) = false
}.

(** The metadata format of an entry that is not compact. *)
Definition size_type (e : entry) : key_meta_type :=
  if (lenZ (e_key e) <? MAX_UINT8_T) && (e_datalen e <? MAX_UINT8_T) then BTREE_KEY_META_TYPE2
  else if (lenZ (e_key e) <? MAX_UINT16_T) && (e_datalen e <? MAX_UINT16_T)
  then BTREE_KEY_META_TYPE3 else BTREE_KEY_META_TYPE4.

Record cell_ok (bt : btree_raw) (c : cell) : Prop := {
  co_entry : entry_ok bt (c_entry c);
  co_type : c_type c = BTREE_KEY_META_TYPE1 \/ c_type c = size_type (c_entry c);
  co_plen : 0 <= c_plen c <= lenZ (c_key c);
  co_pidx : 0 <= c_pidx c < 2 ^ 16;
  co_min : c_plen c = 0 \/ min_common_length bt <= c_plen c
}.

(** A compact cell repeats the metadata of its predecessor. *)
Definition compact_with (p c : cell) : Prop :=
  lenZ (c_key c) = lenZ (c_key p) /\ e_datalen (c_entry c) = e_datalen (c_entry p) /\
  c_plen c = c_plen p /\ c_pidx c = c_pidx p /\ e_ptr (c_entry c) = e_ptr (c_entry p).

(** A cell either stands alone or shares its prefix with its predecessor,
    and then no more of it than the predecessor shares itself. *)
Definition wlink (prev : option cell) (c : cell) : Prop :=
  (c_plen c = 0 /\ c_type c <> BTREE_KEY_META_TYPE1) \/
  exists p, prev = Some p /\ 0 < c_plen c /\ c_plen c <= lenZ (c_key p) /\
    take (z2n (c_plen c)) (c_key c) = take (z2n (c_plen c)) (c_key p) /\
    (c_plen p <> 0 -> c_plen c <= c_plen p) /\
    (c_type c = BTREE_KEY_META_TYPE1 -> compact_with p c).

(** The prefix index points to the head of the run of cells that share the
    prefix; [idx] is the position of [c]. *)
Definition plink (idx : Z) (prev : option cell) (c : cell) : Prop :=
  c_plen c <> 0 ->
  exists p, prev = Some p /\
    c_pidx c = if decide (c_plen p = 0) then idx - 1 else c_pidx p.

Fixpoint wchain (bt : btree_raw) (prev : option cell) (cs : list cell) : Prop :=
  match cs with
  | [] => True
  | c :: cs => cell_ok bt c /\ wlink prev c /\ wchain bt (Some c) cs
  end.

Fixpoint pchain (idx : Z) (prev : option cell) (cs : list cell) : Prop :=
  match cs with
  | [] => True
  | c :: cs => plink idx prev c /\ pchain (idx + 1) (Some c) cs
  end.

(** The page renders the cells. *)
Definition layout (n : btree_raw_node) (cs : list cell) : Prop :=
  headers n = cells_headers 0 cs /\ area n = cells_area cs.

Definition cells_ok (bt : btree_raw) (cs : list cell) : Prop :=
  wchain bt None cs /\ pchain 0 None cs.

(** The page fits its node. *)
Definition cells_fit (bt : btree_raw) (cs : list cell) : Prop :=
  lenZ cs * SIZEOF_ENTRY_HEADER + lenZ (cells_area cs) <= nodesize_less_hdr bt.

(** A leaf page holds the entries [es]. *)
Definition leaf_rep (bt : btree_raw) (n : btree_raw_node) (es : list entry) : Prop :=
  exists cs, layout n cs /\ cells_ok bt cs /\ cells_fit bt cs /\ es = c_entry <$> cs.

(** ** Rendering *)

Lemma cells_area_app cs1 cs2 : cells_area (cs1 ++ cs2) = cells_area cs1 ++ cells_area cs2.
Proof. unfold cells_area. by rewrite fmap_app, concat_app. Qed.

Lemma cells_area_cons c cs : cells_area (c :: cs) = cell_bytes c ++ cells_area cs.
Proof. done. Qed.

Lemma length_cells_headers off cs : length (cells_headers off cs) = length cs.
Proof. revert off; induction cs as [|c cs IH]; intros off; cbn; [done|by rewrite IH]. Qed.

Lemma cells_headers_app off cs1 cs2 :
  cells_headers off (cs1 ++ cs2) =
  cells_headers off cs1 ++ cells_headers (off + lenZ (cells_area cs1)) cs2.
Proof.
  revert off; induction cs1 as [|c cs1 IH]; intros off; cbn [app cells_headers].
  { f_equal. cbn. lia. }
  rewrite IH, cells_area_cons. do 3 f_equal. rewrite length_app. lia.
Qed.

Lemma cells_headers_lookup cs i c off :
  cs !! i = Some c ->
  cells_headers off cs !! i =
    Some (mk_entry_header (e_tomb (c_entry c)) (c_type c) (off + lenZ (cells_area (take i cs)))).
Proof.
  revert i off; induction cs as [|d cs IH]; intros [|i] off;
    cbn [lookup list_lookup cells_headers take]; [done..| |].
  { intros [= ->]. do 2 f_equal. cbn. lia. }
  intros Hi. rewrite (IH _ _ Hi), cells_area_cons. do 2 f_equal. rewrite length_app. lia.
Qed.

Lemma area_split cs i c :
  cs !! i = Some c ->
  cells_area cs = cells_area (take i cs) ++ cell_bytes c ++ cells_area (drop (S i) cs).
Proof.
  intros Hi. rewrite (list_split_at cs i c Hi) at 1.
  by rewrite cells_area_app, cells_area_cons.
Qed.

(** ** Formats and sizes *)

Lemma size_type_not1 e : size_type e <> BTREE_KEY_META_TYPE1.
Proof. unfold size_type. repeat case_if; done. Qed.

Lemma cell_meta_fits bt c : bt_ok bt -> cell_ok bt c -> meta_fits (c_type c) (c_meta c).
Proof.
  intros Hbt [[Hk Hkb Hd Hdata Hp Hs Hb] Ht Hpl Hpi Hmn]. unfold meta_fits, c_meta, c_key in *; cbn.
  pose proof (bt_big _ Hbt). pose proof (bt_node _ Hbt). pose proof (bt_node_max _ Hbt).
  unfold BTREE_MAX_NODE_SIZE, SIZEOF_BTREE_RAW_NODE, MAX_UINT8_T in *.
  split; [lia|].
  destruct Ht as [->| ->]; [done|].
  unfold size_type, MAX_UINT8_T, MAX_UINT16_T. repeat case_if; b2p; [|lia..].
  split_and?; try lia. apply Hb. unfold big_object_kd. apply Z.leb_gt. lia.
Qed.

Lemma length_cell_bytes bt c :
  cell_ok bt c -> lenZ (cell_bytes c) = get_key_meta_space_used bt (c_meta c).
Proof.
  intros [[Hk Hkb Hd Hdata Hp Hs Hb] Ht Hpl Hpi Hmn]. unfold cell_bytes, get_key_meta_space_used.
  rewrite !length_app, length_key_metax_bytes, length_drop. unfold c_key in *. cbn.
  assert (0 <= get_meta_type_to_size (c_type c)) by (destruct (c_type c); cbn; lia).
  lia.
Qed.

Lemma cell_bytes_pos bt c : bt_ok bt -> cell_ok bt c -> 8 <= lenZ (cell_bytes c).
Proof.
  intros Hbt Hc. rewrite (length_cell_bytes bt) by done. unfold get_key_meta_space_used; cbn.
  destruct Hc as [[Hk Hkb Hd Hdata Hp Hs Hb] Ht Hpl Hpi Hmn]. unfold c_key in *.
  pose proof (data_inleaf_bound bt (lenZ (e_key (c_entry c))) (e_datalen (c_entry c)) Hbt).
  assert (8 <= get_meta_type_to_size (c_type c)); [|lia].
  destruct Ht as [->| ->]; [done|]. unfold size_type. repeat case_if; cbn; lia.
Qed.

(** ** Chains of cells *)

Definition prev_of (prev : option cell) (cs : list cell) (i : nat) : option cell :=
  match i with O => prev | S j => cs !! j end.

Lemma wchain_lookup bt prev cs i c :
  wchain bt prev cs -> cs !! i = Some c -> cell_ok bt c /\ wlink (prev_of prev cs i) c.
Proof.
  revert prev i; induction cs as [|d cs IH]; intros prev [|i]; cbn [wchain lookup list_lookup];
    [done..| |].
  - intros (Hok & Hl & _) [= ->]. done.
  - intros (_ & _ & Hw) Hi. destruct (IH _ _ Hw Hi) as [Hok Hl]. split; [done|].
    by destruct i.
Qed.

Lemma pchain_lookup idx prev cs i c :
  pchain idx prev cs -> cs !! i = Some c -> plink (idx + n2z i) (prev_of prev cs i) c.
Proof.
  revert idx prev i; induction cs as [|d cs IH]; intros idx prev [|i];
    cbn [pchain lookup list_lookup]; [done..| |].
  - intros (Hl & _) [= ->]. by rewrite Z.add_0_r.
  - intros (_ & Hw) Hi. pose proof (IH _ _ _ Hw Hi) as Hl.
    replace (idx + n2z (S i)) with (idx + 1 + n2z i) by lia. by destruct i.
Qed.

Lemma wchain_app bt prev cs1 cs2 :
  wchain bt prev (cs1 ++ cs2) <->
  wchain bt prev cs1 /\ wchain bt (match list.last cs1 with Some c => Some c | None => prev end) cs2.
Proof.
  revert prev; induction cs1 as [|c cs1 IH]; intros prev; cbn [app wchain]; [tauto|].
  rewrite IH. rewrite last_cons. destruct (list.last cs1); tauto.
Qed.

Lemma pchain_app idx prev cs1 cs2 :
  pchain idx prev (cs1 ++ cs2) <->
  pchain idx prev cs1 /\
  pchain (idx + lenZ cs1) (match list.last cs1 with Some c => Some c | None => prev end) cs2.
Proof.
  revert idx prev; induction cs1 as [|c cs1 IH]; intros idx prev; cbn [app pchain length].
  { cbn. rewrite Z.add_0_r. tauto. }
  rewrite IH, last_cons.
  replace (idx + 1 + lenZ cs1) with (idx + n2z (S (length cs1))) by lia.
  destruct (list.last cs1); tauto.
Qed.

(** A cell that stands alone may follow any predecessor. *)
Lemma wchain_head_free bt prev prev' c cs :
  wchain bt prev (c :: cs) -> c_plen c = 0 -> c_type c <> BTREE_KEY_META_TYPE1 ->
  wchain bt prev' (c :: cs).
Proof. cbn. intros (Hok & _ & Hw) Hp Ht. split; [done|]. split; [by left|done]. Qed.

Lemma wchain_ok bt prev cs : wchain bt prev cs -> Forall (cell_ok bt) cs.
Proof.
  revert prev; induction cs as [|c cs IH]; intros prev; cbn; [done|].
  intros (Hok & _ & Hw). constructor; [done|by eapply IH].
Qed.

(** The head of the run a cell belongs to. *)
Lemma run_head bt cs i c :
  wchain bt None cs -> pchain 0 None cs -> cs !! i = Some c -> c_plen c <> 0 ->
  exists h, cs !! z2n (c_pidx c) = Some h /\ 0 <= c_pidx c < n2z i /\ c_plen h = 0 /\
    c_plen c <= lenZ (c_key h) /\
    take (z2n (c_plen c)) (c_key c) = take (z2n (c_plen c)) (c_key h).
Proof.
  intros Hw Hp. revert c; induction i as [|i IH]; intros c Hi Hpl.
  { destruct (pchain_lookup _ _ _ _ _ Hp Hi Hpl) as (p & [=] & _). }
  destruct (wchain_lookup _ _ _ _ _ Hw Hi) as [Hok [[? _]|Hlink]]; [done|].
  destruct Hlink as (p & Hprev & Hpos & Hle & Htake & Hmono & _).
  destruct (pchain_lookup _ _ _ _ _ Hp Hi Hpl) as (p' & Hprev' & Hidx).
  cbn in Hprev, Hprev'. rewrite Hprev in Hprev'. injection Hprev' as <-.
  case_decide as Hp0.
  - exists p. rewrite Hidx. replace (z2n (0 + n2z (S i) - 1)) with i by lia.
    split; [done|]. split; [lia|]. done.
  - destruct (IH p Hprev Hp0) as (h & Hh & Hrange & Hh0 & Hlen & Htk).
    specialize (Hmono Hp0). exists h. rewrite Hidx. split; [done|]. split; [lia|].
    split; [done|]. split; [lia|].
    rewrite Htake.
    replace (z2n (c_plen c)) with (z2n (c_plen c) `min` z2n (c_plen p))%nat by lia.
    by rewrite <- !take_take, Htk.
Qed.

(** ** Reading a page back *)

Lemma btree_leaf_get_meta_eq n index :
  btree_leaf_get_meta n index =
  (h ← headers n !! index;
   let off := z2n (header_offset h) in
   km ← match eh_meta_type h with
        | BTREE_KEY_META_TYPE1 =>
            sq ← read_le (area n) off 8;
            match index with
            | O => None
            | S i => prev ← btree_leaf_get_meta n i; Some (key_meta1_to_key_meta prev sq)
            end
        | BTREE_KEY_META_TYPE2 => key_meta2_to_key_meta (area n) off key_meta_zero
        | BTREE_KEY_META_TYPE3 => key_meta3_to_key_meta (area n) off key_meta_zero
        | BTREE_KEY_META_TYPE4 => key_meta4_to_key_meta (area n) off key_meta_zero
        | BTREE_KEY_META_NONE => None
        end;
   let km := set_tombstone (set_meta_type km (eh_meta_type h)) (eh_tombstone h) in
   _ ← assert_ (negb (keylen km =? 0));
   _ ← assert_ (prefix_len km <=? keylen km);
   Some km).
Proof. by destruct index. Qed.

(** Entry [j] of the page has the header of cell [j]. *)
Definition hdr_ok (n : btree_raw_node) (cs : list cell) (j : nat) : Prop :=
  headers n !! j = cells_headers 0 cs !! j.

(** The packed metadata at the start of a cell. *)
Lemma cell_decode bt cs i c km0 :
  bt_ok bt -> cell_ok bt c -> cs !! i = Some c ->
  let a := cells_area cs in
  let off := length (cells_area (take i cs)) in
  let dec := mk_key_meta (lenZ (c_key c)) (e_datalen (c_entry c)) (c_pidx c) (c_plen c)
               (e_ptr (c_entry c)) (e_seqno (c_entry c))
               (tombstone km0) (meta_type km0) (compact_meta km0) in
  match c_type c with
  | BTREE_KEY_META_NONE => False
  | BTREE_KEY_META_TYPE1 => read_le a off 8 = Some (e_seqno (c_entry c))
  | BTREE_KEY_META_TYPE2 => key_meta2_to_key_meta a off km0 = Some dec
  | BTREE_KEY_META_TYPE3 => key_meta3_to_key_meta a off km0 = Some dec
  | BTREE_KEY_META_TYPE4 => key_meta4_to_key_meta a off km0 = Some dec
  end.
Proof.
  intros Hbt Hok Hi. pose proof (cell_meta_fits _ _ Hbt Hok) as Hfit.
  cbn zeta. rewrite (area_split _ _ _ Hi). unfold cell_bytes. rewrite <- !app_assoc.
  destruct (c_type c) eqn:Ht; [by destruct Hfit| | | |].
  - by rewrite key_meta1_decode.
  - by rewrite key_meta2_decode.
  - by rewrite key_meta3_decode.
  - by rewrite key_meta4_decode.
Qed.

Lemma get_meta_ok bt n cs i c :
  bt_ok bt -> wchain bt None cs -> area n = cells_area cs ->
  (forall j, (j <= i)%nat -> hdr_ok n cs j) -> cs !! i = Some c ->
  btree_leaf_get_meta n i = Some (c_meta c).
Proof.
  intros Hbt Hw Ha. revert c; induction i as [|i IH]; intros c Hh Hi;
    rewrite btree_leaf_get_meta_eq, (Hh _ (le_n _)), (cells_headers_lookup _ _ _ _ Hi); runs;
    cbn [eh_meta_type header_offset eh_tombstone]; rewrite Z.add_0_l, Nat2Z.id, Ha;
    destruct (wchain_lookup _ _ _ _ _ Hw Hi) as [Hok Hlink];
    pose proof (cell_decode bt cs _ c key_meta_zero Hbt Hok Hi) as Hdec;
    destruct (co_entry _ _ Hok) as [Hkey _ _ _ _ _ _]; pose proof (co_plen _ _ Hok) as Hpl;
    unfold c_key in *; cbn zeta in *;
    assert (negb (lenZ (e_key (c_entry c)) =? 0) = true) as Hb1
      by (apply negb_true_iff, Z.eqb_neq; lia);
    assert ((c_plen c <=? lenZ (e_key (c_entry c))) = true) as Hb2 by (apply Z.leb_le; lia);
    destruct (c_type c) eqn:Ht; try done;
    try (rewrite Hdec; runs; cbn [keylen prefix_len set_tombstone set_meta_type];
         rewrite Hb1, Hb2; unfold c_meta; by rewrite Ht).
  - destruct Hlink as [[_ ?]|(p & [=] & _)]; done.
  - destruct Hlink as [[_ ?]|(p & Hp & _ & _ & _ & _ & Hc)]; [done|].
    destruct (Hc Ht) as (Hlen & Hdl & Hpll & Hpi & Hptr).
    rewrite Hdec; runs. rewrite (IH p); [|intros j Hj; apply Hh; lia|exact Hp]. runs.
    unfold c_meta, key_meta1_to_key_meta, c_key in *.
    cbn [keylen prefix_len datalen prefix_idx ptr seqno set_tombstone set_meta_type set_compact set_seqno].
    rewrite <- Hlen, <- Hdl, <- Hpll, <- Hpi, <- Hptr, Hb1, Hb2. by rewrite Ht.
Qed.

(** What a copy leaves in the destination: the bytes, or nothing of interest
    in a dry run. *)
Definition copied (dry_run : bool) (bs : list byte) : list byte :=
  if dry_run then replicate (length bs) Byte.x00 else bs.

Lemma length_copied dry bs : length (copied dry bs) = length bs.
Proof. destruct dry; cbn; [by rewrite length_replicate|done]. Qed.

Lemma copied_app dry bs1 bs2 : copied dry (bs1 ++ bs2) = copied dry bs1 ++ copied dry bs2.
Proof. destruct dry; cbn; [|done]. by rewrite length_app, replicate_add. Qed.

Lemma btree_memcpy_ok dry bs post len :
  len = length bs -> btree_memcpy (bs ++ post) len dry = Some (copied dry bs).
Proof.
  intros ->. destruct dry; cbn; [done|]. by rewrite read_bytes_front.
Qed.

Section reading.
Context (bt : btree_raw) (n : btree_raw_node) (cs : list cell).
Context (Hbt : bt_ok bt) (Hlay : layout n cs) (Hcs : cells_ok bt cs).

Lemma layout_length : length (headers n) = length cs.
Proof using Hlay. destruct Hlay as [-> _]. apply length_cells_headers. Qed.

Lemma layout_header i c :
  cs !! i = Some c ->
  headers n !! i =
    Some (mk_entry_header (e_tomb (c_entry c)) (c_type c) (lenZ (cells_area (take i cs)))).
Proof using Hlay.
  intros Hi. destruct Hlay as [-> _]. by rewrite (cells_headers_lookup _ _ _ _ Hi), Z.add_0_l.
Qed.

Lemma layout_meta i c : cs !! i = Some c -> btree_leaf_get_meta n i = Some (c_meta c).
Proof using Hbt Hlay Hcs.
  intros Hi. destruct Hlay as [Hh Ha]. eapply get_meta_ok; [done|apply Hcs|done| |done].
  intros j _. unfold hdr_ok. by rewrite Hh.
Qed.

Lemma cell_ok_at i c : cs !! i = Some c -> cell_ok bt c.
Proof using Hcs. intros Hi. apply (wchain_lookup _ _ _ _ _ (proj1 Hcs) Hi). Qed.

(** The key suffix of entry [i], followed by its data and the later
    entries. *)
Lemma short_key_ptr i c off :
  cs !! i = Some c ->
  off = lenZ (cells_area (take i cs)) + get_meta_type_to_size (c_type c) ->
  drop (z2n off) (area n) =
  drop (z2n (c_plen c)) (c_key c) ++ e_data (c_entry c) ++ cells_area (drop (S i) cs).
Proof using Hlay.
  intros Hi ->. destruct Hlay as [_ ->]. rewrite (area_split _ _ _ Hi).
  unfold cell_bytes. rewrite <- !app_assoc.
  assert (0 <= get_meta_type_to_size (c_type c)) by (destruct (c_type c); cbn; lia).
  rewrite Z2Nat.inj_add, Nat2Z.id, drop_app_add by lia.
  by rewrite <- (length_key_metax_bytes (c_type c) (c_meta c)), drop_app_length.
Qed.

Lemma layout_prefix i c fuel :
  cs !! i = Some c -> c_plen c = 0 ->
  get_key_prefix (S fuel) n i =
    Some (c_key c ++ e_data (c_entry c) ++ cells_area (drop (S i) cs)).
Proof using Hbt Hlay Hcs.
  intros Hi Hp. cbn [get_key_prefix]. rewrite (layout_header _ _ Hi), (layout_meta _ _ Hi). runs.
  unfold c_meta; cbn [prefix_len meta_type header_offset]. rewrite Hp; cbn [negb Z.eqb].
  f_equal. rewrite (short_key_ptr i c); [|done|lia]. by rewrite Hp, drop_0.
Qed.

Lemma layout_key_info i c :
  cs !! i = Some c -> btree_leaf_get_nth_key_info2 n i = Some (e_info (c_entry c)).
Proof using Hbt Hlay Hcs.
  intros Hi. unfold btree_leaf_get_nth_key_info2.
  rewrite (layout_header _ _ Hi), (layout_meta _ _ Hi). runs.
  unfold c_meta; cbn [prefix_len prefix_idx keylen datalen ptr seqno meta_type header_offset eh_tombstone].
  pose proof (co_plen _ _ (cell_ok_at _ _ Hi)) as Hpl.
  rewrite (short_key_ptr i c) by done.
  assert (exists prefix post, (if negb (c_plen c =? 0)
            then get_key_prefix (S (length (headers n))) n (z2n (c_pidx c)) else Some [])
          = Some (prefix ++ post) /\ prefix = take (z2n (c_plen c)) (c_key c)) as (pre & post & -> & Hpre).
  { destruct (Z.eqb_spec (c_plen c) 0) as [H0|H0]; cbn [negb].
    - exists [], []. by rewrite H0.
    - destruct (run_head _ _ _ _ (proj1 Hcs) (proj2 Hcs) Hi H0) as (h & Hh & _ & Hh0 & Hlen & Htk).
      rewrite (layout_prefix _ _ _ Hh Hh0), Htk.
      exists (take (z2n (c_plen c)) (c_key h)), (drop (z2n (c_plen c)) (c_key h)
        ++ e_data (c_entry h) ++ cells_area (drop (S (z2n (c_pidx c))) cs)).
      split; [|done]. by rewrite (app_assoc (take _ _)), take_drop. }
  runs. unfold c_key in *.
  assert (length pre = z2n (c_plen c)) by (rewrite Hpre, length_take; lia).
  rewrite (read_bytes_front pre) by done. runs.
  rewrite (read_bytes_front (drop _ _)) by (rewrite length_drop; lia). runs.
  by rewrite Hpre, take_drop.
Qed.

Lemma layout_data i c :
  cs !! i = Some c ->
  btree_leaf_get_data_nth_key n i =
    Some (e_data (c_entry c) ++ cells_area (drop (S i) cs), e_datalen (c_entry c)).
Proof using Hbt Hlay Hcs.
  intros Hi. unfold btree_leaf_get_data_nth_key, nkeys.
  pose proof (lookup_lt_Some _ _ _ Hi). rewrite layout_length.
  rewrite assert_true by (apply Z.ltb_lt; lia). runs.
  rewrite (layout_header _ _ Hi), (layout_meta _ _ Hi). runs.
  unfold c_meta; cbn [prefix_len keylen datalen meta_type header_offset].
  pose proof (co_plen _ _ (cell_ok_at _ _ Hi)) as Hpl. unfold c_key in Hpl.
  do 2 f_equal.
  assert (0 <= get_meta_type_to_size (c_type c)) by (destruct (c_type c); cbn; lia).
  replace (z2n _) with
    (z2n (lenZ (cells_area (take i cs)) + get_meta_type_to_size (c_type c))
     + length (drop (z2n (c_plen c)) (c_key c)))%nat by (rewrite length_drop; unfold c_key; lia).
  by rewrite <- drop_drop, (short_key_ptr i c), drop_app_length.
Qed.

Lemma layout_bytes_before i :
  (i <= length cs)%nat -> bytes_before bt n i = Some (lenZ (cells_area (take i cs))).
Proof using Hbt Hlay Hcs.
  intros Hi. destruct i as [|i]; [done|]. cbn [bytes_before].
  destruct (lookup_lt_is_Some_2 cs i) as [c Hc]; [lia|].
  rewrite (layout_header _ _ Hc), (layout_meta _ _ Hc). runs. cbn [header_offset].
  rewrite <- (length_cell_bytes bt) by (by eapply cell_ok_at).
  rewrite (take_S_r _ _ _ Hc), cells_area_app, length_app, cells_area_cons.
  cbn. rewrite app_nil_r. f_equal. lia.
Qed.

Lemma layout_copy_before i dry :
  (i <= length cs)%nat ->
  btree_memcpy (area n) (z2n (lenZ (cells_area (take i cs)))) dry
  = Some (copied dry (cells_area (take i cs))).
Proof using Hlay.
  intros Hi. destruct Hlay as [_ ->].
  rewrite <- (take_drop i cs) at 1. rewrite cells_area_app.
  apply btree_memcpy_ok. lia.
Qed.

Lemma layout_copy_rest i dry :
  (i < length cs)%nat -> copy_rest n i dry = Some (copied dry (cells_area (drop i cs))).
Proof using Hlay.
  intros Hi. unfold copy_rest, btree_leaf_get_nth_entry.
  destruct (lookup_lt_is_Some_2 cs i) as [c Hc]; [lia|].
  rewrite (layout_header _ _ Hc). runs. cbn [header_offset].
  destruct Hlay as [_ ->]. rewrite <- (take_drop i cs) at 2 3.
  rewrite cells_area_app, length_app, Nat2Z.id, drop_app_length.
  rewrite <- (app_nil_r (cells_area (drop i cs))) at 1. apply btree_memcpy_ok. lia.
Qed.

Lemma layout_used_space :
  btree_leaf_used_space bt n = lenZ cs * SIZEOF_ENTRY_HEADER + lenZ (cells_area cs).
Proof using Hlay.
  unfold btree_leaf_used_space, insert_ptr, nkeys. rewrite layout_length.
  destruct Hlay as [_ ->]. lia.
Qed.
End reading.
