(* ===== verification/LeafEncode.v ===== *)
(** * Writing a leaf page: the lemmas behind insertion, removal and split

    Choosing a prefix links a cell to its predecessor; the copy loops render
    cells; the fix-ups restore the header offsets and the prefix indices. *)

From S2P Require Import Prelude LeafMeta LeafNode LeafOps LeafCells.

(** ** Choosing the prefix of a key *)

(** The cell that in-memory metadata describes. *)
Definition km_cell (km : key_meta) (e : entry) : cell :=
  mk_cell e (prefix_idx km) (prefix_len km) (get_key_meta_type km).

(** Metadata that carries the attributes of an entry. *)
Definition km_for (km : key_meta) (e : entry) : Prop :=
  keylen km = lenZ (e_key e) /\ datalen km = e_datalen e /\ ptr km = e_ptr e /\
  seqno km = e_seqno e.

(** Metadata that agrees with a cell on what the choice of a prefix reads. *)
Definition km_agrees (km : key_meta) (c : cell) : Prop :=
  keylen km = lenZ (c_key c) /\ datalen km = e_datalen (c_entry c) /\
  prefix_len km = c_plen c /\ prefix_idx km = c_pidx c.

Lemma c_meta_agrees c : km_agrees (c_meta c) c.
Proof. done. Qed.

Lemma km_cell_agrees km e : km_for km e -> km_agrees km (km_cell km e).
Proof. by intros (? & ? & ? & ?). Qed.

Lemma get_key_meta_type_size km e :
  km_for km e -> compact_meta km = false -> get_key_meta_type km = size_type e.
Proof. intros (Hk & Hd & _) Hc. unfold get_key_meta_type, size_type. by rewrite Hc, Hk, Hd. Qed.

Lemma get_key_meta_type_cases km e :
  km_for km e ->
  get_key_meta_type km = BTREE_KEY_META_TYPE1 /\ compact_meta km = true \/
  get_key_meta_type km = size_type e /\ compact_meta km = false.
Proof.
  intros H. destruct (compact_meta km) eqn:Hc.
  - left. unfold get_key_meta_type. by rewrite Hc.
  - right. split; [|done]. by apply get_key_meta_type_size.
Qed.

(** The chosen prefix and index, spelled out. *)
Lemma build_key_prefix_int_spec bt pk key pi pkm km :
  let g := get_common_part bt pk key in
  let km' := build_key_prefix_int bt pk key pi pkm km in
  prefix_len km' = (if g =? 0 then 0 else if 0 <? prefix_len pkm
                    then Z.min g (prefix_len pkm) else g) /\
  prefix_idx km' = (if g =? 0 then 0 else if 0 <? prefix_len pkm
                    then prefix_idx pkm else u16 pi) /\
  keylen km' = keylen km /\ datalen km' = datalen km /\ ptr km' = ptr km /\
  seqno km' = seqno km /\
  (compact_meta km' = true ->
   lenZ key = keylen pkm /\ datalen km = datalen pkm /\ prefix_len km' = prefix_len pkm /\
   prefix_idx km' = prefix_idx pkm /\ ptr km = 0 /\ prefix_len pkm <> 0).
Proof.
  cbn zeta. unfold build_key_prefix_int.
  destruct (Z.eqb_spec (get_common_part bt pk key) 0) as [Hg|Hg].
  2: destruct (Z.ltb_spec 0 (prefix_len pkm)); [destruct (Z.ltb_spec (prefix_len pkm) (get_common_part bt pk key))|].
  all: cbv zeta beta iota; match goal with |- context [if ?b then _ else _] => destruct b eqn:Hb end;
    cbn [prefix_len prefix_idx keylen datalen ptr seqno compact_meta set_compact set_prefix] in *;
    split_and?; try (done || lia); intros _; b2p; split_and?; lia.
Qed.

Lemma common_part_nonneg bt k1 k2 : 0 <= get_common_part bt k1 k2.
Proof. apply get_common_part_spec. Qed.

(** A prefix chosen against the predecessor [p] links the new cell to it. *)
Lemma build_link bt p e idx pkm km0 :
  bt_ok bt -> cell_ok bt p -> entry_ok bt e -> km_agrees pkm p -> km_for km0 e ->
  0 < idx <= 2 ^ 16 ->
  let km := build_key_prefix_int bt (c_key p) (e_key e) (idx - 1) pkm km0 in
  km_for km e /\ cell_ok bt (km_cell km e) /\ wlink (Some p) (km_cell km e) /\
  plink idx (Some p) (km_cell km e).
Proof.
  intros Hbt Hp He (Ak & Ad & Al & Ai) (Fk & Fd & Fp & Fs) Hidx. cbn zeta.
  destruct (build_key_prefix_int_spec bt (c_key p) (e_key e) (idx - 1) pkm km0)
    as (Sl & Si & Sk & Sd & Sp & Ss & Sc).
  set (km := build_key_prefix_int _ _ _ _ _ _) in *.
  destruct (get_common_part_spec bt (c_key p) (e_key e)) as (Gb & Gk & Gt).
  set (g := get_common_part _ _ _) in *.
  assert (km_for km e) as Hkm by (unfold km_for; split_and?; congruence).
  pose proof (co_plen _ _ Hp) as Hpl. pose proof (co_pidx _ _ Hp) as Hpi.
  assert (min_common_length bt <= g \/ g = 0) as Hg.
  { unfold g, get_common_part. repeat case_if; b2p; lia. }
  pose proof (bt_common _ Hbt) as Hmin. rewrite u16_small in Si by lia.
  pose proof (co_min _ _ Hp) as Hpm.
  split; [done|]. split.
  { split; cbn; [done| | | |].
    - destruct (get_key_meta_type_cases _ _ Hkm) as [[-> _]|[-> _]]; auto.
    - unfold c_key; cbn. rewrite Sl. repeat case_if; b2p; lia.
    - rewrite Si. repeat case_if; b2p; lia.
    - rewrite Sl. repeat case_if; b2p; lia. }
  assert (prefix_len km = 0 -> compact_meta km = false) as Hnc.
  { intros H0. destruct (compact_meta km); [|done]. destruct (Sc eq_refl) as (_ & _ & E & _ & _ & Hne). lia. }
  split.
  - destruct (Z.eq_dec (prefix_len km) 0) as [H0|H0].
    { left. split; [done|]. cbn. destruct (get_key_meta_type_cases _ _ Hkm) as [[_ E]|[-> _]];
        [by rewrite Hnc in E|apply size_type_not1]. }
    right. exists p. unfold c_key at 2 3; cbn [c_plen km_cell c_entry c_type].
    (* the chosen length is at least the minimum *)
    assert (0 < prefix_len km /\ prefix_len km <= g /\ (c_plen p <> 0 -> prefix_len km <= c_plen p)) as (Hpos & Hle & Hmono).
    { rewrite Sl in *. repeat case_if; b2p; lia. }
    split; [done|]. split; [done|]. split; [lia|]. split.
    { replace (z2n (prefix_len km)) with (z2n (prefix_len km) `min` z2n g)%nat by lia.
      rewrite <- (take_take (e_key e)), <- (take_take (c_key p)). by rewrite Gt. }
    split; [done|].
    intros Ht. destruct (get_key_meta_type_cases _ _ Hkm) as [[_ Hc]|[E _]];
      [|by rewrite E in Ht; apply size_type_not1 in Ht].
    destruct (Sc Hc) as (C1 & C2 & C3 & C4 & C5 & C6).
    unfold compact_with, c_key in *; cbn. split_and?; try congruence.
    rewrite <- Fp, C5. symmetry. apply (eo_big _ _ (co_entry _ _ Hp)).
    rewrite <- Ak, <- C1, <- Ad, <- C2, Fd. apply (eo_big _ _ He). congruence.
  - intros H0. exists p. split; [done|]. cbn in *. rewrite Si, Sl in *. rewrite Al, Ai in *.
    case_decide; repeat case_if; b2p; try lia.
Qed.

(** ** Appending an entry *)

Lemma append_entry_ok bt km e data post dry :
  entry_ok bt e -> km_for km e -> 0 <= prefix_len km <= lenZ (e_key e) ->
  dry = true \/ data = e_data e ++ post ->
  append_entry_to_tmp_buf bt km (e_key e) data (e_datalen e) dry
  = Some (get_key_meta_type km, copied dry (cell_bytes (km_cell km e))).
Proof.
  intros He (Fk & Fd & Fp & Fs) Hpl Hdata. unfold append_entry_to_tmp_buf, key_meta_to_key_metax.
  cbv beta iota zeta.
  set (m := key_metax_bytes _ km).
  rewrite <- (app_nil_r m) at 1. rewrite btree_memcpy_ok by done. runs.
  rewrite <- (app_nil_r (drop _ _)), btree_memcpy_ok by (rewrite length_drop; lia). runs.
  assert (forall len, len = length (e_data e) ->
            btree_memcpy data len dry = Some (copied dry (e_data e))) as Hd.
  { intros len ->. destruct Hdata as [->| ->]; [done|]. by apply btree_memcpy_ok. }
  pose proof (eo_data _ _ He) as Hlen. unfold data_inleaf in Hlen. rewrite Fk, Fd.
  unfold cell_bytes; cbn [km_cell c_type c_plen c_entry]. rewrite !copied_app.
  replace (key_metax_bytes _ (c_meta _)) with m
    by (unfold m, c_meta; destruct (get_key_meta_type km); cbn; congruence).
  unfold c_key; cbn [km_cell c_entry].
  destruct (big_object_kd _ _ _) eqn:Hb; cbn [negb] in *; rewrite Hd by lia; done.
Qed.

(** ** Relinking the entries after a change *)

(** The metadata an entry is appended with, before its prefix is chosen. *)
Definition km_entry (e : entry) : key_meta :=
  mk_key_meta (lenZ (e_key e)) (e_datalen e) 0 0 (e_ptr e) (e_seqno e)
    false BTREE_KEY_META_NONE false.

Lemma km_entry_for e : km_for (km_entry e) e.
Proof. done. Qed.

(** The cells the impacted entries become, after a predecessor with key [pk]
    and metadata [pkm] at position [pki]. *)
Fixpoint relink (bt : btree_raw) (pk : list byte) (pki : Z) (pkm : key_meta) (cs : list cell)
    : list cell :=
  match cs with
  | [] => []
  | c :: cs =>
      let km := build_key_prefix_int bt pk (c_key c) pki pkm (km_entry (c_entry c)) in
      if negb (bool_decide (c_type c = BTREE_KEY_META_TYPE1))
         && ((prefix_len km =? 0) && (c_plen c =? 0))
      then []
      else km_cell km (c_entry c) :: relink bt (c_key c) (pki + 1) km cs
  end.

Lemma length_relink bt pk pki pkm cs : (length (relink bt pk pki pkm cs) <= length cs)%nat.
Proof.
  revert pk pki pkm; induction cs as [|c cs IH]; intros; cbn; [done|].
  case_if; cbn; [lia|]. apply le_n_S, IH.
Qed.

Lemma relink_entries bt pk pki pkm cs :
  c_entry <$> relink bt pk pki pkm cs = c_entry <$> take (length (relink bt pk pki pkm cs)) cs.
Proof.
  revert pk pki pkm; induction cs as [|c cs IH]; intros; cbn; [done|].
  case_if; cbn; [done|]. f_equal. apply IH.
Qed.

(** The loop stops at an entry that stands alone. *)
Lemma relink_stop bt pk pki pkm cs c :
  cs !! length (relink bt pk pki pkm cs) = Some c ->
  c_plen c = 0 /\ c_type c <> BTREE_KEY_META_TYPE1.
Proof.
  revert pk pki pkm; induction cs as [|d cs IH]; intros pk pki pkm; cbn; [done|].
  destruct (bool_decide_reflect (c_type d = BTREE_KEY_META_TYPE1)) as [Hd|Hd]; cbn [negb andb].
  { cbn. apply IH. }
  case_if; cbn; [|apply IH]. intros [= <-]. b2p. done.
Qed.

(** Only what is written down of the predecessor matters. *)
Lemma relink_ext bt pk pki pkm pkm' cs :
  keylen pkm = keylen pkm' -> datalen pkm = datalen pkm' ->
  prefix_len pkm = prefix_len pkm' -> prefix_idx pkm = prefix_idx pkm' ->
  relink bt pk pki pkm cs = relink bt pk pki pkm' cs.
Proof.
  intros H1 H2 H3 H4. destruct cs as [|c cs]; cbn; [done|].
  unfold build_key_prefix_int. by rewrite H1, H2, H3, H4.
Qed.

Lemma relink_chain bt p pki pkm cs :
  bt_ok bt -> cell_ok bt p -> km_agrees pkm p -> Forall (cell_ok bt) cs ->
  0 <= pki -> pki + lenZ cs < 2 ^ 16 ->
  wchain bt (Some p) (relink bt (c_key p) pki pkm cs) /\
  pchain (pki + 1) (Some p) (relink bt (c_key p) pki pkm cs).
Proof.
  intros Hbt. revert p pki pkm; induction cs as [|c cs IH]; intros p pki pkm Hp Hpkm Hok H0 H1;
    cbn [relink]; [done|].
  case_if; [done|]. cbn [length] in H1. inversion_clear Hok as [|? ? Hc Hcs].
  destruct (build_link bt p (c_entry c) (pki + 1) pkm (km_entry (c_entry c)) Hbt Hp
              (co_entry _ _ Hc) Hpkm (km_entry_for _)) as (Hkm & Hok' & Hw & Hpl); [lia|].
  rewrite Z.add_simpl_r in *. fold (c_key c) in *.
  set (km := build_key_prefix_int _ _ _ _ _ _) in *.
  destruct (IH (km_cell km (c_entry c)) (pki + 1) km) as [IHw IHp];
    [done|by apply km_cell_agrees|done|lia|lia|].
  by split; cbn.
Qed.

Section copying.
Context (bt : btree_raw) (n : btree_raw_node) (cs : list cell).
Context (Hbt : bt_ok bt) (Hlay : layout n cs) (Hcs : cells_ok bt cs).
Context (Hmany : lenZ cs < 2 ^ 16).

(** The copy loop renders the relinked cells. *)
Lemma copy_impacted_loop_ok count idx pk pki pkm dry :
  count = (length cs - idx)%nat -> 0 <= pki <= n2z idx ->
  (0 < prefix_len pkm -> prefix_idx pkm <= pki) ->
  copy_impacted_loop bt n count idx pk pki pkm dry
  = Some (c_type <$> relink bt pk pki pkm (drop idx cs),
          copied dry (cells_area (relink bt pk pki pkm (drop idx cs)))).
Proof using All.
  revert idx pk pki pkm; induction count as [|count IH]; intros idx pk pki pkm Hcnt Hpki Hpi.
  { rewrite drop_ge by lia. by destruct dry. }
  destruct (lookup_lt_is_Some_2 cs idx) as [c Hc]; [lia|].
  rewrite (drop_S _ _ _ Hc). cbn [relink copy_impacted_loop].
  unfold btree_leaf_get_nth_key_info.
  rewrite (layout_key_info bt n cs Hbt Hlay Hcs _ _ Hc), (layout_meta bt n cs Hbt Hlay Hcs _ _ Hc).
  runs. cbn [e_info ki_key ki_keylen ki_datalen ki_ptr ki_seqno].
  fold (km_entry (c_entry c)). fold (c_key c).
  destruct (build_key_prefix_int_spec bt pk (c_key c) pki pkm (km_entry (c_entry c)))
    as (Sl & Si & Sk & Sd & Sp & Ss & Sc).
  destruct (get_common_part_spec bt pk (c_key c)) as (Gb & Gk & Gt).
  set (km := build_key_prefix_int _ _ _ _ _ _) in *.
  set (g := get_common_part _ _ _) in *.
  assert (prefix_idx km <= pki /\ 0 <= prefix_len km <= lenZ (c_key c)) as [Hidx Hlen].
  { pose proof (lookup_lt_Some _ _ _ Hc). rewrite Si, Sl, u16_small by lia.
    repeat case_if; b2p; lia. }
  rewrite assert_true; [|apply Z.ltb_lt; unfold nkeys; rewrite (layout_length n cs Hlay); lia]. runs.
  change (meta_type (c_meta c)) with (c_type c). change (prefix_len (c_meta c)) with (c_plen c).
  case_if; [by destruct dry|].
  rewrite (layout_data bt n cs Hbt Hlay Hcs _ _ Hc). runs. cbn [fst snd]. unfold c_key at 1.
  rewrite (append_entry_ok bt km (c_entry c) _ (cells_area (drop (S idx) cs)));
    [|by eapply co_entry, cell_ok_at|by repeat split|done|by right].
  runs. rewrite (IH (S idx)) by lia. runs. cbn [fst snd fmap list_fmap].
  by rewrite cells_area_cons, copied_app.
Qed.

(** The same for an entry point without a predecessor: the first entry is
    written in full. *)
Definition relink_first (cs : list cell) : list cell :=
  match cs with
  | [] => []
  | c :: cs =>
      km_cell (km_entry (c_entry c)) (c_entry c)
      :: relink bt (c_key c) 0 (km_entry (c_entry c)) cs
  end.

Lemma copy_impacted_keys_first_ok from pki pkm dry :
  copy_impacted_keys_to_tmp_buf bt n from pki None pkm dry
  = Some (c_type <$> relink_first (drop from cs), copied dry (cells_area (relink_first (drop from cs)))).
Proof using All.
  unfold copy_impacted_keys_to_tmp_buf. rewrite (layout_length n cs Hlay).
  case_decide as Hf; [|rewrite drop_ge by lia; by destruct dry].
  destruct (lookup_lt_is_Some_2 cs from) as [c Hc]; [lia|].
  rewrite (drop_S _ _ _ Hc). cbn [relink_first].
  unfold btree_leaf_get_nth_key_info.
  rewrite (layout_key_info bt n cs Hbt Hlay Hcs _ _ Hc), (layout_meta bt n cs Hbt Hlay Hcs _ _ Hc),
    (layout_data bt n cs Hbt Hlay Hcs _ _ Hc).
  runs. cbn [e_info ki_key ki_keylen ki_datalen ki_ptr ki_seqno fst snd].
  set (km := mk_key_meta _ _ _ _ _ _ _ _ _).
  rewrite (append_entry_ok bt km (c_entry c) _ (cells_area (drop (S from) cs)));
    [|by eapply co_entry, cell_ok_at|done|cbn; lia|by right].
  runs. rewrite copy_impacted_loop_ok by (cbn; lia). runs. cbn [fst snd fmap list_fmap].
  unfold c_key at 1. rewrite cells_area_cons, copied_app.
  by rewrite (relink_ext bt _ 0 km (km_entry (c_entry c))).
Qed.
End copying.

Lemma relink_first_entries bt cs :
  c_entry <$> relink_first bt cs = c_entry <$> take (length (relink_first bt cs)) cs.
Proof. destruct cs as [|c cs]; cbn; [done|]. f_equal. apply relink_entries. Qed.

Lemma length_relink_first bt cs : (length (relink_first bt cs) <= length cs)%nat.
Proof. destruct cs as [|c cs]; cbn; [done|]. apply le_n_S, length_relink. Qed.

Lemma relink_first_stop bt cs c :
  cs !! length (relink_first bt cs) = Some c ->
  c_plen c = 0 /\ c_type c <> BTREE_KEY_META_TYPE1.
Proof. destruct cs as [|d cs]; cbn; [done|]. apply relink_stop. Qed.

(** A cell that stores its key in full. *)
Lemma full_cell_ok bt e :
  bt_ok bt -> entry_ok bt e -> cell_ok bt (km_cell (km_entry e) e) /\
  (forall prev, wlink prev (km_cell (km_entry e) e)).
Proof.
  intros Hbt He.
  assert (get_key_meta_type (km_entry e) = size_type e) as Ht by (by apply get_key_meta_type_size).
  split.
  - split; cbn; [done|by right| |lia|by left]. pose proof (eo_key _ _ He). unfold c_key; cbn. lia.
  - intros prev. left. split; [done|]. change (get_key_meta_type (km_entry e) <> BTREE_KEY_META_TYPE1).
    rewrite Ht. apply size_type_not1.
Qed.

Lemma relink_first_chain bt prev cs :
  bt_ok bt -> Forall (cell_ok bt) cs -> lenZ cs < 2 ^ 16 ->
  wchain bt prev (relink_first bt cs) /\ pchain 0 prev (relink_first bt cs).
Proof.
  intros Hbt Hok Hlen. destruct cs as [|c cs]; [done|]. cbn [relink_first length] in *.
  inversion_clear Hok as [|? ? Hc Hcs].
  destruct (full_cell_ok bt (c_entry c) Hbt (co_entry _ _ Hc)) as [Hok Hw].
  destruct (relink_chain bt (km_cell (km_entry (c_entry c)) (c_entry c)) 0
              (km_entry (c_entry c)) cs Hbt Hok) as [IHw IHp]; [done|done|lia|lia|].
  cbn [wchain pchain]. split; split_and?; try done. by intros [].
Qed.
