(* ===== verification/LeafFixup.v ===== *)
(** * The fix-ups after a change of a leaf page

    [btree_leaf_adjust_offsets] recomputes the header offsets from the sizes
    of the entries, [btree_leaf_adjust_prefix_idxes] moves the prefix indices
    of the entries that were copied in bulk. Both are shown to do on the page
    what a map on the cells does. *)

From S2P Require Import Prelude LeafMeta LeafNode LeafOps LeafCells LeafEncode.

(** ** Offsets *)

(** A header that has the tombstone and the format of a cell, and any
    offset. *)
Definition hdr_match (h : entry_header) (c : cell) : Prop :=
  eh_tombstone h = e_tomb (c_entry c) /\ eh_meta_type h = c_type c.

Lemma cells_headers_match off cs : Forall2 hdr_match (cells_headers off cs) cs.
Proof. revert off; induction cs as [|c cs IH]; intros; cbn; by constructor. Qed.

Lemma set_types_match hs cs imp :
  Forall2 hdr_match hs cs -> c_entry <$> imp = c_entry <$> take (length imp) cs ->
  Forall2 hdr_match (set_types hs (c_type <$> imp)) (imp ++ drop (length imp) cs).
Proof.
  intros Hm. revert imp; induction Hm as [|h c hs cs [Ht Hty] Hm IH]; intros [|d imp]; cbn.
  - by constructor.
  - done.
  - intros _. by repeat constructor.
  - intros [= He Hr]. constructor; [|by apply IH]. split; cbn; [by rewrite Ht, He|done].
Qed.

Lemma key_metax_to_key_meta_ok bt n cs i c :
  bt_ok bt -> wchain bt None cs -> area n = cells_area cs ->
  (forall j, (j <= i)%nat -> hdr_ok n cs j) -> cs !! i = Some c ->
  exists km, key_metax_to_key_meta n (length (cells_area (take i cs))) (c_type c) i = Some km /\
    keylen km = lenZ (c_key c) /\ datalen km = e_datalen (c_entry c) /\ prefix_len km = c_plen c.
Proof.
  intros Hbt Hw Ha Hh Hi. pose proof (get_meta_ok _ _ _ _ _ Hbt Hw Ha Hh Hi) as Hmeta.
  destruct (wchain_lookup _ _ _ _ _ Hw Hi) as [Hok _].
  pose proof (cell_decode bt cs i c key_meta_zero Hbt Hok Hi) as Hdec. cbn zeta in Hdec.
  unfold key_metax_to_key_meta. rewrite Ha.
  destruct (c_type c) eqn:Ht; [done|..]; rewrite Hdec; runs; try (by eexists).
  rewrite Hmeta. runs. by eexists.
Qed.

(** A prefix is at most as long as the predecessor's, when that has one. *)
Lemma prefix_not_longer bt cs i c :
  wchain bt None cs -> cs !! i = Some c ->
  let prev := match prev_of None cs i with Some p => c_plen p | None => 0 end in
  (prev =? 0) || (c_plen c <=? prev) = true.
Proof.
  intros Hw Hc. cbn zeta. apply orb_true_iff. rewrite Z.eqb_eq, Z.leb_le.
  destruct (wchain_lookup _ _ _ _ _ Hw Hc) as [_ Hlink].
  destruct (prev_of None cs i) as [p|] eqn:Hpo; [|by left].
  destruct (Z.eq_dec (c_plen p) 0); [by left|right].
  destruct Hlink as [[-> _]|(p' & [= <-] & _ & _ & _ & Hmono & _)]; [|by apply Hmono].
  destruct i as [|i]; [done|]. apply (co_plen bt). by destruct (wchain_lookup _ _ _ _ _ Hw Hpo).
Qed.

(** The end of entry [i], computed from its metadata. *)
Lemma next_offset bt cs i c :
  cell_ok bt c -> cs !! i = Some c ->
  lenZ (cells_area (take i cs)) + get_meta_type_to_size (c_type c) + lenZ (c_key c) - c_plen c
  + data_inleaf bt (lenZ (c_key c)) (e_datalen (c_entry c))
  = lenZ (cells_area (take (S i) cs)).
Proof.
  intros Hok Hc. rewrite (take_S_r _ _ _ Hc), cells_area_app, length_app, cells_area_cons.
  cbn [cells_area fmap list_fmap concat]. rewrite app_nil_r.
  pose proof (length_cell_bytes bt c Hok) as Hl. unfold get_key_meta_space_used, c_meta in Hl.
  cbn [meta_type keylen prefix_len datalen] in Hl. unfold c_key. lia.
Qed.

Lemma area_take_le cs i : lenZ (cells_area (take i cs)) <= lenZ (cells_area cs).
Proof. rewrite <- (take_drop i cs) at 2. rewrite cells_area_app, length_app. lia. Qed.

Lemma adjust_offsets_loop_ok bt n cs count i hs prev :
  bt_ok bt -> wchain bt None cs -> area n = cells_area cs -> lenZ (cells_area cs) < 2 ^ 16 ->
  (i + count)%nat = length cs ->
  headers n = take i (cells_headers 0 cs) ++ hs -> Forall2 hdr_match hs (drop i cs) ->
  prev = match prev_of None cs i with Some p => c_plen p | None => 0 end ->
  adjust_offsets_loop bt n count i (lenZ (cells_area (take i cs))) prev
  = Some (set_headers n (cells_headers 0 cs)).
Proof.
  intros Hbt Hw. revert n i hs prev; induction count as [|count IH];
    intros n i hs prev Ha Hsz Hcnt Hh Hm Hprev; cbn [adjust_offsets_loop].
  { rewrite drop_ge in Hm by lia. inversion Hm; subst hs.
    rewrite app_nil_r, take_ge in Hh by (rewrite length_cells_headers; lia).
    by destruct n; cbn in *; rewrite Hh. }
  destruct (lookup_lt_is_Some_2 cs i) as [c Hc]; [lia|].
  rewrite (drop_S _ _ _ Hc) in Hm. inversion Hm as [|h ? hs' ? [Htomb Hty] Hm']; subst hs; clear Hm.
  destruct (wchain_lookup _ _ _ _ _ Hw Hc) as [Hok Hlink].
  assert (length (take i (cells_headers 0 cs)) = i) as Hli
    by (rewrite length_take, length_cells_headers; lia).
  unfold btree_leaf_get_nth_entry. rewrite Hh, lookup_app_r, Hli, Nat.sub_diag by lia.
  cbn [lookup list_lookup]. runs.
  rewrite insert_app_r_alt, Hli, Nat.sub_diag by lia. cbn [insert list_insert].
  pose proof (cell_bytes_pos _ _ Hbt Hok) as Hpos.
  pose proof (area_take_le cs (S i)) as Hle.
  pose proof (next_offset bt cs i c Hok Hc) as Hnext.
  assert (lenZ (cells_area (take i cs)) < lenZ (cells_area cs)) as Hlt.
  { rewrite (take_S_r _ _ _ Hc), cells_area_app, length_app, cells_area_cons, length_app in Hle. lia. }
  replace (take i (cells_headers 0 cs) ++ set_offset h (lenZ (cells_area (take i cs))) :: hs')
    with (take (S i) (cells_headers 0 cs) ++ hs').
  2: { rewrite (take_S_r _ _ _ (cells_headers_lookup _ _ _ 0 Hc)), <- app_assoc. cbn [app].
       unfold set_offset. by rewrite u16_small, Hty, Htomb by lia. }
  set (n' := set_headers n _). rewrite Hty.
  assert (area n' = cells_area cs) as Ha' by done.
  assert (forall j, (j <= i)%nat -> hdr_ok n' cs j) as Hhok.
  { intros j Hj. unfold hdr_ok, n'; cbn. rewrite lookup_app_l
      by (rewrite length_take, length_cells_headers; lia). by rewrite lookup_take_lt by lia. }
  pass by (apply Z.ltb_lt; rewrite Ha'; lia).
  destruct (key_metax_to_key_meta_ok bt n' cs i c Hbt Hw Ha' Hhok Hc) as (km & Hkm & Hk & Hd & Hp).
  rewrite Nat2Z.id, Hkm. runs. rewrite Hk, Hd, Hp.
  pose proof (eo_key _ _ (co_entry _ _ Hok)) as Hkey. fold (c_key c) in Hkey.
  pass by (subst prev; apply (prefix_not_longer bt cs i c Hw Hc)).
  pass by (apply negb_true_iff, Z.eqb_neq; lia).
  pass by (apply Z.leb_le; rewrite Ha'; lia). rewrite Hnext.
  rewrite (IH n' (S i) hs'); [by destruct n|done|done|lia|done|done|].
  cbn. by rewrite Hc.
Qed.

Lemma btree_leaf_adjust_offsets_ok bt n cs :
  bt_ok bt -> wchain bt None cs -> area n = cells_area cs -> lenZ (cells_area cs) < 2 ^ 16 ->
  Forall2 hdr_match (headers n) cs ->
  btree_leaf_adjust_offsets bt n = Some (set_headers n (cells_headers 0 cs)).
Proof.
  intros Hbt Hw Ha Hsz Hm. unfold btree_leaf_adjust_offsets.
  apply (adjust_offsets_loop_ok bt n cs _ 0 (headers n) 0); try done.
  by apply Forall2_length in Hm.
Qed.

(** ** Prefix indices *)

Definition shift_idx (base shift plen pidx : Z) : Z :=
  if (0 <? plen) && (base <? pidx) then pidx + shift else pidx.

(** What the adjustment does to a cell. A compact cell stores no index; its
    index follows the one of its predecessor. *)
Definition adj (base shift : Z) (c : cell) : cell :=
  mk_cell (c_entry c) (shift_idx base shift (c_plen c) (c_pidx c)) (c_plen c) (c_type c).

Lemma length_cell_bytes_adj base shift c : length (cell_bytes (adj base shift c)) = length (cell_bytes c).
Proof.
  unfold cell_bytes. rewrite !length_app, !length_key_metax_bytes. done.
Qed.

Lemma adj_entries base shift (cs : list cell) : c_entry <$> (adj base shift <$> cs) = c_entry <$> cs.
Proof. rewrite <- list_fmap_compose. done. Qed.

Lemma length_area_adj base shift cs : length (cells_area (adj base shift <$> cs)) = length (cells_area cs).
Proof.
  induction cs as [|c cs IH]; [done|]. rewrite fmap_cons.
  by rewrite !cells_area_cons, !length_app, length_cell_bytes_adj, IH.
Qed.

Lemma cells_headers_adj base shift off cs :
  cells_headers off (adj base shift <$> cs) = cells_headers off cs.
Proof.
  revert off; induction cs as [|c cs IH]; intros off; [done|].
  cbn [fmap list_fmap cells_headers]. rewrite length_cell_bytes_adj. f_equal. apply IH.
Qed.

(** One field in place: the index is a 16-bit field at [io], followed by the
    length, a field of [lw] bytes. *)
Lemma adjust_field_ok x pi pl lw rest base shift io lo :
  0 <= pi < 2 ^ 16 -> 0 <= pl < 2 ^ (8 * n2z lw) -> io = length x -> lo = (length x + 2)%nat ->
  adjust_field (x ++ le_split 2 pi ++ le_split lw pl ++ rest) io lo lw base shift
  = Some (x ++ le_split 2 (shift_idx base shift pl pi) ++ le_split lw pl ++ rest).
Proof.
  intros Hpi Hpl -> ->. unfold adjust_field.
  assert (x ++ le_split 2 pi ++ le_split lw pl ++ rest
          = (x ++ le_split 2 pi) ++ le_split lw pl ++ rest) as E by (by rewrite <- !app_assoc).
  rewrite E, (read_le_mid (x ++ le_split 2 pi)), <- E;
    [|rewrite !length_app, length_le_split; lia|done]. runs.
  rewrite read_le_mid by done. runs. unfold shift_idx. case_if; [|done].
  by rewrite write_bytes_mid.
Qed.

Lemma adjust_cell bt n cs i c base shift :
  bt_ok bt -> layout n cs -> cs !! i = Some c -> cell_ok bt c ->
  exists n', btree_leaf_adjust_prefix_idx n i base shift = Some n' /\
    n' = set_area n (area n') /\
    layout n' (take i cs ++ adj base shift c :: drop (S i) cs).
Proof.
  intros Hbt Hlay Hi Hok. pose proof (cell_meta_fits _ _ Hbt Hok) as Hfit.
  unfold btree_leaf_adjust_prefix_idx. rewrite (layout_header n cs Hlay _ _ Hi). runs.
  cbn [eh_meta_type header_offset]. rewrite Nat2Z.id.
  assert (cells_headers 0 (take i cs ++ adj base shift c :: drop (S i) cs) = cells_headers 0 cs) as Hh.
  { rewrite (list_split_at cs i c Hi) at 3. rewrite !cells_headers_app. cbn [cells_headers].
    by rewrite length_cell_bytes_adj. }
  destruct Hlay as [Hhd Harea]. rewrite Harea.
  assert (forall r, r = Some (cells_area (take i cs ++ adj base shift c :: drop (S i) cs)) ->
    exists n', (a ← r; Some (set_area n a)) = Some n' /\ n' = set_area n (area n') /\
      layout n' (take i cs ++ adj base shift c :: drop (S i) cs)) as Hfin.
  { intros r ->. eexists. split; [done|]. split; [done|]. split; cbn; [by rewrite Hh|done]. }
  assert (c_type c = BTREE_KEY_META_TYPE1 -> cells_area (take i cs ++ adj base shift c :: drop (S i) cs) = cells_area cs) as H1.
  { intros Ht. rewrite (area_split _ _ _ Hi), cells_area_app, cells_area_cons. unfold cell_bytes.
    cbn [adj c_type c_plen c_entry]. by rewrite Ht. }
  rewrite (area_split _ _ _ Hi). rewrite cells_area_app, cells_area_cons in Hfin.
  unfold cell_bytes in *. cbn [adj c_type c_plen c_entry] in *.
  destruct (c_type c) eqn:Ht; [by destruct Hfit| | | |].
  { exists n. split; [done|]. split; [by destruct n|]. split; [by rewrite Hh|by rewrite H1]. }
  all: apply Hfin; cbn [key_metax_bytes]; rewrite <- !app_assoc;
    destruct Hfit as (_ & Fk & Fd & Fi & Fl & _).
  - rewrite (app_assoc _ (le_split 1 _)), (app_assoc _ (le_split 1 _)).
    rewrite (adjust_field_ok _ (prefix_idx (c_meta c)) (prefix_len (c_meta c)));
      [by rewrite <- !app_assoc|done|done|rewrite !length_app, !length_le_split; cbn; lia..].
  - rewrite (app_assoc _ (le_split 2 (keylen _))), (app_assoc _ (le_split 2 (datalen _))).
    rewrite (adjust_field_ok _ (prefix_idx (c_meta c)) (prefix_len (c_meta c)));
      [by rewrite <- !app_assoc|done|done|rewrite !length_app, !length_le_split; cbn; lia..].
  - rewrite (app_assoc _ (le_split 4 (keylen _))), (app_assoc _ (le_split 8 (datalen _))).
    rewrite (adjust_field_ok _ (prefix_idx (c_meta c)) (prefix_len (c_meta c)));
      [by rewrite <- !app_assoc|done|done|rewrite !length_app, !length_le_split; cbn; lia..].
Qed.

Lemma adjust_prefix_idxes_ok bt n cs1 cs2 base shift :
  bt_ok bt -> layout n (cs1 ++ cs2) -> Forall (cell_ok bt) cs2 ->
  exists n', btree_leaf_adjust_prefix_idxes n (length cs1) (length cs2) base shift = Some n' /\
    n' = set_area n (area n') /\ layout n' (cs1 ++ (adj base shift <$> cs2)).
Proof.
  intros Hbt. revert n cs1; induction cs2 as [|c cs2 IH]; intros n cs1 Hlay Hok.
  { exists n. split; [done|]. split; [by destruct n|done]. }
  inversion_clear Hok as [|? ? Hc Hcs].
  destruct (adjust_cell bt n (cs1 ++ c :: cs2) (length cs1) c base shift) as (n1 & Hn1 & He1 & Hl1);
    [done|done|by apply list_lookup_middle|done|].
  rewrite take_app_length in Hl1.
  replace (drop (S (length cs1)) (cs1 ++ c :: cs2)) with cs2 in Hl1
    by (by rewrite (cons_middle c), app_assoc, drop_app_length'
          by (rewrite length_app; cbn; lia)).
  cbn [length btree_leaf_adjust_prefix_idxes]. rewrite Hn1. runs.
  rewrite (cons_middle _), app_assoc in Hl1.
  destruct (IH n1 (cs1 ++ [adj base shift c]) Hl1 Hcs) as (n2 & Hn2 & He2 & Hl2).
  rewrite length_app, Nat.add_comm in Hn2. cbn [length Nat.add] in Hn2.
  exists n2. split; [done|]. split.
  - rewrite He2, He1. by destruct n2.
  - rewrite fmap_cons, (cons_middle _), app_assoc. done.
Qed.

(** The indices stay in the range of the field. *)
Definition idx_range (base shift : Z) (cs : list cell) : Prop :=
  Forall (fun c => 0 <= shift_idx base shift (c_plen c) (c_pidx c) < 2 ^ 16) cs.

Lemma wchain_adj bt prev cs base shift :
  wchain bt prev cs -> idx_range base shift cs ->
  wchain bt (adj base shift <$> prev) (adj base shift <$> cs).
Proof.
  intros Hw Hr. revert prev Hw; induction Hr as [|c cs Hc Hr IH]; intros prev; [done|].
  rewrite fmap_cons. cbn [wchain]. intros (Hok & Hl & Hw). split_and?.
  - destruct Hok. by split.
  - destruct Hl as [?|(p & -> & Hpos & Hle & Ht & Hm & Hcm)]; [by left|right].
    exists (adj base shift p). split_and?; try done.
    intros H1. destruct (Hcm H1) as (? & ? & E1 & E2 & ?). split_and?; try done.
    unfold compact_with, shift_idx; cbn. unfold shift_idx. by rewrite E1, E2.
  - by apply (IH (Some c)).
Qed.

(** Indices that point past [base] move with the positions. *)
Lemma pchain_adj_from idx p p' cs base shift :
  pchain idx (Some p) cs -> base < idx - 1 -> (0 < c_plen p -> base < c_pidx p) ->
  Forall (fun c => 0 <= c_plen c) cs -> 0 <= c_plen p -> p' = adj base shift p ->
  pchain (idx + shift) (Some p') (adj base shift <$> cs).
Proof.
  revert idx p p'; induction cs as [|c cs IH]; intros idx p p' Hp Hb Hpb Hnn Hp0 ->; [done|].
  rewrite fmap_cons. destruct Hp as [Hl Hp]. inversion_clear Hnn as [|? ? Hc Hcs].
  assert (c_plen c <> 0 -> base < c_pidx c) as Hcb.
  { intros H. destruct (Hl H) as (q & [= <-] & ->). case_decide; lia. }
  split.
  - intros H. exists (adj base shift p). split; [done|]. cbn in *.
    specialize (Hcb H). destruct (Hl H) as (q & [= <-] & E).
    unfold shift_idx. rewrite (proj2 (Z.ltb_lt 0 (c_plen c))) by lia.
    rewrite (proj2 (Z.ltb_lt base _)) by lia. cbn [andb].
    rewrite E. case_decide; [lia|].
    rewrite (proj2 (Z.ltb_lt 0 (c_plen p))) by lia.
    rewrite (proj2 (Z.ltb_lt base _)) by lia. done.
  - replace (idx + shift + 1) with (idx + 1 + shift) by lia.
    apply (IH _ c); try done; [lia|intros ?; apply Hcb; lia].
Qed.

Lemma pchain_adj idx prev prev' c cs base shift :
  pchain idx prev (c :: cs) -> c_plen c = 0 -> base < idx ->
  Forall (fun c => 0 <= c_plen c) cs ->
  pchain (idx + shift) prev' (adj base shift <$> (c :: cs)).
Proof.
  intros [_ Hp] H0 Hb Hnn. rewrite fmap_cons. split; [by intros []|].
  replace (idx + shift + 1) with (idx + 1 + shift) by lia.
  apply (pchain_adj_from _ c); try done; lia.
Qed.

(** Inside a chain an index lies between the start of the chain's runs and
    the cell. *)
Lemma pchain_range idx prev c cs :
  pchain idx prev (c :: cs) -> c_plen c = 0 ->
  Forall (fun d => c_plen d <> 0 -> idx <= c_pidx d < idx + 1 + lenZ cs) (c :: cs).
Proof.
  intros [_ Hp] H0. constructor; [done|].
  assert (forall i q, idx <= i - 1 -> (c_plen q <> 0 -> idx <= c_pidx q < i - 1) -> pchain i (Some q) cs ->
    Forall (fun d => c_plen d <> 0 -> idx <= c_pidx d < i + lenZ cs) cs) as H.
  { clear. induction cs as [|c cs IH]; intros i q Hi Hq; [done|]. intros [Hl Hp].
    assert (c_plen c <> 0 -> idx <= c_pidx c < i) as Hc.
    { intros H. destruct (Hl H) as (p & [= <-] & ->). case_decide; [lia|]. specialize (Hq ltac:(done)). lia. }
    cbn [length]. constructor; [intros H; specialize (Hc H); lia|].
    eapply Forall_impl; [|apply (IH (i + 1) c); [lia| |done]].
    - cbn. intros d Hd H. specialize (Hd H). lia.
    - intros H. specialize (Hc H). lia. }
  apply (H (idx + 1) c); [lia|done|done].
Qed.

(** ** Reassembling a page

    A changed page is a freshly written prefix [pre] followed by the entries
    of the old page from [m] on, the first of which stands alone. *)

Lemma idx_range_rest bt cs m c cs2 base shift :
  cells_ok bt cs -> drop m cs = c :: cs2 -> c_plen c = 0 -> base < n2z m ->
  0 <= n2z m + shift -> lenZ cs + shift < 2 ^ 16 -> lenZ cs < 2 ^ 16 ->
  idx_range base shift (drop m cs).
Proof.
  intros [Hw Hp] Hd H0 Hb Hlo Hhi Hlen. rewrite <- (take_drop m cs) in Hw, Hp.
  apply wchain_app in Hw as [_ Hw]. apply pchain_app in Hp as [_ Hp].
  assert (length (drop m cs) = length cs - m)%nat as Hl by apply length_drop.
  rewrite Hd in *. cbn [length] in Hl. apply pchain_range in Hp; [|done].
  rewrite length_take in Hp. apply wchain_ok in Hw. unfold idx_range.
  rewrite Forall_forall in *. intros d Hin. specialize (Hp d Hin). specialize (Hw d Hin).
  pose proof (co_pidx _ _ Hw). pose proof (co_plen _ _ Hw). unfold shift_idx.
  case_if; [|done]. b2p. specialize (Hp ltac:(lia)). lia.
Qed.

Lemma wchain_join bt pre prev cs' :
  wchain bt None pre -> wchain bt prev cs' ->
  (forall c, cs' !! 0%nat = Some c -> c_plen c = 0 /\ c_type c <> BTREE_KEY_META_TYPE1) ->
  wchain bt None (pre ++ cs').
Proof.
  intros Hpre Hw Hhd. apply wchain_app. split; [done|].
  destruct cs' as [|c cs']; [done|]. destruct (Hhd c eq_refl). by eapply wchain_head_free.
Qed.

Section rebuild.
Context (bt : btree_raw) (pre cs : list cell) (m : nat) (base shift : Z).
Context (Hbt : bt_ok bt) (Hpre : cells_ok bt pre) (Hcs : cells_ok bt cs).
Context (Hstop : forall c, cs !! m = Some c -> c_plen c = 0 /\ c_type c <> BTREE_KEY_META_TYPE1).
Context (Hpos : (m <= length cs)%nat) (Hshift : n2z m + shift = lenZ pre) (Hbase : base < n2z m).
Context (Hlen : lenZ cs + shift < 2 ^ 16) (Hlen' : lenZ cs < 2 ^ 16).

Definition rebuilt : list cell := pre ++ (adj base shift <$> drop m cs).

Lemma rest_wchain : exists prev, wchain bt prev (drop m cs).
Proof using Hcs.
  destruct Hcs as [Hw _]. rewrite <- (take_drop m cs) in Hw. apply wchain_app in Hw as [_ Hw]. by eexists.
Qed.

Lemma rest_head c : drop m cs !! 0%nat = Some c -> c_plen c = 0 /\ c_type c <> BTREE_KEY_META_TYPE1.
Proof using Hstop. rewrite lookup_drop, Nat.add_0_r. apply Hstop. Qed.

Lemma rest_range : idx_range base shift (drop m cs).
Proof using All.
  destruct (drop m cs) as [|c cs2] eqn:Hd; [by constructor|]. rewrite <- Hd.
  destruct (rest_head c) as [H0 _]; [by rewrite Hd|].
  eapply idx_range_rest; try done. lia.
Qed.

(** Before the indices are adjusted the page is already decodable. *)
Lemma unadjusted_wchain : wchain bt None (pre ++ drop m cs).
Proof using Hpre Hcs Hstop.
  destruct rest_wchain as [prev Hw]. eapply wchain_join; [apply Hpre|done|apply rest_head].
Qed.

Lemma rebuilt_ok : cells_ok bt rebuilt.
Proof using All.
  destruct rest_wchain as [prev Hw]. pose proof rest_range as Hr.
  pose proof (proj2 Hcs) as Hp. rewrite <- (take_drop m cs) in Hp. apply pchain_app in Hp as [_ Hp].
  rewrite length_take, Nat.min_l in Hp by done.
  pose proof (wchain_ok _ _ _ Hw) as Hok. apply (wchain_adj _ _ _ base shift) in Hw; [|done].
  unfold rebuilt. destruct (drop m cs) as [|c cs2] eqn:Hd; [by rewrite app_nil_r|].
  destruct (rest_head c) as [H0 H1]; [by rewrite Hd|]. split.
  - apply wchain_app. split; [apply Hpre|]. rewrite fmap_cons in *. by eapply wchain_head_free.
  - apply pchain_app. split; [apply Hpre|].
    replace (0 + lenZ pre) with (0 + n2z m + shift) by lia. eapply pchain_adj; [done|done|lia|].
    inversion_clear Hok as [|? ? _ Hok']. eapply Forall_impl; [|done]. intros d Hd'. by apply (co_plen bt).
Qed.

Lemma rebuilt_entries : c_entry <$> rebuilt = (c_entry <$> pre) ++ (c_entry <$> drop m cs).
Proof using Type. unfold rebuilt. by rewrite fmap_app, adj_entries. Qed.

Lemma rebuilt_size :
  length rebuilt = length (pre ++ drop m cs) /\
  length (cells_area rebuilt) = length (cells_area (pre ++ drop m cs)).
Proof using Type.
  unfold rebuilt. rewrite !cells_area_app, !length_app, length_area_adj, length_fmap. done.
Qed.

(** The two fix-ups turn the raw page into the rebuilt one. *)
Lemma rebuild_page n :
  area n = cells_area (pre ++ drop m cs) -> Forall2 hdr_match (headers n) (pre ++ drop m cs) ->
  lenZ (area n) < 2 ^ 16 ->
  exists n1 n2, btree_leaf_adjust_offsets bt n = Some n1 /\
    btree_leaf_adjust_prefix_idxes n1 (length pre) (length (drop m cs)) base shift = Some n2 /\
    n2 = set_area (set_headers n (headers n2)) (area n2) /\ layout n2 rebuilt.
Proof using All.
  intros Ha Hm Hsz. eexists.
  destruct (adjust_prefix_idxes_ok bt (set_headers n (cells_headers 0 (pre ++ drop m cs)))
              pre (drop m cs) base shift Hbt) as (n2 & Hn2 & He & Hl).
  { by split. }
  { destruct rest_wchain as [prev Hw]. by eapply wchain_ok. }
  exists n2. split.
  { apply btree_leaf_adjust_offsets_ok; try done; [apply unadjusted_wchain|by rewrite <- Ha]. }
  split; [done|]. split; [|done]. rewrite He. by destruct n, n2.
Qed.
End rebuild.
