(* ===== verification/LeafSpec.v ===== *)
(** * The leaf operations implement their list specifications

    Insertion, removal and split of a page are shown to compute the cells
    [insert_cells], [remove_cells] and [split_cells], and those to hold the
    entries of the list operations; sizes reported by the code are exact. *)

From S2P Require Import Prelude LeafMeta LeafNode LeafOps LeafCells LeafEncode LeafFixup.

(** ** Sizes *)

(** The space a list of cells takes in a page. *)
Definition cells_size (cs : list cell) : Z :=
  lenZ cs * SIZEOF_ENTRY_HEADER + lenZ (cells_area cs).

Lemma cells_size_app cs1 cs2 : cells_size (cs1 ++ cs2) = cells_size cs1 + cells_size cs2.
Proof. unfold cells_size. rewrite cells_area_app, !length_app. lia. Qed.

Lemma cells_size_nonneg cs : 0 <= cells_size cs.
Proof. unfold cells_size, SIZEOF_ENTRY_HEADER. lia. Qed.

Lemma fit_few bt cs : bt_ok bt -> cells_fit bt cs -> lenZ cs < 2 ^ 14 - 1 /\ lenZ (cells_area cs) < 2 ^ 15.
Proof.
  intros Hbt Hfit. unfold cells_fit, SIZEOF_ENTRY_HEADER in Hfit.
  pose proof (bt_node _ Hbt). pose proof (bt_node_max _ Hbt).
  unfold BTREE_MAX_NODE_SIZE, SIZEOF_BTREE_RAW_NODE in *. lia.
Qed.

Lemma fit_size bt cs : bt_ok bt -> cells_fit bt cs -> 0 <= cells_size cs < 2 ^ 15.
Proof.
  intros Hbt Hfit. split; [apply cells_size_nonneg|].
  pose proof (bt_node _ Hbt). pose proof (bt_node_max _ Hbt).
  unfold cells_fit, BTREE_MAX_NODE_SIZE, SIZEOF_BTREE_RAW_NODE in *. unfold cells_size. lia.
Qed.

(** A cell is never larger than the largest metadata and a big object. *)
Lemma cell_bytes_max bt c :
  bt_ok bt -> cell_ok bt c -> lenZ (cell_bytes c) <= 34 + big_object_size bt.
Proof.
  intros Hbt Hc. rewrite (length_cell_bytes bt) by done. unfold get_key_meta_space_used; cbn.
  destruct Hc as [[Hk Hkb Hd Hdata Hp Hs Hb] Ht Hpl Hpi Hmn]. unfold c_key in *.
  pose proof (data_inleaf_bound bt (lenZ (e_key (c_entry c))) (e_datalen (c_entry c)) Hbt).
  assert (get_meta_type_to_size (c_type c) <= 34) by (destruct (c_type c); cbn; lia). lia.
Qed.

Lemma cells_area_max bt cs :
  bt_ok bt -> Forall (cell_ok bt) cs -> lenZ (cells_area cs) <= lenZ cs * 2 ^ 16.
Proof.
  intros Hbt. induction 1 as [|c cs Hc Hcs IH]; [done|].
  rewrite cells_area_cons, length_app. cbn [length].
  pose proof (cell_bytes_max _ _ Hbt Hc). pose proof (bt_big _ Hbt).
  pose proof (bt_node _ Hbt). pose proof (bt_node_max _ Hbt).
  unfold BTREE_MAX_NODE_SIZE, SIZEOF_BTREE_RAW_NODE, MAX_UINT8_T in *. lia.
Qed.

Lemma cells_size_max bt cs :
  bt_ok bt -> Forall (cell_ok bt) cs -> lenZ cs <= 2 ^ 14 -> cells_size cs < 2 ^ 31.
Proof.
  intros Hbt Hok Hlen. unfold cells_size, SIZEOF_ENTRY_HEADER.
  pose proof (cells_area_max _ _ Hbt Hok). lia.
Qed.

(** ** Insertion *)

(** The metadata chosen for an entry inserted at [index]. *)
Definition insert_km (bt : btree_raw) (cs : list cell) (index : nat) (e : entry) : key_meta :=
  match prev_of None cs index with
  | None => km_entry e
  | Some p => build_key_prefix_int bt (c_key p) (e_key e) (n2z index - 1) (c_meta p) (km_entry e)
  end.

Definition insert_imp (bt : btree_raw) (cs : list cell) (index : nat) (e : entry) : list cell :=
  relink bt (e_key e) (n2z index) (insert_km bt cs index e) (drop index cs).

Definition insert_pre (bt : btree_raw) (cs : list cell) (index : nat) (e : entry) : list cell :=
  take index cs ++ km_cell (insert_km bt cs index e) e :: insert_imp bt cs index e.

(** The cells of the page after the insertion. *)
Definition insert_cells (bt : btree_raw) (cs : list cell) (index : nat) (e : entry) : list cell :=
  rebuilt (insert_pre bt cs index e) cs (index + length (insert_imp bt cs index e)) (n2z index - 1) 1.

Lemma cells_ok_take bt cs i : cells_ok bt cs -> cells_ok bt (take i cs).
Proof.
  intros [Hw Hp]. rewrite <- (take_drop i cs) in Hw, Hp.
  apply wchain_app in Hw as [Hw _]. apply pchain_app in Hp as [Hp _]. done.
Qed.

Lemma cells_ok_drop bt cs i : cells_ok bt cs -> Forall (cell_ok bt) (drop i cs).
Proof. intros [Hw _]. eapply Forall_drop, wchain_ok, Hw. Qed.

(** The last cell before position [i]. *)
Lemma last_take (cs : list cell) i :
  (i <= length cs)%nat -> list.last (take i cs) = prev_of None cs i.
Proof.
  intros Hi. destruct i as [|i]; [done|]. cbn [prev_of].
  destruct (lookup_lt_is_Some_2 cs i) as [c Hc]; [lia|].
  by rewrite (take_S_r _ _ _ Hc), last_snoc.
Qed.

Section insertion.
Context (bt : btree_raw) (cs : list cell) (index : nat) (e : entry).
Context (Hbt : bt_ok bt) (Hcs : cells_ok bt cs) (Hfit : cells_fit bt cs).
Context (He : entry_ok bt e) (Hidx : (index <= length cs)%nat).

Let km := insert_km bt cs index e.

Lemma insert_km_ok :
  km_for km e /\ cell_ok bt (km_cell km e) /\
  wlink (prev_of None cs index) (km_cell km e) /\
  plink (n2z index) (prev_of None cs index) (km_cell km e).
Proof using All.
  unfold km, insert_km. destruct (prev_of None cs index) as [p|] eqn:Hp.
  - destruct index as [|i]; [done|]. cbn in Hp.
    pose proof (cell_ok_at _ _ Hcs _ _ Hp) as Hok.
    pose proof (fit_few _ _ Hbt Hfit).
    apply build_link; try done. lia.
  - destruct (full_cell_ok bt e Hbt He) as [Hok Hw]. split_and?; try done. by intros [].
Qed.

Lemma insert_pre_ok : cells_ok bt (insert_pre bt cs index e).
Proof using All.
  destruct insert_km_ok as (Hf & Hok & Hw & Hp). pose proof (fit_few _ _ Hbt Hfit) as Hfew.
  destruct (cells_ok_take _ _ index Hcs) as [Hw1 Hp1].
  destruct (relink_chain bt (km_cell km e) (n2z index) km (drop index cs) Hbt Hok) as [Hw2 Hp2];
    [by apply km_cell_agrees|by apply cells_ok_drop|lia|rewrite length_drop; lia|].
  pose proof (last_take cs index Hidx) as Hlast.
  split; [apply wchain_app|apply pchain_app]; (split; [done|]); rewrite Hlast; cbn [wchain pchain].
  - by destruct (prev_of None cs index).
  - rewrite length_take, Nat.min_l, Z.add_0_l by done. by destruct (prev_of None cs index).
Qed.

Lemma insert_imp_le : (index + length (insert_imp bt cs index e) <= length cs)%nat.
Proof using Hidx.
  pose proof (length_relink bt (e_key e) (n2z index) km (drop index cs)) as H.
  rewrite length_drop in H. unfold insert_imp. fold km. lia.
Qed.

Lemma insert_stop c :
  cs !! (index + length (insert_imp bt cs index e))%nat = Some c ->
  c_plen c = 0 /\ c_type c <> BTREE_KEY_META_TYPE1.
Proof using Type. rewrite <- lookup_drop. apply relink_stop. Qed.

Lemma length_insert_pre :
  length (insert_pre bt cs index e) = (index + length (insert_imp bt cs index e) + 1)%nat.
Proof using Hidx. unfold insert_pre. rewrite length_app, length_take. cbn [length]. lia. Qed.

Lemma insert_cells_ok : cells_ok bt (insert_cells bt cs index e).
Proof using All.
  pose proof (fit_few _ _ Hbt Hfit). pose proof insert_imp_le. apply rebuilt_ok; try done; try lia.
  - apply insert_pre_ok.
  - apply insert_stop.
  - rewrite length_insert_pre. lia.
Qed.

Lemma insert_cells_entries :
  c_entry <$> insert_cells bt cs index e
  = take index (c_entry <$> cs) ++ e :: drop index (c_entry <$> cs).
Proof using Type.
  unfold insert_cells. rewrite rebuilt_entries. unfold insert_pre.
  rewrite fmap_app, fmap_cons, fmap_take, <- app_assoc. f_equal. cbn [app km_cell c_entry]. f_equal.
  unfold insert_imp at 1. rewrite relink_entries. fold (insert_imp bt cs index e).
  rewrite <- fmap_drop, <- drop_drop, <- fmap_app. by rewrite take_drop.
Qed.

Lemma insert_cells_length : length (insert_cells bt cs index e) = S (length cs).
Proof using Hidx.
  pose proof (f_equal length insert_cells_entries) as H.
  rewrite length_fmap, length_app, length_take in H. cbn [length] in H.
  rewrite length_drop, length_fmap in H. lia.
Qed.
End insertion.

Lemma build_key_prefix_ok bt n cs index e :
  bt_ok bt -> layout n cs -> cells_ok bt cs -> (index <= length cs)%nat ->
  build_key_prefix bt n index (e_key e) (km_entry e) = Some (insert_km bt cs index e).
Proof.
  intros Hbt Hlay Hcs Hidx. unfold build_key_prefix, insert_km.
  destruct index as [|i]; [done|]. cbn [prev_of].
  destruct (lookup_lt_is_Some_2 cs i) as [p Hp]; [lia|]. rewrite Hp.
  rewrite (layout_meta bt n cs Hbt Hlay Hcs _ _ Hp), (layout_key_info bt n cs Hbt Hlay Hcs _ _ Hp). runs.
  cbn [e_info ki_key]. fold (c_key p). do 2 f_equal. lia.
Qed.

(** The copy of the entries that need no change. *)
Lemma copy_rest_ok n cs k dry :
  layout n cs -> (k <= length cs)%nat ->
  (if decide (length (headers n) + 1 <= k + 1)%nat then Some []
   else copy_rest n k dry) = Some (copied dry (cells_area (drop k cs))).
Proof.
  intros Hlay Hk. rewrite (layout_length n cs Hlay). case_decide.
  - rewrite drop_ge by lia. by destruct dry.
  - apply layout_copy_rest; [done|lia].
Qed.

Section insertion_page.
Context (bt : btree_raw) (n : btree_raw_node) (cs : list cell) (index : nat) (e : entry).
Context (Hbt : bt_ok bt) (Hlay : layout n cs) (Hcs : cells_ok bt cs) (Hfit : cells_fit bt cs).
Context (He : entry_ok bt e) (Hidx : (index <= length cs)%nat).

Let imp := insert_imp bt cs index e.
Let m := (index + length imp)%nat.

(** Everything the insertion computes before it commits. *)
Lemma insert_compute data post dry :
  dry = true \/ data = e_data e ++ post ->
  btree_leaf_insert_key_index bt n (e_key e) data (e_datalen e) (e_info e) index dry =
  (_ ← assert_ (dry || (cells_size (insert_cells bt cs index e) <=? nodesize_less_hdr bt));
   let bytes := i32 (cells_size (insert_cells bt cs index e) - cells_size cs) in
   if dry then Some (n, bytes)
   else
     n1 ← btree_leaf_adjust_offsets bt
            (set_area (set_headers n (take index (headers n) ++
               mk_entry_header (e_tomb e) (get_key_meta_type (insert_km bt cs index e)) 0
               :: set_types (drop index (headers n)) (c_type <$> imp)))
              (copied dry (cells_area (insert_pre bt cs index e ++ drop m cs))));
     n2 ← btree_leaf_adjust_prefix_idxes n1 (length (insert_pre bt cs index e))
            (length (drop m cs)) (n2z index - 1) 1;
     Some (n2, bytes)).
Proof using All.
  intros Hdata. unfold btree_leaf_insert_key_index. cbn [e_info ki_keylen ki_key ki_ptr ki_seqno ki_tombstone].
  pass by (by apply Z.eqb_eq). pass by (apply Z.ltb_lt; apply (eo_key _ _ He)).
  fold (km_entry e). rewrite (build_key_prefix_ok bt n cs) by done. runs.
  unfold key_meta_to_key_metax. cbv beta iota zeta.
  rewrite (layout_bytes_before bt n cs) by done. runs.
  rewrite (layout_copy_before n cs) by done. runs.
  destruct (insert_km_ok bt cs index e Hbt Hcs Hfit He Hidx) as (Hkf & Hkok & _ & Hplink).
  pose proof (fit_few _ _ Hbt Hfit) as Hfew.
  set (km := insert_km bt cs index e) in *.
  rewrite (append_entry_ok bt (set_meta_type km _) e data post); [|done|done|apply (co_plen _ _ Hkok)|done].
  runs. cbn [fst snd].
  unfold copy_impacted_keys_to_tmp_buf.
  rewrite (copy_impacted_loop_ok bt n cs Hbt Hlay Hcs); [|lia|by rewrite (layout_length n cs Hlay)|lia|].
  2: { cbn [prefix_len prefix_idx set_meta_type]. intros Hpos.
       destruct Hplink as (p & Hp & E); [cbn; lia|]. cbn in E. rewrite E.
       destruct index as [|i]; [done|]. cbn in Hp. case_decide; [lia|].
       destruct (run_head bt cs i p (proj1 Hcs) (proj2 Hcs) Hp) as (h & _ & ? & _); [done|lia]. }
  runs. cbn [fst snd].
  rewrite (relink_ext bt _ _ _ km) by done.
  change (relink bt (e_key e) (n2z index) km (drop index cs)) with imp. rewrite length_fmap.
  pose proof (insert_imp_le bt cs index e Hidx) as Hle. fold imp in Hle. fold m in Hle.
  replace (index + 1 + length imp)%nat with (m + 1)%nat by lia.
  replace (m + 1 - 1)%nat with m by lia.
  rewrite (copy_rest_ok n cs) by done. runs.
  change (cell_bytes (km_cell (set_meta_type km (get_key_meta_type km)) e))
    with (cell_bytes (km_cell km e)).
  assert (copied dry (cells_area (take index cs)) ++ copied dry (cell_bytes (km_cell km e)) ++
          copied dry (cells_area imp) ++ copied dry (cells_area (drop m cs))
          = copied dry (cells_area (insert_pre bt cs index e ++ drop m cs))) as ->.
  { unfold insert_pre. fold km. fold imp. rewrite !cells_area_app, cells_area_cons, <- !app_assoc.
    by rewrite !copied_app. }
  rewrite (layout_used_space bt n cs) by done. fold (cells_size cs).
  unfold nkeys. rewrite length_copied, (layout_length n cs Hlay).
  replace ((lenZ cs + 1) * SIZEOF_ENTRY_HEADER + lenZ (cells_area (insert_pre bt cs index e ++ drop m cs)))
    with (cells_size (insert_cells bt cs index e)).
  2: { unfold cells_size. rewrite insert_cells_length by done. unfold insert_cells.
       rewrite (proj2 (rebuilt_size _ _ _ _ _)). fold imp. fold m. lia. }
  rewrite length_insert_pre by done. fold imp. fold m.
  replace (length cs + 1 - (m + 1))%nat with (length (drop m cs)) by (rewrite length_drop; lia).
  done.
Qed.

Lemma insert_headers_match :
  Forall2 hdr_match
    (take index (headers n) ++
       mk_entry_header (e_tomb e) (get_key_meta_type (insert_km bt cs index e)) 0
       :: set_types (drop index (headers n)) (c_type <$> imp))
    (insert_pre bt cs index e ++ drop m cs).
Proof using Hlay.
  pose proof (cells_headers_match 0 cs) as Hm. rewrite <- (proj1 Hlay) in Hm.
  unfold insert_pre. rewrite <- app_assoc. apply Forall2_app; [by apply Forall2_take|].
  cbn [app]. constructor; [done|]. unfold m. rewrite <- drop_drop.
  apply set_types_match; [by apply Forall2_drop|]. apply relink_entries.
Qed.

(** A dry run reports the growth of the page and leaves it alone. *)
Lemma insert_dry data :
  btree_leaf_insert_key_index bt n (e_key e) data (e_datalen e) (e_info e) index true
  = Some (n, cells_size (insert_cells bt cs index e) - cells_size cs).
Proof using All.
  rewrite (insert_compute data []) by (by left). cbn [orb]. pass by done. do 2 f_equal.
  pose proof (insert_cells_ok bt cs index e Hbt Hcs Hfit He Hidx) as [Hw _].
  pose proof (fit_few _ _ Hbt Hfit).
  pose proof (cells_size_max bt _ Hbt (wchain_ok _ _ _ Hw)) as Hmax.
  rewrite (insert_cells_length bt cs index e Hidx) in Hmax.
  pose proof (cells_size_max bt _ Hbt (wchain_ok _ _ _ (proj1 Hcs))) as Hmax'.
  pose proof (cells_size_nonneg cs). pose proof (cells_size_nonneg (insert_cells bt cs index e)).
  apply i32_small. lia.
Qed.

Lemma insert_real data post :
  data = e_data e ++ post -> cells_fit bt (insert_cells bt cs index e) ->
  exists n',
    btree_leaf_insert_key_index bt n (e_key e) data (e_datalen e) (e_info e) index false
    = Some (n', cells_size (insert_cells bt cs index e) - cells_size cs) /\
    layout n' (insert_cells bt cs index e) /\
    n' = set_area (set_headers n (headers n')) (area n').
Proof using All.
  intros -> Hfit'. pose proof (fit_few _ _ Hbt Hfit) as [Hf1 Hf2].
  pose proof (fit_few _ _ Hbt Hfit') as [Hf1' Hf2'].
  pose proof (insert_imp_le bt cs index e Hidx) as Hle. fold imp in Hle. fold m in Hle.
  destruct (rebuild_page bt (insert_pre bt cs index e) cs m (n2z index - 1) 1)
    with (n := set_area (set_headers n (take index (headers n) ++
               mk_entry_header (e_tomb e) (get_key_meta_type (insert_km bt cs index e)) 0
               :: set_types (drop index (headers n)) (c_type <$> imp)))
              (cells_area (insert_pre bt cs index e ++ drop m cs)))
    as (n1 & n2 & Hn1 & Hn2 & Hfr & Hl2); try done; try lia.
  - by apply insert_pre_ok.
  - apply insert_stop.
  - rewrite length_insert_pre by done. fold imp. fold m. lia.
  - apply insert_headers_match.
  - cbn [area set_area set_headers]. unfold insert_cells in Hf2'. fold imp in Hf2'. fold m in Hf2'.
    rewrite (proj2 (rebuilt_size _ _ _ _ _)) in Hf2'. lia.
  - exists n2. rewrite (insert_compute _ post) by (by right). cbn [orb copied]. split; [|done].
    pass by (by apply Z.leb_le). rewrite Hn1. runs. rewrite Hn2. runs. do 2 f_equal. apply i32_small.
    pose proof (fit_size _ _ Hbt Hfit). pose proof (fit_size _ _ Hbt Hfit'). lia.
Qed.

(** Without room the space assertion of the code fails. *)
Lemma insert_no_room data post :
  data = e_data e ++ post -> ~ cells_fit bt (insert_cells bt cs index e) ->
  btree_leaf_insert_key_index bt n (e_key e) data (e_datalen e) (e_info e) index false = None.
Proof using All.
  intros -> Hfit'. rewrite (insert_compute _ post) by (by right). cbn [orb].
  unfold assert_. case_if; [|done]. b2p. done.
Qed.
End insertion_page.

(** ** Removal *)

Definition remove_imp (bt : btree_raw) (cs : list cell) (index : nat) : list cell :=
  match prev_of None cs index with
  | None => relink_first bt (drop (S index) cs)
  | Some p => relink bt (c_key p) (n2z index - 1) (c_meta p) (drop (S index) cs)
  end.

Definition remove_pre (bt : btree_raw) (cs : list cell) (index : nat) : list cell :=
  take index cs ++ remove_imp bt cs index.

(** The cells of the page after the removal. *)
Definition remove_cells (bt : btree_raw) (cs : list cell) (index : nat) : list cell :=
  rebuilt (remove_pre bt cs index) cs (S index + length (remove_imp bt cs index)) (n2z index) (-1).

Section removal.
Context (bt : btree_raw) (cs : list cell) (index : nat).
Context (Hbt : bt_ok bt) (Hcs : cells_ok bt cs) (Hfit : cells_fit bt cs).
Context (Hidx : (index < length cs)%nat).

Let imp := remove_imp bt cs index.
Let m := (S index + length imp)%nat.

Lemma remove_imp_le : (m <= length cs)%nat.
Proof using Hidx.
  assert (length imp <= length (drop (S index) cs))%nat as H.
  { unfold imp, remove_imp. destruct (prev_of None cs index);
      [apply length_relink|apply length_relink_first]. }
  rewrite length_drop in H. unfold m. lia.
Qed.

Lemma remove_stop c :
  cs !! m = Some c -> c_plen c = 0 /\ c_type c <> BTREE_KEY_META_TYPE1.
Proof using Type.
  unfold m. rewrite <- lookup_drop. unfold imp, remove_imp. destruct (prev_of None cs index);
    [apply relink_stop|apply relink_first_stop].
Qed.

Lemma remove_imp_entries : c_entry <$> imp = c_entry <$> take (length imp) (drop (S index) cs).
Proof using Type.
  unfold imp, remove_imp. destruct (prev_of None cs index);
    [apply relink_entries|apply relink_first_entries].
Qed.

Lemma remove_pre_ok : cells_ok bt (remove_pre bt cs index).
Proof using All.
  pose proof (fit_few _ _ Hbt Hfit) as Hfew.
  destruct (cells_ok_take _ _ index Hcs) as [Hw1 Hp1].
  pose proof (last_take cs index) as Hlast. pose proof (length_drop cs (S index)) as Hld.
  assert (wchain bt (prev_of None cs index) imp /\ pchain (n2z index) (prev_of None cs index) imp) as [Hw2 Hp2].
  { unfold imp, remove_imp. destruct (prev_of None cs index) as [p|] eqn:Hp.
    - destruct index as [|i]; [done|]. cbn in Hp.
      destruct (relink_chain bt p (n2z (S i) - 1) (c_meta p) (drop (S (S i)) cs) Hbt) as [? ?];
        [by eapply cell_ok_at|done|by apply cells_ok_drop|lia|lia|].
      split; [done|]. by replace (n2z (S i)) with (n2z (S i) - 1 + 1) at 1 by lia.
    - assert (index = 0)%nat as ->.
      { destruct index; [done|]. cbn in Hp. apply lookup_ge_None in Hp. lia. }
      apply relink_first_chain; [done|by apply cells_ok_drop|lia]. }
  unfold remove_pre. fold imp.
  split; [apply wchain_app|apply pchain_app]; (split; [done|]); rewrite Hlast by lia.
  - by destruct (prev_of None cs index).
  - rewrite length_take, Nat.min_l, Z.add_0_l by lia. by destruct (prev_of None cs index).
Qed.

Lemma length_remove_pre : length (remove_pre bt cs index) = (index + length imp)%nat.
Proof using Hidx. unfold remove_pre. rewrite length_app, length_take. fold imp. lia. Qed.

Lemma remove_cells_ok : cells_ok bt (remove_cells bt cs index).
Proof using All.
  pose proof (fit_few _ _ Hbt Hfit). pose proof remove_imp_le. apply rebuilt_ok; try done; try lia.
  - apply remove_pre_ok.
  - apply remove_stop.
  - rewrite length_remove_pre. fold imp. lia.
Qed.

Lemma remove_cells_entries :
  c_entry <$> remove_cells bt cs index = delete index (c_entry <$> cs).
Proof using Type.
  unfold remove_cells. rewrite rebuilt_entries. unfold remove_pre. fold imp.
  rewrite fmap_app, remove_imp_entries, <- app_assoc, <- fmap_app, <- drop_drop, take_drop.
  by rewrite delete_take_drop, fmap_take, fmap_drop.
Qed.

Lemma remove_cells_length : length (remove_cells bt cs index) = (length cs - 1)%nat.
Proof using Hidx.
  pose proof (f_equal length remove_cells_entries) as H.
  rewrite length_fmap, length_delete in H by (rewrite list_lookup_fmap; apply fmap_is_Some, lookup_lt_is_Some_2; lia).
  rewrite length_fmap in H. lia.
Qed.

Lemma remove_headers_match hs :
  Forall2 hdr_match hs cs ->
  Forall2 hdr_match (take index hs ++ set_types (drop (index + 1) hs) (c_type <$> imp))
    (remove_pre bt cs index ++ drop m cs).
Proof using Type.
  intros Hm. unfold remove_pre. rewrite <- app_assoc. apply Forall2_app; [by apply Forall2_take|].
  unfold m. rewrite <- (drop_drop cs), Nat.add_1_r. fold imp.
  apply set_types_match; [by apply Forall2_drop|]. apply remove_imp_entries.
Qed.
End removal.

Section removal_page.
Context (bt : btree_raw) (n : btree_raw_node) (cs : list cell) (index : nat).
Context (Hbt : bt_ok bt) (Hlay : layout n cs) (Hcs : cells_ok bt cs) (Hfit : cells_fit bt cs).
Context (Hidx : (index < length cs)%nat).

Let imp := remove_imp bt cs index.
Let m := (S index + length imp)%nat.

(** The predecessor and the impacted entries, as the removal reads them. *)
Lemma remove_impacted dry :
  (prev ← match index with
          | O => Some (None, key_meta_zero)
          | S i =>
              ki ← btree_leaf_get_nth_key_info n i;
              km ← btree_leaf_get_meta n i;
              Some (Some (ki_key ki), km)
          end;
   copy_impacted_keys_to_tmp_buf bt n (index + 1) (n2z index - 1) prev.1 prev.2 dry)
  = Some (c_type <$> imp, copied dry (cells_area imp)).
Proof using All.
  pose proof (fit_few _ _ Hbt Hfit) as Hfew. rewrite Nat.add_1_r. unfold imp, remove_imp.
  destruct index as [|i]; cbn [prev_of].
  { runs. cbn [fst snd]. apply copy_impacted_keys_first_ok; try done. lia. }
  destruct (lookup_lt_is_Some_2 cs i) as [p Hp]; [lia|]. rewrite Hp.
  unfold btree_leaf_get_nth_key_info.
  rewrite (layout_key_info bt n cs Hbt Hlay Hcs _ _ Hp), (layout_meta bt n cs Hbt Hlay Hcs _ _ Hp).
  runs. cbn [fst snd e_info ki_key]. unfold copy_impacted_keys_to_tmp_buf. fold (c_key p).
  apply copy_impacted_loop_ok; try done; [lia|by rewrite (layout_length n cs Hlay)|lia|].
  cbn [c_meta prefix_len prefix_idx]. intros Hpos.
  destruct (run_head bt cs i p (proj1 Hcs) (proj2 Hcs) Hp) as (h & _ & ? & _); lia.
Qed.

(** Everything the removal computes before it commits. *)
Lemma remove_compute dry :
  btree_leaf_remove_key_index_int bt n index dry =
  (let bytes := i32 (cells_size cs - cells_size (remove_cells bt cs index)) in
   if dry then Some (n, bytes)
   else
     _ ← assert_ (cells_size (remove_cells bt cs index) <? nodesize_less_hdr bt);
     n1 ← btree_leaf_adjust_offsets bt
            (set_area (set_headers n (take index (headers n) ++
               set_types (drop (index + 1) (headers n)) (c_type <$> imp)))
              (copied dry (cells_area (remove_pre bt cs index ++ drop m cs))));
     n2 ← btree_leaf_adjust_prefix_idxes n1 (length (remove_pre bt cs index))
            (length (drop m cs)) (n2z index) (-1);
     Some (n2, bytes)).
Proof using All.
  unfold btree_leaf_remove_key_index_int.
  rewrite (layout_bytes_before bt n cs) by (try done; lia). runs.
  rewrite (layout_copy_before n cs) by (try done; lia). runs.
  destruct (lookup_lt_is_Some_2 cs index) as [c Hc]; [done|].
  rewrite (layout_meta bt n cs Hbt Hlay Hcs _ _ Hc). runs.
  pose proof (remove_impacted dry) as Himp.
  destruct (match index with O => _ | S i => _ end) as [prev|]; [|done].
  cbn [mbind option_bind] in Himp |- *. rewrite Himp. runs. cbn [fst snd]. rewrite length_fmap.
  pose proof (remove_imp_le bt cs index Hidx) as Hle. fold imp in Hle. fold m in Hle.
  replace (index + length imp + 1)%nat with m by lia.
  assert ((if decide (length (headers n) - 1 <= index + length imp)%nat then Some []
           else copy_rest n m dry) = Some (copied dry (cells_area (drop m cs)))) as ->.
  { rewrite <- (copy_rest_ok n cs m dry) by done. pose proof (layout_length n cs Hlay).
    repeat case_decide; try done; lia. }
  runs. rewrite (layout_used_space bt n cs) by done. fold (cells_size cs).
  assert (copied dry (cells_area (take index cs)) ++ copied dry (cells_area imp) ++
          copied dry (cells_area (drop m cs))
          = copied dry (cells_area (remove_pre bt cs index ++ drop m cs))) as ->.
  { unfold remove_pre. fold imp. rewrite !cells_area_app, <- !app_assoc. by rewrite !copied_app. }
  unfold nkeys. rewrite length_copied, (layout_length n cs Hlay).
  replace ((lenZ cs - 1) * SIZEOF_ENTRY_HEADER + lenZ (cells_area (remove_pre bt cs index ++ drop m cs)))
    with (cells_size (remove_cells bt cs index)).
  2: { unfold cells_size. rewrite remove_cells_length by done. unfold remove_cells.
       rewrite (proj2 (rebuilt_size _ _ _ _ _)). fold imp. fold m.
       rewrite Nat2Z.inj_sub by lia. lia. }
  rewrite length_remove_pre by done. fold imp.
  replace (length cs - 1 - (index + length imp))%nat with (length (drop m cs))
    by (rewrite length_drop; unfold m; lia).
  done.
Qed.

Lemma remove_real :
  cells_size (remove_cells bt cs index) < nodesize_less_hdr bt ->
  exists n',
    btree_leaf_remove_key_index_int bt n index false
    = Some (n', cells_size cs - cells_size (remove_cells bt cs index)) /\
    layout n' (remove_cells bt cs index) /\
    n' = set_area (set_headers n (headers n')) (area n').
Proof using All.
  intros Hlt. assert (cells_fit bt (remove_cells bt cs index)) as Hfit'
    by (unfold cells_fit, cells_size in *; lia).
  pose proof (fit_few _ _ Hbt Hfit) as [Hf1 Hf2].
  pose proof (fit_few _ _ Hbt Hfit') as [Hf1' Hf2'].
  pose proof (remove_imp_le bt cs index Hidx) as Hle. fold imp in Hle. fold m in Hle.
  destruct (rebuild_page bt (remove_pre bt cs index) cs m (n2z index) (-1))
    with (n := set_area (set_headers n (take index (headers n) ++
               set_types (drop (index + 1) (headers n)) (c_type <$> imp)))
              (cells_area (remove_pre bt cs index ++ drop m cs)))
    as (n1 & n2 & Hn1 & Hn2 & Hfr & Hl2); try done; try lia.
  - by apply remove_pre_ok.
  - apply remove_stop.
  - rewrite length_remove_pre by done. fold imp. lia.
  - apply remove_headers_match. rewrite (proj1 Hlay). apply cells_headers_match.
  - cbn [area set_area set_headers]. unfold remove_cells in Hf2'. fold imp in Hf2'. fold m in Hf2'.
    rewrite (proj2 (rebuilt_size _ _ _ _ _)) in Hf2'. lia.
  - exists n2. rewrite remove_compute. cbn [copied]. split; [|done].
    pass by (by apply Z.ltb_lt). rewrite Hn1. runs. rewrite Hn2. runs. do 2 f_equal. apply i32_small.
    pose proof (fit_size _ _ Hbt Hfit). pose proof (fit_size _ _ Hbt Hfit'). lia.
Qed.
End removal_page.
