(* ===== verification/LeafRefine.v ===== *)
(** * Leaves as lists of entries

    First the split of a leaf, then the contract of the leaf code towards the
    tree: pages hold lists of entries, and the operations are the list
    operations. *)

From S2P Require Import Prelude LeafMeta LeafNode LeafOps LeafCells LeafEncode LeafFixup LeafSpec.

(** * Splitting a leaf

    The split keeps the left part of the page as it is and rewrites the right
    part into a fresh page; the final adjustment of the prefix indices runs
    over the whole right page, so the entries rewritten one by one must not be
    moved by it: their indices all point to the first entry. *)

(** ** The rewritten run *)

Lemma common_length_ge k1 k2 (l : nat) :
  (l <= length k1)%nat -> (l <= length k2)%nat -> take l k1 = take l k2 ->
  n2z l <= common_length k1 k2.
Proof.
  revert k2 l; induction k1 as [|b1 k1 IH]; intros k2 [|l]; cbn [common_length length]; try lia.
  - destruct k2; [done|]. case_decide; [|done]. intros. pose proof (common_length_spec k1 k2). lia.
  - destruct k2 as [|b2 k2]; cbn [length take]; [lia|]. intros H1 H2 [= -> Ht].
    rewrite decide_True by done. specialize (IH k2 l ltac:(lia) ltac:(lia) Ht). lia.
Qed.

(** An entry keeps a prefix when its predecessor's key is unchanged. *)
Lemma common_part_kept bt p c :
  bt_ok bt -> cell_ok bt c -> wlink (Some p) c -> c_plen c <> 0 -> space_op_disabled bt = false ->
  0 < get_common_part bt (c_key p) (c_key c).
Proof.
  intros Hbt Hok [[? _]|(q & [= <-] & Hpos & Hle & Ht & _)] Hne Hso; [done|].
  unfold get_common_part. rewrite Hso. pose proof (co_min _ _ Hok). pose proof (bt_common _ Hbt).
  pose proof (co_plen _ _ Hok).
  pose proof (common_length_ge (c_key p) (c_key c) (z2n (c_plen c)) ltac:(lia) ltac:(lia) ltac:(done)).
  case_if; b2p; lia.
Qed.

Lemma relink_run bt old p pki pkm cs :
  bt_ok bt -> c_key old = c_key p -> km_agrees pkm p -> 0 <= c_plen p -> wchain bt (Some old) cs ->
  (c_plen p = 0 /\ pki = 0) \/ (0 < c_plen p /\ c_pidx p = 0) \/ space_op_disabled bt = true ->
  Forall (fun c => c_plen c = 0 \/ c_pidx c = 0) (relink bt (c_key p) pki pkm cs).
Proof.
  intros Hbt. revert old p pki pkm; induction cs as [|c cs IH];
    intros old p pki pkm Hk (Ak & Ad & Al & Ai) Hnn Hw Hst; cbn [relink]; [done|].
  destruct Hw as (Hok & Hlink & Hw).
  match goal with |- Forall _ (if ?b then _ else _) => destruct b eqn:Hb end; [done|].
  destruct (build_key_prefix_int_spec bt (c_key p) (c_key c) pki pkm (km_entry (c_entry c)))
    as (Sl & Si & Sk & Sd & Sp & Ss & Sc).
  set (km := build_key_prefix_int _ _ _ _ _ _) in *.
  assert (km_agrees km (km_cell km (c_entry c))) as Hag by (by apply km_cell_agrees).
  destruct (space_op_disabled bt) eqn:Hso.
  { assert (get_common_part bt (c_key p) (c_key c) = 0) as Hg by (unfold get_common_part; by rewrite Hso).
    rewrite Hg in Sl. change (prefix_len km = 0) in Sl. constructor; [by left|].
    apply (IH c (km_cell km (c_entry c))); try done; [cbn; lia|by right; right]. }
  pose proof (common_part_nonneg bt (c_key p) (c_key c)) as Hg0.
  assert (0 < get_common_part bt (c_key p) (c_key c)) as Hg.
  { destruct (Z.eq_dec (c_plen c) 0) as [H0|H0].
    - destruct Hlink as [[_ Ht]|(q & _ & ? & _)]; [|lia].
      rewrite bool_decide_false, H0 in Hb by done. cbn [negb andb Z.eqb] in Hb.
      rewrite andb_true_r in Hb. b2p. revert Sl. case_if; b2p; lia.
    - rewrite <- Hk. by apply common_part_kept. }
  assert (0 < prefix_len km /\ prefix_idx km = 0) as [Hpos Hidx].
  { rewrite Sl, Si, Al, Ai. rewrite (proj2 (Z.eqb_neq _ 0)) by lia.
    destruct Hst as [[-> ->]|[[Hpp ->]|?]]; [|rewrite (proj2 (Z.ltb_lt _ _) Hpp)|done];
      (split; [cbn [Z.ltb Z.compare]; lia|done]). }
  constructor; [by right|].
  apply (IH c (km_cell km (c_entry c))); try done; [cbn; lia|right; left; done].
Qed.

Lemma relink_first_run bt prev cs :
  bt_ok bt -> wchain bt prev cs ->
  Forall (fun c => c_plen c = 0 \/ c_pidx c = 0) (relink_first bt cs).
Proof.
  intros Hbt Hw. destruct cs as [|c cs]; [done|]. destruct Hw as (Hok & _ & Hw). cbn [relink_first].
  constructor; [by left|].
  apply (relink_run bt c (km_cell (km_entry (c_entry c)) (c_entry c))); try done. by left.
Qed.

Lemma adj_base_0 shift cs :
  Forall (fun c => c_plen c = 0 \/ c_pidx c = 0) cs -> adj 0 shift <$> cs = cs.
Proof.
  induction 1 as [|c cs Hc Hcs IH]; [done|]. rewrite fmap_cons, IH. f_equal.
  destruct c as [e pi pl t]; cbn in Hc. unfold adj, shift_idx; cbn. f_equal.
  destruct Hc as [->| ->]; [done|]. by rewrite andb_false_r.
Qed.

(** ** The two halves *)

Definition split_left (cs : list cell) (mid : nat) : list cell := take (S mid) cs.

Definition split_right (bt : btree_raw) (cs : list cell) (mid : nat) : list cell :=
  let imp := relink_first bt (drop (S mid) cs) in
  rebuilt imp cs (S mid + length imp) 0 (- (n2z mid + 1)).

Section splitting.
Context (bt : btree_raw) (cs : list cell) (mid : nat).
Context (Hbt : bt_ok bt) (Hcs : cells_ok bt cs) (Hfit : cells_fit bt cs).
Context (Hmid : (S mid < length cs)%nat).

Let imp := relink_first bt (drop (S mid) cs).
Let m := (S mid + length imp)%nat.

Lemma split_imp_le : (m <= length cs)%nat.
Proof using Hmid.
  pose proof (length_relink_first bt (drop (S mid) cs)) as H. fold imp in H.
  rewrite length_drop in H. unfold m. lia.
Qed.

Lemma split_stop c : cs !! m = Some c -> c_plen c = 0 /\ c_type c <> BTREE_KEY_META_TYPE1.
Proof using Type. unfold m. rewrite <- lookup_drop. apply relink_first_stop. Qed.

Lemma split_imp_ok : cells_ok bt imp.
Proof using All.
  pose proof (fit_few _ _ Hbt Hfit). apply relink_first_chain; [done|by apply cells_ok_drop|].
  rewrite length_drop. lia.
Qed.

Lemma split_right_ok : cells_ok bt (split_right bt cs mid).
Proof using All.
  pose proof (fit_few _ _ Hbt Hfit). pose proof split_imp_le.
  apply rebuilt_ok; try done; fold imp; fold m; try lia.
  - apply split_imp_ok.
  - apply split_stop.
Qed.

Lemma split_right_entries : c_entry <$> split_right bt cs mid = drop (S mid) (c_entry <$> cs).
Proof using Type.
  unfold split_right. rewrite rebuilt_entries, relink_first_entries, <- fmap_app, <- drop_drop.
  by rewrite take_drop, fmap_drop.
Qed.

Lemma split_right_length : length (split_right bt cs mid) = (length cs - S mid)%nat.
Proof using Type.
  pose proof (f_equal length split_right_entries) as H.
  by rewrite length_fmap, length_drop, length_fmap in H.
Qed.

Lemma split_left_ok : cells_ok bt (split_left cs mid).
Proof using Hcs. by apply cells_ok_take. Qed.

(** The whole right page is adjusted, yet only the entries copied in bulk
    move. *)
Lemma split_adjust_all :
  adj 0 (- (n2z mid + 1)) <$> (imp ++ drop m cs) = split_right bt cs mid.
Proof using Hbt Hcs.
  unfold split_right, rebuilt. rewrite fmap_app. fold imp. fold m. f_equal. apply adj_base_0.
  destruct (rest_wchain bt cs (S mid) Hcs) as [prev Hw]. by eapply relink_first_run.
Qed.

Lemma split_right_page to_node :
  cells_fit bt (split_right bt cs mid) ->
  area to_node = cells_area (imp ++ drop m cs) ->
  Forall2 hdr_match (headers to_node) (imp ++ drop m cs) ->
  exists to2 to3, btree_leaf_adjust_offsets bt to_node = Some to2 /\
    btree_leaf_adjust_prefix_idxes to2 0 (length (headers to2)) 0 (- (n2z mid + 1)) = Some to3 /\
    to3 = set_area (set_headers to_node (headers to3)) (area to3) /\
    layout to3 (split_right bt cs mid).
Proof using All.
  intros Hfit' Ha Hm. pose proof (fit_few _ _ Hbt Hfit') as [_ Hsz].
  assert (wchain bt None (imp ++ drop m cs)) as Hw.
  { apply unadjusted_wchain; try done; [apply split_imp_ok|apply split_stop]. }
  destruct (adjust_prefix_idxes_ok bt (set_headers to_node (cells_headers 0 (imp ++ drop m cs)))
              [] (imp ++ drop m cs) 0 (- (n2z mid + 1)) Hbt) as (to3 & Hn2 & He & Hl);
    [by split|by eapply wchain_ok|].
  rewrite split_adjust_all in Hl. eexists _, to3. split_and?; [| |rewrite He; by destruct to_node, to3|done].
  - apply btree_leaf_adjust_offsets_ok; try done.
    rewrite <- split_adjust_all, length_area_adj in Hsz. lia.
  - cbn [headers set_headers]. by rewrite length_cells_headers.
Qed.
End splitting.

(** ** The split point *)

Lemma split_scan_left_ok n m half :
  (m <= length (headers n))%nat -> exists j, split_scan_left n m half = Some j /\ (j <= m)%nat.
Proof.
  induction m as [|m IH]; intros Hm; cbn; [by exists 0%nat|].
  unfold btree_leaf_get_nth_entry.
  destruct (lookup_lt_is_Some_2 (headers n) m) as [h ->]; [lia|]. runs.
  case_if; [exists m; split; [done|lia]|]. destruct IH as (j & Hj & ?); [lia|]. exists j. split; [done|lia].
Qed.

Lemma split_scan_right_ok n count m half :
  (m + count < length (headers n))%nat ->
  exists j, split_scan_right n count m half = Some j /\ (m <= j <= m + count)%nat.
Proof.
  revert m; induction count as [|count IH]; intros m Hm; cbn; [exists m; split; [done|lia]|].
  unfold btree_leaf_get_nth_entry.
  destruct (lookup_lt_is_Some_2 (headers n) (S m)) as [h ->]; [lia|]. runs.
  case_if; [exists m; split; [done|lia]|].
  destruct (IH (S m)) as (j & Hj & ?); [lia|]. exists j. split; [done|lia].
Qed.

(** A page of two or more entries is split so that both sides keep one. *)
Lemma find_split_idx_ok bt n :
  (2 <= length (headers n))%nat ->
  exists mid, btree_leaf_find_split_idx bt n = Some mid /\ (S mid < length (headers n))%nat.
Proof.
  intros H2. unfold btree_leaf_find_split_idx, btree_leaf_get_nth_entry.
  set (mid := (length (headers n) / 2)%nat).
  assert (mid < length (headers n))%nat as Hmid by (apply Nat.div_lt; lia).
  destruct (lookup_lt_is_Some_2 (headers n) mid) as [h ->]; [done|]. runs.
  assert (exists j, (if btree_leaf_used_space bt n / 2 <? header_offset h + SIZEOF_ENTRY_HEADER * n2z mid
     then split_scan_left n mid (btree_leaf_used_space bt n / 2)
     else split_scan_right n (length (headers n) - 1 - mid) mid (btree_leaf_used_space bt n / 2)) = Some j
     /\ (j < length (headers n))%nat) as (j & -> & Hj).
  { case_if.
    - destruct (split_scan_left_ok n mid (btree_leaf_used_space bt n / 2)) as (j & -> & ?); [lia|].
      exists j. split; [done|lia].
    - destruct (split_scan_right_ok n (length (headers n) - 1 - mid) mid (btree_leaf_used_space bt n / 2))
        as (j & -> & ?); [lia|]. exists j. split; [done|lia]. }
  runs. unfold nkeys. destruct (Z.leb_spec (lenZ (headers n) - 1) (n2z j)).
  - rewrite (proj2 (Z.ltb_ge _ 0)) by lia. eexists. split; [done|lia].
  - rewrite (proj2 (Z.ltb_ge _ 0)) by lia. eexists. split; [done|lia].
Qed.

(** ** The split of a page *)

Lemma split_page bt n to_node cs mid c :
  bt_ok bt -> layout n cs -> cells_ok bt cs -> cells_fit bt cs -> (S mid < length cs)%nat ->
  cs !! mid = Some c -> cells_fit bt (split_right bt cs mid) ->
  forall split_key,
  match split_key with O => btree_leaf_find_split_idx bt n | S m => Some m end = Some mid ->
  exists from' to',
    btree_leaf_split bt n to_node split_key
    = Some (mk_split_result from' to' (c_key c) (lenZ (c_key c)) (e_seqno (c_entry c))
              (cells_size (split_left cs mid) + cells_size (split_right bt cs mid) - cells_size cs)) /\
    layout from' (split_left cs mid) /\ layout to' (split_right bt cs mid) /\
    from' = set_area (set_headers n (headers from')) (area from') /\
    to' = set_area (set_headers to_node (headers to')) (area to').
Proof.
  intros Hbt Hlay Hcs Hfit Hmid Hc Hfit' split_key Hsk.
  pose proof (fit_few _ _ Hbt Hfit) as Hfew.
  unfold btree_leaf_split. rewrite Hsk. runs.
  destruct (lookup_lt_is_Some_2 cs (S mid)) as [d Hd]; [lia|].
  unfold btree_leaf_get_nth_entry at 1. rewrite Nat.add_1_r.
  rewrite (layout_header n cs Hlay _ _ Hd). runs. cbn [header_offset].
  rewrite (layout_copy_before n cs) by (try done; lia). runs.
  rewrite (copy_impacted_keys_first_ok bt n cs) by (try done; lia). runs. cbn [fst snd copied].
  rewrite length_fmap.
  set (imp := relink_first bt (drop (S mid) cs)).
  pose proof (split_imp_le bt cs mid Hmid) as Hle. fold imp in Hle.
  replace (length imp + mid + 1)%nat with (S mid + length imp)%nat by lia.
  assert ((if nkeys n - 1 <? n2z (S mid + length imp) then Some [] else copy_rest n (S mid + length imp) false)
          = Some (cells_area (drop (S mid + length imp) cs))) as ->.
  { etransitivity; [|by apply (copy_rest_ok n cs (S mid + length imp) false)]. unfold nkeys.
    pose proof (layout_length n cs Hlay). case_if; case_decide; b2p; try done; lia. }
  runs. rewrite <- cells_area_app.
  destruct (split_right_page bt cs mid Hbt Hcs Hfit Hmid
    (set_area (set_headers to_node (set_types (drop (S mid) (headers n)) (c_type <$> imp)))
       (cells_area (imp ++ drop (S mid + length imp) cs)))) as (to2 & to3 & -> & Hadj & Hfr & Hl3);
    [done|done| |].
  { cbn [headers set_headers set_area]. rewrite <- drop_drop. apply set_types_match.
    - apply Forall2_drop. rewrite (proj1 Hlay). apply cells_headers_match.
    - apply relink_first_entries. }
  runs. rewrite Hadj. runs.
  unfold btree_leaf_get_nth_key, btree_leaf_get_nth_key_info.
  rewrite (layout_key_info bt n cs Hbt Hlay Hcs _ _ Hc). runs. cbn [e_info ki_key ki_keylen ki_seqno].
  assert (layout (set_area (set_headers n (take (S mid) (headers n))) (cells_area (take (S mid) cs)))
            (split_left cs mid)) as Hl1.
  { split; cbn; [|done]. rewrite (proj1 Hlay). unfold split_left.
    rewrite <- (take_drop (S mid) cs) at 1. rewrite cells_headers_app, take_app_length'; [done|].
    rewrite length_cells_headers, length_take. lia. }
  eexists _, to3. split_and?; [|apply Hl1|done|done|done].
  rewrite (layout_used_space _ _ _ Hl1), (layout_used_space _ _ _ Hl3), (layout_used_space _ _ _ Hlay).
  fold (cells_size cs) (cells_size (split_left cs mid)) (cells_size (split_right bt cs mid)).
  do 2 f_equal. apply i32_small.
  pose proof (fit_size _ _ Hbt Hfit). pose proof (fit_size _ _ Hbt Hfit').
  assert (0 <= cells_size (split_left cs mid) <= cells_size cs); [|lia].
  split; [apply cells_size_nonneg|]. rewrite <- (take_drop (S mid) cs) at 2. rewrite cells_size_app.
  pose proof (cells_size_nonneg (drop (S mid) cs)). unfold split_left. lia.
Qed.

(** * The leaf as a list of entries

    The contract of the leaf code towards the tree: pages hold lists of
    entries, and the operations are the list operations. *)

(** ** The size of an insertion *)

(** Entries that differ only in what does not influence the encoding. *)
Definition same_shape (e e' : entry) : Prop :=
  e_key e = e_key e' /\ e_datalen e = e_datalen e' /\ length (e_data e) = length (e_data e') /\
  (e_ptr e = 0 <-> e_ptr e' = 0).

Lemma insert_km_ext bt cs index e e' :
  same_shape e e' ->
  let km := insert_km bt cs index e in
  let km' := insert_km bt cs index e' in
  keylen km = keylen km' /\ datalen km = datalen km' /\ prefix_len km = prefix_len km' /\
  prefix_idx km = prefix_idx km' /\ compact_meta km = compact_meta km'.
Proof.
  intros (Hk & Hd & _ & Hp). cbn zeta. unfold insert_km.
  assert ((e_ptr e =? 0) = (e_ptr e' =? 0)) as Hp'.
  { destruct (Z.eqb_spec (e_ptr e) 0), (Z.eqb_spec (e_ptr e') 0); tauto. }
  destruct (prev_of None cs index) as [p|]; [|by cbn; rewrite Hk, Hd].
  unfold build_key_prefix_int, km_entry. rewrite Hk, Hd.
  destruct (get_common_part _ _ _ =? 0); [|destruct (0 <? _)]; cbv zeta beta iota;
    cbn [ptr keylen datalen prefix_idx prefix_len seqno tombstone meta_type compact_meta
         set_compact set_prefix]; rewrite Hp'; repeat case_if; done.
Qed.

Lemma insert_size_ext bt cs index e e' :
  (index <= length cs)%nat -> same_shape e e' ->
  cells_size (insert_cells bt cs index e) = cells_size (insert_cells bt cs index e').
Proof.
  intros Hi Hs. destruct (insert_km_ext bt cs index e e' Hs) as (E1 & E2 & E3 & E4 & E5).
  assert (insert_imp bt cs index e = insert_imp bt cs index e') as Himp.
  { unfold insert_imp. rewrite (proj1 Hs). by apply relink_ext. }
  unfold cells_size. rewrite !insert_cells_length by done. do 2 f_equal.
  unfold insert_cells. rewrite !(proj2 (rebuilt_size _ _ _ _ _)), Himp. unfold insert_pre.
  rewrite Himp, !cells_area_app, !cells_area_cons, !length_app. do 3 f_equal.
  unfold cell_bytes. rewrite !length_app, !length_key_metax_bytes, !length_drop. cbn.
  unfold c_key; cbn. destruct Hs as (Hk & _ & Hdl & _). rewrite Hk, Hdl, E3.
  unfold get_key_meta_type. by rewrite E1, E2, E5.
Qed.

(** The entry the space check inserts in a dry run: only the sizes are real. *)
Definition probe_entry (bt : btree_raw) (tomb : bool) (e : entry) : entry :=
  mk_entry (e_key e) (e_datalen e) (e_data e)
    (if big_object_kd bt (lenZ (e_key e)) (e_datalen e) then 0xdeadc0de else 0) 0 tomb.

Lemma probe_entry_ok bt tomb e :
  entry_ok bt e -> entry_ok bt (probe_entry bt tomb e) /\ same_shape e (probe_entry bt tomb e).
Proof.
  intros [H1 H2 H3 H4 H5 H6 H7]. unfold probe_entry. split.
  - split; cbn [e_key e_datalen e_data e_ptr e_seqno]; try done.
    + case_if; lia.
    + case_if; split; done.
  - split; [done|]. split; [done|]. split; [done|]. cbn [e_ptr].
    destruct (big_object_kd _ _ _); [|tauto]. split; [intros ?%H7|]; done.
Qed.

(** An entry appended at the end takes at most the worst-case size. *)
Lemma append_size bt cs e :
  bt_ok bt -> cells_ok bt cs -> cells_fit bt cs -> entry_ok bt e ->
  cells_size (insert_cells bt cs (length cs) e) - cells_size cs
  <= BTREE_LEAF_ENTRY_MAX_SIZE (lenZ (e_key e)) (data_inleaf bt (lenZ (e_key e)) (e_datalen e)).
Proof.
  intros Hbt Hcs Hfit He.
  destruct (insert_km_ok bt cs (length cs) e Hbt Hcs Hfit He (le_n _)) as (_ & Hok & _).
  set (km := insert_km bt cs (length cs) e) in *.
  assert (insert_imp bt cs (length cs) e = []) as Himp by (unfold insert_imp; by rewrite drop_all).
  unfold cells_size. rewrite insert_cells_length by done. unfold insert_cells.
  rewrite (proj2 (rebuilt_size _ _ _ _ _)). unfold insert_pre. rewrite Himp. cbn [length].
  rewrite Nat.add_0_r, drop_all, app_nil_r, firstn_all, cells_area_app, length_app, cells_area_cons.
  cbn [cells_area fmap list_fmap concat]. rewrite app_nil_r. fold km.
  pose proof (length_cell_bytes bt _ Hok) as Hl. unfold get_key_meta_space_used in Hl. cbn in Hl.
  pose proof (co_plen _ _ Hok) as Hpl. cbn in Hpl.
  assert (get_meta_type_to_size (get_key_meta_type km) <= 34)
    by (destruct (get_key_meta_type km); cbn; lia).
  unfold BTREE_LEAF_ENTRY_MAX_SIZE, MAX_META_SIZE, SIZEOF_ENTRY_HEADER. cbn [get_meta_type_to_size]. lia.
Qed.

(** ** Refinement of the basic operations *)

Section refinement.
Context (bt : btree_raw) (Hbt : bt_ok bt).

Lemma leaf_rep_nkeys n es : leaf_rep bt n es -> nkeys n = lenZ es.
Proof using Type.
  intros (cs & Hlay & _ & _ & ->). unfold nkeys. by rewrite (layout_length n cs Hlay), length_fmap.
Qed.

Lemma leaf_rep_entries_ok n es : leaf_rep bt n es -> Forall (entry_ok bt) es.
Proof using Type.
  intros (cs & _ & [Hw _] & _ & ->). apply Forall_fmap.
  eapply Forall_impl; [|by eapply wchain_ok]. intros c. apply co_entry.
Qed.

Lemma leaf_rep_used n es :
  leaf_rep bt n es -> 0 <= btree_leaf_used_space bt n <= nodesize_less_hdr bt.
Proof using Type.
  intros (cs & Hlay & _ & Hfit & _). rewrite (layout_used_space bt n cs Hlay).
  pose proof (cells_size_nonneg cs). unfold cells_fit, cells_size in *. lia.
Qed.

Lemma leaf_rep_read n es i e :
  leaf_rep bt n es -> es !! i = Some e ->
  btree_leaf_get_nth_key_info2 n i = Some (e_info e) /\
  btree_leaf_is_key_tombstoned n i = Some (e_tomb e) /\
  exists post, btree_leaf_get_data_nth_key n i = Some (e_data e ++ post, e_datalen e).
Proof using Hbt.
  intros (cs & Hlay & Hcs & _ & ->) Hi. rewrite list_lookup_fmap in Hi.
  destruct (cs !! i) as [c|] eqn:Hc; [|done]. injection Hi as <-.
  split; [by apply (layout_key_info bt n cs)|]. split.
  - unfold btree_leaf_is_key_tombstoned. by rewrite (layout_header n cs Hlay _ _ Hc).
  - eexists. by apply (layout_data bt n cs).
Qed.

Lemma insert_spec_ok n es index e data post :
  leaf_rep bt n es -> entry_ok bt e -> (index <= length es)%nat -> data = e_data e ++ post ->
  exists b,
    btree_leaf_insert_key_index bt n (e_key e) data (e_datalen e) (e_info e) index true = Some (n, b) /\
    (forall e', same_shape e e' -> entry_ok bt e' ->
       btree_leaf_insert_key_index bt n (e_key e') [] (e_datalen e') (e_info e') index true = Some (n, b)) /\
    if btree_leaf_used_space bt n + b <=? nodesize_less_hdr bt then
      exists n',
        btree_leaf_insert_key_index bt n (e_key e) data (e_datalen e) (e_info e) index false = Some (n', b) /\
        leaf_rep bt n' (take index es ++ e :: drop index es) /\
        btree_leaf_used_space bt n' = btree_leaf_used_space bt n + b /\
        n' = set_area (set_headers n (headers n')) (area n')
    else btree_leaf_insert_key_index bt n (e_key e) data (e_datalen e) (e_info e) index false = None.
Proof using Hbt.
  intros (cs & Hlay & Hcs & Hfit & ->) He Hi Hdata. rewrite length_fmap in Hi.
  exists (cells_size (insert_cells bt cs index e) - cells_size cs).
  split; [by apply insert_dry|]. split.
  { intros e' Hs He'. rewrite (insert_size_ext bt cs index e e') by done. by apply insert_dry. }
  rewrite (layout_used_space bt n cs Hlay). fold (cells_size cs).
  destruct (Z.leb_spec (cells_size cs + (cells_size (insert_cells bt cs index e) - cells_size cs))
              (nodesize_less_hdr bt)) as [Hle|Hgt].
  - assert (cells_fit bt (insert_cells bt cs index e)) as Hfit' by (unfold cells_fit, cells_size in *; lia).
    destruct (insert_real bt n cs index e Hbt Hlay Hcs Hfit He Hi data post Hdata Hfit')
      as (n' & Hn' & Hlay' & Hfr).
    exists n'. split; [done|]. split; [|split; [|done]].
    + exists (insert_cells bt cs index e). split_and?; try done; [by apply insert_cells_ok|].
      by rewrite insert_cells_entries.
    + rewrite (layout_used_space bt n' _ Hlay'). unfold cells_size. lia.
  - eapply insert_no_room; try done. unfold cells_fit, cells_size in *. lia.
Qed.

Lemma remove_spec_ok n es index :
  leaf_rep bt n es -> (index < length es)%nat ->
  exists b, btree_leaf_remove_key_index_int bt n index true = Some (n, b) /\
    (btree_leaf_used_space bt n - b < nodesize_less_hdr bt ->
     exists n', btree_leaf_remove_key_index bt n index = Some (n', b) /\
       leaf_rep bt n' (delete index es) /\
       btree_leaf_used_space bt n' = btree_leaf_used_space bt n - b /\
       n' = set_area (set_headers n (headers n')) (area n')).
Proof using Hbt.
  intros (cs & Hlay & Hcs & Hfit & ->) Hi. rewrite length_fmap in Hi.
  exists (cells_size cs - cells_size (remove_cells bt cs index)).
  assert (cells_size (remove_cells bt cs index) < 2 ^ 31) as Hmax.
  { pose proof (fit_few _ _ Hbt Hfit). apply (cells_size_max bt); [done| |].
    - eapply wchain_ok, (remove_cells_ok bt cs index); done.
    - rewrite remove_cells_length by done. lia. }
  split.
  { rewrite (remove_compute bt n cs index) by done. cbv zeta. do 2 f_equal. apply i32_small.
    pose proof (fit_size _ _ Hbt Hfit). pose proof (cells_size_nonneg (remove_cells bt cs index)). lia. }
  rewrite (layout_used_space bt n cs Hlay). fold (cells_size cs). intros Hle.
  assert (cells_fit bt (remove_cells bt cs index)) as Hfit' by (unfold cells_fit, cells_size in *; lia).
  destruct (remove_real bt n cs index Hbt Hlay Hcs Hfit Hi) as (n' & Hn' & Hlay' & Hfr); [lia|].
  exists n'. split; [done|]. split; [|split; [|done]].
  - exists (remove_cells bt cs index). split_and?; try done; [by apply remove_cells_ok|].
    by rewrite remove_cells_entries.
  - rewrite (layout_used_space bt n' _ Hlay'). unfold cells_size. lia.
Qed.

(** The space check never admits an entry that does not fit. *)
Lemma is_full_ok n es index e t data post :
  leaf_rep bt n es -> entry_ok bt e -> (index <= length es)%nat -> data = e_data e ++ post ->
  exists full, btree_leaf_is_full_index bt n (e_key e) (e_datalen e) t false index = Some full /\
    (full = false ->
     exists n' b,
        btree_leaf_insert_key_index bt n (e_key e) data (e_datalen e) (e_info e) index false = Some (n', b) /\
        leaf_rep bt n' (take index es ++ e :: drop index es) /\
        btree_leaf_used_space bt n' = btree_leaf_used_space bt n + b /\
        n' = set_area (set_headers n (headers n')) (area n')).
Proof using Hbt.
  intros Hrep He Hi Hdata.
  destruct (insert_spec_ok n es index e data post Hrep He Hi Hdata) as (b & Hb & Hdry & Hins).
  destruct (probe_entry_ok bt t e He) as [Hpe Hps]. specialize (Hdry _ Hps Hpe).
  assert (forall full : bool, (full = false -> btree_leaf_used_space bt n + b <= nodesize_less_hdr bt) ->
    full = false -> exists n' b,
        btree_leaf_insert_key_index bt n (e_key e) data (e_datalen e) (e_info e) index false = Some (n', b) /\
        leaf_rep bt n' (take index es ++ e :: drop index es) /\
        btree_leaf_used_space bt n' = btree_leaf_used_space bt n + b /\
        n' = set_area (set_headers n (headers n')) (area n')) as Hgo.
  { intros full Hf ->. rewrite (proj2 (Z.leb_le _ _) (Hf eq_refl)) in Hins.
    destruct Hins as (n' & ?). by exists n', b. }
  unfold btree_leaf_is_full_index. case_if.
  - exists false. split; [done|]. apply Hgo. intros _. b2p.
    rewrite (leaf_rep_nkeys n es Hrep) in H. destruct Hrep as (cs & Hlay & Hcs & Hfit & ->).
    rewrite length_fmap in *. assert (index = length cs) as -> by lia.
    rewrite (insert_dry bt n cs (length cs) e) in Hb by done. injection Hb as <-.
    pose proof (append_size bt cs e Hbt Hcs Hfit He) as Hmax.
    pose proof (data_inleaf_bound bt (lenZ (e_key e)) (e_datalen e) Hbt) as Hdl.
    pose proof (eo_big_key _ _ He). pose proof (eo_datalen _ _ He). pose proof (bt_big _ Hbt).
    pose proof (bt_node _ Hbt). pose proof (bt_node_max _ Hbt).
    unfold BTREE_MAX_NODE_SIZE, SIZEOF_BTREE_RAW_NODE, MAX_UINT8_T in *.
    rewrite i32_small in * by (unfold BTREE_LEAF_ENTRY_MAX_SIZE, MAX_META_SIZE, SIZEOF_ENTRY_HEADER;
      cbn [get_meta_type_to_size]; lia). lia.
  - change (mk_key_info _ _ _ _ _ _) with (e_info (probe_entry bt t e)).
    change (e_key e) with (e_key (probe_entry bt t e)) at 1.
    change (e_datalen e) with (e_datalen (probe_entry bt t e)) at 1.
    rewrite Hdry. runs. eexists. split; [done|]. apply Hgo. intros Hf. cbn in Hf. b2p. lia.
Qed.
End refinement.
