(* ===== verification/LeafPlain.v ===== *)
(** * Leaves without prefix sharing

    The default configuration ([space_op_disabled = 1]) writes every entry in
    full. The sizes are then those of the entries, the space checks are exact
    and the operations that move entries between siblings never run out of
    room half-way. *)

From S2P Require Import Prelude LeafMeta LeafNode LeafOps LeafCells LeafEncode LeafFixup LeafSpec LeafRefine.

Definition full_cell (e : entry) : cell := km_cell (km_entry e) e.

(** The room an entry takes: its header, metadata, key and in-leaf data. *)
Definition entry_size (bt : btree_raw) (e : entry) : Z :=
  SIZEOF_ENTRY_HEADER + get_meta_type_to_size (size_type e) + lenZ (e_key e)
  + data_inleaf bt (lenZ (e_key e)) (e_datalen e).

Definition entries_size (bt : btree_raw) (es : list entry) : Z :=
  foldr (fun e s => entry_size bt e + s) 0 es.

(** A page in the default format that holds [es]. *)
Record leaf_plain (bt : btree_raw) (n : btree_raw_node) (es : list entry) : Prop := {
  lp_layout : layout n (full_cell <$> es);
  lp_entries : Forall (entry_ok bt) es;
  lp_fit : entries_size bt es <= nodesize_less_hdr bt
}.

Arguments lp_entries {_ _ _} _.
Arguments lp_fit {_ _ _} _.

(** ** Sizes *)

Lemma entry_size_bytes bt e :
  bt_ok bt -> entry_ok bt e -> SIZEOF_ENTRY_HEADER + lenZ (cell_bytes (full_cell e)) = entry_size bt e.
Proof.
  intros Hbt He. destruct (full_cell_ok bt e Hbt He) as [Hok _].
  rewrite (length_cell_bytes bt) by done. unfold get_key_meta_space_used, entry_size.
  cbn [c_meta meta_type keylen prefix_len datalen full_cell km_cell c_type c_plen c_entry km_entry].
  rewrite (get_key_meta_type_size _ e) by done. lia.
Qed.

Lemma entry_size_pos bt e : bt_ok bt -> entry_ok bt e -> 0 < entry_size bt e.
Proof.
  intros Hbt He. rewrite <- entry_size_bytes by done. destruct (full_cell_ok bt e Hbt He) as [Hok _].
  pose proof (cell_bytes_pos _ _ Hbt Hok). unfold SIZEOF_ENTRY_HEADER. lia.
Qed.

Lemma entries_size_cons bt e es : entries_size bt (e :: es) = entry_size bt e + entries_size bt es.
Proof. done. Qed.

Lemma entries_size_app bt es1 es2 : entries_size bt (es1 ++ es2) = entries_size bt es1 + entries_size bt es2.
Proof. induction es1 as [|e es1 IH]; [done|]. cbn [app]. rewrite !entries_size_cons, IH. lia. Qed.

Lemma entries_size_nonneg bt es : bt_ok bt -> Forall (entry_ok bt) es -> 0 <= entries_size bt es.
Proof.
  intros Hbt. induction 1 as [|e es He Hes IH]; [done|].
  pose proof (entry_size_pos bt e Hbt He). rewrite entries_size_cons. lia.
Qed.

Lemma entries_size_split bt es i :
  entries_size bt es = entries_size bt (take i es) + entries_size bt (drop i es).
Proof. by rewrite <- entries_size_app, take_drop. Qed.

Lemma cells_size_full bt es :
  bt_ok bt -> Forall (entry_ok bt) es -> cells_size (full_cell <$> es) = entries_size bt es.
Proof.
  intros Hbt. induction 1 as [|e es He Hes IH]; [done|]. rewrite fmap_cons.
  change (full_cell e :: (full_cell <$> es)) with ([full_cell e] ++ (full_cell <$> es)).
  rewrite cells_size_app, IH.
  rewrite entries_size_cons, <- entry_size_bytes by done. unfold cells_size. cbn. rewrite app_nil_r. lia.
Qed.

(** ** Plain cells *)

Lemma full_cells_ok bt es : bt_ok bt -> Forall (entry_ok bt) es -> cells_ok bt (full_cell <$> es).
Proof.
  intros Hbt Hes.
  assert (forall prev idx, wchain bt prev (full_cell <$> es) /\ pchain idx prev (full_cell <$> es)) as H;
    [|destruct (H None 0); by split].
  induction Hes as [|e es He Hes IH]; intros prev idx; [done|]. rewrite fmap_cons.
  destruct (full_cell_ok bt e Hbt He) as [Hok Hw]. cbn [wchain pchain].
  split.
  - split; [done|]. split; [apply Hw|]. apply (IH (Some (full_cell e)) idx).
  - split; [by intros []|]. apply (IH (Some (full_cell e)) (idx + 1)).
Qed.

Lemma full_entries (es : list entry) : c_entry <$> (full_cell <$> es) = es.
Proof. rewrite <- list_fmap_compose. apply list_fmap_id. Qed.

Lemma adj_full base shift (es : list entry) : adj base shift <$> (full_cell <$> es) = full_cell <$> es.
Proof. rewrite <- list_fmap_compose. by apply list_fmap_ext. Qed.

Lemma full_cell_type e : c_type (full_cell e) <> BTREE_KEY_META_TYPE1.
Proof. unfold full_cell, km_cell. cbn [c_type]. rewrite (get_key_meta_type_size _ e) by done. apply size_type_not1. Qed.

Section plain.
Context (bt : btree_raw) (Hbt : bt_ok bt) (Hso : space_op_disabled bt = true).

Lemma build_plain pk key pki pkm e :
  build_key_prefix_int bt pk key pki pkm (km_entry e) = km_entry e.
Proof using Hso.
  unfold build_key_prefix_int, get_common_part. rewrite Hso. cbn [Z.eqb negb]. by rewrite andb_false_r.
Qed.

Lemma relink_plain pk pki pkm es : relink bt pk pki pkm (full_cell <$> es) = [].
Proof using Hso.
  destruct es as [|e es]; [done|]. rewrite fmap_cons. cbn [relink].
  change (c_entry (full_cell e)) with e. rewrite build_plain.
  by rewrite bool_decide_false by (apply full_cell_type).
Qed.

Lemma insert_cells_plain es index e :
  insert_cells bt (full_cell <$> es) index e = full_cell <$> (take index es ++ e :: drop index es).
Proof using Hso.
  assert (insert_km bt (full_cell <$> es) index e = km_entry e) as Hkm.
  { unfold insert_km. case_match; [apply build_plain|done]. }
  unfold insert_cells, insert_pre, insert_imp, rebuilt. rewrite <- fmap_drop, relink_plain, Hkm.
  cbn [length]. rewrite Nat.add_0_r, <- fmap_take, <- fmap_drop, adj_full.
  rewrite fmap_app, fmap_cons. by rewrite <- app_assoc.
Qed.

Lemma remove_cells_plain es index :
  remove_cells bt (full_cell <$> es) index = full_cell <$> delete index es.
Proof using Hso.
  rewrite delete_take_drop, fmap_app. unfold remove_cells, remove_pre, remove_imp, rebuilt.
  rewrite <- fmap_drop, <- fmap_take. destruct (prev_of None (full_cell <$> es) index).
  - rewrite relink_plain. cbn [length]. by rewrite Nat.add_0_r, app_nil_r, <- fmap_drop, adj_full.
  - destruct (drop (S index) es) as [|e es'] eqn:Hd; cbn [fmap list_fmap relink_first length].
    + rewrite Nat.add_0_r, <- fmap_drop, Hd. by rewrite !app_nil_r.
    + change (list_fmap entry cell full_cell es') with (full_cell <$> es'). rewrite relink_plain.
      cbn [length]. rewrite <- fmap_drop, adj_full, <- drop_drop, Hd, <- app_assoc. done.
Qed.

Lemma split_right_plain es mid :
  split_right bt (full_cell <$> es) mid = full_cell <$> drop (S mid) es.
Proof using Hso.
  unfold split_right, rebuilt. rewrite <- fmap_drop.
  destruct (drop (S mid) es) as [|e es'] eqn:Hd; cbn [fmap list_fmap relink_first length].
  - by rewrite Nat.add_0_r, <- fmap_drop, Hd.
  - change (list_fmap entry cell full_cell es') with (full_cell <$> es'). rewrite relink_plain.
    cbn [length]. rewrite <- fmap_drop, adj_full, <- drop_drop, Hd. done.
Qed.

(** ** Pages *)

Lemma plain_fit n es : leaf_plain bt n es -> cells_fit bt (full_cell <$> es).
Proof using Hbt.
  intros [_ Hes Hfit]. rewrite <- (cells_size_full bt) in Hfit by done. done.
Qed.

Lemma plain_rep n es : leaf_plain bt n es -> leaf_rep bt n es.
Proof using Hbt.
  intros Hp. exists (full_cell <$> es). destruct Hp as [Hl Hes Hfit] eqn:E. split_and?; try done.
  - by apply full_cells_ok.
  - by apply (plain_fit n).
  - by rewrite full_entries.
Qed.

Lemma plain_used n es : leaf_plain bt n es -> btree_leaf_used_space bt n = entries_size bt es.
Proof using Hbt.
  intros [Hl Hes _]. rewrite (layout_used_space bt n _ Hl). fold (cells_size (full_cell <$> es)).
  by apply cells_size_full.
Qed.

Lemma plain_init n : leaf_plain bt (btree_leaf_init n) [].
Proof using Hbt. split; [by split|done|]. pose proof (bt_less_hdr _ Hbt). cbn. lia. Qed.

Lemma insert_entries_size es index e :
  entries_size bt (take index es ++ e :: drop index es) = entries_size bt es + entry_size bt e.
Proof using Type.
  rewrite entries_size_app, entries_size_cons, (entries_size_split bt es index). lia.
Qed.

Lemma plain_insert n es index e data post :
  leaf_plain bt n es -> entry_ok bt e -> (index <= length es)%nat -> data = e_data e ++ post ->
  entries_size bt es + entry_size bt e <= nodesize_less_hdr bt ->
  exists n', btree_leaf_insert_key_index bt n (e_key e) data (e_datalen e) (e_info e) index false
             = Some (n', entry_size bt e) /\
    leaf_plain bt n' (take index es ++ e :: drop index es) /\
    n' = set_area (set_headers n (headers n')) (area n').
Proof using All.
  intros Hp He Hi Hdata Hsz. pose proof (plain_fit _ _ Hp) as Hfit. destruct Hp as [Hl Hes Hfit0].
  assert (Forall (entry_ok bt) (take index es ++ e :: drop index es)) as Hes'.
  { apply Forall_app; split; [by apply Forall_take|]. constructor; [done|by apply Forall_drop]. }
  assert (cells_size (insert_cells bt (full_cell <$> es) index e)
          = entries_size bt es + entry_size bt e) as Hcz.
  { by rewrite insert_cells_plain, (cells_size_full bt), insert_entries_size by done. }
  destruct (insert_real bt n (full_cell <$> es) index e Hbt Hl (full_cells_ok bt es Hbt Hes) Hfit He)
    with (data := data) (post := post) as (n' & Hn' & Hl' & Hfr); [by rewrite length_fmap|done| |].
  { unfold cells_fit. fold (cells_size (insert_cells bt (full_cell <$> es) index e)). lia. }
  exists n'. rewrite Hn', Hcz, (cells_size_full bt) by done. split; [do 2 f_equal; lia|].
  split; [|done]. rewrite insert_cells_plain in Hl'. split; [done|done|]. rewrite insert_entries_size. lia.
Qed.

Lemma plain_remove n es index e :
  leaf_plain bt n es -> es !! index = Some e ->
  exists n', btree_leaf_remove_key_index bt n index = Some (n', entry_size bt e) /\
    leaf_plain bt n' (delete index es) /\
    n' = set_area (set_headers n (headers n')) (area n').
Proof using All.
  intros Hp Hi. pose proof (plain_fit _ _ Hp) as Hfit. destruct Hp as [Hl Hes Hfit0].
  pose proof (lookup_lt_Some _ _ _ Hi) as Hlt.
  assert (Forall (entry_ok bt) (delete index es)) as Hes'.
  { rewrite delete_take_drop. apply Forall_app; split; [by apply Forall_take|by apply Forall_drop]. }
  assert (entries_size bt es = entries_size bt (delete index es) + entry_size bt e) as Hsz.
  { rewrite delete_take_drop, (list_split_at es index e Hi) at 1.
    rewrite !entries_size_app, entries_size_cons. lia. }
  assert (0 < entry_size bt e) by (apply entry_size_pos; [done|exact (Forall_at Hes Hi)]).
  assert (cells_size (remove_cells bt (full_cell <$> es) index) = entries_size bt (delete index es)) as Hcz.
  { by rewrite remove_cells_plain, (cells_size_full bt) by done. }
  destruct (remove_real bt n (full_cell <$> es) index Hbt Hl (full_cells_ok bt es Hbt Hes) Hfit)
    as (n' & Hn' & Hl' & Hfr); [by rewrite length_fmap| |].
  { lia. }
  exists n'. unfold btree_leaf_remove_key_index. rewrite Hn', Hcz, (cells_size_full bt) by done.
  split; [do 2 f_equal; lia|]. split; [|done]. rewrite remove_cells_plain in Hl'. split; [done|done|]. lia.
Qed.

(** In this mode the space check is exact. *)
Lemma plain_is_full n es index e t :
  leaf_plain bt n es -> entry_ok bt e -> (index <= length es)%nat ->
  btree_leaf_is_full_index bt n (e_key e) (e_datalen e) t false index
  = Some (nodesize_less_hdr bt - entries_size bt es <? entry_size bt e).
Proof using All.
  intros Hp He Hi. pose proof (plain_fit _ _ Hp) as Hfit.
  unfold btree_leaf_is_full_index. rewrite (plain_used _ _ Hp). destruct Hp as [Hl Hes Hfit0].
  destruct (probe_entry_ok bt t e He) as [Hpe Hps].
  pose proof (entry_size_pos _ _ Hbt He).
  pose proof (bt_node _ Hbt). pose proof (bt_node_max _ Hbt). pose proof (bt_big _ Hbt).
  pose proof (data_inleaf_bound bt (lenZ (e_key e)) (e_datalen e) Hbt) as Hdl.
  pose proof (eo_big_key _ _ He). pose proof (eo_datalen _ _ He).
  unfold BTREE_MAX_NODE_SIZE, SIZEOF_BTREE_RAW_NODE, MAX_UINT8_T in *.
  case_if.
  - f_equal. symmetry. b2p. apply Z.ltb_ge.
    rewrite i32_small in * by (unfold BTREE_LEAF_ENTRY_MAX_SIZE, MAX_META_SIZE, SIZEOF_ENTRY_HEADER;
      cbn [get_meta_type_to_size]; lia).
    unfold BTREE_LEAF_ENTRY_MAX_SIZE, MAX_META_SIZE, entry_size in *.
    assert (get_meta_type_to_size (size_type e) <= get_meta_type_to_size BTREE_KEY_META_TYPE4)
      by (destruct (size_type e); cbn; lia). lia.
  - change (mk_key_info _ _ _ _ _ _) with (e_info (probe_entry bt t e)).
    rewrite (insert_dry bt n (full_cell <$> es) index (probe_entry bt t e)); try done.
    + runs. cbn [snd]. do 2 f_equal.
      rewrite <- (insert_size_ext bt _ _ e) by (by rewrite ?length_fmap).
      rewrite insert_cells_plain, !(cells_size_full bt), insert_entries_size; try done; [lia|].
      apply Forall_app; split; [by apply Forall_take|]. constructor; [done|by apply Forall_drop].
    + by apply full_cells_ok.
    + by rewrite length_fmap.
Qed.

(** A page of at least two entries can be split where the code splits it. *)
Lemma plain_split n to_node es :
  leaf_plain bt n es -> (2 <= length es)%nat ->
  exists mid e r, btree_leaf_find_split_idx bt n = Some mid /\ btree_leaf_split bt n to_node 0 = Some r /\
    (S mid < length es)%nat /\ es !! mid = Some e /\
    leaf_plain bt (sr_from r) (take (S mid) es) /\ leaf_plain bt (sr_to r) (drop (S mid) es) /\
    sr_key r = e_key e /\ sr_seqno r = e_seqno e /\ sr_bytes_increased r = 0 /\
    sr_from r = set_area (set_headers n (headers (sr_from r))) (area (sr_from r)) /\
    sr_to r = set_area (set_headers to_node (headers (sr_to r))) (area (sr_to r)).
Proof using All.
  intros Hp H2. pose proof (plain_fit _ _ Hp) as Hfit. destruct Hp as [Hl Hes Hf].
  assert (length (headers n) = length es) as Hlen by (by rewrite (layout_length n _ Hl), length_fmap).
  destruct (find_split_idx_ok bt n) as (mid & Hmid & Hlt); [lia|]. rewrite Hlen in Hlt.
  destruct (lookup_lt_is_Some_2 es mid) as [e He]; [lia|].
  pose proof (entries_size_split bt es (S mid)) as Hsz.
  assert (Forall (entry_ok bt) (take (S mid) es)) as H1 by (by apply Forall_take).
  assert (Forall (entry_ok bt) (drop (S mid) es)) as H3 by (by apply Forall_drop).
  pose proof (entries_size_nonneg bt _ Hbt H1). pose proof (entries_size_nonneg bt _ Hbt H3).
  destruct (split_page bt n to_node (full_cell <$> es) mid (full_cell e) Hbt Hl
              (full_cells_ok bt es Hbt Hes) Hfit) with (split_key := 0%nat)
    as (f & t & Hs & Hl1 & Hl2 & Hf1 & Hf2); [by rewrite length_fmap|by rewrite list_lookup_fmap, He| |done|].
  { rewrite split_right_plain. unfold cells_fit. fold (cells_size (full_cell <$> drop (S mid) es)).
    rewrite (cells_size_full bt) by done. lia. }
  exists mid, e. eexists. split; [done|]. split; [done|]. cbn [sr_from sr_to sr_key sr_seqno sr_bytes_increased].
  rewrite split_right_plain in Hl2 |- *. unfold split_left in *. rewrite <- fmap_take in *.
  rewrite !(cells_size_full bt) by done.
  split_and?; try done; [split; [done|done|lia]..|lia].
Qed.
End plain.
