(* ===== verification/LeafMove.v ===== *)
(** * Moving entries between sibling leaves

    [LeafPages] is the interface the moves rely on: how a page is read and
    when an entry may be inserted. It is implemented by pages with shared
    prefixes ([leaf_rep]) and by plain pages ([leaf_plain]). *)

From S2P Require Import Prelude LeafMeta LeafNode LeafOps LeafCells LeafEncode LeafFixup LeafSpec LeafRefine LeafPlain.

(** [n'] differs from [n] at most in the entries. *)
Definition same_frame (n n' : btree_raw_node) : Prop :=
  n' = set_area (set_headers n (headers n')) (area n').

#[export] Instance same_frame_preorder : PreOrder same_frame.
Proof.
  split; [by intros []|]. unfold same_frame. intros n1 n2 n3 H12 H23. rewrite H23, H12. by destruct n3.
Qed.

Class LeafPages (bt : btree_raw) (rep : btree_raw_node -> list entry -> Prop) := {
  pg_entries n es : rep n es -> Forall (entry_ok bt) es;
  pg_count n es : rep n es -> length (headers n) = length es;
  pg_read n es i e : rep n es -> es !! i = Some e ->
    btree_leaf_get_nth_key_info2 n i = Some (e_info e) /\
    exists post, btree_leaf_get_data_nth_key n i = Some (e_data e ++ post, e_datalen e);
  pg_insert n es index e t data post :
    rep n es -> entry_ok bt e -> (index <= length es)%nat -> data = e_data e ++ post ->
    exists full, btree_leaf_is_full_index bt n (e_key e) (e_datalen e) t false index = Some full /\
      (full = false -> exists n' b,
         btree_leaf_insert_key_index bt n (e_key e) data (e_datalen e) (e_info e) index false = Some (n', b) /\
         rep n' (take index es ++ e :: drop index es) /\ same_frame n n')
}.

#[export] Instance leaf_rep_pages bt : bt_ok bt -> LeafPages bt (leaf_rep bt).
Proof.
  intros Hbt. split.
  - apply leaf_rep_entries_ok.
  - intros n es Hrep. apply leaf_rep_nkeys in Hrep. unfold nkeys in Hrep. lia.
  - intros n es i e Hrep Hi. by destruct (leaf_rep_read bt Hbt n es i e Hrep Hi) as (? & _ & ?).
  - intros n es index e t data post Hrep He Hi Hd.
    destruct (is_full_ok bt Hbt n es index e t data post Hrep He Hi Hd) as (full & Hf & Hgo).
    exists full. split; [done|]. intros Hff. destruct (Hgo Hff) as (n' & b & ? & ? & _ & ?). by exists n', b.
Qed.

Lemma leaf_plain_pages bt : bt_ok bt -> space_op_disabled bt = true -> LeafPages bt (leaf_plain bt).
Proof.
  intros Hbt Hso. split.
  - by intros n es [].
  - intros n es [Hl _ _]. by rewrite (layout_length n _ Hl), length_fmap.
  - intros n es i e Hp Hi. apply (pg_read (rep := leaf_rep bt) n es i e); [by apply plain_rep|done].
  - intros n es index e t data post Hp He Hi Hd. eexists. split; [by apply plain_is_full|].
    intros Hf. b2p.
    destruct (plain_insert bt Hbt Hso n es index e data post Hp He Hi Hd) as (n' & ? & ? & ?); [lia|].
    by exists n', (entry_size bt e).
Qed.

(** ** Copying entries *)

(** Copying appends a leading part of the source entries. *)
Lemma copy_keys_ok bt rep `{!LeafPages bt rep} from_node esf fi num to_node est limit :
  rep from_node esf -> rep to_node est -> (fi + num <= length esf)%nat ->
  exists to' k,
    btree_leaf_copy_keys bt from_node fi to_node (length est) num limit = Some (to', k) /\
    (k <= num)%nat /\ rep to' (est ++ take k (drop fi esf)) /\ same_frame to_node to'.
Proof.
  intros Hf. revert fi to_node est; induction num as [|num IH]; intros fi to_node est Ht Hn;
    cbn [btree_leaf_copy_keys].
  { exists to_node, 0%nat. rewrite app_nil_r. done. }
  destruct (lookup_lt_is_Some_2 esf fi) as [e He]; [lia|].
  destruct (pg_read _ _ _ _ Hf He) as (Hki & post & Hd).
  unfold btree_leaf_get_nth_key_info. rewrite Hki, Hd. runs. cbn [e_info ki_key ki_datalen fst snd].
  assert (entry_ok bt e) as Hok by exact (Forall_at (pg_entries _ _ Hf) He).
  destruct (pg_insert to_node est (length est) e false _ post Ht Hok (le_n _) eq_refl) as (full & -> & Hgo).
  runs. destruct full; [exists to_node, 0%nat; rewrite app_nil_r; split_and?; [done|lia|done|done]|].
  destruct (Hgo eq_refl) as (n1 & b & Hins & Hrep & Hfr). fold (e_info e). rewrite Hins. runs. cbn [fst snd].
  rewrite drop_all, firstn_all in Hrep. rewrite (drop_S _ _ _ He).
  case_if; [exists n1, 1%nat; split_and?; [done|lia|done|done]|].
  destruct (IH (S fi) n1 (est ++ [e]) Hrep) as (to' & k & Hc & Hk & Hr & Hfr'); [lia|].
  rewrite length_app, Nat.add_comm in Hc. cbn [length Nat.add] in Hc. rewrite Hc. runs. cbn [fst snd].
  exists to', (S k). split_and?; [done|lia| |by etransitivity].
  cbn [take]. by rewrite (cons_middle e), app_assoc.
Qed.

(** Plain pages: when everything fits, everything is copied. *)
Lemma copy_keys_all bt from_node esf fi num to_node est :
  bt_ok bt -> space_op_disabled bt = true ->
  leaf_plain bt from_node esf -> leaf_plain bt to_node est -> (fi + num <= length esf)%nat ->
  entries_size bt est + entries_size bt (take num (drop fi esf)) <= nodesize_less_hdr bt ->
  exists to',
    btree_leaf_copy_keys bt from_node fi to_node (length est) num 0 = Some (to', num) /\
    leaf_plain bt to' (est ++ take num (drop fi esf)) /\ same_frame to_node to'.
Proof.
  intros Hbt Hso Hf. revert fi to_node est; induction num as [|num IH]; intros fi to_node est Ht Hn Hsz;
    cbn [btree_leaf_copy_keys].
  { exists to_node. rewrite app_nil_r. done. }
  pose proof (leaf_plain_pages bt Hbt Hso) as Hpg.
  destruct (lookup_lt_is_Some_2 esf fi) as [e He]; [lia|].
  destruct (pg_read _ _ _ _ Hf He) as (Hki & post & Hd).
  unfold btree_leaf_get_nth_key_info. rewrite Hki, Hd. runs. cbn [e_info ki_key ki_datalen fst snd].
  assert (entry_ok bt e) as Hok by exact (Forall_at (pg_entries _ _ Hf) He).
  rewrite (drop_S _ _ _ He) in Hsz |- *. cbn [take] in Hsz |- *. rewrite entries_size_cons in Hsz.
  assert (Forall (entry_ok bt) (take num (drop (S fi) esf))) as Hrest
    by (apply Forall_take, Forall_drop, (pg_entries _ _ Hf)).
  pose proof (entries_size_nonneg bt _ Hbt Hrest).
  rewrite (plain_is_full bt Hbt Hso to_node est) by done. runs.
  rewrite (proj2 (Z.ltb_ge _ _)) by lia.
  destruct (plain_insert bt Hbt Hso to_node est (length est) e (e_data e ++ post) post) as (n1 & Hins & Hp1 & Hfr);
    [done|done|done|done|lia|].
  fold (e_info e). rewrite Hins. runs. cbn [fst snd Z.eqb negb andb].
  rewrite drop_all, firstn_all in Hp1.
  destruct (IH (S fi) n1 (est ++ [e]) Hp1) as (to' & Hc & Hr & Hfr'); [lia| |].
  { rewrite entries_size_app, entries_size_cons. cbn [entries_size foldr]. lia. }
  rewrite length_app, Nat.add_comm in Hc. cbn [length Nat.add] in Hc. rewrite Hc. runs.
  exists to'. split; [done|]. split; [|by etransitivity]. by rewrite (cons_middle e), app_assoc.
Qed.

(** ** Moving one entry *)

Lemma move_key_ok bt from_node esf i to_node est j e :
  bt_ok bt -> space_op_disabled bt = true ->
  leaf_plain bt from_node esf -> leaf_plain bt to_node est -> esf !! i = Some e ->
  (j <= length est)%nat -> entries_size bt est + entry_size bt e <= nodesize_less_hdr bt ->
  exists from' to', btree_leaf_move_key bt from_node i to_node j = Some (from', to') /\
    leaf_plain bt from' (delete i esf) /\ leaf_plain bt to' (take j est ++ e :: drop j est) /\
    same_frame from_node from' /\ same_frame to_node to'.
Proof.
  intros Hbt Hso Hf Ht He Hj Hsz. pose proof (leaf_plain_pages bt Hbt Hso) as Hpg.
  unfold btree_leaf_move_key. destruct (pg_read _ _ _ _ Hf He) as (Hki & post & Hd).
  rewrite Hki, Hd. runs. cbn [e_info ki_key fst snd]. fold (e_info e).
  assert (entry_ok bt e) as Hok by exact (Forall_at (pg_entries _ _ Hf) He).
  destruct (plain_insert bt Hbt Hso to_node est j e (e_data e ++ post) post) as (n1 & -> & ? & ?); try done.
  runs. destruct (plain_remove bt Hbt Hso from_node esf i e Hf He) as (n2 & -> & ? & ?). runs.
  by exists n2, n1.
Qed.

(** ** Shifting entries to a sibling *)

Lemma last_key_ok bt n es e :
  bt_ok bt -> leaf_plain bt n (es ++ [e]) -> last_key_info n = Some (e_info e).
Proof.
  intros Hbt Hp. unfold last_key_info, last_index. apply plain_rep in Hp; [|done].
  rewrite (pg_count _ _ Hp), length_app. cbn [length]. replace (length es + 1 - 1)%nat with (length es) by lia.
  apply (pg_read _ _ _ _ Hp). by apply list_lookup_middle.
Qed.

Lemma snoc_of {A} (l : list A) : l <> [] -> exists l' x, l = l' ++ [x].
Proof. intros H. destruct (exists_last H) as (l' & x & ->). by exists l', x. Qed.

(** [e] is the last entry of [es]. *)
Definition last_is (es : list entry) (e : entry) : Prop := list.last es = Some e.

Lemma shift_left_back_ok bt est mv to_node tmp es_tmp e max_keylen :
  bt_ok bt -> space_op_disabled bt = true -> est <> [] ->
  leaf_plain bt to_node (est ++ mv) -> leaf_plain bt tmp es_tmp ->
  entries_size bt (mv ++ es_tmp) <= nodesize_less_hdr bt -> last_is (est ++ mv) e ->
  exists to' tmp' k,
    shift_left_back bt (length mv) to_node tmp (e_info e) max_keylen = Some (to', tmp', k) /\
    (k <= length mv)%nat /\ leaf_plain bt to' (est ++ take k mv) /\
    leaf_plain bt tmp' (drop k mv ++ es_tmp) /\ same_frame to_node to' /\
    ((0 < k)%nat -> exists e', last_is (est ++ take k mv) e' /\ lenZ (e_key e') <= max_keylen).
Proof.
  intros Hbt Hso Hne. revert to_node tmp es_tmp e; induction mv as [|x mv IH] using rev_ind;
    intros to_node tmp es_tmp e Ht Htmp Hsz Hlast.
  { exists to_node, tmp, 0%nat. cbn. split_and?; try done; [by case_if|lia]. }
  rewrite app_assoc in Ht, Hlast. unfold last_is in Hlast. rewrite last_snoc in Hlast. injection Hlast as ->.
  rewrite length_app, Nat.add_comm. cbn [length Nat.add shift_left_back].
  cbn [e_info ki_keylen]. destruct (Z.ltb_spec max_keylen (lenZ (e_key e))) as [Hlt|Hge]; cbn [negb].
  2: { exists to_node, tmp, (S (length mv)). rewrite take_ge, drop_ge by (rewrite length_app; cbn; lia).
       split_and?; try done; [by rewrite app_assoc|].
       intros _. exists e. split; [|done]. unfold last_is. by rewrite app_assoc, last_snoc. }
  pose proof (plain_rep bt Hbt _ _ Ht) as Hrep. unfold last_index. rewrite (pg_count _ _ Hrep), length_app.
  cbn [length]. replace (length (est ++ mv) + 1 - 1)%nat with (length (est ++ mv)) by lia.
  rewrite !entries_size_app, entries_size_cons in Hsz. cbn [entries_size foldr] in Hsz.
  assert (Forall (entry_ok bt) mv) as Hmv.
  { destruct Ht as [_ Hes _]. rewrite !Forall_app in Hes. tauto. }
  pose proof (entries_size_nonneg bt mv Hbt Hmv).
  destruct (move_key_ok bt to_node ((est ++ mv) ++ [e]) (length (est ++ mv)) tmp es_tmp 0 e Hbt Hso)
    as (to1 & tmp1 & -> & Hto1 & Htmp1 & Hfr1 & _); [done|done|by apply list_lookup_middle|lia|lia|].
  rewrite delete_middle, app_nil_r in Hto1. cbn [take drop app] in Htmp1.
  runs. cbn [fst snd].
  destruct (snoc_of (est ++ mv)) as (l & y & Hl); [by destruct est|].
  rewrite (last_key_ok bt to1 l y Hbt) by (by rewrite <- Hl). runs.
  destruct (IH to1 tmp1 (e :: es_tmp) y) as (to' & tmp' & k & -> & Hk & Hto' & Htmp' & Hfr & Hlk); try done.
  { rewrite entries_size_app, entries_size_cons. lia. }
  { unfold last_is. by rewrite Hl, last_snoc. }
  exists to', tmp', k. rewrite take_app_le, drop_app_le, <- app_assoc by done.
  split_and?; try done; [lia|by etransitivity].
Qed.

Lemma shift_right_loop_ok bt es x to_node from_node est avg :
  bt_ok bt -> space_op_disabled bt = true ->
  leaf_plain bt from_node (x :: es) -> leaf_plain bt to_node est ->
  exists from' to' k,
    shift_right_loop bt (length es) from_node to_node avg = Some (from', to', k) /\
    (k <= length es)%nat /\
    leaf_plain bt from' (x :: take (length es - k) es) /\
    leaf_plain bt to' (drop (length es - k) es ++ est) /\
    same_frame from_node from' /\ same_frame to_node to'.
Proof.
  intros Hbt Hso. revert to_node from_node est; induction es as [|e es IH] using rev_ind;
    intros to_node from_node est Hf Ht.
  { exists from_node, to_node, 0%nat. done. }
  assert (forall f t, leaf_plain bt f (x :: es ++ [e]) -> leaf_plain bt t est ->
            same_frame from_node f -> same_frame to_node t ->
            exists from' to' k, Some (f, t, 0%nat) = Some (from', to', k) /\ (k <= length (es ++ [e]))%nat /\
            leaf_plain bt from' (x :: take (length (es ++ [e]) - k) (es ++ [e])) /\
            leaf_plain bt to' (drop (length (es ++ [e]) - k) (es ++ [e]) ++ est) /\
            same_frame from_node from' /\ same_frame to_node to') as Hstop.
  { intros f t Hf' Ht' Hff Htt. exists f, t, 0%nat.
    rewrite Nat.sub_0_r, drop_all, firstn_all. split_and?; try done. lia. }
  pose proof (leaf_plain_pages bt Hbt Hso) as Hpg.
  rewrite length_app, Nat.add_comm. cbn [length Nat.add shift_right_loop].
  assert ((x :: es ++ [e]) !! S (length es) = Some e) as He by (cbn; by apply list_lookup_middle).
  destruct (pg_read _ _ _ _ Hf He) as (Hki & post & Hd). rewrite Hki. runs. cbn [e_info ki_key ki_datalen].
  assert (entry_ok bt e) as Hok by exact (Forall_at (pg_entries _ _ Hf) He).
  rewrite (plain_is_full bt Hbt Hso to_node est) by (done || lia). runs.
  rewrite length_app, Nat.add_comm in Hstop. cbn [length Nat.add] in Hstop.
  case_if; [by apply Hstop|]. b2p.
  destruct (move_key_ok bt from_node (x :: es ++ [e]) (S (length es)) to_node est 0 e Hbt Hso)
    as (f1 & t1 & -> & Hf1 & Ht1 & Hff1 & Htt1); [done|done|done|lia|lia|].
  runs. cbn [fst snd]. change (x :: es ++ [e]) with ((x :: es) ++ [e]) in Hf1.
  change (S (length es)) with (length (x :: es)) in Hf1. rewrite delete_middle, app_nil_r in Hf1.
  cbn [take drop app] in Ht1.
  case_if.
  - exists f1, t1, 1%nat. replace (S (length es) - 1)%nat with (length es) by lia.
    rewrite take_app_length, drop_app_length. split_and?; try done. lia.
  - destruct (IH t1 f1 (e :: est) Hf1 Ht1) as (f2 & t2 & k & -> & Hk & Hf2 & Ht2 & Hff2 & Htt2).
    runs. cbn [fst snd]. exists f2, t2, (S k). cbn [Nat.sub].
    rewrite take_app_le, drop_app_le, <- app_assoc by lia.
    split_and?; try done; [lia|by etransitivity..].
Qed.

Lemma shift_right_back_ok bt esf mv from_node to_node est e max_keylen :
  bt_ok bt -> space_op_disabled bt = true ->
  leaf_plain bt from_node esf -> leaf_plain bt to_node (mv ++ est) ->
  entries_size bt (esf ++ mv) <= nodesize_less_hdr bt -> last_is esf e ->
  exists from' to' k,
    shift_right_back bt (length mv) from_node to_node (e_info e) max_keylen = Some (from', to', k) /\
    (k <= length mv)%nat /\ leaf_plain bt from' (esf ++ take (length mv - k) mv) /\
    leaf_plain bt to' (drop (length mv - k) mv ++ est) /\
    same_frame from_node from' /\ same_frame to_node to' /\
    ((0 < k)%nat -> exists e', last_is (esf ++ take (length mv - k) mv) e' /\ lenZ (e_key e') <= max_keylen).
Proof.
  intros Hbt Hso. revert esf from_node to_node e; induction mv as [|x mv IH];
    intros esf from_node to_node e Hf Ht Hsz Hlast.
  { exists from_node, to_node, 0%nat. rewrite app_nil_r. cbn. split_and?; try done; [by case_if|lia]. }
  cbn [length shift_right_back e_info ki_keylen].
  destruct (Z.ltb_spec max_keylen (lenZ (e_key e))) as [Hlt|Hge]; cbn [negb].
  2: { exists from_node, to_node, (S (length mv)). rewrite Nat.sub_diag. cbn [take drop]. rewrite app_nil_r.
       split_and?; try done. intros _. by exists e. }
  pose proof (plain_rep bt Hbt _ _ Hf) as Hrep. rewrite (pg_count _ _ Hrep).
  rewrite entries_size_app, entries_size_cons in Hsz.
  assert (Forall (entry_ok bt) mv) as Hmv.
  { destruct Ht as [_ Hes _]. cbn in Hes. inversion_clear Hes as [|? ? _ Hes']. rewrite Forall_app in Hes'. tauto. }
  pose proof (entries_size_nonneg bt mv Hbt Hmv).
  destruct (move_key_ok bt to_node (x :: mv ++ est) 0 from_node esf (length esf) x Hbt Hso)
    as (t1 & f1 & -> & Ht1 & Hf1 & Htt & Hff); [done|done|done|lia|lia|].
  rewrite drop_all, firstn_all in Hf1. cbn [delete list_delete] in Ht1. runs. cbn [fst snd].
  rewrite (last_key_ok bt f1 esf x Hbt) by done. runs.
  destruct (IH (esf ++ [x]) f1 t1 x) as (f2 & t2 & k & -> & Hk & Hf2 & Ht2 & Hff2 & Htt2 & Hlk); try done.
  { rewrite !entries_size_app, entries_size_cons. cbn [entries_size foldr]. lia. }
  { unfold last_is. by rewrite last_snoc. }
  exists f2, t2, k. replace (S (length mv) - k)%nat with (S (length mv - k)) by lia. cbn [take drop].
  rewrite <- app_assoc in Hf2, Hlk.
  split_and?; try done; [lia|by etransitivity..].
Qed.
