(* ===== verification/NodeSearch.v ===== *)
(** * Searching a node (btree/btree_raw.c, btree/btree_var_leaf.c)

    The binary search over the keys of a node, for leaf and non-leaf nodes
    alike, with the selection of a version by sequence number. The keys of a
    node are seen through the interface [NodeView]. *)

From S2P Require Import Prelude LeafMeta LeafNode LeafOps.

(** ** Key comparison *)

(** [memcmp] on byte strings of equal length. *)
Fixpoint memcmp (k1 k2 : list byte) : Z :=
  match k1, k2 with
  | b1 :: k1', b2 :: k2' =>
      if byte.unsigned b1 =? byte.unsigned b2 then memcmp k1' k2'
      else byte.unsigned b1 - byte.unsigned b2
  | _, _ => 0
  end.

Definition default_cmp_cb (key1 key2 : list byte) : Z :=
  if lenZ key1 <? lenZ key2 then -1
  else if lenZ key2 <? lenZ key1 then 1
  else memcmp key1 key2.

(** ** The view of a node *)

(** [key_stuff_info_t]; the key length, 16 bits wide in the code, is the length
    of the key: keys are shorter than a node, whose size is at most 32 KB. *)
Record key_stuff_info := mk_key_stuff_info {
  ks_key : list byte;
  ks_ptr : Z;
  ks_datalen : Z;
  ks_seqno : Z;
  ks_leaf : bool
}.

Class NodeView (node : Type) := {
  nv_nkeys : node -> Z;
  get_key_stuff_info2 : node -> Z -> option key_stuff_info
}.

(** [get_key_stuff_leaf2] *)
Definition get_key_stuff_leaf2 (n : btree_raw_node) (nkey : Z) : option key_stuff_info :=
  if nkey <? 0 then None
  else
    ki ← btree_leaf_get_nth_key_info2 n (z2n nkey);
    Some (mk_key_stuff_info (ki_key ki) (ki_ptr ki) (ki_datalen ki) (ki_seqno ki) true).

#[export] Instance leaf_view : NodeView btree_raw_node :=
  {| nv_nkeys := nkeys; get_key_stuff_info2 := get_key_stuff_leaf2 |}.

(** ** Search conditions *)

(** The flags and sequence numbers of [btree_metadata_t] the search reads. *)
Record btree_metadata := mk_btree_metadata {
  READ_SEQNO_EQ : bool;
  READ_SEQNO_LE : bool;
  READ_SEQNO_GT_LE : bool;
  m_seqno : Z;
  start_seqno : Z;
  end_seqno : Z
}.

(** Direction, exact match, range match. *)
Definition seqno_cmp_range (smeta : option btree_metadata) (key_seqno : Z) : Z * bool * bool :=
  match smeta with
  | None => (0, false, true)
  | Some m =>
      if negb (READ_SEQNO_EQ m || READ_SEQNO_LE m || READ_SEQNO_GT_LE m) then (0, false, true)
      else if READ_SEQNO_EQ m then
        if m_seqno m =? key_seqno then (0, true, false)
        else ((if m_seqno m <? key_seqno then 1 else -1), false, false)
      else if READ_SEQNO_LE m then
        if key_seqno <=? end_seqno m then (0, false, true) else (1, false, false)
      else
        if (start_seqno m <? key_seqno) && (key_seqno <=? end_seqno m) then (0, false, true)
        else if key_seqno <=? start_seqno m then (-1, false, false)
        else (1, false, false)
  end.

Inductive dir := DIR_LEFT | DIR_UNKNOWN | DIR_RIGHT.

#[export] Instance dir_eq_dec : EqDecision dir.
Proof. solve_decision. Defined.

Inductive bsf := BSF_MATCH | BSF_NEXT | BSF_LATEST.

Section search.
Context {node : Type} `{!NodeView node} (cmp_cb : list byte -> list byte -> Z).

(** The loop of [get_latest_seqno] at [i_cur], whose key is [ks]. *)
Fixpoint get_latest_seqno_loop (fuel : nat) (n : node) (key_in : list byte)
    (ks : key_stuff_info) (smeta : option btree_metadata) (i_cur i_ret : Z) (d : dir) (found : bool)
    : option (Z * bool) :=
  match fuel with
  | O => None
  | S fuel =>
      let '(x, exact_match, range_match) := seqno_cmp_range smeta (ks_seqno ks) in
      if (exact_match : bool) then Some (i_cur, true)
      else
        s ← (if (range_match : bool) then
               if decide (d = DIR_RIGHT) then Some (inl (i_ret, true))
               else Some (inr (i_cur - 1, i_cur, DIR_LEFT, true))
             else if 0 <? x then
               if decide (d = DIR_LEFT) then Some (inl (i_ret, found))
               else Some (inr (i_cur + 1, i_cur + 1, DIR_RIGHT, found))
             else if x <? 0 then
               if decide (d = DIR_RIGHT) then Some (inl (i_ret, found))
               else Some (inr (i_cur - 1, i_cur, DIR_LEFT, found))
             else None);
        match s with
        | inl r => Some r
        | inr (i_cur, i_ret, d, found) =>
            if (i_cur <? 0) || (nv_nkeys n <=? i_cur) then Some (i_ret, found)
            else
              ks ← get_key_stuff_info2 n i_cur;
              if cmp_cb key_in (ks_key ks) =? 0
              then get_latest_seqno_loop fuel n key_in ks smeta i_cur i_ret d found
              else Some (i_ret, found)
        end
  end.

Definition get_latest_seqno (n : node) (key_in : list byte) (ks : key_stuff_info)
    (smeta : option btree_metadata) (i_cur : Z) : option (Z * bool) :=
  get_latest_seqno_loop (S (z2n (nv_nkeys n))) n key_in ks smeta i_cur i_cur DIR_UNKNOWN false.

(** The linear scan of [BSF_NEXT] from the position after [i_check]. *)
Fixpoint next_keyset (fuel : nat) (n : node) (key_in : list byte) (i_check : Z) : option Z :=
  match fuel with
  | O => None
  | S fuel =>
      let i_check := i_check + 1 in
      if nv_nkeys n <=? i_check then Some i_check
      else
        ks ← get_key_stuff_info2 n i_check;
        if negb (cmp_cb key_in (ks_key ks) =? 0) then Some i_check
        else next_keyset fuel n key_in i_check
  end.

(** The index and whether the key was found. The search interval shrinks in
    every iteration; [fuel] bounds the number of iterations. *)
Fixpoint bsearch_loop (fuel : nat) (n : node) (key_in : list byte) (meta : option btree_metadata)
    (i_start i_end : Z) (flags : bsf) : option (Z * bool) :=
  match fuel with
  | O => None
  | S fuel =>
      if negb (1 <? i_end - i_start) then Some (i_end, false)
      else
        let i_check := i_start + (i_end - i_start) / 2 in
        ks ← get_key_stuff_info2 n i_check;
        let x := cmp_cb key_in (ks_key ks) in
        if x =? 0 then
          match flags with
          | BSF_MATCH => Some (i_check, true)
          | BSF_NEXT => i ← next_keyset (S (z2n (nv_nkeys n))) n key_in i_check; Some (i, true)
          | BSF_LATEST => get_latest_seqno n key_in ks meta i_check
          end
        else if x <? 0 then bsearch_loop fuel n key_in meta i_start i_check flags
        else bsearch_loop fuel n key_in meta i_check i_end flags
  end.

Definition bsearch_key_low (n : node) (key_in : list byte) (meta : option btree_metadata)
    (i_start i_end : Z) (flags : bsf) : option (Z * bool) :=
  bsearch_loop (S (z2n (i_end - i_start))) n key_in meta i_start i_end flags.
End search.

(** ** Leaf searches *)

Definition btree_leaf_find_key2 (bt : btree_raw) (n : btree_raw_node) (key : list byte)
    (meta : option btree_metadata) : option (Z * bool) :=
  bsearch_key_low (cmp_cb bt) n key meta (-1) (nkeys n) BSF_LATEST.

Definition btree_leaf_find_key (bt : btree_raw) (n : btree_raw_node) (key : list byte)
    (meta : option btree_metadata) : option (Z * bool) :=
  btree_leaf_find_key2 bt n key meta.

(** The first entry with a greater key: its index and, when there is one, its
    key, key length and sequence number. *)
Definition btree_leaf_find_right_key (bt : btree_raw) (n : btree_raw_node) (key : list byte)
    : option (Z * option (list byte * Z * Z)) :=
  r ← bsearch_key_low (cmp_cb bt) n key None (-1) (nkeys n) BSF_NEXT;
  let index := r.1 in
  if (0 <=? index) && (index <? nkeys n) then
    k ← btree_leaf_get_nth_key n (z2n index); Some (index, Some k)
  else Some (index, None).

Definition btree_leaf_is_full (bt : btree_raw) (n : btree_raw_node) (key : list byte) (datalen_ : Z)
    (meta : option btree_metadata) (insert_tombstone key_exists : bool) : option bool :=
  r ← btree_leaf_find_key2 bt n key meta;
  btree_leaf_is_full_index bt n key datalen_ insert_tombstone key_exists (z2n r.1).
