(* ===== verification/LeafTheorems.v ===== *)
(** * The contract of the b-tree leaf

    The properties the tree relies on: what each operation of
    btree_var_leaf.c does to the list of entries a page holds, when it
    succeeds, and how the sizes it reports relate to the page. *)

From S2P Require Import Prelude LeafMeta LeafNode LeafOps LeafCells LeafEncode LeafFixup LeafSpec LeafRefine LeafPlain LeafMove NodeSearch.

(** ** Updating an entry *)

(** The space check of an update in place: the growth of the data and a new
    metadata block must fit. *)
Lemma plain_update_is_full bt n es index old e tomb :
  bt_ok bt -> leaf_plain bt n es -> es !! index = Some old -> entry_ok bt e -> e_key e = e_key old ->
  btree_leaf_is_full_index bt n (e_key e) (e_datalen e) tomb true index =
  Some (nodesize_less_hdr bt - entries_size bt es <?
        Z.max 0 (data_inleaf bt (lenZ (e_key e)) (e_datalen e) - data_inleaf bt (lenZ (e_key e)) (e_datalen old)
                 + get_meta_type_to_size (size_type e))).
Proof.
  intros Hbt Hp Hi He Hk. unfold btree_leaf_is_full_index. rewrite (plain_used bt Hbt _ _ Hp).
  pose proof (lookup_lt_Some _ _ _ Hi) as Hlt. destruct Hp as [Hl Hes Hfit].
  unfold nkeys. rewrite (layout_length n _ Hl), length_fmap.
  rewrite (proj2 (Z.leb_gt (lenZ es) (n2z index))) by lia. cbn [andb].
  assert ((full_cell <$> es) !! index = Some (full_cell old)) as Hc by (by rewrite list_lookup_fmap, Hi).
  rewrite (layout_meta bt n _ Hbt Hl (full_cells_ok bt es Hbt Hes) _ _ Hc). runs.
  cbn [c_meta datalen full_cell km_cell c_entry].
  assert (get_key_meta_type (set_datalen (set_compact (c_meta (full_cell old)) false) (e_datalen e))
          = size_type e) as ->.
  { unfold get_key_meta_type, size_type. cbn [compact_meta set_datalen set_compact keylen datalen c_meta].
    change (c_entry (full_cell old)) with old. by rewrite Hk. }
  pose proof (Forall_at Hes Hi) as Hold.
  pose proof (data_inleaf_bound bt (lenZ (e_key e)) (e_datalen e) Hbt) as Hd1.
  pose proof (data_inleaf_bound bt (lenZ (e_key e)) (e_datalen old) Hbt) as Hd2.
  pose proof (eo_big_key _ _ He). pose proof (eo_datalen _ _ He). pose proof (eo_datalen _ _ Hold).
  pose proof (bt_big _ Hbt). pose proof (bt_node _ Hbt). pose proof (bt_node_max _ Hbt).
  unfold BTREE_MAX_NODE_SIZE, SIZEOF_BTREE_RAW_NODE, MAX_UINT8_T in *.
  assert (0 <= get_meta_type_to_size (size_type e) <= 34) by (destruct (size_type e); cbn; lia).
  rewrite i32_small by lia. do 2 f_equal. case_if; b2p; lia.
Qed.

Lemma plain_update_full bt n es index old e tomb :
  bt_ok bt -> leaf_plain bt n es -> es !! index = Some old -> entry_ok bt e -> e_key e = e_key old ->
  btree_leaf_is_full_index bt n (e_key e) (e_datalen e) tomb true index = Some false ->
  entries_size bt es - entry_size bt old + entry_size bt e <= nodesize_less_hdr bt.
Proof.
  intros Hbt Hp Hi He Hk. rewrite (plain_update_is_full bt n es index old e tomb Hbt Hp Hi He Hk).
  intros [= Hf]. b2p. unfold entry_size. rewrite <- Hk.
  assert (0 <= get_meta_type_to_size (size_type old)) by (destruct (size_type old); cbn; lia). lia.
Qed.

Section update.
Context (bt : btree_raw) (Hbt : bt_ok bt) (Hso : space_op_disabled bt = true).

Lemma take_delete_drop {A} (l : list A) i x :
  (i < length l)%nat -> take i (delete i l) ++ x :: drop i (delete i l) = <[i := x]> l.
Proof using Type.
  intros Hi. rewrite insert_take_drop, delete_take_drop by done.
  rewrite take_app_length', drop_app_length' by (rewrite length_take; lia). done.
Qed.

Lemma plain_update n es index old e data post :
  leaf_plain bt n es -> es !! index = Some old -> entry_ok bt e -> data = e_data e ++ post ->
  entries_size bt es - entry_size bt old + entry_size bt e <= nodesize_less_hdr bt ->
  exists n',
    btree_leaf_update_key bt n (e_key e) data (e_datalen e) (e_seqno e) (e_ptr e) (e_tomb e) index true
    = Some (n', i32 (i32 (BTREE_LEAF_ENTRY_MAX_SIZE (lenZ (e_key e)) (e_datalen e))
                     - (entry_size bt e - entry_size bt old)),
            entry_size bt e - entry_size bt old) /\
    leaf_plain bt n' (<[index := e]> es) /\ same_frame n n'.
Proof using All.
  intros Hp Hi He Hd Hsz. pose proof (lookup_lt_Some _ _ _ Hi) as Hlt. unfold btree_leaf_update_key.
  pose proof (Forall_at (lp_entries Hp) Hi) as Hold.
  destruct (plain_remove bt Hbt Hso n es index old Hp Hi) as (n1 & Hr & Hp1 & Hf1).
  assert (entries_size bt es = entries_size bt (delete index es) + entry_size bt old) as Hsd.
  { rewrite delete_take_drop, (list_split_at es index old Hi) at 1.
    rewrite !entries_size_app, entries_size_cons. lia. }
  destruct (plain_insert bt Hbt Hso n1 (delete index es) index e data post Hp1 He)
    as (n2 & Hn2 & Hp2 & Hf2); [rewrite length_delete; [lia|by eexists]|done|lia|].
  exists n2. rewrite take_delete_drop in Hp2 by done. split; [|split; [done|by transitivity n1]].
  pass by (apply Z.ltb_lt, (eo_key _ _ He)). fold (e_info e).
  unfold btree_leaf_remove_key_index in Hr. rewrite Hr. runs. rewrite Hn2. runs.
  pose proof (entry_size_pos bt e Hbt He). pose proof (entry_size_pos bt old Hbt Hold).
  pose proof (lp_fit Hp). pose proof (entries_size_nonneg bt _ Hbt (lp_entries Hp1)).
  pose proof (bt_node _ Hbt). pose proof (bt_node_max _ Hbt).
  unfold BTREE_MAX_NODE_SIZE, SIZEOF_BTREE_RAW_NODE in *.
  by rewrite (i32_small (entry_size bt e - entry_size bt old)) by lia.
Qed.
End update.

(** ** Example pages *)

(** The page that renders a list of cells. *)
Definition page_of (cs : list cell) : btree_raw_node :=
  mk_btree_raw_node LEAF_NODE 0 1 0 BAD_CHILD (cells_headers 0 cs) (cells_area cs).

Lemma page_of_layout cs : layout (page_of cs) cs.
Proof. by split. Qed.

(** The parameters of a node of 8 KB, without and with prefix sharing. *)
Definition bt_8k (no_sharing : bool) : btree_raw :=
  mk_btree_raw 1985 8192 (init_nodesize_less_hdr 8192) (init_big_object_size 8192) false 0
    no_sharing 10 default_cmp_cb.

Lemma bt_8k_ok b : bt_ok (bt_8k b).
Proof. by split. Qed.

Definition key_ab (b : byte) : list byte := replicate 12 Byte.x61 ++ [b].
Definition entry_ab (b : byte) (seq : Z) : entry :=
  mk_entry (key_ab b) 2 [b; b] 0 seq false.

Lemma entry_ab_ok ns b seq : (0 <=? seq) && (seq <? 2 ^ 64) = true -> entry_ok (bt_8k ns) (entry_ab b seq).
Proof. intros H. b2p. by split. Qed.

Definition es_ab : list entry := [entry_ab Byte.x31 7; entry_ab Byte.x32 8; entry_ab Byte.x33 9].

Lemma plain_ab : leaf_plain (bt_8k true) (page_of (full_cell <$> es_ab)) es_ab.
Proof.
  split; [apply page_of_layout| |done]. unfold es_ab. repeat (constructor; [by apply entry_ab_ok|]). constructor.
Qed.

(** The same entries in a page with shared prefixes. *)
Definition cs_ab : list cell :=
  let bt := bt_8k false in
  insert_cells bt (insert_cells bt (insert_cells bt [] 0 (entry_ab Byte.x31 7)) 1 (entry_ab Byte.x32 8))
    2 (entry_ab Byte.x33 9).

Lemma cs_ab_ok : cells_ok (bt_8k false) cs_ab.
Proof.
  pose proof (bt_8k_ok false).
  repeat (apply insert_cells_ok; try done; try by apply entry_ab_ok).
Qed.

Lemma rep_ab : leaf_rep (bt_8k false) (page_of cs_ab) es_ab.
Proof.
  exists cs_ab. split; [apply page_of_layout|]. split; [apply cs_ab_ok|]. split; [|reflexivity].
  by vm_compute.
Qed.

(** ** Reading *)

(** C29: every entry of a leaf page is read back as stored: key (with the
    shared prefix restored), lengths, sequence number, overflow pointer,
    tombstone and in-leaf data. *)
Theorem leaf_read_back bt n es i e :
  bt_ok bt -> leaf_rep bt n es -> es !! i = Some e ->
  btree_leaf_get_nth_key_info2 n i = Some (e_info e) /\
  btree_leaf_is_key_tombstoned n i = Some (e_tomb e) /\
  exists post, btree_leaf_get_data_nth_key n i = Some (e_data e ++ post, e_datalen e).
Proof. intros Hbt Hrep Hi. by apply (leaf_rep_read bt Hbt n es). Qed.

Lemma leaf_read_back_witness :
  btree_leaf_get_nth_key_info2 (page_of cs_ab) 2 = Some (e_info (entry_ab Byte.x33 9)).
Proof.
  apply (leaf_read_back (bt_8k false) (page_of cs_ab) es_ab 2 (entry_ab Byte.x33 9)).
  - apply bt_8k_ok.
  - apply rep_ab.
  - reflexivity.
Defined.

(** ** Insertion *)

(** C23: insertion refines list insertion. The dry run reports the exact growth
    [b] of the page; when the page has [b] bytes left, the insertion succeeds,
    the new page holds the entries with the new one at [index], its used space
    has grown by [b], and nothing but the entries of the node has changed. *)
Theorem leaf_insert_refines bt n es index e data post :
  bt_ok bt -> leaf_rep bt n es -> entry_ok bt e -> (index <= length es)%nat ->
  data = e_data e ++ post ->
  exists b,
    btree_leaf_insert_key_index bt n (e_key e) data (e_datalen e) (e_info e) index true = Some (n, b) /\
    (btree_leaf_used_space bt n + b <= nodesize_less_hdr bt ->
     exists n',
       btree_leaf_insert_key_index bt n (e_key e) data (e_datalen e) (e_info e) index false = Some (n', b) /\
       leaf_rep bt n' (take index es ++ e :: drop index es) /\
       btree_leaf_used_space bt n' = btree_leaf_used_space bt n + b /\ same_frame n n').
Proof.
  intros Hbt Hrep He Hi Hd.
  destruct (insert_spec_ok bt Hbt n es index e data post Hrep He Hi Hd) as (b & Hb & _ & Hins).
  exists b. split; [done|]. intros Hle. by rewrite (proj2 (Z.leb_le _ _) Hle) in Hins.
Qed.

Lemma leaf_insert_refines_witness :
  exists b,
    btree_leaf_insert_key_index (bt_8k false) (page_of cs_ab) (key_ab Byte.x30) [Byte.x30; Byte.x30] 2
      (e_info (entry_ab Byte.x30 4)) 0 true = Some (page_of cs_ab, b) /\
    (btree_leaf_used_space (bt_8k false) (page_of cs_ab) + b <= nodesize_less_hdr (bt_8k false) ->
     exists n',
       btree_leaf_insert_key_index (bt_8k false) (page_of cs_ab) (key_ab Byte.x30) [Byte.x30; Byte.x30] 2
         (e_info (entry_ab Byte.x30 4)) 0 false = Some (n', b) /\
       leaf_rep (bt_8k false) n' (take 0 es_ab ++ entry_ab Byte.x30 4 :: drop 0 es_ab) /\
       btree_leaf_used_space (bt_8k false) n' = btree_leaf_used_space (bt_8k false) (page_of cs_ab) + b /\
       same_frame (page_of cs_ab) n').
Proof.
  apply (leaf_insert_refines (bt_8k false) (page_of cs_ab) es_ab 0 (entry_ab Byte.x30 4) _ []).
  - apply bt_8k_ok.
  - apply rep_ab.
  - by apply entry_ab_ok.
  - cbn. lia.
  - reflexivity.
Defined.

(** C28: the space check of an insertion is sound, with prefix sharing too: it
    always answers, and when it answers "not full" for a new key the insertion
    that follows passes every assertion of the code (in particular it never
    writes past the page). *)
Theorem leaf_space_check_sound bt n es index e t data post :
  bt_ok bt -> leaf_rep bt n es -> entry_ok bt e -> (index <= length es)%nat ->
  data = e_data e ++ post ->
  exists full,
    btree_leaf_is_full_index bt n (e_key e) (e_datalen e) t false index = Some full /\
    (full = false -> exists n' b,
       btree_leaf_insert_key_index bt n (e_key e) data (e_datalen e) (e_info e) index false = Some (n', b) /\
       leaf_rep bt n' (take index es ++ e :: drop index es)).
Proof.
  intros Hbt Hrep He Hi Hd.
  destruct (is_full_ok bt Hbt n es index e t data post Hrep He Hi Hd) as (full & Hf & Hgo).
  exists full. split; [done|]. intros Hff. destruct (Hgo Hff) as (n' & b & ? & ? & _). by exists n', b.
Qed.

Lemma leaf_space_check_sound_witness :
  exists full,
    btree_leaf_is_full_index (bt_8k false) (page_of cs_ab) (key_ab Byte.x30) 2 true false 3 = Some full /\
    (full = false -> exists n' b,
       btree_leaf_insert_key_index (bt_8k false) (page_of cs_ab) (key_ab Byte.x30) [Byte.x30; Byte.x30] 2
         (e_info (entry_ab Byte.x30 4)) 3 false = Some (n', b) /\
       leaf_rep (bt_8k false) n' (take 3 es_ab ++ entry_ab Byte.x30 4 :: drop 3 es_ab)).
Proof.
  apply (leaf_space_check_sound (bt_8k false) (page_of cs_ab) es_ab 3 (entry_ab Byte.x30 4) true _ []).
  - apply bt_8k_ok.
  - apply rep_ab.
  - by apply entry_ab_ok.
  - cbn. lia.
  - reflexivity.
Defined.

(** ** Removal *)

(** removal refines list deletion. The dry run reports the exact shrinkage
    [b]; when the rewritten entries fit the page, the removal yields the page
    without entry [index] and [b] bytes less used space. *)
Theorem leaf_remove_refines bt n es index :
  bt_ok bt -> leaf_rep bt n es -> (index < length es)%nat ->
  exists b, btree_leaf_remove_key_index_int bt n index true = Some (n, b) /\
    (btree_leaf_used_space bt n - b < nodesize_less_hdr bt ->
     exists n', btree_leaf_remove_key_index bt n index = Some (n', b) /\
       leaf_rep bt n' (delete index es) /\
       btree_leaf_used_space bt n' = btree_leaf_used_space bt n - b /\ same_frame n n').
Proof. intros Hbt Hrep Hi. by apply (remove_spec_ok bt Hbt n es index). Qed.

Lemma leaf_remove_refines_witness :
  exists b, btree_leaf_remove_key_index_int (bt_8k false) (page_of cs_ab) 1 true = Some (page_of cs_ab, b) /\
    (btree_leaf_used_space (bt_8k false) (page_of cs_ab) - b < nodesize_less_hdr (bt_8k false) ->
     exists n', btree_leaf_remove_key_index (bt_8k false) (page_of cs_ab) 1 = Some (n', b) /\
       leaf_rep (bt_8k false) n' (delete 1%nat es_ab) /\
       btree_leaf_used_space (bt_8k false) n' = btree_leaf_used_space (bt_8k false) (page_of cs_ab) - b /\
       same_frame (page_of cs_ab) n').
Proof.
  apply (leaf_remove_refines (bt_8k false) (page_of cs_ab) es_ab 1).
  - apply bt_8k_ok.
  - apply rep_ab.
  - cbn. lia.
Defined.

(** C37: In the default mode a removal always succeeds and frees exactly the
    size of the removed entry. *)
Theorem leaf_remove_total bt n es index e :
  bt_ok bt -> space_op_disabled bt = true -> leaf_plain bt n es -> es !! index = Some e ->
  exists n', btree_leaf_remove_key_index bt n index = Some (n', entry_size bt e) /\
    leaf_plain bt n' (delete index es) /\ same_frame n n'.
Proof. intros. by apply plain_remove. Qed.

Lemma leaf_remove_total_witness :
  exists n', btree_leaf_remove_key_index (bt_8k true) (page_of (full_cell <$> es_ab)) 0
             = Some (n', entry_size (bt_8k true) (entry_ab Byte.x31 7)) /\
    leaf_plain (bt_8k true) n' (delete 0%nat es_ab) /\ same_frame (page_of (full_cell <$> es_ab)) n'.
Proof.
  apply (leaf_remove_total (bt_8k true) (page_of (full_cell <$> es_ab)) es_ab 0 (entry_ab Byte.x31 7)).
  - apply bt_8k_ok.
  - reflexivity.
  - apply plain_ab.
  - reflexivity.
Defined.

(** ** Update *)

(** C36: when the space check admits the update of an existing key (default
    mode), the update succeeds, replaces exactly that entry and reports the
    exact growth of the page. *)
Theorem leaf_update_sound bt n es index old e data post :
  bt_ok bt -> space_op_disabled bt = true -> leaf_plain bt n es ->
  es !! index = Some old -> entry_ok bt e -> e_key e = e_key old -> data = e_data e ++ post ->
  btree_leaf_is_full_index bt n (e_key e) (e_datalen e) (e_tomb e) true index = Some false ->
  exists n' saved,
    btree_leaf_update_key bt n (e_key e) data (e_datalen e) (e_seqno e) (e_ptr e) (e_tomb e) index true
    = Some (n', saved, entry_size bt e - entry_size bt old) /\
    leaf_plain bt n' (<[index := e]> es) /\ same_frame n n'.
Proof.
  intros Hbt Hso Hp Hi He Hk Hd Hf.
  pose proof (plain_update_full bt n es index old e (e_tomb e) Hbt Hp Hi He Hk Hf) as Hsz.
  destruct (plain_update bt Hbt Hso n es index old e data post Hp Hi He Hd Hsz) as (n' & ? & ? & ?).
  eexists n', _. by split_and?.
Qed.

Lemma leaf_update_sound_witness :
  exists n' saved,
    btree_leaf_update_key (bt_8k true) (page_of (full_cell <$> es_ab)) (key_ab Byte.x32)
      [Byte.x32; Byte.x32] 2 11 0 false 1 true = Some (n', saved, 0) /\
    leaf_plain (bt_8k true) n' (<[1%nat := entry_ab Byte.x32 11]> es_ab) /\
    same_frame (page_of (full_cell <$> es_ab)) n'.
Proof.
  apply (leaf_update_sound (bt_8k true) (page_of (full_cell <$> es_ab)) es_ab 1 (entry_ab Byte.x32 8)
           (entry_ab Byte.x32 11) _ []).
  - apply bt_8k_ok.
  - reflexivity.
  - apply plain_ab.
  - reflexivity.
  - by apply entry_ab_ok.
  - reflexivity.
  - reflexivity.
  - vm_compute. reflexivity.
Defined.

(** ** Split *)

(** a split with shared prefixes distributes the entries, when the rewritten
    entries of the right page fit a page (which the code does not check): the
    left page keeps the entries up to the split point, the fresh page holds the
    others (the prefixes of its first entries rewritten, the prefix indices of
    the rest shifted), the separator is the last key on the left and the reported
    growth is exact. *)
Theorem leaf_split_refines bt n to_node cs mid c split_key :
  bt_ok bt -> layout n cs -> cells_ok bt cs -> cells_fit bt cs -> (S mid < length cs)%nat ->
  cs !! mid = Some c -> cells_fit bt (split_right bt cs mid) ->
  match split_key with O => btree_leaf_find_split_idx bt n | S m => Some m end = Some mid ->
  exists r, btree_leaf_split bt n to_node split_key = Some r /\
    leaf_rep bt (sr_from r) (take (S mid) (c_entry <$> cs)) /\
    leaf_rep bt (sr_to r) (drop (S mid) (c_entry <$> cs)) /\
    sr_key r = c_key c /\ sr_keylen r = lenZ (c_key c) /\ sr_seqno r = e_seqno (c_entry c) /\
    sr_bytes_increased r = btree_leaf_used_space bt (sr_from r) + btree_leaf_used_space bt (sr_to r)
                           - btree_leaf_used_space bt n /\
    same_frame n (sr_from r) /\ same_frame to_node (sr_to r).
Proof.
  intros Hbt Hlay Hcs Hfit Hmid Hc Hfit' Hsk.
  destruct (split_page bt n to_node cs mid c Hbt Hlay Hcs Hfit Hmid Hc Hfit' split_key Hsk)
    as (f & t & -> & Hl1 & Hl2 & Hf & Ht).
  eexists. split; [done|]. cbn [sr_from sr_to sr_key sr_keylen sr_seqno sr_bytes_increased].
  split_and?; try done.
  - exists (split_left cs mid). split_and?; [done|by apply split_left_ok| |by rewrite <- fmap_take].
    unfold cells_fit in *. fold (cells_size (split_left cs mid)). fold (cells_size cs) in Hfit.
    rewrite <- (take_drop (S mid) cs), cells_size_app in Hfit.
    pose proof (cells_size_nonneg (drop (S mid) cs)). unfold split_left. lia.
  - exists (split_right bt cs mid). split_and?; [done|by apply split_right_ok|done|].
    by rewrite split_right_entries.
  - by rewrite (layout_used_space _ _ _ Hl1), (layout_used_space _ _ _ Hl2), (layout_used_space _ _ _ Hlay).
Qed.

Lemma leaf_split_refines_witness :
  exists r, btree_leaf_split (bt_8k false) (page_of cs_ab) (page_of []) 1 = Some r /\
    leaf_rep (bt_8k false) (sr_from r) (take 1 es_ab) /\
    leaf_rep (bt_8k false) (sr_to r) (drop 1 es_ab) /\
    sr_key r = key_ab Byte.x31 /\ sr_keylen r = 13 /\ sr_seqno r = 7 /\
    sr_bytes_increased r = btree_leaf_used_space (bt_8k false) (sr_from r)
      + btree_leaf_used_space (bt_8k false) (sr_to r)
      - btree_leaf_used_space (bt_8k false) (page_of cs_ab) /\
    same_frame (page_of cs_ab) (sr_from r) /\ same_frame (page_of []) (sr_to r).
Proof.
  apply (leaf_split_refines (bt_8k false) (page_of cs_ab) (page_of []) cs_ab 0 (full_cell (entry_ab Byte.x31 7)) 1).
  - apply bt_8k_ok.
  - apply page_of_layout.
  - apply cs_ab_ok.
  - by vm_compute.
  - vm_compute. lia.
  - reflexivity.
  - by vm_compute.
  - reflexivity.
Defined.

(** in the default mode a page of at least two entries can always be split
    at the point the code chooses; both halves get at least one entry, the
    halves hold the entries in order and no space is gained or lost. *)
Theorem leaf_split_total bt n to_node es :
  bt_ok bt -> space_op_disabled bt = true -> leaf_plain bt n es -> (2 <= length es)%nat ->
  exists mid e r,
    btree_leaf_split bt n to_node 0 = Some r /\ (S mid < length es)%nat /\ es !! mid = Some e /\
    leaf_plain bt (sr_from r) (take (S mid) es) /\ leaf_plain bt (sr_to r) (drop (S mid) es) /\
    sr_key r = e_key e /\ sr_seqno r = e_seqno e /\ sr_bytes_increased r = 0.
Proof.
  intros Hbt Hso Hp H2.
  destruct (plain_split bt Hbt Hso n to_node es Hp H2) as (mid & e & r & _ & Hs & Hm & He & Hf & Ht & Hk & Hq & Hb & _).
  by exists mid, e, r.
Qed.

Lemma leaf_split_total_witness :
  exists mid e r,
    btree_leaf_split (bt_8k true) (page_of (full_cell <$> es_ab)) (page_of []) 0 = Some r /\
    (S mid < length es_ab)%nat /\ es_ab !! mid = Some e /\
    leaf_plain (bt_8k true) (sr_from r) (take (S mid) es_ab) /\
    leaf_plain (bt_8k true) (sr_to r) (drop (S mid) es_ab) /\
    sr_key r = e_key e /\ sr_seqno r = e_seqno e /\ sr_bytes_increased r = 0.
Proof.
  apply (leaf_split_total (bt_8k true) (page_of (full_cell <$> es_ab)) (page_of []) es_ab).
  - apply bt_8k_ok.
  - reflexivity.
  - apply plain_ab.
  - cbn. lia.
Defined.

(** ** Merging and shifting *)

(** merging a leaf into its left sibling, with or without shared prefixes,
    either moves all entries behind those of the sibling, empties the source
    and links the sibling to the source's successor, or reports failure having
    added only a leading part of the entries to the target. *)
Theorem leaf_merge_left_ok bt from_node esf to_node est :
  bt_ok bt -> leaf_rep bt from_node esf -> leaf_rep bt to_node est ->
  exists from' to' ok, btree_leaf_merge_left bt from_node to_node = Some (from', to', ok) /\
    if (ok : bool)
    then leaf_rep bt to' (est ++ esf) /\ leaf_rep bt from' [] /\ next to' = next from_node
    else from' = from_node /\ exists k, (k < length esf)%nat /\ leaf_rep bt to' (est ++ take k esf).
Proof.
  intros Hbt Hf Ht. unfold btree_leaf_merge_left. rewrite (pg_count _ _ Hf), (pg_count _ _ Ht).
  destruct (copy_keys_ok bt (leaf_rep bt) from_node esf 0 (length esf) to_node est (nodesize_less_hdr bt))
    as (to' & k & -> & Hk & Hr & _); [done|done|lia|]. rewrite drop_0 in Hr. runs.
  case_decide as Hne.
  - eexists _, _, false. split; [done|]. split; [done|]. exists k. split; [lia|done].
  - eexists _, _, true. split; [done|]. assert (k = length esf) as -> by lia. rewrite firstn_all in Hr.
    split; [|split; [|done]].
    + destruct Hr as (cs & [Hh Ha] & ? & ? & ?). exists cs. done.
    + exists []. split_and?; [by split|by split| |done]. pose proof (bt_less_hdr _ Hbt). unfold cells_fit; cbn. lia.
Qed.

Lemma leaf_merge_left_ok_witness :
  exists from' to' ok, btree_leaf_merge_left (bt_8k false) (page_of cs_ab) (page_of cs_ab) = Some (from', to', ok) /\
    if (ok : bool)
    then leaf_rep (bt_8k false) to' (es_ab ++ es_ab) /\ leaf_rep (bt_8k false) from' [] /\
         next to' = next (page_of cs_ab)
    else from' = page_of cs_ab /\
         exists k, (k < length es_ab)%nat /\ leaf_rep (bt_8k false) to' (es_ab ++ take k es_ab).
Proof.
  apply (leaf_merge_left_ok (bt_8k false) (page_of cs_ab) es_ab (page_of cs_ab) es_ab).
  - apply bt_8k_ok.
  - apply rep_ab.
  - apply rep_ab.
Defined.

(** Merging a leaf into its right sibling (default mode): when both fit
    one page, all assertions hold and the target holds the entries of the
    source followed by its own. *)
Theorem leaf_merge_right_ok bt from_node esf to_node est :
  bt_ok bt -> space_op_disabled bt = true ->
  leaf_plain bt from_node esf -> leaf_plain bt to_node est ->
  btree_leaf_used_space bt from_node + btree_leaf_used_space bt to_node <= nodesize_less_hdr bt ->
  exists from' to', btree_leaf_merge_right bt from_node to_node = Some (from', to') /\
    leaf_plain bt to' (esf ++ est) /\ leaf_plain bt from' [] /\ same_frame to_node to'.
Proof.
  intros Hbt Hso Hf Ht. rewrite (plain_used bt Hbt _ _ Hf), (plain_used bt Hbt _ _ Ht). intros Hsz.
  pose proof (leaf_plain_pages bt Hbt Hso) as Hpg. unfold btree_leaf_merge_right.
  rewrite (pg_count _ _ Hf), (pg_count _ _ Ht).
  destruct (copy_keys_all bt from_node esf 0 (length esf) (btree_leaf_init to_node) [] Hbt Hso Hf)
    as (t1 & Hc1 & Hp1 & _); [by apply plain_init|lia| |].
  { rewrite drop_0, firstn_all. apply (lp_fit Hf). }
  cbn [length] in Hc1. rewrite drop_0, firstn_all in Hp1. cbn [app] in Hp1. rewrite Hc1. runs. cbn [fst snd].
  destruct (copy_keys_all bt to_node est 0 (length est) t1 esf Hbt Hso Ht Hp1)
    as (t2 & Hc2 & Hp2 & _); [lia|by rewrite drop_0, firstn_all|].
  rewrite drop_0, firstn_all in Hp2.
  eexists _, _. split.
  { pass by (by apply bool_decide_true). rewrite Hc2. runs. cbn [fst snd].
    pass by (by apply bool_decide_true). done. }
  split_and?; try done.
  - destruct Hp2 as [[Hh Ha] ? ?]. split; [by split|done|done].
  - split; [by split|done|]. pose proof (bt_less_hdr _ Hbt). cbn. lia.
Qed.

Lemma leaf_merge_right_ok_witness :
  let p := page_of (full_cell <$> es_ab) in
  exists from' to', btree_leaf_merge_right (bt_8k true) p p = Some (from', to') /\
    leaf_plain (bt_8k true) to' (es_ab ++ es_ab) /\ leaf_plain (bt_8k true) from' [] /\ same_frame p to'.
Proof.
  apply (leaf_merge_right_ok (bt_8k true) (page_of (full_cell <$> es_ab)) es_ab (page_of (full_cell <$> es_ab)) es_ab).
  - apply bt_8k_ok.
  - reflexivity.
  - apply plain_ab.
  - apply plain_ab.
  - vm_compute. discriminate.
Defined.

(** balancing to the left (default mode) moves a leading part of the
    source behind the target without losing, duplicating or reordering
    entries. It reports the new last key of the target exactly when entries
    were moved, and that key is short enough for the parent. *)
Theorem leaf_shift_left_ok bt from_node esf to_node est max_keylen :
  bt_ok bt -> space_op_disabled bt = true ->
  leaf_plain bt from_node esf -> leaf_plain bt to_node est -> est <> [] ->
  exists from' to' r k, btree_leaf_shift_left bt from_node to_node max_keylen = Some (from', to', r) /\
    leaf_plain bt to' (est ++ take k esf) /\ leaf_plain bt from' (drop k esf) /\
    same_frame from_node from' /\ same_frame to_node to' /\
    match r with
    | None => k = 0%nat
    | Some ki => exists e, last_is (est ++ take k esf) e /\ ki = e_info e /\ ki_keylen ki <= max_keylen
    end.
Proof.
  intros Hbt Hso Hf Ht Hne. pose proof (leaf_plain_pages bt Hbt Hso) as Hpg. unfold btree_leaf_shift_left.
  rewrite (pg_count _ _ Hf), (pg_count _ _ Ht).
  set (avg := (_ + _) / 2).
  destruct (copy_keys_ok bt (leaf_plain bt) from_node esf 0 (length esf) to_node est avg)
    as (to1 & k & -> & Hk & Hp1 & Hfr1); [done|done|lia|]. rewrite drop_0 in Hp1. runs.
  pose proof (entries_size_split bt esf k) as Hsplit. pose proof (lp_fit Hf) as Hfit.
  pose proof (entries_size_nonneg bt _ Hbt (Forall_take _ k _ (lp_entries Hf))).
  assert (take (length esf - k) (drop k esf) = drop k esf) as Hall by (apply take_ge; rewrite length_drop; lia).
  destruct (copy_keys_all bt from_node esf k (length esf - k) (btree_leaf_init from_node) [] Hbt Hso Hf)
    as (tmp & Hc2 & Hp2 & _); [by apply plain_init|lia|rewrite Hall; cbn; lia|].
  rewrite Hall in Hp2. cbn [length app] in Hc2, Hp2. rewrite Hc2. runs. cbn [fst snd].
  destruct (snoc_of (est ++ take k esf)) as (l & y & Hl); [by destruct est|].
  rewrite (last_key_ok bt to1 l y Hbt) by (by rewrite <- Hl). runs.
  assert (length (take k esf) = k) as Hlk by (rewrite length_take; lia).
  destruct (shift_left_back_ok bt est (take k esf) to1 tmp (drop k esf) y max_keylen)
    as (to2 & tmp2 & j & Hb & Hj & Hto & Htmp & Hfr2 & Hlast); try done.
  { by rewrite take_drop. }
  { unfold last_is. by rewrite Hl, last_snoc. }
  rewrite Hlk in Hj, Hb. rewrite Hb. rewrite take_take, Nat.min_l in Hto, Hlast by lia.
  assert (drop j (take k esf) ++ drop k esf = drop j esf) as Hrest.
  { rewrite <- (take_drop k esf) at 3. by rewrite drop_app_le by lia. }
  rewrite Hrest in Htmp. runs.
  assert (leaf_plain bt (set_area (set_headers from_node (headers tmp2)) (area tmp2)) (drop j esf)) as Hfrom.
  { destruct Htmp as [[? ?] ? ?]. split; [by split|done|done]. }
  case_decide as Hj0.
  - exists (set_area (set_headers from_node (headers tmp2)) (area tmp2)), to2, None, j.
    split_and?; try done. by etransitivity.
  - destruct Hlast as (e' & Hle & Hlk'); [lia|].
    destruct (snoc_of (est ++ take j esf)) as (l' & y' & Hl'); [by destruct est|].
    unfold last_is in Hle. rewrite Hl', last_snoc in Hle. injection Hle as ->.
    rewrite (last_key_ok bt to2 l' e' Hbt) by (by rewrite <- Hl'). runs.
    exists (set_area (set_headers from_node (headers tmp2)) (area tmp2)), to2, (Some (e_info e')), j.
    split_and?; try done; [by etransitivity|]. exists e'. split_and?; try done.
    unfold last_is. by rewrite Hl', last_snoc.
Qed.

Lemma leaf_shift_left_ok_witness :
  let p := page_of (full_cell <$> es_ab) in
  let q := page_of (full_cell <$> [entry_ab Byte.x30 1]) in
  exists from' to' r k, btree_leaf_shift_left (bt_8k true) p q 100 = Some (from', to', r) /\
    leaf_plain (bt_8k true) to' ([entry_ab Byte.x30 1] ++ take k es_ab) /\
    leaf_plain (bt_8k true) from' (drop k es_ab) /\ same_frame p from' /\ same_frame q to' /\
    match r with
    | None => k = 0%nat
    | Some ki => exists e, last_is ([entry_ab Byte.x30 1] ++ take k es_ab) e /\ ki = e_info e /\
                           ki_keylen ki <= 100
    end.
Proof.
  apply (leaf_shift_left_ok (bt_8k true) (page_of (full_cell <$> es_ab)) es_ab
           (page_of (full_cell <$> [entry_ab Byte.x30 1])) [entry_ab Byte.x30 1] 100).
  - apply bt_8k_ok.
  - reflexivity.
  - apply plain_ab.
  - split; [apply page_of_layout| |done]. constructor; [by apply entry_ab_ok|constructor].
  - done.
Defined.

(** balancing to the right (default mode) moves a trailing part of the
    source in front of the target; the source keeps at least its first entry,
    nothing is lost or reordered, and the reported new last key of the source
    is short enough for the parent. *)
Theorem leaf_shift_right_ok bt from_node esf to_node est max_keylen :
  bt_ok bt -> space_op_disabled bt = true ->
  leaf_plain bt from_node esf -> leaf_plain bt to_node est -> esf <> [] ->
  exists from' to' r k, btree_leaf_shift_right bt from_node to_node max_keylen = Some (from', to', r) /\
    (k < length esf)%nat /\
    leaf_plain bt from' (take (length esf - k) esf) /\ leaf_plain bt to' (drop (length esf - k) esf ++ est) /\
    same_frame from_node from' /\ same_frame to_node to' /\
    match r with
    | None => k = 0%nat
    | Some ki => exists e, last_is (take (length esf - k) esf) e /\ ki = e_info e /\ ki_keylen ki <= max_keylen
    end.
Proof.
  intros Hbt Hso Hf Ht Hne. pose proof (leaf_plain_pages bt Hbt Hso) as Hpg. unfold btree_leaf_shift_right.
  set (avg := (_ + _) / 2). destruct esf as [|x es]; [done|].
  rewrite (pg_count _ _ Hf). cbn [length Nat.sub]. rewrite Nat.sub_0_r.
  destruct (shift_right_loop_ok bt es x to_node from_node est avg Hbt Hso Hf Ht)
    as (f1 & t1 & k & -> & Hk & Hf1 & Ht1 & Hff1 & Htt1). runs.
  set (i := (length es - k)%nat) in *.
  destruct (snoc_of (x :: take i es)) as (l & y & Hl); [done|].
  rewrite (last_key_ok bt f1 l y Hbt) by (by rewrite <- Hl). runs.
  assert (length (drop i es) = k) as Hlk by (rewrite length_drop; unfold i; lia).
  destruct (shift_right_back_ok bt (x :: take i es) (drop i es) f1 t1 est y max_keylen)
    as (f2 & t2 & j & Hb & Hj & Hf2 & Ht2 & Hff2 & Htt2 & Hlast); try done.
  { cbn [app]. rewrite take_drop. apply (lp_fit Hf). }
  { unfold last_is. by rewrite Hl, last_snoc. }
  rewrite Hlk in *. rewrite Hb. assert (length es - j = i + (k - j))%nat as Hij by (unfold i; lia).
  assert ((x :: take i es) ++ take (k - j) (drop i es) = take (S (length es) - j) (x :: es)) as Htk.
  { replace (S (length es) - j)%nat with (S (length es - j)) by lia. rewrite Hij. cbn [take app]. f_equal.
    rewrite <- (take_drop i es) at 3. rewrite take_app_add'; [done|]. rewrite length_take; unfold i; lia. }
  assert (drop (k - j) (drop i es) = drop (S (length es) - j) (x :: es)) as Hdr.
  { replace (S (length es) - j)%nat with (S (length es - j)) by lia. rewrite Hij. cbn [drop].
    by rewrite drop_drop. }
  rewrite Htk in Hf2, Hlast. rewrite Hdr in Ht2. runs. case_decide as Hj0.
  - exists f2, t2, None, j. split_and?; try done; [lia|by etransitivity..].
  - destruct Hlast as (e' & Hle & Hlk'); [lia|].
    destruct (snoc_of (take (S (length es) - j) (x :: es))) as (l' & y' & Hl');
      [replace (S (length es) - j)%nat with (S (length es - j)) by lia; done|].
    pose proof Hle as Hle'. unfold last_is in Hle. rewrite Hl', last_snoc in Hle. injection Hle as ->.
    rewrite (last_key_ok bt f2 l' e' Hbt) by (by rewrite <- Hl'). runs.
    exists f2, t2, (Some (e_info e')), j. split_and?; try done; [lia|by etransitivity..|]. by exists e'.
Qed.

Lemma leaf_shift_right_ok_witness :
  let p := page_of (full_cell <$> es_ab) in
  let q := page_of (full_cell <$> [entry_ab Byte.x34 1]) in
  exists from' to' r k, btree_leaf_shift_right (bt_8k true) p q 100 = Some (from', to', r) /\
    (k < 3)%nat /\
    leaf_plain (bt_8k true) from' (take (3 - k) es_ab) /\
    leaf_plain (bt_8k true) to' (drop (3 - k) es_ab ++ [entry_ab Byte.x34 1]) /\
    same_frame p from' /\ same_frame q to' /\
    match r with
    | None => k = 0%nat
    | Some ki => exists e, last_is (take (3 - k) es_ab) e /\ ki = e_info e /\ ki_keylen ki <= 100
    end.
Proof.
  apply (leaf_shift_right_ok (bt_8k true) (page_of (full_cell <$> es_ab)) es_ab
           (page_of (full_cell <$> [entry_ab Byte.x34 1])) [entry_ab Byte.x34 1] 100).
  - apply bt_8k_ok.
  - reflexivity.
  - apply plain_ab.
  - split; [apply page_of_layout| |done]. constructor; [by apply entry_ab_ok|constructor].
  - done.
Defined.

(** ** Packed metadata *)

(** the packed formats lose nothing: whatever format the encoder chooses for
    metadata that is not compact and whose fields are in range (no overflow
    pointer for entries with short keys and data), reading the bytes back at
    their offset gives the same lengths, prefix, pointer and sequence number. *)
Theorem key_meta_roundtrip n pre post km i :
  compact_meta km = false ->
  0 <= keylen km < 2 ^ 32 -> 0 <= datalen km < 2 ^ 64 -> 0 <= prefix_idx km < 2 ^ 16 ->
  0 <= prefix_len km <= keylen km -> 0 <= ptr km < 2 ^ 64 -> 0 <= seqno km < 2 ^ 64 ->
  (keylen km < MAX_UINT8_T -> datalen km < MAX_UINT8_T -> ptr km = 0) ->
  area n = pre ++ (key_meta_to_key_metax km).2 ++ post ->
  exists km', key_metax_to_key_meta n (length pre) (key_meta_to_key_metax km).1 i = Some km' /\
    keylen km' = keylen km /\ datalen km' = datalen km /\ prefix_idx km' = prefix_idx km /\
    prefix_len km' = prefix_len km /\ ptr km' = ptr km /\ seqno km' = seqno km.
Proof.
  intros Hc Hk Hd Hi Hl Hp Hs Hsmall Ha. unfold key_metax_to_key_meta, key_meta_to_key_metax in *.
  cbn [fst snd] in *. rewrite Ha.
  assert (meta_fits (get_key_meta_type km) km) as Hfit.
  { unfold meta_fits, get_key_meta_type, MAX_UINT8_T, MAX_UINT16_T in *. rewrite Hc.
    repeat case_if; b2p; split_and?; try lia; apply Hsmall; lia. }
  unfold get_key_meta_type in *. rewrite Hc in *.
  repeat case_if; [rewrite key_meta2_decode by done|rewrite key_meta3_decode by done|
    rewrite key_meta4_decode by done]; runs; eexists; (split; [done|]); done.
Qed.

Lemma key_meta_roundtrip_witness :
  let km := mk_key_meta 300 70000 3 12 99 5 false BTREE_KEY_META_NONE false in
  let n := mk_btree_raw_node LEAF_NODE 0 1 0 0 [] ([Byte.x00] ++ (key_meta_to_key_metax km).2 ++ []) in
  exists km', key_metax_to_key_meta n 1 (key_meta_to_key_metax km).1 0 = Some km' /\
    keylen km' = 300 /\ datalen km' = 70000 /\ prefix_idx km' = 3 /\ prefix_len km' = 12 /\
    ptr km' = 99 /\ seqno km' = 5.
Proof.
  apply (key_meta_roundtrip (mk_btree_raw_node LEAF_NODE 0 1 0 0 [] ([Byte.x00] ++
           (key_meta_to_key_metax (mk_key_meta 300 70000 3 12 99 5 false BTREE_KEY_META_NONE false)).2 ++ []))
           [Byte.x00] []); 
    try (unfold MAX_UINT8_T; cbn; lia); reflexivity.
Defined.

(** ** Where the code falls short *)

(** the in-leaf part of a big object can exceed the page. With the default
    sizes of a node of 8100 bytes, a key longer than [big_object_size] (keys up
    to [max_key_size] are accepted) makes the unsigned subtraction
    [big_object_size - keylen] wrap, and the whole residue of the data is kept
    in the leaf: key and data together are larger than any leaf. *)
Theorem bigobj_inleaf_overflow :
  let bt := mk_btree_raw (init_nodesize_less_hdr 8100 / 4 - 28) 8100 (init_nodesize_less_hdr 8100)
              (init_big_object_size 8100) false 0 true 10 default_cmp_cb in
  exists kl dl, kl < max_key_size bt /\ big_object_size bt < kl /\
    nodesize_less_hdr bt < kl + btree_get_bigobj_inleaf bt kl dl.
Proof. exists 1962, 15927. vm_compute. done. Qed.

(** Parameters of a small node with prefix sharing. *)
Definition bt_shared : btree_raw :=
  mk_btree_raw 538 2400 (init_nodesize_less_hdr 2400) (init_big_object_size 2400) false 0
    false 10 default_cmp_cb.

Lemma bt_shared_ok : bt_ok bt_shared.
Proof. by split. Qed.

(** Keys of 22 bytes that share twelve bytes, with their data length: a small
    first entry and entries of 255 bytes of data that share ever less with
    their predecessor. *)
Definition grow_key (suffix : list Z) : list byte :=
  replicate 12 Byte.x61 ++ (byte.of_Z <$> suffix) ++ replicate (10 - length suffix) Byte.x00.

Definition grow_objs : list (list byte * nat) :=
  (grow_key [], 0%nat) ::
  ((fun s => (grow_key s, 255%nat)) <$>
   [[1;1;1;1;1;1]; [1;1;1;1;1;2]; [1;1;1;1;2]; [1;1;1;2]; [1;1;2]; [1;2]; [2]; [3]]).

(** Append objects, each admitted by the space check. *)
Fixpoint append_all (bt : btree_raw) (n : btree_raw_node) (objs : list (list byte * nat))
    : option btree_raw_node :=
  match objs with
  | [] => Some n
  | (k, d) :: objs =>
      full ← btree_leaf_is_full_index bt n k (n2z d) false false (length (headers n));
      if (full : bool) then None
      else
        r ← btree_leaf_insert_key_index bt n k (replicate d Byte.x00) (n2z d)
              (mk_key_info 0 k (lenZ k) (n2z d) 0 false) (length (headers n)) false;
        append_all bt r.1 objs
  end.

(** with prefix sharing a removal can outgrow the page. Every object is
    inserted under the space check of the code; removing the first one, whose
    short common prefix had kept the others compact, makes the rewritten
    entries larger than before, and the result does not fit the node. *)
Theorem remove_can_outgrow_page :
  exists n, append_all bt_shared (page_of []) grow_objs = Some n /\
    btree_leaf_used_space bt_shared n <= nodesize_less_hdr bt_shared /\
    (exists b, btree_leaf_remove_key_index_int bt_shared n 0 true = Some (n, b) /\ b < 0) /\
    btree_leaf_remove_key_index bt_shared n 0 = None.
Proof.
  destruct (append_all bt_shared (page_of []) grow_objs) as [n|] eqn:E; [|by vm_compute in E].
  vm_compute in E. injection E as <-. eexists. split; [reflexivity|].
  split; [by vm_compute|]. split; [|by vm_compute].
  eexists. split; [by vm_compute|done].
Qed.
