(* ===== verification/NodeSearchSpec.v ===== *)
(** * Correctness of the node search

    On a node whose keys are sorted (equal keys by descending sequence
    number), the search finds the position that separates the versions before
    the requested one from the others, whatever the entry point of the binary
    search into a run of equal keys. *)

From S2P Require Import Prelude LeafMeta LeafNode LeafOps NodeSearch.

(** ** Comparison callbacks *)

(** A comparison callback is a total preorder. *)
Class CmpOk (cmp : list byte -> list byte -> Z) : Prop := {
  cmp_antisym a b : Z.sgn (cmp a b) = - Z.sgn (cmp b a);
  cmp_trans a b c : cmp a b <= 0 -> cmp b c <= 0 -> cmp a c <= 0
}.

Section cmp.
Context (cmp : list byte -> list byte -> Z) `{!CmpOk cmp}.

Lemma cmp_refl a : cmp a a = 0.
Proof using Type*. pose proof (cmp_antisym a a). lia. Qed.

Lemma cmp_lt_trans a b c : cmp a b <= 0 -> cmp b c < 0 -> cmp a c < 0.
Proof using Type*.
  intros Hab Hbc. pose proof (cmp_antisym b c). pose proof (cmp_antisym a c).
  destruct (Z_lt_ge_dec (cmp a c) 0) as [|Hac]; [done|].
  assert (cmp c b <= 0) by (apply (cmp_trans c a b); lia). lia.
Qed.

Lemma cmp_lt_trans' a b c : cmp a b < 0 -> cmp b c <= 0 -> cmp a c < 0.
Proof using Type*.
  intros Hab Hbc. pose proof (cmp_antisym a b). pose proof (cmp_antisym a c).
  destruct (Z_lt_ge_dec (cmp a c) 0) as [|Hac]; [done|].
  assert (cmp b a <= 0) by (apply (cmp_trans b c a); lia). lia.
Qed.
End cmp.

Lemma memcmp_antisym a b : memcmp a b = - memcmp b a.
Proof.
  revert b; induction a as [|x a IH]; intros [|y b]; cbn; try done.
  rewrite (Z.eqb_sym (byte.unsigned y)). case_if; [apply IH|lia].
Qed.

Lemma memcmp_trans a b c :
  length a = length b -> length b = length c -> memcmp a b <= 0 -> memcmp b c <= 0 -> memcmp a c <= 0.
Proof.
  revert b c; induction a as [|x a IH]; intros [|y b] [|z c]; cbn; try done.
  intros [= Hab] [= Hbc]. specialize (IH b c Hab Hbc).
  repeat match goal with |- context [?u =? ?v] => destruct (Z.eqb_spec u v) end; lia.
Qed.

(** The default callback compares lengths first, then bytes. *)
#[export] Instance default_cmp_ok : CmpOk default_cmp_cb.
Proof.
  split.
  - intros a b. unfold default_cmp_cb. pose proof (memcmp_antisym a b).
    destruct (Z.ltb_spec (lenZ a) (lenZ b)), (Z.ltb_spec (lenZ b) (lenZ a)); lia.
  - intros a b c. unfold default_cmp_cb. pose proof (memcmp_trans a b c).
    repeat case_if; b2p; try lia.
Qed.

(** ** Versions and positions *)

(** A key and its sequence number. *)
Abbreviation version := (list byte * Z)%type.

Section spec.
Context {node : Type} `{!NodeView node} (cmp : list byte -> list byte -> Z) `{!CmpOk cmp}.

(** The order of a node: by key, newest version first. *)
Definition ordered (v w : version) : Prop :=
  cmp v.1 w.1 < 0 \/ (cmp v.1 w.1 = 0 /\ w.2 < v.2).

Definition node_sorted (kl : list version) : Prop :=
  forall i j v w, (i < j)%nat -> kl !! i = Some v -> kl !! j = Some w -> ordered v w.

(** Inserting where the order allows keeps a node sorted. *)
Lemma node_sorted_insert kl i x :
  node_sorted kl -> (i <= length kl)%nat ->
  (forall j v, kl !! j = Some v -> if decide (j < i)%nat then ordered v x else ordered x v) ->
  node_sorted (take i kl ++ x :: drop i kl).
Proof using Type.
  intros Hs Hi Hcut.
  assert (length (take i kl) = i) as Hli by (rewrite length_take; lia).
  assert (forall a v, (take i kl ++ x :: drop i kl) !! a = Some v ->
    (a < i)%nat /\ kl !! a = Some v \/ a = i /\ v = x \/ (i < a)%nat /\ kl !! (a - 1)%nat = Some v) as Hat.
  { intros a v Ha. destruct (decide (a < i)%nat).
    - left. by rewrite lookup_app_l, lookup_take_lt in Ha by lia.
    - right. rewrite lookup_app_r, Hli in Ha by lia. destruct (decide (a = i)) as [->|].
      + left. rewrite Nat.sub_diag in Ha. by injection Ha as <-.
      + right. rewrite lookup_cons_ne_0, lookup_drop in Ha by lia.
        replace (i + Nat.pred (a - i))%nat with (a - 1)%nat in Ha by lia. split; [lia|done]. }
  intros a b v w Hab Ha Hb.
  destruct (Hat a v Ha) as [[? Ha']|[[-> ->]|[? Ha']]], (Hat b w Hb) as [[? Hb']|[[-> ->]|[? Hb']]]; try lia.
  - by apply (Hs a b).
  - specialize (Hcut a v Ha'). by rewrite decide_True in Hcut by lia.
  - apply (Hs a (b - 1)%nat); [lia|done|done].
  - specialize (Hcut _ w Hb'). by rewrite decide_False in Hcut by lia.
  - apply (Hs (a - 1)%nat (b - 1)%nat); [lia|done|done].
Qed.

(** The node shows the versions [kl]. *)
Definition shows (n : node) (kl : list version) : Prop :=
  nv_nkeys n = lenZ kl /\
  forall i v, kl !! i = Some v ->
    exists ks, get_key_stuff_info2 n (n2z i) = Some ks /\ ks_key ks = v.1 /\ ks_seqno ks = v.2.

(** The sequence numbers a request asks for, from [oldest] to [newest], both
    included: one number, all up to that of a snapshot, all after one snapshot
    and up to another, or all. *)
Definition oldest (m : option btree_metadata) : option Z :=
  match m with
  | Some m => if READ_SEQNO_EQ m then Some (m_seqno m) else if READ_SEQNO_LE m then None
              else if READ_SEQNO_GT_LE m then Some (start_seqno m + 1) else None
  | None => None
  end.
Definition newest (m : option btree_metadata) : option Z :=
  match m with
  | Some m => if READ_SEQNO_EQ m then Some (m_seqno m) else if READ_SEQNO_LE m || READ_SEQNO_GT_LE m then Some (end_seqno m) else None
  | None => None
  end.

(** Where a version of the requested key stands: newer versions come first. *)
Definition age (m : option btree_metadata) (s : Z) : comparison :=
  if match oldest m with Some lo => s <? lo | None => false end then Gt
  else if match newest m with Some hi => hi <? s | None => false end then Lt
  else Eq.

(** Where a version stands relative to the request: before it, part of it,
    or after it. *)
Definition side (key : list byte) (m : option btree_metadata) (v : version) : comparison :=
  if cmp key v.1 =? 0 then age m v.2 else if cmp key v.1 <? 0 then Gt else Lt.

(** [seqno_cmp_range] finds this out. *)
Lemma age_code m s : age m s = let '(x, e, r) := seqno_cmp_range m s in if (e : bool) || r then Eq else if 0 <? x then Lt else Gt.
Proof using Type.
  unfold age, seqno_cmp_range, oldest, newest. destruct m as [m|]; [|done].
  destruct (READ_SEQNO_EQ m), (READ_SEQNO_LE m), (READ_SEQNO_GT_LE m); cbn;
    repeat (match goal with
            | |- context [Z.ltb ?a ?b] => destruct (Z.ltb_spec a b)
            | |- context [Z.leb ?a ?b] => destruct (Z.leb_spec a b)
            | |- context [Z.eqb ?a ?b] => destruct (Z.eqb_spec a b)
            end; cbn); done || lia.
Qed.

Lemma side_code key m v : side key m v =
  if cmp key v.1 =? 0 then let '(x, e, r) := seqno_cmp_range m v.2 in if (e : bool) || r then Eq else if 0 <? x then Lt else Gt
  else if cmp key v.1 <? 0 then Gt else Lt.
Proof using Type. unfold side. by rewrite age_code. Qed.

(** [i] separates the versions before the request from the others. *)
Definition splits (kl : list version) (key : list byte) (m : option btree_metadata) (i : nat) : Prop :=
  (i <= length kl)%nat /\ forall j v, kl !! j = Some v -> (j < i)%nat <-> side key m v = Lt.

Definition hit (kl : list version) (key : list byte) (m : option btree_metadata) (i : nat) : bool :=
  match kl !! i with
  | Some v => match side key m v with Eq => true | _ => false end
  | None => false
  end.

Lemma seqno_cmp_range_cases m s x e r :
  seqno_cmp_range m s = (x, e, r) ->
  (e = true /\ r = false /\ x = 0) \/ (e = false /\ r = true /\ x = 0) \/
  (e = false /\ r = false /\ x = 1) \/ (e = false /\ r = false /\ x = -1).
Proof using Type. unfold seqno_cmp_range. repeat case_match; intros [= <- <- <-]; tauto. Qed.

(** The conditions select an interval of sequence numbers. *)
Lemma seqno_range_mono m s s' x e r x' e' r' :
  seqno_cmp_range m s = (x, e, r) -> seqno_cmp_range m s' = (x', e', r') -> s' < s ->
  x' <= x /\ (e = true -> x' = -1) /\ (e' = true -> x = 1).
Proof using Type.
  unfold seqno_cmp_range. intros H H' Hlt.
  repeat case_match; simplify_eq; b2p; split_and?; try done; try lia.
Qed.

Context (kl : list version) (Hsorted : node_sorted kl) (key : list byte) (m : option btree_metadata).
Abbreviation sd := (side key m).

Lemma side_mono v w : ordered v w -> (sd w = Lt -> sd v = Lt) /\ (sd v = Gt -> sd w = Gt).
Proof using CmpOk0.
  rewrite !side_code; unfold ordered. intros Ho.
  pose proof (cmp_antisym key v.1). pose proof (cmp_antisym key w.1). pose proof (cmp_antisym v.1 w.1).
  destruct (Z.eqb_spec (cmp key w.1) 0) as [Hw|Hw], (Z.eqb_spec (cmp key v.1) 0) as [Hv|Hv].
  - destruct Ho as [Ho|[_ Hs]].
    { pose proof (cmp_lt_trans cmp key v.1 w.1 ltac:(lia) Ho). lia. }
    destruct (seqno_cmp_range m w.2) as [[x' e'] r'] eqn:E', (seqno_cmp_range m v.2) as [[x e] r] eqn:E.
    destruct (seqno_range_mono _ _ _ _ _ _ _ _ _ E E' Hs) as (Hx & _ & He).
    destruct (seqno_cmp_range_cases _ _ _ _ _ E) as [(-> & -> & ->)|[(-> & -> & ->)|[(-> & -> & ->)|(-> & -> & ->)]]],
      (seqno_cmp_range_cases _ _ _ _ _ E') as [(-> & -> & ->)|[(-> & -> & ->)|[(-> & -> & ->)|(-> & -> & ->)]]];
      cbn; split; intros; try done; lia.
  - destruct (Z.ltb_spec (cmp key v.1) 0); [|split; [done|done]].
    assert (cmp v.1 w.1 <= 0) by (destruct Ho; lia).
    pose proof (cmp_lt_trans' cmp key v.1 w.1 ltac:(lia) ltac:(lia)). lia.
  - destruct (Z.ltb_spec (cmp key w.1) 0); [split; [done|done]|].
    assert (cmp v.1 w.1 <= 0) by (destruct Ho; lia).
    assert (cmp w.1 key < 0) as Hwk by lia. pose proof (cmp_lt_trans cmp v.1 w.1 key ltac:(lia) Hwk). lia.
  - assert (cmp v.1 w.1 <= 0) as Hvw by (destruct Ho; lia).
    assert (cmp key v.1 < 0 -> cmp key w.1 < 0) by (intros; by apply (cmp_lt_trans' cmp key v.1 w.1)).
    destruct (Z.ltb_spec (cmp key w.1) 0), (Z.ltb_spec (cmp key v.1) 0); split; intros; done || lia.
Qed.

(** From the two versions around [i] to the whole node. *)
Lemma splits_intro i :
  (i <= length kl)%nat ->
  (forall v, (0 < i)%nat -> kl !! (i - 1)%nat = Some v -> sd v = Lt) ->
  (forall v, kl !! i = Some v -> sd v <> Lt) -> splits kl key m i.
Proof using CmpOk0 Hsorted.
  intros Hi Hl Hr. split; [done|]. intros j v Hj. split.
  - intros Hlt. destruct (decide (j = i - 1)%nat) as [->|Hne]; [by apply Hl; [lia|]|].
    destruct (lookup_lt_is_Some_2 kl (i - 1)) as [w Hw]; [lia|].
    apply (side_mono v w); [|by apply Hl; [lia|]]. apply (Hsorted j (i - 1)%nat); [lia|done|done].
  - intros Hs. destruct (decide (j < i)%nat); [done|]. exfalso.
    destruct (decide (j = i)) as [->|Hne]; [by apply (Hr v)|].
    destruct (lookup_lt_is_Some_2 kl i) as [w Hw]; [apply lookup_lt_Some in Hj; lia|].
    apply (Hr w Hw). apply (side_mono w v); [|done]. apply (Hsorted i j); [lia|done|done].
Qed.

(** The side of a version whose key is the requested one. *)
Lemma side_eq v x e r :
  cmp key v.1 = 0 -> seqno_cmp_range m v.2 = (x, e, r) ->
  sd v = if e || r then Eq else if 0 <? x then Lt else Gt.
Proof using Type. intros Hc E. rewrite ?side_code. by rewrite Hc, E. Qed.

Lemma side_other v w :
  ordered v w -> cmp key w.1 = 0 -> cmp key v.1 <> 0 -> sd v = Lt.
Proof using CmpOk0.
  intros Ho Hw Hv. rewrite ?side_code. rewrite (proj2 (Z.eqb_neq _ _) Hv).
  destruct (Z.ltb_spec (cmp key v.1) 0); [|done].
  assert (cmp v.1 w.1 <= 0) as Hvw by (unfold ordered in Ho; lia).
  pose proof (cmp_lt_trans' cmp key v.1 w.1 ltac:(lia) Hvw). lia.
Qed.

Lemma side_other' v w :
  ordered v w -> cmp key v.1 = 0 -> cmp key w.1 <> 0 -> sd w = Gt.
Proof using CmpOk0.
  intros Ho Hv Hw. rewrite ?side_code. rewrite (proj2 (Z.eqb_neq _ _) Hw).
  destruct (Z.ltb_spec (cmp key w.1) 0); [done|].
  assert (cmp v.1 w.1 <= 0) as Hvw by (unfold ordered in Ho; lia).
  pose proof (cmp_antisym key v.1). pose proof (cmp_antisym key w.1).
  assert (cmp key w.1 <= 0) by (apply (cmp_trans key v.1 w.1); [lia|done]). lia.
Qed.

(** An exact match has no other match before it. *)
Lemma exact_first v w x r :
  ordered v w -> cmp key w.1 = 0 -> seqno_cmp_range m w.2 = (x, true, r) -> sd v = Lt.
Proof using CmpOk0.
  intros Ho Hw E. destruct (Z.eq_dec (cmp key v.1) 0) as [Hv|Hv]; [|by eapply side_other].
  destruct (seqno_cmp_range m v.2) as [[x' e'] r'] eqn:E'.
  destruct Ho as [Ho|[_ Hs]].
  { pose proof (cmp_lt_trans cmp key v.1 w.1 ltac:(lia) Ho). lia. }
  destruct (seqno_range_mono _ _ _ _ _ _ _ _ _ E' E Hs) as (_ & _ & Hx). specialize (Hx eq_refl).
  rewrite (side_eq v x' e' r') by done.
  destruct (seqno_cmp_range_cases _ _ _ _ _ E') as [(-> & -> & ->)|[(-> & -> & ->)|[(-> & -> & ->)|(-> & -> & ->)]]]; done.
Qed.

Context (n : node) (Hshow : shows n kl).

(** The result of a search. *)
Definition located (r : option (Z * bool)) : Prop :=
  exists i, r = Some (n2z i, hit kl key m i) /\ splits kl key m i.

Lemma located_exact i v x r :
  kl !! i = Some v -> cmp key v.1 = 0 -> seqno_cmp_range m v.2 = (x, true, r) ->
  located (Some (n2z i, true)).
Proof using CmpOk0 Hsorted.
  intros Hi Hc E. exists i. split.
  - unfold hit. by rewrite Hi, (side_eq v x true r).
  - apply splits_intro; [by apply lookup_lt_Some in Hi; lia| |].
    + intros w Hpos Hw. eapply (exact_first w v); [|done|done]. apply (Hsorted (i - 1)%nat i); [lia|done|done].
    + intros w Hw. rewrite Hi in Hw. injection Hw as <-. by rewrite (side_eq v x true r).
Qed.

(** One step to the left from [i], which is not before the request. *)
Lemma latest_left_next fuel i v found :
  (forall i ks v w found,
    (i < fuel)%nat -> kl !! i = Some v -> ks_key ks = v.1 -> ks_seqno ks = v.2 -> cmp key v.1 = 0 ->
    kl !! S i = Some w -> sd w <> Lt -> found = hit kl key m (S i) ->
    located (get_latest_seqno_loop cmp fuel n key ks m (n2z i) (n2z (S i)) DIR_LEFT found)) ->
  (i <= fuel)%nat -> kl !! i = Some v -> cmp key v.1 = 0 -> sd v <> Lt -> found = hit kl key m i ->
  located (if (n2z i - 1 <? 0) || (nv_nkeys n <=? n2z i - 1) then Some (n2z i, found)
           else
             ks ← get_key_stuff_info2 n (n2z i - 1);
             if cmp key (ks_key ks) =? 0
             then get_latest_seqno_loop cmp fuel n key ks m (n2z i - 1) (n2z i) DIR_LEFT found
             else Some (n2z i, found)).
Proof using CmpOk0 Hsorted Hshow.
  intros IH Hfuel Hi Hc Hnl ->. pose proof (lookup_lt_Some _ _ _ Hi) as Hlt.
  assert ((forall v', (0 < i)%nat -> kl !! (i - 1)%nat = Some v' -> sd v' = Lt) ->
          located (Some (n2z i, hit kl key m i))) as Hstop.
  { intros Hl. exists i. split; [done|]. apply splits_intro; [lia|done|]. intros u Hu. congruence. }
  destruct i as [|i]; [apply Hstop; lia|].
  destruct Hshow as [Hnk Hget]. rewrite Hnk.
  rewrite (proj2 (Z.ltb_ge _ 0)), (proj2 (Z.leb_gt _ _)) by lia. cbn [orb].
  replace (n2z (S i) - 1) with (n2z i) by lia.
  destruct (lookup_lt_is_Some_2 kl i) as [u Hu]; [lia|].
  destruct (Hget i u Hu) as (ks & -> & Hk & Hs). runs. rewrite Hk.
  destruct (Z.eqb_spec (cmp key u.1) 0) as [H0|H0].
  - by eapply (IH i ks u v).
  - apply Hstop. intros v' _ Hv'. replace (S i - 1)%nat with i in Hv' by lia.
    rewrite Hu in Hv'. injection Hv' as <-. eapply (side_other u v); [|done|done].
    apply (Hsorted i (S i)); [lia|done|done].
Qed.

(** Walking to the left: everything from [i + 1] on is not before the
    request. *)
Lemma latest_left fuel i ks v w found :
  (i < fuel)%nat -> kl !! i = Some v -> ks_key ks = v.1 -> ks_seqno ks = v.2 -> cmp key v.1 = 0 ->
  kl !! S i = Some w -> sd w <> Lt -> found = hit kl key m (S i) ->
  located (get_latest_seqno_loop cmp fuel n key ks m (n2z i) (n2z (S i)) DIR_LEFT found).
Proof using CmpOk0 Hsorted Hshow.
  revert i ks v w found; induction fuel as [|fuel IH];
    intros i ks v w found Hfuel Hi Hk Hs Hc Hw Hwl ->; [lia|].
  cbn [get_latest_seqno_loop]. rewrite Hs. destruct (seqno_cmp_range m v.2) as [[x e] r] eqn:E.
  pose proof (side_eq v x e r Hc E) as Hsd.
  destruct (seqno_cmp_range_cases _ _ _ _ _ E) as [(-> & -> & ->)|[(-> & -> & ->)|[(-> & -> & ->)|(-> & -> & ->)]]];
    cbn [orb Z.ltb Z.compare] in Hsd |- *.
  - by eapply located_exact.
  - rewrite decide_False by done. runs. apply (latest_left_next fuel i v _ IH); try done; [lia|congruence|].
    unfold hit. by rewrite Hi, Hsd.
  - rewrite decide_True by done. runs. exists (S i). split; [done|].
    apply splits_intro; [by apply lookup_lt_Some in Hw; lia| |].
    + intros u _ Hu. replace (S i - 1)%nat with i in Hu by lia. congruence.
    + intros u Hu. congruence.
  - rewrite decide_False by done. runs.
    assert (sd w = Gt) as Hwg.
    { apply (side_mono v w); [|done]. apply (Hsorted i (S i)); [lia|done|done]. }
    apply (latest_left_next fuel i v _ IH); try done; [lia|congruence|].
    unfold hit. by rewrite Hi, Hsd, Hw, Hwg.
Qed.

(** One step to the right from [i], which is before the request. *)
Lemma latest_right_next fuel i v :
  (forall i ks v, (length kl <= i + fuel)%nat -> kl !! i = Some v -> ks_key ks = v.1 -> ks_seqno ks = v.2 ->
    cmp key v.1 = 0 -> (forall u, (0 < i)%nat -> kl !! (i - 1)%nat = Some u -> sd u = Lt) ->
    located (get_latest_seqno_loop cmp fuel n key ks m (n2z i) (n2z i) DIR_RIGHT false)) ->
  (length kl <= S i + fuel)%nat -> kl !! i = Some v -> cmp key v.1 = 0 -> sd v = Lt ->
  located (if (n2z i + 1 <? 0) || (nv_nkeys n <=? n2z i + 1) then Some (n2z i + 1, false)
           else
             ks ← get_key_stuff_info2 n (n2z i + 1);
             if cmp key (ks_key ks) =? 0
             then get_latest_seqno_loop cmp fuel n key ks m (n2z i + 1) (n2z i + 1) DIR_RIGHT false
             else Some (n2z i + 1, false)).
Proof using CmpOk0 Hsorted Hshow.
  intros IH Hfuel Hi Hc Hlt'. pose proof (lookup_lt_Some _ _ _ Hi) as Hlt.
  destruct Hshow as [Hnk Hget]. rewrite Hnk.
  replace (n2z i + 1) with (n2z (S i)) by lia. rewrite (proj2 (Z.ltb_ge _ 0)) by lia. cbn [orb].
  assert (forall u, (0 < S i)%nat -> kl !! (S i - 1)%nat = Some u -> sd u = Lt) as Hl.
  { intros u _ Hu. replace (S i - 1)%nat with i in Hu by lia. congruence. }
  destruct (Z.leb_spec (lenZ kl) (n2z (S i))) as [Hend|Hmore].
  - exists (S i). assert (kl !! S i = None) as Hnone by (apply lookup_ge_None; lia).
    split; [unfold hit; by rewrite Hnone|]. apply splits_intro; [lia|done|]. intros u Hu. congruence.
  - destruct (lookup_lt_is_Some_2 kl (S i)) as [u Hu]; [lia|].
    destruct (Hget _ _ Hu) as (ks & -> & Hk & Hs). runs. rewrite Hk.
    destruct (Z.eqb_spec (cmp key u.1) 0) as [H0|H0]; [eapply (IH (S i) ks u); done || lia|].
    assert (sd u = Gt) as Hug by (eapply (side_other' v u); [|done|done]; apply (Hsorted i (S i)); [lia|done|done]).
    exists (S i). split; [unfold hit; by rewrite Hu, Hug|].
    apply splits_intro; [lia|done|]. intros u' Hu'. congruence.
Qed.

(** Walking to the right: everything before [i] is before the request. *)
Lemma latest_right fuel i ks v :
  (length kl <= i + fuel)%nat -> kl !! i = Some v -> ks_key ks = v.1 -> ks_seqno ks = v.2 ->
  cmp key v.1 = 0 -> (forall u, (0 < i)%nat -> kl !! (i - 1)%nat = Some u -> sd u = Lt) ->
  located (get_latest_seqno_loop cmp fuel n key ks m (n2z i) (n2z i) DIR_RIGHT false).
Proof using CmpOk0 Hsorted Hshow.
  revert i ks v; induction fuel as [|fuel IH]; intros i ks v Hfuel Hi Hk Hs Hc Hl;
    pose proof (lookup_lt_Some _ _ _ Hi) as Hlt; [lia|].
  cbn [get_latest_seqno_loop]. rewrite Hs. destruct (seqno_cmp_range m v.2) as [[x e] r] eqn:E.
  pose proof (side_eq v x e r Hc E) as Hsd.
  assert (sd v <> Lt -> located (Some (n2z i, hit kl key m i))) as Hstop.
  { intros Hnl. exists i. split; [done|]. apply splits_intro; [lia|done|]. intros u Hu. congruence. }
  unfold hit in Hstop. rewrite Hi in Hstop.
  destruct (seqno_cmp_range_cases _ _ _ _ _ E) as [(-> & -> & ->)|[(-> & -> & ->)|[(-> & -> & ->)|(-> & -> & ->)]]];
    cbn [orb Z.ltb Z.compare] in Hsd |- *; rewrite Hsd in Hstop.
  - by eapply located_exact.
  - rewrite decide_True by done. runs. by apply Hstop.
  - rewrite decide_False by done. runs. apply (latest_right_next fuel i v IH); try done. lia.
  - rewrite decide_True by done. runs. by apply Hstop.
Qed.

Lemma get_latest_seqno_ok i ks v :
  kl !! i = Some v -> ks_key ks = v.1 -> ks_seqno ks = v.2 -> cmp key v.1 = 0 ->
  located (get_latest_seqno cmp n key ks m (n2z i)).
Proof using CmpOk0 Hsorted Hshow.
  intros Hi Hk Hs Hc. pose proof (lookup_lt_Some _ _ _ Hi) as Hlt. unfold get_latest_seqno.
  rewrite (proj1 Hshow), Nat2Z.id. cbn [get_latest_seqno_loop].
  rewrite Hs. destruct (seqno_cmp_range m v.2) as [[x e] r] eqn:E.
  pose proof (side_eq v x e r Hc E) as Hsd.
  destruct (seqno_cmp_range_cases _ _ _ _ _ E) as [(-> & -> & ->)|[(-> & -> & ->)|[(-> & -> & ->)|(-> & -> & ->)]]];
    cbn [orb Z.ltb Z.compare] in Hsd |- *.
  - by eapply located_exact.
  - rewrite decide_False by done. runs.
    eapply latest_left_next; [intros; by eapply latest_left|lia|done|done|congruence|].
    unfold hit. by rewrite Hi, Hsd.
  - rewrite decide_False by done. runs. apply (latest_right_next (length kl) i v); try done; [|lia].
    intros. by eapply latest_right.
  - rewrite decide_False by done. runs.
    eapply latest_left_next; [intros; by eapply latest_left|lia|done|done|congruence|].
    unfold hit. by rewrite Hi, Hsd.
Qed.

(** ** The binary search *)

(** The invariant of the search interval: the keys up to [lo] are smaller
    than the requested key, those from [hi] on are greater. *)
Definition bracket (lo hi : Z) : Prop :=
  -1 <= lo < hi /\ hi <= lenZ kl /\
  forall j v, kl !! j = Some v -> (n2z j <= lo -> 0 < cmp key v.1) /\ (hi <= n2z j -> cmp key v.1 < 0).

Lemma bracket_done lo hi :
  bracket lo hi -> hi - lo <= 1 ->
  forall j v, kl !! j = Some v -> (n2z j < hi -> 0 < cmp key v.1) /\ (hi <= n2z j -> cmp key v.1 < 0).
Proof using Type.
  intros (Hb & _ & Hs) Hd j v Hj. destruct (Hs j v Hj) as [H1 H2]. split; [intros; apply H1; lia|done].
Qed.

Lemma bracket_shrink lo hi i v :
  bracket lo hi -> kl !! i = Some v -> lo < n2z i < hi -> cmp key v.1 <> 0 ->
  if cmp key v.1 <? 0 then bracket lo (n2z i) else bracket (n2z i) hi.
Proof using CmpOk0 Hsorted.
  intros (Hb & Hl & Hs) Hi Hr Hne.
  assert (forall j u, (j < i)%nat -> kl !! j = Some u -> cmp u.1 v.1 <= 0) as Hlo.
  { intros j u Hj Hu. destruct (Hsorted j i u v Hj Hu Hi); lia. }
  assert (forall j u, (i < j)%nat -> kl !! j = Some u -> cmp v.1 u.1 <= 0) as Hhi.
  { intros j u Hj Hu. destruct (Hsorted i j v u Hj Hi Hu); lia. }
  pose proof (cmp_antisym key v.1) as Has.
  destruct (Z.ltb_spec (cmp key v.1) 0).
  - split; [lia|]. split; [apply lookup_lt_Some in Hi; lia|]. intros j u Hu.
    destruct (Hs j u Hu) as [H1 _]. split; [done|]. intros Hj.
    destruct (decide (j = i)) as [->|]; [congruence|].
    apply (cmp_lt_trans' cmp key v.1 u.1); [lia|]. apply (Hhi j); [lia|done].
  - split; [lia|]. split; [done|]. intros j u Hu. destruct (Hs j u Hu) as [_ H2]. split; [|done]. intros Hj.
    pose proof (cmp_antisym key u.1).
    assert (cmp u.1 key < 0); [|lia].
    destruct (decide (j = i)) as [->|]; [replace u with v by congruence; lia|].
    apply (cmp_lt_trans cmp u.1 v.1 key); [apply (Hlo j); [lia|done]|lia].
Qed.

(** The search ends in a bracket without the key or at a version of it. *)
Lemma bsearch_loop_ok fuel lo hi flags :
  hi - lo < n2z fuel -> bracket lo hi ->
  (exists lo' hi', bsearch_loop cmp fuel n key m lo hi flags = Some (hi', false) /\
     bracket lo' hi' /\ hi' - lo' <= 1) \/
  exists i v ks, kl !! i = Some v /\ cmp key v.1 = 0 /\ ks_key ks = v.1 /\ ks_seqno ks = v.2 /\
    bsearch_loop cmp fuel n key m lo hi flags =
    match flags with
    | BSF_MATCH => Some (n2z i, true)
    | BSF_NEXT => j ← next_keyset cmp (S (length kl)) n key (n2z i); Some (j, true)
    | BSF_LATEST => get_latest_seqno cmp n key ks m (n2z i)
    end.
Proof using CmpOk0 Hsorted Hshow.
  revert lo hi; induction fuel as [|fuel IH]; intros lo hi Hfuel Hb; [destruct Hb; lia|].
  cbn [bsearch_loop]. destruct (Z.ltb_spec 1 (hi - lo)) as [Hgt|Hle]; cbn [negb].
  2: { left. by exists lo, hi. }
  destruct Hb as (Hr & Hl & Hs) eqn:Hbe. clear Hbe.
  assert (1 <= (hi - lo) / 2 < hi - lo) as Hmid.
  { pose proof (Z.div_mod (hi - lo) 2 ltac:(lia)). pose proof (Z.mod_pos_bound (hi - lo) 2 ltac:(lia)). lia. }
  set (i := lo + (hi - lo) / 2). destruct (lookup_lt_is_Some_2 kl (z2n i)) as [v Hv]; [unfold i; lia|].
  destruct Hshow as [Hnk Hget]. destruct (Hget _ _ Hv) as (ks & Hks & Hk & Hsq).
  rewrite Z2Nat.id in Hks by (unfold i; lia). rewrite Hks. runs. rewrite Hk, Hnk, Nat2Z.id.
  destruct (Z.eqb_spec (cmp key v.1) 0) as [H0|H0].
  { right. exists (z2n i), v, ks. rewrite Z2Nat.id by (unfold i; lia). by destruct flags. }
  pose proof (bracket_shrink lo hi (z2n i) v (conj Hr (conj Hl Hs)) Hv ltac:(unfold i; lia) H0) as Hsh.
  rewrite Z2Nat.id in Hsh by (unfold i; lia).
  destruct (Z.ltb_spec (cmp key v.1) 0); apply IH; try done; unfold i; lia.
Qed.

Lemma bracket_all : bracket (-1) (lenZ kl).
Proof using Type.
  split; [lia|]. split; [lia|]. intros j v Hj. apply lookup_lt_Some in Hj. lia.
Qed.

(** A bracket without the key between its ends is a split point. *)
Lemma bracket_located lo hi : bracket lo hi -> hi - lo <= 1 -> located (Some (hi, false)).
Proof using CmpOk0 Hsorted.
  intros Hb Hd. pose proof (bracket_done lo hi Hb Hd) as Hdone. destruct Hb as (Hr & Hl & _).
  exists (z2n hi). rewrite Z2Nat.id by lia.
  assert (forall j v, kl !! j = Some v -> sd v = if n2z j <? hi then Lt else Gt) as Hsd.
  { intros j v Hj. destruct (Hdone j v Hj) as [H1 H2]. rewrite ?side_code.
    destruct (Z.ltb_spec (n2z j) hi).
    - rewrite (proj2 (Z.eqb_neq _ _)), (proj2 (Z.ltb_ge _ _)); [done|specialize (H1 ltac:(lia)); lia..].
    - rewrite (proj2 (Z.eqb_neq _ _)), (proj2 (Z.ltb_lt _ _)); [done|specialize (H2 ltac:(lia)); lia..]. }
  split.
  - unfold hit. destruct (kl !! z2n hi) as [v|] eqn:Hv; [|done]. rewrite (Hsd _ _ Hv).
    by rewrite (proj2 (Z.ltb_ge _ _)) by lia.
  - split; [lia|]. intros j v Hj. rewrite (Hsd _ _ Hj). destruct (Z.ltb_spec (n2z j) hi); split; done || lia.
Qed.

Lemma bsearch_latest_ok : located (bsearch_key_low cmp n key m (-1) (nv_nkeys n) BSF_LATEST).
Proof using CmpOk0 Hsorted Hshow.
  unfold bsearch_key_low. rewrite (proj1 Hshow).
  destruct (bsearch_loop_ok (S (z2n (lenZ kl - -1))) (-1) (lenZ kl) BSF_LATEST)
    as [(lo & hi & -> & Hb & Hd)|(i & v & ks & Hi & Hc & Hk & Hs & ->)]; [lia|apply bracket_all| |].
  - by eapply bracket_located.
  - by eapply get_latest_seqno_ok.
Qed.

(** ** The first greater key *)

Lemma next_keyset_ok fuel i v :
  (length kl <= i + fuel)%nat -> kl !! i = Some v -> cmp key v.1 = 0 ->
  exists j, next_keyset cmp fuel n key (n2z i) = Some (n2z j) /\ (i < j <= length kl)%nat /\
    (forall k w, (i <= k < j)%nat -> kl !! k = Some w -> cmp key w.1 = 0) /\
    (forall w, kl !! j = Some w -> cmp key w.1 <> 0).
Proof using Hshow.
  revert i v; induction fuel as [|fuel IH]; intros i v Hfuel Hi Hc;
    pose proof (lookup_lt_Some _ _ _ Hi) as Hlt; [lia|].
  cbn [next_keyset]. destruct Hshow as [Hnk Hget]. rewrite Hnk.
  replace (n2z i + 1) with (n2z (S i)) by lia.
  assert (forall k w, (i <= k < S i)%nat -> kl !! k = Some w -> cmp key w.1 = 0) as Hone.
  { intros k w Hk Hw. replace k with i in Hw by lia. congruence. }
  destruct (Z.leb_spec (lenZ kl) (n2z (S i))) as [Hend|Hmore].
  - exists (S i). split; [done|]. split; [lia|]. split; [done|]. intros w Hw. apply lookup_lt_Some in Hw. lia.
  - destruct (lookup_lt_is_Some_2 kl (S i)) as [u Hu]; [lia|].
    destruct (Hget _ _ Hu) as (ks & -> & Hk & Hs). runs. rewrite Hk.
    destruct (Z.eqb_spec (cmp key u.1) 0) as [H0|H0]; cbn [negb].
    + destruct (IH (S i) u) as (j & Hj & Hr & Heq & Hne); [lia|done|done|].
      exists j. split; [done|]. split; [lia|]. split; [|done]. intros k w Hkr Hw.
      destruct (decide (k = i)) as [->|]; [congruence|]. apply (Heq k w); [lia|done].
    + exists (S i). split; [done|]. split; [lia|]. split; [done|]. intros w Hw. congruence.
Qed.

Lemma bsearch_next_ok :
  exists i found, bsearch_key_low cmp n key m (-1) (nv_nkeys n) BSF_NEXT = Some (n2z i, found) /\
    (i <= length kl)%nat /\
    (forall j v, kl !! j = Some v -> (j < i)%nat <-> 0 <= cmp key v.1) /\
    (found = true <-> exists j v, kl !! j = Some v /\ cmp key v.1 = 0).
Proof using CmpOk0 Hsorted Hshow.
  unfold bsearch_key_low. rewrite (proj1 Hshow).
  destruct (bsearch_loop_ok (S (z2n (lenZ kl - -1))) (-1) (lenZ kl) BSF_NEXT)
    as [(lo & hi & -> & Hb & Hd)|(i & v & ks & Hi & Hc & Hk & Hs & ->)]; [lia|apply bracket_all| |].
  - pose proof (bracket_done lo hi Hb Hd) as Hdone. destruct Hb as (Hr & Hl & _).
    exists (z2n hi), false. rewrite Z2Nat.id by lia. split; [done|]. split; [lia|]. split.
    + intros j v Hj. destruct (Hdone j v Hj). split; intros; [|destruct (decide (j < z2n hi)%nat)]; lia.
    + split; [done|]. intros (j & v & Hj & H0). destruct (Hdone j v Hj). lia.
  - destruct (next_keyset_ok (S (length kl)) i v) as (j & -> & Hr & Heq & Hne); [lia|done|done|]. runs.
    exists j, true. split; [done|]. split; [lia|]. split; [|split; [intros _; by exists i, v|done]].
    intros k w Hk'. split.
    + intros Hlt. destruct (decide (i <= k)%nat); [rewrite (Heq k w); [lia|lia|done]|].
      pose proof (Hsorted k i w v ltac:(lia) Hk' Hi) as Ho.
      assert (cmp w.1 v.1 <= 0) by (destruct Ho; lia). pose proof (cmp_antisym key v.1). pose proof (cmp_antisym key w.1).
      assert (cmp w.1 key <= 0) by (apply (cmp_trans w.1 v.1 key); lia). lia.
    + intros Hge. destruct (decide (k < j)%nat); [done|].
      destruct (lookup_lt_is_Some_2 kl j) as [u Hu]; [apply lookup_lt_Some in Hk'; lia|].
      assert (cmp key u.1 < 0) as Hu0.
      { pose proof (Hsorted i j v u ltac:(lia) Hi Hu) as Ho. specialize (Hne u Hu).
        assert (cmp v.1 u.1 <= 0) by (destruct Ho; lia).
        assert (cmp key u.1 <= 0) by (apply (cmp_trans key v.1 u.1); lia). lia. }
      destruct (decide (k = j)) as [->|]; [replace w with u in Hge by congruence; lia|].
      pose proof (Hsorted j k u w ltac:(lia) Hu Hk') as Ho.
      assert (cmp u.1 w.1 <= 0) as Huw by (destruct Ho; lia).
      pose proof (cmp_lt_trans' cmp key u.1 w.1 Hu0 Huw). lia.
Qed.

(** [hit] at a split point says whether the node holds a requested version. *)
Lemma hit_iff i : splits kl key m i -> hit kl key m i = true <-> exists j v, kl !! j = Some v /\ sd v = Eq.
Proof using CmpOk0 Hsorted.
  intros [Hi Hs]. unfold hit. split.
  - destruct (kl !! i) as [v|] eqn:Hv; [|done]. destruct (sd v) eqn:E; [|done..]. by exists i, v.
  - intros (j & v & Hj & Hv). assert (~ (j < i)%nat) as Hge by (intros Hlt; apply Hs in Hj; apply Hj in Hlt; congruence).
    destruct (lookup_lt_is_Some_2 kl i) as [w Hw]; [apply lookup_lt_Some in Hj; lia|]. rewrite Hw.
    destruct (decide (j = i)) as [->|]; [by replace w with v by congruence; rewrite Hv|].
    pose proof (Hs i w Hw) as Hsw.
    destruct (sd w) eqn:E; [done|assert (i < i)%nat by (by apply Hsw); lia|].
    exfalso. pose proof (proj2 (side_mono w v (Hsorted i j w v ltac:(lia) Hw Hj)) E). congruence.
Qed.
End spec.
