(* ===== verification/NonLeaf.v ===== *)
(** * Non-leaf nodes of the b-tree (btree/btree_raw.c)

    A non-leaf node holds an array of fixed-size key records
    ([node_vkey_t]) that grows to the right and the bytes of the keys, which
    grow to the left from the end of the page: the first key is the last in
    memory. [vkeys] is the array, [varea] the bytes from [insert_ptr] to the
    end of the page. The model is of trees with variable-size keys
    ([SECONDARY_INDEX]), the only kind the library creates. *)

From S2P Require Import Prelude LeafMeta LeafNode LeafOps NodeSearch.

Definition SIZEOF_NODE_VKEY : Z := 24.

Record node_vkey := mk_node_vkey {
  vk_keylen : Z;
  vk_keypos : Z;
  vk_ptr : Z;
  vk_seqno : Z
}.

(** The fields of [btree_raw_node_t] in use by a non-leaf node. *)
Record vnode := mk_vnode {
  v_logical_id : Z;
  v_next : Z;
  v_rightmost : Z;
  vkeys : list node_vkey;
  varea : list byte
}.

Definition v_nkeys (n : vnode) : Z := lenZ (vkeys n).
Definition v_insert_ptr (bt : btree_raw) (n : vnode) : Z := nodesize bt - lenZ (varea n).

Definition set_vkeys (n : vnode) (ks : list node_vkey) : vnode :=
  mk_vnode (v_logical_id n) (v_next n) (v_rightmost n) ks (varea n).
Definition set_varea (n : vnode) (a : list byte) : vnode :=
  mk_vnode (v_logical_id n) (v_next n) (v_rightmost n) (vkeys n) a.
Definition set_rightmost (n : vnode) (r : Z) : vnode :=
  mk_vnode (v_logical_id n) (v_next n) r (vkeys n) (varea n).
Definition set_vnext (n : vnode) (x : Z) : vnode :=
  mk_vnode (v_logical_id n) x (v_rightmost n) (vkeys n) (varea n).

(** An unsigned difference of sizes. *)
Definition vnode_bytes_free (bt : btree_raw) (n : vnode) : Z :=
  u64 (v_insert_ptr bt n - SIZEOF_BTREE_RAW_NODE - v_nkeys n * SIZEOF_NODE_VKEY).

(** ** Reading a key *)

(** The part of [key_stuff_t] a non-leaf node fills. *)
Record key_stuff := mk_key_stuff {
  s_ptr : Z;
  s_key : list byte;
  s_keylen : Z;
  s_seqno : Z
}.

Definition get_key_stuff (bt : btree_raw) (n : vnode) (nkey : nat) : option key_stuff :=
  pvk ← vkeys n !! nkey;
  let off := vk_keypos pvk - v_insert_ptr bt n in
  if off <? 0 then None
  else
    k ← read_bytes (varea n) (z2n off) (z2n (vk_keylen pvk));
    Some (mk_key_stuff (vk_ptr pvk) k (vk_keylen pvk) (vk_seqno pvk)).

Definition get_key_stuff_non_leaf (bt : btree_raw) (n : vnode) (nkey : Z) : option key_stuff_info :=
  if nkey <? 0 then None
  else
    ks ← get_key_stuff bt n (z2n nkey);
    Some (mk_key_stuff_info (s_key ks) (s_ptr ks) 8 (s_seqno ks) false).

Definition non_leaf_view (bt : btree_raw) : NodeView vnode :=
  {| nv_nkeys := v_nkeys; get_key_stuff_info2 := get_key_stuff_non_leaf bt |}.

(** ** Search *)

Definition bsearch_key (bt : btree_raw) (n : vnode) (key_in : list byte)
    (meta : option btree_metadata) (flags : bsf) : option (Z * bool * Z) :=
  let _ := non_leaf_view bt in
  r ← bsearch_key_low (cmp_cb bt) n key_in meta (-1) (v_nkeys n) flags;
  let '(index, found) := r in
  if index <? v_nkeys n then
    ks ← get_key_stuff bt n (z2n index); Some (index, found, s_ptr ks)
  else Some (index, found, v_rightmost n).

(** What [find_key_non_leaf] hands out: the child to follow with its two
    siblings, the record before which a new key goes (an index), the index of
    the child and the matching record. *)
Record child_info := mk_child_info {
  child_id : Z;
  child_id_before : Z;
  child_id_after : Z;
  pk_insert : option nat;
  nkey_child : Z;
  pk_found : option nat
}.

Definition find_key_non_leaf (bt : btree_raw) (is_root : bool) (n : vnode) (key_in : list byte)
    (meta : option btree_metadata) : option child_info :=
  if v_nkeys n =? 0 then
    if negb (v_rightmost n =? 0) && is_root
    then Some (mk_child_info (v_rightmost n) BAD_CHILD BAD_CHILD None 0 None)
    else Some (mk_child_info BAD_CHILD BAD_CHILD BAD_CHILD None (-1) None)
  else
    let _ := non_leaf_view bt in
    r ← bsearch_key_low (cmp_cb bt) n key_in meta (-1) (v_nkeys n) BSF_LATEST;
    let '(x, found) := r in
    here ← (if x <? v_nkeys n then
              ks ← get_key_stuff bt n (z2n x); Some (s_ptr ks, Some (z2n x))
            else Some (v_rightmost n, None));
    before ← (if 0 <? x then ks ← get_key_stuff bt n (z2n (x - 1)); Some (s_ptr ks)
              else Some BAD_CHILD);
    after ← (if x <? v_nkeys n - 1 then ks ← get_key_stuff bt n (z2n (x + 1)); Some (s_ptr ks)
             else if x =? v_nkeys n - 1 then Some (v_rightmost n) else Some BAD_CHILD);
    Some (mk_child_info here.1 before after here.2 x (if (found : bool) then here.2 else None)).

(** ** Key positions *)

(** Recompute the positions of the records, the first of which ends at
    [keypos]. *)
Fixpoint update_keypos_from (keypos : Z) (ks : list node_vkey) : list node_vkey :=
  match ks with
  | [] => []
  | k :: ks =>
      let keypos := u32 (keypos - vk_keylen k) in
      mk_node_vkey (vk_keylen k) keypos (vk_ptr k) (vk_seqno k) :: update_keypos_from keypos ks
  end.

Definition update_keypos_low (n : vnode) (n_key_start : nat) (keypos : Z) : vnode :=
  set_vkeys n (take n_key_start (vkeys n) ++ update_keypos_from keypos (drop n_key_start (vkeys n))).

Definition update_keypos (bt : btree_raw) (n : vnode) (n_key_start : nat) : vnode :=
  update_keypos_low n n_key_start (nodesize bt).

(** ** Changing a node *)

Definition delete_key_by_pkrec (bt : btree_raw) (n : vnode) (pk_delete : nat) : option vnode :=
  pvk ← vkeys n !! pk_delete;
  _ ← assert_ (negb (vk_keylen pvk =? 0));
  let off := vk_keypos pvk - v_insert_ptr bt n in
  _ ← assert_ ((0 <=? off) && (off + vk_keylen pvk <=? lenZ (varea n)));
  let area := take (z2n off) (varea n) ++ drop (z2n (off + vk_keylen pvk)) (varea n) in
  let keys := delete pk_delete (vkeys n) in
  Some (update_keypos bt (set_varea (set_vkeys n keys) area) 0).

Definition update_ptr (n : vnode) (nkey : nat) (ptr_ : Z) : option vnode :=
  k ← vkeys n !! nkey;
  Some (set_vkeys n (<[nkey := mk_node_vkey (vk_keylen k) (vk_keypos k) ptr_ (vk_seqno k)]> (vkeys n))).

Definition delete_key_by_index_non_leaf (bt : btree_raw) (n : vnode) (index : nat) : option vnode :=
  _ ← get_key_stuff bt n index;
  delete_key_by_pkrec bt n index.

(** The search condition of an insertion: the versions older than [seqno]. *)
Definition older_than (seqno_ : Z) : btree_metadata :=
  mk_btree_metadata false true false 0 0 (u64 (seqno_ - 1)).

(** Insert a key before the record [pk_insert] ([None]: at the end), after
    deleting the record [pkrec] when there is one. *)
Definition insert_key_low (bt : btree_raw) (is_root : bool) (n : vnode) (key : list byte)
    (seqno_ ptr_ : Z) (pkrec pk_insert_ : option nat) : option vnode :=
  p ← (match pkrec with
       | Some pk =>
           x ← delete_key_by_pkrec bt n pk;
           ci ← find_key_non_leaf bt is_root x key (Some (older_than seqno_));
           _ ← assert_ (bool_decide (pk_found ci = None));
           Some (x, pk_insert ci)
       | None => Some (n, pk_insert_)
       end);
  let '(x, pki) := p in
  let keylen_ := lenZ key in
  s ← (match pki with
       | Some i =>
           if v_nkeys x =? 0 then Some (length (vkeys x), v_insert_ptr bt x)
           else
             pvk ← vkeys x !! i;
             _ ← assert_ (vk_keypos pvk <? nodesize bt);
             _ ← assert_ (vk_keylen pvk <? nodesize bt);
             Some (i, vk_keypos pvk + vk_keylen pvk)
       | None => Some (length (vkeys x), v_insert_ptr bt x)
       end);
  let '(nkeys_to, pos_split) := s in
  let nbytes_split := pos_split - v_insert_ptr bt x in
  _ ← assert_ (SIZEOF_NODE_VKEY + keylen_ <=? u32 (vnode_bytes_free bt x));
  _ ← assert_ ((0 <=? nbytes_split) && (nbytes_split <=? lenZ (varea x)));
  let area := take (z2n nbytes_split) (varea x) ++ key ++ drop (z2n nbytes_split) (varea x) in
  let pos_new_key := pos_split - keylen_ in
  let keys := take nkeys_to (vkeys x) ++ mk_node_vkey keylen_ pos_new_key ptr_ seqno_
              :: drop nkeys_to (vkeys x) in
  Some (update_keypos_low (set_varea (set_vkeys x keys) area) nkeys_to pos_split).

Definition insert_key (bt : btree_raw) (is_root : bool) (n : vnode) (key : list byte)
    (seqno_ ptr_ : Z) : option vnode :=
  ci ← find_key_non_leaf bt is_root n key (Some (older_than seqno_));
  insert_key_low bt is_root n key seqno_ ptr_ None (pk_insert ci).

(** ** Split and merge *)

(** The scan of [split_copy]: how many keys stay on the left, their bytes, and
    the last of them. *)
Fixpoint split_scan (bt : btree_raw) (n : vnode) (count nkeys_from : nat) (nbytes_from : Z)
    (split_key : Z) (threshold : Z) (last : option key_stuff)
    : option (nat * Z * option key_stuff) :=
  match count with
  | O => Some (nkeys_from, nbytes_from, last)
  | S count =>
      if (negb (split_key =? 0) && (n2z nkeys_from <? split_key))
         || ((split_key =? 0) && (nbytes_from + n2z nkeys_from * SIZEOF_NODE_VKEY <=? threshold))
      then
        ks ← get_key_stuff bt n nkeys_from;
        split_scan bt n count (S nkeys_from) (nbytes_from + s_keylen ks) split_key threshold (Some ks)
      else Some (nkeys_from, nbytes_from, last)
  end.

(** The last key on the left moves up to the parent: its child becomes the
    rightmost one of the left node. *)
Definition split_copy (bt : btree_raw) (from to : vnode) (split_key : Z)
    : option (vnode * vnode * key_stuff) :=
  let threshold := (nodesize bt - SIZEOF_BTREE_RAW_NODE) / 2 in
  s ← split_scan bt from (length (vkeys from)) 0 0 split_key threshold None;
  let '(nkeys_from, nbytes_from, last) := s in
  _ ← assert_ (bool_decide (0 < nkeys_from)%nat && bool_decide (nkeys_from < length (vkeys from))%nat);
  ks ← last;
  let nbytes_to := nodesize bt - v_insert_ptr bt from - nbytes_from in
  to_area ← read_bytes (varea from) 0 (z2n nbytes_to);
  let to_keys := drop nkeys_from (vkeys from) in
  let to := set_rightmost (update_keypos bt (set_varea (set_vkeys to to_keys) to_area) 0)
              (v_rightmost from) in
  let from_bytes := z2n (nbytes_from - s_keylen ks) in
  let from_area := drop (length (varea from) - from_bytes) (varea from) in
  let from := set_rightmost (set_varea (set_vkeys from (take (nkeys_from - 1) (vkeys from))) from_area)
                (s_ptr ks) in
  Some (from, to, ks).

(** Append [from] to its left sibling [to]; the separator [s_key] becomes the
    key of the former rightmost child of [to]. *)
Definition merge_nodes_non_leaf (bt : btree_raw) (from to : vnode) (sep_key : list byte)
    (sep_seqno : Z) : option (vnode * bool) :=
  let nbytes_from := nodesize bt - v_insert_ptr bt from in
  if vnode_bytes_free bt to <? nodesize bt - v_insert_ptr bt from + v_nkeys from * SIZEOF_NODE_VKEY
                               + lenZ sep_key + SIZEOF_NODE_VKEY
  then Some (to, false)
  else
    let sep := mk_node_vkey (lenZ sep_key) 0 (v_rightmost to) sep_seqno in
    let keys := vkeys to ++ sep :: vkeys from in
    let area := varea from ++ sep_key ++ varea to in
    let to := update_keypos bt (set_varea (set_vkeys to keys) area) 0 in
    Some (set_vnext (set_rightmost to (v_rightmost from)) (v_next from), true).

(** ** Space checks *)

(** A non-leaf node must have room for a key of the maximal size. *)
Definition is_full_insert (bt : btree_raw) (n : vnode) : bool :=
  u32 (vnode_bytes_free bt n) <? SIZEOF_NODE_VKEY + max_key_size bt.

Definition is_minimal_non_leaf (bt : btree_raw) (rootid : Z) (n : vnode)
    (l_balance_keylen r_balance_keylen : Z) : bool :=
  if v_logical_id n =? rootid then v_nkeys n =? 0
  else
    let max_balance_keylen := if r_balance_keylen <? l_balance_keylen then l_balance_keylen
                              else r_balance_keylen in
    let nbytes_used := u32 (nodesize bt - v_insert_ptr bt n + v_nkeys n * SIZEOF_NODE_VKEY
                            + max_balance_keylen + SIZEOF_NODE_VKEY) in
    u32 (2 * nbytes_used) <? nodesize bt - SIZEOF_BTREE_RAW_NODE.

Definition is_minimal_leaf (bt : btree_raw) (rootid : Z) (n : btree_raw_node) : bool :=
  if logical_id n =? rootid then negb (Z.testbit (nflags n) 1) && (nkeys n =? 0)
  else u32 (2 * u32 (btree_leaf_used_space bt n)) <? nodesize_less_hdr bt.

Definition is_leaf_minimal_after_delete (bt : btree_raw) (n : btree_raw_node) : bool :=
  u32 (2 * u32 (btree_leaf_used_space bt n)) <? nodesize_less_hdr bt.
