(* ===== verification/NonLeafSpec.v ===== *)
(** * Non-leaf nodes as lists of separators

    A non-leaf node holds a list of entries (key, child, sequence number) and
    the rightmost child. The operations of [NonLeaf] are shown to be the list
    operations, and the split to be undone by the merge. *)

From S2P Require Import Prelude LeafMeta LeafNode LeafOps NodeSearch NodeSearchSpec NonLeaf.

Record nent := mk_nent {
  n_key : list byte;
  n_ptr : Z;
  n_seqno : Z
}.

(** The bytes of the keys, the first key last. *)
Definition key_area (es : list nent) : list byte := concat (reverse (n_key <$> es)).

Definition key_bytes (es : list nent) : Z := lenZ (key_area es).

(** The key records, the first key ending at [pos]. *)
Fixpoint key_recs (pos : Z) (es : list nent) : list node_vkey :=
  match es with
  | [] => []
  | e :: es =>
      let pos := pos - lenZ (n_key e) in
      mk_node_vkey (lenZ (n_key e)) pos (n_ptr e) (n_seqno e) :: key_recs pos es
  end.

Record nl_rep (bt : btree_raw) (n : vnode) (es : list nent) : Prop := {
  nr_keys : vkeys n = key_recs (nodesize bt) es;
  nr_area : varea n = key_area es;
  nr_nonempty : Forall (fun e => n_key e <> []) es;
  nr_fit : SIZEOF_BTREE_RAW_NODE + lenZ es * SIZEOF_NODE_VKEY + key_bytes es <= nodesize bt
}.

(** ** Layout *)

Lemma key_area_app es1 es2 : key_area (es1 ++ es2) = key_area es2 ++ key_area es1.
Proof. unfold key_area. by rewrite fmap_app, reverse_app, concat_app. Qed.

Lemma key_area_cons e es : key_area (e :: es) = key_area es ++ n_key e.
Proof. change (e :: es) with ([e] ++ es). rewrite key_area_app. unfold key_area. cbn. by rewrite app_nil_r. Qed.

Lemma key_bytes_app es1 es2 : key_bytes (es1 ++ es2) = key_bytes es1 + key_bytes es2.
Proof. unfold key_bytes. rewrite key_area_app, length_app. lia. Qed.

Lemma key_bytes_cons e es : key_bytes (e :: es) = lenZ (n_key e) + key_bytes es.
Proof. unfold key_bytes. rewrite key_area_cons, length_app. lia. Qed.

Lemma key_bytes_nonneg es : 0 <= key_bytes es.
Proof. unfold key_bytes. lia. Qed.

Lemma key_recs_app pos es1 es2 :
  key_recs pos (es1 ++ es2) = key_recs pos es1 ++ key_recs (pos - key_bytes es1) es2.
Proof.
  revert pos; induction es1 as [|e es1 IH]; intros pos; cbn [app key_recs].
  { change (key_bytes []) with 0. by rewrite Z.sub_0_r. }
  rewrite IH, key_bytes_cons. do 3 f_equal. lia.
Qed.

Lemma length_key_recs pos es : length (key_recs pos es) = length es.
Proof. revert pos; induction es as [|e es IH]; intros; cbn; [done|by rewrite IH]. Qed.

Lemma key_recs_take pos es i : take i (key_recs pos es) = key_recs pos (take i es).
Proof. revert pos es; induction i as [|i IH]; intros pos [|e es]; cbn; try done. by rewrite IH. Qed.

Lemma key_recs_drop pos es i : drop i (key_recs pos es) = key_recs (pos - key_bytes (take i es)) (drop i es).
Proof.
  rewrite <- (take_drop i es) at 1. rewrite key_recs_app.
  destruct (decide (i <= length es)%nat) as [H|H].
  - rewrite drop_app_length'; [done|]. rewrite length_key_recs, length_take. lia.
  - rewrite (drop_ge es) by lia. cbn [key_recs]. rewrite app_nil_r. apply drop_ge.
    rewrite length_key_recs, length_take. lia.
Qed.

Lemma key_recs_lookup pos es i e :
  es !! i = Some e ->
  key_recs pos es !! i =
  Some (mk_node_vkey (lenZ (n_key e)) (pos - key_bytes (take (S i) es)) (n_ptr e) (n_seqno e)).
Proof.
  revert pos i; induction es as [|d es IH]; intros pos [|i]; cbn [lookup list_lookup key_recs]; try done.
  - intros [= ->]. cbn [take]. rewrite key_bytes_cons, take_0. change (key_bytes []) with 0. do 2 f_equal. lia.
  - intros Hi. rewrite (IH _ _ Hi). cbn [take]. rewrite (key_bytes_cons d). do 2 f_equal. lia.
Qed.

(** Records that carry the entries, at any positions. *)
Definition rec_match (k : node_vkey) (e : nent) : Prop :=
  vk_keylen k = lenZ (n_key e) /\ vk_ptr k = n_ptr e /\ vk_seqno k = n_seqno e.

Lemma key_recs_match pos es : Forall2 rec_match (key_recs pos es) es.
Proof. revert pos; induction es as [|e es IH]; intros; cbn; by constructor. Qed.

Lemma update_keypos_from_ok pos ks es :
  Forall2 rec_match ks es -> key_bytes es <= pos < 2 ^ 32 ->
  update_keypos_from pos ks = key_recs pos es.
Proof.
  intros Hm. revert pos; induction Hm as [|k e ks es (Hl & Hp & Hs) Hm IH]; intros pos Hb; [done|].
  cbn [update_keypos_from key_recs]. rewrite key_bytes_cons in Hb. pose proof (key_bytes_nonneg es).
  rewrite Hl, Hp, Hs, u32_small by lia. f_equal. apply IH. lia.
Qed.

Section nonleaf.
Context (bt : btree_raw) (Hbt : bt_ok bt).

Lemma node_small : nodesize bt < 2 ^ 32.
Proof using Hbt. pose proof (bt_node_max _ Hbt). unfold BTREE_MAX_NODE_SIZE in *. lia. Qed.

Lemma nl_ptr n es : nl_rep bt n es -> v_insert_ptr bt n = nodesize bt - key_bytes es.
Proof using Type. intros [_ Ha _ _]. unfold v_insert_ptr. by rewrite Ha. Qed.

Lemma nl_count n es : nl_rep bt n es -> v_nkeys n = lenZ es.
Proof using Type. intros [Hk _ _ _]. unfold v_nkeys. by rewrite Hk, length_key_recs. Qed.

Lemma nl_free n es :
  nl_rep bt n es ->
  vnode_bytes_free bt n = nodesize bt - SIZEOF_BTREE_RAW_NODE - lenZ es * SIZEOF_NODE_VKEY - key_bytes es.
Proof using Hbt.
  intros Hr. unfold vnode_bytes_free. rewrite (nl_ptr n es Hr), (nl_count n es Hr).
  destruct Hr as [_ _ _ Hf]. pose proof node_small. pose proof (key_bytes_nonneg es).
  unfold SIZEOF_BTREE_RAW_NODE, SIZEOF_NODE_VKEY in *. rewrite u64_small; lia.
Qed.

(** The bytes of the keys after position [i]. *)
Lemma key_area_split es i e :
  es !! i = Some e ->
  key_area es = key_area (drop (S i) es) ++ n_key e ++ key_area (take i es).
Proof using Type.
  intros Hi. rewrite (list_split_at es i e Hi) at 1. by rewrite key_area_app, key_area_cons, <- app_assoc.
Qed.

Lemma key_bytes_split es i : key_bytes es = key_bytes (take i es) + key_bytes (drop i es).
Proof using Type. by rewrite <- key_bytes_app, take_drop. Qed.

Lemma get_key_stuff_ok n es i e :
  nl_rep bt n es -> es !! i = Some e ->
  get_key_stuff bt n i = Some (mk_key_stuff (n_ptr e) (n_key e) (lenZ (n_key e)) (n_seqno e)).
Proof using Type.
  intros Hr Hi. unfold get_key_stuff. rewrite (nl_ptr n es Hr). destruct Hr as [Hk Ha _ _].
  rewrite Hk, (key_recs_lookup _ _ _ _ Hi). runs. cbn [vk_keypos vk_keylen vk_ptr vk_seqno].
  pose proof (key_bytes_split es (S i)) as Hs. pose proof (key_bytes_nonneg (drop (S i) es)).
  rewrite (proj2 (Z.ltb_ge _ 0)) by lia. rewrite Ha, (key_area_split _ _ _ Hi).
  rewrite read_bytes_mid; [done| |lia]. unfold key_bytes in *. lia.
Qed.

(** The versions a node shows to the search. *)
Definition ent_version (e : nent) : version := (n_key e, n_seqno e).

Lemma nl_shows n es : nl_rep bt n es -> shows (NodeView0 := non_leaf_view bt) n (ent_version <$> es).
Proof using Type.
  intros Hr. split.
  - cbn. rewrite length_fmap. by apply nl_count.
  - intros i v Hi. rewrite list_lookup_fmap in Hi. destruct (es !! i) as [e|] eqn:He; [|done].
    injection Hi as <-. cbn. unfold get_key_stuff_non_leaf.
    rewrite (proj2 (Z.ltb_ge _ 0)), Nat2Z.id, (get_key_stuff_ok n es i e Hr He) by lia. runs. by eexists.
Qed.

(** ** Deletion *)

Lemma delete_split {A} (l : list A) i : delete i l = take i l ++ drop (S i) l.
Proof using Type. apply delete_take_drop. Qed.

Lemma delete_key_ok n es i e :
  nl_rep bt n es -> es !! i = Some e ->
  exists n', delete_key_by_pkrec bt n i = Some n' /\ nl_rep bt n' (delete i es) /\
    v_rightmost n' = v_rightmost n /\ v_next n' = v_next n /\ v_logical_id n' = v_logical_id n.
Proof using Hbt.
  intros Hr Hi. unfold delete_key_by_pkrec. rewrite (nl_ptr n es Hr). pose proof node_small as Hns.
  destruct Hr as [Hk Ha Hne Hf]. rewrite Hk, (key_recs_lookup _ _ _ _ Hi), Ha.
  eexists. split.
  { runs. cbn [vk_keypos vk_keylen].
    pose proof (Forall_at Hne Hi) as Hke. cbn beta in Hke.
    pass by (apply negb_true_iff, Z.eqb_neq; destruct (n_key e); [done|cbn; lia]).
    pose proof (key_bytes_split es (S i)) as Hs. pose proof (key_bytes_nonneg (drop (S i) es)).
    rewrite (take_S_r _ _ _ Hi), key_bytes_app, key_bytes_cons in Hs |- *.
    change (key_bytes []) with 0 in *.
    pass by (apply andb_true_iff; split; apply Z.leb_le; fold (key_bytes es); pose proof (key_bytes_nonneg (take i es)); lia).
    reflexivity. }
  pose proof (key_bytes_split es (S i)) as Hs. pose proof (key_bytes_nonneg (drop (S i) es)).
  rewrite (take_S_r _ _ _ Hi), key_bytes_app, key_bytes_cons in Hs. change (key_bytes []) with 0 in Hs.
  assert (key_bytes (delete i es) = key_bytes es - lenZ (n_key e)) as Hb.
  { rewrite delete_split, key_bytes_app. lia. }
  assert (length es = S (length (delete i es))) as Hlen.
  { rewrite length_delete by (by eexists). apply lookup_lt_Some in Hi. lia. }
  split_and?; try done. split; cbn [vkeys varea set_vkeys set_varea update_keypos update_keypos_low].
  - cbn [take drop app]. apply update_keypos_from_ok.
    + rewrite !delete_split, key_recs_take, key_recs_drop. apply Forall2_app; apply key_recs_match.
    + unfold SIZEOF_BTREE_RAW_NODE, SIZEOF_NODE_VKEY in *. lia.
  - rewrite delete_split, key_area_app, (key_area_split _ _ _ Hi). f_equal.
    + rewrite take_app_length'; [done|]. unfold key_bytes in *. lia.
    + rewrite app_assoc, drop_app_length'; [done|]. rewrite length_app. unfold key_bytes in *. lia.
  - rewrite delete_split. apply Forall_app; split; [by apply Forall_take|by apply Forall_drop].
  - unfold SIZEOF_BTREE_RAW_NODE, SIZEOF_NODE_VKEY in *. lia.
Qed.

(** ** Insertion *)

Lemma insert_key_at n es i key seqno_ ptr_ is_root pki :
  nl_rep bt n es -> (i <= length es)%nat -> key <> [] ->
  pki = (if decide (i < length es)%nat then Some i else None) ->
  SIZEOF_NODE_VKEY + lenZ key <= vnode_bytes_free bt n ->
  exists n', insert_key_low bt is_root n key seqno_ ptr_ None pki = Some n' /\
    nl_rep bt n' (take i es ++ mk_nent key ptr_ seqno_ :: drop i es) /\
    v_rightmost n' = v_rightmost n /\ v_next n' = v_next n /\ v_logical_id n' = v_logical_id n.
Proof using Hbt.
  intros Hr Hi Hke -> Hroom. unfold insert_key_low. runs.
  pose proof node_small as Hns. pose proof (nl_ptr n es Hr) as Hptr. pose proof (nl_count n es Hr) as Hcnt.
  rewrite (nl_free n es Hr) in Hroom. pose proof (nl_free n es Hr) as Hfree.
  destruct Hr as [Hk Ha Hne Hf].
  pose proof (key_bytes_split es i) as Hs. pose proof (key_bytes_nonneg (drop i es)).
  pose proof (key_bytes_nonneg (take i es)). pose proof (key_bytes_nonneg es).
  unfold SIZEOF_BTREE_RAW_NODE, SIZEOF_NODE_VKEY in *.
  assert (exists r, r = (i, nodesize bt - key_bytes (take i es)) /\
    match (if decide (i < length es)%nat then Some i else None) with
     | Some i =>
         if v_nkeys n =? 0 then Some (length (vkeys n), v_insert_ptr bt n)
         else
           pvk ← vkeys n !! i;
           _ ← assert_ (vk_keypos pvk <? nodesize bt);
           _ ← assert_ (vk_keylen pvk <? nodesize bt);
           Some (i, vk_keypos pvk + vk_keylen pvk)
     | None => Some (length (vkeys n), v_insert_ptr bt n)
     end = Some r) as (r & -> & ->).
  { eexists. split; [done|]. case_decide as Hlt.
    - rewrite Hcnt, (proj2 (Z.eqb_neq _ 0)) by lia.
      destruct (lookup_lt_is_Some_2 es i Hlt) as [e He]. rewrite Hk, (key_recs_lookup _ _ _ _ He). runs.
      cbn [vk_keypos vk_keylen].
      pose proof (key_bytes_split es (S i)) as Hs'. pose proof (key_bytes_nonneg (drop (S i) es)).
      rewrite (take_S_r _ _ _ He), key_bytes_app, key_bytes_cons in Hs' |- *. change (key_bytes []) with 0 in *.
      assert (0 < lenZ (n_key e)).
      { pose proof (Forall_at Hne He) as Hke'. cbn beta in Hke'. destruct (n_key e); [done|cbn; lia]. }
      pass by (apply Z.ltb_lt; lia). pass by (apply Z.ltb_lt; lia). do 2 f_equal. lia.
    - assert (i = length es) as -> by lia. rewrite Hk, length_key_recs, Hptr, firstn_all. done. }
  runs. rewrite Hfree, u32_small by lia. rewrite Hptr, Ha, Hk.
  eexists. split.
  { pass by (apply Z.leb_le; lia).
    pass by (apply andb_true_iff; split; apply Z.leb_le; fold (key_bytes es); lia). reflexivity. }
  replace (nodesize bt - key_bytes (take i es) - (nodesize bt - key_bytes es)) with (key_bytes (drop i es)) by lia.
  assert (key_bytes (take i es ++ mk_nent key ptr_ seqno_ :: drop i es) = key_bytes es + lenZ key) as Hb.
  { rewrite key_bytes_app, key_bytes_cons. cbn [n_key]. lia. }
  split_and?; try done. split; cbn [vkeys varea set_vkeys set_varea update_keypos_low].
  - assert (length (key_recs (nodesize bt) (take i es)) = i) as Hli by (rewrite length_key_recs, length_take; lia).
    rewrite key_recs_take, key_recs_drop.
    rewrite take_app_length', drop_app_length' by done. rewrite key_recs_app. f_equal.
    rewrite (update_keypos_from_ok _ _ (mk_nent key ptr_ seqno_ :: drop i es)); [done| |].
    + constructor; [done|]. apply key_recs_match.
    + rewrite key_bytes_cons. cbn [n_key]. lia.
  - rewrite key_area_app, key_area_cons, <- app_assoc. cbn [n_key].
    assert (key_area es = key_area (drop i es) ++ key_area (take i es)) as ->
      by (rewrite <- key_area_app; by rewrite take_drop).
    rewrite take_app_length', drop_app_length' by (unfold key_bytes; lia). done.
  - apply Forall_app; split; [by apply Forall_take|]. constructor; [done|by apply Forall_drop].
  - rewrite Hb, length_app, length_take. cbn [length]. rewrite length_drop.
    unfold SIZEOF_BTREE_RAW_NODE, SIZEOF_NODE_VKEY in *. lia.
Qed.

(** ** Search *)

Definition child_at (n : vnode) (es : list nent) (i : nat) : Z :=
  match es !! i with Some e => n_ptr e | None => v_rightmost n end.

Context `{!CmpOk (cmp_cb bt)}.

Definition nl_sorted (es : list nent) : Prop := node_sorted (cmp_cb bt) (ent_version <$> es).

(** The child a request is routed to, with its siblings. *)
Lemma find_key_ok n es key m is_root :
  nl_rep bt n es -> nl_sorted es -> es <> [] ->
  exists i, splits (cmp_cb bt) (ent_version <$> es) key m i /\
    find_key_non_leaf bt is_root n key m =
    Some (mk_child_info (child_at n es i)
            (match i with O => BAD_CHILD | S j => child_at n es j end)
            (if decide (i < length es)%nat then child_at n es (S i) else BAD_CHILD)
            (if decide (i < length es)%nat then Some i else None) (n2z i)
            (if hit (cmp_cb bt) (ent_version <$> es) key m i then Some i else None)).
Proof using CmpOk0 Hbt.
  intros Hr Hs Hne. pose proof (nl_count n es Hr) as Hcnt.
  assert (v_nkeys n =? 0 = false) as Hz by (apply Z.eqb_neq; rewrite Hcnt; destruct es; [done|cbn; lia]).
  unfold find_key_non_leaf. rewrite Hz.
  destruct (bsearch_latest_ok (NodeView0 := non_leaf_view bt) (cmp_cb bt) _ Hs key m n (nl_shows n es Hr))
    as (i & Hi & Hsp).
  exists i. split; [done|]. change (nv_nkeys n) with (v_nkeys n) in Hi. rewrite Hi. runs.
  assert (forall j, (j <= length es)%nat ->
    (j < length es)%nat /\ (exists e, es !! j = Some e /\ child_at n es j = n_ptr e) \/
    j = length es /\ child_at n es j = v_rightmost n) as Hch.
  { intros j Hj. unfold child_at. destruct (es !! j) as [e|] eqn:E.
    - left. split; [by eapply lookup_lt_Some|]. by exists e.
    - right. apply lookup_ge_None in E. split; [lia|done]. }
  assert (i <= length es)%nat as Hle by (destruct Hsp as [Hle _]; by rewrite length_fmap in Hle).
  rewrite Hcnt.
  assert (hit (cmp_cb bt) (ent_version <$> es) key m i = true -> (i < length es)%nat) as Hhit.
  { unfold hit. rewrite list_lookup_fmap. destruct (es !! i) eqn:E; [|done]. intros _. by eapply lookup_lt_Some. }
  assert ((if 0 <? n2z i then ks ← get_key_stuff bt n (z2n (n2z i - 1)); Some (s_ptr ks) else Some BAD_CHILD)
    = Some (match i with O => BAD_CHILD | S j => child_at n es j end)) as ->.
  { destruct i as [|j]; [done|]. rewrite (proj2 (Z.ltb_lt _ _)) by lia.
    replace (z2n (n2z (S j) - 1)) with j by lia.
    destruct (Hch j) as [(_ & e & He & ->)|[? _]]; [lia| |lia]. by rewrite (get_key_stuff_ok n es j e Hr He). }
  destruct (Hch i Hle) as [(Hlt & e & He & Hce)|[-> Hcr]].
  - rewrite (proj2 (Z.ltb_lt (n2z i) (lenZ es))), Nat2Z.id, (get_key_stuff_ok n es i e Hr He), !decide_True by lia. runs.
    assert ((if n2z i <? lenZ es - 1 then ks ← get_key_stuff bt n (z2n (n2z i + 1)); Some (s_ptr ks)
             else if n2z i =? lenZ es - 1 then Some (v_rightmost n) else Some BAD_CHILD)
            = Some (child_at n es (S i))) as ->.
    { destruct (Hch (S i)) as [(Hlt' & e' & He' & ->)|[Hend ->]]; [lia| |].
      - rewrite (proj2 (Z.ltb_lt _ _)) by lia. replace (z2n (n2z i + 1)) with (S i) by lia.
        by rewrite (get_key_stuff_ok n es (S i) e' Hr He').
      - by rewrite (proj2 (Z.ltb_ge _ _)), (proj2 (Z.eqb_eq _ _)) by lia. }
    runs. cbn [fst snd]. by rewrite Hce.
  - rewrite (proj2 (Z.ltb_ge (n2z (length es)) (lenZ es))), !decide_False by lia. runs.
    rewrite (proj2 (Z.ltb_ge _ (lenZ es - 1))), (proj2 (Z.eqb_neq _ (lenZ es - 1))) by lia. runs.
    cbn [fst snd]. rewrite Hcr. destruct (hit _ _ _ _ _); [|done]. specialize (Hhit eq_refl). lia.
Qed.

(** The position for a new version leaves the node sorted. *)
Lemma older_split_sorted es key seqno_ ptr_ i :
  nl_sorted es -> 0 < seqno_ < 2 ^ 64 ->
  Forall (fun e => cmp_cb bt key (n_key e) = 0 -> n_seqno e <> seqno_) es ->
  splits (cmp_cb bt) (ent_version <$> es) key (Some (older_than seqno_)) i ->
  nl_sorted (take i es ++ mk_nent key ptr_ seqno_ :: drop i es).
Proof using CmpOk0.
  intros Hs Hq Hfresh [Hi Hsp]. rewrite length_fmap in Hi.
  assert (forall j e, es !! j = Some e ->
    if decide (j < i)%nat then ordered (cmp_cb bt) (ent_version e) (key, seqno_)
    else ordered (cmp_cb bt) (key, seqno_) (ent_version e)) as Hcut.
  { intros j e Hj. specialize (Hsp j (ent_version e)). rewrite list_lookup_fmap, Hj in Hsp.
    specialize (Hsp eq_refl). pose proof (Forall_at Hfresh Hj) as Hf. cbn beta in Hf.
    pose proof (cmp_antisym key (n_key e)) as Has.
    rewrite side_code in Hsp. unfold older_than, seqno_cmp_range in Hsp. cbn in Hsp. unfold ordered; cbn.
    rewrite u64_small in Hsp by lia.
    destruct (Z.eqb_spec (cmp_cb bt key (n_key e)) 0) as [H0|H0].
    - specialize (Hf H0). destruct (Z.leb_spec (n_seqno e) (seqno_ - 1)); cbn in Hsp.
      + rewrite decide_False by (intros ?; by apply Hsp in H1). right. lia.
      + rewrite decide_True by (by apply Hsp). right. lia.
    - destruct (Z.ltb_spec (cmp_cb bt key (n_key e)) 0); cbn in Hsp.
      + rewrite decide_False by (intros Hlt; by apply Hsp in Hlt). left. lia.
      + rewrite decide_True by (by apply Hsp). left. lia. }
  unfold nl_sorted. rewrite fmap_app, fmap_cons, fmap_take, fmap_drop.
  apply node_sorted_insert; [done|by rewrite length_fmap|]. intros j v Hj.
  rewrite list_lookup_fmap in Hj. destruct (es !! j) as [e|] eqn:E; [|done]. injection Hj as <-.
  by apply (Hcut j e).
Qed.

(** ** Split *)

Definition stuff_of (e : nent) : key_stuff :=
  mk_key_stuff (n_ptr e) (n_key e) (lenZ (n_key e)) (n_seqno e).

Definition stays (es : list nent) (split_key threshold : Z) (i : nat) : bool :=
  (negb (split_key =? 0) && (n2z i <? split_key))
  || ((split_key =? 0) && (key_bytes (take i es) + n2z i * SIZEOF_NODE_VKEY <=? threshold)).

(** The scan stops at the first key that does not stay. *)
Lemma split_scan_ok n es sk th count j last :
  nl_rep bt n es -> (j + count)%nat = length es ->
  exists k, split_scan bt n count j (key_bytes (take j es)) sk th last
            = Some (k, key_bytes (take k es),
                    if decide (j < k)%nat then stuff_of <$> es !! (k - 1)%nat else last) /\
    (j <= k <= length es)%nat /\ ((k < length es)%nat -> stays es sk th k = false) /\
    (forall i, (j <= i < k)%nat -> stays es sk th i = true).
Proof using Type.
  intros Hr. revert j last; induction count as [|count IH]; intros j last Hj; cbn [split_scan].
  { exists j. rewrite decide_False by lia. split; [done|]. split; [lia|]. split; [lia|]. intros; lia. }
  fold (stays es sk th j). destruct (stays es sk th j) eqn:Hst.
  - destruct (lookup_lt_is_Some_2 es j) as [e He]; [lia|].
    rewrite (get_key_stuff_ok n es j e Hr He). runs. cbn [s_keylen].
    replace (key_bytes (take j es) + lenZ (n_key e)) with (key_bytes (take (S j) es)).
    2: { rewrite (take_S_r _ _ _ He), key_bytes_app, key_bytes_cons. change (key_bytes []) with 0. lia. }
    destruct (IH (S j) (Some (stuff_of e))) as (k & Hk & Hr' & Hend & Hall); [lia|].
    exists k. rewrite (decide_True (P := (j < k)%nat)) by lia. split; [|split; [lia|split; [done|]]].
    + unfold stuff_of at 1 in Hk. rewrite Hk. do 2 f_equal. case_decide; [done|].
      replace (k - 1)%nat with j by lia. by rewrite He.
    + intros i Hi. destruct (decide (i = j)) as [->|]; [done|]. apply Hall. lia.
  - exists j. rewrite decide_False by lia. split; [done|]. split; [lia|]. split; [done|]. intros; lia.
Qed.

(** The two nodes of a split after [k] keys. *)
Lemma split_copy_at n es to k e sk :
  nl_rep bt n es -> (0 < k < length es)%nat -> es !! (k - 1)%nat = Some e ->
  split_scan bt n (length es) 0 0 sk ((nodesize bt - SIZEOF_BTREE_RAW_NODE) / 2) None
    = Some (k, key_bytes (take k es), Some (stuff_of e)) ->
  exists from' to', split_copy bt n to sk = Some (from', to', stuff_of e) /\
    nl_rep bt from' (take (k - 1) es) /\ v_rightmost from' = n_ptr e /\
    nl_rep bt to' (drop k es) /\ v_rightmost to' = v_rightmost n /\
    v_next from' = v_next n /\ v_logical_id from' = v_logical_id n /\
    v_next to' = v_next to /\ v_logical_id to' = v_logical_id to.
Proof using Hbt.
  intros Hr Hk He Hscan. pose proof (nl_ptr n es Hr) as Hptr. unfold split_copy.
  destruct Hr as [Hks Ha Hne Hf]. rewrite Hks, length_key_recs, Hscan. runs.
  pose proof node_small as Hns. pose proof (key_bytes_split es k) as Hs.
  pose proof (key_bytes_nonneg (drop k es)). pose proof (key_bytes_nonneg (take k es)).
  assert (key_bytes (take k es) = key_bytes (take (k - 1) es) + lenZ (n_key e)) as Htk.
  { replace k with (S (k - 1)) at 1 by lia.
    rewrite (take_S_r _ _ _ He), key_bytes_app, key_bytes_cons. change (key_bytes []) with 0. lia. }
  pose proof (key_bytes_nonneg (take (k - 1) es)).
  unfold SIZEOF_BTREE_RAW_NODE, SIZEOF_NODE_VKEY in *.
  rewrite Hptr, Ha. cbn [stuff_of s_keylen s_ptr].
  replace (nodesize bt - (nodesize bt - key_bytes es) - key_bytes (take k es)) with (key_bytes (drop k es)) by lia.
  assert (key_area es = key_area (drop k es) ++ key_area (take k es)) as Hka
    by (rewrite <- key_area_app; by rewrite take_drop).
  assert (read_bytes (key_area es) 0 (z2n (key_bytes (drop k es))) = Some (key_area (drop k es))) as Hread.
  { rewrite Hka. apply read_bytes_front. unfold key_bytes. lia. }
  assert (drop (length (key_area es) - z2n (key_bytes (take k es) - lenZ (n_key e))) (key_area es)
          = key_area (take (k - 1) es)) as Hleft.
  { rewrite Htk, Z.add_simpl_r. unfold key_bytes. rewrite Nat2Z.id.
    assert (key_area es = key_area (drop (k - 1) es) ++ key_area (take (k - 1) es)) as ->
      by (rewrite <- key_area_app; by rewrite take_drop).
    apply drop_app_length'. rewrite length_app. lia. }
  eexists _, _. split.
  { pass by (apply andb_true_iff; split; apply bool_decide_eq_true_2; lia).
    rewrite Hread. runs. rewrite Hleft. reflexivity. }
  cbn [v_rightmost v_next v_logical_id set_rightmost set_varea set_vkeys update_keypos update_keypos_low].
  split_and?; try done.
  - split; cbn [vkeys varea set_rightmost set_varea set_vkeys].
    + by rewrite key_recs_take.
    + done.
    + by apply Forall_take.
    + rewrite length_take. unfold SIZEOF_BTREE_RAW_NODE, SIZEOF_NODE_VKEY in *. lia.
  - split; cbn [vkeys varea set_rightmost set_varea set_vkeys].
    + cbn [take drop app]. apply update_keypos_from_ok; [|lia]. rewrite key_recs_drop. apply key_recs_match.
    + done.
    + by apply Forall_drop.
    + rewrite length_drop. unfold SIZEOF_BTREE_RAW_NODE, SIZEOF_NODE_VKEY in *. lia.
Qed.

(** ** Merge *)

Lemma merge_ok from esf to est sep_key sep_seqno :
  nl_rep bt from esf -> nl_rep bt to est -> sep_key <> [] ->
  let es := est ++ mk_nent sep_key (v_rightmost to) sep_seqno :: esf in
  if SIZEOF_BTREE_RAW_NODE + lenZ es * SIZEOF_NODE_VKEY + key_bytes es <=? nodesize bt then
    exists to', merge_nodes_non_leaf bt from to sep_key sep_seqno = Some (to', true) /\
      nl_rep bt to' es /\ v_rightmost to' = v_rightmost from /\ v_next to' = v_next from /\
      v_logical_id to' = v_logical_id to
  else merge_nodes_non_leaf bt from to sep_key sep_seqno = Some (to, false).
Proof using Hbt.
  intros Hf Ht Hse. cbn zeta. unfold merge_nodes_non_leaf.
  rewrite (nl_free to est Ht), (nl_ptr from esf Hf), (nl_count from esf Hf).
  destruct Hf as [Hkf Haf Hnf Hff], Ht as [Hkt Hat Hnt Hft]. pose proof node_small as Hns.
  pose proof (key_bytes_nonneg esf). pose proof (key_bytes_nonneg est).
  set (es := est ++ mk_nent sep_key (v_rightmost to) sep_seqno :: esf).
  assert (key_bytes es = key_bytes est + lenZ sep_key + key_bytes esf) as Hb.
  { unfold es. rewrite key_bytes_app, key_bytes_cons. cbn [n_key]. lia. }
  assert (lenZ es = lenZ est + 1 + lenZ esf) as Hl by (unfold es; rewrite length_app; cbn [length]; lia).
  rewrite Hb, Hl. unfold SIZEOF_BTREE_RAW_NODE, SIZEOF_NODE_VKEY in *.
  match goal with |- context [if ?b then Some (to, false) else _] => destruct b eqn:Hc end; b2p.
  - by rewrite (proj2 (Z.leb_gt _ _)) by lia.
  - rewrite (proj2 (Z.leb_le _ _)) by lia. eexists. split; [done|].
    split_and?; try done. split; cbn [vkeys varea set_rightmost set_varea set_vkeys set_vnext update_keypos update_keypos_low].
    + cbn [take drop app]. rewrite Hkt, Hkf. apply update_keypos_from_ok; [|lia].
      apply Forall2_app; [apply key_recs_match|]. constructor; [done|apply key_recs_match].
    + unfold es. by rewrite Haf, Hat, key_area_app, key_area_cons, <- app_assoc.
    + apply Forall_app; split; [done|]. by constructor.
    + unfold SIZEOF_BTREE_RAW_NODE, SIZEOF_NODE_VKEY. lia.
Qed.
End nonleaf.
