(* ===== verification/NodeTheorems.v ===== *)
(** * The contract of node search and of non-leaf nodes *)

From S2P Require Import Prelude LeafMeta LeafNode LeafOps LeafCells LeafEncode LeafFixup LeafSpec LeafRefine LeafPlain LeafMove NodeSearch LeafTheorems NodeSearchSpec NonLeaf NonLeafSpec.

(** ** Leaf search *)

(** The versions a leaf page shows. *)
Definition entry_version (e : entry) : version := (e_key e, e_seqno e).

Definition leaf_sorted (bt : btree_raw) (es : list entry) : Prop :=
  node_sorted (cmp_cb bt) (entry_version <$> es).

Lemma leaf_shows bt n es : bt_ok bt -> leaf_rep bt n es -> shows n (entry_version <$> es).
Proof.
  intros Hbt Hrep. split.
  - cbn. rewrite length_fmap. by apply (leaf_rep_nkeys bt).
  - intros i v Hi. rewrite list_lookup_fmap in Hi. destruct (es !! i) as [e|] eqn:He; [|done].
    injection Hi as <-. cbn. unfold get_key_stuff_leaf2. rewrite (proj2 (Z.ltb_ge _ 0)), Nat2Z.id by lia.
    destruct (leaf_rep_read bt Hbt n es i e Hrep He) as (-> & _). runs. by eexists.
Qed.

(** C24: the leaf search returns the position that separates the versions before
    the requested ones from the others, for every search condition on sequence
    numbers: one number, all up to and including that of a snapshot, all after
    one snapshot and up to and including another, or all ([oldest], [newest]). It
    says truthfully whether the page holds a requested version: it then stands at
    that position and is the newest one. *)
Theorem leaf_find_key_correct bt n es key m :
  bt_ok bt -> CmpOk (cmp_cb bt) -> leaf_rep bt n es -> leaf_sorted bt es ->
  exists i found, btree_leaf_find_key bt n key m = Some (n2z i, found) /\
    (i <= length es)%nat /\
    (forall j e, es !! j = Some e -> (j < i)%nat <-> side (cmp_cb bt) key m (entry_version e) = Lt) /\
    (found = true <-> exists j e, es !! j = Some e /\ side (cmp_cb bt) key m (entry_version e) = Eq) /\
    (found = true -> exists e, es !! i = Some e /\ cmp_cb bt key (e_key e) = 0).
Proof.
  intros Hbt Hcmp Hrep Hs.
  destruct (bsearch_latest_ok (cmp_cb bt) _ Hs key m n (leaf_shows bt n es Hbt Hrep)) as (i & Hi & Hsp).
  exists i, (hit (cmp_cb bt) (entry_version <$> es) key m i).
  unfold btree_leaf_find_key, btree_leaf_find_key2. change (nv_nkeys n) with (nkeys n) in Hi. rewrite Hi.
  pose proof (hit_iff (cmp_cb bt) _ Hs key m i Hsp) as Hhit.
  destruct Hsp as [Hle Hsp]. rewrite length_fmap in Hle. split_and?; try done.
  - intros j e Hj. apply Hsp. by rewrite list_lookup_fmap, Hj.
  - rewrite Hhit. split.
    + intros (j & v & Hj & Hv). rewrite list_lookup_fmap in Hj. destruct (es !! j) as [e|] eqn:E; [|done].
      injection Hj as <-. by exists j, e.
    + intros (j & e & Hj & He). exists j, (entry_version e). by rewrite list_lookup_fmap, Hj.
  - unfold hit. rewrite list_lookup_fmap. destruct (es !! i) as [e|] eqn:E; [|done]. cbn.
    destruct (side _ _ _ _) eqn:Hsd; [|done..]. intros _. exists e. split; [done|].
    rewrite side_code in Hsd. cbn in Hsd. destruct (Z.eqb_spec (cmp_cb bt key (e_key e)) 0); [done|].
    revert Hsd. by case_if.
Qed.

Lemma es_ab_sorted ns : leaf_sorted (bt_8k ns) es_ab.
Proof.
  intros i j v w Hij Hi Hj.
  destruct i as [|[|[|i]]], j as [|[|[|j]]]; try lia; try done;
    injection Hi as <-; injection Hj as <-; left; by vm_compute.
Qed.

Lemma leaf_find_key_correct_witness :
  exists i found, btree_leaf_find_key (bt_8k false) (page_of cs_ab) (key_ab Byte.x32) None = Some (n2z i, found) /\
    (i <= length es_ab)%nat /\
    (forall j e, es_ab !! j = Some e -> (j < i)%nat <-> side default_cmp_cb (key_ab Byte.x32) None (entry_version e) = Lt) /\
    (found = true <-> exists j e, es_ab !! j = Some e /\ side default_cmp_cb (key_ab Byte.x32) None (entry_version e) = Eq) /\
    (found = true -> exists e, es_ab !! i = Some e /\ default_cmp_cb (key_ab Byte.x32) (e_key e) = 0).
Proof.
  apply (leaf_find_key_correct (bt_8k false) (page_of cs_ab) es_ab (key_ab Byte.x32) None).
  - apply bt_8k_ok.
  - apply default_cmp_ok.
  - apply rep_ab.
  - apply es_ab_sorted.
Defined.

(** C26: Search and insertion compose: for a key the page does not hold, the
    position found by the search keeps the page sorted, and when the space
    check at that position passes, the insertion there succeeds and yields the
    sorted page with the new entry. *)
Theorem leaf_insert_sorted bt n es e :
  bt_ok bt -> CmpOk (cmp_cb bt) -> leaf_rep bt n es -> leaf_sorted bt es -> entry_ok bt e ->
  Forall (fun e' => cmp_cb bt (e_key e) (e_key e') <> 0) es ->
  exists i full,
    btree_leaf_find_key bt n (e_key e) None = Some (n2z i, false) /\
    btree_leaf_is_full bt n (e_key e) (e_datalen e) None (e_tomb e) false = Some full /\
    leaf_sorted bt (take i es ++ e :: drop i es) /\
    (full = false -> exists n' b,
       btree_leaf_insert_key_index bt n (e_key e) (e_data e) (e_datalen e) (e_info e) i false = Some (n', b) /\
       leaf_rep bt n' (take i es ++ e :: drop i es)).
Proof.
  intros Hbt Hcmp Hrep Hs He Hnew.
  destruct (bsearch_latest_ok (cmp_cb bt) _ Hs (e_key e) None n (leaf_shows bt n es Hbt Hrep)) as (i & Hi & Hsp).
  change (nv_nkeys n) with (nkeys n) in Hi.
  assert (forall j e', es !! j = Some e' -> side (cmp_cb bt) (e_key e) None (entry_version e') =
            if cmp_cb bt (e_key e) (e_key e') <? 0 then Gt else Lt) as Hside.
  { intros j e' Hj. pose proof (Forall_at Hnew Hj) as Hne. cbn beta in Hne.
    rewrite ?side_code. cbn. by rewrite (proj2 (Z.eqb_neq _ _) Hne). }
  assert (hit (cmp_cb bt) (entry_version <$> es) (e_key e) None i = false) as Hhit.
  { unfold hit. rewrite list_lookup_fmap. destruct (es !! i) as [e'|] eqn:E; [|done]. cbn.
    rewrite (Hside i e' E). by case_if. }
  rewrite Hhit in Hi. destruct Hsp as [Hle Hsp]. rewrite length_fmap in Hle.
  destruct (is_full_ok bt Hbt n es i e (e_tomb e) (e_data e) []) as (full & Hf & Hgo);
    [done|done|done|by rewrite app_nil_r|].
  exists i, full. split; [done|]. split.
  { unfold btree_leaf_is_full, btree_leaf_find_key2. rewrite Hi. runs. cbn [fst]. by rewrite Nat2Z.id. }
  split.
  - unfold leaf_sorted. rewrite fmap_app, fmap_cons, fmap_take, fmap_drop.
    apply node_sorted_insert; [done|by rewrite length_fmap|]. intros j v Hj. pose proof (Hsp j v Hj) as Hlt.
    rewrite list_lookup_fmap in Hj. destruct (es !! j) as [e'|] eqn:E; [|done]. injection Hj as <-.
    rewrite (Hside j e' E) in Hlt. pose proof (Forall_at Hnew E) as Hne. cbn beta in Hne.
    pose proof (cmp_antisym (e_key e) (e_key e')). unfold ordered. cbn.
    destruct (Z.ltb_spec (cmp_cb bt (e_key e) (e_key e')) 0).
    + rewrite decide_False by (intros ?; by apply Hlt in H1). left. lia.
    + rewrite decide_True by (by apply Hlt). left. lia.
  - intros Hff. destruct (Hgo Hff) as (n' & b & ? & ? & _). by exists n', b.
Qed.

Lemma leaf_insert_sorted_witness :
  exists i full,
    btree_leaf_find_key (bt_8k false) (page_of cs_ab) (key_ab Byte.x30) None = Some (n2z i, false) /\
    btree_leaf_is_full (bt_8k false) (page_of cs_ab) (key_ab Byte.x30) 2 None false false = Some full /\
    leaf_sorted (bt_8k false) (take i es_ab ++ entry_ab Byte.x30 1 :: drop i es_ab) /\
    (full = false -> exists n' b,
       btree_leaf_insert_key_index (bt_8k false) (page_of cs_ab) (key_ab Byte.x30) [Byte.x30; Byte.x30] 2
         (e_info (entry_ab Byte.x30 1)) i false = Some (n', b) /\
       leaf_rep (bt_8k false) n' (take i es_ab ++ entry_ab Byte.x30 1 :: drop i es_ab)).
Proof.
  apply (leaf_insert_sorted (bt_8k false) (page_of cs_ab) es_ab (entry_ab Byte.x30 1)).
  - apply bt_8k_ok.
  - apply default_cmp_ok.
  - apply rep_ab.
  - apply es_ab_sorted.
  - by apply entry_ab_ok.
  - unfold es_ab. repeat constructor; by vm_compute.
Defined.

(** C35: the search for the next key returns the first entry whose key is
    greater than the given one (all versions of equal keys are skipped), or
    reports that there is none. *)
Theorem leaf_find_right_key_correct bt n es key :
  bt_ok bt -> CmpOk (cmp_cb bt) -> leaf_rep bt n es -> leaf_sorted bt es ->
  exists i, (forall j e, es !! j = Some e -> (j < i)%nat <-> 0 <= cmp_cb bt key (e_key e)) /\
    btree_leaf_find_right_key bt n key =
    Some (n2z i, (fun e => (e_key e, lenZ (e_key e), e_seqno e)) <$> es !! i).
Proof.
  intros Hbt Hcmp Hrep Hs.
  destruct (bsearch_next_ok (cmp_cb bt) _ Hs key None n (leaf_shows bt n es Hbt Hrep))
    as (i & found & Hi & Hle & Hspec & _). change (nv_nkeys n) with (nkeys n) in Hi. rewrite length_fmap in Hle.
  exists i. split.
  { intros j e Hj. apply (Hspec j (entry_version e)). by rewrite list_lookup_fmap, Hj. }
  unfold btree_leaf_find_right_key. rewrite Hi. runs. cbn [fst].
  rewrite (leaf_rep_nkeys bt n es Hrep), (proj2 (Z.leb_le 0 _)), Nat2Z.id by lia. cbn [andb].
  destruct (Z.ltb_spec (n2z i) (lenZ es)) as [Hlt|Hge].
  - destruct (lookup_lt_is_Some_2 es i) as [e He]; [lia|]. rewrite He.
    unfold btree_leaf_get_nth_key, btree_leaf_get_nth_key_info.
    destruct (leaf_rep_read bt Hbt n es i e Hrep He) as (-> & _). done.
  - by rewrite (lookup_ge_None_2 es i) by lia.
Qed.

Lemma leaf_find_right_key_correct_witness :
  exists i, (forall j e, es_ab !! j = Some e -> (j < i)%nat <-> 0 <= default_cmp_cb (key_ab Byte.x31) (e_key e)) /\
    btree_leaf_find_right_key (bt_8k false) (page_of cs_ab) (key_ab Byte.x31) =
    Some (n2z i, (fun e => (e_key e, lenZ (e_key e), e_seqno e)) <$> es_ab !! i).
Proof.
  apply (leaf_find_right_key_correct (bt_8k false) (page_of cs_ab) es_ab (key_ab Byte.x31)).
  - apply bt_8k_ok.
  - apply default_cmp_ok.
  - apply rep_ab.
  - apply es_ab_sorted.
Defined.

(** ** Non-leaf nodes *)

(** An example node of three separators. *)
Definition nl_page (bt : btree_raw) (es : list nent) (rightmost_ : Z) : vnode :=
  mk_vnode 5 0 rightmost_ (key_recs (nodesize bt) es) (key_area es).

Definition es_nl : list nent :=
  [mk_nent (key_ab Byte.x31) 11 3; mk_nent (key_ab Byte.x32) 12 9; mk_nent (key_ab Byte.x32) 13 4].

Lemma nl_ab : nl_rep (bt_8k true) (nl_page (bt_8k true) es_nl 14) es_nl.
Proof. split; [done|done| |by vm_compute]. unfold es_nl. by repeat constructor. Qed.

Lemma nl_ab_sorted : nl_sorted (bt_8k true) es_nl.
Proof.
  intros i j v w Hij Hi Hj.
  destruct i as [|[|[|i]]], j as [|[|[|j]]]; try lia; try done;
    injection Hi as <-; injection Hj as <-; (left; by vm_compute) || (right; by vm_compute).
Qed.

(** C25: a non-leaf node routes a request to the child whose separator is the
    first one not before the request (the rightmost child when there is none),
    and names the children next to it. *)
Theorem non_leaf_routes bt n es key m is_root :
  bt_ok bt -> CmpOk (cmp_cb bt) -> nl_rep bt n es -> nl_sorted bt es -> es <> [] ->
  exists i ci, find_key_non_leaf bt is_root n key m = Some ci /\
    (forall j e, es !! j = Some e -> (j < i)%nat <-> side (cmp_cb bt) key m (ent_version e) = Lt) /\
    nkey_child ci = n2z i /\ child_id ci = child_at n es i /\
    (child_id_before ci = match i with O => BAD_CHILD | S j => child_at n es j end) /\
    (child_id_after ci = if decide (i < length es)%nat then child_at n es (S i) else BAD_CHILD).
Proof.
  intros Hbt Hcmp Hr Hs Hne. destruct (find_key_ok bt Hbt n es key m is_root Hr Hs Hne) as (i & [Hle Hsp] & ->).
  eexists i, _. split; [done|]. split; [|done].
  intros j e Hj. apply Hsp. by rewrite list_lookup_fmap, Hj.
Qed.

Lemma non_leaf_routes_witness :
  let n := nl_page (bt_8k true) es_nl 14 in
  exists i ci, find_key_non_leaf (bt_8k true) false n (key_ab Byte.x32) None = Some ci /\
    (forall j e, es_nl !! j = Some e -> (j < i)%nat <-> side default_cmp_cb (key_ab Byte.x32) None (ent_version e) = Lt) /\
    nkey_child ci = n2z i /\ child_id ci = child_at n es_nl i /\
    (child_id_before ci = match i with O => BAD_CHILD | S j => child_at n es_nl j end) /\
    (child_id_after ci = if decide (i < length es_nl)%nat then child_at n es_nl (S i) else BAD_CHILD).
Proof.
  apply (non_leaf_routes (bt_8k true) (nl_page (bt_8k true) es_nl 14) es_nl (key_ab Byte.x32) None false).
  - apply bt_8k_ok.
  - apply default_cmp_ok.
  - apply nl_ab.
  - apply nl_ab_sorted.
  - done.
Defined.

(** inserting a separator with a positive sequence number that the node does
    not have yet into a non-leaf node that is not full (by the code's own check)
    succeeds, puts it at a position that keeps the node sorted, and leaves the
    other separators and the links alone. *)
Theorem non_leaf_insert_sorted bt n es key seqno_ ptr_ is_root :
  bt_ok bt -> CmpOk (cmp_cb bt) -> nl_rep bt n es -> nl_sorted bt es ->
  key <> [] -> lenZ key <= max_key_size bt -> 0 < seqno_ < 2 ^ 64 ->
  Forall (fun e => cmp_cb bt key (n_key e) = 0 -> n_seqno e <> seqno_) es ->
  is_full_insert bt n = false ->
  exists n' i, insert_key bt is_root n key seqno_ ptr_ = Some n' /\
    nl_rep bt n' (take i es ++ mk_nent key ptr_ seqno_ :: drop i es) /\
    nl_sorted bt (take i es ++ mk_nent key ptr_ seqno_ :: drop i es) /\
    v_rightmost n' = v_rightmost n /\ v_next n' = v_next n.
Proof.
  intros Hbt Hcmp Hr Hs Hk Hmax Hq Hfresh Hfull.
  assert (SIZEOF_NODE_VKEY + lenZ key <= vnode_bytes_free bt n) as Hroom.
  { unfold is_full_insert in Hfull. b2p. rewrite u32_small in Hfull; [lia|].
    rewrite (nl_free bt Hbt n es Hr). pose proof (node_small bt Hbt). destruct Hr as [_ _ _ Hf].
    pose proof (key_bytes_nonneg es). unfold SIZEOF_BTREE_RAW_NODE, SIZEOF_NODE_VKEY in *. lia. }
  unfold insert_key. destruct (decide (es = [])) as [->|Hne].
  - unfold find_key_non_leaf. rewrite (nl_count bt n [] Hr). cbn [length Z.eqb].
    destruct (insert_key_at bt Hbt n [] 0 key seqno_ ptr_ is_root None Hr) as (n' & Hn' & Hr' & Hrm & Hnx & _);
      [done|done|done|done|].
    exists n', 0%nat. split_and?; try done; [by destruct (_ && is_root); exact Hn'|].
    by apply older_split_sorted.
  - destruct (find_key_ok bt Hbt n es key (Some (older_than seqno_)) is_root Hr Hs Hne) as (i & Hsp & ->).
    runs. cbn [pk_insert]. pose proof (proj1 Hsp) as Hle. rewrite length_fmap in Hle.
    destruct (insert_key_at bt Hbt n es i key seqno_ ptr_ is_root _ Hr Hle Hk eq_refl Hroom)
      as (n' & -> & Hr' & Hrm & Hnx & _).
    exists n', i. split_and?; try done. by apply older_split_sorted.
Qed.

Lemma non_leaf_insert_sorted_witness :
  let n := nl_page (bt_8k true) es_nl 14 in
  exists n' i, insert_key (bt_8k true) false n (key_ab Byte.x32) 7 21 = Some n' /\
    nl_rep (bt_8k true) n' (take i es_nl ++ mk_nent (key_ab Byte.x32) 21 7 :: drop i es_nl) /\
    nl_sorted (bt_8k true) (take i es_nl ++ mk_nent (key_ab Byte.x32) 21 7 :: drop i es_nl) /\
    v_rightmost n' = 14 /\ v_next n' = 0.
Proof.
  apply (non_leaf_insert_sorted (bt_8k true) (nl_page (bt_8k true) es_nl 14) es_nl (key_ab Byte.x32) 7 21 false).
  - apply bt_8k_ok.
  - apply default_cmp_ok.
  - apply nl_ab.
  - apply nl_ab_sorted.
  - done.
  - by vm_compute.
  - lia.
  - unfold es_nl. repeat constructor; by vm_compute.
  - by vm_compute.
Defined.

(** C33: deleting a separator removes exactly that record and its bytes; the
    positions of the other keys stay correct. *)
Theorem non_leaf_delete_refines bt n es i e :
  bt_ok bt -> nl_rep bt n es -> es !! i = Some e ->
  exists n', delete_key_by_index_non_leaf bt n i = Some n' /\ nl_rep bt n' (delete i es) /\
    v_rightmost n' = v_rightmost n /\ v_next n' = v_next n.
Proof.
  intros Hbt Hr Hi. unfold delete_key_by_index_non_leaf. rewrite (get_key_stuff_ok bt n es i e Hr Hi). runs.
  destruct (delete_key_ok bt Hbt n es i e Hr Hi) as (n' & ? & ? & ? & ? & _). by exists n'.
Qed.

Lemma non_leaf_delete_refines_witness :
  exists n', delete_key_by_index_non_leaf (bt_8k true) (nl_page (bt_8k true) es_nl 14) 1 = Some n' /\
    nl_rep (bt_8k true) n' (delete 1%nat es_nl) /\ v_rightmost n' = 14 /\ v_next n' = 0.
Proof.
  apply (non_leaf_delete_refines (bt_8k true) (nl_page (bt_8k true) es_nl 14) es_nl 1 (mk_nent (key_ab Byte.x32) 12 9)).
  - apply bt_8k_ok.
  - apply nl_ab.
  - reflexivity.
Defined.

(** In a node without room for another key, the scan of the split stops
    strictly inside. *)
Lemma split_scan_inner bt n es :
  bt_ok bt -> nl_rep bt n es -> Forall (fun e => lenZ (n_key e) <= max_key_size bt) es ->
  4 * (SIZEOF_NODE_VKEY + max_key_size bt) <= nodesize bt - SIZEOF_BTREE_RAW_NODE ->
  nodesize bt - SIZEOF_BTREE_RAW_NODE - lenZ es * SIZEOF_NODE_VKEY - key_bytes es
    < SIZEOF_NODE_VKEY + max_key_size bt ->
  exists k, (0 < k < length es)%nat /\
    split_scan bt n (length es) 0 0 0 ((nodesize bt - SIZEOF_BTREE_RAW_NODE) / 2) None
    = Some (k, key_bytes (take k es), stuff_of <$> es !! (k - 1)%nat).
Proof.
  intros Hbt Hr Hkeys Hmax Hused. set (th := (nodesize bt - SIZEOF_BTREE_RAW_NODE) / 2).
  destruct (split_scan_ok bt n es 0 th (length es) 0 None Hr eq_refl) as (k & Hscan & Hk & Hend & Hall).
  change (key_bytes (take 0 es)) with 0 in Hscan.
  pose proof (bt_less_hdr _ Hbt). pose proof (bt_node _ Hbt).
  assert (2 * th <= nodesize bt - SIZEOF_BTREE_RAW_NODE) as Hth by (apply Z.mul_div_le; lia).
  assert (0 <= th) as Hth0 by (apply Z.div_pos; lia).
  unfold SIZEOF_BTREE_RAW_NODE, SIZEOF_NODE_VKEY in *.
  assert (es <> []) as Hne.
  { intros ->. change (key_bytes []) with 0 in Hused. cbn [length] in Hused. lia. }
  destruct (snoc_of es Hne) as (l & y & Hl).
  assert (length es = S (length l)) as Hlen by (rewrite Hl, length_app; cbn; lia).
  assert (0 < k)%nat as Hk0.
  { destruct k; [|lia]. specialize (Hend ltac:(lia)). unfold stays in Hend.
    change (key_bytes (take 0 es)) with 0 in Hend. cbn [negb Z.eqb andb orb] in Hend. b2p. lia. }
  assert (k <> length es) as Hkl.
  { intros ->. specialize (Hall (length l) ltac:(lia)). unfold stays, SIZEOF_NODE_VKEY in Hall.
    cbn [negb Z.eqb andb orb] in Hall. b2p. rewrite Hl, take_app_length in Hall.
    assert (lenZ (n_key y) <= max_key_size bt) as Hy.
    { apply (Forall_lookup_1 _ _ (length l) y Hkeys). rewrite Hl. by apply list_lookup_middle. }
    rewrite Hl, key_bytes_app, key_bytes_cons in Hused. change (key_bytes []) with 0 in Hused.
    rewrite length_app in Hused. cbn [length] in Hused. lia. }
  exists k. split; [lia|]. by rewrite decide_True in Hscan by lia.
Qed.

(** a full non-leaf node can always be split. When the code's check calls
    the node full and the maximal key takes at most a quarter of the page (what
    [btree_raw_init] enforces), the split passes its assertion, the two nodes
    share the separators with one in between moving up, and its child becomes
    the rightmost one on the left. *)
Theorem non_leaf_split_total bt n es to :
  bt_ok bt -> nl_rep bt n es -> Forall (fun e => lenZ (n_key e) <= max_key_size bt) es ->
  4 * (SIZEOF_NODE_VKEY + max_key_size bt) <= nodesize bt - SIZEOF_BTREE_RAW_NODE ->
  is_full_insert bt n = true ->
  exists from' to' k e, split_copy bt n to 0 = Some (from', to', stuff_of e) /\
    es !! k = Some e /\ (S k < length es)%nat /\
    nl_rep bt from' (take k es) /\ v_rightmost from' = n_ptr e /\
    nl_rep bt to' (drop (S k) es) /\ v_rightmost to' = v_rightmost n.
Proof.
  intros Hbt Hr Hkeys Hmax Hfull. pose proof (node_small bt Hbt) as Hns.
  assert (nodesize bt - SIZEOF_BTREE_RAW_NODE - lenZ es * SIZEOF_NODE_VKEY - key_bytes es
          < SIZEOF_NODE_VKEY + max_key_size bt) as Hused.
  { unfold is_full_insert in Hfull. b2p. rewrite (nl_free bt Hbt n es Hr) in Hfull.
    destruct Hr as [_ _ _ Hf]. pose proof (key_bytes_nonneg es).
    unfold SIZEOF_BTREE_RAW_NODE, SIZEOF_NODE_VKEY in *. rewrite u32_small in Hfull; lia. }
  destruct (split_scan_inner bt n es Hbt Hr Hkeys Hmax Hused) as (k & Hkr & Hscan).
  destruct (lookup_lt_is_Some_2 es (k - 1)) as [e He]; [lia|].
  rewrite He in Hscan. cbn [fmap option_fmap option_map] in Hscan.
  destruct (split_copy_at bt Hbt n es to k e 0 Hr Hkr He Hscan)
    as (f & t & Hsp & Hf & Hrf & Ht & Hrt & _).
  exists f, t, (k - 1)%nat, e. replace (S (k - 1)) with k by lia. split_and?; try done. lia.
Qed.

(** A node of keys of about a quarter of the page. *)
Definition es_full : list nent :=
  (fun b => mk_nent (replicate 1900 Byte.x61 ++ [b]) 1 1) <$> [Byte.x31; Byte.x32; Byte.x33; Byte.x34].

Lemma nl_full : nl_rep (bt_8k true) (nl_page (bt_8k true) es_full 14) es_full.
Proof. split; [done|done| |by vm_compute]. unfold es_full. cbn [fmap list_fmap]. by repeat constructor. Qed.

Lemma non_leaf_split_total_witness :
  let n := nl_page (bt_8k true) es_full 14 in
  exists from' to' k e, split_copy (bt_8k true) n (nl_page (bt_8k true) [] 0) 0 = Some (from', to', stuff_of e) /\
    es_full !! k = Some e /\ (S k < length es_full)%nat /\
    nl_rep (bt_8k true) from' (take k es_full) /\ v_rightmost from' = n_ptr e /\
    nl_rep (bt_8k true) to' (drop (S k) es_full) /\ v_rightmost to' = 14.
Proof.
  apply (non_leaf_split_total (bt_8k true) (nl_page (bt_8k true) es_full 14) es_full (nl_page (bt_8k true) [] 0)).
  - apply bt_8k_ok.
  - apply nl_full.
  - unfold es_full. cbn [fmap list_fmap]. repeat constructor; by vm_compute.
  - by vm_compute.
  - by vm_compute.
Defined.

(** C34: merging undoes splitting: for every split of a non-leaf node, merging
    the right node back into the left one with the separator that moved up
    gives a node with the original separators and rightmost child. *)
Theorem non_leaf_merge_split bt n es to k e sk from' to' :
  bt_ok bt -> nl_rep bt n es -> (0 < k < length es)%nat -> es !! (k - 1)%nat = Some e ->
  split_scan bt n (length es) 0 0 sk ((nodesize bt - SIZEOF_BTREE_RAW_NODE) / 2) None
    = Some (k, key_bytes (take k es), Some (stuff_of e)) ->
  split_copy bt n to sk = Some (from', to', stuff_of e) ->
  exists n', merge_nodes_non_leaf bt to' from' (n_key e) (n_seqno e) = Some (n', true) /\
    nl_rep bt n' es /\ v_rightmost n' = v_rightmost n.
Proof.
  intros Hbt Hr Hk He Hscan Hsp.
  destruct (split_copy_at bt Hbt n es to k e sk Hr Hk He Hscan) as (f & t & Hsp' & Hf & Hrf & Ht & Hrt & _).
  rewrite Hsp in Hsp'. injection Hsp' as <- <-.
  pose proof (Forall_at (nr_nonempty _ _ _ Hr) He) as Hke. cbn beta in Hke.
  pose proof (merge_ok bt Hbt to' _ from' _ (n_key e) (n_seqno e) Ht Hf Hke) as Hm. cbn zeta in Hm.
  rewrite Hrf in Hm.
  assert (take (k - 1) es ++ mk_nent (n_key e) (n_ptr e) (n_seqno e) :: drop k es = es) as Hes.
  { replace (mk_nent (n_key e) (n_ptr e) (n_seqno e)) with e by (by destruct e).
    replace k with (S (k - 1)) at 2 by lia. by apply take_drop_middle. }
  rewrite Hes, (proj2 (Z.leb_le _ _) (nr_fit _ _ _ Hr)) in Hm.
  destruct Hm as (n' & ? & ? & ? & _). exists n'. split_and?; try done. congruence.
Qed.

Lemma non_leaf_merge_split_witness :
  let bt := bt_8k true in
  let n := nl_page bt es_nl 14 in
  match split_copy bt n (nl_page bt [] 0) 2 with
  | Some (from', to', _) =>
      exists n', merge_nodes_non_leaf bt to' from' (key_ab Byte.x32) 9 = Some (n', true) /\
        nl_rep bt n' es_nl /\ v_rightmost n' = 14
  | None => False
  end.
Proof.
  apply (non_leaf_merge_split (bt_8k true) (nl_page (bt_8k true) es_nl 14) es_nl (nl_page (bt_8k true) [] 0)
           2 (mk_nent (key_ab Byte.x32) 12 9) 2).
  - apply bt_8k_ok.
  - apply nl_ab.
  - cbn. lia.
  - reflexivity.
  - reflexivity.
  - reflexivity.
Defined.
