(* ===== verification/TreeFlat.v ===== *)
(** * A tree seen as the sequence of its leaves

    In-order traversal turns a tree into a list of leaves, each with the
    separator on its right (none for the last leaf). A separator is an upper
    bound of the versions left of it, not necessarily one of them: updates in
    place and the scavenger change the last entry of a leaf and leave the
    separator alone. [flat_in] says that the sequence is sorted, [covers] that
    a request that meets a separator left of some of its versions finds one
    of them in the leaf before the separator. *)

From S2P Require Import Prelude Status LeafMeta LeafNode LeafOps LeafCells LeafEncode LeafFixup LeafSpec LeafRefine LeafPlain LeafMove NodeSearch LeafTheorems NodeSearchSpec NonLeaf NonLeafSpec NodeTheorems.

Section flat.
Context (cmp : list byte -> list byte -> Z) `{!CmpOk cmp}.

(** ** The order of versions *)

Definition vle (v w : version) : Prop := cmp v.1 w.1 < 0 \/ (cmp v.1 w.1 = 0 /\ w.2 <= v.2).

Lemma ordered_vle v w : ordered cmp v w -> vle v w.
Proof using Type. unfold ordered, vle. lia. Qed.

Lemma vle_refl v : vle v v.
Proof using CmpOk0. right. split; [apply (cmp_refl cmp)|lia]. Qed.

Lemma cmp_eq_l a b c : cmp a b = 0 -> Z.sgn (cmp a c) = Z.sgn (cmp b c).
Proof using CmpOk0.
  intros Hab. pose proof (cmp_antisym a b). pose proof (cmp_antisym a c). pose proof (cmp_antisym b c).
  pose proof (cmp_trans a b c). pose proof (cmp_trans b a c). pose proof (cmp_trans c a b). pose proof (cmp_trans c b a).
  lia.
Qed.

Lemma vle_ordered a b c : vle a b -> ordered cmp b c -> ordered cmp a c.
Proof using CmpOk0.
  unfold vle, ordered. intros [Hab|[Hab Hs]] [Hbc|[Hbc Hs']].
  - left. apply (cmp_lt_trans' cmp _ b.1); lia.
  - left. apply (cmp_lt_trans' cmp _ b.1); lia.
  - left. apply (cmp_lt_trans cmp _ b.1); lia.
  - right. pose proof (cmp_eq_l a.1 b.1 c.1 Hab). lia.
Qed.

Lemma ordered_trans a b c : ordered cmp a b -> ordered cmp b c -> ordered cmp a c.
Proof using CmpOk0. intros H. apply vle_ordered. by apply ordered_vle. Qed.

Lemma ordered_vle_trans a b c : ordered cmp a b -> vle b c -> ordered cmp a c.
Proof using CmpOk0.
  unfold vle, ordered. intros [Hab|[Hab Hs]] [Hbc|[Hbc Hs']].
  - left. apply (cmp_lt_trans' cmp _ b.1); lia.
  - left. apply (cmp_lt_trans' cmp _ b.1); lia.
  - left. apply (cmp_lt_trans cmp _ b.1); lia.
  - right. pose proof (cmp_eq_l a.1 b.1 c.1 Hab). lia.
Qed.

Lemma vle_trans a b c : vle a b -> vle b c -> vle a c.
Proof using CmpOk0.
  unfold vle. intros [Hab|[Hab Hs]] [Hbc|[Hbc Hs']].
  - left. apply (cmp_lt_trans' cmp _ b.1); lia.
  - left. apply (cmp_lt_trans' cmp _ b.1); lia.
  - left. apply (cmp_lt_trans cmp _ b.1); lia.
  - right. pose proof (cmp_eq_l a.1 b.1 c.1 Hab). lia.
Qed.

Lemma ordered_irrefl v : ~ ordered cmp v v.
Proof using CmpOk0. unfold ordered. pose proof (cmp_refl cmp v.1). lia. Qed.

Lemma side_mono_vle key m v w :
  vle v w -> (side cmp key m w = Lt -> side cmp key m v = Lt) /\ (side cmp key m v = Gt -> side cmp key m w = Gt).
Proof using CmpOk0.
  intros Hle. destruct (decide (cmp v.1 w.1 = 0 /\ v.2 = w.2)) as [[Hk Hs]|Hne].
  - assert (side cmp key m v = side cmp key m w) as E; [|by rewrite E].
    rewrite ?side_code. rewrite Hs. pose proof (cmp_antisym v.1 w.1). pose proof (cmp_eq_l v.1 w.1 key Hk).
    pose proof (cmp_antisym v.1 key). pose proof (cmp_antisym w.1 key).
    destruct (Z.eqb_spec (cmp key v.1) 0), (Z.eqb_spec (cmp key w.1) 0); try lia; [done|].
    destruct (Z.ltb_spec (cmp key v.1) 0), (Z.ltb_spec (cmp key w.1) 0); try lia; done.
  - apply side_mono; [done|]. unfold vle, ordered in *. lia.
Qed.

(** ** Leaves with their bounds *)

Abbreviation fleaf := (list entry * option version)%type.
Abbreviation ver := entry_version.

Definition entries (fl : list fleaf) : list entry := concat (fl.*1).

Lemma entries_app f1 f2 : entries (f1 ++ f2) = entries f1 ++ entries f2.
Proof using Type. unfold entries. by rewrite fmap_app, concat_app. Qed.
Lemma entries_cons es b fl : entries ((es, b) :: fl) = es ++ entries fl.
Proof using Type. done. Qed.

Definition above (lo : option version) (v : version) : Prop :=
  match lo with Some l => ordered cmp l v | None => True end.
Definition below (v : version) (hi : option version) : Prop :=
  match hi with Some h => vle v h | None => True end.

Definition vsorted (es : list entry) : Prop := node_sorted cmp (ver <$> es).

(** The entries of a leaf lie above [lo] and not above [hi]. *)
Record leaf_in (lo : option version) (es : list entry) (hi : option version) : Prop := {
  li_sorted : vsorted es;
  li_above : forall e, e ∈ es -> above lo (ver e);
  li_below : forall e, e ∈ es -> below (ver e) hi;
  li_bounds : forall h, hi = Some h -> above lo h
}.

Fixpoint flat_in (lo : option version) (fl : list fleaf) (hi : option version) : Prop :=
  match fl with
  | [] => False
  | (es, b) :: fl =>
      leaf_in lo es b /\
      match fl with
      | [] => b = hi
      | _ => match b with Some v => flat_in (Some v) fl hi | None => False end
      end
  end.

Lemma flat_in_cons lo es b fl hi :
  fl <> [] -> flat_in lo ((es, b) :: fl) hi <-> exists v, b = Some v /\ leaf_in lo es b /\ flat_in (Some v) fl hi.
Proof using Type.
  intros Hne. destruct fl as [|x fl]; [done|]. change (flat_in lo ((es, b) :: x :: fl) hi) with
    (leaf_in lo es b /\ match b with Some v => flat_in (Some v) (x :: fl) hi | None => False end).
  destruct b as [v|]; split.
  - intros [H1 H2]. by exists v.
  - intros (w & [= ->] & H). done.
  - by intros [_ []].
  - by intros (w & ? & _).
Qed.

Lemma flat_in_one lo es b hi : flat_in lo [(es, b)] hi <-> leaf_in lo es b /\ b = hi.
Proof using Type. done. Qed.

Lemma flat_in_ne lo fl hi : flat_in lo fl hi -> fl <> [].
Proof using Type. by destruct fl. Qed.

Lemma flat_in_app lo f1 f2 hi :
  f1 <> [] -> f2 <> [] ->
  flat_in lo (f1 ++ f2) hi <-> exists v, flat_in lo f1 (Some v) /\ flat_in (Some v) f2 hi.
Proof using Type.
  intros Hne1 Hne2. revert lo; induction f1 as [|[es b] f1 IH]; intros lo; [done|].
  destruct f1 as [|x f1].
  - cbn [app]. rewrite flat_in_cons by done. setoid_rewrite flat_in_one. split.
    + intros (v & -> & Hl & Hf). by exists v.
    + intros (v & [Hl ->] & Hf). by exists v.
  - change (((es, b) :: x :: f1) ++ f2) with ((es, b) :: (x :: f1) ++ f2).
    rewrite flat_in_cons by done. setoid_rewrite flat_in_cons; [|done]. setoid_rewrite IH; [|done]. split.
    + intros (v & -> & Hl & w & H1 & H2). exists w. split; [|done]. by exists v.
    + intros (w & (v & -> & Hl & H1) & H2). exists v. split; [done|]. split; [done|]. by exists w.
Qed.

(** ** What a sorted sequence gives *)

Lemma vsorted_app es1 es2 :
  vsorted (es1 ++ es2) <->
  vsorted es1 /\ vsorted es2 /\ forall e1 e2, e1 ∈ es1 -> e2 ∈ es2 -> ordered cmp (ver e1) (ver e2).
Proof using Type.
  unfold vsorted. rewrite fmap_app. split.
  - intros Hs. split_and!.
    + intros i j v w Hij Hi Hj. apply (Hs i j); [done|by apply lookup_app_l_Some..].
    + intros i j v w Hij Hi Hj. set (k := length (ver <$> es1)).
      apply (Hs (k + i) (k + j))%nat; [lia|..]; unfold k; by rewrite lookup_app_add.
    + intros e1 e2 (i & Hi)%list_elem_of_lookup_1 (j & Hj)%list_elem_of_lookup_1.
      apply (Hs i (length es1 + j)%nat).
      * pose proof (lookup_lt_Some _ _ _ Hi). lia.
      * apply lookup_app_l_Some. by rewrite list_lookup_fmap, Hi.
      * rewrite <- (length_fmap ver), lookup_app_add, list_lookup_fmap, Hj. done.
  - intros (H1 & H2 & H12) i j v w Hij Hi Hj.
    apply lookup_app_Some in Hi as [Hi|[Hli Hi]], Hj as [Hj|[Hlj Hj]].
    + by apply (H1 i j).
    + rewrite list_lookup_fmap in Hi, Hj. destruct (es1 !! i) as [e1|] eqn:E1; [|done].
      destruct (es2 !! _) as [e2|] eqn:E2; [|done]. injection Hi as <-. injection Hj as <-.
      apply H12; by eapply list_elem_of_lookup_2.
    + apply lookup_lt_Some in Hj. lia.
    + apply (H2 (i - length (ver <$> es1)) (j - length (ver <$> es1)))%nat; [lia|done|done].
Qed.

Lemma flat_entries lo fl hi :
  flat_in lo fl hi ->
  vsorted (entries fl) /\ (forall e, e ∈ entries fl -> above lo (ver e) /\ below (ver e) hi) /\
  (forall h, hi = Some h -> above lo h).
Proof using CmpOk0.
  revert lo; induction fl as [|[es b] fl IH]; intros lo; [done|]. destruct fl as [|x fl].
  - rewrite flat_in_one. intros [[Hs Ha Hb Hh] <-]. rewrite entries_cons, app_nil_r. auto.
  - rewrite flat_in_cons by done. intros (v & -> & [Hs Ha Hb Hh] & Hf). destruct (IH _ Hf) as (Hs' & Hin & Hh').
    pose proof (Hh v eq_refl) as Hlv. set (rest := x :: fl) in *. rewrite entries_cons. split_and!.
    + apply vsorted_app. split_and!; [done|done|]. intros e1 e2 H1 H2.
      apply (vle_ordered _ v); [by apply (Hb e1 H1)|by apply (Hin e2 H2)].
    + intros e [He|He]%elem_of_app.
      * split; [by apply Ha|]. destruct hi as [h|]; [|done]. specialize (Hh' h eq_refl). specialize (Hb e He).
        cbn in *. apply (vle_trans _ v); [done|by apply ordered_vle].
      * destruct (Hin e He) as [H1 H2]. split; [|done]. destruct lo as [l|]; [|done]. cbn in *.
        by apply (ordered_trans _ v).
    + intros h ->. specialize (Hh' h eq_refl). destruct lo as [l|]; [|done]. cbn in *. by apply (ordered_trans _ v).
Qed.

(** The bounds of a sequence other than the last lie strictly between. *)
Lemma flat_bounds lo fl hi b :
  flat_in lo fl hi -> b ∈ fl.*2 -> (forall v, b = Some v -> above lo v /\ below v hi) /\ (b = None -> hi = None).
Proof using CmpOk0.
  revert lo; induction fl as [|[es c] fl IH]; intros lo; [done|]. destruct fl as [|x fl].
  - rewrite flat_in_one. intros [[_ _ _ Hh] <-]. cbn. intros ->%list_elem_of_singleton. split; [|done].
    intros v ->. split; [by apply Hh|apply vle_refl].
  - rewrite flat_in_cons by done. intros (v & -> & [_ _ _ Hh] & Hf). set (rest := x :: fl) in *.
    specialize (Hh v eq_refl). destruct (flat_entries _ _ _ Hf) as (_ & _ & Hh'). cbn [fmap list_fmap snd].
    intros [->|Hb]%elem_of_cons.
    + split; [|done]. intros w [= <-]. split; [done|]. destruct hi as [h|]; [|done].
      apply ordered_vle. by apply (Hh' h).
    + destruct (IH _ Hf Hb) as [H1 H2]. split; [|done]. intros w ->. destruct (H1 w eq_refl) as [H3 H4].
      split; [|done]. destruct lo as [l|]; [|done]. cbn in *. by apply (ordered_trans _ v).
Qed.

(** ** Requests *)

Section request.
Context (key : list byte) (m : option btree_metadata).
Abbreviation sd := (side cmp key m).

(** What a read finds: the newest of the requested versions. *)
Definition answer (es : list entry) : option entry := list.head (filter (fun e => sd (ver e) = Eq) es).

(** The request lies behind the bound. *)
Definition passed (b : option version) : Prop :=
  match b with Some v => sd v = Lt | None => False end.

#[global] Instance passed_dec b : Decision (passed b).
Proof using Type. destruct b; cbn; apply _. Defined.

Lemma passed_entries lo fl hi :
  flat_in lo fl hi -> passed hi -> forall e, e ∈ entries fl -> sd (ver e) = Lt.
Proof using CmpOk0.
  intros Hf Hp e He. destruct hi as [h|]; [|done]. destruct (flat_entries _ _ _ Hf) as (_ & Hin & _).
  apply (side_mono_vle key m _ h); [by apply (Hin e He)|done].
Qed.

Lemma passed_bounds lo fl hi :
  flat_in lo fl hi -> passed hi -> Forall passed fl.*2.
Proof using CmpOk0.
  intros Hf Hp. apply Forall_lookup_2. intros i b Hb%list_elem_of_lookup_2.
  destruct (flat_bounds _ _ _ _ Hf Hb) as [H1 H2]. destruct hi as [h|]; [|done]. destruct b as [v|]; [|by specialize (H2 eq_refl)].
  destruct (H1 v eq_refl) as [_ Hle]. by apply (side_mono_vle key m _ h).
Qed.

(** The leaf a request belongs to: the first whose bound it does not pass. *)
Definition located (fl : list fleaf) (pre : list fleaf) (es : list entry) (b : option version) (post : list fleaf) : Prop :=
  fl = pre ++ (es, b) :: post /\ Forall passed pre.*2 /\ ~ passed b.

Lemma located_app_r f1 fl f2 pre es b post :
  Forall passed f1.*2 -> located fl pre es b post -> located (f1 ++ fl ++ f2) (f1 ++ pre) es b (post ++ f2).
Proof using Type.
  intros H1 (-> & Hp & Hb). split; [|split; [|done]].
  - by rewrite <- !app_assoc.
  - rewrite fmap_app. by apply Forall_app.
Qed.

Lemma located_unique fl pre es b post pre' es' b' post' :
  located fl pre es b post -> located fl pre' es' b' post' -> pre = pre' /\ es = es' /\ b = b' /\ post = post'.
Proof using Type.
  intros (E & Hp & Hb) (E' & Hp' & Hb'). rewrite E in E'. clear E fl.
  revert pre' Hp' E'; induction pre as [|x pre IH]; intros [|y pre'] Hp' E'; cbn in *.
  - by simplify_eq.
  - simplify_eq. by apply Forall_cons_iff in Hp' as [Hp' _].
  - simplify_eq. by apply Forall_cons_iff in Hp as [Hp _].
  - injection E' as -> E'. apply Forall_cons_iff in Hp as [_ Hp], Hp' as [_ Hp'].
    destruct (IH Hp pre' Hp' E') as (-> & ? & ? & ?). done.
Qed.

(** Whoever meets a separator left of some of the requested versions finds
    one of them right before it. *)
Fixpoint covers (fl : list fleaf) : Prop :=
  match fl with
  | [] => True
  | (es, b) :: fl =>
      (~ passed b -> (exists e, e ∈ entries fl /\ sd (ver e) = Eq) -> exists e, e ∈ es /\ sd (ver e) = Eq) /\
      covers fl
  end.

Lemma covers_app_r f1 f2 : covers (f1 ++ f2) -> covers f2.
Proof using Type. induction f1 as [|[es b] f1 IH]; [done|]. intros [_ H]. by apply IH. Qed.

Lemma answer_None es : answer es = None <-> forall e, e ∈ es -> sd (ver e) <> Eq.
Proof using Type.
  unfold answer. split.
  - intros H e He Heq. assert (e ∈ filter (fun e => sd (ver e) = Eq) es) as Hin by (by apply list_elem_of_filter).
    destruct (filter _ es); [by apply not_elem_of_nil in Hin|done].
  - intros H. by rewrite (filter_none es).
Qed.

Lemma answer_app es1 es2 :
  answer (es1 ++ es2) = match answer es1 with Some e => Some e | None => answer es2 end.
Proof using Type. unfold answer. rewrite list.filter_app. by destruct (filter _ es1). Qed.

Lemma answer_Some es e : answer es = Some e -> e ∈ es /\ sd (ver e) = Eq.
Proof using Type.
  unfold answer. intros H. assert (e ∈ filter (fun e => sd (ver e) = Eq) es) as Hin.
  { destruct (filter _ es); [done|]. injection H as ->. left. }
  by apply list_elem_of_filter in Hin as [? ?].
Qed.

(** The leaf of a request answers for the whole tree. *)
Lemma answer_located lo fl hi pre es b post :
  flat_in lo fl hi -> covers fl -> located fl pre es b post -> answer (entries fl) = answer es.
Proof using CmpOk0.
  intros Hf Hc (-> & Hp & Hb). rewrite entries_app, entries_cons, !answer_app.
  assert (answer (entries pre) = None) as ->.
  { apply answer_None. intros e He. destruct (decide (pre = [])) as [->|Hne]; [by apply not_elem_of_nil in He|].
    apply flat_in_app in Hf as (v & Hf & _); [|done|done].
    rewrite (passed_entries _ _ _ Hf); [done| |done].
    clear -Hf Hp Hne. revert lo Hf; induction pre as [|[es b] pre IH]; intros lo Hf; [done|].
    apply Forall_cons_iff in Hp as [Hp1 Hp]. destruct pre as [|x pre].
    - apply flat_in_one in Hf as [_ <-]. done.
    - apply flat_in_cons in Hf as (w & -> & _ & Hf); [|done]. by apply (IH Hp ltac:(done) _ Hf). }
  destruct (answer es) as [e|] eqn:Ea; [done|]. apply answer_None. intros e He Heq.
  apply covers_app_r in Hc as [Hc _]. destruct (Hc Hb (ex_intro _ e (conj He Heq))) as (e' & He' & Heq').
  by apply (proj1 (answer_None es) Ea e').
Qed.

(** ** Changing a leaf *)

(** A change of the contents of one leaf: new matches only where the request
    arrives, lost matches only when nothing to the right matches. *)
Lemma covers_change pre es es' b post :
  ((exists e, e ∈ es' /\ sd (ver e) = Eq) -> (exists e, e ∈ es /\ sd (ver e) = Eq) \/ Forall passed pre.*2) ->
  ((exists e, e ∈ es /\ sd (ver e) = Eq) -> (exists e, e ∈ es' /\ sd (ver e) = Eq) \/
     forall e, e ∈ entries post -> sd (ver e) <> Eq) ->
  covers (pre ++ (es, b) :: post) -> covers (pre ++ (es', b) :: post).
Proof using Type.
  intros Hnew Hlost. induction pre as [|[x c] pre IH]; cbn [app].
  - intros [H1 H2]. split; [|done]. intros Hb Hex. destruct (Hlost (H1 Hb Hex)) as [?|Hno]; [done|].
    destruct Hex as (e & He & Heq). by destruct (Hno e He).
  - intros [H1 H2]. split.
    + intros Hb (e & He & Heq). rewrite entries_app, entries_cons in He.
      apply H1; [done|]. rewrite entries_app, entries_cons.
      apply elem_of_app in He as [He|[He|He]%elem_of_app].
      * exists e. split; [|done]. apply elem_of_app. by left.
      * destruct Hnew as [(e' & He' & Heq')|Hp]; [by exists e| |].
        -- exists e'. split; [|done]. apply elem_of_app. right. apply elem_of_app. by left.
        -- by apply Forall_cons_iff in Hp as [Hp _].
      * exists e. split; [|done]. apply elem_of_app. right. apply elem_of_app. by right.
    + apply IH; [|done]. intros Hex. destruct (Hnew Hex) as [?|Hp]; [by left|right].
      by apply Forall_cons_iff in Hp as [_ Hp].
Qed.

(** A leaf is divided after an entry, whose version becomes the bound. *)
Lemma covers_split lo hi pre es1 e es2 b post :
  flat_in lo (pre ++ (es1 ++ e :: es2, b) :: post) hi -> es2 <> [] ->
  covers (pre ++ (es1 ++ e :: es2, b) :: post) ->
  covers (pre ++ (es1 ++ [e], Some (ver e)) :: (es2, b) :: post).
Proof using CmpOk0.
  intros Hf Hne. destruct (flat_entries _ _ _ Hf) as (Hs & _ & _). clear Hf.
  induction pre as [|[x c] pre IH]; cbn [app] in *.
  - rewrite entries_cons in Hs. intros [H1 H2].
    assert (vsorted (es1 ++ [e] ++ es2 ++ entries post)) as Hs'.
    { cbn. by rewrite <- app_assoc in Hs. }
    apply vsorted_app in Hs' as (_ & Hs' & Ho1). apply vsorted_app in Hs' as (_ & Hs' & Ho2).
    apply vsorted_app in Hs' as (_ & _ & Ho3). split; [|split; [|done]].
    + intros Hb (e' & He' & Heq'). exists e. split; [apply elem_of_app; right; by apply list_elem_of_singleton|].
      destruct (sd (ver e)) eqn:E; [done|by destruct Hb|]. exfalso.
      rewrite entries_cons in He'.
      assert (sd (ver e') = Gt); [|congruence]. apply (side_mono cmp key m (ver e)); [|done].
      apply Ho2; [by apply list_elem_of_singleton|done].
    + intros Hb Hex. destruct (H1 Hb Hex) as (e1 & He1 & Heq1).
      apply elem_of_app in He1 as [He1|[->|He1]%elem_of_cons]; [| |by exists e1].
      all: destruct es2 as [|e2 es2]; [done|]; exists e2; split; [left|];
        destruct Hex as (e3 & He3 & Heq3); assert (sd (ver e2) <> Lt /\ sd (ver e2) <> Gt) as [? ?];
        [|by destruct (sd (ver e2))].
      all: split; intros Hbad.
      all: try (assert (sd (ver e3) = Gt); [|congruence]; apply (side_mono cmp key m (ver e2)); [|done];
                apply Ho3; [left|done]).
      * assert (sd (ver e1) = Lt); [|congruence]. apply (side_mono cmp key m _ (ver e2)); [|done].
        apply Ho1; [done|]. cbn. right. left.
      * assert (sd (ver e) = Lt); [|congruence]. apply (side_mono cmp key m _ (ver e2)); [|done].
        apply Ho2; [by apply list_elem_of_singleton|left].
  - intros [H1 H2]. rewrite entries_cons in Hs. apply vsorted_app in Hs as (_ & Hs & _).
    split; [|by apply IH]. intros Hb Hex. apply H1; [done|]. destruct Hex as (e' & He' & Heq').
    exists e'. split; [|done]. rewrite !entries_app, !entries_cons in *.
    replace ((es1 ++ e :: es2) ++ entries post) with ((es1 ++ [e]) ++ es2 ++ entries post); [done|].
    by rewrite <- !app_assoc.
Qed.
End request.

(** ** Replacing a part of the sequence *)

Lemma flat_last lo fl v : flat_in lo fl (Some v) -> list.last fl.*2 = Some (Some v).
Proof using Type.
  revert lo; induction fl as [|[es b] fl IH]; intros lo; [done|]. destruct fl as [|x fl].
  - by intros [_ ->]%flat_in_one.
  - intros (w & -> & _ & Hf)%flat_in_cons; [|done]. by apply (IH _ Hf).
Qed.

Lemma flat_zoom lo pre mid post hi :
  mid <> [] -> flat_in lo (pre ++ mid ++ post) hi ->
  exists l h, flat_in l mid h /\ (pre = [] /\ l = lo \/ exists v, l = Some v /\ list.last pre.*2 = Some (Some v)) /\
    (forall mid', flat_in l mid' h -> flat_in lo (pre ++ mid' ++ post) hi).
Proof using Type.
  intros Hm Hf.
  assert (exists l, flat_in l (mid ++ post) hi /\ (pre = [] /\ l = lo \/ exists v, l = Some v /\ list.last pre.*2 = Some (Some v)) /\
    (forall f, f <> [] -> flat_in l f hi -> flat_in lo (pre ++ f) hi)) as (l & H1 & H2 & H3).
  { destruct (decide (pre = [])) as [->|Hne].
    - exists lo. split; [done|]. split; [by left|done].
    - apply flat_in_app in Hf as (v & Hp & Hf); [|done|by destruct mid]. exists (Some v). split; [done|]. split.
      + right. exists v. split; [done|]. by apply flat_last in Hp.
      + intros f Hfn Hff. apply flat_in_app; [done..|]. by exists v. }
  assert (exists h, flat_in l mid h /\ forall mid', flat_in l mid' h -> flat_in l (mid' ++ post) hi) as (h & H4 & H5).
  { destruct (decide (post = [])) as [->|Hne].
    - exists hi. rewrite app_nil_r in H1. split; [done|]. intros mid' Hm'. by rewrite app_nil_r.
    - apply flat_in_app in H1 as (v & Hp & Hf'); [|done|done]. exists (Some v). split; [done|].
      intros mid' Hm'. apply flat_in_app; [by eapply flat_in_ne|done|]. by exists v. }
  exists l, h. split; [done|]. split; [done|]. intros mid' Hm'. apply H3; [|by apply H5].
  apply flat_in_ne in Hm'. by destruct mid'.
Qed.

(** The leaf of a request, with the lower bound the request has passed. *)
Lemma flat_leaf key m lo fl hi pre es b post :
  flat_in lo fl hi -> located key m fl pre es b post ->
  exists l, leaf_in l es b /\ (l = lo \/ passed key m l) /\
    (forall mid, flat_in l mid b -> flat_in lo (pre ++ mid ++ post) hi).
Proof using Type.
  intros Hf (-> & Hp & Hb). destruct (flat_zoom lo pre [(es, b)] post hi) as (l & h & H1 & H2 & H3); [done|done|].
  apply flat_in_one in H1 as [H1 ->]. exists l. split; [done|]. split; [|done].
  destruct H2 as [[_ ->]|(v & -> & Hv)]; [by left|right].
  rewrite last_lookup in Hv. apply (Forall_at Hp Hv).
Qed.

Lemma leaf_split_in l es1 e es2 b :
  leaf_in l (es1 ++ e :: es2) b -> es2 <> [] ->
  flat_in l [(es1 ++ [e], Some (ver e)); (es2, b)] b.
Proof using CmpOk0.
  intros [Hs Ha Hb Hh] Hne. replace (es1 ++ e :: es2) with ((es1 ++ [e]) ++ es2) in * by (by rewrite <- app_assoc).
  apply vsorted_app in Hs as (Hs1 & Hs2 & Ho).
  assert (e ∈ es1 ++ [e]) as Hin by (apply elem_of_app; right; by apply list_elem_of_singleton).
  apply flat_in_cons; [done|]. exists (ver e). split; [done|]. split.
  - split; [done| | |].
    + intros x Hx. apply Ha, elem_of_app. by left.
    + intros x [Hx|Hx%list_elem_of_singleton]%elem_of_app; [|subst; apply vle_refl].
      apply vsorted_app in Hs1 as (_ & _ & Ho1). apply ordered_vle, Ho1; [done|by apply list_elem_of_singleton].
    + intros h [= <-]. apply Ha, elem_of_app. by left.
  - apply flat_in_one. split; [|done]. split; [done| | |].
    + intros x Hx. cbn. by apply Ho.
    + intros x Hx. apply Hb, elem_of_app. by right.
    + intros h ->. cbn. destruct es2 as [|e2 es2]; [done|].
      apply (ordered_vle_trans _ (ver e2)); [apply Ho; [done|left]|]. apply (Hb e2), elem_of_app. right. left.
Qed.

(** ** The invariant of the sequence *)

(** The read condition of a snapshot, and the conditions readers use. *)
Definition at_snapshot (s : Z) : option btree_metadata :=
  Some (mk_btree_metadata false true false 0 0 s).
Definition reads (snaps : list Z) (m : option btree_metadata) : Prop :=
  m = None \/ exists s, s ∈ snaps /\ m = at_snapshot s.

Record flat_ok (snaps : list Z) (fl : list fleaf) : Prop := {
  fo_flat : flat_in None fl None;
  fo_covers : forall key m, reads snaps m -> covers key m fl
}.

Lemma side_none key v : side cmp key None v = if cmp key v.1 =? 0 then Eq else if cmp key v.1 <? 0 then Gt else Lt.
Proof using Type. rewrite ?side_code. by destruct (cmp key v.1 =? 0). Qed.

Lemma side_at key s v :
  side cmp key (at_snapshot s) v =
  if cmp key v.1 =? 0 then if v.2 <=? s then Eq else Lt else if cmp key v.1 <? 0 then Gt else Lt.
Proof using Type. rewrite ?side_code. cbn. destruct (cmp key v.1 =? 0); [|done]. by destruct (v.2 <=? s). Qed.

Lemma side_eq_key key m v : side cmp key m v = Eq -> cmp key v.1 = 0.
Proof using Type. rewrite ?side_code. destruct (Z.eqb_spec (cmp key v.1) 0); [done|]. by case_if. Qed.

(** A request for a key passes everything with a smaller key. *)
Lemma side_key_lt key m v w : cmp v.1 w.1 < 0 -> side cmp key m w = Eq -> side cmp key m v = Lt.
Proof using CmpOk0.
  intros Hlt Hk%side_eq_key. pose proof (cmp_eq_l key w.1 v.1 Hk). pose proof (cmp_antisym v.1 w.1).
  rewrite ?side_code. rewrite (proj2 (Z.eqb_neq _ _)), (proj2 (Z.ltb_ge _ _)) by lia. done.
Qed.

(** Behind every version of a key is behind every request for it. *)
Lemma passed_any key m key' b : cmp key key' = 0 -> passed key None b -> passed key' m b.
Proof using CmpOk0.
  destruct b as [v|]; [|done]. cbn. rewrite side_none. intros Hk.
  pose proof (cmp_eq_l key key' v.1 Hk).
  destruct (Z.eqb_spec (cmp key v.1) 0); [done|]. destruct (Z.ltb_spec (cmp key v.1) 0); [done|]. intros _.
  rewrite ?side_code. rewrite (proj2 (Z.eqb_neq _ _)), (proj2 (Z.ltb_ge _ _)) by lia. done.
Qed.

(** Everything is older than [q]. *)
Definition flat_below (q : Z) (fl : list fleaf) : Prop :=
  Forall (fun x => Forall (fun e => e_seqno e < q) x.1 /\ forall v, x.2 = Some v -> v.2 < q) fl.

Lemma flat_below_app q f1 f2 : flat_below q (f1 ++ f2) <-> flat_below q f1 /\ flat_below q f2.
Proof using Type. apply Forall_app. Qed.

Lemma flat_below_mono q q' fl : q <= q' -> flat_below q fl -> flat_below q' fl.
Proof using Type.
  intros Hle Hq. eapply Forall_impl; [|exact Hq]. cbn. intros x [H1 H2]. split.
  - eapply Forall_impl; [|exact H1]. cbn. lia.
  - intros v Hv. specialize (H2 v Hv). lia.
Qed.

(** Where the new version of a key goes, it is in order. *)
Lemma new_leaf_in l es b K i e :
  leaf_in l es b -> (l = None \/ passed K None l) -> ~ passed K None b ->
  splits cmp (ver <$> es) K None i -> e_key e = K ->
  Forall (fun x => e_seqno x < e_seqno e) es -> (forall v, b = Some v -> v.2 < e_seqno e) ->
  leaf_in l (take i es ++ e :: drop i es) b.
Proof using CmpOk0.
  intros [Hs Ha Hb Hh] Hl Hnb [Hi Hsp] Hk Hq Hqb. split.
  - unfold vsorted. rewrite fmap_app, fmap_cons, fmap_take, fmap_drop.
    apply node_sorted_insert; [done|done|]. intros j v Hj.
    pose proof (Hsp j v Hj) as Hjs. rewrite list_lookup_fmap in Hj. destruct (es !! j) as [x|] eqn:Ex; [|done].
    injection Hj as <-. pose proof (Forall_at Hq Ex) as Hxq. cbn beta in Hxq.
    rewrite side_none in Hjs. unfold ordered. cbn. rewrite Hk. pose proof (cmp_antisym K (e_key x)). cbn in Hjs.
    destruct (Z.eqb_spec (cmp K (e_key x)) 0); [|destruct (Z.ltb_spec (cmp K (e_key x)) 0)]; case_decide as Hd;
      try (by apply Hjs in Hd); try (exfalso; by apply Hd, Hjs); lia.
  - intros x [Hx|[->|Hx]%elem_of_cons]%elem_of_app.
    + apply Ha. rewrite <- (take_drop i es). apply elem_of_app. by left.
    + destruct Hl as [->|Hl]; [done|]. destruct l as [v|]; [|done]. cbn in *. rewrite side_none in Hl.
      left. cbn. rewrite Hk. pose proof (cmp_antisym K v.1).
      destruct (Z.eqb_spec (cmp K v.1) 0); [done|]. destruct (Z.ltb_spec (cmp K v.1) 0); [done|lia].
    + apply Ha. rewrite <- (take_drop i es). apply elem_of_app. by right.
  - intros x [Hx|[->|Hx]%elem_of_cons]%elem_of_app.
    + apply Hb. rewrite <- (take_drop i es). apply elem_of_app. by left.
    + destruct b as [v|]; [|done]. cbn in *. rewrite side_none in Hnb. specialize (Hqb v eq_refl).
      unfold vle. cbn. rewrite Hk. destruct (Z.eqb_spec (cmp K v.1) 0); [lia|].
      destruct (Z.ltb_spec (cmp K v.1) 0); [lia|done].
    + apply Hb. rewrite <- (take_drop i es). apply elem_of_app. by right.
  - done.
Qed.

Lemma vsorted_sublist es es' : sublist es' es -> vsorted es -> vsorted es'.
Proof using Type.
  induction 1 as [|x l1 l2 Hl IH|x l1 l2 Hl IH]; [done|..]; intros Hs;
    change (x :: l2) with ([x] ++ l2) in Hs; apply vsorted_app in Hs as (H1 & H2 & H12); [|by apply IH].
  change (x :: l1) with ([x] ++ l1). apply vsorted_app. split_and!; [done|by apply IH|].
  intros a c Ha Hc. apply H12; [done|]. by eapply elem_of_sublist.
Qed.

Lemma leaf_in_sublist l es es' b : sublist es' es -> leaf_in l es b -> leaf_in l es' b.
Proof using Type.
  intros Hsub [Hs Ha Hb Hh]. split; [by eapply vsorted_sublist| | |done]; intros e He.
  - apply Ha. by eapply elem_of_sublist.
  - apply Hb. by eapply elem_of_sublist.
Qed.

Lemma flat_leaf_change lo fl hi key m pre es es' b post :
  flat_in lo fl hi -> located key m fl pre es b post ->
  (forall l, l = lo \/ passed key m l -> leaf_in l es b -> leaf_in l es' b) ->
  flat_in lo (pre ++ (es', b) :: post) hi.
Proof using Type.
  intros Hf Hloc Hch. destruct (flat_leaf key m _ _ _ _ _ _ _ Hf Hloc) as (l & Hl & Hlp & Hz).
  apply (Hz [(es', b)]). apply flat_in_one. split; [|done]. by apply Hch.
Qed.

Lemma flat_below_leaf q fl key m pre es b post :
  flat_below q fl -> located key m fl pre es b post ->
  Forall (fun x => e_seqno x < q) es /\ (forall v, b = Some v -> v.2 < q).
Proof using Type.
  intros Hq (-> & _). apply flat_below_app in Hq as [_ Hq]. by apply Forall_cons_iff in Hq as [Hq _].
Qed.

(** ** Writing a version *)

Section put.
Context (snaps : list Z) (fl pre : list fleaf) (es : list entry) (b : option version) (post : list fleaf)
  (K : list byte) (i : nat) (e : entry)
  (Hok : flat_ok snaps fl) (Hloc : located K None fl pre es b post)
  (Hsp : splits cmp (ver <$> es) K None i) (Hk : e_key e = K) (Hq : flat_below (e_seqno e) fl).

Lemma put_pre_passed key m : side cmp key m (ver e) = Eq -> Forall (passed key m) pre.*2.
Proof using CmpOk0 Hloc Hk.
  intros Heq%side_eq_key. destruct Hloc as (_ & Hp & _). eapply Forall_impl; [|exact Hp].
  intros c. apply passed_any. cbn in Heq. rewrite Hk in Heq. pose proof (cmp_antisym key K). lia.
Qed.

Lemma flat_insert : flat_ok snaps (pre ++ (take i es ++ e :: drop i es, b) :: post).
Proof using All.
  destruct (flat_below_leaf _ _ _ _ _ _ _ _ Hq Hloc) as [Hq1 Hq2]. split.
  - apply (flat_leaf_change None fl None K None pre es); [apply Hok|done|]. intros l Hl Hin.
    apply (new_leaf_in l es b K); try done. apply Hloc.
  - intros key m Hm. apply (covers_change key m pre es).
    + intros (x & Hx & Heq). apply elem_of_app in Hx as [Hx|[->|Hx]%elem_of_cons].
      * left. exists x. split; [|done]. rewrite <- (take_drop i es). apply elem_of_app. by left.
      * right. by apply put_pre_passed.
      * left. exists x. split; [|done]. rewrite <- (take_drop i es). apply elem_of_app. by right.
    + intros (x & Hx & Heq). left. exists x. split; [|done]. rewrite <- (take_drop i es) in Hx.
      apply elem_of_app in Hx as [Hx|Hx]; apply elem_of_app; [by left|right; by right].
    + destruct Hloc as (Hfl & _). rewrite <- Hfl. by apply Hok.
Qed.

(** The version replaced is seen by no snapshot. *)
Context (old : entry) (Hi : es !! i = Some old) (Hko : cmp K (e_key old) = 0)
  (Hact : Forall (fun s => s < e_seqno old) snaps).

Lemma flat_update : flat_ok snaps (pre ++ (<[i := e]> es, b) :: post).
Proof using All.
  destruct (flat_below_leaf _ _ _ _ _ _ _ _ Hq Hloc) as [Hq1 Hq2].
  assert (length (take i es) = i) as Hli by (rewrite length_take; apply lookup_lt_Some in Hi; lia).
  assert (<[i := e]> es = take i (delete i es) ++ e :: drop i (delete i es)) as Hins.
  { rewrite insert_take_drop by (by eapply lookup_lt_Some). rewrite delete_take_drop.
    rewrite take_app_length', drop_app_length' by done. done. }
  assert (splits cmp (ver <$> delete i es) K None i) as Hspd.
  { destruct Hsp as [Hle Hs]. split.
    - rewrite length_fmap, length_delete by (by eexists). apply lookup_lt_Some in Hi. lia.
    - intros j v Hj. rewrite list_lookup_fmap in Hj. destruct (decide (j < i)%nat) as [Hlt|Hge].
      + rewrite list_lookup_delete_lt in Hj by lia. apply Hs. by rewrite list_lookup_fmap.
      + rewrite list_lookup_delete_ge in Hj by lia.
        destruct (Hs (S j) v) as [H1 H2]; [by rewrite list_lookup_fmap|]. split; [lia|]. intros E. apply H2 in E. lia. }
  split.
  - apply (flat_leaf_change None fl None K None pre es); [apply Hok|done|]. intros l Hl Hin. rewrite Hins.
    apply (new_leaf_in l _ b K); try done.
    + apply (leaf_in_sublist l es); [apply sublist_delete|done].
    + apply Hloc.
    + apply Forall_delete. done.
  - intros key m Hm. apply (covers_change key m pre es).
    + intros (x & Hx & Heq). rewrite Hins in Hx. apply elem_of_app in Hx as [Hx|[->|Hx]%elem_of_cons].
      * left. exists x. split; [|done]. apply (elem_of_sublist (delete i es)); [|apply sublist_delete].
        rewrite <- (take_drop i (delete i es)). apply elem_of_app. by left.
      * right. by apply put_pre_passed.
      * left. exists x. split; [|done]. apply (elem_of_sublist (delete i es)); [|apply sublist_delete].
        rewrite <- (take_drop i (delete i es)). apply elem_of_app. by right.
    + intros (x & Hx & Heq). left. apply list_elem_of_lookup_1 in Hx as (j & Hj).
      destruct (decide (j = i)) as [->|Hne].
      * assert (x = old) as -> by congruence. destruct Hm as [->|(s & Hs & ->)].
        -- exists e. split; [apply list_elem_of_lookup_2 with i; apply list_lookup_insert_eq; by eapply lookup_lt_Some|].
           rewrite side_none in *. cbn in *. rewrite Hk.
           destruct (Z.eqb_spec (cmp key (e_key old)) 0) as [H0|]; [|by destruct (_ <? _) in Heq].
           pose proof (cmp_eq_l K (e_key old) key Hko). pose proof (cmp_antisym key (e_key old)).
           pose proof (cmp_antisym K key). rewrite (proj2 (Z.eqb_eq _ _)) by lia. done.
        -- rewrite side_at in Heq. apply list_elem_of_lookup_1 in Hs as (k & Hs).
           pose proof (Forall_at Hact Hs) as Hlt. cbn beta in Hlt. cbn in Heq.
           rewrite (proj2 (Z.leb_gt _ _)) in Heq by lia. by repeat destruct (_ : bool) in Heq.
      * exists x. split; [|done]. apply list_elem_of_lookup_2 with j. by rewrite list_lookup_insert_ne.
    + destruct Hloc as (Hfl & _). rewrite <- Hfl. by apply Hok.
Qed.
End put.
End flat.

Arguments fo_flat {_ _ _} _.
Arguments fo_covers {_ _ _} _.

