(* ===== verification/PStats.v ===== *)
(** * Persistent statistics of a node (btree/btree_raw.c)

    Every node carries the changes its last write makes to four counters of
    the container, as a magnitude and a sign bit each. After a crash the
    recovery adds the changes found in the written nodes to the last
    checkpoint of the counters. *)

From S2P Require Import Prelude.

(** [enum delta_indx] *)
Definition PSTAT_OBJ_COUNT : nat := 0.
Definition PSTAT_NUM_SNAP_OBJS : nat := 1.
Definition PSTAT_SNAP_DATA_SIZE : nat := 2.
Definition PSTAT_OVERFLW_NODES : nat := 3.
Definition PSTAT_MAX_STATS : nat := 8.

(** [zs_pstats_delta_t]; [is_pos_delta] is a byte of sign bits. *)
Record zs_pstats_delta := mk_pstats_delta {
  ps_seq_num : Z;
  delta : list Z;
  is_pos_delta : Z;
  ps_seq : Z
}.

(** The fields of the tree and the globals these functions write. *)
Record pstats_env := mk_pstats_env {
  last_flushed_seq_num : Z;
  pstats_modified : bool;
  current_active_write_idx : nat;
  active_writes : list Z;
  unique : Z;
  pstats_ckpt_index : nat
}.

Definition delta_at (p : zs_pstats_delta) (i : nat) : Z := default 0 (delta p !! i).
Definition is_pos (p : zs_pstats_delta) (i : nat) : bool := Z.testbit (is_pos_delta p) (n2z i).

Definition set_delta (p : zs_pstats_delta) (i : nat) (d : Z) : zs_pstats_delta :=
  mk_pstats_delta (ps_seq_num p) (<[i := u64 d]> (delta p)) (is_pos_delta p) (ps_seq p).
Definition set_pos (p : zs_pstats_delta) (i : nat) (b : bool) : zs_pstats_delta :=
  mk_pstats_delta (ps_seq_num p) (delta p)
    (u8 (if b then Z.setbit (is_pos_delta p) (n2z i) else Z.clearbit (is_pos_delta p) (n2z i))) (ps_seq p).
(** [is_pos_delta |= b << i] *)
Definition or_pos (p : zs_pstats_delta) (i : nat) (b : bool) : zs_pstats_delta :=
  mk_pstats_delta (ps_seq_num p) (delta p)
    (u8 (Z.lor (is_pos_delta p) (Z.shiftl (Z.b2z b) (n2z i)))) (ps_seq p).
Definition stamp (p : zs_pstats_delta) (seq_num seq : Z) : zs_pstats_delta :=
  mk_pstats_delta seq_num (delta p) (is_pos_delta p) seq.

Definition reset_node_pstats (p : zs_pstats_delta) : zs_pstats_delta :=
  mk_pstats_delta 0
    (<[PSTAT_OVERFLW_NODES := 0]> (<[PSTAT_SNAP_DATA_SIZE := 0]>
      (<[PSTAT_NUM_SNAP_OBJS := 0]> (<[PSTAT_OBJ_COUNT := 0]> (delta p))))) 0 0.

(** The bookkeeping common to the updates that count as active writes. *)
Definition active_write (e : pstats_env) : pstats_env :=
  mk_pstats_env (last_flushed_seq_num e) true (current_active_write_idx e)
    (alter (fun w => w + 1) (current_active_write_idx e) (active_writes e))
    (u64 (unique e + 1)) (current_active_write_idx e).

Definition set_node_pstats (e : pstats_env) (p : zs_pstats_delta) (num_obj : Z) (is_delta_positive : bool)
    : pstats_env * zs_pstats_delta :=
  let p := set_delta p PSTAT_OBJ_COUNT (delta_at p PSTAT_OBJ_COUNT + num_obj) in
  let p := or_pos p PSTAT_OBJ_COUNT is_delta_positive in
  (active_write e, stamp p (last_flushed_seq_num e) (unique e)).

Definition set_node_snapobjs_pstats (e : pstats_env) (p : zs_pstats_delta) (num_obj data_size : Z)
    (is_delta_positive : bool) : pstats_env * zs_pstats_delta :=
  let p := set_delta p PSTAT_NUM_SNAP_OBJS (delta_at p PSTAT_NUM_SNAP_OBJS + num_obj) in
  let p := set_delta p PSTAT_SNAP_DATA_SIZE (delta_at p PSTAT_SNAP_DATA_SIZE + data_size) in
  let p := or_pos p PSTAT_NUM_SNAP_OBJS is_delta_positive in
  let p := or_pos p PSTAT_SNAP_DATA_SIZE is_delta_positive in
  (mk_pstats_env (last_flushed_seq_num e) true (current_active_write_idx e) (active_writes e)
     (u64 (unique e + 1)) (pstats_ckpt_index e),
   stamp p (last_flushed_seq_num e) (unique e)).

Definition set_overflow_pstats (e : pstats_env) (p : zs_pstats_delta) (num_objs : Z) (is_delta_positive : bool)
    : pstats_env * zs_pstats_delta :=
  let d := delta_at p PSTAT_OVERFLW_NODES in
  let pos := is_pos p PSTAT_OVERFLW_NODES in
  let p :=
    if is_delta_positive then
      if pos then set_delta p PSTAT_OVERFLW_NODES (d + num_objs)
      else if num_objs <=? d then set_delta p PSTAT_OVERFLW_NODES (d - num_objs)
      else set_pos (set_delta p PSTAT_OVERFLW_NODES (num_objs - d)) PSTAT_OVERFLW_NODES true
    else
      if pos then
        if num_objs <=? d then set_delta p PSTAT_OVERFLW_NODES (d - num_objs)
        else set_pos (set_delta p PSTAT_OVERFLW_NODES (num_objs - d)) PSTAT_OVERFLW_NODES false
      else set_delta p PSTAT_OVERFLW_NODES (d + num_objs) in
  (active_write e, stamp p (last_flushed_seq_num e) (unique e)).

(** ** Recovery *)

(** The counters of [zs_pstats_t]. *)
Record zs_pstats := mk_pstats {
  cnt_seq_num : Z;
  obj_count : Z;
  num_snap_objs : Z;
  snap_data_size : Z;
  num_overflw_nodes : Z
}.

Definition SIZEOF_PSTATS_DELTA : Z := 88.

(** Add or subtract the magnitude, by the sign bit. *)
Definition apply_delta (counter : Z) (p : zs_pstats_delta) (i : nat) : Z :=
  if is_pos p i then u64 (counter + delta_at p i) else u64 (counter - delta_at p i).

Definition btree_raw_crash_stats (c : zs_pstats) (p : zs_pstats_delta) (datalen : Z) : zs_pstats :=
  if (SIZEOF_PSTATS_DELTA <=? datalen) && (cnt_seq_num c <=? ps_seq_num p) then
    mk_pstats (cnt_seq_num c)
      (apply_delta (obj_count c) p PSTAT_OBJ_COUNT)
      (apply_delta (num_snap_objs c) p PSTAT_NUM_SNAP_OBJS)
      (apply_delta (snap_data_size c) p PSTAT_SNAP_DATA_SIZE)
      (apply_delta (num_overflw_nodes c) p PSTAT_OVERFLW_NODES)
  else c.

(** ** Correctness *)

(** The change a node records for a counter. *)
Definition signed (p : zs_pstats_delta) (i : nat) : Z :=
  if is_pos p i then delta_at p i else - delta_at p i.

Definition pstats_ok (p : zs_pstats_delta) : Prop :=
  length (delta p) = PSTAT_MAX_STATS /\ Forall (fun d => 0 <= d < 2 ^ 64) (delta p) /\
  0 <= is_pos_delta p < 2 ^ 8.

Definition update_amount (u : Z * bool) : Z := if u.2 then u.1 else - u.1.
Definition net (us : list (Z * bool)) : Z := foldr (fun u s => update_amount u + s) 0 us.
Definition gross (us : list (Z * bool)) : Z := foldr (fun u s => u.1 + s) 0 us.

(** The overflow updates of one write request, in order. *)
Fixpoint overflow_updates (e : pstats_env) (p : zs_pstats_delta) (us : list (Z * bool))
    : pstats_env * zs_pstats_delta :=
  match us with
  | [] => (e, p)
  | u :: us => let '(e, p) := set_overflow_pstats e p u.1 u.2 in overflow_updates e p us
  end.

Lemma apply_delta_signed c p i : apply_delta c p i = u64 (c + signed p i).
Proof. unfold apply_delta, signed. case_if; f_equal; lia. Qed.

Lemma delta_at_set p i j d :
  pstats_ok p -> (i < PSTAT_MAX_STATS)%nat -> 0 <= d < 2 ^ 64 ->
  delta_at (set_delta p i d) j = if decide (i = j) then d else delta_at p j.
Proof.
  intros (Hl & _) Hi Hd. unfold delta_at, set_delta. cbn [delta]. case_decide as E; [subst j|].
  - rewrite list_lookup_insert_eq by lia. cbn. by rewrite u64_small.
  - by rewrite list_lookup_insert_ne.
Qed.

Lemma is_pos_set p i j b :
  pstats_ok p -> (i < 8)%nat -> (j < 8)%nat ->
  is_pos (set_pos p i b) j = if decide (i = j) then b else is_pos p j.
Proof.
  intros (_ & _ & Hp) Hi Hj. unfold is_pos, set_pos. cbn [is_pos_delta]. unfold u8.
  rewrite Z.mod_pow2_bits_low by lia. case_decide as E; [subst j|]; destruct b.
  - by rewrite Z.setbit_eq by lia.
  - apply Z.clearbit_eq.
  - by rewrite Z.setbit_neq by lia.
  - by rewrite Z.clearbit_neq by lia.
Qed.

Lemma delta_at_range p i : pstats_ok p -> 0 <= delta_at p i < 2 ^ 64.
Proof.
  intros (_ & Hd & _). unfold delta_at. destruct (delta p !! i) as [d|] eqn:E; [|by cbn].
  apply (Forall_at Hd E).
Qed.

Lemma set_delta_ok p i d : pstats_ok p -> pstats_ok (set_delta p i d).
Proof.
  intros (Hl & Hd & Hp). unfold pstats_ok, set_delta. cbn. split_and!; [by rewrite length_insert| |lia..].
  apply Forall_insert; [done|]. apply u64_range.
Qed.

Lemma set_pos_ok p i b : pstats_ok p -> pstats_ok (set_pos p i b).
Proof.
  intros (Hl & Hd & Hp). unfold pstats_ok, set_pos. cbn [delta is_pos_delta].
  split_and!; [done..| |]; apply Z.mod_pos_bound; lia.
Qed.

(** An update adds its amount to the recorded change and leaves the others. *)
Lemma set_overflow_signed e p num b :
  pstats_ok p -> 0 <= num -> delta_at p PSTAT_OVERFLW_NODES + num < 2 ^ 64 ->
  let p' := (set_overflow_pstats e p num b).2 in
  pstats_ok p' /\ ps_seq_num p' = last_flushed_seq_num e /\
  delta_at p' PSTAT_OVERFLW_NODES <= delta_at p PSTAT_OVERFLW_NODES + num /\
  signed p' PSTAT_OVERFLW_NODES = signed p PSTAT_OVERFLW_NODES + (if b then num else - num) /\
  (forall i, (i < PSTAT_OVERFLW_NODES)%nat -> signed p' i = signed p i).
Proof.
  intros Hp Hn Hlt. pose proof (delta_at_range p PSTAT_OVERFLW_NODES Hp) as Hd.
  set (K := PSTAT_OVERFLW_NODES) in *. assert (K < 8)%nat as HK by (unfold K, PSTAT_OVERFLW_NODES; lia).
  assert (forall d, 0 <= d <= delta_at p K + num ->
    (if is_pos p K then d else - d) = signed p K + (if b then num else - num) ->
    let p' := stamp (set_delta p K d) (last_flushed_seq_num e) (unique e) in
    pstats_ok p' /\ ps_seq_num p' = last_flushed_seq_num e /\ delta_at p' K <= delta_at p K + num /\
    signed p' K = signed p K + (if b then num else - num) /\
    (forall i, (i < K)%nat -> signed p' i = signed p i)) as Hkeep.
  { intros d Hdd Hs p'.
    assert (forall j, delta_at p' j = if decide (K = j) then d else delta_at p j) as Hat
      by (intros j; apply delta_at_set; [done|done|lia]).
    split_and!; [by apply set_delta_ok|done|rewrite Hat, decide_True by done; lia| |].
    - unfold signed at 1. rewrite Hat, decide_True by done. exact Hs.
    - intros i Hi. unfold signed. rewrite Hat, decide_False by lia. done. }
  assert (forall d s, 0 <= d <= delta_at p K + num ->
    (if s : bool then d else - d) = signed p K + (if b then num else - num) ->
    let p' := stamp (set_pos (set_delta p K d) K s) (last_flushed_seq_num e) (unique e) in
    pstats_ok p' /\ ps_seq_num p' = last_flushed_seq_num e /\ delta_at p' K <= delta_at p K + num /\
    signed p' K = signed p K + (if b then num else - num) /\
    (forall i, (i < K)%nat -> signed p' i = signed p i)) as Hflip.
  { intros d s Hdd Hs p'. pose proof (set_delta_ok p K d Hp) as Hok.
    assert (forall j, delta_at p' j = if decide (K = j) then d else delta_at p j) as Hat
      by (intros j; apply (delta_at_set p); [done|done|lia]).
    assert (forall j, (j < 8)%nat -> is_pos p' j = if decide (K = j) then s else is_pos p j) as Hps
      by (intros j Hj; apply (is_pos_set (set_delta p K d)); done).
    split_and!; [by apply set_pos_ok|done|rewrite Hat, decide_True by done; lia| |].
    - unfold signed at 1. by rewrite Hat, Hps, !decide_True.
    - intros i Hi. unfold signed. rewrite Hat, Hps, !decide_False by lia. done. }
  unfold set_overflow_pstats. fold K. cbn [snd].
  assert (signed p K = if is_pos p K then delta_at p K else - delta_at p K) as Hsg by done.
  destruct b, (is_pos p K) eqn:Epos.
  - apply Hkeep; lia.
  - case_if; b2p; [apply Hkeep|apply Hflip]; lia.
  - case_if; b2p; [apply Hkeep|apply Hflip]; lia.
  - apply Hkeep; lia.
Qed.

Lemma overflow_updates_signed us e p :
  pstats_ok p -> Forall (fun u => 0 <= u.1) us ->
  delta_at p PSTAT_OVERFLW_NODES + gross us < 2 ^ 64 ->
  (us = [] -> ps_seq_num p = last_flushed_seq_num e) ->
  let p' := (overflow_updates e p us).2 in
  ps_seq_num p' = last_flushed_seq_num e /\
  signed p' PSTAT_OVERFLW_NODES = signed p PSTAT_OVERFLW_NODES + net us /\
  (forall i, (i < PSTAT_OVERFLW_NODES)%nat -> signed p' i = signed p i).
Proof.
  revert e p. induction us as [|[num b] us IH]; intros e p Hp Hu Hg Hseq; cbn.
  - split_and!; [by apply Hseq|lia|done].
  - apply Forall_cons_iff in Hu as [Hn Hu]. cbn in Hn. cbn in Hg. fold (gross us) in Hg. fold (net us).
    assert (0 <= gross us) as Hpos.
    { clear -Hu. induction Hu as [|u us H Hu IH]; cbn in *; [done|]. fold (gross us). lia. }
    destruct (set_overflow_signed e p num b Hp Hn) as (Hok & Hs & Hle & Hsig & Hoth); [lia|].
    change (last_flushed_seq_num e) with (last_flushed_seq_num (active_write e)).
    destruct (IH (active_write e) (set_overflow_pstats e p num b).2) as (H1 & H2 & H3); [done..|lia|done|].
    split_and!; [exact H1| |].
    + etrans; [exact H2|]. rewrite Hsig. unfold update_amount. cbn. lia.
    + intros i Hi. etrans; [by apply H3|]. by apply Hoth.
Qed.

Definition fresh_pstats : zs_pstats_delta := mk_pstats_delta 0 (replicate PSTAT_MAX_STATS 0) 0 0.

Definition counters_ok (c : zs_pstats) : Prop :=
  0 <= obj_count c < 2 ^ 64 /\ 0 <= num_snap_objs c < 2 ^ 64 /\ 0 <= snap_data_size c < 2 ^ 64.

(** C40: crash recovery of the overflow counter is exact: after any sequence of
    allocations and deletions of overflow nodes recorded in a node since its
    last write, recovery changes the counter by their net effect (modulo the
    counter's width) and leaves the other counters alone. *)
Theorem overflow_pstats_recovered e us c datalen :
  us <> [] -> Forall (fun u => 0 <= u.1) us -> gross us < 2 ^ 64 ->
  counters_ok c -> cnt_seq_num c <= last_flushed_seq_num e -> SIZEOF_PSTATS_DELTA <= datalen ->
  btree_raw_crash_stats c (overflow_updates e (reset_node_pstats fresh_pstats) us).2 datalen =
  mk_pstats (cnt_seq_num c) (obj_count c) (num_snap_objs c) (snap_data_size c)
    (u64 (num_overflw_nodes c + net us)).
Proof.
  intros Hne Hu Hg (Ho & Hs & Hz) Hc Hd.
  destruct (overflow_updates_signed us e (reset_node_pstats fresh_pstats)) as (H1 & H2 & H3).
  - split_and!; [done|by repeat constructor|done..].
  - done.
  - exact Hg.
  - done.
  - unfold btree_raw_crash_stats. rewrite H1.
    rewrite (proj2 (Z.leb_le _ _) Hd), (proj2 (Z.leb_le _ _) Hc). cbn [andb].
    rewrite !apply_delta_signed, H2, !H3 by (unfold PSTAT_OVERFLW_NODES, PSTAT_OBJ_COUNT, PSTAT_NUM_SNAP_OBJS, PSTAT_SNAP_DATA_SIZE; lia).
    change (signed (reset_node_pstats fresh_pstats) _) with 0.
    rewrite !Z.add_0_r, !(u64_small (obj_count c)), !(u64_small (num_snap_objs c)), !(u64_small (snap_data_size c)) by done.
    done.
Qed.

Definition env0 : pstats_env := mk_pstats_env 7 false 0 [0; 0] 0 0.

Lemma overflow_pstats_recovered_witness :
  btree_raw_crash_stats (mk_pstats 5 100 3 4096 40)
    (overflow_updates env0 (reset_node_pstats fresh_pstats) [(3, false); (5, true); (1, false)]).2 8192 =
  mk_pstats 5 100 3 4096 (u64 (40 + net [(3, false); (5, true); (1, false)])).
Proof.
  apply (overflow_pstats_recovered env0 [(3, false); (5, true); (1, false)] (mk_pstats 5 100 3 4096 40) 8192).
  - done.
  - by repeat constructor.
  - by vm_compute.
  - by repeat split; vm_compute.
  - by vm_compute.
  - by vm_compute.
Defined.

(** The object counter has no such guarantee. A delete whose tombstone
    does not fit the node in place goes through the write path: the tombstone
    records one object less, and the write path then adds its zero new objects
    with the positive sign, which turns the record into one object more.
    Recovery counts the deleted object twice. *)
Theorem tombstone_write_recovers_wrong_count :
  let '(e1, p1) := set_node_pstats env0 (reset_node_pstats fresh_pstats) 1 false in
  let '(_, p2) := set_node_pstats e1 p1 0 true in
  let c := mk_pstats 5 100 3 4096 40 in
  obj_count (btree_raw_crash_stats c p1 8192) = 99 /\
  obj_count (btree_raw_crash_stats c p2 8192) = 101.
Proof. by vm_compute. Qed.
