(* ===== verification/Overflow.v ===== *)
(** * Big objects (btree/btree_raw.c)

    The data of a big object lives in a chain of overflow nodes, except for a
    residue kept in the leaf. This file models the allocation, the reading and
    the deletion of the chains, and the leaf operations that use them. *)

From stdpp Require Import gmap.
From S2P Require Import Prelude Status LeafMeta LeafNode LeafOps NodeSearch PStats.

(** An overflow node: the link and the bytes after the node header. *)
Record onode := mk_onode { on_next : Z; on_data : list byte }.

(** What the functions of this file work on: the overflow nodes that exist,
    those among them that are in the cache, the nodes the request deletes
    ([deleted_nodes], and [deleted_ovnodes_id] for nodes that were not
    cached), the outcomes of the coming node allocations (a new node's id and
    the contents of its buffer, or an error), the statistics, and the
    persistent statistics of the leaf. *)
Record ov_state := mk_ov_state {
  ov_nodes : gmap Z onode;
  ov_cached : gset Z;
  deleted_nodes : list Z;
  deleted_ovnodes_id : list Z;
  ov_supply : list (btree_status + Z * list byte);
  BTSTAT_OVERFLOW_NODES : Z;
  BTSTAT_OVERFLOW_BYTES : Z;
  BTSTAT_LEAF_BYTES : Z;
  BTSTAT_SPCOPT_BYTES_SAVED : Z;
  ov_env : pstats_env;
  ov_pstats : zs_pstats_delta
}.

Definition set_nodes (st : ov_state) (ns : gmap Z onode) : ov_state :=
  mk_ov_state ns (ov_cached st) (deleted_nodes st) (deleted_ovnodes_id st) (ov_supply st)
    (BTSTAT_OVERFLOW_NODES st) (BTSTAT_OVERFLOW_BYTES st) (BTSTAT_LEAF_BYTES st)
    (BTSTAT_SPCOPT_BYTES_SAVED st) (ov_env st) (ov_pstats st).
Definition set_cached (st : ov_state) (c : gset Z) : ov_state :=
  mk_ov_state (ov_nodes st) c (deleted_nodes st) (deleted_ovnodes_id st) (ov_supply st)
    (BTSTAT_OVERFLOW_NODES st) (BTSTAT_OVERFLOW_BYTES st) (BTSTAT_LEAF_BYTES st)
    (BTSTAT_SPCOPT_BYTES_SAVED st) (ov_env st) (ov_pstats st).
Definition set_supply (st : ov_state) (s : list (btree_status + Z * list byte)) : ov_state :=
  mk_ov_state (ov_nodes st) (ov_cached st) (deleted_nodes st) (deleted_ovnodes_id st) s
    (BTSTAT_OVERFLOW_NODES st) (BTSTAT_OVERFLOW_BYTES st) (BTSTAT_LEAF_BYTES st)
    (BTSTAT_SPCOPT_BYTES_SAVED st) (ov_env st) (ov_pstats st).
Definition set_deleted (st : ov_state) (d : list Z) : ov_state :=
  mk_ov_state (ov_nodes st) (ov_cached st) d (deleted_ovnodes_id st) (ov_supply st)
    (BTSTAT_OVERFLOW_NODES st) (BTSTAT_OVERFLOW_BYTES st) (BTSTAT_LEAF_BYTES st)
    (BTSTAT_SPCOPT_BYTES_SAVED st) (ov_env st) (ov_pstats st).
Definition set_deleted_ids (st : ov_state) (d : list Z) : ov_state :=
  mk_ov_state (ov_nodes st) (ov_cached st) (deleted_nodes st) d (ov_supply st)
    (BTSTAT_OVERFLOW_NODES st) (BTSTAT_OVERFLOW_BYTES st) (BTSTAT_LEAF_BYTES st)
    (BTSTAT_SPCOPT_BYTES_SAVED st) (ov_env st) (ov_pstats st).
(** Add to the node and byte counters of the overflow nodes. *)
Definition add_overflow_stats (st : ov_state) (nodes bytes : Z) : ov_state :=
  mk_ov_state (ov_nodes st) (ov_cached st) (deleted_nodes st) (deleted_ovnodes_id st) (ov_supply st)
    (u64 (BTSTAT_OVERFLOW_NODES st + nodes)) (u64 (BTSTAT_OVERFLOW_BYTES st + bytes))
    (BTSTAT_LEAF_BYTES st) (BTSTAT_SPCOPT_BYTES_SAVED st) (ov_env st) (ov_pstats st).
Definition add_leaf_stats (st : ov_state) (saved bytes : Z) : ov_state :=
  mk_ov_state (ov_nodes st) (ov_cached st) (deleted_nodes st) (deleted_ovnodes_id st) (ov_supply st)
    (BTSTAT_OVERFLOW_NODES st) (BTSTAT_OVERFLOW_BYTES st) (u64 (BTSTAT_LEAF_BYTES st + bytes))
    (u64 (BTSTAT_SPCOPT_BYTES_SAVED st + saved)) (ov_env st) (ov_pstats st).
Definition overflow_pstats (st : ov_state) (num : Z) (pos : bool) : ov_state :=
  let '(e, p) := set_overflow_pstats (ov_env st) (ov_pstats st) num pos in
  mk_ov_state (ov_nodes st) (ov_cached st) (deleted_nodes st) (deleted_ovnodes_id st) (ov_supply st)
    (BTSTAT_OVERFLOW_NODES st) (BTSTAT_OVERFLOW_BYTES st) (BTSTAT_LEAF_BYTES st)
    (BTSTAT_SPCOPT_BYTES_SAVED st) e p.

Section overflow.
Context (bt : btree_raw) (read_ret : Z -> btree_status).

(** ** Nodes *)

(** A cached node is taken from the cache (a deleted one trips an assertion);
    another one is read, and [read_ret] is what the read returns. *)
Definition get_existing_overflow_node (st : ov_state) (id : Z) : option (ov_state * (btree_status + onode)) :=
  if decide (id ∈ ov_cached st) then
    _ ← assert_ (bool_decide (id ∉ deleted_nodes st));
    n ← ov_nodes st !! id; Some (st, inr n)
  else if decide (read_ret id = BTREE_SUCCESS) then
    n ← ov_nodes st !! id; Some (set_cached st ({[id]} ∪ ov_cached st), inr n)
  else Some (st, inl (read_ret id)).

(** Only a cached node is returned. *)
Definition get_existing_overflow_node_for_delete (st : ov_state) (id : Z) : option (option onode) :=
  if decide (id ∈ ov_cached st) then
    _ ← assert_ (bool_decide (id ∉ deleted_nodes st));
    n ← ov_nodes st !! id; Some (Some n)
  else Some None.

(** A new overflow node enters the cache, its link cleared. (In storm mode the
    code asserts that a new id is a multiple of the overflow ratio, a promise of
    the storage that hands out the ids.) *)
Definition get_new_node (st : ov_state) : ov_state * (btree_status + Z) :=
  match ov_supply st with
  | [] => (st, inl BTREE_FAILURE)
  | inl e :: s => (set_supply st s, inl e)
  | inr (id, buf) :: s =>
      let st := set_supply st s in
      let st := set_cached (set_nodes st (<[id := mk_onode 0 buf]> (ov_nodes st))) ({[id]} ∪ ov_cached st) in
      (add_overflow_stats st 1 SIZEOF_BTREE_RAW_NODE, inr id)
  end.

(** The bounds of the per-thread tables of deleted nodes, which the code asserts,
    are not modelled: the lists have no limit. *)
Definition free_node (st : ov_state) (id : Z) : ov_state :=
  set_deleted (add_overflow_stats st (-1) (- SIZEOF_BTREE_RAW_NODE)) (deleted_nodes st ++ [id]).

(** ** Allocation *)

(** The filling loop at node [n], the previous node being [n_last]; [chain] is
    the list of nodes filled so far. Each iteration consumes data. In storm
    mode the code looks at the new node's id without testing that there is a
    new node, so a failed allocation crashes there. *)
Fixpoint allocate_loop (fuel : nat) (st : ov_state) (n : Z) (n_last : option Z) (chain : list Z)
    (p : list byte) : option (ov_state * list Z * btree_status) :=
  match fuel with
  | O => None
  | S fuel =>
      let b := Z.min (lenZ p) (get_data_in_overflownode bt) in
      let nodes := match n_last with
                   | Some l => alter (fun x => mk_onode n (on_data x)) l (ov_nodes st)
                   | None => ov_nodes st
                   end in
      x ← nodes !! n;
      d ← write_bytes (on_data x) 0 (take (z2n b) p);
      let nodes := <[n := mk_onode (on_next x) d]> nodes in
      let st := add_overflow_stats (set_nodes st nodes) 0 (b + SIZEOF_BTREE_RAW_NODE) in
      let p := drop (z2n b) p in
      let chain := chain ++ [n] in
      match p with
      | [] => Some (st, chain, BTREE_SUCCESS)
      | _ =>
          match get_new_node st with
          | (st, inl e) => _ ← assert_ (negb (bt_storm_mode bt)); Some (st, chain, e)
          | (st, inr n') => allocate_loop fuel st n' (Some n) chain p
          end
      end
  end.

(** The nodes of the chain leave the cache; they were never written. *)
Definition undo_allocate_overflow_data (st : ov_state) (chain : list Z) : ov_state :=
  foldl (fun st id => set_cached (set_nodes st (delete id (ov_nodes st))) (ov_cached st ∖ {[id]})) st chain.

(** The result is the id of the first node, or a status code. *)
Definition allocate_overflow_data (st : ov_state) (data : list byte) : option (ov_state * Z) :=
  let ovdatasize := get_data_in_overflownode bt in
  if lenZ data =? 0 then Some (st, status_code BTREE_SUCCESS)
  else
    let n_nodes := (lenZ data + ovdatasize - 1) / ovdatasize in
    match get_new_node st with
    | (st, inl e) => _ ← assert_ (negb (bt_storm_mode bt)); Some (st, status_code e)
    | (st, inr n_first) =>
        r ← allocate_loop (S (length data)) st n_first None [] data;
        let '(st, chain, ret) := r in
        if decide (ret = BTREE_SUCCESS) then Some (overflow_pstats st n_nodes true, n_first)
        else Some (undo_allocate_overflow_data st chain, status_code ret)
    end.

(** ** Deletion *)

(** The chain from [p]; a node is visited once, so the number of nodes bounds
    the loop. Returns the number of nodes freed. *)
Fixpoint delete_chain (fuel : nat) (st : ov_state) (p num_nodes : Z) : option (ov_state * Z * btree_status) :=
  match fuel with
  | O => None
  | S fuel =>
      if p =? 0 then Some (st, num_nodes, BTREE_SUCCESS)
      else
        r ← get_existing_overflow_node st p;
        match r with
        | (st, inl e) => Some (st, num_nodes, e)
        | (st, inr n) => delete_chain fuel (free_node st p) (on_next n) (num_nodes + 1)
        end
  end.

Definition delete_overflow_data (st : ov_state) (ptr_in datalen : Z) : option (ov_state * btree_status) :=
  if datalen <=? get_data_in_overflownode bt then
    n ← get_existing_overflow_node_for_delete st ptr_in;
    let st := match n with
              | Some _ => free_node st ptr_in
              | None => add_overflow_stats (set_deleted_ids st (deleted_ovnodes_id st ++ [ptr_in])) (-1) 0
              end in
    Some (add_overflow_stats (overflow_pstats st 1 false) 0 (- datalen), BTREE_SUCCESS)
  else
    r ← delete_chain (S (S (size (ov_nodes st)))) st ptr_in 0;
    let '(st, num_nodes, ret) := r in
    if decide (ret = BTREE_SUCCESS)
    then Some (add_overflow_stats (overflow_pstats st num_nodes false) 0 (- datalen), ret)
    else Some (st, ret).

(** ** Reading *)

(** Collect [nbytes] bytes from the chain at [z_next]: the bytes, how many are
    missing, where the chain goes on and the last status. (Rescue mode records
    a node that cannot be read for a later repair, which is left out.) *)
Fixpoint read_chain (fuel : nat) (st : ov_state) (z_next nbytes : Z) (acc : list byte) (ret : btree_status)
    : option (ov_state * list byte * Z * Z * btree_status) :=
  match fuel with
  | O => None
  | S fuel =>
      if (nbytes =? 0) || (z_next =? 0) then Some (st, acc, nbytes, z_next, ret)
      else
        r ← get_existing_overflow_node st z_next;
        match r with
        | (st, inl e) => Some (st, acc, nbytes, z_next, e)
        | (st, inr z) =>
            let copybytes := Z.min nbytes (get_data_in_overflownode bt) in
            d ← read_bytes (on_data z) 0 (z2n copybytes);
            read_chain fuel st (on_next z) (nbytes - copybytes) (acc ++ d) BTREE_SUCCESS
        end
  end.

(** The data of entry [index]. The caller's buffer length is cleared at the
    start, so a provided buffer only counts as big enough for no data. *)
Definition get_leaf_data_nth_key (st : ov_state) (n : btree_raw_node) (index : nat)
    (BUFFER_PROVIDED ALLOC_IF_TOO_SMALL : bool) : option (ov_state * btree_status * option (list byte)) :=
  ki ← btree_leaf_get_nth_key_info n index;
  let too_small := BUFFER_PROVIDED && (0 <? ki_datalen ki) in
  if too_small && negb ALLOC_IF_TOO_SMALL then Some (st, BTREE_BUFFER_TOO_SMALL, None)
  else
    let ret := if too_small then BTREE_BUFFER_TOO_SMALL else BTREE_SUCCESS in
    if negb (big_object_kd bt (ki_keylen ki) (ki_datalen ki)) then
      d ← btree_leaf_get_data_nth_key n index;
      let '(datap, datalen1) := d in
      _ ← assert_ (ki_datalen ki =? datalen1);
      buf ← read_bytes datap 0 (z2n datalen1);
      Some (st, ret, Some buf)
    else if 0 <? ki_datalen ki then
      let tmp_rem := btree_get_bigobj_inleaf bt (ki_keylen ki) (ki_datalen ki) in
      head ← (if tmp_rem =? 0 then Some []
              else d ← btree_leaf_get_data_nth_key n index; read_bytes d.1 0 (z2n tmp_rem));
      r ← read_chain (S (z2n (ki_datalen ki))) st (ki_ptr ki) (ki_datalen ki - tmp_rem) head ret;
      let '(st, buf, nbytes, z_next, ret) := r in
      if negb (nbytes =? 0) then
        Some (st, if storage_error ret then ret else BTREE_FAILURE, None)
      else
        _ ← assert_ (z_next =? 0);
        Some (st, ret, Some buf)
    else Some (st, ret, Some []).

Definition get_leaf_data (st : ov_state) (n : btree_raw_node) (key : list byte)
    (meta : option btree_metadata) (BUFFER_PROVIDED ALLOC_IF_TOO_SMALL : bool)
    : option (ov_state * btree_status * option (list byte) * option Z) :=
  f ← btree_leaf_find_key bt n key meta;
  let '(index, res) := f in
  if (res : bool) then
    r ← get_leaf_data_nth_key st n (z2n index) BUFFER_PROVIDED ALLOC_IF_TOO_SMALL;
    let '(st, ret, data) := r in Some (st, ret, data, Some index)
  else Some (st, BTREE_KEY_NOT_FOUND, None, None).

(** ** Leaf entries with their data *)

(** Insert or replace an object at [index]. *)
Definition btree_leaf_insert_low (st : ov_state) (n : btree_raw_node) (key data : list byte) (seqno_ : Z)
    (insert_tombstone : bool) (index : nat) (key_exists : bool)
    : option (ov_state * btree_raw_node * bool * btree_status) :=
  let datalen := lenZ data in
  r ← (if key_exists then
         ki ← btree_leaf_get_nth_key_info2 n index;
         if big_object_kd bt (ki_keylen ki) (ki_datalen ki) then
           let old_datalen := btree_get_bigobj_inleaf bt (ki_keylen ki) (ki_datalen ki) in
           delete_overflow_data st (ki_ptr ki) (u64 (ki_datalen ki - old_datalen))
         else Some (st, BTREE_SUCCESS)
       else Some (st, BTREE_SUCCESS));
  let '(st, pret) := r in
  if decide (pret = BTREE_SUCCESS) then
    a ← (if big_object_kd bt (lenZ key) datalen then
           _ ← assert_ (0 <? datalen);
           let rem_datalen := btree_get_bigobj_inleaf bt (lenZ key) datalen in
           a ← allocate_overflow_data st (drop (z2n rem_datalen) data);
           _ ← assert_ (negb (a.2 =? 0));
           Some a
         else Some (st, 0));
    let '(st, new_overflow_ptr) := a in
    u ← btree_leaf_update_key bt n key data datalen seqno_ new_overflow_ptr insert_tombstone index key_exists;
    let '(n, bytes_saved, size_increased) := u in
    Some (add_leaf_stats st bytes_saved size_increased, n, true, pret)
  else Some (st, n, false, pret).

(** Remove the object at [index] with its overflow nodes. *)
Definition delete_key_by_index_leaf (st : ov_state) (n : btree_raw_node) (index : nat)
    : option (ov_state * btree_raw_node * btree_status) :=
  ki ← btree_leaf_get_nth_key_info n index;
  r ← (if big_object_kd bt (ki_keylen ki) (ki_datalen ki) then
         let datalen := btree_get_bigobj_inleaf bt (ki_keylen ki) (ki_datalen ki) in
         delete_overflow_data st (ki_ptr ki) (u64 (ki_datalen ki - datalen))
       else Some (st, BTREE_SUCCESS));
  let '(st, ret) := r in
  if decide (ret = BTREE_SUCCESS) then
    d ← btree_leaf_remove_key_index bt n index;
    let '(n, bytes_decreased) := d in
    Some (add_leaf_stats st 0 (- bytes_decreased), n, BTREE_SUCCESS)
  else Some (st, n, ret).
End overflow.
