(* ===== verification/OverflowSpec.v ===== *)
(** * The contract of big objects

    A chain of overflow nodes is seen as the list of its nodes and the bytes
    it holds. *)

From stdpp Require Import gmap.
From S2P Require Import Prelude Status LeafMeta LeafNode LeafOps NodeSearch PStats Overflow.

Section spec.
Context (bt : btree_raw).

Abbreviation ovs := (get_data_in_overflownode bt).

(** The nodes [ids] linked from [p] hold [data]; all but the last are full. *)
Inductive chain (ns : gmap Z onode) : Z -> list Z -> list byte -> Prop :=
  | chain_last id d post :
      id <> 0 -> ns !! id = Some (mk_onode 0 (d ++ post)) -> 0 < lenZ d <= ovs -> chain ns id [id] d
  | chain_cons id next d ids data :
      id <> 0 -> ns !! id = Some (mk_onode next d) -> lenZ d = ovs ->
      chain ns next ids data -> id ∉ ids -> chain ns id (id :: ids) (d ++ data).

Lemma chain_head ns p ids data : chain ns p ids data -> exists ids', ids = p :: ids' /\ p <> 0.
Proof using All. destruct 1; by eexists. Qed.

Lemma chain_NoDup ns p ids data : chain ns p ids data -> NoDup ids.
Proof using All.
  induction 1 as [|id next d ids data H0 Hn Hl Hc IH Hni]; [apply NoDup_singleton|].
  by apply NoDup_cons_2.
Qed.

Lemma chain_ext ns ns' p ids data :
  chain ns p ids data -> (forall id, id ∈ ids -> ns' !! id = ns !! id) -> chain ns' p ids data.
Proof using All.
  induction 1 as [id d post H0 Hn Hl|id next d ids data H0 Hn Hl Hc IH Hni]; intros He.
  - econstructor; [done| |done]. rewrite He by set_solver. exact Hn.
  - econstructor; [done| |done| |done]; [rewrite He by set_solver; exact Hn|].
    apply IH. intros. apply He. set_solver.
Qed.

(** ** Reading *)

Context (read_ret : Z -> btree_status).

(** The node is not being deleted and is cached or can be read. *)
Definition accessible (st : ov_state) (id : Z) : Prop :=
  id ∉ deleted_nodes st /\ (id ∈ ov_cached st \/ read_ret id = BTREE_SUCCESS).

Lemma get_existing_ok st id n :
  ov_nodes st !! id = Some n -> accessible st id ->
  exists c, get_existing_overflow_node read_ret st id = Some (set_cached st c, inr n) /\
    ov_cached st ⊆ c /\ id ∈ c.
Proof using All.
  intros Hn (Hd & Hacc). unfold get_existing_overflow_node. case_decide as Hc.
  - exists (ov_cached st). rewrite bool_decide_true by done. cbn. rewrite Hn. cbn.
    split; [by destruct st|done].
  - destruct Hacc as [|Hr]; [done|]. rewrite decide_True by done. rewrite Hn. cbn.
    eexists. split; [done|]. set_solver.
Qed.

Lemma accessible_cached st c id : ov_cached st ⊆ c -> accessible st id -> accessible (set_cached st c) id.
Proof using All. intros Hc [Hd [H|H]]; (split; [exact Hd|]); [left; cbn; set_solver|by right]. Qed.

(** ** Deletion *)

Lemma delete_chain_ok ns p ids data :
  chain ns p ids data -> forall fuel st num,
  ov_nodes st = ns -> Forall (accessible st) ids -> (length ids < fuel)%nat ->
  exists st', delete_chain read_ret fuel st p num = Some (st', num + lenZ ids, BTREE_SUCCESS) /\
    ov_nodes st' = ns /\ deleted_nodes st' = deleted_nodes st ++ ids /\
    deleted_ovnodes_id st' = deleted_ovnodes_id st /\ ov_supply st' = ov_supply st /\
    ov_cached st ⊆ ov_cached st'.
Proof using All.
  assert (forall st id n c, get_existing_overflow_node read_ret st id = Some (set_cached st c, inr n) ->
    ov_cached st ⊆ c -> forall i, i <> id -> accessible st i -> accessible (free_node (set_cached st c) id) i) as Hfree.
  { intros st id n c _ Hc i Hi Hacc. apply (accessible_cached st c) in Hacc; [|done].
    destruct Hacc as [Hd Hr]. split; [|exact Hr]. cbn in *. set_solver. }
  induction 1 as [id d post H0 Hn Hl|id next d ids data H0 Hn Hl Hc IH Hni];
    intros fuel st num Hns Hacc Hf; (destruct fuel as [|fuel]; [lia|]); cbn [delete_chain];
    rewrite (proj2 (Z.eqb_neq id 0)) by lia; apply Forall_cons_iff in Hacc as [Hac Hacc];
    pose proof Hn as Hn'; rewrite <- Hns in Hn';
    destruct (get_existing_ok st id _ Hn' Hac) as (c & Hg & Hc' & _); rewrite Hg; runs; cbn [on_next].
  - destruct fuel as [|fuel]; [cbn in Hf; lia|]. cbn [delete_chain].
    change (0 =? 0) with true. cbv iota. eexists. split; [do 3 f_equal|]. by split_and!.
  - destruct (IH fuel (free_node (set_cached st c) id) (num + 1)) as (st' & Hd & E1 & E2 & E3 & E4 & E5).
    + done.
    + apply Forall_lookup_2. intros k i Hk. apply (Hfree st id _ c Hg Hc').
      * intros ->. apply Hni. by eapply list_elem_of_lookup_2.
      * apply (Forall_at Hacc Hk).
    + cbn in Hf. lia.
    + exists st'. rewrite Hd. split_and!; [|done| |done|done|].
      * do 3 f_equal. cbn [length]. lia.
      * rewrite E2. cbn. by rewrite <- app_assoc.
      * etrans; [exact Hc'|exact E5].
Qed.
Context (Hbt : bt_ok bt).

Lemma chain_length ns p ids data :
  chain ns p ids data -> (length ids <= length data)%nat /\ 0 < lenZ data.
Proof using Hbt.
  pose proof (bt_ovf _ Hbt). induction 1 as [|id next d ids data H0 Hn Hl Hc IH Hni]; cbn [length].
  - lia.
  - rewrite length_app. lia.
Qed.

Lemma read_chain_ok ns p ids data :
  chain ns p ids data -> forall fuel st acc ret,
  ov_nodes st = ns -> Forall (accessible st) ids -> (length ids < fuel)%nat ->
  exists c, read_chain bt read_ret fuel st p (lenZ data) acc ret
            = Some (set_cached st c, acc ++ data, 0, 0, BTREE_SUCCESS) /\ ov_cached st ⊆ c.
Proof using All.
  pose proof (bt_ovf _ Hbt) as Ho.
  induction 1 as [id d post H0 Hn Hl|id next d ids data H0 Hn Hl Hc IH Hni];
    intros fuel st acc ret Hns Hacc Hf; (destruct fuel as [|fuel]; [lia|]); cbn [read_chain].
  - rewrite (proj2 (Z.eqb_neq _ 0)), (proj2 (Z.eqb_neq id 0)) by lia. cbn [orb].
    apply Forall_cons_iff in Hacc as [Hacc _]. rewrite <- Hns in Hn.
    destruct (get_existing_ok st id _ Hn Hacc) as (c & -> & Hc & _). runs. cbn [on_data on_next].
    rewrite Z.min_l, Nat2Z.id, read_bytes_front by (done || lia). runs.
    exists c. destruct fuel as [|fuel]; [cbn in Hf; lia|]. cbn [read_chain].
    by rewrite Z.sub_diag.
  - rewrite length_app, Nat2Z.inj_add.
    destruct (chain_length _ _ _ _ Hc) as [_ Hpos].
    rewrite (proj2 (Z.eqb_neq _ 0)), (proj2 (Z.eqb_neq id 0)) by lia. cbn [orb].
    apply Forall_cons_iff in Hacc as [Hac Hacc]. rewrite <- Hns in Hn.
    destruct (get_existing_ok st id _ Hn Hac) as (c & -> & Hc' & _). runs. cbn [on_data on_next].
    rewrite Z.min_r by lia. rewrite <- Hl, Nat2Z.id, read_bytes_all by done. runs.
    replace (lenZ d + lenZ data - lenZ d) with (lenZ data) by lia.
    destruct (IH fuel (set_cached st c) (acc ++ d) BTREE_SUCCESS) as (c' & Hr & Hcc).
    + done.
    + eapply Forall_impl; [|exact Hacc]. intros i. by apply accessible_cached.
    + cbn in Hf. lia.
    + exists c'. rewrite Hr, app_assoc. split; [done|]. cbn in Hcc. set_solver.
Qed.

(** ** Allocation *)

(** The link the filling loop sets before it fills node [n]. *)
Definition linked (n_last : option Z) (n : Z) (ns : gmap Z onode) : gmap Z onode :=
  match n_last with
  | Some l => alter (fun x => mk_onode n (on_data x)) l ns
  | None => ns
  end.

Lemma write_front buf bs :
  (length bs <= length buf)%nat -> write_bytes buf 0 bs = Some (bs ++ drop (length bs) buf).
Proof using Type. intros H. unfold write_bytes. by rewrite decide_True by lia. Qed.

(** New nodes the allocator hands out: valid ids and buffers of the right
    size, all different. *)
Definition news_ok (news : list (Z * list byte)) : Prop :=
  Forall (fun x => x.1 <> 0 /\ lenZ x.2 = ovs) news /\ NoDup news.*1.

Lemma allocate_loop_ok news : forall fuel st n buf n_last acc p rest,
  p <> [] -> (length news < fuel)%nat -> lenZ news * ovs < lenZ p <= (lenZ news + 1) * ovs ->
  ov_nodes st !! n = Some (mk_onode 0 buf) -> news_ok ((n, buf) :: news) ->
  ov_supply st = (inr <$> news) ++ rest ->
  (forall l, n_last = Some l -> l ∉ n :: news.*1) ->
  exists st', allocate_loop bt fuel st n n_last acc p = Some (st', acc ++ n :: news.*1, BTREE_SUCCESS) /\
    chain (ov_nodes st') n (n :: news.*1) p /\
    (forall i, i ∉ n :: news.*1 -> ov_nodes st' !! i = linked n_last n (ov_nodes st) !! i) /\
    deleted_nodes st' = deleted_nodes st /\ deleted_ovnodes_id st' = deleted_ovnodes_id st /\
    ov_supply st' = rest /\ ov_cached st' = list_to_set news.*1 ∪ ov_cached st.
Proof using All.
  pose proof (bt_ovf _ Hbt) as Ho.
  induction news as [|[id' buf'] news IH]; intros fuel st n buf n_last acc p rest Hp Hf Hlen Hn Hnews Hsup Hlast;
    (destruct fuel as [|fuel]; [lia|]); cbn [allocate_loop];
    change (match n_last with Some l => alter _ l (ov_nodes st) | None => ov_nodes st end)
      with (linked n_last n (ov_nodes st));
    (assert (linked n_last n (ov_nodes st) !! n = Some (mk_onode 0 buf)) as Hn';
      [destruct n_last as [l|]; [|done]; cbn [linked]; rewrite lookup_alter_ne; [done|];
       pose proof (Hlast l eq_refl); set_solver|]); rewrite Hn'; runs; cbn [on_data on_next];
    destruct Hnews as [Hok Hnd]; apply Forall_cons_iff in Hok as [[Hn0 Hbuf] Hok]; cbn in Hn0, Hbuf.
  - cbn [length] in Hlen. change (n2z 0) with 0 in Hlen.
    assert (Z.min (lenZ p) ovs = lenZ p) as -> by lia. rewrite Nat2Z.id, firstn_all, drop_all.
    rewrite write_front by lia. runs. eexists. split; [done|]. cbn.
    split_and!; [|intros i Hi|done|done|done|set_solver].
    + econstructor; [done|by rewrite lookup_insert_eq|]. destruct p; [done|]. cbn [length] in *. lia.
    + rewrite lookup_insert_ne by set_solver. done.
  - assert (length p > z2n ovs)%nat as Hpl by (cbn [length] in Hlen; nia).
    assert (Z.min (lenZ p) ovs = ovs) as -> by lia.
    assert (length (take (z2n ovs) p) = z2n ovs) as Htl by (rewrite length_take; lia).
    rewrite write_front by lia. runs. rewrite Htl, (drop_ge buf), app_nil_r by lia.
    destruct (drop (z2n ovs) p) as [|b0 p'] eqn:Hd.
    { apply (f_equal length) in Hd. rewrite length_drop in Hd. cbn in Hd. lia. }
    rewrite <- Hd. clear b0 p' Hd. unfold get_new_node.
    cbn [ov_supply add_overflow_stats set_nodes]. rewrite Hsup. cbn [fmap list_fmap app].
    match goal with |- context [allocate_loop bt fuel ?s _ _ _ _] => set (st2 := s) end.
    destruct (IH fuel st2 id' buf' (Some n) (acc ++ [n]) (drop (z2n ovs) p) rest)
      as (st' & Hrun & Hch & Hfr & E1 & E2 & E3 & E4).
    + intros Hd%(f_equal length). rewrite length_drop in Hd. cbn in Hd. lia.
    + cbn in Hf. lia.
    + rewrite length_drop. cbn [length] in Hlen. rewrite Nat2Z.inj_sub by lia. nia.
    + cbn. by rewrite lookup_insert_eq.
    + split; [done|]. by apply NoDup_cons_1_2 in Hnd.
    + done.
    + intros l [= <-]. by apply NoDup_cons_1_1 in Hnd.
    + exists st'. rewrite Hrun. rewrite <- app_assoc. split; [done|].
      assert (n ∉ id' :: news.*1) as Hnn by (by apply NoDup_cons_1_1 in Hnd).
      split_and!; [|intros i Hi|rewrite E1; done|rewrite E2; done|done|rewrite E4; cbn; set_solver].
      * rewrite <- (take_drop (z2n ovs) p). apply (chain_cons _ n id'); [done| |lia|done|done].
        rewrite Hfr by done. cbn [linked]. rewrite lookup_alter_eq. cbn.
        rewrite lookup_insert_ne by set_solver. by rewrite lookup_insert_eq.
      * change (i ∉ n :: id' :: news.*1) in Hi. rewrite Hfr by set_solver. cbn [linked].
        rewrite lookup_alter_ne by set_solver. cbn.
        rewrite !lookup_insert_ne by set_solver. done.
Qed.
End spec.
