(* ===== verification/OverflowTheorems.v ===== *)
(** * The theorems on objects and their overflow nodes *)

From stdpp Require Import gmap.
From S2P Require Import Prelude Status LeafMeta LeafNode LeafOps LeafCells LeafEncode LeafFixup LeafSpec LeafRefine LeafPlain LeafMove NodeSearch LeafTheorems PStats Overflow OverflowSpec.

Section objects.
Context (bt : btree_raw) (read_ret : Z -> btree_status).

Abbreviation ovs := (get_data_in_overflownode bt).
Abbreviation is_big e := (big_object_kd bt (lenZ (e_key e)) (e_datalen e)).

(** The object behind a leaf entry: its data is in the leaf, or what is not is
    in a chain of overflow nodes. *)
Definition object (st : ov_state) (e : entry) (data : list byte) : Prop :=
  lenZ data = e_datalen e /\
  if is_big e then
    exists ids rest, chain bt (ov_nodes st) (e_ptr e) ids rest /\ data = e_data e ++ rest /\
      Forall (accessible read_ret st) ids
  else data = e_data e.

(** The same with the nodes [ids] of the chain. *)
Definition holds (st : ov_state) (e : entry) (data : list byte) (ids : list Z) : Prop :=
  lenZ data = e_datalen e /\
  if is_big e then
    exists rest, chain bt (ov_nodes st) (e_ptr e) ids rest /\ data = e_data e ++ rest /\
      Forall (accessible read_ret st) ids
  else data = e_data e /\ ids = [].

(** The overflow nodes of an entry. *)
Definition owns (st : ov_state) (e : entry) (ids : list Z) : Prop :=
  if is_big e then
    exists rest, chain bt (ov_nodes st) (e_ptr e) ids rest /\ lenZ (e_data e) + lenZ rest = e_datalen e /\
      Forall (accessible read_ret st) ids
  else ids = [].

Lemma holds_object st e data ids : holds st e data ids -> object st e data.
Proof using Type.
  intros [Hl Hh]. split; [done|]. case_if; [|apply Hh]. destruct Hh as (rest & H1 & H2 & H3). by exists ids, rest.
Qed.

Lemma holds_owns st e data ids : holds st e data ids -> owns st e ids.
Proof using Type.
  intros [Hl Hh]. unfold owns. case_if; [|apply Hh]. destruct Hh as (rest & H1 & -> & H3). exists rest.
  split_and!; [done| |done]. rewrite length_app in Hl. lia.
Qed.

Context (Hbt : bt_ok bt).

Lemma inleaf_lt kl dl :
  0 <= kl <= big_object_size bt -> 0 < dl -> 0 <= btree_get_bigobj_inleaf bt kl dl < dl.
Proof using Hbt.
  intros Hk Hd. pose proof (btree_get_bigobj_inleaf_bound bt kl dl Hbt Hk ltac:(lia)) as Hb.
  split; [lia|]. unfold btree_get_bigobj_inleaf. pose proof (bt_ovf _ Hbt) as Ho.
  pose proof (Z.mod_pos_bound dl _ Ho). repeat case_if; b2p; lia.
Qed.

(** ** Reading *)

Lemma get_object n es i e st data :
  leaf_rep bt n es -> es !! i = Some e -> object st e data ->
  exists c, get_leaf_data_nth_key bt read_ret st n i false false = Some (set_cached st c, BTREE_SUCCESS, Some data).
Proof using Hbt.
  intros Hrep Hi (Hlen & Hobj). pose proof (Forall_at (leaf_rep_entries_ok bt n es Hrep) Hi) as He.
  destruct (leaf_rep_read bt Hbt n es i e Hrep Hi) as (Hki & _ & post & Hd).
  unfold get_leaf_data_nth_key, btree_leaf_get_nth_key_info. rewrite Hki. runs.
  cbn [andb ki_datalen ki_keylen ki_ptr e_info]. pose proof (eo_data _ _ He) as Hdl. unfold data_inleaf in Hdl.
  destruct (is_big e) eqn:Hbig; cbn [negb].
  - destruct Hobj as (ids & rest & Hch & -> & Hacc).
    destruct (chain_length bt Hbt _ _ _ _ Hch) as [Hil Hpos]. rewrite length_app in Hlen.
    pose proof (eo_key _ _ He). pose proof (eo_big_key _ _ He).
    rewrite (proj2 (Z.ltb_lt 0 _)) by lia. rewrite <- Hdl.
    assert ((if lenZ (e_data e) =? 0 then Some []
             else d ← btree_leaf_get_data_nth_key n i; read_bytes d.1 0 (z2n (lenZ (e_data e))))
            = Some (e_data e)) as ->.
    { destruct (Z.eqb_spec (lenZ (e_data e)) 0) as [E|E].
      - destruct (e_data e); [done|cbn in E; lia].
      - rewrite Hd. runs. cbn [fst]. by rewrite Nat2Z.id, read_bytes_front. }
    runs. replace (e_datalen e - lenZ (e_data e)) with (lenZ rest) by lia.
    destruct (read_chain_ok bt read_ret Hbt _ _ _ _ Hch (S (z2n (e_datalen e))) st (e_data e) BTREE_SUCCESS)
      as (c & -> & _); [done|done|lia|]. runs. change (0 =? 0) with true. cbn. by exists c.
  - rewrite Hd. runs. rewrite Z.eqb_refl. cbn [assert_]. runs. subst data. rewrite <- Hlen, Nat2Z.id, read_bytes_front by done.
    runs. exists (ov_cached st). by destruct st.
Qed.

(** ** Deletion *)

Lemma chain_size ns p ids data : chain bt ns p ids data -> (length ids <= size ns)%nat.
Proof using Type.
  intros Hch. rewrite <- size_dom, <- (size_list_to_set (C := gset Z) ids) by (by eapply chain_NoDup).
  apply subseteq_size. intros x Hx%elem_of_list_to_set.
  clear -Hch Hx. induction Hch as [id d post H0 Hn Hl|id next d ids data H0 Hn Hl Hc IH Hni].
  - apply elem_of_dom. exists (mk_onode 0 (d ++ post)). assert (x = id) as -> by set_solver. done.
  - destruct (decide (x = id)) as [->|]; [by apply elem_of_dom_2 in Hn|]. apply IH. set_solver.
Qed.

(** The nodes a request is going to delete. *)
Definition doomed (st : ov_state) : list Z := deleted_nodes st ++ deleted_ovnodes_id st.

Lemma delete_overflow_ok st p ids data :
  chain bt (ov_nodes st) p ids data -> Forall (accessible read_ret st) ids ->
  exists st', delete_overflow_data bt read_ret st p (lenZ data) = Some (st', BTREE_SUCCESS) /\
    ov_nodes st' = ov_nodes st /\ doomed st' ≡ₚ ids ++ doomed st /\
    (forall i, i ∉ ids -> accessible read_ret st i -> accessible read_ret st' i) /\ ov_supply st' = ov_supply st.
Proof using Hbt.
  intros Hch Hacc.
  assert (forall st', ov_cached st ⊆ ov_cached st' ->
            (forall i, i ∈ deleted_nodes st' -> i ∈ ids ++ deleted_nodes st) ->
            forall i, i ∉ ids -> accessible read_ret st i -> accessible read_ret st' i) as Hkeep.
  { intros st' Hc Hd i Hi [Hn Ha]. split; [|set_solver]. intros H%Hd. set_solver. }
  unfold delete_overflow_data. destruct (Z.leb_spec (lenZ data) ovs) as [Hle|Hgt].
  - assert (exists d post, ids = [p] /\ ov_nodes st !! p = Some (mk_onode 0 (d ++ post))) as (d & post & -> & Hp).
    { destruct Hch as [id d post H0 Hn Hl|id next d ids data H0 Hn Hl Hc Hni]; [by exists d, post|].
      destruct (chain_length bt Hbt _ _ _ _ Hc). rewrite length_app in Hle. lia. }
    apply Forall_cons_iff in Hacc as [[Hnd Hac] _].
    unfold get_existing_overflow_node_for_delete. case_decide as Hc.
    + rewrite bool_decide_true by done. cbn [assert_]. runs. rewrite Hp. runs.
      eexists. split; [done|]. unfold overflow_pstats. destruct (set_overflow_pstats _ _ _ _).
      split_and!; [done| |apply Hkeep; set_solver|done].
      unfold doomed. cbn. by rewrite (Permutation_app_comm _ [p]), <- app_assoc.
    + runs. eexists. split; [done|]. unfold overflow_pstats. destruct (set_overflow_pstats _ _ _ _).
      split_and!; [done| |apply Hkeep; set_solver|done].
      unfold doomed. cbn. rewrite app_assoc. by rewrite (Permutation_app_comm _ [p]).
  - destruct (delete_chain_ok bt read_ret _ _ _ _ Hch (S (S (size (ov_nodes st)))) st 0)
      as (st' & -> & E1 & E2 & E3 & E4 & E5); [done|done|pose proof (chain_size _ _ _ _ Hch); lia|].
    runs. rewrite decide_True by done. eexists. split; [done|].
    unfold overflow_pstats. destruct (set_overflow_pstats _ _ _ _).
    split_and!; [exact E1| |apply Hkeep; [exact E5|cbn; rewrite E2; set_solver]|exact E4].
    unfold doomed. cbn. rewrite E2, E3. by rewrite app_assoc, (Permutation_app_comm ids).
Qed.
(** ** Allocation *)

(** The allocator is about to hand out the nodes [news] that [data] needs. *)
Definition supplied (st : ov_state) (news : list (Z * list byte)) (data : list byte) : Prop :=
  news_ok bt news /\ lenZ news = (lenZ data + ovs - 1) / ovs /\ (exists rest, ov_supply st = (inr <$> news) ++ rest) /\
  Forall (fun x => 0 <= x.1 < 2 ^ 64 /\ x.1 ∉ doomed st) news.

Lemma allocate_overflow_ok st data news :
  data <> [] -> supplied st news data ->
  exists st' p, allocate_overflow_data bt st data = Some (st', p) /\
    p ∈ news.*1 /\ chain bt (ov_nodes st') p news.*1 data /\
    (forall i, i ∉ news.*1 -> ov_nodes st' !! i = ov_nodes st !! i) /\
    deleted_nodes st' = deleted_nodes st /\ deleted_ovnodes_id st' = deleted_ovnodes_id st /\
    ov_cached st' = list_to_set news.*1 ∪ ov_cached st.
Proof using All.
  intros Hd (Hok & Hlen & (rest & Hsup) & _). pose proof (bt_ovf _ Hbt) as Ho.
  assert (0 < lenZ data) as Hpos by (destruct data; [done|cbn [length]; lia]).
  pose proof (Z.mul_div_le (lenZ data + ovs - 1) ovs Ho) as H1.
  pose proof (Z.mul_succ_div_gt (lenZ data + ovs - 1) ovs Ho) as H2. rewrite <- Hlen in H1, H2.
  unfold allocate_overflow_data. rewrite (proj2 (Z.eqb_neq (lenZ data) 0)) by lia.
  destruct news as [|[n buf] news]; [cbn in H2; lia|]. unfold get_new_node. rewrite Hsup. cbn [fmap list_fmap app].
  match goal with |- context [allocate_loop bt _ ?s _ _ _ _] => set (st2 := s) end.
  cbn [length] in H1, H2. rewrite Nat2Z.inj_succ in H1, H2.
  destruct (allocate_loop_ok bt read_ret Hbt news (S (length data)) st2 n buf None [] data rest)
    as (st' & -> & Hch & Hfr & E1 & E2 & _ & E4).
  - done.
  - nia.
  - nia.
  - cbn. by rewrite lookup_insert_eq.
  - done.
  - done.
  - done.
  - runs. rewrite decide_True by done. eexists _, n. split; [done|].
    unfold overflow_pstats. destruct (set_overflow_pstats _ _ _ _). cbn [ov_nodes deleted_nodes deleted_ovnodes_id ov_cached].
    change ((n, buf) :: news).*1 with (n :: news.*1).
    split_and!; [set_solver|done| |by rewrite E1|by rewrite E2|rewrite E4; cbn; set_solver].
    intros i Hi. rewrite Hfr by done. cbn. rewrite lookup_insert_ne by set_solver. done.
Qed.

Definition overflow_part (key data : list byte) : list byte :=
  drop (z2n (data_inleaf bt (lenZ key) (lenZ data))) data.

(** The allocation step of an insertion: the entry that will point to the new
    nodes represents the object. *)
Lemma alloc_object st key data tomb news :
  let r := data_inleaf bt (lenZ key) (lenZ data) in
  0 < lenZ key -> lenZ key <= big_object_size bt ->
  (big_object_kd bt (lenZ key) (lenZ data) = true -> data <> []) ->
  supplied st news (overflow_part key data) ->
  exists st' p,
    (if big_object_kd bt (lenZ key) (lenZ data) then
       _ ← assert_ (0 <? lenZ data);
       a ← allocate_overflow_data bt st (drop (z2n (btree_get_bigobj_inleaf bt (lenZ key) (lenZ data))) data);
       _ ← assert_ (negb (a.2 =? 0)); Some a
     else Some (st, 0)) = Some (st', p) /\ 0 <= p < 2 ^ 64 /\
    (p = 0 <-> big_object_kd bt (lenZ key) (lenZ data) = false) /\
    (forall s, let e := mk_entry key (lenZ data) (take (z2n r) data) p s tomb in holds st' e data news.*1) /\
    (forall i, i ∉ news.*1 -> ov_nodes st' !! i = ov_nodes st !! i) /\ doomed st' = doomed st /\
    ov_cached st ⊆ ov_cached st'.
Proof using All.
  intros r Hk Hkb Hbd Hsup. change (overflow_part key data) with (drop (z2n r) data) in Hsup.
  destruct (big_object_kd bt (lenZ key) (lenZ data)) eqn:Hbig.
  - assert (data <> []) as Hne by (by apply Hbd). assert (0 < lenZ data) by (destruct data; [done|cbn [length]; lia]).
    assert (r = btree_get_bigobj_inleaf bt (lenZ key) (lenZ data)) as Hrr
      by (unfold r, data_inleaf; by rewrite Hbig).
    destruct (inleaf_lt (lenZ key) (lenZ data)) as [Hr0 Hr1]; [lia|lia|]. rewrite <- Hrr in Hr1.
    destruct (allocate_overflow_ok st (drop (z2n r) data) news) as (st' & p & Hal & Hin & Hch & Hfr & E1 & E2 & E4).
    + intros E%(f_equal length). rewrite length_drop in E. cbn in E. lia.
    + exact Hsup.
    + destruct Hsup as ((Hn0 & _) & _ & _ & Hids).
      apply list_elem_of_fmap in Hin as (x & -> & Hx).
      apply list_elem_of_lookup_1 in Hx as (k & Hkx).
      destruct (Forall_at Hn0 Hkx) as [Hx0 _]. destruct (Forall_at Hids Hkx) as [Hxr _].
      exists st', x.1. rewrite (proj2 (Z.ltb_lt _ _)) by lia. cbn [assert_]. runs. rewrite <- Hrr, Hal. runs. cbn [snd].
      rewrite (proj2 (Z.eqb_neq x.1 0)) by done. cbn. split_and!; try done; try lia.
      * intros s. unfold holds. cbn [e_datalen e_key e_ptr e_data]. rewrite Hbig. split; [done|].
        exists (drop (z2n r) data). split_and!; [done|by rewrite take_drop|].
        apply Forall_lookup_2. intros j id Hj. rewrite list_lookup_fmap in Hj.
        destruct (news !! j) as [y|] eqn:Ey; [|done]. injection Hj as <-.
        destruct (Forall_at Hids Ey) as [_ Hyd]. unfold doomed in Hyd. split.
        -- rewrite E1. set_solver.
        -- left. rewrite E4. apply elem_of_union_l, elem_of_list_to_set, list_elem_of_fmap.
           exists y. split; [done|]. by eapply list_elem_of_lookup_2.
      * unfold doomed. by rewrite E1, E2.
      * rewrite E4. set_solver.
  - exists st, 0. split_and!; try done. intros s. unfold holds. cbn [e_datalen e_key e_ptr e_data].
    rewrite Hbig. split; [done|]. destruct Hsup as (_ & Hlen & _). pose proof (bt_ovf _ Hbt).
    unfold r, data_inleaf in *. rewrite Hbig, Nat2Z.id in *. rewrite drop_all in Hlen. cbn in Hlen.
    rewrite firstn_all, Z.div_small in * by lia. split; [done|]. by destruct news.
Qed.

Lemma insert_object n es index st key data seqno_ tomb news :
  leaf_rep bt n es -> (index <= length es)%nat ->
  0 < lenZ key < max_key_size bt -> lenZ key <= big_object_size bt -> lenZ data < 2 ^ 64 ->
  0 <= seqno_ < 2 ^ 64 -> (big_object_kd bt (lenZ key) (lenZ data) = true -> data <> []) ->
  supplied st news (overflow_part key data) ->
  btree_leaf_is_full_index bt n key (lenZ data) tomb false index = Some false ->
  exists st' n' e, btree_leaf_insert_low bt read_ret st n key data seqno_ tomb index false
                   = Some (st', n', true, BTREE_SUCCESS) /\
    leaf_rep bt n' (take index es ++ e :: drop index es) /\ same_frame n n' /\
    e_key e = key /\ e_seqno e = seqno_ /\ e_tomb e = tomb /\ object st' e data /\
    (forall i, i ∉ news.*1 -> ov_nodes st' !! i = ov_nodes st !! i) /\
    doomed st' = doomed st /\ ov_cached st ⊆ ov_cached st'.
Proof using All.
  intros Hrep Hi Hk Hkb Hdl Hs Hbd Hsup Hfull. unfold btree_leaf_insert_low. runs.
  rewrite decide_True by done.
  set (r := data_inleaf bt (lenZ key) (lenZ data)) in *.
  assert (0 <= r <= lenZ data) as Hr.
  { unfold r, data_inleaf. case_if; [|lia].
    destruct (inleaf_lt (lenZ key) (lenZ data)); [lia| |lia].
    destruct data; [by destruct Hbd|cbn [length]; lia]. }
  destruct (alloc_object st key data tomb news)
    as (st' & p & Hal & Hp & Hpz & Hobj & Hfr & Hdoom & Hcach); [lia|done..|].
  cbv zeta. rewrite Hal. runs.
  set (e := mk_entry key (lenZ data) (take (z2n r) data) p seqno_ tomb).
  assert (entry_ok bt e) as He.
  { split; unfold e; cbn [e_key e_datalen e_data e_ptr e_seqno]; try done; try lia. rewrite length_take. fold r. lia. }
  destruct (is_full_ok bt Hbt n es index e tomb data (drop (z2n r) data) Hrep He Hi)
    as (full & Hf & Hgo); [cbn; by rewrite take_drop|]. cbn [e e_key e_datalen] in Hf.
  rewrite Hfull in Hf. injection Hf as <-. destruct (Hgo eq_refl) as (n' & b & Hins & Hrep' & _ & Hfrm).
  unfold btree_leaf_update_key. rewrite (proj2 (Z.ltb_lt _ _)) by lia. cbn [assert_]. runs.
  change (mk_key_info p key (lenZ key) (lenZ data) seqno_ tomb) with (e_info e).
  change (btree_leaf_insert_key_index bt n key data (lenZ data) (e_info e) index false = Some (n', b)) in Hins.
  rewrite Hins. runs.
  eexists _, n', e. split; [done|]. split_and!; try done. apply (holds_object _ _ _ news.*1). exact (Hobj seqno_).
Qed.
Lemma delete_object n es index e st ids :
  space_op_disabled bt = true -> leaf_plain bt n es -> es !! index = Some e -> owns st e ids ->
  exists st' n', delete_key_by_index_leaf bt read_ret st n index = Some (st', n', BTREE_SUCCESS) /\
    leaf_plain bt n' (delete index es) /\ same_frame n n' /\
    ov_nodes st' = ov_nodes st /\ doomed st' ≡ₚ ids ++ doomed st /\
    (forall i, i ∉ ids -> accessible read_ret st i -> accessible read_ret st' i) /\ ov_supply st' = ov_supply st.
Proof using All.
  intros Hso Hp Hi Hch. unfold owns in Hch. pose proof (plain_rep bt Hbt n es Hp) as Hrep.
  pose proof (Forall_at (leaf_rep_entries_ok bt n es Hrep) Hi) as He.
  destruct (leaf_rep_read bt Hbt n es index e Hrep Hi) as (Hki & _).
  destruct (plain_remove bt Hbt Hso n es index e Hp Hi) as (n' & Hrm & Hp' & Hfr).
  unfold delete_key_by_index_leaf, btree_leaf_get_nth_key_info. rewrite Hki. runs.
  cbn [ki_datalen ki_keylen ki_ptr e_info]. pose proof (eo_data _ _ He) as Hdl. unfold data_inleaf in Hdl.
  destruct (big_object_kd bt (lenZ (e_key e)) (e_datalen e)).
  - destruct Hch as (rest & Hch & Hlen & Hacc). pose proof (eo_datalen _ _ He).
    rewrite <- Hdl, u64_small by lia. replace (e_datalen e - lenZ (e_data e)) with (lenZ rest) by lia.
    destruct (delete_overflow_ok st _ _ _ Hch Hacc) as (st' & -> & Hns & Hdm & Hk & Hsu). runs.
    rewrite decide_True by done. rewrite Hrm. runs. eexists _, n'. split; [done|]. by split_and!.
  - subst ids. runs. rewrite decide_True by done. rewrite Hrm. runs. eexists _, n'. split; [done|]. by split_and!.
Qed.
End objects.

(** C31: Reading the object behind a leaf entry returns its data in full: the
    bytes in the leaf followed by the bytes of its overflow chain (the chain
    is walked to its end and no further), and the only effect is that nodes
    enter the cache. *)
Theorem object_read_back bt read_ret n es i e st data :
  bt_ok bt -> leaf_rep bt n es -> es !! i = Some e -> object bt read_ret st e data ->
  exists c, get_leaf_data_nth_key bt read_ret st n i false false
            = Some (set_cached st c, BTREE_SUCCESS, Some data).
Proof. intros Hbt. by apply get_object. Qed.

(** C22: inserting an object, big or small, in a page the space check admits it
    to always succeeds when the allocator supplies the overflow nodes, and
    reading the entry then returns exactly the data inserted; no other
    overflow node is touched. *)
Theorem object_insert_then_read bt read_ret n es index st key data seqno_ tomb news :
  bt_ok bt -> leaf_rep bt n es -> (index <= length es)%nat ->
  0 < lenZ key < max_key_size bt -> lenZ key <= big_object_size bt -> lenZ data < 2 ^ 64 ->
  0 <= seqno_ < 2 ^ 64 -> (big_object_kd bt (lenZ key) (lenZ data) = true -> data <> []) ->
  supplied bt st news (overflow_part bt key data) ->
  btree_leaf_is_full_index bt n key (lenZ data) tomb false index = Some false ->
  exists st' n' e c,
    btree_leaf_insert_low bt read_ret st n key data seqno_ tomb index false
      = Some (st', n', true, BTREE_SUCCESS) /\
    leaf_rep bt n' (take index es ++ e :: drop index es) /\
    e_key e = key /\ e_seqno e = seqno_ /\ e_tomb e = tomb /\
    get_leaf_data_nth_key bt read_ret st' n' index false false
      = Some (set_cached st' c, BTREE_SUCCESS, Some data) /\
    (forall i, i ∉ news.*1 -> ov_nodes st' !! i = ov_nodes st !! i) /\ doomed st' = doomed st.
Proof.
  intros Hbt Hrep Hi Hk Hkb Hdl Hs Hbd Hsup Hfull.
  destruct (insert_object bt read_ret Hbt n es index st key data seqno_ tomb news)
    as (st' & n' & e & Hins & Hrep' & _ & Ek & Es & Et & Hobj & Hfr & Hdm & _); [done..|].
  destruct (get_object bt read_ret Hbt n' _ index e st' data Hrep') as (c & Hget).
  - rewrite lookup_app_r, length_take, Nat.min_l, Nat.sub_diag by (rewrite ?length_take; lia). done.
  - done.
  - exists st', n', e, c. by split_and!.
Qed.

(** in the default page format, deleting an entry removes it from the page
    and schedules exactly the nodes of its overflow chain for deletion, each
    once; without a chain nothing is scheduled. Nodes outside the chain stay
    accessible. *)
Theorem object_delete_frees_chain bt read_ret n es index e st ids :
  bt_ok bt -> space_op_disabled bt = true -> leaf_plain bt n es -> es !! index = Some e ->
  owns bt read_ret st e ids ->
  exists st' n', delete_key_by_index_leaf bt read_ret st n index = Some (st', n', BTREE_SUCCESS) /\
    leaf_plain bt n' (delete index es) /\ same_frame n n' /\
    ov_nodes st' = ov_nodes st /\ doomed st' ≡ₚ ids ++ doomed st /\
    (forall i, i ∉ ids -> accessible read_ret st i -> accessible read_ret st' i).
Proof.
  intros Hbt Hso Hp Hi Hown.
  destruct (delete_object bt read_ret Hbt n es index e st ids Hso Hp Hi Hown) as (st' & n' & ? & ? & ? & ? & ? & ? & _).
  by exists st', n'.
Qed.

(** ** Examples *)

(** A tree with nodes of 2 KB; the second node of the chain of an object of
    4500 bytes is not filled. *)
Definition bt_2k : btree_raw :=
  mk_btree_raw 200 2440 (init_nodesize_less_hdr 2440) (init_big_object_size 2440) false 0
    true 10 default_cmp_cb.

Lemma bt_2k_ok : bt_ok bt_2k.
Proof. by split. Qed.

Definition blank : list byte := replicate 2304 Byte.x00.
Definition st_two : ov_state :=
  mk_ov_state ∅ ∅ [] [] [inr (5, blank); inr (9, blank)] 0 0 0 0 env0 fresh_pstats.
Definition big_data : list byte := replicate 4500 Byte.x41.
Definition page_2k : btree_raw_node := page_of [].

Lemma page_2k_rep : leaf_rep bt_2k page_2k [].
Proof. apply (plain_rep _ bt_2k_ok). split; [apply page_of_layout|done|done]. Qed.

Lemma st_two_supplied : supplied bt_2k st_two [(5, blank); (9, blank)] (overflow_part bt_2k (key_ab Byte.x31) big_data).
Proof.
  split_and!.
  - split; [repeat constructor; by vm_compute|]. apply (bool_decide_unpack _). by vm_compute.
  - by vm_compute.
  - by exists [].
  - repeat constructor; cbn; try lia; set_solver.
Qed.

Lemma object_insert_then_read_witness :
  exists st' n' c, btree_leaf_insert_low bt_2k (fun _ => BTREE_SUCCESS) st_two page_2k (key_ab Byte.x31) big_data
                     3 false 0 false = Some (st', n', true, BTREE_SUCCESS) /\
    get_leaf_data_nth_key bt_2k (fun _ => BTREE_SUCCESS) st' n' 0 false false
      = Some (set_cached st' c, BTREE_SUCCESS, Some big_data).
Proof.
  destruct (object_insert_then_read bt_2k (fun _ => BTREE_SUCCESS) page_2k [] 0 st_two (key_ab Byte.x31) big_data 3 false
              [(5, blank); (9, blank)]) as (st' & n' & e & c & Hins & _ & _ & _ & _ & Hget & _).
  - apply bt_2k_ok.
  - apply page_2k_rep.
  - cbn. lia.
  - by vm_compute.
  - by vm_compute.
  - by vm_compute.
  - lia.
  - done.
  - apply st_two_supplied.
  - by vm_compute.
  - exists st', n', c. exact (conj Hins Hget).
Defined.

(** The object stored. *)
Definition e_big : entry := mk_entry (key_ab Byte.x31) 4500 [] 5 3 false.
Definition st_full : ov_state :=
  mk_ov_state (<[5 := mk_onode 9 (replicate 2304 Byte.x41)]>
                (<[9 := mk_onode 0 (replicate 2196 Byte.x41 ++ replicate 108 Byte.x00)]> ∅))
    {[9]} [] [] [] 2 4772 0 0 env0 fresh_pstats.

Lemma e_big_plain : leaf_plain bt_2k (page_of (full_cell <$> [e_big])) [e_big].
Proof. split; [apply page_of_layout| |done]. repeat constructor; by vm_compute. Qed.

Lemma e_big_chain :
  chain bt_2k (ov_nodes st_full) 5 [5; 9] (replicate 2304 Byte.x41 ++ replicate 2196 Byte.x41) /\
  Forall (accessible (fun _ => BTREE_SUCCESS) st_full) [5; 9].
Proof.
  split.
  - eapply chain_cons; [done|done|by vm_compute| |set_solver].
    by eapply chain_last; [done|done|vm_compute].
  - repeat constructor; try (by intros ?%not_elem_of_nil); by right.
Qed.

Lemma object_read_back_witness :
  exists c, get_leaf_data_nth_key bt_2k (fun _ => BTREE_SUCCESS) st_full (page_of (full_cell <$> [e_big])) 0 false false
            = Some (set_cached st_full c, BTREE_SUCCESS, Some (replicate 2304 Byte.x41 ++ replicate 2196 Byte.x41)).
Proof.
  apply (object_read_back bt_2k (fun _ => BTREE_SUCCESS) (page_of (full_cell <$> [e_big])) [e_big] 0 e_big).
  - apply bt_2k_ok.
  - apply (plain_rep _ bt_2k_ok), e_big_plain.
  - reflexivity.
  - split; [by vm_compute|]. destruct e_big_chain as [H1 H2]. eexists _, _. split; [exact H1|].
    split; [reflexivity|exact H2].
Defined.

Lemma object_delete_frees_chain_witness :
  exists st' n', delete_key_by_index_leaf bt_2k (fun _ => BTREE_SUCCESS) st_full (page_of (full_cell <$> [e_big])) 0
                 = Some (st', n', BTREE_SUCCESS) /\
    leaf_plain bt_2k n' [] /\ same_frame (page_of (full_cell <$> [e_big])) n' /\
    ov_nodes st' = ov_nodes st_full /\ doomed st' ≡ₚ [5; 9] ++ doomed st_full /\
    (forall i, i ∉ [5; 9] -> accessible (fun _ => BTREE_SUCCESS) st_full i ->
       accessible (fun _ => BTREE_SUCCESS) st' i).
Proof.
  apply (object_delete_frees_chain bt_2k (fun _ => BTREE_SUCCESS) (page_of (full_cell <$> [e_big])) [e_big] 0 e_big
           st_full [5; 9]).
  - apply bt_2k_ok.
  - reflexivity.
  - apply e_big_plain.
  - reflexivity.
  - destruct e_big_chain as [H1 H2]. eexists. split; [exact H1|]. split; [by vm_compute|exact H2].
Defined.

(** ** Two defects *)

(** The allocator has one node left, then no space. *)
Definition st_short : ov_state :=
  mk_ov_state ∅ ∅ [] [] [inr (5, blank); inl BTREE_OUT_OF_STORAGE_SPACE] 0 0 0 0 env0 fresh_pstats.

(** a failed allocation of overflow nodes is not noticed. The allocation
    returns the error code through the same integer as a node id, its caller
    only tests for zero, and the insertion reports success with the error code
    stored as the pointer to the data: reading the object back then fails. *)
Theorem overflow_error_stored_as_pointer :
  exists st n ki,
    btree_leaf_insert_low bt_2k (fun _ => BTREE_FLASH_EINCONS) st_short page_2k (key_ab Byte.x31) big_data 3 false 0 false
      = Some (st, n, true, BTREE_SUCCESS) /\
    btree_leaf_get_nth_key_info2 n 0 = Some ki /\
    ki_ptr ki = status_code BTREE_OUT_OF_STORAGE_SPACE /\ ov_nodes st = ∅ /\
    get_leaf_data_nth_key bt_2k (fun _ => BTREE_FLASH_EINCONS) st n 0 false false
      = Some (st, BTREE_FLASH_EINCONS, None).
Proof. eexists _, _, _. split; [by vm_compute|]. split; [by vm_compute|]. split_and!; by vm_compute. Qed.

(** The byte counter of the overflow nodes drifts. Allocating an object
    counts the header of each of its nodes twice, deleting it gives back one
    header per node: after inserting and deleting an object of two nodes the
    counter stands at two headers, though no overflow node is left. *)
Theorem overflow_bytes_drift :
  exists st n st' n',
    btree_leaf_insert_low bt_2k (fun _ => BTREE_SUCCESS) st_two page_2k (key_ab Byte.x31) big_data 3 false 0 false
      = Some (st, n, true, BTREE_SUCCESS) /\
    delete_key_by_index_leaf bt_2k (fun _ => BTREE_SUCCESS) st n 0 = Some (st', n', BTREE_SUCCESS) /\
    deleted_nodes st' = [5; 9] /\ BTSTAT_OVERFLOW_NODES st' = BTSTAT_OVERFLOW_NODES st_two /\
    BTSTAT_OVERFLOW_BYTES st' = BTSTAT_OVERFLOW_BYTES st_two + 2 * SIZEOF_BTREE_RAW_NODE.
Proof. eexists _, _, _, _. split; [by vm_compute|]. split; [by vm_compute|]. split_and!; by vm_compute. Qed.
