(* ===== verification/Snapshot.v ===== *)
(** * Snapshot metadata (btree/btree_snapshot.c)

    A container keeps its snapshots in one metadata node: a header and an array
    of (sequence number, time) records in order of creation. Sequence numbers
    grow, so the array is sorted, and the snapshot a version belongs to is
    found by binary search. The callbacks that store the node are function
    pointers of the tree ([write_node_cb], [read_node_cb]); they are parameters
    here, and so is the clock. The read-write lock around the operations makes
    them atomic; the model runs them one at a time. *)

From S2P Require Import Prelude Status LeafMeta.

Definition SNAP_VERSION1 : Z := 0x98760001.
Definition SIZEOF_SNAP_INFO_V1 : Z := 16.
Definition META_SNAPSHOT_LOGICAL_ID : Z := 2 ^ 63 + 4.

Record btree_snap_info_v1 := mk_snap_info { snap_seqno : Z; timestamp : Z }.

#[export] Instance snap_info_eq_dec : EqDecision btree_snap_info_v1.
Proof. solve_decision. Defined.

(** [snapshots] is the array that fills the rest of the node: its length is
    the number of records there is room for. *)
Record btree_snap_meta := mk_snap_meta {
  sn_logical_id : Z;
  snap_version : Z;
  max_snapshots : Z;
  total_snapshots : Z;
  sc_status : Z;
  snapshots : list btree_snap_info_v1
}.

Definition set_snapshots (m : btree_snap_meta) (ss : list btree_snap_info_v1) : btree_snap_meta :=
  mk_snap_meta (sn_logical_id m) (snap_version m) (max_snapshots m) (total_snapshots m) (sc_status m) ss.
Definition set_total (m : btree_snap_meta) (t : Z) : btree_snap_meta :=
  mk_snap_meta (sn_logical_id m) (snap_version m) (max_snapshots m) t (sc_status m) (snapshots m).

(** [offsetof(btree_snap_meta_t, meta)] *)
Definition OFFSETOF_SNAP_META : Z := SIZEOF_BTREE_RAW_NODE + 16.

(** The number of record slots in a node. *)
Definition snap_slots (nodesize : Z) : nat := z2n ((nodesize - OFFSETOF_SNAP_META) / SIZEOF_SNAP_INFO_V1).

Definition btree_snap_get_max_snapshot (m : btree_snap_meta) (size : Z) : option Z :=
  _ ← assert_ (snap_version m =? SNAP_VERSION1); Some (size / SIZEOF_SNAP_INFO_V1).

(** ** Searching *)

Definition snap_at (m : btree_snap_meta) (i : Z) : option Z :=
  if i <? 0 then None else snap_seqno <$> snapshots m !! z2n i.

(** The binary search; the interval shrinks in each iteration. *)
Fixpoint snap_search (fuel : nat) (m : btree_snap_meta) (seqno i_start i_end : Z) : option Z :=
  match fuel with
  | O => None
  | S fuel =>
      if i_end <? i_start then Some (-1)
      else
        let i_check := (i_start + i_end) / 2 in
        s ← snap_at m i_check;
        if seqno <=? s then
          first ← (if i_check =? 0 then Some true
                   else p ← snap_at m (i_check - 1); Some (p <? seqno));
          if (first : bool) then Some i_check
          else snap_search fuel m seqno i_start (i_check - 1)
        else snap_search fuel m seqno (i_check + 1) i_end
  end.

Definition btree_snap_seqno_in_snap (m : btree_snap_meta) (seqno : Z) : option bool :=
  _ ← assert_ (snap_version m =? SNAP_VERSION1);
  if total_snapshots m =? 0 then Some false
  else
    s ← snap_at m (total_snapshots m - 1);
    Some (negb (s <? seqno)).

Definition btree_snap_find_meta_index_low (m : btree_snap_meta) (seqno : Z) : option Z :=
  _ ← assert_ (snap_version m =? SNAP_VERSION1);
  if total_snapshots m =? 0 then Some (-1)
  else
    s ← snap_at m (total_snapshots m - 1);
    if s <? seqno then Some (-1)
    else snap_search (S (z2n (total_snapshots m))) m seqno 0 (total_snapshots m - 1).

Definition btree_snap_find_meta_index (m : btree_snap_meta) (seqno : Z) : option Z :=
  btree_snap_find_meta_index_low m seqno.

(** The list handed to the application: its length and the records. *)
Definition btree_snap_get_meta_list (m : btree_snap_meta) : option (Z * list btree_snap_info_v1) :=
  _ ← assert_ (snap_version m =? SNAP_VERSION1);
  _ ← assert_ (total_snapshots m <=? lenZ (snapshots m));
  Some (total_snapshots m, take (z2n (total_snapshots m)) (snapshots m)).

(** ** Changes *)

Definition btree_snap_create_meta_v1 (m : btree_snap_meta) (seqno now : Z)
    : option (btree_snap_meta * btree_status) :=
  if max_snapshots m <=? total_snapshots m then Some (m, BTREE_TOO_MANY_SNAPSHOTS)
  else
    let i := z2n (total_snapshots m) in
    _ ← snapshots m !! i;
    Some (set_snapshots m (<[i := mk_snap_info seqno now]> (snapshots m)), BTREE_SUCCESS).

(** [memmove] of the records after [index] one place down; the last used
    record stays where it was as well. *)
Definition snap_memmove (ss : list btree_snap_info_v1) (index total : nat) : list btree_snap_info_v1 :=
  take index ss ++ take (total - 1 - index) (drop (S index) ss) ++ drop (total - 1) ss.

Definition btree_snap_delete_meta_v1 (m : btree_snap_meta) (seqno : Z)
    : option (btree_snap_meta * btree_status) :=
  index ← btree_snap_find_meta_index_low m seqno;
  if index =? -1 then Some (m, BTREE_FAILURE)
  else
    s ← snap_at m index;
    if negb (s =? seqno) then Some (m, BTREE_FAILURE)
    else Some (set_snapshots m (snap_memmove (snapshots m) (z2n index) (z2n (total_snapshots m))),
               BTREE_SUCCESS).

(** ** Storing the node *)

(** The part of the tree the snapshot code works on: the node in memory,
    whether it was read, the snapshot counter of the statistics, and the
    storage behind the callbacks. *)
Record snap_tree (store : Type) := mk_snap_tree {
  snap_meta : btree_snap_meta;
  cache_valid : bool;
  stat_num_snaps : Z;
  st_store : store
}.
Arguments mk_snap_tree {store}.
Arguments snap_meta {store}.
Arguments cache_valid {store}.
Arguments stat_num_snaps {store}.
Arguments st_store {store}.

Section store.
Context {store : Type}
  (write_node_cb : store -> btree_snap_meta -> store * btree_status)
  (read_node_cb : store -> Z -> option btree_snap_meta * btree_status).

(** A read that succeeds fills the node; a storage error aborts. *)
Definition btree_snap_rw_metanode (t : snap_tree store) (write : bool)
    : option (snap_tree store * btree_status) :=
  if write then
    let '(st, ret) := write_node_cb (st_store t) (snap_meta t) in
    _ ← assert_ (negb (storage_error ret));
    Some (mk_snap_tree (snap_meta t) (cache_valid t) (stat_num_snaps t) st, ret)
  else
    let '(got, ret) := read_node_cb (st_store t) META_SNAPSHOT_LOGICAL_ID in
    if decide (ret = BTREE_SUCCESS) then
      m ← got;
      _ ← assert_ (sn_logical_id m =? META_SNAPSHOT_LOGICAL_ID);
      Some (mk_snap_tree m true (stat_num_snaps t) (st_store t), ret)
    else
      _ ← assert_ (negb (storage_error ret));
      Some (t, ret).

(** The node is allocated with all bytes zero; [num] is the counter's value. *)
Definition btree_snap_init (nodesize : Z) (st : store) (num : Z) (create : bool)
    : option (snap_tree store * btree_status) :=
  let zeroed := mk_snap_meta 0 0 0 0 0 (replicate (snap_slots nodesize) (mk_snap_info 0 0)) in
  if create then
    let snap_data_size := u32 (nodesize - OFFSETOF_SNAP_META) in
    let m := mk_snap_meta META_SNAPSHOT_LOGICAL_ID SNAP_VERSION1 0 0 0 (snapshots zeroed) in
    mx ← btree_snap_get_max_snapshot m snap_data_size;
    let m := mk_snap_meta META_SNAPSHOT_LOGICAL_ID SNAP_VERSION1 mx 0 0 (snapshots zeroed) in
    btree_snap_rw_metanode (mk_snap_tree m false num st) true
  else btree_snap_rw_metanode (mk_snap_tree zeroed false num st) false.

Definition btree_snap_create_meta (t : snap_tree store) (seqno now : Z)
    : option (snap_tree store * btree_status) :=
  _ ← assert_ (snap_version (snap_meta t) =? SNAP_VERSION1);
  r ← btree_snap_create_meta_v1 (snap_meta t) seqno now;
  let '(m, ret) := r in
  if decide (ret = BTREE_SUCCESS) then
    let m := set_total m (u32 (total_snapshots m + 1)) in
    btree_snap_rw_metanode (mk_snap_tree m (cache_valid t) (u64 (stat_num_snaps t + 1)) (st_store t)) true
  else Some (mk_snap_tree m (cache_valid t) (stat_num_snaps t) (st_store t), ret).

Definition btree_snap_delete_meta (t : snap_tree store) (seqno : Z)
    : option (snap_tree store * btree_status) :=
  _ ← assert_ (snap_version (snap_meta t) =? SNAP_VERSION1);
  r ← btree_snap_delete_meta_v1 (snap_meta t) seqno;
  let '(m, ret) := r in
  if decide (ret = BTREE_SUCCESS) then
    let m := set_total m (u32 (total_snapshots m - 1)) in
    btree_snap_rw_metanode (mk_snap_tree m (cache_valid t) (u64 (stat_num_snaps t - 1)) (st_store t)) true
  else Some (mk_snap_tree m (cache_valid t) (stat_num_snaps t) (st_store t), ret).
End store.
