(* ===== verification/SnapshotSpec.v ===== *)
(** * The contract of the snapshot metadata

    The metadata node is seen as the list of its snapshots in order; the
    binary search is compared with a linear one, creation with appending and
    deletion with filtering. *)

From S2P Require Import Prelude Status LeafMeta Snapshot.

(** The snapshots of a node, and their sequence numbers. *)
Definition snap_list (m : btree_snap_meta) : list btree_snap_info_v1 :=
  take (z2n (total_snapshots m)) (snapshots m).
Definition snap_seqs (m : btree_snap_meta) : list Z := snap_seqno <$> snap_list m.

(** The snapshot a sequence number falls in: the first one taken at or after
    it; -1 when it is newer than every snapshot. *)
Definition epoch (seqs : list Z) (seqno : Z) : Z :=
  match list_find (fun s => seqno <= s) seqs with Some (i, _) => n2z i | None => -1 end.

Definition increasing (l : list Z) : Prop :=
  forall i j x y, (i < j)%nat -> l !! i = Some x -> l !! j = Some y -> x < y.

Record snap_ok (nodesize : Z) (m : btree_snap_meta) : Prop := {
  so_id : sn_logical_id m = META_SNAPSHOT_LOGICAL_ID;
  so_version : snap_version m = SNAP_VERSION1;
  so_slots : length (snapshots m) = snap_slots nodesize;
  so_max : max_snapshots m = lenZ (snapshots m);
  so_small : max_snapshots m < 2 ^ 31;
  so_total : 0 <= total_snapshots m <= max_snapshots m;
  so_sorted : increasing (snap_seqs m)
}.

(** ** Increasing lists *)

Lemma increasing_snoc l x : increasing l -> Forall (fun y => y < x) l -> increasing (l ++ [x]).
Proof.
  intros Hl Hx i j a b Hij Hi Hj.
  apply lookup_app_Some in Hj as [Hj|[Hge Hj]].
  - apply (Hl i j); [done| |done]. rewrite lookup_app_l in Hi; [done|].
    pose proof (lookup_lt_Some _ _ _ Hj). lia.
  - apply list_lookup_singleton_Some in Hj as [? <-]. rewrite lookup_app_l in Hi by lia.
    by apply (Forall_at Hx Hi).
Qed.

Lemma increasing_cons x l : increasing (x :: l) <-> Forall (fun y => x < y) l /\ increasing l.
Proof.
  split.
  - intros H. split.
    + apply Forall_lookup_2. intros i y Hy. by apply (H 0%nat (S i)); [lia|..].
    + intros i j a b Hij Hi Hj. by apply (H (S i) (S j)); [lia|..].
  - intros [Hx Hl] [|i] [|j] a b Hij Hi Hj; try lia.
    + injection Hi as <-. by apply (Forall_at Hx Hj).
    + by apply (Hl i j); [lia|..].
Qed.

Lemma increasing_filter l (P : Z -> Prop) `{!forall x, Decision (P x)} : increasing l -> increasing (filter P l).
Proof.
  induction l as [|x l IH]; [done|]. rewrite increasing_cons. intros [Hx Hl]. rewrite filter_cons.
  case_decide; [|by apply IH]. apply increasing_cons. split; [|by apply IH].
  by apply Forall_filter_sub.
Qed.

(** In an increasing list one record at most has a given number. *)
Lemma filter_delete (l : list btree_snap_info_v1) i x :
  increasing (snap_seqno <$> l) -> l !! i = Some x ->
  filter (fun y => snap_seqno y <> snap_seqno x) l = delete i l.
Proof.
  revert i. induction l as [|y l IH]; intros i; [done|]. rewrite fmap_cons, increasing_cons.
  intros [Hy Hl] Hi. rewrite filter_cons. destruct i as [|i].
  - injection Hi as ->. rewrite decide_False by lia. cbn.
    apply filter_all. rewrite Forall_fmap in Hy. eapply Forall_impl; [|exact Hy]. cbn. lia.
  - cbn in Hi. rewrite decide_True.
    + cbn. by rewrite (IH i).
    + rewrite Forall_fmap in Hy. pose proof (Forall_at Hy Hi) as H. cbn in H. lia.
Qed.

Lemma snap_seqno_filter (l : list btree_snap_info_v1) q :
  snap_seqno <$> filter (fun s => snap_seqno s <> q) l = filter (fun s => s <> q) (snap_seqno <$> l).
Proof.
  induction l as [|x l IH]; [done|]. rewrite fmap_cons, !filter_cons.
  by case_decide; [rewrite fmap_cons, IH|].
Qed.

(** ** The epoch of a sequence number *)

Lemma epoch_range l s : -1 <= epoch l s < lenZ l.
Proof.
  unfold epoch. destruct (list_find _ l) as [[i x]|] eqn:E; [|lia].
  apply list_find_Some in E as [E _]. pose proof (lookup_lt_Some _ _ _ E). lia.
Qed.

Lemma epoch_none l s : epoch l s = -1 <-> Forall (fun x => x < s) l.
Proof.
  unfold epoch. destruct (list_find _ l) as [[i x]|] eqn:E.
  - apply list_find_Some in E as (E & Hx & _). split; [lia|]. intros H.
    pose proof (Forall_at H E) as H'. cbn in H'. lia.
  - split; [|done]. intros _. apply list_find_None in E. eapply Forall_impl; [|exact E]. cbn. lia.
Qed.

Lemma epoch_some l s i :
  epoch l s = n2z i ->
  (exists x, l !! i = Some x /\ s <= x) /\ (forall j y, l !! j = Some y -> (j < i)%nat -> y < s).
Proof.
  unfold epoch. destruct (list_find _ l) as [[k x]|] eqn:E; [|lia].
  intros ->%Nat2Z.inj. apply list_find_Some in E as (E & Hx & H). split; [by exists x|].
  intros j y Hj Hji. pose proof (H j y Hj Hji). lia.
Qed.

(** Older versions fall in older or equal epochs. *)
Lemma epoch_mono l s s' :
  s <= s' -> epoch l s' <> -1 -> epoch l s <> -1 /\ epoch l s <= epoch l s'.
Proof.
  intros Hs Hne. pose proof (epoch_range l s') as R'. pose proof (epoch_range l s) as R.
  destruct (epoch_some l s' (z2n (epoch l s'))) as [(x & Hx & Hsx) _]; [lia|].
  assert (epoch l s <> -1) as Hn.
  { rewrite epoch_none. intros H. pose proof (Forall_at H Hx) as H'. cbn in H'. lia. }
  split; [done|]. destruct (epoch_some l s (z2n (epoch l s))) as [_ Hlt]; [lia|].
  destruct (Z.le_gt_cases (epoch l s) (epoch l s')); [done|].
  pose proof (Hlt _ _ Hx ltac:(lia)). lia.
Qed.

(** ** Searching *)

Section search.
Context (nodesize : Z) (m : btree_snap_meta) (Hm : snap_ok nodesize m).

Lemma snap_list_length : lenZ (snap_list m) = total_snapshots m.
Proof using Hm. unfold snap_list. rewrite length_take. destruct Hm. lia. Qed.

Lemma snap_seqs_length : lenZ (snap_seqs m) = total_snapshots m.
Proof using Hm. unfold snap_seqs. rewrite length_fmap. apply snap_list_length. Qed.

Lemma snap_at_ok i : 0 <= i < total_snapshots m -> snap_at m i = snap_seqs m !! z2n i.
Proof using Type.
  intros Hi. unfold snap_at, snap_seqs, snap_list. rewrite (proj2 (Z.ltb_ge i 0)) by lia.
  rewrite list_lookup_fmap, lookup_take_lt by lia. done.
Qed.

Lemma snap_at_Some i : 0 <= i < total_snapshots m ->
  exists x, snap_at m i = Some x /\ snap_seqs m !! z2n i = Some x.
Proof using Hm.
  intros Hi. rewrite snap_at_ok by done. destruct (snap_seqs m !! z2n i) as [x|] eqn:E; [by exists x|].
  apply lookup_ge_None in E. pose proof snap_seqs_length. lia.
Qed.

(** The position [k] found by a linear search is found by the binary one. *)
Lemma snap_search_ok s k fuel a b :
  epoch (snap_seqs m) s = n2z k -> 0 <= a -> b < total_snapshots m -> a <= n2z k <= b ->
  b - a < n2z fuel -> snap_search fuel m s a b = Some (n2z k).
Proof using Hm.
  intros Hk. destruct (epoch_some _ _ _ Hk) as [(x & Hx & Hsx) Hlt].
  assert (forall c y, snap_seqs m !! z2n c = Some y -> 0 <= c -> s <= y <-> n2z k <= c) as Hside.
  { intros c y Hc H0. split; intros H.
    - destruct (Z.le_gt_cases (n2z k) c); [done|]. pose proof (Hlt _ _ Hc ltac:(lia)). lia.
    - destruct (decide (z2n c = k)) as [<-|Hne]; [by simplify_eq|].
      pose proof (so_sorted _ _ Hm k (z2n c) x y ltac:(lia) Hx Hc). lia. }
  revert a b. induction fuel as [|fuel IH]; intros a b Ha Hb Hab Hf; [lia|]. cbn [snap_search].
  rewrite (proj2 (Z.ltb_ge b a)) by lia.
  pose proof (Z.mul_div_le (a + b) 2 ltac:(lia)). pose proof (Z.mul_succ_div_gt (a + b) 2 ltac:(lia)).
  set (c := (a + b) / 2) in *.
  destruct (snap_at_Some c) as (y & -> & Hy); [lia|]. runs. pose proof (Hside c y Hy ltac:(lia)) as Hc.
  destruct (Z.leb_spec s y).
  - destruct (Z.eqb_spec c 0) as [->|Hc0]; [runs; f_equal; lia|].
    destruct (snap_at_Some (c - 1)) as (p & -> & Hp); [lia|]. runs.
    pose proof (Hside (c - 1) p Hp ltac:(lia)) as Hc'.
    destruct (Z.ltb_spec p s); [f_equal; lia|]. apply IH; lia.
  - apply IH; lia.
Qed.

Lemma snap_last : total_snapshots m <> 0 ->
  exists x, snap_at m (total_snapshots m - 1) = Some x /\
    forall s, (x < s <-> Forall (fun y => y < s) (snap_seqs m)).
Proof using Hm.
  intros H0. pose proof (so_total _ _ Hm). destruct (snap_at_Some (total_snapshots m - 1)) as (x & Hx & Hl); [lia|].
  exists x. split; [done|]. intros s. split.
  - intros Hs. apply Forall_lookup_2. intros i y Hi.
    pose proof (lookup_lt_Some _ _ _ Hi). pose proof snap_seqs_length.
    destruct (decide (i = z2n (total_snapshots m - 1))) as [->|]; [simplify_eq; lia|].
    pose proof (so_sorted _ _ Hm i (z2n (total_snapshots m - 1)) y x ltac:(lia) Hi Hl). lia.
  - intros H1. apply (Forall_at H1 Hl).
Qed.

Lemma snap_none : total_snapshots m = 0 -> snap_seqs m = [].
Proof using Type. intros H. unfold snap_seqs, snap_list. by rewrite H, take_0. Qed.

Lemma find_meta_index_ok s : btree_snap_find_meta_index m s = Some (epoch (snap_seqs m) s).
Proof using Hm.
  unfold btree_snap_find_meta_index, btree_snap_find_meta_index_low.
  rewrite (so_version _ _ Hm). rewrite Z.eqb_refl. runs. cbn [assert_]. runs.
  destruct (Z.eqb_spec (total_snapshots m) 0) as [H0|H0]; [by rewrite snap_none|].
  destruct (snap_last H0) as (x & -> & Hx). runs. pose proof (so_total _ _ Hm).
  destruct (Z.ltb_spec x s) as [Hs|Hs].
  - apply Hx, epoch_none in Hs. by rewrite Hs.
  - pose proof (epoch_range (snap_seqs m) s) as R. pose proof (proj1 (epoch_none (snap_seqs m) s)) as N.
    rewrite <- Hx in N. rewrite snap_seqs_length in R.
    rewrite (snap_search_ok s (z2n (epoch (snap_seqs m) s))); try lia. f_equal. lia.
Qed.

Lemma seqno_in_snap_ok s :
  btree_snap_seqno_in_snap m s = Some (negb (epoch (snap_seqs m) s =? -1)).
Proof using Hm.
  unfold btree_snap_seqno_in_snap. rewrite (so_version _ _ Hm). rewrite Z.eqb_refl. cbn [assert_]. runs.
  destruct (Z.eqb_spec (total_snapshots m) 0) as [H0|H0]; [by rewrite snap_none|].
  destruct (snap_last H0) as (x & -> & Hx). runs. do 2 f_equal.
  apply eq_true_iff_eq. rewrite Z.ltb_lt, Z.eqb_eq, epoch_none. apply Hx.
Qed.
End search.

(** ** Creating and deleting *)

Lemma snap_create_v1_ok ns m seqno now :
  snap_ok ns m -> Forall (fun s => s < seqno) (snap_seqs m) -> total_snapshots m < max_snapshots m ->
  exists m1, btree_snap_create_meta_v1 m seqno now = Some (m1, BTREE_SUCCESS) /\
    let m' := set_total m1 (u32 (total_snapshots m1 + 1)) in
    snap_ok ns m' /\ snap_list m' = snap_list m ++ [mk_snap_info seqno now] /\
    total_snapshots m' = total_snapshots m + 1.
Proof.
  intros Hm Hs Hlt. pose proof (so_total _ _ Hm). pose proof (so_max _ _ Hm). pose proof (so_small _ _ Hm).
  unfold btree_snap_create_meta_v1. rewrite (proj2 (Z.leb_gt _ _) Hlt).
  destruct (lookup_lt_is_Some_2 (snapshots m) (z2n (total_snapshots m))) as [old Hold]; [lia|].
  rewrite Hold. runs. eexists. split; [done|]. cbn [set_snapshots set_total total_snapshots].
  rewrite u32_small by lia.
  assert (forall ss, snap_list (set_total (set_snapshots m ss) (total_snapshots m + 1)) =
            take (S (z2n (total_snapshots m))) ss) as Hl.
  { intros ss. unfold snap_list. cbn. f_equal. lia. }
  match goal with |- context [set_snapshots m ?ss] => set (ss' := ss) in * end.
  assert (take (S (z2n (total_snapshots m))) ss' = snap_list m ++ [mk_snap_info seqno now]) as Hss.
  { unfold ss', snap_list. rewrite (take_S_r _ _ (mk_snap_info seqno now)).
    - by rewrite take_insert_ge by lia.
    - apply list_lookup_insert_eq. lia. }
  split_and!; [|by rewrite <- Hss, <- (Hl ss')|done].
  destruct Hm. split; cbn; try done; try lia.
  - unfold ss'. by rewrite length_insert.
  - unfold ss'. rewrite length_insert. lia.
  - unfold snap_seqs. rewrite Hl, Hss, fmap_app. apply increasing_snoc; done.
Qed.

Lemma snap_memmove_take ss index total :
  (index < total)%nat -> (total <= length ss)%nat ->
  take (total - 1) (snap_memmove ss index total) = delete index (take total ss) /\
  length (snap_memmove ss index total) = length ss.
Proof.
  intros Hi Ht. unfold snap_memmove. split.
  - rewrite app_assoc, take_app_length'.
    + rewrite delete_take_drop, take_take, Nat.min_l by lia. f_equal.
      rewrite skipn_firstn_comm. f_equal. lia.
    + rewrite length_app, !length_take, length_drop. lia.
  - rewrite !length_app, !length_take, !length_drop. lia.
Qed.

Lemma snap_delete_v1_missing ns m seqno :
  snap_ok ns m -> seqno ∉ snap_seqs m -> btree_snap_delete_meta_v1 m seqno = Some (m, BTREE_FAILURE).
Proof.
  intros Hm Hno. unfold btree_snap_delete_meta_v1.
  change (btree_snap_find_meta_index_low m seqno) with (btree_snap_find_meta_index m seqno).
  rewrite (find_meta_index_ok ns m Hm). runs.
  destruct (Z.eqb_spec (epoch (snap_seqs m) seqno) (-1)); [done|].
  pose proof (epoch_range (snap_seqs m) seqno) as R. rewrite (snap_seqs_length ns m Hm) in R.
  destruct (snap_at_Some ns m Hm (epoch (snap_seqs m) seqno)) as (x & -> & Hx); [lia|]. runs.
  destruct (Z.eqb_spec x seqno) as [->|]; [|done]. destruct Hno. by eapply list_elem_of_lookup_2.
Qed.

Lemma snap_delete_v1_ok ns m seqno :
  snap_ok ns m -> seqno ∈ snap_seqs m ->
  exists m1, btree_snap_delete_meta_v1 m seqno = Some (m1, BTREE_SUCCESS) /\
    let m' := set_total m1 (u32 (total_snapshots m1 - 1)) in
    snap_ok ns m' /\ snap_list m' = filter (fun s => snap_seqno s <> seqno) (snap_list m) /\
    total_snapshots m' = total_snapshots m - 1.
Proof.
  intros Hm (k & Hk)%list_elem_of_lookup_1. unfold btree_snap_delete_meta_v1.
  change (btree_snap_find_meta_index_low m seqno) with (btree_snap_find_meta_index m seqno).
  rewrite (find_meta_index_ok ns m Hm). runs.
  pose proof (lookup_lt_Some _ _ _ Hk) as Hlt. pose proof (snap_seqs_length ns m Hm) as Hlen.
  assert (epoch (snap_seqs m) seqno = n2z k) as He.
  { unfold epoch. destruct (list_find _ _) as [[i x]|] eqn:E.
    - apply list_find_Some in E as (Hi & Hx & Hf). f_equal. destruct (decide (i < k)%nat).
      + pose proof (so_sorted _ _ Hm i k x seqno ltac:(done) Hi Hk). lia.
      + destruct (decide (k < i)%nat); [|lia]. by destruct (Hf k seqno Hk).
    - apply list_find_None in E. by destruct (Forall_at E Hk). }
  rewrite He, (proj2 (Z.eqb_neq (n2z k) (-1))) by lia.
  destruct (snap_at_Some ns m Hm (n2z k)) as (x & -> & Hx); [lia|]. runs.
  rewrite Nat2Z.id in Hx. assert (x = seqno) as -> by congruence. rewrite Z.eqb_refl. cbn [negb].
  eexists. split; [done|]. rewrite Nat2Z.id. cbn [set_snapshots set_total total_snapshots].
  pose proof (so_total _ _ Hm). pose proof (so_max _ _ Hm). pose proof (so_small _ _ Hm).
  rewrite u32_small by lia.
  destruct (snap_memmove_take (snapshots m) k (z2n (total_snapshots m))) as [Htake Hlen']; [lia..|].
  match goal with |- context [set_snapshots m ?ss] => set (ss' := ss) in * end.
  assert (snap_list (set_total (set_snapshots m ss') (total_snapshots m - 1)) =
            filter (fun s => snap_seqno s <> seqno) (snap_list m)) as Hl.
  { unfold snap_seqs in Hk. rewrite list_lookup_fmap in Hk.
    destruct (snap_list m !! k) as [r|] eqn:Er; [|done]. injection Hk as <-.
    rewrite (filter_delete _ k) by (done || apply (so_sorted _ _ Hm)).
    unfold snap_list. cbn [set_total set_snapshots total_snapshots snapshots]. rewrite <- Htake. f_equal. lia. }
  split_and!; [|by rewrite <- Hl|done].
  destruct Hm. split; cbn; try done; try lia.
  unfold snap_seqs. rewrite Hl.
  rewrite snap_seqno_filter.
  by apply increasing_filter.
Qed.
