(* ===== verification/SnapshotTheorems.v ===== *)
(** * The snapshot theorems *)

From S2P Require Import Prelude Status LeafMeta Snapshot SnapshotSpec.

(** C30: the binary search over the snapshots always ends and finds the first
    snapshot taken at or after the given sequence number, -1 when there is
    none, and the quick test says whether there is one. *)
Theorem snap_find_correct ns m s :
  snap_ok ns m ->
  btree_snap_find_meta_index m s = Some (epoch (snap_seqs m) s) /\
  btree_snap_seqno_in_snap m s = Some (negb (epoch (snap_seqs m) s =? -1)) /\
  btree_snap_get_meta_list m = Some (lenZ (snap_list m), snap_list m).
Proof.
  intros Hm. split_and!; [by eapply find_meta_index_ok|by eapply seqno_in_snap_ok|].
  unfold btree_snap_get_meta_list. rewrite (snap_list_length ns m Hm). destruct Hm.
  pass by (by apply Z.eqb_eq). pass by (apply Z.leb_le; lia). done.
Qed.

(** Three snapshots in an 8K node. *)
Definition snap3 : btree_snap_meta :=
  mk_snap_meta META_SNAPSHOT_LOGICAL_ID SNAP_VERSION1 502 3 0
    ([mk_snap_info 10 1; mk_snap_info 20 2; mk_snap_info 35 3] ++ replicate 499 (mk_snap_info 0 0)).

Lemma snap3_ok : snap_ok 8192 snap3.
Proof.
  split; try done. assert (snap_seqs snap3 = [10; 20; 35]) as -> by done. intros i j x y Hij Hi Hj.
  destruct i as [|[|[|i]]], j as [|[|[|j]]]; try lia; try done; cbn in *; simplify_eq; lia.
Qed.

Lemma snap_find_correct_witness :
  btree_snap_find_meta_index snap3 20 = Some (epoch (snap_seqs snap3) 20) /\
  btree_snap_seqno_in_snap snap3 20 = Some (negb (epoch (snap_seqs snap3) 20 =? -1)) /\
  btree_snap_get_meta_list snap3 = Some (lenZ (snap_list snap3), snap_list snap3).
Proof. apply (snap_find_correct 8192 snap3 20). apply snap3_ok. Defined.

Section store.
Context {store : Type}
  (write_node_cb : store -> btree_snap_meta -> store * btree_status)
  (read_node_cb : store -> Z -> option btree_snap_meta * btree_status).
Abbreviation create_meta := (btree_snap_create_meta write_node_cb read_node_cb).
Abbreviation delete_meta := (btree_snap_delete_meta write_node_cb read_node_cb).
Abbreviation init := (btree_snap_init write_node_cb read_node_cb).

(** The result of storing the node [m']. *)
Definition stored (t : snap_tree store) (m' : btree_snap_meta) (stat : Z) : option (snap_tree store * btree_status) :=
  let '(st, ret) := write_node_cb (st_store t) m' in
  if storage_error ret then None else Some (mk_snap_tree m' (cache_valid t) stat st, ret).

Lemma rw_write (t : snap_tree store) m' stat :
  btree_snap_rw_metanode write_node_cb read_node_cb (mk_snap_tree m' (cache_valid t) stat (st_store t)) true =
  stored t m' stat.
Proof using Type.
  unfold btree_snap_rw_metanode, stored. cbn [st_store snap_meta cache_valid stat_num_snaps].
  destruct (write_node_cb _ m') as [st ret]. by destruct (storage_error ret).
Qed.

Lemma create_meta_ok ns t seqno now :
  snap_ok ns (snap_meta t) -> Forall (fun s => s < seqno) (snap_seqs (snap_meta t)) ->
  (total_snapshots (snap_meta t) = max_snapshots (snap_meta t) ->
     create_meta t seqno now = Some (t, BTREE_TOO_MANY_SNAPSHOTS)) /\
  (total_snapshots (snap_meta t) < max_snapshots (snap_meta t) ->
     exists m', create_meta t seqno now = stored t m' (u64 (stat_num_snaps t + 1)) /\
       snap_ok ns m' /\ snap_list m' = snap_list (snap_meta t) ++ [mk_snap_info seqno now] /\
       total_snapshots m' = total_snapshots (snap_meta t) + 1).
Proof using Type.
  intros Hm Hs. unfold btree_snap_create_meta.
  rewrite (assert_true _ (proj2 (Z.eqb_eq _ _) (so_version _ _ Hm))). runs. split; intros Ht.
  - unfold btree_snap_create_meta_v1. rewrite (proj2 (Z.leb_le _ _)) by lia. runs.
    by destruct t.
  - destruct (snap_create_v1_ok ns _ seqno now Hm Hs Ht) as (m1 & -> & H). runs.
    rewrite decide_True by done. rewrite rw_write. by eexists.
Qed.

Lemma delete_meta_ok ns t seqno :
  snap_ok ns (snap_meta t) ->
  (seqno ∉ snap_seqs (snap_meta t) -> delete_meta t seqno = Some (t, BTREE_FAILURE)) /\
  (seqno ∈ snap_seqs (snap_meta t) ->
     exists m', delete_meta t seqno = stored t m' (u64 (stat_num_snaps t - 1)) /\
       snap_ok ns m' /\
       snap_list m' = filter (fun s => snap_seqno s <> seqno) (snap_list (snap_meta t)) /\
       total_snapshots m' = total_snapshots (snap_meta t) - 1).
Proof using Type.
  intros Hm. unfold btree_snap_delete_meta.
  rewrite (assert_true _ (proj2 (Z.eqb_eq _ _) (so_version _ _ Hm))). runs. split; intros Hin.
  - rewrite (snap_delete_v1_missing ns _ _ Hm Hin). runs. by destruct t.
  - destruct (snap_delete_v1_ok ns _ seqno Hm Hin) as (m1 & -> & H). runs.
    rewrite decide_True by done. rewrite rw_write. by eexists.
Qed.
(** C38: Creating a snapshot with a new sequence number appends it when there
    is room, keeps the node well formed, counts it and stores the node (a
    storage error aborts); a full node is refused and nothing changes. *)
Theorem snap_create_refines ns t seqno now :
  snap_ok ns (snap_meta t) -> Forall (fun s => s < seqno) (snap_seqs (snap_meta t)) ->
  (total_snapshots (snap_meta t) = max_snapshots (snap_meta t) ->
     create_meta t seqno now = Some (t, BTREE_TOO_MANY_SNAPSHOTS)) /\
  (total_snapshots (snap_meta t) < max_snapshots (snap_meta t) ->
     exists m', create_meta t seqno now = stored t m' (u64 (stat_num_snaps t + 1)) /\
       snap_ok ns m' /\ snap_list m' = snap_list (snap_meta t) ++ [mk_snap_info seqno now] /\
       total_snapshots m' = total_snapshots (snap_meta t) + 1).
Proof using Type. apply create_meta_ok. Qed.

(** C39: Deleting a snapshot removes exactly the record with that sequence
    number, keeps the others in order, and stores the node; a number that is
    not the number of a snapshot is refused and nothing changes. *)
Theorem snap_delete_refines ns t seqno :
  snap_ok ns (snap_meta t) ->
  (seqno ∉ snap_seqs (snap_meta t) -> delete_meta t seqno = Some (t, BTREE_FAILURE)) /\
  (seqno ∈ snap_seqs (snap_meta t) ->
     exists m', delete_meta t seqno = stored t m' (u64 (stat_num_snaps t - 1)) /\
       snap_ok ns m' /\
       snap_list m' = filter (fun s => snap_seqno s <> seqno) (snap_list (snap_meta t)) /\
       total_snapshots m' = total_snapshots (snap_meta t) - 1).
Proof using Type. apply delete_meta_ok. Qed.

(** ** Histories *)

Lemma init_create_ok ns st num :
  OFFSETOF_SNAP_META <= ns <= BTREE_MAX_NODE_SIZE ->
  exists m0, init ns st num true = stored (mk_snap_tree m0 false num st) m0 num /\
    snap_ok ns m0 /\ snap_list m0 = [].
Proof using Type.
  intros Hns. unfold BTREE_MAX_NODE_SIZE, OFFSETOF_SNAP_META, SIZEOF_BTREE_RAW_NODE in Hns.
  unfold btree_snap_init, btree_snap_get_max_snapshot. cbn [snap_version snapshots].
  rewrite Z.eqb_refl. cbn [assert_]. runs.
  eexists. split.
  - match goal with |- btree_snap_rw_metanode _ _ (mk_snap_tree ?m _ _ _) _ = _ =>
      apply (rw_write (mk_snap_tree m false num st)) end.
  - rewrite u32_small by (unfold OFFSETOF_SNAP_META, SIZEOF_BTREE_RAW_NODE; lia).
    pose proof (Z.div_pos (ns - OFFSETOF_SNAP_META) SIZEOF_SNAP_INFO_V1 ltac:(unfold OFFSETOF_SNAP_META, SIZEOF_BTREE_RAW_NODE; lia) ltac:(done)).
    pose proof (Z.mul_div_le (ns - OFFSETOF_SNAP_META) SIZEOF_SNAP_INFO_V1 ltac:(done)) as Hd.
    split; [|done].
    split; cbn; rewrite ?length_replicate; try done; unfold snap_slots; try lia.
    unfold SIZEOF_SNAP_INFO_V1, OFFSETOF_SNAP_META, SIZEOF_BTREE_RAW_NODE in *. lia.
Qed.

(** The operations on the snapshots of a container: creation draws a sequence
    number newer than all snapshots. *)
Inductive snap_step : snap_tree store -> btree_status -> snap_tree store -> Prop :=
  | step_create t seqno now t' ret :
      Forall (fun s => s < seqno) (snap_seqs (snap_meta t)) ->
      create_meta t seqno now = Some (t', ret) -> snap_step t ret t'
  | step_delete t seqno t' ret :
      delete_meta t seqno = Some (t', ret) -> snap_step t ret t'.

Inductive snap_steps : snap_tree store -> snap_tree store -> Prop :=
  | steps_refl t : snap_steps t t
  | steps_next t1 t2 t3 ret : snap_steps t1 t2 -> snap_step t2 ret t3 -> snap_steps t1 t3.

(** Either the operation was refused or the node was written. *)
Lemma snap_step_ok ns t ret t' :
  snap_ok ns (snap_meta t) -> snap_step t ret t' ->
  snap_ok ns (snap_meta t') /\
  u64 (stat_num_snaps t' - total_snapshots (snap_meta t')) =
    u64 (stat_num_snaps t - total_snapshots (snap_meta t)) /\
  (ret = BTREE_SUCCESS -> write_node_cb (st_store t) (snap_meta t') = (st_store t', BTREE_SUCCESS)).
Proof using Type.
  intros Hm Hstep.
  assert (forall m' d, stored t m' (u64 (stat_num_snaps t + d)) = Some (t', ret) -> snap_ok ns m' ->
            total_snapshots m' = total_snapshots (snap_meta t) + d ->
            snap_ok ns (snap_meta t') /\
            u64 (stat_num_snaps t' - total_snapshots (snap_meta t')) =
              u64 (stat_num_snaps t - total_snapshots (snap_meta t)) /\
            (ret = BTREE_SUCCESS -> write_node_cb (st_store t) (snap_meta t') = (st_store t', BTREE_SUCCESS)))
    as Hdone.
  { intros m' d. unfold stored. destruct (write_node_cb _ m') as [st r] eqn:E.
    destruct (storage_error r); [done|]. intros [= <- <-] Ho Ht. cbn. split_and!; [done| |by intros ->].
    rewrite Ht. unfold u64. rewrite Zminus_mod_idemp_l. f_equal. lia. }
  destruct Hstep as [t seqno now t' ret Hs Hc|t seqno t' ret Hd].
  - destruct (create_meta_ok ns t seqno now Hm Hs) as [Hfull Hroom].
    destruct (Z.eq_dec (total_snapshots (snap_meta t)) (max_snapshots (snap_meta t))) as [E|E].
    + rewrite (Hfull E) in Hc. by simplify_eq.
    + pose proof (so_total _ _ Hm). destruct (Hroom ltac:(lia)) as (m' & Hm' & ? & _ & ?).
      apply (Hdone m' 1); [congruence|done..].
  - destruct (delete_meta_ok ns t seqno Hm) as [Hmiss Hhit].
    destruct (decide (seqno ∈ snap_seqs (snap_meta t))) as [E|E].
    + destruct (Hhit E) as (m' & Hm' & ? & _ & ?). apply (Hdone m' (-1)); [|done|lia].
      rewrite <- Hd, Hm'. done.
    + rewrite (Hmiss E) in Hd. by simplify_eq.
Qed.

(** C27: after any history of snapshot creations and deletions on a new
    container the metadata is well formed (sorted, within the node) and the
    statistics count the snapshots; and when the last operation succeeded,
    opening the container again reads exactly that metadata back. *)
Theorem snap_history_recovers ns st num t0 r0 t1 t2 ret num' :
  OFFSETOF_SNAP_META <= ns <= BTREE_MAX_NODE_SIZE ->
  (forall s m s', write_node_cb s m = (s', BTREE_SUCCESS) ->
     read_node_cb s' (sn_logical_id m) = (Some m, BTREE_SUCCESS)) ->
  init ns st num true = Some (t0, r0) -> snap_steps t0 t1 -> snap_step t1 ret t2 ->
  snap_ok ns (snap_meta t2) /\
  u64 (stat_num_snaps t2 - total_snapshots (snap_meta t2)) = u64 num /\
  (ret = BTREE_SUCCESS ->
     init ns (st_store t2) num' false =
     Some (mk_snap_tree (snap_meta t2) true num' (st_store t2), BTREE_SUCCESS)).
Proof using Type.
  intros Hns Hrw Hinit Hsteps Hstep.
  assert (snap_ok ns (snap_meta t0) /\ u64 (stat_num_snaps t0 - total_snapshots (snap_meta t0)) = u64 num) as H0.
  { destruct (init_create_ok ns st num Hns) as (m0 & Hi & Hok & Hl). rewrite Hi in Hinit.
    unfold stored in Hinit. destruct (write_node_cb _ _) as [s r]. destruct (storage_error r); [done|].
    injection Hinit as <- _. cbn. split; [done|].
    rewrite <- (snap_list_length ns m0 Hok), Hl. cbn. by rewrite Z.sub_0_r. }
  assert (snap_ok ns (snap_meta t1) /\ u64 (stat_num_snaps t1 - total_snapshots (snap_meta t1)) = u64 num) as H1.
  { clear Hinit Hstep. induction Hsteps as [|t t' t'' r Hst IH Hs]; [done|].
    destruct IH as [Hok Hnum]; [done|]. destruct (snap_step_ok ns _ _ _ Hok Hs) as (? & ? & _).
    split; [done|congruence]. }
  destruct H1 as [Hok Hnum]. destruct (snap_step_ok ns _ _ _ Hok Hstep) as (Hok2 & Hnum2 & Hw).
  split_and!; [done|congruence|]. intros Hr. apply Hrw in Hw; [|done].
  unfold btree_snap_init, btree_snap_rw_metanode. cbn [st_store].
  rewrite (so_id _ _ Hok2) in Hw. rewrite Hw. rewrite decide_True by done. runs.
  rewrite (so_id _ _ Hok2), Z.eqb_refl. done.
Qed.
End store.

(** A store that keeps the last node written. *)
Definition keep_write (st : option btree_snap_meta) (m : btree_snap_meta)
    : option btree_snap_meta * btree_status := (Some m, BTREE_SUCCESS).
Definition keep_read (st : option btree_snap_meta) (id : Z)
    : option btree_snap_meta * btree_status := (st, BTREE_SUCCESS).

Definition tree3 : snap_tree (option btree_snap_meta) := mk_snap_tree snap3 true 3 (Some snap3).

Lemma snap_create_refines_witness :
  total_snapshots snap3 < max_snapshots snap3 /\
  exists m', btree_snap_create_meta keep_write keep_read tree3 40 7 = stored keep_write tree3 m' (u64 4) /\
    snap_list m' = snap_list snap3 ++ [mk_snap_info 40 7].
Proof.
  split; [done|]. destruct (snap_create_refines keep_write keep_read 8192 tree3 40 7) as [_ H].
  - apply snap3_ok.
  - by repeat constructor.
  - destruct H as (m' & ? & _ & ? & _); [done|]. by exists m'.
Defined.

Lemma snap_delete_refines_witness :
  btree_snap_delete_meta keep_write keep_read tree3 21 = Some (tree3, BTREE_FAILURE) /\
  exists m', btree_snap_delete_meta keep_write keep_read tree3 20 = stored keep_write tree3 m' (u64 2) /\
    snap_list m' = [mk_snap_info 10 1; mk_snap_info 35 3].
Proof.
  split.
  - apply (snap_delete_refines keep_write keep_read 8192 tree3 21); [apply snap3_ok|].
    apply (bool_decide_unpack _). by vm_compute.
  - destruct (snap_delete_refines keep_write keep_read 8192 tree3 20) as [_ H]; [apply snap3_ok|].
    destruct H as (m' & ? & _ & Hl & _).
    + apply (bool_decide_unpack _). by vm_compute.
    + exists m'. split; [done|]. rewrite Hl. by vm_compute.
Defined.

Definition after (r : option (snap_tree (option btree_snap_meta) * btree_status)) :
    snap_tree (option btree_snap_meta) := match r with Some (t, _) => t | None => tree3 end.
Definition hist0 := after (btree_snap_init keep_write keep_read 8192 None 0 true).
Definition hist1 := after (btree_snap_create_meta keep_write keep_read hist0 5 1).
Definition hist2 := after (btree_snap_create_meta keep_write keep_read hist1 9 2).

Lemma snap_history_recovers_witness :
  snap_ok 8192 (snap_meta hist2) /\
  u64 (stat_num_snaps hist2 - total_snapshots (snap_meta hist2)) = u64 0 /\
  (BTREE_SUCCESS = BTREE_SUCCESS ->
     btree_snap_init keep_write keep_read 8192 (st_store hist2) 0 false =
     Some (mk_snap_tree (snap_meta hist2) true 0 (st_store hist2), BTREE_SUCCESS)).
Proof.
  apply (snap_history_recovers keep_write keep_read 8192 None 0 hist0 BTREE_SUCCESS hist1 hist2 BTREE_SUCCESS 0).
  - by vm_compute.
  - by intros s m s' [= <-].
  - by vm_compute.
  - eapply steps_next; [apply steps_refl|]. apply (step_create _ _ hist0 5 1 hist1 BTREE_SUCCESS); by vm_compute.
  - apply (step_create _ _ hist1 9 2 hist2 BTREE_SUCCESS); [|by vm_compute].
    assert (snap_seqs (snap_meta hist1) = [5]) as -> by (by vm_compute). by repeat constructor.
Defined.
