(* ===== verification/Scavenger.v ===== *)
(** * Scavenging a leaf (btree/btree_scavenger.c)

    [scavenge_node_all_keys] drops from a leaf the versions no reader can see:
    of several versions of a key in the same snapshot epoch only the newest
    stays, and a tombstone that shadows nothing goes too. It stops early when
    the page would become too empty. *)

From stdpp Require Import gmap.
From S2P Require Import Prelude Status LeafMeta LeafNode LeafOps NodeSearch NonLeaf PStats Overflow Snapshot.

(** The statistics of snapshot objects. *)
Record scav_stats := mk_scav_stats { BTSTAT_NUM_SNAP_OBJS : Z; BTSTAT_SNAP_DATA_SIZE : Z }.

Section scavenge.
Context (bt : btree_raw) (read_ret : Z -> btree_status) (m : btree_snap_meta).

(** Delete the entry unless the page is minimal; false when nothing was
    deleted (the caller stops then). *)
Definition non_minimal_delete (st : ov_state) (n : btree_raw_node) (index : nat)
    : option (ov_state * btree_raw_node * bool) :=
  if is_leaf_minimal_after_delete bt n then Some (st, n, false)
  else
    r ← delete_key_by_index_leaf bt read_ret st n index;
    let '(st, n, ret) := r in
    Some (st, n, bool_decide (ret = BTREE_SUCCESS)).

(** The loop at entry [i]: [prev] is the last entry kept, [start] the first
    entry of the current run of equal keys, [dup] the number of further
    entries of the run and [del] how many of them were deleted. An iteration
    moves on or deletes an entry, so the number of entries from [i] on
    decreases. Returns the page and the number of entries deleted. *)
Fixpoint scavenge_loop (fuel : nat) (st : ov_state) (n : btree_raw_node) (stats : scav_stats) (i : nat)
    (prev : key_stuff_info) (dup del : Z) (start : nat) (keys bytes : Z)
    : option (ov_state * btree_raw_node * scav_stats * Z) :=
  match fuel with
  | O => None
  | S fuel =>
      if nkeys n <=? n2z i then Some (st, n, stats, keys)
      else
        cur ← get_key_stuff_leaf2 n (n2z i);
        let x := if (i =? 0)%nat then -1 else cmp_cb bt (ks_key cur) (ks_key prev) in
        let next := fun st n stats dup del start keys bytes =>
                      scavenge_loop fuel st n stats (S i) cur dup del start keys bytes in
        if x =? 0 then
          snap_n1 ← btree_snap_find_meta_index m (ks_seqno prev);
          snap_n2 ← btree_snap_find_meta_index m (ks_seqno cur);
          let dup := dup + 1 in
          if snap_n1 =? snap_n2 then
            let del := del + 1 in
            r ← non_minimal_delete st n i;
            match r with
            | (st, n, false) => Some (st, n, stats, keys)
            | (st, n, true) =>
                let stats := if negb (snap_n1 =? -1)
                             then mk_scav_stats (u64 (BTSTAT_NUM_SNAP_OBJS stats - keys))
                                                (u64 (BTSTAT_SNAP_DATA_SIZE stats - bytes))
                             else stats in
                scavenge_loop fuel st n stats i prev dup del start (keys + 1) (bytes + ks_datalen cur)
            end
          else next st n stats dup del start keys bytes
        else
          tomb ← (if negb (dup =? 0) && (dup =? del)
                  then km ← btree_leaf_get_meta n start; Some (tombstone km) else Some false);
          if (tomb : bool) then
            r ← non_minimal_delete st n start;
            match r with
            | (st, n, false) => Some (st, n, stats, keys)
            | (st, n, true) =>
                scavenge_loop fuel st n stats i prev 0 0 start (keys + 1) (bytes + ks_datalen cur)
            end
          else next st n stats 0 0 i keys bytes
  end.

Definition scavenge_node_all_keys (st : ov_state) (n : btree_raw_node) (stats : scav_stats)
    : option (ov_state * btree_raw_node * scav_stats * Z) :=
  _ ← assert_ (max_key_size bt * 2 <? nodesize bt);
  scavenge_loop (S (z2n (nkeys n))) st n stats 0 (mk_key_stuff_info [] 0 0 0 false) 0 0 0 0 0.
End scavenge.
