(* ===== verification/ScavengerTheorems.v ===== *)
(** * The scavenger

    First what the scavenger keeps of a page and of the overflow nodes, then
    that it is invisible to readers. *)

From stdpp Require Import gmap.
From S2P Require Import Prelude Status LeafMeta LeafNode LeafOps LeafCells LeafEncode LeafFixup LeafSpec LeafRefine LeafPlain LeafMove NodeSearch LeafTheorems NodeSearchSpec NonLeaf NonLeafSpec NodeTheorems TreeFlat PStats Overflow OverflowSpec OverflowTheorems Snapshot SnapshotSpec SnapshotTheorems Scavenger.

(** * What the scavenger keeps

    The loop of [scavenge_node_all_keys] drops entries that no reader needs;
    the record [kept] is what holds of the page and of the overflow nodes
    during the loop. *)

(** ** What a reader sees *)

Section visible.
Context (cmp : list byte -> list byte -> Z) `{!CmpOk cmp}.

(** The entry that answers a read of [k] at sequence number [s]: the newest
    version not newer than [s], unless it is a tombstone. *)
Definition answers (k : list byte) (s : Z) (e : entry) : Prop := cmp k (e_key e) = 0 /\ e_seqno e <= s.

#[global] Instance answers_dec k s e : Decision (answers k s e).
Proof. unfold answers. apply _. Defined.

Definition visible (es : list entry) (k : list byte) (s : Z) : option entry :=
  match list.head (filter (answers k s) es) with
  | Some e => if e_tomb e then None else Some e
  | None => None
  end.

Lemma same_key k a b : cmp a b = 0 -> cmp k b = 0 -> cmp k a = 0.
Proof using Type*.
  intros Hab Hb. pose proof (cmp_antisym a b). pose proof (cmp_antisym k a). pose proof (cmp_antisym k b).
  assert (cmp k a <= 0) by (apply (cmp_trans k b a); lia).
  assert (cmp a k <= 0) by (apply (cmp_trans a b k); lia). lia.
Qed.

(** A version right behind a newer one that every reader of it prefers. *)
Lemma visible_shadowed pre a b post k s :
  cmp (e_key a) (e_key b) = 0 -> (e_seqno b <= s -> e_seqno a <= s) ->
  visible (pre ++ a :: post) k s = visible (pre ++ a :: b :: post) k s.
Proof using Type*.
  intros Hk Hs. unfold visible. rewrite !list.filter_app, !filter_cons.
  destruct (decide (answers k s a)) as [Ha|Ha]; [by destruct (filter _ pre)|].
  rewrite decide_False; [done|]. intros [Hb1 Hb2]. apply Ha. split; [by apply (same_key k _ (e_key b))|auto].
Qed.

(** A tombstone with no older version of its key behind it. *)
Lemma visible_tombstone pre t post k s :
  e_tomb t = true -> Forall (fun e => cmp (e_key t) (e_key e) <> 0) post ->
  visible (pre ++ post) k s = visible (pre ++ t :: post) k s.
Proof using Type*.
  intros Ht Hpost. unfold visible. rewrite !list.filter_app, filter_cons.
  destruct (filter _ pre) as [|e l]; [|done]. cbn [app]. case_decide as Ha; [|done].
  cbn. rewrite Ht. assert (filter (answers k s) post = []) as ->; [|done].
  clear -Hpost Ha CmpOk0. induction Hpost as [|e l He Hl IH]; [done|]. rewrite filter_cons.
  rewrite decide_False; [done|]. intros [He1 _]. destruct Ha as [Hk _]. apply He.
  pose proof (cmp_antisym k (e_key e)). pose proof (cmp_antisym k (e_key t)).
  pose proof (cmp_antisym (e_key t) (e_key e)).
  assert (cmp (e_key t) (e_key e) <= 0) by (apply (cmp_trans _ k); lia).
  assert (cmp (e_key e) (e_key t) <= 0) by (apply (cmp_trans _ k); lia). lia.
Qed.
End visible.

(** Versions in the same epoch are seen by the same snapshots. *)
Lemma same_epoch_shadows l a b s :
  increasing l -> epoch l a = epoch l b -> s ∈ l -> b <= s -> a <= s.
Proof.
  intros Hinc He (k & Hk)%list_elem_of_lookup_1 Hbs.
  assert (epoch l b <> -1) as Hb.
  { rewrite epoch_none. intros H. pose proof (Forall_at H Hk) as Hlt. cbn in Hlt. lia. }
  pose proof (epoch_range l b). destruct (epoch_some l a (z2n (epoch l b))) as [(x & Hx & Hax) _]; [lia|].
  destruct (epoch_some l b (z2n (epoch l b))) as [_ Hlt]; [lia|].
  destruct (decide (k < z2n (epoch l b))%nat) as [Hkl|Hkl]; [pose proof (Hlt _ _ Hk Hkl); lia|].
  destruct (decide (k = z2n (epoch l b))) as [->|]; [simplify_eq; lia|].
  pose proof (Hinc (z2n (epoch l b)) k x s ltac:(lia) Hx Hk). lia.
Qed.

(** ** Pages with their objects *)

Lemma elem_of_concat_2 {A} (l : list A) ls x : x ∈ l -> l ∈ ls -> x ∈ concat ls.
Proof. intros Hx. induction 1; cbn; set_solver. Qed.

Lemma NoDup_concat_split (pre post : list (list Z)) ids :
  NoDup (concat (pre ++ ids :: post)) ->
  NoDup (concat (pre ++ post)) /\ Forall (fun l => forall i, i ∈ l -> i ∉ ids) (pre ++ post).
Proof.
  rewrite concat_app. cbn. rewrite concat_app. intros H.
  apply list.NoDup_app in H as (H1 & H2 & H3). apply list.NoDup_app in H3 as (H3 & H4 & H5). split.
  - apply list.NoDup_app. split_and!; [done| |done]. intros x Hx Hy. apply (H2 x Hx). set_solver.
  - apply Forall_lookup_2. intros j l Hl i Hi Hid.
    apply lookup_app_Some in Hl as [Hl|[_ Hl]]; apply list_elem_of_lookup_2 in Hl.
    + apply (H2 i); [|set_solver]. by apply (elem_of_concat_2 l).
    + apply (H4 i); [done|]. by apply (elem_of_concat_2 l).
Qed.

(** The overflow nodes [ids] have been scheduled for deletion. *)
Record dropped (read_ret : Z -> btree_status) (st st' : ov_state) (ids : list Z) : Prop := {
  dr_nodes : ov_nodes st' = ov_nodes st;
  dr_supply : ov_supply st' = ov_supply st;
  dr_doomed : doomed st' ≡ₚ ids ++ doomed st;
  dr_rest : forall i, i ∉ ids -> accessible read_ret st i -> accessible read_ret st' i
}.

Arguments dr_doomed {_ _ _ _} _.

Lemma dropped_refl read_ret st : dropped read_ret st st [].
Proof. by split. Qed.

Lemma dropped_trans read_ret st1 st2 st3 ids1 ids2 :
  dropped read_ret st1 st2 ids1 -> dropped read_ret st2 st3 ids2 -> dropped read_ret st1 st3 (ids2 ++ ids1).
Proof.
  intros [A1 A2 A3 A4] [B1 B2 B3 B4]. split; [congruence|congruence| |].
  - by rewrite B3, A3, app_assoc.
  - intros i [H2 H1]%not_elem_of_app Ha. by apply B4, A4.
Qed.

(** The answer to a request is the same, or it was a tombstone that is gone
    and lies before the end of the page. *)
Definition scav_view (cmp : list byte -> list byte -> Z) (es0 es : list entry) (k : list byte)
    (mm : option btree_metadata) : Prop :=
  answer cmp k mm es = answer cmp k mm es0 \/
  exists tb g, answer cmp k mm es0 = Some tb /\ e_tomb tb = true /\ answer cmp k mm es = None /\
    g ∈ es0 /\ cmp (e_key tb) (e_key g) < 0.

Section scavenge.
Context (bt : btree_raw) (read_ret : Z -> btree_status) (Hbt : bt_ok bt) (Hso : space_op_disabled bt = true)
  (own : entry -> list Z).

(** The overflow chains of the entries of a page are disjoint. *)
Definition page_objects (st : ov_state) (es : list entry) : Prop :=
  Forall (fun e => owns bt read_ret st e (own e)) es /\ NoDup (concat (own <$> es)).

Lemma owns_drop st st' ids e :
  dropped read_ret st st' ids -> (forall i, i ∈ own e -> i ∉ ids) ->
  owns bt read_ret st e (own e) -> owns bt read_ret st' e (own e).
Proof using Type.
  intros [Hns _ _ Hacc] Hbad He. unfold owns in *. case_if; [|done]. destruct He as (rest & Hch & Hlen & Hids). exists rest.
  rewrite Hns. split_and!; [done..|]. apply Forall_lookup_2. intros j i Hj.
  apply Hacc; [|by apply (Forall_at Hids Hj)]. apply Hbad. by eapply list_elem_of_lookup_2.
Qed.

Lemma non_minimal_ok st n es index e :
  leaf_plain bt n es -> es !! index = Some e -> page_objects st es ->
  exists st' n' b, non_minimal_delete bt read_ret st n index = Some (st', n', b) /\
    if b then leaf_plain bt n' (delete index es) /\ same_frame n n' /\ page_objects st' (delete index es) /\
              dropped read_ret st st' (own e)
    else st' = st /\ n' = n.
Proof using Hbt Hso.
  intros Hp Hi [Hobj Hnd]. unfold non_minimal_delete. case_if; [by eexists _, _, false|].
  destruct (delete_object bt read_ret Hbt n es index e st (own e) Hso Hp Hi)
    as (st' & n' & -> & Hp' & Hfrm & Hns & Hdm & Hkeep & Hsu); [apply (Forall_at Hobj Hi)|]. runs.
  eexists _, _, true. rewrite bool_decide_true by done. split; [done|]. split; [done|]. split; [done|].
  assert (dropped read_ret st st' (own e)) as Hdr by (by split). split; [|done].
  rewrite <- (take_drop_middle es index e Hi), fmap_app, fmap_cons in Hnd. apply NoDup_concat_split in Hnd as [Hnd Hbad].
  rewrite <- fmap_app, <- delete_take_drop in Hnd, Hbad. split; [|done].
  apply Forall_lookup_2. intros j x Hj. apply (owns_drop st st' (own e)); [done| |].
  - apply (Forall_lookup_1 _ _ j (own x) Hbad). by rewrite list_lookup_fmap, Hj.
  - assert (x ∈ es) as (j' & Hj')%list_elem_of_lookup_1 by (eapply elem_of_sublist; [by eapply list_elem_of_lookup_2|apply sublist_delete]).
    apply (Forall_at Hobj Hj').
Qed.

Lemma leaf_sorted_delete es i : leaf_sorted bt es -> leaf_sorted bt (delete i es).
Proof using Type.
  unfold leaf_sorted. intros Hs a b v w Hab Ha Hb. rewrite list_lookup_fmap in Ha, Hb.
  assert (exists a' b', (a' < b')%nat /\ delete i es !! a = es !! a' /\ delete i es !! b = es !! b')
    as (a' & b' & Hlt & Ea & Eb).
  { exists (if decide (a < i)%nat then a else S a), (if decide (b < i)%nat then b else S b).
    split; [repeat case_decide; lia|].
    split; case_decide; first [by rewrite list_lookup_delete_lt by lia|by rewrite list_lookup_delete_ge by lia]. }
  apply (Hs a' b'); [done|by rewrite list_lookup_fmap, <- Ea|by rewrite list_lookup_fmap, <- Eb].
Qed.

Context (ns : Z) (m : btree_snap_meta) (Hm : snap_ok ns m) `{!CmpOk (cmp_cb bt)}.

(** Readers: the snapshots, and the active container, which sees all. *)
Definition reader (es : list entry) (s : Z) : Prop :=
  s ∈ snap_seqs m \/ Forall (fun e => e_seqno e <= s) es.

Definition view_of (prev : key_stuff_info) (e : entry) : Prop :=
  ks_key prev = e_key e /\ ks_seqno prev = e_seqno e.

(** Where the loop stands: at the first entry; behind the entry [prev], the
    current run being intact from [start] on when everything else of it was
    deleted; or, after a tombstone was dropped, behind an entry that is passed
    over, all following keys being different from [prev]. *)
Inductive stands (es : list entry) (prev : key_stuff_info) (i : nat) (dup del : Z) (start : nat) : Prop :=
  | stands_first : i = 0%nat -> dup = 0 -> stands es prev i dup del start
  | stands_behind pe :
      (0 < i)%nat -> es !! (i - 1)%nat = Some pe -> view_of prev pe -> 0 <= del <= dup ->
      (dup = del -> start = (i - 1)%nat) -> stands es prev i dup del start
  | stands_passed :
      (0 < i)%nat -> dup = 0 ->
      (forall j e, (i <= j)%nat -> es !! j = Some e -> cmp_cb bt (e_key e) (ks_key prev) <> 0) ->
      stands es prev i dup del start.

Context (es0 : list entry) (st0 : ov_state) (n0 : btree_raw_node).

(** What is kept about the page, [es0] being its entries at the start. *)
Record kept (st : ov_state) (n : btree_raw_node) (es : list entry) : Prop := {
  k_plain : leaf_plain bt n es;
  k_frame : same_frame n0 n;
  k_sorted : leaf_sorted bt es;
  k_objects : page_objects st es;
  k_sub : sublist es es0;
  k_visible : forall k s, reader es0 s -> visible (cmp_cb bt) es k s = visible (cmp_cb bt) es0 k s;
  k_view : forall k mm, reads (snap_seqs m) mm -> scav_view (cmp_cb bt) es0 es k mm;
  k_dropped : exists gone, es0 ≡ₚ es ++ gone /\ dropped read_ret st0 st (concat (own <$> gone))
}.

#[local] Arguments k_plain {_ _ _} _.
#[local] Arguments k_objects {_ _ _} _.

Lemma dropped_delete st st' es i e :
  es !! i = Some e -> dropped read_ret st st' (own e) ->
  (exists gone, es0 ≡ₚ es ++ gone /\ dropped read_ret st0 st (concat (own <$> gone))) ->
  exists gone, es0 ≡ₚ delete i es ++ gone /\ dropped read_ret st0 st' (concat (own <$> gone)).
Proof using Type.
  intros Hi Hd (gone & Hp & Hg). exists (e :: gone). split.
  - rewrite Hp. rewrite <- (take_drop_middle es i e Hi) at 1. rewrite delete_take_drop, <- !app_assoc. cbn.
    apply Permutation_app_head. by rewrite Permutation_middle.
  - rewrite fmap_cons. cbn. by apply (dropped_trans read_ret st0 st).
Qed.

(** Dropping a version that a newer one hides from every reader. *)
Lemma view_shadowed pre a b post k mm :
  scav_view (cmp_cb bt) es0 (pre ++ a :: b :: post) k mm ->
  (side (cmp_cb bt) k mm (entry_version b) = Eq -> side (cmp_cb bt) k mm (entry_version a) = Eq) ->
  scav_view (cmp_cb bt) es0 (pre ++ a :: post) k mm.
Proof using Type.
  intros Hv Hab. assert (answer (cmp_cb bt) k mm (pre ++ a :: post) = answer (cmp_cb bt) k mm (pre ++ a :: b :: post)) as E.
  { unfold answer. rewrite !list.filter_app, !filter_cons. case_decide as Ha; [by destruct (filter _ pre)|].
    rewrite decide_False; [done|]. intros Hb. by apply Ha, Hab. }
  unfold scav_view. by rewrite E.
Qed.

(** Dropping a tombstone behind which other keys follow. *)
Lemma view_tombstone pre t g post k mm :
  scav_view (cmp_cb bt) es0 (pre ++ t :: g :: post) k mm -> e_tomb t = true ->
  cmp_cb bt (e_key t) (e_key g) < 0 -> g ∈ es0 ->
  Forall (fun e => cmp_cb bt (e_key t) (e_key e) < 0) (g :: post) ->
  scav_view (cmp_cb bt) es0 (pre ++ g :: post) k mm.
Proof using CmpOk0.
  intros Hv Ht Hlt Hg Hpost. unfold scav_view in *. rewrite answer_app in *.
  destruct (answer (cmp_cb bt) k mm pre) as [x|]; [done|].
  destruct (decide (side (cmp_cb bt) k mm (entry_version t) = Eq)) as [He|He].
  - assert (answer (cmp_cb bt) k mm (g :: post) = None) as ->.
    { apply answer_None. intros e (j & Hj)%list_elem_of_lookup_1 Hse.
      pose proof (Forall_at Hpost Hj) as Hlt'. cbn beta in Hlt'.
      pose proof (side_key_lt (cmp_cb bt) k mm (entry_version t) (entry_version e) Hlt' Hse). congruence. }
    right. destruct Hv as [Hv|(tb & g' & _ & _ & Hno & _)].
    + exists t, g. split_and!; try done. rewrite <- Hv. unfold answer. by rewrite filter_cons, decide_True.
    + unfold answer in Hno. by rewrite filter_cons, decide_True in Hno.
  - assert (answer (cmp_cb bt) k mm (t :: g :: post) = answer (cmp_cb bt) k mm (g :: post)) as <-; [|done].
    unfold answer. by rewrite (filter_cons _ t), decide_False.
Qed.

Lemma split_two (es : list entry) i a b :
  es !! i = Some a -> es !! S i = Some b ->
  es = take i es ++ a :: b :: drop (S (S i)) es /\ delete (S i) es = take i es ++ a :: drop (S (S i)) es /\
  delete i es = take i es ++ b :: drop (S (S i)) es.
Proof using Type.
  intros Ha Hb. assert (drop (S i) es = b :: drop (S (S i)) es) as Hd by (by apply drop_S).
  split_and!.
  - rewrite <- Hd. by rewrite take_drop_middle.
  - rewrite delete_take_drop. rewrite (take_S_r _ _ a) by done. by rewrite <- app_assoc.
  - rewrite delete_take_drop. by rewrite Hd.
Qed.

Lemma kept_shadowed st n es st' n' i a b :
  kept st n es -> es !! i = Some a -> es !! S i = Some b ->
  cmp_cb bt (e_key b) (e_key a) = 0 -> epoch (snap_seqs m) (e_seqno a) = epoch (snap_seqs m) (e_seqno b) ->
  leaf_plain bt n' (delete (S i) es) -> same_frame n n' -> page_objects st' (delete (S i) es) ->
  dropped read_ret st st' (own b) -> kept st' n' (delete (S i) es).
Proof using All.
  intros [Hp Hf Hs Ho Hsub Hv Hw Hd] Ha Hb Hk He Hp' Hf' Ho' Hd'. destruct (split_two es i a b Ha Hb) as (E1 & E2 & _).
  pose proof (cmp_antisym (cmp := cmp_cb bt) (e_key b) (e_key a)) as Has.
  split; [done|by etrans|by apply leaf_sorted_delete|done|by etrans; [apply sublist_delete|]| | |by apply (dropped_delete st st' es (S i) b)].
  - intros k s Hr. rewrite <- Hv by done. rewrite E2. rewrite E1 at 3.
    apply (visible_shadowed (cmp_cb bt)); [lia|].
    intros Hbs. destruct Hr as [Hr|Hr].
    + apply (same_epoch_shadows (snap_seqs m) _ (e_seqno b)); [apply (so_sorted _ _ Hm)|done..].
    + assert (a ∈ es0) as Hin by (eapply elem_of_sublist; [by eapply list_elem_of_lookup_2|done]).
      apply list_elem_of_lookup_1 in Hin as (j & Hj). apply (Forall_at Hr Hj).
  - intros k mm Hr. specialize (Hw k mm Hr). rewrite E2. rewrite E1 in Hw. apply (view_shadowed _ _ b); [done|].
    intros Hsb. pose proof (side_eq_key (cmp_cb bt) _ _ _ Hsb) as Hkb. cbn in Hkb.
    assert (cmp_cb bt k (e_key a) = 0) as Hka by (apply (same_key (cmp_cb bt) k (e_key a) (e_key b)); lia).
    destruct Hr as [->|(s & Hs' & ->)].
    + rewrite side_none. cbn. by rewrite Hka.
    + rewrite side_at in *. cbn in *. rewrite Hkb in Hsb. rewrite Hka. cbn in *.
      destruct (Z.leb_spec (e_seqno b) s); [|done]. rewrite (proj2 (Z.leb_le _ _)); [done|].
      by apply (same_epoch_shadows (snap_seqs m) _ (e_seqno b)); [apply (so_sorted _ _ Hm)|..].
Qed.

Lemma kept_tombstone st n es st' n' i a b :
  kept st n es -> es !! i = Some a -> es !! S i = Some b ->
  cmp_cb bt (e_key b) (e_key a) <> 0 -> e_tomb a = true ->
  leaf_plain bt n' (delete i es) -> same_frame n n' -> page_objects st' (delete i es) ->
  dropped read_ret st st' (own a) -> kept st' n' (delete i es) /\
  (forall j e, (S i <= j)%nat -> delete i es !! j = Some e -> cmp_cb bt (e_key e) (e_key a) <> 0).
Proof using All.
  intros [Hp Hf Hs Ho Hsub Hv Hw Hd] Ha Hb Hk Ht Hp' Hf' Ho' Hd'. destruct (split_two es i a b Ha Hb) as (E1 & _ & E3).
  assert (forall j e, (S i <= j)%nat -> es !! j = Some e -> cmp_cb bt (e_key a) (e_key e) < 0) as Hlt.
  { intros j e Hj He.
    assert (forall x y v w, (x < y)%nat -> es !! x = Some v -> es !! y = Some w -> cmp_cb bt (e_key v) (e_key w) <= 0) as Hle.
    { intros x y v w Hxy Hx Hy. destruct (Hs x y (entry_version v) (entry_version w)) as [H|[H _]]; cbn in *;
        try done; try lia; by rewrite list_lookup_fmap, ?Hx, ?Hy. }
    pose proof (Hle i (S i) a b ltac:(lia) Ha Hb). pose proof (cmp_antisym (cmp := cmp_cb bt) (e_key b) (e_key a)).
    destruct (decide (j = S i)) as [->|]; [simplify_eq; lia|].
    apply (cmp_lt_trans' (cmp_cb bt) _ (e_key b)); [lia|]. apply (Hle (S i) j); [lia|done..]. }
  assert (Forall (fun e => cmp_cb bt (e_key a) (e_key e) < 0) (b :: drop (S (S i)) es)) as Hall.
  { rewrite <- (drop_S es b (S i) Hb). apply Forall_lookup_2. intros j e Hj. rewrite lookup_drop in Hj.
    apply (Hlt (S i + j)%nat e); [lia|done]. }
  split.
  - split; [done|by etrans|by apply leaf_sorted_delete|done|by etrans; [apply sublist_delete|]| | |by apply (dropped_delete st st' es i a)].
    + intros k s Hr. rewrite <- Hv by done. rewrite E3. rewrite E1 at 3. apply (visible_tombstone (cmp_cb bt)); [done|].
      eapply Forall_impl; [|exact Hall]. cbn. intros; lia.
    + intros k mm Hr. specialize (Hw k mm Hr). rewrite E3. rewrite E1 in Hw. apply (view_tombstone _ a); try done.
      * by apply Forall_cons_iff in Hall as [Hall _].
      * eapply elem_of_sublist; [by eapply list_elem_of_lookup_2|done].
  - intros j e Hj Hje. rewrite list_lookup_delete_ge in Hje by lia.
    pose proof (Hlt (S j) e ltac:(lia) Hje). pose proof (cmp_antisym (cmp := cmp_cb bt) (e_key a) (e_key e)). lia.
Qed.

(** ** The loop *)

Lemma read_cur n es i e :
  leaf_plain bt n es -> es !! i = Some e ->
  exists cur, get_key_stuff_leaf2 n (n2z i) = Some cur /\ view_of cur e.
Proof using Hbt.
  intros Hp Hi. destruct (leaf_rep_read bt Hbt n es i e (plain_rep bt Hbt n es Hp) Hi) as (Hki & _).
  unfold get_key_stuff_leaf2. rewrite (proj2 (Z.ltb_ge _ 0)), Nat2Z.id by lia. rewrite Hki. runs. by eexists.
Qed.

(** The decision on the tombstone at the start of a run. *)
Lemma read_tomb n es prev i dup del start :
  leaf_plain bt n es -> stands es prev i dup del start ->
  exists tb, (if negb (dup =? 0) && (dup =? del)
              then km ← btree_leaf_get_meta n start; Some (tombstone km) else Some false) = Some tb /\
    (tb = true -> exists pe, (0 < i)%nat /\ start = (i - 1)%nat /\ es !! (i - 1)%nat = Some pe /\
       view_of prev pe /\ e_tomb pe = true).
Proof using Hbt.
  intros Hp Hst. destruct (Z.eqb_spec dup 0) as [->|Hd]; [by exists false|]. cbn [negb andb].
  destruct (Z.eqb_spec dup del) as [->|]; [|by exists false].
  destruct Hst as [|pe Hi Hpe Hv _ Hs|]; [done| |done]. specialize (Hs eq_refl). subst start.
  destruct Hp as [Hl Hes _].
  assert ((full_cell <$> es) !! (i - 1)%nat = Some (full_cell pe)) as Hc by (by rewrite list_lookup_fmap, Hpe).
  rewrite (layout_meta bt n _ Hbt Hl (full_cells_ok bt es Hbt Hes) _ _ Hc). runs.
  eexists. split; [done|]. intros Ht. exists pe. by split_and!.
Qed.

Lemma stands_next es i e cur dup del start :
  es !! i = Some e -> view_of cur e -> 0 <= del <= dup -> (dup = del -> start = i) ->
  stands es cur (S i) dup del start.
Proof using Type.
  intros Hi Hv Hd Hs. apply (stands_behind _ _ _ _ _ _ e); rewrite ?Nat.sub_1_r; cbn; try done; lia.
Qed.

Lemma scavenge_loop_ok fuel : forall st n stats i prev dup del start keys bytes es,
  kept st n es -> stands es prev i dup del start -> (i <= length es)%nat -> (length es - i < fuel)%nat ->
  exists st' n' stats' es',
    scavenge_loop bt read_ret m fuel st n stats i prev dup del start keys bytes
      = Some (st', n', stats', keys + (lenZ es - lenZ es')) /\ kept st' n' es'.
Proof using All.
  induction fuel as [|fuel IH]; intros st n stats i prev dup del start keys bytes es Hk Hst Hi Hf; [lia|].
  cbn [scavenge_loop]. pose proof (k_plain Hk) as Hp.
  rewrite (leaf_rep_nkeys bt n es (plain_rep bt Hbt n es Hp)).
  assert (forall (st' : ov_state) (n' : btree_raw_node) (stats' : scav_stats), kept st' n' es ->
    exists st1 n1 stats1 es',
    Some (st', n', stats', keys) = Some (st1, n1, stats1, keys + (lenZ es - lenZ es')) /\ kept st1 n1 es') as Hstop.
  { intros st' n' stats' Hk'. exists st', n', stats', es. split; [|done]. by rewrite Z.sub_diag, Z.add_0_r. }
  destruct (Z.leb_spec (lenZ es) (n2z i)) as [Hle|Hlt]; [by apply Hstop|].
  destruct (lookup_lt_is_Some_2 es i) as [ce Hce]; [lia|].
  destruct (read_cur n es i ce Hp Hce) as (cur & -> & Hcv). runs.
  pose proof (k_objects Hk) as Hobj.
  destruct (Z.eqb_spec (if (i =? 0)%nat then -1 else cmp_cb bt (ks_key cur) (ks_key prev)) 0) as [Hx|Hx].
  - destruct Hst as [->|pe Hi0 Hpe Hpv Hd Hs|Hi0 _ Hne]; [done| |].
    2: { destruct i; [lia|]. cbn in Hx. destruct Hcv as [Hcv _]. rewrite Hcv in Hx. by destruct (Hne (S i) ce). }
    destruct i as [|i]; [lia|]. cbn [Nat.eqb] in Hx. cbn [Nat.sub] in Hpe. rewrite Nat.sub_0_r in Hpe.
    rewrite !(find_meta_index_ok ns m Hm). runs. destruct Hpv as [Hpk Hps]. destruct Hcv as [Hck Hcs].
    rewrite Hps, Hcs. rewrite Hpk, Hck in Hx.
    destruct (Z.eqb_spec (epoch (snap_seqs m) (e_seqno pe)) (epoch (snap_seqs m) (e_seqno ce))) as [He|He].
    + destruct (non_minimal_ok st n es (S i) ce Hp Hce Hobj)
        as (st' & n' & b & -> & Hb). runs. destruct b; [|destruct Hb as [-> ->]; by apply Hstop].
      destruct Hb as (Hp' & Hf' & Ho' & Hd'). pose proof (kept_shadowed st n es st' n' i pe ce Hk Hpe Hce Hx He Hp' Hf' Ho' Hd') as Hk'.
      assert (length (delete (S i) es) = length es - 1)%nat as Hdl by (apply length_delete; by eexists).
      match goal with |- context [scavenge_loop _ _ _ _ _ _ ?s _ _ ?d1 ?d2 _ ?k ?b] =>
        destruct (IH st' n' s (S i) prev d1 d2 start k b _ Hk') as (st2 & n2 & stats2 & es2 & -> & Hk2) end.
      * apply (stands_behind _ _ _ _ _ _ pe); [lia| |done|lia|intros; apply Hs; lia].
        cbn [Nat.sub]. rewrite Nat.sub_0_r, list_lookup_delete_lt by lia. done.
      * lia.
      * lia.
      * exists st2, n2, stats2, es2. split; [|done]. do 2 f_equal. lia.
    + apply (IH st n); [done| |lia|lia]. apply (stands_next _ _ ce); [done|done|lia|lia].
  - destruct (read_tomb n es prev i dup del start Hp Hst) as (tb & -> & Htb). runs. destruct tb.
    + destruct (Htb eq_refl) as (pe & Hi0 & -> & Hpe & Hpv & Ht). destruct i as [|i]; [lia|].
      cbn [Nat.sub] in *. rewrite Nat.sub_0_r in *. cbn [Nat.eqb] in Hx.
      destruct Hpv as [Hpk Hps]. destruct Hcv as [Hck Hcs]. rewrite Hpk, Hck in Hx.
      destruct (non_minimal_ok st n es i pe Hp Hpe Hobj)
        as (st' & n' & b & -> & Hb). runs. destruct b; [|destruct Hb as [-> ->]; by apply Hstop].
      destruct Hb as (Hp' & Hf' & Ho' & Hd').
      destruct (kept_tombstone st n es st' n' i pe ce Hk Hpe Hce Hx Ht Hp' Hf' Ho' Hd') as [Hk' Hne].
      assert (length (delete i es) = length es - 1)%nat as Hdl by (apply length_delete; by eexists).
      match goal with |- context [scavenge_loop _ _ _ _ _ _ ?s _ _ _ _ _ ?k ?b] =>
        destruct (IH st' n' s (S i) prev 0 0 i k b _ Hk') as (st2 & n2 & stats2 & es2 & -> & Hk2) end.
      * apply stands_passed; [lia|done|]. rewrite Hpk. exact Hne.
      * lia.
      * lia.
      * exists st2, n2, stats2, es2. split; [|done]. do 2 f_equal. lia.
    + apply (IH st n); [done| |lia|lia]. apply (stands_next _ _ ce); [done|done|lia|done].
Qed.
End scavenge.

Arguments k_plain {_ _ _ _ _ _ _ _ _ _} _.
Arguments k_objects {_ _ _ _ _ _ _ _ _ _} _.

(** The whole scavenge. *)
Lemma scavenge_ok bt read_ret own ns m st n es stats :
  bt_ok bt -> space_op_disabled bt = true -> CmpOk (cmp_cb bt) -> snap_ok ns m ->
  max_key_size bt * 2 < nodesize bt ->
  leaf_plain bt n es -> leaf_sorted bt es -> page_objects bt read_ret own st es ->
  exists st' n' stats' es',
    scavenge_node_all_keys bt read_ret m st n stats = Some (st', n', stats', lenZ es - lenZ es') /\
    kept bt read_ret own m es st n st' n' es'.
Proof.
  intros Hbt Hso Hcmp Hm Hkey Hp Hs Hobj. unfold scavenge_node_all_keys.
  rewrite (proj2 (Z.ltb_lt _ _) Hkey). cbn [assert_]. runs.
  apply (scavenge_loop_ok bt read_ret Hbt Hso own ns m Hm es st n (S (z2n (nkeys n))) st n stats 0
              (mk_key_stuff_info [] 0 0 0 false) 0 0 0 0 0 es).
  - split; [done..|by left|]. exists []. split; [by rewrite app_nil_r|apply dropped_refl].
  - by apply stands_first.
  - lia.
  - rewrite (leaf_rep_nkeys bt n es (plain_rep bt Hbt n es Hp)). lia.
Qed.

(** * Scavenging is invisible to readers *)

(** C16: in the default page format (no prefix sharing), scavenging a leaf whose
    overflow chains are intact always ends, keeps the page well formed and
    sorted, only drops entries, and no reader notices: for every key, a read
    through any snapshot or of the active container finds the same entry before
    and after (a tombstone counts as nothing found). The result is the number of
    entries dropped. *)
Theorem scavenge_invisible bt read_ret own ns m st n es stats :
  bt_ok bt -> space_op_disabled bt = true -> CmpOk (cmp_cb bt) -> snap_ok ns m ->
  max_key_size bt * 2 < nodesize bt ->
  leaf_plain bt n es -> leaf_sorted bt es -> page_objects bt read_ret own st es ->
  exists st' n' stats' es',
    scavenge_node_all_keys bt read_ret m st n stats = Some (st', n', stats', lenZ es - lenZ es') /\
    leaf_plain bt n' es' /\ leaf_sorted bt es' /\ sublist es' es /\
    (forall k s, s ∈ snap_seqs m \/ Forall (fun e => e_seqno e <= s) es ->
       visible (cmp_cb bt) es' k s = visible (cmp_cb bt) es k s).
Proof.
  intros Hbt Hso Hcmp Hm Hkey Hp Hs Hobj.
  destruct (scavenge_ok bt read_ret own ns m st n es stats) as (st' & n' & stats' & es' & Hrun & Hk); [done..|].
  exists st', n', stats', es'. split; [exact Hrun|]. destruct Hk as [Hp' _ Hs' _ Hsub Hv _ _]. by split_and!.
Qed.

(** A page of a 2 KB node with several versions of two keys. *)
Definition ver (b : byte) (seq : Z) (tomb : bool) : entry :=
  if tomb then mk_entry (key_ab b) 0 [] 0 seq true
  else mk_entry (key_ab b) 400 (replicate 400 b) 0 seq false.
Definition es_ver : list entry :=
  [ver Byte.x31 30 true; ver Byte.x31 25 false; ver Byte.x31 22 false; ver Byte.x32 40 false; ver Byte.x32 18 false].

Lemma es_ver_plain : leaf_plain bt_2k (page_of (full_cell <$> es_ver)) es_ver.
Proof. split; [apply page_of_layout| |by vm_compute]. repeat constructor; by vm_compute. Qed.

Lemma es_ver_sorted : leaf_sorted bt_2k es_ver.
Proof.
  intros i j v w Hij Hi Hj.
  destruct i as [|[|[|[|[|i]]]]], j as [|[|[|[|[|j]]]]]; try lia; try done;
    injection Hi as <-; injection Hj as <-; first [left; by vm_compute|right; split; by vm_compute].
Qed.

Lemma scavenge_invisible_witness :
  exists st' n' stats' es',
    scavenge_node_all_keys bt_2k (fun _ => BTREE_SUCCESS) snap3 st_two (page_of (full_cell <$> es_ver)) (mk_scav_stats 9 900)
      = Some (st', n', stats', lenZ es_ver - lenZ es') /\
    leaf_plain bt_2k n' es' /\ leaf_sorted bt_2k es' /\ sublist es' es_ver /\
    (forall k s, s ∈ snap_seqs snap3 \/ Forall (fun e => e_seqno e <= s) es_ver ->
       visible default_cmp_cb es' k s = visible default_cmp_cb es_ver k s).
Proof.
  apply (scavenge_invisible bt_2k (fun _ => BTREE_SUCCESS) (fun _ => []) 8192 snap3 st_two
           (page_of (full_cell <$> es_ver)) es_ver).
  - apply bt_2k_ok.
  - reflexivity.
  - apply default_cmp_ok.
  - apply snap3_ok.
  - by vm_compute.
  - apply es_ver_plain.
  - apply es_ver_sorted.
  - split; [repeat constructor; by vm_compute|]. apply (bool_decide_unpack _). by vm_compute.
Defined.

(** The statistics of snapshot objects go wrong in a scavenge: each
    deletion subtracts the number of entries deleted before it, not one. Two
    versions of a snapshot are deleted here and the counter drops by one
    only; the byte counter misses the size of the last one. *)
Theorem scavenge_stats_wrong :
  exists st n stats,
    scavenge_node_all_keys bt_2k (fun _ => BTREE_SUCCESS) snap3 st_two (page_of (full_cell <$> es_ver)) (mk_scav_stats 9 9000)
      = Some (st, n, stats, 2) /\
    nkeys n = 3 /\ BTSTAT_NUM_SNAP_OBJS stats = 9 - 1 /\ BTSTAT_SNAP_DATA_SIZE stats = 9000 - 400.
Proof. eexists _, _, _. split; [by vm_compute|]. split_and!; by vm_compute. Qed.
