(* ===== verification/Tree.v ===== *)
(** * Finding and reading an object (btree/btree_raw.c)

    The state of a tree, the descent from the root to a leaf and the read of
    the object found. The nodes of the tree are in a store; [node_ret] is what
    fetching a node returns. Locks make a request see a stable path; the model
    runs one request at a time, so the retries of [root_get_and_lock] after a
    change of the root do not occur. *)

From stdpp Require Import gmap.
From S2P Require Import Prelude Status LeafMeta LeafNode LeafOps NodeSearch NonLeaf PStats Overflow Snapshot Scavenger.

Inductive tnode :=
  | TLeaf (n : btree_raw_node)
  | TNonLeaf (v : vnode).

(** The counters of [btree_stats_t] that the requests change, apart from those
    kept with the overflow nodes and the snapshot objects. *)
Inductive btree_stat :=
  | BTSTAT_GET_CNT | BTSTAT_GET_PATH | BTSTAT_SPLITS | BTSTAT_NUM_OBJS
  | BTSTAT_LEAF_NODES | BTSTAT_NONLEAF_NODES | BTSTAT_NONLEAF_BYTES
  | BTSTAT_CREATE_CNT | BTSTAT_CREATE_PATH | BTSTAT_SET_CNT | BTSTAT_SET_PATH
  | BTSTAT_UPDATE_CNT | BTSTAT_UPDATE_PATH | BTSTAT_DELETE_CNT.

#[export] Instance btree_stat_eq_dec : EqDecision btree_stat.
Proof. solve_decision. Defined.

(** What the storage below the tree holds: the root id, the nodes and the
    overflow nodes of the last flush. *)
Record storage := mk_storage {
  s_rootid : Z;
  s_nodes : gmap Z tnode;
  s_ov_nodes : gmap Z onode
}.

(** [t_supply] are the outcomes of the coming allocations of tree nodes: the
    id of a new node or an error. *)
Record tree := mk_tree {
  rootid : Z;
  t_nodes : gmap Z tnode;
  t_ov : ov_state;
  t_scav : scav_stats;
  t_stat : btree_stat -> Z;
  t_supply : list (btree_status + Z);
  t_stored : storage
}.

Definition set_ov (t : tree) (st : ov_state) : tree :=
  mk_tree (rootid t) (t_nodes t) st (t_scav t) (t_stat t) (t_supply t) (t_stored t).
Definition set_tnodes (t : tree) (ns : gmap Z tnode) : tree :=
  mk_tree (rootid t) ns (t_ov t) (t_scav t) (t_stat t) (t_supply t) (t_stored t).
Definition set_root (t : tree) (id : Z) : tree :=
  mk_tree id (t_nodes t) (t_ov t) (t_scav t) (t_stat t) (t_supply t) (t_stored t).
Definition set_scav (t : tree) (s : scav_stats) : tree :=
  mk_tree (rootid t) (t_nodes t) (t_ov t) s (t_stat t) (t_supply t) (t_stored t).
Definition set_tsupply (t : tree) (s : list (btree_status + Z)) : tree :=
  mk_tree (rootid t) (t_nodes t) (t_ov t) (t_scav t) (t_stat t) s (t_stored t).
Definition put_node (t : tree) (id : Z) (x : tnode) : tree := set_tnodes t (<[id := x]> (t_nodes t)).
Definition add_stat (t : tree) (s : btree_stat) (d : Z) : tree :=
  mk_tree (rootid t) (t_nodes t) (t_ov t) (t_scav t)
    (fun s' => if decide (s' = s) then u64 (t_stat t s + d) else t_stat t s')
    (t_supply t) (t_stored t).

(** What a search hands to its caller: the leaf, the position in it, whether
    the key was found, and the length of the path. *)
Record find_result := mk_find_result {
  fr_node : btree_raw_node;
  fr_index : Z;
  fr_found : bool;
  fr_pathcnt : Z
}.

Section tree.
Context (bt : btree_raw) (read_ret node_ret : Z -> btree_status).

Definition get_existing_node (t : tree) (id : Z) : option (btree_status + tnode) :=
  if decide (node_ret id = BTREE_SUCCESS) then n ← t_nodes t !! id; Some (inr n)
  else Some (inl (node_ret id)).

Definition root_get_and_lock (t : tree) : option (btree_status + tnode) := get_existing_node t (rootid t).

(** The descent at a node. No node is visited twice on a path, so the number
    of nodes bounds its length. *)
Fixpoint find_loop (fuel : nat) (t : tree) (x : btree_status + tnode) (key : list byte)
    (meta : option btree_metadata) (pathcnt : Z) : option (btree_status + find_result) :=
  match fuel with
  | O => None
  | S fuel =>
      match x with
      | inl e => Some (inl e)
      | inr (TLeaf n) =>
          r ← bsearch_key_low (cmp_cb bt) n key meta (-1) (nkeys n) BSF_LATEST;
          Some (inr (mk_find_result n r.1 r.2 pathcnt))
      | inr (TNonLeaf v) =>
          r ← bsearch_key bt v key meta BSF_LATEST;
          let child_id := r.2 in
          _ ← assert_ (negb (child_id =? BAD_CHILD));
          x ← get_existing_node t child_id;
          find_loop fuel t x key meta (pathcnt + 1)
      end
  end.

(** A tombstone counts as not found, except for a forced delete. *)
Definition btree_raw_find (t : tree) (key : list byte) (meta : option btree_metadata) (FORCE_DELETE : bool)
    (pathcnt : Z) : option (btree_status + find_result) :=
  root ← root_get_and_lock t;
  r ← find_loop (S (size (t_nodes t))) t root key meta pathcnt;
  match r with
  | inl e => Some (inl e)
  | inr f =>
      found ← (if fr_found f then
                 tomb ← btree_leaf_is_key_tombstoned (fr_node f) (z2n (fr_index f));
                 Some (negb (tomb && negb FORCE_DELETE))
               else Some false);
      Some (inr (mk_find_result (fr_node f) (fr_index f) found (fr_pathcnt f)))
  end.

Definition count_get (t : tree) (pathcnt : Z) : tree :=
  add_stat (add_stat t BTSTAT_GET_CNT 1) BTSTAT_GET_PATH pathcnt.

Definition btree_raw_get (t : tree) (key : list byte) (meta : option btree_metadata)
    (BUFFER_PROVIDED ALLOC_IF_TOO_SMALL FORCE_DELETE : bool) : option (tree * btree_status * option (list byte)) :=
  f ← btree_raw_find t key meta FORCE_DELETE 1;
  match f with
  | inl e => Some (t, e, None)
  | inr f =>
      r ← (if fr_found f then
             r ← get_leaf_data_nth_key bt read_ret (t_ov t) (fr_node f) (z2n (fr_index f))
                   BUFFER_PROVIDED ALLOC_IF_TOO_SMALL;
             let '(st, ret, data) := r in Some (set_ov t st, ret, data)
           else Some (t, BTREE_KEY_NOT_FOUND, None));
      let '(t, ret, data) := r in
      Some (if decide (ret = BTREE_SUCCESS) then count_get t (fr_pathcnt f) else t, ret, data)
  end.
End tree.
