(* ===== verification/TreeSpec.v ===== *)
(** * The shape of a tree

    [subtree] relates a node of the store to the sequence of leaves below it
    and to the ids of its nodes; [ctx] is a subtree with a hole, the path from
    the root to a node with what hangs off it. A search walks the hole down;
    a change of a node is a change of what is plugged into the hole. *)

From stdpp Require Import gmap.
From S2P Require Import Prelude Status LeafMeta LeafNode LeafOps LeafCells LeafEncode LeafFixup LeafSpec LeafRefine LeafPlain LeafMove NodeSearch LeafTheorems NodeSearchSpec NonLeaf NonLeafSpec NodeTheorems TreeFlat PStats Overflow OverflowSpec OverflowTheorems Tree.

Abbreviation fleaf := (list entry * option version)%type.

(** The leaves below a child, and the ids of its nodes. *)
Abbreviation kid := (list fleaf * list Z)%type.
Definition kids_flat (ks : list kid) : list fleaf := concat ks.*1.
Definition kids_ids (ks : list kid) : list Z := concat ks.*2.

Lemma kids_flat_app k1 k2 : kids_flat (k1 ++ k2) = kids_flat k1 ++ kids_flat k2.
Proof. unfold kids_flat. by rewrite fmap_app, concat_app. Qed.
Lemma kids_ids_app k1 k2 : kids_ids (k1 ++ k2) = kids_ids k1 ++ kids_ids k2.
Proof. unfold kids_ids. by rewrite fmap_app, concat_app. Qed.
Lemma kids_flat_cons k ks : kids_flat (k :: ks) = k.1 ++ kids_flat ks.
Proof. done. Qed.
Lemma kids_ids_cons k ks : kids_ids (k :: ks) = k.2 ++ kids_ids ks.
Proof. done. Qed.

Lemma kids_ids_elem ks j k x : ks !! j = Some k -> x ∈ k.2 -> x ∈ kids_ids ks.
Proof.
  intros Hj Hx. apply list_elem_of_In, in_concat. exists k.2. split; apply list_elem_of_In; [|done].
  apply list_elem_of_lookup_2 with j. by rewrite list_lookup_fmap, Hj.
Qed.

Section tree.
Context (bt : btree_raw) (Hbt : bt_ok bt) `{!CmpOk (cmp_cb bt)} (node_ret : Z -> btree_status)
  (page : btree_raw_node -> list entry -> Prop) (Hpage : forall n es, page n es -> leaf_rep bt n es).

Abbreviation cmp := (cmp_cb bt).

(** The separator right of child [i], the bound of the node for the last. *)
Definition bound_at (seps : list nent) (ub : option version) (i : nat) : option version :=
  match seps !! i with Some e => Some (ent_version e) | None => ub end.

(** A separator that a request of the code can have put there. *)
Definition sep_ok (e : nent) : Prop := lenZ (n_key e) <= max_key_size bt /\ 0 < n_seqno e < 2 ^ 64.

Record nl_node (id : Z) (v : vnode) (seps : list nent) : Prop := {
  nn_id : v_logical_id v = id;
  nn_rep : nl_rep bt v seps;
  nn_seps : Forall sep_ok seps
}.

#[local] Arguments nn_rep {_ _ _} _.

Fixpoint subtree (ns : gmap Z tnode) (d : nat) (id : Z) (ub : option version) (fl : list fleaf) (ids : list Z) : Prop :=
  node_ret id = BTREE_SUCCESS /\ id <> BAD_CHILD /\
  match d with
  | O => exists n es, ns !! id = Some (TLeaf n) /\ logical_id n = id /\ page n es /\ fl = [(es, ub)] /\ ids = [id]
  | S d =>
      exists v seps kids, ns !! id = Some (TNonLeaf v) /\ nl_node id v seps /\ seps <> [] /\
        length kids = S (length seps) /\ fl = kids_flat kids /\ ids = id :: kids_ids kids /\
        forall i k, kids !! i = Some k -> subtree ns d (child_at v seps i) (bound_at seps ub i) k.1 k.2
  end.

(** The children from number [off] on. *)
Definition kids_ok (ns : gmap Z tnode) (d : nat) (v : vnode) (seps : list nent) (ub : option version)
    (off : nat) (kids : list kid) : Prop :=
  forall i k, kids !! i = Some k -> subtree ns d (child_at v seps (off + i)) (bound_at seps ub (off + i)) k.1 k.2.

Lemma kids_ok_app ns d v seps ub off k1 k2 :
  kids_ok ns d v seps ub off (k1 ++ k2) <->
  kids_ok ns d v seps ub off k1 /\ kids_ok ns d v seps ub (off + length k1) k2.
Proof using Type.
  split.
  - intros H. split; intros i k Hi.
    + apply H. by apply lookup_app_l_Some.
    + rewrite <- Nat.add_assoc. apply H. by rewrite lookup_app_add.
  - intros [H1 H2] i k [Hi|[Hle Hi]]%lookup_app_Some; [by apply H1|].
    specialize (H2 _ _ Hi). by replace (off + length k1 + (i - length k1))%nat with (off + i)%nat in H2 by lia.
Qed.

Lemma kids_ok_cons ns d v seps ub off k ks :
  kids_ok ns d v seps ub off (k :: ks) <->
  subtree ns d (child_at v seps off) (bound_at seps ub off) k.1 k.2 /\ kids_ok ns d v seps ub (S off) ks.
Proof using Type.
  change (k :: ks) with ([k] ++ ks). rewrite kids_ok_app. replace (off + length [k])%nat with (S off) by (cbn; lia).
  split; intros [H1 H2]; (split; [|done]).
  - specialize (H1 0%nat k eq_refl). by rewrite Nat.add_0_r in H1.
  - intros [|i] k' Hk; [|done]. injection Hk as <-. by rewrite Nat.add_0_r.
Qed.

(** A non-leaf node and its children. *)
Definition nl_tree (ns : gmap Z tnode) (d : nat) (id : Z) (ub : option version) (fl : list fleaf) (ids : list Z) : Prop :=
  node_ret id = BTREE_SUCCESS /\ id <> BAD_CHILD /\ exists v seps kids, ns !! id = Some (TNonLeaf v) /\
    nl_node id v seps /\ seps <> [] /\ length kids = S (length seps) /\ fl = kids_flat kids /\
    ids = id :: kids_ids kids /\ kids_ok ns d v seps ub 0 kids.

Lemma subtree_inv ns d id ub fl ids : subtree ns (S d) id ub fl ids -> nl_tree ns d id ub fl ids.
Proof using Type. done. Qed.
Lemma subtree_S ns d id ub fl ids : nl_tree ns d id ub fl ids -> subtree ns (S d) id ub fl ids.
Proof using Type. done. Qed.

(** ** Frames *)

Lemma subtree_frame ns ns' d : forall id ub fl ids,
  subtree ns d id ub fl ids -> (forall x, x ∈ ids -> ns' !! x = ns !! x) -> subtree ns' d id ub fl ids.
Proof using Type.
  induction d as [|d IH]; intros id ub fl ids.
  - intros (Hr & Hb & n & es & Hn & Hid & Hp & -> & ->) Hfr. split_and!; [done|done|].
    exists n, es. rewrite Hfr by (by apply list_elem_of_singleton). done.
  - intros (Hr & Hb & v & seps & kids & Hv & Hnl & Hne & Hlen & -> & -> & Hk)%subtree_inv Hfr.
    apply subtree_S. split_and!; [done|done|]. exists v, seps, kids. rewrite Hfr by left. split_and!; try done.
    intros i k Hi. apply IH; [by apply Hk|]. intros x Hx. apply Hfr. right. by eapply kids_ids_elem.
Qed.

Lemma kids_frame ns ns' d v seps ub off kids :
  kids_ok ns d v seps ub off kids -> (forall x, x ∈ kids_ids kids -> ns' !! x = ns !! x) ->
  kids_ok ns' d v seps ub off kids.
Proof using Type.
  intros Hk Hfr i k Hi. apply (subtree_frame ns); [by apply Hk|]. intros x Hx. apply Hfr. by eapply kids_ids_elem.
Qed.

Lemma subtree_ids ns d : forall id ub fl ids,
  subtree ns d id ub fl ids -> id ∈ ids /\ forall x, x ∈ ids -> x ∈ dom ns.
Proof using Type.
  induction d as [|d IH]; intros id ub fl ids.
  - intros (_ & _ & n & es & Hn & _ & _ & _ & ->). split; [by apply list_elem_of_singleton|].
    intros x ->%list_elem_of_singleton. by apply elem_of_dom_2 in Hn.
  - intros (_ & _ & v & seps & kids & Hv & _ & _ & _ & _ & -> & Hk)%subtree_inv. split; [left|].
    intros x [->|Hx]%elem_of_cons; [by apply elem_of_dom_2 in Hv|].
    unfold kids_ids in Hx. apply list_elem_of_In, in_concat in Hx as (l & Hl & Hx).
    apply list_elem_of_In, list_elem_of_lookup_1 in Hl as (i & Hi). rewrite list_lookup_fmap in Hi.
    destruct (kids !! i) as [k|] eqn:Ek; [|done]. injection Hi as <-. apply list_elem_of_In in Hx.
    by apply (IH _ _ _ _ (Hk i k Ek)).
Qed.

(** ** Bounds *)

Lemma kids_last_from ns d :
  (forall id ub fl ids, subtree ns d id ub fl ids -> list.last fl.*2 = Some ub) ->
  forall v seps ub kids, kids_ok ns d v seps ub 0 kids -> length kids = S (length seps) ->
  list.last (kids_flat kids).*2 = Some ub.
Proof using Type.
  intros Hsub v seps ub kids Hk Hlen. destruct (snoc_of kids) as (ks & k & ->); [by destruct kids|].
  rewrite length_app in Hlen. cbn in Hlen. apply kids_ok_app in Hk as [_ Hk]. cbn in Hk.
  specialize (Hk 0%nat k eq_refl). rewrite Nat.add_0_r in Hk. unfold bound_at in Hk.
  rewrite (lookup_ge_None_2 seps) in Hk by lia. apply Hsub in Hk.
  rewrite kids_flat_app, kids_flat_cons, app_nil_r, fmap_app, last_app. by rewrite Hk.
Qed.

Lemma subtree_last ns d : forall id ub fl ids,
  subtree ns d id ub fl ids -> list.last fl.*2 = Some ub.
Proof using Type.
  induction d as [|d IH]; intros id ub fl ids.
  - by intros (_ & _ & n & es & _ & _ & _ & -> & _).
  - intros (_ & _ & v & seps & kids & _ & _ & _ & Hlen & -> & _ & Hk)%subtree_inv. by eapply kids_last_from.
Qed.

Lemma kids_last ns d v seps ub kids :
  kids_ok ns d v seps ub 0 kids -> length kids = S (length seps) -> list.last (kids_flat kids).*2 = Some ub.
Proof using Type. apply kids_last_from, subtree_last. Qed.

Lemma flat_last_bound lo fl hi b : flat_in cmp lo fl hi -> list.last fl.*2 = Some b -> hi = b.
Proof using Type.
  revert lo; induction fl as [|[es c] fl IH]; intros lo; [done|]. destruct fl as [|x fl].
  - intros [_ ->]%flat_in_one. cbn. congruence.
  - intros (w & -> & _ & Hf)%flat_in_cons Hl; [|done]. by apply (IH _ Hf).
Qed.

Lemma subtree_ne ns d id ub fl ids : subtree ns d id ub fl ids -> fl <> [].
Proof using Type. intros H%subtree_last. by destruct fl. Qed.

(** The children of a node lie between its separators. *)
Lemma kids_bounds ns d v seps ub kids : forall off lo,
  kids_ok ns d v seps ub off kids -> length kids = S (length seps - off) -> (off <= length seps)%nat ->
  flat_in cmp lo (kids_flat kids) ub ->
  node_sorted cmp (ent_version <$> drop off seps) /\ (forall e, e ∈ drop off seps -> above cmp lo (ent_version e)) /\
  (forall i k, kids !! i = Some k ->
     flat_in cmp (match i with O => lo | S j => bound_at seps ub (off + j) end) k.1 (bound_at seps ub (off + i))).
Proof using CmpOk0.
  induction kids as [|k kids IH]; intros off lo Hk Hlen Hoff Hf; [done|]. apply kids_ok_cons in Hk as [Hk0 Hk].
  rewrite kids_flat_cons in Hf. destruct kids as [|k' kids].
  - assert (off = length seps) as -> by (cbn in Hlen; lia). rewrite drop_all. cbn in Hf. rewrite app_nil_r in Hf.
    split_and!; [intros i j ???; done|by intros ? ?%not_elem_of_nil|].
    intros [|i] x Hi; [|done]. injection Hi as <-. unfold bound_at. by rewrite (lookup_ge_None_2 seps) by lia.
  - assert (off < length seps)%nat as Hlt by (cbn in Hlen; lia).
    destruct (lookup_lt_is_Some_2 seps off Hlt) as [sep Hsep].
    assert (bound_at seps ub off = Some (ent_version sep)) as Hb by (unfold bound_at; by rewrite Hsep).
    rewrite Hb in Hk0.
    assert (kids_flat (k' :: kids) <> []) as Hne2.
    { apply kids_ok_cons in Hk as [Hk1 _]. apply subtree_ne in Hk1. rewrite kids_flat_cons. by destruct k'.1. }
    apply flat_in_app in Hf as (w & Hf0 & Hf); [|by eapply subtree_ne|done].
    assert (w = ent_version sep) as ->.
    { pose proof (flat_last_bound _ _ _ _ Hf0 (subtree_last _ _ _ _ _ _ Hk0)). congruence. }
    destruct (IH (S off) (Some (ent_version sep)) Hk) as (Hs & Ha & Hch); [cbn in *; lia|lia|done|].
    destruct (flat_entries cmp _ _ _ Hf0) as (_ & _ & Hab). specialize (Hab _ eq_refl).
    rewrite (drop_S seps sep off Hsep). split_and!.
    + rewrite fmap_cons. intros [|i] [|j] x y Hij Hi Hj; [lia| |lia|apply (Hs i j); [lia|done|done]].
      injection Hi as <-. change ((ent_version <$> drop (S off) seps) !! j = Some y) in Hj. rewrite list_lookup_fmap in Hj.
      destruct (drop (S off) seps !! j) as [e|] eqn:E; [|done]. injection Hj as <-.
      apply (Ha e). by eapply list_elem_of_lookup_2.
    + intros e [->|He]%elem_of_cons; [done|]. specialize (Ha e He). destruct lo as [l|]; [|done]. cbn in *.
      by apply (ordered_trans cmp _ (ent_version sep)).
    + intros [|i] x Hi.
      * injection Hi as <-. by rewrite Nat.add_0_r, Hb.
      * specialize (Hch i x Hi). replace (off + S i)%nat with (S off + i)%nat by lia.
        destruct i as [|i]; [by rewrite Nat.add_0_r, Hb|].
        by replace (off + S i)%nat with (S off + i)%nat by lia.
Qed.

(** ** Paths *)

(** The path from the root to node [id] of height [d] with bound [ub]: the
    leaves left and right of it and the ids of all nodes outside. *)
Inductive ctx (ns : gmap Z tnode) (D : nat) (root : Z)
    : nat -> Z -> option version -> list fleaf -> list fleaf -> list Z -> Prop :=
  | ctx_top : ctx ns D root D root None [] [] []
  | ctx_down d pid pub pre post out v seps kl kr :
      ctx ns D root (S d) pid pub pre post out ->
      node_ret pid = BTREE_SUCCESS -> pid <> BAD_CHILD -> ns !! pid = Some (TNonLeaf v) -> nl_node pid v seps ->
      seps <> [] -> (length kl + length kr)%nat = length seps ->
      kids_ok ns d v seps pub 0 kl -> kids_ok ns d v seps pub (S (length kl)) kr ->
      ctx ns D root d (child_at v seps (length kl)) (bound_at seps pub (length kl))
        (pre ++ kids_flat kl) (kids_flat kr ++ post) (pid :: kids_ids kl ++ kids_ids kr ++ out).

Lemma ctx_frame ns ns' D root d id ub pre post out :
  ctx ns D root d id ub pre post out -> (forall x, x ∈ out -> ns' !! x = ns !! x) ->
  ctx ns' D root d id ub pre post out.
Proof using Type.
  induction 1 as [|d pid pub pre post out v seps kl kr Hc IH Hr Hb Hv Hnl Hne Hlen Hl Hk]; intros Hfr; [constructor|].
  apply ctx_down; try done.
  - apply IH. intros x Hx. apply Hfr. clear -Hx. set_solver.
  - rewrite Hfr; [done|left].
  - eapply kids_frame; [done|]. intros x Hx. apply Hfr. clear -Hx. set_solver.
  - eapply kids_frame; [done|]. intros x Hx. apply Hfr. clear -Hx. set_solver.
Qed.

(** Filling the hole. *)
Lemma ctx_plug ns D root d id ub pre post out :
  ctx ns D root d id ub pre post out -> forall fl ids, subtree ns d id ub fl ids ->
  exists ids', subtree ns D root None (pre ++ fl ++ post) ids' /\ ids' ≡ₚ ids ++ out.
Proof using Type.
  induction 1 as [|d pid pub pre post out v seps kl kr Hc IH Hr Hb Hv Hnl Hne Hlen Hl Hk]; intros fl ids Hsub.
  - exists ids. cbn. by rewrite !app_nil_r.
  - destruct (IH (kids_flat kl ++ fl ++ kids_flat kr) (pid :: kids_ids kl ++ ids ++ kids_ids kr)) as (ids' & Hs & Hp).
    + apply subtree_S. split_and!; [done|done|]. exists v, seps, (kl ++ (fl, ids) :: kr). split_and!; try done.
      * rewrite length_app. cbn. lia.
      * by rewrite kids_flat_app, kids_flat_cons.
      * by rewrite kids_ids_app, kids_ids_cons.
      * apply kids_ok_app. split; [done|]. apply kids_ok_cons. by rewrite Nat.add_0_l.
    + exists ids'. rewrite <- !app_assoc in *. split; [done|]. rewrite Hp. cbn.
      rewrite (Permutation_app_comm (kids_ids kl)), <- !app_assoc, (Permutation_app_comm ids).
      cbn. rewrite <- !app_assoc. rewrite Permutation_middle. solve_Permutation.
Qed.

(** ** The path of a request *)

(** Node [id] of height [d] is on the path of the request: [W] are the leaves
    of the whole tree and [I] the ids of its nodes. *)
Record focus_at (ns : gmap Z tnode) (D : nat) (root : Z) (key : list byte) (m : option btree_metadata)
    (W : list fleaf) (I : list Z) (d : nat) (id : Z) (ub : option version) (fl : list fleaf) (ids : list Z)
    (pre post : list fleaf) (out : list Z) : Prop := {
  fa_ctx : ctx ns D root d id ub pre post out;
  fa_tree : subtree ns d id ub fl ids;
  fa_leaves : W = pre ++ fl ++ post;
  fa_before : Forall (passed cmp key m) pre.*2;
  fa_here : ~ passed cmp key m ub;
  fa_ids : ids ++ out ≡ₚ I
}.

Definition focus (ns : gmap Z tnode) (D : nat) (root : Z) (key : list byte) (m : option btree_metadata)
    (W : list fleaf) (I : list Z) (d : nat) (id : Z) : Prop :=
  exists ub fl ids pre post out, focus_at ns D root key m W I d id ub fl ids pre post out.

Lemma focus_root ns D root key m W I : subtree ns D root None W I -> focus ns D root key m W I D root.
Proof using Type.
  intros H. exists None, W, I, [], [], []. split; try done.
  - constructor.
  - by rewrite app_nil_r.
  - by intros [].
  - by rewrite app_nil_r.
Qed.

Lemma focus_back ns D root key m W I d id :
  focus ns D root key m W I d id -> exists I', subtree ns D root None W I' /\ I' ≡ₚ I.
Proof using Type.
  intros (ub & fl & ids & pre & post & out & [Hc Ht -> _ _ Hi]).
  destruct (ctx_plug _ _ _ _ _ _ _ _ _ Hc _ _ Ht) as (I' & Hs & Hp). exists I'. split; [done|]. by rewrite Hp.
Qed.

(** What a node of the path offers, and where the request goes from it. *)
Lemma focus_step ns D root key m W I d id ub fl ids pre post out :
  focus_at ns D root key m W I (S d) id ub fl ids pre post out -> flat_in cmp None W None ->
  exists v seps kids, ns !! id = Some (TNonLeaf v) /\ nl_node id v seps /\ seps <> [] /\ nl_sorted bt seps /\
    length kids = S (length seps) /\ kids_ok ns d v seps ub 0 kids /\ fl = kids_flat kids /\ ids = id :: kids_ids kids /\
    forall i, splits cmp (ent_version <$> seps) key m i -> exists k, kids !! i = Some k /\
      focus_at ns D root key m W I d (child_at v seps i) (bound_at seps ub i) k.1 k.2
        (pre ++ kids_flat (take i kids)) (kids_flat (drop (S i) kids) ++ post)
        (id :: kids_ids (take i kids) ++ kids_ids (drop (S i) kids) ++ out).
Proof using CmpOk0.
  intros [Hc Ht -> Hb Hh HI] Hf. destruct (flat_zoom cmp None pre fl post None) as (l & h & Hfl & _ & _);
    [by eapply subtree_ne|done|].
  assert (h = ub) as -> by (apply (flat_last_bound _ _ _ _ Hfl); by eapply subtree_last).
  apply subtree_inv in Ht as (Hr & Hbad & v & seps & kids & Hv & Hnl & Hne & Hlen & -> & -> & Hk).
  destruct (kids_bounds _ _ _ _ _ _ 0 l Hk) as (Hs & _ & Hkb); [lia|lia|done|]. rewrite drop_0 in Hs.
  exists v, seps, kids. split_and!; try done. intros i [Hi Hsp]. rewrite length_fmap in Hi.
  destruct (lookup_lt_is_Some_2 kids i) as [k Hki]; [lia|]. exists k. split; [done|].
  pose proof (take_drop_middle kids i k Hki) as E.
  assert (length (take i kids) = i) as Hli by (rewrite length_take; lia).
  assert (kids_ok ns d v seps ub 0 (take i kids) /\ subtree ns d (child_at v seps i) (bound_at seps ub i) k.1 k.2 /\
          kids_ok ns d v seps ub (S i) (drop (S i) kids)) as (Hk1 & Hk2 & Hk3).
  { rewrite <- E in Hk. apply kids_ok_app in Hk as [? Hk]. rewrite Hli in Hk. by apply kids_ok_cons in Hk. }
  split.
  - pose proof (ctx_down ns D root d id ub pre post out v seps (take i kids) (drop (S i) kids)) as Hd.
    rewrite Hli in Hd. apply Hd; try done. rewrite length_drop. lia.
  - done.
  - rewrite <- E at 1. rewrite kids_flat_app, kids_flat_cons. by rewrite <- !app_assoc.
  - rewrite fmap_app. apply Forall_app; split; [done|]. apply Forall_lookup_2. intros j b Hj.
    rewrite list_lookup_fmap in Hj. destruct (kids_flat (take i kids) !! j) as [[es c]|] eqn:Ej; [|done].
    injection Hj as <-. apply list_elem_of_lookup_2, list_elem_of_In, in_concat in Ej as (x & Hx & Hin).
    apply list_elem_of_In, list_elem_of_lookup_1 in Hx as (a & Ha). rewrite list_lookup_fmap in Ha.
    destruct (take i kids !! a) as [ka|] eqn:Ea; [|done]. injection Ha as <-.
    apply lookup_take_Some in Ea as [Ea Hai]. specialize (Hkb a ka Ea). rewrite Nat.add_0_l in Hkb.
    destruct (lookup_lt_is_Some_2 seps a) as [sep Hsep]; [lia|].
    unfold bound_at at 2 in Hkb. rewrite Hsep in Hkb.
    assert (Forall (passed cmp key m) ka.1.*2) as Hp.
    { eapply (passed_bounds cmp); [exact Hkb|]. cbn. apply (Hsp a); [by rewrite list_lookup_fmap, Hsep|done]. }
    apply list_elem_of_In, list_elem_of_lookup_1 in Hin as (q & Hq).
    apply (Forall_lookup_1 _ _ q c Hp). by rewrite list_lookup_fmap, Hq.
  - unfold bound_at. destruct (seps !! i) as [sep|] eqn:Esep; [|done]. cbn. intros Hlt.
    apply (Nat.lt_irrefl i). apply (Hsp i (ent_version sep)); [by rewrite list_lookup_fmap, Esep|done].
  - rewrite <- HI. rewrite <- E at 3. rewrite kids_ids_app, kids_ids_cons. solve_Permutation.
Qed.

Lemma focus_down ns D root key m W I d id :
  focus ns D root key m W I (S d) id -> flat_in cmp None W None ->
  exists v seps, ns !! id = Some (TNonLeaf v) /\ nl_node id v seps /\ seps <> [] /\ nl_sorted bt seps /\
    forall i, splits cmp (ent_version <$> seps) key m i -> focus ns D root key m W I d (child_at v seps i).
Proof using CmpOk0.
  intros (ub & fl & ids & pre & post & out & Hfa) Hf.
  destruct (focus_step _ _ _ _ _ _ _ _ _ _ _ _ _ _ _ Hfa Hf) as (v & seps & kids & Hv & Hnl & Hne & Hs & _ & _ & _ & _ & Hgo).
  exists v, seps. split_and!; try done. intros i Hi. destruct (Hgo i Hi) as (k & _ & Hk). eexists _, _, _, _, _, _. exact Hk.
Qed.

Lemma focus_leaf ns D root key m W I id :
  focus ns D root key m W I 0 id ->
  exists n es b pre post out, ns !! id = Some (TLeaf n) /\ logical_id n = id /\ page n es /\
    located cmp key m W pre es b post /\ ctx ns D root 0 id b pre post out /\ id :: out ≡ₚ I.
Proof using Type.
  intros (ub & fl & ids & pre & post & out & [Hc Ht -> Hb Hh HI]).
  destruct Ht as (_ & _ & n & es & Hn & Hid & Hp & -> & ->). by exists n, es, ub, pre, post, out.
Qed.

Lemma focus_node ns D root key m W I d id :
  focus ns D root key m W I d id -> node_ret id = BTREE_SUCCESS /\ id <> BAD_CHILD /\ is_Some (ns !! id).
Proof using Type.
  intros (ub & fl & ids & pre & post & out & [_ Ht _ _ _ _]).
  destruct d; cbn in Ht; [destruct Ht as (? & ? & n & es & ? & _)|destruct Ht as (? & ? & v & seps & kids & ? & _)]; eauto.
Qed.

(** ** The depth of a tree *)

Lemma subtree_depth ns d : forall id ub fl ids, subtree ns d id ub fl ids -> (d < length ids)%nat.
Proof using Type.
  induction d as [|d IH]; intros id ub fl ids.
  - intros (_ & _ & n & es & _ & _ & _ & _ & ->). cbn. lia.
  - intros (_ & _ & v & seps & kids & _ & _ & _ & Hlen & _ & -> & Hk)%subtree_inv.
    destruct kids as [|k kids]; [done|]. apply kids_ok_cons in Hk as [Hk _]. apply IH in Hk.
    rewrite kids_ids_cons. cbn. rewrite length_app. lia.
Qed.

Lemma ids_bound ns d id ub fl ids : subtree ns d id ub fl ids -> NoDup ids -> (length ids <= size ns)%nat.
Proof using Type.
  intros H Hnd. destruct (subtree_ids _ _ _ _ _ _ H) as [_ Hdom].
  rewrite <- size_dom, <- (size_list_to_set (C := gset Z) ids) by done.
  apply subseteq_size. intros x Hx%elem_of_list_to_set. by apply Hdom.
Qed.

Lemma depth_bound ns d id ub fl ids : subtree ns d id ub fl ids -> NoDup ids -> (d < size ns)%nat.
Proof using Type.
  intros H Hnd. pose proof (subtree_depth _ _ _ _ _ _ H). pose proof (ids_bound _ _ _ _ _ _ H Hnd). lia.
Qed.

(** ** The descent *)

Lemma bsearch_key_ok v seps key m :
  nl_rep bt v seps -> nl_sorted bt seps ->
  exists i found, bsearch_key bt v key m BSF_LATEST = Some (n2z i, found, child_at v seps i) /\
    splits cmp (ent_version <$> seps) key m i.
Proof using Hbt CmpOk0.
  intros Hr Hs. unfold bsearch_key.
  destruct (bsearch_latest_ok (NodeView0 := non_leaf_view bt) cmp _ Hs key m v (nl_shows bt v seps Hr))
    as (i & Hi & Hsp).
  exists i, (hit cmp (ent_version <$> seps) key m i). split; [|done].
  change (nv_nkeys v) with (v_nkeys v) in Hi. rewrite Hi. runs. rewrite (nl_count bt v seps Hr).
  unfold child_at. destruct (seps !! i) as [e|] eqn:E.
  - rewrite (proj2 (Z.ltb_lt _ _)) by (apply lookup_lt_Some in E; lia). rewrite Nat2Z.id.
    by rewrite (get_key_stuff_ok bt v seps i e Hr E).
  - apply lookup_ge_None in E. by rewrite (proj2 (Z.ltb_ge _ _)) by lia.
Qed.

Lemma leaf_sorted_in W pre es b post key m :
  flat_in cmp None W None -> located cmp key m W pre es b post -> leaf_sorted bt es.
Proof using CmpOk0.
  intros Hf Hl. destruct (flat_leaf cmp key m _ _ _ _ _ _ _ Hf Hl) as (l & [Hs _ _ _] & _). exact Hs.
Qed.

(** The search ends in the leaf of the request. *)
Lemma find_loop_ok t D key m W I d : forall fuel id pc x,
  focus (t_nodes t) D (rootid t) key m W I d id -> flat_in cmp None W None ->
  get_existing_node node_ret t id = Some x -> (d < fuel)%nat ->
  exists lid n i es b pre post out,
    find_loop bt node_ret fuel t x key m pc =
      Some (inr (mk_find_result n (n2z i) (hit cmp (entry_version <$> es) key m i) (pc + n2z d))) /\
    t_nodes t !! lid = Some (TLeaf n) /\ logical_id n = lid /\ page n es /\ located cmp key m W pre es b post /\
    ctx (t_nodes t) D (rootid t) 0 lid b pre post out /\ lid :: out ≡ₚ I /\
    splits cmp (entry_version <$> es) key m i /\ node_ret lid = BTREE_SUCCESS /\ lid <> BAD_CHILD.
Proof using Hbt CmpOk0 Hpage.
  induction d as [|d IH]; intros fuel id pc x Hfo Hf Hx Hfu; (destruct fuel as [|fuel]; [lia|]);
    destruct (focus_node _ _ _ _ _ _ _ _ _ Hfo) as (Hret & Hbad & _);
    unfold get_existing_node in Hx; rewrite decide_True in Hx by done.
  - destruct (focus_leaf _ _ _ _ _ _ _ _ Hfo) as (n & es & b & pre & post & out & Hn & Hid & Hp & Hloc & Hc & HI).
    rewrite Hn in Hx. injection Hx as <-. cbn [find_loop].
    destruct (bsearch_latest_ok cmp _ (leaf_sorted_in _ _ _ _ _ _ _ Hf Hloc) key m n (leaf_shows bt n es Hbt (Hpage n es Hp)))
      as (i & Hi & Hsp).
    change (nv_nkeys n) with (nkeys n) in Hi. rewrite Hi. runs. cbn [fst snd].
    exists id, n, i, es, b, pre, post, out. by rewrite Z.add_0_r.
  - destruct (focus_down _ _ _ _ _ _ _ _ _ Hfo Hf) as (v & seps & Hv & Hnl & _ & Hns & Hgo).
    rewrite Hv in Hx. injection Hx as <-. cbn [find_loop].
    destruct (bsearch_key_ok v seps key m (nn_rep Hnl) Hns) as (i & found & -> & Hsp). runs. cbn [snd].
    specialize (Hgo i Hsp). destruct (focus_node _ _ _ _ _ _ _ _ _ Hgo) as (Hret' & Hbad' & y & Hy).
    rewrite (proj2 (Z.eqb_neq _ _) Hbad'). cbn [negb assert_]. runs.
    assert (get_existing_node node_ret t (child_at v seps i) = Some (inr y)) as Hy'.
    { unfold get_existing_node. by rewrite decide_True, Hy. }
    rewrite Hy'. runs. destruct (IH fuel _ (pc + 1) _ Hgo Hf Hy') as (lid & n & j & es & b & pre & post & out & -> & Hrest); [lia|].
    exists lid, n, j, es, b, pre, post, out. split; [|done]. do 3 f_equal. lia.
Qed.
(** What the leaf says is what the tree says. *)
Lemma answer_leaf snaps fl key m pre es b post i :
  flat_ok cmp snaps fl -> reads snaps m -> located cmp key m fl pre es b post ->
  splits cmp (entry_version <$> es) key m i ->
  answer cmp key m (entries fl) =
  if hit cmp (entry_version <$> es) key m i then es !! i else None.
Proof using CmpOk0.
  intros [Hf Hc] Hm Hloc Hsp. rewrite (answer_located cmp key m None fl None pre es b post) by auto.
  pose proof (hit_iff cmp _ (leaf_sorted_in _ _ _ _ _ _ _ Hf Hloc) key m i Hsp) as Hhit.
  destruct (hit _ _ _ _ _) eqn:Eh.
  - unfold hit in Eh. rewrite list_lookup_fmap in Eh. destruct (es !! i) as [e|] eqn:Ei; [|done]. cbn in Eh.
    rewrite <- (take_drop_middle es i e Ei), answer_app.
    assert (answer cmp key m (take i es) = None) as ->.
    { apply answer_None. intros x (j & Hj)%list_elem_of_lookup_1. apply lookup_take_Some in Hj as [Hj Hlt].
      assert (side cmp key m (entry_version x) = Lt) as ->; [|done].
      apply (proj2 Hsp j); [by rewrite list_lookup_fmap, Hj|done]. }
    unfold answer. rewrite filter_cons, decide_True by (by destruct (side _ _ _ _)). done.
  - apply answer_None. intros e (j & Hj)%list_elem_of_lookup_1 He. assert (false = true) as H; [|done]. apply Hhit.
    exists j, (entry_version e). by rewrite list_lookup_fmap, Hj.
Qed.

End tree.

Arguments nn_rep {_ _ _ _} _.
Arguments nn_seps {_ _ _ _} _.
