(* ===== verification/TreeTheorems.v ===== *)
(** * Reading through the tree *)

From stdpp Require Import gmap.
From S2P Require Import Prelude Status LeafMeta LeafNode LeafOps LeafCells LeafEncode LeafFixup LeafSpec LeafRefine LeafPlain LeafMove NodeSearch LeafTheorems NodeSearchSpec NonLeaf NonLeafSpec NodeTheorems TreeFlat PStats Overflow OverflowSpec OverflowTheorems Snapshot SnapshotSpec SnapshotTheorems Scavenger ScavengerTheorems Tree TreeSpec.

(** ** Well-formed trees *)

(** The tree of depth [d] has the leaves [fl] and the nodes [ids], and serves
    readers of the active state and of the snapshots [snaps]. *)
Record tree_ok (bt : btree_raw) (node_ret : Z -> btree_status) (page : btree_raw_node -> list entry -> Prop)
    (snaps : list Z) (t : tree) (d : nat) (fl : list fleaf) (ids : list Z) : Prop := {
  to_tree : subtree bt node_ret page (t_nodes t) d (rootid t) None fl ids;
  to_nodup : NoDup ids;
  to_flat : flat_ok (cmp_cb bt) snaps fl
}.

Arguments to_flat {_ _ _ _ _ _ _ _} _.

Section reads.
Context (bt : btree_raw) (Hbt : bt_ok bt) `{!CmpOk (cmp_cb bt)} (read_ret node_ret : Z -> btree_status)
  (page : btree_raw_node -> list entry -> Prop) (Hpage : forall n es, page n es -> leaf_rep bt n es)
  (snaps : list Z).

(** The descent of a search, with the path to the leaf it ends in. *)
Lemma find_path t d fl ids key m fd pc :
  tree_ok bt node_ret page snaps t d fl ids -> reads snaps m ->
  exists lid n i es b pre post out,
    btree_raw_find bt node_ret t key m fd pc =
      Some (inr (mk_find_result n (n2z i)
        (match es !! i with
         | Some e => hit (cmp_cb bt) (entry_version <$> es) key m i && negb (e_tomb e && negb fd)
         | None => false
         end) (pc + n2z d))) /\
    t_nodes t !! lid = Some (TLeaf n) /\ logical_id n = lid /\ page n es /\
    located (cmp_cb bt) key m fl pre es b post /\
    ctx bt node_ret page (t_nodes t) d (rootid t) 0 lid b pre post out /\ lid :: out ≡ₚ ids /\
    splits (cmp_cb bt) (entry_version <$> es) key m i /\ node_ret lid = BTREE_SUCCESS /\ lid <> BAD_CHILD.
Proof using Hbt CmpOk0 Hpage.
  intros [Ht Hnd [Hf Hc]] Hm. unfold btree_raw_find, root_get_and_lock.
  pose proof (focus_root bt node_ret page _ _ _ key m _ _ Ht) as Hfo.
  destruct (focus_node _ _ _ _ _ _ _ _ _ _ _ _ Hfo) as (Hret & Hbad & x & Hx).
  assert (get_existing_node node_ret t (rootid t) = Some (inr x)) as Hx'.
  { unfold get_existing_node. by rewrite decide_True, Hx. }
  rewrite Hx'. runs.
  destruct (find_loop_ok bt Hbt node_ret page Hpage t d key m fl ids d (S (size (t_nodes t))) _ pc _ Hfo Hf Hx')
    as (lid & n & i & es & b & pre & post & out & -> & Hn & Hid & Hp & Hrest).
  { pose proof (depth_bound bt node_ret page _ _ _ _ _ _ Ht Hnd). lia. }
  exists lid, n, i, es, b, pre, post, out. split; [|done]. runs. cbn [fr_found fr_node fr_index fr_pathcnt].
  unfold hit. rewrite list_lookup_fmap. destruct (es !! i) as [e|] eqn:Ei; cbn [fmap option_fmap option_map]; [|by runs].
  destruct (side _ _ _ _); cbn [andb]; [|by runs..].
  destruct (leaf_rep_read bt Hbt n es i e (Hpage n es Hp) Ei) as (_ & Htomb & _).
  rewrite Nat2Z.id, Htomb. by runs.
Qed.

Lemma find_ok t d fl ids key m fd pc :
  tree_ok bt node_ret page snaps t d fl ids -> reads snaps m ->
  exists n i found esl,
    btree_raw_find bt node_ret t key m fd pc = Some (inr (mk_find_result n (n2z i) found (pc + n2z d))) /\
    page n esl /\
    match answer (cmp_cb bt) key m (entries fl) with
    | Some e => esl !! i = Some e /\ found = negb (e_tomb e && negb fd)
    | None => found = false
    end.
Proof using Hbt CmpOk0 Hpage.
  intros Hok Hm. destruct (find_path t d fl ids key m fd pc Hok Hm)
    as (lid & n & i & es & b & pre & post & out & -> & Hn & Hid & Hp & Hloc & _ & _ & Hsp & _).
  rewrite (answer_leaf bt snaps fl key m pre es b post i (to_flat Hok) Hm Hloc Hsp).
  eexists n, i, _, es. split; [done|]. split; [done|].
  destruct (hit _ _ _ _ _) eqn:Eh; [|by case_match].
  unfold hit in Eh. rewrite list_lookup_fmap in Eh. by destruct (es !! i).
Qed.

(** What a snapshot read answers is what the snapshot sees. *)
Lemma answer_visible es key s :
  visible (cmp_cb bt) es key s =
  match answer (cmp_cb bt) key (at_snapshot s) es with
  | Some e => if e_tomb e then None else Some e
  | None => None
  end.
Proof using Type.
  unfold visible, answer. erewrite list_filter_iff; [done|]. intros e. cbn beta. rewrite side_at. unfold answers. cbn.
  destruct (Z.eqb_spec (cmp_cb bt key (e_key e)) 0).
  - destruct (Z.leb_spec (e_seqno e) s); cbn; split; intros H'; try done; lia.
  - case_if; split; intros H'; try done; lia.
Qed.

(** The result of a read that finds [a]. *)
Definition outcome (content : entry -> list byte) (a : option entry) : btree_status * option (list byte) :=
  match a with
  | Some e => if e_tomb e then (BTREE_KEY_NOT_FOUND, None) else (BTREE_SUCCESS, Some (content e))
  | None => (BTREE_KEY_NOT_FOUND, None)
  end.

Lemma get_ok t d fl ids key m content :
  tree_ok bt node_ret page snaps t d fl ids -> reads snaps m ->
  Forall (fun e => object bt read_ret (t_ov t) e (content e)) (entries fl) ->
  exists t', btree_raw_get bt read_ret node_ret t key m false false false =
    Some (t', (outcome content (answer (cmp_cb bt) key m (entries fl))).1,
              (outcome content (answer (cmp_cb bt) key m (entries fl))).2) /\
    t_nodes t' = t_nodes t /\ rootid t' = rootid t /\ ov_nodes (t_ov t') = ov_nodes (t_ov t).
Proof using Hbt CmpOk0 Hpage.
  intros Hok Hm Hobj. unfold btree_raw_get.
  destruct (find_ok t d fl ids key m false 1 Hok Hm) as (n & i & found & esl & -> & Hp & Hans). runs.
  cbn [fr_found fr_node fr_index fr_pathcnt]. destruct (answer _ key m _) as [e|] eqn:Ea.
  - destruct Hans as [Hi ->]. rewrite andb_true_r. unfold outcome. destruct (e_tomb e); cbn [negb].
    + runs. rewrite decide_False by done. by exists t.
    + rewrite Nat2Z.id. apply answer_Some in Ea as [(k & Hk)%list_elem_of_lookup_1 _].
      destruct (get_object bt read_ret Hbt n esl i e (t_ov t) (content e) (Hpage n esl Hp) Hi) as (c & ->).
      * apply (Forall_at Hobj Hk).
      * runs. rewrite decide_True by done. by eexists.
  - subst found. runs. rewrite decide_False by done. by exists t.
Qed.
End reads.

(** the descent from the root ends in the leaf that decides the request:
    whether a requested version exists anywhere in the tree is decided there,
    the index is that of the newest one, and tombstones count as absent except
    for a forced delete. The path length is the depth of the tree. This holds
    for the active state and every snapshot, although separators are only
    upper bounds of the entries left of them. *)
Theorem tree_find_correct bt node_ret snaps t d fl ids key m fd pc :
  bt_ok bt -> CmpOk (cmp_cb bt) -> tree_ok bt node_ret (leaf_rep bt) snaps t d fl ids -> reads snaps m ->
  exists n i found esl,
    btree_raw_find bt node_ret t key m fd pc = Some (inr (mk_find_result n (n2z i) found (pc + n2z d))) /\
    leaf_rep bt n esl /\
    match answer (cmp_cb bt) key m (entries fl) with
    | Some e => esl !! i = Some e /\ found = negb (e_tomb e && negb fd)
    | None => found = false
    end.
Proof. intros Hbt Hcmp. by apply find_ok. Qed.

(** a read through a snapshot returns exactly the object the snapshot
    sees: the newest version not newer than the snapshot among all entries of
    the tree, in full with its overflow data, and not-found when there is none
    or it is a tombstone; the tree is not changed. *)
Theorem tree_snapshot_get bt read_ret node_ret snaps t d fl ids key s content :
  bt_ok bt -> CmpOk (cmp_cb bt) -> tree_ok bt node_ret (leaf_rep bt) snaps t d fl ids -> s ∈ snaps ->
  Forall (fun e => object bt read_ret (t_ov t) e (content e)) (entries fl) ->
  exists t', btree_raw_get bt read_ret node_ret t key (at_snapshot s) false false false =
    Some (match visible (cmp_cb bt) (entries fl) key s with
          | Some e => (t', BTREE_SUCCESS, Some (content e))
          | None => (t', BTREE_KEY_NOT_FOUND, None)
          end) /\
    t_nodes t' = t_nodes t /\ rootid t' = rootid t /\ ov_nodes (t_ov t') = ov_nodes (t_ov t).
Proof.
  intros Hbt Hcmp Hok Hs Hobj.
  destruct (get_ok bt Hbt read_ret node_ret (leaf_rep bt) (fun _ _ H => H) snaps t d fl ids key (at_snapshot s) content Hok)
    as (t' & -> & Hk); [by right; exists s|done|].
  exists t'. split; [|done]. rewrite (answer_visible bt (entries fl) key s). unfold outcome.
  destruct (answer _ _ _ _) as [e|]; [|done]. by destruct (e_tomb e).
Qed.

(** A tree of two leaves; a separator lies between them. *)
Definition es_l : list entry := [entry_ab Byte.x31 7; entry_ab Byte.x32 8].
Definition es_r : list entry := [entry_ab Byte.x33 9].
Definition fl_ab : list fleaf := [(es_l, Some (key_ab Byte.x32, 8)); (es_r, None)].

Definition leaf_page (id : Z) (es : list entry) : btree_raw_node :=
  let n := page_of (full_cell <$> es) in mk_btree_raw_node LEAF_NODE 0 id 0 BAD_CHILD (headers n) (area n).
Definition stat0 : btree_stat -> Z := fun _ => 0.
Definition nodes_ab : gmap Z tnode :=
  <[5 := TNonLeaf (nl_page (bt_8k true) [mk_nent (key_ab Byte.x32) 11 8] 12)]>
    (<[11 := TLeaf (leaf_page 11 es_l)]> (<[12 := TLeaf (leaf_page 12 es_r)]> ∅)).
Definition tree_ab : tree :=
  mk_tree 5 nodes_ab st_two (mk_scav_stats 0 0) stat0 [inr 21; inr 22; inr 23] (mk_storage 5 nodes_ab (ov_nodes st_two)).

Abbreviation ret_ok := (fun _ : Z => BTREE_SUCCESS).

Lemma leaf_page_plain id es : Forall (entry_ok (bt_8k true)) es -> entries_size (bt_8k true) es <= 8056 ->
  leaf_plain (bt_8k true) (leaf_page id es) es.
Proof. intros Hes Hsz. split; [apply page_of_layout|done|done]. Qed.

Lemma fl_ab_ok : flat_ok default_cmp_cb [8] fl_ab.
Proof.
  split.
  - split; [|split; [|done]].
    + split.
      * intros [|[|i]] [|[|j]] v w Hij Hi Hj; try lia; try done. injection Hi as <-. injection Hj as <-. left. by vm_compute.
      * done.
      * intros e [->|[->|He]%elem_of_cons]%elem_of_cons; [left; by vm_compute|right; split; [by vm_compute|cbn; lia]|].
        by apply not_elem_of_nil in He.
      * done.
    + split.
      * intros [|i] [|j] v w Hij Hi Hj; try lia; done.
      * intros e ->%list_elem_of_singleton. left. by vm_compute.
      * done.
      * done.
  - intros key m Hm. split; [|split; [|done]].
    + intros Hb (e & He & Heq). rewrite entries_cons, app_nil_r in He. apply list_elem_of_singleton in He as ->.
      destruct Hb. apply (side_key_lt default_cmp_cb key m _ (entry_version (entry_ab Byte.x33 9))); [by vm_compute|done].
    + intros _ (e & He & _). by apply not_elem_of_nil in He.
Qed.

Lemma tree_ab_ok page :
  (forall id es, Forall (entry_ok (bt_8k true)) es -> entries_size (bt_8k true) es <= 8056 -> page (leaf_page id es) es) ->
  tree_ok (bt_8k true) ret_ok page [8] tree_ab 1 fl_ab [5; 11; 12].
Proof.
  intros Hpage. split.
  - cbn. split_and!; [done|done|]. eexists _, [mk_nent (key_ab Byte.x32) 11 8], [([(es_l, Some (key_ab Byte.x32, 8))], [11]); ([(es_r, None)], [12])].
    split_and!; try done.
    + split; [done| |by repeat constructor]. split; [done|done|by repeat constructor|by vm_compute].
    + intros [|[|i]] k Hk; [..|done]; injection Hk as <-; (split_and!; [done|done|]); eexists _, _;
        (split; [done|]); (split_and!; [done| |done|done]); apply Hpage; try (by vm_compute).
      * unfold es_l. by repeat (constructor; [by apply entry_ab_ok|]).
      * unfold es_r. by repeat (constructor; [by apply entry_ab_ok|]).
  - apply (bool_decide_unpack _). by vm_compute.
  - apply fl_ab_ok.
Qed.

Lemma tree_ab_rep : tree_ok (bt_8k true) ret_ok (leaf_rep (bt_8k true)) [8] tree_ab 1 fl_ab [5; 11; 12].
Proof. apply tree_ab_ok. intros id es Hes Hsz. apply (plain_rep _ (bt_8k_ok true)). by apply leaf_page_plain. Qed.

Lemma tree_find_correct_witness :
  exists n i found esl,
    btree_raw_find (bt_8k true) ret_ok tree_ab (key_ab Byte.x33) None false 1
      = Some (inr (mk_find_result n (n2z i) found (1 + n2z 1))) /\
    leaf_rep (bt_8k true) n esl /\ esl !! i = Some (entry_ab Byte.x33 9) /\ found = true.
Proof.
  apply (tree_find_correct (bt_8k true) ret_ok [8] tree_ab 1 fl_ab [5; 11; 12] (key_ab Byte.x33) None false 1).
  - apply bt_8k_ok.
  - apply default_cmp_ok.
  - apply tree_ab_rep.
  - by left.
Defined.

Lemma tree_snapshot_get_witness :
  exists t', btree_raw_get (bt_8k true) ret_ok ret_ok tree_ab (key_ab Byte.x32) (at_snapshot 8) false false false
      = Some (t', BTREE_SUCCESS, Some [Byte.x32; Byte.x32]) /\
    t_nodes t' = t_nodes tree_ab /\ rootid t' = rootid tree_ab /\ ov_nodes (t_ov t') = ov_nodes (t_ov tree_ab).
Proof.
  apply (tree_snapshot_get (bt_8k true) ret_ok ret_ok [8] tree_ab 1 fl_ab [5; 11; 12] (key_ab Byte.x32) 8 e_data).
  - apply bt_8k_ok.
  - apply default_cmp_ok.
  - apply tree_ab_rep.
  - left.
  - repeat constructor; by vm_compute.
Defined.
