(* ===== verification/TreeWrite.v ===== *)
(** * Writing and deleting an object (btree/btree_raw.c)

    A write descends from the root to the leaf of its key and splits every
    full node on its way, scavenges the leaf and puts the object there; the
    modified nodes are flushed at the end. A delete writes a tombstone. The
    model is of requests for one object ([btree_raw_write], and
    [btree_raw_delete] without FORCE_DELETE), one at a time: with one object
    [get_adjusted_num_objs] returns at once and the bulk path is not taken,
    and no other request changes the tree between an unlock and a relock. *)

From stdpp Require Import gmap.
From S2P Require Import Prelude Status LeafMeta LeafNode LeafOps NodeSearch NonLeaf PStats Overflow Snapshot Scavenger Tree.

Inductive write_type := W_UPDATE | W_CREATE | W_SET.

#[export] Instance write_type_eq_dec : EqDecision write_type.
Proof. solve_decision. Defined.

Definition set_lnext (n : btree_raw_node) (id : Z) : btree_raw_node :=
  mk_btree_raw_node (nflags n) (level n) (logical_id n) id (rightmost n) (headers n) (area n).

(** ** Nodes *)

(** A new, empty node. *)
Definition new_leaf (id lvl : Z) : btree_raw_node := mk_btree_raw_node LEAF_NODE lvl id 0 BAD_CHILD [] [].
Definition new_vnode (id : Z) : vnode := mk_vnode id 0 BAD_CHILD [] [].

Definition get_new_tree_node (t : tree) (mk : Z -> tnode) : tree * (btree_status + Z) :=
  match t_supply t with
  | [] => (t, inl BTREE_FAILURE)
  | inl e :: s => (set_tsupply t s, inl e)
  | inr id :: s =>
      let x := mk id in
      let t := put_node (set_tsupply t s) id x in
      (match x with
       | TLeaf _ => set_ov (add_stat t BTSTAT_LEAF_NODES 1) (add_leaf_stats (t_ov t) 0 SIZEOF_BTREE_RAW_NODE)
       | TNonLeaf _ => add_stat (add_stat t BTSTAT_NONLEAF_NODES 1) BTSTAT_NONLEAF_BYTES SIZEOF_BTREE_RAW_NODE
       end, inr id)
  end.

Definition is_root (t : tree) (id : Z) : bool := id =? rootid t.

(** The child to follow ([BAD_CHILD] at a leaf), the index, and whether the
    key was found; a non-leaf node always reports success. *)
Definition find_key (bt : btree_raw) (t : tree) (x : tnode) (key : list byte) : option (Z * Z * bool) :=
  match x with
  | TLeaf n => r ← btree_leaf_find_key bt n key None; Some (BAD_CHILD, r.1, r.2)
  | TNonLeaf v =>
      ci ← find_key_non_leaf bt (is_root t (v_logical_id v)) v key None;
      _ ← assert_ (negb (child_id ci =? BAD_CHILD));
      Some (child_id ci, nkey_child ci, true)
  end.

Definition is_node_full (bt : btree_raw) (x : tnode) (key : list byte) (datalen : Z)
    (tomb key_exists : bool) (index : Z) : option bool :=
  match x with
  | TLeaf n => btree_leaf_is_full_index bt n key datalen tomb key_exists (z2n index)
  | TNonLeaf v => Some (is_full_insert bt v)
  end.

(** ** Splitting *)

(** A new root above the old one. *)
Definition split_root (t : tree) : tree * option Z :=
  match get_new_tree_node t (fun id => TNonLeaf (new_vnode id)) with
  | (t', inl _) => (t', None)
  | (t', inr id) =>
      (set_root (put_node t' id (TNonLeaf (set_rightmost (new_vnode id) (rootid t)))) id, Some id)
  end.

(** Divide the contents of a node over itself and the new node [new]: the
    tree, the nodes, and the separator with its sequence number. *)
Definition split_node (bt : btree_raw) (t : tree) (c : tnode) (new : Z)
    : option (tree * tnode * tnode * list byte * Z) :=
  match c with
  | TLeaf n =>
      r ← btree_leaf_split bt n (new_leaf new (level n)) 0;
      Some (set_ov t (add_leaf_stats (t_ov t) (- sr_bytes_increased r) (sr_bytes_increased r)),
            TLeaf (set_lnext (sr_from r) new), TLeaf (set_lnext (sr_to r) (next n)), sr_key r, sr_seqno r)
  | TNonLeaf v =>
      r ← split_copy bt v (new_vnode new) 0;
      let '(from, to, ks) := r in
      Some (t, TNonLeaf (set_vnext from new), TNonLeaf (set_vnext to (v_next v)), s_key ks, s_seqno ks)
  end.

(** The parent after the split of its child number [child_nkey]: the record
    of the child now leads to the new node, and a new record with the
    separator leads to the child. *)
Definition link_split (bt : btree_raw) (t : tree) (p : vnode) (child_nkey child new : Z)
    (key : list byte) (seqno_ : Z) : option vnode :=
  _ ← assert_ (negb (child_nkey =? -1));
  _ ← assert_ (negb (v_rightmost p =? 0));
  p1 ← (if child_nkey =? v_nkeys p then Some (set_rightmost p new) else update_ptr p (z2n child_nkey) new);
  p2 ← insert_key bt (is_root t (v_logical_id p1)) p1 key seqno_ child;
  _ ← assert_ (negb (v_rightmost p2 =? 0));
  Some p2.

Section write.
Context (bt : btree_raw) (read_ret node_ret : Z -> btree_status) (m : btree_snap_meta).

(** The rest of the environment of a request: whether the scavenger may work
    on a leaf ([astats_done]), whether the per-thread tables have room for a
    number of nodes, the application's callback that may veto an update, the
    number the sequence number allocator returns next, what flushing the
    modified nodes returns, and the bit found behind the header array of a
    leaf where the code looks for a tombstone one entry too far. *)
Context (astats_done : bool) (is_nodes_available : Z -> bool)
  (mput_cmp_cb : option (list byte -> list byte -> list byte -> Z))
  (seqno_alloc : Z) (write_ret : btree_status) (stale : bool).

(** Split the child [child] of [parent] until the key fits the part it belongs
    to. Each split leaves that part with fewer entries. The result is the
    node the key belongs to and the last new node. *)
Fixpoint btree_msplit_loop (fuel : nat) (t : tree) (parent child : Z) (new_key : list byte) (datalen : Z)
    (tomb : bool) (child_nkey : Z) (new_node : Z) : option (tree * btree_status * Z * Z) :=
  match fuel with
  | O => None
  | S fuel =>
      c ← t_nodes t !! child;
      p ← t_nodes t !! parent;
      p ← match p with TNonLeaf p => Some p | TLeaf _ => None end;
      full ← match c with
             | TLeaf n =>
                 new_split_key ← btree_leaf_find_split_idx bt n;
                 _ ← btree_leaf_get_nth_key_info2 n new_split_key;
                 Some (is_full_insert bt p)
             | TNonLeaf _ => Some false
             end;
      if (full : bool) then Some (t, BTREE_PARENT_FULL_FOR_SPLIT, child, new_node)
      else if negb (is_nodes_available 2) then Some (t, BTREE_NO_NODE_REFS, child, new_node)
      else
        match get_new_tree_node t (fun id => match c with
                                             | TLeaf n => TLeaf (new_leaf id (level n))
                                             | TNonLeaf _ => TNonLeaf (new_vnode id)
                                             end) with
        | (t, inl _) => Some (t, BTREE_FAILURE, child, new_node)
        | (t, inr new) =>
            s ← split_node bt t c new;
            let '(t, from, to, key, seqno_) := s in
            p ← link_split bt t p child_nkey child new key seqno_;
            let t := put_node (put_node (put_node t child from) new to) parent (TNonLeaf p) in
            match from with
            | TNonLeaf _ => Some (t, BTREE_SUCCESS, child, new)
            | TLeaf n =>
                last ← btree_leaf_get_nth_key_info2 n (z2n (nkeys n - 1));
                let '(child, child_nkey) := if 0 <? cmp_cb bt new_key (ki_key last) then (new, child_nkey + 1)
                                            else (child, child_nkey) in
                c ← t_nodes t !! child;
                n ← match c with TLeaf n => Some n | TNonLeaf _ => None end;
                f ← btree_leaf_find_key2 bt n new_key None;
                full ← is_node_full bt c new_key datalen tomb f.2 f.1;
                if (full : bool) then btree_msplit_loop fuel t parent child new_key datalen tomb child_nkey new
                else Some (t, BTREE_SUCCESS, child, new)
            end
        end
  end.

Definition btree_msplit_child (t : tree) (parent child : Z) (new_key : list byte) (datalen : Z) (tomb : bool)
    (child_nkey : Z) : option (tree * btree_status * Z * Z) :=
  btree_msplit_loop (S (z2n (nodesize_less_hdr bt))) (add_stat t BTSTAT_SPLITS 1) parent child new_key datalen tomb
    child_nkey BAD_CHILD.

(** ** The leaf *)

Definition is_leaf_key_active (n : btree_raw_node) (index : Z) : option bool :=
  ks ← get_key_stuff_leaf2 n index;
  s ← btree_snap_find_meta_index m (ks_seqno ks);
  Some (s =? -1).

(** Is the write an update in place? Not when a tombstone is written, and not
    when the version found belongs to a snapshot. *)
Definition is_update_of (x : tnode) (found tomb : bool) (index : Z) : option bool :=
  match x with
  | TLeaf n =>
      if found then
        if tomb then Some false else is_leaf_key_active n index
      else Some false
  | TNonLeaf _ => Some found
  end.

Definition scavenge_node (t : tree) (n : btree_raw_node) : option (tree * btree_raw_node * Z) :=
  if astats_done then
    r ← scavenge_node_all_keys bt read_ret m (t_ov t) n (t_scav t);
    let '(st, n, stats, cnt) := r in
    Some (set_scav (set_ov t st) stats, n, cnt)
  else Some (t, n, 0).

(** The data of entry [index], without flags. A chain that ends early gives
    no data and the status of the last read. *)
Definition get_leaf_data_index (st : ov_state) (n : btree_raw_node) (index : nat)
    : option (ov_state * btree_status * option (list byte)) :=
  ki ← btree_leaf_get_nth_key_info2 n index;
  if big_object_kd bt (ki_keylen ki) (ki_datalen ki) then
    if 0 <? ki_datalen ki then
      let tmp_rem := btree_get_bigobj_inleaf bt (ki_keylen ki) (ki_datalen ki) in
      head ← (if tmp_rem =? 0 then Some []
              else d ← btree_leaf_get_data_nth_key n index; read_bytes d.1 0 (z2n tmp_rem));
      r ← read_chain bt read_ret (S (z2n (ki_datalen ki))) st (ki_ptr ki) (ki_datalen ki - tmp_rem) head BTREE_SUCCESS;
      let '(st, buf, nbytes, z_next, ret2) := r in
      if negb (nbytes =? 0) then Some (st, ret2, None)
      else
        _ ← assert_ (z_next =? 0);
        Some (st, BTREE_SUCCESS, Some buf)
    else Some (st, BTREE_SUCCESS, Some [])
  else
    d ← btree_leaf_get_data_nth_key n index;
    _ ← assert_ (ki_datalen ki =? d.2);
    buf ← read_bytes d.1 0 (z2n d.2);
    Some (st, BTREE_SUCCESS, Some buf).

(** Does the application allow the write? The old data is handed to its
    callback. *)
Definition mput_update_allowed (st : ov_state) (n : btree_raw_node) (key data : list byte) (index : nat)
    (key_exists : bool) : option (ov_state * bool * btree_status) :=
  match mput_cmp_cb with
  | None => Some (st, true, BTREE_SUCCESS)
  | Some cb =>
      r ← (if key_exists then
             ki ← btree_leaf_get_nth_key_info2 n index;
             if big_object_kd bt (lenZ key) (ki_datalen ki) then get_leaf_data_index st n index
             else
               d ← btree_leaf_get_data_nth_key n index;
               _ ← assert_ (d.2 =? ki_datalen ki);
               old ← read_bytes d.1 0 (z2n d.2);
               Some (st, BTREE_SUCCESS, Some old)
           else Some (st, BTREE_SUCCESS, Some []));
      let '(st, ret, old) := r in
      if decide (ret = BTREE_SUCCESS) then
        old ← old;
        Some (st, cb key old data =? 1, BTREE_SUCCESS)
      else Some (st, false, ret)
  end.

Definition pstats_update (f : pstats_env -> zs_pstats_delta -> pstats_env * zs_pstats_delta) (st : ov_state) : ov_state :=
  let '(e, p) := f (ov_env st) (ov_pstats st) in
  mk_ov_state (ov_nodes st) (ov_cached st) (deleted_nodes st) (deleted_ovnodes_id st) (ov_supply st)
    (BTSTAT_OVERFLOW_NODES st) (BTSTAT_OVERFLOW_BYTES st) (BTSTAT_LEAF_BYTES st)
    (BTSTAT_SPCOPT_BYTES_SAVED st) e p.

(** Put one object at [index], where the search found its place: the status,
    whether it counts as written, and the number of objects the container
    gained. *)
Definition btree_insert_keys_leaf (t : tree) (n : btree_raw_node) (w : write_type) (key data : list byte)
    (use_seqno : option Z) (tomb : bool) (index : Z) (key_exists is_update : bool)
    : option (tree * btree_raw_node * btree_status * bool * Z) :=
  let i := z2n index in
  km ← (if key_exists then btree_leaf_get_meta n i else Some key_meta_zero);
  key_exists ← (if key_exists then tb ← btree_leaf_is_key_tombstoned n i; Some (negb tb) else Some false);
  if (bool_decide (w = W_UPDATE) && negb key_exists) || (bool_decide (w = W_CREATE) && key_exists)
  then Some (t, n, BTREE_KEY_NOT_FOUND, false, 0)
  else
    a ← (if tomb || default stale (eh_tombstone <$> headers n !! i) then Some (t_ov t, true, BTREE_SUCCESS)
         else mput_update_allowed (t_ov t) n key data i key_exists);
    let '(st, allowed, ret) := a in
    let t := set_ov t st in
    if negb allowed then
      Some (t, n, ret, bool_decide (ret = BTREE_SUCCESS), 0)
    else
      let ovdatasize := get_data_in_overflownode bt in
      let required_nodes := 1
        + (if big_object_size bt <=? lenZ key + lenZ data then lenZ data / ovdatasize + 1 else 0)
        + (if key_exists && (big_object_size bt <=? keylen km + datalen km) then datalen km / ovdatasize + 1 else 0) in
      let seqno_ := match use_seqno with Some s => s | None => seqno_alloc end in
      if negb (is_nodes_available required_nodes) then Some (t, n, BTREE_OBJECT_TOO_BIG, false, 0)
      else if seqno_ =? 2 ^ 64 - 1 then Some (t, n, BTREE_FAILURE, false, 0)
      else
        in_snap ← (if key_exists then btree_snap_seqno_in_snap m (seqno km) else Some false);
        r ← btree_leaf_insert_low bt read_ret st n key data seqno_ tomb i is_update;
        let '(st, n, res, ret) := r in
        let t := set_ov t st in
        let '(t, new_inserts) :=
          if negb key_exists then (add_stat t BTSTAT_NUM_OBJS 1, 1)
          else if negb is_update then
            let t := if (in_snap : bool) then
                       set_ov (set_scav t (mk_scav_stats (u64 (BTSTAT_NUM_SNAP_OBJS (t_scav t) + 1))
                                             (u64 (BTSTAT_SNAP_DATA_SIZE (t_scav t) + datalen km))))
                         (pstats_update (fun e p => set_node_snapobjs_pstats e p 1 (datalen km) true) (t_ov t))
                     else t in
            let t := if tomb then
                       set_ov (add_stat t BTSTAT_NUM_OBJS (-1))
                         (pstats_update (fun e p => set_node_pstats e p 1 false) (t_ov t))
                     else t in
            (t, 0)
          else (t, 0) in
        Some (t, n, ret, bool_decide (ret = BTREE_SUCCESS), new_inserts).

(** ** The descent of a write *)

(** How a descent ends: at the leaf [leaf] with the outcome of the search
    there; with the parent too full for the split of its child, when the
    write starts over; or with an error. *)
Inductive descent :=
  | DLeaf (t : tree) (leaf : Z) (found : bool) (index : Z) (is_update : bool) (pathcnt : Z)
  | DRestart (t : tree) (parent_write_locked split_pending : bool) (pathcnt : Z)
  | DError (t : tree) (e : btree_status) (pathcnt : Z).

(** The end of a split: the descent is over, or goes on below a half of the
    node. *)
Inductive split_next :=
  | SDone (r : descent)
  | SDown (t : tree) (child parent nkey_child : Z) (parent_write_locked : bool) (pathcnt : Z).

(** Split the full node [child], the root after a new root was put above it,
    and follow the key into the part it belongs to. *)
Definition mwrite_split (t : tree) (child : Z) (leaf : bool) (parent : option Z) (parent_nkey_child : Z)
    (parent_write_locked split_pending : bool) (pathcnt : Z) (key : list byte) (datalen : Z) (tomb is_update : bool)
    : option split_next :=
  let '(t, parent, parent_nkey_child, parent_write_locked) :=
    if is_root t child then let '(t, p) := split_root t in (t, p, 0, true)
    else (t, parent, parent_nkey_child, parent_write_locked) in
  match parent with
  | None => _ ← assert_ (is_root t child); Some (SDone (DError t BTREE_FAILURE pathcnt))
  | Some parent =>
      r ← btree_msplit_child t parent child key datalen tomb parent_nkey_child;
      let '(t, ret, mem_node, new_node) := r in
      match ret with
      | BTREE_PARENT_FULL_FOR_SPLIT => Some (SDone (DRestart t parent_write_locked split_pending pathcnt))
      | BTREE_NO_NODE_REFS => None
      | BTREE_SUCCESS =>
          p ← t_nodes t !! parent;
          f ← find_key bt t p key;
          let child_id := f.1.1 in
          _ ← assert_ (negb (child_id =? BAD_CHILD));
          _ ← assert_ ((mem_node =? child_id) || negb leaf);
          let mem_node := if mem_node =? child_id then mem_node else new_node in
          y ← t_nodes t !! mem_node;
          f ← find_key bt t y key;
          let '(child_id, nkey_child, key_found) := f in
          if child_id =? BAD_CHILD then
            _ ← assert_ leaf;
            Some (SDone (DLeaf t mem_node key_found nkey_child is_update pathcnt))
          else Some (SDown t child_id mem_node nkey_child parent_write_locked (pathcnt + 1))
      | e => Some (SDone (DError t e pathcnt))
      end
  end.

(** At node [child], reached from [parent] through its child number
    [parent_nkey_child]. A full node is visited twice, the second time with
    the write lock ([split_pending]), and split then. Every other iteration
    goes down one level. *)
Fixpoint mwrite_descend (fuel : nat) (t : tree) (child : Z) (parent : option Z) (parent_nkey_child : Z)
    (parent_write_locked split_pending : bool) (pathcnt : Z) (key : list byte) (datalen : Z) (tomb : bool)
    : option descent :=
  match fuel with
  | O => None
  | S fuel =>
      x ← get_existing_node node_ret t child;
      match x with
      | inl e => Some (DError t e pathcnt)
      | inr x =>
          let pathcnt := pathcnt + 1 in
          let leaf := match x with TLeaf _ => true | TNonLeaf _ => false end in
          f ← find_key bt t x key;
          let '(child_id, nkey_child, key_found) := f in
          is_update ← is_update_of x key_found tomb nkey_child;
          full ← is_node_full bt x key datalen tomb is_update nkey_child;
          if negb (full : bool) then
            if child_id =? BAD_CHILD then
              _ ← assert_ leaf;
              Some (DLeaf t child key_found nkey_child is_update pathcnt)
            else mwrite_descend fuel t child_id (Some child) nkey_child (leaf || split_pending) false pathcnt key datalen tomb
          else if negb split_pending && (negb leaf || (bool_decide (is_Some parent) && negb parent_write_locked)) then
            mwrite_descend fuel t child parent parent_nkey_child
              (bool_decide (is_Some parent) || parent_write_locked) true pathcnt key datalen tomb
          else
            s ← mwrite_split t child leaf parent parent_nkey_child parent_write_locked split_pending pathcnt
                  key datalen tomb is_update;
            match s with
            | SDone r => Some r
            | SDown t child parent nkey_child parent_write_locked pathcnt =>
                mwrite_descend fuel t child (Some parent) nkey_child parent_write_locked false pathcnt key datalen tomb
            end
      end
  end.

(** ** Flushing *)

(** The modified nodes become the stored ones and the deleted nodes go. *)
Definition commit (t : tree) : tree :=
  let st := t_ov t in
  let gone := list_to_set (deleted_nodes st ++ deleted_ovnodes_id st) : gset Z in
  let ns := filter (fun x => x.1 ∉ gone) (ov_nodes st) in
  let st := mk_ov_state ns (ov_cached st ∖ gone) [] [] (ov_supply st)
              (BTSTAT_OVERFLOW_NODES st) (BTSTAT_OVERFLOW_BYTES st) (BTSTAT_LEAF_BYTES st)
              (BTSTAT_SPCOPT_BYTES_SAVED st) (ov_env st) (reset_node_pstats (ov_pstats st)) in
  mk_tree (rootid t) (t_nodes t) st (t_scav t) (t_stat t) (t_supply t)
    (mk_storage (rootid t) (t_nodes t) ns).

(** The modified nodes are dropped from the cache and the root id is set
    back. The list [deleted_ovnodes_id] is not cleared. *)
Definition btree_io_error_cleanup (t : tree) : tree :=
  let st := t_ov t in
  let s := t_stored t in
  let cached := (ov_cached st ∖ list_to_set (deleted_nodes st)) ∩ dom (s_ov_nodes s) in
  let st := mk_ov_state (s_ov_nodes s) cached [] (deleted_ovnodes_id st) (ov_supply st)
              (BTSTAT_OVERFLOW_NODES st) (BTSTAT_OVERFLOW_BYTES st) (BTSTAT_LEAF_BYTES st)
              (BTSTAT_SPCOPT_BYTES_SAVED st) (ov_env st) (reset_node_pstats (ov_pstats st)) in
  mk_tree (s_rootid s) (s_nodes s) st (t_scav t) (t_stat t) (t_supply t) s.

Definition deref_l1cache (t : tree) : tree * btree_status :=
  if decide (write_ret = BTREE_SUCCESS) then (commit t, BTREE_SUCCESS)
  else (btree_io_error_cleanup t, write_ret).

(** ** Requests *)

(** What happens at the leaf: scavenge, look again if entries went, insert,
    flush. *)
Definition mwrite_leaf (t : tree) (leaf : Z) (w : write_type) (key data : list byte) (use_seqno : option Z)
    (tomb key_found : bool) (index : Z) (is_update : bool) : option (tree * btree_status * bool) :=
  x ← t_nodes t !! leaf;
  n ← match x with TLeaf n => Some n | TNonLeaf _ => None end;
  s ← scavenge_node t n;
  let '(t, n, cnt) := s in
  f ← (if cnt =? 0 then Some (index, key_found)
       else btree_leaf_find_key bt n key None);
  let '(index, key_found) := f in
  let is_update := if cnt =? 0 then is_update else is_update && key_found in
  key_found ← (if (key_found : bool) then tb ← btree_leaf_is_key_tombstoned n (z2n index); Some (negb tb)
               else Some false);
  r ← btree_insert_keys_leaf t n w key data use_seqno tomb index key_found is_update;
  let '(t, n, ret, written, new_inserts) := r in
  let t := set_ov t (pstats_update (fun e p => set_node_pstats e p new_inserts true) (t_ov t)) in
  let t := put_node t leaf (TLeaf n) in
  let ret := if decide (ret = BTREE_OBJECT_TOO_BIG) then BTREE_SUCCESS else ret in
  let '(t, ret1) := deref_l1cache t in
  Some (t, if decide (ret1 = BTREE_SUCCESS) then ret else ret1, written).

(** The passes of a write: a pass that ends with a full parent flushes what
    it did and starts over at the root. Such a pass has split the leaf of the
    key, which bounds the number of passes. *)
Fixpoint mwrite_passes (fuel : nat) (t : tree) (parent_write_locked split_pending : bool) (pathcnt : Z)
    (w : write_type) (key data : list byte) (use_seqno : option Z) (tomb : bool)
    : option (tree * btree_status * bool * Z) :=
  match fuel with
  | O => None
  | S fuel =>
      d ← mwrite_descend (2 * S (size (t_nodes t))) t (rootid t) None (-1) parent_write_locked split_pending pathcnt
            key (lenZ data) tomb;
      match d with
      | DError t e pathcnt => Some (btree_io_error_cleanup t, e, false, pathcnt)
      | DRestart t pwl sp pathcnt =>
          match deref_l1cache t with
          | (t, BTREE_SUCCESS) => mwrite_passes fuel t pwl sp pathcnt w key data use_seqno tomb
          | (t, e) => Some (btree_io_error_cleanup t, e, false, pathcnt)
          end
      | DLeaf t leaf found index is_update pathcnt =>
          r ← mwrite_leaf t leaf w key data use_seqno tomb found index is_update;
          Some (r.1.1, r.1.2, r.2, pathcnt)
      end
  end.

Definition btree_raw_mwrite_low (t : tree) (pathcnt : Z) (w : write_type) (key data : list byte)
    (use_seqno : option Z) (tomb : bool) : option (tree * btree_status * bool * Z) :=
  mwrite_passes (S (z2n (nodesize_less_hdr bt))) t false false pathcnt w key data use_seqno tomb.

(** The loop over the objects, for one object: it is tried again as long as
    the write succeeds without writing it. *)
Fixpoint btree_raw_mput_recursive (fuel : nat) (t : tree) (pathcnt : Z) (w : write_type) (key data : list byte)
    (use_seqno : option Z) (tomb : bool) : option (tree * btree_status * bool * Z) :=
  match fuel with
  | O => None
  | S fuel =>
      r ← btree_raw_mwrite_low t pathcnt w key data use_seqno tomb;
      let '(t, ret, written, pathcnt) := r in
      if bool_decide (ret = BTREE_SUCCESS) && negb written
      then btree_raw_mput_recursive fuel t pathcnt w key data use_seqno tomb
      else Some (t, ret, written, pathcnt)
  end.

Definition ZS_WRITE_MUST_NOT_EXIST : Z := 1.
Definition ZS_WRITE_MUST_EXIST : Z := 2.

Definition btree_raw_mput (fuel : nat) (t : tree) (flags : Z) (key data : list byte) (use_seqno : option Z)
    (tomb : bool) : option (tree * btree_status) :=
  let w := if negb (Z.land flags ZS_WRITE_MUST_NOT_EXIST =? 0) then W_CREATE
           else if negb (Z.land flags ZS_WRITE_MUST_EXIST =? 0) then W_UPDATE else W_SET in
  r ← btree_raw_mput_recursive fuel t 0 w key data use_seqno tomb;
  let '(t, ret, written, pathcnt) := r in
  let t := if decide (ret = BTREE_SUCCESS) then
             let '(cnt, path) := match w with
                                 | W_CREATE => (BTSTAT_CREATE_CNT, BTSTAT_CREATE_PATH)
                                 | W_SET => (BTSTAT_SET_CNT, BTSTAT_SET_PATH)
                                 | W_UPDATE => (BTSTAT_UPDATE_CNT, BTSTAT_UPDATE_PATH)
                                 end in
             add_stat (add_stat t cnt (Z.b2z written)) path pathcnt
           else t in
  Some (t, ret).

Definition btree_raw_write (fuel : nat) (t : tree) (key data : list byte) (use_seqno : option Z) (tomb : bool)
    (flags : Z) : option (tree * btree_status) :=
  btree_raw_mput fuel t flags key data use_seqno tomb.

(** ** Deletion *)

(** Write the tombstone into the leaf of the key, when it fits. *)
Definition insert_tombstone_optimized (t : tree) (leaf : Z) (n : btree_raw_node) (index : Z) (key : list byte)
    : option (tree * bool) :=
  full ← is_node_full bt (TLeaf n) key 0 true false index;
  if (full : bool) then Some (t, false)
  else
    s ← scavenge_node t n;
    let '(t, n, cnt) := s in
    index ← (if cnt =? 0 then Some index
             else r ← bsearch_key_low (cmp_cb bt) n key None (-1) (nkeys n) BSF_LATEST; Some r.1);
    r ← btree_insert_keys_leaf t n W_SET key [] None true index true false;
    let '(t, n, ret, written, _) := r in
    Some (put_node t leaf (TLeaf n), bool_decide (ret = BTREE_SUCCESS) && written).

Definition insert_tombstone_unoptimized (fuel : nat) (t : tree) (key : list byte) : option (tree * btree_status) :=
  btree_raw_write fuel t key [] None true 4.

(** A delete without FORCE_DELETE always writes a tombstone. *)
Definition btree_raw_delete (fuel : nat) (t : tree) (key : list byte) : option (tree * btree_status) :=
  let t := add_stat t BTSTAT_DELETE_CNT 1 in
  f ← btree_raw_find bt node_ret t key None false 0;
  match f with
  | inl e => Some (t, e)
  | inr f =>
      if fr_found f then
        r ← insert_tombstone_optimized t (logical_id (fr_node f)) (fr_node f) (fr_index f) key;
        let '(t, done) := r in
        if (done : bool) then Some (deref_l1cache t)
        else insert_tombstone_unoptimized fuel t key
      else Some (t, BTREE_KEY_NOT_FOUND)
  end.
End write.
