(* ===== verification/TreeEdit.v ===== *)
(** * Splitting a node below its parent

    The split of a child changes three nodes: the child keeps the left part,
    a new node gets the right part, and the parent gets a separator between
    them. [open_at] is a tree opened at a parent and one of its children;
    a split leads to a tree opened at the part the request belongs to. *)

From stdpp Require Import gmap.
From S2P Require Import Prelude Status LeafMeta LeafNode LeafOps LeafCells LeafEncode LeafFixup LeafSpec LeafRefine LeafPlain LeafMove NodeSearch LeafTheorems NodeSearchSpec NonLeaf NonLeafSpec NodeTheorems TreeFlat PStats Overflow OverflowSpec OverflowTheorems Snapshot Scavenger Tree TreeSpec TreeWrite.

(** The limits of [btree_raw_init]: a page holds at least four entries, leaf
    or non-leaf, and the default page format. *)
Record wconf (bt : btree_raw) : Prop := {
  wc_ok : bt_ok bt;
  wc_plain : space_op_disabled bt = true;
  wc_leaf : 4 * (big_object_size bt + MAX_META_SIZE) <= nodesize_less_hdr bt;
  wc_key : 4 * (SIZEOF_NODE_VKEY + max_key_size bt) <= nodesize_less_hdr bt
}.

(** ** The parent *)

Section parent.
Context (bt : btree_raw) (Hbt : bt_ok bt) `{!CmpOk (cmp_cb bt)}.
Abbreviation cmp := (cmp_cb bt).

Definition with_ptr (id : Z) (e : nent) : nent := mk_nent (n_key e) id (n_seqno e).

Lemma with_ptr_version id e : ent_version (with_ptr id e) = ent_version e.
Proof using Type. done. Qed.

Lemma alter_versions id i (seps : list nent) : ent_version <$> alter (with_ptr id) i seps = ent_version <$> seps.
Proof using Type. revert i; induction seps as [|e seps IH]; intros [|i]; cbn; [done..|]. f_equal. apply IH. Qed.

Lemma alter_keys id i (seps : list nent) : n_key <$> alter (with_ptr id) i seps = n_key <$> seps.
Proof using Type. revert i; induction seps as [|e seps IH]; intros [|i]; cbn; [done..|]. f_equal. apply IH. Qed.

Lemma key_recs_alter id i : forall pos (seps : list nent) e, seps !! i = Some e ->
  key_recs pos (alter (with_ptr id) i seps) =
  <[i := mk_node_vkey (lenZ (n_key e)) (pos - key_bytes (take (S i) seps)) id (n_seqno e)]> (key_recs pos seps).
Proof using Type.
  induction i as [|i IH]; intros pos [|x seps] e He; try done.
  - injection He as ->. cbn. rewrite key_bytes_cons. change (key_bytes []) with 0. by rewrite Z.add_0_r.
  - change (alter (with_ptr id) (S i) (x :: seps)) with (x :: alter (with_ptr id) i seps).
    change (take (S (S i)) (x :: seps)) with (x :: take (S i) seps).
    cbn [key_recs]. rewrite (IH _ seps e He), key_bytes_cons. cbn. do 3 f_equal. lia.
Qed.

Lemma alter_sep_lookup id i (seps : list nent) j :
  alter (with_ptr id) i seps !! j = (if decide (i = j) then with_ptr id <$> seps !! j else seps !! j).
Proof using Type. case_decide as H; [subst; apply list_lookup_alter_eq|by apply list_lookup_alter_ne]. Qed.

Lemma alter_ge {A} (f : A -> A) i l : (length l <= i)%nat -> alter f i l = l.
Proof using Type. revert i; induction l as [|x l IH]; intros [|i] H; cbn in *; [done|done|lia|]. f_equal. apply IH. lia. Qed.

Lemma update_ptr_ok v seps i e id :
  nl_rep bt v seps -> seps !! i = Some e ->
  exists v', update_ptr v i id = Some v' /\ nl_rep bt v' (alter (with_ptr id) i seps) /\
    v_rightmost v' = v_rightmost v /\ v_logical_id v' = v_logical_id v.
Proof using Type.
  intros [Hk Ha Hne Hf] He. unfold update_ptr. rewrite Hk, (key_recs_lookup _ _ _ _ He). runs.
  eexists. split; [done|]. cbn [vk_keylen vk_keypos vk_seqno]. split_and!; try done.
  assert (key_area (alter (with_ptr id) i seps) = key_area seps) as Hka by (unfold key_area; by rewrite alter_keys).
  split; cbn [vkeys varea set_vkeys].
  - symmetry. by apply key_recs_alter.
  - by rewrite Hka.
  - apply Forall_lookup_2. intros j x Hx. rewrite alter_sep_lookup in Hx. case_decide.
    + destruct (seps !! j) as [y|] eqn:Ey; [|done]. injection Hx as <-. apply (Forall_at Hne Ey).
    + apply (Forall_at Hne Hx).
  - unfold key_bytes in *. by rewrite Hka, length_alter.
Qed.

Lemma splits_unique kl key m i j : splits cmp kl key m i -> splits cmp kl key m j -> i = j.
Proof using Type.
  assert (forall i j, splits cmp kl key m i -> splits cmp kl key m j -> ~ (i < j)%nat) as H.
  { intros a b [Ha1 Ha2] [Hb1 Hb2] Hlt. destruct (lookup_lt_is_Some_2 kl a) as [v Hv]; [lia|].
    assert (side cmp key m v = Lt) as Hs by (by apply (Hb2 a)). apply (Ha2 a) in Hs; [lia|done]. }
  intros Hi Hj. pose proof (H i j Hi Hj). pose proof (H j i Hj Hi). lia.
Qed.

Lemma free_room v seps (key : list byte) :
  nl_rep bt v seps -> lenZ key <= max_key_size bt -> is_full_insert bt v = false ->
  SIZEOF_NODE_VKEY + lenZ key <= vnode_bytes_free bt v.
Proof using Hbt.
  intros Hr Hmax Hfull. unfold is_full_insert in Hfull. b2p. rewrite u32_small in Hfull; [lia|].
  rewrite (nl_free bt Hbt v seps Hr). pose proof (node_small bt Hbt). destruct Hr as [_ _ _ Hf].
  pose proof (key_bytes_nonneg seps). unfold SIZEOF_BTREE_RAW_NODE, SIZEOF_NODE_VKEY in *. lia.
Qed.

(** A separator goes between its neighbours. *)
Definition between (seps : list nent) (i : nat) (k : version) : Prop :=
  (i <= length seps)%nat /\
  forall j e, seps !! j = Some e -> if decide (j < i)%nat then ordered cmp (ent_version e) k else ordered cmp k (ent_version e).

Lemma between_splits seps i key q :
  between seps i (key, q) -> 0 < q < 2 ^ 64 -> splits cmp (ent_version <$> seps) key (Some (older_than q)) i.
Proof using CmpOk0.
  intros [Hi Hb] Hq. split; [by rewrite length_fmap|]. intros j v Hj. rewrite list_lookup_fmap in Hj.
  destruct (seps !! j) as [e|] eqn:Ej; [|done]. injection Hj as <-. specialize (Hb j e Ej). cbn in Hb.
  pose proof (cmp_antisym key (n_key e)) as Has.
  rewrite !side_code; unfold older_than, seqno_cmp_range. cbn. rewrite u64_small by lia.
  case_decide as Hd; unfold ordered in Hb; cbn in Hb; (split; [intros Hj|intros Hs]); try done.
  - destruct (Z.eqb_spec (cmp key (n_key e)) 0).
    + rewrite (proj2 (Z.leb_gt _ _)) by lia. done.
    + by rewrite (proj2 (Z.ltb_ge _ _)) by lia.
  - exfalso. revert Hs. destruct (Z.eqb_spec (cmp key (n_key e)) 0).
    + by rewrite (proj2 (Z.leb_le _ _)) by lia.
    + by rewrite (proj2 (Z.ltb_lt _ _)) by lia.
Qed.

Lemma insert_key_between v seps i (key : list byte) q ptr_ root :
  nl_rep bt v seps -> nl_sorted bt seps -> between seps i (key, q) -> key <> [] ->
  lenZ key <= max_key_size bt -> 0 < q < 2 ^ 64 -> is_full_insert bt v = false ->
  exists v', insert_key bt root v key q ptr_ = Some v' /\
    nl_rep bt v' (take i seps ++ mk_nent key ptr_ q :: drop i seps) /\
    v_rightmost v' = v_rightmost v /\ v_logical_id v' = v_logical_id v.
Proof using Hbt CmpOk0.
  intros Hr Hs Hb Hk Hmax Hq Hfull. pose proof (free_room v seps key Hr Hmax Hfull) as Hroom.
  unfold insert_key. destruct (decide (seps = [])) as [->|Hne].
  - destruct Hb as [Hi _]. assert (i = 0%nat) as -> by (cbn in Hi; lia).
    unfold find_key_non_leaf. rewrite (nl_count bt v [] Hr). cbn [length Z.eqb].
    destruct (insert_key_at bt Hbt v [] 0 key q ptr_ root None Hr) as (v' & Hv' & Hr' & Hrm & _ & Hid); [done..|].
    exists v'. split_and!; try done. by destruct (_ && root); exact Hv'.
  - destruct (find_key_ok bt Hbt v seps key (Some (older_than q)) root Hr Hs Hne) as (j & Hsp & ->). runs. cbn [pk_insert].
    pose proof (splits_unique _ _ _ _ _ Hsp (between_splits seps i key q Hb Hq)) as ->.
    destruct (insert_key_at bt Hbt v seps i key q ptr_ root _ Hr (proj1 Hb) Hk eq_refl Hroom)
      as (v' & -> & Hr' & Hrm & _ & Hid). by exists v'.
Qed.

(** The separators after the split of child [i]. *)
Definition seps_split (seps : list nent) (i : nat) (key : list byte) (q child new : Z) : list nent :=
  take i seps ++ mk_nent key child q :: drop i (alter (with_ptr new) i seps).

Lemma is_full_insert_ok v seps :
  nl_rep bt v seps ->
  is_full_insert bt v =
  (nodesize bt - SIZEOF_BTREE_RAW_NODE - lenZ seps * SIZEOF_NODE_VKEY - key_bytes seps <? SIZEOF_NODE_VKEY + max_key_size bt).
Proof using Hbt.
  intros Hr. unfold is_full_insert. rewrite (nl_free bt Hbt v seps Hr). pose proof (node_small bt Hbt).
  destruct Hr as [_ _ _ Hf]. pose proof (key_bytes_nonneg seps).
  unfold SIZEOF_BTREE_RAW_NODE, SIZEOF_NODE_VKEY in *. rewrite u32_small by lia. done.
Qed.

Lemma seps_split_lookup seps i key q child new j :
  (i <= length seps)%nat ->
  seps_split seps i key q child new !! j =
  if decide (j < i)%nat then seps !! j
  else if decide (j = i) then Some (mk_nent key child q)
  else alter (with_ptr new) i seps !! (j - 1)%nat.
Proof using Type.
  intros Hi. unfold seps_split. assert (length (take i seps) = i) as Hl by (rewrite length_take; lia).
  case_decide; [by rewrite lookup_app_l, lookup_take_lt by lia|]. rewrite lookup_app_r, Hl by lia.
  case_decide as Hj; [subst; by rewrite Nat.sub_diag|].
  rewrite lookup_cons_ne_0, lookup_drop by lia. f_equal; lia.
Qed.

Lemma length_seps_split seps i key q child new : length (seps_split seps i key q child new) = S (length seps).
Proof using Type.
  unfold seps_split. rewrite length_app, length_take. cbn [length]. rewrite length_drop, length_alter. lia.
Qed.

Lemma child_split v p' seps i key q child new j :
  (i <= length seps)%nat -> (j <= S (length seps))%nat -> v_rightmost p' = (if decide (i = length seps) then new else v_rightmost v) ->
  child_at p' (seps_split seps i key q child new) j =
  if decide (j < i)%nat then child_at v seps j
  else if decide (j = i) then child
  else if decide (j = S i) then new else child_at v seps (j - 1)%nat.
Proof using Type.
  intros Hi Hj Hr. unfold child_at. rewrite seps_split_lookup by done. destruct (decide (j < i)%nat) as [H1|H1].
  { destruct (lookup_lt_is_Some_2 seps j) as [e He]; [lia|]. by rewrite He. }
  destruct (decide (j = i)) as [H2|H2]; [done|]. rewrite alter_sep_lookup.
  destruct (decide (i = j - 1)%nat) as [H3|H3]; destruct (decide (j = S i)) as [H4|H4]; try lia.
  - destruct (seps !! (j - 1)%nat) eqn:E; [done|]. apply lookup_ge_None in E. cbn. by rewrite Hr, decide_True by lia.
  - destruct (seps !! (j - 1)%nat) eqn:E; [done|]. apply lookup_ge_None in E. by rewrite Hr, decide_False by lia.
Qed.

Lemma bound_split seps ub i key q child new j :
  (i <= length seps)%nat ->
  bound_at (seps_split seps i key q child new) ub j =
  if decide (j < i)%nat then bound_at seps ub j
  else if decide (j = i) then Some (key, q) else bound_at seps ub (j - 1)%nat.
Proof using Type.
  intros Hi. unfold bound_at. rewrite seps_split_lookup by done. case_decide as H1; [done|].
  case_decide as H2; [done|]. rewrite alter_sep_lookup. case_decide; [|done]. by destruct (seps !! _).
Qed.

Lemma link_split_ok t pid v seps i child new key q :
  nl_node bt pid v seps -> nl_sorted bt seps -> between seps i (key, q) -> key <> [] ->
  lenZ key <= max_key_size bt -> 0 < q < 2 ^ 64 -> is_full_insert bt v = false ->
  v_rightmost v <> BAD_CHILD -> new <> BAD_CHILD ->
  exists p', link_split bt t v (n2z i) child new key q = Some p' /\
    nl_node bt pid p' (seps_split seps i key q child new) /\
    v_rightmost p' = (if decide (i = length seps) then new else v_rightmost v).
Proof using Hbt CmpOk0.
  intros [Hid Hr Hsp] Hs Hb Hk Hmax Hq Hfull Hrm Hnew. pose proof (proj1 Hb) as Hi. unfold link_split.
  rewrite !assert_true by (apply negb_true_iff, Z.eqb_neq; (done || lia)). runs.
  assert (exists p1, (if n2z i =? v_nkeys v then Some (set_rightmost v new) else update_ptr v (z2n (n2z i)) new) = Some p1 /\
    nl_rep bt p1 (alter (with_ptr new) i seps) /\ v_logical_id p1 = pid /\
    v_rightmost p1 = (if decide (i = length seps) then new else v_rightmost v)) as (p1 & -> & Hr1 & Hid1 & Hrm1).
  { rewrite (nl_count bt v seps Hr), Nat2Z.id. destruct (Z.eqb_spec (n2z i) (lenZ seps)) as [He|He].
    - rewrite decide_True by lia. eexists. split; [done|]. split_and!; [|done|done].
      assert (alter (with_ptr new) i seps = seps) as -> by (apply alter_ge; lia). by destruct Hr.
    - rewrite decide_False by lia. destruct (lookup_lt_is_Some_2 seps i) as [e He']; [lia|].
      destruct (update_ptr_ok v seps i e new Hr He') as (p1 & -> & Hr1 & Hrm1 & Hid1). exists p1.
      split_and!; try done. congruence. }
  runs.
  assert (is_full_insert bt p1 = false) as Hfull1.
  { rewrite (is_full_insert_ok p1 _ Hr1). rewrite (is_full_insert_ok v _ Hr) in Hfull.
    unfold key_bytes, key_area in *. by rewrite alter_keys, length_alter. }
  assert (between (alter (with_ptr new) i seps) i (key, q)) as Hb1.
  { split; [by rewrite length_alter|]. intros j e Hj. rewrite alter_sep_lookup in Hj. destruct Hb as [_ Hb].
    case_decide; [|by apply (Hb j)]. destruct (seps !! j) as [x|] eqn:Ex; [|done]. injection Hj as <-.
    exact (Hb j x Ex). }
  destruct (insert_key_between p1 _ i key q child (is_root t (v_logical_id p1)) Hr1) as (p2 & -> & Hr2 & Hrm2 & Hid2);
    try done.
  { unfold nl_sorted. by rewrite alter_versions. }
  runs. rewrite assert_true by (rewrite Hrm2, Hrm1; apply negb_true_iff, Z.eqb_neq; by case_decide). runs.
  exists p2. split; [done|]. split; [|congruence]. split; [congruence| |].
  - unfold seps_split. rewrite take_alter_ge in Hr2 by done. exact Hr2.
  - unfold seps_split. apply Forall_app. split; [by apply Forall_take|]. constructor; [done|]. apply Forall_drop.
    apply Forall_lookup_2. intros j e Hj. rewrite alter_sep_lookup in Hj. case_decide.
    + destruct (seps !! j) as [x|] eqn:Ex; [|done]. injection Hj as <-. apply (Forall_at Hsp Ex).
    + apply (Forall_at Hsp Hj).
Qed.
End parent.

(** ** Opened trees *)

Section open.
Context (bt : btree_raw) (Hbt : bt_ok bt) `{!CmpOk (cmp_cb bt)} (node_ret : Z -> btree_status)
  (page : btree_raw_node -> list entry -> Prop).
Abbreviation cmp := (cmp_cb bt).
Abbreviation subtree := (subtree bt node_ret page).
Abbreviation kids_ok := (kids_ok bt node_ret page).
Abbreviation ctx := (ctx bt node_ret page).

(** The tree opened at node [pid] and its child [cid], the one the request
    for the newest version of [key] goes to. The parent may be a new root
    that has no separator yet. *)
Record open_at (ns : gmap Z tnode) (D : nat) (root : Z) (key : list byte) (W : list fleaf) (I : list Z)
    (d : nat) (pid : Z) (pub : option version) (v : vnode) (seps : list nent) (kl kr : list kid)
    (pre post : list fleaf) (out : list Z) (cid : Z) (fl : list fleaf) (ids : list Z) : Prop := {
  oa_ctx : ctx ns D root (S d) pid pub pre post out;
  oa_ret : node_ret pid = BTREE_SUCCESS;
  oa_bad : pid <> BAD_CHILD;
  oa_node : ns !! pid = Some (TNonLeaf v);
  oa_rep : nl_node bt pid v seps;
  oa_len : (length kl + length kr)%nat = length seps;
  oa_left : kids_ok ns d v seps pub 0 kl;
  oa_right : kids_ok ns d v seps pub (S (length kl)) kr;
  oa_child : cid = child_at v seps (length kl);
  oa_tree : subtree ns d cid (bound_at seps pub (length kl)) fl ids;
  oa_leaves : W = pre ++ kids_flat kl ++ fl ++ kids_flat kr ++ post;
  oa_before : Forall (passed cmp key None) (pre ++ kids_flat kl).*2;
  oa_here : ~ passed cmp key None (bound_at seps pub (length kl));
  oa_ids : ids ++ pid :: kids_ids kl ++ kids_ids kr ++ out ≡ₚ I
}.

#[local] Arguments oa_len {_ _ _ _ _ _ _ _ _ _ _ _ _ _ _ _ _ _ _} _.
#[local] Arguments oa_tree {_ _ _ _ _ _ _ _ _ _ _ _ _ _ _ _ _ _ _} _.

Section opened.
Context ns D root key W I d pid pub v seps kl kr pre post out cid fl ids
  (Ho : open_at ns D root key W I d pid pub v seps kl kr pre post out cid fl ids)
  (Hf : flat_in cmp None W None).

Lemma open_kids : kids_ok ns d v seps pub 0 (kl ++ (fl, ids) :: kr).
Proof using Ho.
  destruct Ho. apply kids_ok_app. split; [done|]. apply kids_ok_cons. rewrite Nat.add_0_l. cbn. by subst cid.
Qed.

Lemma open_child_node : node_ret cid = BTREE_SUCCESS /\ cid <> BAD_CHILD /\ cid ∈ ids.
Proof using Ho.
  pose proof (oa_tree Ho) as Ht. split_and!.
  - destruct d; apply Ht.
  - destruct d; apply Ht.
  - apply (subtree_ids _ _ _ _ _ _ _ _ _ Ht).
Qed.

Lemma open_rightmost : v_rightmost v <> BAD_CHILD.
Proof using Ho.
  pose proof open_kids as Hk. destruct Ho.
  destruct (lookup_lt_is_Some_2 (kl ++ (fl, ids) :: kr) (length seps)) as [k Hl]; [rewrite length_app; cbn; lia|].
  specialize (Hk _ _ Hl). rewrite Nat.add_0_l in Hk. unfold child_at in Hk.
  rewrite (lookup_ge_None_2 seps) in Hk by lia. destruct d; apply Hk.
Qed.

(** The bounds of the child and the position of the request. *)
Lemma open_bounds :
  nl_sorted bt seps /\ splits cmp (ent_version <$> seps) key None (length kl) /\
  exists l, flat_in cmp l fl (bound_at seps pub (length kl)) /\
    (forall j e, length kl = S j -> seps !! j = Some e -> l = Some (ent_version e)) /\
    (forall fl', flat_in cmp l fl' (bound_at seps pub (length kl)) ->
       flat_in cmp None (pre ++ kids_flat kl ++ fl' ++ kids_flat kr ++ post) None).
Proof using Ho Hf CmpOk0.
  pose proof open_kids as Hk. pose proof Ho as [Hc _ _ _ _ Hlen _ _ _ Ht -> Hbe Hhe _].
  set (i := length kl) in *. assert (fl <> []) as Hfne by (by eapply subtree_ne).
  assert (length (kl ++ (fl, ids) :: kr) = S (length seps)) as Hkl by (rewrite length_app; cbn; lia).
  assert (nl_sorted bt seps) as Hs.
  { destruct (flat_zoom cmp None pre (kids_flat (kl ++ (fl, ids) :: kr)) post None) as (lo & h & Hfl & _ & _).
    - rewrite kids_flat_app, kids_flat_cons. cbn. intros E. apply app_eq_nil in E as [_ E]. by apply app_eq_nil in E as [E _].
    - rewrite kids_flat_app, kids_flat_cons. cbn. by rewrite <- !app_assoc.
    - assert (h = pub) as -> by (apply (flat_last_bound bt _ _ _ _ Hfl); by eapply kids_last).
      destruct (kids_bounds bt node_ret page _ _ _ _ _ _ 0 lo Hk) as (Hs & _); [lia|lia|done|exact Hs]. }
  split; [done|].
  destruct (flat_zoom cmp None (pre ++ kids_flat kl) fl (kids_flat kr ++ post) None) as (l & h & Hfl & Hl & Hz).
  { done. }
  { by rewrite <- !app_assoc. }
  assert (h = bound_at seps pub i) as -> by (apply (flat_last_bound bt _ _ _ _ Hfl); by eapply subtree_last).
  assert (forall j e, i = S j -> seps !! j = Some e -> list.last (pre ++ kids_flat kl).*2 = Some (Some (ent_version e))) as Hlast.
  { intros j e Hij He. destruct (snoc_of kl) as (ks & k & Ekl); [by destruct kl|].
    apply kids_ok_app in Hk as [Hk _]. unfold i in Hij. subst kl. rewrite length_app in Hij. cbn in Hij.
    apply kids_ok_app in Hk as [_ Hk]. specialize (Hk 0%nat k eq_refl). rewrite Nat.add_0_l, Nat.add_0_r in Hk.
    replace (length ks) with j in Hk by lia. unfold bound_at in Hk. rewrite He in Hk. apply subtree_last in Hk.
    rewrite kids_flat_app, kids_flat_cons, app_nil_r, !fmap_app, !last_app. by rewrite Hk. }
  split.
  - apply splits_intro; [done|exact Hs|rewrite length_fmap; lia| |].
    + intros x Hi Hx. rewrite list_lookup_fmap in Hx. destruct (seps !! (i - 1)%nat) as [e|] eqn:Ee; [|done].
      injection Hx as <-. specialize (Hlast (i - 1)%nat e ltac:(lia) Ee). rewrite last_lookup in Hlast.
      apply (Forall_at Hbe Hlast).
    + intros x Hx. rewrite list_lookup_fmap in Hx. unfold bound_at in Hhe. destruct (seps !! i) as [e|]; [|done].
      injection Hx as <-. exact Hhe.
  - exists l. split_and!; [done| |].
    + intros j e Hij He. destruct Hl as [[Hnil _]|(w & -> & Hw)]; [|specialize (Hlast j e Hij He); congruence].
      specialize (Hlast j e Hij He). by rewrite Hnil in Hlast.
    + intros fl' Hfl'. specialize (Hz fl' Hfl'). by rewrite <- !app_assoc in Hz.
Qed.

(** Back to the path of the request. *)
Lemma open_focus : seps <> [] -> focus bt node_ret page ns D root key None W I d cid.
Proof using Ho.
  intros Hne. pose proof Ho as [Hc Hr Hb Hv Hnl Hlen Hl Hrk Hcid Ht HW Hbe Hhe HI].
  rewrite Hcid in *.
  exists (bound_at seps pub (length kl)), fl, ids, (pre ++ kids_flat kl), (kids_flat kr ++ post),
    (pid :: kids_ids kl ++ kids_ids kr ++ out).
  split; try done; [by apply ctx_down|]. rewrite HW. by rewrite <- !app_assoc.
Qed.

(** Dividing the child at a new separator. *)
Context (k : version) (fl1 fl2 : list fleaf) (ids1 ids2 : list Z) (new : Z) (from to : tnode)
  (HI : NoDup I) (Hfresh : new ∉ I) (Hnew : new <> BAD_CHILD)
  (Hfull : is_full_insert bt v = false) (Hk : k.1 <> []) (Hsep : sep_ok bt (mk_nent k.1 cid k.2))
  (Hids : ids1 ++ ids2 ≡ₚ new :: ids)
  (Hflat : forall l, flat_in cmp l fl (bound_at seps pub (length kl)) ->
                     flat_in cmp l (fl1 ++ fl2) (bound_at seps pub (length kl)))
  (Hleft : subtree (<[new := to]> (<[cid := from]> ns)) d cid (Some k) fl1 ids1)
  (Hright : subtree (<[new := to]> (<[cid := from]> ns)) d new (bound_at seps pub (length kl)) fl2 ids2).

Lemma open_halves l :
  flat_in cmp l fl (bound_at seps pub (length kl)) ->
  flat_in cmp l fl1 (Some k) /\ flat_in cmp (Some k) fl2 (bound_at seps pub (length kl)).
Proof using Hflat Hleft Hright.
  intros Hfl. pose proof (Hflat l Hfl) as Hfl'. apply flat_in_app in Hfl' as (w & H1 & H2); [|by eapply subtree_ne..].
  pose proof (flat_last_bound bt _ _ _ _ H1 (subtree_last _ _ _ _ _ _ _ _ _ Hleft)) as [= ->]. done.
Qed.

Lemma open_between : between bt seps (length kl) k.
Proof using Ho Hf Hflat Hleft Hright CmpOk0.
  destruct open_bounds as (Hs & _ & l & Hfl & Hl & _). destruct (open_halves l Hfl) as [H1 H2].
  destruct (flat_entries cmp _ _ _ H1) as (_ & _ & Ha). specialize (Ha k eq_refl).
  destruct (flat_entries cmp _ _ _ H2) as (_ & _ & Hb).
  assert (forall i j x y, (i < j)%nat -> seps !! i = Some x -> seps !! j = Some y ->
    ordered cmp (ent_version x) (ent_version y)) as Hord.
  { intros i j x y Hij Hx Hy. apply (Hs i j); [done|by rewrite list_lookup_fmap, ?Hx, ?Hy..]. }
  pose proof (oa_len Ho) as Hlen. split; [lia|].
  intros j e He. case_decide as Hj.
  - destruct (lookup_lt_is_Some_2 seps (length kl - 1)) as [x Hx]; [lia|].
    rewrite (Hl (length kl - 1)%nat x) in Ha by (done || lia). cbn in Ha.
    destruct (decide (j = length kl - 1)%nat) as [->|]; [by simplify_eq|].
    apply (ordered_trans cmp _ (ent_version x)); [|done]. apply (Hord j (length kl - 1)%nat); [lia|done|done].
  - destruct (lookup_lt_is_Some_2 seps (length kl)) as [x Hx]; [apply lookup_lt_Some in He; lia|].
    unfold bound_at in Hb. rewrite Hx in Hb. specialize (Hb _ eq_refl). cbn in Hb.
    destruct (decide (j = length kl)%nat) as [->|]; [by simplify_eq|].
    apply (ordered_trans cmp _ (ent_version x)); [done|]. apply (Hord (length kl) j); [lia|done|done].
Qed.

Abbreviation seps' := (seps_split seps (length kl) k.1 k.2 cid new).

(** All kids below the changed parent. *)
Lemma split_kids ns' p' :
  v_rightmost p' = (if decide (length kl = length seps) then new else v_rightmost v) ->
  (forall x, x ∈ kids_ids kl ++ kids_ids kr -> ns' !! x = ns !! x) ->
  subtree ns' d cid (Some k) fl1 ids1 -> subtree ns' d new (bound_at seps pub (length kl)) fl2 ids2 ->
  kids_ok ns' d p' seps' pub 0 kl /\
  child_at p' seps' (length kl) = cid /\ bound_at seps' pub (length kl) = Some k /\
  child_at p' seps' (S (length kl)) = new /\ bound_at seps' pub (S (length kl)) = bound_at seps pub (length kl) /\
  kids_ok ns' d p' seps' pub (S (S (length kl))) kr.
Proof using Ho.
  intros Hrm Hfr H1 H2. pose proof Ho as [_ _ _ _ _ Hlen Hl Hr _ _ _ _ _ _].
  assert (forall j, (j <= S (length seps))%nat -> _) as Hc
    by (intros j Hj; exact (child_split v p' seps (length kl) k.1 k.2 cid new j ltac:(lia) Hj Hrm)).
  pose proof (fun j => bound_split seps pub (length kl) k.1 k.2 cid new j ltac:(lia)) as Hbd.
  split_and!.
  - intros j x Hj. pose proof (lookup_lt_Some _ _ _ Hj). rewrite Nat.add_0_l, Hc, Hbd, !decide_True by lia.
    apply (subtree_frame bt node_ret page ns); [by apply (Hl j)|]. intros y Hy. apply Hfr, elem_of_app. left.
    by eapply kids_ids_elem.
  - by rewrite Hc, decide_False, decide_True by lia.
  - rewrite Hbd, decide_False, decide_True by lia. by rewrite <- surjective_pairing.
  - by rewrite Hc, !decide_False, decide_True by lia.
  - rewrite Hbd, !decide_False by lia. f_equal. lia.
  - intros j x Hj. pose proof (lookup_lt_Some _ _ _ Hj). rewrite Hc, Hbd, !decide_False by lia.
    replace (S (S (length kl)) + j - 1)%nat with (S (length kl) + j)%nat by lia.
    apply (subtree_frame bt node_ret page ns); [by apply (Hr j)|]. intros y Hy. apply Hfr, elem_of_app. right.
    by eapply kids_ids_elem.
Qed.

Lemma open_split t :
  exists p', link_split bt t v (n2z (length kl)) cid new k.1 k.2 = Some p' /\
    let ns' := <[pid := TNonLeaf p']> (<[new := to]> (<[cid := from]> ns)) in
    let W' := pre ++ kids_flat kl ++ (fl1 ++ fl2) ++ kids_flat kr ++ post in
    flat_in cmp None W' None /\ seps' <> [] /\
    (passed cmp key None (Some k) ->
       open_at ns' D root key W' (new :: I) d pid pub p' seps' (kl ++ [(fl1, ids1)]) kr pre post out new fl2 ids2) /\
    (~ passed cmp key None (Some k) ->
       open_at ns' D root key W' (new :: I) d pid pub p' seps' kl ((fl2, ids2) :: kr) pre post out cid fl1 ids1).
Proof using Ho Hf Hbt CmpOk0 HI Hfresh Hnew Hfull Hk Hsep Hids Hflat Hleft Hright.
  destruct open_bounds as (Hs & _ & l & Hfl & _ & Hz). pose proof open_between as Hbw.
  destruct (link_split_ok bt Hbt t pid v seps (length kl) cid new k.1 k.2) as (p' & Hp' & Hnl' & Hrm);
    [apply Ho|done|by destruct k|done|apply Hsep|apply Hsep|done|by apply open_rightmost|done|].
  exists p'. split; [done|]. cbn zeta. split; [by apply Hz, Hflat|].
  split; [intros E%(f_equal length); by rewrite length_seps_split in E|].
  pose proof Ho as [Hc Hr Hb Hv Hnl Hlen Hlk Hrk Hcid Ht HW Hbe Hhe HI'].
  rewrite <- HI' in HI, Hfresh.
  destruct (subtree_ids _ _ _ _ _ _ _ _ _ Ht) as [Hcin _].
  assert (cid ∉ pid :: kids_ids kl ++ kids_ids kr ++ out) as Hcout.
  { apply list.NoDup_app in HI as (_ & HI & _). by apply HI. }
  assert (pid ∉ ids /\ pid ∉ kids_ids kl ++ kids_ids kr ++ out) as [Hpi Hpo].
  { apply list.NoDup_app in HI as (_ & HI & HI2). apply NoDup_cons_1_1 in HI2 as HI3. split; [|done].
    intros Hin. apply (HI pid Hin). left. }
  apply not_elem_of_app in Hfresh as [Hfi Hfo].
  assert (pid <> new) as Hpn by (intros ->; apply Hfo; left).
  set (ns1 := <[new := to]> (<[cid := from]> ns)) in *.
  assert (forall x, x ∈ kids_ids kl ++ kids_ids kr ++ out -> <[pid := TNonLeaf p']> ns1 !! x = ns !! x) as Hfr.
  { intros x Hx. unfold ns1. rewrite !lookup_insert_ne; [done|..].
    - intros ->. apply Hcout. by right.
    - intros ->. apply Hfo. by right.
    - intros ->. done. }
  assert (forall x, x ∈ ids1 ++ ids2 -> <[pid := TNonLeaf p']> ns1 !! x = ns1 !! x) as Hfr1.
  { intros x Hx. apply lookup_insert_ne. rewrite Hids in Hx. intros <-. apply elem_of_cons in Hx as [|]; done. }
  assert (subtree (<[pid := TNonLeaf p']> ns1) d cid (Some k) fl1 ids1) as Hleft'.
  { apply (subtree_frame bt node_ret page ns1); [done|]. intros x Hx. apply Hfr1, elem_of_app. by left. }
  assert (subtree (<[pid := TNonLeaf p']> ns1) d new (bound_at seps pub (length kl)) fl2 ids2) as Hright'.
  { apply (subtree_frame bt node_ret page ns1); [done|]. intros x Hx. apply Hfr1, elem_of_app. by right. }
  destruct (split_kids (<[pid := TNonLeaf p']> ns1) p' Hrm) as (Hk1 & Hk2 & Hk3 & Hk4 & Hk5 & Hk6); [|done|done|].
  { intros x Hx. apply Hfr. rewrite app_assoc. apply elem_of_app. by left. }
  assert (ctx (<[pid := TNonLeaf p']> ns1) D root (S d) pid pub pre post out) as Hc'.
  { apply (ctx_frame bt node_ret page ns); [done|]. intros x Hx. apply Hfr. apply elem_of_app. right. apply elem_of_app. by right. }
  assert (ids1 ++ ids2 ++ pid :: kids_ids kl ++ kids_ids kr ++ out ≡ₚ new :: I) as HP.
  { rewrite app_assoc, Hids. cbn. by rewrite HI'. }
  pose proof (length_seps_split seps (length kl) k.1 k.2 cid new) as Hls.
  split; intros Hpass.
  - assert (length (kl ++ [(fl1, ids1)]) = S (length kl)) as Hl1 by (rewrite length_app; cbn; lia).
    split; rewrite ?Hl1, ?Hk4, ?Hk5; try done.
    + by rewrite lookup_insert_eq.
    + lia.
    + apply kids_ok_app. split; [done|]. apply kids_ok_cons. rewrite Nat.add_0_l, Hk2, Hk3. by split.
    + rewrite kids_flat_app, kids_flat_cons, app_nil_r, <- !app_assoc. done.
    + rewrite kids_flat_app, kids_flat_cons, app_nil_r, app_assoc, fmap_app. apply Forall_app. split; [done|].
      apply (passed_bounds cmp key None l fl1 (Some k)); [apply (open_halves l Hfl)|done].
    + rewrite kids_ids_app, kids_ids_cons, app_nil_r, <- HP. solve_Permutation.
  - split; rewrite ?Hk2, ?Hk3; try done.
    + by rewrite lookup_insert_eq.
    + cbn [length]. lia.
    + apply kids_ok_cons. rewrite Hk4, Hk5. by split.
    + rewrite kids_flat_cons, <- !app_assoc. done.
    + rewrite kids_ids_cons, <- HP. solve_Permutation.
Qed.
End opened.

(** Opening a tree on the path of the request. *)
Lemma focus_open ns D root key W I d pid :
  focus bt node_ret page ns D root key None W I (S d) pid -> flat_in cmp None W None ->
  exists pub v seps pre post out, ns !! pid = Some (TNonLeaf v) /\ nl_node bt pid v seps /\ seps <> [] /\ nl_sorted bt seps /\
    forall i, splits cmp (ent_version <$> seps) key None i -> exists kl kr fl ids, length kl = i /\
      open_at ns D root key W I d pid pub v seps kl kr pre post out (child_at v seps i) fl ids.
Proof using CmpOk0.
  intros (ub & fl & ids & pre & post & out & Hfa) Hf.
  destruct (focus_step bt node_ret page _ _ _ _ _ _ _ _ _ _ _ _ _ _ _ Hfa Hf)
    as (v & seps & kids & Hv & Hnl & Hne & Hs & Hlen & Hk & _ & _ & Hgo).
  exists ub, v, seps, pre, post, out. split_and!; try done. intros i Hi. destruct (Hgo i Hi) as (k & Hki & [Hc Ht HW Hbe Hh HI]).
  destruct Hfa as [Hc0 Ht0 _ _ _ _]. apply subtree_inv in Ht0 as (Hr & Hb & _).
  assert (length (take i kids) = i) as Hli by (rewrite length_take; apply lookup_lt_Some in Hki; lia).
  rewrite <- (take_drop_middle kids i k Hki) in Hk. apply kids_ok_app in Hk as [Hk1 Hk2]. rewrite Hli in Hk2.
  apply kids_ok_cons in Hk2 as [_ Hk2].
  exists (take i kids), (drop (S i) kids), k.1, k.2. split; [done|]. split; rewrite ?Hli; try done.
  - rewrite length_drop. apply lookup_lt_Some in Hki. lia.
  - rewrite HW. by rewrite <- !app_assoc.
Qed.
End open.

Arguments oa_node {_ _ _ _ _ _ _ _ _ _ _ _ _ _ _ _ _ _ _ _ _ _} _.
Arguments oa_len {_ _ _ _ _ _ _ _ _ _ _ _ _ _ _ _ _ _ _ _ _ _} _.
Arguments oa_child {_ _ _ _ _ _ _ _ _ _ _ _ _ _ _ _ _ _ _ _ _ _} _.
Arguments oa_tree {_ _ _ _ _ _ _ _ _ _ _ _ _ _ _ _ _ _ _ _ _ _} _.
Arguments oa_leaves {_ _ _ _ _ _ _ _ _ _ _ _ _ _ _ _ _ _ _ _ _ _} _.
