(* ===== verification/TreeSplit.v ===== *)
(** * The splits of a write

    [btree_msplit_child] seen on the sequence of leaves: splitting a non-leaf
    node does not change it, splitting a leaf divides one element. Either way
    the tree stays well formed and the request continues in the part it
    belongs to, which is not full any more. *)

From stdpp Require Import gmap.
From S2P Require Import Prelude Status LeafMeta LeafNode LeafOps LeafCells LeafEncode LeafFixup LeafSpec LeafRefine LeafPlain LeafMove NodeSearch LeafTheorems NodeSearchSpec NonLeaf NonLeafSpec NodeTheorems TreeFlat PStats Overflow OverflowSpec OverflowTheorems Snapshot SnapshotSpec Scavenger Tree TreeSpec TreeWrite TreeEdit.

(** ** What a step leaves alone *)

(** The overflow nodes and their bookkeeping, apart from the statistics. *)
Record same_data (st st' : ov_state) : Prop := {
  sd_nodes : ov_nodes st' = ov_nodes st;
  sd_cached : ov_cached st' = ov_cached st;
  sd_deleted : deleted_nodes st' = deleted_nodes st;
  sd_deleted_ids : deleted_ovnodes_id st' = deleted_ovnodes_id st;
  sd_supply : ov_supply st' = ov_supply st
}.

Arguments sd_supply {_ _} _.

#[export] Instance same_data_preorder : PreOrder same_data.
Proof.
  split; [by split|]. intros s1 s2 s3 [A1 A2 A3 A4 A5] [B1 B2 B3 B4 B5]. split; congruence.
Qed.

(** A step on the nodes of the tree: new nodes come from the supply. *)
Record tree_step (t t' : tree) : Prop := {
  ts_ov : same_data (t_ov t) (t_ov t');
  ts_stored : t_stored t' = t_stored t;
  ts_supply : suffix (t_supply t') (t_supply t)
}.

Arguments ts_ov {_ _} _.
Arguments ts_stored {_ _} _.
Arguments ts_supply {_ _} _.

#[export] Instance tree_step_preorder : PreOrder tree_step.
Proof.
  split; [by split|]. intros t1 t2 t3 [A1 A2 A3] [B1 B2 B3]. split; [by etrans|congruence|by etrans].
Qed.

(** Allocations failed between two states: an error came or the supply ran
    out. *)
Definition alloc_failed (t t' : tree) : Prop := t_supply t' = [] \/ exists e, inl e ∈ t_supply t.

Lemma alloc_failed_suffix t t1 t2 : suffix (t_supply t1) (t_supply t) -> alloc_failed t1 t2 -> alloc_failed t t2.
Proof.
  intros (used & E) [H|(e & H)]; [by left|right]. exists e. rewrite E. apply elem_of_app. by right.
Qed.

Lemma alloc_failed_after t t1 t2 : tree_step t t1 -> alloc_failed t1 t2 -> alloc_failed t t2.
Proof. intros [_ _ H]. by apply alloc_failed_suffix. Qed.

(** ** The supply of node ids *)

Definition supply_ids (s : list (btree_status + Z)) : list Z :=
  omap (fun x => match x with inr id => Some id | inl _ => None end) s.

(** The ids that will be handed out are new, different and usable. *)
Record fresh (node_ret : Z -> btree_status) (s : list (btree_status + Z)) (I : list Z) : Prop := {
  fr_nodup : NoDup (supply_ids s);
  fr_new : Forall (fun id => id ∉ I /\ id <> BAD_CHILD /\ node_ret id = BTREE_SUCCESS) (supply_ids s)
}.

Lemma fresh_perm node_ret s I I' : I ≡ₚ I' -> fresh node_ret s I -> fresh node_ret s I'.
Proof.
  intros HI [Hnd Hn]. split; [done|]. eapply Forall_impl; [|exact Hn]. intros id (H1 & H2 & H3). split_and!; [|done..].
  by rewrite <- HI.
Qed.

Lemma fresh_tail node_ret x s I : fresh node_ret (x :: s) I -> fresh node_ret s I.
Proof.
  intros [Hnd Hn]. destruct x as [e|id]; cbn in *; [done|].
  apply NoDup_cons_1_2 in Hnd. by apply Forall_cons_iff in Hn as [_ Hn].
Qed.

Lemma fresh_head node_ret id s I :
  fresh node_ret (inr id :: s) I ->
  id ∉ I /\ id <> BAD_CHILD /\ node_ret id = BTREE_SUCCESS /\ fresh node_ret s (id :: I).
Proof.
  intros [Hnd Hn]. cbn in *. pose proof (NoDup_cons_1_1 _ _ Hnd) as Hni. apply NoDup_cons_1_2 in Hnd. apply Forall_cons_iff in Hn as [(H1 & H2 & H3) Hn].
  split_and!; try done. split; [done|]. apply Forall_lookup_2. intros j x Hj.
  destruct (Forall_at Hn Hj) as (? & ? & ?). split_and!; try done.
  intros [->|?]%elem_of_cons; [|done]. apply Hni. by eapply list_elem_of_lookup_2.
Qed.

(** Allocating a node: it enters the store, or the allocation fails and
    nothing changes but the supply. *)
Lemma get_new_tree_node_ok node_ret t mk I :
  fresh node_ret (t_supply t) I ->
  exists t', tree_step t t' /\ rootid t' = rootid t /\
    ((exists e, get_new_tree_node t mk = (t', inl e) /\ t_nodes t' = t_nodes t /\ alloc_failed t t') \/
     (exists id, get_new_tree_node t mk = (t', inr id) /\ t_nodes t' = <[id := mk id]> (t_nodes t) /\
        id ∉ I /\ id <> BAD_CHILD /\ node_ret id = BTREE_SUCCESS /\ fresh node_ret (t_supply t') (id :: I))).
Proof.
  intros Hfr. unfold get_new_tree_node. destruct (t_supply t) as [|[e|id] s] eqn:Es.
  - exists t. split; [done|]. split; [done|]. left. eexists. split_and!; [done..|by left].
  - eexists. split; [|split; [|left; eexists; split; [done|split; [done|]]]]; try done.
    + split; [done|done|]. rewrite Es. by apply suffix_cons_r.
    + right. exists e. rewrite Es. left.
  - apply fresh_head in Hfr as (H1 & H2 & H3 & H4).
    assert (suffix s (t_supply t)) by (rewrite Es; by apply suffix_cons_r).
    destruct (mk id) as [n|v] eqn:Em; (eexists; split; [|split; [|right; exists id; split; [done|]]]);
      try (by split); try done; rewrite Em; by split_and!.
Qed.

(** ** The halves of a non-leaf node *)

Section halves.
Context (bt : btree_raw) (Hc : wconf bt).
Abbreviation U := (nodesize_less_hdr bt).

Lemma non_leaf_halves id v seps new :
  nl_node bt id v seps -> is_full_insert bt v = true ->
  exists from to k e, split_copy bt v (new_vnode new) 0 = Some (from, to, stuff_of e) /\
    seps !! k = Some e /\ (0 < k)%nat /\ (S k < length seps)%nat /\
    nl_node bt id (set_vnext from new) (take k seps) /\ nl_node bt new (set_vnext to (v_next v)) (drop (S k) seps) /\
    v_rightmost from = n_ptr e /\ v_rightmost to = v_rightmost v /\
    is_full_insert bt (set_vnext from new) = false /\ is_full_insert bt (set_vnext to (v_next v)) = false.
Proof using Hc.
  destruct Hc as [Hbt _ _ Hmax]. intros [Hid Hr Hsp] Hfull. pose proof (bt_node _ Hbt) as Hnode.
  assert (Forall (fun e => lenZ (n_key e) <= max_key_size bt) seps) as Hkeys.
  { eapply Forall_impl; [|exact Hsp]. by intros e []. }
  rewrite (is_full_insert_ok bt Hbt v seps Hr) in Hfull. b2p.
  set (th := (nodesize bt - SIZEOF_BTREE_RAW_NODE) / 2).
  destruct (split_scan_inner bt v seps Hbt Hr Hkeys) as (k & Hk & Hscan); [lia|done|]. fold th in Hscan.
  destruct (split_scan_ok bt v seps 0 th (length seps) 0 None Hr eq_refl) as (k' & Hscan' & _ & Hend & Hall).
  change (key_bytes (take 0 seps)) with 0 in Hscan'. rewrite Hscan in Hscan'. injection Hscan' as <- _.
  specialize (Hend ltac:(lia)). unfold stays in Hend. cbn [negb Z.eqb andb orb] in Hend.
  assert (forall i, (i < k)%nat -> key_bytes (take i seps) + n2z i * SIZEOF_NODE_VKEY <= th) as Hst.
  { intros i Hi. specialize (Hall i ltac:(lia)). unfold stays in Hall. cbn [negb Z.eqb andb orb] in Hall. by b2p. }
  pose proof (bt_less_hdr _ Hbt). unfold SIZEOF_BTREE_RAW_NODE, SIZEOF_NODE_VKEY in *.
  assert (2 * th <= U < 2 * th + 2) as Hth.
  { unfold th, SIZEOF_BTREE_RAW_NODE. pose proof (Z.div_mod (nodesize bt - 136) 2). pose proof (Z.mod_pos_bound (nodesize bt - 136) 2). lia. }
  assert (1 < k)%nat as Hk1.
  { destruct (decide (k = 1%nat)) as [->|]; [|lia]. exfalso.
    destruct (lookup_lt_is_Some_2 seps 0) as [e0 He0]; [lia|].
    pose proof (Forall_at Hkeys He0) as Hke. cbn beta in Hke.
    rewrite (take_S_r _ _ _ He0) in Hend. rewrite key_bytes_app, key_bytes_cons in Hend. change (key_bytes (take 0 seps)) with 0 in Hend.
    change (key_bytes []) with 0 in Hend. b2p. lia. }
  destruct (lookup_lt_is_Some_2 seps (k - 1)) as [e He]; [lia|]. rewrite He in Hscan.
  destruct (split_copy_at bt Hbt v seps (new_vnode new) k e 0 Hr Hk He Hscan)
    as (from & to & Hsc & Hf & Hrf & Ht & Hrt & _ & Hidf & _ & Hidt).
  exists from, to, (k - 1)%nat, e. replace (S (k - 1)) with k by lia.
  assert (nl_rep bt (set_vnext from new) (take (k - 1) seps)) as Hf' by (by destruct Hf).
  assert (nl_rep bt (set_vnext to (v_next v)) (drop k seps)) as Ht' by (by destruct Ht).
  rewrite (is_full_insert_ok bt Hbt _ _ Hf'), (is_full_insert_ok bt Hbt _ _ Ht').
  unfold SIZEOF_BTREE_RAW_NODE, SIZEOF_NODE_VKEY in *.
  split_and!; try done; try lia.
  - split; [by rewrite <- Hid|done|by apply Forall_take].
  - split; [exact Hidt|done|by apply Forall_drop].
  - apply Z.ltb_ge. rewrite length_take. specialize (Hst (k - 1)%nat ltac:(lia)). lia.
  - apply Z.ltb_ge. rewrite length_drop. b2p. pose proof (key_bytes_split seps k). destruct Hr as [_ _ _ Hfit].
    unfold SIZEOF_BTREE_RAW_NODE, SIZEOF_NODE_VKEY in *. lia.
Qed.
End halves.

Section split.
Context (bt : btree_raw) (Hc : wconf bt) `{!CmpOk (cmp_cb bt)} (node_ret : Z -> btree_status) (snaps : list Z) (q : Z)
  (is_nodes_available : Z -> bool) (Havail : forall k, is_nodes_available k = true).
Abbreviation cmp := (cmp_cb bt).
Abbreviation page := (leaf_plain bt).
Abbreviation subtree := (subtree bt node_ret page).
Abbreviation kids_ok := (kids_ok bt node_ret page).
Abbreviation open_at := (open_at bt node_ret page).
Abbreviation focus := (focus bt node_ret page).

(** The invariant of a tree during a write: everything in it is older than
    [q]. *)
Record inv (t : tree) (W : list fleaf) (I : list Z) : Prop := {
  in_flat : flat_ok cmp snaps W;
  in_below : flat_below q W;
  in_seq : Forall (fun e => 0 < e_seqno e) (entries W);
  in_nodup : NoDup I;
  in_fresh : fresh node_ret (t_supply t) I
}.

(** Where a non-leaf node leads the request. *)
Lemma find_key_routes t id v seps key :
  nl_node bt id v seps -> nl_sorted bt seps -> seps <> [] ->
  (forall i, splits cmp (ent_version <$> seps) key None i -> child_at v seps i <> BAD_CHILD) ->
  exists i, splits cmp (ent_version <$> seps) key None i /\
    find_key bt t (TNonLeaf v) key = Some (child_at v seps i, n2z i, true).
Proof using Hc CmpOk0.
  intros [_ Hr _] Hs Hne Hbad. destruct Hc as [Hbt _ _ _]. cbn [find_key].
  destruct (find_key_ok bt Hbt v seps key None (is_root t (v_logical_id v)) Hr Hs Hne) as (i & Hsp & ->).
  exists i. split; [done|]. runs. cbn [child_id nkey_child].
  rewrite assert_true by (by apply negb_true_iff, Z.eqb_neq, Hbad). by runs.
Qed.

(** ** Non-leaf nodes *)

Lemma child_take v from seps k e j :
  seps !! k = Some e -> v_rightmost from = n_ptr e -> (j <= k)%nat -> child_at from (take k seps) j = child_at v seps j.
Proof using Type.
  intros He Hr Hj. unfold child_at. destruct (decide (j < k)%nat).
  - by rewrite lookup_take_lt by lia; destruct (seps !! j) eqn:E; [|apply lookup_ge_None in E; apply lookup_lt_Some in He; lia].
  - assert (j = k) as -> by lia. rewrite He, lookup_ge_None_2; [done|]. rewrite length_take. lia.
Qed.

Lemma child_drop v to seps k j :
  v_rightmost to = v_rightmost v -> child_at to (drop k seps) j = child_at v seps (k + j).
Proof using Type. intros Hr. unfold child_at. rewrite lookup_drop. by case_match. Qed.

Lemma bound_take seps ub k e j :
  seps !! k = Some e -> (j <= k)%nat -> bound_at (take k seps) (Some (ent_version e)) j = bound_at seps ub j.
Proof using Type.
  intros He Hj. unfold bound_at. destruct (decide (j < k)%nat).
  - rewrite lookup_take_lt by lia. destruct (seps !! j) eqn:E; [done|]. apply lookup_ge_None in E. apply lookup_lt_Some in He. lia.
  - assert (j = k) as -> by lia. rewrite He, lookup_ge_None_2; [done|]. rewrite length_take. lia.
Qed.

Lemma bound_drop seps ub k j : bound_at (drop k seps) ub j = bound_at seps ub (k + j).
Proof using Type. unfold bound_at. by rewrite lookup_drop. Qed.

(** The two halves of a non-leaf node as trees. *)
Lemma halves_trees ns d id ub v seps kids k e new vl vr :
  node_ret id = BTREE_SUCCESS -> id <> BAD_CHILD -> node_ret new = BTREE_SUCCESS -> new <> BAD_CHILD ->
  length kids = S (length seps) -> kids_ok ns d v seps ub 0 kids ->
  seps !! k = Some e -> (0 < k)%nat -> (S k < length seps)%nat ->
  nl_node bt id vl (take k seps) -> nl_node bt new vr (drop (S k) seps) ->
  v_rightmost vl = n_ptr e -> v_rightmost vr = v_rightmost v ->
  id ∉ kids_ids kids -> new ∉ id :: kids_ids kids ->
  let ns' := <[new := TNonLeaf vr]> (<[id := TNonLeaf vl]> ns) in
  subtree ns' (S d) id (Some (ent_version e)) (kids_flat (take (S k) kids)) (id :: kids_ids (take (S k) kids)) /\
  subtree ns' (S d) new ub (kids_flat (drop (S k) kids)) (new :: kids_ids (drop (S k) kids)).
Proof using Type.
  intros Hr1 Hb1 Hr2 Hb2 Hlen Hk He Hk0 Hkl Hvl Hvr Hrl Hrr Hid Hnew ns'. pose proof (lookup_lt_Some _ _ _ He) as Hlt.
  assert (forall x, x ∈ kids_ids kids -> ns' !! x = ns !! x) as Hfr.
  { intros x Hx. unfold ns'. rewrite !lookup_insert_ne; [done|intros ->; done|intros ->]. apply Hnew. by right. }
  assert (new <> id) as Hne by (intros ->; apply Hnew; left).
  rewrite <- (take_drop (S k) kids) in Hk. apply kids_ok_app in Hk as [Hk1 Hk2].
  assert (length (take (S k) kids) = S k) as Hl1 by (rewrite length_take; lia). rewrite Nat.add_0_l, Hl1 in Hk2.
  assert (forall x, x ∈ kids_ids (take (S k) kids) \/ x ∈ kids_ids (drop (S k) kids) -> x ∈ kids_ids kids) as Hin.
  { intros x Hx. rewrite <- (take_drop (S k) kids), kids_ids_app. by apply elem_of_app. }
  split; apply subtree_S; (split_and!; [done|done|]).
  - exists vl, (take k seps), (take (S k) kids). split_and!; try done.
    + unfold ns'. by rewrite lookup_insert_ne, lookup_insert_eq.
    + intros E%(f_equal length). rewrite length_take in E. cbn in E. lia.
    + rewrite Hl1, length_take. lia.
    + intros i x Hi. rewrite Nat.add_0_l. pose proof (lookup_lt_Some _ _ _ Hi).
      rewrite (child_take v vl seps k e), (bound_take seps ub k e) by (done || lia).
      apply (subtree_frame bt node_ret page ns); [by apply (Hk1 i)|]. intros y Hy. apply Hfr, Hin. left. by eapply kids_ids_elem.
  - exists vr, (drop (S k) seps), (drop (S k) kids). split_and!; try done.
    + unfold ns'. by rewrite lookup_insert_eq.
    + intros E%(f_equal length). rewrite length_drop in E. cbn in E. lia.
    + rewrite !length_drop. lia.
    + intros i x Hi. rewrite Nat.add_0_l, (child_drop v), bound_drop by done.
      apply (subtree_frame bt node_ret page ns); [by apply (Hk2 i)|]. intros y Hy. apply Hfr, Hin. right. by eapply kids_ids_elem.
Qed.

(** The parent leads the request to the child it is opened at. *)
Lemma open_find_key t ns D root key W I d pid pub v seps kl kr pre post out cid fl ids :
  open_at ns D root key W I d pid pub v seps kl kr pre post out cid fl ids -> flat_in cmp None W None -> seps <> [] ->
  find_key bt t (TNonLeaf v) key = Some (cid, n2z (length kl), true).
Proof using Hc CmpOk0.
  intros Ho Hf Hne. destruct (open_bounds bt node_ret page _ _ _ _ _ _ _ _ _ _ _ _ _ _ _ _ _ _ _ Ho Hf) as (Hs & Hsp & _).
  pose proof (oa_child Ho) as Hcid.
  destruct (find_key_routes t pid v seps key) as (i & Hi & ->); [apply Ho|done|done| |].
  - intros i Hi. pose proof (splits_unique bt _ _ _ _ _ Hi Hsp) as ->. rewrite <- Hcid. by eapply open_child_node.
  - pose proof (splits_unique bt _ _ _ _ _ Hi Hsp) as ->. by rewrite <- Hcid.
Qed.

Lemma insert_twice {A} (m : gmap Z A) i j x y z :
  i <> j -> <[i := z]> (<[j := y]> (<[i := x]> m)) = <[i := z]> (<[j := y]> m).
Proof using Type. intros Hij. rewrite (insert_insert_ne m j i) by done. by rewrite insert_insert_eq. Qed.

Lemma msplit_nonleaf t D key W I d pid pub v seps kl kr pre post out cid fl ids cv datalen tomb :
  open_at (t_nodes t) D (rootid t) key W I (S d) pid pub v seps kl kr pre post out cid fl ids ->
  inv t W I -> is_full_insert bt v = false ->
  t_nodes t !! cid = Some (TNonLeaf cv) -> is_full_insert bt cv = true ->
  exists t' ret x y, tree_step t t' /\
    btree_msplit_child bt is_nodes_available t pid cid key datalen tomb (n2z (length kl)) = Some (t', ret, x, y) /\
    (ret = BTREE_FAILURE /\ alloc_failed t t' \/
     ret = BTREE_SUCCESS /\ x = cid /\ rootid t' = rootid t /\ inv t' W (y :: I) /\
     exists p' nid nv j, t_nodes t' !! pid = Some (TNonLeaf p') /\ find_key bt t' (TNonLeaf p') key = Some (nid, j, true) /\
       (nid = cid \/ nid = y) /\ focus (t_nodes t') D (rootid t') key None W (y :: I) (S d) nid /\
       t_nodes t' !! nid = Some (TNonLeaf nv) /\ is_full_insert bt nv = false).
Proof using Hc CmpOk0 Havail.
  intros Ho [Hfo Hq Hsq Hnd Hfr] Hvf Hcv Hcf. pose proof Hc as [Hbt _ _ _]. pose proof (fo_flat Hfo) as Hf.
  pose proof Ho as [_ _ _ Hpv _ _ _ _ _ Ht HW _ _ HI].
  pose proof Ht as (Hret & Hbad & cv' & cseps & kids & Hcv' & Hcnl & _ & Hlen & Hfl & Hids & Hk)%subtree_inv.
  assert (cv' = cv) as -> by congruence.
  unfold btree_msplit_child. cbn [btree_msplit_loop]. change (t_nodes (add_stat t BTSTAT_SPLITS 1)) with (t_nodes t).
  rewrite Hcv, Hpv. runs. rewrite Havail. cbn [negb].
  destruct (get_new_tree_node_ok node_ret (add_stat t BTSTAT_SPLITS 1) (fun id => TNonLeaf (new_vnode id)) I Hfr)
    as (t1 & Hts & Hroot & [(e & -> & _ & Haf)|(new & -> & Hn1 & Hni & Hnb & Hnr & Hfr')]).
  { eexists t1, _, _, _. split; [|split; [done|left; by split]].
    etrans; [|exact Hts]. by split. }
  change (t_nodes (add_stat t BTSTAT_SPLITS 1)) with (t_nodes t) in Hn1. change (rootid (add_stat _ _ _)) with (rootid t) in Hroot.
  destruct (non_leaf_halves bt Hc cid cv cseps new Hcnl Hcf)
    as (from & to & k & e & Hsc & He & Hk0 & Hkl & Hn2 & Hn3 & Hrf & Hrt & Hff & Hft).
  cbn [split_node]. rewrite Hsc. runs. cbn [stuff_of s_key s_seqno].
  assert (new ∉ ids /\ new <> pid) as [Hnids Hnp].
  { rewrite <- HI in Hni. apply not_elem_of_app in Hni as [? Hni]. split; [done|]. intros ->. apply Hni. left. }
  pose proof Hnd as HndI. rewrite <- HI in HndI. apply list.NoDup_app in HndI as (Hndi & Hndo & _). rewrite Hids in Hndi, Hnids, Hndo.
  assert (cid <> pid) as Hcp by (intros ->; apply (Hndo pid); left).
  pose proof (NoDup_cons_1_1 _ _ Hndi) as Hcidk.
  destruct (halves_trees (t_nodes t) d cid (bound_at seps pub (length kl)) cv cseps kids k e new
              (set_vnext from new) (set_vnext to (v_next cv))) as [HL HR]; try done.
  pose proof (Forall_at (nn_seps Hcnl) He) as Hse.
  pose proof (Forall_at (nr_nonempty _ _ _ (nn_rep Hcnl)) He) as Hke. cbn beta in Hke.
  destruct (open_split bt Hbt node_ret page (t_nodes t) D (rootid t) key W I (S d) pid pub v seps kl kr pre post out
              cid fl ids Ho Hf (ent_version e) (kids_flat (take (S k) kids)) (kids_flat (drop (S k) kids))
              (cid :: kids_ids (take (S k) kids)) (new :: kids_ids (drop (S k) kids)) new
              (TNonLeaf (set_vnext from new)) (TNonLeaf (set_vnext to (v_next cv)))) with (t := t1)
    as (p' & Hp' & Hf' & Hne' & Hgt & Hle); try done.
  { rewrite Hids. rewrite <- (take_drop (S k) kids) at 3. rewrite kids_ids_app. solve_Permutation. }
  { intros l. by rewrite <- kids_flat_app, take_drop, Hfl. }
  cbn [ent_version fst snd] in Hp'. rewrite Hp'. runs. cbn zeta in *.
  rewrite <- kids_flat_app, take_drop, <- Hfl, <- HW in Hgt, Hle, Hf'.
  match goal with |- context [Some (?t2, BTREE_SUCCESS, cid, new)] => set (t' := t2) end.
  assert (t_nodes t' = <[pid := TNonLeaf p']> (<[new := TNonLeaf (set_vnext to (v_next cv))]>
            (<[cid := TNonLeaf (set_vnext from new)]> (t_nodes t)))) as Hns.
  { unfold t'. cbn. rewrite Hn1. rewrite insert_twice; [done|]. intros ->. apply Hnids. left. }
  assert (rootid t' = rootid t) as Hroot' by exact Hroot.
  exists t', BTREE_SUCCESS, cid, new. split; [|split; [done|right]].
  { etrans; [|split; [exact (ts_ov Hts)|exact (ts_stored Hts)|exact (ts_supply Hts)]]. by split. }
  split_and!; try done.
  { split; [done|done|done|by apply NoDup_cons_2|exact Hfr']. }
  rewrite Hns, Hroot'. exists p'. destruct (decide (passed cmp key None (Some (ent_version e)))) as [Hp|Hp].
  - specialize (Hgt Hp). pose proof (open_find_key t' _ _ _ _ _ _ _ _ _ _ _ _ _ _ _ _ _ _ _ Hgt Hf' Hne') as Hfk.
    eexists new, _, _. split; [by rewrite lookup_insert_eq|]. split; [exact Hfk|]. split; [by right|].
    split; [by eapply open_focus|]. split; [|exact Hft]. rewrite lookup_insert_ne by congruence. by rewrite lookup_insert_eq.
  - specialize (Hle Hp). pose proof (open_find_key t' _ _ _ _ _ _ _ _ _ _ _ _ _ _ _ _ _ _ _ Hle Hf' Hne') as Hfk.
    eexists cid, _, _. split; [by rewrite lookup_insert_eq|]. split; [exact Hfk|]. split; [by left|].
    split; [by eapply open_focus|]. split; [|exact Hff].
    rewrite !lookup_insert_ne by (try congruence; intros ->; apply Hnids; left). by rewrite lookup_insert_eq.
Qed.
End split.

Arguments in_flat {_ _ _ _ _ _ _} _.
Arguments in_nodup {_ _ _ _ _ _ _} _.
Arguments in_fresh {_ _ _ _ _ _ _} _.
