(* ===== verification/TreeSplitLeaf.v ===== *)
(** * Splits of leaves in the tree

    First the split of a leaf until an object fits, then how even a split
    is. *)

From stdpp Require Import gmap.
From S2P Require Import Prelude Status LeafMeta LeafNode LeafOps LeafCells LeafEncode LeafFixup LeafSpec LeafRefine LeafPlain LeafMove NodeSearch LeafTheorems NodeSearchSpec NonLeaf NonLeafSpec NodeTheorems TreeFlat PStats Overflow OverflowSpec OverflowTheorems Snapshot SnapshotSpec Scavenger Tree TreeSpec TreeWrite TreeEdit TreeSplit.

(** * Splitting a leaf until an object fits *)

(** ** Room in a leaf *)

Section room.
Context (bt : btree_raw) (Hc : wconf bt).
Abbreviation U := (nodesize_less_hdr bt).

Lemma entry_size_quarter e : entry_ok bt e -> 4 * entry_size bt e <= U.
Proof using Hc.
  intros He. destruct Hc as [Hbt _ Hl _]. unfold entry_size, MAX_META_SIZE, SIZEOF_ENTRY_HEADER in *.
  pose proof (data_inleaf_bound bt (lenZ (e_key e)) (e_datalen e) Hbt) as Hd.
  pose proof (eo_big_key _ _ He). pose proof (eo_datalen _ _ He).
  assert (get_meta_type_to_size (size_type e) <= get_meta_type_to_size BTREE_KEY_META_TYPE4)
    by (destruct (size_type e); cbn; lia). lia.
Qed.

(** The object [e] fits at [i], in place of the entry there or beside it. *)
Definition fits (es : list entry) (i : nat) (e : entry) (upd : bool) : Prop :=
  if upd then exists old, es !! i = Some old /\ e_key old = e_key e /\ entries_size bt es - entry_size bt old + entry_size bt e <= U
  else entries_size bt es + entry_size bt e <= U.

Lemma leaf_full_ok n es i e tomb (upd : bool) :
  leaf_plain bt n es -> entry_ok bt e -> (i <= length es)%nat ->
  (upd = true -> exists old, es !! i = Some old /\ e_key old = e_key e) ->
  exists full, is_node_full bt (TLeaf n) (e_key e) (e_datalen e) tomb upd (n2z i) = Some full /\
    (full = false -> fits es i e upd) /\ (full = true -> (2 <= length es)%nat) /\
    (upd = false -> full = (U - entries_size bt es <? entry_size bt e)) /\
    (entries_size bt es + entry_size bt e <= U -> full = false).
Proof using Hc.
  pose proof Hc as [Hbt Hso Hl _]. intros Hp He Hi Hupd. cbn [is_node_full]. rewrite Nat2Z.id.
  pose proof (bt_less_hdr _ Hbt). pose proof (bt_big _ Hbt).
  assert (forall need, U - entries_size bt es < need -> 4 * need <= U -> (2 <= length es)%nat) as Hmany.
  { intros need Hlt Hneed. destruct es as [|x [|y es]]; cbn [length]; [cbn in Hlt; lia| |lia].
    pose proof (entry_size_quarter x (Forall_at (lp_entries Hp) (eq_refl : [x] !! 0%nat = Some x))).
    cbn in Hlt. lia. }
  destruct upd.
  - destruct (Hupd eq_refl) as (old & Hold & Hk). pose proof (plain_update_full bt n es i old e tomb Hbt Hp Hold He ltac:(done)) as Hfit.
    rewrite (plain_update_is_full bt n es i old e tomb Hbt Hp Hold He ltac:(done)) in *. eexists. split; [done|].
    split_and!; [|intros Hf|done|].
    + intros Hf. exists old. split_and!; try done. apply Hfit. by rewrite Hf.
    + b2p. apply (Hmany _ Hf). unfold MAX_META_SIZE, SIZEOF_ENTRY_HEADER in Hl. cbn [get_meta_type_to_size] in Hl.
      pose proof (data_inleaf_bound bt (lenZ (e_key e)) (e_datalen e) Hbt) as Hd1.
      pose proof (data_inleaf_bound bt (lenZ (e_key e)) (e_datalen old) Hbt) as Hd2.
      pose proof (eo_big_key _ _ He). pose proof (eo_datalen _ _ He).
      pose proof (eo_datalen _ _ (Forall_at (lp_entries Hp) Hold)).
      assert (get_meta_type_to_size (size_type e) <= 34) by (destruct (size_type e); cbn; lia). lia.
    + intros Hroom. apply Z.ltb_ge. pose proof (entry_size_pos bt e Hbt He). unfold entry_size, SIZEOF_ENTRY_HEADER in *.
      pose proof (data_inleaf_bound bt (lenZ (e_key e)) (e_datalen old) Hbt). pose proof (eo_big_key _ _ He).
      pose proof (eo_datalen _ _ (Forall_at (lp_entries Hp) Hold)). lia.
  - rewrite (plain_is_full bt Hbt Hso n es i e tomb Hp He Hi). eexists. split; [done|]. split_and!; try done.
    + intros Hf. b2p. unfold fits. lia.
    + intros Hf. b2p. apply (Hmany _ Hf). by apply entry_size_quarter.
    + intros Hroom. apply Z.ltb_ge. lia.
Qed.

(** Where the code splits a leaf, the object fits beside the entries of both
    parts. *)
Definition halves_roomy (es : list entry) (e : entry) : Prop :=
  forall n mid, leaf_plain bt n es -> btree_leaf_find_split_idx bt n = Some mid ->
    entries_size bt (take (S mid) es) + entry_size bt e <= U /\ entries_size bt (drop (S mid) es) + entry_size bt e <= U.
End room.

(** ** One split *)

Section leaf.
Context (bt : btree_raw) (Hc : wconf bt) `{!CmpOk (cmp_cb bt)} (node_ret : Z -> btree_status) (snaps : list Z) (q : Z)
  (is_nodes_available : Z -> bool) (Havail : forall k, is_nodes_available k = true).
Abbreviation cmp := (cmp_cb bt).
Abbreviation page := (leaf_plain bt).
Abbreviation subtree := (subtree bt node_ret page).
Abbreviation open_at := (open_at bt node_ret page).
Abbreviation inv := (inv bt node_ret snaps q).

(** The tree opened at the leaf [cid], whose page is [n]. *)
Record leaf_open (t : tree) (D : nat) (key : list byte) (W : list fleaf) (I : list Z) (pid : Z) (pub : option version)
    (v : vnode) (seps : list nent) (kl kr : list kid) (pre post : list fleaf) (out : list Z) (cid : Z)
    (n : btree_raw_node) (es : list entry) : Prop := {
  lo_open : open_at (t_nodes t) D (rootid t) key W I 0 pid pub v seps kl kr pre post out cid
              [(es, bound_at seps pub (length kl))] [cid];
  lo_node : t_nodes t !! cid = Some (TLeaf n);
  lo_page : page n es;
  lo_id : logical_id n = cid;
  lo_inv : inv t W I
}.

Lemma passed_gt key e : passed cmp key None (Some (entry_version e)) <-> (0 <? cmp key (e_key e)) = true.
Proof using Type.
  cbn [passed]. rewrite side_none. cbn. destruct (Z.eqb_spec (cmp key (e_key e)) 0), (Z.ltb_spec (cmp key (e_key e)) 0),
    (Z.ltb_spec 0 (cmp key (e_key e))); try done; lia.
Qed.

Lemma leaf_tree ns id ub n es :
  node_ret id = BTREE_SUCCESS -> id <> BAD_CHILD -> ns !! id = Some (TLeaf n) -> logical_id n = id -> page n es ->
  subtree ns 0 id ub [(es, ub)] [id].
Proof using Type. intros Hr Hb Hn Hid Hp. split_and!; [done|done|]. by exists n, es. Qed.

Lemma entries_leaf_split pre (es1 es2 : list entry) b1 b2 (post : list fleaf) :
  entries (pre ++ [(es1, b1); (es2, b2)] ++ post) = entries (pre ++ [(es1 ++ es2, b2)] ++ post).
Proof using Type. rewrite !entries_app. unfold entries. cbn. by rewrite !app_nil_r. Qed.

Section step.
Context t D key W I pid pub v seps kl kr pre post out cid n es
  (Ho : leaf_open t D key W I pid pub v seps kl kr pre post out cid n es)
  (Hv : is_full_insert bt v = false) (H2 : (2 <= length es)%nat)
  (t1 : tree) (new : Z) (x1 : tnode) (Hts1 : tree_step t t1) (Hroot1 : rootid t1 = rootid t)
  (Hn1 : t_nodes t1 = <[new := x1]> (t_nodes t)) (Hni : new ∉ I) (Hnb : new <> BAD_CHILD)
  (Hnr : node_ret new = BTREE_SUCCESS) (Hfr : fresh node_ret (t_supply t1) (new :: I)).

Lemma leaf_split_step :
  exists t2 n1 n2 e p' last, split_node bt t1 (TLeaf n) new = Some (t2, TLeaf n1, TLeaf n2, e_key e, e_seqno e) /\
    link_split bt t2 v (n2z (length kl)) cid new (e_key e) (e_seqno e) = Some p' /\
    btree_leaf_get_nth_key_info2 n1 (z2n (nkeys n1 - 1)) = Some last /\ ki_key last = e_key e /\
    let t' := put_node (put_node (put_node t2 cid (TLeaf n1)) new (TLeaf n2)) pid (TNonLeaf p') in
    let right := 0 <? cmp key (e_key e) in
    tree_step t t' /\ rootid t' = rootid t /\
    exists W' seps' kl' kr' n' es', entries W' = entries W /\ seps' <> [] /\ (length es' < length es)%nat /\
      (forall x, halves_roomy bt es x -> entries_size bt es' + entry_size bt x <= nodesize_less_hdr bt) /\
      length kl' = (if right then S (length kl) else length kl) /\
      leaf_open t' D key W' (new :: I) pid pub p' seps' kl' kr' pre post out (if right then new else cid) n' es'.
Proof using All.
  pose proof Hc as [Hbt Hso _ _]. destruct Ho as [Hop Hn Hp Hid [Hfo Hqb Hsq Hnd _]]. pose proof (fo_flat Hfo) as Hf.
  destruct (plain_split bt Hbt Hso n (new_leaf new (level n)) es Hp H2)
    as (mid & e & r & Hfs & Hs & Hmid & He & Hp1 & Hp2 & Hk & Hq & _ & Hf1 & Hf2).
  pose proof (Forall_at (lp_entries Hp) He) as Heok.
  pose proof Hop as [_ _ _ _ _ _ _ _ _ Ht HW _ _ HI].
  assert (e ∈ entries W) as Hein.
  { rewrite HW, !entries_app. do 2 (apply elem_of_app; right). apply elem_of_app; left. unfold entries. cbn. rewrite app_nil_r.
    by eapply list_elem_of_lookup_2. }
  assert (0 < e_seqno e) as Hse.
  { apply list_elem_of_lookup_1 in Hein as (j & Hj). apply (Forall_at Hsq Hj). }
  assert (es = take mid es ++ e :: drop (S mid) es) as Ees by (by rewrite take_drop_middle).
  assert (take (S mid) es = take mid es ++ [e]) as Et by (by apply take_S_r).
  assert (drop (S mid) es <> []) as Hdne by (intros E%(f_equal length); rewrite length_drop in E; cbn in E; lia).
  set (b := bound_at seps pub (length kl)) in *.
  set (P := pre ++ kids_flat kl). set (Q := kids_flat kr ++ post).
  assert (W = P ++ [(es, b)] ++ Q) as HW' by (rewrite HW; unfold P, Q; by rewrite <- !app_assoc).
  set (n1 := set_lnext (sr_from r) new). set (n2 := set_lnext (sr_to r) (next n)).
  assert (page n1 (take (S mid) es)) as Hpg1 by (by destruct Hp1 as [[? ?] ? ?]).
  assert (page n2 (drop (S mid) es)) as Hpg2 by (by destruct Hp2 as [[? ?] ? ?]).
  assert (logical_id n1 = cid) as Hid1 by (unfold n1; rewrite Hf1; exact Hid).
  assert (logical_id n2 = new) as Hid2 by (unfold n2; by rewrite Hf2).
  destruct (open_child_node bt node_ret page _ _ _ _ _ _ _ _ _ _ _ _ _ _ _ _ _ _ _ Hop) as (Hcr & Hcb & Hcin).
  assert (new <> cid /\ new <> pid) as [Hnc Hnp].
  { rewrite <- HI in Hni. split; intros ->; apply Hni; [left|right; left]. }
  assert (cid <> pid) as Hcp.
  { rewrite <- HI in Hnd. cbn in Hnd. intros ->. apply (NoDup_cons_1_1 _ _ Hnd). left. }
  destruct (open_split bt Hbt node_ret page (t_nodes t) D (rootid t) key W I 0 pid pub v seps kl kr pre post out
              cid [(es, b)] [cid] Hop Hf (entry_version e) [(take (S mid) es, Some (entry_version e))] [(drop (S mid) es, b)]
              [cid] [new] new (TLeaf n1) (TLeaf n2) Hnd Hni Hnb Hv)
    with (t := set_ov t1 (add_leaf_stats (t_ov t1) (- sr_bytes_increased r) (sr_bytes_increased r)))
    as (p' & Hp' & Hf' & Hne' & Hgt & Hle).
  { cbn. intros E. pose proof (eo_key _ _ Heok). rewrite E in *. cbn in *. lia. }
  { split; cbn; [pose proof (eo_key _ _ Heok)|pose proof (eo_seqno _ _ Heok)]; lia. }
  { cbn. solve_Permutation. }
  { intros l Hl. apply flat_in_one in Hl as [Hl _]. cbn [app]. rewrite Et. rewrite Ees in Hl. by apply leaf_split_in. }
  { apply (leaf_tree _ _ _ n1); try done. by rewrite lookup_insert_ne, lookup_insert_eq. }
  { apply (leaf_tree _ _ _ n2); try done. by rewrite lookup_insert_eq. }
  set (W' := pre ++ kids_flat kl ++ ([(take (S mid) es, Some (entry_version e))] ++ [(drop (S mid) es, b)]) ++ kids_flat kr ++ post) in *.
  assert (W' = P ++ [(take (S mid) es, Some (entry_version e)); (drop (S mid) es, b)] ++ Q) as EW'.
  { unfold W', P, Q. by rewrite <- !app_assoc. }
  assert (entries W' = entries W) as Een by (rewrite EW', HW', entries_leaf_split; by rewrite take_drop).
  assert (exists last, btree_leaf_get_nth_key_info2 n1 (z2n (nkeys n1 - 1)) = Some last /\ ki_key last = e_key e) as (last & Hlast & Hlk).
  { exists (e_info e). split; [|done]. replace (z2n (nkeys n1 - 1)) with mid.
    - apply (pg_read (LeafPages := leaf_plain_pages bt Hbt Hso) n1 (take (S mid) es) mid e Hpg1). rewrite lookup_take_lt by lia. done.
    - unfold nkeys. rewrite (pg_count (LeafPages := leaf_plain_pages bt Hbt Hso) n1 _ Hpg1), length_take. lia. }
  eexists _, n1, n2, e, p', last. split; [cbn [split_node]; rewrite Hs; runs; by rewrite Hk, Hq|].
  split; [exact Hp'|]. split; [done|]. split; [done|]. cbn zeta.
  match goal with |- tree_step t ?t2 /\ _ => set (t' := t2) end.
  assert (t_nodes t' = <[pid := TNonLeaf p']> (<[new := TLeaf n2]> (<[cid := TLeaf n1]> (t_nodes t)))) as Hns.
  { unfold t'. cbn. rewrite Hn1. by rewrite insert_twice. }
  split; [etrans; [exact Hts1|]; by split|]. split; [exact Hroot1|].
  assert (inv t' W' (new :: I)) as Hinv'.
  { split; [split; [exact Hf'|]| |by rewrite Een|by apply NoDup_cons_2|exact Hfr].
    2: { rewrite HW' in Hqb. rewrite EW'. apply flat_below_app in Hqb as [HqP Hqb].
         apply flat_below_app in Hqb as [Hqe HqQ]. apply Forall_cons_iff in Hqe as [[Hqe Hqv] _]. cbn in Hqe, Hqv.
         apply flat_below_app. split; [done|]. apply flat_below_app. split; [|done].
         repeat constructor; cbn; [by apply Forall_take| |by apply Forall_drop|done].
         intros w [= <-]. apply (Forall_at Hqe He). }
    intros k m Hm.
    rewrite EW', Et. cbn [app]. apply (covers_split cmp k m None None); [|done|].
    - rewrite <- Ees. by rewrite HW' in Hf.
    - rewrite <- Ees. rewrite HW' in Hfo. by apply (fo_covers Hfo). }
  exists W'. destruct (0 <? cmp key (e_key e)) eqn:Egt.
  - specialize (Hgt (proj2 (passed_gt key e) Egt)). eexists _, (kl ++ [([(take (S mid) es, Some (entry_version e))], [cid])]), kr, n2, (drop (S mid) es).
    split_and!; [done|exact Hne'|..].
    + rewrite length_drop. lia.
    + intros x Hx. by apply (Hx n mid).
    + rewrite length_app. cbn. lia.
    + split; rewrite ?Hns; try done.
      * change (rootid t') with (rootid t1). rewrite Hroot1.
        pose proof (oa_tree Hgt) as (_ & _ & ? & ? & _ & _ & _ & [= _ Eb] & _).
        rewrite Eb in Hgt. exact Hgt.
      * by rewrite lookup_insert_ne, lookup_insert_eq.
  - eexists _, kl, (([(drop (S mid) es, b)], [new]) :: kr), n1, (take (S mid) es). split_and!; [done|exact Hne'| | |done|].
    + rewrite length_take. lia.
    + intros x Hx. by apply (Hx n mid).
    + assert (~ passed cmp key None (Some (entry_version e))) as Hnp' by (rewrite passed_gt; by rewrite Egt).
      specialize (Hle Hnp'). split; rewrite ?Hns; try done.
      * change (rootid t') with (rootid t1). rewrite Hroot1.
        pose proof (oa_tree Hle) as (_ & _ & ? & ? & _ & _ & _ & [= _ Eb] & _).
        rewrite Eb in Hle. exact Hle.
      * by rewrite lookup_insert_ne, lookup_insert_ne, lookup_insert_eq by congruence.
Qed.
End step.

(** ** The loop *)

(** The object to be written, as an entry; keys that compare as equal are
    equal. *)
Context (pe : entry) (Hpe : entry_ok bt pe) (tomb : bool) (Hinj : forall a b, cmp a b = 0 -> a = b).
Abbreviation key := (e_key pe).

Lemma leaf_open_located t D W I pid pub v seps kl kr pre post out cid n es :
  leaf_open t D key W I pid pub v seps kl kr pre post out cid n es ->
  located cmp key None W (pre ++ kids_flat kl) es (bound_at seps pub (length kl)) (kids_flat kr ++ post).
Proof using Type.
  intros [Hop _ _ _ _]. split_and!; [|apply Hop|apply Hop]. rewrite (oa_leaves Hop).
  by rewrite <- !app_assoc.
Qed.

(** The search in the leaf of the key. *)
Lemma leaf_search W pre es b post n :
  flat_ok cmp snaps W -> located cmp key None W pre es b post -> page n es ->
  exists i, btree_leaf_find_key2 bt n key None = Some (n2z i, hit cmp (entry_version <$> es) key None i) /\
    splits cmp (entry_version <$> es) key None i /\ (i <= length es)%nat /\
    hit cmp (entry_version <$> es) key None i = bool_decide (is_Some (answer cmp key None (entries W))) /\
    (hit cmp (entry_version <$> es) key None i = true -> exists old, es !! i = Some old /\ e_key old = key).
Proof using Hc CmpOk0 Hinj.
  intros Hfo Hloc Hp. pose proof Hc as [Hbt _ _ _].
  pose proof (leaf_sorted_in bt _ _ _ _ _ _ _ (fo_flat Hfo) Hloc) as Hs.
  destruct (bsearch_latest_ok cmp _ Hs key None n (leaf_shows bt n es Hbt (plain_rep bt Hbt n es Hp))) as (i & Hi & Hsp).
  exists i. split; [exact Hi|]. split; [done|]. split; [destruct Hsp as [Hle _]; by rewrite length_fmap in Hle|].
  rewrite (answer_leaf bt snaps W key None _ es _ _ i Hfo (or_introl eq_refl) Hloc Hsp).
  unfold hit. rewrite list_lookup_fmap. destruct (es !! i) as [old|] eqn:E; cbn [fmap option_fmap option_map].
  - destruct (side _ _ _ _) eqn:Es; [|by rewrite bool_decide_eq_false_2 by (by intros [])..].
    split; [by rewrite bool_decide_eq_true_2|]. intros _. exists old. split; [done|]. symmetry. apply Hinj.
    by apply side_eq_key in Es.
  - by rewrite bool_decide_eq_false_2 by (by intros []).
Qed.

Lemma msplit_leaf_loop D pid pub pre post out fuel : forall t W I v seps kl kr cid n es nn,
  leaf_open t D key W I pid pub v seps kl kr pre post out cid n es ->
  seps <> [] \/ is_full_insert bt v = false -> (2 <= length es)%nat -> (length es < fuel)%nat ->
  exists t' ret mem y,
    btree_msplit_loop bt is_nodes_available fuel t pid cid key (e_datalen pe) tomb (n2z (length kl)) nn = Some (t', ret, mem, y) /\
    tree_step t t' /\
    (ret = BTREE_FAILURE /\ alloc_failed t t' \/
     rootid t' = rootid t /\ exists W' I' v' seps' kl' kr' n' es',
       entries W' = entries W /\ seps' <> [] /\ (length es' <= length es)%nat /\
       (is_full_insert bt v = false -> (length es' < length es)%nat) /\
       (is_full_insert bt v = false -> halves_roomy bt es pe ->
        ret = BTREE_SUCCESS /\ entries_size bt es' + entry_size bt pe <= nodesize_less_hdr bt) /\
       leaf_open t' D key W' I' pid pub v' seps' kl' kr' pre post out mem n' es' /\
       (ret = BTREE_PARENT_FULL_FOR_SPLIT \/
        ret = BTREE_SUCCESS /\ exists i, splits cmp (entry_version <$> es') key None i /\
          fits bt es' i pe (hit cmp (entry_version <$> es') key None i))).
Proof using Hc CmpOk0 Havail Hpe Hinj.
  pose proof Hc as [Hbt Hso _ _].
  induction fuel as [|fuel IH]; intros t W I v seps kl kr cid n es nn Ho Hse H2 Hlen; [lia|]. cbn [btree_msplit_loop].
  pose proof Ho as [Hop Hn Hp Hid Hinv]. rewrite Hn. runs.
  rewrite (oa_node Hop). runs.
  destruct (plain_split bt Hbt Hso n n es Hp H2) as (mid & e & _ & Hfs & _ & Hmid & He & _). rewrite Hfs. runs.
  destruct (pg_read (LeafPages := leaf_plain_pages bt Hbt Hso) n es mid e Hp He) as [-> _]. runs.
  destruct (is_full_insert bt v) eqn:Hv.
  { destruct Hse as [Hse|]; [|done]. eexists t, _, cid, nn. split; [done|]. split; [done|]. right. split; [done|].
    exists W, I, v, seps, kl, kr, n, es. split_and!; try done. by left. }
  rewrite Havail. cbn [negb].
  destruct (get_new_tree_node_ok node_ret t (fun id => TLeaf (new_leaf id (level n))) I (in_fresh Hinv))
    as (t1 & Hts & Hroot & [(er & -> & _ & Haf)|(new & -> & Hn1 & Hni & Hnb & Hnr & Hfr')]).
  { eexists t1, _, _, _. split; [done|]. split; [done|left; by split]. }
  destruct (leaf_split_step t D key W I pid pub v seps kl kr pre post out cid n es Ho Hv H2 t1 new _ Hts Hroot Hn1 Hni Hnb Hnr Hfr')
    as (t2 & n1 & n2 & e2 & p' & last & -> & Hlk & Hlast & Hki & Hst & Hr' & W' & seps' & kl' & kr' & n' & es' & Hen & Hne & Hlt & Hhalf & Hkl & Ho').
  runs. rewrite Hlk. runs. rewrite Hlast. runs. rewrite Hki.
  set (right := 0 <? cmp key (e_key e2)) in *. set (t' := put_node _ pid _) in *.
  set (cid' := if right then new else cid) in *.
  assert ((if right then (new, n2z (length kl) + 1) else (cid, n2z (length kl))) = (cid', n2z (length kl'))) as ->.
  { rewrite Hkl. unfold cid'. destruct right; f_equal; lia. }
  pose proof Ho' as [Hop' Hn' Hp' Hid' Hinv']. rewrite Hn'. runs.
  destruct (leaf_search W' _ es' _ _ n' (in_flat Hinv') (leaf_open_located _ _ _ _ _ _ _ _ _ _ _ _ _ _ _ _ Ho') Hp')
    as (i & -> & Hsp & Hi & Hhit & Hold). runs. cbn [fst snd].
  destruct (leaf_full_ok bt Hc n' es' i pe tomb (hit cmp (entry_version <$> es') key None i) Hp' Hpe Hi Hold)
    as (full & Hfull & Hfit & Hmany & _ & Hroom). rewrite Hfull. runs. destruct full.
  - destruct (IH t' W' (new :: I) p' seps' kl' kr' cid' n' es' new Ho' (or_introl Hne)) as
      (t3 & ret & mem & y & -> & Hst3 & Hres); [by apply Hmany|lia|].
    eexists t3, ret, mem, y. split; [done|]. split; [by etrans|]. destruct Hres as [[-> Haf]|(Hr3 & W3 & I3 & v3 & s3 & kl3 & kr3 & n3 & es3 & E3 & N3 & L3 & _ & _ & Ho3 & Hret)];
      [left; split; [done|by apply (alloc_failed_after t t')]|].
    right. split; [congruence|]. exists W3, I3, v3, s3, kl3, kr3, n3, es3. split_and!; try done; [congruence|lia|lia|].
    intros _ Hh. by specialize (Hroom (Hhalf pe Hh)).
  - eexists t', _, cid', new. split; [done|]. split; [done|]. right. split; [done|].
    exists W', (new :: I), p', seps', kl', kr', n', es'. split_and!; try done; [lia|by split; [|apply Hhalf]|].
    right. split; [done|]. exists i. auto.
Qed.
End leaf.

(** * How even the split of a leaf is

    [btree_leaf_find_split_idx] compares the offset of an entry in the data
    area with half of the space used by data and headers, so the left part of
    a split may be larger than the right one. For objects of up to about a
    seventh of a page both parts always have room. *)

Section room.
Context (bt : btree_raw) (Hc : wconf bt) (n : btree_raw_node) (es : list entry) (Hp : leaf_plain bt n es).
Abbreviation U := (nodesize_less_hdr bt).
Abbreviation size j := (entries_size bt (take j es)).
Abbreviation off j := (size j - 3 * n2z j).

Lemma header_at j : (j < length es)%nat -> exists h, headers n !! j = Some h /\ header_offset h = off j.
Proof using Hc Hp.
  intros Hj. pose proof Hc as [Hbt _ _ _]. destruct Hp as [Hl Hes _]. destruct (lookup_lt_is_Some_2 es j Hj) as [e He].
  assert ((full_cell <$> es) !! j = Some (full_cell e)) as Hcell by (by rewrite list_lookup_fmap, He).
  rewrite (layout_header n _ Hl _ _ Hcell). eexists. split; [done|]. cbn [header_offset].
  rewrite <- fmap_take. pose proof (cells_size_full bt (take j es) Hbt (Forall_take _ _ _ Hes)) as H. unfold cells_size in H.
  rewrite length_fmap, length_take in H. unfold SIZEOF_ENTRY_HEADER in H. lia.
Qed.

Lemma size_step j e : es !! j = Some e -> size (S j) = size j + entry_size bt e.
Proof using Type.
  intros He. rewrite (take_S_r _ _ _ He), entries_size_app, entries_size_cons. change (entries_size bt []) with 0. lia.
Qed.

(** An entry takes 14 bytes or more besides its header. *)
Lemma off_least j : (j <= length es)%nat -> 14 * n2z j <= off j.
Proof using Hc Hp.
  induction j as [|j IH]; intros Hj; [done|]. destruct (lookup_lt_is_Some_2 es j Hj) as [e He].
  rewrite (size_step j e He). specialize (IH ltac:(lia)).
  pose proof (Forall_at (lp_entries Hp) He) as Hok. pose proof (eo_key _ _ Hok). pose proof Hc as [Hbt _ _ _].
  pose proof (data_inleaf_bound bt (lenZ (e_key e)) (e_datalen e) Hbt). pose proof (eo_big_key _ _ Hok). pose proof (eo_datalen _ _ Hok).
  assert (13 <= get_meta_type_to_size (size_type e)).
  { unfold size_type. repeat case_if; cbn; lia. }
  unfold entry_size, SIZEOF_ENTRY_HEADER. lia.
Qed.

Lemma scan_left mid half :
  (0 < mid <= length es)%nat ->
  exists m, split_scan_left n mid half = Some m /\ (m < mid)%nat /\ (m = 0%nat \/ off m <= half + 3) /\
    (S m = mid \/ half + 3 < off (S m)).
Proof using Hc Hp.
  induction mid as [|mid IH]; intros Hm; [lia|]. cbn [split_scan_left]. unfold btree_leaf_get_nth_entry.
  destruct (header_at mid ltac:(lia)) as (h & -> & Hh). runs. unfold SIZEOF_ENTRY_HEADER in *. rewrite Hh.
  destruct (Z.leb_spec (off mid - 3) half) as [Hle|Hgt].
  - exists mid. split_and!; [done|lia|right; lia|by left].
  - destruct mid as [|mid].
    + exists 0%nat. split_and!; [done|lia|by left|by left].
    + destruct IH as (m & -> & H1 & H2 & H3); [lia|]. exists m. split_and!; [done|lia|done|].
      destruct H3 as [E|H3]; [right; rewrite E; lia|by right].
Qed.

Lemma scan_right half count : forall m,
  (m + count < length es)%nat ->
  exists j, split_scan_right n count m half = Some j /\ (m <= j <= m + count)%nat /\
    (j = m \/ off j + 3 <= half) /\ (half < off (S j) + 3 \/ j = (m + count)%nat).
Proof using Hc Hp.
  induction count as [|count IH]; intros m Hm; cbn [split_scan_right].
  - exists m. split_and!; [done|lia|lia|by left|by right; lia].
  - unfold btree_leaf_get_nth_entry. destruct (header_at (S m) ltac:(lia)) as (h & -> & Hh). runs.
    unfold SIZEOF_ENTRY_HEADER. rewrite Hh. destruct (Z.ltb_spec half (off (S m) + 3)) as [Hlt|Hge].
    + exists m. split_and!; [done|lia|lia|by left|left; lia].
    + destruct (IH (S m)) as (j & -> & H1 & H2 & H3); [lia|]. exists j. split_and!; [done|lia|lia| |destruct H3; [by left|right; lia]].
      destruct H2 as [->|H2]; by right.
Qed.

(** Both parts of a split leave at least a seventh of the page, less 4 bytes. *)
Lemma split_even mid : (2 <= length es)%nat -> btree_leaf_find_split_idx bt n = Some mid ->
  7 * size (S mid) <= 6 * U + 28 /\ 7 * (entries_size bt es - size (S mid)) <= 6 * U + 28.
Proof using Hc Hp.
  intros H2. unfold btree_leaf_find_split_idx, btree_leaf_get_nth_entry. pose proof Hc as [Hbt Hso _ _].
  rewrite (plain_used bt Hbt _ _ Hp). unfold nkeys. rewrite (pg_count (LeafPages := leaf_plain_pages bt Hbt Hso) n es Hp).
  set (half := entries_size bt es / 2). set (c := (length es / 2)%nat).
  pose proof (lp_fit Hp) as Hfit. pose proof (Z.div_mod (entries_size bt es) 2) as Hdm. fold half in Hdm.
  pose proof (Z.mod_pos_bound (entries_size bt es) 2).
  assert (0 < c < length es)%nat as Hcl by (unfold c; split; [apply Nat.div_str_pos; lia|apply Nat.div_lt; lia]).
  assert (forall j, (j < length es)%nat -> 4 * (size (S j) - size j) <= U /\ 0 <= size j) as Hstep.
  { intros j Hj. destruct (lookup_lt_is_Some_2 es j Hj) as [e He]. rewrite (size_step j e He).
    pose proof (entry_size_quarter bt Hc e (Forall_at (lp_entries Hp) He)). split; [lia|].
    apply entries_size_nonneg; [done|apply Forall_take, Hp]. }
  assert (forall j, (j <= length es)%nat -> 14 * n2z j <= off j) as Hoff by apply off_least.
  destruct (header_at c) as (h & -> & Hh); [lia|]. runs. unfold SIZEOF_ENTRY_HEADER. rewrite Hh.
  destruct (Z.ltb_spec half (off c + 3 * n2z c)) as [Hlt|Hge].
  - destruct (scan_left c half) as (m & -> & Hm & Ho & Hn); [lia|]. runs.
    rewrite (proj2 (Z.leb_gt _ _)), (proj2 (Z.ltb_ge _ 0)), Nat2Z.id by lia. intros [= <-].
    destruct (Hstep m) as [Hs1 Hs2]; [lia|]. pose proof (Hoff m ltac:(lia)). pose proof (Hoff (S m) ltac:(lia)).
    destruct Ho as [->|Ho].
    + change (size 0) with 0 in *. split; [lia|]. destruct Hn as [Hn|Hn]; [rewrite Hn|]; lia.
    + split; [lia|]. destruct Hn as [Hn|Hn]; [rewrite Hn|]; lia.
  - destruct (scan_right half (length es - 1 - c) c) as (j & -> & Hj & Ho & Hn); [lia|]. runs.
    assert (j = c \/ off j + 3 <= half) as Ho' by done.
    destruct (Hstep j) as [Hs1 Hs2]; [lia|]. pose proof (Hoff j ltac:(lia)). pose proof (Hoff (S j) ltac:(lia)).
    assert (size j <= half + 3 * n2z j /\ 14 * n2z j <= half \/ size j <= half) as Hj' by (destruct Ho' as [->|Ho']; lia).
    destruct (Z.leb_spec (lenZ es - 1) (n2z j)) as [Hcl'|Hcl'].
    + rewrite (proj2 (Z.ltb_ge _ 0)) by lia. intros [= <-]. replace (S (z2n (lenZ es - 2))) with j by lia.
      assert (S j = length es) as E by lia. assert (size (S j) = entries_size bt es) as Es by (by rewrite E, firstn_all). lia.
    + rewrite (proj2 (Z.ltb_ge _ 0)), Nat2Z.id by lia. intros [= <-]. split; [lia|]. destruct Hn as [Hn|Hn]; lia.
Qed.

Lemma small_room e : (2 <= length es)%nat -> 7 * entry_size bt e + 28 <= U -> 
  forall mid, btree_leaf_find_split_idx bt n = Some mid ->
  entries_size bt (take (S mid) es) + entry_size bt e <= U /\ entries_size bt (drop (S mid) es) + entry_size bt e <= U.
Proof using Hc Hp.
  intros H2 Hs mid Hm. pose proof (split_even mid H2 Hm). pose proof (entries_size_split bt es (S mid)). lia.
Qed.
End room.

Lemma split_idx_two bt n mid : btree_leaf_find_split_idx bt n = Some mid -> (2 <= length (headers n))%nat.
Proof.
  unfold btree_leaf_find_split_idx, btree_leaf_get_nth_entry, nkeys.
  destruct (headers n) as [|h [|h' l]] eqn:E; [done| |cbn; lia]. cbn [length]. change (1 / 2)%nat with 0%nat.
  cbn [lookup list_lookup]. runs. case_if; cbn [split_scan_left split_scan_right Nat.sub]; runs; done.
Qed.

(** An object of up to about a seventh of a page never runs out of room. *)
Lemma halves_roomy_small bt es e : wconf bt -> 7 * entry_size bt e + 28 <= nodesize_less_hdr bt -> halves_roomy bt es e.
Proof.
  intros Hc Hs n mid Hp Hm. apply (small_room bt Hc n es Hp e); [|done|done].
  pose proof Hc as [Hbt Hso _ _]. rewrite <- (pg_count (LeafPages := leaf_plain_pages bt Hbt Hso) n es Hp). by eapply split_idx_two.
Qed.

(** C32: in the default page format, with the limits of [btree_raw_init] (an entry
    takes at most a quarter of a page), a leaf of at least two entries is split
    at the point the code chooses into two parts that hold its entries in order;
    the separator is the last key on the left, no space is gained or lost, both
    parts have entries, and each leaves a seventh of the page free, less 4
    bytes. *)
Theorem leaf_split_even bt n to_node es :
  wconf bt -> leaf_plain bt n es -> (2 <= length es)%nat ->
  exists mid e r, btree_leaf_split bt n to_node 0 = Some r /\ (S mid < length es)%nat /\ es !! mid = Some e /\
    leaf_plain bt (sr_from r) (take (S mid) es) /\ leaf_plain bt (sr_to r) (drop (S mid) es) /\
    sr_key r = e_key e /\ sr_seqno r = e_seqno e /\ sr_bytes_increased r = 0 /\
    7 * btree_leaf_used_space bt (sr_from r) <= 6 * nodesize_less_hdr bt + 28 /\
    7 * btree_leaf_used_space bt (sr_to r) <= 6 * nodesize_less_hdr bt + 28.
Proof.
  intros Hc Hp H2. pose proof Hc as [Hbt Hso _ _].
  destruct (plain_split bt Hbt Hso n to_node es Hp H2) as (mid & e & r & Hi & Hs & Hm & He & Hf & Ht & Hk & Hq & Hb & _).
  exists mid, e, r. rewrite (plain_used bt Hbt _ _ Hf), (plain_used bt Hbt _ _ Ht).
  pose proof (split_even bt Hc n es Hp mid H2 Hi) as [H3 H4]. pose proof (entries_size_split bt es (S mid)).
  split_and!; done || lia.
Qed.

Lemma leaf_split_even_witness :
  exists mid e r, btree_leaf_split (bt_8k true) (page_of (full_cell <$> es_ab)) (page_of []) 0 = Some r /\ (S mid < 3)%nat /\ es_ab !! mid = Some e /\
    leaf_plain (bt_8k true) (sr_from r) (take (S mid) es_ab) /\ leaf_plain (bt_8k true) (sr_to r) (drop (S mid) es_ab) /\
    sr_key r = e_key e /\ sr_seqno r = e_seqno e /\ sr_bytes_increased r = 0 /\
    7 * btree_leaf_used_space (bt_8k true) (sr_from r) <= 6 * nodesize_less_hdr (bt_8k true) + 28 /\
    7 * btree_leaf_used_space (bt_8k true) (sr_to r) <= 6 * nodesize_less_hdr (bt_8k true) + 28.
Proof.
  apply (leaf_split_even (bt_8k true) (page_of (full_cell <$> es_ab)) (page_of []) es_ab).
  - split; [apply bt_8k_ok|done|by vm_compute|by vm_compute].
  - apply plain_ab.
  - cbn. lia.
Defined.
