(* ===== verification/TreeDescend.v ===== *)
(** * The descent of a write

    From the root to the leaf of the key, every full node on the way being
    split. The descent ends at a leaf with room for the object, or with a
    full parent after at least one split of the leaf, or with an error of the
    allocator. *)

From stdpp Require Import gmap.
From S2P Require Import Prelude Status LeafMeta LeafNode LeafOps LeafCells LeafEncode LeafFixup LeafSpec LeafRefine LeafPlain LeafMove NodeSearch LeafTheorems NodeSearchSpec NonLeaf NonLeafSpec NodeTheorems TreeFlat PStats Overflow OverflowSpec OverflowTheorems Snapshot SnapshotSpec Scavenger Tree TreeSpec TreeWrite TreeEdit TreeSplit TreeSplitLeaf.

Section descend.
Context (bt : btree_raw) (Hc : wconf bt) `{!CmpOk (cmp_cb bt)} (node_ret : Z -> btree_status)
  (nsz : Z) (m : btree_snap_meta) (Hm : snap_ok nsz m)
  (is_nodes_available : Z -> bool) (Havail : forall k, is_nodes_available k = true)
  (q : Z) (pe : entry) (Hpe : entry_ok bt pe) (tomb : bool) (Hinj : forall a b, cmp_cb bt a b = 0 -> a = b).
Abbreviation cmp := (cmp_cb bt).
Abbreviation U := (nodesize_less_hdr bt).
Abbreviation snaps := (snap_seqs m).
Abbreviation key := (e_key pe).
Abbreviation page := (leaf_plain bt).
Abbreviation open_at := (open_at bt node_ret page).
Abbreviation focus := (focus bt node_ret page).
Abbreviation inv := (inv bt node_ret snaps q).
Abbreviation hit_at es i := (hit cmp (entry_version <$> es) key None i).

(** Is the version found replaced in place? Not by a tombstone, and not when
    a snapshot sees it. *)
Definition updates (o : option entry) : bool :=
  match o with Some old => negb tomb && (epoch snaps (e_seqno old) =? -1) | None => false end.

(** The leaf of the key. *)
Record leaf_found (t : tree) (D : nat) (W : list fleaf) (I : list Z) (leaf : Z) (n : btree_raw_node)
    (es : list entry) (i : nat) : Prop := {
  lf_path : exists b pre post out, ctx bt node_ret page (t_nodes t) D (rootid t) 0 leaf b pre post out /\
              located cmp key None W pre es b post /\ leaf :: out ≡ₚ I;
  lf_node : t_nodes t !! leaf = Some (TLeaf n);
  lf_id : logical_id n = leaf;
  lf_page : page n es;
  lf_splits : splits cmp (entry_version <$> es) key None i;
  lf_inv : inv t W I;
  lf_ret : node_ret leaf = BTREE_SUCCESS /\ leaf <> BAD_CHILD
}.

#[local] Arguments lf_node {_ _ _ _ _ _ _ _} _.

Lemma hit_answer t D W I leaf n es i :
  leaf_found t D W I leaf n es i ->
  answer cmp key None (entries W) = (if hit_at es i then es !! i else None) /\
  (hit_at es i = true -> exists old, es !! i = Some old /\ e_key old = key) /\ (i <= length es)%nat.
Proof using CmpOk0 Hinj.
  intros [(b & pre & post & out & _ & Hloc & _) _ _ _ Hsp Hinv].
  split; [by apply (answer_leaf bt snaps W key None pre es b post i (in_flat Hinv) (or_introl eq_refl))|].
  destruct Hsp as [Hle _]. rewrite length_fmap in Hle. split; [|done].
  unfold hit. rewrite list_lookup_fmap. destruct (es !! i) as [old|]; [|done]. cbn.
  destruct (side _ _ _ _) eqn:E; [|done..]. intros _. exists old. split; [done|]. symmetry. apply Hinj. by apply side_eq_key in E.
Qed.

Lemma focus_found t D W I id :
  focus (t_nodes t) D (rootid t) key None W I 0 id -> inv t W I ->
  exists n es i, leaf_found t D W I id n es i /\
    find_key bt t (TLeaf n) key = Some (BAD_CHILD, n2z i, hit_at es i).
Proof using Hc CmpOk0 Hinj.
  intros Hfo Hinv. destruct (focus_leaf _ _ _ _ _ _ _ _ _ _ _ Hfo) as (n & es & b & pre & post & out & Hn & Hid & Hp & Hloc & Hct & HI).
  destruct (leaf_search bt Hc snaps pe Hinj W pre es b post n (in_flat Hinv) Hloc Hp) as (i & Hi & Hsp & _).
  exists n, es, i. split.
  - destruct (focus_node _ _ _ _ _ _ _ _ _ _ _ _ Hfo) as (Hret & Hbad & _).
    split; try done. by exists b, pre, post, out.
  - cbn [find_key]. unfold btree_leaf_find_key. rewrite Hi. by runs.
Qed.

Lemma is_update_leaf n es i :
  page n es -> (hit_at es i = true -> exists old, es !! i = Some old /\ e_key old = key) ->
  is_update_of m (TLeaf n) (hit_at es i) tomb (n2z i) = Some (updates (if hit_at es i then es !! i else None)).
Proof using Hc Hm.
  intros Hp Hold. pose proof Hc as [Hbt Hso _ _]. cbn [is_update_of]. destruct (hit_at es i); [|done].
  destruct (Hold eq_refl) as (old & Hi & _). rewrite Hi. cbn [updates]. destruct tomb; [done|]. cbn [negb andb].
  unfold is_leaf_key_active, get_key_stuff_leaf2. rewrite (proj2 (Z.ltb_ge _ 0)), Nat2Z.id by lia.
  destruct (pg_read (LeafPages := leaf_plain_pages bt Hbt Hso) n es i old Hp Hi) as [-> _]. runs.
  cbn. rewrite (find_meta_index_ok nsz m Hm). by runs.
Qed.

(** When the version found cannot be replaced in place the new one fits
    beside it, now or in both parts of the leaf after a split. (The code
    checks the space as for an update after a split, so it relies on this
    there.) *)
Definition roomy (W : list fleaf) : Prop :=
  forall pre es b post, located cmp key None W pre es b post -> is_Some (answer cmp key None (entries W)) ->
    updates (answer cmp key None (entries W)) = false ->
    entries_size bt es + entry_size bt pe <= U \/ halves_roomy bt es pe.

(** ** Where the descent stands *)

Inductive stands_at (t : tree) (D : nat) (W : list fleaf) (I : list Z) (d : nat) (child : Z) : option Z -> Z -> Prop :=
  | at_root pnk : d = D -> child = rootid t -> focus (t_nodes t) D (rootid t) key None W I d child ->
      stands_at t D W I d child None pnk
  | below pid pub v seps kl kr pre post out fl ids :
      open_at (t_nodes t) D (rootid t) key W I d pid pub v seps kl kr pre post out child fl ids ->
      seps <> [] -> is_full_insert bt v = false ->
      stands_at t D W I d child (Some pid) (n2z (length kl)).

Lemma stands_focus t D W I d child parent pnk :
  stands_at t D W I d child parent pnk -> focus (t_nodes t) D (rootid t) key None W I d child.
Proof using Type. intros [? _ _ ?|]; [done|by eapply open_focus]. Qed.

Lemma ctx_root_in ns D root d id ub pre post out :
  ctx bt node_ret page ns D root d id ub pre post out -> id = root \/ root ∈ out.
Proof using Type.
  induction 1 as [|d pid pub pre post out v seps kl kr Hct IH]; [by left|right].
  destruct IH as [->|Hin]; [left|]. right. apply elem_of_app. right. apply elem_of_app. by right.
Qed.

Lemma open_not_root ns D root W I d pid pub v seps kl kr pre post out cid fl ids :
  open_at ns D root key W I d pid pub v seps kl kr pre post out cid fl ids -> NoDup I -> cid <> root.
Proof using Type.
  intros Ho Hnd ->. pose proof (open_child_node bt node_ret page _ _ _ _ _ _ _ _ _ _ _ _ _ _ _ _ _ _ _ Ho) as (_ & _ & Hin).
  pose proof Ho as [Hct _ _ _ _ _ _ _ _ _ _ _ _ HI]. rewrite <- HI in Hnd. apply list.NoDup_app in Hnd as (_ & Hnd & _).
  apply (Hnd root Hin). destruct (ctx_root_in _ _ _ _ _ _ _ _ _ Hct) as [->|Ho']; [left|].
  right. apply elem_of_app. right. apply elem_of_app. by right.
Qed.

(** ** Before a split *)

(** A new root above the old one. *)
Lemma split_root_ok t D W I :
  focus (t_nodes t) D (rootid t) key None W I D (rootid t) -> inv t W I ->
  exists t' r, split_root t = (t', r) /\ tree_step t t' /\
    (r = None /\ rootid t' = rootid t /\ alloc_failed t t' \/
     exists id v ids, r = Some id /\ is_full_insert bt v = false /\ inv t' W (id :: I) /\
       t_nodes t' !! rootid t = t_nodes t !! rootid t /\
       open_at (t_nodes t') (S D) (rootid t') key W (id :: I) D id None v [] [] [] [] [] [] (rootid t) W ids).
Proof using Hc.
  intros Hfo [Hfl Hq Hsq Hnd Hfr]. pose proof Hc as [Hbt _ _ Hmax]. unfold split_root.
  destruct (get_new_tree_node_ok node_ret t (fun id => TNonLeaf (new_vnode id)) I Hfr)
    as (t1 & Hts & Hroot & [(e & -> & _ & Haf)|(new & -> & Hn1 & Hni & Hnb & Hnr & Hfr')]).
  { exists t1, None. split; [done|]. split; [done|left; by split_and!]. }
  set (v := set_rightmost (new_vnode new) (rootid t)). set (t' := set_root _ new).
  exists t', (Some new). split; [done|]. split; [etrans; [exact Hts|]; by split|]. right.
  destruct (focus_back _ _ _ _ _ _ _ _ _ _ _ _ Hfo) as (ids & Hsub & HI).
  assert (nl_rep bt v []) as Hrep.
  { split; [done|done|constructor|]. cbn. pose proof (bt_node _ Hbt). pose proof (bt_less_hdr _ Hbt).
    change (key_bytes []) with 0. lia. }
  assert (t_nodes t' = <[new := TNonLeaf v]> (t_nodes t)) as Hns.
  { unfold t', put_node. cbn. rewrite Hn1. by rewrite insert_insert_eq. }
  assert (new ∉ ids) as Hnids by (by rewrite HI).
  destruct (subtree_ids _ _ _ _ _ _ _ _ _ Hsub) as [Hrin _].
  exists new, v, ids. split_and!; [done| |by split; [| | |apply NoDup_cons_2|]| |].
  - rewrite (is_full_insert_ok bt Hbt v [] Hrep). change (key_bytes []) with 0. apply Z.ltb_ge. cbn.
    pose proof (bt_node _ Hbt). pose proof (bt_less_hdr _ Hbt). unfold SIZEOF_NODE_VKEY in *. lia.
  - rewrite Hns, lookup_insert_ne; [done|]. intros ->. done.
  - rewrite Hns. split; try done.
    + constructor.
    + by rewrite lookup_insert_eq.
    + apply (subtree_frame bt node_ret page (t_nodes t)); [done|]. intros x Hx. rewrite lookup_insert_ne; [done|].
      intros ->. done.
    + cbn. by rewrite app_nil_r.
    + by intros [].
    + cbn. rewrite HI. solve_Permutation.
Qed.

(** The parent of the node to be split. *)
Lemma split_ready t D W I d child parent pnk pwl :
  stands_at t D W I d child parent pnk -> inv t W I ->
  exists t1 parent1 pnk1 pwl1,
    (if is_root t child then let '(t, p) := split_root t in (t, p, 0, true) else (t, parent, pnk, pwl))
      = (t1, parent1, pnk1, pwl1) /\ tree_step t t1 /\ t_nodes t1 !! child = t_nodes t !! child /\
    (parent1 = None /\ is_root t1 child = true /\ alloc_failed t t1 \/
     exists D1 I1 pid pub v seps kl kr pre post out fl ids,
       parent1 = Some pid /\ pnk1 = n2z (length kl) /\ is_full_insert bt v = false /\ inv t1 W I1 /\
       open_at (t_nodes t1) D1 (rootid t1) key W I1 d pid pub v seps kl kr pre post out child fl ids).
Proof using Hc.
  intros Hst Hinv. destruct Hst as [pnk -> -> Hfo|pid pub v seps kl kr pre post out fl ids Ho Hne Hv].
  - unfold is_root. rewrite Z.eqb_refl. destruct (split_root_ok t D W I Hfo Hinv) as (t1 & r & Hsr & Hst & Hres).
    rewrite Hsr. eexists t1, r, _, _. split; [done|]. split; [done|].
    destruct Hres as [(-> & Hr & Haf)|(id & v & ids & -> & Hv & Hinv' & Hn & Ho)].
    + split; [|left; split_and!; [done|rewrite Hr; apply Z.eqb_refl|done]]. unfold split_root in Hsr.
      destruct (get_new_tree_node_ok node_ret t (fun id => TNonLeaf (new_vnode id)) I (in_fresh Hinv))
        as (t2 & _ & _ & [(e & E & Hn & _)|(new & E & _)]); rewrite E in Hsr; [|done]. injection Hsr as <-. by rewrite Hn.
    + split; [done|]. right. exists (S D), (id :: I), id, None, v, [], [], [], [], [], [], W, ids. by split_and!.
  - assert (is_root t child = false) as ->.
    { apply Z.eqb_neq. eapply open_not_root; [exact Ho|]. apply (in_nodup Hinv). }
    eexists t, _, _, _. split; [done|]. split; [done|]. split; [done|]. right.
    exists D, I, pid, pub, v, seps, kl, kr, pre, post, out, fl, ids. by split_and!.
Qed.

(** ** The outcome of the descent *)

Definition leaf_len (W : list fleaf) (k : nat) : Prop :=
  exists pre es b post, located cmp key None W pre es b post /\ length es = k.

Definition descent_ok (t : tree) (W : list fleaf) (r : descent) : Prop :=
  match r with
  | DError t' e _ => tree_step t t' /\ e <> BTREE_SUCCESS /\ alloc_failed t t'
  | DRestart t' _ _ _ =>
      tree_step t t' /\ exists D' W' I', inv t' W' I' /\
        focus (t_nodes t') D' (rootid t') key None W' I' D' (rootid t') /\ entries W' = entries W /\ roomy W' /\
        exists a b, leaf_len W a /\ leaf_len W' b /\ (b < a)%nat
  | DLeaf t' leaf found index is_update _ =>
      tree_step t t' /\ exists D' W' I' n es i, leaf_found t' D' W' I' leaf n es i /\ entries W' = entries W /\
        found = hit_at es i /\ index = n2z i /\ is_update = updates (answer cmp key None (entries W)) /\
        fits bt es i pe is_update
  end.

Lemma inv_perm t W I I' : I ≡ₚ I' -> inv t W I -> inv t W I'.
Proof using Type.
  intros HI [Hf Hq Hs Hnd Hfr]. split; [done|done|done|by rewrite <- HI|by apply (fresh_perm node_ret _ I)].
Qed.

Lemma entries_many n es : page n es -> (length es < S (z2n U))%nat.
Proof using Hc.
  pose proof Hc as [Hbt _ _ _]. intros [_ Hes Hfit].
  assert (lenZ es <= entries_size bt es); [|lia]. clear Hfit. induction Hes as [|e es He Hes IH]; [done|].
  rewrite entries_size_cons. pose proof (entry_size_pos bt e Hbt He). cbn [length]. lia.
Qed.

Section leaf_case.
Context t D W I child parent pnk n es i (Hst : stands_at t D W I 0 child parent pnk)
  (Hlf : leaf_found t D W I child n es i) (u : bool) (Hu : u = updates (answer cmp key None (entries W)))
  (Hfull : u = hit_at es i \/ u = false /\ halves_roomy bt es pe)
  (H2 : (2 <= length es)%nat).

(** A full leaf. *)
Lemma split_leaf_ok pwl sp pc :
  exists r, mwrite_split bt is_nodes_available t child true parent pnk pwl sp pc key (e_datalen pe) tomb u
              = Some (SDone r) /\ descent_ok t W r.
Proof using All.
  pose proof Hlf as [(b & pre0 & post0 & out0 & _ & Hloc & _) Hn Hid Hp _ Hinv]. unfold mwrite_split.
  destruct (split_ready t D W I 0 child parent pnk pwl Hst Hinv)
    as (t1 & parent1 & pnk1 & pwl1 & -> & Hts1 & Hch & Hcase).
  destruct Hcase as [(-> & Hr & Haf)|(D1 & I1 & pid & pub & v & seps & kl & kr & pre & post & out & fl & ids & -> & -> & Hv & Hinv1 & Ho)].
  { rewrite Hr. cbn. eexists. split; [done|]. by split_and!. }
  assert (leaf_open bt node_ret snaps q (add_stat t1 BTSTAT_SPLITS 1) D1 key W I1 pid pub v seps kl kr pre post out child n es) as Hlo.
  { pose proof (oa_tree Ho) as (_ & _ & n' & es' & Hn' & _ & _ & -> & ->).
    assert (located cmp key None W (pre ++ kids_flat kl) es' (bound_at seps pub (length kl)) (kids_flat kr ++ post)) as Hloc'.
    { split_and!; [|apply Ho|apply Ho]. rewrite (oa_leaves Ho). by rewrite <- !app_assoc. }
    destruct (located_unique cmp key None _ _ _ _ _ _ _ _ _ Hloc Hloc') as (_ & -> & _ & _).
    split; [exact Ho|by rewrite <- Hn, <- Hch|done|done|by destruct Hinv1]. }
  unfold btree_msplit_child.
  destruct (msplit_leaf_loop bt Hc node_ret snaps q is_nodes_available Havail pe Hpe tomb Hinj D1 pid pub pre post out
              (S (z2n U)) (add_stat t1 BTSTAT_SPLITS 1) W I1 v seps kl kr child n es BAD_CHILD Hlo (or_intror Hv) H2
              (entries_many n es Hp)) as (t2 & ret & mem & y & -> & Hts2 & Hres). runs.
  assert (tree_step t t2) as Hts by (etrans; [exact Hts1|]; etrans; [|exact Hts2]; by split).
  destruct Hres as [[-> Haf]|(Hr2 & W2 & I2 & v2 & s2 & kl2 & kr2 & n2 & es2 & Hen & Hne & _ & Hlt & Hhalf & Ho2 & Hret)].
  { eexists. split; [done|]. split_and!; [done..|]. by apply (alloc_failed_after t t1). }
  pose proof (leaf_open_located bt node_ret snaps q pe _ _ _ _ _ _ _ _ _ _ _ _ _ _ _ _ Ho2) as Hloc2.
  pose proof Ho2 as [Hop2 Hn2 Hp2 Hid2 Hinv2].
  destruct Hret as [->|(-> & j & Hspj & Hfit)].
  - eexists. split; [done|]. split; [done|].
    destruct (focus_back _ _ _ _ _ _ _ _ _ _ _ _ (open_focus bt node_ret page _ _ _ _ _ _ _ _ _ _ _ _ _ _ _ _ _ _ _ Hop2 Hne))
      as (I3 & Hsub & HI3).
    exists D1, W2, I3. split_and!; [by apply (inv_perm t2 W2 I2)|by apply focus_root|done| |].
    { intros ? ? ? ? _ Hsome Hupd. exfalso. rewrite Hen in Hsome, Hupd. destruct (hit_answer _ _ _ _ _ _ _ _ Hlf) as (Ha & _).
      destruct Hfull as [Hf|[_ Hh]]; [|by destruct (Hhalf Hv Hh)].
      rewrite Hu, Hupd in Hf. rewrite <- Hf in Ha. rewrite Ha in Hsome. by destruct Hsome. }
    exists (length es), (length es2). split_and!; [by exists pre0, es, b, post0|by eexists _, es2, _, _|by apply Hlt].
  - rewrite (oa_node Hop2). runs.
    rewrite (open_find_key bt Hc node_ret t2 _ _ _ _ _ _ _ _ _ _ _ _ _ _ _ _ _ _ _ Hop2 (fo_flat (in_flat Hinv2)) Hne).
    runs. cbn [fst].
    destruct (open_child_node bt node_ret page _ _ _ _ _ _ _ _ _ _ _ _ _ _ _ _ _ _ _ Hop2) as (_ & Hmb & _).
    rewrite (assert_true (negb (mem =? BAD_CHILD))) by (by apply negb_true_iff, Z.eqb_neq). runs.
    rewrite Z.eqb_refl. cbn [orb assert_]. runs. rewrite Hn2. runs.
    destruct (focus_found t2 D1 W2 I2 mem) as (n3 & es3 & j3 & Hlf3 & Hfk3);
      [by eapply open_focus|done|].
    assert (n3 = n2) as -> by (pose proof (lf_node Hlf3); congruence).
    rewrite Hfk3. runs. rewrite Z.eqb_refl. cbn [assert_]. runs. eexists. split; [done|]. split; [done|].
    exists D1, W2, I2, n2, es3, j3.
    pose proof Hlf3 as [(b3 & p3 & q3 & o3 & _ & Hloc3 & _) _ _ _ Hsp3 _].
    destruct (located_unique cmp key None _ _ _ _ _ _ _ _ _ Hloc2 Hloc3) as (_ & <- & _ & _).
    pose proof (splits_unique bt _ _ _ _ _ Hspj Hsp3) as <-.
    split_and!; try done. destruct Hfull as [Hf|[-> Hh]]; [|by destruct (Hhalf Hv Hh)].
    destruct (hit_answer _ _ _ _ _ _ _ _ Hlf3) as (Ha3 & Hold3 & _). rewrite Hen in Ha3.
    assert (hit_at es i = hit_at es2 j) as Eh; [|by rewrite Hf, Eh].
    destruct (hit_answer _ _ _ _ _ _ _ _ Hlf) as (Ha & Hold & _).
    destruct (hit_at es i), (hit_at es2 j); try done.
    + destruct (Hold eq_refl) as (old & Hi & _). congruence.
    + destruct (Hold3 eq_refl) as (old & Hi & _). congruence.
Qed.
End leaf_case.

(** ** Non-leaf nodes *)

(** One step down from a node that is not full. *)
Lemma step_down t D W I d id v :
  focus (t_nodes t) D (rootid t) key None W I (S d) id -> inv t W I -> t_nodes t !! id = Some (TNonLeaf v) ->
  exists c nk, find_key bt t (TNonLeaf v) key = Some (c, nk, true) /\ c <> BAD_CHILD /\
    (is_full_insert bt v = false -> stands_at t D W I d c (Some id) nk).
Proof using Hc CmpOk0.
  intros Hfo Hinv Hv. pose proof (fo_flat (in_flat Hinv)) as Hf.
  destruct (focus_open bt node_ret page _ _ _ _ _ _ _ _ Hfo Hf) as (pub & v' & seps & pre & post & out & Hv' & Hnl & Hne & Hs & Hgo).
  assert (v' = v) as -> by congruence.
  destruct (find_key_routes bt Hc t id v seps key Hnl Hs Hne) as (i & Hsp & Hfk).
  { intros i Hi. destruct (Hgo i Hi) as (kl & kr & fl & ids & <- & Ho). by eapply open_child_node. }
  destruct (Hgo i Hsp) as (kl & kr & fl & ids & <- & Ho). eexists _, _. split; [exact Hfk|]. split; [by eapply open_child_node|].
  intros Hfull. by eapply below.
Qed.

Lemma split_nonleaf_ok t D W I d child parent pnk cv pwl sp pc upd :
  stands_at t D W I (S d) child parent pnk -> inv t W I -> t_nodes t !! child = Some (TNonLeaf cv) ->
  is_full_insert bt cv = true ->
  exists s, mwrite_split bt is_nodes_available t child false parent pnk pwl sp pc key (e_datalen pe) tomb upd = Some s /\
    match s with
    | SDone r => descent_ok t W r
    | SDown t' c p nk pwl' pc' => tree_step t t' /\ exists D' I', inv t' W I' /\ stands_at t' D' W I' d c (Some p) nk
    end.
Proof using Hc CmpOk0 Havail.
  intros Hst Hinv Hcv Hfull. unfold mwrite_split.
  destruct (split_ready t D W I (S d) child parent pnk pwl Hst Hinv)
    as (t1 & parent1 & pnk1 & pwl1 & -> & Hts1 & Hch & Hcase).
  destruct Hcase as [(-> & Hr & Haf)|(D1 & I1 & pid & pub & v & seps & kl & kr & pre & post & out & fl & ids & -> & -> & Hv & Hinv1 & Ho)].
  { rewrite Hr. cbn. eexists. split; [done|]. by split_and!. }
  rewrite Hcv in Hch.
  destruct (msplit_nonleaf bt Hc node_ret snaps q is_nodes_available Havail t1 D1 key W I1 d pid pub v seps kl kr pre post out
              child fl ids cv (e_datalen pe) tomb Ho Hinv1 Hv Hch Hfull) as (t2 & ret & x & y & Hts2 & -> & Hres). runs.
  assert (tree_step t t2) as Hts by (by etrans).
  destruct Hres as [[-> Haf]|(-> & -> & Hr2 & Hinv2 & p' & nid & nv & j & Hp' & Hfk & Hnid & Hfo & Hnv & Hnf)].
  { eexists. split; [done|]. split_and!; [done..|]. by apply (alloc_failed_after t t1). }
  rewrite Hp'. runs. rewrite Hfk. runs. cbn [fst].
  destruct (focus_node _ _ _ _ _ _ _ _ _ _ _ _ Hfo) as (_ & Hbad & _).
  rewrite (assert_true (negb (nid =? BAD_CHILD))) by (by apply negb_true_iff, Z.eqb_neq). runs.
  rewrite orb_true_r. cbn [assert_]. runs.
  assert ((if child =? nid then child else y) = nid) as ->.
  { destruct (Z.eqb_spec child nid); [done|]. by destruct Hnid. }
  rewrite Hnv. runs. destruct (step_down t2 D1 W (y :: I1) d nid nv Hfo Hinv2 Hnv) as (c & nk & -> & Hcb & Hdown). runs.
  rewrite (proj2 (Z.eqb_neq c BAD_CHILD)) by done. eexists. split; [done|]. split; [done|]. exists D1, (y :: I1). auto.
Qed.

(** ** The descent *)

Lemma descent_ok_trans t t' W r : tree_step t t' -> descent_ok t' W r -> descent_ok t W r.
Proof using Type.
  intros Hts. destruct r; cbn; intros [H1 H2]; (split; [by etrans|]); [done|done|].
  destruct H2 as [H2 H3]. split; [done|]. by apply (alloc_failed_after t t').
Qed.

Lemma mwrite_descend_ok fuel : forall t D W I d child parent pnk pwl sp pc,
  stands_at t D W I d child parent pnk -> inv t W I -> roomy W -> (2 * d + (if (sp : bool) then 1 else 2) <= fuel)%nat ->
  exists r, mwrite_descend bt node_ret m is_nodes_available fuel t child parent pnk pwl sp pc key (e_datalen pe) tomb = Some r /\
    descent_ok t W r.
Proof using All.
  induction fuel as [|fuel IH]; intros t D W I d child parent pnk pwl sp pc Hst Hinv Hroom Hfu; [destruct sp; lia|].
  cbn [mwrite_descend]. pose proof (stands_focus _ _ _ _ _ _ _ _ Hst) as Hfo.
  destruct (focus_node _ _ _ _ _ _ _ _ _ _ _ _ Hfo) as (Hret & Hbad & x & Hx).
  unfold get_existing_node. rewrite decide_True, Hx by done. runs. destruct d as [|d].
  - destruct (focus_found t D W I child Hfo Hinv) as (n & es & i & Hlf & Hfk).
    assert (x = TLeaf n) as -> by (pose proof (lf_node Hlf); congruence).
    rewrite Hfk. runs. destruct (hit_answer _ _ _ _ _ _ _ _ Hlf) as (Ha & Hold & Hi).
    pose proof Hlf as [(b & pre & post & out & _ & Hloc & _) _ _ Hp _ _].
    rewrite (is_update_leaf n es i Hp Hold), <- Ha. runs.
    set (u := updates (answer cmp key None (entries W))) in *.
    assert (u = true -> hit_at es i = true) as Hu by (unfold u; rewrite Ha; by destruct (hit_at es i)).
    destruct (leaf_full_ok bt Hc n es i pe tomb u Hp Hpe Hi) as (full & -> & Hfit & Hmany & Hex & _); [auto|]. runs.
    destruct full; cbn [negb].
    + assert (u = hit_at es i \/ u = false /\ halves_roomy bt es pe) as Euh.
      { destruct u eqn:Eu; [left; by rewrite Hu|]. destruct (hit_at es i) eqn:Eh; [|by left].
        destruct (Hold eq_refl) as (old & Ho & _). specialize (Hex eq_refl). symmetry in Hex. b2p.
        destruct (Hroom pre es b post Hloc) as [Hr|Hr]; [by rewrite Ha, Ho|done|lia|by right]. }
      match goal with |- context [if ?c then mwrite_descend _ _ _ _ _ _ _ _ _ _ _ _ _ _ _ else _] => destruct c eqn:Ec end.
      * apply (IH t D W I 0%nat); try done. apply andb_true_iff in Ec as [Ec _]. destruct sp; [done|lia].
      * destruct (split_leaf_ok t D W I child parent pnk n es i Hst Hlf u eq_refl Euh (Hmany eq_refl) pwl sp (pc + 1)) as (r & Hr & Hok).
        rewrite Hr. runs. by exists r.
    + rewrite Z.eqb_refl. cbn [assert_]. runs. eexists. split; [done|]. split; [done|].
      exists D, W, I, n, es, i. by split_and!; [..|apply Hfit].
  - destruct (focus_down bt node_ret page _ _ _ _ _ _ _ _ _ Hfo (fo_flat (in_flat Hinv))) as (v & _ & Hv & _).
    assert (x = TNonLeaf v) as -> by congruence.
    destruct (step_down t D W I d child v Hfo Hinv Hv) as (c & nk & -> & Hcb & Hdown). runs.
    destruct (is_full_insert bt v) eqn:Ef; cbn [negb is_update_of is_node_full]; runs; rewrite Ef; cbn [negb].
    + match goal with |- context [if ?c then mwrite_descend _ _ _ _ _ _ _ _ _ _ _ _ _ _ _ else _] => destruct c eqn:Ec end.
      * apply (IH t D W I (S d)); try done. apply andb_true_iff in Ec as [Ec _]. destruct sp; [done|lia].
      * destruct (split_nonleaf_ok t D W I d child parent pnk v pwl sp (pc + 1) true Hst Hinv Hv Ef) as (s & -> & Hs). runs.
        destruct s as [r|t' c' p' nk' pwl' pc']; [by exists r|]. destruct Hs as (Hts & D' & I' & Hinv' & Hst').
        destruct (IH t' D' W I' d c' (Some p') nk' pwl' false pc' Hst' Hinv' Hroom) as (r & -> & Hok); [destruct sp; lia|].
        exists r. split; [done|]. by apply (descent_ok_trans t t').
    + rewrite (proj2 (Z.eqb_neq c BAD_CHILD)) by done. apply (IH t D W I d); try done; [auto|destruct sp; lia].
Qed.
End descend.

Arguments lf_node {_ _ _ _ _ _ _ _ _ _ _ _ _} _.
Arguments lf_page {_ _ _ _ _ _ _ _ _ _ _ _ _} _.
