(* ===== verification/TreeStore.v ===== *)
(** * Objects and readers

    First the objects of a tree and the overflow nodes they own, then what
    readers see while a leaf changes. *)

From stdpp Require Import gmap.
From S2P Require Import Prelude Status LeafMeta LeafNode LeafOps LeafCells LeafEncode LeafFixup LeafSpec LeafRefine LeafPlain LeafMove NodeSearch LeafTheorems NodeSearchSpec NonLeaf NonLeafSpec NodeTheorems TreeFlat PStats Overflow OverflowSpec OverflowTheorems Snapshot SnapshotSpec SnapshotTheorems Scavenger ScavengerTheorems Tree TreeSpec TreeWrite TreeEdit TreeSplit TreeSplitLeaf.

(** * The objects of a tree

    [store_ok] says that every entry of the tree has its data, in the leaf or
    in a chain of overflow nodes of its own, and that none of these nodes is
    about to be deleted. The steps of a write keep it: dropping entries,
    replacing one, adding one, and the flush. *)

#[export] Instance entry_eq_dec : EqDecision entry.
Proof. solve_decision. Defined.

Section store.
Context (bt : btree_raw) (read_ret : Z -> btree_status) (Hread : forall id, read_ret id = BTREE_SUCCESS).

Record store_ok (st : ov_state) (es : list entry) (content : entry -> list byte) (own : entry -> list Z) : Prop := {
  sk_holds : Forall (fun e => holds bt read_ret st e (content e) (own e)) es;
  sk_nodup : NoDup (concat (own <$> es));
  sk_alive : forall i, i ∈ concat (own <$> es) -> i ∉ doomed st
}.

#[local] Arguments sk_alive {_ _ _ _} _.

Lemma accessible_alive st i : i ∉ doomed st -> accessible read_ret st i.
Proof using Hread. intros Hi. split; [|by right]. intros H. apply Hi. apply elem_of_app. by left. Qed.

Lemma own_elem (own : entry -> list Z) es e i : e ∈ es -> i ∈ own e -> i ∈ concat (own <$> es).
Proof using Type.
  intros He Hi. apply (elem_of_concat_2 (own e)); [done|]. apply list_elem_of_fmap. by exists e.
Qed.

(** An entry keeps its object when its nodes do not change and stay alive. *)
Lemma holds_keep st st' e data ids :
  holds bt read_ret st e data ids -> (forall i, i ∈ ids -> ov_nodes st' !! i = ov_nodes st !! i /\ i ∉ doomed st') ->
  holds bt read_ret st' e data ids.
Proof using Hread.
  intros [Hl Hh] Hk. split; [done|]. case_if; [|done]. destruct Hh as (rest & Hch & Hd & Hacc). exists rest. split_and!; [|done|].
  - apply (chain_ext bt (ov_nodes st)); [done|]. intros i Hi. by apply Hk.
  - apply Forall_lookup_2. intros j i Hj. apply accessible_alive, Hk. by eapply list_elem_of_lookup_2.
Qed.

Lemma store_keep st st' es content own :
  store_ok st es content own ->
  (forall i, i ∈ concat (own <$> es) -> ov_nodes st' !! i = ov_nodes st !! i /\ i ∉ doomed st') ->
  store_ok st' es content own.
Proof using Hread.
  intros [Hh Hnd Ha] Hk. split; [|done|by intros i Hi; apply Hk]. apply Forall_lookup_2. intros j e Hj.
  apply (holds_keep st); [apply (Forall_at Hh Hj)|]. intros i Hi. apply Hk.
  apply (own_elem own es e); [by eapply list_elem_of_lookup_2|done].
Qed.

Lemma store_same st st' es content own : same_data st st' -> store_ok st es content own -> store_ok st' es content own.
Proof using Hread.
  intros [E1 E2 E3 E4 _] Hs. apply (store_keep st); [done|]. intros i Hi. rewrite E1. split; [done|].
  unfold doomed. rewrite E3, E4. by apply (sk_alive Hs).
Qed.

Lemma concat_own_perm (own : entry -> list Z) es es' : es ≡ₚ es' -> concat (own <$> es) ≡ₚ concat (own <$> es').
Proof using Type.
  intros H. induction H as [|x l l' H IH|x y l|l l' l'' H1 IH1 H2 IH2]; cbn in *; [done| | |by etrans].
  - by apply Permutation_app_head.
  - rewrite !app_assoc. apply Permutation_app_tail, Permutation_app_comm.
Qed.

Lemma store_perm st es es' content own : es ≡ₚ es' -> store_ok st es content own -> store_ok st es' content own.
Proof using Type.
  intros Hp [Hh Hnd Ha]. pose proof (concat_own_perm own _ _ Hp) as Hc. split.
  - by rewrite <- Hp.
  - by rewrite <- Hc.
  - intros i. rewrite <- Hc. apply Ha.
Qed.

Lemma store_part st es rest content own : store_ok st (es ++ rest) content own -> store_ok st es content own.
Proof using Type.
  intros [Hh Hnd Ha]. rewrite fmap_app, concat_app in Hnd, Ha. apply list.NoDup_app in Hnd as (Hnd & _).
  apply Forall_app in Hh as [Hh _]. split; [done|done|]. intros i Hi. apply Ha, elem_of_app. by left.
Qed.

(** Entries go, with their nodes. *)
Lemma store_drop st st' es gone content own :
  store_ok st (es ++ gone) content own -> dropped read_ret st st' (concat (own <$> gone)) -> store_ok st' es content own.
Proof using Hread.
  intros [Hh Hnd Ha] [D1 D2 D3 D4]. rewrite fmap_app, concat_app in Hnd, Ha. apply list.NoDup_app in Hnd as (Hnd & Hdis & _).
  apply Forall_app in Hh as [Hh _]. apply (store_keep st).
  - split; [done|done|]. intros i Hi. apply Ha, elem_of_app. by left.
  - intros i Hi. rewrite D1. split; [done|]. rewrite D3. apply not_elem_of_app. split; [by apply Hdis|].
    apply Ha, elem_of_app. by left.
Qed.

(** New nodes come. *)
Record added (st st' : ov_state) (news : list Z) : Prop := {
  ad_nodes : forall i, i ∉ news -> ov_nodes st' !! i = ov_nodes st !! i;
  ad_doomed : doomed st' = doomed st
}.

Definition upd {A} (f : entry -> A) (e : entry) (a : A) : entry -> A := fun x => if decide (x = e) then a else f x.

Lemma upd_eq {A} (f : entry -> A) e a : upd f e a e = a.
Proof using Type. unfold upd. by rewrite decide_True. Qed.
Lemma upd_ne {A} (f : entry -> A) e a x : x <> e -> upd f e a x = f x.
Proof using Type. intros H. unfold upd. by rewrite decide_False. Qed.
Lemma upd_list {A} (f : entry -> A) e a (es : list entry) : e ∉ es -> upd f e a <$> es = f <$> es.
Proof using Type.
  intros He. apply list_fmap_ext. intros i x Hx. apply upd_ne. intros ->. apply He. by eapply list_elem_of_lookup_2.
Qed.

Lemma store_add st st' es content own e data news :
  store_ok st es content own -> added st st' news -> e ∉ es -> holds bt read_ret st' e data news -> NoDup news ->
  (forall i, i ∈ news -> i ∉ concat (own <$> es) /\ i ∉ doomed st) ->
  store_ok st' (e :: es) (upd content e data) (upd own e news).
Proof using Hread.
  intros Hs [A1 A2] He Hh Hnd Hn.
  assert (store_ok st' es content own) as [Hh' Hnd' Ha'].
  { apply (store_keep st); [done|]. intros i Hi. rewrite A2. split; [|by apply (sk_alive Hs)].
    apply A1. intros Hin. by destruct (Hn i Hin). }
  split.
  - constructor; [by rewrite !upd_eq|]. apply Forall_lookup_2. intros j x Hx.
    assert (x <> e) by (intros ->; apply He; by eapply list_elem_of_lookup_2).
    rewrite !upd_ne by done. apply (Forall_at Hh' Hx).
  - rewrite fmap_cons, upd_eq, upd_list by done. cbn. apply list.NoDup_app. split_and!; [done| |done].
    intros i Hi. by destruct (Hn i Hi).
  - intros i. rewrite fmap_cons, upd_eq, upd_list by done. cbn. intros [Hi|Hi]%elem_of_app; [|by apply Ha'].
    rewrite A2. by destruct (Hn i Hi).
Qed.

(** ** Writing one object into a leaf *)

Context (Hc : wconf bt).

(** The entry of an object whose overflow chain starts at [p]. *)
Definition object_entry (key data : list byte) (p seqno_ : Z) (tomb : bool) : entry :=
  mk_entry key (lenZ data) (take (z2n (data_inleaf bt (lenZ key) (lenZ data))) data) p seqno_ tomb.

(** What a request may write. *)
Record writable (key data : list byte) (seqno_ : Z) : Prop := {
  wr_key : 0 < lenZ key < max_key_size bt;
  wr_big_key : lenZ key <= big_object_size bt;
  wr_data : lenZ data < 2 ^ 64;
  wr_seqno : 0 < seqno_ < 2 ^ 64;
  wr_big : big_object_kd bt (lenZ key) (lenZ data) = true -> data <> []
}.

Lemma object_entry_ok key data p seqno_ tomb :
  writable key data seqno_ -> 0 <= p < 2 ^ 64 -> (p = 0 <-> big_object_kd bt (lenZ key) (lenZ data) = false) ->
  entry_ok bt (object_entry key data p seqno_ tomb).
Proof using Hc.
  destruct Hc as [Hbt _ _ _]. intros [Hk Hkb Hd Hs Hbig] Hp Hpz.
  assert (0 <= data_inleaf bt (lenZ key) (lenZ data) <= lenZ data) as Hr.
  { unfold data_inleaf. case_if; [|lia]. destruct (inleaf_lt bt Hbt (lenZ key) (lenZ data)); [lia| |lia].
    destruct data; [by destruct Hbig|cbn [length]; lia]. }
  split; cbn [object_entry e_key e_datalen e_data e_ptr e_seqno]; try done; try lia. rewrite length_take. lia.
Qed.

Definition place (upd : bool) (es : list entry) (i : nat) (e : entry) : list entry :=
  if upd then <[i := e]> es else take i es ++ e :: drop i es.

Lemma put_object n es i st key data seqno_ tomb (upd : bool) own news pe :
  leaf_plain bt n es -> (i <= length es)%nat -> writable key data seqno_ -> entry_ok bt pe ->
  e_key pe = key -> e_datalen pe = lenZ data -> fits bt es i pe upd ->
  (forall old, upd = true -> es !! i = Some old -> owns bt read_ret st old (own old)) ->
  (forall st', (if upd then dropped read_ret st st' (default [] (own <$> es !! i)) else st' = st) ->
     supplied bt st' news (overflow_part bt key data)) ->
  exists st1 st' n' p, btree_leaf_insert_low bt read_ret st n key data seqno_ tomb i upd = Some (st', n', true, BTREE_SUCCESS) /\
    leaf_plain bt n' (place upd es i (object_entry key data p seqno_ tomb)) /\ same_frame n n' /\
    (if upd then dropped read_ret st st1 (default [] (own <$> es !! i)) else st1 = st) /\ added st1 st' news.*1 /\
    holds bt read_ret st' (object_entry key data p seqno_ tomb) data news.*1 /\ entry_ok bt (object_entry key data p seqno_ tomb).
Proof using Hc.
  pose proof Hc as [Hbt Hso _ _]. intros Hp Hi Hw Hpe Hpk Hpd Hfit Hown Hsup. unfold btree_leaf_insert_low. cbv zeta.
  assert (exists st1,
    (if upd then
       ki ← btree_leaf_get_nth_key_info2 n i;
       if big_object_kd bt (ki_keylen ki) (ki_datalen ki) then
         delete_overflow_data bt read_ret st (ki_ptr ki)
           (u64 (ki_datalen ki - btree_get_bigobj_inleaf bt (ki_keylen ki) (ki_datalen ki)))
       else Some (st, BTREE_SUCCESS)
     else Some (st, BTREE_SUCCESS)) = Some (st1, BTREE_SUCCESS) /\
    (if upd then dropped read_ret st st1 (default [] (own <$> es !! i)) else st1 = st)) as (st1 & -> & Hdr).
  { destruct upd; [|by exists st]. destruct Hfit as (old & Hold & _ & _). rewrite Hold. cbn [fmap option_fmap option_map default].
    destruct (pg_read (LeafPages := leaf_plain_pages bt Hbt Hso) n es i old Hp Hold) as [-> _]. runs.
    cbn [ki_keylen ki_datalen ki_ptr e_info]. specialize (Hown old eq_refl Hold). unfold owns in Hown.
    pose proof (Forall_at (lp_entries Hp) Hold) as Hok. pose proof (eo_data _ _ Hok) as Hdl.
    unfold data_inleaf in Hdl. destruct (big_object_kd bt (lenZ (e_key old)) (e_datalen old)).
    - destruct Hown as (rest & Hch & Hlen & Hacc). pose proof (eo_datalen _ _ Hok).
      rewrite <- Hdl, u64_small by lia. replace (e_datalen old - lenZ (e_data old)) with (lenZ rest) by lia.
      destruct (delete_overflow_ok bt read_ret Hbt st _ _ _ Hch Hacc) as (st1 & -> & Hns & Hdm & Hk & Hsu).
      exists st1. by split.
    - exists st. rewrite Hown. split; [done|apply dropped_refl]. }
  runs. rewrite decide_True by done. specialize (Hsup st1 Hdr).
  destruct (alloc_object bt read_ret Hbt st1 key data tomb news)
    as (st2 & p & Hal & Hpr & Hpz & Hobj & Hfr & Hdoom & _); [apply Hw..|done|].
  cbv zeta. rewrite Hal. runs. set (e := object_entry key data p seqno_ tomb).
  assert (entry_ok bt e) as He by (by apply object_entry_ok).
  assert (entry_size bt e = entry_size bt pe) as Hsz.
  { unfold entry_size, size_type, e. cbn [object_entry e_key e_datalen]. by rewrite Hpk, Hpd. }
  set (post := drop (z2n (data_inleaf bt (lenZ key) (lenZ data))) data).
  assert (data = e_data e ++ post) as Hdata by (unfold e, post; cbn [object_entry e_data]; by rewrite take_drop).
  assert (exists n' b s, btree_leaf_update_key bt n key data (lenZ data) seqno_ p tomb i upd = Some (n', b, s) /\
    leaf_plain bt n' (place upd es i e) /\ same_frame n n') as (n' & b & s & Hup & Hp' & Hfrm).
  { destruct upd.
    - destruct Hfit as (old & Hold & Hko & Hle).
      destruct (plain_update bt Hbt Hso n es i old e data post Hp Hold He Hdata) as (n' & Hup & Hp' & Hfrm); [by rewrite Hsz|].
      by eexists n', _, _.
    - unfold fits in Hfit.
      destruct (plain_insert bt Hbt Hso n es i e data post Hp He Hi Hdata) as (n' & Hins & Hp' & Hfrm); [by rewrite Hsz|].
      unfold btree_leaf_update_key. rewrite (proj2 (Z.ltb_lt _ _)) by apply Hw. cbn [assert_]. runs.
      change (mk_key_info p key (lenZ key) (lenZ data) seqno_ tomb) with (e_info e).
      change (btree_leaf_insert_key_index bt n key data (lenZ data) (e_info e) i false = Some (n', entry_size bt e)) in Hins.
      rewrite Hins. runs. by eexists n', _, _. }
  rewrite Hup. runs. eexists st1, _, n', p. split; [done|]. split_and!; try done.
  exact (Hobj seqno_).
Qed.
End store.

Arguments wr_big {_ _ _ _} _.

Arguments sk_holds {_ _ _ _ _ _} _.
Arguments sk_alive {_ _ _ _ _ _} _.

(** * What readers see while a leaf changes *)

Section views.
Context (cmp : list byte -> list byte -> Z) `{!CmpOk cmp} (snaps : list Z).

(** The data a request sees: the newest version it asks for, unless that is a
    tombstone. *)
Definition view (W : list fleaf) (content : entry -> list byte) (k : list byte) (m : option btree_metadata)
    : option (list byte) :=
  match answer cmp k m (entries W) with
  | Some e => if e_tomb e then None else Some (content e)
  | None => None
  end.

Definition same_views (W : list fleaf) (content : entry -> list byte) (W' : list fleaf) (content' : entry -> list byte) : Prop :=
  forall k m, reads snaps m -> view W' content' k m = view W content k m.

(** The abstract effect of a write: the snapshots and the other keys see what
    they saw. *)
Record put_views (W : list fleaf) (content : entry -> list byte) (W' : list fleaf) (content' : entry -> list byte)
    (key : list byte) (v : option (list byte)) : Prop := {
  pv_snap : forall k s, s ∈ snaps -> view W' content' k (at_snapshot s) = view W content k (at_snapshot s);
  pv_other : forall k, cmp k key <> 0 -> view W' content' k None = view W content k None;
  pv_key : view W' content' key None = v
}.

Lemma put_views_same W0 c0 W c W' c' key v :
  same_views W0 c0 W c -> put_views W c W' c' key v -> put_views W0 c0 W' c' key v.
Proof using Type.
  intros Hs [H1 H2 H3]. split; [| |done].
  - intros k s Hin. rewrite H1 by done. apply Hs. right. by exists s.
  - intros k Hk. rewrite H2 by done. apply Hs. by left.
Qed.

Lemma same_views_trans W0 c0 W c W' c' : same_views W0 c0 W c -> same_views W c W' c' -> same_views W0 c0 W' c'.
Proof using Type. intros H1 H2 k m Hm. rewrite (H2 k m Hm). by apply H1. Qed.

Lemma same_entries_views W W' c : entries W' = entries W -> same_views W c W' c.
Proof using Type. intros E k m _. unfold view. by rewrite E. Qed.

Lemma entries_leaf pre es b (post : list fleaf) : entries (pre ++ (es, b) :: post) = entries pre ++ es ++ entries post.
Proof using Type. by rewrite entries_app, entries_cons. Qed.

(** ** Scavenging a leaf *)

Section scavenged.
Context W key pre es b post es1 (Hok : flat_ok cmp snaps W) (Hloc : located cmp key None W pre es b post)
  (Hsub : sublist es1 es) (Hview : forall k mm, reads snaps mm -> scav_view cmp es es1 k mm).
Abbreviation W1 := (pre ++ (es1, b) :: post).

Lemma gone_tombstone k m tb g x :
  side cmp k m (entry_version tb) = Eq -> g ∈ es -> cmp (e_key tb) (e_key g) < 0 -> x ∈ entries post ->
  side cmp k m (entry_version x) <> Eq.
Proof using CmpOk0 Hok Hloc.
  intros Htb Hg Hlt Hx Heq. destruct (flat_entries cmp _ _ _ (fo_flat Hok)) as (Hs & _ & _).
  destruct Hloc as (-> & _). rewrite entries_leaf in Hs. apply vsorted_app in Hs as (_ & Hs & _).
  apply vsorted_app in Hs as (_ & _ & Ho).
  assert (cmp (e_key tb) (e_key x) < 0) as Htx.
  { specialize (Ho g x Hg Hx). unfold ordered in Ho. cbn in Ho. apply (cmp_lt_trans' cmp _ (e_key g)); [done|lia]. }
  pose proof (side_key_lt cmp k m (entry_version tb) (entry_version x) Htx Heq). congruence.
Qed.

Lemma flat_scavenge : flat_ok cmp snaps W1.
Proof using All.
  split.
  - apply (flat_leaf_change cmp None W None key None pre es); [apply Hok|done|]. intros l _ Hin. by apply (leaf_in_sublist cmp l es).
  - intros k m Hm. destruct Hloc as (HW & _). apply (covers_change cmp k m pre es).
    + intros (x & Hx & He). left. exists x. split; [by eapply elem_of_sublist|done].
    + intros (x & Hx & He). destruct (Hview k m Hm) as [E|(tb & g & Ha & Ht & _ & Hg & Hlt)].
      * left. destruct (answer cmp k m es1) as [y|] eqn:Ey; [by apply answer_Some in Ey; exists y|].
        symmetry in E. by apply (proj1 (answer_None cmp k m es) E x) in Hx.
      * right. intros y Hy. apply answer_Some in Ha as [_ Ha]. by apply (gone_tombstone k m tb g y).
    + rewrite <- HW. by apply (fo_covers Hok).
Qed.

Lemma answer_scavenged k m :
  reads snaps m -> answer cmp k m (entries W1) = answer cmp k m (entries W) \/
  answer cmp k m (entries W1) = None /\ exists tb, answer cmp k m (entries W) = Some tb /\ e_tomb tb = true.
Proof using All.
  intros Hm. pose proof Hloc as (HW & _). rewrite HW, !entries_leaf, !answer_app.
  destruct (answer cmp k m (entries pre)); [by left|].
  destruct (Hview k m Hm) as [->|(tb & g & Ha & Ht & -> & Hg & Hlt)]; [by left|]. rewrite Ha. right.
  split; [|by exists tb]. apply answer_None. intros x Hx. apply answer_Some in Ha as [_ Ha]. by apply (gone_tombstone k m tb g).
Qed.

Lemma views_scavenged content : same_views W content W1 content.
Proof using All.
  intros k m Hm. unfold view. destruct (answer_scavenged k m Hm) as [->|(-> & tb & -> & ->)]; done.
Qed.

Lemma located_scavenged : located cmp key None W1 pre es1 b post.
Proof using Hloc. by destruct Hloc as (_ & ? & ?). Qed.
End scavenged.

(** ** Putting a version *)

Section put.
Context W key pre es b post i e (Hok : flat_ok cmp snaps W) (Hloc : located cmp key None W pre es b post)
  (Hsp : splits cmp (entry_version <$> es) key None i) (Hk : e_key e = key) (Hq : flat_below (e_seqno e) W)
  (Hsn : Forall (fun s => s < e_seqno e) snaps)
  (upd : bool) (Hupd : upd = true -> exists old, es !! i = Some old /\ cmp key (e_key old) = 0 /\
                                                  Forall (fun s => s < e_seqno old) snaps).
Abbreviation W2 := (pre ++ (place upd es i e, b) :: post).

Lemma flat_put : flat_ok cmp snaps W2.
Proof using All.
  unfold place. destruct upd.
  - destruct (Hupd eq_refl) as (old & Hi & Hko & Hact). by apply (flat_update cmp snaps W pre es b post key i e) with old.
  - by apply (flat_insert cmp snaps W pre es b post key i e).
Qed.

Lemma filter_place (P : entry -> Prop) `{!forall x, Decision (P x)} :
  ~ P e -> (forall old, upd = true -> es !! i = Some old -> ~ P old) -> filter P (place upd es i e) = filter P es.
Proof using Hupd.
  intros He Ho. unfold place. destruct upd.
  - destruct (Hupd eq_refl) as (old & Hi & _). rewrite insert_take_drop by (by eapply lookup_lt_Some).
    rewrite <- (take_drop_middle es i old Hi) at 3. rewrite !list.filter_app, !filter_cons, !decide_False; [done| |done].
    by apply Ho.
  - rewrite <- (take_drop i es) at 3. by rewrite !list.filter_app, filter_cons, decide_False.
Qed.

Lemma answer_place k m :
  side cmp k m (entry_version e) <> Eq ->
  (forall old, upd = true -> es !! i = Some old -> side cmp k m (entry_version old) <> Eq) ->
  answer cmp k m (entries W2) = answer cmp k m (entries W).
Proof using Hupd Hloc.
  intros He Ho. pose proof Hloc as (HW & _). rewrite HW, !entries_leaf. unfold answer. rewrite !list.filter_app.
  by rewrite filter_place.
Qed.

Lemma answer_snap k s : s ∈ snaps -> answer cmp k (at_snapshot s) (entries W2) = answer cmp k (at_snapshot s) (entries W).
Proof using Hupd Hloc Hsn.
  intros (j & Hj)%list_elem_of_lookup_1.
  assert (forall x, Forall (fun s => s < e_seqno x) snaps -> side cmp k (at_snapshot s) (entry_version x) <> Eq) as Hlt.
  { intros x Hx Hs. pose proof (Forall_at Hx Hj) as Hlt. cbn beta in Hlt. rewrite side_at in Hs. cbn in Hs.
    rewrite (proj2 (Z.leb_gt _ _)) in Hs by lia. by repeat destruct (_ : bool) in Hs. }
  apply answer_place; [by apply Hlt|]. intros old Hu Hi. apply Hlt. destruct (Hupd Hu) as (old' & Hi' & _ & Ha).
  by assert (old' = old) as -> by congruence.
Qed.

Lemma answer_other k : cmp k key <> 0 -> answer cmp k None (entries W2) = answer cmp k None (entries W).
Proof using Hupd Hloc Hk CmpOk0.
  intros Hne. apply answer_place.
  - intros Hs%side_eq_key. cbn in Hs. by rewrite Hk in Hs.
  - intros old Hu Hi Hs%side_eq_key. cbn in Hs. destruct (Hupd Hu) as (old' & Hi' & Hko & _). apply Hne.
    assert (old' = old) as -> by congruence. pose proof (cmp_antisym key (e_key old)).
    pose proof (cmp_eq_l cmp (e_key old) key k). pose proof (cmp_antisym k key). pose proof (cmp_antisym k (e_key old)). lia.
Qed.

Lemma answer_put : answer cmp key None (entries W2) = Some e.
Proof using All.
  rewrite (answer_located cmp key None None W2 None pre (place upd es i e) b post); [|apply flat_put|apply flat_put; by left| ].
  2: { by destruct Hloc as (_ & ? & ?). }
  assert (exists rest, place upd es i e = take i es ++ e :: rest) as (rest & ->).
  { unfold place. destruct upd; [|by eexists]. destruct (Hupd eq_refl) as (old & Hi & _).
    rewrite insert_take_drop by (by eapply lookup_lt_Some). by eexists. }
  rewrite answer_app.
  assert (answer cmp key None (take i es) = None) as ->.
  { apply answer_None. intros x (j & Hj)%list_elem_of_lookup_1. apply lookup_take_Some in Hj as [Hj Hlt].
    assert (side cmp key None (entry_version x) = Lt) as ->; [|done]. apply (proj2 Hsp j); [by rewrite list_lookup_fmap, Hj|done]. }
  unfold answer. rewrite filter_cons, decide_True; [done|]. rewrite side_none. cbn. rewrite Hk.
  by rewrite (cmp_refl cmp).
Qed.

(** A new version is in no older state. *)
Lemma new_entry : e ∉ entries W.
Proof using Hq.
  clear -Hq. intros Hin. unfold entries in Hin. apply list_elem_of_In, in_concat in Hin as (l & Hl & Hin).
  apply list_elem_of_In, list_elem_of_fmap in Hl as ([l' c] & -> & Hx). apply list_elem_of_lookup_1 in Hx as (j & Hj).
  destruct (Forall_at Hq Hj) as [Hlt _]. apply list_elem_of_In, list_elem_of_lookup_1 in Hin as (a & Ha).
  pose proof (Forall_at Hlt Ha) as H. cbn in H. lia.
Qed.

Lemma views_put content data :
  put_views W content W2 (TreeStore.upd content e data) key (if e_tomb e then None else Some data).
Proof using All.
  assert (forall k m, answer cmp k m (entries W2) = answer cmp k m (entries W) ->
    view W2 (TreeStore.upd content e data) k m = view W content k m) as Hold.
  { intros k m E. unfold view. rewrite E. destruct (answer cmp k m (entries W)) as [x|] eqn:Ex; [|done].
    apply answer_Some in Ex as [Hx _]. rewrite upd_ne; [done|]. intros ->. by apply new_entry. }
  split.
  - intros k s Hs. by apply Hold, answer_snap.
  - intros k Hne. by apply Hold, answer_other.
  - unfold view. rewrite answer_put, upd_eq. done.
Qed.

Lemma below_put : flat_below (e_seqno e + 1) W2.
Proof using Hq Hloc.
  clear -Hq Hloc. assert (flat_below (e_seqno e + 1) W) as Hq' by (apply (flat_below_mono (e_seqno e)); [lia|done]).
  destruct Hloc as (HW & _). rewrite HW in Hq'. apply flat_below_app in Hq' as [H1 H2]. apply Forall_cons_iff in H2 as [[H2 H3] H4].
  apply flat_below_app. split; [done|]. constructor; [|done]. split; [|done]. cbn in *. unfold place. destruct upd.
  - apply Forall_insert; [done|lia].
  - apply Forall_app. split; [by apply Forall_take|]. constructor; [lia|by apply Forall_drop].
Qed.

Lemma entries_put :
  exists rest, entries W2 ≡ₚ e :: rest /\
    entries W ≡ₚ rest ++ (if upd then from_option (fun x => [x]) [] (es !! i) else []).
Proof using Hupd Hloc.
  pose proof Hloc as (HW & _). rewrite HW. setoid_rewrite entries_leaf. unfold place. destruct upd.
  - destruct (Hupd eq_refl) as (old & Hi & _). rewrite Hi. cbn [from_option].
    exists (entries pre ++ (take i es ++ drop (S i) es) ++ entries post).
    rewrite insert_take_drop by (by eapply lookup_lt_Some). split; [solve_Permutation|].
    rewrite <- (take_drop_middle es i old Hi) at 1. solve_Permutation.
  - exists (entries pre ++ (take i es ++ drop i es) ++ entries post). split; [solve_Permutation|]. by rewrite take_drop, app_nil_r.
Qed.
End put.
End views.
