(* ===== verification/TreeLeafWrite.v ===== *)
(** * The write of an object into its leaf

    [mwrite_leaf] on the sequence of leaves and on the store of objects: the
    leaf is scavenged, the place of the key is looked up again when that
    removed entries, and the object is put there unless the mode of the write
    forbids it. *)

From stdpp Require Import gmap.
From S2P Require Import Prelude Status LeafMeta LeafNode LeafOps LeafCells LeafEncode LeafFixup LeafSpec LeafRefine LeafPlain LeafMove NodeSearch LeafTheorems NodeSearchSpec NonLeaf NonLeafSpec NodeTheorems TreeFlat PStats Overflow OverflowSpec OverflowTheorems Snapshot SnapshotSpec SnapshotTheorems Scavenger ScavengerTheorems Tree TreeSpec TreeWrite TreeEdit TreeSplit TreeSplitLeaf TreeDescend TreeStore.

(** ** Entries that go and their size *)

Section sizes.
Context (bt : btree_raw) (Hbt : bt_ok bt).

Lemma entries_size_perm es es' : es ≡ₚ es' -> entries_size bt es = entries_size bt es'.
Proof using Type. induction 1; rewrite ?entries_size_cons; lia. Qed.

Lemma gone_size es es1 gone :
  Forall (entry_ok bt) es -> es ≡ₚ es1 ++ gone -> entries_size bt es1 <= entries_size bt es.
Proof using Hbt.
  intros Hes Hp. rewrite (entries_size_perm _ _ Hp), entries_size_app. rewrite Hp in Hes. apply Forall_app in Hes as [_ Hg].
  pose proof (entries_size_nonneg bt gone Hbt Hg). lia.
Qed.

Lemma gone_size_one es es1 gone old :
  Forall (entry_ok bt) es -> es ≡ₚ es1 ++ gone -> old ∈ es -> old ∉ es1 ->
  entries_size bt es1 <= entries_size bt es - entry_size bt old.
Proof using Hbt.
  intros Hes Hp Hin Hni. rewrite Hp in Hin. apply elem_of_app in Hin as [Hin|Hin]; [done|].
  apply list_elem_of_split in Hin as (g1 & g2 & ->).
  assert (es ≡ₚ (es1 ++ [old]) ++ (g1 ++ g2)) as Hp' by (rewrite Hp; solve_Permutation).
  pose proof (gone_size es (es1 ++ [old]) (g1 ++ g2) Hes Hp') as H. rewrite entries_size_app, entries_size_cons in H.
  change (entries_size bt []) with 0 in H. lia.
Qed.
End sizes.

Lemma sublist_same_length {A} (l k : list A) : sublist l k -> length l = length k -> l = k.
Proof.
  induction 1 as [|x l k H IH|x l k H IH]; [done| |]; cbn; intros E.
  - f_equal. apply IH. lia.
  - pose proof (sublist_length _ _ H). lia.
Qed.

Section leaf_write.
Context (bt : btree_raw) (Hc : wconf bt) `{!CmpOk (cmp_cb bt)} (read_ret node_ret : Z -> btree_status)
  (Hread : forall id, read_ret id = BTREE_SUCCESS) (nsz : Z) (m : btree_snap_meta) (Hm : snap_ok nsz m)
  (Hinj : forall a b, cmp_cb bt a b = 0 -> a = b)
  (astats_done : bool) (is_nodes_available : Z -> bool) (Havail : forall k, is_nodes_available k = true)
  (seqno_alloc : Z) (stale : bool)
  (q : Z) (key data : list byte) (tomb : bool) (Hw : writable bt key data q)
  (Hsn : Forall (fun s => s < q) (snap_seqs m)).
Abbreviation cmp := (cmp_cb bt).
Abbreviation U := (nodesize_less_hdr bt).
Abbreviation snaps := (snap_seqs m).
Abbreviation page := (leaf_plain bt).
Abbreviation hit_at es i := (hit cmp (entry_version <$> es) key None i).

(** The object to be written as an entry, its chain being unknown. *)
Definition probe : entry :=
  object_entry bt key data (if big_object_kd bt (lenZ key) (lenZ data) then 1 else 0) q tomb.

Lemma probe_ok : entry_ok bt probe.
Proof using Hc Hw. apply object_entry_ok; [done|done|case_if; lia|]. by destruct (big_object_kd _ _ _). Qed.

Abbreviation inv := (inv bt node_ret snaps q).
Abbreviation leaf_found := (leaf_found bt node_ret m q probe).
Abbreviation updates := (updates m tomb).

(** What does not change in a leaf. *)
Record tree_frame (t t' : tree) : Prop := {
  tf_nodes : t_nodes t' = t_nodes t;
  tf_root : rootid t' = rootid t;
  tf_stored : t_stored t' = t_stored t;
  tf_supply : t_supply t' = t_supply t
}.

#[local] Arguments tf_stored {_ _} _.

#[local] Instance tree_frame_preorder : PreOrder tree_frame.
Proof. split; [by split|]. intros t1 t2 t3 [A1 A2 A3 A4] [B1 B2 B3 B4]. split; congruence. Qed.

(** The leaf of the key with the page [n], to be put at [leaf]. *)
Record leaf_at (q : Z) (t : tree) (D : nat) (W : list fleaf) (I : list Z) (leaf : Z) (n : btree_raw_node)
    (es : list entry) (b : option version) (pre post : list fleaf) (out : list Z) : Prop := {
  la_ctx : ctx bt node_ret page (t_nodes t) D (rootid t) 0 leaf b pre post out;
  la_located : located cmp key None W pre es b post;
  la_ids : leaf :: out ≡ₚ I;
  la_node : node_ret leaf = BTREE_SUCCESS /\ leaf <> BAD_CHILD;
  la_page : page n es;
  la_id : logical_id n = leaf;
  la_inv : TreeSplit.inv bt node_ret snaps q t W I
}.

#[local] Arguments la_located {_ _ _ _ _ _ _ _ _ _ _ _} _.
#[local] Arguments la_page {_ _ _ _ _ _ _ _ _ _ _ _} _.
#[local] Arguments la_inv {_ _ _ _ _ _ _ _ _ _ _ _} _.

Lemma leaf_at_frame q' t t' D W I leaf n es b pre post out :
  tree_frame t t' -> leaf_at q' t D W I leaf n es b pre post out -> leaf_at q' t' D W I leaf n es b pre post out.
Proof using Type.
  intros [F1 F2 F3 F4] [Hct Hloc HI Hret Hp Hid [? ? ? ? ?]]. split; try done; [by rewrite F1, F2|].
  split; try done. by rewrite F4.
Qed.

Lemma leaf_at_mono q1 q2 t D W I leaf n es b pre post out :
  q1 <= q2 -> leaf_at q1 t D W I leaf n es b pre post out -> leaf_at q2 t D W I leaf n es b pre post out.
Proof using Type.
  intros Hle [Hct Hloc HI Hret Hp Hid [? ? ? ? ?]]. split; try done. split; try done. by apply (flat_below_mono q1).
Qed.

Lemma leaf_at_put q' t D W I leaf n es b pre post out :
  leaf_at q' t D W I leaf n es b pre post out ->
  exists I', I' ≡ₚ I /\ subtree bt node_ret page (<[leaf := TLeaf n]> (t_nodes t)) D (rootid t) None W I'.
Proof using Type.
  intros [Hct Hloc HI [Hr Hb] Hp Hid Hinv]. pose proof (in_nodup Hinv) as Hnd.
  rewrite <- HI in Hnd. apply NoDup_cons_1_1 in Hnd.
  destruct (ctx_plug bt node_ret page (<[leaf := TLeaf n]> (t_nodes t)) D (rootid t) 0 leaf b pre post out) with
    (fl := [(es, b)]) (ids := [leaf]) as (I' & Hsub & HI').
  - apply (ctx_frame bt node_ret page (t_nodes t)); [done|]. intros x Hx. rewrite lookup_insert_ne; [done|]. by intros ->.
  - apply (leaf_tree bt node_ret _ _ _ n); try done. by rewrite lookup_insert_eq.
  - exists I'. split; [by rewrite HI'|]. destruct Hloc as (-> & _). exact Hsub.
Qed.

(** ** Scavenging *)

Lemma wconf_keys : max_key_size bt * 2 < nodesize bt.
Proof using Hc.
  destruct Hc as [Hbt _ _ Hmax]. pose proof (bt_node _ Hbt). pose proof (bt_less_hdr _ Hbt).
  unfold SIZEOF_NODE_VKEY, SIZEOF_BTREE_RAW_NODE in *. lia.
Qed.

Lemma scavenge_step t n es content own :
  page n es -> leaf_sorted bt es -> store_ok bt read_ret (t_ov t) es content own ->
  exists t1 n1 es1 gone, scavenge_node bt read_ret m astats_done t n = Some (t1, n1, lenZ es - lenZ es1) /\
    page n1 es1 /\ same_frame n n1 /\ sublist es1 es /\ (forall k mm, reads snaps mm -> scav_view cmp es es1 k mm) /\
    es ≡ₚ es1 ++ gone /\ dropped read_ret (t_ov t) (t_ov t1) (concat (own <$> gone)) /\
    t_nodes t1 = t_nodes t /\ rootid t1 = rootid t /\ t_stored t1 = t_stored t /\ t_supply t1 = t_supply t.
Proof using Hc CmpOk0 Hm.
  intros Hp Hs [Hh Hnd _]. unfold scavenge_node. destruct astats_done.
  - pose proof Hc as [Hbt Hso _ _].
    destruct (scavenge_ok bt read_ret own nsz m (t_ov t) n es (t_scav t)) as (st & n1 & stats & es1 & -> & Hk);
      try done; [apply wconf_keys| |].
    { split; [|done]. eapply Forall_impl; [|exact Hh]. intros e. apply holds_owns. }
    runs. destruct Hk as [Hp1 Hf1 _ _ Hsub _ Hv (gone & Hpm & Hd)].
    eexists _, n1, es1, gone. by split_and!.
  - exists t, n, es, []. rewrite Z.sub_diag. split_and!; try done.
    + by left.
    + by rewrite app_nil_r.
Qed.

(** ** The scavenged leaf *)

Section scavenged.
Context W pre es b post es1 gone (Hok : flat_ok cmp snaps W) (Hloc : located cmp key None W pre es b post)
  (Hsub : sublist es1 es) (Hview : forall k mm, reads snaps mm -> scav_view cmp es es1 k mm)
  (Hgone : es ≡ₚ es1 ++ gone) (Hes : Forall (entry_ok bt) es).
Abbreviation W1 := (pre ++ (es1, b) :: post).

Lemma entries_gone : entries W ≡ₚ entries W1 ++ gone.
Proof using Hloc Hgone. pose proof Hloc as (HW & _). rewrite HW, !entries_leaf, Hgone. solve_Permutation. Qed.

Lemma below_scavenged : flat_below q W -> flat_below q W1.
Proof using Hloc Hgone.
  pose proof Hloc as (HW & _). rewrite HW. intros [H1 H2]%flat_below_app. apply Forall_cons_iff in H2 as [[H2 H3] H4].
  apply flat_below_app. split; [done|]. constructor; [|done]. split; [|done].
  rewrite Hgone in H2. by apply Forall_app in H2 as [H2 _].
Qed.

Lemma inv_scavenged t I : inv t W I -> inv t W1 I.
Proof using Hok Hloc Hsub Hview Hgone CmpOk0.
  intros [_ Hq Hs Hnd Hfr]. split; [by apply (flat_scavenge cmp snaps W key pre es b post es1)|by apply below_scavenged| |done|done].
  rewrite entries_gone in Hs. by apply Forall_app in Hs as [Hs _].
Qed.

(** The place of the key in what is left, and the kind of the write. *)
Lemma scavenged_place i i1 :
  splits cmp (entry_version <$> es) key None i -> splits cmp (entry_version <$> es1) key None i1 ->
  fits bt es i probe (updates (answer cmp key None (entries W))) ->
  updates (answer cmp key None (entries W)) && hit_at es1 i1 = updates (answer cmp key None (entries W1)) /\
  fits bt es1 i1 probe (updates (answer cmp key None (entries W1))).
Proof using CmpOk0 Hc Hok Hloc Hsub Hview Hgone Hes.
  intros Hsp Hsp1 Hfit. pose proof Hc as [Hbt _ _ _].
  pose proof (answer_leaf bt snaps W key None pre es b post i Hok (or_introl eq_refl) Hloc Hsp) as Ha.
  pose proof (flat_scavenge cmp snaps W key pre es b post es1 Hok Hloc Hsub Hview) as Hok1.
  pose proof (located_scavenged cmp W key pre es b post es1 Hloc) as Hloc1.
  pose proof (answer_leaf bt snaps W1 key None pre es1 b post i1 Hok1 (or_introl eq_refl) Hloc1 Hsp1) as Ha1.
  pose proof (gone_size bt Hbt es es1 gone Hes Hgone) as Hsz.
  destruct (answer_scavenged cmp snaps W key pre es b post es1 Hok Hloc Hsub Hview key None (or_introl eq_refl))
    as [E|(E & tb & Etb & Ht)].
  - rewrite E in *. split.
    + rewrite Ha1. destruct (hit_at es1 i1); [apply andb_true_r|apply andb_false_r].
    + unfold fits in *. destruct (updates (answer cmp key None (entries W))) eqn:Eu; [|lia].
      destruct Hfit as (old & Hold & Hk & Hle). exists old.
      assert (es1 !! i1 = Some old) as ->; [|split_and!; [done..|lia]].
      rewrite Ha in Eu, Ha1. destruct (hit_at es i); [|done]. destruct (hit_at es1 i1); [congruence|]. by rewrite Ha1 in Eu.
  - rewrite E in *. assert (hit_at es1 i1 = false) as ->.
    { destruct (hit_at es1 i1) eqn:Eh; [|done]. unfold hit in Eh. rewrite list_lookup_fmap, <- Ha1 in Eh. done. }
    split; [apply andb_false_r|]. unfold fits in *. cbn [updates]. destruct (updates _) eqn:Eu; [|lia].
    destruct Hfit as (old & Hold & Hk & Hle). rewrite Etb in Ha. destruct (hit_at es i); [|done].
    assert (old = tb) as -> by congruence.
    pose proof (gone_size_one bt Hbt es es1 gone tb Hes Hgone) as H. rewrite Etb in Eu.
    assert (tb ∉ es1); [|specialize (H (list_elem_of_lookup_2 _ _ _ Hold) ltac:(done)); lia].
    intros Hin. apply answer_Some in Etb as [_ Heq]. apply (proj1 (answer_None cmp key None _) E tb); [|done].
    rewrite entries_leaf. apply elem_of_app. right. apply elem_of_app. by left.
Qed.
End scavenged.

(** The leaf after scavenging: the tree is as good, and the place and kind of
    the write are those of the remaining entries. *)
Lemma leaf_scavenged t D W I leaf n es i content own :
  leaf_found t D W I leaf n es i -> store_ok bt read_ret (t_ov t) (entries W) content own ->
  fits bt es i probe (updates (answer cmp key None (entries W))) ->
  exists t1 n1 es1 W1 i1 b pre post out,
    scavenge_node bt read_ret m astats_done t n = Some (t1, n1, lenZ es - lenZ es1) /\
    leaf_at q t1 D W1 I leaf n1 es1 b pre post out /\ store_ok bt read_ret (t_ov t1) (entries W1) content own /\
    same_views cmp snaps W content W1 content /\
    tree_frame t t1 /\ ov_supply (t_ov t1) = ov_supply (t_ov t) /\ (forall x, x ∈ doomed (t_ov t1) -> x ∈ concat (own <$> entries W) \/ x ∈ doomed (t_ov t)) /\
    (forall x, x ∈ concat (own <$> entries W1) -> x ∈ concat (own <$> entries W)) /\
    splits cmp (entry_version <$> es1) key None i1 /\
    (if lenZ es - lenZ es1 =? 0 then Some (n2z i, hit_at es i) else btree_leaf_find_key bt n1 key None)
      = Some (n2z i1, hit_at es1 i1) /\
    (if lenZ es - lenZ es1 =? 0 then updates (answer cmp key None (entries W))
     else updates (answer cmp key None (entries W)) && hit_at es1 i1) = updates (answer cmp key None (entries W1)) /\
    fits bt es1 i1 probe (updates (answer cmp key None (entries W1))).
Proof using Hc CmpOk0 Hread Hm Hinj.
  intros Hlf Hst Hfit. pose proof Hc as [Hbt Hso _ _].
  pose proof Hlf as [(b & pre & post & out & Hct & Hloc & HI) Hn Hid Hp Hsp Hinv].
  pose proof (in_flat Hinv) as Hok. pose proof Hloc as (HW & _).
  pose proof (leaf_sorted_in bt _ _ _ _ _ _ _ (fo_flat Hok) Hloc) as Hs.
  assert (store_ok bt read_ret (t_ov t) es content own) as Hst0.
  { apply (store_part bt read_ret (t_ov t) es (entries pre ++ entries post)).
    apply (store_perm bt read_ret _ (entries W)); [|done]. rewrite HW, entries_leaf. solve_Permutation. }
  destruct (scavenge_step t n es content own Hp Hs Hst0)
    as (t1 & n1 & es1 & gone & -> & Hp1 & Hf1 & Hsub & Hview & Hgone & Hd & N1 & N2 & N3 & N4).
  set (W1 := pre ++ (es1, b) :: post).
  pose proof (flat_scavenge cmp snaps W key pre es b post es1 Hok Hloc Hsub Hview) as Hok1.
  pose proof (located_scavenged cmp W key pre es b post es1 Hloc) as Hloc1.
  pose proof (entries_gone W pre es b post es1 gone Hloc Hgone) as Heg.
  destruct (leaf_search bt Hc snaps probe Hinj W1 pre es1 b post n1 Hok1 Hloc1 Hp1) as (j & Hj & Hspj & _).
  destruct (scavenged_place W pre es b post es1 gone Hok Hloc Hsub Hview Hgone (lp_entries Hp) i j Hsp Hspj Hfit)
    as (Hu & Hfit1).
  exists t1, n1, es1, W1, j, b, pre, post, out. split_and!; try done.
  - split; try done; [by rewrite N1, N2|by rewrite Hf1|].
    destruct (inv_scavenged W pre es b post es1 gone Hok Hloc Hsub Hview Hgone t I Hinv) as [? ? ? ? ?].
    split; try done. by rewrite N4.
  - apply (store_drop bt read_ret Hread (t_ov t) _ _ gone); [|done]. by apply (store_perm bt read_ret _ (entries W)).
  - by apply (views_scavenged cmp snaps W key pre es b post es1).
  - apply Hd.
  - intros x Hx. rewrite (dr_doomed Hd) in Hx. apply elem_of_app in Hx as [Hx|Hx]; [left|by right].
    rewrite (concat_own_perm own _ _ Heg), fmap_app, concat_app. apply elem_of_app. by right.
  - intros x Hx. rewrite (concat_own_perm own _ _ Heg), fmap_app, concat_app. apply elem_of_app. by left.
  - destruct (Z.eqb_spec (lenZ es - lenZ es1) 0) as [E|_]; [|exact Hj].
    assert (es1 = es) as -> by (apply sublist_same_length; [done|lia]). by rewrite (splits_unique bt _ _ _ _ _ Hsp Hspj).
  - destruct (Z.eqb_spec (lenZ es - lenZ es1) 0) as [E|_]; [|exact Hu].
    assert (es1 = es) as -> by (apply sublist_same_length; [done|lia]). unfold W1. by rewrite <- HW.
Qed.

(** ** The object *)

(** New nodes for the object, which no entry owns. *)
Definition object_supply (st : ov_state) (own : entry -> list Z) (es : list entry) (news : list (Z * list byte)) : Prop :=
  supplied bt st news (overflow_part bt key data) /\ forall x, x ∈ news.*1 -> x ∉ concat (own <$> es).

(** An object that is not big needs none. *)
Lemma plain_supply st own es : big_object_kd bt (lenZ key) (lenZ data) = false -> object_supply st own es [].
Proof using Hc.
  intros Hb. split; [|intros x Hx; by apply not_elem_of_nil in Hx]. unfold overflow_part, data_inleaf.
  rewrite Hb, Nat2Z.id, drop_all. pose proof Hc as [Hbt _ _ _]. pose proof (bt_ovf _ Hbt).
  split_and!; [by repeat constructor| |by eexists|done]. cbn [length]. rewrite Z.div_small; [done|]. lia.
Qed.

Lemma supplied_drop st st' ids news d :
  supplied bt st news d -> dropped read_ret st st' ids -> (forall x, x ∈ news.*1 -> x ∉ ids) -> supplied bt st' news d.
Proof using Type.
  intros (H1 & H2 & (rest & H3) & H4) [_ D2 D3 _] Hn. split_and!; [done|done|exists rest; congruence|].
  apply Forall_lookup_2. intros j x Hj. destruct (Forall_at H4 Hj) as [H5 H6]. split; [done|].
  rewrite D3. apply not_elem_of_app. split; [|done]. apply Hn. apply list_elem_of_fmap. exists x. split; [done|].
  by eapply list_elem_of_lookup_2.
Qed.

(** The version that a write in place replaces. *)
Lemma updates_old t D W I leaf n es b pre post out i :
  leaf_at q t D W I leaf n es b pre post out -> splits cmp (entry_version <$> es) key None i ->
  updates (answer cmp key None (entries W)) = true ->
  exists old, es !! i = Some old /\ cmp key (e_key old) = 0 /\ Forall (fun s => s < e_seqno old) snaps.
Proof using CmpOk0.
  intros [_ Hloc _ _ _ _ Hinv] Hsp Hu.
  rewrite (answer_leaf bt snaps W key None pre es b post i (in_flat Hinv) (or_introl eq_refl) Hloc Hsp) in Hu.
  destruct (hit_at es i) eqn:Eh; [|done]. unfold hit in Eh. rewrite list_lookup_fmap in Eh.
  destruct (es !! i) as [old|]; [|done]. exists old. split; [done|]. cbn [updates TreeDescend.updates] in Hu. cbn in Eh.
  apply andb_true_iff in Hu as [_ Hu%Z.eqb_eq]. split; [|by apply epoch_none].
  apply (side_eq_key cmp key None (entry_version old)). by destruct (side _ _ _ _).
Qed.

(** Putting the object into the leaf, on all levels at once. *)
Lemma object_put t D W I leaf n es b pre post out i content own news :
  leaf_at q t D W I leaf n es b pre post out -> store_ok bt read_ret (t_ov t) (entries W) content own ->
  splits cmp (entry_version <$> es) key None i ->
  fits bt es i probe (updates (answer cmp key None (entries W))) -> object_supply (t_ov t) own (entries W) news ->
  exists st' n' es' W' content' own',
    btree_leaf_insert_low bt read_ret (t_ov t) n key data q tomb i (updates (answer cmp key None (entries W)))
      = Some (st', n', true, BTREE_SUCCESS) /\
    leaf_at (q + 1) t D W' I leaf n' es' b pre post out /\ store_ok bt read_ret st' (entries W') content' own' /\
    put_views cmp snaps W content W' content' key (if tomb then None else Some data).
Proof using Hc CmpOk0 Hread Hw Hsn.
  intros Hla Hst Hsp Hfit [Hsup Hnew]. pose proof Hc as [Hbt Hso _ _].
  pose proof (updates_old _ _ _ _ _ _ _ _ _ _ _ _ Hla Hsp) as Hold.
  set (u := updates (answer cmp key None (entries W))) in *.
  pose proof Hla as [Hct Hloc HI Hret Hp Hid [Hok Hq Hseq Hnd Hfr]]. pose proof Hloc as (HW & _).
  assert (forall x, x ∈ es -> x ∈ entries W) as Hin.
  { intros x Hx. rewrite HW, entries_leaf. apply elem_of_app. right. apply elem_of_app. by left. }
  assert (forall old, u = true -> es !! i = Some old -> old ∈ entries W) as Hoin.
  { intros old _ Ho. apply Hin. by eapply list_elem_of_lookup_2. }
  assert (i <= length es)%nat as Hi by (destruct Hsp as [Hle _]; by rewrite length_fmap in Hle).
  destruct (put_object bt read_ret Hc n es i (t_ov t) key data q tomb u own news probe)
    as (st1 & st' & n' & p & -> & Hp' & Hfrm & Hdr & Had & Hh & He); try done; [apply probe_ok| | |].
  { intros old Hu Ho. apply Hoin, list_elem_of_lookup_1 in Ho as (j & Hj); [|done].
    by eapply holds_owns, (Forall_at (sk_holds Hst)). }
  { intros st1 Hdr. destruct u; [|by subst]. destruct (Hold eq_refl) as (old & Ho & _). rewrite Ho in Hdr.
    apply (supplied_drop (t_ov t) st1 (own old)); [done|done|]. intros x Hx Hxo. apply (Hnew x Hx).
    apply (own_elem own _ old); [by apply Hoin|done]. }
  set (e := object_entry bt key data p q tomb) in *. set (W' := pre ++ (place u es i e, b) :: post).
  exists st', n', (place u es i e), W', (upd content e data), (upd own e news.*1). split; [done|].
  assert (flat_below (e_seqno e) W) as Hqe by done. pose proof (new_entry W e Hqe) as Hne.
  destruct (entries_put cmp snaps W key pre es b post i e Hloc u Hold) as (rest & HP2 & HP1).
  assert (e ∉ rest) as Hner by (intros Hr; apply Hne; rewrite HP1; apply elem_of_app; by left).
  split_and!.
  - split; try done; [by destruct Hloc as (_ & ? & ?)|by rewrite Hfrm|]. split; try done.
    + by apply (flat_put cmp snaps W key pre es b post i e).
    + by apply (below_put cmp W key pre es b post i e).
    + fold W' in HP2. rewrite HP2. constructor; [apply Hw|]. rewrite HP1 in Hseq. by apply Forall_app in Hseq as [Hseq _].
  - apply (store_perm bt read_ret _ (e :: rest)); [by rewrite <- HP2|].
    assert (store_ok bt read_ret st1 rest content own) as Hst1.
    { pose proof (store_perm bt read_ret _ _ _ _ _ HP1 Hst) as Hst0. destruct u.
      - destruct (Hold eq_refl) as (old & Ho & _). rewrite Ho in Hst0, Hdr. cbn in Hst0, Hdr.
        apply (store_drop bt read_ret Hread (t_ov t) _ _ [old]); [done|]. cbn. by rewrite app_nil_r.
      - subst st1. by apply store_part in Hst0. }
    apply (store_add bt read_ret Hread st1); try done; [apply Hsup|].
    intros x Hx. split.
    + intros Hxo. apply (Hnew x Hx). rewrite (concat_own_perm own _ _ HP1), fmap_app, concat_app. apply elem_of_app. by left.
    + destruct Hsup as (_ & _ & _ & Hnd'). apply list_elem_of_fmap in Hx as (y & -> & Hy).
      apply list_elem_of_lookup_1 in Hy as (j & Hj). destruct (Forall_at Hnd' Hj) as [_ Hyd].
      destruct u; [|by subst]. destruct (Hold eq_refl) as (old & Ho & _). rewrite Ho in Hdr. cbn in Hdr.
      rewrite (dr_doomed Hdr). apply not_elem_of_app. split; [|done]. intros Hyo.
      apply (Hnew y.1); [apply list_elem_of_fmap; exists y; split; [done|by eapply list_elem_of_lookup_2]|].
      apply (own_elem own _ old); [by apply Hoin|done].
  - by apply (views_put cmp snaps W key pre es b post i e).
Qed.

(** ** Inserting *)

(** The status of a write, when a version of the key is visible or not. The
    sequence numbers may have run out. *)
Definition put_status (w : write_type) (vis : bool) : btree_status :=
  if (bool_decide (w = W_UPDATE) && negb vis) || (bool_decide (w = W_CREATE) && vis) then BTREE_KEY_NOT_FOUND
  else if q =? 2 ^ 64 - 1 then BTREE_FAILURE else BTREE_SUCCESS.

Definition shown (o : option entry) : bool := match o with Some e => negb (e_tomb e) | None => false end.

(** What is read of the entry found. *)
Lemma read_shown n es i :
  page n es -> let found := hit_at es i in let vis := shown (if found then es !! i else None) in
  (if found then tb ← btree_leaf_is_key_tombstoned n i; Some (negb tb) else Some false) = Some vis /\
  (if vis then tb ← btree_leaf_is_key_tombstoned n i; Some (negb tb) else Some false) = Some vis /\
  exists km, (if vis then btree_leaf_get_meta n i else Some key_meta_zero) = Some km.
Proof using Hc.
  intros Hp found vis. pose proof Hc as [Hbt _ _ _]. unfold vis, found.
  destruct (hit_at es i) eqn:Eh; [|split_and!; [done|done|by eexists]].
  unfold hit in Eh. rewrite list_lookup_fmap in Eh. destruct (es !! i) as [e|] eqn:Ei; [|done].
  destruct (leaf_rep_read bt Hbt n es i e (plain_rep bt Hbt n es Hp) Ei) as (_ & Ht & _). rewrite Ht. cbn [shown]. runs.
  split; [done|]. destruct (e_tomb e) eqn:Et; cbn [negb]; [split; [done|by eexists]|].
  split; [done|]. destruct Hp as [Hl Hes _].
  assert ((full_cell <$> es) !! i = Some (full_cell e)) as Hcell by (by rewrite list_lookup_fmap, Ei).
  rewrite (layout_meta bt n _ Hbt Hl (full_cells_ok bt es Hbt Hes) _ _ Hcell). by eexists.
Qed.

Lemma pstats_update_same f st : same_data st (pstats_update f st).
Proof using Type. unfold pstats_update. by destruct (f _ _). Qed.

Lemma insert_step t D W I leaf n es b pre post out i content own news w us :
  leaf_at q t D W I leaf n es b pre post out -> store_ok bt read_ret (t_ov t) (entries W) content own ->
  splits cmp (entry_version <$> es) key None i ->
  fits bt es i probe (updates (answer cmp key None (entries W))) -> object_supply (t_ov t) own (entries W) news ->
  default seqno_alloc us = q ->
  let vis := shown (answer cmp key None (entries W)) in
  exists t' n' ni es' W' content' own',
    btree_insert_keys_leaf bt read_ret m is_nodes_available None seqno_alloc stale t n w key data us tomb (n2z i) vis
      (updates (answer cmp key None (entries W)))
      = Some (t', n', put_status w vis, bool_decide (put_status w vis = BTREE_SUCCESS), ni) /\ tree_frame t t' /\
    leaf_at (q + 1) t' D W' I leaf n' es' b pre post out /\ store_ok bt read_ret (t_ov t') (entries W') content' own' /\
    if decide (put_status w vis = BTREE_SUCCESS)
    then put_views cmp snaps W content W' content' key (if tomb then None else Some data)
    else same_views cmp snaps W content W' content'.
Proof using All.
  intros Hla Hst Hsp Hfit Hsup Hus vis.
  assert (vis = shown (if hit_at es i then es !! i else None)) as Evis.
  { unfold vis. destruct Hla as [_ Hloc _ _ _ _ Hinv].
    by rewrite (answer_leaf bt snaps W key None pre es b post i (in_flat Hinv) (or_introl eq_refl) Hloc Hsp). }
  assert (leaf_at (q + 1) t D W I leaf n es b pre post out) as Hla1 by (apply (leaf_at_mono q); [lia|done]).
  destruct (read_shown n es i (la_page Hla)) as (_ & Hr2 & km & Hr3). cbv zeta in Hr2, Hr3. rewrite <- Evis in Hr2, Hr3.
  unfold btree_insert_keys_leaf. cbv zeta. rewrite Nat2Z.id, Hr3. runs. rewrite Hr2. runs. unfold put_status.
  destruct ((bool_decide (w = W_UPDATE) && negb vis) || (bool_decide (w = W_CREATE) && vis)).
  { eexists t, n, _, es, W, content, own. by split_and!; [| | | |rewrite decide_False]. }
  assert ((if tomb || default stale (eh_tombstone <$> headers n !! i) then Some (t_ov t, true, BTREE_SUCCESS)
    else mput_update_allowed bt read_ret None (t_ov t) n key data i vis) = Some (t_ov t, true, BTREE_SUCCESS)) as ->
    by (by destruct (tomb || _)).
  runs. cbn [negb]. rewrite Havail. cbn [negb].
  change (match us with Some s => s | None => seqno_alloc end) with (default seqno_alloc us). rewrite Hus.
  destruct (q =? 2 ^ 64 - 1).
  { eexists (set_ov t (t_ov t)), n, _, es, W, content, own. split_and!; [done| | |done|by rewrite decide_False].
    - by split.
    - by apply (leaf_at_frame _ t). }
  assert (exists ins, (if vis then btree_snap_seqno_in_snap m (seqno km) else Some false) = Some ins) as (ins & ->).
  { destruct vis; [|by eexists]. rewrite (seqno_in_snap_ok nsz m Hm). by eexists. }
  runs.
  destruct (object_put t D W I leaf n es b pre post out i content own news Hla Hst Hsp Hfit Hsup)
    as (st' & n' & es' & W' & content' & own' & -> & Hla' & Hst' & Hpv). runs.
  match goal with |- context [match ?X with pair _ _ => Some _ end] =>
    assert (exists t' ni, X = (t', ni) /\ tree_frame t t' /\ same_data st' (t_ov t')) as (t' & ni & -> & Hfrm & Hsd) end.
  { destruct vis; cbn [negb]; [|by eexists _, _]. destruct (updates _); cbn [negb]; [by eexists _, _|].
    destruct ins, tomb; (eexists _, _; split; [done|]); (split; [by split|]); cbn [t_ov set_ov add_stat set_scav];
      repeat (etrans; [|apply pstats_update_same]); done. }
  eexists t', n', ni, es', W', content', own'. split_and!; [done|done| | |by rewrite decide_True].
  - by apply (leaf_at_frame _ t).
  - by apply (store_same bt read_ret Hread st').
Qed.

(** ** The leaf of a write *)

Lemma shown_view W content : shown (answer cmp key None (entries W)) = bool_decide (is_Some (view cmp W content key None)).
Proof using Type.
  unfold shown, view. destruct (answer _ _ _ _) as [e|]; [|by rewrite bool_decide_eq_false_2 by (by intros [])].
  destruct (e_tomb e); [by rewrite bool_decide_eq_false_2 by (by intros [])|by rewrite bool_decide_eq_true_2].
Qed.

(** The state of a write before the flush: the tree and the objects in it. *)
Record content_at (q : Z) (t : tree) (D : nat) (W : list fleaf) (I : list Z) (content : entry -> list byte)
    (own : entry -> list Z) : Prop := {
  ca_tree : subtree bt node_ret page (t_nodes t) D (rootid t) None W I;
  ca_inv : TreeSplit.inv bt node_ret snaps q t W I;
  ca_store : store_ok bt read_ret (t_ov t) (entries W) content own
}.

Lemma leaf_put t D W I leaf n es b pre post out content own :
  leaf_at (q + 1) t D W I leaf n es b pre post out -> store_ok bt read_ret (t_ov t) (entries W) content own ->
  exists I', content_at (q + 1) (put_node t leaf (TLeaf n)) D W I' content own.
Proof using Type.
  intros Hla Hst. destruct (leaf_at_put _ _ _ _ _ _ _ _ _ _ _ _ Hla) as (I' & HI & Hsub). exists I'. split; [done| |done].
  destruct (la_inv Hla) as [? ? ? Hnd Hfr]. split; try done; [by rewrite HI|].
  by apply (fresh_perm node_ret _ I).
Qed.

Lemma mwrite_leaf_ok write_ret t D W I leaf n es i content own news w us :
  leaf_found t D W I leaf n es i -> store_ok bt read_ret (t_ov t) (entries W) content own ->
  fits bt es i probe (updates (answer cmp key None (entries W))) -> object_supply (t_ov t) own (entries W) news ->
  default seqno_alloc us = q ->
  let vis := bool_decide (is_Some (view cmp W content key None)) in
  exists t' W' I' content' own',
    mwrite_leaf bt read_ret m astats_done is_nodes_available None seqno_alloc write_ret stale t leaf w key data us tomb
      (hit_at es i) (n2z i) (updates (answer cmp key None (entries W)))
      = Some (let '(t2, ret1) := deref_l1cache write_ret t' in
              (t2, if decide (ret1 = BTREE_SUCCESS) then put_status w vis else ret1,
               bool_decide (put_status w vis = BTREE_SUCCESS))) /\
    t_stored t' = t_stored t /\ content_at (q + 1) t' D W' I' content' own' /\
    if decide (put_status w vis = BTREE_SUCCESS)
    then put_views cmp snaps W content W' content' key (if tomb then None else Some data)
    else same_views cmp snaps W content W' content'.
Proof using All.
  intros Hlf Hst Hfit [Hsup Hnew] Hus vis. unfold mwrite_leaf. rewrite (lf_node Hlf). runs.
  destruct (leaf_scavenged t D W I leaf n es i content own Hlf Hst Hfit)
    as (t1 & n1 & es1 & W1 & i1 & b & pre & post & out & -> & Hla & Hst1 & Hsv & Hfr1 & Hos & Hdm & Hsub & Hsp & Hf & Hu & Hfit1).
  runs. rewrite Hf. runs. rewrite Hu, Nat2Z.id.
  destruct (read_shown n1 es1 i1 (la_page Hla)) as (Hr1 & _). cbv zeta in Hr1. rewrite Hr1. runs.
  rewrite <- (answer_leaf bt snaps W1 key None pre es1 b post i1 (in_flat (la_inv Hla))
    (or_introl eq_refl) (la_located Hla) Hsp).
  assert (object_supply (t_ov t1) own (entries W1) news) as Hsup1.
  { destruct Hsup as (S1 & S2 & S3 & S4). split; [split_and!; [done|done|by rewrite Hos|]|intros x Hx Ho; by apply (Hnew x Hx), Hsub].
    apply Forall_lookup_2. intros j x Hj. destruct (Forall_at S4 Hj) as [? Hxd]. split; [done|].
    intros [Hx|Hx]%Hdm; [|done]. apply (Hnew x.1); [|done]. apply list_elem_of_fmap. exists x. split; [done|].
    by eapply list_elem_of_lookup_2. }
  destruct (insert_step t1 D W1 I leaf n1 es1 b pre post out i1 content own news w us Hla Hst1 Hsp Hfit1 Hsup1 Hus)
    as (t2 & n2 & ni & es2 & W2 & c2 & o2 & -> & Hfr2 & Hla2 & Hst2 & Hv2).
  runs. rewrite (shown_view W1 content), (Hsv key None (or_introl eq_refl)) in *. fold vis in Hv2 |- *.
  rewrite decide_False by (unfold put_status; by repeat case_match).
  destruct (leaf_put (set_ov t2 (pstats_update (fun e p => set_node_pstats e p ni true) (t_ov t2))) D W2 I leaf n2 es2
              b pre post out c2 o2) as (I' & Hca).
  { by apply (leaf_at_frame _ t2). }
  { by apply (store_same bt read_ret Hread (t_ov t2)); [apply pstats_update_same|]. }
  match type of Hca with content_at _ ?t _ _ _ _ _ => set (t3 := t) in * end.
  exists t3, W2, I', c2, o2. split; [by destruct (deref_l1cache _ t3)|]. split.
  - cbn. by rewrite (tf_stored Hfr2), (tf_stored Hfr1).
  - split; [done|]. case_decide; [by apply (put_views_same cmp snaps W content W1 content)|].
    by apply (same_views_trans cmp snaps W content W1 content).
Qed.
End leaf_write.

Arguments la_located {_ _ _ _ _ _ _ _ _ _ _ _ _ _ _ _} _.
Arguments la_page {_ _ _ _ _ _ _ _ _ _ _ _ _ _ _ _} _.
Arguments la_inv {_ _ _ _ _ _ _ _ _ _ _ _ _ _ _ _} _.

Arguments tf_stored {_ _} _.
