(* ===== verification/TreePut.v ===== *)
(** * Requests on a whole tree

    First writes, with their passes, the flush and the rollback, then
    deletes. *)

From stdpp Require Import gmap.
From S2P Require Import Prelude Status LeafMeta LeafNode LeafOps LeafCells LeafEncode LeafFixup LeafSpec LeafRefine LeafPlain LeafMove NodeSearch LeafTheorems NodeSearchSpec NonLeaf NonLeafSpec NodeTheorems TreeFlat PStats Overflow OverflowSpec OverflowTheorems Snapshot SnapshotSpec SnapshotTheorems Scavenger ScavengerTheorems Tree TreeSpec TreeTheorems TreeWrite TreeEdit TreeSplit TreeSplitLeaf TreeDescend TreeStore TreeLeafWrite.

(** * Writes of a whole tree

    A write as its caller sees it: the passes over the tree, the flush and the
    rollback. *)

(** ** Between requests *)

Section db.
Context (bt : btree_raw) (read_ret node_ret : Z -> btree_status)
  (Hread : forall id, read_ret id = BTREE_SUCCESS) (m : btree_snap_meta).
Abbreviation cmp := (cmp_cb bt).
Abbreviation snaps := (snap_seqs m).
Abbreviation page := (leaf_plain bt).
Abbreviation content_at := (content_at bt read_ret node_ret m).

(** A database: everything written has been flushed. *)
Record db (q : Z) (t : tree) (D : nat) (W : list fleaf) (I : list Z) (content : entry -> list byte)
    (own : entry -> list Z) : Prop := {
  db_content : content_at q t D W I content own;
  db_stored : t_stored t = mk_storage (rootid t) (t_nodes t) (ov_nodes (t_ov t));
  db_doomed : doomed (t_ov t) = []
}.

#[local] Arguments db_content {_ _ _ _ _ _ _} _.

(** A tree that answers reads. *)
Record serves (t : tree) (D : nat) (W : list fleaf) (I : list Z) (content : entry -> list byte) : Prop := {
  sv_tree : tree_ok bt node_ret page snaps t D W I;
  sv_objects : Forall (fun e => object bt read_ret (t_ov t) e (content e)) (entries W)
}.

#[local] Arguments sv_tree {_ _ _ _ _} _.

Lemma content_serves q t D W I content own : content_at q t D W I content own -> serves t D W I content.
Proof using Type.
  intros [Hsub [Hok _ _ Hnd _] [Hh _ _]]. split; [by split|]. eapply Forall_impl; [|exact Hh]. intros e. apply holds_object.
Qed.

Lemma db_serves q t D W I content own : db q t D W I content own -> serves t D W I content.
Proof using Type. intros [H _ _]. by apply content_serves in H. Qed.

(** The flush. *)
Lemma commit_ok q t D W I content own : content_at q t D W I content own -> db q (commit t) D W I content own.
Proof using Hread.
  intros [Hsub [? ? ? ? ?] Hst]. split; [split; [done|done|]|done|done].
  apply (store_keep bt read_ret Hread (t_ov t)); [done|]. intros i Hi. split; [|apply not_elem_of_nil].
  pose proof (sk_alive Hst i Hi) as Ha. cbn [commit t_ov ov_nodes]. cbv zeta.
  destruct (ov_nodes (t_ov t) !! i) as [x|] eqn:E.
  - apply map_lookup_filter_Some. split; [done|]. cbn. by rewrite elem_of_list_to_set.
  - apply map_lookup_filter_None. by left.
Qed.

(** The rollback: the tree is that of the last flush. *)
Lemma cleanup_serves q t0 t D W I content own :
  db q t0 D W I content own -> t_stored t = t_stored t0 -> serves (btree_io_error_cleanup t) D W I content.
Proof using Hread.
  intros [[Hsub [Hok _ _ Hnd _] [Hh _ _]] Hs _] E. rewrite Hs in E. unfold btree_io_error_cleanup. rewrite E. split.
  - split; [exact Hsub|done|done].
  - apply Forall_lookup_2. intros j e Hj. pose proof (Forall_at Hh Hj) as [Hl He].
    split; [done|]. case_if; [|apply He]. destruct He as (rest & Hch & Hd & Hacc). exists (own e), rest. split_and!; [exact Hch|done|].
    apply Forall_lookup_2. intros k i Hi. split; [apply not_elem_of_nil|by right].
Qed.

Lemma db_stat q t D W I content own s d : db q t D W I content own -> db q (add_stat t s d) D W I content own.
Proof using Type. intros [[Hsub [? ? ? ? ?] Hst] Hs Hd]. by split; [split|..]. Qed.

(** A read of a tree that serves. *)
Lemma serves_get t D W I content key mm :
  bt_ok bt -> CmpOk cmp -> serves t D W I content -> reads snaps mm ->
  exists t', btree_raw_get bt read_ret node_ret t key mm false false false =
    Some (match view cmp W content key mm with
          | Some data => (t', BTREE_SUCCESS, Some data)
          | None => (t', BTREE_KEY_NOT_FOUND, None)
          end) /\ t_nodes t' = t_nodes t /\ rootid t' = rootid t /\ ov_nodes (t_ov t') = ov_nodes (t_ov t).
Proof using Type.
  intros Hbt Hcmp [Ht Ho] Hm.
  destruct (get_ok bt Hbt read_ret node_ret page (plain_rep bt Hbt) snaps t D W I key mm content Ht Hm Ho) as (t' & -> & Hk).
  exists t'. split; [|done]. unfold view, outcome. destruct (answer _ _ _ _) as [e|]; [|done]. by destruct (e_tomb e).
Qed.
End db.

Arguments sv_tree {_ _ _ _ _ _ _ _ _} _.

Arguments db_content {_ _ _ _ _ _ _ _ _ _ _} _.

(** ** The passes *)

Section put.
Context (bt : btree_raw) (Hc : wconf bt) `{!CmpOk (cmp_cb bt)} (read_ret node_ret : Z -> btree_status)
  (Hread : forall id, read_ret id = BTREE_SUCCESS) (nsz : Z) (m : btree_snap_meta) (Hm : snap_ok nsz m)
  (Hinj : forall a b, cmp_cb bt a b = 0 -> a = b)
  (astats_done : bool) (is_nodes_available : Z -> bool) (Havail : forall k, is_nodes_available k = true)
  (seqno_alloc : Z) (write_ret : btree_status) (stale : bool)
  (q : Z) (key data : list byte) (tomb : bool) (Hw : writable bt key data q)
  (Hsn : Forall (fun s => s < q) (snap_seqs m)) (us : option Z) (Hus : default seqno_alloc us = q).
Abbreviation cmp := (cmp_cb bt).
Abbreviation U := (nodesize_less_hdr bt).
Abbreviation snaps := (snap_seqs m).
Abbreviation page := (leaf_plain bt).
Abbreviation probe := (probe bt q key data tomb).
Abbreviation roomy := (roomy bt m probe tomb).
Abbreviation leaf_len := (leaf_len bt probe).
Abbreviation content_at := (content_at bt read_ret node_ret m).
Abbreviation db := (db bt read_ret node_ret m).
Abbreviation serves := (serves bt read_ret node_ret m).
Abbreviation object_supply := (object_supply bt key data).
Abbreviation visible_now W content := (bool_decide (is_Some (view cmp W content key None))).

(** What a write did: it ran to its end and was flushed, with the status of
    its mode; or an allocation or the flush failed and everything is as
    before. *)
Definition written_ok (t : tree) (W : list fleaf) (content : entry -> list byte) (w : write_type)
    (t' : tree) (ret : btree_status) : Prop :=
  exists D' W' I' content' own', db (q + 1) t' D' W' I' content' own' /\ ret = put_status q w (visible_now W content) /\
    if decide (ret = BTREE_SUCCESS) then put_views cmp snaps W content W' content' key (if tomb then None else Some data)
    else same_views cmp snaps W content W' content'.

Definition rolled_back (t : tree) (W : list fleaf) (content : entry -> list byte) (t' : tree) (ret : btree_status) : Prop :=
  ret <> BTREE_SUCCESS /\ (write_ret <> BTREE_SUCCESS \/ alloc_failed t t') /\
  exists D' W' I', serves t' D' W' I' content /\ same_views cmp snaps W content W' content.

Definition write_ok (t : tree) (W : list fleaf) (content : entry -> list byte) (w : write_type)
    (t' : tree) (ret : btree_status) : Prop :=
  written_ok t W content w t' ret \/ rolled_back t W content t' ret.

Lemma leaf_len_exists t D W I : tree_ok bt node_ret page snaps t D W I -> exists a, leaf_len W a /\ (a < S (z2n U))%nat.
Proof using Hc CmpOk0.
  intros Ht. pose proof Hc as [Hbt _ _ _].
  destruct (find_path bt Hbt node_ret page (plain_rep bt Hbt) snaps t D W I key None false 0 Ht (or_introl eq_refl))
    as (lid & n & i & es & b & pre & post & out & _ & _ & _ & Hp & Hloc & _).
  exists (length es). split; [by exists pre, es, b, post|by apply (entries_many bt Hc n)].
Qed.

Lemma leaf_len_unique W a b : leaf_len W a -> leaf_len W b -> a = b.
Proof using Type.
  intros (p1 & e1 & b1 & q1 & L1 & <-) (p2 & e2 & b2 & q2 & L2 & <-).
  by destruct (located_unique cmp _ None _ _ _ _ _ _ _ _ _ L1 L2) as (_ & -> & _).
Qed.

Lemma same_content q' t t' D W I W' D' I' content own :
  content_at q' t D W I content own -> tree_step t t' -> entries W' = entries W ->
  TreeSplit.inv bt node_ret snaps q' t' W' I' -> subtree bt node_ret page (t_nodes t') D' (rootid t') None W' I' ->
  content_at q' t' D' W' I' content own.
Proof using Hread.
  intros [_ _ Hst] Hts He Hinv Hsub. split; [done|done|]. rewrite He.
  by apply (store_same bt read_ret Hread (t_ov t)); [apply Hts|].
Qed.

Lemma supply_kept st st' own es news :
  ov_supply st' = ov_supply st -> (forall x, x ∈ doomed st' -> x ∈ doomed st) ->
  object_supply st own es news -> object_supply st' own es news.
Proof using Type.
  intros Hs Hd [(S1 & S2 & S3 & S4) Hn]. split; [|done]. split_and!; [done|done|by rewrite Hs|].
  eapply Forall_impl; [|exact S4]. intros x [H1 H2]. split; [done|]. intros H. by apply H2, Hd.
Qed.

Lemma write_ok_from t t1 W W1 content w t' ret :
  suffix (t_supply t1) (t_supply t) -> entries W1 = entries W ->
  write_ok t1 W1 content w t' ret -> write_ok t W content w t' ret.
Proof using Type.
  intros Hsu He H. pose proof (same_entries_views cmp snaps W W1 content He) as Hv. destruct H as [H|H].
  - left. destruct H as (D' & W' & I' & c' & o' & Hdb & -> & Hpv). exists D', W', I', c', o'.
    rewrite (Hv key None (or_introl eq_refl)) in *. split; [done|]. split; [done|].
    case_decide; [by apply (put_views_same cmp snaps W content W1 content)|by apply (same_views_trans cmp snaps W content W1 content)].
  - right. destruct H as (Hne & Hwhy & D' & W' & I' & Hs & Hsv). split; [done|]. split.
    + destruct Hwhy as [?|Haf]; [by left|right]. by apply (alloc_failed_suffix t t1).
    + exists D', W', I'. split; [done|]. by apply (same_views_trans cmp snaps W content W1 content).
Qed.

(** The end of a write that changed the tree to [t1], flushed or not. *)
Lemma flush_end t D W I content own w t1 D1 W1 I1 content1 own1 t' ret1 :
  db q t D W I content own -> t_stored t1 = t_stored t -> content_at (q + 1) t1 D1 W1 I1 content1 own1 ->
  let ret := put_status q w (visible_now W content) in
  (if decide (ret = BTREE_SUCCESS) then put_views cmp snaps W content W1 content1 key (if tomb then None else Some data)
   else same_views cmp snaps W content W1 content1) ->
  deref_l1cache write_ret t1 = (t', ret1) ->
  write_ok t W content w t' (if decide (ret1 = BTREE_SUCCESS) then ret else ret1).
Proof using Hread.
  intros Hdb Hs Hca ret Hv. unfold deref_l1cache.
  destruct (decide (write_ret = BTREE_SUCCESS)) as [Hwr|Hwr]; intros [= <- <-].
  - left. rewrite decide_True by done. exists D1, W1, I1, content1, own1. split; [by apply commit_ok|]. by split.
  - right. rewrite decide_False by done. split; [done|]. split; [by left|]. exists D, W, I. split; [|done].
    by apply (cleanup_serves bt read_ret node_ret Hread m q t _ _ _ _ _ own).
Qed.

Lemma mwrite_passes_ok w news fuel : forall t D W I content own pwl sp pc a,
  db q t D W I content own -> roomy W -> leaf_len W a -> (a < fuel)%nat -> object_supply (t_ov t) own (entries W) news ->
  exists t' ret written pc',
    mwrite_passes bt read_ret node_ret m astats_done is_nodes_available None seqno_alloc write_ret stale fuel t pwl sp pc
      w key data us tomb = Some (t', ret, written, pc') /\
    (ret = BTREE_SUCCESS -> written = true) /\ write_ok t W content w t' ret.
Proof using All.
  induction fuel as [|fuel IH]; intros t D W I content own pwl sp pc a Hdb Hroom Hlen Ha Hsup; [lia|]. cbn [mwrite_passes].
  pose proof (db_content Hdb) as Hca. pose proof Hca as [Hsub Hinv Hst].
  pose proof (depth_bound bt node_ret page _ _ _ _ _ _ Hsub (in_nodup Hinv)) as Hdep.
  destruct (mwrite_descend_ok bt Hc node_ret nsz m Hm is_nodes_available Havail q probe (probe_ok bt Hc q key data tomb Hw)
              tomb Hinj (2 * S (size (t_nodes t))) t D W I D (rootid t) None (-1) pwl sp pc) as (r & Hr & Hok).
  { by apply at_root; [done..|apply focus_root]. }
  { done. }
  { done. }
  { destruct sp; lia. }
  change (e_key probe) with key in Hr. change (e_datalen probe) with (lenZ data) in Hr. rewrite Hr. runs.
  destruct r as [t1 leaf found index upd pc1|t1 pwl1 sp1 pc1|t1 e pc1]; cbn [descent_ok] in Hok; destruct Hok as [Hts Hok].
  - destruct Hok as (D1 & W1 & I1 & n & es & i & Hlf & Hen & -> & -> & -> & Hfit).
    rewrite <- Hen in Hst, Hsup, Hfit. pose proof (ts_ov Hts) as [E1 E2 E3 E4 E5].
    destruct (mwrite_leaf_ok bt Hc read_ret node_ret Hread nsz m Hm Hinj astats_done is_nodes_available Havail seqno_alloc stale
                q key data tomb Hw Hsn write_ret t1 D1 W1 I1 leaf n es i content own news w us Hlf)
      as (t2 & W2 & I2 & c2 & o2 & Hml & Hs2 & Hca2 & Hv2); try done.
    { by apply (store_same bt read_ret Hread (t_ov t)); [apply Hts|]. }
    { apply (supply_kept (t_ov t)); [done| |done]. unfold doomed. by rewrite E3, E4. }
    rewrite <- Hen. change (e_key probe) with key. rewrite Hml. runs. cbv zeta in Hv2.
    pose proof (same_entries_views cmp snaps W W1 content Hen) as Hv. rewrite (Hv key None (or_introl eq_refl)) in *.
    destruct (deref_l1cache write_ret t2) as [t3 ret3] eqn:Ed. eexists _, _, _, _. split; [done|]. cbn [fst snd]. split.
    { intros Hr3. case_decide; [by rewrite bool_decide_eq_true_2|done]. }
    apply (flush_end t D W I content own w t2 D1 W2 I2 c2 o2); try done; [by rewrite Hs2, (ts_stored Hts)|].
    case_decide; [by apply (put_views_same cmp snaps W content W1 content)|by apply (same_views_trans cmp snaps W content W1 content)].
  - destruct Hok as (D1 & W1 & I1 & Hinv1 & Hfo1 & Hen & Hroom1 & a1 & b1 & La & Lb & Hlt).
    destruct (focus_back _ _ _ _ _ _ _ _ _ _ _ _ Hfo1) as (I2 & Hsub2 & HI2).
    assert (content_at q t1 D1 W1 I2 content own) as Hca1.
    { apply (same_content q t t1 D W I); try done. by apply (inv_perm bt node_ret m q t1 W1 I1). }
    unfold deref_l1cache. destruct (decide (write_ret = BTREE_SUCCESS)) as [Hwr|Hwr].
    + pose proof (commit_ok bt read_ret node_ret Hread m _ _ _ _ _ _ _ Hca1) as Hdb1.
      destruct (IH (commit t1) D1 W1 I2 content own pwl1 sp1 pc1 b1 Hdb1 Hroom1 Lb) as (t' & ret & wr & pc' & Hrun & Hwrt & Hres).
      { pose proof (leaf_len_unique _ _ _ Hlen La). lia. }
      { rewrite Hen. apply (supply_kept (t_ov t)); [apply (sd_supply (ts_ov Hts))|intros x Hx; by apply not_elem_of_nil in Hx|done]. }
      exists t', ret, wr, pc'. split; [done|]. split; [done|].
      apply (write_ok_from t (commit t1) W W1); [apply (ts_supply Hts)|done|done].
    + eexists _, _, _, _. split; [by destruct write_ret|]. split; [done|]. right. split; [done|]. split; [by left|].
      exists D, W, I. split; [|done]. apply (cleanup_serves bt read_ret node_ret Hread m q t _ _ _ _ _ own); [done|by destruct Hts].
  - destruct Hok as [He Haf]. eexists _, _, _, _. split; [done|]. split; [done|]. right. split; [done|].
    split; [by right|]. exists D, W, I. split; [|done].
    apply (cleanup_serves bt read_ret node_ret Hread m q t _ _ _ _ _ own); [done|by destruct Hts].
Qed.
(** ** The request *)

(** The mode the flags of a write ask for. *)
Definition mode_of (flags : Z) : write_type :=
  if negb (Z.land flags ZS_WRITE_MUST_NOT_EXIST =? 0) then W_CREATE
  else if negb (Z.land flags ZS_WRITE_MUST_EXIST =? 0) then W_UPDATE else W_SET.

Lemma write_ok_stat t W content w t' ret s1 d1 s2 d2 :
  write_ok t W content w t' ret -> write_ok t W content w (add_stat (add_stat t' s1 d1) s2 d2) ret.
Proof using Type.
  intros [(D' & W' & I' & c' & o' & Hdb & H)|(Hne & Hwhy & D' & W' & I' & [[H1 H2 H3] H4] & Hsv)].
  - left. exists D', W', I', c', o'. split; [by do 2 apply db_stat|done].
  - right. split; [done|]. split; [done|]. exists D', W', I'. by split; [split; [split|]|].
Qed.

Lemma write_request_ok news fuel t D W I content own flags :
  db q t D W I content own -> roomy W -> object_supply (t_ov t) own (entries W) news ->
  exists t' ret,
    btree_raw_write bt read_ret node_ret m astats_done is_nodes_available None seqno_alloc write_ret stale (S fuel) t
      key data us tomb flags = Some (t', ret) /\ write_ok t W content (mode_of flags) t' ret.
Proof using All.
  intros Hdb Hroom Hsup. unfold btree_raw_write, btree_raw_mput. fold (mode_of flags). cbv zeta.
  destruct (leaf_len_exists t D W I (sv_tree (db_serves _ _ _ _ _ _ _ _ _ _ _ Hdb))) as (a & La & Ha).
  cbn [btree_raw_mput_recursive]. unfold btree_raw_mwrite_low.
  destruct (mwrite_passes_ok (mode_of flags) news (S (z2n U)) t D W I content own false false 0 a Hdb Hroom La Ha Hsup)
    as (t' & ret & written & pc & -> & Hwr & Hok). runs.
  assert (bool_decide (ret = BTREE_SUCCESS) && negb written = false) as ->.
  { case_bool_decide as Hr; [|done]. by rewrite Hwr. }
  runs. case_decide as Hr.
  - destruct (match mode_of flags with W_UPDATE => _ | W_CREATE => _ | W_SET => _ end) as [c p].
    eexists _, _. split; [done|]. by apply write_ok_stat.
  - by exists t', ret.
Qed.
End put.

(** * Deletes of a whole tree

    A delete without FORCE_DELETE finds the key and writes a tombstone, into
    the leaf found when it fits there and by an ordinary write otherwise. *)

Section delete.
Context (bt : btree_raw) (Hc : wconf bt) `{!CmpOk (cmp_cb bt)} (read_ret node_ret : Z -> btree_status)
  (Hread : forall id, read_ret id = BTREE_SUCCESS) (nsz : Z) (m : btree_snap_meta) (Hm : snap_ok nsz m)
  (Hinj : forall a b, cmp_cb bt a b = 0 -> a = b)
  (astats_done : bool) (is_nodes_available : Z -> bool) (Havail : forall k, is_nodes_available k = true)
  (write_ret : btree_status) (stale : bool)
  (q : Z) (key : list byte) (Hw : writable bt key [] q) (Hq : q < 2 ^ 64 - 1)
  (Hsn : Forall (fun s => s < q) (snap_seqs m)).
Abbreviation cmp := (cmp_cb bt).
Abbreviation snaps := (snap_seqs m).
Abbreviation page := (leaf_plain bt).
Abbreviation probe := (probe bt q key [] true).
Abbreviation content_at := (content_at bt read_ret node_ret m).
Abbreviation db := (db bt read_ret node_ret m).
Abbreviation leaf_found := (leaf_found bt node_ret m q probe).
Abbreviation hit_at es i := (hit cmp (entry_version <$> es) key None i).
Abbreviation write_ok := (write_ok bt read_ret node_ret m write_ret q key [] true).

(** A tombstone needs no overflow nodes. *)
Lemma tombstone_supply st own es : object_supply bt key [] st own es [].
Proof using Hc Hw.
  apply plain_supply; [done|]. destruct (big_object_kd _ _ _) eqn:E; [|done]. by destruct (wr_big Hw E).
Qed.

Lemma set_status : put_status q W_SET true = BTREE_SUCCESS.
Proof using Hq. unfold put_status. cbn. by rewrite (proj2 (Z.eqb_neq _ _)) by lia. Qed.

(** The tombstone in the leaf found. *)
Lemma tombstone_optimized t D W I content own leaf n es i :
  db q t D W I content own -> leaf_found t D W I leaf n es i -> hit_at es i = true ->
  is_Some (view cmp W content key None) ->
  exists t' done, insert_tombstone_optimized bt read_ret m astats_done is_nodes_available None q stale t leaf n (n2z i) key
      = Some (t', done) /\
    if (done : bool) then t_stored t' = t_stored t /\ exists W' I' content' own', content_at (q + 1) t' D W' I' content' own' /\
      put_views cmp snaps W content W' content' key None
    else t' = t.
Proof using All.
  intros Hdb Hlf Hhit Hvis. destruct (hit_answer bt node_ret m q probe Hinj _ _ _ _ _ _ _ _ Hlf) as (Ha & Hold & Hi).
  pose proof (lf_page Hlf) as Hp. unfold insert_tombstone_optimized.
  destruct (leaf_full_ok bt Hc n es i probe true false Hp (probe_ok bt Hc q key [] true Hw) Hi ltac:(done))
    as (full & Hfull & Hfit & _). change (e_key probe) with key in Hfull. change (e_datalen probe) with 0 in Hfull.
  rewrite Hfull. runs. destruct full; [by exists t, false|].
  pose proof Hdb as [[_ _ Hst] _ _].
  assert (forall o, updates m true o = false) as Hupd by (by intros []).
  destruct (leaf_scavenged bt Hc read_ret node_ret Hread nsz m Hm Hinj astats_done q key [] true t D W I leaf n es i content own
              Hlf Hst) as (t1 & n1 & es1 & W1 & i1 & b & pre & post & out & -> & Hla & Hst1 & Hsv & Hfr1 & Hos & Hdm & Hsub & Hsp & Hf & _ & Hfit1).
  { rewrite Hupd. by apply Hfit. }
  runs.
  assert ((if lenZ es - lenZ es1 =? 0 then Some (n2z i)
           else r ← bsearch_key_low cmp n1 key None (-1) (nkeys n1) BSF_LATEST; Some r.1) = Some (n2z i1)) as ->.
  { change (bsearch_key_low cmp n1 key None (-1) (nkeys n1) BSF_LATEST) with (btree_leaf_find_key bt n1 key None).
    case_if; [by injection Hf as <- _|]. rewrite Hf. by runs. }
  runs.
  destruct (insert_step bt Hc read_ret node_ret Hread nsz m Hm Hinj astats_done is_nodes_available Havail q stale q key [] true Hw Hsn
              t1 D W1 I leaf n1 es1 b pre post out i1 content own [] W_SET None Hla Hst1 Hsp Hfit1 (tombstone_supply _ _ _) eq_refl)
    as (t2 & n2 & ni & es2 & W2 & c2 & o2 & Hins & Hfr2 & Hla2 & Hst2 & Hv2).
  rewrite Hupd in Hins.
  rewrite (shown_view bt key W1 content), (Hsv key None (or_introl eq_refl)), bool_decide_eq_true_2 in Hins, Hv2 by done.
  rewrite Hins. runs.
  rewrite set_status in *. rewrite decide_True in Hv2 by done.
  destruct (leaf_put bt read_ret node_ret m q key t2 D W2 I leaf n2 es2 b pre post out c2 o2 Hla2 Hst2) as (I' & Hca).
  eexists _, true. split; [done|]. split; [cbn; by rewrite (tf_stored Hfr2), (tf_stored Hfr1)|].
  exists W2, I', c2, o2. split; [done|]. by apply (put_views_same cmp snaps W content W1 content).
Qed.

Lemma delete_request_ok fuel t D W I content own :
  db q t D W I content own -> roomy bt m probe true W ->
  exists t' ret,
    btree_raw_delete bt read_ret node_ret m astats_done is_nodes_available None q write_ret stale (S fuel) t key = Some (t', ret) /\
    if decide (is_Some (view cmp W content key None)) then write_ok t W content W_SET t' ret
    else ret = BTREE_KEY_NOT_FOUND /\ db q t' D W I content own.
Proof using All.
  intros Hdb Hroom. unfold btree_raw_delete. cbv zeta. pose proof Hc as [Hbt _ _ _].
  apply (db_stat bt read_ret node_ret m q t D W I content own BTSTAT_DELETE_CNT 1) in Hdb.
  set (t0 := add_stat t BTSTAT_DELETE_CNT 1) in *.
  pose proof (sv_tree (db_serves _ _ _ _ _ _ _ _ _ _ _ Hdb)) as Htr.
  destruct (find_path bt Hbt node_ret page (plain_rep bt Hbt) snaps t0 D W I key None false 0 Htr (or_introl eq_refl))
    as (lid & n & i & es & b & pre & post & out & -> & Hn & Hid & Hp & Hloc & Hct & HI & Hsp & Hret). runs.
  pose proof Hdb as [[_ Hinv _] _ _].
  assert (leaf_found t0 D W I lid n es i) as Hlf by (split; try done; by exists b, pre, post, out).
  destruct (hit_answer bt node_ret m q probe Hinj _ _ _ _ _ _ _ _ Hlf) as (Ha & Hold & Hi).
  cbn [fr_found fr_node fr_index]. change (e_key probe) with key in Ha.
  assert (match es !! i with Some e => hit_at es i && negb (e_tomb e && negb false) | None => false end
          = bool_decide (is_Some (view cmp W content key None))) as ->.
  { rewrite <- shown_view, Ha. unfold hit. rewrite list_lookup_fmap. destruct (es !! i) as [e|]; [|done]. cbn.
    destruct (side _ _ _ _); cbn; by rewrite ?andb_true_r. }
  case_decide as Hvis; [rewrite bool_decide_eq_true_2 by done|rewrite bool_decide_eq_false_2 by done; by eexists _, _].
  assert (forall t' ret, write_ok t0 W content W_SET t' ret -> write_ok t W content W_SET t' ret) as Hback.
  { intros t' ret. by apply write_ok_from. }
  destruct (tombstone_optimized t0 D W I content own lid n es i Hdb Hlf) as (t1 & fin & Hopt & Hres); [|done|].
  { destruct (hit_at es i); [done|]. unfold view in Hvis. rewrite Ha in Hvis. by destruct Hvis. }
  rewrite Hid, Hopt. runs. destruct fin.
  - destruct Hres as (Hs & W' & I' & c' & o' & Hca & Hpv). destruct (deref_l1cache write_ret t1) as [t2 ret] eqn:Ed.
    exists t2, ret. split; [done|]. apply Hback.
    pose proof (flush_end bt read_ret node_ret Hread m write_ret q key [] true t0 D W I content own W_SET t1 D W' I' c' o' t2 ret
                  Hdb Hs Hca) as Hend.
    cbv zeta in Hend. rewrite bool_decide_eq_true_2, set_status, (decide_True (P := BTREE_SUCCESS = _)) in Hend by done.
    specialize (Hend Hpv Ed). by case_decide; subst.
  - subst t1. unfold insert_tombstone_unoptimized.
    destruct (write_request_ok bt Hc read_ret node_ret Hread nsz m Hm Hinj astats_done is_nodes_available Havail q write_ret stale
                q key [] true Hw Hsn None eq_refl [] fuel t0 D W I content own 4 Hdb Hroom (tombstone_supply _ _ _))
      as (t' & ret & Hrun & Hok).
    exists t', ret. split; [exact Hrun|]. by apply Hback.
Qed.
End delete.
