(* ===== verification/TreeRequests.v ===== *)
(** * Requests on a tree

    The theorems about [btree_raw_write] and [btree_raw_delete] as a caller
    sees them, through what later reads return. *)

From stdpp Require Import gmap.
From S2P Require Import Prelude Status LeafMeta LeafNode LeafOps LeafCells LeafEncode LeafFixup LeafSpec LeafRefine LeafPlain LeafMove NodeSearch LeafTheorems NodeSearchSpec NonLeaf NonLeafSpec NodeTheorems TreeFlat PStats Overflow OverflowSpec OverflowTheorems Snapshot SnapshotSpec SnapshotTheorems Scavenger ScavengerTheorems Tree TreeSpec TreeTheorems TreeWrite TreeEdit TreeSplit TreeSplitLeaf TreeDescend TreeStore TreeLeafWrite TreePut.

(** ** The setting of a request *)

(** The limits of the configuration, a comparison that tells keys apart, a
    storage that reads, well-formed snapshot metadata, room in the per-thread
    tables, and a sequence number [q] newer than every snapshot. *)
Record setting (bt : btree_raw) (read_ret : Z -> btree_status) (nsz : Z) (m : btree_snap_meta)
    (is_nodes_available : Z -> bool) (q : Z) : Prop := {
  se_conf : wconf bt;
  se_cmp : CmpOk (cmp_cb bt);
  se_inj : forall a b, cmp_cb bt a b = 0 -> a = b;
  se_read : forall id, read_ret id = BTREE_SUCCESS;
  se_snap : snap_ok nsz m;
  se_avail : forall k, is_nodes_available k = true;
  se_new : Forall (fun s => s < q) (snap_seqs m)
}.

Arguments se_conf {_ _ _ _ _ _} _.

(** An object that can be written: it is a legal object, its nodes can be
    allocated, and a version it cannot replace leaves room for it. *)
Record acceptable (bt : btree_raw) (m : btree_snap_meta) (q : Z) (t : tree) (W : list fleaf) (own : entry -> list Z)
    (key data : list byte) (tomb : bool) : Prop := {
  ac_writable : writable bt key data q;
  ac_room : roomy bt m (probe bt q key data tomb) tomb W;
  ac_supply : exists news, object_supply bt key data (t_ov t) own (entries W) news
}.

(** A small object: what a page has room for after every split. *)
Record small (bt : btree_raw) (q : Z) (key data : list byte) (tomb : bool) : Prop := {
  sm_writable : writable bt key data q;
  sm_plain : big_object_kd bt (lenZ key) (lenZ data) = false;
  sm_size : 7 * entry_size bt (probe bt q key data tomb) + 28 <= nodesize_less_hdr bt
}.

Lemma small_acceptable bt m q t W own key data tomb :
  wconf bt -> small bt q key data tomb -> acceptable bt m q t W own key data tomb.
Proof.
  intros Hc [Hw Hb Hs]. split; [done| |exists []; by apply plain_supply].
  intros pre es b post _ _ _. right. by apply halves_roomy_small.
Qed.

(** What a read returns. *)
Definition read_of (bt : btree_raw) (read_ret node_ret : Z -> btree_status) (t : tree) (k : list byte)
    (mm : option btree_metadata) : option (btree_status * option (list byte)) :=
  r ← btree_raw_get bt read_ret node_ret t k mm false false false; Some (r.1.2, r.2).

Section reads.
Context (bt : btree_raw) (read_ret node_ret : Z -> btree_status) (m : btree_snap_meta) (Hbt : bt_ok bt)
  (Hcmp : CmpOk (cmp_cb bt)).

Lemma serves_read t D W I content k mm :
  serves bt read_ret node_ret m t D W I content -> reads (snap_seqs m) mm ->
  read_of bt read_ret node_ret t k mm =
  Some (match view (cmp_cb bt) W content k mm with
        | Some data => (BTREE_SUCCESS, Some data)
        | None => (BTREE_KEY_NOT_FOUND, None)
        end).
Proof using Hbt Hcmp.
  intros Hs Hm. unfold read_of. destruct (serves_get bt read_ret node_ret m t D W I content k mm Hbt Hcmp Hs Hm) as (t' & -> & _).
  runs. by destruct (view _ _ _ _ _).
Qed.

Lemma same_reads t D W I content t' D' W' I' content' :
  serves bt read_ret node_ret m t D W I content -> serves bt read_ret node_ret m t' D' W' I' content' ->
  same_views (cmp_cb bt) (snap_seqs m) W content W' content' ->
  forall k mm, reads (snap_seqs m) mm -> read_of bt read_ret node_ret t' k mm = read_of bt read_ret node_ret t k mm.
Proof using Hbt Hcmp.
  intros Hs Hs' Hv k mm Hmm. rewrite (serves_read t D W I content), (serves_read t' D' W' I' content') by done. by rewrite Hv.
Qed.

(** The reads after a write that took effect. *)
Lemma put_reads t D W I content t' D' W' I' content' key v :
  serves bt read_ret node_ret m t D W I content -> serves bt read_ret node_ret m t' D' W' I' content' ->
  put_views (cmp_cb bt) (snap_seqs m) W content W' content' key v ->
  read_of bt read_ret node_ret t' key None =
    Some (match v with Some data => (BTREE_SUCCESS, Some data) | None => (BTREE_KEY_NOT_FOUND, None) end) /\
  forall k mm, mm = None /\ cmp_cb bt k key <> 0 \/ (exists s, s ∈ snap_seqs m /\ mm = at_snapshot s) ->
    read_of bt read_ret node_ret t' k mm = read_of bt read_ret node_ret t k mm.
Proof using Hbt Hcmp.
  intros Hs Hs' [H1 H2 H3]. split; [rewrite (serves_read t' D' W' I' content') by (done || by left); by rewrite H3|].
  intros k mm [[-> Hk]|(s & Hin & ->)].
  - rewrite (serves_read t D W I content), (serves_read t' D' W' I' content') by (done || by left). by rewrite H2.
  - assert (reads (snap_seqs m) (at_snapshot s)) by (right; by exists s).
    rewrite (serves_read t D W I content), (serves_read t' D' W' I' content') by done. by rewrite H1.
Qed.
End reads.

Section claims.
Context (bt : btree_raw) (read_ret node_ret : Z -> btree_status) (nsz : Z) (m : btree_snap_meta)
  (astats_done : bool) (is_nodes_available : Z -> bool) (write_ret : btree_status) (stale : bool).
Abbreviation cmp := (cmp_cb bt).
Abbreviation snaps := (snap_seqs m).
Abbreviation db := (db bt read_ret node_ret m).
Abbreviation setting := (setting bt read_ret nsz m is_nodes_available).
Abbreviation acceptable := (acceptable bt m).
Abbreviation read_of := (read_of bt read_ret node_ret).
Abbreviation write q fuel t key data us tomb flags :=
  (btree_raw_write bt read_ret node_ret m astats_done is_nodes_available None q write_ret stale fuel t key data us tomb flags).
Abbreviation delete q fuel t key :=
  (btree_raw_delete bt read_ret node_ret m astats_done is_nodes_available None q write_ret stale fuel t key).

Lemma write_runs q t D W I content own key data tomb flags fuel :
  setting q -> db q t D W I content own -> acceptable q t W own key data tomb ->
  exists t' ret, write q (S fuel) t key data None tomb flags = Some (t', ret) /\
    write_ok bt read_ret node_ret m write_ret q key data tomb t W content (mode_of flags) t' ret.
Proof using Type.
  intros [Hc Hcmp Hinj Hr Hm Ha Hn] Hdb [Hw Hroom (news & Hs)].
  by apply (write_request_ok bt Hc read_ret node_ret Hr nsz m Hm Hinj astats_done is_nodes_available Ha q write_ret stale
    q key data tomb Hw Hn None eq_refl news fuel t D W I content own flags Hdb Hroom).
Qed.

(** Every outcome that is not a success leaves all reads as they were. *)
Lemma failed_reads q t D W I content own key data tomb w t' ret :
  setting q -> db q t D W I content own ->
  write_ok bt read_ret node_ret m write_ret q key data tomb t W content w t' ret -> ret <> BTREE_SUCCESS ->
  forall k mm, reads snaps mm -> read_of t' k mm = read_of t k mm.
Proof using Type.
  intros [[Hbt _ _ _] Hcmp _ _ _ _ _] Hdb Hok Hne. pose proof (db_serves _ _ _ _ _ _ _ _ _ _ _ Hdb) as Hs.
  destruct Hok as [(D' & W' & I' & c' & o' & Hdb' & -> & Hv)|(_ & _ & D' & W' & I' & Hs' & Hv)].
  - rewrite decide_False in Hv by done.
    exact (same_reads bt read_ret node_ret m Hbt Hcmp _ _ _ _ _ _ _ _ _ _ Hs (db_serves _ _ _ _ _ _ _ _ _ _ _ Hdb') Hv).
  - exact (same_reads bt read_ret node_ret m Hbt Hcmp _ _ _ _ _ _ _ _ _ _ Hs Hs' Hv).
Qed.

Lemma success_reads q t D W I content own key data tomb w t' :
  setting q -> db q t D W I content own ->
  write_ok bt read_ret node_ret m write_ret q key data tomb t W content w t' BTREE_SUCCESS ->
  read_of t' key None = Some (if tomb then (BTREE_KEY_NOT_FOUND, None) else (BTREE_SUCCESS, Some data)) /\
  forall k mm, mm = None /\ cmp k key <> 0 \/ (exists s, s ∈ snaps /\ mm = at_snapshot s) ->
    read_of t' k mm = read_of t k mm.
Proof using Type.
  intros [[Hbt _ _ _] Hcmp _ _ _ _ _] Hdb Hok. pose proof (db_serves _ _ _ _ _ _ _ _ _ _ _ Hdb) as Hs.
  destruct Hok as [(D' & W' & I' & c' & o' & Hdb' & _ & Hv)|(Hne & _)]; [|done].
  rewrite decide_True in Hv by done.
  destruct (put_reads bt read_ret node_ret m Hbt Hcmp _ _ _ _ _ _ _ _ _ _ _ _ Hs (db_serves _ _ _ _ _ _ _ _ _ _ _ Hdb') Hv) as [H1 H2].
  split; [|done]. rewrite H1. by destruct tomb.
Qed.

Lemma delete_runs q t D W I content own key fuel :
  setting q -> q < 2 ^ 64 - 1 -> db q t D W I content own -> acceptable q t W own key [] true ->
  exists t' ret, delete q (S fuel) t key = Some (t', ret) /\
    if decide (is_Some (view cmp W content key None))
    then write_ok bt read_ret node_ret m write_ret q key [] true t W content W_SET t' ret
    else ret = BTREE_KEY_NOT_FOUND /\ db q t' D W I content own.
Proof using Type.
  intros [Hc Hcmp Hinj Hr Hm Ha Hn] Hq Hdb [Hw Hroom _].
  by apply (delete_request_ok bt Hc read_ret node_ret Hr nsz m Hm Hinj astats_done is_nodes_available Ha write_ret stale
    q key Hw Hq Hn fuel t D W I content own Hdb).
Qed.

(** ** Writes *)

(** C3: a write refines the update of a map with snapshots. It always ends.
    Either it was carried out and flushed: then its status is the one its mode
    prescribes (not-found for an update of an absent key or the creation of a
    present one), the tree is a well-formed database again, the key has the new
    data when the status is success and no other key and no snapshot sees a
    change; or an allocation of a tree node or the flush failed, the status says
    so, and the tree still answers every read as before. Splits of full nodes up
    to the root, restarts after a split whose parent is full, scavenging of the
    leaf and the replacement of overflow chains are all part of the run. This
    holds in the default page format under the limits of [setting], for an
    [acceptable] object: of a legal size, with overflow nodes that the allocator
    supplies, and with room beside a version it may not replace, now or after a
    split. *)
Theorem write_refines q t D W I content own key data tomb flags fuel :
  setting q -> db q t D W I content own -> acceptable q t W own key data tomb ->
  exists t' ret, write q (S fuel) t key data None tomb flags = Some (t', ret) /\
    (written_ok bt read_ret node_ret m q key data tomb t W content (mode_of flags) t' ret \/
     rolled_back bt read_ret node_ret m write_ret t W content t' ret).
Proof using Type. apply write_runs. Qed.

(** after a successful write a read of the key returns the new data, and
    reads of other keys and reads through any snapshot return what they
    returned before. *)
Theorem write_then_read q t D W I content own key data flags fuel t' :
  setting q -> db q t D W I content own -> acceptable q t W own key data false ->
  write q (S fuel) t key data None false flags = Some (t', BTREE_SUCCESS) ->
  read_of t' key None = Some (BTREE_SUCCESS, Some data) /\
  (forall k, cmp k key <> 0 -> read_of t' k None = read_of t k None) /\
  (forall k s, s ∈ snaps -> read_of t' k (at_snapshot s) = read_of t k (at_snapshot s)).
Proof using Type.
  intros Hse Hdb Hac Hrun. destruct (write_runs q t D W I content own key data false flags fuel Hse Hdb Hac) as (t1 & ret & E & Hok).
  rewrite Hrun in E. injection E as <- <-. destruct (success_reads q t D W I content own key data false _ t' Hse Hdb Hok) as [H1 H2].
  split_and!; [done| |]; intros k; [intros Hk; apply H2; by left|intros s0 Hs; apply H2; right; by exists s0].
Qed.

(** C6: a write that does not succeed has no effect on any reader: whether its
    mode forbids it, an allocation of a tree node fails in the middle of a split
    or the flush fails, every read, of the active state and of any snapshot,
    returns what it returned before. (In the
    default page format, under the limits of [setting], for an [acceptable]
    object.) *)
Theorem write_failure_atomic q t D W I content own key data tomb flags fuel t' ret :
  setting q -> db q t D W I content own -> acceptable q t W own key data tomb ->
  write q (S fuel) t key data None tomb flags = Some (t', ret) -> ret <> BTREE_SUCCESS ->
  forall k mm, reads snaps mm -> read_of t' k mm = read_of t k mm.
Proof using Type.
  intros Hse Hdb Hac Hrun Hne. destruct (write_runs q t D W I content own key data tomb flags fuel Hse Hdb Hac) as (t1 & ret1 & E & Hok).
  rewrite Hrun in E. injection E as <- <-. by apply (failed_reads q t D W I content own key data tomb (mode_of flags) t' ret).
Qed.

(** when the storage accepts the flush and every allocation of the supply
    succeeds, a write takes effect: its status is the one its mode prescribes,
    unless the supply of nodes was used up to the last one. *)
Theorem write_completes q t D W I content own key data tomb flags fuel :
  setting q -> db q t D W I content own -> acceptable q t W own key data tomb ->
  write_ret = BTREE_SUCCESS -> (forall e, inl e ∉ t_supply t) ->
  exists t' ret, write q (S fuel) t key data None tomb flags = Some (t', ret) /\
    (ret = put_status q (mode_of flags) (bool_decide (is_Some (view cmp W content key None))) \/ t_supply t' = []).
Proof using Type.
  intros Hse Hdb Hac Hwr Hal. destruct (write_runs q t D W I content own key data tomb flags fuel Hse Hdb Hac) as (t' & ret & -> & Hok).
  exists t', ret. split; [done|]. destruct Hok as [(? & ? & ? & ? & ? & _ & -> & _)|(_ & Hwhy & _)]; [by left|].
  destruct Hwhy as [?|[Hs|(e & He)]]; [done|by right|]. by destruct (Hal e).
Qed.

(** ** Deletes *)

(** C7: a delete refines the removal of a key from a map with snapshots: it
    always ends; a key that is not visible gives not-found and the database
    stays; otherwise a tombstone is written, in place or by an ordinary write,
    after which the key is absent and the snapshots still see it, or the
    delete fails and is rolled back. (In the default page format, under the
    limits of [setting], when a tombstone is [acceptable].) *)
Theorem delete_refines q t D W I content own key fuel :
  setting q -> q < 2 ^ 64 - 1 -> db q t D W I content own -> acceptable q t W own key [] true ->
  exists t' ret, delete q (S fuel) t key = Some (t', ret) /\
    if decide (is_Some (view cmp W content key None))
    then written_ok bt read_ret node_ret m q key [] true t W content W_SET t' ret \/
         rolled_back bt read_ret node_ret m write_ret t W content t' ret
    else ret = BTREE_KEY_NOT_FOUND /\ db q t' D W I content own.
Proof using Type. apply delete_runs. Qed.

(** after a successful delete a read of the key finds nothing, and other
    keys and all snapshots read as before; after any other outcome every read
    returns what it returned before. *)
Theorem delete_then_read q t D W I content own key fuel t' ret :
  setting q -> q < 2 ^ 64 - 1 -> db q t D W I content own -> acceptable q t W own key [] true ->
  delete q (S fuel) t key = Some (t', ret) ->
  (ret = BTREE_SUCCESS -> read_of t' key None = Some (BTREE_KEY_NOT_FOUND, None)) /\
  (forall k mm, reads snaps mm -> ret <> BTREE_SUCCESS \/ mm <> None \/ cmp k key <> 0 -> read_of t' k mm = read_of t k mm).
Proof using Type.
  intros Hse Hq Hdb Hac Hrun. destruct (delete_runs q t D W I content own key fuel Hse Hq Hdb Hac) as (t1 & ret1 & E & Hok).
  rewrite Hrun in E. injection E as <- <-. pose proof Hse as [[Hbt _ _ _] Hcmp _ _ _ _ _]. case_decide as Hvis.
  - split.
    + intros ->. by destruct (success_reads q t D W I content own key [] true W_SET t' Hse Hdb Hok) as [H1 _].
    + intros k mm Hmm Hor. destruct (decide (ret = BTREE_SUCCESS)) as [->|Hne];
        [|by apply (failed_reads q t D W I content own key [] true W_SET t' ret)].
      destruct (success_reads q t D W I content own key [] true W_SET t' Hse Hdb Hok) as [_ H2]. apply H2.
      destruct Hmm as [->|Hs]; [|by right]. left. split; [done|]. by destruct Hor as [?|[?|?]].
  - destruct Hok as [-> Hdb']. split; [done|]. intros k mm Hmm _.
    apply db_serves in Hdb, Hdb'. by apply (same_reads bt read_ret node_ret m Hbt Hcmp t D W I content t' D W I content).
Qed.
End claims.

(** ** A concrete database *)

(** The tree of two leaves with a snapshot at sequence number 8. *)
Definition snap8 : btree_snap_meta :=
  mk_snap_meta META_SNAPSHOT_LOGICAL_ID SNAP_VERSION1 502 1 0 ([mk_snap_info 8 1] ++ replicate 501 (mk_snap_info 0 0)).

Lemma snap8_ok : snap_ok 8192 snap8.
Proof.
  split; try done. assert (snap_seqs snap8 = [8]) as -> by done. intros i j x y Hij Hi Hj.
  destruct i as [|i], j as [|j]; try lia; done.
Qed.

Lemma default_cmp_inj a b : default_cmp_cb a b = 0 -> a = b.
Proof.
  unfold default_cmp_cb. case_if; [done|]. case_if; [done|]. b2p. assert (length a = length b) as Hl by lia. clear -Hl.
  revert b Hl. induction a as [|x a IH]; intros [|y b] Hl; try done. cbn in *.
  destruct (Z.eqb_spec (byte.unsigned x) (byte.unsigned y)) as [E|]; [|lia].
  intros H. f_equal; [by apply byte.unsigned_inj|]. apply IH; [lia|done].
Qed.

Abbreviation always := (fun _ : Z => true).

Lemma setting_8k q : 8 < q -> setting (bt_8k true) ret_ok 8192 snap8 always q.
Proof.
  intros Hq. split.
  - split; [apply bt_8k_ok|done|by vm_compute|by vm_compute].
  - apply default_cmp_ok.
  - apply default_cmp_inj.
  - done.
  - apply snap8_ok.
  - done.
  - by repeat constructor.
Qed.

Lemma db_ab : db (bt_8k true) ret_ok ret_ok snap8 20 tree_ab 1 fl_ab [5; 11; 12] e_data (fun _ => []).
Proof.
  pose proof (tree_ab_ok (leaf_plain (bt_8k true)) leaf_page_plain) as [H1 H2 H3].
  split; [|done|done]. split; [done| |].
  - split; [done| | |done|].
    + repeat constructor; cbn; try lia; intros v [= <-]; cbn; lia.
    + by repeat constructor.
    + split; [apply (bool_decide_unpack _); by vm_compute|]. repeat constructor; set_solver.
  - split; [repeat constructor; by vm_compute|apply (bool_decide_unpack _); by vm_compute|]. intros i Hi. by apply not_elem_of_nil in Hi.
Qed.

Lemma small_ab q data tomb :
  (lenZ data <=? 100) = true -> (0 <? q) && (q <? 2 ^ 64) = true -> small (bt_8k true) q (key_ab Byte.x32) data tomb.
Proof.
  intros Hd Hq. b2p.
  assert (big_object_kd (bt_8k true) (lenZ (key_ab Byte.x32)) (lenZ data) = false) as Hb.
  { apply Z.leb_gt. change (big_object_size (bt_8k true)) with 1977. change (lenZ (key_ab Byte.x32)) with 13. lia. }
  split; [split; [done|done|lia|lia|by rewrite Hb]|done|].
  unfold entry_size, probe, object_entry, size_type, data_inleaf. cbn [e_key e_datalen]. rewrite Hb.
  change (lenZ (key_ab Byte.x32)) with 13. rewrite (proj2 (Z.ltb_lt (lenZ data) MAX_UINT8_T)) by (unfold MAX_UINT8_T; lia).
  change (13 <? MAX_UINT8_T) with true. change (nodesize_less_hdr (bt_8k true)) with 8056. cbn [andb get_meta_type_to_size].
  unfold SIZEOF_ENTRY_HEADER. lia.
Qed.

(** Overwriting a key that the snapshot sees. *)
Abbreviation write_ab wr data flags :=
  (btree_raw_write (bt_8k true) ret_ok ret_ok snap8 true always None 20 wr false 1 tree_ab (key_ab Byte.x32) data None false flags).
Abbreviation delete_ab wr :=
  (btree_raw_delete (bt_8k true) ret_ok ret_ok snap8 true always None 20 wr false 1 tree_ab (key_ab Byte.x32)).
Abbreviation read_ab := (read_of (bt_8k true) ret_ok ret_ok).

Lemma acceptable_ab data tomb :
  (lenZ data <=? 100) = true -> acceptable (bt_8k true) snap8 20 tree_ab fl_ab (fun _ => []) (key_ab Byte.x32) data tomb.
Proof. intros Hd. apply small_acceptable; [apply (setting_8k 20); lia|by apply small_ab]. Qed.

#[export] Hint Resolve setting_8k db_ab acceptable_ab : zs.

(** The state a request leads to, when its status is known. *)
Lemma run_state {A} (x : option (A * btree_status)) ret : snd <$> x = Some ret -> exists t', x = Some (t', ret).
Proof. destruct x as [[t' r]|]; [|done]. intros [= ->]. by exists t'. Qed.

Lemma write_refines_witness :
  exists t' ret, write_ab BTREE_SUCCESS [Byte.x37] 0 = Some (t', ret) /\
    (written_ok (bt_8k true) ret_ok ret_ok snap8 20 (key_ab Byte.x32) [Byte.x37] false tree_ab fl_ab e_data W_SET t' ret \/
     rolled_back (bt_8k true) ret_ok ret_ok snap8 BTREE_SUCCESS tree_ab fl_ab e_data t' ret).
Proof.
  apply (write_refines (bt_8k true) ret_ok ret_ok 8192 snap8 true always BTREE_SUCCESS false 20 tree_ab 1 fl_ab [5; 11; 12]
           e_data (fun _ => []) (key_ab Byte.x32) [Byte.x37] false 0 0).
  1-3: auto with zs.
Defined.

Lemma write_then_read_witness :
  exists t', write_ab BTREE_SUCCESS [Byte.x37] 0 = Some (t', BTREE_SUCCESS) /\
    read_ab t' (key_ab Byte.x32) None = Some (BTREE_SUCCESS, Some [Byte.x37]) /\
    read_ab t' (key_ab Byte.x32) (at_snapshot 8) = read_ab tree_ab (key_ab Byte.x32) (at_snapshot 8).
Proof.
  destruct (run_state (write_ab BTREE_SUCCESS [Byte.x37] 0) BTREE_SUCCESS) as (t' & E); [by vm_compute|].
  exists t'. split; [exact E|].
  destruct (write_then_read (bt_8k true) ret_ok ret_ok 8192 snap8 true always BTREE_SUCCESS false 20 tree_ab 1 fl_ab [5; 11; 12]
           e_data (fun _ => []) (key_ab Byte.x32) [Byte.x37] 0 0 t') as (H1 & _ & H2).
  1-3: auto with zs.
  - exact E.
  - split; [exact H1|]. apply H2. left.
Defined.

Lemma write_failure_atomic_witness :
  exists t', write_ab BTREE_FAILURE [Byte.x37] 0 = Some (t', BTREE_FAILURE) /\
    read_ab t' (key_ab Byte.x32) None = read_ab tree_ab (key_ab Byte.x32) None.
Proof.
  destruct (run_state (write_ab BTREE_FAILURE [Byte.x37] 0) BTREE_FAILURE) as (t' & E); [by vm_compute|].
  exists t'. split; [exact E|].
  apply (write_failure_atomic (bt_8k true) ret_ok ret_ok 8192 snap8 true always BTREE_FAILURE false 20 tree_ab 1 fl_ab [5; 11; 12]
           e_data (fun _ => []) (key_ab Byte.x32) [Byte.x37] false 0 0 t' BTREE_FAILURE).
  1-3: auto with zs.
  - exact E.
  - done.
  - by left.
Defined.

Lemma write_completes_witness :
  exists t' ret, write_ab BTREE_SUCCESS [Byte.x37] 1 = Some (t', ret) /\ (ret = BTREE_KEY_NOT_FOUND \/ t_supply t' = []).
Proof.
  apply (write_completes (bt_8k true) ret_ok ret_ok 8192 snap8 true always BTREE_SUCCESS false 20 tree_ab 1 fl_ab [5; 11; 12]
           e_data (fun _ => []) (key_ab Byte.x32) [Byte.x37] false 1 0).
  1-3: auto with zs.
  - reflexivity.
  - intros e He. cbn in He. set_solver.
Defined.

Lemma delete_refines_witness :
  exists t' ret, delete_ab BTREE_SUCCESS = Some (t', ret) /\
    (written_ok (bt_8k true) ret_ok ret_ok snap8 20 (key_ab Byte.x32) [] true tree_ab fl_ab e_data W_SET t' ret \/
     rolled_back (bt_8k true) ret_ok ret_ok snap8 BTREE_SUCCESS tree_ab fl_ab e_data t' ret).
Proof.
  assert (is_Some (view (cmp_cb (bt_8k true)) fl_ab e_data (key_ab Byte.x32) None)) as Hv by (eexists; by vm_compute).
  destruct (delete_refines (bt_8k true) ret_ok ret_ok 8192 snap8 true always BTREE_SUCCESS false 20 tree_ab 1 fl_ab [5; 11; 12]
           e_data (fun _ => []) (key_ab Byte.x32) 0) as (t' & ret & E & H).
  1-4: auto with zs.
  - exists t', ret. split; [exact E|]. rewrite decide_True in H by exact Hv. exact H.
Defined.

Lemma delete_then_read_witness :
  exists t', delete_ab BTREE_SUCCESS = Some (t', BTREE_SUCCESS) /\
    read_ab t' (key_ab Byte.x32) None = Some (BTREE_KEY_NOT_FOUND, None) /\
    read_ab t' (key_ab Byte.x32) (at_snapshot 8) = read_ab tree_ab (key_ab Byte.x32) (at_snapshot 8).
Proof.
  destruct (run_state (delete_ab BTREE_SUCCESS) BTREE_SUCCESS) as (t' & E); [by vm_compute|].
  exists t'. split; [exact E|].
  destruct (delete_then_read (bt_8k true) ret_ok ret_ok 8192 snap8 true always BTREE_SUCCESS false 20 tree_ab 1 fl_ab [5; 11; 12]
           e_data (fun _ => []) (key_ab Byte.x32) 0 t' BTREE_SUCCESS) as [H1 H2].
  1-4: auto with zs.
  - exact E.
  - split; [by apply H1|]. apply H2; [right; exists 8; split; [left|done]|]. by right; left.
Defined.
