(* ===== verification/TreeHistory.v ===== *)
(** * Histories of requests

    A sequence of writes and deletes implements a map: reads of the active
    state follow the map and reads through a snapshot never change. The
    requests are of small objects, for which a page always has room after a
    split; the storage accepts every flush and no allocation fails. *)

From stdpp Require Import gmap.
From S2P Require Import Prelude Status LeafMeta LeafNode LeafOps LeafCells LeafEncode LeafFixup LeafSpec LeafRefine LeafPlain LeafMove NodeSearch LeafTheorems NodeSearchSpec NonLeaf NonLeafSpec NodeTheorems TreeFlat PStats Overflow OverflowSpec OverflowTheorems Snapshot SnapshotSpec SnapshotTheorems Scavenger ScavengerTheorems Tree TreeSpec TreeTheorems TreeWrite TreeEdit TreeSplit TreeSplitLeaf TreeDescend TreeStore TreeLeafWrite TreePut TreeRequests.

(** ** The map *)

Inductive request :=
  | RWrite (key data : list byte) (flags : Z)
  | RDelete (key : list byte).

Definition request_key (r : request) : list byte := match r with RWrite k _ _ => k | RDelete k => k end.

Abbreviation amap := (list byte -> option (list byte)).

Definition apply_request (A : amap) (r : request) : amap :=
  match r with
  | RWrite key data flags =>
      if decide (put_status 0 (mode_of flags) (bool_decide (is_Some (A key))) = BTREE_SUCCESS)
      then fun k => if decide (k = key) then Some data else A k else A
  | RDelete key => fun k => if decide (k = key) then None else A k
  end.

(** Maps that agree on every key stay so. *)
Abbreviation same_map := (pointwise_relation (list byte) (=@{option (list byte)})).

#[export] Instance apply_request_proper : Proper (same_map ==> (=) ==> same_map) apply_request.
Proof.
  intros A B HAB r _ <- k. destruct r as [key data flags|key]; cbn [apply_request]; [rewrite (HAB key)|]; repeat case_decide; done || apply HAB.
Qed.

#[export] Instance history_map_proper : Proper (same_map ==> (=) ==> same_map) (foldl apply_request).
Proof.
  intros A B HAB rs _ <-. revert A B HAB. induction rs as [|r rs IH]; intros A B HAB; [done|]. cbn. apply IH. by rewrite HAB.
Qed.

Section history.
Context (bt : btree_raw) (read_ret node_ret : Z -> btree_status) (nsz : Z) (m : btree_snap_meta)
  (astats_done : bool) (is_nodes_available : Z -> bool) (stale : bool).
Abbreviation cmp := (cmp_cb bt).
Abbreviation snaps := (snap_seqs m).
Abbreviation db := (db bt read_ret node_ret m).
Abbreviation setting := (setting bt read_ret nsz m is_nodes_available).

(** A request with the sequence number [q]. *)
Definition run_request (q : Z) (t : tree) (r : request) : option (tree * btree_status) :=
  match r with
  | RWrite key data flags =>
      btree_raw_write bt read_ret node_ret m astats_done is_nodes_available None q BTREE_SUCCESS stale 1 t key data None false flags
  | RDelete key => btree_raw_delete bt read_ret node_ret m astats_done is_nodes_available None q BTREE_SUCCESS stale 1 t key
  end.

Definition small_request (q : Z) (r : request) : Prop :=
  match r with RWrite key data _ => small bt q key data false | RDelete key => small bt q key [] true end.

(** The history [rs] leads from one state to another; each request takes the
    next sequence number. *)
Inductive history : list request -> Z -> tree -> Z -> tree -> Prop :=
  | history_nil q t : history [] q t q t
  | history_cons r rs q t t1 ret q' t' :
      setting q -> q < 2 ^ 64 - 1 -> small_request q r -> run_request q t r = Some (t1, ret) -> ~ alloc_failed t t1 ->
      history rs (q + 1) t1 q' t' -> history (r :: rs) q t q' t'.

Lemma db_mono q q' t D W I content own : q <= q' -> db q t D W I content own -> db q' t D W I content own.
Proof using Type.
  intros Hle [[Hsub [? ? ? ? ?] Hst] Hs Hd]. split; [|done|done]. split; [done| |done]. split; try done. by apply (flat_below_mono q).
Qed.

Lemma put_status_any q w vis : q < 2 ^ 64 - 1 -> put_status q w vis = put_status 0 w vis.
Proof using Type. intros Hq. unfold put_status. by rewrite (proj2 (Z.eqb_neq q _)) by lia. Qed.

Lemma cmp_same q k k' : setting q -> cmp k k' = 0 <-> k = k'.
Proof using Type.
  intros [_ Hcmp Hinj _ _ _ _]. split; [apply Hinj|]. intros ->. apply (cmp_refl cmp).
Qed.

(** What one request does to the database. *)
Lemma write_step q t W content key data tomb w t' ret :
  setting q -> write_ok bt read_ret node_ret m BTREE_SUCCESS q key data tomb t W content w t' ret -> ~ alloc_failed t t' ->
  exists D' W' I' content' own', db (q + 1) t' D' W' I' content' own' /\
    ret = put_status q w (bool_decide (is_Some (view cmp W content key None))) /\
    (forall k s, s ∈ snaps -> view cmp W' content' k (at_snapshot s) = view cmp W content k (at_snapshot s)) /\
    forall k, view cmp W' content' k None =
      if decide (ret = BTREE_SUCCESS) then
        if decide (k = key) then if tomb then None else Some data else view cmp W content k None
      else view cmp W content k None.
Proof using Type.
  intros Hse Hok Haf. destruct Hok as [(D' & W' & I' & c' & o' & Hdb & -> & Hv)|(_ & [?|?] & _)]; [|done|done].
  exists D', W', I', c', o'. split; [done|]. split; [done|]. case_decide as Hr.
  - destruct Hv as [H1 H2 H3]. split; [done|]. intros k. case_decide as Hk; [by subst|]. apply H2.
    intros E. apply Hk. by apply (cmp_same q).
  - split; [intros k s Hs; apply Hv; right; by exists s|]. intros k. apply Hv. by left.
Qed.

Lemma request_step r q t D W I content own t' ret :
  setting q -> q < 2 ^ 64 - 1 -> small_request q r -> run_request q t r = Some (t', ret) -> ~ alloc_failed t t' ->
  db q t D W I content own ->
  exists D' W' I' content' own', db (q + 1) t' D' W' I' content' own' /\
    (forall k s, s ∈ snaps -> view cmp W' content' k (at_snapshot s) = view cmp W content k (at_snapshot s)) /\
    forall k, view cmp W' content' k None = apply_request (fun k => view cmp W content k None) r k.
Proof using Type.
  intros Hse Hq Hsm Hrun Haf Hdb. pose proof (se_conf Hse) as Hc. destruct r as [key data flags|key]; cbn [small_request run_request] in Hsm, Hrun.
  - destruct (write_runs bt read_ret node_ret nsz m astats_done is_nodes_available BTREE_SUCCESS stale q t D W I content own key data
                false flags 0 Hse Hdb (small_acceptable _ _ _ _ _ _ _ _ _ Hc Hsm)) as (t1 & ret1 & E & Hok).
    rewrite Hrun in E. injection E as <- <-.
    destruct (write_step q t W content key data false (mode_of flags) t' ret Hse Hok Haf)
      as (D' & W' & I' & c' & o' & Hdb' & -> & Hs & Hv). exists D', W', I', c', o'. split; [done|]. split; [done|].
    intros k. rewrite Hv, put_status_any by done. cbn [apply_request]. by destruct (decide (put_status 0 _ _ = _)).
  - destruct (delete_runs bt read_ret node_ret nsz m astats_done is_nodes_available BTREE_SUCCESS stale q t D W I content own key
                0 Hse Hq Hdb (small_acceptable _ _ _ _ _ _ _ _ _ Hc Hsm)) as (t1 & ret1 & E & Hok).
    rewrite Hrun in E. injection E as <- <-. case_decide as Hvis.
    + destruct (write_step q t W content key [] true W_SET t' ret Hse Hok Haf)
        as (D' & W' & I' & c' & o' & Hdb' & -> & Hs & Hv). exists D', W', I', c', o'. split; [done|]. split; [done|].
      intros k. rewrite Hv, put_status_any by done. cbn [apply_request]. rewrite decide_True; [done|]. by rewrite bool_decide_eq_true_2.
    + destruct Hok as [_ Hdb']. exists D, W, I, content, own. split; [apply (db_mono q); [lia|done]|]. split; [done|].
      intros k. cbn [apply_request]. case_decide as Hk; [|done]. subst k. by apply eq_None_not_Some.
Qed.

Lemma history_ok rs q t q' t' :
  history rs q t q' t' -> forall D W I content own, db q t D W I content own ->
  exists D' W' I' content' own', db q' t' D' W' I' content' own' /\
    (forall k s, s ∈ snaps -> view cmp W' content' k (at_snapshot s) = view cmp W content k (at_snapshot s)) /\
    forall k, view cmp W' content' k None = foldl apply_request (fun k => view cmp W content k None) rs k.
Proof using Type.
  induction 1 as [q t|r rs q t t1 ret q' t' Hse Hq Hsm Hrun Haf Hh IH]; intros D W I content own Hdb.
  { by exists D, W, I, content, own. }
  destruct (request_step r q t D W I content own t1 ret Hse Hq Hsm Hrun Haf Hdb) as (D1 & W1 & I1 & c1 & o1 & Hdb1 & Hs1 & Hv1).
  destruct (IH D1 W1 I1 c1 o1 Hdb1) as (D' & W' & I' & c' & o' & Hdb' & Hs' & Hv').
  exists D', W', I', c', o'. split; [done|]. split.
  - intros k s Hs. by rewrite Hs', Hs1.
  - intros k. rewrite Hv'. cbn [foldl]. apply history_map_proper; [exact Hv1|done].
Qed.

(** ** Theorems *)

(** C13: every history of requests (of objects of up to a seventh of a page, in
    the default page format, without failures of storage or allocator) keeps the
    database well formed: the tree with its separators, sequence numbers and
    node formats, the overflow chains of its objects, and the flushed copy of
    everything. *)
Theorem history_wellformed rs q t q' t' :
  history rs q t q' t' -> (exists D W I content own, db q t D W I content own) ->
  exists D W I content own, db q' t' D W I content own.
Proof using Type.
  intros Hh (D & W & I & content & own & Hdb).
  destruct (history_ok rs q t q' t' Hh D W I content own Hdb) as (D' & W' & I' & c' & o' & Hdb' & _). by exists D', W', I', c', o'.
Qed.

(** C1: a history of requests implements a map: a read of the active state at the
    end returns what the map holds after the same updates, from the contents at
    the start; a write whose mode forbids it changes nothing. A history
    ([history]) is of writes and deletes of objects that are not big and take up
    to about a seventh of a page, in the default page format, with the snapshots
    that exist at its start; the storage reads and flushes without errors and no
    allocation fails. *)
Theorem history_refines_map rs q t q' t' D W I content own k :
  bt_ok bt -> CmpOk cmp -> history rs q t q' t' -> db q t D W I content own ->
  read_of bt read_ret node_ret t' k None =
  Some (match foldl apply_request (fun k => view cmp W content k None) rs k with
        | Some data => (BTREE_SUCCESS, Some data)
        | None => (BTREE_KEY_NOT_FOUND, None)
        end).
Proof using Type.
  intros Hbt Hcmp Hh Hdb. destruct (history_ok rs q t q' t' Hh D W I content own Hdb) as (D' & W' & I' & c' & o' & Hdb' & _ & Hv).
  rewrite (serves_read bt read_ret node_ret m Hbt Hcmp t' D' W' I' c') by (by left || by eapply db_serves). by rewrite Hv.
Qed.

(** C2: snapshots are isolated: after any history of writes and deletes (of
    objects of up to a seventh of a page, in the default page format, without
    failures of storage or allocator), with all the splits, scavenging and
    replaced overflow chains this causes, a read through an existing snapshot
    returns what it returned before. *)
Theorem snapshot_isolation rs q t q' t' D W I content own k s :
  bt_ok bt -> CmpOk cmp -> history rs q t q' t' -> db q t D W I content own -> s ∈ snaps ->
  read_of bt read_ret node_ret t' k (at_snapshot s) = read_of bt read_ret node_ret t k (at_snapshot s).
Proof using Type.
  intros Hbt Hcmp Hh Hdb Hs. destruct (history_ok rs q t q' t' Hh D W I content own Hdb) as (D' & W' & I' & c' & o' & Hdb' & Hv & _).
  assert (reads snaps (at_snapshot s)) by (right; by exists s).
  rewrite (serves_read bt read_ret node_ret m Hbt Hcmp t' D' W' I' c'), (serves_read bt read_ret node_ret m Hbt Hcmp t D W I content)
    by (done || by eapply db_serves). by rewrite Hv.
Qed.
End history.

(** ** A concrete history *)

(** Two requests on the tree of two leaves: a key that the snapshot sees is
    overwritten and then deleted. *)
Definition r1 : request := RWrite (key_ab Byte.x32) [Byte.x37] 0.
Definition r2 : request := RDelete (key_ab Byte.x32).
Abbreviation run_ab := (run_request (bt_8k true) ret_ok ret_ok snap8 true always false).
Definition after_run (x : option (tree * btree_status)) : tree := default tree_ab (fst <$> x).
Definition tree1 : tree := after_run (run_ab 20 tree_ab r1).
Definition tree2 : tree := after_run (run_ab 21 tree1 r2).

Lemma after_run_eq x ret : snd <$> x = Some ret -> x = Some (after_run x, ret).
Proof. destruct x as [[t r]|]; [|done]. by intros [= ->]. Qed.

Lemma no_alloc_failed t t' :
  bool_decide (t_supply t' = []) = false -> forallb (fun x => match x with inl _ => false | inr _ => true end) (t_supply t) = true ->
  ~ alloc_failed t t'.
Proof.
  intros H1 H2 [H|(e & H)]; [by rewrite bool_decide_eq_true_2 in H1|]. rewrite forallb_forall in H2.
  by specialize (H2 (inl e) (proj1 (list_elem_of_In _ _) H)).
Qed.

Lemma history_ab :
  history (bt_8k true) ret_ok ret_ok 8192 snap8 true always false [r1; r2] 20 tree_ab 22 tree2.
Proof.
  apply (history_cons _ _ _ _ _ _ _ _ r1 [r2] 20 tree_ab tree1 BTREE_SUCCESS);
    [by apply setting_8k|done|by apply small_ab|apply after_run_eq; by vm_compute|apply no_alloc_failed; by vm_compute|].
  apply (history_cons _ _ _ _ _ _ _ _ r2 [] 21 tree1 tree2 BTREE_SUCCESS);
    [by apply setting_8k|done|by apply small_ab|apply after_run_eq; by vm_compute|apply no_alloc_failed; by vm_compute|].
  apply history_nil.
Qed.

Lemma history_wellformed_witness :
  exists D W I content own, db (bt_8k true) ret_ok ret_ok snap8 22 tree2 D W I content own.
Proof.
  apply (history_wellformed (bt_8k true) ret_ok ret_ok 8192 snap8 true always false [r1; r2] 20 tree_ab 22 tree2).
  - apply history_ab.
  - eexists _, _, _, _, _. apply db_ab.
Defined.

Lemma history_refines_map_witness :
  read_of (bt_8k true) ret_ok ret_ok tree2 (key_ab Byte.x32) None = Some (BTREE_KEY_NOT_FOUND, None).
Proof.
  apply (history_refines_map (bt_8k true) ret_ok ret_ok 8192 snap8 true always false [r1; r2] 20 tree_ab 22 tree2 1 fl_ab
           [5; 11; 12] e_data (fun _ => []) (key_ab Byte.x32)).
  - apply bt_8k_ok.
  - apply default_cmp_ok.
  - apply history_ab.
  - apply db_ab.
Defined.

Lemma snapshot_isolation_witness :
  read_of (bt_8k true) ret_ok ret_ok tree2 (key_ab Byte.x32) (at_snapshot 8)
  = read_of (bt_8k true) ret_ok ret_ok tree_ab (key_ab Byte.x32) (at_snapshot 8).
Proof.
  apply (snapshot_isolation (bt_8k true) ret_ok ret_ok 8192 snap8 true always false [r1; r2] 20 tree_ab 22 tree2 1 fl_ab
           [5; 11; 12] e_data (fun _ => []) (key_ab Byte.x32) 8).
  - apply bt_8k_ok.
  - apply default_cmp_ok.
  - apply history_ab.
  - apply db_ab.
  - left.
Defined.
