(* ===== verification/TreeFaults.v ===== *)
(** * Where writes go wrong

    Two runs of the model that show defects of the write path: a crash after
    an uneven split, and the loss of an object after a failed flush. *)

From stdpp Require Import gmap.
From S2P Require Import Prelude Status LeafMeta LeafNode LeafOps LeafCells LeafEncode LeafFixup LeafSpec LeafRefine LeafPlain LeafMove NodeSearch LeafTheorems NodeSearchSpec NonLeaf NonLeafSpec NodeTheorems TreeFlat PStats Overflow OverflowSpec OverflowTheorems Snapshot SnapshotSpec SnapshotTheorems Scavenger ScavengerTheorems Tree TreeSpec TreeTheorems TreeWrite TreeRequests.

(** ** An uneven split *)

Definition num_byte (i : nat) : byte := default Byte.x00 (Stdlib.Strings.Byte.of_nat i).
Definition num_key (i : nat) : list byte := [num_byte (i / 200); num_byte (i mod 200)].

(** A full page: 76 empty objects, one of 530 bytes, 20 empty objects. *)
Definition crowd : list entry :=
  ((fun i => mk_entry (num_key i) 0 [] 0 5 false) <$> seq 0 76)
  ++ [mk_entry (num_key 76) 530 (replicate 530 Byte.x41) 0 9 false]
  ++ ((fun i => mk_entry (num_key i) 0 [] 0 5 false) <$> seq 77 20).
Definition crowd_tree : tree :=
  let ns := {[ 11 := TLeaf (leaf_page 11 crowd) ]} in
  mk_tree 11 ns st_two (mk_scav_stats 0 0) stat0 [inr 21; inr 22; inr 23] (mk_storage 11 ns (ov_nodes st_two)).

(** the check for space after a split is not the one before it. The large
    object is overwritten while a snapshot sees it, so the new version goes
    beside the old one. The page is full and is split, with the 76 small
    and the large entries on the left, where 377 bytes remain. The check after
    the split treats the write as an update in place and accepts the leaf; the
    insertion of the 559 bytes then fails its assertion. *)
Theorem overwrite_after_split_crashes :
  entries_size bt_2k crowd <= nodesize_less_hdr bt_2k /\
  (exists t leaf n pathcnt,
     mwrite_descend bt_2k ret_ok snap3 (fun _ => true) 20 crowd_tree 11 None (-1) false false 0 (num_key 76) 530 false
       = Some (DLeaf t leaf true 76 false pathcnt) /\
     t_nodes t !! leaf = Some (TLeaf n) /\ nodesize_less_hdr bt_2k - btree_leaf_used_space bt_2k n = 377) /\
  btree_raw_write bt_2k ret_ok ret_ok snap3 true (fun _ => true) None 40 BTREE_SUCCESS false 1 crowd_tree
    (num_key 76) (replicate 530 Byte.x42) None false 4 = None.
Proof.
  split; [by vm_compute|]. split; [|by vm_compute].
  eexists _, _, _, _. split; [vm_compute; reflexivity|]. split; by vm_compute.
Qed.

(** ** A failed flush *)

Definition run_tree (x : option (tree * btree_status)) : tree := default crowd_tree (fst <$> x).
Abbreviation put_2k q wr t key data :=
  (btree_raw_write bt_2k ret_ok ret_ok snap3 true (fun _ => true) None q wr false 1 t key data None false 4).

(** An object of 2400 bytes is written into an empty tree and its overflow
    node leaves the cache. *)
Definition empty_tree : tree :=
  let ns := {[ 11 := TLeaf (leaf_page 11 []) ]} in
  mk_tree 11 ns st_two (mk_scav_stats 0 0) stat0 [] (mk_storage 11 ns (ov_nodes st_two)).
Definition long_data : list byte := replicate 2400 Byte.x41.
Definition one_object : tree :=
  let t := run_tree (put_2k 40 BTREE_SUCCESS empty_tree (key_ab Byte.x31) long_data) in set_ov t (set_cached (t_ov t) ∅).

(** Overwriting it fails in the flush; then another key is written. *)
Definition flush_failed : tree := run_tree (put_2k 41 BTREE_FAILURE one_object (key_ab Byte.x31) [Byte.x42]).
Definition next_write : tree := run_tree (put_2k 42 BTREE_SUCCESS flush_failed (key_ab Byte.x32) [Byte.x43]).

(** [btree_io_error_cleanup] keeps the list of overflow nodes to be
    deleted. After the failed flush the object is intact and readable, as it
    should be. The next flush that succeeds, of a write to another key,
    deletes its overflow node, and the entry leads nowhere: the object is
    lost. *)
Theorem failed_flush_loses_object :
  snd <$> put_2k 41 BTREE_FAILURE one_object (key_ab Byte.x31) [Byte.x42] = Some BTREE_FAILURE /\
  read_of bt_2k ret_ok ret_ok flush_failed (key_ab Byte.x31) None = Some (BTREE_SUCCESS, Some long_data) /\
  snd <$> put_2k 42 BTREE_SUCCESS flush_failed (key_ab Byte.x32) [Byte.x43] = Some BTREE_SUCCESS /\
  (exists n ki, t_nodes next_write !! 11 = Some (TLeaf n) /\ btree_leaf_get_nth_key_info2 n 0 = Some ki /\
     ki_key ki = key_ab Byte.x31 /\ ki_ptr ki = 5) /\
  ov_nodes (t_ov next_write) !! 5 = None.
Proof.
  split; [by vm_compute|]. split; [by vm_compute|]. split; [by vm_compute|]. split; [|by vm_compute].
  eexists _, _. split; [by vm_compute|]. split; [by vm_compute|]. split; by vm_compute.
Qed.
