(* ===== verification/Hash.v ===== *)
(** * The hash function of the node cache (btree/btree_hash.c)

    [btree_hash_int] is Bob Jenkins' lookup8 hash of a byte string,
    [btree_hash] adds the container id to it. The source reads the key by
    words when it is aligned and byte by byte otherwise; on a little-endian
    machine both give the same words, which is what is modelled. The theorem
    of the file is the comment's claim on [mix64]: it mixes its three words
    reversibly. *)

From S2P Require Import Prelude.

(** One line of the macro: [x -= y; x -= z; x ^= w]. *)
Definition mix_line (x y z w : Z) : Z := Z.lxor (u64 (u64 (x - y) - z)) w.

(** A round of three lines, with the shifts of the round. *)
Definition mix_round (s1 s2 s3 : Z) (abc : Z * Z * Z) : Z * Z * Z :=
  let '(a, b, c) := abc in
  let a := mix_line a b c (Z.shiftr c s1) in
  let b := mix_line b c a (u64 (Z.shiftl a s2)) in
  let c := mix_line c a b (Z.shiftr b s3) in
  (a, b, c).

Definition mix64 (abc : Z * Z * Z) : Z * Z * Z :=
  mix_round 12 18 22 (mix_round 35 49 11 (mix_round 38 23 5 (mix_round 43 9 8 abc))).

(** The word at the front of a byte string: the sum of its first eight bytes,
    each shifted to its place; fewer bytes leave the high places empty. *)
Definition word_at (k : list byte) : Z := le_combine (take 8 k).

(** The blocks of 24 bytes. *)
Fixpoint hash_blocks (fuel : nat) (abc : Z * Z * Z) (k : list byte) : (Z * Z * Z) * list byte :=
  match fuel with
  | O => (abc, k)
  | S fuel =>
      if 24 <=? lenZ k then
        let '(a, b, c) := abc in
        hash_blocks fuel
          (mix64 (u64 (a + word_at k), u64 (b + word_at (drop 8 k)), u64 (c + word_at (drop 16 k))))
          (drop 24 k)
      else (abc, k)
  end.

(** The last 23 bytes: the low byte of [c] is reserved for the length, so the
    third word starts one byte up. *)
Definition btree_hash_int (k : list byte) (level : Z) : Z :=
  let '((a, b, c), k') := hash_blocks (length k) (level, level, 0x9e3779b97f4a7c13) k in
  let c := u64 (c + lenZ k) in
  let c := u64 (c + Z.shiftl (word_at (drop 16 k')) 8) in
  let b := u64 (b + word_at (drop 8 k')) in
  let a := u64 (a + word_at k') in
  snd (mix64 (a, b, c)).

Definition btree_hash (k : list byte) (level cguid : Z) : Z := u64 (btree_hash_int k level + cguid).

(** ** [mix64] is reversible *)

Definition unmix_line (x y z w : Z) : Z := u64 (u64 (Z.lxor x w + z) + y).

Definition unmix_round (s1 s2 s3 : Z) (abc : Z * Z * Z) : Z * Z * Z :=
  let '(a, b, c) := abc in
  let c := unmix_line c a b (Z.shiftr b s3) in
  let b := unmix_line b c a (u64 (Z.shiftl a s2)) in
  let a := unmix_line a b c (Z.shiftr c s1) in
  (a, b, c).

Definition unmix64 (abc : Z * Z * Z) : Z * Z * Z :=
  unmix_round 43 9 8 (unmix_round 38 23 5 (unmix_round 35 49 11 (unmix_round 12 18 22 abc))).

Definition word64 (x : Z) : Prop := 0 <= x < 2 ^ 64.
Definition words64 (abc : Z * Z * Z) : Prop := word64 (fst (fst abc)) /\ word64 (snd (fst abc)) /\ word64 (snd abc).

Lemma word64_lxor x y : word64 x -> word64 y -> word64 (Z.lxor x y).
Proof.
  intros [Hx1 Hx2] [Hy1 Hy2]. split; [apply Z.lxor_nonneg; lia|].
  destruct (decide (Z.lxor x y = 0)) as [->|]; [lia|].
  assert (0 <= Z.lxor x y) by (apply Z.lxor_nonneg; lia).
  apply Z.log2_lt_pow2; [lia|].
  eapply Z.le_lt_trans; [apply Z.log2_lxor; lia|].
  apply Z.max_lub_lt; (destruct (decide (x = 0)); destruct (decide (y = 0)); subst; cbn; try lia; apply Z.log2_lt_pow2; lia).
Qed.

Lemma word64_shiftr x n : 0 <= n -> word64 x -> word64 (Z.shiftr x n).
Proof.
  intros ? [? ?]. split; [apply Z.shiftr_nonneg; lia|].
  rewrite Z.shiftr_div_pow2 by lia. pose proof (Z.pow_pos_nonneg 2 n ltac:(lia) ltac:(lia)).
  apply Z.div_lt_upper_bound; nia.
Qed.

Lemma mix_line_range x y z w : word64 w -> word64 (mix_line x y z w).
Proof. intros. apply word64_lxor; [apply u64_range|done]. Qed.

Lemma unmix_line_range x y z w : word64 (unmix_line x y z w).
Proof. apply u64_range. Qed.

Lemma u64_sub x y : u64 (u64 x - y) = u64 (x - y).
Proof. apply Zminus_mod_idemp_l. Qed.

Lemma u64_add x y : u64 (u64 x + y) = u64 (x + y).
Proof. apply Zplus_mod_idemp_l. Qed.

Lemma unmix_mix_line x y z w : word64 x -> unmix_line (mix_line x y z w) y z w = x.
Proof.
  intros Hx. unfold unmix_line, mix_line. rewrite Z.lxor_assoc, Z.lxor_nilpotent, Z.lxor_0_r, u64_sub, (u64_add _ z), u64_add.
  replace (x - y - z + z + y) with x by lia. now apply u64_small.
Qed.

Lemma mix_unmix_line x y z w : word64 x -> word64 w -> mix_line (unmix_line x y z w) y z w = x.
Proof.
  intros Hx Hw. unfold unmix_line, mix_line. rewrite u64_add, (u64_sub _ y), u64_sub.
  replace (Z.lxor x w + z + y - y - z) with (Z.lxor x w) by lia.
  rewrite u64_small by now apply word64_lxor. rewrite Z.lxor_assoc, Z.lxor_nilpotent. apply Z.lxor_0_r.
Qed.

Lemma mix_round_range s1 s2 s3 abc : 0 <= s1 -> 0 <= s3 -> words64 abc -> words64 (mix_round s1 s2 s3 abc).
Proof.
  destruct abc as [[a b] c]. intros ? ? (Ha & Hb & Hc). cbn [fst snd] in *.
  split; [|split]; apply mix_line_range; [now apply word64_shiftr|apply u64_range|].
  apply word64_shiftr; [done|]. apply mix_line_range, u64_range.
Qed.

Lemma unmix_round_range s1 s2 s3 abc : words64 (unmix_round s1 s2 s3 abc).
Proof. destruct abc as [[a b] c]. repeat split; apply unmix_line_range. Qed.

Lemma unmix_mix_round s1 s2 s3 abc : words64 abc -> unmix_round s1 s2 s3 (mix_round s1 s2 s3 abc) = abc.
Proof.
  destruct abc as [[a b] c]. intros (Ha & Hb & Hc). unfold unmix_round, mix_round. cbn [fst snd] in *.
  now rewrite !unmix_mix_line.
Qed.

Lemma mix_unmix_round s1 s2 s3 abc :
  0 <= s1 -> 0 <= s3 -> words64 abc -> mix_round s1 s2 s3 (unmix_round s1 s2 s3 abc) = abc.
Proof.
  destruct abc as [[a b] c]. intros ? ? (Ha & Hb & Hc). unfold unmix_round, mix_round. cbn [fst snd] in *.
  rewrite (mix_unmix_line a), (mix_unmix_line b), (mix_unmix_line c);
    first [done | apply u64_range | apply word64_shiftr; first [done | apply unmix_line_range]].
Qed.

(** [mix64] is a bijection of the triples of 64-bit words ("mix 3 64-bit
    values reversibly"): it stays within 64 bits, and [unmix64] undoes it from
    either side. *)
Theorem mix64_reversible abc :
  words64 abc -> words64 (mix64 abc) /\ unmix64 (mix64 abc) = abc /\ mix64 (unmix64 abc) = abc.
Proof.
  intros H. unfold mix64, unmix64. split; [|split].
  - repeat (apply mix_round_range; [lia|lia|]). done.
  - rewrite !unmix_mix_round; [done|..]; repeat (apply mix_round_range; [lia|lia|]); done.
  - rewrite !mix_unmix_round; first [lia | done | apply unmix_round_range].
Qed.

Lemma mix64_reversible_witness : unmix64 (mix64 (1, 2, 3)) = (1, 2, 3).
Proof.
  refine (proj1 (proj2 (mix64_reversible (1, 2, 3) _))). unfold words64, word64; cbn [fst snd]. lia.
Defined.
