(* ===== verification/NodeCache.v ===== *)
(** * The node cache (btree/btree_map.c, btree/btree_pmap.c)

    The b-tree keeps its nodes in a hash table of entries. An entry is on the
    chain of its bucket and on a doubly linked list of all entries, over which
    a clock hand moves to find an entry to replace; entries not in use are on a
    free list, and all of them live in blocks obtained from malloc. The model
    keeps the pointers: entries have an address in a heap, the lists are the
    links stored in them. A failing assertion and the use of a NULL pointer
    make an operation return [None]; malloc does not fail. The locks are taken
    around whole operations, so an operation is one step. *)

From S2P Require Import Prelude Hash.

(** ** Data *)

(** A pointer to an entry: NULL or an address in the heap. *)
Abbreviation ptr := (option nat).

(** struct MapEntry. [pme_key] is the 64-bit key itself, stored in the pointer
    field; [pme_contents] is the address of the caller's object, 0 for NULL;
    [pme_bucket] points into the table. *)
Record MapEntry := mk_MapEntry {
  pme_ref : bool;
  pme_deleted : bool;
  pme_rawobj : Z;
  pme_refcnt : Z;
  pme_keylen : Z;
  pme_datalen : Z;
  pme_cguid : Z;
  pme_key : Z;
  pme_contents : Z;
  pme_next : ptr;
  pme_next_lru : ptr;
  pme_prev_lru : ptr;
  pme_bucket : option nat
}.

(** A call of the replacement callback: its arguments. *)
Record callback := mk_callback { cb_data : Z; cb_key : Z; cb_keylen : Z; cb_contents : Z; cb_datalen : Z }.

(** struct Map. [pm_replacement_callback] says whether the callback is set,
    [pm_calls] logs its calls, the latest first; [pm_EntryBlocks] has the
    first address of each block, the latest block first. *)
Record Map := mk_Map {
  pm_nbuckets : Z;
  pm_max_entries : Z;
  pm_n_entries : Z;
  pm_buckets : list ptr;
  pm_lru_head : ptr;
  pm_lru_tail : ptr;
  pm_clock_hand : ptr;
  pm_replacement_callback : bool;
  pm_NEntries : Z;
  pm_NUsedEntries : Z;
  pm_FreeEntries : ptr;
  pm_EntryBlocks : list nat;
  pm_extra_pme : Z;
  pm_heap : list MapEntry;
  pm_calls : list callback
}.

(** ** Field updates *)

Definition pme_set_ref (v : bool) (e : MapEntry) : MapEntry :=
  mk_MapEntry v (pme_deleted e) (pme_rawobj e) (pme_refcnt e) (pme_keylen e) (pme_datalen e) (pme_cguid e)
    (pme_key e) (pme_contents e) (pme_next e) (pme_next_lru e) (pme_prev_lru e) (pme_bucket e).

Definition pme_set_deleted (v : bool) (e : MapEntry) : MapEntry :=
  mk_MapEntry (pme_ref e) v (pme_rawobj e) (pme_refcnt e) (pme_keylen e) (pme_datalen e) (pme_cguid e) (pme_key
    e) (pme_contents e) (pme_next e) (pme_next_lru e) (pme_prev_lru e) (pme_bucket e).

Definition pme_set_refcnt (v : Z) (e : MapEntry) : MapEntry :=
  mk_MapEntry (pme_ref e) (pme_deleted e) (pme_rawobj e) v (pme_keylen e) (pme_datalen e) (pme_cguid e) (pme_key
    e) (pme_contents e) (pme_next e) (pme_next_lru e) (pme_prev_lru e) (pme_bucket e).

Definition pme_set_next (v : ptr) (e : MapEntry) : MapEntry :=
  mk_MapEntry (pme_ref e) (pme_deleted e) (pme_rawobj e) (pme_refcnt e) (pme_keylen e) (pme_datalen e)
    (pme_cguid e) (pme_key e) (pme_contents e) v (pme_next_lru e) (pme_prev_lru e) (pme_bucket e).

Definition pme_set_next_lru (v : ptr) (e : MapEntry) : MapEntry :=
  mk_MapEntry (pme_ref e) (pme_deleted e) (pme_rawobj e) (pme_refcnt e) (pme_keylen e) (pme_datalen e)
    (pme_cguid e) (pme_key e) (pme_contents e) (pme_next e) v (pme_prev_lru e) (pme_bucket e).

Definition pme_set_prev_lru (v : ptr) (e : MapEntry) : MapEntry :=
  mk_MapEntry (pme_ref e) (pme_deleted e) (pme_rawobj e) (pme_refcnt e) (pme_keylen e) (pme_datalen e)
    (pme_cguid e) (pme_key e) (pme_contents e) (pme_next e) (pme_next_lru e) v (pme_bucket e).

Definition pme_set_bucket (v : option nat) (e : MapEntry) : MapEntry :=
  mk_MapEntry (pme_ref e) (pme_deleted e) (pme_rawobj e) (pme_refcnt e) (pme_keylen e) (pme_datalen e)
    (pme_cguid e) (pme_key e) (pme_contents e) (pme_next e) (pme_next_lru e) (pme_prev_lru e) v.

Definition pm_set_n_entries (v : Z) (pm : Map) : Map :=
  mk_Map (pm_nbuckets pm) (pm_max_entries pm) v (pm_buckets pm) (pm_lru_head pm) (pm_lru_tail pm) (pm_clock_hand
    pm) (pm_replacement_callback pm) (pm_NEntries pm) (pm_NUsedEntries pm) (pm_FreeEntries pm) (pm_EntryBlocks
    pm) (pm_extra_pme pm) (pm_heap pm) (pm_calls pm).

Definition pm_set_buckets (v : list ptr) (pm : Map) : Map :=
  mk_Map (pm_nbuckets pm) (pm_max_entries pm) (pm_n_entries pm) v (pm_lru_head pm) (pm_lru_tail pm)
    (pm_clock_hand pm) (pm_replacement_callback pm) (pm_NEntries pm) (pm_NUsedEntries pm) (pm_FreeEntries pm)
    (pm_EntryBlocks pm) (pm_extra_pme pm) (pm_heap pm) (pm_calls pm).

Definition pm_set_lru_head (v : ptr) (pm : Map) : Map :=
  mk_Map (pm_nbuckets pm) (pm_max_entries pm) (pm_n_entries pm) (pm_buckets pm) v (pm_lru_tail pm)
    (pm_clock_hand pm) (pm_replacement_callback pm) (pm_NEntries pm) (pm_NUsedEntries pm) (pm_FreeEntries pm)
    (pm_EntryBlocks pm) (pm_extra_pme pm) (pm_heap pm) (pm_calls pm).

Definition pm_set_lru_tail (v : ptr) (pm : Map) : Map :=
  mk_Map (pm_nbuckets pm) (pm_max_entries pm) (pm_n_entries pm) (pm_buckets pm) (pm_lru_head pm) v
    (pm_clock_hand pm) (pm_replacement_callback pm) (pm_NEntries pm) (pm_NUsedEntries pm) (pm_FreeEntries pm)
    (pm_EntryBlocks pm) (pm_extra_pme pm) (pm_heap pm) (pm_calls pm).

Definition pm_set_clock_hand (v : ptr) (pm : Map) : Map :=
  mk_Map (pm_nbuckets pm) (pm_max_entries pm) (pm_n_entries pm) (pm_buckets pm) (pm_lru_head pm) (pm_lru_tail
    pm) v (pm_replacement_callback pm) (pm_NEntries pm) (pm_NUsedEntries pm) (pm_FreeEntries pm) (pm_EntryBlocks
    pm) (pm_extra_pme pm) (pm_heap pm) (pm_calls pm).

Definition pm_set_NEntries (v : Z) (pm : Map) : Map :=
  mk_Map (pm_nbuckets pm) (pm_max_entries pm) (pm_n_entries pm) (pm_buckets pm) (pm_lru_head pm) (pm_lru_tail
    pm) (pm_clock_hand pm) (pm_replacement_callback pm) v (pm_NUsedEntries pm) (pm_FreeEntries pm)
    (pm_EntryBlocks pm) (pm_extra_pme pm) (pm_heap pm) (pm_calls pm).

Definition pm_set_NUsedEntries (v : Z) (pm : Map) : Map :=
  mk_Map (pm_nbuckets pm) (pm_max_entries pm) (pm_n_entries pm) (pm_buckets pm) (pm_lru_head pm) (pm_lru_tail
    pm) (pm_clock_hand pm) (pm_replacement_callback pm) (pm_NEntries pm) v (pm_FreeEntries pm) (pm_EntryBlocks
    pm) (pm_extra_pme pm) (pm_heap pm) (pm_calls pm).

Definition pm_set_FreeEntries (v : ptr) (pm : Map) : Map :=
  mk_Map (pm_nbuckets pm) (pm_max_entries pm) (pm_n_entries pm) (pm_buckets pm) (pm_lru_head pm) (pm_lru_tail
    pm) (pm_clock_hand pm) (pm_replacement_callback pm) (pm_NEntries pm) (pm_NUsedEntries pm) v (pm_EntryBlocks
    pm) (pm_extra_pme pm) (pm_heap pm) (pm_calls pm).

Definition pm_set_EntryBlocks (v : list nat) (pm : Map) : Map :=
  mk_Map (pm_nbuckets pm) (pm_max_entries pm) (pm_n_entries pm) (pm_buckets pm) (pm_lru_head pm) (pm_lru_tail
    pm) (pm_clock_hand pm) (pm_replacement_callback pm) (pm_NEntries pm) (pm_NUsedEntries pm) (pm_FreeEntries
    pm) v (pm_extra_pme pm) (pm_heap pm) (pm_calls pm).

Definition pm_set_extra_pme (v : Z) (pm : Map) : Map :=
  mk_Map (pm_nbuckets pm) (pm_max_entries pm) (pm_n_entries pm) (pm_buckets pm) (pm_lru_head pm) (pm_lru_tail
    pm) (pm_clock_hand pm) (pm_replacement_callback pm) (pm_NEntries pm) (pm_NUsedEntries pm) (pm_FreeEntries
    pm) (pm_EntryBlocks pm) v (pm_heap pm) (pm_calls pm).

Definition pm_set_heap (v : list MapEntry) (pm : Map) : Map :=
  mk_Map (pm_nbuckets pm) (pm_max_entries pm) (pm_n_entries pm) (pm_buckets pm) (pm_lru_head pm) (pm_lru_tail
    pm) (pm_clock_hand pm) (pm_replacement_callback pm) (pm_NEntries pm) (pm_NUsedEntries pm) (pm_FreeEntries
    pm) (pm_EntryBlocks pm) (pm_extra_pme pm) v (pm_calls pm).

Definition pm_set_calls (v : list callback) (pm : Map) : Map :=
  mk_Map (pm_nbuckets pm) (pm_max_entries pm) (pm_n_entries pm) (pm_buckets pm) (pm_lru_head pm) (pm_lru_tail
    pm) (pm_clock_hand pm) (pm_replacement_callback pm) (pm_NEntries pm) (pm_NUsedEntries pm) (pm_FreeEntries
    pm) (pm_EntryBlocks pm) (pm_extra_pme pm) (pm_heap pm) v.

(** ** Memory *)

Definition N_ENTRIES_TO_MALLOC : nat := 100.

(** An entry as bzero leaves it. *)
Definition zero_entry : MapEntry := mk_MapEntry false false 0 0 0 0 0 0 0 None None None None.

(** An update of the entry at a pointer that may be NULL. *)
Definition modify (pm : Map) (p : ptr) (f : MapEntry -> MapEntry) : option Map :=
  a ← p;
  _ ← pm_heap pm !! a;
  Some (pm_set_heap (alter f a (pm_heap pm)) pm).

Definition deref (pm : Map) (p : ptr) : option MapEntry := a ← p; pm_heap pm !! a.

(** One step of the loop that threads a new block onto the free list. *)
Definition push_free (pm : Map) (a : nat) : Map :=
  pm_set_FreeEntries (Some a) (pm_set_heap (alter (pme_set_next (pm_FreeEntries pm)) a (pm_heap pm)) pm).

Definition malloc_block (pm : Map) : Map :=
  let base := length (pm_heap pm) in
  let pm := pm_set_heap (pm_heap pm ++ replicate N_ENTRIES_TO_MALLOC zero_entry) pm in
  let pm := pm_set_EntryBlocks (base :: pm_EntryBlocks pm) pm in
  let pm := foldl push_free pm (seq base N_ENTRIES_TO_MALLOC) in
  pm_set_NEntries (u32 (pm_NEntries pm + n2z N_ENTRIES_TO_MALLOC)) pm.

Definition get_entry (pm : Map) : option (Map * nat) :=
  let pm := match pm_FreeEntries pm with None => malloc_block pm | Some _ => pm end in
  a ← pm_FreeEntries pm;
  e ← pm_heap pm !! a;
  let pm := pm_set_FreeEntries (pme_next e) pm in
  Some (pm_set_NUsedEntries (u32 (pm_NUsedEntries pm + 1)) pm, a).

(** The fields free_entry resets; [ref], [rawobj] and [bucket] stay. *)
Definition freed (next : ptr) (e : MapEntry) : MapEntry :=
  mk_MapEntry (pme_ref e) false (pme_rawobj e) 0 0 0 0 0 0 next None None (pme_bucket e).

Definition free_entry (pm : Map) (a : nat) : option Map :=
  pm ← modify pm (Some a) (freed (pm_FreeEntries pm));
  let pm := pm_set_FreeEntries (Some a) pm in
  Some (pm_set_NUsedEntries (u32 (pm_NUsedEntries pm - 1)) pm).

(** ** Buckets *)

Definition hash_key (key cguid : Z) : Z := btree_hash (le_split 8 key) 0 cguid.

(** The bucket of a key; the remainder by zero is a fault. *)
Definition bucket_of (pm : Map) (key cguid : Z) : option nat :=
  if pm_nbuckets pm =? 0 then None else Some (z2n (hash_key key cguid mod pm_nbuckets pm)).

(** The test every search makes on an entry. *)
Definition matches (key cguid rawobj : Z) (e : MapEntry) : bool :=
  (pme_key e =? key) && (pme_cguid e =? cguid) && (pme_rawobj e =? rawobj).

(** A walk along a chain, from the entry [p] on; a chain is at most as long as
    the heap. *)
Fixpoint walk (fuel : nat) (pm : Map) (p : ptr) (test : MapEntry -> bool) : option ptr :=
  match fuel with
  | O => None
  | S fuel =>
      match p with
      | None => Some None
      | Some a => e ← pm_heap pm !! a; if test e then Some p else walk fuel pm (pme_next e) test
      end
  end.

(** A pointer to a link: the head of a bucket or the [next] field of an entry. *)
Inductive pptr := PBucket (h : nat) | PNext (a : nat).

Definition load (pm : Map) (pp : pptr) : option ptr :=
  match pp with PBucket h => pm_buckets pm !! h | PNext a => pme_next <$> pm_heap pm !! a end.

Definition store (pm : Map) (pp : pptr) (v : ptr) : option Map :=
  match pp with
  | PBucket h => _ ← pm_buckets pm !! h; Some (pm_set_buckets (<[h := v]> (pm_buckets pm)) pm)
  | PNext a => modify pm (Some a) (pme_set_next v)
  end.

(** The loop that moves [ppme], a pointer to a link, along the chain of a
    bucket up to the first entry that passes the test. *)
Fixpoint walk_pp (fuel : nat) (pm : Map) (pp : pptr) (test : nat -> MapEntry -> bool) : option (option (pptr * nat)) :=
  match fuel with
  | O => None
  | S fuel =>
      p ← load pm pp;
      match p with
      | None => Some None
      | Some a => e ← pm_heap pm !! a; if test a e then Some (Some (pp, a)) else walk_pp fuel pm (PNext a) test
      end
  end.

Definition chain_fuel (pm : Map) : nat := S (S (length (pm_heap pm))).

Definition find_pme (pm : Map) (key keylen rawobj cguid : Z) : option (ptr * nat) :=
  h ← bucket_of pm key cguid;
  _ ← assert_ (keylen =? 8);
  p ← pm_buckets pm !! h;
  r ← walk (chain_fuel pm) pm p (matches key cguid rawobj);
  Some (r, h).

Definition create_pme (pm : Map) (key keylen data datalen rawobj cguid : Z) : option (Map * nat) :=
  r ← get_entry pm;
  let '(pm, a) := r in
  _ ← assert_ (keylen =? 8);
  pm ← modify pm (Some a) (fun e =>
         mk_MapEntry false false (rawobj mod 2) 0 keylen datalen cguid key data None
           (pme_next_lru e) (pme_prev_lru e) (pme_bucket e));
  Some (pm, a).

(** ** The list of entries *)

Definition insert_lru (pm : Map) (a : nat) : option Map :=
  pm ← modify pm (Some a) (pme_set_next_lru (pm_lru_head pm));
  pm ← (match pm_lru_head pm with
        | Some h => modify pm (Some h) (pme_set_prev_lru (Some a))
        | None => Some pm
        end);
  pm ← modify pm (Some a) (pme_set_prev_lru None);
  let pm := pm_set_lru_head (Some a) pm in
  Some (match pm_lru_tail pm with None => pm_set_lru_tail (Some a) pm | Some _ => pm end).

Definition remove_lru (pm : Map) (a : nat) : option Map :=
  e ← pm_heap pm !! a;
  let pm := if decide (pm_clock_hand pm = Some a) then pm_set_clock_hand (pme_next_lru e) pm else pm in
  pm ← (match pme_next_lru e with
        | None => _ ← assert_ (bool_decide (pm_lru_tail pm = Some a));
                  Some (pm_set_lru_tail (pme_prev_lru e) pm)
        | Some n => modify pm (Some n) (pme_set_prev_lru (pme_prev_lru e))
        end);
  e ← pm_heap pm !! a;
  match pme_prev_lru e with
  | None => _ ← assert_ (bool_decide (pm_lru_head pm = Some a));
            Some (pm_set_lru_head (pme_next_lru e) pm)
  | Some p => modify pm (Some p) (pme_set_next_lru (pme_next_lru e))
  end.

Definition update_lru (pm : Map) (a : nat) : option Map := modify pm (Some a) (pme_set_ref true).

(** Call the callback on an entry; a NULL callback is a fault. *)
Definition call_replacement (pm : Map) (data key keylen contents datalen : Z) : option Map :=
  _ ← assert_ (pm_replacement_callback pm);
  Some (pm_set_calls (mk_callback data key keylen contents datalen :: pm_calls pm) pm).

(** Take an entry out of the cache: off the list of entries, off its chain,
    callback, free list. *)
Definition drop_entry (pm : Map) (pp : pptr) (a : nat) (data : Z) : option Map :=
  pm ← remove_lru pm a;
  let pm := pm_set_n_entries (u64 (pm_n_entries pm - 1)) pm in
  e ← pm_heap pm !! a;
  pm ← store pm pp (pme_next e);
  pm ← call_replacement pm data (pme_key e) (pme_keylen e) (pme_contents e) (pme_datalen e);
  free_entry pm a.

(** The loop of the clock: the first entry from [a] on that was not used since
    the hand passed it and is not referenced. NULL after a full circle. *)
Fixpoint clock (fuel : nat) (pm : Map) (a start : nat) : option (Map * ptr) :=
  match fuel with
  | O => None
  | S fuel =>
      e ← pm_heap pm !! a;
      if pme_ref e || negb (pme_refcnt e =? 0) then
        pm ← modify pm (Some a) (pme_set_ref false);
        a ← (match pme_next_lru e with None => pm_lru_head pm | n => n end);
        if decide (a = start) then Some (pm, None) else clock fuel pm a start
      else Some (pm, Some a)
  end.

(** The victim leaves; the hand moves on behind it. *)
Definition evict (pm : Map) (a : nat) (data : Z) : option (Map * bool) :=
  e ← pm_heap pm !! a;
  let pm := pm_set_clock_hand (pme_next_lru e) pm in
  h ← pme_bucket e;
  f ← walk_pp (chain_fuel pm) pm (PBucket h) (fun b _ => bool_decide (b = a));
  x ← f;
  pm ← store pm (fst x) (pme_next e);
  pm ← remove_lru pm a;
  let pm := pm_set_n_entries (u64 (pm_n_entries pm - 1)) pm in
  e ← pm_heap pm !! a;
  pm ← call_replacement pm data (pme_key e) (pme_keylen e) (pme_contents e) (pme_datalen e);
  pm ← free_entry pm a;
  Some (pm, true).

Definition try_replace_lru (pm : Map) (data : Z) : option (Map * bool) :=
  start ← (match pm_clock_hand pm with None => pm_lru_head pm | h => h end);
  r ← clock (chain_fuel pm) pm start start;
  let '(pm, victim) := r in
  match victim with
  | None => Some (pm, false)
  | Some a => evict pm a data
  end.

(** The loop of replace_lru over the entries allocated beyond the limit. *)
Fixpoint replace_extra (fuel : nat) (pm : Map) (data : Z) : option Map :=
  match fuel with
  | O => None
  | S fuel =>
      if pm_extra_pme pm =? 0 then Some pm
      else
        r ← try_replace_lru pm data;
        match r with
        | (pm, false) => Some pm
        | (pm, true) => replace_extra fuel (pm_set_extra_pme (i32 (pm_extra_pme pm - 1)) pm) data
        end
  end.

Definition replace_lru (pm : Map) (data : Z) : option Map :=
  r ← try_replace_lru pm data;
  match r with
  | (pm, false) => Some (pm_set_extra_pme (i32 (pm_extra_pme pm + 1)) pm)
  | (pm, true) => replace_extra (S (length (pm_heap pm))) pm data
  end.

(** ** Operations *)

Definition MapInit (nbuckets max_entries : Z) (replacement_callback : bool) : Map :=
  mk_Map nbuckets max_entries 0 (replicate (z2n nbuckets) None) None None None replacement_callback
    0 0 None [] 0 [] [].

Definition MapNEntries (pm : Map) : Z := pm_n_entries pm.

(** The creation of an entry that MapCreate and MapSet share: fill it, put it
    on its chain and on the list of entries. *)
Definition link_pme (pm : Map) (h : nat) (key keylen data datalen cguid rawobj : Z) : option (Map * nat) :=
  r ← create_pme pm key keylen data datalen rawobj cguid;
  let '(pm, a) := r in
  first ← pm_buckets pm !! h;
  pm ← modify pm (Some a) (fun e => pme_set_next first (pme_set_bucket (Some h) (pme_set_refcnt 1 e)));
  let pm := pm_set_buckets (<[h := Some a]> (pm_buckets pm)) pm in
  let pm := pm_set_n_entries (u64 (pm_n_entries pm + 1)) pm in
  pm ← insert_lru pm a;
  Some (pm, a).

(** With the replacement, when [limited]: the test each makes on the limit. *)
Definition add_pme (pm : Map) (h : nat) (key keylen data datalen cguid rawobj cb_data : Z) (limited : bool)
    : option (Map * ptr) :=
  r ← link_pme pm h key keylen data datalen cguid rawobj;
  let '(pm, a) := r in
  pm ← (if limited && (pm_max_entries pm <? pm_n_entries pm) then replace_lru pm cb_data else Some pm);
  Some (pm, Some a).

Definition MapCreate (pm : Map) (key keylen data datalen cguid rawobj cb_data : Z) : option (Map * ptr) :=
  r ← find_pme pm key keylen rawobj cguid;
  match r with
  | (Some _, _) => Some (pm, None)
  | (None, h) => add_pme pm h key keylen data datalen cguid rawobj cb_data (0 <? pm_max_entries pm)
  end.

Definition set_data (data datalen : Z) (e : MapEntry) : MapEntry :=
  mk_MapEntry (pme_ref e) (pme_deleted e) (pme_rawobj e) (pme_refcnt e) (pme_keylen e) datalen (pme_cguid e)
    (pme_key e) data (pme_next e) (pme_next_lru e) (pme_prev_lru e) (pme_bucket e).

Definition MapUpdate (pm : Map) (key keylen data datalen cguid rawobj cb_data : Z) : option (Map * ptr) :=
  r ← find_pme pm key keylen rawobj cguid;
  match r with
  | (None, _) => Some (pm, None)
  | (Some a, _) =>
      pm ← (if negb (pm_max_entries pm =? 0) then update_lru pm a else Some pm);
      e ← pm_heap pm !! a;
      pm ← (if pm_replacement_callback pm
            then call_replacement pm cb_data (pme_key e) (pme_keylen e) (pme_contents e) (pme_datalen e)
            else Some pm);
      pm ← modify pm (Some a) (set_data data datalen);
      Some (pm, Some a)
  end.

(** Also returns the old data and its length. *)
Definition MapSet (pm : Map) (key keylen data datalen cguid rawobj cb_data : Z) : option (Map * ptr * Z * Z) :=
  r ← find_pme pm key keylen rawobj cguid;
  match r with
  | (Some a, _) =>
      e ← pm_heap pm !! a;
      pm ← (if pm_replacement_callback pm
            then call_replacement pm cb_data 0 0 (pme_contents e) (pme_datalen e)
            else Some pm);
      pm ← modify pm (Some a) (set_data data datalen);
      pm ← (if negb (pm_max_entries pm =? 0) then update_lru pm a else Some pm);
      Some (pm, Some a, pme_contents e, pme_datalen e)
  | (None, h) =>
      r ← add_pme pm h key keylen data datalen cguid rawobj cb_data (negb (pm_max_entries pm =? 0));
      let '(pm, a) := r in
      Some (pm, a, 0, 0)
  end.

Definition META_LOGICAL_ID_MASK : Z := 0x8000000000000000.

Definition atomic_inc (pm : Map) (a : nat) : option Map :=
  modify pm (Some a) (fun e => pme_set_refcnt (i32 (pme_refcnt e + 1)) e).

Definition atomic_dec (pm : Map) (a : nat) : option Map :=
  modify pm (Some a) (fun e => pme_set_refcnt (i32 (pme_refcnt e - 1)) e).

(** Also returns the data and its length. *)
Definition MapGet (pm : Map) (key keylen cguid rawobj : Z) : option (Map * ptr * Z * Z) :=
  r ← find_pme pm key keylen rawobj cguid;
  match r with
  | (None, _) => Some (pm, None, 0, 0)
  | (Some a, _) =>
      e ← pm_heap pm !! a;
      _ ← assert_ (negb (Z.land key META_LOGICAL_ID_MASK =? 0) || (pme_refcnt e <? 10000));
      pm ← atomic_inc pm a;
      pm ← (if negb (pm_max_entries pm =? 0) then update_lru pm a else Some pm);
      Some (pm, Some a, pme_contents e, pme_datalen e)
  end.

Definition MapGetRefcnt (pm : Map) (key keylen cguid rawobj : Z) : option Z :=
  r ← find_pme pm key keylen rawobj cguid;
  e ← deref pm (fst r);
  Some (pme_refcnt e).

Definition MapIncrRefcnt (pm : Map) (key keylen cguid rawobj : Z) : option (Map * Z) :=
  r ← find_pme pm key keylen rawobj cguid;
  match r with
  | (None, _) => Some (pm, 0)
  | (Some a, _) => pm ← atomic_inc pm a; Some (pm, 1)
  end.

(** The second half of MapRelease and MapReleaseAll, entered when the last
    reference to a deleted entry goes. Its test compares the stored key with
    [key_addr], the address of the caller's key. *)
Definition reap (pm : Map) (key key_addr keylen cguid rawobj cb_data : Z) : option Map :=
  h ← bucket_of pm key cguid;
  _ ← assert_ (keylen =? 8);
  f ← walk_pp (chain_fuel pm) pm (PBucket h) (fun _ e => matches key_addr cguid rawobj e);
  match f with
  | None => Some pm
  | Some (pp, a) =>
      e ← pm_heap pm !! a;
      if (pme_refcnt e =? 0) && pme_deleted e then drop_entry pm pp a cb_data else Some pm
  end.

Definition release (count : Z -> Z) (pm : Map) (key key_addr keylen cguid rawobj cb_data : Z) : option (Map * Z) :=
  r ← find_pme pm key keylen rawobj cguid;
  match r with
  | (None, _) => Some (pm, 0)
  | (Some a, _) =>
      pm ← modify pm (Some a) (fun e => pme_set_refcnt (count (pme_refcnt e)) e);
      e ← pm_heap pm !! a;
      pm ← (if (pme_refcnt e =? 0) && pme_deleted e
            then reap pm key key_addr keylen cguid rawobj cb_data else Some pm);
      Some (pm, 1)
  end.

Definition MapRelease : Map -> Z -> Z -> Z -> Z -> Z -> Z -> option (Map * Z) := release (fun n => i32 (n - 1)).

Definition MapReleaseAll : Map -> Z -> Z -> Z -> Z -> Z -> Z -> option (Map * Z) := release (fun _ => 0).

(** 0 when the entry was found, 1 otherwise. *)
Definition MapDelete (pm : Map) (key keylen cguid rawobj cb_data : Z) : option (Map * Z) :=
  h ← bucket_of pm key cguid;
  _ ← assert_ (keylen =? 8);
  f ← walk_pp (chain_fuel pm) pm (PBucket h) (fun _ e => matches key cguid rawobj e);
  match f with
  | None => Some (pm, 1)
  | Some (pp, a) =>
      pm ← atomic_dec pm a;
      e ← pm_heap pm !! a;
      pm ← (if pme_refcnt e =? 0 then drop_entry pm pp a cb_data
            else modify pm (Some a) (pme_set_deleted true));
      Some (pm, 0)
  end.

(** [while (n && n->next != &e[i]) n = n->next] *)
Fixpoint find_prev (fuel : nat) (pm : Map) (n : ptr) (a : nat) : option ptr :=
  match fuel with
  | O => None
  | S fuel =>
      match n with
      | None => Some None
      | Some b => e ← pm_heap pm !! b; if decide (pme_next e = Some a) then Some n else find_prev fuel pm (pme_next e) a
      end
  end.

(** One entry of MapClean's loop over the blocks. *)
Definition clean_entry (cguid cb_data : Z) (pm : Map) (a : nat) : option Map :=
  e ← pm_heap pm !! a;
  if negb (pme_contents e =? 0) && (pme_cguid e =? cguid) then
    pm ← remove_lru pm a;
    let pm := pm_set_n_entries (u64 (pm_n_entries pm - 1)) pm in
    pm ← call_replacement pm cb_data (pme_key e) (pme_keylen e) (pme_contents e) (pme_datalen e);
    h ← pme_bucket e;
    first ← pm_buckets pm !! h;
    pm ← (if decide (first = Some a) then
            e ← pm_heap pm !! a;
            Some (pm_set_buckets (<[h := pme_next e]> (pm_buckets pm)) pm)
          else
            n ← find_prev (chain_fuel pm) pm first a;
            e ← pm_heap pm !! a;
            modify pm n (pme_set_next (pme_next e)));
    free_entry pm a
  else Some pm.

Fixpoint clean_entries (cguid cb_data : Z) (pm : Map) (l : list nat) : option Map :=
  match l with
  | [] => Some pm
  | a :: l => pm ← clean_entry cguid cb_data pm a; clean_entries cguid cb_data pm l
  end.

Definition MapClean (pm : Map) (cguid cb_data : Z) : option Map :=
  clean_entries cguid cb_data pm (concat (map (fun b => seq b N_ENTRIES_TO_MALLOC) (pm_EntryBlocks pm))).

(** The loop of MapClear along the list of entries. *)
Fixpoint clear_loop (fuel : nat) (pm : Map) (p : ptr) : option Map :=
  match fuel with
  | O => None
  | S fuel =>
      match p with
      | None => Some pm
      | Some a =>
          e ← pm_heap pm !! a;
          h ← pme_bucket e;
          _ ← pm_buckets pm !! h;
          let pm := pm_set_buckets (<[h := None]> (pm_buckets pm)) pm in
          pm ← free_entry pm a;
          clear_loop fuel pm (pme_next_lru e)
      end
  end.

Definition MapClear (pm : Map) : option Map :=
  pm ← clear_loop (chain_fuel pm) pm (pm_lru_head pm);
  Some (pm_set_lru_tail None (pm_set_lru_head None (pm_set_n_entries 0 pm))).

(** Proofs use the hash as an unknown function. *)
#[global] Opaque hash_key.
