(* ===== verification/NodeCacheRep.v ===== *)
(** * The node cache: representation

    What the pointers of a cache stand for. [linked f l] says that the link
    [f] leads along the addresses [l] and ends with NULL; the list of entries
    is linked forwards by [next_lru] and backwards by [prev_lru], a chain and
    the free list by [next]. [cache_ok] puts them together: every entry of the
    heap is either on the list of entries and on the chain of its bucket, or on
    the free list. The lemmas show what the list primitives do to it. *)

From S2P Require Import Prelude Hash NodeCache.
From stdpp Require Import list.
Open Scope Z_scope.

(** ** Linked lists *)

Section linked.
Implicit Types (f g : nat -> option ptr) (l : list nat).

Fixpoint linked f l : Prop :=
  match l with [] => True | a :: l' => f a = Some (head l') /\ linked f l' end.

Lemma linked_app_r f l1 l2 : linked f (l1 ++ l2) -> linked f l2.
Proof. induction l1; cbn; [done|]. intros [_ H]. auto. Qed.

Lemma linked_mid f l1 a l2 : linked f (l1 ++ a :: l2) -> f a = Some (head l2).
Proof. intros H%linked_app_r. apply H. Qed.

Lemma linked_elem f l a : linked f l -> a ∈ l -> is_Some (f a).
Proof. intros Hl (l1 & l2 & ->)%list_elem_of_split. apply linked_mid in Hl. rewrite Hl. eauto. Qed.

Lemma linked_ext f g l : (forall a, a ∈ l -> g a = f a) -> linked f l -> linked g l.
Proof.
  induction l as [|a l IH]; cbn; [done|]. intros E [Ha Hl]. split.
  - rewrite E by left. done.
  - apply IH; [|done]. intros b Hb. apply E. by right.
Qed.

(** Taking [a] out: the link of its predecessor now leads past it. *)
Lemma linked_unlink f g l1 a l2 :
  NoDup (l1 ++ a :: l2) -> linked f (l1 ++ a :: l2) ->
  (forall b, b ∈ l1 ++ l2 -> last l1 <> Some b -> g b = f b) ->
  (forall b, last l1 = Some b -> g b = Some (head l2)) ->
  linked g (l1 ++ l2).
Proof.
  induction l1 as [|x l1 IH]; cbn; intros Hnd Hl Hsame Hlast.
  - eapply linked_ext; [|apply Hl]. intros b Hb. now apply Hsame.
  - apply NoDup_cons in Hnd as [Hx Hnd]. destruct Hl as [Hxl Hl]. split.
    + destruct l1 as [|y l1]; [now apply Hlast|].
      rewrite Hsame; [done|left|]. rewrite last_cons_cons. intros E%last_elem. apply Hx, elem_of_app. by left.
    + apply IH; [done|done|..].
      * intros b Hb Hne. apply Hsame; [by right|]. destruct l1 as [|y l1]; [|now rewrite last_cons_cons].
        cbn. intros [= ->]. apply Hx. cbn in *. by right.
      * intros b Hb. apply Hlast. destruct l1; [done|now rewrite last_cons_cons].
Qed.

Lemma linked_cons f g a l :
  a ∉ l -> linked f l -> g a = Some (head l) -> (forall b, b <> a -> g b = f b) -> linked g (a :: l).
Proof.
  intros Ha Hl Hg Hf. split; [done|]. eapply linked_ext; [|done]. intros b Hb. apply Hf. by intros ->.
Qed.

(** Adding a last element. *)
Lemma linked_snoc f g l a :
  NoDup (l ++ [a]) -> linked f l -> g a = Some None ->
  (forall b, b ∈ l -> last l <> Some b -> g b = f b) -> (forall b, last l = Some b -> g b = Some (Some a)) ->
  linked g (l ++ [a]).
Proof.
  induction l as [|x l IH]; cbn; intros Hnd Hl Ha Hf Hlast; [done|].
  apply NoDup_cons in Hnd as [Hx Hnd]. destruct Hl as [Hxl Hl]. split.
  - destruct l as [|y l]; [now apply Hlast|].
    rewrite Hf; [done|left|]. rewrite last_cons_cons. intros E%last_elem. apply Hx, elem_of_app. by left.
  - apply IH; [done|done|done|..].
    + intros b Hb Hne. apply Hf; [by right|]. destruct l as [|y l]; [|now rewrite last_cons_cons].
      apply elem_of_nil in Hb as [].
    + intros b Hb. apply Hlast. destruct l; [done|now rewrite last_cons_cons].
Qed.
End linked.

(** ** The heap by fields *)

Definition field {A} (g : MapEntry -> A) (h : list MapEntry) (a : nat) : option A := g <$> h !! a.

(** The entry without its links on the list of entries, on its chain, without
    any link, and without its use bit. *)
Definition no_lru (e : MapEntry) : MapEntry := pme_set_next_lru None (pme_set_prev_lru None e).
Definition no_next (e : MapEntry) : MapEntry := pme_set_next None e.
Definition no_ref (e : MapEntry) : MapEntry := pme_set_ref false e.

(** Two heaps that differ only in what [s] forgets have the same other fields. *)
Lemma field_frame {A} (s : MapEntry -> MapEntry) (g : MapEntry -> A) (h h' : list MapEntry) :
  (forall e, g (s e) = g e) -> s <$> h' = s <$> h -> forall a, field g h' a = field g h a.
Proof.
  intros Hs E a. assert (E' : (s <$> h') !! a = (s <$> h) !! a) by now rewrite E.
  rewrite !list_lookup_fmap in E'. unfold field.
  destruct (h' !! a) as [e'|], (h !! a) as [e|]; cbn in *; try done.
  injection E' as E'. rewrite <- (Hs e'), <- (Hs e). now rewrite E'.
Qed.

Lemma field_alter_same {A} (g : MapEntry -> A) f a h b :
  (forall e, g (f e) = g e) -> field g (alter f a h) b = field g h b.
Proof.
  intros Hg. unfold field. destruct (decide (a = b)) as [->|].
  - rewrite list_lookup_alter_eq. destruct (h !! b); cbn; [now rewrite Hg|done].
  - now rewrite list_lookup_alter_ne.
Qed.

Lemma field_alter_ne {A} (g : MapEntry -> A) f a h b : a <> b -> field g (alter f a h) b = field g h b.
Proof. intros. unfold field. now rewrite list_lookup_alter_ne. Qed.

Lemma field_alter_eq {A} (g : MapEntry -> A) f a h : field g (alter f a h) a = (g ∘ f) <$> h !! a.
Proof. unfold field. rewrite list_lookup_alter_eq. now destruct (h !! a). Qed.

Lemma fmap_alter_same (s : MapEntry -> MapEntry) f (a : nat) (h : list MapEntry) :
  (forall e, s (f e) = s e) -> s <$> alter f a h = s <$> h.
Proof.
  intros Hs. apply list_eq. intros i. rewrite !list_lookup_fmap. apply (field_alter_same s f a h i Hs).
Qed.

(** ** The list of entries *)

Record lru_ok (pm : Map) (l : list nat) : Prop := {
  lru_hd : pm_lru_head pm = head l;
  lru_tl : pm_lru_tail pm = last l;
  lru_next : linked (field pme_next_lru (pm_heap pm)) l;
  lru_prev : linked (field pme_prev_lru (pm_heap pm)) (reverse l)
}.

(** The state after a change of the list of entries. *)
Definition with_lru (pm : Map) (hd tl hand : ptr) (h : list MapEntry) : Map :=
  pm_set_heap h (pm_set_clock_hand hand (pm_set_lru_tail tl (pm_set_lru_head hd pm))).

Lemma modify_Some pm a f e :
  pm_heap pm !! a = Some e -> modify pm (Some a) f = Some (pm_set_heap (alter f a (pm_heap pm)) pm).
Proof. intros E. cbn. now rewrite E. Qed.

Lemma lru_links pm l1 a l2 :
  lru_ok pm (l1 ++ a :: l2) ->
  exists e, pm_heap pm !! a = Some e /\ pme_next_lru e = head l2 /\ pme_prev_lru e = last l1.
Proof.
  intros H. pose proof (linked_mid _ _ _ _ (lru_next _ _ H)) as Hn.
  pose proof (lru_prev _ _ H) as Hp. rewrite reverse_app, reverse_cons, <- app_assoc in Hp.
  apply linked_mid in Hp. rewrite head_reverse in Hp. unfold field in *.
  destruct (pm_heap pm !! a) as [e|]; cbn in *; [|done]. exists e. naive_solver.
Qed.

Lemma lru_is_Some pm l a : lru_ok pm l -> a ∈ l -> is_Some (pm_heap pm !! a).
Proof.
  intros H (l1 & l2 & ->)%list_elem_of_split. destruct (lru_links _ _ _ _ H) as (e & He & _). eauto.
Qed.

(** The heap after the two writes that take [a] out of the list. *)
Definition unlinked (prev next : ptr) (h : list MapEntry) : list MapEntry :=
  let h := match next with Some n => alter (pme_set_prev_lru prev) n h | None => h end in
  match prev with Some p => alter (pme_set_next_lru next) p h | None => h end.

Lemma unlinked_frame prev next h : no_lru <$> unlinked prev next h = no_lru <$> h.
Proof. unfold unlinked. destruct prev, next; rewrite ?fmap_alter_same; done. Qed.

Lemma remove_lru_run pm l1 a l2 :
  NoDup (l1 ++ a :: l2) -> lru_ok pm (l1 ++ a :: l2) ->
  remove_lru pm a =
    Some (with_lru pm (head (l1 ++ l2)) (last (l1 ++ l2))
            (if decide (pm_clock_hand pm = Some a) then head l2 else pm_clock_hand pm)
            (unlinked (last l1) (head l2) (pm_heap pm))).
Proof.
  intros Hnd H. destruct (lru_links _ _ _ _ H) as (e & He & Hen & Hep).
  pose proof (lru_hd _ _ H) as Hhd. pose proof (lru_tl _ _ H) as Htl.
  assert (Hsome : forall b, b ∈ l1 ++ l2 -> is_Some (pm_heap pm !! b) /\ b <> a).
  { intros b Hb. split.
    - apply (lru_is_Some pm _ b H). rewrite !elem_of_app, elem_of_cons in *. naive_solver.
    - intros ->. rewrite <- Permutation_middle in Hnd. now apply NoDup_cons in Hnd as [? _]. }
  unfold remove_lru. rewrite He. cbn [mbind option_bind]. rewrite Hen, Hep.
  match goal with |- context [with_lru _ _ _ ?h _] => set (hand := h) end.
  set (pm1 := if decide (pm_clock_hand pm = Some a) then pm_set_clock_hand (head l2) pm else pm).
  assert (Hpm1 : pm1 = pm_set_clock_hand hand pm).
  { unfold pm1, hand. destruct pm; cbn. now repeat case_decide. }
  clearbody pm1 hand. subst pm1.
  assert (Hlast : forall b, last l1 = Some b -> is_Some (pm_heap pm !! b) /\ b <> a).
  { intros b Hb%last_elem. apply Hsome, elem_of_app. by left. }
  destruct l2 as [|n l2]; cbn [head] in *.
  - rewrite last_snoc in Htl. cbn [pm_lru_tail pm_set_clock_hand]. rewrite bool_decide_eq_true_2 by done.
    cbn. rewrite He. cbn. rewrite Hep, Hen, app_nil_r. unfold unlinked.
    destruct (last l1) as [p|] eqn:El.
    + destruct (Hlast p eq_refl) as [[ep ->] _]. cbn. destruct l1; [done|]. cbn [head app] in *.
      unfold with_lru. rewrite <- Hhd. now destruct pm.
    + apply last_None in El as ->. cbn in *. rewrite bool_decide_eq_true_2 by done. done.
  - destruct (Hsome n) as [[en Hn] Hna]; [apply elem_of_app; right; left|].
    cbn. rewrite Hn. cbn. rewrite list_lookup_alter_ne by done. rewrite He. cbn. rewrite Hep, Hen. unfold unlinked.
    assert (Htl' : pm_lru_tail pm = last (l1 ++ n :: l2)).
    { rewrite Htl, !last_app, !last_cons. now destruct (last l2). }
    destruct (last l1) as [p|] eqn:El.
    + destruct (Hlast p eq_refl) as [[ep Hp] _]. cbn.
      assert (is_Some (alter (pme_set_prev_lru (Some p)) n (pm_heap pm) !! p)) as [? ->].
      { destruct (decide (n = p)) as [->|]; [rewrite list_lookup_alter_eq, Hp; eauto|].
        rewrite list_lookup_alter_ne by done. eauto. }
      destruct l1; [done|]. cbn [head app] in *. unfold with_lru. rewrite <- Htl', <- Hhd. now destruct pm.
    + apply last_None in El as ->. cbn in *. rewrite bool_decide_eq_true_2 by done. unfold with_lru. rewrite <- Htl'. now destruct pm.
Qed.

Lemma lru_ok_frame pm pm' l :
  lru_ok pm l -> pm_lru_head pm' = pm_lru_head pm -> pm_lru_tail pm' = pm_lru_tail pm ->
  (forall a, a ∈ l -> field pme_next_lru (pm_heap pm') a = field pme_next_lru (pm_heap pm) a /\
                      field pme_prev_lru (pm_heap pm') a = field pme_prev_lru (pm_heap pm) a) ->
  lru_ok pm' l.
Proof.
  intros [Hh Ht Hn Hp] Eh Et E. constructor.
  - now rewrite Eh.
  - now rewrite Et.
  - eapply linked_ext; [|exact Hn]. intros a Ha. apply (E a Ha).
  - eapply linked_ext; [|exact Hp]. intros a Ha. rewrite elem_of_reverse in Ha. apply (E a Ha).
Qed.

Lemma field_unlinked_next prev next h b :
  field pme_next_lru (unlinked prev next h) b =
    if decide (prev = Some b) then (fun _ => next) <$> h !! b else field pme_next_lru h b.
Proof.
  unfold unlinked. destruct prev as [p|].
  - destruct (decide (Some p = Some b)) as [[= ->]|].
    + rewrite field_alter_eq. destruct next as [n|]; [|by destruct (h !! b)].
      change (Some n) with (Some n). destruct (decide (n = b)) as [->|].
      * rewrite list_lookup_alter_eq. by destruct (h !! b).
      * rewrite list_lookup_alter_ne by done. by destruct (h !! b).
    + rewrite field_alter_ne by congruence. destruct next; [now apply field_alter_same|done].
  - rewrite decide_False by done. destruct next; [now apply field_alter_same|done].
Qed.

Lemma field_unlinked_prev prev next h b :
  field pme_prev_lru (unlinked prev next h) b =
    if decide (next = Some b) then (fun _ => prev) <$> h !! b else field pme_prev_lru h b.
Proof.
  unfold unlinked. transitivity (field pme_prev_lru
    (match next with Some n => alter (pme_set_prev_lru prev) n h | None => h end) b).
  { destruct prev; [now apply field_alter_same|done]. }
  destruct next as [n|]; [|now rewrite decide_False].
  destruct (decide (Some n = Some b)) as [[= ->]|].
  - rewrite field_alter_eq. by destruct (h !! b).
  - apply field_alter_ne. congruence.
Qed.

(** Removal: the rest of the list stays linked both ways. *)
Lemma remove_lru_ok pm l1 a l2 hand :
  NoDup (l1 ++ a :: l2) -> lru_ok pm (l1 ++ a :: l2) ->
  lru_ok (with_lru pm (head (l1 ++ l2)) (last (l1 ++ l2)) hand (unlinked (last l1) (head l2) (pm_heap pm))) (l1 ++ l2).
Proof.
  intros Hnd H. pose proof (lru_next _ _ H) as Hn. pose proof (lru_prev _ _ H) as Hp.
  assert (Hin : forall b, b ∈ l1 ++ l2 -> is_Some (pm_heap pm !! b)).
  { intros b Hb. apply (lru_is_Some _ _ _ H). rewrite !elem_of_app, elem_of_cons in *. naive_solver. }
  constructor; cbn; [done|done|..].
  - eapply linked_unlink; [exact Hnd|exact Hn|..]; intros b Hb.
    + intros Hne. rewrite field_unlinked_next. now rewrite decide_False.
    + rewrite field_unlinked_next, decide_True by done.
      destruct (Hin b) as [e ->]; [|done]. apply elem_of_app. left. now apply last_elem.
  - rewrite reverse_app. rewrite reverse_app, reverse_cons, <- app_assoc in Hp.
    eapply linked_unlink; [|exact Hp|..].
    + change (a :: reverse l1) with ([a] ++ reverse l1). rewrite app_assoc, <- reverse_cons, <- reverse_app.
      now rewrite reverse_Permutation.
    + intros b Hb. rewrite last_reverse. intros Hne. rewrite field_unlinked_prev. now rewrite decide_False.
    + intros b. rewrite last_reverse, head_reverse. intros Hb. rewrite field_unlinked_prev, decide_True by done.
      destruct (Hin b) as [e ->]; [|done]. apply elem_of_app. right.
      destruct l2; [done|]. injection Hb as ->. left.
Qed.

(** The heap after the writes that put [a] in front of the list. *)
Definition pushed (a : nat) (first : ptr) (h : list MapEntry) : list MapEntry :=
  let h := alter (pme_set_next_lru first) a h in
  let h := match first with Some b => alter (pme_set_prev_lru (Some a)) b h | None => h end in
  alter (pme_set_prev_lru None) a h.

Lemma pushed_frame a first h : no_lru <$> pushed a first h = no_lru <$> h.
Proof. unfold pushed. destruct first; rewrite !fmap_alter_same; done. Qed.

Lemma insert_lru_run pm a l :
  lru_ok pm l -> is_Some (pm_heap pm !! a) -> a ∉ l ->
  insert_lru pm a = Some (with_lru pm (Some a) (last (a :: l)) (pm_clock_hand pm) (pushed a (head l) (pm_heap pm))).
Proof.
  intros H [e He] Ha. unfold insert_lru. rewrite (modify_Some _ _ _ _ He). cbn -[modify].
  rewrite (lru_hd _ _ H). unfold pushed.
  assert (Ea : forall x f, (alter f x (alter (pme_set_next_lru (head l)) a (pm_heap pm)) !! a) = None -> False).
  { intros x f Hx. destruct (decide (x = a)) as [->|];
      rewrite ?list_lookup_alter_eq, ?list_lookup_alter_ne, ?list_lookup_alter_eq, He in Hx by done; done. }
  destruct l as [|b l]; cbn [head].
  - cbn -[modify]. rewrite (modify_Some _ _ _ (pme_set_next_lru None e)).
    + cbn. rewrite (lru_tl _ _ H). now destruct pm.
    + cbn. now rewrite list_lookup_alter_eq, He.
  - destruct (lru_is_Some pm _ b H) as [eb Hb]; [left|].
    rewrite (modify_Some _ b _ eb); cbn -[modify];
      [|rewrite list_lookup_alter_ne by (intros ->; apply Ha; left); done].
    destruct (alter (pme_set_prev_lru (Some a)) b (alter (pme_set_next_lru (Some b)) a (pm_heap pm)) !! a) as [e'|] eqn:E;
      [|now destruct (Ea _ _ E)].
    rewrite (modify_Some _ _ _ e') by done. cbn -[last]. rewrite (lru_tl _ _ H).
    destruct (last (b :: l)) as [t|] eqn:El; [|now apply last_None in El]. unfold with_lru.
    rewrite <- (lru_tl _ _ H) in El. rewrite <- El. now destruct pm.
Qed.

Lemma insert_lru_ok pm a l hand :
  NoDup l -> lru_ok pm l -> is_Some (pm_heap pm !! a) -> a ∉ l ->
  lru_ok (with_lru pm (Some a) (last (a :: l)) hand (pushed a (head l) (pm_heap pm))) (a :: l).
Proof.
  intros Hnd H [e He] Ha. pose proof (lru_next _ _ H) as Hn. pose proof (lru_prev _ _ H) as Hp.
  assert (Hne : forall b, head l = Some b -> b <> a) by (intros b Hb ->; destruct l; [done|injection Hb as ->; apply Ha; left]).
  constructor; [done|done|..]; cbn [pm_heap with_lru pm_set_heap]; unfold pushed.
  - eapply linked_cons; [done|exact Hn|..]; [|intros b Hb]; rewrite field_alter_same by done.
    + transitivity (field pme_next_lru (alter (pme_set_next_lru (head l)) a (pm_heap pm)) a).
      { destruct (head l); [now apply field_alter_same|done]. }
      now rewrite field_alter_eq, He.
    + transitivity (field pme_next_lru (alter (pme_set_next_lru (head l)) a (pm_heap pm)) b).
      { destruct (head l); [now apply field_alter_same|done]. }
      now apply field_alter_ne.
  - rewrite reverse_cons. eapply linked_snoc; [|exact Hp|..].
    + rewrite <- reverse_cons, reverse_Permutation. now constructor.
    + rewrite field_alter_eq.
      destruct (head l) as [b|] eqn:Eb; [rewrite list_lookup_alter_ne by now apply Hne|];
        rewrite list_lookup_alter_eq, He; done.
    + intros b Hb. rewrite elem_of_reverse in Hb. rewrite last_reverse. intros Hbh.
      rewrite field_alter_ne by congruence.
      transitivity (field pme_prev_lru (alter (pme_set_next_lru (head l)) a (pm_heap pm)) b).
      { destruct (head l); [apply field_alter_ne; congruence|done]. }
      now apply field_alter_same.
    + intros b. rewrite last_reverse. intros Hb. rewrite field_alter_ne by now apply not_eq_sym, Hne.
      rewrite Hb, field_alter_eq. pose proof (Hne b Hb). rewrite list_lookup_alter_ne by done.
      destruct (lru_is_Some pm l b H) as [eb ->]; [|done]. destruct l; [done|]. injection Hb as ->. left.
Qed.

(** ** Chains, free list, entries

    The three parts of the representation besides the list of entries, each
    for the set of entries [l]. *)

(** The chain of bucket [h] links the entries that name it as their bucket. *)
Definition chain_ok (pm : Map) (l : list nat) (h : nat) : Prop :=
  exists c, pm_buckets pm !! h = Some (head c) /\ linked (field pme_next (pm_heap pm)) c /\ NoDup c /\
    forall a, a ∈ c <-> a ∈ l /\ field pme_bucket (pm_heap pm) a = Some (Some h).

Definition chains_ok (pm : Map) (l : list nat) : Prop :=
  0 < pm_nbuckets pm /\ length (pm_buckets pm) = z2n (pm_nbuckets pm) /\
  forall h, (h < length (pm_buckets pm))%nat -> chain_ok pm l h.

(** The free list links the entries of the heap not in [l], all of them empty. *)
Definition free_ok (pm : Map) (l : list nat) : Prop :=
  exists c, pm_FreeEntries pm = head c /\ linked (field pme_next (pm_heap pm)) c /\ NoDup c /\
    (forall a, a ∈ c <-> (a < length (pm_heap pm))%nat /\ a ∉ l) /\
    (forall a, a ∈ c -> field pme_contents (pm_heap pm) a = Some 0).

(** What identifies an entry, and the rest of what an entry in use is checked
    for. *)
Definition ident (e : MapEntry) : Z * Z * Z := (pme_key e, pme_cguid e, pme_rawobj e).
Definition tag (e : MapEntry) : (Z * Z * Z) * Z * option nat := (ident e, pme_keylen e, pme_bucket e).

Definition entries_ok (pm : Map) (l : list nat) : Prop :=
  (forall a, a ∈ l -> exists e h, pm_heap pm !! a = Some e /\ pme_keylen e = 8 /\
     bucket_of pm (pme_key e) (pme_cguid e) = Some h /\ pme_bucket e = Some h) /\
  (forall a b, a ∈ l -> b ∈ l -> field ident (pm_heap pm) a = field ident (pm_heap pm) b -> a = b).

Lemma chains_ok_frame pm pm' l :
  chains_ok pm l -> pm_nbuckets pm' = pm_nbuckets pm -> pm_buckets pm' = pm_buckets pm ->
  (forall a, a ∈ l -> field pme_next (pm_heap pm') a = field pme_next (pm_heap pm) a /\
                      field pme_bucket (pm_heap pm') a = field pme_bucket (pm_heap pm) a) ->
  chains_ok pm' l.
Proof.
  intros (Hpos & Hlen & H) En Eb E. unfold chains_ok. rewrite En, Eb. split; [done|]. split; [done|].
  intros h Hh. destruct (H h Hh) as (c & Hhd & Hc & Hnd & Hin). exists c. rewrite Eb. split; [done|].
  split; [|split; [done|]].
  - eapply linked_ext; [|exact Hc]. intros a Ha. apply Hin in Ha as [Ha _]. apply (E a Ha).
  - intros a. rewrite Hin. split; intros [Ha Hf]; (split; [done|]); destruct (E a Ha) as [_ Eab]; congruence.
Qed.

Lemma chains_ok_equiv pm l l' : (forall a, a ∈ l' <-> a ∈ l) -> chains_ok pm l -> chains_ok pm l'.
Proof.
  intros E (Hpos & Hlen & H). repeat split; [done|done|].
  intros h Hh. destruct (H h Hh) as (c & ? & ? & ? & Hin). exists c. do 3 (split; [done|]).
  intros a. now rewrite Hin, E.
Qed.

Lemma free_ok_frame pm pm' l :
  free_ok pm l -> pm_FreeEntries pm' = pm_FreeEntries pm -> length (pm_heap pm') = length (pm_heap pm) ->
  (forall a, a ∉ l -> field pme_next (pm_heap pm') a = field pme_next (pm_heap pm) a /\
                      field pme_contents (pm_heap pm') a = field pme_contents (pm_heap pm) a) ->
  free_ok pm' l.
Proof.
  intros (c & Hhd & Hc & Hnd & Hin & Hz) Ef El E. exists c. rewrite Ef, El. split; [done|]. split; [|split; [done|]].
  - eapply linked_ext; [|exact Hc]. intros a Ha. apply Hin in Ha as [_ Ha]. apply (E a Ha).
  - split; [done|]. intros a Ha. pose proof Ha as Ha'. apply Hin in Ha' as [_ Ha'].
    destruct (E a Ha') as [_ ->]. auto.
Qed.

Lemma free_ok_equiv pm l l' : (forall a, a ∈ l' <-> a ∈ l) -> free_ok pm l -> free_ok pm l'.
Proof.
  intros E (c & ? & ? & ? & Hin & ?). exists c. do 3 (split; [done|]). split; [|done].
  intros a. now rewrite Hin, E.
Qed.

Lemma entries_ok_frame pm pm' l :
  entries_ok pm l -> pm_nbuckets pm' = pm_nbuckets pm ->
  (forall a, a ∈ l -> field tag (pm_heap pm') a = field tag (pm_heap pm) a) -> entries_ok pm' l.
Proof.
  intros [He Hu] En E.
  assert (Eid : forall a, a ∈ l -> field ident (pm_heap pm') a = field ident (pm_heap pm) a).
  { intros a Ha. pose proof (E a Ha) as Ea. unfold field in *.
    destruct (pm_heap pm' !! a), (pm_heap pm !! a); cbn in *; try done. unfold tag in Ea. congruence. }
  split.
  - intros a Ha. destruct (He a Ha) as (e & h & Hl & Hk & Hb & Hp). specialize (E a Ha). unfold field in E.
    rewrite Hl in E. cbn in E. destruct (pm_heap pm' !! a) as [e'|]; [|done]. cbn in E. unfold tag, ident in E.
    injection E as E1 E2 E3 E4 E5. exists e', h. unfold bucket_of in *. rewrite En, E1, E2.
    split; [done|]. split; [congruence|]. split; [done|congruence].
  - intros a b Ha Hb. rewrite !Eid by done. auto.
Qed.

Lemma entries_ok_sub pm l l' : (forall a, a ∈ l' -> a ∈ l) -> entries_ok pm l -> entries_ok pm l'.
Proof. intros Hs [He Hu]. split; eauto. Qed.

(** A list of distinct addresses of the heap is no longer than the heap. *)
Lemma nodup_bound (c : list nat) n : NoDup c -> (forall a, a ∈ c -> (a < n)%nat) -> (length c <= n)%nat.
Proof.
  intros Hnd H. rewrite <- (length_seq n 0). apply submseteq_length, NoDup_submseteq; [done|].
  intros a Ha. apply elem_of_seq. specialize (H a Ha). lia.
Qed.

(** ** Searches along a chain *)

Lemma field_inv {A} (g : MapEntry -> A) h a x : field g h a = Some x -> exists e, h !! a = Some e /\ g e = x.
Proof. unfold field. destruct (h !! a) as [e|]; cbn; [intros [= <-]; eauto|done]. Qed.

(** The first address of [c] whose entry passes the test, with what is before
    and after it. *)
Inductive found (h : list MapEntry) (test : nat -> MapEntry -> bool) (c : list nat) : option (list nat * nat * list nat) -> Prop :=
| found_at c1 a c2 e : c = c1 ++ a :: c2 -> h !! a = Some e -> test a e = true ->
    (forall b eb, b ∈ c1 -> h !! b = Some eb -> test b eb = false) -> found h test c (Some (c1, a, c2))
| found_none : (forall b eb, b ∈ c -> h !! b = Some eb -> test b eb = false) -> found h test c None.

(** The pointer to the link that leads to the entry after [c1]. *)
Definition link_to (pp : pptr) (c1 : list nat) : pptr := match last c1 with None => pp | Some p => PNext p end.

Lemma walk_pp_found pm test c : forall fuel pp,
  load pm pp = Some (head c) -> linked (field pme_next (pm_heap pm)) c -> (length c < fuel)%nat ->
  exists r, found (pm_heap pm) test c r /\
    walk_pp fuel pm pp test = Some ((fun '(c1, a, _) => (link_to pp c1, a)) <$> r).
Proof.
  induction c as [|a c IH]; intros fuel pp Hpp Hc Hf; (destruct fuel as [|fuel]; [cbn in Hf; lia|]); cbn.
  - rewrite Hpp. cbn. exists None. split; [|done]. constructor 2. intros b eb Hb. now apply elem_of_nil in Hb.
  - destruct Hc as [Ha Hc]. destruct (field_inv _ _ _ _ Ha) as (e & He & Hn). rewrite Hpp. cbn. rewrite He. cbn.
    destruct (test a e) eqn:Et.
    + exists (Some ([], a, c)). split; [|done]. econstructor; [done|done|done|]. intros b eb Hb. now apply elem_of_nil in Hb.
    + destruct (IH fuel (PNext a)) as (r & Hr & Hw); [cbn; now rewrite He; cbn; rewrite Hn|done|cbn in Hf; lia|].
      destruct Hr as [c1 b c2 eb -> Hb Htb Hbef|Hnone]; rewrite Hw.
      * exists (Some (a :: c1, b, c2)). split.
        -- econstructor; [done|done|done|]. intros x ex [->|Hx]%elem_of_cons Hex; [congruence|eauto].
        -- cbn. unfold link_to. rewrite last_cons. now destruct (last c1).
      * exists None. split; [|done]. constructor 2. intros x ex [->|Hx]%elem_of_cons Hex; [congruence|eauto].
Qed.

Lemma walk_found pm test c : forall fuel,
  linked (field pme_next (pm_heap pm)) c -> (length c < fuel)%nat ->
  exists r, found (pm_heap pm) (fun _ => test) c r /\
    walk fuel pm (head c) test = Some ((fun '(_, a, _) => a) <$> r).
Proof.
  induction c as [|a c IH]; intros fuel Hc Hf; (destruct fuel as [|fuel]; [cbn in Hf; lia|]); cbn.
  - exists None. split; [|done]. constructor 2. intros b eb Hb. now apply elem_of_nil in Hb.
  - destruct Hc as [Ha Hc]. destruct (field_inv _ _ _ _ Ha) as (e & He & Hn). rewrite He. cbn.
    destruct (test e) eqn:Et.
    + exists (Some ([], a, c)). split; [|done]. econstructor; [done|done|done|]. intros b eb Hb. now apply elem_of_nil in Hb.
    + rewrite Hn. destruct (IH fuel Hc) as (r & Hr & Hw); [cbn in Hf; lia|].
      destruct Hr as [c1 b c2 eb -> Hb Htb Hbef|Hnone]; rewrite Hw.
      * exists (Some (a :: c1, b, c2)). split; [|done].
        econstructor; [done|done|done|]. intros x ex [->|Hx]%elem_of_cons Hex; [congruence|eauto].
      * exists None. split; [|done]. constructor 2. intros x ex [->|Hx]%elem_of_cons Hex; [congruence|eauto].
Qed.
