(* ===== verification/NodeCacheSpec.v ===== *)
(** * The node cache: specification

    The cache as its users see it: a list of cached objects, the newest first,
    cut in two by the hand of the clock. No addresses, chains or free entries
    are left; every operation is a function on the lists. Entries the limit
    forces out are returned, in order. *)

From S2P Require Import Prelude.
From stdpp Require Import list.
Open Scope Z_scope.

(** A key, a container and the kind of object identify a cached object. *)
Definition id := (Z * Z * Z)%type.

Record cached := mk_cached {
  c_id : id; c_data : Z; c_datalen : Z; c_refcnt : Z; c_deleted : bool; c_ref : bool
}.

(** The hand is at the first object of [after], or at no object. [extra] counts
    the objects accepted beyond [limit] because nothing could be replaced. *)
Record cache := mk_cache { before : list cached; after : list cached; extra : Z; limit : Z }.

Definition objects (c : cache) : list cached := before c ++ after c.

Definition on_lists (f : list cached -> list cached) (c : cache) : cache :=
  mk_cache (f (before c)) (f (after c)) (extra c) (limit c).

Definition has_id (i : id) (x : cached) : bool := bool_decide (c_id x = i).

Definition lookup_id (i : id) (l : list cached) : option cached := List.find (has_id i) l.

(** Change the object [i]. *)
Definition change (i : id) (f : cached -> cached) (l : list cached) : list cached :=
  (fun x => if has_id i x then f x else x) <$> l.

Definition without (i : id) (l : list cached) : list cached := List.filter (fun x => negb (has_id i x)) l.

Definition set_count (n : Z) (x : cached) : cached :=
  mk_cached (c_id x) (c_data x) (c_datalen x) n (c_deleted x) (c_ref x).
Definition set_use (b : bool) (x : cached) : cached :=
  mk_cached (c_id x) (c_data x) (c_datalen x) (c_refcnt x) (c_deleted x) b.
Definition set_deleted (x : cached) : cached :=
  mk_cached (c_id x) (c_data x) (c_datalen x) (c_refcnt x) true (c_ref x).
Definition set_object (d n : Z) (x : cached) : cached :=
  mk_cached (c_id x) d n (c_refcnt x) (c_deleted x) (c_ref x).

(** ** Replacement *)

(** An object the clock passes over: used since it passed last, or referenced. *)
Definition busy (x : cached) : bool := c_ref x || negb (c_refcnt x =? 0).

(** The clock over a list: what it passed, then the object to replace and the
    rest. *)
Fixpoint sweep (l : list cached) : list cached * option (cached * list cached) :=
  match l with
  | [] => ([], None)
  | x :: l => if busy x then let '(p, r) := sweep l in (set_use false x :: p, r) else ([], Some (x, l))
  end.

(** From the hand to the end of the list, then from its start to the hand. *)
Definition replace_one (c : cache) : cache * option cached :=
  match sweep (after c) with
  | (p, Some (v, r)) => (mk_cache (before c ++ p) r (extra c) (limit c), Some v)
  | (a, None) =>
      match sweep (before c) with
      | (p, Some (v, r)) => (mk_cache p (r ++ a) (extra c) (limit c), Some v)
      | (b, None) => (mk_cache b a (extra c) (limit c), None)
      end
  end.

Definition set_extra (n : Z) (c : cache) : cache := mk_cache (before c) (after c) n (limit c).

(** Give back the extra objects, as far as objects can be replaced. *)
Fixpoint shed (fuel : nat) (c : cache) : cache * list cached :=
  match fuel with
  | O => (c, [])
  | S fuel =>
      if extra c =? 0 then (c, [])
      else match replace_one c with
           | (c, None) => (c, [])
           | (c, Some v) => let '(c, vs) := shed fuel (set_extra (i32 (extra c - 1)) c) in (c, v :: vs)
           end
  end.

Definition replace (c : cache) : cache * list cached :=
  match replace_one c with
  | (c, None) => (set_extra (i32 (extra c + 1)) c, [])
  | (c, Some v) => let '(c, vs) := shed (S (length (objects c))) c in (c, v :: vs)
  end.

(** ** Operations *)

(** A new object is referenced once; it goes in front. *)
Definition spec_add (i : id) (d n : Z) (c : cache) : cache * list cached :=
  let c := mk_cache (mk_cached i d n 1 false false :: before c) (after c) (extra c) (limit c) in
  if negb (limit c =? 0) && (limit c <? lenZ (objects c)) then replace c else (c, []).

Definition spec_create (i : id) (d n : Z) (c : cache) : cache * list cached * bool :=
  match lookup_id i (objects c) with
  | Some _ => (c, [], false)
  | None => (spec_add i d n c, true)
  end.

(** The mark of a use, kept only when there is a limit. *)
Definition touch (c : cache) (x : cached) : cached := if limit c =? 0 then x else set_use true x.

Definition spec_get (i : id) (c : cache) : cache * option cached :=
  match lookup_id i (objects c) with
  | Some x => (on_lists (change i (fun x => touch c (set_count (i32 (c_refcnt x + 1)) x))) c, Some x)
  | None => (c, None)
  end.

Definition spec_count (f : Z -> Z) (i : id) (c : cache) : cache * bool :=
  match lookup_id i (objects c) with
  | Some x => (on_lists (change i (fun x => set_count (f (c_refcnt x)) x)) c, true)
  | None => (c, false)
  end.

Definition spec_set (i : id) (d n : Z) (c : cache) : cache * option cached :=
  match lookup_id i (objects c) with
  | Some x => (on_lists (change i (fun x => touch c (set_object d n x))) c, Some x)
  | None => (c, None)
  end.

(** The last reference gone, the object goes; otherwise it is only marked. *)
Definition spec_delete (i : id) (c : cache) : cache * option cached * bool :=
  match lookup_id i (objects c) with
  | Some x =>
      if i32 (c_refcnt x - 1) =? 0 then (on_lists (without i) c, Some x, true)
      else (on_lists (change i (fun x => set_deleted (set_count (i32 (c_refcnt x - 1)) x))) c, None, true)
  | None => (c, None, false)
  end.

(** All objects of a container go, whatever their references. *)
Definition of_container (cguid : Z) (x : cached) : bool := negb (c_data x =? 0) && (snd (fst (c_id x)) =? cguid).

Definition spec_clean (cguid : Z) (c : cache) : cache :=
  on_lists (List.filter (fun x => negb (of_container cguid x))) c.

Definition spec_init (limit : Z) : cache := mk_cache [] [] 0 limit.

(** ** Facts on the clock *)

Lemma sweep_at p v r :
  Forall (fun x => busy x = true) p -> busy v = false -> sweep (p ++ v :: r) = (set_use false <$> p, Some (v, r)).
Proof.
  intros Hp Hv. induction Hp as [|x p Hx Hp IH]; cbn; [now rewrite Hv|]. rewrite Hx, IH. done.
Qed.

Lemma sweep_all p : Forall (fun x => busy x = true) p -> sweep p = (set_use false <$> p, None).
Proof. intros Hp. induction Hp as [|x p Hx Hp IH]; cbn; [done|]. rewrite Hx, IH. done. Qed.

(** Every list is one of the two. *)
Lemma sweep_cases l :
  (exists p v r, l = p ++ v :: r /\ Forall (fun x => busy x = true) p /\ busy v = false) \/
  Forall (fun x => busy x = true) l.
Proof.
  induction l as [|x l IH]; [right; constructor|]. destruct (busy x) eqn:Ex.
  - destruct IH as [(p & v & r & -> & Hp & Hv)|Hl]; [left|right; now constructor].
    exists (x :: p), v, r. split; [done|]. split; [now constructor|done].
  - left. exists [], x, l. split; [done|]. split; [constructor|done].
Qed.

Lemma lookup_id_Some i l x : lookup_id i l = Some x -> x ∈ l /\ c_id x = i.
Proof.
  intros H. apply List.find_some in H as [Hin Hi]. split; [now apply list_elem_of_In|].
  now apply bool_decide_eq_true in Hi.
Qed.

Lemma lookup_id_None i l : lookup_id i l = None <-> i ∉ c_id <$> l.
Proof.
  split.
  - intros H (x & -> & Hx)%list_elem_of_fmap. apply list_elem_of_In in Hx.
    pose proof (List.find_none _ _ H _ Hx) as Hf. unfold has_id in Hf. now rewrite bool_decide_eq_true_2 in Hf.
  - intros H. destruct (lookup_id i l) as [x|] eqn:E; [|done]. apply lookup_id_Some in E as [Hx <-].
    destruct H. now apply list_elem_of_fmap_2.
Qed.

(** What the clock leaves of an object it does not replace. *)
Definition kept (x y : cached) : Prop := y = x \/ y = set_use false x.

Lemma kept_refl l : Forall2 kept l l.
Proof. induction l; constructor; [now left|done]. Qed.

Lemma kept_unref l : Forall2 kept l (set_use false <$> l).
Proof. induction l; cbn; constructor; [now right|done]. Qed.

(** A replacement takes one object out, never a busy one, and changes nothing
    else but use bits. *)
Lemma replace_one_Some c c' v :
  replace_one c = (c', Some v) ->
  exists l1 l2, objects c = l1 ++ v :: l2 /\ Forall2 kept (l1 ++ l2) (objects c') /\ busy v = false /\
    extra c' = extra c /\ limit c' = limit c.
Proof.
  unfold replace_one, objects.
  destruct (sweep_cases (after c)) as [(p & w & r & -> & Hp & Hw)|Ha].
  - rewrite (sweep_at _ _ _ Hp Hw). intros [= <- <-]. exists (before c ++ p), r. cbn. rewrite <- app_assoc.
    split; [done|]. split; [|done]. repeat apply Forall2_app; auto using kept_refl, kept_unref.
  - rewrite (sweep_all _ Ha). destruct (sweep_cases (before c)) as [(p & w & r & -> & Hp & Hw)|Hb].
    + rewrite (sweep_at _ _ _ Hp Hw). intros [= <- <-]. exists p, (r ++ after c). cbn. rewrite <- app_assoc.
      split; [done|]. split; [|done]. repeat apply Forall2_app; auto using kept_refl, kept_unref.
    + now rewrite (sweep_all _ Hb).
Qed.

(** Nothing is replaced only when every object is busy. *)
Lemma replace_one_None c c' :
  replace_one c = (c', None) ->
  Forall (fun x => busy x = true) (objects c) /\ objects c' = set_use false <$> objects c /\
  extra c' = extra c /\ limit c' = limit c.
Proof.
  unfold replace_one, objects.
  destruct (sweep_cases (after c)) as [(p & w & r & -> & Hp & Hw)|Ha].
  - now rewrite (sweep_at _ _ _ Hp Hw).
  - rewrite (sweep_all _ Ha). destruct (sweep_cases (before c)) as [(p & w & r & -> & Hp & Hw)|Hb].
    + now rewrite (sweep_at _ _ _ Hp Hw).
    + rewrite (sweep_all _ Hb). intros [= <-]. cbn. rewrite fmap_app. split; [now apply Forall_app|done].
Qed.

Lemma replace_one_length c c' v : replace_one c = (c', Some v) -> length (objects c) = S (length (objects c')).
Proof.
  intros (l1 & l2 & E & Hk & _)%replace_one_Some. apply Forall2_length in Hk.
  rewrite E, !length_app in *. cbn. lia.
Qed.

(** A referenced object of the cache. *)
Definition pinned (c : cache) : Prop := exists x, x ∈ objects c /\ c_refcnt x <> 0.

Lemma kept_refcnt x y : kept x y -> c_refcnt y = c_refcnt x.
Proof. now intros [-> | ->]. Qed.

Lemma replace_one_pinned c : pinned c -> pinned (fst (replace_one c)).
Proof.
  intros (x & Hx & Hr). destruct (replace_one c) as [c' [v|]] eqn:E; cbn.
  - apply replace_one_Some in E as (l1 & l2 & Eo & Hk & Hb & _).
    assert (Hx' : x ∈ l1 ++ l2).
    { rewrite Eo, elem_of_app, elem_of_cons in Hx. rewrite elem_of_app. destruct Hx as [?|[->|?]]; [by left| |by right].
      apply orb_false_iff in Hb as [_ Hb]. apply negb_false_iff, Z.eqb_eq in Hb. done. }
    apply list_elem_of_lookup in Hx' as [i Hi]. destruct (Forall2_lookup_l _ _ _ _ _ Hk Hi) as (y & Hy & Hky).
    exists y. split; [apply list_elem_of_lookup; eauto|]. now rewrite (kept_refcnt _ _ Hky).
  - apply replace_one_None in E as (_ & Eo & _). exists (set_use false x). split; [|done].
    rewrite Eo. now apply list_elem_of_fmap_2.
Qed.

Lemma objects_set_extra n c : objects (set_extra n c) = objects c.
Proof. done. Qed.

(** The fuel of [shed] does not matter once it exceeds the number of objects. *)
Lemma shed_fuel : forall f1 f2 c, (length (objects c) < f1)%nat -> (length (objects c) < f2)%nat -> shed f1 c = shed f2 c.
Proof.
  induction f1 as [|f1 IH]; intros f2 c H1 H2; [lia|]. destruct f2 as [|f2]; [lia|]. cbn.
  destruct (extra c =? 0); [done|]. destruct (replace_one c) as [c' [v|]] eqn:E; [|done].
  apply replace_one_length in E.
  rewrite (IH f2); [done|..]; rewrite objects_set_extra; lia.
Qed.
