(* ===== verification/NodeCacheStep.v ===== *)
(** * The node cache: the primitives keep the representation

    [cache_ok pm l]: the cache [pm] is well formed and its list of entries is
    [l]. An entry leaves in three moves, made in different orders: off the
    list of entries, off its chain, onto the free list; it enters by the
    opposite ones. Each lemma shows what one move does to the parts of
    [cache_ok]. *)

From S2P Require Import Prelude Hash NodeCache NodeCacheRep NodeCacheSpec.
From stdpp Require Import list.
Open Scope Z_scope.

Definition block_addresses (bs : list nat) : list nat := concat (map (fun b => seq b N_ENTRIES_TO_MALLOC) bs).

Record cache_ok (pm : Map) (l : list nat) : Prop := {
  ok_nodup : NoDup l;
  ok_lru : lru_ok pm l;
  ok_chains : chains_ok pm l;
  ok_free : free_ok pm l;
  ok_entries : entries_ok pm l;
  ok_count : pm_n_entries pm = u64 (lenZ l);
  ok_blocks : block_addresses (pm_EntryBlocks pm) ≡ₚ seq 0 (length (pm_heap pm))
}.

(** The fields [cache_ok] does not look at. *)
Lemma cache_ok_other pm l hand extra cs nused :
  cache_ok pm l -> cache_ok (pm_set_NUsedEntries nused (pm_set_calls cs (pm_set_extra_pme extra (pm_set_clock_hand hand pm)))) l.
Proof. intros [? Hl ? ? ? ? ?]. constructor; [done| |done..]. eapply lru_ok_frame; [exact Hl|done..]. Qed.

(** What the specification keeps of an entry. *)
Definition view (e : MapEntry) : cached :=
  mk_cached (ident e) (pme_contents e) (pme_datalen e) (pme_refcnt e) (pme_deleted e) (pme_ref e).

(** The fields of the cache no move of an entry changes. *)
Definition constants (pm : Map) :=
  (pm_nbuckets pm, pm_max_entries pm, pm_replacement_callback pm, pm_extra_pme pm, pm_EntryBlocks pm, length (pm_heap pm)).

Lemma in_heap pm l a : lru_ok pm l -> a ∈ l -> (a < length (pm_heap pm))%nat.
Proof. intros H Ha. apply lookup_lt_is_Some, (lru_is_Some _ _ _ H Ha). Qed.

Lemma chain_short pm l h c :
  lru_ok pm l -> (forall a, a ∈ c <-> a ∈ l /\ field pme_bucket (pm_heap pm) a = Some (Some h)) -> NoDup c ->
  (length c < chain_fuel pm)%nat.
Proof.
  intros Hl Hin Hnd. apply Nat.lt_succ_r, Nat.le_le_succ_r, nodup_bound; [done|].
  intros a [Ha _]%Hin. now apply (in_heap _ _ _ Hl).
Qed.

(** ** Off the list of entries *)

Lemma lru_frame_chains pm hd tl hand h l :
  no_lru <$> h = no_lru <$> pm_heap pm -> chains_ok pm l -> chains_ok (with_lru pm hd tl hand h) l.
Proof.
  intros E H. eapply chains_ok_frame; [exact H|done|done|]. intros a _.
  split; now apply (field_frame no_lru).
Qed.

Lemma lru_frame_free pm hd tl hand h l :
  no_lru <$> h = no_lru <$> pm_heap pm -> free_ok pm l -> free_ok (with_lru pm hd tl hand h) l.
Proof.
  intros E H. eapply free_ok_frame; [exact H|done| |].
  - cbn. rewrite <- (length_fmap no_lru h), E. apply length_fmap.
  - intros a _. split; now apply (field_frame no_lru).
Qed.

Lemma lru_frame_entries pm hd tl hand h l :
  no_lru <$> h = no_lru <$> pm_heap pm -> entries_ok pm l -> entries_ok (with_lru pm hd tl hand h) l.
Proof. intros E H. eapply entries_ok_frame; [exact H|done|]. intros a _. now apply (field_frame no_lru). Qed.

(** ** Off the chain *)

Definition unchained (pm : Map) (h : nat) (c1 c2 : list nat) : Map :=
  match last c1 with
  | Some p => pm_set_heap (alter (pme_set_next (head c2)) p (pm_heap pm)) pm
  | None => pm_set_buckets (<[h := head c2]> (pm_buckets pm)) pm
  end.

Lemma store_run pm h c1 a c2 :
  linked (field pme_next (pm_heap pm)) (c1 ++ a :: c2) -> (h < length (pm_buckets pm))%nat ->
  store pm (link_to (PBucket h) c1) (head c2) = Some (unchained pm h c1 c2).
Proof.
  intros Hc Hh. unfold link_to, unchained. destruct (last c1) as [p|] eqn:El.
  - destruct (linked_elem _ _ p Hc) as [x Hx]; [apply elem_of_app; left; now apply last_elem|].
    apply field_inv in Hx as (e & He & _). now apply (modify_Some _ _ _ e).
  - cbn. now destruct (lookup_lt_is_Some_2 _ _ Hh) as [? ->].
Qed.

Lemma unchained_frame pm h c1 c2 : no_next <$> pm_heap (unchained pm h c1 c2) = no_next <$> pm_heap pm.
Proof. unfold unchained. destruct (last c1); [now apply fmap_alter_same|done]. Qed.

Lemma unchained_constants pm h c1 c2 :
  constants (unchained pm h c1 c2) = constants pm /\ pm_n_entries (unchained pm h c1 c2) = pm_n_entries pm /\
  pm_calls (unchained pm h c1 c2) = pm_calls pm /\ pm_clock_hand (unchained pm h c1 c2) = pm_clock_hand pm /\
  pm_lru_head (unchained pm h c1 c2) = pm_lru_head pm /\ pm_lru_tail (unchained pm h c1 c2) = pm_lru_tail pm /\
  pm_FreeEntries (unchained pm h c1 c2) = pm_FreeEntries pm /\
  length (pm_buckets (unchained pm h c1 c2)) = length (pm_buckets pm).
Proof.
  unfold unchained, constants. destruct (last c1); cbn; rewrite ?length_alter, ?length_insert; done.
Qed.

Lemma unchained_lru pm h c1 c2 l : lru_ok pm l -> lru_ok (unchained pm h c1 c2) l.
Proof.
  intros H. pose proof (unchained_constants pm h c1 c2) as (_ & _ & _ & _ & Eh & Et & _).
  eapply lru_ok_frame; [exact H|done|done|]. intros a _.
  split; apply (field_frame no_next); try done; apply unchained_frame.
Qed.

Lemma unchained_free pm h c1 c2 l : (forall b, b ∈ c1 -> b ∈ l) -> free_ok pm l -> free_ok (unchained pm h c1 c2) l.
Proof.
  intros Hin H. eapply free_ok_frame; [exact H|apply unchained_constants| |].
  - rewrite <- (length_fmap no_next), unchained_frame. apply length_fmap.
  - intros a Ha. split; [|apply (field_frame no_next); [done|apply unchained_frame]].
    unfold unchained. destruct (last c1) as [p|] eqn:El; [|done]. apply field_alter_ne.
    intros ->. apply Ha, Hin. now apply last_elem.
Qed.

Lemma unchained_entries pm h c1 c2 l : entries_ok pm l -> entries_ok (unchained pm h c1 c2) l.
Proof.
  intros H. eapply entries_ok_frame; [exact H|pose proof (unchained_constants pm h c1 c2) as [[= ->] _]; done|].
  intros a _. apply (field_frame no_next); [done|]. apply unchained_frame.
Qed.

(** The chain of [h] loses [a], the other chains stay. *)
Lemma unchained_chains pm h c1 a c2 l l' :
  chains_ok pm l -> (h < length (pm_buckets pm))%nat ->
  pm_buckets pm !! h = Some (head (c1 ++ a :: c2)) -> linked (field pme_next (pm_heap pm)) (c1 ++ a :: c2) ->
  NoDup (c1 ++ a :: c2) ->
  (forall b, b ∈ c1 ++ a :: c2 <-> b ∈ l /\ field pme_bucket (pm_heap pm) b = Some (Some h)) ->
  (forall b, b ∈ l' <-> b ∈ l /\ b <> a) ->
  chains_ok (unchained pm h c1 c2) l'.
Proof.
  intros (Hpos & Hlen & H) Hh Hb Hc Hnd Hin Hl'.
  pose proof (unchained_constants pm h c1 c2) as (Econ & _ & _ & _ & _ & _ & _ & Elen).
  assert (Enb : pm_nbuckets (unchained pm h c1 c2) = pm_nbuckets pm) by now injection Econ as ->.
  assert (Ebk : forall b, field pme_bucket (pm_heap (unchained pm h c1 c2)) b = field pme_bucket (pm_heap pm) b)
    by (apply (field_frame no_next); [done|apply unchained_frame]).
  split; [now rewrite Enb|]. rewrite Elen. split; [now rewrite Enb|]. intros h' Hh'.
  destruct (decide (h' = h)) as [->|Hne].
  - exists (c1 ++ c2). split; [|split; [|split]].
    + unfold unchained. destruct (last c1) as [p|] eqn:El.
      * destruct c1; [done|exact Hb].
      * apply last_None in El as ->. cbn. now apply list_lookup_insert_eq.
    + eapply linked_unlink; [exact Hnd|exact Hc|..]; unfold unchained.
      * intros b Hb' Hlast. destruct (last c1) as [p|]; [|done]. apply field_alter_ne. congruence.
      * intros b Hlast. rewrite Hlast. cbn. rewrite field_alter_eq.
        destruct (linked_elem _ _ b Hc) as [x Hx]; [apply elem_of_app; left; now apply last_elem|].
        apply field_inv in Hx as (e & -> & _). done.
    + rewrite <- Permutation_middle in Hnd. now apply NoDup_cons in Hnd as [_ ?].
    + intros b. rewrite Ebk, Hl'. rewrite <- Permutation_middle in Hnd. apply NoDup_cons in Hnd as [Ha _].
      specialize (Hin b). rewrite <- Permutation_middle, elem_of_cons in Hin.
      destruct (decide (b = a)) as [->|]; naive_solver.
  - destruct (H h' Hh') as (c & Hc1 & Hc2 & Hc3 & Hc4). exists c.
    assert (Hdisj : forall b, b ∈ c -> b ∉ c1 ++ a :: c2).
    { intros b Hb1 Hb2. apply Hc4 in Hb1 as [_ E1]. apply Hin in Hb2 as [_ E2]. congruence. }
    split; [|split; [|split; [done|]]].
    + unfold unchained. destruct (last c1); [done|]. cbn. now rewrite list_lookup_insert_ne.
    + eapply linked_ext; [|exact Hc2]. intros b Hbc. unfold unchained. destruct (last c1) as [p|] eqn:El; [|done].
      apply field_alter_ne. intros ->. apply (Hdisj _ Hbc), elem_of_app. left. now apply last_elem.
    + intros b. rewrite Ebk, Hl', Hc4. split; [|naive_solver]. intros [Hb1 Hb2]. split; [|done]. split; [done|].
      intros ->. assert (Ha : a ∈ c1 ++ a :: c2) by (apply elem_of_app; right; left).
      apply Hin in Ha as [_ Ha]. congruence.
Qed.

(** ** Onto the free list *)

Definition freed_map (pm : Map) (a : nat) : Map :=
  pm_set_NUsedEntries (u32 (pm_NUsedEntries pm - 1))
    (pm_set_FreeEntries (Some a) (pm_set_heap (alter (freed (pm_FreeEntries pm)) a (pm_heap pm)) pm)).

Lemma free_entry_run pm a : is_Some (pm_heap pm !! a) -> free_entry pm a = Some (freed_map pm a).
Proof. intros [e He]. unfold free_entry. now rewrite (modify_Some _ _ _ _ He). Qed.

Lemma freed_lru pm a l : a ∉ l -> lru_ok pm l -> lru_ok (freed_map pm a) l.
Proof.
  intros Ha H. eapply lru_ok_frame; [exact H|done|done|]. intros b Hb.
  split; apply field_alter_ne; now intros ->.
Qed.

Lemma freed_chains pm a l : a ∉ l -> chains_ok pm l -> chains_ok (freed_map pm a) l.
Proof.
  intros Ha H. eapply chains_ok_frame; [exact H|done|done|]. intros b Hb.
  split; apply field_alter_ne; now intros ->.
Qed.

Lemma freed_entries pm a l : a ∉ l -> entries_ok pm l -> entries_ok (freed_map pm a) l.
Proof.
  intros Ha H. eapply entries_ok_frame; [exact H|done|]. intros b Hb. apply field_alter_ne. now intros ->.
Qed.

Lemma freed_free pm a l l' :
  free_ok pm l -> a ∈ l -> is_Some (pm_heap pm !! a) -> (forall b, b ∈ l' <-> b ∈ l /\ b <> a) ->
  free_ok (freed_map pm a) l'.
Proof.
  intros (c & Hhd & Hc & Hnd & Hin & Hz) Ha [e He] Hl'.
  assert (Hac : a ∉ c) by (intros Hac; now apply Hin in Hac as [_ ?]).
  exists (a :: c). split; [done|]. split; [|split; [now constructor|split]]; cbn [pm_heap freed_map pm_set_NUsedEntries pm_set_FreeEntries pm_set_heap].
  - eapply linked_cons; [done|exact Hc|..].
    + rewrite field_alter_eq, He. cbn. now rewrite Hhd.
    + intros b Hb. apply field_alter_ne. congruence.
  - intros b. rewrite elem_of_cons, Hin, length_alter, Hl'. destruct (decide (b = a)) as [->|Hne]; [|naive_solver].
    apply lookup_lt_Some in He. naive_solver.
  - intros b Hb. destruct (decide (a = b)) as [<-|Hne].
    + rewrite field_alter_eq, He. done.
    + rewrite field_alter_ne by done. apply Hz. apply elem_of_cons in Hb as [->|]; done.
Qed.

(** ** An entry leaves *)

(** [pm'] is [pm] with entry [a] gone from the list of entries and from its
    chain, but not yet free. *)
Record detached (pm pm' : Map) (l1 : list nat) (a : nat) (l2 : list nat) : Prop := {
  det_lru : lru_ok pm' (l1 ++ l2);
  det_chains : chains_ok pm' (l1 ++ l2);
  det_free : free_ok pm' (l1 ++ a :: l2);
  det_entries : entries_ok pm' (l1 ++ a :: l2);
  det_view : forall b, field view (pm_heap pm') b = field view (pm_heap pm) b;
  det_keylen : forall b, field pme_keylen (pm_heap pm') b = field pme_keylen (pm_heap pm) b;
  det_const : constants pm' = constants pm;
  det_count : pm_n_entries pm' = pm_n_entries pm;
  det_calls : pm_calls pm' = pm_calls pm;
  det_hand : pm_clock_hand pm' = if decide (pm_clock_hand pm = Some a) then head l2 else pm_clock_hand pm
}.

(** The chain of an entry, cut at it. *)
Definition chain_at (pm : Map) (l : list nat) (a h : nat) (c1 c2 : list nat) : Prop :=
  (h < length (pm_buckets pm))%nat /\ field pme_bucket (pm_heap pm) a = Some (Some h) /\
  pm_buckets pm !! h = Some (head (c1 ++ a :: c2)) /\ linked (field pme_next (pm_heap pm)) (c1 ++ a :: c2) /\
  NoDup (c1 ++ a :: c2) /\
  (forall b, b ∈ c1 ++ a :: c2 <-> b ∈ l /\ field pme_bucket (pm_heap pm) b = Some (Some h)).

Lemma bucket_of_lt pm key cguid h :
  0 < pm_nbuckets pm -> length (pm_buckets pm) = z2n (pm_nbuckets pm) -> bucket_of pm key cguid = Some h ->
  (h < length (pm_buckets pm))%nat.
Proof.
  intros Hpos Hlen. unfold bucket_of. destruct (Z.eqb_spec (pm_nbuckets pm) 0); [done|].
  intros E. apply (inj Some) in E. subst h. pose proof (Z.mod_pos_bound (hash_key key cguid) _ Hpos). lia.
Qed.

Lemma chain_of pm l a : cache_ok pm l -> a ∈ l -> exists h c1 c2, chain_at pm l a h c1 c2.
Proof.
  intros H Ha. destruct (ok_entries _ _ H) as [He _]. destruct (He a Ha) as (e & h & Hl & _ & Hb & Hp).
  destruct (ok_chains _ _ H) as (Hpos & Hlen & Hch).
  pose proof (bucket_of_lt _ _ _ _ Hpos Hlen Hb) as Hh.
  destruct (Hch h Hh) as (c & Hhd & Hc & Hnd & Hin).
  assert (Hf : field pme_bucket (pm_heap pm) a = Some (Some h)) by (unfold field; now rewrite Hl, <- Hp).
  assert (a ∈ c) as (c1 & c2 & ->)%list_elem_of_split by now apply Hin.
  exists h, c1, c2. repeat split; try done; now apply Hin.
Qed.

Lemma minus_middle (l1 : list nat) a l2 : NoDup (l1 ++ a :: l2) -> forall b, b ∈ l1 ++ l2 <-> b ∈ l1 ++ a :: l2 /\ b <> a.
Proof.
  intros Hnd b. rewrite <- Permutation_middle in Hnd |- *. apply NoDup_cons in Hnd as [Ha _].
  rewrite elem_of_cons. split; [|intros [[?|?] ?]; done]. intros Hb. split; [by right|]. now intros ->.
Qed.

Lemma chain_at_frame pm pm' l a h c1 c2 :
  pm_buckets pm' = pm_buckets pm ->
  (forall b, field pme_next (pm_heap pm') b = field pme_next (pm_heap pm) b) ->
  (forall b, field pme_bucket (pm_heap pm') b = field pme_bucket (pm_heap pm) b) ->
  chain_at pm l a h c1 c2 -> chain_at pm' l a h c1 c2.
Proof.
  intros Eb En Ef (Hh & Hf & Hb & Hc & Hnd & Hin).
  unfold chain_at. rewrite Eb, Ef. do 3 (split; [done|]). split; [|split; [done|]].
  - eapply linked_ext; [|exact Hc]. intros b _. apply En.
  - intros b. now rewrite Ef.
Qed.

(** First off the list of entries, then off the chain. *)
Lemma detach_lru_first pm l1 a l2 h c1 c2 :
  cache_ok pm (l1 ++ a :: l2) -> chain_at pm (l1 ++ a :: l2) a h c1 c2 ->
  exists pm1, remove_lru pm a = Some pm1 /\ chain_at pm1 (l1 ++ a :: l2) a h c1 c2 /\
    no_lru <$> pm_heap pm1 = no_lru <$> pm_heap pm /\ pm_n_entries pm1 = pm_n_entries pm /\
    detached pm (unchained pm1 h c1 c2) l1 a l2.
Proof.
  intros H Hca. pose proof (ok_nodup _ _ H) as Hnd. pose proof (ok_lru _ _ H) as Hlru.
  rewrite (remove_lru_run _ _ _ _ Hnd Hlru). eexists. split; [done|].
  match goal with |- chain_at ?p _ _ _ _ _ /\ _ => set (pm1 := p) end.
  assert (E : no_lru <$> pm_heap pm1 = no_lru <$> pm_heap pm) by apply unlinked_frame.
  assert (Hca1 : chain_at pm1 (l1 ++ a :: l2) a h c1 c2) by (apply (chain_at_frame pm); [done|now apply (field_frame no_lru)|now apply (field_frame no_lru)|done]).
  split; [done|]. split; [done|]. split; [done|].
  pose proof (unchained_constants pm1 h c1 c2) as (Econ & En & Ecl & Ehd & _ & _ & Efr & _).
  destruct Hca1 as (Hh & Hf & Hb & Hc & Hcnd & Hin).
  assert (Hv : forall A (g : MapEntry -> A), (forall e, g (no_next e) = g e) -> (forall e, g (no_lru e) = g e) ->
            forall b, field g (pm_heap (unchained pm1 h c1 c2)) b = field g (pm_heap pm) b).
  { intros A g Hg1 Hg2 b. rewrite (field_frame no_next _ _ _ Hg1 (unchained_frame pm1 h c1 c2)).
    now apply (field_frame no_lru). }
  constructor.
  - apply unchained_lru. now apply (remove_lru_ok _ _ a).
  - eapply (unchained_chains _ _ _ a); [|done|done|done|done|exact Hin|now apply minus_middle].
    apply lru_frame_chains; [apply unlinked_frame|apply H].
  - apply unchained_free; [intros b Hb'; apply Hin, elem_of_app; by left|].
    apply lru_frame_free; [apply unlinked_frame|apply H].
  - apply unchained_entries, lru_frame_entries; [apply unlinked_frame|apply H].
  - now apply Hv.
  - now apply Hv.
  - rewrite Econ. unfold constants. cbn. f_equal.
    rewrite <- (length_fmap no_lru), unlinked_frame. apply length_fmap.
  - done.
  - done.
  - done.
Qed.

(** First off the chain, then off the list of entries. *)
Lemma detach_chain_first pm l1 a l2 h c1 c2 :
  cache_ok pm (l1 ++ a :: l2) -> chain_at pm (l1 ++ a :: l2) a h c1 c2 ->
  exists pm2, remove_lru (unchained pm h c1 c2) a = Some pm2 /\ detached pm pm2 l1 a l2.
Proof.
  intros H (Hh & Hf & Hb & Hc & Hcnd & Hin). pose proof (ok_nodup _ _ H) as Hnd.
  pose proof (unchained_constants pm h c1 c2) as (Econ & En & Ecl & Ehd & _ & _ & Efr & _).
  set (pm1 := unchained pm h c1 c2) in *.
  assert (Hlru : lru_ok pm1 (l1 ++ a :: l2)) by apply unchained_lru, H.
  assert (E : no_next <$> pm_heap pm1 = no_next <$> pm_heap pm) by apply unchained_frame.
  rewrite (remove_lru_run _ _ _ _ Hnd Hlru). eexists. split; [done|].
  assert (Hv : forall A (g : MapEntry -> A), (forall e, g (no_next e) = g e) -> (forall e, g (no_lru e) = g e) ->
            forall b, field g (unlinked (last l1) (head l2) (pm_heap pm1)) b = field g (pm_heap pm) b).
  { intros A g Hg1 Hg2 b. rewrite (field_frame no_lru _ _ _ Hg2 (unlinked_frame _ _ _)).
    now apply (field_frame no_next). }
  constructor.
  - now apply (remove_lru_ok _ _ a).
  - apply lru_frame_chains; [apply unlinked_frame|].
    eapply (unchained_chains _ _ _ a); [apply H|done|done|done|done|exact Hin|now apply minus_middle].
  - apply lru_frame_free; [apply unlinked_frame|].
    apply unchained_free; [intros b Hb'; apply Hin, elem_of_app; by left|apply H].
  - apply lru_frame_entries; [apply unlinked_frame|]. apply unchained_entries, H.
  - now apply Hv.
  - now apply Hv.
  - rewrite <- Econ. unfold constants. cbn. f_equal.
    rewrite <- (length_fmap no_lru), unlinked_frame. apply length_fmap.
  - done.
  - done.
  - cbn. now rewrite Ehd.
Qed.

(** [pm'] is [pm] without entry [a], after the call [cb] of the callback. *)
Record left_cache (pm pm' : Map) (l1 : list nat) (a : nat) (l2 : list nat) (cb : callback) : Prop := {
  left_ok : cache_ok pm' (l1 ++ l2);
  left_view : forall b, b ∈ l1 ++ l2 -> field view (pm_heap pm') b = field view (pm_heap pm) b;
  left_const : constants pm' = constants pm;
  left_calls : pm_calls pm' = cb :: pm_calls pm;
  left_hand : pm_clock_hand pm' = if decide (pm_clock_hand pm = Some a) then head l2 else pm_clock_hand pm
}.

Definition settled (pm : Map) (a : nat) (cb : callback) : Map :=
  freed_map (pm_set_calls (cb :: pm_calls pm) (pm_set_n_entries (u64 (pm_n_entries pm - 1)) pm)) a.

Lemma heap_of_view pm pm' a e :
  (forall b, field view (pm_heap pm') b = field view (pm_heap pm) b) -> pm_heap pm !! a = Some e ->
  is_Some (pm_heap pm' !! a).
Proof.
  intros E He. specialize (E a). unfold field in E. rewrite He in E. destruct (pm_heap pm' !! a); [eauto|done].
Qed.

Lemma detached_left pm pm2 l1 a l2 cb :
  cache_ok pm (l1 ++ a :: l2) -> detached pm pm2 l1 a l2 -> left_cache pm (settled pm2 a cb) l1 a l2 cb.
Proof.
  intros H D. pose proof (ok_nodup _ _ H) as Hnd. pose proof (minus_middle _ _ _ Hnd) as Hmin.
  assert (Ha : a ∉ l1 ++ l2) by (intros Ha; now apply Hmin in Ha as [_ ?]).
  destruct (lru_links _ _ _ _ (ok_lru _ _ H)) as (e & He & _).
  pose proof (heap_of_view _ _ _ _ (det_view _ _ _ _ _ D) He) as Hsome.
  pose proof (det_const _ _ _ _ _ D) as Hcon.
  constructor.
  - constructor.
    + rewrite <- Permutation_middle in Hnd. now apply NoDup_cons in Hnd as [_ ?].
    + apply freed_lru; [done|]. eapply lru_ok_frame; [apply D|done..].
    + apply freed_chains; [done|]. eapply chains_ok_frame; [apply D|done..].
    + eapply (freed_free _ _ (l1 ++ a :: l2)); [|apply elem_of_app; right; left|done|done].
      eapply free_ok_frame; [apply D|done..].
    + apply freed_entries; [done|]. eapply entries_ok_sub; [|eapply entries_ok_frame; [apply D|done..]].
      intros b Hb. now apply Hmin.
    + cbn. rewrite (det_count _ _ _ _ _ D), (ok_count _ _ H), u64_sub. f_equal. rewrite !length_app. cbn. lia.
    + cbn. rewrite length_alter. unfold constants in Hcon. injection Hcon as _ _ _ _ -> ->. apply H.
  - intros b Hb. cbn. rewrite field_alter_ne; [apply D|]. now intros ->.
  - unfold settled, constants in *. cbn. rewrite length_alter. exact Hcon.
  - cbn. now rewrite (det_calls _ _ _ _ _ D).
  - cbn. apply D.
Qed.

Lemma unchained_set_n pm n h c1 c2 : unchained (pm_set_n_entries n pm) h c1 c2 = pm_set_n_entries n (unchained pm h c1 c2).
Proof. unfold unchained. now destruct (last c1). Qed.

Lemma unchained_set_calls pm cs h c1 c2 : unchained (pm_set_calls cs pm) h c1 c2 = pm_set_calls cs (unchained pm h c1 c2).
Proof. unfold unchained. now destruct (last c1). Qed.

(** Run a chain of binds, looking through the field updates of the cache. *)
Ltac hruns := cbn [mbind option_bind pm_heap pm_n_entries pm_buckets pm_clock_hand pm_set_n_entries pm_set_calls
                   pm_set_heap pm_set_clock_hand pm_set_buckets].

(** The call a leaving entry makes. *)
Definition call_of (data : Z) (e : MapEntry) : callback :=
  mk_callback data (pme_key e) (pme_keylen e) (pme_contents e) (pme_datalen e).

Lemma settle_run pm a data e :
  pm_replacement_callback pm = true -> is_Some (pm_heap pm !! a) ->
  (pm ← call_replacement (pm_set_n_entries (u64 (pm_n_entries pm - 1)) pm) data (pme_key e) (pme_keylen e)
          (pme_contents e) (pme_datalen e);
   free_entry pm a) = Some (settled pm a (call_of data e)).
Proof. intros Hcb Hs. unfold call_replacement. cbn [pm_replacement_callback pm_set_n_entries]. rewrite Hcb. now apply free_entry_run. Qed.

Lemma lookup_frame (s : MapEntry -> MapEntry) (h h' : list MapEntry) a e :
  s <$> h' = s <$> h -> h !! a = Some e -> exists e', h' !! a = Some e' /\ s e' = s e.
Proof.
  intros E He. assert (E' : (s <$> h') !! a = (s <$> h) !! a) by now rewrite E.
  rewrite !list_lookup_fmap, He in E'. destruct (h' !! a) as [e'|]; [|done]. injection E' as E'. eauto.
Qed.

Lemma chain_next pm l a h c1 c2 e :
  chain_at pm l a h c1 c2 -> pm_heap pm !! a = Some e -> pme_next e = head c2 /\ pme_bucket e = Some h.
Proof.
  intros (_ & Hf & _ & Hc & _) He. apply linked_mid in Hc. unfold field in *. rewrite He in *. naive_solver.
Qed.

Lemma drop_entry_ok pm l1 a l2 h c1 c2 data e :
  cache_ok pm (l1 ++ a :: l2) -> chain_at pm (l1 ++ a :: l2) a h c1 c2 -> pm_replacement_callback pm = true ->
  pm_heap pm !! a = Some e ->
  exists pm', drop_entry pm (link_to (PBucket h) c1) a data = Some pm' /\ left_cache pm pm' l1 a l2 (call_of data e).
Proof.
  intros H Hca Hcb He. destruct (detach_lru_first _ _ _ _ _ _ _ H Hca) as (pm1 & Hrun & Hca1 & E & En & D).
  destruct (lookup_frame _ _ _ _ _ E He) as (e1 & He1 & Ee). destruct (chain_next _ _ _ _ _ _ _ Hca1 He1) as [Hn _].
  pose proof (unchained_constants pm1 h c1 c2) as (Econ & _ & Ecl & _).
  pose proof (heap_of_view _ _ _ _ (det_view _ _ _ _ _ D) He) as Hsome.
  exists (settled (unchained pm1 h c1 c2) a (call_of data e)). split; [|now apply detached_left].
  destruct Hca1 as (Hh & _ & _ & Hc & _).
  assert (Ee' : call_of data e = call_of data e1) by (unfold call_of; unfold no_lru in Ee; injection Ee; congruence).
  unfold drop_entry. rewrite Hrun. hruns. rewrite He1. hruns. rewrite Hn, (store_run _ h c1 a c2) by done.
  hruns. rewrite unchained_set_n, <- (proj1 (proj2 (unchained_constants pm1 h c1 c2))), Ee'.
  apply settle_run; [|done].
  pose proof (det_const _ _ _ _ _ D) as Hcon. unfold constants in Hcon. now injection Hcon as _ _ -> _ _ _.
Qed.
