(* ===== verification/NodeCacheRefine.v ===== *)
(** * The node cache implements its specification

    [rep pm c]: the cache [pm] of the program represents the specification's
    [c], with a replacement callback, which the b-tree always sets. The lemmas run each operation of the program from a represented state
    and show that it does not fault and ends in a state that represents the
    result of the specification's operation. *)

From S2P Require Import Prelude Hash NodeCache NodeCacheRep NodeCacheSpec NodeCacheStep.
From stdpp Require Import list.
Open Scope Z_scope.

Definition shows (h : list MapEntry) : list nat -> list cached -> Prop :=
  Forall2 (fun a x => field view h a = Some x).

Record rep_at (pm : Map) (c : cache) (lb la : list nat) : Prop := {
  rep_ok : cache_ok pm (lb ++ la);
  rep_hand : pm_clock_hand pm = head la;
  rep_before : shows (pm_heap pm) lb (before c);
  rep_after : shows (pm_heap pm) la (after c);
  rep_extra : pm_extra_pme pm = extra c;
  rep_limit : pm_max_entries pm = limit c;
  rep_cb : pm_replacement_callback pm = true
}.

Definition rep (pm : Map) (c : cache) : Prop := exists lb la, rep_at pm c lb la.

Lemma rep_objects pm c lb la : rep_at pm c lb la -> shows (pm_heap pm) (lb ++ la) (objects c).
Proof. intros H. apply Forall2_app; apply H. Qed.

Lemma field_view_ident h a x : field view h a = Some x -> field ident h a = Some (c_id x).
Proof. intros (e & He & <-)%field_inv. unfold field. now rewrite He. Qed.

(** ** Lookup *)

Lemma shows_ids_nodup h l xs :
  NoDup l -> (forall a b, a ∈ l -> b ∈ l -> field ident h a = field ident h b -> a = b) -> shows h l xs ->
  NoDup (c_id <$> xs).
Proof.
  intros Hnd Hu Hs. induction Hs as [|a x l xs Ha Hs IH]; cbn; [constructor|].
  apply NoDup_cons in Hnd as [Hal Hnd]. constructor.
  - intros (y & Ey & Hy)%list_elem_of_fmap. apply list_elem_of_lookup in Hy as [k Hk].
    destruct (Forall2_lookup_r _ _ _ _ _ Hs Hk) as (b & Hb & Hvb). apply Hal.
    assert (Hbl : b ∈ l) by (apply list_elem_of_lookup; eauto).
    replace a with b; [done|]. apply Hu; [by right|by left|].
    rewrite (field_view_ident _ _ _ Ha), (field_view_ident _ _ _ Hvb). now rewrite Ey.
  - apply IH; [done|]. intros b b' Hb Hb'. apply Hu; by right.
Qed.

Lemma rep_nodup pm c lb la : rep_at pm c lb la -> NoDup (c_id <$> objects c).
Proof.
  intros H. eapply shows_ids_nodup; [apply (rep_ok _ _ _ _ H)|apply (ok_entries _ _ (rep_ok _ _ _ _ H))|now apply rep_objects].
Qed.

Lemma lookup_id_elem x l : NoDup (c_id <$> l) -> x ∈ l -> lookup_id (c_id x) l = Some x.
Proof.
  intros Hnd Hx. destruct (lookup_id (c_id x) l) as [y|] eqn:E.
  - apply lookup_id_Some in E as [Hy E]. apply list_elem_of_lookup in Hx as [i Hi], Hy as [j Hj].
    assert (i = j); [|congruence]. eapply NoDup_lookup; [exact Hnd|..]; rewrite list_lookup_fmap.
    + now rewrite Hi.
    + rewrite Hj. cbn. now rewrite E.
  - apply lookup_id_None in E. destruct E. now apply list_elem_of_fmap_2.
Qed.

(** The entry at an address and the object with its identity. *)
Lemma rep_lookup_Some pm c lb la a i :
  rep_at pm c lb la -> a ∈ lb ++ la -> field ident (pm_heap pm) a = Some i ->
  exists e, pm_heap pm !! a = Some e /\ ident e = i /\ lookup_id i (objects c) = Some (view e).
Proof.
  intros H Ha Hi. apply list_elem_of_lookup in Ha as [k Hk].
  destruct (Forall2_lookup_l _ _ _ _ _ (rep_objects _ _ _ _ H) Hk) as (x & Hx & Hv).
  apply field_inv in Hv as (e & He & <-). exists e. split; [done|].
  assert (ident e = i) as <- by (unfold field in Hi; rewrite He in Hi; now injection Hi). split; [done|].
  apply (lookup_id_elem (view e)); [exact (rep_nodup _ _ _ _ H)|]. apply list_elem_of_lookup. eauto.
Qed.

Lemma rep_lookup_None pm c lb la i :
  rep_at pm c lb la -> (forall a, a ∈ lb ++ la -> field ident (pm_heap pm) a <> Some i) -> lookup_id i (objects c) = None.
Proof.
  intros H Hn. apply lookup_id_None. intros (x & -> & Hx)%list_elem_of_fmap.
  apply list_elem_of_lookup in Hx as [k Hk].
  destruct (Forall2_lookup_r _ _ _ _ _ (rep_objects _ _ _ _ H) Hk) as (a & Ha & Hv).
  apply (Hn a); [apply list_elem_of_lookup; eauto|]. now apply field_view_ident.
Qed.

Lemma matches_ident key cguid raw e : matches key cguid raw e = true <-> ident e = (key, cguid, raw).
Proof. unfold matches, ident. rewrite !andb_true_iff, !Z.eqb_eq. split; [intros [[-> ->] ->]; done|now intros [= -> -> ->]]. Qed.

Lemma bucket_total pm l key cguid :
  chains_ok pm l -> exists h, bucket_of pm key cguid = Some h /\ (h < length (pm_buckets pm))%nat.
Proof.
  intros (Hpos & Hlen & _). destruct (bucket_of pm key cguid) as [h|] eqn:E.
  - exists h. split; [done|]. exact (bucket_of_lt _ _ _ _ Hpos Hlen E).
  - unfold bucket_of in E. destruct (Z.eqb_spec (pm_nbuckets pm) 0); [lia|done].
Qed.

(** No match on the chain of the key's bucket is no match in the cache. *)
Lemma chain_complete pm l h (c : list nat) key cguid raw :
  cache_ok pm l -> bucket_of pm key cguid = Some h ->
  (forall a, a ∈ c <-> a ∈ l /\ field pme_bucket (pm_heap pm) a = Some (Some h)) ->
  (forall b eb, b ∈ c -> pm_heap pm !! b = Some eb -> matches key cguid raw eb = false) ->
  forall a, a ∈ l -> field ident (pm_heap pm) a <> Some (key, cguid, raw).
Proof.
  intros H Hb Hin Hno a Ha Hi. destruct (ok_entries _ _ H) as [He _].
  destruct (He a Ha) as (e & h' & Hl & _ & Hb' & Hp). unfold field in Hi. rewrite Hl in Hi.
  apply (inj Some) in Hi. pose proof Hi as [= Hk Hc _]. rewrite Hk, Hc, Hb in Hb'. apply (inj Some) in Hb'. subst h'.
  assert (Hac : a ∈ c). { apply Hin. split; [done|]. unfold field. rewrite Hl. cbn. now rewrite Hp. }
  pose proof (Hno a e Hac Hl) as Hf. apply matches_ident in Hi. congruence.
Qed.

(** What a search by identity found. *)
Definition find_result (pm : Map) (l : list nat) (i : id) (r : ptr) : Prop :=
  match r with
  | Some a => a ∈ l /\ field ident (pm_heap pm) a = Some i
  | None => forall a, a ∈ l -> field ident (pm_heap pm) a <> Some i
  end.

Lemma find_pme_ok pm l key cguid raw :
  cache_ok pm l ->
  exists r h, find_pme pm key 8 raw cguid = Some (r, h) /\ bucket_of pm key cguid = Some h /\
    (h < length (pm_buckets pm))%nat /\ find_result pm l (key, cguid, raw) r.
Proof.
  intros H. destruct (bucket_total _ _ key cguid (ok_chains _ _ H)) as (h & Hb & Hh).
  destruct (ok_chains _ _ H) as (_ & _ & Hch). destruct (Hch h Hh) as (c & Hhd & Hc & Hnd & Hin).
  destruct (walk_found pm (matches key cguid raw) c (chain_fuel pm) Hc) as (r & Hr & Hw);
    [now apply (chain_short _ _ _ _ (ok_lru _ _ H) Hin)|].
  unfold find_pme. rewrite Hb. runs. rewrite Z.eqb_refl. cbn [assert_]. runs. rewrite Hhd. runs. rewrite Hw. runs.
  eexists _, h. split; [done|]. split; [done|]. split; [done|].
  destruct Hr as [c1 a c2 e -> He Ht _|Hno]; cbn.
  - split; [apply Hin, elem_of_app; right; left|]. unfold field. rewrite He. cbn. f_equal. now apply matches_ident.
  - eapply chain_complete; eauto.
Qed.

(** The search that also finds the link to the entry. *)
Lemma walk_pp_ok pm l h key cguid raw :
  cache_ok pm l -> bucket_of pm key cguid = Some h -> (h < length (pm_buckets pm))%nat ->
  (exists a c1 c2, walk_pp (chain_fuel pm) pm (PBucket h) (fun _ e => matches key cguid raw e) = Some (Some (link_to (PBucket h) c1, a)) /\
     chain_at pm l a h c1 c2 /\ a ∈ l /\ field ident (pm_heap pm) a = Some (key, cguid, raw)) \/
  (walk_pp (chain_fuel pm) pm (PBucket h) (fun _ e => matches key cguid raw e) = Some None /\
     forall a, a ∈ l -> field ident (pm_heap pm) a <> Some (key, cguid, raw)).
Proof.
  intros H Hb Hh. destruct (ok_chains _ _ H) as (_ & _ & Hch). destruct (Hch h Hh) as (c & Hhd & Hc & Hnd & Hin).
  destruct (walk_pp_found pm (fun _ e => matches key cguid raw e) c (chain_fuel pm) (PBucket h) Hhd Hc) as (r & Hr & ->);
    [now apply (chain_short _ _ _ _ (ok_lru _ _ H) Hin)|].
  destruct Hr as [c1 a c2 e -> He Ht _|Hno]; [left|right].
  - assert (Hac : a ∈ c1 ++ a :: c2) by (apply elem_of_app; right; left). pose proof Hac as [Hal Hf]%Hin.
    exists a, c1, c2. split; [done|]. split; [now repeat split; try apply Hin|]. split; [done|].
    unfold field. rewrite He. cbn. f_equal. now apply matches_ident.
  - split; [done|]. eapply chain_complete; eauto.
Qed.

(** ** Changes of one object *)

(** An update of an entry that leaves its links and its identity alone. *)
Definition keeps_links (f : MapEntry -> MapEntry) : Prop :=
  forall e, pme_next (f e) = pme_next e /\ pme_next_lru (f e) = pme_next_lru e /\
            pme_prev_lru (f e) = pme_prev_lru e /\ tag (f e) = tag e.

Lemma keeps_bucket f e : keeps_links f -> pme_bucket (f e) = pme_bucket e.
Proof. intros H. destruct (H e) as (_ & _ & _ & Ht). unfold tag in Ht. congruence. Qed.

Lemma cache_ok_alter pm l a f :
  cache_ok pm l -> a ∈ l -> keeps_links f -> cache_ok (pm_set_heap (alter f a (pm_heap pm)) pm) l.
Proof.
  intros H Ha Hf. constructor; try apply H.
  - eapply lru_ok_frame; [apply H|done|done|]. intros b _. split; apply field_alter_same; apply Hf.
  - eapply chains_ok_frame; [apply H|done|done|]. intros b _.
    split; apply field_alter_same; intros e; [apply Hf|now apply keeps_bucket].
  - eapply free_ok_frame; [apply H|done|apply length_alter|]. intros b Hb.
    split; apply field_alter_ne; now intros ->.
  - eapply entries_ok_frame; [apply H|done|]. intros b _. apply field_alter_same, Hf.
  - cbn. rewrite length_alter. apply H.
Qed.

Lemma shows_ext h h' l xs : (forall a, a ∈ l -> field view h' a = field view h a) -> shows h l xs -> shows h' l xs.
Proof.
  intros E Hs. induction Hs as [|a x l xs Ha Hs IH]; constructor.
  - rewrite E by left. done.
  - apply IH. intros b Hb. apply E. by right.
Qed.

Lemma shows_alter h l xs a i f g :
  (forall b, b ∈ l -> field ident h b = Some i -> b = a) -> field ident h a = Some i ->
  (forall e, view (f e) = g (view e)) -> shows h l xs -> shows (alter f a h) l (change i g xs).
Proof.
  intros Hu Ha Hg Hs. induction Hs as [|b x l xs Hb Hs IH]; constructor.
  - unfold has_id. case_bool_decide as Ei.
    + assert (b = a) as ->. { apply Hu; [left|]. rewrite (field_view_ident _ _ _ Hb). now rewrite Ei. }
      rewrite field_alter_eq. apply field_inv in Hb as (e & -> & <-). cbn. now rewrite Hg.
    + rewrite field_alter_ne; [done|]. intros ->. apply Ei. apply field_view_ident in Hb. congruence.
  - apply IH. intros b' Hb'. apply Hu. by right.
Qed.

Lemma rep_alter pm c lb la a i f g :
  rep_at pm c lb la -> a ∈ lb ++ la -> field ident (pm_heap pm) a = Some i -> keeps_links f ->
  (forall e, view (f e) = g (view e)) ->
  rep_at (pm_set_heap (alter f a (pm_heap pm)) pm) (on_lists (change i g) c) lb la.
Proof.
  intros H Ha Hi Hf Hg.
  assert (Hu : forall b, b ∈ lb ++ la -> field ident (pm_heap pm) b = Some i -> b = a).
  { intros b Hb Hbi. destruct (ok_entries _ _ (rep_ok _ _ _ _ H)) as [_ Hu]. apply Hu; [done|done|congruence]. }
  constructor; try apply H.
  - now apply cache_ok_alter; [apply H|..].
  - apply shows_alter; [|done|done|apply H]. intros b Hb. apply Hu, elem_of_app. by left.
  - apply shows_alter; [|done|done|apply H]. intros b Hb. apply Hu, elem_of_app. by right.
Qed.

Lemma change_change i f g l :
  (forall x, c_id (f x) = c_id x) -> change i g (change i f l) = change i (fun x => g (f x)) l.
Proof.
  intros Hf. unfold change. rewrite <- list_fmap_compose. apply list_fmap_ext. intros _ x _. cbn.
  unfold has_id. destruct (bool_decide (c_id x = i)) eqn:E; [now rewrite Hf, E|now rewrite E].
Qed.

Lemma change_same i l : change i (fun x => x) l = l.
Proof. unfold change. induction l as [|x l IH]; cbn; [done|]. rewrite IH. now destruct (has_id i x). Qed.

Lemma on_lists_change2 i f g c :
  (forall x, c_id (f x) = c_id x) ->
  on_lists (change i g) (on_lists (change i f) c) = on_lists (change i (fun x => g (f x))) c.
Proof. intros Hf. unfold on_lists. cbn [before after extra limit]. now rewrite !change_change. Qed.

(** A change of an entry found by its identity: the step of the program and
    the one of the specification. *)
Lemma modify_rep pm c lb la a i f g :
  rep_at pm c lb la -> a ∈ lb ++ la -> field ident (pm_heap pm) a = Some i -> keeps_links f ->
  (forall e, view (f e) = g (view e)) ->
  exists pm', modify pm (Some a) f = Some pm' /\ rep_at pm' (on_lists (change i g) c) lb la /\
    field ident (pm_heap pm') a = Some i /\ pm_calls pm' = pm_calls pm /\
    (forall e, pm_heap pm !! a = Some e -> pm_heap pm' !! a = Some (f e)).
Proof.
  intros H Ha Hi Hf Hg. pose proof Hi as (e & He & Hid)%field_inv. rewrite (modify_Some _ _ _ _ He).
  eexists. split; [done|]. split; [now apply rep_alter|]. split; [|split; [done|]].
  - cbn. rewrite field_alter_same; [done|]. intros e'. destruct (Hf e') as (_ & _ & _ & Ht). unfold tag in Ht. congruence.
  - intros e' He'. cbn. now rewrite list_lookup_alter_eq, He'.
Qed.

Ltac keeps := intros ?; repeat split.

(** ** MapGet, MapIncrRefcnt *)

Lemma MapIncrRefcnt_ok pm c key cguid raw :
  rep pm c ->
  exists pm', MapIncrRefcnt pm key 8 cguid raw =
      Some (pm', if snd (spec_count (fun n => i32 (n + 1)) (key, cguid, raw) c) then 1 else 0) /\
    rep pm' (fst (spec_count (fun n => i32 (n + 1)) (key, cguid, raw) c)) /\ pm_calls pm' = pm_calls pm.
Proof.
  intros (lb & la & H). unfold MapIncrRefcnt, spec_count.
  destruct (find_pme_ok pm _ key cguid raw (rep_ok _ _ _ _ H)) as ([a|] & h & -> & _ & _ & Hr); runs.
  - destruct Hr as [Ha Hi]. destruct (rep_lookup_Some _ _ _ _ _ _ H Ha Hi) as (e & He & _ & ->).
    destruct (modify_rep pm c lb la a _ (fun e => pme_set_refcnt (i32 (pme_refcnt e + 1)) e)
                (fun x => set_count (i32 (c_refcnt x + 1)) x) H Ha Hi) as (pm' & Hm & Hrep & _ & Hcl & _);
      [keeps|done|].
    unfold atomic_inc. rewrite Hm. runs. exists pm'. split; [done|]. split; [|done]. now exists lb, la.
  - rewrite (rep_lookup_None _ _ _ _ _ H Hr). exists pm. split; [done|]. split; [|done]. now exists lb, la.
Qed.

(** The mark of a use. *)
Lemma touch_rep pm c lb la a i :
  rep_at pm c lb la -> a ∈ lb ++ la -> field ident (pm_heap pm) a = Some i ->
  exists pm', (if negb (pm_max_entries pm =? 0) then update_lru pm a else Some pm) = Some pm' /\
    rep_at pm' (on_lists (change i (touch c)) c) lb la /\ field ident (pm_heap pm') a = Some i /\
    pm_calls pm' = pm_calls pm /\ pm_replacement_callback pm' = pm_replacement_callback pm /\
    (forall e, pm_heap pm !! a = Some e -> exists e', pm_heap pm' !! a = Some e' /\ no_ref e' = no_ref e).
Proof.
  intros H Ha Hi. rewrite (rep_limit _ _ _ _ H). unfold touch. destruct (limit c =? 0) eqn:El; cbn [negb].
  - exists pm. split; [done|]. split; [|eauto 6].
    replace (on_lists _ c) with c; [done|]. destruct c as [b0 a0 x0 l0]; unfold on_lists. cbn [before after extra limit].
    now rewrite !change_same.
  - destruct (modify_rep pm c lb la a i (pme_set_ref true) (set_use true) H Ha Hi) as (pm' & Hm & Hrep & Hi' & Hcl & He);
      [keeps|done|]. exists pm'. split; [done|]. split; [done|]. split; [done|]. split; [done|].
    pose proof Hi as (e & Hae & _)%field_inv. split.
    + rewrite (modify_Some _ _ _ _ Hae) in Hm. now injection Hm as <-.
    + intros e' He'. exists (pme_set_ref true e'). split; [now apply He|done].
Qed.

(** MapGet asserts that the references of an ordinary node stay below 10000. *)
Definition countable (i : id) (c : cache) : Prop :=
  forall x, lookup_id i (objects c) = Some x -> Z.land (fst (fst i)) META_LOGICAL_ID_MASK = 0 -> c_refcnt x < 10000.

Lemma MapGet_ok pm c key cguid raw :
  rep pm c -> countable (key, cguid, raw) c ->
  exists pm' a, MapGet pm key 8 cguid raw =
      Some (pm', a, default 0 (c_data <$> snd (spec_get (key, cguid, raw) c)),
            default 0 (c_datalen <$> snd (spec_get (key, cguid, raw) c))) /\
    (a = None <-> snd (spec_get (key, cguid, raw) c) = None) /\
    rep pm' (fst (spec_get (key, cguid, raw) c)) /\ pm_calls pm' = pm_calls pm.
Proof.
  intros (lb & la & H) Hcnt. unfold MapGet, spec_get.
  destruct (find_pme_ok pm _ key cguid raw (rep_ok _ _ _ _ H)) as ([a|] & h & -> & _ & _ & Hr); runs.
  - destruct Hr as [Ha Hi]. destruct (rep_lookup_Some _ _ _ _ _ _ H Ha Hi) as (e & He & _ & Hlk).
    rewrite Hlk. specialize (Hcnt _ Hlk). cbn [fst snd c_refcnt view] in Hcnt. rewrite He. runs.
    assert (Has : negb (Z.land key META_LOGICAL_ID_MASK =? 0) || (pme_refcnt e <? 10000) = true).
    { destruct (Z.eqb_spec (Z.land key META_LOGICAL_ID_MASK) 0) as [E0|]; [|done]. cbn. apply Z.ltb_lt. auto. }
    rewrite Has. cbn [assert_]. runs.
    destruct (modify_rep pm c lb la a _ (fun e => pme_set_refcnt (i32 (pme_refcnt e + 1)) e)
                (fun x => set_count (i32 (c_refcnt x + 1)) x) H Ha Hi) as (pm1 & Hm & Hrep1 & Hi1 & Hcl1 & _);
      [keeps|done|].
    unfold atomic_inc. rewrite Hm. runs.
    destruct (touch_rep _ _ _ _ _ _ Hrep1 Ha Hi1) as (pm2 & Hm2 & Hrep2 & _ & Hcl2 & _).
    rewrite Hm2. runs. exists pm2, (Some a). split; [done|]. split; [done|]. split; [|congruence].
    exists lb, la. rewrite on_lists_change2 in Hrep2 by done. exact Hrep2.
  - rewrite (rep_lookup_None _ _ _ _ _ H Hr). exists pm, None. split; [done|]. split; [done|]. split; [|done]. now exists lb, la.
Qed.

(** ** MapRelease, MapReleaseAll

    When the last reference to a deleted entry goes, the code looks for the
    entry again to remove it, but compares keys with the address of the
    caller's key. Unless that address is itself the key of a cached node, it
    finds nothing and the entry stays. *)
Definition not_a_key (key_addr cguid raw : Z) (c : cache) : Prop :=
  lookup_id (key_addr, cguid, raw) (objects c) = None.

Lemma reap_ok pm c lb la key key_addr cguid raw data :
  rep_at pm c lb la -> not_a_key key_addr cguid raw c -> reap pm key key_addr 8 cguid raw data = Some pm.
Proof.
  intros H Hn. unfold reap. pose proof (rep_ok _ _ _ _ H) as Hok.
  destruct (bucket_total _ _ key cguid (ok_chains _ _ Hok)) as (h & -> & Hh). runs.
  rewrite Z.eqb_refl. cbn [assert_]. runs.
  destruct (ok_chains _ _ Hok) as (_ & _ & Hch). destruct (Hch h Hh) as (ch & Hhd & Hc & Hnd & Hin).
  destruct (walk_pp_found pm (fun _ e => matches key_addr cguid raw e) ch (chain_fuel pm) (PBucket h) Hhd Hc)
    as (r & Hr & ->); [now apply (chain_short _ _ _ _ (ok_lru _ _ Hok) Hin)|].
  destruct Hr as [c1 a c2 e -> He Ht _|Hno]; [|done]. apply matches_ident in Ht.
  destruct (rep_lookup_Some pm c lb la a (key_addr, cguid, raw) H) as (e' & _ & _ & Hlk).
  - apply Hin, elem_of_app. right. left.
  - unfold field. rewrite He. cbn. now rewrite Ht.
  - unfold not_a_key in Hn. congruence.
Qed.

Lemma lookup_change i j f l :
  (forall x, c_id (f x) = c_id x) -> lookup_id j (change i f l) = (fun x => if has_id i x then f x else x) <$> lookup_id j l.
Proof.
  intros Hf. unfold lookup_id, change. induction l as [|x l IH]; cbn; [done|].
  assert (Eh : has_id j (if has_id i x then f x else x) = has_id j x) by (destruct (has_id i x); [|done]; unfold has_id; now rewrite Hf).
  rewrite Eh. now destruct (has_id j x).
Qed.

Lemma objects_on_lists f c : (forall l l', f (l ++ l') = f l ++ f l') -> objects (on_lists f c) = f (objects c).
Proof. intros Hf. unfold objects, on_lists. cbn [before after]. now rewrite Hf. Qed.

Lemma change_app i f l l' : change i f (l ++ l') = change i f l ++ change i f l'.
Proof. apply fmap_app. Qed.

Lemma release_ok count pm c key key_addr cguid raw data :
  rep pm c -> not_a_key key_addr cguid raw c ->
  exists pm', release count pm key key_addr 8 cguid raw data =
      Some (pm', if snd (spec_count count (key, cguid, raw) c) then 1 else 0) /\
    rep pm' (fst (spec_count count (key, cguid, raw) c)) /\ pm_calls pm' = pm_calls pm.
Proof.
  intros (lb & la & H) Hn. unfold release, spec_count.
  destruct (find_pme_ok pm _ key cguid raw (rep_ok _ _ _ _ H)) as ([a|] & h & -> & _ & _ & Hr); runs.
  - destruct Hr as [Ha Hi]. destruct (rep_lookup_Some _ _ _ _ _ _ H Ha Hi) as (e & He & _ & ->).
    destruct (modify_rep pm c lb la a _ (fun e => pme_set_refcnt (count (pme_refcnt e)) e)
                (fun x => set_count (count (c_refcnt x)) x) H Ha Hi) as (pm' & Hm & Hrep & _ & Hcl & Hee); [keeps|done|].
    rewrite Hm. runs. rewrite (Hee e He). runs.
    assert (Hre : reap pm' key key_addr 8 cguid raw data = Some pm').
    { eapply reap_ok; [exact Hrep|]. unfold not_a_key in *. rewrite objects_on_lists by apply change_app.
      rewrite lookup_change by done. now rewrite Hn. }
    rewrite Hre. exists pm'. split; [now destruct (_ && _)|]. split; [|done]. now exists lb, la.
  - rewrite (rep_lookup_None _ _ _ _ _ H Hr). exists pm. split; [done|]. split; [|done]. now exists lb, la.
Qed.

(** ** MapUpdate, MapSet on a cached object *)

Lemma call_rep pm c lb la cs : rep_at pm c lb la -> rep_at (pm_set_calls cs pm) c lb la.
Proof.
  intros H. constructor; try apply H.
  exact (cache_ok_other _ _ (pm_clock_hand pm) (pm_extra_pme pm) cs (pm_NUsedEntries pm) (rep_ok _ _ _ _ H)).
Qed.

(** The callback gets the old object. *)
Lemma optional_call pm c lb la data k kl d n :
  rep_at pm c lb la ->
  exists pm', (if pm_replacement_callback pm then call_replacement pm data k kl d n else Some pm) = Some pm' /\
    rep_at pm' c lb la /\ pm_heap pm' = pm_heap pm /\ pm_max_entries pm' = pm_max_entries pm /\
    pm_calls pm' = mk_callback data k kl d n :: pm_calls pm.
Proof.
  intros H. unfold call_replacement. rewrite (rep_cb _ _ _ _ H). cbn [assert_]. runs.
  eexists. split; [done|]. split; [now apply call_rep|done].
Qed.

Lemma MapUpdate_ok pm c key cguid raw d n data :
  rep pm c ->
  exists pm' a, MapUpdate pm key 8 d n cguid raw data = Some (pm', a) /\
    (a = None <-> snd (spec_set (key, cguid, raw) d n c) = None) /\
    rep pm' (fst (spec_set (key, cguid, raw) d n c)) /\
    pm_calls pm' = match snd (spec_set (key, cguid, raw) d n c) with
                   | Some x => [mk_callback data key 8 (c_data x) (c_datalen x)]
                   | None => []
                   end ++ pm_calls pm.
Proof.
  intros (lb & la & H). unfold MapUpdate, spec_set.
  destruct (find_pme_ok pm _ key cguid raw (rep_ok _ _ _ _ H)) as ([a|] & h & -> & _ & _ & Hr); runs.
  - destruct Hr as [Ha Hi]. destruct (rep_lookup_Some _ _ _ _ _ _ H Ha Hi) as (e & He & Hid & ->). cbn [fst snd].
    destruct (touch_rep _ _ _ _ _ _ H Ha Hi) as (pm1 & -> & Hrep1 & Hi1 & Hcl1 & Hcb1 & Hee). runs.
    destruct (Hee e He) as (e1 & He1 & Ee). rewrite He1. runs.
    destruct (optional_call _ _ _ _ data (pme_key e1) (pme_keylen e1) (pme_contents e1) (pme_datalen e1) Hrep1)
      as (pm2 & -> & Hrep2 & Hh2 & Hm2 & Hcl2). runs. rewrite <- Hh2 in Hi1.
    destruct (modify_rep pm2 _ lb la a _ (set_data d n) (set_object d n) Hrep2 Ha Hi1)
      as (pm3 & -> & Hrep3 & _ & Hcl3 & _); [keeps|done|]. runs.
    exists pm3, (Some a). split; [done|]. split; [done|]. split.
    + exists lb, la. rewrite on_lists_change2 in Hrep3 by (intros x; unfold touch; now destruct (limit c =? 0)).
      replace (on_lists _ c) with (on_lists (change (key, cguid, raw) (fun x => set_object d n (touch c x))) c); [done|].
      unfold touch. now destruct (limit c =? 0).
    + rewrite Hcl3, Hcl2, Hcl1. cbn. f_equal.
      destruct (ok_entries _ _ (rep_ok _ _ _ _ H)) as [Hent _]. destruct (Hent a Ha) as (e' & _ & He' & Hkl & _).
      rewrite He in He'. injection He' as <-. unfold no_ref in Ee. injection Ee as Ed Er Erc Ekl Edl Ecg Ek Ec _.
      unfold ident in Hid. injection Hid as Hk _ _. congruence.
  - rewrite (rep_lookup_None _ _ _ _ _ H Hr). exists pm, None. split; [done|]. split; [done|]. split; [|done]. now exists lb, la.
Qed.

(** MapSet on an object that is cached; otherwise it adds the object, below. *)
Lemma MapSet_cached_ok pm c key cguid raw d n data x :
  rep pm c -> lookup_id (key, cguid, raw) (objects c) = Some x ->
  exists pm' a, MapSet pm key 8 d n cguid raw data = Some (pm', Some a, c_data x, c_datalen x) /\
    rep pm' (fst (spec_set (key, cguid, raw) d n c)) /\
    pm_calls pm' = mk_callback data 0 0 (c_data x) (c_datalen x) :: pm_calls pm.
Proof.
  intros (lb & la & H) Hx. unfold MapSet, spec_set. rewrite Hx. cbn [fst].
  destruct (find_pme_ok pm _ key cguid raw (rep_ok _ _ _ _ H)) as ([a|] & h & -> & _ & _ & Hr); runs.
  2: { rewrite (rep_lookup_None _ _ _ _ _ H Hr) in Hx. done. }
  destruct Hr as [Ha Hi]. destruct (rep_lookup_Some _ _ _ _ _ _ H Ha Hi) as (e & He & Hid & Hlk).
  rewrite Hx in Hlk. injection Hlk as ->. rewrite He. runs.
  destruct (optional_call _ _ _ _ data 0 0 (pme_contents e) (pme_datalen e) H) as (pm1 & -> & Hrep1 & Hh1 & Hm1 & Hcl1).
  runs. rewrite <- Hh1 in Hi.
  destruct (modify_rep pm1 _ lb la a _ (set_data d n) (set_object d n) Hrep1 Ha Hi)
    as (pm2 & -> & Hrep2 & Hi2 & Hcl2 & _); [keeps|done|]. runs.
  destruct (touch_rep _ _ _ _ _ _ Hrep2 Ha Hi2) as (pm3 & -> & Hrep3 & _ & Hcl3 & _). runs.
  exists pm3, a. split; [done|]. split; [|now rewrite Hcl3, Hcl2, Hcl1].
  exists lb, la. rewrite on_lists_change2 in Hrep3 by done. exact Hrep3.
Qed.

(** ** An object leaves *)

Lemma without_app i l l' : without i (l ++ l') = without i l ++ without i l'.
Proof. apply List.filter_app. Qed.

Lemma without_none i l : i ∉ c_id <$> l -> without i l = l.
Proof.
  unfold without. induction l as [|x l IH]; cbn; [done|]. intros Hi. apply not_elem_of_cons in Hi as [Hx Hi].
  assert (has_id i x = false) as -> by now apply bool_decide_eq_false_2. cbn. now rewrite IH.
Qed.

Lemma without_middle x p q : NoDup (c_id <$> p ++ x :: q) -> without (c_id x) (p ++ x :: q) = p ++ q.
Proof.
  intros Hnd. rewrite fmap_app in Hnd. cbn in Hnd. rewrite <- Permutation_middle in Hnd.
  apply NoDup_cons in Hnd as [Hx _]. apply not_elem_of_app in Hx as [Hp Hq].
  rewrite without_app. unfold without at 2. cbn.
  assert (has_id (c_id x) x = true) as -> by now apply bool_decide_eq_true_2. cbn.
  change (List.filter _ q) with (without (c_id x) q). now rewrite !without_none.
Qed.

(** Where the list is cut: the entry is before the hand or after it. *)
Lemma cut_cases (lb la l1 l2 : list nat) a :
  lb ++ la = l1 ++ a :: l2 ->
  (exists m, lb = l1 ++ a :: m /\ l2 = m ++ la) \/ (exists m, la = m ++ a :: l2 /\ l1 = lb ++ m).
Proof.
  intros E. apply app_eq_inv in E as [(k & -> & Ek)|(k & -> & ->)].
  - destruct k as [|b k].
    + right. exists []. rewrite !app_nil_r. now split.
    + left. cbn in Ek. injection Ek as <- ->. now exists k.
  - right. now exists k.
Qed.

Lemma rep_left pm pm' c lb la l1 a l2 cb e :
  rep_at pm c lb la -> lb ++ la = l1 ++ a :: l2 -> pm_heap pm !! a = Some e -> left_cache pm pm' l1 a l2 cb ->
  rep pm' (on_lists (without (ident e)) c).
Proof.
  intros H El He L. pose proof (rep_nodup _ _ _ _ H) as Hids. pose proof (ok_nodup _ _ (rep_ok _ _ _ _ H)) as Hnd.
  pose proof (left_const _ _ _ _ _ _ L) as Hcon. unfold constants in Hcon. injection Hcon as _ Hmax Hcb Hex _ _.
  pose proof (rep_before _ _ _ _ H) as Hsb. pose proof (rep_after _ _ _ _ H) as Hsa.
  pose proof (left_hand _ _ _ _ _ _ L) as Hhand. rewrite (rep_hand _ _ _ _ H) in Hhand.
  pose proof (left_view _ _ _ _ _ _ L) as Hv. pose proof (left_ok _ _ _ _ _ _ L) as Hok.
  unfold objects in Hids.
  destruct (cut_cases _ _ _ _ _ El) as [(m & -> & ->)|(m & -> & ->)].
  - (* before the hand *)
    apply Forall2_app_inv_l in Hsb as (p & xq & Hp & Hxq & Eb). inversion Hxq as [|? x ? q Hx Hq]; subst xq.
    unfold field in Hx. rewrite He in Hx. injection Hx as <-.
    exists (l1 ++ m), la. rewrite Eb in Hids. rewrite <- app_assoc in Hids. cbn in Hids.
    assert (Ew : without (ident e) (after c) = after c).
    { apply without_none. rewrite fmap_app in Hids. cbn in Hids. rewrite <- Permutation_middle in Hids.
      apply NoDup_cons in Hids as [Hn _]. rewrite fmap_app, !elem_of_app in Hn. naive_solver. }
    constructor; cbn [before after extra limit on_lists].
    + now rewrite <- app_assoc.
    + rewrite Hhand, decide_False; [done|]. intros Ehd. rewrite El, <- Permutation_middle in Hnd.
      apply NoDup_cons in Hnd as [Hn _]. apply Hn. rewrite !elem_of_app. right. right.
      destruct la; [done|]. injection Ehd as ->. left.
    + rewrite Eb, (without_middle (view e)); [|rewrite fmap_app; cbn; rewrite fmap_app in Hids; cbn in Hids;
        rewrite fmap_app, app_comm_cons, app_assoc in Hids; now apply NoDup_app in Hids as (? & _ & _)].
      apply (shows_ext (pm_heap pm)); [|now apply Forall2_app]. intros b Hb. apply Hv. rewrite app_assoc, elem_of_app. by left.
    + rewrite Ew. eapply shows_ext; [|exact Hsa]. intros b Hb. apply Hv. rewrite !elem_of_app. by right; right.
    + rewrite Hex. apply H.
    + rewrite Hmax. apply H.
    + rewrite Hcb. apply H.
  - (* from the hand on *)
    apply Forall2_app_inv_l in Hsa as (p & xq & Hp & Hxq & Eb). inversion Hxq as [|? x ? q Hx Hq]; subst xq.
    unfold field in Hx. rewrite He in Hx. injection Hx as <-.
    exists lb, (m ++ l2). rewrite Eb in Hids. rewrite app_assoc in Hids.
    assert (Hnd2 : NoDup (c_id <$> p ++ view e :: q)).
    { rewrite <- app_assoc, fmap_app in Hids. now apply NoDup_app in Hids as (_ & _ & ?). }
    assert (Ew : without (ident e) (before c) = before c).
    { apply without_none. rewrite fmap_app in Hids. cbn in Hids. rewrite <- Permutation_middle in Hids.
      apply NoDup_cons in Hids as [Hn _]. rewrite fmap_app, !elem_of_app in Hn. naive_solver. }
    constructor; cbn [before after extra limit on_lists].
    + now rewrite app_assoc.
    + rewrite Hhand. destruct m as [|b m]; cbn [head app]; [now rewrite decide_True|]. rewrite decide_False; [done|].
      intros [= ->]. rewrite El, <- Permutation_middle in Hnd. apply NoDup_cons in Hnd as [Hn _]. apply Hn.
      rewrite !elem_of_app. left. right. left.
    + rewrite Ew. eapply shows_ext; [|exact Hsb]. intros b Hb. apply Hv. rewrite !elem_of_app. by left; left.
    + rewrite Eb, (without_middle (view e)) by done.
      apply (shows_ext (pm_heap pm)); [|now apply Forall2_app]. intros b Hb. apply Hv. rewrite <- app_assoc, elem_of_app. by right.
    + rewrite Hex. apply H.
    + rewrite Hmax. apply H.
    + rewrite Hcb. apply H.
Qed.

(** ** MapDelete *)

Lemma without_change i f l : (forall x, c_id (f x) = c_id x) -> without i (change i f l) = without i l.
Proof.
  intros Hf. unfold without, change. induction l as [|x l IH]; cbn; [done|].
  destruct (has_id i x) eqn:E.
  - assert (has_id i (f x) = true) as -> by (unfold has_id in *; now rewrite Hf). exact IH.
  - rewrite E. cbn. now rewrite IH.
Qed.

Lemma MapDelete_ok pm c key cguid raw data :
  rep pm c ->
  exists pm', MapDelete pm key 8 cguid raw data =
      Some (pm', if snd (spec_delete (key, cguid, raw) c) then 0 else 1) /\
    rep pm' (fst (fst (spec_delete (key, cguid, raw) c))) /\
    pm_calls pm' = match snd (fst (spec_delete (key, cguid, raw) c)) with
                   | Some x => [mk_callback data key 8 (c_data x) (c_datalen x)]
                   | None => []
                   end ++ pm_calls pm.
Proof.
  intros (lb & la & H). unfold MapDelete, spec_delete. pose proof (rep_ok _ _ _ _ H) as Hok.
  destruct (bucket_total _ _ key cguid (ok_chains _ _ Hok)) as (h & Hb & Hh). rewrite Hb. runs.
  rewrite Z.eqb_refl. cbn [assert_]. runs.
  destruct (walk_pp_ok _ _ h key cguid raw Hok Hb Hh) as [(a & c1 & c2 & -> & Hca & Ha & Hi)|[-> Hno]]; runs.
  2: { rewrite (rep_lookup_None _ _ _ _ _ H Hno). exists pm. split; [done|]. split; [|done]. now exists lb, la. }
  destruct (rep_lookup_Some _ _ _ _ _ _ H Ha Hi) as (e & He & Hid & ->). cbn [c_refcnt view].
  pose (f := fun e => pme_set_refcnt (i32 (pme_refcnt e - 1)) e).
  destruct (modify_rep pm c lb la a _ f (fun x => set_count (i32 (c_refcnt x - 1)) x) H Ha Hi)
    as (pm1 & Hm & Hrep & Hi1 & Hcl & Hee); [keeps|done|]. unfold atomic_dec. fold f. rewrite Hm. runs.
  rewrite (Hee e He). runs. cbn [pme_refcnt f pme_set_refcnt].
  rewrite (modify_Some _ _ _ _ He) in Hm. injection Hm as <-.
  destruct (i32 (pme_refcnt e - 1) =? 0).
  - pose proof Ha as (l1 & l2 & El)%list_elem_of_split. pose proof (rep_ok _ _ _ _ Hrep) as Hok1. rewrite El in Hok1, Hca.
    destruct (drop_entry_ok _ l1 a l2 h c1 c2 data (f e) Hok1) as (pm' & -> & L).
    + apply (chain_at_frame pm); [done|..|done]; intros b; now apply field_alter_same.
    + apply (rep_cb _ _ _ _ H).
    + cbn. now rewrite list_lookup_alter_eq, He.
    + runs. exists pm'. split; [done|]. split.
      * pose proof (rep_left _ _ _ _ _ _ _ _ _ _ Hrep El (Hee e He) L) as Hl. change (ident (f e)) with (ident e) in Hl.
        rewrite Hid in Hl. unfold on_lists in *. cbn [before after extra limit] in Hl.
        now rewrite !without_change in Hl by done.
      * rewrite (left_calls _ _ _ _ _ _ L). cbn. unfold call_of. cbn.
        destruct (ok_entries _ _ Hok) as [Hent _]. destruct (Hent a Ha) as (e' & _ & He' & Hkl & _).
        rewrite He in He'. injection He' as <-. unfold ident in Hid. injection Hid as Hk _ _. now rewrite Hk, Hkl.
  - destruct (modify_rep _ _ lb la a _ (pme_set_deleted true) set_deleted Hrep Ha Hi1)
      as (pm2 & -> & Hrep2 & _ & Hcl2 & _); [keeps|done|]. runs.
    exists pm2. split; [done|]. split; [|now rewrite Hcl2]. exists lb, la.
    rewrite on_lists_change2 in Hrep2 by done. exact Hrep2.
Qed.
