(* ===== verification/NodeCacheClock.v ===== *)
(** * The node cache: replacement

    The clock runs over the list of entries as a ring, from the hand to the
    end and on from the head. [try_replace_lru] refines [replace_one], and
    [replace_lru] refines [replace]: both loops end, within the fuel given. *)

From S2P Require Import Prelude Hash NodeCache NodeCacheRep NodeCacheSpec NodeCacheStep NodeCacheRefine.
From stdpp Require Import list.
Open Scope Z_scope.

(** ** The ring *)

Lemma ring_succ pm lb la o1 x o2 :
  lru_ok pm (lb ++ la) -> la ++ lb = o1 ++ x :: o2 ->
  exists e, pm_heap pm !! x = Some e /\
    match pme_next_lru e with None => pm_lru_head pm | n => n end = head (o2 ++ la ++ lb).
Proof.
  intros H E. destruct (cut_cases _ _ _ _ _ E) as [(m & -> & ->)|(m & -> & ->)].
  - rewrite app_assoc in H. destruct (lru_links _ _ _ _ H) as (e & He & Hn & _). exists e. split; [done|].
    rewrite Hn, (lru_hd _ _ H). destruct m as [|y m]; [|done]. now destruct lb, o1.
  - rewrite <- app_assoc in H. cbn in H. destruct (lru_links _ _ _ _ H) as (e & He & Hn & _). exists e. split; [done|].
    rewrite Hn, (lru_hd _ _ H). destruct o2; [|done]. now destruct la, m.
Qed.

Definition unref_all (ps : list nat) (h : list MapEntry) : list MapEntry :=
  foldl (fun h a => alter (pme_set_ref false) a h) h ps.

Definition busy_at (h : list MapEntry) (a : nat) : Prop := exists e, h !! a = Some e /\ busy (view e) = true.
Definition idle_at (h : list MapEntry) (a : nat) : Prop := exists e, h !! a = Some e /\ busy (view e) = false.

Lemma lru_ok_alter pm l a f :
  lru_ok pm l -> keeps_links f -> lru_ok (pm_set_heap (alter f a (pm_heap pm)) pm) l.
Proof.
  intros H Hf. eapply lru_ok_frame; [exact H|done|done|]. intros b _. split; apply field_alter_same; apply Hf.
Qed.

(** The loop: it clears the use bit of the entries [ps] it passes, all of them
    busy, and stops at the first that is not, or when it is back at the start. *)
Lemma clock_run lb la start : forall o2 o1 x fuel pm,
  lru_ok pm (lb ++ la) -> la ++ lb = o1 ++ x :: o2 -> head (la ++ lb) = Some start -> NoDup (la ++ lb) ->
  (length o2 < fuel)%nat ->
  exists ps rest, x :: o2 = ps ++ rest /\
    clock fuel pm x start = Some (pm_set_heap (unref_all ps (pm_heap pm)) pm, head rest) /\
    Forall (busy_at (pm_heap pm)) ps /\ Forall (idle_at (pm_heap pm)) (take 1 rest).
Proof.
  induction o2 as [|y o2 IH]; intros o1 x fuel pm H E Hs Hnd Hf; (destruct fuel as [|fuel]; [cbn in Hf; lia|]).
  all: destruct (ring_succ _ _ _ _ _ _ H E) as (e & He & Hn); cbn [clock]; rewrite He; runs.
  all: destruct (pme_ref e || negb (pme_refcnt e =? 0)) eqn:Eb.
  2, 4: exists []; eexists; (split; [done|]); (split; [now destruct pm|]); (split; [constructor|]);
        cbn; constructor; [now exists e|constructor].
  all: rewrite (modify_Some _ _ _ _ He); runs; cbn [pm_lru_head pm_set_heap]; rewrite Hn; cbn [app].
  - rewrite Hs. runs. rewrite decide_True by done. exists [x], []. split; [done|]. split; [done|].
    split; [|constructor]. constructor; [now exists e|constructor].
  - cbn [head]. runs. rewrite E in Hs, Hnd. rewrite decide_False.
    2: { intros ->. destruct o1 as [|z o1]; cbn in Hs; injection Hs as ->; cbn in Hnd; apply NoDup_cons in Hnd as [Hn' _];
         apply Hn'; [left|]. rewrite elem_of_app. right. right. left. }
    destruct (IH (o1 ++ [x]) y fuel (pm_set_heap (alter (pme_set_ref false) x (pm_heap pm)) pm))
      as (ps & rest & Er & Hc & Hb & Hi).
    + apply lru_ok_alter; [done|keeps].
    + now rewrite <- app_assoc.
    + now rewrite E.
    + now rewrite E.
    + cbn in Hf. lia.
    + assert (Hx : x ∉ ps ++ rest).
      { rewrite <- Er. apply NoDup_app in Hnd as (_ & _ & Hnd). now apply NoDup_cons in Hnd as [? _]. }
      apply not_elem_of_app in Hx as [Hx1 Hx2].
      exists (x :: ps), rest. split; [cbn; now rewrite Er|]. split; [now rewrite Hc|]. split.
      * constructor; [now exists e|]. rewrite Forall_forall in Hb |- *. intros z Hz.
        destruct (Hb z Hz) as (ez & Hez & Hbz). exists ez. cbn in Hez.
        rewrite list_lookup_alter_ne in Hez by (intros ->; done). done.
      * destruct rest as [|v rest]; [constructor|]. apply Forall_cons in Hi as [(ev & Hv & Hbv) _]. constructor; [|constructor].
        exists ev. cbn in Hv. rewrite list_lookup_alter_ne in Hv; [done|]. intros ->. apply Hx2. left.
Qed.

Lemma cache_ok_unref l ps : forall pm,
  cache_ok pm l -> (forall a, a ∈ ps -> a ∈ l) -> cache_ok (pm_set_heap (unref_all ps (pm_heap pm)) pm) l.
Proof.
  induction ps as [|a ps IH]; intros pm H Hin; cbn; [now destruct pm|].
  refine (IH (pm_set_heap (alter (pme_set_ref false) a (pm_heap pm)) pm) _ _).
  - apply cache_ok_alter; [done|apply Hin; left|keeps].
  - intros b Hb. apply Hin. by right.
Qed.

Lemma view_unref ps : forall h a,
  field view (unref_all ps h) a = if decide (a ∈ ps) then set_use false <$> field view h a else field view h a.
Proof.
  induction ps as [|b ps IH]; intros h a; [done|].
  change (unref_all (b :: ps) h) with (unref_all ps (alter (pme_set_ref false) b h)). rewrite IH.
  destruct (decide (b = a)) as [->|Hne].
  - rewrite field_alter_eq. rewrite (decide_True _ _ (list_elem_of_here a ps)).
    unfold field. destruct (decide (a ∈ ps)); now destruct (h !! a).
  - rewrite field_alter_ne by done. destruct (decide (a ∈ ps)) as [Hp|Hp].
    + now rewrite decide_True by by right.
    + rewrite decide_False; [done|]. intros [->|?]%elem_of_cons; done.
Qed.

Lemma shows_unref ps h l xs : (forall a, a ∈ l -> a ∈ ps) -> shows h l xs -> shows (unref_all ps h) l (set_use false <$> xs).
Proof.
  intros Hin Hs. induction Hs as [|a x l xs Ha Hs IH]; constructor.
  - rewrite view_unref, decide_True by (apply Hin; left). now rewrite Ha.
  - apply IH. intros b Hb. apply Hin. by right.
Qed.

Lemma shows_unref_other ps h l xs : (forall a, a ∈ l -> a ∉ ps) -> shows h l xs -> shows (unref_all ps h) l xs.
Proof. intros Hin. apply shows_ext. intros a Ha. rewrite view_unref, decide_False; auto. Qed.

Lemma shows_busy h l xs : Forall (busy_at h) l -> shows h l xs -> Forall (fun x => busy x = true) xs.
Proof.
  intros Hb Hs. induction Hs as [|a x l xs Ha Hs IH]; [constructor|]. apply Forall_cons in Hb as [(e & He & Hbe) Hb].
  unfold field in Ha. rewrite He in Ha. injection Ha as <-. constructor; auto.
Qed.

(** ** The victim leaves *)

Lemma cache_ok_hand pm l hand : cache_ok pm l -> cache_ok (pm_set_clock_hand hand pm) l.
Proof.
  intros H. exact (cache_ok_other _ _ hand (pm_extra_pme pm) (pm_calls pm) (pm_NUsedEntries pm) H).
Qed.

Lemma walk_pp_self pm l a :
  cache_ok pm l -> a ∈ l ->
  exists h c1 c2, field pme_bucket (pm_heap pm) a = Some (Some h) /\ chain_at pm l a h c1 c2 /\
    walk_pp (chain_fuel pm) pm (PBucket h) (fun b _ => bool_decide (b = a)) = Some (Some (link_to (PBucket h) c1, a)).
Proof.
  intros H Ha. destruct (chain_of _ _ _ H Ha) as (h & c1 & c2 & Hh & Hf & Hhd & Hc & Hnd & Hin).
  destruct (walk_pp_found pm (fun b _ => bool_decide (b = a)) _ (chain_fuel pm) (PBucket h) Hhd Hc) as (r & Hr & Hw);
    [now apply (chain_short _ _ _ _ (ok_lru _ _ H) Hin)|].
  assert (Hac : a ∈ c1 ++ a :: c2) by (apply elem_of_app; right; left).
  inversion Hr as [d1 b d2 e Ed He Ht _|Hno]; subst r.
  - apply bool_decide_eq_true in Ht as ->. exists h, d1, d2. split; [done|]. split; [|done].
    rewrite Ed in *. done.
  - destruct (lru_is_Some _ _ _ (ok_lru _ _ H) Ha) as [e He].
    specialize (Hno a e Hac He). now rewrite bool_decide_eq_true_2 in Hno.
Qed.

Lemma call_of_view data a pm pm' e e' :
  (forall b, field view (pm_heap pm') b = field view (pm_heap pm) b) ->
  (forall b, field pme_keylen (pm_heap pm') b = field pme_keylen (pm_heap pm) b) ->
  pm_heap pm !! a = Some e -> pm_heap pm' !! a = Some e' -> call_of data e' = call_of data e.
Proof.
  intros Hv Hk He He'. specialize (Hv a). specialize (Hk a). unfold field in *. rewrite He, He' in *.
  cbn in *. unfold view, ident in Hv. unfold call_of. congruence.
Qed.

Lemma evict_ok pm l1 a l2 data e :
  cache_ok pm (l1 ++ a :: l2) -> pm_replacement_callback pm = true -> pm_heap pm !! a = Some e ->
  exists pm', evict pm a data = Some (pm', true) /\
    left_cache (pm_set_clock_hand (head l2) pm) pm' l1 a l2 (call_of data e) /\ pm_clock_hand pm' = head l2.
Proof.
  intros H Hcb He. set (pm1 := pm_set_clock_hand (head l2) pm).
  assert (H1 : cache_ok pm1 (l1 ++ a :: l2)) by now apply cache_ok_hand.
  destruct (walk_pp_self pm1 _ a H1) as (h & c1 & c2 & Hf & Hca & Hw); [apply elem_of_app; right; left|].
  destruct (detach_chain_first _ _ _ _ _ _ _ H1 Hca) as (pm2 & Hrun & D).
  pose proof (detached_left _ _ _ _ _ (call_of data e) H1 D) as L.
  destruct (heap_of_view pm1 pm2 a e (det_view _ _ _ _ _ D) He) as [e2 He2].
  exists (settled pm2 a (call_of data e)). split; [|split; [exact L|]].
  - unfold evict. rewrite He. runs. destruct (lru_links _ _ _ _ (ok_lru _ _ H)) as (e' & He' & Hn & _).
    rewrite He in He'. injection He' as <-. rewrite Hn. fold pm1.
    destruct (chain_next _ _ _ _ _ _ e Hca He) as [Hnx ->]. runs. rewrite Hw. runs. cbn [fst]. rewrite Hnx.
    destruct Hca as (Hh & _ & _ & Hc & _). rewrite (store_run _ h c1 a c2 Hc Hh). runs. rewrite Hrun. runs.
    hruns. rewrite He2. hruns.
    assert (Hcb2 : pm_replacement_callback pm2 = true).
    { pose proof (det_const _ _ _ _ _ D) as Hcon. unfold constants in Hcon. now injection Hcon as _ _ -> _ _ _. }
    pose proof (settle_run pm2 a data e2 Hcb2 (ex_intro _ _ He2)) as Hset.
    rewrite (call_of_view data a pm1 pm2 e e2) in Hset by (try apply D; done).
    unfold mbind, option_bind in *. destruct (call_replacement _ _ _ _ _ _) as [pm3|]; [|done]. now rewrite Hset.
  - rewrite (left_hand _ _ _ _ _ _ L). cbn [pm_clock_hand pm1 pm_set_clock_hand]. rewrite decide_False; [done|].
    intros Ehd. pose proof (ok_nodup _ _ H) as Hnd. apply NoDup_app in Hnd as (_ & _ & Hnd).
    apply NoDup_cons in Hnd as [Hn _]. apply Hn. destruct l2; [done|]. injection Ehd as ->. left.
Qed.

(** ** One replacement *)

(** The call of the callback for an object that leaves. *)
Definition call_for (data : Z) (x : cached) : callback :=
  mk_callback data (fst (fst (c_id x))) 8 (c_data x) (c_datalen x).

Lemma call_of_entry pm l a e data :
  entries_ok pm l -> a ∈ l -> pm_heap pm !! a = Some e -> call_of data e = call_for data (view e).
Proof.
  intros [Hent _] Ha He. destruct (Hent a Ha) as (e' & _ & He' & Hkl & _). rewrite He in He'. injection He' as <-.
  unfold call_of, call_for. cbn. now rewrite Hkl.
Qed.

(** The specification's step when the clock stopped at [v]: the entries before
    it from the hand on were all busy. *)
Lemma replace_one_at pm c lb la ps v r ev :
  rep_at pm c lb la -> la ++ lb = ps ++ v :: r -> Forall (busy_at (pm_heap pm)) ps -> pm_heap pm !! v = Some ev ->
  busy (view ev) = false ->
  exists l1 l2 b a, lb ++ la = l1 ++ v :: l2 /\ replace_one c = (mk_cache b a (extra c) (limit c), Some (view ev)) /\
    shows (unref_all ps (pm_heap pm)) l1 b /\ shows (unref_all ps (pm_heap pm)) l2 a.
Proof.
  intros H E Hb Hv Hidle. pose proof (rep_before _ _ _ _ H) as Hsb. pose proof (rep_after _ _ _ _ H) as Hsa.
  pose proof (ok_nodup _ _ (rep_ok _ _ _ _ H)) as Hnd. rewrite Permutation_app_comm in Hnd.
  assert (Hdis : forall a, a ∈ r -> a ∉ ps).
  { intros a Har Hap. rewrite E in Hnd. apply NoDup_app in Hnd as (_ & Hd & _). apply (Hd a Hap). by right. }
  destruct (cut_cases _ _ _ _ _ E) as [(m & -> & ->)|(m & -> & ->)]; unfold replace_one.
  - apply Forall2_app_inv_l in Hsa as (p & xq & Hp & Hxq & Ea). inversion Hxq as [|? x ? q Hx Hq]; subst xq.
    unfold field in Hx. rewrite Hv in Hx. injection Hx as <-.
    rewrite Ea, (sweep_at _ _ _ (shows_busy _ _ _ Hb Hp) Hidle).
    eexists (lb ++ ps), m, _, _. split; [now rewrite <- app_assoc|]. split; [done|]. split.
    + apply Forall2_app; [|now apply shows_unref]. apply shows_unref_other; [|done].
      intros a Hal. apply Hdis. rewrite elem_of_app. by right.
    + apply shows_unref_other; [|done]. intros a Hal. apply Hdis. rewrite elem_of_app. by left.
  - apply Forall2_app_inv_l in Hsb as (p & xq & Hp & Hxq & Eb). inversion Hxq as [|? x ? q Hx Hq]; subst xq.
    unfold field in Hx. rewrite Hv in Hx. injection Hx as <-. apply Forall_app in Hb as [Hb1 Hb2].
    rewrite (sweep_all _ (shows_busy _ _ _ Hb1 Hsa)), Eb, (sweep_at _ _ _ (shows_busy _ _ _ Hb2 Hp) Hidle).
    eexists m, (r ++ la), _, _. split; [now rewrite <- app_assoc|]. split; [done|]. split.
    + apply shows_unref; [|done]. intros a Hal. rewrite elem_of_app. by right.
    + apply Forall2_app; [now apply shows_unref_other|]. apply shows_unref; [|done].
      intros a Hal. rewrite elem_of_app. by left.
Qed.

Lemma try_replace_ok pm c data :
  rep pm c -> objects c <> [] ->
  exists pm', try_replace_lru pm data = Some (pm', bool_decide (is_Some (snd (replace_one c)))) /\
    rep pm' (fst (replace_one c)) /\
    pm_calls pm' = match snd (replace_one c) with Some x => [call_for data x] | None => [] end ++ pm_calls pm.
Proof.
  intros (lb & la & H) Hne. pose proof (rep_ok _ _ _ _ H) as Hok. pose proof (ok_nodup _ _ Hok) as Hnd.
  assert (exists start o2, la ++ lb = start :: o2) as (start & o2 & Eo).
  { destruct (la ++ lb) as [|s o] eqn:E; [|eauto]. apply app_nil in E as [-> ->].
    pose proof (Forall2_length _ _ _ (rep_objects _ _ _ _ H)) as Hl. cbn in Hl.
    destruct (objects c); [done|discriminate Hl]. }
  unfold try_replace_lru.
  assert (Hst : match pm_clock_hand pm with None => pm_lru_head pm | h => h end = Some start).
  { rewrite (rep_hand _ _ _ _ H), (lru_hd _ _ (ok_lru _ _ Hok)). destruct la; cbn in *; [|now injection Eo as ->].
    rewrite app_nil_r. now rewrite Eo. }
  rewrite Hst. runs. rewrite Permutation_app_comm in Hnd.
  destruct (clock_run lb la start o2 [] start (chain_fuel pm) pm (ok_lru _ _ Hok) Eo) as (ps & rest & Er & Hck & Hb & Hi).
  - now rewrite Eo.
  - done.
  - assert (Hl : (length (start :: o2) <= length (pm_heap pm))%nat); [|unfold chain_fuel; cbn in Hl; lia].
    rewrite <- Eo. apply nodup_bound; [done|]. intros a Ha. apply (in_heap _ _ _ (ok_lru _ _ Hok)).
    rewrite elem_of_app in *. naive_solver.
  - rewrite Hck. runs. rewrite <- Eo in Er.
    assert (Hsub : forall a, a ∈ ps -> a ∈ lb ++ la).
    { intros a Ha. assert (Hal : a ∈ la ++ lb) by (rewrite Er, elem_of_app; by left). rewrite elem_of_app in *. naive_solver. }
    pose proof (cache_ok_unref _ _ pm Hok Hsub) as Hok1.
    assert (Hlen : length (unref_all ps (pm_heap pm)) = length (pm_heap pm)).
    { clear. generalize (pm_heap pm). induction ps as [|a ps IH]; intros h; [done|]. etransitivity; [apply IH|apply length_alter]. }
    destruct rest as [|v r]; cbn [head].
    + rewrite app_nil_r in Er. subst ps. apply Forall_app in Hb as [Hb1 Hb2].
      unfold replace_one. rewrite (sweep_all _ (shows_busy _ _ _ Hb1 (rep_after _ _ _ _ H))),
        (sweep_all _ (shows_busy _ _ _ Hb2 (rep_before _ _ _ _ H))). cbn [fst snd].
      eexists. split; [done|]. split; [|done]. exists lb, la. constructor; try apply H; [done|..].
      * apply shows_unref; [|apply H]. intros a Ha. rewrite elem_of_app. by right.
      * apply shows_unref; [|apply H]. intros a Ha. rewrite elem_of_app. by left.
    + apply Forall_cons in Hi as [(ev & Hv & Hidle) _].
      destruct (replace_one_at _ _ _ _ _ _ _ _ H Er Hb Hv Hidle) as (l1 & l2 & b & a & El & -> & Hs1 & Hs2). cbn [fst snd].
      rewrite El in Hok1, Hok.
      assert (exists e1, unref_all ps (pm_heap pm) !! v = Some e1) as [e1 He1].
      { apply lookup_lt_is_Some. rewrite Hlen. now apply lookup_lt_Some in Hv. }
      destruct (evict_ok _ l1 v l2 data e1 Hok1) as (pm' & -> & L & Hhand); [apply (rep_cb _ _ _ _ H)|done|].
      exists pm'. split; [done|]. pose proof (left_const _ _ _ _ _ _ L) as Hcon. unfold constants in Hcon.
      injection Hcon as _ Hmax Hcb' Hex _ _. split.
      * exists l1, l2. constructor; [apply L|done|..]; cbn [before after extra limit].
        -- eapply shows_ext; [|exact Hs1]. intros x Hx. apply (left_view _ _ _ _ _ _ L). rewrite elem_of_app. by left.
        -- eapply shows_ext; [|exact Hs2]. intros x Hx. apply (left_view _ _ _ _ _ _ L). rewrite elem_of_app. by right.
        -- rewrite Hex. apply H.
        -- rewrite Hmax. apply H.
        -- rewrite Hcb'. apply H.
      * rewrite (left_calls _ _ _ _ _ _ L). cbn. f_equal.
        rewrite (call_of_entry _ _ v e1 data (ok_entries _ _ Hok1)) by (done || (rewrite elem_of_app; right; left)).
        unfold call_for. assert (Ev : field view (unref_all ps (pm_heap pm)) v = field view (pm_heap pm) v).
        { rewrite view_unref, decide_False; [done|]. intros Hvp. rewrite Er in Hnd.
          apply NoDup_app in Hnd as (_ & Hd & _). apply (Hd v Hvp). left. }
        unfold field in Ev. rewrite He1, Hv in Ev. apply (inj Some) in Ev. now rewrite Ev.
Qed.
