(* ===== verification/NodeCacheAdd.v ===== *)
(** * The node cache: new entries and containers

    First the operations that add an entry, then the one that drops the objects
    of a container. *)

From S2P Require Import Prelude Hash NodeCache NodeCacheRep NodeCacheSpec NodeCacheStep NodeCacheRefine NodeCacheClock.
From stdpp Require Import list.
Open Scope Z_scope.

(** * The node cache: new entries

    [get_entry] takes an entry off the free list, from a new block when the
    list is empty; [add_pme] fills it, puts it on its chain and on the list of
    entries and replaces others when there are too many. [MapCreate] and
    [MapSet] refine the specification. *)

(** ** More than one replacement *)

Lemma rep_set_extra pm c lb la n : rep_at pm c lb la -> rep_at (pm_set_extra_pme n pm) (set_extra n c) lb la.
Proof.
  intros H. constructor; try apply H; [|done].
  exact (cache_ok_other _ _ (pm_clock_hand pm) n (pm_calls pm) (pm_NUsedEntries pm) (rep_ok _ _ _ _ H)).
Qed.

Lemma replace_extra_ok data : forall fuel pm c,
  rep pm c -> pinned c -> (length (objects c) < fuel)%nat ->
  exists pm', replace_extra fuel pm data = Some pm' /\ rep pm' (fst (shed fuel c)) /\
    pm_calls pm' = reverse (call_for data <$> snd (shed fuel c)) ++ pm_calls pm.
Proof.
  induction fuel as [|fuel IH]; intros pm c H Hpin Hf; [lia|]. cbn [replace_extra shed].
  assert (Hex : pm_extra_pme pm = extra c) by (destruct H as (? & ? & H); apply H). rewrite Hex.
  destruct (extra c =? 0); [exists pm; done|].
  assert (Hne : objects c <> []) by (destruct Hpin as (x & Hx & _); intros E; rewrite E in Hx; now apply elem_of_nil in Hx).
  destruct (try_replace_ok pm c data H Hne) as (pm1 & -> & Hrep & Hcl). runs.
  pose proof (replace_one_pinned c Hpin) as Hpin1.
  destruct (replace_one c) as [c1 [v|]] eqn:Er; cbn [fst snd] in *.
  - rewrite bool_decide_eq_true_2 by eauto.
    destruct Hrep as (lb & la & Hrep).
    destruct (IH (pm_set_extra_pme (i32 (pm_extra_pme pm1 - 1)) pm1) (set_extra (i32 (extra c1 - 1)) c1))
      as (pm' & -> & Hrep' & Hcl').
    + exists lb, la. rewrite (rep_extra _ _ _ _ Hrep). now apply rep_set_extra.
    + exact Hpin1.
    + rewrite objects_set_extra. apply replace_one_length in Er. lia.
    + exists pm'. destruct (shed fuel _) as [c2 vs]. cbn [fst snd] in *. split; [done|]. split; [done|].
      rewrite Hcl', fmap_cons, reverse_cons, <- app_assoc. cbn. now rewrite Hcl.
  - rewrite bool_decide_eq_false_2 by (intros [? ?]; done). exists pm1. done.
Qed.

Lemma rep_length pm c : rep pm c -> (length (objects c) <= length (pm_heap pm))%nat.
Proof.
  intros (lb & la & H). rewrite <- (Forall2_length _ _ _ (rep_objects _ _ _ _ H)).
  apply nodup_bound; [apply (rep_ok _ _ _ _ H)|]. intros a Ha.
  apply (in_heap _ _ _ (ok_lru _ _ (rep_ok _ _ _ _ H)) Ha).
Qed.

Lemma replace_lru_ok pm c data :
  rep pm c -> pinned c ->
  exists pm', replace_lru pm data = Some pm' /\ rep pm' (fst (replace c)) /\
    pm_calls pm' = reverse (call_for data <$> snd (replace c)) ++ pm_calls pm.
Proof.
  intros H Hpin. unfold replace_lru, replace.
  assert (Hne : objects c <> []) by (destruct Hpin as (x & Hx & _); intros E; rewrite E in Hx; now apply elem_of_nil in Hx).
  destruct (try_replace_ok pm c data H Hne) as (pm1 & -> & Hrep & Hcl). runs.
  pose proof (replace_one_pinned c Hpin) as Hpin1.
  destruct (replace_one c) as [c1 [v|]] eqn:Er; cbn [fst snd] in *.
  - rewrite bool_decide_eq_true_2 by eauto.
    destruct (replace_extra_ok data (S (length (pm_heap pm1))) pm1 c1 Hrep Hpin1) as (pm' & -> & Hrep' & Hcl').
    { apply rep_length in Hrep. lia. }
    rewrite (shed_fuel _ (S (length (objects c1)))) in Hrep', Hcl' by (apply rep_length in Hrep; lia).
    exists pm'. destruct (shed _ _) as [c2 vs]. cbn [fst snd] in *. split; [done|]. split; [done|].
    rewrite Hcl', fmap_cons, reverse_cons, <- app_assoc. cbn. now rewrite Hcl.
  - rewrite bool_decide_eq_false_2 by (intros [? ?]; done). destruct Hrep as (lb & la & Hrep).
    eexists. split; [done|]. split; [|done]. exists lb, la. rewrite (rep_extra _ _ _ _ Hrep).
    now apply rep_set_extra.
Qed.

(** ** Memory for a new entry *)

Lemma push_free_all addrs : forall pm fr,
  pm_FreeEntries pm = head fr -> linked (field pme_next (pm_heap pm)) fr -> NoDup (addrs ++ fr) ->
  (forall a, a ∈ addrs -> is_Some (pm_heap pm !! a)) ->
  exists h, foldl push_free pm addrs = pm_set_FreeEntries (head (reverse addrs ++ fr)) (pm_set_heap h pm) /\
    linked (field pme_next h) (reverse addrs ++ fr) /\ no_next <$> h = no_next <$> pm_heap pm /\
    (forall b, b ∉ addrs -> field pme_next h b = field pme_next (pm_heap pm) b).
Proof.
  induction addrs as [|a addrs IH]; intros pm fr Hf Hl Hnd Hin.
  - exists (pm_heap pm). cbn. rewrite <- Hf. now destruct pm.
  - cbn in Hnd. pose proof Hnd as Hnd'. apply NoDup_cons in Hnd' as [Ha _].
    destruct (IH (push_free pm a) (a :: fr)) as (h & Hfold & Hlk & Hfr & Hoth).
    + done.
    + eapply linked_cons; [|exact Hl|..].
      * intros Hfa. apply Ha. rewrite elem_of_app. by right.
      * cbn. rewrite field_alter_eq. destruct (Hin a) as [e ->]; [left|]. cbn. now rewrite Hf.
      * intros b Hb. cbn. apply field_alter_ne. congruence.
    + now rewrite <- Permutation_middle.
    + intros b Hb. cbn. destruct (Hin b) as [e He]; [by right|].
      destruct (decide (a = b)) as [->|]; [rewrite list_lookup_alter_eq, He; eauto|rewrite list_lookup_alter_ne by done; eauto].
    + exists h. rewrite reverse_cons, <- app_assoc. cbn [app]. split; [cbn [foldl]; now rewrite Hfold|].
      split; [done|]. split.
      * rewrite Hfr. cbn. now apply fmap_alter_same.
      * intros b Hb. apply not_elem_of_cons in Hb as [Hba Hb]. rewrite Hoth by done. cbn. apply field_alter_ne. congruence.
Qed.

(** What a new block leaves alone: everything but the free entries. *)
Record same_entries (pm pm' : Map) (l : list nat) : Prop := {
  same_view : forall b, b ∈ l -> field view (pm_heap pm') b = field view (pm_heap pm) b;
  same_hand : pm_clock_hand pm' = pm_clock_hand pm;
  same_extra : pm_extra_pme pm' = pm_extra_pme pm;
  same_max : pm_max_entries pm' = pm_max_entries pm;
  same_cb : pm_replacement_callback pm' = pm_replacement_callback pm;
  same_calls : pm_calls pm' = pm_calls pm;
  same_nb : pm_nbuckets pm' = pm_nbuckets pm;
  same_buckets : pm_buckets pm' = pm_buckets pm
}.

Section block.
Local Opaque N_ENTRIES_TO_MALLOC.

Lemma malloc_block_ok pm l :
  cache_ok pm l -> pm_FreeEntries pm = None ->
  cache_ok (malloc_block pm) l /\ same_entries pm (malloc_block pm) l /\ is_Some (pm_FreeEntries (malloc_block pm)).
Proof.
  intros H Hnone. set (base := length (pm_heap pm)). set (n := N_ENTRIES_TO_MALLOC).
  set (pm0 := pm_set_EntryBlocks (base :: pm_EntryBlocks pm) (pm_set_heap (pm_heap pm ++ replicate n zero_entry) pm)).
  destruct (ok_free _ _ H) as (c & Hhd & _ & _ & Hin & _). rewrite Hnone in Hhd. destruct c; [|done].
  assert (Hlt : forall b, b ∈ l -> (b < base)%nat) by (intros b; apply (in_heap _ _ _ (ok_lru _ _ H))).
  assert (Hfull : forall b, (b < base)%nat -> b ∈ l).
  { intros b Hb. destruct (decide (b ∈ l)) as [|Hn]; [done|]. assert (Hb' : b ∈ @nil nat) by now apply Hin.
    now apply elem_of_nil in Hb'. }
  assert (Hold : forall A (g : MapEntry -> A) b, b ∈ l -> field g (pm_heap pm0) b = field g (pm_heap pm) b).
  { intros A g b Hb. unfold field. cbn. now rewrite lookup_app_l by now apply Hlt. }
  destruct (push_free_all (seq base n) pm0 []) as (h & Hfold & Hlk & Hfr & Hoth).
  { exact Hnone. } { done. } { rewrite app_nil_r. apply NoDup_seq. }
  { intros a Ha. apply lookup_lt_is_Some. cbn. rewrite length_app, length_replicate. apply elem_of_seq in Ha. unfold base in Ha. lia. }
  rewrite app_nil_r in *.
  assert (Hlen : length h = (base + n)%nat).
  { rewrite <- (length_fmap no_next h), Hfr, length_fmap. cbn. now rewrite length_app, length_replicate. }
  assert (Hnew : forall A (g : MapEntry -> A), (forall e, g (no_next e) = g e) -> forall b, b ∈ l -> field g h b = field g (pm_heap pm) b).
  { intros A g Hg b Hb. rewrite (field_frame no_next _ _ _ Hg Hfr). auto. }
  assert (Hnext : forall b, b ∈ l -> field pme_next h b = field pme_next (pm_heap pm) b).
  { intros b Hb. rewrite Hoth; [auto|]. intros Hs%elem_of_seq. specialize (Hlt b Hb). lia. }
  unfold malloc_block. fold n base. cbv zeta.
  change (foldl push_free _ (seq base n)) with (foldl push_free pm0 (seq base n)). rewrite Hfold.
  split; [|split].
  - constructor; cbn [pm_n_entries pm_EntryBlocks pm_heap pm_set_NEntries pm_set_FreeEntries pm_set_heap].
    + apply H.
    + eapply lru_ok_frame; [apply H|done|done|]. intros b Hb. split; now apply Hnew.
    + eapply chains_ok_frame; [apply H|done|done|]. intros b Hb. split; [now apply Hnext|now apply Hnew].
    + exists (reverse (seq base n)). cbn [pm_FreeEntries pm_set_NEntries pm_set_FreeEntries pm_heap pm_set_heap].
      split; [done|]. split; [done|]. split; [rewrite reverse_Permutation; apply NoDup_seq|]. split.
      * intros a. rewrite elem_of_reverse, elem_of_seq, Hlen. split; [|intros [? Hn]].
        -- intros ?. split; [lia|]. intros Hl%Hlt. lia.
        -- destruct (decide (a < base)%nat) as [Hl|]; [|lia]. now apply Hfull in Hl.
      * intros a. rewrite elem_of_reverse, elem_of_seq. intros Ha. rewrite (field_frame no_next pme_contents (pm_heap pm0) h) by done.
        unfold field. cbn. rewrite lookup_app_r by (unfold base in *; lia). rewrite lookup_replicate_2; [done|]. unfold base in *. lia.
    + eapply entries_ok_frame; [apply H|done|]. intros b Hb. now apply Hnew.
    + apply H.
    + cbn. unfold block_addresses in *. cbn [map concat]. rewrite (ok_blocks _ _ H : concat _ ≡ₚ _), Hlen.
      rewrite seq_app. fold n base. apply Permutation_app_comm.
  - constructor; try done. intros b Hb. now apply Hnew.
  - cbn. destruct (reverse (seq base n)) as [|a r] eqn:E; [|eauto].
    apply (f_equal length) in E. rewrite length_reverse, length_seq in E. discriminate E.
Qed.
End block.

Lemma get_entry_ok pm l :
  cache_ok pm l ->
  exists pm' a, get_entry pm = Some (pm', a) /\ a ∉ l /\ is_Some (pm_heap pm' !! a) /\
    lru_ok pm' l /\ chains_ok pm' l /\ entries_ok pm' l /\ free_ok pm' (a :: l) /\ same_entries pm pm' l /\
    pm_n_entries pm' = u64 (lenZ l) /\ block_addresses (pm_EntryBlocks pm') ≡ₚ seq 0 (length (pm_heap pm')).
Proof.
  intros H. unfold get_entry.
  set (pm1 := match pm_FreeEntries pm with None => malloc_block pm | Some _ => pm end).
  assert (H1 : cache_ok pm1 l /\ same_entries pm pm1 l /\ is_Some (pm_FreeEntries pm1)).
  { unfold pm1. destruct (pm_FreeEntries pm) as [a|] eqn:E; [|now apply malloc_block_ok].
    split; [done|]. split; [now constructor|]. rewrite E. eauto. }
  clearbody pm1. cbv zeta. destruct H1 as (H1 & Hsame & [a Ea]). rewrite Ea. runs.
  destruct (ok_free _ _ H1) as (c & Hhd & Hc & Hnd & Hin & Hz). rewrite Ea in Hhd.
  destruct c as [|b c]; [done|]. injection Hhd as <-. destruct Hc as [Ha Hc].
  apply field_inv in Ha as (e & He & Hn). rewrite He. runs. rewrite Hn.
  apply NoDup_cons in Hnd as [Hac Hnd]. destruct (proj1 (Hin a) (list_elem_of_here a c)) as [Hlt Hal].
  eexists _, a. split; [done|]. split; [done|]. split; [cbn; eauto|].
  split; [eapply lru_ok_frame; [apply H1|done..]|]. split; [apply H1|]. split; [apply H1|]. split; [|split; [|split; [apply H1|apply H1]]].
  - exists c. cbn. split; [done|]. split; [done|]. split; [done|]. split.
    + intros b. rewrite not_elem_of_cons. specialize (Hin b). rewrite elem_of_cons in Hin.
      destruct (decide (b = a)) as [->|]; naive_solver.
    + intros b Hb. apply Hz. by right.
  - destruct Hsame. now constructor.
Qed.

(** ** A new entry *)

(** The entry as [create_pme] and its caller leave it. *)
Definition new_entry (e : MapEntry) (key d n cguid raw : Z) (h : nat) (first : ptr) : MapEntry :=
  mk_MapEntry false false (raw mod 2) 1 8 n cguid key d first (pme_next_lru e) (pme_prev_lru e) (Some h).

Lemma chains_add pm l a h e3 c :
  chains_ok pm l -> a ∉ l -> (h < length (pm_buckets pm))%nat ->
  pm_buckets pm !! h = Some (head c) -> linked (field pme_next (pm_heap pm)) c -> NoDup c ->
  (forall b, b ∈ c <-> b ∈ l /\ field pme_bucket (pm_heap pm) b = Some (Some h)) ->
  is_Some (pm_heap pm !! a) -> pme_next e3 = head c -> pme_bucket e3 = Some h ->
  chains_ok (pm_set_buckets (<[h := Some a]> (pm_buckets pm)) (pm_set_heap (<[a := e3]> (pm_heap pm)) pm)) (a :: l).
Proof.
  intros (Hpos & Hlen & Hch) Hal Hh Hhd Hc Hnd Hin [e He] Hn Hb.
  assert (Hlt : (a < length (pm_heap pm))%nat) by now apply lookup_lt_Some in He.
  assert (Hne : forall A (g : MapEntry -> A) b, b <> a -> field g (<[a := e3]> (pm_heap pm)) b = field g (pm_heap pm) b)
    by (intros; unfold field; now rewrite list_lookup_insert_ne).
  assert (Heq : forall A (g : MapEntry -> A), field g (<[a := e3]> (pm_heap pm)) a = Some (g e3))
    by (intros; unfold field; now rewrite list_lookup_insert_eq).
  split; [done|]. cbn. rewrite length_insert. split; [done|]. intros h' Hh'.
  destruct (decide (h' = h)) as [->|Hneh].
  - exists (a :: c). cbn. rewrite list_lookup_insert_eq by done. split; [done|].
    assert (Hac : a ∉ c) by (intros Hac; now apply Hin in Hac as [? _]).
    split; [|split; [now constructor|]].
    + apply (linked_cons (field pme_next (pm_heap pm)) _ a c); [done|done|now rewrite Heq, Hn|]. intros b Hba. now apply Hne.
    + intros b. rewrite !elem_of_cons. destruct (decide (b = a)) as [->|Hba].
      * rewrite Heq, Hb. naive_solver.
      * rewrite Hne, Hin by done. naive_solver.
  - destruct (Hch h' Hh') as (c' & Hhd' & Hc' & Hnd' & Hin'). exists c'. cbn.
    rewrite list_lookup_insert_ne by done. split; [done|].
    assert (Hac : a ∉ c') by (intros Hac; now apply Hin' in Hac as [? _]).
    split; [|split; [done|]].
    + eapply linked_ext; [|exact Hc']. intros b Hbc. apply Hne. now intros ->.
    + intros b. rewrite elem_of_cons. destruct (decide (b = a)) as [->|Hba].
      * rewrite Heq, Hb. split; [done|]. intros [_ [= ->]]. done.
      * rewrite Hne, Hin' by done. naive_solver.
Qed.

Lemma alter_insert_eq (f : MapEntry -> MapEntry) (a : nat) (h : list MapEntry) e :
  h !! a = Some e -> alter f a h = <[a := f e]> h.
Proof.
  intros He. rewrite list_insert_alter. apply list_eq. intros i. destruct (decide (a = i)) as [<-|].
  - now rewrite !list_lookup_alter_eq, He.
  - now rewrite !list_lookup_alter_ne.
Qed.

Lemma entries_add pm l a e3 key cguid raw h :
  entries_ok pm l -> a ∉ l -> (a < length (pm_heap pm))%nat ->
  (forall b, b ∈ l -> field ident (pm_heap pm) b <> Some (key, cguid, raw)) ->
  ident e3 = (key, cguid, raw) -> pme_keylen e3 = 8 -> pme_bucket e3 = Some h -> bucket_of pm key cguid = Some h ->
  entries_ok (pm_set_heap (<[a := e3]> (pm_heap pm)) pm) (a :: l).
Proof.
  intros [Hent Hu] Hal Hlt Hno Hid Hkl Hb Hbk. unfold ident in Hid. injection Hid as Hk Hc Hr.
  assert (Hne : forall b, b ∈ l -> (<[a := e3]> (pm_heap pm)) !! b = pm_heap pm !! b)
    by (intros b Hb'; apply list_lookup_insert_ne; now intros ->).
  assert (Hid : field ident (<[a := e3]> (pm_heap pm)) a = Some (key, cguid, raw)).
  { unfold field. rewrite list_lookup_insert_eq by done. cbn. unfold ident. now rewrite Hk, Hc, Hr. }
  split; cbn [pm_heap pm_set_heap].
  - intros b [->|Hb']%elem_of_cons.
    + exists e3, h. rewrite list_lookup_insert_eq by done. rewrite Hk, Hc. done.
    + rewrite Hne by done. now apply Hent.
  - intros b b' [->|Hb1]%elem_of_cons [->|Hb2]%elem_of_cons E; [done|..].
    + rewrite Hid in E. unfold field in E. rewrite Hne in E by done. destruct (Hno b' Hb2). done.
    + rewrite Hid in E. unfold field in E. rewrite Hne in E by done. destruct (Hno b Hb1). done.
    + unfold field in E. rewrite !Hne in E by done. now apply Hu.
Qed.

Lemma link_pme_ok pm c lb la h key cguid raw d n :
  rep_at pm c lb la -> bucket_of pm key cguid = Some h -> 0 <= raw < 2 ->
  (forall a, a ∈ lb ++ la -> field ident (pm_heap pm) a <> Some (key, cguid, raw)) ->
  exists pm' a, link_pme pm h key 8 d n cguid raw = Some (pm', a) /\
    rep_at pm' (mk_cache (mk_cached (key, cguid, raw) d n 1 false false :: before c) (after c) (extra c) (limit c)) (a :: lb) la /\
    pm_calls pm' = pm_calls pm.
Proof.
  intros H Hbk Hraw Hno. set (l := lb ++ la) in *.
  destruct (get_entry_ok pm l (rep_ok _ _ _ _ H))
    as (pm1 & a & Hget & Hal & [e1 He1] & Hlru & Hch & Hent & Hfree & Hsame & Hcnt & Hblk).
  assert (Hbk1 : bucket_of pm1 key cguid = Some h) by (unfold bucket_of; rewrite (same_nb _ _ _ Hsame); exact Hbk).
  assert (Hh : (h < length (pm_buckets pm1))%nat) by (destruct Hch as (? & ? & _); now eapply bucket_of_lt; eauto).
  destruct Hch as (Hpos & Hlen & Hch'). destruct (Hch' h Hh) as (ch & Hhd & Hlk & Hnd & Hin).
  set (e3 := new_entry e1 key d n cguid raw h (head ch)).
  set (h3 := <[a := e3]> (pm_heap pm1)).
  assert (Hlt : (a < length (pm_heap pm1))%nat) by now apply lookup_lt_Some in He1.
  set (pm3 := pm_set_n_entries (u64 (pm_n_entries pm1 + 1)) (pm_set_buckets (<[h := Some a]> (pm_buckets pm1)) (pm_set_heap h3 pm1))).
  assert (Hne : forall A (g : MapEntry -> A) b, b <> a -> field g h3 b = field g (pm_heap pm1) b)
    by (intros; unfold field, h3; now rewrite list_lookup_insert_ne).
  assert (Hlru3 : lru_ok pm3 l).
  { eapply lru_ok_frame; [exact Hlru|done|done|]. intros b Hb. split; apply Hne; now intros ->. }
  assert (Ha3 : pm_heap pm3 !! a = Some e3) by now apply list_lookup_insert_eq.
  pose proof (insert_lru_run pm3 a l Hlru3 (ex_intro _ _ Ha3) Hal) as Hrun.
  set (pm4 := with_lru _ _ _ _ _) in Hrun.
  assert (Hview : forall b, b ∈ l -> field view (pm_heap pm4) b = field view (pm_heap pm) b).
  { intros b Hb. etransitivity; [apply (field_frame no_lru _ (pm_heap pm3)); [done|apply pushed_frame]|].
    rewrite <- (same_view _ _ _ Hsame b Hb). apply Hne. now intros ->. }
  exists pm4, a. split; [|split; [|apply (same_calls _ _ _ Hsame)]].
  - unfold link_pme, create_pme. rewrite Hget. runs. cbn [assert_ Z.eqb Pos.eqb]. runs.
    rewrite (modify_Some _ _ _ _ He1). runs. cbn [pm_buckets pm_set_heap]. rewrite Hhd. runs.
    rewrite (modify_Some _ a _ (mk_MapEntry false false (raw mod 2) 0 8 n cguid key d None (pme_next_lru e1) (pme_prev_lru e1) (pme_bucket e1)))
      by (cbn; now rewrite list_lookup_alter_eq, He1).
    runs. cbn [pm_heap pm_set_heap]. rewrite (alter_insert_eq _ a (pm_heap pm1) e1 He1).
    rewrite (alter_insert_eq _ a _ _ (list_lookup_insert_eq _ _ _ Hlt)), list_insert_insert_eq.
    change (insert_lru _ a) with (insert_lru pm3 a). now rewrite Hrun.
  - constructor; cbn [before after extra limit].
    + constructor.
      * cbn [app]. constructor; [done|]. apply (ok_nodup _ _ (rep_ok _ _ _ _ H)).
      * apply insert_lru_ok; [apply (ok_nodup _ _ (rep_ok _ _ _ _ H))|done|eauto|done].
      * apply lru_frame_chains; [apply pushed_frame|].
        apply (chains_add pm1 l a h e3 ch); try done; now exists e1.
      * apply lru_frame_free; [apply pushed_frame|].
        eapply free_ok_frame; [exact Hfree|done|apply length_insert|]. intros b Hb. apply not_elem_of_cons in Hb as [Hb _].
        split; now apply Hne.
      * apply lru_frame_entries; [apply pushed_frame|]. apply (entries_add pm1 l a e3 key cguid raw h); try done.
        -- intros b Hb. specialize (Hno b Hb). pose proof (same_view _ _ _ Hsame b Hb) as Hv. unfold field in *.
           destruct (pm_heap pm1 !! b), (pm_heap pm !! b); cbn in *; try done. unfold view in Hv. congruence.
        -- unfold ident. cbn. now rewrite Z.mod_small by lia.
      * cbn. rewrite Hcnt, u64_add. f_equal. fold l. lia.
      * cbn [pm_EntryBlocks pm_heap with_lru pm4 pm_set_heap]. rewrite <- (length_fmap no_lru (pushed _ _ _)), pushed_frame, length_fmap.
        cbn. unfold h3. rewrite length_insert. exact Hblk.
    + cbn. rewrite (same_hand _ _ _ Hsame). apply H.
    + constructor.
      * etransitivity; [apply (field_frame no_lru _ (pm_heap pm3)); [done|apply pushed_frame]|].
        unfold field. rewrite Ha3. cbn. unfold view, ident. cbn. now rewrite Z.mod_small by lia.
      * eapply shows_ext; [|apply H]. intros b Hb. apply Hview. unfold l. rewrite elem_of_app. by left.
    + eapply shows_ext; [|apply H]. intros b Hb. apply Hview. unfold l. rewrite elem_of_app. by right.
    + cbn. rewrite (same_extra _ _ _ Hsame). apply H.
    + cbn. rewrite (same_max _ _ _ Hsame). apply H.
    + cbn. rewrite (same_cb _ _ _ Hsame). apply H.
Qed.

(** The number of entries stays below the range of its counter, and the limit
    is an unsigned number. *)
Definition countable_size (c : cache) : Prop := 0 <= limit c /\ lenZ (objects c) + 1 < 2 ^ 64.

Lemma add_pme_ok pm c lb la h key cguid raw d n data limited :
  rep_at pm c lb la -> bucket_of pm key cguid = Some h -> 0 <= raw < 2 -> countable_size c ->
  limited = negb (limit c =? 0) ->
  (forall a, a ∈ lb ++ la -> field ident (pm_heap pm) a <> Some (key, cguid, raw)) ->
  exists pm' a, add_pme pm h key 8 d n cguid raw data limited = Some (pm', Some a) /\
    rep pm' (fst (spec_add (key, cguid, raw) d n c)) /\
    pm_calls pm' = reverse (call_for data <$> snd (spec_add (key, cguid, raw) d n c)) ++ pm_calls pm.
Proof.
  intros H Hbk Hraw [Hlim Hsz] -> Hno.
  destruct (link_pme_ok pm c lb la h key cguid raw d n H Hbk Hraw Hno) as (pm1 & a & Hrun & Hrep & Hcl).
  unfold add_pme, spec_add. rewrite Hrun. runs. set (c1 := mk_cache _ _ _ _) in *.
  assert (Hn : pm_n_entries pm1 = lenZ (objects c1)).
  { rewrite (ok_count _ _ (rep_ok _ _ _ _ Hrep)), (Forall2_length _ _ _ (rep_objects _ _ _ _ Hrep)).
    apply u64_small. unfold objects, c1 in *. cbn [before after app length]. lia. }
  rewrite (rep_limit _ _ _ _ Hrep), Hn. change (limit c1) with (limit c).
  destruct (negb (limit c =? 0) && (limit c <? lenZ (objects c1))).
  - destruct (replace_lru_ok pm1 c1 data) as (pm' & -> & Hrep' & Hcl'); [now exists (a :: lb), la| |].
    + eexists. split; [apply list_elem_of_here|done].
    + runs. exists pm', a. split; [done|]. split; [done|]. now rewrite Hcl', Hcl.
  - runs. exists pm1, a. split; [done|]. split; [now exists (a :: lb), la|done].
Qed.

Lemma limited_pos n : 0 <= n -> (0 <? n) = negb (n =? 0).
Proof. intros. destruct (Z.ltb_spec 0 n), (Z.eqb_spec n 0); lia || done. Qed.

(** ** MapCreate, MapSet *)

Lemma MapCreate_ok pm c key cguid raw d n data :
  rep pm c -> 0 <= raw < 2 -> countable_size c ->
  let '(c', vs, created) := spec_create (key, cguid, raw) d n c in
  exists pm' a, MapCreate pm key 8 d n cguid raw data = Some (pm', a) /\ (a = None <-> created = false) /\
    rep pm' c' /\ pm_calls pm' = reverse (call_for data <$> vs) ++ pm_calls pm.
Proof.
  intros (lb & la & H) Hraw Hsz. unfold MapCreate, spec_create.
  destruct (find_pme_ok pm _ key cguid raw (rep_ok _ _ _ _ H)) as ([a|] & h & -> & Hb & _ & Hr); runs.
  - destruct Hr as [Ha Hi]. destruct (rep_lookup_Some _ _ _ _ _ _ H Ha Hi) as (e & _ & _ & ->).
    exists pm, None. split; [done|]. split; [done|]. split; [now exists lb, la|done].
  - rewrite (rep_lookup_None _ _ _ _ _ H Hr).
    destruct (add_pme_ok pm c lb la h key cguid raw d n data (0 <? pm_max_entries pm) H Hb Hraw Hsz)
      as (pm' & a & -> & Hrep & Hcl); [rewrite (rep_limit _ _ _ _ H); apply limited_pos, Hsz|exact Hr|].
    destruct (spec_add _ _ _ c) as [c' vs]. exists pm', (Some a). done.
Qed.

Lemma MapSet_new_ok pm c key cguid raw d n data :
  rep pm c -> 0 <= raw < 2 -> countable_size c ->
  lookup_id (key, cguid, raw) (objects c) = None ->
  exists pm' a, MapSet pm key 8 d n cguid raw data = Some (pm', Some a, 0, 0) /\
    rep pm' (fst (spec_add (key, cguid, raw) d n c)) /\
    pm_calls pm' = reverse (call_for data <$> snd (spec_add (key, cguid, raw) d n c)) ++ pm_calls pm.
Proof.
  intros (lb & la & H) Hraw Hsz Hnone. unfold MapSet.
  destruct (find_pme_ok pm _ key cguid raw (rep_ok _ _ _ _ H)) as ([a|] & h & -> & Hb & _ & Hr); runs.
  - destruct Hr as [Ha Hi]. destruct (rep_lookup_Some _ _ _ _ _ _ H Ha Hi) as (e & _ & _ & Hlk). congruence.
  - destruct (add_pme_ok pm c lb la h key cguid raw d n data (negb (pm_max_entries pm =? 0)) H Hb Hraw Hsz)
      as (pm' & a & -> & Hrep & Hcl); [now rewrite (rep_limit _ _ _ _ H)|exact Hr|].
    runs. now exists pm', a.
Qed.

(** ** MapInit *)

Lemma MapInit_ok nbuckets max : 0 < nbuckets -> rep (MapInit nbuckets max true) (spec_init max).
Proof.
  intros Hn. exists [], []. constructor; try done; [|constructor|constructor]. constructor; try done.
  - constructor.
  - split; [done|]. cbn. rewrite length_replicate. split; [done|]. intros h Hh. exists []. cbn.
    rewrite lookup_replicate_2 by done. split; [done|]. split; [done|]. split; [constructor|].
    intros a. split; [now intros ?%elem_of_nil|]. intros [?%elem_of_nil _]. done.
  - exists []. split; [done|]. split; [done|]. split; [constructor|]. split.
    + intros a. split; [now intros ?%elem_of_nil|]. cbn. lia.
    + now intros a ?%elem_of_nil.
  - split; [now intros a ?%elem_of_nil|now intros a b ?%elem_of_nil].
Qed.

(** * The node cache: dropping the objects of a container

    [MapClean] walks over all blocks of entries, used or free, and drops those
    of a container. It refines [spec_clean], and calls the callback once for
    each object it drops. *)

Lemma find_prev_run pm a c2 : forall c1 fuel,
  linked (field pme_next (pm_heap pm)) (c1 ++ a :: c2) -> NoDup (c1 ++ a :: c2) -> c1 <> [] -> (length c1 < fuel)%nat ->
  find_prev fuel pm (head c1) a = Some (last c1).
Proof.
  induction c1 as [|x c1 IH]; intros fuel Hc Hnd Hne Hf; [done|]. destruct fuel as [|fuel]; [lia|].
  destruct Hc as [Hx Hc]. apply field_inv in Hx as (e & He & Hn). cbn [find_prev head]. rewrite He. runs.
  apply NoDup_cons in Hnd as [_ Hnd]. destruct c1 as [|y c1].
  - cbn in Hn. now rewrite decide_True.
  - rewrite decide_False.
    + rewrite Hn. cbn [app head]. rewrite last_cons_cons. apply IH; [done|done|done|cbn in *; lia].
    + rewrite Hn. cbn. intros [= ->]. apply NoDup_cons in Hnd as [Hn' _]. apply Hn'. rewrite elem_of_app. right. left.
Qed.

Definition bad (cguid : Z) (h : list MapEntry) (a : nat) : Prop := exists e, h !! a = Some e /\ of_container cguid (view e) = true.

Lemma bad_in_use pm l cguid a : cache_ok pm l -> bad cguid (pm_heap pm) a -> a ∈ l.
Proof.
  intros H (e & He & Hb). destruct (decide (a ∈ l)) as [|Hn]; [done|].
  destruct (ok_free _ _ H) as (c & _ & _ & _ & Hin & Hz).
  assert (Ha : a ∈ c) by (apply Hin; split; [now apply lookup_lt_Some in He|done]).
  specialize (Hz a Ha). unfold field in Hz. rewrite He in Hz. injection Hz as Hz.
  unfold of_container in Hb. cbn in Hb. now rewrite Hz in Hb.
Qed.

(** One entry of the container leaves. *)
Lemma clean_entry_drops pm l1 a l2 cguid data e :
  cache_ok pm (l1 ++ a :: l2) -> pm_replacement_callback pm = true -> pm_heap pm !! a = Some e ->
  of_container cguid (view e) = true ->
  exists pm', clean_entry cguid data pm a = Some pm' /\ left_cache pm pm' l1 a l2 (call_of data e).
Proof.
  intros H Hcb He Hb. destruct (chain_of pm _ a H) as (h & c1 & c2 & Hca); [apply elem_of_app; right; left|].
  destruct (detach_lru_first _ _ _ _ _ _ _ H Hca) as (pm1 & Hrun & Hca1 & E & En & D).
  destruct (lookup_frame _ _ _ _ _ E He) as (e1 & He1 & Ee). destruct (chain_next _ _ _ _ _ _ _ Hca1 He1) as [Hn _].
  destruct (chain_next _ _ _ _ _ _ _ Hca He) as [_ Hbk].
  pose proof (unchained_constants pm1 h c1 c2) as (Econ & En1 & Ecl & _).
  pose proof (heap_of_view _ _ _ _ (det_view _ _ _ _ _ D) He) as Hsome.
  assert (Hcb1 : pm_replacement_callback pm1 = true).
  { pose proof (det_const _ _ _ _ _ D) as Hcon. rewrite Econ in Hcon. unfold constants in Hcon. now injection Hcon as _ _ -> _ _ _. }
  exists (settled (unchained pm1 h c1 c2) a (call_of data e)). split; [|now apply detached_left].
  destruct Hca1 as (Hh & _ & Hhd & Hc & Hnd & Hin).
  unfold clean_entry. rewrite He. runs. unfold of_container in Hb. cbn in Hb. rewrite Hb, Hrun. runs.
  unfold call_replacement. cbn [pm_replacement_callback pm_set_n_entries]. rewrite Hcb1. cbn [assert_]. runs.
  rewrite Hbk. hruns. rewrite Hhd. runs.
  set (pm3 := pm_set_calls _ _).
  assert (Hun : (if decide (head (c1 ++ a :: c2) = Some a)
            then e0 ← pm_heap pm1 !! a; Some (pm_set_buckets (<[h := pme_next e0]> (pm_buckets pm1)) pm3)
            else n ← find_prev (chain_fuel pm3) pm3 (head (c1 ++ a :: c2)) a;
                 e0 ← pm_heap pm1 !! a; modify pm3 n (pme_set_next (pme_next e0))) = Some (unchained pm3 h c1 c2)).
  { rewrite He1. runs. rewrite Hn. unfold unchained. destruct c1 as [|x c1].
    - now rewrite decide_True.
    - rewrite decide_False; [|cbn; intros [= ->]; apply NoDup_cons in Hnd as [Hx _]; apply Hx; rewrite elem_of_app; right; left].
      change (head ((x :: c1) ++ a :: c2)) with (head (x :: c1)). rewrite (find_prev_run pm3 a c2); [|done|done|done|].
      + runs. destruct (last (x :: c1)) as [p|] eqn:El; [|now apply last_None in El].
        destruct (linked_elem _ _ p Hc) as [y Hy]; [apply elem_of_app; left; now apply last_elem|].
        apply field_inv in Hy as (ep & Hep & _). now apply (modify_Some pm3 _ _ ep).
      + unfold chain_fuel. apply Nat.lt_succ_r, Nat.le_le_succ_r, nodup_bound.
        * now apply NoDup_app in Hnd as (? & _).
        * intros b Hbc. destruct (linked_elem _ _ b Hc) as [y Hy]; [apply elem_of_app; by left|].
          apply field_inv in Hy as (eb & Heb & _). now apply lookup_lt_Some in Heb. }
  unfold chain_fuel in *. etransitivity; [apply (f_equal (fun x => mbind (fun pm => free_entry pm a) x) Hun)|]. runs.
  unfold pm3. cbn [pm_calls pm_set_n_entries]. rewrite unchained_set_calls, unchained_set_n, <- En1, <- Ecl.
  rewrite free_entry_run by done. reflexivity.
Qed.

Definition in_container (cguid : Z) (l : list cached) : list cached := List.filter (of_container cguid) l.
Definition out_of_container (cguid : Z) (l : list cached) : list cached := List.filter (fun x => negb (of_container cguid x)) l.

(** Dropping an object of the container. *)
Lemma out_without cguid x l :
  (forall y, y ∈ l -> c_id y = c_id x -> of_container cguid y = true) ->
  out_of_container cguid (without (c_id x) l) = out_of_container cguid l.
Proof.
  unfold out_of_container, without. induction l as [|y l IH]; cbn; intros H; [done|].
  rewrite <- IH by (intros z Hz; apply H; by right). unfold has_id. case_bool_decide as E; cbn; [|done].
  now rewrite (H y (list_elem_of_here y l) E).
Qed.

Lemma in_middle cguid x p q :
  of_container cguid x = true -> in_container cguid (p ++ x :: q) ≡ₚ x :: in_container cguid (p ++ q).
Proof.
  intros H. unfold in_container. rewrite !List.filter_app. cbn. rewrite H. now rewrite Permutation_middle.
Qed.

(** The state of the loop: [vs] left, what is left of the rest is the same. *)
Record cleaned (cguid data : Z) (pm : Map) (c : cache) (pm' : Map) (c' : cache) (vs : list cached) : Prop := {
  cl_rep : rep pm' c';
  cl_out : spec_clean cguid c' = spec_clean cguid c;
  cl_in : in_container cguid (objects c) ≡ₚ vs ++ in_container cguid (objects c');
  cl_calls : pm_calls pm' = (call_for data <$> vs) ++ pm_calls pm;
  cl_len : length (pm_heap pm') = length (pm_heap pm);
  cl_bad : forall b, bad cguid (pm_heap pm') b -> bad cguid (pm_heap pm) b
}.

Lemma clean_entry_ok cguid data pm c a :
  rep pm c -> (a < length (pm_heap pm))%nat ->
  exists pm' c' vs, clean_entry cguid data pm a = Some pm' /\ cleaned cguid data pm c pm' c' vs /\ ~ bad cguid (pm_heap pm') a.
Proof.
  intros (lb & la & H) Hlt. pose proof (rep_cb _ _ _ _ H) as Hcb. apply lookup_lt_is_Some in Hlt as [e He].
  destruct (of_container cguid (view e)) eqn:Hb.
  - pose proof (rep_ok _ _ _ _ H) as Hok.
    assert (Ha : a ∈ lb ++ la) by (apply (bad_in_use _ _ cguid _ Hok); now exists e).
    destruct (rep_lookup_Some pm c lb la a (ident e) H Ha) as (e' & He' & _ & Hlk); [unfold field; now rewrite He|].
    rewrite He in He'. injection He' as <-.
    pose proof Ha as (l1 & l2 & El)%list_elem_of_split. rewrite El in Hok.
    destruct (clean_entry_drops pm l1 a l2 cguid data e Hok Hcb He Hb) as (pm' & Hrun & L).
    exists pm', (on_lists (without (ident e)) c), [view e]. split; [done|].
    pose proof (rep_nodup _ _ _ _ H) as Hids. pose proof (left_const _ _ _ _ _ _ L) as Hcon. unfold constants in Hcon.
    injection Hcon as _ _ _ _ _ Hlen.
    assert (Hbad : forall b, bad cguid (pm_heap pm') b -> b ∈ l1 ++ l2) by (intros b; apply bad_in_use, L).
    assert (Huniq : forall y, y ∈ objects c -> c_id y = c_id (view e) -> of_container cguid y = true).
    { intros y Hy Ey. pose proof (lookup_id_elem y _ Hids Hy) as Hly. rewrite Ey in Hly. cbn in Hly. congruence. }
    split; [constructor|].
    + eapply rep_left; eauto.
    + unfold spec_clean, on_lists. cbn [before after extra limit].
      change (ident e) with (c_id (view e)).
      f_equal; apply out_without; intros y Hy; apply Huniq; unfold objects; rewrite elem_of_app; auto.
    + apply lookup_id_Some in Hlk as [Hin _]. apply list_elem_of_split in Hin as (p & q & Eo).
      rewrite objects_on_lists by apply without_app. rewrite Eo in *. change (ident e) with (c_id (view e)).
      rewrite without_middle by done. now apply in_middle.
    + rewrite (left_calls _ _ _ _ _ _ L). cbn. f_equal. eapply call_of_entry; [apply Hok| |done]. now rewrite <- El.
    + done.
    + intros b (eb & Heb & Hbb). pose proof (left_view _ _ _ _ _ _ L b) as Hv.
      assert (Hbl : b ∈ l1 ++ l2) by (apply Hbad; now exists eb). specialize (Hv Hbl). unfold field in Hv. rewrite Heb in Hv.
      destruct (pm_heap pm !! b) as [e0|] eqn:E0; [|done]. exists e0. split; [done|]. apply (inj Some) in Hv. now rewrite <- Hv.
    + intros Hba%Hbad. now apply (minus_middle _ _ _ (ok_nodup _ _ Hok)) in Hba as [_ ?].
  - exists pm, c, []. split; [|split; [constructor; try done; now exists lb, la|]].
    + unfold clean_entry. rewrite He. runs. unfold of_container in Hb. cbn in Hb. now rewrite Hb.
    + intros (e' & He' & Hb'). congruence.
Qed.

Lemma clean_entries_ok cguid data : forall l pm c,
  rep pm c -> (forall a, a ∈ l -> (a < length (pm_heap pm))%nat) ->
  exists pm' c' vs, clean_entries cguid data pm l = Some pm' /\ cleaned cguid data pm c pm' c' vs /\
    forall a, a ∈ l -> ~ bad cguid (pm_heap pm') a.
Proof.
  induction l as [|a l IH]; intros pm c H Hl.
  - exists pm, c, []. split; [done|]. split; [|now intros a ?%elem_of_nil]. now constructor.
  - destruct (clean_entry_ok cguid data pm c a H) as (pm1 & c1 & vs1 & Hrun & C1 & Hn1); [apply Hl; left|].
    destruct (IH pm1 c1) as (pm2 & c2 & vs2 & Hrun2 & C2 & Hn2).
    + apply C1.
    + intros b Hb. rewrite (cl_len _ _ _ _ _ _ _ C1). apply Hl. by right.
    + exists pm2, c2, (vs2 ++ vs1). cbn [clean_entries]. rewrite Hrun. runs. split; [done|]. split.
      * destruct C1, C2. constructor; try done; try congruence.
        -- rewrite cl_in0, cl_in1, !app_assoc. apply Permutation_app; [apply Permutation_app_comm|done].
        -- now rewrite cl_calls1, cl_calls0, fmap_app, app_assoc.
        -- auto.
      * intros b [->|Hb]%elem_of_cons; [|auto]. intros Hb. now apply Hn1, (cl_bad _ _ _ _ _ _ _ C2).
Qed.

Lemma out_all cguid l : Forall (fun x => of_container cguid x = false) l -> out_of_container cguid l = l /\ in_container cguid l = [].
Proof.
  intros H. unfold out_of_container, in_container. induction H as [|x l Hx _ [IH1 IH2]]; cbn; [done|].
  rewrite Hx. cbn. now rewrite IH1, IH2.
Qed.

Lemma MapClean_ok pm c cguid data :
  rep pm c ->
  exists pm' vs, MapClean pm cguid data = Some pm' /\ rep pm' (spec_clean cguid c) /\
    vs ≡ₚ in_container cguid (objects c) /\ pm_calls pm' = (call_for data <$> vs) ++ pm_calls pm.
Proof.
  intros H. pose proof H as (lb & la & H'). pose proof (ok_blocks _ _ (rep_ok _ _ _ _ H')) as Hblk.
  unfold MapClean. fold (block_addresses (pm_EntryBlocks pm)).
  destruct (clean_entries_ok cguid data (block_addresses (pm_EntryBlocks pm)) pm c H) as (pm' & c' & vs & -> & C & Hnb).
  { intros a. rewrite Hblk, elem_of_seq. lia. }
  assert (Hno : Forall (fun x => of_container cguid x = false) (objects c')).
  { apply Forall_forall. intros x Hx. destruct (of_container cguid x) eqn:Ex; [|done].
    destruct (cl_rep _ _ _ _ _ _ _ C) as (lb' & la' & Hr). apply list_elem_of_lookup in Hx as [i Hi].
    destruct (Forall2_lookup_r _ _ _ _ _ (rep_objects _ _ _ _ Hr) Hi) as (a & Ha & Hv).
    apply field_inv in Hv as (e & He & <-). destruct (Hnb a); [|now exists e].
    rewrite Hblk, elem_of_seq, <- (cl_len _ _ _ _ _ _ _ C). apply lookup_lt_Some in He. lia. }
  exists pm', vs. split; [done|]. split; [|split].
  - rewrite <- (cl_out _ _ _ _ _ _ _ C). replace (spec_clean cguid c') with c'; [apply C|].
    apply Forall_app in Hno as [Hb Ha]. unfold spec_clean, on_lists.
    fold (out_of_container cguid (before c')) (out_of_container cguid (after c')).
    rewrite (proj1 (out_all _ _ Hb)), (proj1 (out_all _ _ Ha)). now destruct c'.
  - rewrite (cl_in _ _ _ _ _ _ _ C), (proj2 (out_all _ _ Hno)). now rewrite app_nil_r.
  - apply C.
Qed.
