(* ===== verification/NodeCacheHistory.v ===== *)
(** * The node cache: sequences of operations

    The operations of the cache as data, run on the program's state and on the
    specification's. Any sequence of them, from [MapInit] on, runs without a
    fault and gives the specification's answers; what holds of the
    specification then holds of the program. *)

From S2P Require Import Prelude Hash NodeCache NodeCacheRep NodeCacheSpec NodeCacheStep NodeCacheRefine NodeCacheClock NodeCacheAdd.
From stdpp Require Import list.
Open Scope Z_scope.

(** The calls of the b-tree; a release also passes the address of its key. *)
Inductive op :=
| OpCreate (i : id) (d n : Z)
| OpGet (i : id)
| OpIncr (i : id)
| OpRelease (i : id) (addr : Z)
| OpReleaseAll (i : id) (addr : Z)
| OpDelete (i : id)
| OpUpdate (i : id) (d n : Z)
| OpSet (i : id) (d n : Z)
| OpClean (cguid : Z).

(** Whether it succeeded, and the object it returned: its address and length. *)
Definition answer : Type := bool * Z * Z.

Definition run_op (data : Z) (pm : Map) (o : op) : option (Map * answer) :=
  match o with
  | OpCreate (k, g, r) d n => x ← MapCreate pm k 8 d n g r data; Some (fst x, (bool_decide (is_Some (snd x)), 0, 0))
  | OpGet (k, g, r) => x ← MapGet pm k 8 g r;
                     let '(pm, a, d, n) := x in Some (pm, (bool_decide (is_Some a), d, n))
  | OpIncr (k, g, r) => x ← MapIncrRefcnt pm k 8 g r; Some (fst x, (snd x =? 1, 0, 0))
  | OpRelease (k, g, r) addr => x ← MapRelease pm k addr 8 g r data; Some (fst x, (snd x =? 1, 0, 0))
  | OpReleaseAll (k, g, r) addr => x ← MapReleaseAll pm k addr 8 g r data; Some (fst x, (snd x =? 1, 0, 0))
  | OpDelete (k, g, r) => x ← MapDelete pm k 8 g r data; Some (fst x, (snd x =? 0, 0, 0))
  | OpUpdate (k, g, r) d n => x ← MapUpdate pm k 8 d n g r data; Some (fst x, (bool_decide (is_Some (snd x)), 0, 0))
  | OpSet (k, g, r) d n => x ← MapSet pm k 8 d n g r data;
                          let '(pm, a, d, n) := x in Some (pm, (true, d, n))
  | OpClean g => pm ← MapClean pm g data; Some (pm, (true, 0, 0))
  end.

Definition found_answer (o : option cached) : answer := (bool_decide (is_Some o), default 0 (c_data <$> o), default 0 (c_datalen <$> o)).

Definition spec_op (c : cache) (o : op) : cache * answer :=
  match o with
  | OpCreate i d n => let '(c, _, b) := spec_create i d n c in (c, (b, 0, 0))
  | OpGet i => let '(c, x) := spec_get i c in (c, found_answer x)
  | OpIncr i => let '(c, b) := spec_count (fun n => i32 (n + 1)) i c in (c, (b, 0, 0))
  | OpRelease i _ => let '(c, b) := spec_count (fun n => i32 (n - 1)) i c in (c, (b, 0, 0))
  | OpReleaseAll i _ => let '(c, b) := spec_count (fun _ => 0) i c in (c, (b, 0, 0))
  | OpDelete i => let '(c, _, b) := spec_delete i c in (c, (b, 0, 0))
  | OpUpdate i d n => let '(c, x) := spec_set i d n c in (c, (bool_decide (is_Some x), 0, 0))
  | OpSet i d n => match lookup_id i (objects c) with
                  | Some x => (fst (spec_set i d n c), (true, c_data x, c_datalen x))
                  | None => (fst (spec_add i d n c), (true, 0, 0))
                  end
  | OpClean g => (spec_clean g c, (true, 0, 0))
  end.

(** The objects an operation drops. *)
Definition spec_gone (c : cache) (o : op) : list cached :=
  match o with
  | OpCreate i d n => snd (fst (spec_create i d n c))
  | OpDelete i => option_list (snd (fst (spec_delete i c)))
  | OpSet i d n => match lookup_id i (objects c) with Some _ => [] | None => snd (spec_add i d n c) end
  | OpClean g => in_container g (objects c)
  | _ => []
  end.

(** Its calls of the callback: one for each object dropped, and one for data
    that is replaced. *)
Definition spec_calls (data : Z) (c : cache) (o : op) : list callback :=
  (call_for data <$> spec_gone c o) ++
  match o with
  | OpUpdate i _ _ => (fun x => mk_callback data (fst (fst i)) 8 (c_data x) (c_datalen x)) <$> option_list (lookup_id i (objects c))
  | OpSet i _ _ => (fun x => mk_callback data 0 0 (c_data x) (c_datalen x)) <$> option_list (lookup_id i (objects c))
  | _ => []
  end.

Definition op_id (o : op) : option id :=
  match o with
  | OpCreate i _ _ | OpGet i | OpIncr i | OpRelease i _ | OpReleaseAll i _ | OpDelete i | OpUpdate i _ _ | OpSet i _ _ => Some i
  | OpClean _ => None
  end.

(** What the program takes for granted of a call: the kind of object is a bit,
    the counters do not overflow, and no node has the address of a key as its
    id. *)
Definition allowed (c : cache) (o : op) : Prop :=
  countable_size c /\
  (forall i, op_id o = Some i -> 0 <= snd i < 2) /\
  match o with
  | OpGet i => countable i c
  | OpRelease (_, g, r) addr | OpReleaseAll (_, g, r) addr => not_a_key addr g r c
  | _ => True
  end.

Lemma bool_some {A} (a : option A) (b : bool) : (a = None <-> b = false) -> bool_decide (is_Some a) = b.
Proof.
  intros H. destruct b.
  - apply bool_decide_eq_true_2. destruct a; [eauto|]. discriminate (proj1 H eq_refl).
  - apply bool_decide_eq_false_2. rewrite (proj2 H eq_refl). now intros [? ?].
Qed.

Lemma bool_some2 {A B} (a : option A) (b : option B) : (a = None <-> b = None) -> bool_decide (is_Some a) = bool_decide (is_Some b).
Proof.
  intros H. apply bool_some. rewrite bool_decide_eq_false, <- eq_None_not_Some. exact H.
Qed.

Lemma step_refines data pm c o :
  rep pm c -> allowed c o ->
  exists pm', run_op data pm o = Some (pm', snd (spec_op c o)) /\ rep pm' (fst (spec_op c o)) /\
    pm_calls pm' ≡ₚ spec_calls data c o ++ pm_calls pm.
Proof.
  intros H (Hsz & Hraw & Hal). unfold spec_calls.
  destruct o as [i d n|i|i|i addr|i addr|i|i d n|i d n|g]; cbn [run_op spec_op spec_gone];
    try (destruct i as [[k g] r]; specialize (Hraw _ eq_refl); cbn [snd] in Hraw).
  - pose proof (MapCreate_ok pm c k g r d n data H Hraw Hsz) as HC. destruct (spec_create _ d n c) as [[c' vs] b].
    destruct HC as (pm' & a & -> & Ha & Hrep & Hcl). exists pm'. runs. cbn [fst snd]. rewrite (bool_some _ _ Ha).
    split; [done|]. split; [done|]. now rewrite Hcl, reverse_Permutation, app_nil_r.
  - destruct (MapGet_ok pm c k g r H Hal) as (pm' & a & -> & Ha & Hrep & Hcl). exists pm'. runs.
    destruct (spec_get _ c) as [c' x]. cbn [fst snd] in *. unfold found_answer. rewrite (bool_some2 _ _ Ha).
    split; [done|]. split; [done|]. now rewrite Hcl.
  - destruct (MapIncrRefcnt_ok pm c k g r H) as (pm' & -> & Hrep & Hcl). exists pm'. runs.
    destruct (spec_count _ _ c) as [c' b]. cbn [fst snd] in *. rewrite Hcl. now destruct b.
  - destruct (release_ok (fun n => i32 (n - 1)) pm c k addr g r data H Hal) as (pm' & Hrun & Hrep & Hcl). exists pm'.
    unfold MapRelease. rewrite Hrun. runs. destruct (spec_count _ _ c) as [c' b]. cbn [fst snd] in *. rewrite Hcl. now destruct b.
  - destruct (release_ok (fun _ => 0) pm c k addr g r data H Hal) as (pm' & Hrun & Hrep & Hcl). exists pm'.
    unfold MapReleaseAll. rewrite Hrun. runs. destruct (spec_count _ _ c) as [c' b]. cbn [fst snd] in *. rewrite Hcl. now destruct b.
  - destruct (MapDelete_ok pm c k g r data H) as (pm' & -> & Hrep & Hcl). runs. exists pm'. rewrite Hcl.
    pose proof (fun x => lookup_id_Some (k, g, r) (objects c) x) as Hid. unfold spec_delete in *.
    destruct (lookup_id _ _) as [x|]; [destruct (_ =? 0)|]; cbn [fst snd] in *; (split; [done|]); (split; [done|]); cbn; [|done|done].
    destruct (Hid x eq_refl) as [_ Ex]. unfold call_for. now rewrite Ex.
  - destruct (MapUpdate_ok pm c k g r d n data H) as (pm' & a & -> & Ha & Hrep & Hcl). runs. exists pm'. rewrite Hcl. unfold spec_set in *.
    destruct (lookup_id _ _) as [x|]; cbn [fst snd] in *; rewrite (bool_some2 _ _ Ha); done.
  - destruct (lookup_id (k, g, r) (objects c)) as [x|] eqn:El.
    + destruct (MapSet_cached_ok pm c k g r d n data x H El) as (pm' & a & -> & Hrep & Hcl). runs. exists pm'. now rewrite Hcl.
    + destruct (MapSet_new_ok pm c k g r d n data H Hraw Hsz El) as (pm' & a & -> & Hrep & Hcl). runs. exists pm'. rewrite Hcl.
      split; [done|]. split; [done|]. cbn. now rewrite reverse_Permutation, app_nil_r.
  - destruct (MapClean_ok pm c g data H) as (pm' & vs & -> & Hrep & Hvs & Hcl). runs. exists pm'. rewrite Hcl.
    split; [done|]. split; [done|]. now rewrite Hvs, app_nil_r.
Qed.

(** ** Sequences *)

Fixpoint run_ops (data : Z) (pm : Map) (os : list op) : option (Map * list answer) :=
  match os with
  | [] => Some (pm, [])
  | o :: os => x ← run_op data pm o; y ← run_ops data (fst x) os; Some (fst y, snd x :: snd y)
  end.

Fixpoint spec_ops (c : cache) (os : list op) : cache * list answer :=
  match os with
  | [] => (c, [])
  | o :: os => let '(c, x) := spec_op c o in let '(c, xs) := spec_ops c os in (c, x :: xs)
  end.

Fixpoint gone_ops (c : cache) (os : list op) : list cached :=
  match os with [] => [] | o :: os => spec_gone c o ++ gone_ops (fst (spec_op c o)) os end.

Fixpoint calls_ops (data : Z) (c : cache) (os : list op) : list callback :=
  match os with [] => [] | o :: os => spec_calls data c o ++ calls_ops data (fst (spec_op c o)) os end.

Fixpoint allowed_ops (c : cache) (os : list op) : Prop :=
  match os with [] => True | o :: os => allowed c o /\ allowed_ops (fst (spec_op c o)) os end.

Lemma ops_refine data os : forall pm c,
  rep pm c -> allowed_ops c os ->
  exists pm', run_ops data pm os = Some (pm', snd (spec_ops c os)) /\ rep pm' (fst (spec_ops c os)) /\
    pm_calls pm' ≡ₚ calls_ops data c os ++ pm_calls pm.
Proof.
  induction os as [|o os IH]; intros pm c H Hal; cbn [run_ops spec_ops calls_ops].
  - now exists pm.
  - destruct Hal as [Ha Hal]. destruct (step_refines data pm c o H Ha) as (pm1 & -> & Hrep & Hcl). runs.
    destruct (spec_op c o) as [c1 x]. cbn [fst snd] in *.
    destruct (IH pm1 c1 Hrep Hal) as (pm2 & -> & Hrep2 & Hcl2). runs.
    destruct (spec_ops c1 os) as [c2 xs]. cbn [fst snd] in *. exists pm2.
    split; [done|]. split; [done|]. rewrite Hcl2, Hcl, !app_assoc. apply Permutation_app_tail, Permutation_app_comm.
Qed.

(** ** Checks that compute *)

(** A check of [allowed] that computes. *)
Definition allowed_b (c : cache) (o : op) : bool :=
  (0 <=? limit c) && (lenZ (objects c) + 1 <? 2 ^ 64) &&
  (match op_id o with Some i => (0 <=? snd i) && (snd i <? 2) | None => true end) &&
  match o with
  | OpGet i => match lookup_id i (objects c) with
               | Some x => (c_refcnt x <? 10000) || negb (Z.land (fst (fst i)) META_LOGICAL_ID_MASK =? 0)
               | None => true
               end
  | OpRelease (_, g, r) addr | OpReleaseAll (_, g, r) addr => bool_decide (lookup_id (addr, g, r) (objects c) = None)
  | _ => true
  end.

#[export] Instance cached_eq_dec : EqDecision cached.
Proof. solve_decision. Defined.

Lemma allowed_b_sound c o : allowed_b c o = true -> allowed c o.
Proof.
  unfold allowed_b, allowed, countable_size. intros H. apply andb_prop in H as [H Ho]. apply andb_prop in H as [H Hi].
  apply andb_prop in H as [Hl Hs]. split; [split; lia|]. split.
  - intros i E. rewrite E in Hi. lia.
  - destruct o as [| i| |[[k g] r] a|[[k g] r] a| | | |]; try done; try (apply bool_decide_eq_true in Ho; exact Ho).
    intros x Hx Hm. rewrite Hx in Ho. apply orb_prop in Ho as [Ho|Ho]; [lia|]. rewrite Hm in Ho. done.
Qed.

Fixpoint allowed_ops_b (c : cache) (os : list op) : bool :=
  match os with [] => true | o :: os => allowed_b c o && allowed_ops_b (fst (spec_op c o)) os end.

Lemma allowed_ops_b_sound : forall os c, allowed_ops_b c os = true -> allowed_ops c os.
Proof.
  induction os as [|o os IH]; intros c H; cbn in *; [done|]. apply andb_prop in H as [Ho Hos].
  split; [now apply allowed_b_sound|auto].
Qed.
