(* ===== verification/NodeCacheParts.v ===== *)
(** * The partitioned node cache (btree/btree_pmap.c)

    The cache is split into partitions, each a cache of its own with its own
    lock; a key is served by the partition its hash names. The operations
    choose the partition and pass the call on. *)

From S2P Require Import Prelude Hash NodeCache NodeCacheRep NodeCacheSpec NodeCacheStep NodeCacheRefine NodeCacheClock NodeCacheAdd NodeCacheHistory.
From stdpp Require Import list.
Open Scope Z_scope.

Record PMap := mk_PMap { parts : list Map; nparts : Z }.

Definition PMapInit (n nbuckets max_entries : Z) (replacement_callback : bool) : PMap :=
  mk_PMap (replicate (z2n (u32 n)) (MapInit nbuckets max_entries replacement_callback)) (u32 n).

Definition PMapNEntries (pm : PMap) : Z := foldl (fun n m => u64 (n + MapNEntries m)) 0 (parts pm).

(** The partition of a key; the remainder by zero is a fault. *)
Definition p_index (n key cguid : Z) : option nat :=
  if n =? 0 then None else Some (z2n (hash_key key cguid mod n)).

Definition p {A} (pm : PMap) (key cguid : Z) (f : Map -> option (Map * A)) : option (PMap * A) :=
  j ← p_index (nparts pm) key cguid;
  m ← parts pm !! j;
  r ← f m;
  Some (mk_PMap (<[j := fst r]> (parts pm)) (nparts pm), snd r).

Definition PMapCreate (pm : PMap) (key keylen data datalen cguid rawobj cb_data : Z) : option (PMap * ptr) :=
  p pm key cguid (fun m => MapCreate m key keylen data datalen cguid rawobj cb_data).

Definition PMapUpdate (pm : PMap) (key keylen data datalen cguid rawobj cb_data : Z) : option (PMap * ptr) :=
  p pm key cguid (fun m => MapUpdate m key keylen data datalen cguid rawobj cb_data).

Definition PMapSet (pm : PMap) (key keylen data datalen cguid rawobj cb_data : Z) : option (PMap * (ptr * Z * Z)) :=
  p pm key cguid (fun m => r ← MapSet m key keylen data datalen cguid rawobj cb_data;
                           let '(m, a, d, n) := r in Some (m, (a, d, n))).

Definition PMapGet (pm : PMap) (key keylen cguid rawobj : Z) : option (PMap * (ptr * Z * Z)) :=
  p pm key cguid (fun m => r ← MapGet m key keylen cguid rawobj; let '(m, a, d, n) := r in Some (m, (a, d, n))).

Definition PMapGetRefcnt (pm : PMap) (key keylen cguid rawobj : Z) : option Z :=
  j ← p_index (nparts pm) key cguid; m ← parts pm !! j; MapGetRefcnt m key keylen cguid rawobj.

Definition PMapIncrRefcnt (pm : PMap) (key keylen cguid rawobj : Z) : option (PMap * Z) :=
  p pm key cguid (fun m => MapIncrRefcnt m key keylen cguid rawobj).

Definition PMapRelease (pm : PMap) (key key_addr keylen cguid rawobj cb_data : Z) : option (PMap * Z) :=
  p pm key cguid (fun m => MapRelease m key key_addr keylen cguid rawobj cb_data).

Definition PMapReleaseAll (pm : PMap) (key key_addr keylen cguid rawobj cb_data : Z) : option (PMap * Z) :=
  p pm key cguid (fun m => MapReleaseAll m key key_addr keylen cguid rawobj cb_data).

Definition PMapDelete (pm : PMap) (key keylen cguid rawobj cb_data : Z) : option (PMap * Z) :=
  p pm key cguid (fun m => MapDelete m key keylen cguid rawobj cb_data).

(** The loop of PMapClean. *)
Fixpoint clean_parts (ms : list Map) (cguid cb_data : Z) : option (list Map) :=
  match ms with
  | [] => Some []
  | m :: ms => m ← MapClean m cguid cb_data; ms ← clean_parts ms cguid cb_data; Some (m :: ms)
  end.

Definition PMapClean (pm : PMap) (cguid cb_data : Z) : option PMap :=
  ms ← clean_parts (parts pm) cguid cb_data; Some (mk_PMap ms (nparts pm)).

(** ** One operation *)

Definition prun_op (data : Z) (pm : PMap) (o : op) : option (PMap * answer) :=
  match o with
  | OpCreate (k, g, r) d n => x ← PMapCreate pm k 8 d n g r data; Some (fst x, (bool_decide (is_Some (snd x)), 0, 0))
  | OpGet (k, g, r) => x ← PMapGet pm k 8 g r;
                       let '(pm, (a, d, n)) := x in Some (pm, (bool_decide (is_Some a), d, n))
  | OpIncr (k, g, r) => x ← PMapIncrRefcnt pm k 8 g r; Some (fst x, (snd x =? 1, 0, 0))
  | OpRelease (k, g, r) addr => x ← PMapRelease pm k addr 8 g r data; Some (fst x, (snd x =? 1, 0, 0))
  | OpReleaseAll (k, g, r) addr => x ← PMapReleaseAll pm k addr 8 g r data; Some (fst x, (snd x =? 1, 0, 0))
  | OpDelete (k, g, r) => x ← PMapDelete pm k 8 g r data; Some (fst x, (snd x =? 0, 0, 0))
  | OpUpdate (k, g, r) d n => x ← PMapUpdate pm k 8 d n g r data; Some (fst x, (bool_decide (is_Some (snd x)), 0, 0))
  | OpSet (k, g, r) d n => x ← PMapSet pm k 8 d n g r data;
                           let '(pm, (a, d, n)) := x in Some (pm, (true, d, n))
  | OpClean g => pm ← PMapClean pm g data; Some (pm, (true, 0, 0))
  end.

(** An operation on one object is that operation on its partition. *)
Lemma prun_part data pm o k g r :
  op_id o = Some (k, g, r) -> prun_op data pm o = p pm k g (fun m => run_op data m o).
Proof.
  unfold p. destruct o as [i d n|i|i|i a|i a|i|i d n|i d n|g']; intros E; try done; cbn in E; injection E as ->;
    cbn [prun_op run_op]; unfold PMapCreate, PMapGet, PMapIncrRefcnt, PMapRelease, PMapReleaseAll, PMapDelete, PMapUpdate, PMapSet, p;
    (destruct (p_index (nparts pm) k g) as [j|]; [|done]); runs; (destruct (parts pm !! j) as [m|]; [|done]); runs.
  - now destruct (MapCreate _ _ _ _ _ _ _ _) as [[? ?]|].
  - now destruct (MapGet _ _ _ _ _) as [[[[? ?] ?] ?]|].
  - now destruct (MapIncrRefcnt _ _ _ _ _) as [[? ?]|].
  - now destruct (MapRelease _ _ _ _ _ _ _) as [[? ?]|].
  - now destruct (MapReleaseAll _ _ _ _ _ _ _) as [[? ?]|].
  - now destruct (MapDelete _ _ _ _ _ _) as [[? ?]|].
  - now destruct (MapUpdate _ _ _ _ _ _ _ _) as [[? ?]|].
  - now destruct (MapSet _ _ _ _ _ _ _ _) as [[[[? ?] ?] ?]|].
Qed.

(** ** The specification: a list of caches *)

Definition part_of (n : nat) (i : id) : nat := z2n (hash_key (fst (fst i)) (snd (fst i)) mod n2z n).

Definition pspec_op (cs : list cache) (o : op) : list cache * answer :=
  match op_id o with
  | Some i =>
      let j := part_of (length cs) i in
      match cs !! j with
      | Some c => (<[j := fst (spec_op c o)]> cs, snd (spec_op c o))
      | None => (cs, (false, 0, 0))
      end
  | None => ((fun c => fst (spec_op c o)) <$> cs, (true, 0, 0))
  end.

Definition prep (pm : PMap) (cs : list cache) : Prop :=
  Forall2 rep (parts pm) cs /\ nparts pm = lenZ cs /\ 0 < lenZ cs.

Definition pallowed (cs : list cache) (o : op) : Prop := Forall (fun c => allowed c o) cs.

Lemma clean_parts_ok data g : forall ms cs,
  Forall2 rep ms cs ->
  exists ms', clean_parts ms g data = Some ms' /\ Forall2 rep ms' (spec_clean g <$> cs).
Proof.
  intros ms cs H. induction H as [|m c ms cs Hm H IH]; cbn [clean_parts].
  - exists []. split; [done|constructor].
  - destruct (MapClean_ok m c g data Hm) as (m' & vs & -> & Hrep & _). destruct IH as (ms' & -> & Hms). runs.
    eexists. split; [done|]. now constructor.
Qed.

Lemma pstep_refines data pm cs o :
  prep pm cs -> pallowed cs o ->
  exists pm', prun_op data pm o = Some (pm', snd (pspec_op cs o)) /\ prep pm' (fst (pspec_op cs o)).
Proof.
  intros (Hp & Hn & Hpos) Hal. unfold pspec_op. destruct (op_id o) as [[[k g] r]|] eqn:E.
  - rewrite (prun_part _ _ _ _ _ _ E). unfold p, p_index. rewrite Hn. destruct (Z.eqb_spec (lenZ cs) 0); [lia|]. runs.
    change (z2n (hash_key k g mod lenZ cs)) with (part_of (length cs) (k, g, r)). set (j := part_of (length cs) (k, g, r)).
    assert (Hj : (j < length cs)%nat) by (unfold j, part_of; cbn [fst snd]; pose proof (Z.mod_pos_bound (hash_key k g) (lenZ cs) Hpos); lia).
    clearbody j. apply lookup_lt_is_Some in Hj as [c Hc]. rewrite Hc. destruct (Forall2_lookup_r _ _ _ _ _ Hp Hc) as (m & Hm & Hrep).
    rewrite Hm. runs. destruct (step_refines data m c o Hrep) as (m' & -> & Hrep' & _); [exact (Forall_at Hal Hc)|]. runs.
    eexists. split; [done|]. cbn [fst]. split; [now apply Forall2_insert|]. cbn. now rewrite length_insert.
  - destruct o as [| | | | | | | |g]; try done. cbn [prun_op spec_op fst]. unfold PMapClean.
    destruct (clean_parts_ok data g _ _ Hp) as (ms' & -> & Hms). runs. eexists. split; [done|].
    unfold prep. cbn. rewrite length_fmap. done.
Qed.

(** ** Sequences *)

Fixpoint prun_ops (data : Z) (pm : PMap) (os : list op) : option (PMap * list answer) :=
  match os with
  | [] => Some (pm, [])
  | o :: os => x ← prun_op data pm o; y ← prun_ops data (fst x) os; Some (fst y, snd x :: snd y)
  end.

Fixpoint pspec_ops (cs : list cache) (os : list op) : list cache * list answer :=
  match os with
  | [] => (cs, [])
  | o :: os => let '(cs, x) := pspec_op cs o in let '(cs, xs) := pspec_ops cs os in (cs, x :: xs)
  end.

Fixpoint pallowed_ops (cs : list cache) (os : list op) : Prop :=
  match os with [] => True | o :: os => pallowed cs o /\ pallowed_ops (fst (pspec_op cs o)) os end.

Lemma pops_refine data os : forall pm cs,
  prep pm cs -> pallowed_ops cs os ->
  exists pm', prun_ops data pm os = Some (pm', snd (pspec_ops cs os)) /\ prep pm' (fst (pspec_ops cs os)).
Proof.
  induction os as [|o os IH]; intros pm cs H Hal; cbn [prun_ops pspec_ops].
  - now exists pm.
  - destruct Hal as [Ha Hal]. destruct (pstep_refines data pm cs o H Ha) as (pm1 & -> & Hrep). runs.
    destruct (pspec_op cs o) as [c1 x]. cbn [fst snd] in *.
    destruct (IH pm1 c1 Hrep Hal) as (pm2 & -> & Hrep2). runs.
    destruct (pspec_ops c1 os) as [c2 xs]. cbn [fst snd] in *. now exists pm2.
Qed.

Lemma PMapInit_ok n nbuckets max :
  0 < n < 2 ^ 32 -> 0 < nbuckets -> prep (PMapInit n nbuckets max true) (replicate (z2n n) (spec_init max)).
Proof.
  intros Hn Hb. unfold prep, PMapInit. cbn. rewrite u32_small, length_replicate by lia. split; [|lia].
  apply Forall2_replicate. now apply MapInit_ok.
Qed.

Fixpoint pallowed_ops_b (cs : list cache) (os : list op) : bool :=
  match os with [] => true | o :: os => forallb (fun c => allowed_b c o) cs && pallowed_ops_b (fst (pspec_op cs o)) os end.

Lemma pallowed_ops_b_sound : forall os cs, pallowed_ops_b cs os = true -> pallowed_ops cs os.
Proof.
  induction os as [|o os IH]; intros cs H; cbn in *; [done|]. apply andb_prop in H as [Ho Hos]. split; [|auto].
  apply Forall_forall. intros c Hc. apply allowed_b_sound. rewrite forallb_forall in Ho. now apply Ho, list_elem_of_In.
Qed.

(** ** Every object is in the partition of its key *)

Lemma ids_replace_one c i : i ∈ c_id <$> objects (fst (replace_one c)) -> i ∈ c_id <$> objects c.
Proof.
  destruct (replace_one c) as [c' [v|]] eqn:E; cbn [fst].
  - apply replace_one_Some in E as (l1 & l2 & -> & Hk & _).
    assert (Hids : c_id <$> objects c' = c_id <$> l1 ++ l2).
    { clear -Hk. induction Hk as [|x y l l' H _ IH]; cbn; [done|]. rewrite IH. now destruct H as [-> | ->]. }
    rewrite Hids, !fmap_app, !elem_of_app. cbn. rewrite elem_of_cons. naive_solver.
  - apply replace_one_None in E as (_ & -> & _). now rewrite <- list_fmap_compose.
Qed.

Lemma ids_shed i : forall fuel c, i ∈ c_id <$> objects (fst (shed fuel c)) -> i ∈ c_id <$> objects c.
Proof.
  induction fuel as [|fuel IH]; intros c; cbn [shed]; [done|]. destruct (extra c =? 0); [done|].
  pose proof (ids_replace_one c i) as H1. destruct (replace_one c) as [c1 [v|]]; cbn [fst] in *; [|done].
  specialize (IH (set_extra (i32 (extra c1 - 1)) c1)). destruct (shed fuel _) as [c2 vs]. cbn [fst] in *. auto.
Qed.

Lemma ids_add i j d n c : i ∈ c_id <$> objects (fst (spec_add j d n c)) -> i = j \/ i ∈ c_id <$> objects c.
Proof.
  unfold spec_add. set (c1 := mk_cache _ _ _ _).
  assert (H1 : i ∈ c_id <$> objects c1 -> i = j \/ i ∈ c_id <$> objects c) by (intros H%elem_of_cons; exact H).
  destruct (_ && _); [|done]. unfold replace. pose proof (ids_replace_one c1 i) as H2.
  destruct (replace_one c1) as [c2 [v|]]; cbn [fst] in *; [|auto].
  pose proof (ids_shed i (S (length (objects c2))) c2) as H3. destruct (shed _ _) as [c3 vs]. cbn [fst] in *. auto.
Qed.

Lemma ids_changed i j f c :
  (forall x, c_id (f x) = c_id x) -> i ∈ c_id <$> objects (on_lists (change j f) c) -> i ∈ c_id <$> objects c.
Proof.
  intros Hf. rewrite objects_on_lists by apply change_app. unfold change. rewrite <- list_fmap_compose.
  intros (x & -> & Hx)%list_elem_of_fmap. cbn.
  replace (c_id (if has_id j x then f x else x)) with (c_id x) by (destruct (has_id j x); [now rewrite Hf|done]).
  now apply list_elem_of_fmap_2.
Qed.

Lemma ids_filtered i (f : cached -> bool) c : i ∈ c_id <$> objects (on_lists (List.filter f) c) -> i ∈ c_id <$> objects c.
Proof.
  rewrite objects_on_lists by apply List.filter_app. intros (x & -> & Hx)%list_elem_of_fmap.
  apply list_elem_of_In, List.filter_In in Hx as [Hx _]. apply list_elem_of_fmap_2. now apply list_elem_of_In.
Qed.

(** An operation brings in no identity but its own. *)
Lemma ids_step i c o : i ∈ c_id <$> objects (fst (spec_op c o)) -> op_id o = Some i \/ i ∈ c_id <$> objects c.
Proof.
  assert (Ht : forall y, c_id (touch c y) = c_id y) by (intros y; unfold touch; now destruct (limit c =? 0)).
  destruct o as [j d n|j|j|j a|j a|j|j d n|j d n|g]; cbn [spec_op op_id];
    unfold spec_create, spec_get, spec_count, spec_delete, spec_set.
  - destruct (lookup_id j (objects c)); cbn [fst]; [auto|]. pose proof (ids_add i j d n c) as Ha.
    destruct (spec_add j d n c). cbn [fst] in *. intros H. destruct (Ha H) as [->|]; auto.
  - destruct (lookup_id j (objects c)); cbn [fst]; [|auto]. intros H%ids_changed; auto. intros x. now rewrite Ht.
  - destruct (lookup_id j (objects c)); cbn [fst]; [|auto]. intros H%ids_changed; auto.
  - destruct (lookup_id j (objects c)); cbn [fst]; [|auto]. intros H%ids_changed; auto.
  - destruct (lookup_id j (objects c)); cbn [fst]; [|auto]. intros H%ids_changed; auto.
  - destruct (lookup_id j (objects c)) as [x|]; [destruct (_ =? 0)|]; cbn [fst]; [| |auto].
    + intros H%ids_filtered; auto.
    + intros H%ids_changed; auto.
  - destruct (lookup_id j (objects c)); cbn [fst]; [|auto]. intros H%ids_changed; auto. intros x. now rewrite Ht.
  - destruct (lookup_id j (objects c)); cbn [fst].
    + intros H%ids_changed; auto. intros x. now rewrite Ht.
    + intros H. destruct (ids_add i j d n c H) as [->|]; auto.
  - intros H%ids_filtered; auto.
Qed.

Definition placed (cs : list cache) : Prop :=
  forall j c i, cs !! j = Some c -> i ∈ c_id <$> objects c -> part_of (length cs) i = j.

Lemma placed_step cs o : placed cs -> placed (fst (pspec_op cs o)) /\ length (fst (pspec_op cs o)) = length cs.
Proof.
  intros H. unfold pspec_op. destruct (op_id o) as [[[k g] r]|] eqn:E.
  - set (j := part_of (length cs) (k, g, r)). assert (Ej : part_of (length cs) (k, g, r) = j) by done.
    clearbody j. destruct (cs !! j) as [c|] eqn:Ec; [|done]. cbn [fst]. rewrite length_insert. split; [|done].
    intros j' c' i Hj' Hi. rewrite length_insert. destruct (decide (j' = j)) as [->|Hne].
    + rewrite list_lookup_insert_eq in Hj' by now apply lookup_lt_Some in Ec. injection Hj' as <-.
      apply ids_step in Hi as [Hi|Hi]; [|now apply (H j c)]. rewrite E in Hi. now injection Hi as <-.
    + rewrite list_lookup_insert_ne in Hj' by done. now apply (H j' c').
  - cbn [fst]. split; [|apply length_fmap]. intros j c i Hj Hi. rewrite length_fmap.
    rewrite list_lookup_fmap in Hj. destruct (cs !! j) as [c0|] eqn:Ec; [|done]. injection Hj as <-.
    apply ids_step in Hi as [Hi|Hi]; [congruence|]. now apply (H j c0).
Qed.

Lemma placed_ops : forall os cs, placed cs -> placed (fst (pspec_ops cs os)).
Proof.
  induction os as [|o os IH]; intros cs H; cbn [pspec_ops]; [done|]. destruct (placed_step cs o H) as [H1 _].
  destruct (pspec_op cs o) as [c1 x]. specialize (IH c1 H1). now destruct (pspec_ops c1 os).
Qed.

(** From [PMapInit] on, any sequence of calls to the partitioned cache runs
    without a fault and gives the answers of the specification's partitions,
    and every cached object is in the partition its key hashes to, so that no
    object is cached twice. *)
Theorem pmap_refines n nbuckets limit data os :
  0 < n < 2 ^ 32 -> 0 < nbuckets -> pallowed_ops (replicate (z2n n) (spec_init limit)) os ->
  exists pm, prun_ops data (PMapInit n nbuckets limit true) os =
      Some (pm, snd (pspec_ops (replicate (z2n n) (spec_init limit)) os)) /\
    prep pm (fst (pspec_ops (replicate (z2n n) (spec_init limit)) os)) /\
    placed (fst (pspec_ops (replicate (z2n n) (spec_init limit)) os)).
Proof.
  intros Hn Hb Hal. destruct (pops_refine data os _ _ (PMapInit_ok n nbuckets limit Hn Hb) Hal) as (pm & Hrun & Hrep).
  exists pm. split; [done|]. split; [done|]. apply placed_ops. intros j c i Hj Hi.
  apply lookup_replicate in Hj as [-> _]. now apply elem_of_nil in Hi.
Qed.

Lemma pmap_refines_witness :
  exists pm, prun_ops 99 (PMapInit 3 4 2 true) [OpCreate (1, 7, 0) 1001 8; OpCreate (2, 7, 0) 1002 8; OpGet (1, 7, 0); OpClean 7; OpGet (2, 7, 0)] =
    Some (pm, [(true, 0, 0); (true, 0, 0); (true, 1001, 8); (true, 0, 0); (false, 0, 0)]).
Proof.
  destruct (pmap_refines 3 4 2 99 [OpCreate (1, 7, 0) 1001 8; OpCreate (2, 7, 0) 1002 8; OpGet (1, 7, 0); OpClean 7; OpGet (2, 7, 0)])
    as (pm & Hrun & _).
  - lia.
  - lia.
  - apply pallowed_ops_b_sound. vm_compute. reflexivity.
  - exists pm. exact Hrun.
Defined.
