(* ===== verification/NodeCacheTheorems.v ===== *)
(** * The node cache: theorems

    The cache implements its specification over any sequence of operations; an
    object stays, and keeps its data, as long as it is referenced; the number
    of entries is bounded by the limit and the entries admitted beyond it; the
    clock finds an unreferenced object within two turns. The last part shows
    three places where the code does not do what it means to. *)

From S2P Require Import Prelude Hash NodeCache NodeCacheRep NodeCacheSpec NodeCacheStep NodeCacheRefine NodeCacheClock NodeCacheAdd NodeCacheHistory.
From stdpp Require Import list.
Open Scope Z_scope.

(** ** Refinement *)

(** C8: from [MapInit] with a replacement callback on, any sequence of calls with
    keys of 8 bytes runs without a failed assertion, a NULL pointer or an endless
    loop, gives the answers of the specification and leaves a cache whose lists
    represent the specification's state; the callback is called once for each
    object that left and for each replaced datum. The calls are those the program
    may make ([allowed]): the counters do not overflow and no node has the
    address of a key as its id. *)
Theorem cache_refines nbuckets limit data os :
  0 < nbuckets -> allowed_ops (spec_init limit) os ->
  exists pm, run_ops data (MapInit nbuckets limit true) os = Some (pm, snd (spec_ops (spec_init limit) os)) /\
    rep pm (fst (spec_ops (spec_init limit) os)) /\ pm_calls pm ≡ₚ calls_ops data (spec_init limit) os.
Proof.
  intros Hn Hal. destruct (ops_refine data os _ _ (MapInit_ok nbuckets limit Hn) Hal) as (pm & Hrun & Hrep & Hcl).
  exists pm. cbn in Hcl. now rewrite app_nil_r in Hcl.
Qed.

(** ** Referenced objects stay *)

Definition ids (c : cache) : list id := c_id <$> objects c.

(** The same object, up to its use bit. *)
Definition same_object (x y : cached) : Prop :=
  c_id y = c_id x /\ c_data y = c_data x /\ c_refcnt y = c_refcnt x.

Lemma kept_same x y : kept x y -> same_object x y.
Proof. now intros [-> | ->]. Qed.

Lemma kept_ids l l' : Forall2 kept l l' -> c_id <$> l' = c_id <$> l.
Proof. induction 1 as [|x y l l' H _ IH]; cbn; [done|]. rewrite IH. now destruct H as [-> | ->]. Qed.

(** A replacement leaves a referenced object alone. *)
Lemma replace_one_keeps c i x :
  NoDup (ids c) -> lookup_id i (objects c) = Some x -> c_refcnt x <> 0 ->
  NoDup (ids (fst (replace_one c))) /\
  (exists y, lookup_id i (objects (fst (replace_one c))) = Some y /\ same_object x y) /\
  (forall v, snd (replace_one c) = Some v -> c_id v <> i).
Proof.
  intros Hnd Hx Hr. unfold ids in *. apply lookup_id_Some in Hx as [Hx Hi].
  destruct (replace_one c) as [c' [v|]] eqn:E; cbn [fst snd].
  - apply replace_one_Some in E as (l1 & l2 & Eo & Hk & Hb & _). rewrite Eo in Hnd, Hx.
    pose proof (kept_ids _ _ Hk) as Hids. rewrite Hids.
    assert (Hnd' : NoDup (c_id v :: (c_id <$> l1 ++ l2))) by (rewrite fmap_app in *; cbn in Hnd; now rewrite Permutation_middle).
    apply NoDup_cons in Hnd' as [Hv Hnd'].
    assert (Hx' : x ∈ l1 ++ l2).
    { rewrite elem_of_app, elem_of_cons in Hx. rewrite elem_of_app. destruct Hx as [?|[->|?]]; [by left| |by right].
      apply orb_false_iff in Hb as [_ Hb]. apply negb_false_iff, Z.eqb_eq in Hb. done. }
    split; [done|]. split.
    + apply list_elem_of_lookup in Hx' as [j Hj]. destruct (Forall2_lookup_l _ _ _ _ _ Hk Hj) as (y & Hy & Hxy).
      apply kept_same in Hxy. exists y. split; [|done]. destruct Hxy as (Ei & _). rewrite <- Hi, <- Ei.
      apply lookup_id_elem; [now rewrite Hids|]. apply list_elem_of_lookup; eauto.
    + intros w [= <-] Ev. apply Hv. rewrite Ev, <- Hi. now apply list_elem_of_fmap_2.
  - apply replace_one_None in E as (_ & -> & _). rewrite <- list_fmap_compose.
    change (c_id ∘ set_use false) with c_id. split; [done|]. split; [|done].
    exists (set_use false x). split; [|done]. rewrite <- Hi. change (c_id x) with (c_id (set_use false x)).
    apply lookup_id_elem; [now rewrite <- list_fmap_compose|]. now apply list_elem_of_fmap_2.
Qed.

Lemma shed_keeps i : forall fuel c x,
  NoDup (ids c) -> lookup_id i (objects c) = Some x -> c_refcnt x <> 0 ->
  NoDup (ids (fst (shed fuel c))) /\ (exists y, lookup_id i (objects (fst (shed fuel c))) = Some y /\ same_object x y) /\
  (forall v, v ∈ snd (shed fuel c) -> c_id v <> i).
Proof.
  induction fuel as [|fuel IH]; intros c x Hnd Hx Hr; cbn [shed].
  { split; [done|]. split; [now exists x|]. cbn. now intros v ?%elem_of_nil. }
  destruct (extra c =? 0).
  { split; [done|]. split; [now exists x|]. cbn. now intros v ?%elem_of_nil. }
  destruct (replace_one_keeps c i x Hnd Hx Hr) as (Hnd1 & (y & Hy & Hxy) & Hv).
  destruct (replace_one c) as [c1 [v|]]; cbn [fst snd] in *.
  - destruct (IH (set_extra (i32 (extra c1 - 1)) c1) y Hnd1 Hy) as (Hnd2 & (z & Hz & Hyz) & Hw).
    { destruct Hxy as (_ & _ & ->). done. }
    destruct (shed fuel _) as [c2 ws]. cbn [fst snd] in *. split; [done|]. split.
    + exists z. split; [done|]. destruct Hxy as (? & ? & ?), Hyz as (? & ? & ?). unfold same_object. split_and!; congruence.
    + intros w [->|Hw']%elem_of_cons; [now apply Hv|now apply Hw].
  - split; [done|]. split; [now exists y|]. now intros w ?%elem_of_nil.
Qed.

Lemma replace_keeps c i x :
  NoDup (ids c) -> lookup_id i (objects c) = Some x -> c_refcnt x <> 0 ->
  NoDup (ids (fst (replace c))) /\ (exists y, lookup_id i (objects (fst (replace c))) = Some y /\ same_object x y) /\
  (forall v, v ∈ snd (replace c) -> c_id v <> i).
Proof.
  intros Hnd Hx Hr. unfold replace. destruct (replace_one_keeps c i x Hnd Hx Hr) as (Hnd1 & (y & Hy & Hxy) & Hv).
  destruct (replace_one c) as [c1 [v|]]; cbn [fst snd] in *.
  - destruct (shed_keeps i (S (length (objects c1))) c1 y Hnd1 Hy) as (Hnd2 & (z & Hz & Hyz) & Hw).
    { destruct Hxy as (_ & _ & ->). done. }
    destruct (shed _ _) as [c2 ws]. cbn [fst snd] in *. split; [done|]. split.
    + exists z. split; [done|]. destruct Hxy as (? & ? & ?), Hyz as (? & ? & ?). unfold same_object. split_and!; congruence.
    + intros w [->|Hw']%elem_of_cons; [now apply Hv|now apply Hw].
  - split; [done|]. split; [now exists y|]. now intros w ?%elem_of_nil.
Qed.

Lemma add_keeps c i j d n x :
  NoDup (ids c) -> lookup_id i (objects c) = Some x -> c_refcnt x <> 0 -> lookup_id j (objects c) = None ->
  NoDup (ids (fst (spec_add j d n c))) /\ (exists y, lookup_id i (objects (fst (spec_add j d n c))) = Some y /\ same_object x y) /\
  (forall v, v ∈ snd (spec_add j d n c) -> c_id v <> i).
Proof.
  intros Hnd Hx Hr Hj. unfold spec_add. set (c1 := mk_cache _ _ _ _).
  assert (Ho : objects c1 = mk_cached j d n 1 false false :: objects c) by done.
  assert (Hnd1 : NoDup (ids c1)).
  { unfold ids. rewrite Ho. cbn. constructor; [now apply lookup_id_None|done]. }
  assert (Hx1 : lookup_id i (objects c1) = Some x).
  { rewrite Ho. unfold lookup_id, has_id. cbn. rewrite bool_decide_eq_false_2; [done|]. intros ->. congruence. }
  destruct (_ && _); [now apply replace_keeps|]. split; [done|]. split; [now exists x|]. now intros v ?%elem_of_nil.
Qed.

Lemma ids_change i f c : (forall x, c_id (f x) = c_id x) -> ids (on_lists (change i f) c) = ids c.
Proof.
  intros Hf. unfold ids. rewrite objects_on_lists by apply change_app. unfold change.
  rewrite <- list_fmap_compose. apply list_fmap_ext. intros _ x _. cbn. now destruct (has_id i x).
Qed.

Lemma NoDup_ids_filter (f : cached -> bool) l : NoDup (c_id <$> l) -> NoDup (c_id <$> List.filter f l).
Proof.
  induction l as [|x l IH]; cbn; [done|]. intros [Hx Hnd]%NoDup_cons. destruct (f x); [|auto].
  cbn. constructor; [|auto]. intros (y & E & Hy)%list_elem_of_fmap. apply Hx. rewrite E.
  apply list_elem_of_fmap_2. apply list_elem_of_In in Hy. apply List.filter_In in Hy as [Hy _]. now apply list_elem_of_In.
Qed.

Lemma lookup_filter (f : cached -> bool) i l x :
  NoDup (c_id <$> l) -> lookup_id i l = Some x -> f x = true -> lookup_id i (List.filter f l) = Some x.
Proof.
  intros Hnd Hx Hf. apply lookup_id_Some in Hx as [Hx <-]. apply lookup_id_elem; [now apply NoDup_ids_filter|].
  apply list_elem_of_In, List.filter_In. split; [now apply list_elem_of_In|done].
Qed.

(** The references to [i] after an operation. *)
Definition held (i : id) (r : Z) (o : op) : Z :=
  match o with
  | OpGet j | OpIncr j => if decide (j = i) then r + 1 else r
  | OpRelease j _ | OpDelete j => if decide (j = i) then r - 1 else r
  | _ => r
  end.

(** The operations that replace the data of [i] or do not honour references. *)
Definition overrides (i : id) (o : op) : bool :=
  match o with
  | OpReleaseAll j _ | OpUpdate j _ _ | OpSet j _ _ => bool_decide (j = i)
  | OpClean g => snd (fst i) =? g
  | _ => false
  end.

(** Along [os] the object [i] is referenced all the time, [r] times at first. *)
Fixpoint held_through (i : id) (r : Z) (os : list op) : Prop :=
  match os with
  | [] => True
  | o :: os => overrides i o = false /\ 0 < held i r o < 2 ^ 31 /\ held_through i (held i r o) os
  end.

(** What one step leaves of [i]. *)
Definition remains (i : id) (d r : Z) (c : cache) : Prop :=
  exists y, lookup_id i (objects c) = Some y /\ c_data y = d /\ c_refcnt y = r.

Lemma remains_change i j f c d r r' :
  (forall x, c_id (f x) = c_id x) -> NoDup (ids c) -> remains i d r c ->
  (j = i -> forall x, c_data x = d -> c_refcnt x = r -> c_data (f x) = d /\ c_refcnt (f x) = r') -> (j <> i -> r' = r) ->
  NoDup (ids (on_lists (change j f) c)) /\ remains i d r' (on_lists (change j f) c).
Proof.
  intros Hf Hnd (x & Hx & Hd & Hr) He Hne. split; [now rewrite ids_change|].
  unfold remains. rewrite objects_on_lists by apply change_app. rewrite lookup_change, Hx by done. cbn.
  apply lookup_id_Some in Hx as [_ Hx]. eexists. split; [done|]. unfold has_id. case_bool_decide as E.
  - apply He; congruence.
  - rewrite Hne by congruence. done.
Qed.

Lemma remains_count i j f c d r r' :
  NoDup (ids c) -> remains i d r c -> (j = i -> f r = r') -> (j <> i -> r' = r) ->
  NoDup (ids (fst (spec_count f j c))) /\ remains i d r' (fst (spec_count f j c)).
Proof.
  intros Hnd H He Hne. unfold spec_count. destruct (lookup_id j (objects c)) as [z|] eqn:Ej; cbn [fst].
  - apply (remains_change i j _ c d r r'); [done|done|done| |done]. intros E x Hd Hr. cbn. split; [done|]. rewrite Hr. auto.
  - split; [done|]. rewrite Hne; [done|]. intros ->. destruct H as (x & Hx & _). congruence.
Qed.

Lemma and_3 (P Q R : Prop) : P /\ Q -> R -> P /\ Q /\ R.
Proof. tauto. Qed.

(** One operation that does not override [i]. *)
Lemma step_keeps i c o d r :
  NoDup (ids c) -> remains i d r c -> 0 < r < 2 ^ 31 -> overrides i o = false -> 0 < held i r o < 2 ^ 31 ->
  NoDup (ids (fst (spec_op c o))) /\ remains i d (held i r o) (fst (spec_op c o)) /\
  (forall v, v ∈ spec_gone c o -> c_id v <> i).
Proof.
  intros Hnd H Hr Ho Hh. pose proof H as (x & Hx & Hd & Hxr).
  destruct o as [j dd n|j|j|j addr|j addr|j|j dd n|j dd n|g]; cbn [spec_op spec_gone held overrides] in *;
    try (apply bool_decide_eq_false in Ho).
  - unfold spec_create. destruct (lookup_id j (objects c)) as [z|] eqn:Ej; cbn [fst snd].
    + split; [done|]. split; [done|]. now intros v ?%elem_of_nil.
    + destruct (add_keeps c i j dd n x Hnd Hx) as (Hnd' & (y & Hy & _ & Hyd & Hyr) & Hv); [lia|done|].
      destruct (spec_add j dd n c) as [c' vs]. cbn [fst snd] in *. split; [done|]. split; [|done].
      exists y. split; [done|]. split; congruence.
  - apply and_3; [|now intros v ?%elem_of_nil].
    unfold spec_get. destruct (lookup_id j (objects c)) as [z|] eqn:Ej; cbn [fst].
    + apply (remains_change i j _ c d r); [intros y; unfold touch; now destruct (limit c =? 0)|done|done|..].
      * intros E y Hyd Hyr. rewrite decide_True in * by done. rewrite Hyr. unfold touch.
        destruct (limit c =? 0); cbn; rewrite i32_small by lia; done.
      * intros E. now rewrite decide_False.
    + split; [done|]. rewrite decide_False; [done|]. intros ->. congruence.
  - apply and_3; [|now intros v ?%elem_of_nil].
    pose proof (remains_count i j (fun n => i32 (n + 1)) c d r (if decide (j = i) then r + 1 else r) Hnd H) as HR.
    destruct (spec_count _ j c) as [c' b]. apply HR; intros E; [rewrite decide_True in * by done; apply i32_small; lia|now rewrite decide_False].
  - apply and_3; [|now intros v ?%elem_of_nil].
    pose proof (remains_count i j (fun n => i32 (n - 1)) c d r (if decide (j = i) then r - 1 else r) Hnd H) as HR.
    destruct (spec_count _ j c) as [c' b]. apply HR; intros E; [rewrite decide_True in * by done; apply i32_small; lia|now rewrite decide_False].
  - apply and_3; [|now intros v ?%elem_of_nil].
    pose proof (remains_count i j (fun _ => 0) c d r r Hnd H) as HR.
    destruct (spec_count _ j c) as [c' b]. apply HR; [now intros ->|done].
  - unfold spec_delete. destruct (lookup_id j (objects c)) as [z|] eqn:Ej; cbn [fst snd].
    + destruct (Z.eqb_spec (i32 (c_refcnt z - 1)) 0) as [E0|E0]; cbn [fst snd option_list].
      * destruct (decide (j = i)) as [->|Hne].
        { rewrite Hx in Ej. injection Ej as <-. rewrite Hxr, i32_small in E0 by lia. lia. }
        pose proof (lookup_id_Some _ _ _ Hx) as [_ Hxi]. pose proof (lookup_id_Some _ _ _ Ej) as [_ Hzi]. split; [|split].
        -- unfold ids. rewrite objects_on_lists by apply without_app. now apply NoDup_ids_filter.
        -- exists x. split; [|done]. rewrite objects_on_lists by apply without_app. apply lookup_filter; [done|done|].
           unfold has_id. rewrite bool_decide_eq_false_2; [done|congruence].
        -- intros v Hv%list_elem_of_singleton. congruence.
      * apply and_3; [|now intros v ?%elem_of_nil].
        apply (remains_change i j _ c d r); [done|done|done|..]; intros E.
        -- intros y Hyd Hyr. rewrite decide_True in * by done. cbn. rewrite Hyr, i32_small by lia. done.
        -- now rewrite decide_False.
    + split; [done|]. rewrite decide_False; [|intros ->; congruence]. split; [done|]. now intros v ?%elem_of_nil.
  - apply and_3; [|now intros v ?%elem_of_nil].
    unfold spec_set. destruct (lookup_id j (objects c)); cbn [fst]; [|done].
    apply (remains_change i j _ c d r); [intros y; unfold touch; now destruct (limit c =? 0)|done|done|done|done].
  - destruct (lookup_id j (objects c)) as [z|] eqn:Ej.
    + apply and_3; [|now intros v ?%elem_of_nil].
      unfold spec_set. rewrite Ej. cbn [fst].
      apply (remains_change i j _ c d r); [intros y; unfold touch; now destruct (limit c =? 0)|done|done|done|done].
    + destruct (add_keeps c i j dd n x Hnd Hx) as (Hnd' & (y & Hy & _ & Hyd & Hyr) & Hv); [lia|done|]. cbn [fst].
      split; [done|]. split; [|done]. exists y. split; [done|]. split; congruence.
  - apply Z.eqb_neq in Ho. pose proof (lookup_id_Some _ _ _ Hx) as [_ Hxi].
    assert (Hout : of_container g x = false).
    { unfold of_container. rewrite Hxi. apply andb_false_iff. right. now apply Z.eqb_neq. }
    unfold spec_clean. cbn [fst]. split; [|split].
    + unfold ids. rewrite objects_on_lists by apply List.filter_app. now apply NoDup_ids_filter.
    + exists x. split; [|done]. rewrite objects_on_lists by apply List.filter_app. apply lookup_filter; [done|done|].
      now rewrite Hout.
    + intros v Hv Ev. apply list_elem_of_In, List.filter_In in Hv as [_ Hv]. unfold of_container in Hv.
      apply andb_prop in Hv as [_ Hv]. apply Z.eqb_eq in Hv. congruence.
Qed.

Lemma ops_keep i d : forall os c r,
  NoDup (ids c) -> remains i d r c -> 0 < r < 2 ^ 31 -> held_through i r os ->
  remains i d (foldl (held i) r os) (fst (spec_ops c os)) /\ (forall v, v ∈ gone_ops c os -> c_id v <> i).
Proof.
  induction os as [|o os IH]; intros c r Hnd H Hr Hh; cbn [spec_ops gone_ops foldl].
  - split; [done|]. now intros v ?%elem_of_nil.
  - destruct Hh as (Ho & Hb & Hh). destruct (step_keeps i c o d r Hnd H Hr Ho Hb) as (Hnd' & H' & Hg).
    destruct (IH _ _ Hnd' H' Hb Hh) as [Hend Hgone]. destruct (spec_op c o) as [c1 x]. cbn [fst] in *.
    destruct (spec_ops c1 os) as [c2 xs]. split; [done|]. intros v [Hv|Hv]%elem_of_app; auto.
Qed.

(** C17: a cached object that is referenced without interruption (by the get or
    the creation that handed it out and by others, each undone by one release or
    delete) survives every sequence of allowed operations on any objects,
    replacements included, as long as none of them replaces its data, releases
    all its references or cleans its container: it is never among the objects
    that leave, its data pointer stays the same, and its reference count is the
    number of references held. *)
Theorem referenced_object_stays pm c data os k g r x :
  rep pm c -> allowed_ops c os -> lookup_id (k, g, r) (objects c) = Some x -> 0 < c_refcnt x < 2 ^ 31 ->
  held_through (k, g, r) (c_refcnt x) os ->
  exists pm' answers, run_ops data pm os = Some (pm', answers) /\
    MapGetRefcnt pm' k 8 g r = Some (foldl (held (k, g, r)) (c_refcnt x) os) /\
    (exists a e, find_pme pm' k 8 r g = Some (Some a, default 0%nat (bucket_of pm' k g)) /\
       pm_heap pm' !! a = Some e /\ pme_contents e = c_data x) /\
    (forall v, v ∈ gone_ops c os -> c_id v <> (k, g, r)).
Proof.
  intros H Hal Hx Hr Hh. destruct (ops_refine data os pm c H Hal) as (pm' & Hrun & (lb & la & Hrep) & _).
  destruct H as (lb0 & la0 & H).
  destruct (ops_keep (k, g, r) (c_data x) os c (c_refcnt x)) as [(y & Hy & Hyd & Hyr) Hgone]; [exact (rep_nodup _ _ _ _ H)|now exists x|done|done|].
  destruct (find_pme_ok pm' _ k g r (rep_ok _ _ _ _ Hrep)) as ([a|] & h & Hf & Hb & _ & Hres).
  - destruct Hres as [Ha Hi]. destruct (rep_lookup_Some _ _ _ _ _ _ Hrep Ha Hi) as (e & He & _ & Hlk).
    rewrite Hy in Hlk. injection Hlk as ->. exists pm', (snd (spec_ops c os)). split; [done|]. split; [|split; [|done]].
    + unfold MapGetRefcnt. rewrite Hf. unfold deref. runs. cbn [fst]. runs. rewrite He. runs. now rewrite <- Hyr.
    + exists a, e. rewrite Hf, Hb. done.
  - rewrite (rep_lookup_None _ _ _ _ _ Hrep Hres) in Hy. done.
Qed.

(** ** The clock makes progress *)

(** C18: When some cached object is not referenced, a replacement succeeds within
    two turns of the clock: if the first finds every object used or referenced,
    it has cleared the use bits and the second evicts. What is evicted is never
    referenced, and is passed to the callback. *)
Theorem replacement_progress pm c data x :
  rep pm c -> x ∈ objects c -> c_refcnt x = 0 ->
  exists pm1 b, try_replace_lru pm data = Some (pm1, b) /\
    if b then exists v, v ∈ objects c /\ c_refcnt v = 0 /\ pm_calls pm1 = call_for data v :: pm_calls pm
    else exists pm2 v, try_replace_lru pm1 data = Some (pm2, true) /\ v ∈ objects c /\ c_refcnt v = 0 /\
           pm_calls pm2 = call_for data v :: pm_calls pm.
Proof.
  assert (Hidle : forall v, busy v = false -> c_refcnt v = 0).
  { intros v [_ Hb]%orb_false_iff. now apply negb_false_iff, Z.eqb_eq in Hb. }
  intros H Hx Hr. assert (Hne : objects c <> []) by (intros E; rewrite E in Hx; now apply elem_of_nil in Hx).
  destruct (try_replace_ok pm c data H Hne) as (pm1 & Hrun & Hrep & Hcl). rewrite Hrun.
  destruct (replace_one c) as [c1 [v|]] eqn:E; cbn [fst snd] in *; eexists pm1, _; (split; [done|]).
  - rewrite bool_decide_eq_true_2 by eauto. apply replace_one_Some in E as (l1 & l2 & -> & _ & Hb & _).
    exists v. split; [rewrite elem_of_app; right; left|]. auto.
  - rewrite bool_decide_eq_false_2 by (intros [? ?]; done). apply replace_one_None in E as (_ & Eo & _).
    destruct (try_replace_ok pm1 c1 data Hrep) as (pm2 & Hrun2 & Hrep2 & Hcl2).
    { rewrite Eo. now destruct (objects c). }
    destruct (replace_one c1) as [c2 [v|]] eqn:E2; cbn [fst snd] in *.
    + rewrite bool_decide_eq_true_2 in Hrun2 by eauto. apply replace_one_Some in E2 as (l1 & l2 & E2 & _ & Hb & _).
      assert (Hv : v ∈ objects c1) by (rewrite E2, elem_of_app; right; left). rewrite Eo in Hv.
      apply list_elem_of_fmap in Hv as (w & -> & Hw). exists pm2, w. split; [done|]. split; [done|].
      split; [apply (Hidle _ Hb)|]. now rewrite Hcl2, Hcl.
    + apply replace_one_None in E2 as (Hall & _). rewrite Eo, Forall_fmap in Hall.
      rewrite Forall_forall in Hall. specialize (Hall x Hx). unfold busy in Hall. cbn in Hall. now rewrite Hr in Hall.
Qed.

(** ** The number of entries *)

(** [k] operations can have admitted at most [k] entries beyond the limit. *)
Definition sized (lim k : Z) (c : cache) : Prop :=
  0 <= extra c <= k /\ limit c = lim /\ (lim <> 0 -> lenZ (objects c) <= lim + extra c).

Lemma sized_same lim k k' c c' :
  sized lim k c -> k <= k' -> extra c' = extra c -> limit c' = limit c -> (length (objects c') <= length (objects c))%nat -> sized lim k' c'.
Proof. intros (? & ? & ?) ? He Hl Ho. unfold sized. rewrite He, Hl. lia. Qed.

Lemma sized_shed lim k : forall fuel c, sized lim k c -> k < 2 ^ 31 -> sized lim k (fst (shed fuel c)).
Proof.
  induction fuel as [|fuel IH]; intros c H Hk; cbn [shed]; [done|].
  destruct (Z.eqb_spec (extra c) 0); [done|]. destruct (replace_one c) as [c1 [v|]] eqn:E.
  - pose proof (replace_one_length _ _ _ E) as Hlen. apply replace_one_Some in E as (_ & _ & _ & _ & _ & He & Hl).
    specialize (IH (set_extra (i32 (extra c1 - 1)) c1)). destruct (shed fuel _) as [c2 vs]. cbn [fst] in *. apply IH; [|done].
    destruct H as (? & ? & ?). unfold sized. cbn [extra limit set_extra]. rewrite objects_set_extra, He, Hl, i32_small by lia. lia.
  - apply replace_one_None in E as (_ & Eo & He & Hl). cbn [fst].
    apply (sized_same lim k k c c1 H); [lia|done|done|]. rewrite Eo. now rewrite length_fmap.
Qed.

Lemma sized_add lim k c i d n : sized lim k c -> k + 1 < 2 ^ 31 -> sized lim (k + 1) (fst (spec_add i d n c)).
Proof.
  intros (He & Hl & Hs) Hk. unfold spec_add. set (c1 := mk_cache _ _ _ _).
  assert (Ho : lenZ (objects c1) = lenZ (objects c) + 1) by (unfold objects, c1; cbn; lia).
  destruct (negb (limit c1 =? 0) && (limit c1 <? lenZ (objects c1))) eqn:Et; cbn [fst].
  - unfold replace. destruct (replace_one c1) as [c2 [v|]] eqn:E.
    + pose proof (replace_one_length _ _ _ E) as Hlen. apply replace_one_Some in E as (_ & _ & _ & _ & _ & He2 & Hl2).
      pose proof (sized_shed lim (k + 1) (S (length (objects c2))) c2) as HS. destruct (shed _ _) as [c3 vs]. cbn [fst] in *.
      apply HS; [|lia]. unfold sized. rewrite He2, Hl2. cbn [extra limit c1] in *. lia.
    + apply replace_one_None in E as (_ & Eo & He2 & Hl2). unfold sized. cbn [extra limit set_extra fst].
      rewrite objects_set_extra, Eo, length_fmap, He2, Hl2. cbn [extra limit c1] in *. rewrite i32_small by lia. lia.
  - assert (Hl1 : limit c1 = lim) by exact Hl. unfold sized. rewrite Hl1 in *. split; [cbn; lia|]. split; [done|]. intros Hne.
    apply andb_false_iff in Et as [Et|Et]; [apply negb_false_iff, Z.eqb_eq in Et; done|]. apply Z.ltb_ge in Et.
    change (extra c1) with (extra c). lia.
Qed.

Lemma objects_change_length i f c : length (objects (on_lists (change i f) c)) = length (objects c).
Proof. rewrite objects_on_lists by apply change_app. apply length_fmap. Qed.

Lemma filter_shorter (f : cached -> bool) l : (length (List.filter f l) <= length l)%nat.
Proof. induction l as [|x l IH]; cbn; [done|]. destruct (f x); cbn; lia. Qed.

Lemma sized_step lim k c o : sized lim k c -> k + 1 < 2 ^ 31 -> sized lim (k + 1) (fst (spec_op c o)).
Proof.
  intros H Hk. assert (H1 : sized lim (k + 1) c) by (destruct H as (? & ? & ?); unfold sized; split; [lia|done]).
  assert (Hch : forall i f, sized lim (k + 1) (on_lists (change i f) c)).
  { intros i f. apply (sized_same _ _ _ c _ H1); [lia|done|done|]. now rewrite objects_change_length. }
  assert (Hfi : forall f, sized lim (k + 1) (on_lists (List.filter f) c)).
  { intros f. apply (sized_same _ _ _ c _ H1); [lia|done|done|]. rewrite objects_on_lists by apply List.filter_app. apply filter_shorter. }
  destruct o as [i d n|i|i|i a|i a|i|i d n|i d n|g]; cbn [spec_op]; unfold spec_create, spec_get, spec_count, spec_delete, spec_set.
  - destruct (lookup_id i (objects c)); cbn [fst]; [done|]. pose proof (sized_add lim k c i d n H Hk). now destruct (spec_add i d n c).
  - destruct (lookup_id i (objects c)); cbn [fst]; auto.
  - destruct (lookup_id i (objects c)); cbn [fst]; auto.
  - destruct (lookup_id i (objects c)); cbn [fst]; auto.
  - destruct (lookup_id i (objects c)); cbn [fst]; auto.
  - destruct (lookup_id i (objects c)) as [x|]; [destruct (_ =? 0)|]; cbn [fst]; auto. apply Hfi.
  - destruct (lookup_id i (objects c)); cbn [fst]; auto.
  - destruct (lookup_id i (objects c)); cbn [fst]; [auto|]. now apply sized_add.
  - apply Hfi.
Qed.

Lemma sized_ops lim : forall os k c, sized lim k c -> k + lenZ os < 2 ^ 31 -> sized lim (k + lenZ os) (fst (spec_ops c os)).
Proof.
  induction os as [|o os IH]; intros k c H Hk; cbn [spec_ops length] in *.
  - cbn. now rewrite Z.add_0_r.
  - pose proof (sized_step lim k c o H) as Hs. destruct (spec_op c o) as [c1 x]. cbn [fst] in *.
    specialize (IH (k + 1) c1). destruct (spec_ops c1 os) as [c2 xs]. cbn [fst] in *.
    replace (k + n2z (S (length os))) with (k + 1 + lenZ os) by lia. apply IH; [apply Hs|]; lia.
Qed.

(** C19: after any sequence of less than 2^31 allowed calls a cache with a limit
    holds at most as many entries as its limit and the counter of extra entries
    allow, and that counter is at most the number of calls made. *)
Theorem cache_size_bounded nbuckets limit data os :
  0 < nbuckets -> 0 < limit -> lenZ os < 2 ^ 31 -> allowed_ops (spec_init limit) os ->
  lenZ (objects (fst (spec_ops (spec_init limit) os))) < 2 ^ 64 ->
  exists pm answers, run_ops data (MapInit nbuckets limit true) os = Some (pm, answers) /\
    MapNEntries pm <= pm_max_entries pm + pm_extra_pme pm /\ 0 <= pm_extra_pme pm <= lenZ os.
Proof.
  intros Hn Hl Ho Hal Hsz. destruct (ops_refine data os _ _ (MapInit_ok nbuckets limit Hn) Hal) as (pm & Hrun & (lb & la & Hrep) & _).
  pose proof (sized_ops limit os 0 (spec_init limit)) as (He & Hlim & Hs); [unfold sized; cbn; lia|lia|].
  exists pm, (snd (spec_ops (spec_init limit) os)). split; [done|]. unfold MapNEntries.
  rewrite (ok_count _ _ (rep_ok _ _ _ _ Hrep)), (rep_limit _ _ _ _ Hrep), (rep_extra _ _ _ _ Hrep).
  rewrite (Forall2_length _ _ _ (rep_objects _ _ _ _ Hrep)), u64_small by lia. rewrite Hlim. lia.
Qed.

(** ** Where the code differs from what it means to do *)

(** MapRelease removes a deleted entry when its last reference goes, or so
    it tries: it looks the entry up by the address of the caller's key. After a
    delete and the release of the last reference the entry is still there, and
    a get hands the deleted object out. *)
Theorem deleted_object_is_served pm c data addr k g r x :
  rep pm c -> countable_size c -> 0 <= r < 2 -> lookup_id (k, g, r) (objects c) = Some x -> c_refcnt x = 2 ->
  not_a_key addr g r c ->
  exists pm', run_ops data pm [OpDelete (k, g, r); OpRelease (k, g, r) addr; OpGet (k, g, r)] =
    Some (pm', [(true, 0, 0); (true, 0, 0); (true, c_data x, c_datalen x)]).
Proof.
  intros H Hsz Hr Hx H2 Hn. set (i := (k, g, r)) in *.
  assert (Hi : forall j : id, Some i = Some j -> 0 <= snd j < 2) by (intros j [= <-]; exact Hr).
  set (c1 := on_lists (change i (fun x => set_deleted (set_count (i32 (c_refcnt x - 1)) x))) c).
  assert (E1 : spec_op c (OpDelete i) = (c1, (true, 0, 0))) by (cbn [spec_op]; unfold spec_delete; now rewrite Hx, H2).
  set (x1 := set_deleted (set_count 1 x)).
  assert (Hh : has_id i x = true) by (apply bool_decide_eq_true_2; now apply lookup_id_Some in Hx).
  assert (Hx1 : lookup_id i (objects c1) = Some x1).
  { unfold c1. rewrite objects_on_lists, lookup_change, Hx by (done || apply change_app). cbn. now rewrite Hh, H2. }
  assert (Hn1 : not_a_key addr g r c1).
  { unfold not_a_key, c1 in *. rewrite objects_on_lists, lookup_change, Hn by (done || apply change_app). done. }
  set (c2 := on_lists (change i (fun x => set_count (i32 (c_refcnt x - 1)) x)) c1).
  assert (E2 : spec_op c1 (OpRelease i addr) = (c2, (true, 0, 0))) by (cbn [spec_op]; unfold spec_count; now rewrite Hx1).
  assert (Hx2 : lookup_id i (objects c2) = Some (set_count 0 x1)).
  { unfold c2. rewrite objects_on_lists, lookup_change, Hx1 by (done || apply change_app). cbn.
    change (has_id i x1) with (has_id i x). now rewrite Hh. }
  assert (E3 : snd (spec_op c2 (OpGet i)) = (true, c_data x, c_datalen x)).
  { cbn [spec_op]. unfold spec_get. now rewrite Hx2. }
  destruct (ops_refine data [OpDelete i; OpRelease i addr; OpGet i] pm c H) as (pm' & Hrun & _).
  - cbn [allowed_ops]. rewrite E1. cbn [fst]. rewrite E2. cbn [fst]. unfold allowed, countable_size in *.
    assert (El : length (objects c1) = length (objects c)) by apply objects_change_length.
    assert (El2 : length (objects c2) = length (objects c)) by (rewrite <- El; apply objects_change_length).
    rewrite El, El2. cbn [limit c1 c2 on_lists]. split_and!; try apply Hsz; try exact Hi; try done.
    intros y Hy _. rewrite Hx2 in Hy. injection Hy as <-. cbn. lia.
  - exists pm'. rewrite Hrun. cbn [spec_ops]. rewrite E1, E2. destruct (spec_op c2 (OpGet i)) as [c3 y]. cbn [snd] in *. now rewrite E3.
Qed.

(** The counter of extra entries is not decreased when an entry beyond the
    limit is deleted. It only grows then, and the next replacement that succeeds
    empties the cache below its limit: here a cache of at most two entries, in
    which a third was created and deleted twice, drops both its entries to make
    room for one. *)
Theorem stale_extra_overevicts :
  let i k := (k, 7, 0) in
  let again := [OpCreate (i 3) 1003 8; OpDelete (i 3)] in
  let os := [OpCreate (i 1) 1001 8; OpCreate (i 2) 1002 8] ++ again ++ again ++
            [OpRelease (i 1) 5555; OpRelease (i 2) 5555; OpCreate (i 4) 1004 8] in
  allowed_ops (spec_init 2) os /\
  (r ← run_ops 99 (MapInit 4 2 true) os; Some (MapNEntries (fst r), pm_extra_pme (fst r), cb_contents <$> pm_calls (fst r))) =
    Some (1, 1, [1001; 1002; 1003; 1003]).
Proof. split; [apply allowed_ops_b_sound|]; vm_compute; reflexivity. Qed.

(** MapClear frees the entries but leaves the hand of the clock where it was:
    here on an entry that is free when the next replacement starts from it, which
    fails the assertion that the victim is on its chain. *)
Lemma clear_leaves_stale_hand :
  let i k := (k, 7, 0) in
  let os := [OpCreate (i 1) 1001 8; OpCreate (i 2) 1002 8; OpCreate (i 3) 1003 8; OpCreate (i 4) 1004 8;
             OpRelease (i 4) 5555; OpCreate (i 5) 1005 8] in
  (r ← run_ops 99 (MapInit 4 1 true) os; pm ← MapClear (fst r);
   Some (pm_clock_hand pm, MapNEntries pm, bool_decide (run_ops 99 pm [OpCreate (i 6) 1006 8; OpCreate (i 7) 1007 8] = None))) =
    Some (Some 97%nat, 0, true).
Proof. vm_compute. reflexivity. Qed.

(** ** Witnesses *)

(** A cache of at most two entries: the third creation replaces the first
    object, which is not referenced; the second is referenced twice. *)
Definition demo_ops : list op :=
  [OpCreate (1, 7, 0) 1001 8; OpCreate (2, 7, 0) 1002 8; OpGet (2, 7, 0); OpRelease (1, 7, 0) 5555; OpCreate (3, 7, 0) 1003 8].
Definition demo_pm : Map := default (MapInit 4 2 true) (fst <$> run_ops 99 (MapInit 4 2 true) demo_ops).
Definition demo_c : cache := fst (spec_ops (spec_init 2) demo_ops).

Lemma demo_rep : rep demo_pm demo_c.
Proof.
  destruct (ops_refine 99 demo_ops (MapInit 4 2 true) (spec_init 2)) as (pm & Hrun & Hrep & _).
  - now apply MapInit_ok.
  - apply allowed_ops_b_sound. vm_compute. reflexivity.
  - unfold demo_pm. now rewrite Hrun.
Qed.

Lemma cache_refines_witness :
  exists pm, run_ops 99 (MapInit 4 2 true) demo_ops = Some (pm, snd (spec_ops (spec_init 2) demo_ops)) /\
    pm_calls pm ≡ₚ [mk_callback 99 1 8 1001 8].
Proof.
  destruct (cache_refines 4 2 99 demo_ops) as (pm & Hrun & _ & Hcl).
  - lia.
  - apply allowed_ops_b_sound. vm_compute. reflexivity.
  - exists pm. split; [exact Hrun|]. exact Hcl.
Defined.

Lemma referenced_object_stays_witness :
  exists pm' answers, run_ops 99 demo_pm [OpRelease (3, 7, 0) 5555; OpCreate (4, 7, 0) 1004 8; OpRelease (2, 7, 0) 5555] = Some (pm', answers) /\
    MapGetRefcnt pm' 2 8 7 0 = Some 1.
Proof.
  destruct (referenced_object_stays demo_pm demo_c 99 [OpRelease (3, 7, 0) 5555; OpCreate (4, 7, 0) 1004 8; OpRelease (2, 7, 0) 5555]
              2 7 0 (mk_cached (2, 7, 0) 1002 8 2 false false)) as (pm' & xs & Hrun & Hcnt & _).
  - exact demo_rep.
  - apply allowed_ops_b_sound. vm_compute. reflexivity.
  - vm_compute. reflexivity.
  - cbn. lia.
  - vm_compute. repeat split.
  - exists pm', xs. split; [exact Hrun|]. exact Hcnt.
Defined.

Definition idle_ops : list op := demo_ops ++ [OpRelease (3, 7, 0) 5555].
Definition idle_pm : Map := default (MapInit 4 2 true) (fst <$> run_ops 99 (MapInit 4 2 true) idle_ops).
Definition idle_c : cache := fst (spec_ops (spec_init 2) idle_ops).

Lemma idle_rep : rep idle_pm idle_c.
Proof.
  destruct (ops_refine 99 idle_ops (MapInit 4 2 true) (spec_init 2)) as (pm & Hrun & Hrep & _).
  - now apply MapInit_ok.
  - apply allowed_ops_b_sound. vm_compute. reflexivity.
  - unfold idle_pm. now rewrite Hrun.
Qed.

Lemma replacement_progress_witness : exists pm1 b, try_replace_lru idle_pm 99 = Some (pm1, b).
Proof.
  destruct (replacement_progress idle_pm idle_c 99 (mk_cached (3, 7, 0) 1003 8 0 false false)) as (pm1 & b & Hrun & _).
  - exact idle_rep.
  - vm_compute. left.
  - reflexivity.
  - exists pm1, b. exact Hrun.
Defined.

Lemma cache_size_bounded_witness :
  exists pm answers, run_ops 99 (MapInit 4 2 true) demo_ops = Some (pm, answers) /\
    MapNEntries pm <= pm_max_entries pm + pm_extra_pme pm.
Proof.
  destruct (cache_size_bounded 4 2 99 demo_ops) as (pm & xs & Hrun & Hb & _).
  - lia.
  - lia.
  - cbn. lia.
  - apply allowed_ops_b_sound. vm_compute. reflexivity.
  - vm_compute. reflexivity.
  - exists pm, xs. split; [exact Hrun|exact Hb].
Defined.

Lemma deleted_object_is_served_witness :
  exists pm', run_ops 99 demo_pm [OpDelete (2, 7, 0); OpRelease (2, 7, 0) 5555; OpGet (2, 7, 0)] =
    Some (pm', [(true, 0, 0); (true, 0, 0); (true, 1002, 8)]).
Proof.
  apply (deleted_object_is_served demo_pm demo_c 99 5555 2 7 0 (mk_cached (2, 7, 0) 1002 8 2 false false)).
  - exact demo_rep.
  - split; vm_compute; [discriminate|reflexivity].
  - lia.
  - vm_compute. reflexivity.
  - reflexivity.
  - vm_compute. reflexivity.
Defined.
