(* ===== verification/Range.v ===== *)
(** * Range queries (btree/btree_range.c, btree/btree_raw.c)

    A query is started with its bounds, handed out in chunks and ended. Each
    chunk walks the tree from the node where the paths to the two bounds part,
    with a stack of nodes, and remembers the last key for the next chunk. The
    walk goes up or down in the key order; a walk down meets the versions of a
    key oldest first and has to hold back the first key of a leaf.

    A pointer is [None] when it is null (or dangles) and otherwise the bytes it
    points to. [allowed_fn] is the callback of the application that can pause
    a query; [junk] is what is in the memory that the search conditions of a
    query leave uninitialised, [stack0] that of the stack of nodes. The memory
    of the program does not run out. *)

From stdpp Require Import gmap.
From S2P Require Import Prelude Status LeafMeta LeafNode LeafOps NodeSearch NonLeaf PStats Overflow Snapshot Scavenger Tree.

(** ** Flags *)

Definition RANGE_BUFFER_PROVIDED : Z := 2 ^ 0.
Definition RANGE_ALLOC_IF_TOO_SMALL : Z := 2 ^ 1.
Definition RANGE_SEQNO_EQ : Z := 2 ^ 4.
Definition RANGE_SEQNO_LE : Z := 2 ^ 5.
Definition RANGE_SEQNO_GT_LE : Z := 2 ^ 6.
Definition RANGE_START_GT : Z := 2 ^ 7.
Definition RANGE_START_GE : Z := 2 ^ 8.
Definition RANGE_START_LT : Z := 2 ^ 9.
Definition RANGE_START_LE : Z := 2 ^ 10.
Definition RANGE_END_GT : Z := 2 ^ 11.
Definition RANGE_END_GE : Z := 2 ^ 12.
Definition RANGE_END_LT : Z := 2 ^ 13.
Definition RANGE_END_LE : Z := 2 ^ 14.
Definition RANGE_KEYS_ONLY : Z := 2 ^ 15.
Definition RANGE_INPLACE_POINTERS : Z := 2 ^ 18.

Infix ".|" := Z.lor (at level 50, left associativity) : Z_scope.

(** One of the flags [f] is set. *)
Definition has (flags f : Z) : bool := negb (Z.land flags f =? 0).

Definition BTREE_RANGE_STATUS_NONE : Z := 0.
Definition BTREE_RANGE_SUCCESS : Z := 1.
Definition BTREE_KEY_BUFFER_TOO_SMALL : Z := 2.
Definition BTREE_DATA_BUFFER_TOO_SMALL : Z := 4.
Definition BTREE_RANGE_PAUSED : Z := 8.

(** ** Queries, cursors and results *)

(** [btree_range_meta_t]; the length of a key is that of its bytes. *)
Record btree_range_meta := mk_btree_range_meta {
  r_flags : Z;
  keybuf_size : Z;
  databuf_size : Z;
  key_start : option (list byte);
  key_end : option (list byte);
  r_start_seq : Z;
  r_end_seq : Z
}.

(** [btree_range_cursor_t]; the node and the indexes of a walk are local to
    the functions below. [c_dir] is 1 or -1. *)
Record btree_range_cursor := mk_btree_range_cursor {
  query_meta : btree_range_meta;
  c_dir : Z;
  ts_key : option (list byte);
  ts_keylen : Z;
  ts_data : option (list byte);
  ts_datalen : Z;
  prior_version_tombstoned : bool;
  key_last_seq_unknown : bool;
  last_logical_id : Z;
  c_status : Z;
  is_tombstone : bool
}.

(** [btree_range_data_t] *)
Record btree_range_data := mk_btree_range_data {
  rd_status : Z;
  rd_key : option (list byte);
  rd_keylen : Z;
  rd_data : option (list byte);
  rd_datalen : Z
}.

Definition set_query_meta (c : btree_range_cursor) (m : btree_range_meta) : btree_range_cursor :=
  mk_btree_range_cursor m (c_dir c) (ts_key c) (ts_keylen c) (ts_data c) (ts_datalen c) (prior_version_tombstoned c)
    (key_last_seq_unknown c) (last_logical_id c) (c_status c) (is_tombstone c).
Definition set_ts_key (c : btree_range_cursor) (k : option (list byte)) (len : Z) : btree_range_cursor :=
  mk_btree_range_cursor (query_meta c) (c_dir c) k len (ts_data c) (ts_datalen c) (prior_version_tombstoned c)
    (key_last_seq_unknown c) (last_logical_id c) (c_status c) (is_tombstone c).
Definition set_ts_data (c : btree_range_cursor) (d : option (list byte)) (len : Z) : btree_range_cursor :=
  mk_btree_range_cursor (query_meta c) (c_dir c) (ts_key c) (ts_keylen c) d len (prior_version_tombstoned c)
    (key_last_seq_unknown c) (last_logical_id c) (c_status c) (is_tombstone c).
Definition set_prior (c : btree_range_cursor) (b : bool) : btree_range_cursor :=
  mk_btree_range_cursor (query_meta c) (c_dir c) (ts_key c) (ts_keylen c) (ts_data c) (ts_datalen c) b
    (key_last_seq_unknown c) (last_logical_id c) (c_status c) (is_tombstone c).
Definition set_unknown (c : btree_range_cursor) (b : bool) : btree_range_cursor :=
  mk_btree_range_cursor (query_meta c) (c_dir c) (ts_key c) (ts_keylen c) (ts_data c) (ts_datalen c)
    (prior_version_tombstoned c) b (last_logical_id c) (c_status c) (is_tombstone c).
Definition set_last_logical_id (c : btree_range_cursor) (id : Z) : btree_range_cursor :=
  mk_btree_range_cursor (query_meta c) (c_dir c) (ts_key c) (ts_keylen c) (ts_data c) (ts_datalen c)
    (prior_version_tombstoned c) (key_last_seq_unknown c) id (c_status c) (is_tombstone c).
Definition set_cstatus (c : btree_range_cursor) (s : Z) : btree_range_cursor :=
  mk_btree_range_cursor (query_meta c) (c_dir c) (ts_key c) (ts_keylen c) (ts_data c) (ts_datalen c)
    (prior_version_tombstoned c) (key_last_seq_unknown c) (last_logical_id c) s (is_tombstone c).
Definition set_is_tombstone (c : btree_range_cursor) (b : bool) : btree_range_cursor :=
  mk_btree_range_cursor (query_meta c) (c_dir c) (ts_key c) (ts_keylen c) (ts_data c) (ts_datalen c)
    (prior_version_tombstoned c) (key_last_seq_unknown c) (last_logical_id c) (c_status c) b.

Definition set_rstatus (v : btree_range_data) (s : Z) : btree_range_data :=
  mk_btree_range_data s (rd_key v) (rd_keylen v) (rd_data v) (rd_datalen v).
Definition set_rkey (v : btree_range_data) (k : option (list byte)) (len : Z) : btree_range_data :=
  mk_btree_range_data (rd_status v) k len (rd_data v) (rd_datalen v).
Definition set_rdata (v : btree_range_data) (d : option (list byte)) (len : Z) : btree_range_data :=
  mk_btree_range_data (rd_status v) (rd_key v) (rd_keylen v) d len.

Definition IS_ASCENDING_QUERY (meta : btree_range_meta) : bool :=
  (bool_decide (is_Some (key_start meta)) && has (r_flags meta) (RANGE_START_GT .| RANGE_START_GE)) ||
  (bool_decide (is_Some (key_end meta)) && has (r_flags meta) (RANGE_END_LT .| RANGE_END_LE)) ||
  (bool_decide (key_start meta = None) && bool_decide (key_end meta = None)).

Definition fatal (s : btree_status) : bool :=
  negb (bool_decide (s = BTREE_SUCCESS)) && negb (bool_decide (s = BTREE_WARNING)).

Definition is_multiple_flags_set (flags f : Z) : bool :=
  let n := Z.land flags f in negb (Z.land n (u32 (n - 1)) =? 0).

Definition all_start_flags : Z := RANGE_START_GT .| RANGE_START_GE .| RANGE_START_LE .| RANGE_START_LT.
Definition all_end_flags : Z := RANGE_END_GT .| RANGE_END_GE .| RANGE_END_LE .| RANGE_END_LT.

Definition validate_range_query (rmeta : btree_range_meta) : btree_status :=
  let flags := r_flags rmeta in
  if is_multiple_flags_set flags (RANGE_SEQNO_LE .| RANGE_SEQNO_GT_LE) then BTREE_INVALID_QUERY
  else if is_multiple_flags_set flags all_start_flags then BTREE_INVALID_QUERY
  else if is_multiple_flags_set flags all_end_flags then BTREE_INVALID_QUERY
  else if negb (eqb (has flags all_start_flags) (bool_decide (is_Some (key_start rmeta)))) then BTREE_INVALID_QUERY
  else if negb (eqb (has flags all_end_flags) (bool_decide (is_Some (key_end rmeta)))) then BTREE_INVALID_QUERY
  else if is_multiple_flags_set flags (RANGE_START_GT .| RANGE_START_GE .| RANGE_END_GT .| RANGE_END_GE)
  then BTREE_INVALID_QUERY
  else if is_multiple_flags_set flags (RANGE_START_LT .| RANGE_START_LE .| RANGE_END_LT .| RANGE_END_LE)
  then BTREE_INVALID_QUERY
  else BTREE_SUCCESS.

(** ** Memory *)

(** The [len] bytes at a pointer. *)
Definition bytes_at (p : option (list byte)) (len : Z) : option (list byte) :=
  if len =? 0 then Some []
  else b ← p; if len <=? lenZ b then Some (take (z2n len) b) else None.

(** [memcpy] of [src] to the start of a buffer. *)
Definition write_at (p : option (list byte)) (src : list byte) : option (option (list byte)) :=
  if lenZ src =? 0 then Some p
  else b ← p; if lenZ src <=? lenZ b then Some (Some (src ++ drop (length src) b)) else None.

Section range.
Context (bt : btree_raw) (read_ret node_ret : Z -> btree_status) (allowed_fn : option (list byte -> bool)) (junk : Z).

(** ** Reading an entry (btree_raw.c) *)

(** The key into the buffer [buf] of [keylen] bytes, or a new one: status,
    buffer and length. *)
Definition get_leaf_key_index (buf : option (list byte)) (keylen meta_flags : Z) (pks : key_stuff_info)
    : option (btree_status * option (list byte) * Z) :=
  let key := ks_key pks in
  if has meta_flags RANGE_INPLACE_POINTERS then None
  else if has meta_flags RANGE_BUFFER_PROVIDED then
    if keylen <? lenZ key then
      if negb (has meta_flags RANGE_ALLOC_IF_TOO_SMALL) then Some (BTREE_BUFFER_TOO_SMALL, buf, keylen)
      else Some (BTREE_BUFFER_TOO_SMALL, Some key, lenZ key)
    else buf ← write_at buf key; Some (BTREE_SUCCESS, buf, lenZ key)
  else Some (BTREE_SUCCESS, Some key, lenZ key).

(** The data of entry [index] into the buffer [data] of [datalen] bytes, or a
    new one. The status of a chain that ends early is that of its last node;
    a new buffer is freed then. *)
Definition get_leaf_data_index (st : ov_state) (n : btree_raw_node) (index : nat) (data : option (list byte))
    (datalen meta_flags : Z) : option (ov_state * btree_status * option (list byte) * Z) :=
  ki ← btree_leaf_get_nth_key_info2 n index;
  let big := big_object_kd bt (ki_keylen ki) (ki_datalen ki) in
  let inplace := has meta_flags RANGE_INPLACE_POINTERS in
  let datalen := if inplace then if big then 0 else ki_datalen ki else datalen in
  let provided := has meta_flags (RANGE_BUFFER_PROVIDED .| RANGE_INPLACE_POINTERS) in
  let too_small := provided && (datalen <? ki_datalen ki) in
  if too_small && negb (has meta_flags RANGE_ALLOC_IF_TOO_SMALL) then Some (st, BTREE_BUFFER_TOO_SMALL, data, datalen)
  else
    let ret := if too_small then BTREE_BUFFER_TOO_SMALL else BTREE_SUCCESS in
    let buf_alloced := too_small || negb provided in
    let fill := fun content => if (buf_alloced : bool) then Some (Some content) else write_at data content in
    if big then
      if 0 <? ki_datalen ki then
        let tmp_rem := btree_get_bigobj_inleaf bt (ki_keylen ki) (ki_datalen ki) in
        head ← (if negb (tmp_rem =? 0) then d ← btree_leaf_get_data_nth_key n index; read_bytes d.1 0 (z2n tmp_rem)
                else Some []);
        r ← read_chain bt read_ret (S (z2n (ki_datalen ki))) st (ki_ptr ki) (ki_datalen ki - tmp_rem) head BTREE_SUCCESS;
        let '(st, content, nbytes, z_next, ret2) := r in
        if negb (nbytes =? 0) then
          data ← (if buf_alloced then Some None else write_at data content);
          Some (st, ret2, data, ki_datalen ki)
        else
          _ ← assert_ (z_next =? 0);
          data ← fill content; Some (st, ret, data, ki_datalen ki)
      else data ← fill []; Some (st, ret, data, ki_datalen ki)
    else if inplace then None
    else
      d ← btree_leaf_get_data_nth_key n index;
      let '(datap, datalen1) := d in
      _ ← assert_ (ki_datalen ki =? datalen1);
      content ← read_bytes datap 0 (z2n datalen1);
      data ← fill content; Some (st, ret, data, ki_datalen ki).

(** ** Search conditions of a query *)

Definition smeta_of (rmeta : btree_range_meta) : option btree_metadata :=
  Some (mk_btree_metadata (has (r_flags rmeta) RANGE_SEQNO_EQ) (has (r_flags rmeta) RANGE_SEQNO_LE)
          (has (r_flags rmeta) RANGE_SEQNO_GT_LE) junk (r_start_seq rmeta) (r_end_seq rmeta)).

Definition meta_flags_of (rmeta : btree_range_meta) : Z :=
  Z.land (r_flags rmeta) (RANGE_BUFFER_PROVIDED .| RANGE_ALLOC_IF_TOO_SMALL .| RANGE_INPLACE_POINTERS).

(** Neither the exact nor a matching sequence number. *)
Definition out_of_range (rmeta : btree_range_meta) (s : Z) : bool :=
  let '(_, query_match, range_match) := seqno_cmp_range (smeta_of rmeta) s in
  negb query_match && negb range_match.

(** Sizes of the buffers; not set when none are provided. *)
Definition keybuf_of (rmeta : btree_range_meta) : Z :=
  if has (r_flags rmeta) RANGE_BUFFER_PROVIDED then keybuf_size rmeta else 0.
Definition databuf_of (rmeta : btree_range_meta) : Z :=
  if has (r_flags rmeta) RANGE_BUFFER_PROVIDED then databuf_size rmeta else 0.

(** The data of entry [index] goes to [v], unless only keys are wanted. *)
Definition emit_data (rmeta : btree_range_meta) (st : ov_state) (n : btree_raw_node) (index : nat)
    (ret : btree_status) (v : btree_range_data) : option (ov_state * btree_status * btree_range_data) :=
  let done_ := fun ret v => if decide (ret = BTREE_SUCCESS) then set_rstatus v BTREE_RANGE_SUCCESS else v in
  if has (r_flags rmeta) RANGE_KEYS_ONLY then Some (st, ret, done_ ret v)
  else
    d ← get_leaf_data_index st n index (rd_data v) (databuf_of rmeta) (meta_flags_of rmeta);
    let '(st, status, data, len) := d in
    let v := set_rdata v data (rd_datalen v) in
    match status with
    | BTREE_SUCCESS => Some (st, ret, done_ ret (set_rdata v data len))
    | BTREE_BUFFER_TOO_SMALL =>
        Some (st, BTREE_WARNING, set_rstatus (set_rdata v data len) (rd_status v .| BTREE_DATA_BUFFER_TOO_SMALL))
    | _ => Some (st, status, set_rstatus v (rd_status v .| status_code BTREE_FAILURE))
    end.

(** The end of both directions: entry [index] goes to [v], unless the callback
    pauses the query. *)
Definition emit (rmeta : btree_range_meta) (st : ov_state) (n : btree_raw_node) (index : nat) (ks : key_stuff_info)
    (v : btree_range_data) : option (ov_state * btree_status * btree_range_data) :=
  let v := set_rstatus v BTREE_RANGE_STATUS_NONE in
  k ← get_leaf_key_index (rd_key v) (keybuf_of rmeta) (meta_flags_of rmeta) ks;
  let '(status, buf, len) := k in
  let go_on := fun ret v =>
    allowed ← (match allowed_fn with Some f => k ← bytes_at (rd_key v) (rd_keylen v); Some (f k) | None => Some true end);
    if negb (allowed : bool) then Some (st, BTREE_QUERY_PAUSED, set_rstatus v (rd_status v .| BTREE_RANGE_PAUSED))
    else emit_data rmeta st n index ret v in
  match status with
  | BTREE_SUCCESS => go_on BTREE_SUCCESS (set_rkey v buf len)
  | BTREE_BUFFER_TOO_SMALL => go_on BTREE_WARNING (set_rstatus (set_rkey v buf len) (rd_status v .| BTREE_KEY_BUFFER_TOO_SMALL))
  | _ => Some (st, BTREE_FAILURE, set_rstatus v (rd_status v .| status_code BTREE_FAILURE))
  end.

(** ** Ascending *)

(** What the leaf says of entry [index]. *)
Definition entry_at (n : btree_raw_node) (index : Z) : option (key_meta * key_stuff_info) :=
  km ← (if index <? 0 then None else btree_leaf_get_meta n (z2n index));
  ks ← get_key_stuff_info2 n index;
  Some (km, ks).

(** Copy a key to the buffer [ts_key] of the cursor. *)
Definition store_ts_key (c : btree_range_cursor) (key : list byte) : option btree_range_cursor :=
  if (max_key_size bt <? lenZ key) || bool_decide (ts_key c = None) then None
  else Some (set_ts_key c (Some key) (lenZ key)).

(** One entry of an ascending query. *)
Definition fill_key_range_up (c : btree_range_cursor) (st : ov_state) (n : btree_raw_node) (index : Z) (n_out : nat)
    (values : list btree_range_data) (prev_value : option btree_range_data)
    : option (btree_range_cursor * ov_state * btree_status * list btree_range_data) :=
  let rmeta := query_meta c in
  x ← entry_at n index;
  let '(key_meta, ks) := x in
  if out_of_range rmeta (seqno key_meta) then Some (c, st, BTREE_SKIPPED, values)
  else
    same ← (if prior_version_tombstoned c then k ← bytes_at (ts_key c) (ts_keylen c); Some (cmp_cb bt k (ks_key ks) =? 0)
            else match prev_value with
                 | Some p => k ← bytes_at (rd_key p) (rd_keylen p); Some (cmp_cb bt k (ks_key ks) =? 0)
                 | None => Some false
                 end);
    if (same : bool) then Some (c, st, BTREE_SKIPPED, values)
    else if tombstone key_meta then
      c ← store_ts_key c (ks_key ks);
      Some (set_unknown (set_prior c true) false, st, BTREE_SKIPPED, values)
    else
      let c := set_prior c false in
      v ← values !! n_out;
      r ← emit rmeta st n (z2n index) ks v;
      let '(st, ret, v) := r in
      Some (c, st, ret, <[n_out := v]> values).

(** ** Descending *)

(** Hold entry [index] back in the cursor, unless its key is there already. *)
Definition copy_key_and_data_to_cursor (c : btree_range_cursor) (st : ov_state) (n : btree_raw_node) (index : nat)
    (ks : key_stuff_info) : option (btree_range_cursor * ov_state * btree_status) :=
  let rmeta := query_meta c in
  k ← bytes_at (ts_key c) (ts_keylen c);
  if cmp_cb bt k (ks_key ks) =? 0 then Some (c, st, BTREE_SKIPPED)
  else
    let c := set_cstatus c BTREE_RANGE_STATUS_NONE in
    x ← get_leaf_key_index None (keybuf_of rmeta) (meta_flags_of rmeta) ks;
    let '(status, key_temp, len) := x in
    let c := if decide (status = BTREE_BUFFER_TOO_SMALL)
             then set_cstatus c (c_status c .| BTREE_KEY_BUFFER_TOO_SMALL) else c in
    src ← bytes_at key_temp len;
    c ← store_ts_key c src;
    key_meta ← btree_leaf_get_meta n index;
    if tombstone key_meta then Some (set_ts_data (set_is_tombstone c true) None 0, st, BTREE_SKIPPED)
    else if has (r_flags rmeta) RANGE_KEYS_ONLY then
      let c := set_ts_data c None 0 in
      Some (if decide (status = BTREE_SUCCESS) then (set_cstatus c BTREE_RANGE_SUCCESS, st, BTREE_SUCCESS)
            else (c, st, BTREE_SKIPPED))
    else
      d ← get_leaf_data_index st n index (ts_data c) (databuf_of rmeta) (meta_flags_of rmeta);
      let '(st, status, data, len) := d in
      match status with
      | BTREE_SUCCESS => Some (set_cstatus (set_ts_data c data (u32 len)) BTREE_RANGE_SUCCESS, st, BTREE_SUCCESS)
      | BTREE_BUFFER_TOO_SMALL =>
          Some (set_cstatus (set_ts_data c data (u32 len)) (c_status c .| BTREE_DATA_BUFFER_TOO_SMALL), st, BTREE_SKIPPED)
      | _ => Some (set_cstatus (set_ts_data c data (ts_datalen c)) (c_status c .| status_code BTREE_FAILURE), st, status)
      end.

(** [continue_key_processing]: the entry held back, or else entry [index] of
    the leaf; [n] is [None] after the last leaf. *)
Definition continue_key_processing (c : btree_range_cursor) (st : ov_state) (n : option btree_raw_node) (index : Z)
    (ks : option key_stuff_info) (n_out : nat) (values : list btree_range_data)
    : option (btree_range_cursor * ov_state * btree_status * list btree_range_data) :=
  let rmeta := query_meta c in
  if is_tombstone c then
    Some (if key_last_seq_unknown c then set_unknown (set_ts_data c None (ts_datalen c)) false else c, st, BTREE_SKIPPED, values)
  else
    v ← values !! n_out;
    if key_last_seq_unknown c then
      k ← bytes_at (ts_key c) (ts_keylen c);
      let v := set_rkey (set_rstatus v BTREE_RANGE_STATUS_NONE) (Some k) (ts_keylen c) in
      if match allowed_fn with Some f => negb (f k) | None => false end then
        Some (c, st, BTREE_QUERY_PAUSED, <[n_out := set_rstatus v (rd_status v .| BTREE_RANGE_PAUSED)]> values)
      else
        r ← (if has (r_flags rmeta) RANGE_KEYS_ONLY then Some (c, set_rdata v None 0)
             else if ts_datalen c =? 0 then Some (c, set_rdata v (Some [Byte.x00]) 0)
             else d ← bytes_at (ts_data c) (ts_datalen c);
                  Some (set_ts_data c None (ts_datalen c), set_rdata v (Some d) (ts_datalen c)));
        let '(c, v) := r in
        let last := bool_decide (n = None) in
        Some (set_unknown c false, st, if last then BTREE_SUCCESS else BTREE_RETRY,
              <[n_out := set_rstatus v (if last then BTREE_RANGE_SUCCESS else c_status c)]> values)
    else
      n ← n; ks ← ks;
      r ← emit rmeta st n (z2n index) ks v;
      let '(st, ret, v) := r in
      Some (c, st, ret, <[n_out := v]> values).

(** The version [index] of a key is chosen: it counts unless its key was the
    last one returned or it is a tombstone. *)
Definition fill_chosen (c : btree_range_cursor) (st : ov_state) (n : btree_raw_node) (index : Z) (key_meta : key_meta)
    (n_out : nat) (values : list btree_range_data) (prev_value : option btree_range_data)
    : option (btree_range_cursor * ov_state * btree_status * list btree_range_data) :=
  ks ← get_key_stuff_info2 n index;
  same ← (match prev_value with
          | Some p => k ← bytes_at (rd_key p) (rd_keylen p); Some (cmp_cb bt k (ks_key ks) =? 0)
          | None => Some false
          end);
  if (same : bool) || tombstone key_meta then Some (c, st, BTREE_SKIPPED, values)
  else continue_key_processing c st (Some n) index (Some ks) n_out values.

(** From the search for a newer version of entry [index] on ([case 2]). *)
Definition fill_newest (c : btree_range_cursor) (st : ov_state) (n : btree_raw_node) (index : Z) (key_meta : key_meta)
    (ks : key_stuff_info) (n_out : nat) (values : list btree_range_data) (prev_value : option btree_range_data)
    : option (btree_range_cursor * ov_state * btree_status * list btree_range_data) :=
  let rmeta := query_meta c in
  f ← bsearch_key_low (cmp_cb bt) n (ks_key ks) (smeta_of rmeta) (-1) (nkeys n) BSF_LATEST;
  let '(latest_index, found) := f in
  if (found : bool) && ((latest_index <? index) || (latest_index =? 0)) then
    if (latest_index =? 0) || key_last_seq_unknown c then
      if negb (last_logical_id c =? logical_id n) then
        r ← copy_key_and_data_to_cursor c st n (z2n latest_index) ks;
        let '(c, st, status) := r in
        if decide (status = BTREE_FAILURE) then Some (c, st, status, values)
        else Some (set_unknown (set_last_logical_id c (logical_id n)) true, st, BTREE_SKIPPED, values)
      else Some (c, st, BTREE_SKIPPED, values)
    else
      key_meta ← btree_leaf_get_meta n (z2n latest_index);
      if out_of_range rmeta (seqno key_meta) then Some (c, st, BTREE_SKIPPED, values)
      else fill_chosen c st n latest_index key_meta n_out values prev_value
  else fill_chosen c st n index key_meta n_out values prev_value.

(** One entry of a descending query. *)
Definition fill_key_range_reverse (c : btree_range_cursor) (st : ov_state) (n : option btree_raw_node) (index : Z)
    (n_out : nat) (values : list btree_range_data) (prev_value : option btree_range_data)
    : option (btree_range_cursor * ov_state * btree_status * list btree_range_data) :=
  let rmeta := query_meta c in
  _ ← assert_ (c_dir c <? 0);
  match n with
  | None => continue_key_processing c st None index None n_out values
  | Some n =>
      x ← entry_at n index;
      let '(key_meta, ks) := x in
      if out_of_range rmeta (seqno key_meta) then
        if (index =? nkeys n - 1) && key_last_seq_unknown c
        then continue_key_processing c st (Some n) index None n_out values
        else Some (c, st, BTREE_SKIPPED, values)
      else if key_last_seq_unknown c then
        if last_logical_id c =? logical_id n then Some (c, st, BTREE_SKIPPED, values)
        else
          k ← bytes_at (ts_key c) (ts_keylen c);
          found ← (if index =? nkeys n - 1 then Some (cmp_cb bt k (ks_key ks) =? 0)
                   else f ← bsearch_key_low (cmp_cb bt) n k (smeta_of rmeta) (-1) (nkeys n) BSF_LATEST; Some f.2);
          if (found : bool) then
            fill_newest (set_unknown (set_ts_data (set_ts_key c None 0) None 0) false) st n index key_meta ks n_out values prev_value
          else continue_key_processing c st (Some n) index (Some ks) n_out values
      else fill_newest c st n index key_meta ks n_out values prev_value
  end.

Definition fill_key_range (c : btree_range_cursor) (st : ov_state) (n : btree_raw_node) (index : Z) (n_out : nat)
    (values : list btree_range_data) (prev_value : option btree_range_data)
    : option (btree_range_cursor * ov_state * btree_status * list btree_range_data) :=
  if c_dir c <? 0 then fill_key_range_reverse c st (Some n) index n_out values prev_value
  else fill_key_range_up c st n index n_out values prev_value.
End range.
