(* ===== verification/RangeWalk.v ===== *)
(** * The walk of a range query (btree/btree_range.c)

    One chunk of a range query: from the node where the paths to the two
    bounds part, a depth-first walk with an explicit stack, leaf by leaf, and
    the start key of the next chunk; starting and ending a query.

    [stack0] is what the memory of the stack holds before the walk: the edge
    marks of an entry are only ever added to. The program is not in rescue
    mode; locks, references and the record of the last error are left out. *)

From stdpp Require Import gmap.
From S2P Require Import Prelude Status LeafMeta LeafNode LeafOps NodeSearch NonLeaf PStats Overflow Snapshot Scavenger Tree Range.

(** What the functions of a walk change: the cursor, the overflow store, the
    results and the status. *)
Record range_out := mk_range_out {
  o_cursor : btree_range_cursor;
  o_st : ov_state;
  n_out : nat;
  o_values : list btree_range_data;
  o_status : btree_status
}.

Definition set_ostatus (o : range_out) (s : btree_status) : range_out :=
  mk_range_out (o_cursor o) (o_st o) (n_out o) (o_values o) s.
Definition inc_out (o : range_out) : range_out :=
  mk_range_out (o_cursor o) (o_st o) (S (n_out o)) (o_values o) (o_status o).

Definition START_EDGE : Z := 1.
Definition END_EDGE : Z := 2.
Definition TREE_DEPTH_MAX : nat := 32.

(** An entry of the stack. *)
Record frame := mk_frame {
  f_node : tnode;
  f_start : Z;
  f_end : Z;
  f_cur : Z;
  f_edge : Z
}.

Definition set_cur (f : frame) (i : Z) : frame := mk_frame (f_node f) (f_start f) (f_end f) i (f_edge f).

Section walk.
Context (bt : btree_raw) (read_ret node_ret : Z -> btree_status) (allowed_fn : option (list byte -> bool)) (junk : Z).

(** ** Nodes of either kind *)

Definition tnkeys (x : tnode) : Z := match x with TLeaf n => nkeys n | TNonLeaf v => v_nkeys v end.

(** The index [bsearch_key_low] returns. *)
Definition tbsearch (x : tnode) (key : list byte) (m : option btree_metadata) (flags : bsf) : option Z :=
  match x with
  | TLeaf n => r ← bsearch_key_low (cmp_cb bt) n key m (-1) (nkeys n) flags; Some r.1
  | TNonLeaf v => let _ := non_leaf_view bt in r ← bsearch_key_low (cmp_cb bt) v key m (-1) (v_nkeys v) flags; Some r.1
  end.

Definition bsearch_end (c : btree_range_cursor) (x : tnode) : option Z :=
  let meta := query_meta c in
  match key_end meta with
  | None => Some (if 0 <? c_dir c then tnkeys x else 0)
  | Some k => tbsearch x k (smeta_of junk meta)
                (if has (r_flags meta) (RANGE_END_GE .| RANGE_END_LT) then BSF_LATEST else BSF_NEXT)
  end.

Definition bsearch_start (c : btree_range_cursor) (x : tnode) : option Z :=
  let meta := query_meta c in
  match key_start meta with
  | None => Some (if 0 <? c_dir c then 0 else tnkeys x)
  | Some k => tbsearch x k (smeta_of junk meta)
                (if has (r_flags meta) (RANGE_START_GE .| RANGE_START_LT) then BSF_LATEST else BSF_NEXT)
  end.

(** The child number [i] of a node. *)
Definition child_ptr (v : vnode) (i : Z) : option Z :=
  if i <? v_nkeys v then ks ← get_key_stuff_non_leaf bt v i; Some (ks_ptr ks) else Some (v_rightmost v).

(** ** The first node *)

(** The paths to the bounds part at this node: the far bound is beyond the
    separator next to child [x] in the direction of the query. *)
Definition diverges (c : btree_range_cursor) (v : vnode) (x : Z) : option bool :=
  let meta := query_meta c in
  let dir := c_dir c in
  if ((0 <? dir) && (x <? v_nkeys v)) || ((dir <? 0) && (0 <? x)) then
    r ← (match key_end meta with
         | Some k => ks ← get_key_stuff_non_leaf bt v (if dir <? 0 then x - 1 else x); Some (cmp_cb bt k (ks_key ks))
         | None => Some dir
         end);
    Some ((0 <? dir * r) || ((r =? 0) && has (r_flags meta) (RANGE_END_GE .| RANGE_END_LE)))
  else Some false.

(** The node with its first and last index, or an error. *)
Fixpoint find_diversion_loop (fuel : nat) (t : tree) (c : btree_range_cursor) (x : btree_status + tnode)
    : option (btree_status + tnode * Z * Z) :=
  match fuel with
  | O => None
  | S fuel =>
      match x with
      | inl e => Some (inl e)
      | inr (TNonLeaf v) =>
          x ← bsearch_start c (TNonLeaf v);
          child_id ← child_ptr v x;
          d ← diverges c v x;
          if (d : bool) then
            e ← bsearch_end c (TNonLeaf v);
            Some (inr (TNonLeaf v, i16 x, i16 (i16 e + c_dir c)))
          else
            y ← get_existing_node node_ret t child_id;
            find_diversion_loop fuel t c y
      | inr (TLeaf n) =>
          x ← bsearch_start c (TLeaf n);
          e ← bsearch_end c (TLeaf n);
          Some (inr (if c_dir c <? 0 then (TLeaf n, i16 (i16 x + c_dir c), i16 (i16 e + c_dir c))
                     else (TLeaf n, i16 x, i16 e)))
      end
  end.

Definition btree_range_find_diversion (t : tree) (c : btree_range_cursor) : option (btree_status + tnode * Z * Z) :=
  root ← root_get_and_lock node_ret t;
  find_diversion_loop (S (size (t_nodes t))) t c root.

(** ** A leaf *)

Definition prev_value (o : range_out) : option btree_range_data :=
  match n_out o with O => None | S i => o_values o !! i end.

(** The entries from [cur_idx] to [end_idx]; an iteration moves on, adds a
    result or sets a fatal status. *)
Fixpoint populate_loop (fuel : nat) (n : btree_raw_node) (cur_idx end_idx n_in : Z) (o : range_out)
    : option (Z * range_out) :=
  match fuel with
  | O => None
  | S fuel =>
      if (cur_idx =? end_idx) || (n_in <=? n2z (n_out o)) || fatal (o_status o) then Some (cur_idx, o)
      else
        r ← fill_key_range bt read_ret allowed_fn junk (o_cursor o) (o_st o) n cur_idx (n_out o) (o_values o) (prev_value o);
        let '(c, st, ret, values) := r in
        let o := mk_range_out c st (n_out o) values (o_status o) in
        let next := i16 (cur_idx + c_dir c) in
        if decide (ret = BTREE_SKIPPED) then populate_loop fuel n next end_idx n_in o
        else if decide (ret = BTREE_RETRY) then populate_loop fuel n cur_idx end_idx n_in (inc_out o)
        else
          let o := if decide (ret = BTREE_SUCCESS) then o else set_ostatus o ret in
          if bool_decide (ret = BTREE_FAILURE) || storage_error ret then populate_loop fuel n cur_idx end_idx n_in o
          else populate_loop fuel n (if decide (ret = BTREE_QUERY_PAUSED) then cur_idx else next) end_idx n_in (inc_out o)
  end.

Definition populate_output_array (n : option btree_raw_node) (cur_idx end_idx n_in : Z) (o : range_out)
    : option (Z * range_out) :=
  match n with
  | Some n => populate_loop (z2n (nkeys n + n_in) + 3) n cur_idx end_idx n_in o
  | None =>
      r ← fill_key_range_reverse bt read_ret allowed_fn junk (o_cursor o) (o_st o) None cur_idx (n_out o) (o_values o) (prev_value o);
      let '(c, st, ret, values) := r in
      let o := mk_range_out c st (n_out o) values (o_status o) in
      Some (cur_idx, if decide (ret = BTREE_SUCCESS) then inc_out o
                     else if decide (ret = BTREE_QUERY_PAUSED) then set_ostatus (inc_out o) ret
                     else o)
  end.

(** ** The walk *)

(** The stack entry of a child of [cur], over the old contents of the entry. *)
Definition child_frame (c : btree_range_cursor) (cur : frame) (x : tnode) (old : frame) : option frame :=
  let dir := c_dir c in
  s ← (if (f_cur cur =? f_start cur) && has (f_edge cur) START_EDGE
       then s ← bsearch_start c x; Some (i16 s, f_edge old .| START_EDGE)
       else Some (if 0 <? dir then 0 else i16 (tnkeys x), f_edge old));
  let '(start_, edge) := s in
  e ← (if (f_cur cur =? f_end cur - dir) && has (f_edge cur) END_EDGE
       then e ← bsearch_end c x; Some (i16 e, edge .| END_EDGE)
       else Some (if 0 <? dir then i16 (tnkeys x) else 0, edge));
  let '(end_, edge) := e in
  Some (match x with
        | TNonLeaf _ => mk_frame x start_ (i16 (end_ + dir)) start_ edge
        | TLeaf _ =>
            if dir <? 0 then mk_frame x (i16 (start_ + dir)) (i16 (end_ + dir)) (i16 (start_ + dir)) edge
            else mk_frame x start_ end_ start_ edge
        end).

(** The loop: [sp] is the top of the stack, -1 when it is empty. *)
Fixpoint get_next_loop (fuel : nat) (t : tree) (n_in : Z) (sp : Z) (stack : list frame) (o : range_out)
    : option (Z * list frame * range_out) :=
  match fuel with
  | O => None
  | S fuel =>
      if (sp <? 0) || fatal (o_status o) then Some (sp, stack, o)
      else
        cur ← stack !! z2n sp;
        let dir := c_dir (o_cursor o) in
        match f_node cur with
        | TLeaf n =>
            if n_in <=? n2z (n_out o) then Some (sp, stack, o)
            else
              r ← (if f_end cur * dir <? f_cur cur * dir then Some (f_cur cur, set_ostatus o BTREE_FAILURE)
                   else populate_output_array (Some n) (f_cur cur) (f_end cur) n_in o);
              let '(i, o) := r in
              get_next_loop fuel t n_in (if i =? f_end cur then sp - 1 else sp) (<[z2n sp := set_cur cur i]> stack) o
        | TNonLeaf v =>
            let moved := set_cur cur (i16 (f_cur cur + dir)) in
            if f_cur cur =? f_end cur then get_next_loop fuel t n_in (sp - 1) (<[z2n sp := moved]> stack) o
            else
              logical_id ← child_ptr v (f_cur cur);
              x ← get_existing_node node_ret t logical_id;
              match x with
              | inl r => Some (sp, stack, set_ostatus o r)
              | inr x =>
                  old ← stack !! z2n (sp + 1);
                  child ← child_frame (o_cursor o) cur x old;
                  get_next_loop fuel t n_in (sp + 1) (<[z2n sp := moved]> (<[z2n (sp + 1) := child]> stack)) o
              end
        end
  end.

(** The start key of the next chunk: the last key of this one, included again
    when the query was paused there. *)
Definition store_last_key (o : range_out) : option range_out :=
  match n_out o with
  | O => None
  | S i =>
      v ← o_values o !! i;
      key ← (match rd_key v with
             | Some b => k ← bytes_at (Some b) (rd_keylen v); Some (Some k)
             | None => Some None
             end);
      let c := o_cursor o in
      let m := query_meta c in
      let cleared := Z.land (r_flags m) (Z.lnot (RANGE_START_LE .| RANGE_START_LT .| RANGE_START_GE .| RANGE_START_GT)) in
      let bound := if decide (o_status o = BTREE_QUERY_PAUSED)
                   then if 0 <? c_dir c then RANGE_START_GE else RANGE_START_LE
                   else if 0 <? c_dir c then RANGE_START_GT else RANGE_START_LT in
      let m := mk_btree_range_meta (cleared .| bound) (keybuf_size m) (databuf_size m) key (key_end m)
                 (r_start_seq m) (r_end_seq m) in
      Some (mk_range_out (set_query_meta c m) (o_st o) (n_out o) (o_values o) (o_status o))
  end.

Definition btree_range_get_next_fast (stack0 : list frame) (t : tree) (c : btree_range_cursor) (n_in : Z)
    (values : list btree_range_data) : option range_out :=
  let c := set_prior c false in
  let o := mk_range_out c (t_ov t) 0 values BTREE_SUCCESS in
  d ← btree_range_find_diversion t c;
  r ← (match d with
       | inl e => Some (-1, stack0, set_ostatus o e)
       | inr (x, s, e) =>
           get_next_loop (2 * size (t_nodes t) + 3) t n_in 0
             (<[O := mk_frame x s e s (START_EDGE .| END_EDGE)]> stack0) o
       end);
  let '(sp, stack, o) := r in
  o ← (if (sp <? 0) && negb (fatal (o_status o)) && (c_dir (o_cursor o) <? 0) && key_last_seq_unknown (o_cursor o)
       then r ← populate_output_array None 0 0 n_in o; Some r.2
       else Some o);
  let o := if negb (fatal (o_status o)) && (n_out o =? 0)%nat then set_ostatus o BTREE_QUERY_DONE else o in
  if bool_decide (o_status o = BTREE_FAILURE) || bool_decide (o_status o = BTREE_QUERY_DONE) || storage_error (o_status o)
  then Some o
  else store_last_key o.

(** ** Queries *)

Definition btree_range_get_next (stack0 : list frame) (t : tree) (c : btree_range_cursor) (n_in : Z)
    (values : list btree_range_data) : option range_out :=
  if has (r_flags (query_meta c)) RANGE_INPLACE_POINTERS then None
  else btree_range_get_next_fast stack0 t c n_in values.

(** The new cursor, with its own copies of the bounds, over the cursor [old]
    that was in its place. *)
Definition btree_range_query_start_fast (old : btree_range_cursor) (rmeta : btree_range_meta) : btree_range_cursor :=
  mk_btree_range_cursor rmeta (if IS_ASCENDING_QUERY rmeta then 1 else -1) (Some []) 0 None 0
    (prior_version_tombstoned old) false 0 (c_status old) false.

(** A new cursor goes to the first free place of the thread's table; [old] is
    what the place held. In-place queries fail an assertion. *)
Definition btree_raw_range_query_start (cursors : list (option btree_range_cursor)) (old : btree_range_cursor)
    (rmeta : btree_range_meta)
    : option (list (option btree_range_cursor) * btree_status * option nat) :=
  if decide (validate_range_query rmeta = BTREE_SUCCESS) then
    match list_find (fun c => c = None) cursors with
    | None => Some (cursors, BTREE_FAILURE, None)
    | Some (i, _) =>
        if has (r_flags rmeta) RANGE_INPLACE_POINTERS then None
        else
          let c := btree_range_query_start_fast old rmeta in
          Some (<[i := Some c]> cursors, BTREE_SUCCESS, Some i)
    end
  else Some (cursors, validate_range_query rmeta, None).

Definition btree_range_query_end_fast (c : btree_range_cursor) : option btree_status :=
  _ ← assert_ (negb (key_last_seq_unknown c));
  Some BTREE_SUCCESS.

Definition btree_range_query_end (cursors : list (option btree_range_cursor)) (i : nat)
    : option (list (option btree_range_cursor) * btree_status) :=
  c ← cursors !! i;
  match c with
  | None => None
  | Some c =>
      status ← btree_range_query_end_fast c;
      Some (<[i := None]> cursors, status)
  end.
End walk.
