(* ===== verification/RangeSpec.v ===== *)
(** * What a range query lists

    The specification of ascending range queries on the sequence of entries of
    a tree: the newest version with an acceptable sequence number of every key
    between the bounds, unless it is a tombstone. The bounds also cut every
    sorted sequence of versions, which is what the searches in nodes compute. *)

From S2P Require Import Prelude Status LeafMeta LeafNode LeafOps LeafCells LeafEncode LeafFixup LeafSpec LeafRefine LeafPlain LeafMove NodeSearch LeafTheorems NodeSearchSpec NonLeaf NonLeafSpec NodeTheorems TreeFlat.

(** A bound: a key and whether it is included. *)
Abbreviation kbound := (option (list byte * bool)).

Section range_spec.
Context (cmp : list byte -> list byte -> Z) `{!CmpOk cmp} (m : option btree_metadata).
Abbreviation ver := entry_version.

(** ** Keys and versions in a range *)

(** The request asks for the sequence number. *)
Definition rel (s : Z) : bool := match age m s with Eq => true | _ => false end.

Lemma rel_code s : rel s = let '(_, e, r) := seqno_cmp_range m s in e || r.
Proof using Type. unfold rel. rewrite age_code. destruct (seqno_cmp_range m s) as [[x e] r]. destruct (e || r); [done|by case_if]. Qed.

Definition lo_ok (lo : kbound) (k : list byte) : bool :=
  match lo with
  | Some (a, true) => cmp a k <=? 0
  | Some (a, false) => cmp a k <? 0
  | None => true
  end.
Definition hi_ok (hi : kbound) (k : list byte) : bool :=
  match hi with
  | Some (b, true) => 0 <=? cmp b k
  | Some (b, false) => 0 <? cmp b k
  | None => true
  end.

Definition in_range (lo hi : kbound) (k : list byte) : bool := lo_ok lo k && hi_ok hi k.

(** What the searches count for the two bounds. *)
Definition before (lo : kbound) (v : version) : Prop :=
  match lo with
  | Some (a, true) => side cmp a m v = Lt
  | Some (a, false) => 0 <= cmp a v.1
  | None => False
  end.
Definition upto (hi : kbound) (v : version) : Prop :=
  match hi with
  | Some (b, true) => 0 <= cmp b v.1
  | Some (b, false) => side cmp b m v = Lt
  | None => True
  end.

Lemma rel_side k v : cmp k v.1 = 0 -> rel v.2 = true -> side cmp k m v = Eq.
Proof using Type. unfold side, rel. intros -> H. cbn. by destruct (age m v.2). Qed.

Lemma side_Eq k v : side cmp k m v = Eq <-> cmp k v.1 = 0 /\ rel v.2 = true.
Proof using Type.
  split; [|intros [H1 H2]; by apply rel_side]. intros H. pose proof (side_eq_key cmp _ _ _ H) as Hk. split; [done|].
  unfold side in H. rewrite Hk in H. cbn in H. unfold rel. by rewrite H.
Qed.

Lemma side_Lt_le k v : side cmp k m v = Lt -> 0 <= cmp k v.1.
Proof using Type. rewrite ?side_code. destruct (Z.eqb_spec (cmp k v.1) 0); [lia|]. destruct (Z.ltb_spec (cmp k v.1) 0); [done|lia]. Qed.

Lemma side_Lt k v : 0 < cmp k v.1 -> side cmp k m v = Lt.
Proof using Type. intros H. rewrite ?side_code. by rewrite (proj2 (Z.eqb_neq _ _)), (proj2 (Z.ltb_ge _ _)) by lia. Qed.

Lemma before_rel lo v : rel v.2 = true -> before lo v <-> lo_ok lo v.1 = false.
Proof using Type.
  intros Hr. destruct lo as [[a []]|]; cbn; [|rewrite Z.ltb_ge; lia|done]. rewrite Z.leb_gt. split.
  - intros H. pose proof (side_Lt_le _ _ H). destruct (decide (cmp a v.1 = 0)); [|lia].
    by rewrite rel_side in H.
  - apply side_Lt.
Qed.

Lemma upto_rel hi v : rel v.2 = true -> upto hi v <-> hi_ok hi v.1 = true.
Proof using Type.
  intros Hr. destruct hi as [[a []]|]; cbn; [by rewrite Z.leb_le| |done]. rewrite Z.ltb_lt. split.
  - intros H. pose proof (side_Lt_le _ _ H). destruct (decide (cmp a v.1 = 0)); [|lia].
    by rewrite rel_side in H.
  - apply side_Lt.
Qed.

Lemma cmp_vle a v w : vle cmp v w -> 0 <= cmp a w.1 -> 0 <= cmp a v.1.
Proof using CmpOk0.
  intros Hv Ha. assert (cmp v.1 w.1 <= 0) by (unfold vle in Hv; lia).
  pose proof (cmp_antisym a v.1). pose proof (cmp_antisym a w.1). pose proof (cmp_trans v.1 w.1 a). lia.
Qed.

Lemma before_vle lo v w : vle cmp v w -> before lo w -> before lo v.
Proof using CmpOk0. destruct lo as [[a []]|]; cbn; [|by apply cmp_vle|done]. intros Hv. by apply side_mono_vle. Qed.

Lemma upto_vle hi v w : vle cmp v w -> upto hi w -> upto hi v.
Proof using CmpOk0. destruct hi as [[a []]|]; cbn; [by apply cmp_vle| |done]. intros Hv. by apply side_mono_vle. Qed.

(** The lower bound is not above the upper one. *)
Definition bounds_ordered (lo hi : kbound) : Prop :=
  match lo, hi with
  | Some (a, i), Some (b, j) => cmp a b < 0 \/ (cmp a b = 0 /\ (i || j) = true)
  | _, _ => True
  end.

Lemma side_same a b v : cmp a b = 0 -> side cmp a m v = Lt -> side cmp b m v = Lt.
Proof using CmpOk0.
  intros H. pose proof (cmp_eq_l cmp a b v.1 H). rewrite ?side_code.
  destruct (Z.eqb_spec (cmp a v.1) 0), (Z.eqb_spec (cmp b v.1) 0); try lia; [done|].
  destruct (Z.ltb_spec (cmp a v.1) 0), (Z.ltb_spec (cmp b v.1) 0); try lia; done.
Qed.

Lemma before_upto lo hi v : bounds_ordered lo hi -> before lo v -> upto hi v.
Proof using CmpOk0.
  destruct lo as [[a i]|], hi as [[b j]|]; [|done|by intros ? []|done]. intros Ho Hb.
  assert (0 <= cmp a v.1) as Ha by (destruct i; [by apply side_Lt_le|done]).
  cbn in Ho. pose proof (cmp_antisym a v.1). pose proof (cmp_antisym b v.1). pose proof (cmp_antisym a b).
  destruct Ho as [Ho|[Ho Hij]].
  - pose proof (cmp_lt_trans cmp v.1 a b ltac:(lia) Ho). destruct j; cbn; [lia|]. apply side_Lt. lia.
  - pose proof (cmp_eq_l cmp a b v.1 Ho). destruct j; cbn; [lia|]. destruct i; [by apply (side_same a)|done].
Qed.

(** ** The list *)

Definition wanted (lo hi : kbound) (e : entry) : Prop := rel (e_seqno e) = true /\ in_range lo hi (e_key e) = true.
Definition pick (lo hi : kbound) (es : list entry) : list entry := filter (wanted lo hi) es.

Definition same_key (last : option (list byte)) (e : entry) : bool :=
  match last with Some k => cmp k (e_key e) =? 0 | None => false end.
Definition next_key (last : option (list byte)) (e : entry) : option (list byte) :=
  if same_key last e then last else Some (e_key e).

(** The first entry of every run of equal keys, after the key [last]. *)
Fixpoint newest (last : option (list byte)) (es : list entry) : list entry :=
  match es with
  | [] => []
  | e :: es => if same_key last e then newest last es else e :: newest (Some (e_key e)) es
  end.

(** The entries of the list: the first of every run unless it is a tombstone. *)
Definition live (es : list entry) : list entry := filter (fun e => e_tomb e = false) (newest None es).
Definition listing (lo hi : kbound) (es : list entry) : list entry := live (pick lo hi es).

Lemma newest_app last es1 es2 : newest last (es1 ++ es2) = newest last es1 ++ newest (foldl next_key last es1) es2.
Proof using Type.
  revert last; induction es1 as [|e es1 IH]; intros last; [done|]. cbn. unfold next_key at 2.
  destruct (same_key last e); [apply IH|]. cbn. by rewrite IH.
Qed.

Lemma live_app es1 es2 :
  live (es1 ++ es2) = live es1 ++ filter (fun e => e_tomb e = false) (newest (foldl next_key None es1) es2).
Proof using Type. unfold live. by rewrite newest_app, list.filter_app. Qed.

Lemma live_snoc es e :
  live (es ++ [e]) = live es ++ if same_key (foldl next_key None es) e || e_tomb e then [] else [e].
Proof using Type. rewrite live_app. cbn. destruct (same_key _ e); [done|]. rewrite filter_cons. by destruct (e_tomb e). Qed.

Lemma live_prefix es es' : es `prefix_of` es' -> live es `prefix_of` live es'.
Proof using Type. intros [k ->]. rewrite live_app. by eexists. Qed.

Lemma pick_app lo hi es1 es2 : pick lo hi (es1 ++ es2) = pick lo hi es1 ++ pick lo hi es2.
Proof using Type. apply list.filter_app. Qed.

Lemma pick_nil lo hi es : (forall e, e ∈ es -> ~ wanted lo hi e) -> pick lo hi es = [].
Proof using Type.
  intros H. unfold pick. induction es as [|e es IH]; [done|]. rewrite filter_cons, decide_False, IH; [done| |].
  - intros x Hx. apply H. by right.
  - apply H. by left.
Qed.

(** ** What the list says *)

Lemma in_range_same lo hi k k' : cmp k k' = 0 -> in_range lo hi k = in_range lo hi k'.
Proof using CmpOk0.
  intros H. unfold in_range. f_equal.
  - destruct lo as [[a []]|]; cbn; [..|done]; pose proof (cmp_eq_l cmp k k' a H);
      pose proof (cmp_antisym k a); pose proof (cmp_antisym k' a);
      [destruct (Z.leb_spec (cmp a k) 0), (Z.leb_spec (cmp a k') 0)|destruct (Z.ltb_spec (cmp a k) 0), (Z.ltb_spec (cmp a k') 0)]; done || lia.
  - destruct hi as [[a []]|]; cbn; [..|done]; pose proof (cmp_eq_l cmp k k' a H);
      pose proof (cmp_antisym k a); pose proof (cmp_antisym k' a);
      [destruct (Z.leb_spec 0 (cmp a k)), (Z.leb_spec 0 (cmp a k'))|destruct (Z.ltb_spec 0 (cmp a k)), (Z.ltb_spec 0 (cmp a k'))]; done || lia.
Qed.

(** The entries of key [k] in the range are those a read of [k] considers. *)
Lemma pick_key lo hi es k :
  in_range lo hi k = true ->
  filter (fun e => side cmp k m (ver e) = Eq) es = filter (fun e => cmp k (e_key e) = 0) (pick lo hi es).
Proof using CmpOk0.
  intros Hk. unfold pick. rewrite list_filter_filter. apply list_filter_iff. intros e. rewrite side_Eq. cbn. unfold wanted. split.
  - intros [Hc Hr]. split; [done|]. split; [done|]. by rewrite <- (in_range_same lo hi k).
  - by intros (Hc & Hr & _).
Qed.

Lemma head_filter (P : entry -> Prop) `{!forall x, Decision (P x)} es e : list.head (filter P es) = Some e -> e ∈ es.
Proof using Type.
  intros Hh. assert (e ∈ filter P es) as [_ Hin]%list_elem_of_filter; [|done]. destruct (filter P es); [done|]. injection Hh as ->. by left.
Qed.

(** In a sorted list the first entry of a key comes before the entries with
    other keys that follow it. *)
Lemma newest_spec es last :
  vsorted cmp es -> (forall k e, last = Some k -> e ∈ es -> cmp k (e_key e) <= 0) ->
  forall e, e ∈ newest last es <->
    same_key last e = false /\ list.head (filter (fun x => cmp (e_key e) (e_key x) = 0) es) = Some e.
Proof using CmpOk0.
  revert last; induction es as [|x es IH]; intros last Hs Hl e.
  { split; [by intros ?%not_elem_of_nil|by intros [_ ?]]. }
  change (x :: es) with ([x] ++ es) in Hs. apply vsorted_app in Hs as (_ & Hs & Hx). cbn [newest].
  assert (forall y, y ∈ es -> cmp (e_key x) (e_key y) <= 0) as Hle.
  { intros y Hy. specialize (Hx x y ltac:(by left) Hy). unfold ordered in Hx. cbn in Hx. lia. }
  destruct (same_key last x) eqn:Ex.
  - destruct last as [k|]; [|done]. cbn in Ex. apply Z.eqb_eq in Ex.
    rewrite IH; [|done|intros k' y Hk Hy; apply (Hl k' y Hk); by right].
    split; intros [H1 H2]; (split; [done|]); cbn in H1; apply Z.eqb_neq in H1.
    + rewrite filter_cons, decide_False; [done|]. intros E. apply H1.
      pose proof (cmp_eq_l cmp k (e_key x) (e_key e) Ex). pose proof (cmp_antisym (e_key e) (e_key x)). lia.
    + rewrite filter_cons, decide_False in H2; [done|]. intros E. apply H1.
      pose proof (cmp_eq_l cmp k (e_key x) (e_key e) Ex). pose proof (cmp_antisym (e_key e) (e_key x)). lia.
  - rewrite elem_of_cons. rewrite IH; [|done|intros k' y [= <-] Hy; by apply Hle]. rewrite filter_cons. split.
    + intros [->|[H1 H2]].
      * split; [done|]. rewrite decide_True by apply (cmp_refl cmp). done.
      * cbn in H1. apply Z.eqb_neq in H1. pose proof (cmp_antisym (e_key e) (e_key x)).
        rewrite decide_False by lia. split; [|done]. destruct last as [k|]; [|done]. cbn in *. apply Z.eqb_neq in Ex.
        apply Z.eqb_neq. specialize (Hl k x eq_refl ltac:(by left)).
        assert (e ∈ es) as He.
        { by eapply head_filter. }
        pose proof (cmp_lt_trans' cmp k (e_key x) (e_key e) ltac:(lia) (Hle e He)). lia.
    + intros [H1 H2]. case_decide as Ec; [left; by injection H2 as ->|]. right. split; [|done]. cbn.
      apply Z.eqb_neq. pose proof (cmp_antisym (e_key e) (e_key x)). lia.
Qed.

(** The list holds exactly the keys of the range that a read would find, each
    with the version the read returns. *)
Lemma listing_spec lo hi es e :
  vsorted cmp es ->
  e ∈ listing lo hi es <->
  in_range lo hi (e_key e) = true /\ e_tomb e = false /\ answer cmp (e_key e) m es = Some e.
Proof using CmpOk0.
  intros Hs. unfold listing, live. rewrite list_elem_of_filter.
  rewrite newest_spec; [|apply (vsorted_sublist cmp es); [apply sublist_filter|done]|done]. cbn [same_key]. split.
  - intros (Ht & _ & Hh). assert (in_range lo hi (e_key e) = true) as Hin.
    { apply head_filter in Hh. by apply list_elem_of_filter in Hh as [[_ Hin] _]. }
    split_and!; [done|done|]. unfold answer. by rewrite (pick_key lo hi).
  - intros (Hin & Ht & Ha). split_and!; [done|done|]. unfold answer in Ha. by rewrite (pick_key lo hi) in Ha.
Qed.

(** The keys of a list are strictly increasing. *)
Definition keys_increase {A} (key : A -> list byte) (es : list A) : Prop :=
  forall i j e e', (i < j)%nat -> es !! i = Some e -> es !! j = Some e' -> cmp (key e) (key e') < 0.

Lemma newest_sublist es last : sublist (newest last es) es.
Proof using Type.
  revert last; induction es as [|e es IH]; intros last; [done|]. cbn. case_match; [by apply sublist_cons|by apply sublist_skip].
Qed.

Lemma listing_sublist lo hi es : sublist (listing lo hi es) es.
Proof using Type. unfold listing, live, pick. rewrite sublist_filter, newest_sublist. apply sublist_filter. Qed.

Lemma listing_increase lo hi es : vsorted cmp es -> keys_increase e_key (listing lo hi es).
Proof using CmpOk0.
  intros Hs i j e e' Hij Hi Hj.
  assert (ordered cmp (ver e) (ver e')) as Ho.
  { apply (vsorted_sublist cmp es _ (listing_sublist lo hi es) Hs i j); [done|by rewrite list_lookup_fmap, ?Hi, ?Hj..]. }
  destruct Ho as [Ho|[Ho Hlt]]; [done|]. cbn in Ho, Hlt.
  apply list_elem_of_lookup_2, listing_spec in Hi as (_ & _ & Ha); [|done].
  apply list_elem_of_lookup_2, listing_spec in Hj as (_ & _ & Ha'); [|done].
  assert (answer cmp (e_key e) m es = answer cmp (e_key e') m es) as E.
  { unfold answer. f_equal. apply list_filter_iff. intros x. rewrite !side_Eq. pose proof (cmp_eq_l cmp _ _ (e_key x) Ho). cbn.
    split; intros [H1 H2]; (split; [lia|done]). }
  rewrite Ha, Ha' in E. injection E as ->. lia.
Qed.

Section increase.
Context {A : Type} (key : A -> list byte).

Lemma increase_app (es1 es2 : list A) : keys_increase key (es1 ++ es2) -> keys_increase key es2.
Proof using Type.
  intros H i j e e' Hij Hi Hj. apply (H (length es1 + i) (length es1 + j))%nat; [lia|by rewrite lookup_app_add..].
Qed.

Lemma increase_head (e : A) es x : keys_increase key (e :: es) -> x ∈ es -> cmp (key e) (key x) < 0.
Proof using Type. intros H (i & Hi)%list_elem_of_lookup_1. by apply (H O (S i)); [lia| |]. Qed.

(** A list with increasing keys is determined by its elements. *)
Lemma increase_unique (es1 es2 : list A) :
  keys_increase key es1 -> keys_increase key es2 -> (forall x, x ∈ es1 <-> x ∈ es2) -> es1 = es2.
Proof using CmpOk0.
  revert es2; induction es1 as [|e1 es1 IH]; intros [|e2 es2] H1 H2 Hin; [done|..].
  - by destruct (not_elem_of_nil e2); apply Hin; left.
  - by destruct (not_elem_of_nil e1); apply Hin; left.
  - pose proof (cmp_antisym (key e1) (key e2)).
    assert (e1 = e2) as <-.
    { pose proof (proj1 (Hin e1) ltac:(by left)) as [->|Ha]%elem_of_cons; [done|].
      pose proof (proj2 (Hin e2) ltac:(by left)) as [->|Hb]%elem_of_cons; [done|].
      pose proof (increase_head _ _ _ H1 Hb). pose proof (increase_head _ _ _ H2 Ha). lia. }
    pose proof (cmp_refl cmp (key e1)). f_equal. apply IH; [by apply (increase_app [e1])|by apply (increase_app [e1])|].
    intros x. specialize (Hin x). rewrite !elem_of_cons in Hin. split; intros Hx.
    + destruct (proj1 Hin ltac:(by right)) as [->|]; [|done]. pose proof (increase_head _ _ _ H1 Hx). lia.
    + destruct (proj2 Hin ltac:(by right)) as [->|]; [|done]. pose proof (increase_head _ _ _ H2 Hx). lia.
Qed.
End increase.

Lemma lo_ok_mono lo k k' : lo_ok lo k = true -> cmp k k' < 0 -> lo_ok lo k' = true.
Proof using CmpOk0.
  destruct lo as [[a []]|]; cbn; [| |done].
  - rewrite !Z.leb_le. intros Ha Hk. pose proof (cmp_lt_trans cmp a k k' Ha Hk). lia.
  - rewrite !Z.ltb_lt. intros Ha Hk. apply (cmp_lt_trans' cmp a k k' Ha). lia.
Qed.

Lemma lo_ok_incl lo k k' : lo_ok lo k = true -> cmp k k' <= 0 -> lo_ok lo k' = true.
Proof using CmpOk0.
  intros Hl Hk. destruct (decide (cmp k k' = 0)) as [E|E]; [|apply (lo_ok_mono lo k); [done|lia]].
  pose proof (in_range_same lo None k k' E) as H. unfold in_range in H. cbn in H. rewrite !andb_true_r in H. congruence.
Qed.

(** Chunks: the list from the key of an entry of the list on is the rest of
    the list, with or without that entry. *)
Lemma listing_rest lo hi es es1 e es2 incl :
  vsorted cmp es -> listing lo hi es = es1 ++ e :: es2 ->
  listing (Some (e_key e, incl)) hi es = (if incl then [e] else []) ++ es2.
Proof using CmpOk0.
  intros Hs E. pose proof (listing_increase lo hi es Hs) as Hi. rewrite E in Hi.
  assert (in_range lo hi (e_key e) = true) as Hr.
  { apply (listing_spec lo hi es e Hs). rewrite E. apply elem_of_app. right. by left. }
  pose proof (cmp_refl cmp (e_key e)) as Hee.
  assert (forall x, x ∈ listing (Some (e_key e, incl)) hi es <-> x ∈ listing lo hi es /\ lo_ok (Some (e_key e, incl)) (e_key x) = true) as Hx.
  { intros x. rewrite !listing_spec by done. unfold in_range in *. rewrite !andb_true_iff in *. split.
    - intros ([Hlo Hhi] & Ht & Ha). split_and!; try done. apply (lo_ok_incl lo (e_key e)); [by apply Hr|].
      destruct incl; cbn in Hlo; b2p; lia.
    - by intros (([_ Hhi] & Ht & Ha) & Hlo). }
  assert (forall x, x ∈ es1 -> cmp (e_key x) (e_key e) < 0) as H1.
  { intros x (i & Hix)%list_elem_of_lookup_1.
    by apply (Hi i (length es1) x e (lookup_lt_Some _ _ _ Hix) (lookup_app_l_Some _ _ _ _ Hix)), list_lookup_middle. }
  assert (forall x, x ∈ es2 -> cmp (e_key e) (e_key x) < 0) as H2 by (intros x; by apply increase_head, (increase_app e_key es1)).
  apply (increase_unique e_key); [by apply listing_increase| |].
  - destruct incl; [by apply (increase_app e_key es1)|]. apply (increase_app e_key (es1 ++ [e])). by rewrite <- app_assoc.
  - intros x. rewrite Hx, E, !elem_of_app, elem_of_cons. split.
    + intros [[Hx1|[->|Hx2]] Hlo]; [| |by right].
      * specialize (H1 x Hx1). pose proof (cmp_antisym (e_key x) (e_key e)). destruct incl; cbn in Hlo; b2p; lia.
      * destruct incl; [left; by left|]. cbn in Hlo. b2p. lia.
    + intros [Hx1|Hx2].
      * destruct incl; [|by apply not_elem_of_nil in Hx1]. apply list_elem_of_singleton in Hx1 as ->. split; [auto|]. cbn. b2p. lia.
      * specialize (H2 x Hx2). split; [auto|]. destruct incl; cbn; b2p; lia.
Qed.
End range_spec.
