(* ===== verification/RangeLeaf.v ===== *)
(** * Ascending range queries in a leaf

    What one entry of a leaf contributes to a chunk, and the loop over the
    entries between two indexes, against the specification of the list. *)

From stdpp Require Import gmap.
From S2P Require Import Prelude Status LeafMeta LeafNode LeafOps LeafCells LeafEncode LeafFixup LeafSpec LeafRefine LeafPlain LeafMove NodeSearch LeafTheorems NodeSearchSpec NonLeaf NonLeafSpec NodeTheorems TreeFlat PStats Overflow OverflowSpec OverflowTheorems Tree TreeSpec Range RangeWalk RangeSpec.

Lemma i16_small z : - 2 ^ 15 <= z < 2 ^ 15 -> i16 z = z.
Proof. intros H. unfold i16. rewrite Z.mod_small; lia. Qed.

Lemma bytes_at_all (k : list byte) : bytes_at (Some k) (lenZ k) = Some k.
Proof.
  unfold bytes_at. destruct (Z.eqb_spec (lenZ k) 0) as [E|E]; [by destruct k|]. runs.
  by rewrite Z.leb_refl, Nat2Z.id, firstn_all.
Qed.

Lemma zip_snoc {A B} (f : A -> B -> B) l x ws v :
  ws !! length l = Some v ->
  zip_with f (l ++ [x]) ws ++ drop (length (l ++ [x])) ws = <[length l := f x v]> (zip_with f l ws ++ drop (length l) ws).
Proof.
  revert ws; induction l as [|y l IH]; intros [|w ws] Hv; try done; cbn in *; [by injection Hv as ->|by rewrite <- IH].
Qed.

Section leaf.
Context (bt : btree_raw) (Hbt : bt_ok bt) `{!CmpOk (cmp_cb bt)} (read_ret : Z -> btree_status)
  (allowed_fn : option (list byte -> bool)) (junk : Z) (content : entry -> list byte).
Abbreviation cmp := (cmp_cb bt).
Abbreviation is_big e := (big_object_kd bt (lenZ (e_key e)) (e_datalen e)).

(** The application provides no buffers. *)
Definition plain_query (qm : btree_range_meta) : Prop :=
  has (r_flags qm) RANGE_BUFFER_PROVIDED = false /\ has (r_flags qm) RANGE_INPLACE_POINTERS = false.

Lemma has_land flags mask f : Z.land mask f = f -> has (Z.land flags mask) f = has flags f.
Proof using Type. intros E. unfold has. by rewrite <- Z.land_assoc, E. Qed.

Lemma has_lor flags f g : has flags (f .| g) = has flags f || has flags g.
Proof using Type.
  unfold has. rewrite Z.land_lor_distr_r. destruct (Z.eqb_spec (Z.land flags f) 0) as [->|H1]; [done|].
  apply negb_true_iff, Z.eqb_neq. intros [E _]%Z.lor_eq_0_iff. done.
Qed.

Lemma plain_flags qm : plain_query qm ->
  has (meta_flags_of qm) RANGE_BUFFER_PROVIDED = false /\ has (meta_flags_of qm) RANGE_INPLACE_POINTERS = false /\
  has (meta_flags_of qm) (RANGE_BUFFER_PROVIDED .| RANGE_INPLACE_POINTERS) = false.
Proof using Type. intros [H1 H2]. unfold meta_flags_of. rewrite has_lor, !has_land by done. by rewrite H1, H2. Qed.

(** ** One entry *)

Definition info_of (e : entry) : key_stuff_info := mk_key_stuff_info (e_key e) (e_ptr e) (e_datalen e) (e_seqno e) true.

Lemma entry_at_ok n es i e :
  leaf_rep bt n es -> es !! i = Some e ->
  exists km, entry_at n (n2z i) = Some (km, info_of e) /\ seqno km = e_seqno e /\ tombstone km = e_tomb e.
Proof using Hbt.
  intros Hrep Hi. destruct (leaf_rep_read bt Hbt n es i e Hrep Hi) as (Hki & _).
  destruct Hrep as (cs & Hlay & Hcs & _ & ->). rewrite list_lookup_fmap in Hi.
  destruct (cs !! i) as [c|] eqn:Hc; [|done]. injection Hi as <-. exists (c_meta c).
  unfold entry_at, get_key_stuff_info2, leaf_view, get_key_stuff_leaf2.
  rewrite (proj2 (Z.ltb_ge _ 0)), Nat2Z.id by lia. rewrite (layout_meta bt n cs Hbt Hlay Hcs i c Hc). runs. rewrite Hki. by runs.
Qed.

Lemma object_cached st c e data : ov_cached st ⊆ c -> object bt read_ret st e data -> object bt read_ret (set_cached st c) e data.
Proof using Type.
  intros Hc [Hl Ho]. split; [done|]. destruct (is_big e); [|done].
  destruct Ho as (ids & rest & Hch & E & Hacc). exists ids, rest. split_and!; [done|done|].
  eapply Forall_impl; [|exact Hacc]. intros i. by apply accessible_cached.
Qed.

Lemma data_index_ok qm n es i e st v :
  plain_query qm -> leaf_rep bt n es -> es !! i = Some e -> object bt read_ret st e (content e) ->
  exists c, ov_cached st ⊆ c /\
    get_leaf_data_index bt read_ret st n i v (databuf_of qm) (meta_flags_of qm) =
    Some (set_cached st c, BTREE_SUCCESS, Some (content e), e_datalen e).
Proof using Hbt.
  intros Hq Hrep Hi (Hlen & Hobj). pose proof (Forall_at (leaf_rep_entries_ok bt n es Hrep) Hi) as He.
  destruct (leaf_rep_read bt Hbt n es i e Hrep Hi) as (Hki & _ & post & Hd). destruct (plain_flags qm Hq) as (E1 & E2 & E3).
  unfold get_leaf_data_index. rewrite Hki, E2, E3. runs. cbn [andb orb negb ki_datalen ki_keylen ki_ptr e_info].
  pose proof (eo_data _ _ He) as Hdl. unfold data_inleaf in Hdl.
  destruct (is_big e) eqn:Hbig.
  - destruct Hobj as (ids & rest & Hch & Ec & Hacc).
    destruct (chain_length bt Hbt _ _ _ _ Hch) as [Hil Hpos]. rewrite Ec, length_app in Hlen.
    pose proof (eo_key _ _ He). pose proof (eo_big_key _ _ He).
    rewrite (proj2 (Z.ltb_lt 0 _)) by lia. rewrite <- Hdl.
    assert ((if negb (lenZ (e_data e) =? 0) then d ← btree_leaf_get_data_nth_key n i; read_bytes d.1 0 (z2n (lenZ (e_data e)))
             else Some []) = Some (e_data e)) as ->.
    { destruct (Z.eqb_spec (lenZ (e_data e)) 0) as [E|E]; cbn [negb].
      - destruct (e_data e); [done|cbn in E; lia].
      - rewrite Hd. runs. cbn [fst]. by rewrite Nat2Z.id, read_bytes_front. }
    runs. replace (e_datalen e - lenZ (e_data e)) with (lenZ rest) by lia.
    destruct (read_chain_ok bt read_ret Hbt _ _ _ _ Hch (S (z2n (e_datalen e))) st (e_data e) BTREE_SUCCESS)
      as (c & -> & Hc); [done|done|lia|]. runs. change (0 =? 0) with true. cbn. exists c. by rewrite Ec.
  - rewrite Hd. runs. rewrite Z.eqb_refl. cbn [assert_]. runs. rewrite Hobj in *. rewrite <- Hlen, Nat2Z.id, read_bytes_front by done.
    runs. exists (ov_cached st). by destruct st.
Qed.

(** The callback lets the query pass the key. *)
Definition passes (k : list byte) : bool := match allowed_fn with Some f => f k | None => true end.

(** The result for an entry, over the old contents of the result; a paused
    result has no data. *)
Definition shown (qm : btree_range_meta) (e : entry) (v : btree_range_data) : btree_range_data :=
  if passes (e_key e) then
    if has (r_flags qm) RANGE_KEYS_ONLY
    then mk_btree_range_data BTREE_RANGE_SUCCESS (Some (e_key e)) (lenZ (e_key e)) (rd_data v) (rd_datalen v)
    else mk_btree_range_data BTREE_RANGE_SUCCESS (Some (e_key e)) (lenZ (e_key e)) (Some (content e)) (e_datalen e)
  else mk_btree_range_data BTREE_RANGE_PAUSED (Some (e_key e)) (lenZ (e_key e)) (rd_data v) (rd_datalen v).

Definition pass_status (k : list byte) : btree_status := if passes k then BTREE_SUCCESS else BTREE_QUERY_PAUSED.

Lemma emit_ok qm n es i e st v :
  plain_query qm -> leaf_rep bt n es -> es !! i = Some e -> object bt read_ret st e (content e) ->
  exists c, ov_cached st ⊆ c /\
    emit bt read_ret allowed_fn qm st n i (info_of e) v = Some (set_cached st c, pass_status (e_key e), shown qm e v).
Proof using Hbt.
  intros Hq Hrep Hi Hobj. destruct (plain_flags qm Hq) as (E1 & E2 & _).
  unfold emit, get_leaf_key_index. rewrite E1, E2. runs. cbn [ks_key info_of].
  assert (forall (k : list byte) v, (match allowed_fn with
     | Some f => k ← bytes_at (rd_key (set_rkey v (Some k) (lenZ k))) (rd_keylen (set_rkey v (Some k) (lenZ k))); Some (f k)
     | None => Some true end) = Some (passes k)) as Hp.
  { intros k w. unfold passes. destruct allowed_fn as [f|]; [|done]. cbn [set_rkey rd_key rd_keylen]. by rewrite bytes_at_all. }
  rewrite Hp. runs. unfold shown, pass_status. destruct (passes (e_key e)); cbn [negb].
  - unfold emit_data. destruct (has (r_flags qm) RANGE_KEYS_ONLY).
    + exists (ov_cached st). rewrite decide_True by done. split; [done|]. by destruct st.
    + destruct (data_index_ok qm n es i e st (rd_data (set_rkey (set_rstatus v BTREE_RANGE_STATUS_NONE) (Some (e_key e)) (lenZ (e_key e)))) Hq Hrep Hi Hobj)
        as (c & Hc & ->). runs. exists c. by rewrite decide_True.
  - exists (ov_cached st). split; [done|]. by destruct st.
Qed.

(** ** The state of a chunk *)

Context (qm : btree_range_meta) (Hq : plain_query qm) (st0 : ov_state) (values0 : list btree_range_data) (n_in : Z).
Abbreviation m := (smeta_of junk qm).
Abbreviation last_of P := (foldl (next_key cmp) None P).

(** The entries [P] of the list of the query have been seen. *)
Record scanned (o : range_out) (P : list entry) : Prop := {
  sc_meta : query_meta (o_cursor o) = qm;
  sc_dir : c_dir (o_cursor o) = 1;
  sc_ts : is_Some (ts_key (o_cursor o));
  sc_unknown : key_last_seq_unknown (o_cursor o) = false;
  sc_st : exists c, ov_cached st0 ⊆ c /\ o_st o = set_cached st0 c;
  sc_n : n_out o = length (live cmp P);
  sc_room : n2z (n_out o) <= n_in <= lenZ values0;
  sc_values : o_values o = zip_with (shown qm) (live cmp P) values0 ++ drop (length (live cmp P)) values0;
  sc_last : if prior_version_tombstoned (o_cursor o)
            then exists k, last_of P = Some k /\ ts_key (o_cursor o) = Some k /\ ts_keylen (o_cursor o) = lenZ k
            else last_of P = e_key <$> list.last (live cmp P);
  sc_pass : forall i e, live cmp P !! i = Some e -> (S i < length (live cmp P))%nat -> passes (e_key e) = true;
  sc_status : o_status o = match list.last (live cmp P) with Some e => pass_status (e_key e) | None => BTREE_SUCCESS end
}.

Definition stopped (o : range_out) : Prop := n_in <= n2z (n_out o) \/ fatal (o_status o) = true.

Lemma out_of_range_rel s : out_of_range junk qm s = negb (rel m s).
Proof using Type. unfold out_of_range. rewrite rel_code. destruct (seqno_cmp_range m s) as [[x e] r]. by destruct e, r. Qed.

(** The key that the next entry is compared with. *)
Lemma scanned_same o P e :
  scanned o P ->
  (if prior_version_tombstoned (o_cursor o)
   then k ← bytes_at (ts_key (o_cursor o)) (ts_keylen (o_cursor o)); Some (cmp k (e_key e) =? 0)
   else match prev_value o with
        | Some p => k ← bytes_at (rd_key p) (rd_keylen p); Some (cmp k (e_key e) =? 0)
        | None => Some false
        end) = Some (same_key cmp (last_of P) e).
Proof using Type.
  intros [_ _ _ _ _ Hn Hroom Hv Hl _ _]. destruct (prior_version_tombstoned _).
  - destruct Hl as (k & -> & -> & ->). by rewrite bytes_at_all.
  - rewrite Hl. unfold prev_value. destruct (decide (live cmp P = [])) as [E|(l & x & E)%snoc_of]; rewrite E in *.
    + by rewrite Hn.
    + rewrite length_app in Hn. cbn in Hn. replace (n_out o) with (S (length l)) in * by lia.
      rewrite last_snoc. cbn [fmap option_fmap option_map same_key].
      destruct (lookup_lt_is_Some_2 values0 (length l)) as [v Hv0]; [lia|].
      assert (o_values o !! length l = Some (shown qm x v)) as ->.
      { rewrite Hv, lookup_app_l by (rewrite length_zip_with, length_app; cbn; lia).
        rewrite lookup_zip_with, Hv0, list_lookup_middle by done. done. }
      unfold shown. destruct (passes (e_key x)), (has (r_flags qm) RANGE_KEYS_ONLY); cbn [rd_key rd_keylen]; by rewrite bytes_at_all.
Qed.

(** ** Seeing one more entry *)

Definition see (o : range_out) (c : btree_range_cursor) (st : ov_state) (values : list btree_range_data) : range_out :=
  mk_range_out c st (n_out o) values (o_status o).

Lemma scanned_skip o P e :
  scanned o P -> same_key cmp (last_of P) e = true -> scanned o (P ++ [e]).
Proof using Type.
  intros [] Hs. assert (live cmp (P ++ [e]) = live cmp P) as El by (rewrite live_snoc, Hs; apply app_nil_r).
  assert (last_of (P ++ [e]) = last_of P) as Ef by (rewrite foldl_app; cbn; unfold next_key at 1; by rewrite Hs).
  split; rewrite ?El, ?Ef; done.
Qed.

Lemma scanned_tomb o P e :
  scanned o P -> same_key cmp (last_of P) e = false -> e_tomb e = true ->
  scanned (see o (set_unknown (set_prior (set_ts_key (o_cursor o) (Some (e_key e)) (lenZ (e_key e))) true) false) (o_st o) (o_values o)) (P ++ [e]).
Proof using Type.
  intros [] Hs Ht. assert (live cmp (P ++ [e]) = live cmp P) as El by (rewrite live_snoc, Hs, Ht; apply app_nil_r).
  assert (last_of (P ++ [e]) = Some (e_key e)) as Ef by (rewrite foldl_app; cbn; unfold next_key at 1; by rewrite Hs).
  split; rewrite ?El, ?Ef; try done. cbn. by eexists.
Qed.

Lemma scanned_show o P e st c v :
  scanned o P -> same_key cmp (last_of P) e = false -> e_tomb e = false -> ~ stopped o ->
  st = set_cached (o_st o) c -> ov_cached (o_st o) ⊆ c -> o_values o !! n_out o = Some v ->
  let o1 := inc_out (see o (set_prior (o_cursor o) false) st (<[n_out o := shown qm e v]> (o_values o))) in
  scanned (set_ostatus o1 (pass_status (e_key e))) (P ++ [e]).
Proof using Type.
  intros [Hm Hd Ht Hu (c0 & Hc0 & Hst) Hn Hroom Hv Hl Hp Hstat] Hs Htomb Hstop -> Hc Hval o1.
  assert (live cmp (P ++ [e]) = live cmp P ++ [e]) as El by (by rewrite live_snoc, Hs, Htomb).
  assert (last_of (P ++ [e]) = Some (e_key e)) as Ef by (rewrite foldl_app; cbn; unfold next_key at 1; by rewrite Hs).
  assert (n2z (n_out o) < n_in) as Hlt by (unfold stopped in Hstop; lia).
  assert (values0 !! length (live cmp P) = Some v) as Hv0.
  { rewrite Hv, lookup_app_r, length_zip_with in Hval by (rewrite length_zip_with; lia).
    rewrite lookup_drop in Hval. rewrite <- Hval. f_equal. lia. }
  split; rewrite ?El, ?Ef; try done; cbn [set_ostatus inc_out see o1 o_cursor o_st n_out o_values o_status].
  - exists c. rewrite Hst. rewrite Hst in Hc. split; [|done]. by etrans.
  - rewrite Hn, length_app. cbn. lia.
  - lia.
  - by rewrite Hv, Hn, (zip_snoc (shown qm) _ e _ v Hv0).
  - by rewrite last_snoc.
  - intros i x Hi Hli. rewrite length_app in Hli. cbn in Hli. rewrite lookup_app_l in Hi by lia.
    destruct (decide (S i < length (live cmp P))%nat); [by apply (Hp i)|].
    rewrite last_lookup in Hstat. replace (Nat.pred (length (live cmp P))) with i in Hstat by lia. rewrite Hi in Hstat.
    unfold stopped in Hstop. rewrite Hstat in Hstop. unfold pass_status in Hstop. destruct (passes (e_key x)); [done|].
    destruct Hstop. by right.
  - by rewrite last_snoc.
Qed.

(** What an entry adds to what has been seen. *)
Definition relevant (e : entry) : Prop := rel m (e_seqno e) = true.
#[global] Instance relevant_dec e : Decision (relevant e).
Proof using Type. unfold relevant. apply _. Defined.

Lemma fill_ok o P n es i e :
  scanned o P -> ~ stopped o -> leaf_rep bt n es -> es !! i = Some e -> object bt read_ret st0 e (content e) ->
  exists c st ret values,
    fill_key_range bt read_ret allowed_fn junk (o_cursor o) (o_st o) n (n2z i) (n_out o) (o_values o) (prev_value o)
    = Some (c, st, ret, values) /\ c_dir c = 1 /\
    if decide (relevant e) then
      ret = BTREE_SKIPPED /\ scanned (see o c st values) (P ++ [e]) \/
      ret = pass_status (e_key e) /\ scanned (set_ostatus (inc_out (see o c st values)) ret) (P ++ [e])
    else ret = BTREE_SKIPPED /\ see o c st values = o.
Proof using Hbt Hq.
  intros Hsc Hns Hrep Hi Hobj. destruct (entry_at_ok n es i e Hrep Hi) as (km & He & Hks & Hkt).
  pose proof (Forall_at (leaf_rep_entries_ok bt n es Hrep) Hi) as Hok.
  unfold fill_key_range. rewrite (sc_dir _ _ Hsc). cbn [Z.ltb Z.compare]. unfold fill_key_range_up.
  rewrite He. runs. rewrite (sc_meta _ _ Hsc), Hks, Hkt, out_of_range_rel. destruct (decide (relevant e)) as [Hr|Hr]; unfold relevant in Hr.
  2: { apply not_true_is_false in Hr. rewrite Hr. eexists _, _, _, _. split; [done|]. split; [by apply sc_dir in Hsc|by destruct o]. }
  rewrite Hr. cbn [negb].
  cbn [ks_key info_of]. rewrite (scanned_same o P e Hsc). runs.
  destruct (same_key cmp (last_of P) e) eqn:Es.
  { eexists _, _, _, _. split; [done|]. split; [by apply sc_dir in Hsc|]. left. split; [done|]. apply scanned_skip; [|done].
    unfold see. by destruct o. }
  destruct (e_tomb e) eqn:Et.
  - unfold store_ts_key. destruct (sc_ts _ _ Hsc) as [b Hb]. pose proof (eo_key _ _ Hok).
    rewrite (proj2 (Z.ltb_ge _ _)), Hb by lia. cbn [orb bool_decide option_eq_None_dec decide_rel]. cbn. eexists _, _, _, _. split; [done|].
    split; [by apply sc_dir in Hsc|]. left. split; [done|]. by apply scanned_tomb.
  - destruct (lookup_lt_is_Some_2 (o_values o) (n_out o)) as [v Hv].
    { pose proof (sc_room _ _ Hsc). unfold stopped in Hns. rewrite (sc_values _ _ Hsc), length_app, length_zip_with, length_drop.
      pose proof (sc_n _ _ Hsc). lia. }
    rewrite Hv. runs. destruct (sc_st _ _ Hsc) as (c0 & Hc0 & Hst). rewrite Nat2Z.id, Hst.
    destruct (emit_ok qm n es i e (set_cached st0 c0) v Hq Hrep Hi (object_cached st0 c0 e _ Hc0 Hobj)) as (c & Hc & ->). runs.
    eexists _, _, _, _. split; [done|]. split; [by apply sc_dir in Hsc|]. right. split; [done|].
    apply (scanned_show o P e _ c v); try done; by rewrite Hst.
Qed.

(** ** A part of a leaf *)

Lemma leaf_rep_small n es : leaf_rep bt n es -> lenZ es < 2 ^ 14.
Proof using Hbt.
  intros (cs & _ & _ & Hfit & ->). unfold cells_fit in Hfit. rewrite length_fmap.
  pose proof (bt_node _ Hbt). pose proof (bt_node_max _ Hbt). unfold SIZEOF_ENTRY_HEADER, SIZEOF_BTREE_RAW_NODE, BTREE_MAX_NODE_SIZE in *. lia.
Qed.

(** The chunk has seen [L] after [P], or it was stopped on the way. *)
Definition reaches (o : range_out) (P L : list entry) : Prop :=
  scanned o (P ++ L) \/ stopped o /\ exists Q, Q `prefix_of` L /\ scanned o (P ++ Q).

Lemma scanned_running o P : scanned o P -> fatal (o_status o) = false -> o_status o = BTREE_SUCCESS.
Proof using Type.
  intros Hsc. rewrite (sc_status _ _ Hsc). destruct (list.last _) as [x|]; [|done]. unfold pass_status. by destruct (passes _).
Qed.

Lemma populate_loop_ok n B : forall A C fuel o P,
  leaf_rep bt n (A ++ B ++ C) -> Forall (fun e => object bt read_ret st0 e (content e)) B ->
  (length B < fuel)%nat -> scanned o P ->
  exists i o', populate_loop bt read_ret allowed_fn junk fuel n (n2z (length A)) (n2z (length A + length B)) n_in o = Some (i, o') /\
    reaches o' P (filter relevant B) /\ i <= n2z (length A + length B) /\
    (i = n2z (length A + length B) -> scanned o' (P ++ filter relevant B)) /\ (i <> n2z (length A + length B) -> stopped o').
Proof using Hbt Hq.
  induction B as [|e B IH]; intros A C fuel o P Hrep Hobj Hf Hsc; (destruct fuel as [|fuel]; [cbn in Hf; lia|]); cbn [populate_loop].
  { rewrite Nat.add_0_r, Z.eqb_refl. cbn [orb]. exists (n2z (length A)), o. cbn. rewrite app_nil_r.
    split; [done|]. split; [|done]. left. by rewrite app_nil_r. }
  rewrite (proj2 (Z.eqb_neq _ _)) by (cbn; lia). cbn [orb].
  destruct ((n_in <=? n2z (n_out o)) || fatal (o_status o)) eqn:Est.
  { assert (stopped o) as Hst. { apply orb_true_iff in Est as [Est%Z.leb_le|Est]; [by left|by right]. }
    eexists _, _. split; [done|]. split_and!; [|lia|cbn; lia|done]. right. split; [done|].
    exists []. split; [apply prefix_nil|by rewrite app_nil_r]. }
  apply orb_false_iff in Est as [E1%Z.leb_gt E2].
  assert (~ stopped o) as Hns by (intros [?|?]; [lia|congruence]).
  assert ((A ++ (e :: B) ++ C) !! length A = Some e) as Hi by (by apply (list_lookup_middle A (B ++ C))).
  apply Forall_cons_iff in Hobj as [He Hobj].
  destruct (fill_ok o P n _ _ e Hsc Hns Hrep Hi He) as (c & st & ret & values & -> & Hd & Hfill). runs. cbn zeta. rewrite Hd.
  pose proof (leaf_rep_small _ _ Hrep) as Hsm. rewrite length_app in Hsm.
  rewrite i16_small by (cbn in Hsm; lia). replace (n2z (length A) + 1) with (n2z (length (A ++ [e]))) by (rewrite length_app; cbn; lia).
  replace (length A + length (e :: B))%nat with (length (A ++ [e]) + length B)%nat by (rewrite length_app; cbn; lia).
  assert (leaf_rep bt n ((A ++ [e]) ++ B ++ C)) as Hrep' by (by rewrite <- app_assoc).
  fold (see o c st values). rewrite filter_cons. destruct (decide (relevant e)) as [Hr|Hr].
  - assert (forall o1, scanned o1 (P ++ [e]) ->
      exists i o', populate_loop bt read_ret allowed_fn junk fuel n (n2z (length (A ++ [e]))) (n2z (length (A ++ [e]) + length B)) n_in o1
        = Some (i, o') /\ reaches o' P (e :: filter relevant B) /\ i <= n2z (length (A ++ [e]) + length B) /\
        (i = n2z (length (A ++ [e]) + length B) -> scanned o' (P ++ e :: filter relevant B)) /\
        (i <> n2z (length (A ++ [e]) + length B) -> stopped o')) as Hgo.
    { intros o1 Hsc1. destruct (IH (A ++ [e]) C fuel o1 (P ++ [e]) Hrep' Hobj) as (i & o' & E & Hre & Hle & Heq & Hne); [cbn in Hf; lia|done|].
      exists i, o'. rewrite <- app_assoc in Heq. split_and!; try done. destruct Hre as [Hre|(Hst & Q & HQ & Hre)].
      - left. by rewrite <- app_assoc in Hre.
      - right. split; [done|]. exists (e :: Q). rewrite <- app_assoc in Hre. split; [by apply prefix_cons|done]. }
    destruct Hfill as [[-> Hsc1]|[-> Hsc1]].
    + rewrite decide_True by done. by apply Hgo.
    + unfold pass_status in *. destruct (passes (e_key e)).
      * assert (o_status o = BTREE_SUCCESS) as Hs0 by (by apply (scanned_running o P)).
        rewrite !decide_False, decide_True, decide_False by done. cbn [bool_decide storage_error orb]. cbn. apply Hgo.
        unfold set_ostatus in Hsc1. by rewrite <- Hs0 in Hsc1.
      * rewrite !decide_False, decide_True by done.
        change (bool_decide (BTREE_QUERY_PAUSED = BTREE_FAILURE) || storage_error BTREE_QUERY_PAUSED) with false. cbn iota.
        destruct fuel as [|fuel]; [cbn in Hf; lia|]. cbn [populate_loop]. cbn [o_status inc_out set_ostatus].
        change (fatal BTREE_QUERY_PAUSED) with true. rewrite orb_true_r. eexists _, _. split; [done|].
        assert (stopped (inc_out (set_ostatus (see o c st values) BTREE_QUERY_PAUSED))) as Hst by (by right).
        split_and!; [|rewrite length_app; cbn; lia|rewrite length_app; cbn; lia|done]. right. split; [done|]. exists [e].
        split; [by apply prefix_cons, prefix_nil|done].
  - destruct Hfill as [-> Ho]. rewrite decide_True, Ho by done. apply (IH (A ++ [e]) C fuel o P); try done. cbn in Hf; lia.
Qed.
End leaf.
