(* ===== verification/RangeTree.v ===== *)
(** * Ascending range queries in a tree

    The walk of a chunk visits, in order, exactly the parts of the leaves that
    lie between the bounds. Separators are cut by the bounds like entries, so a
    node is entered at its first relevant child and left after the last one;
    the marks that say whether a node lies on the path to a bound may be stale,
    since searching a node that the bound does not touch is harmless. *)

From stdpp Require Import gmap.
From S2P Require Import Prelude Status LeafMeta LeafNode LeafOps LeafCells LeafEncode LeafFixup LeafSpec LeafRefine LeafPlain LeafMove NodeSearch LeafTheorems NodeSearchSpec NonLeaf NonLeafSpec NodeTheorems TreeFlat PStats Overflow OverflowSpec OverflowTheorems Tree TreeSpec Range RangeWalk RangeSpec RangeLeaf.

(** ** Edge marks *)

Lemma has_set a f : f <> 0 -> has (a .| f) f = true.
Proof.
  intros Hf. unfold has. apply negb_true_iff, Z.eqb_neq. intros E. apply Hf. rewrite <- E.
  apply Z.bits_inj. intros i. rewrite Z.land_spec, Z.lor_spec. by destruct (Z.testbit a i), (Z.testbit f i).
Qed.

Lemma has_add a f g : has a f = true -> has (a .| g) f = true.
Proof.
  unfold has. rewrite !negb_true_iff, !Z.eqb_neq. intros H E. apply H. apply Z.bits_inj. intros i.
  apply (f_equal (fun z => Z.testbit z i)) in E. rewrite Z.land_spec, Z.lor_spec, Z.bits_0 in E. rewrite Z.land_spec, Z.bits_0.
  by destruct (Z.testbit a i), (Z.testbit f i), (Z.testbit g i).
Qed.

(** ** Cuts *)

(** [i] is the number of versions at the start that satisfy [p]. *)
Definition cuts (p : version -> Prop) (kl : list version) (i : nat) : Prop :=
  (i <= length kl)%nat /\ forall j v, kl !! j = Some v -> (j < i)%nat <-> p v.

Lemma cuts_le (p q : version -> Prop) kl s e : (forall v, p v -> q v) -> cuts p kl s -> cuts q kl e -> (s <= e)%nat.
Proof.
  intros Hpq [Hs Hp] [He Hq]. destruct (decide (s <= e)%nat) as [|Hlt]; [done|].
  destruct (lookup_lt_is_Some_2 kl e) as [v Hv]; [lia|].
  assert (e < e)%nat; [|lia]. apply (Hq e v Hv), Hpq, (Hp e v Hv). lia.
Qed.

(** The bounds of an ascending query. *)
Definition lo_of (qm : btree_range_meta) : kbound := (fun a => (a, has (r_flags qm) RANGE_START_GE)) <$> key_start qm.
Definition hi_of (qm : btree_range_meta) : kbound := (fun b => (b, has (r_flags qm) RANGE_END_LE)) <$> key_end qm.

(** The flags of an ascending query without buffers of the application. *)
Record ascending (qm : btree_range_meta) : Prop := {
  as_plain : plain_query qm;
  as_start : is_Some (key_start qm) -> has (r_flags qm) (RANGE_START_GE .| RANGE_START_LT) = has (r_flags qm) RANGE_START_GE;
  as_end : is_Some (key_end qm) -> has (r_flags qm) (RANGE_END_GE .| RANGE_END_LT) = negb (has (r_flags qm) RANGE_END_LE);
  as_end_incl : is_Some (key_end qm) -> has (r_flags qm) (RANGE_END_GE .| RANGE_END_LE) = has (r_flags qm) RANGE_END_LE
}.

Section walk.
Context (bt : btree_raw) (Hbt : bt_ok bt) `{!CmpOk (cmp_cb bt)} (read_ret node_ret : Z -> btree_status)
  (page : btree_raw_node -> list entry -> Prop) (Hpage : forall n es, page n es -> leaf_rep bt n es)
  (allowed_fn : option (list byte -> bool)) (junk : Z) (content : entry -> list byte)
  (qm : btree_range_meta) (Hq : ascending qm) (st0 : ov_state) (values0 : list btree_range_data) (n_in : Z).
Abbreviation cmp := (cmp_cb bt).
Abbreviation m := (smeta_of junk qm).
Abbreviation lo := (lo_of qm).
Abbreviation hi := (hi_of qm).
Abbreviation scanned := (scanned bt allowed_fn content qm st0 values0 n_in).
Abbreviation stopped := (stopped n_in).
Abbreviation pick := (pick cmp m lo hi).
Abbreviation before := (before cmp m lo).
Abbreviation upto := (upto cmp m hi).
Abbreviation ver := entry_version.
Context (Hord : bounds_ordered cmp lo hi).

(** ** Searching a node *)

Definition tshows (x : tnode) (kl : list version) : Prop :=
  node_sorted cmp kl /\
  match x with TLeaf n => shows n kl | TNonLeaf v => shows (NodeView0 := non_leaf_view bt) v kl end.

Lemma tshows_nkeys x kl : tshows x kl -> tnkeys x = lenZ kl.
Proof using Type. intros [_ H]. by destruct x; destruct H as [H _]. Qed.

Lemma tbsearch_latest x kl key :
  tshows x kl -> exists i, tbsearch bt x key m BSF_LATEST = Some (n2z i) /\ cuts (fun v => side cmp key m v = Lt) kl i.
Proof using CmpOk0.
  intros [Hs H]. destruct x as [n|v]; cbn [tbsearch].
  - destruct (bsearch_latest_ok cmp kl Hs key m n H) as (i & E & Hsp). change (nv_nkeys n) with (nkeys n) in E.
    rewrite E. runs. by exists i.
  - destruct (bsearch_latest_ok (NodeView0 := non_leaf_view bt) cmp kl Hs key m v H) as (i & E & Hsp).
    change (nv_nkeys v) with (v_nkeys v) in E. rewrite E. runs. by exists i.
Qed.

Lemma tbsearch_next x kl key :
  tshows x kl -> exists i, tbsearch bt x key m BSF_NEXT = Some (n2z i) /\ cuts (fun v => 0 <= cmp key v.1) kl i.
Proof using CmpOk0.
  intros [Hs H]. destruct x as [n|v]; cbn [tbsearch].
  - destruct (bsearch_next_ok cmp kl Hs key m n H) as (i & f & E & Hle & Hsp & _). change (nv_nkeys n) with (nkeys n) in E.
    rewrite E. runs. by exists i.
  - destruct (bsearch_next_ok (NodeView0 := non_leaf_view bt) cmp kl Hs key m v H) as (i & f & E & Hle & Hsp & _).
    change (nv_nkeys v) with (v_nkeys v) in E. rewrite E. runs. by exists i.
Qed.

Lemma bsearch_start_ok c x kl :
  query_meta c = qm -> c_dir c = 1 -> tshows x kl ->
  exists i, bsearch_start bt junk c x = Some (n2z i) /\ cuts before kl i.
Proof using CmpOk0 Hq.
  intros Hm Hd Hx. unfold bsearch_start. rewrite Hm, Hd. pose proof (as_start _ Hq) as Hfl. unfold lo_of.
  destruct (key_start qm) as [k|]; cbn [fmap option_fmap option_map].
  - rewrite Hfl by done. destruct (has _ RANGE_START_GE); [by apply tbsearch_latest|by apply tbsearch_next].
  - exists 0%nat. split; [done|]. split; [lia|]. intros j v _. split; [lia|by intros []].
Qed.

Lemma bsearch_end_ok c x kl :
  query_meta c = qm -> c_dir c = 1 -> tshows x kl ->
  exists i, bsearch_end bt junk c x = Some (n2z i) /\ cuts upto kl i.
Proof using CmpOk0 Hq.
  intros Hm Hd Hx. unfold bsearch_end. rewrite Hm, Hd. pose proof (as_end _ Hq) as Hfl. unfold hi_of.
  destruct (key_end qm) as [k|]; cbn [fmap option_fmap option_map].
  - rewrite Hfl by done. destruct (has _ RANGE_END_LE); cbn [negb]; [by apply tbsearch_next|by apply tbsearch_latest].
  - exists (length kl). split; [by rewrite (tshows_nkeys x kl)|]. split; [lia|]. intros j v Hj. apply lookup_lt_Some in Hj. by split.
Qed.

(** ** What a stack entry says *)

(** The indexes [s] and [e] cut the keys [kl] of a node, or the versions [vs]
    below it need no cut. *)
Record bounds_ok (kl vs : list version) (s e : nat) (edge : Z) : Prop := {
  bo_start : cuts before kl s /\ has edge START_EDGE = true \/ s = 0%nat /\ forall v, v ∈ vs -> ~ before v;
  bo_end : cuts upto kl e /\ has edge END_EDGE = true \/ e = length kl /\ forall v, v ∈ vs -> upto v
}.

Lemma bounds_le kl vs s e edge : bounds_ok kl vs s e edge -> (s <= e <= length kl)%nat.
Proof using Hord CmpOk0.
  intros [[[Hs _]|[-> _]] [[He _]|[-> _]]]; split; try lia; try apply He; try apply Hs.
  apply (cuts_le before upto kl); [|done|done]. intros v. by apply before_upto.
Qed.

Lemma not_wanted es : (forall e, e ∈ es -> before (ver e) \/ ~ upto (ver e)) -> pick es = [].
Proof using Type.
  intros H. apply pick_nil. intros e He [Hr Hin]. apply andb_true_iff in Hin as [Hlo Hhi]. destruct (H e He) as [Hb|Hu].
  - apply before_rel in Hb; [|done]. change (e_key e) with (ver e).1 in Hlo. congruence.
  - apply Hu. by apply upto_rel.
Qed.

Lemma all_wanted es :
  (forall e, e ∈ es -> ~ before (ver e) /\ upto (ver e)) -> pick es = filter (relevant junk qm) es.
Proof using Type.
  intros H. unfold RangeSpec.pick. induction es as [|e es IH]; [done|]. rewrite !filter_cons, IH; [|intros x Hx; apply H; by right].
  destruct (H e ltac:(by left)) as [Hb Hu]. destruct (decide (relevant junk qm e)) as [Hr|Hr].
  - rewrite decide_True; [done|]. split; [done|]. apply andb_true_iff. split; [|by apply (upto_rel cmp m hi (ver e) Hr)].
    destruct (lo_ok cmp lo (e_key e)) eqn:E; [done|]. destruct Hb. by apply (before_rel cmp m lo (ver e) Hr).
  - rewrite decide_False; [done|]. by intros [? _].
Qed.

Lemma pick_kids_nil (ks : list kid) : (forall k, k ∈ ks -> pick (entries k.1) = []) -> pick (entries (kids_flat ks)) = [].
Proof using Type.
  induction ks as [|k ks IH]; [done|]. intros H. rewrite kids_flat_cons, entries_app, pick_app, H, IH; [done| |by left].
  intros k' Hk'. apply H. by right.
Qed.

(** The part of a leaf between its indexes. *)
Lemma leaf_slice es s e edge :
  bounds_ok (ver <$> es) (ver <$> es) s e edge ->
  exists A B C, es = A ++ B ++ C /\ s = length A /\ e = (length A + length B)%nat /\ pick es = filter (relevant junk qm) B.
Proof using Hord CmpOk0.
  intros Hb. pose proof (bounds_le _ _ _ _ _ Hb) as Hle. rewrite length_fmap in Hle. destruct Hb as [Hs He].
  exists (take s es), (drop s (take e es)), (drop e es).
  assert (es = take s es ++ drop s (take e es) ++ drop e es) as E by (by rewrite drop_take_drop, take_drop by lia).
  split; [done|]. rewrite length_take, length_drop, length_take. split; [lia|]. split; [lia|].
  assert (forall j x, es !! j = Some x -> ver x ∈ ver <$> es) as Hin.
  { intros j x Hj. apply list_elem_of_fmap. exists x. split; [done|by eapply list_elem_of_lookup_2]. }
  assert (forall j x, es !! j = Some x -> (ver <$> es) !! j = Some (ver x)) as Hv by (intros j x Hj; by rewrite list_lookup_fmap, Hj).
  rewrite E at 1. rewrite !pick_app, (not_wanted (take s es)), (not_wanted (drop e es)), all_wanted.
  - by rewrite app_nil_r.
  - intros x (j & Hj)%list_elem_of_lookup_1. rewrite lookup_drop in Hj. apply lookup_take_Some in Hj as [Hj Hlt]. split.
    + destruct Hs as [[[_ Hs] _]|[_ Hs]]; [|by apply Hs, (Hin (s + j)%nat)]. intros Hb. apply (Hs _ _ (Hv _ _ Hj)) in Hb. lia.
    + destruct He as [[[_ He] _]|[_ He]]; [by apply (He _ _ (Hv _ _ Hj))|by apply He, (Hin (s + j)%nat)].
  - intros x (j & Hj)%list_elem_of_lookup_1. rewrite lookup_drop in Hj. right.
    destruct He as [[[_ He] _]|[-> _]]; [|apply lookup_lt_Some in Hj; rewrite length_fmap in Hj; lia].
    intros Hu. apply (He _ _ (Hv _ _ Hj)) in Hu. lia.
  - intros x (j & Hj)%list_elem_of_lookup_1. apply lookup_take_Some in Hj as [Hj Hlt]. left.
    destruct Hs as [[[_ Hs] _]|[-> _]]; [by apply (Hs _ _ (Hv _ _ Hj))|lia].
Qed.

(** ** Children *)

(** The versions below a node, cut by its separators. *)
Section kids.
Context (seps : list nent) (ub : option version) (kids : list kid) (l : option version)
  (Hlen : length kids = S (length seps))
  (Hkb : forall i k, kids !! i = Some k ->
     flat_in cmp (match i with O => l | S j => bound_at seps ub j end) k.1 (bound_at seps ub i)).
Abbreviation kl := (ent_version <$> seps).
Abbreviation vs := (ver <$> entries (kids_flat kids)).

Lemma kid_below i k sep e : kids !! i = Some k -> kl !! i = Some sep -> e ∈ entries k.1 -> vle cmp (ver e) sep.
Proof using CmpOk0 Hkb.
  intros Hi Hs He. destruct (flat_entries cmp _ _ _ (Hkb i k Hi)) as (_ & Hin & _). destruct (Hin e He) as [_ Hb].
  rewrite list_lookup_fmap in Hs. unfold bound_at in Hb. destruct (seps !! i); [|done]. by injection Hs as <-.
Qed.

Lemma kid_above i k sep e : kids !! S i = Some k -> kl !! i = Some sep -> e ∈ entries k.1 -> vle cmp sep (ver e).
Proof using CmpOk0 Hkb.
  intros Hi Hs He. destruct (flat_entries cmp _ _ _ (Hkb (S i) k Hi)) as (_ & Hin & _). destruct (Hin e He) as [Ha _].
  rewrite list_lookup_fmap in Hs. unfold bound_at in Ha. destruct (seps !! i); [|done]. injection Hs as <-. by apply ordered_vle.
Qed.

Lemma kid_vs i k e : kids !! i = Some k -> e ∈ entries k.1 -> ver e ∈ vs.
Proof using Type.
  intros Hi He. apply list_elem_of_fmap. exists e. split; [done|]. rewrite <- (take_drop_middle kids i k Hi).
  rewrite kids_flat_app, kids_flat_cons, !entries_app, !elem_of_app. auto.
Qed.

Context (s e : nat) (edge : Z) (Hb : bounds_ok kl vs s e edge).

Lemma kid_skipped i k : kids !! i = Some k -> (i < s \/ e < i)%nat -> pick (entries k.1) = [].
Proof using CmpOk0 Hlen Hkb Hb.
  intros Hi Hie. apply not_wanted. intros x Hx. pose proof (lookup_lt_Some _ _ _ Hi) as Hlt. rewrite Hlen in Hlt. destruct Hie as [Hlo|Hhi].
  - left. destruct (bo_start _ _ _ _ _ Hb) as [[[Hsl Hs] _]|[-> _]]; [|lia]. rewrite length_fmap in Hsl.
    destruct (lookup_lt_is_Some_2 kl i) as [sep Hsep]; [rewrite length_fmap; lia|].
    apply (before_vle cmp m lo _ sep); [by apply (kid_below i k)|by apply (Hs i)].
  - right. destruct (bo_end _ _ _ _ _ Hb) as [[[_ He] _]|[-> _]]; [|rewrite length_fmap in Hhi; lia]. destruct i as [|i]; [lia|].
    destruct (lookup_lt_is_Some_2 kl i) as [sep Hsep]; [rewrite length_fmap; lia|].
    intros Hu. assert (i < e)%nat; [|lia]. apply (He i sep Hsep), (upto_vle cmp m hi _ (ver x)); [by apply (kid_above i k)|done].
Qed.

(** A child that is not at an edge needs no cut there. *)
Lemma kid_after i k : kids !! i = Some k -> (s <= i)%nat -> i <> s \/ has edge START_EDGE = false ->
  forall v, v ∈ ver <$> entries k.1 -> ~ before v.
Proof using CmpOk0 Hlen Hkb Hb.
  intros Hi Hle Hne v (x & -> & Hx)%list_elem_of_fmap. pose proof (lookup_lt_Some _ _ _ Hi) as Hlt. rewrite Hlen in Hlt.
  destruct (bo_start _ _ _ _ _ Hb) as [[[_ Hs] Hedge]|[_ Hs]]; [|by apply Hs, (kid_vs i k)].
  destruct Hne as [Hne|Hne]; [|congruence]. destruct i as [|i]; [lia|].
  destruct (lookup_lt_is_Some_2 kl i) as [sep Hsep]; [rewrite length_fmap; lia|].
  intros Hbf. assert (i < s)%nat; [|lia]. apply (Hs i sep Hsep), (before_vle cmp m lo _ (ver x)); [by apply (kid_above i k)|done].
Qed.

Lemma kid_until i k : kids !! i = Some k -> (i <= e)%nat -> i <> e \/ has edge END_EDGE = false ->
  forall v, v ∈ ver <$> entries k.1 -> upto v.
Proof using CmpOk0 Hlen Hkb Hb.
  intros Hi Hle Hne v (x & -> & Hx)%list_elem_of_fmap. pose proof (lookup_lt_Some _ _ _ Hi) as Hlt. rewrite Hlen in Hlt.
  destruct (bo_end _ _ _ _ _ Hb) as [[[Hel He] Hedge]|[_ He]]; [|by apply He, (kid_vs i k)].
  destruct Hne as [Hne|Hne]; [|congruence]. rewrite length_fmap in Hel.
  destruct (lookup_lt_is_Some_2 kl i) as [sep Hsep]; [rewrite length_fmap; lia|].
  apply (upto_vle cmp m hi _ sep); [by apply (kid_below i k)|]. apply (He i sep Hsep). lia.
Qed.
End kids.

(** The stack entry of a node that has just been reached. *)
Definition node_frame (x : tnode) (s e : nat) (edge : Z) : frame :=
  mk_frame x (n2z s) (n2z (match x with TLeaf _ => e | TNonLeaf _ => S e end)) (n2z s) edge.

Lemma child_frame_ok c v s e i edge x old kl vs :
  query_meta c = qm -> c_dir c = 1 -> tshows x kl -> lenZ kl < 2 ^ 14 ->
  (i <> s \/ has edge START_EDGE = false -> forall v, v ∈ vs -> ~ before v) ->
  (i <> e \/ has edge END_EDGE = false -> forall v, v ∈ vs -> upto v) ->
  exists s' e' edge',
    child_frame bt junk c (mk_frame (TNonLeaf v) (n2z s) (n2z (S e)) (n2z i) edge) x old = Some (node_frame x s' e' edge') /\
    bounds_ok kl vs s' e' edge'.
Proof using CmpOk0 Hord Hq.
  intros Hm Hd Hx Hsm Hs He. unfold child_frame. cbn [f_cur f_start f_end f_edge]. rewrite Hd.
  assert (exists s' edge1,
    (if (n2z i =? n2z s) && has edge START_EDGE then s ← bsearch_start bt junk c x; Some (i16 s, f_edge old .| START_EDGE)
     else Some (if 0 <? 1 then 0 else i16 (tnkeys x), f_edge old)) = Some (n2z s', edge1) /\ (s' <= length kl)%nat /\
    (cuts before kl s' /\ has edge1 START_EDGE = true \/ s' = 0%nat /\ forall v, v ∈ vs -> ~ before v)) as (s' & edge1 & -> & Hsl & Hs').
  { destruct ((n2z i =? n2z s) && has edge START_EDGE) eqn:E.
    - destruct (bsearch_start_ok c x kl Hm Hd Hx) as (s' & -> & Hc). runs. exists s', (f_edge old .| START_EDGE).
      pose proof (proj1 Hc). rewrite i16_small by lia. split; [done|]. split; [done|]. left. split; [done|by apply has_set].
    - exists 0%nat, (f_edge old). split; [done|]. split; [lia|]. right. split; [done|]. apply Hs.
      apply andb_false_iff in E as [E%Z.eqb_neq|E]; [left; lia|by right]. }
  runs.
  assert (exists e' edge2,
    (if (n2z i =? n2z (S e) - 1) && has edge END_EDGE then e ← bsearch_end bt junk c x; Some (i16 e, edge1 .| END_EDGE)
     else Some (if 0 <? 1 then i16 (tnkeys x) else 0, edge1)) = Some (n2z e', edge2) /\ (e' <= length kl)%nat /\
    (cuts before kl s' /\ has edge2 START_EDGE = true \/ s' = 0%nat /\ forall v, v ∈ vs -> ~ before v) /\
    (cuts upto kl e' /\ has edge2 END_EDGE = true \/ e' = length kl /\ forall v, v ∈ vs -> upto v))
    as (e' & edge2 & -> & Hel & Hs2 & He').
  { destruct ((n2z i =? n2z (S e) - 1) && has edge END_EDGE) eqn:E.
    - destruct (bsearch_end_ok c x kl Hm Hd Hx) as (e' & -> & Hc). runs. exists e', (edge1 .| END_EDGE).
      pose proof (proj1 Hc). rewrite i16_small by lia. split; [done|]. split; [done|]. split.
      + destruct Hs' as [[? ?]|?]; [left; split; [done|by apply has_add]|by right].
      + left. split; [done|by apply has_set].
    - exists (length kl), edge1. rewrite (tshows_nkeys x kl Hx), i16_small by lia. split; [done|]. split; [lia|]. split; [done|].
      right. split; [done|]. apply He. apply andb_false_iff in E as [E%Z.eqb_neq|E]; [left; lia|by right]. }
  runs. exists s', e', edge2. split; [|done]. f_equal. unfold node_frame. destruct x as [n|w].
  - done.
  - rewrite i16_small by lia. f_equal. lia.
Qed.

(** ** The walk *)

Section run.
Context (t : tree).
Abbreviation loop := (get_next_loop bt read_ret node_ret allowed_fn junk).
Abbreviation subtree := (subtree bt node_ret page (t_nodes t)).

(** The stack is unchanged below [sp]. *)
Definition below_sp (sp : nat) (stack stack' : list frame) : Prop :=
  length stack' = length stack /\ forall i, (i < sp)%nat -> stack' !! i = stack !! i.

(** From the top [sp] of the stack on, the walk sees the entries [L] after [P]
    and removes the top within [K] rounds, or it is stopped on the way. *)
Definition visits (sp : nat) (stack : list frame) (o : range_out) (P L : list entry) (K : nat) : Prop :=
  exists k o', (k <= K)%nat /\
    ((scanned o' (P ++ L) /\ exists stack', below_sp sp stack stack' /\
        forall fuel, loop (k + fuel) t n_in (n2z sp) stack o = loop fuel t n_in (n2z sp - 1) stack' o') \/
     (stopped o' /\ (exists Q, Q `prefix_of` L /\ scanned o' (P ++ Q)) /\ exists sp' stack',
        forall fuel, loop (S (k + fuel)) t n_in (n2z sp) stack o = Some (sp', stack', o'))).

Lemma visits_fatal sp stack o P L K : scanned o P -> fatal (o_status o) = true -> visits sp stack o P L K.
Proof using Type.
  intros Hsc Hf. exists 0%nat, o. split; [lia|]. right. split; [by right|]. split; [exists []; by rewrite app_nil_r; split; [apply prefix_nil|]|].
  exists (n2z sp), stack. intros fuel. cbn [plus get_next_loop]. by rewrite Hf, orb_true_r.
Qed.

Lemma visits_leaf sp stack o P n es s e edge :
  page n es -> Forall (fun x => object bt read_ret st0 x (content x)) es -> scanned o P ->
  bounds_ok (ver <$> es) (ver <$> es) s e edge ->
  stack !! sp = Some (node_frame (TLeaf n) s e edge) -> visits sp stack o P (pick es) 1.
Proof using Hbt Hpage Hq CmpOk0 Hord.
  intros Hp Hobj Hsc Hb Htop. destruct (fatal (o_status o)) eqn:Hf; [by apply visits_fatal|].
  pose proof (Hpage n es Hp) as Hrep.
  destruct (leaf_slice es s e edge Hb) as (A & B & C & -> & -> & -> & ->).
  assert (forall fuel, loop (S fuel) t n_in (n2z sp) stack o =
    if n_in <=? n2z (n_out o) then Some (n2z sp, stack, o)
    else r ← populate_output_array bt read_ret allowed_fn junk (Some n) (n2z (length A)) (n2z (length A + length B)) n_in o;
         let '(i, o) := r in
         loop fuel t n_in (if i =? n2z (length A + length B) then n2z sp - 1 else n2z sp)
           (<[sp := set_cur (node_frame (TLeaf n) (length A) (length A + length B) edge) i]> stack) o) as Hstep.
  { intros fuel. cbn [get_next_loop]. rewrite Hf, (proj2 (Z.ltb_ge _ 0)) by lia. cbn [orb]. rewrite Nat2Z.id, Htop. runs.
    cbn [node_frame f_node f_end f_cur]. rewrite (sc_dir _ _ _ _ _ _ _ _ _ Hsc). by rewrite (proj2 (Z.ltb_ge _ _)) by lia. }
  destruct (Z.leb_spec n_in (n2z (n_out o))) as [Hfull|Hroom].
  { exists 0%nat, o. split; [lia|]. right. split; [by left|]. split; [exists []; rewrite app_nil_r; split; [apply prefix_nil|done]|].
    exists (n2z sp), stack. intros fuel. by rewrite Hstep. }
  destruct (populate_loop_ok bt Hbt read_ret allowed_fn junk content qm (as_plain _ Hq) st0 values0 n_in n B A C (z2n (nkeys n + n_in) + 3) o P Hrep)
    as (i & o' & Hpop & Hre & Hle & Heq & Hne).
  { by apply Forall_app in Hobj as [_ [? _]%Forall_app]. }
  { rewrite (leaf_rep_nkeys bt n _ Hrep), !length_app. lia. }
  { done. }
  unfold populate_output_array in Hstep. rewrite Hpop in Hstep. cbn [mbind option_bind] in Hstep.
  exists 1%nat, o'. split; [lia|]. destruct (Z.eqb_spec i (n2z (length A + length B))) as [Hi|Hi].
  - left. split; [by apply Heq|]. eexists. split; [|intros fuel; cbn [plus]; rewrite Hstep; done].
    split; [apply length_insert|]. intros j Hj. rewrite list_lookup_insert_ne by lia. done.
  - right. specialize (Hne Hi). split; [done|]. split.
    + destruct Hre as [Hre|(_ & Q & HQ & Hre)]; [by eexists|by exists Q].
    + eexists _, _. intros fuel. cbn [plus]. rewrite Hstep. cbn [get_next_loop].
      rewrite (proj2 (Z.ltb_ge _ 0)) by lia. cbn [orb]. destruct (fatal (o_status o')) eqn:Hf'; [done|].
      rewrite Nat2Z.id, list_lookup_insert_eq by (by eapply lookup_lt_Some). runs. cbn [set_cur node_frame f_node].
      destruct Hne as [Hne|?]; [|congruence]. by rewrite (proj2 (Z.leb_le _ _) Hne).
Qed.

(** One visit after the other. *)
Lemma visits_seq sp stack o P L1 L2 K1 K2 stack1 :
  (forall fuel, loop (S fuel) t n_in (n2z sp) stack o = loop fuel t n_in (n2z (S sp)) stack1 o) -> below_sp sp stack stack1 ->
  visits (S sp) stack1 o P L1 K1 ->
  (forall stack2 o2, below_sp (S sp) stack1 stack2 -> scanned o2 (P ++ L1) -> visits sp stack2 o2 (P ++ L1) L2 K2) ->
  visits sp stack o P (L1 ++ L2) (1 + K1 + K2).
Proof using Type.
  intros Hpush Hbs (k1 & o1 & Hk1 & [(Hsc1 & stack2 & Hbs2 & Hrun)|(Hst & (Q & HQ & Hsc1) & sp' & stack' & Hrun)]) Hnext.
  - destruct (Hnext stack2 o1 Hbs2 Hsc1) as (k2 & o2 & Hk2 & Hout). exists (1 + k1 + k2)%nat, o2. split; [lia|].
    assert (below_sp sp stack stack2) as Hbs3.
    { destruct Hbs as [Hl Hbs], Hbs2 as [Hl2 Hbs2]. split; [congruence|]. intros i Hi. rewrite Hbs2 by lia. by apply Hbs. }
    assert (forall fuel, loop (1 + k1 + fuel) t n_in (n2z sp) stack o = loop fuel t n_in (n2z sp) stack2 o1) as Hgo.
    { intros fuel. cbn [plus]. rewrite Hpush, Hrun. f_equal. lia. }
    destruct Hout as [(Hsc2 & stack3 & Hbs4 & Hrun2)|(Hst & (Q & HQ & Hsc2) & sp' & stack' & Hrun2)].
    + left. rewrite <- app_assoc in Hsc2. split; [done|]. exists stack3. split.
      * destruct Hbs3 as [Hl Hb3], Hbs4 as [Hl2 Hb4]. split; [congruence|]. intros i Hi. rewrite Hb4 by lia. by apply Hb3.
      * intros fuel. by rewrite <- Nat.add_assoc, Hgo, Hrun2.
    + right. split; [done|]. split.
      * exists (L1 ++ Q). split; [by apply prefix_app|]. by rewrite <- app_assoc in Hsc2.
      * exists sp', stack'. intros fuel. rewrite <- (Hrun2 fuel), <- Hgo. f_equal. lia.
  - exists (1 + k1)%nat, o1. split; [lia|]. right. split; [done|]. split; [exists Q; split; [by apply prefix_app_r|done]|].
    exists sp', stack'. intros fuel. rewrite <- (Hrun fuel). cbn [plus]. by rewrite Hpush.
Qed.

Lemma shows_unique {node} (V : NodeView node) (n : node) kl kl' : shows n kl -> shows n kl' -> kl = kl'.
Proof using Type.
  intros [Hl H] [Hl' H']. apply list_eq_same_length with (length kl); [lia|done|]. intros i x y _ Hx Hy.
  destruct (H i x Hx) as (ks & E & H1 & H2), (H' i y Hy) as (ks' & E' & H1' & H2'). rewrite E in E'. injection E' as <-.
  destruct x, y. cbn in *. congruence.
Qed.

Lemma tshows_unique x kl kl' : tshows x kl -> tshows x kl' -> kl = kl'.
Proof using Type. intros [_ H] [_ H']. destruct x; [exact (shows_unique _ _ _ _ H H')|exact (shows_unique (non_leaf_view bt) _ _ _ H H')]. Qed.

Lemma child_ptr_ok v seps i : nl_rep bt v seps -> (i <= length seps)%nat -> child_ptr bt v (n2z i) = Some (child_at v seps i).
Proof using Type.
  intros Hr Hi. unfold child_ptr, child_at, get_key_stuff_non_leaf. rewrite (nl_count bt v seps Hr).
  destruct (seps !! i) as [e|] eqn:E.
  - rewrite (proj2 (Z.ltb_lt _ _)) by (apply lookup_lt_Some in E; lia). rewrite (proj2 (Z.ltb_ge _ 0)), Nat2Z.id by lia.
    by rewrite (get_key_stuff_ok bt v seps i e Hr E).
  - apply lookup_ge_None in E. by rewrite (proj2 (Z.ltb_ge _ _)) by lia.
Qed.

(** What the walk needs of a node. *)
Lemma subtree_node d id ub fl ids l :
  subtree d id ub fl ids -> flat_in cmp l fl ub ->
  exists x kl, get_existing_node node_ret t id = Some (inr x) /\ tshows x kl /\ lenZ kl < 2 ^ 14 /\
    match d, x with
    | O, TLeaf n => exists es, page n es /\ fl = [(es, ub)] /\ ids = [id] /\ kl = ver <$> es
    | S d, TNonLeaf v => exists seps kids, nl_rep bt v seps /\ length kids = S (length seps) /\ kids_ok bt node_ret page (t_nodes t) d v seps ub 0 kids /\
        fl = kids_flat kids /\ ids = id :: kids_ids kids /\ kl = ent_version <$> seps /\
        forall i k, kids !! i = Some k -> flat_in cmp (match i with O => l | S j => bound_at seps ub j end) k.1 (bound_at seps ub i)
    | _, _ => False
    end.
Proof using Hbt Hpage CmpOk0.
  unfold get_existing_node. destruct d as [|d].
  - intros (Hr & _ & n & es & Hn & _ & Hp & -> & ->) [[Hs _ _ _] _]%flat_in_one. rewrite decide_True, Hn by done. runs.
    exists (TLeaf n), (ver <$> es). split; [done|]. split; [split; [done|by apply (leaf_shows bt), Hpage]|].
    split; [rewrite length_fmap; by apply (leaf_rep_small bt Hbt n), Hpage|]. by exists es.
  - intros (Hr & _ & v & seps & kids & Hv & Hnl & _ & Hlen & -> & -> & Hk)%subtree_inv Hf. rewrite decide_True, Hv by done. runs.
    destruct (kids_bounds bt node_ret page _ _ _ _ _ _ 0 l Hk) as (Hs & _ & Hkb); [lia|lia|done|]. rewrite drop_0 in Hs.
    exists (TNonLeaf v), (ent_version <$> seps). split; [done|]. split; [split; [done|by apply (nl_shows bt), (nn_rep Hnl)]|]. split.
    { rewrite length_fmap. pose proof (nr_fit _ _ _ (nn_rep Hnl)). pose proof (key_bytes_nonneg seps). pose proof (bt_node_max _ Hbt).
      unfold SIZEOF_BTREE_RAW_NODE, SIZEOF_NODE_VKEY, BTREE_MAX_NODE_SIZE in *. lia. }
    exists seps, kids. split; [apply (nn_rep Hnl)|]. done.
Qed.

(** A subtree is visited from a stack entry for its root. *)
Definition subtree_visited (d : nat) : Prop :=
  forall id ub fl ids l sp stack o P x kl s e edge,
  subtree d id ub fl ids -> flat_in cmp l fl ub -> Forall (fun y => object bt read_ret st0 y (content y)) (entries fl) ->
  scanned o P -> get_existing_node node_ret t id = Some (inr x) -> tshows x kl -> bounds_ok kl (ver <$> entries fl) s e edge ->
  stack !! sp = Some (node_frame x s e edge) -> (sp + d < length stack)%nat ->
  visits sp stack o P (pick (entries fl)) (2 * length ids - 1).

Section children.
Context (d : nat) (IH : subtree_visited d) (v : vnode) (seps : list nent) (ub l : option version) (kids : list kid)
  (Hrep : nl_rep bt v seps) (Hlen : length kids = S (length seps)) (Hk : kids_ok bt node_ret page (t_nodes t) d v seps ub 0 kids)
  (Hkb : forall i k, kids !! i = Some k -> flat_in cmp (match i with O => l | S j => bound_at seps ub j end) k.1 (bound_at seps ub i))
  (Hobj : Forall (fun y => object bt read_ret st0 y (content y)) (entries (kids_flat kids)))
  (s e : nat) (edge : Z) (Hb : bounds_ok (ent_version <$> seps) (ver <$> entries (kids_flat kids)) s e edge).

Abbreviation top i := (mk_frame (TNonLeaf v) (n2z s) (n2z (S e)) (n2z i) edge).

(** Entering child [i]. *)
Lemma push_child i k sp stack o P :
  kids !! i = Some k -> (s <= i <= e)%nat -> scanned o P -> fatal (o_status o) = false -> stack !! sp = Some (top i) ->
  (S sp < length stack)%nat ->
  exists x kl s' e' edge',
    get_existing_node node_ret t (child_at v seps i) = Some (inr x) /\ tshows x kl /\ bounds_ok kl (ver <$> entries k.1) s' e' edge' /\
    forall fuel, loop (S fuel) t n_in (n2z sp) stack o =
      loop fuel t n_in (n2z (S sp)) (<[sp := top (S i)]> (<[S sp := node_frame x s' e' edge']> stack)) o.
Proof using Hbt Hpage CmpOk0 Hord Hq Hrep Hlen Hk Hkb Hb.
  intros Hi Hie Hsc Hf Htop Hsp. pose proof (bounds_le _ _ _ _ _ Hb) as Hle. rewrite length_fmap in Hle.
  destruct (subtree_node d (child_at v seps i) (bound_at seps ub i) k.1 k.2 _ (Hk i k Hi) (Hkb i k Hi)) as (x & kl & Hx & Hsh & Hsm & _).
  destruct (lookup_lt_is_Some_2 stack (S sp) Hsp) as [old Hold].
  destruct (child_frame_ok (o_cursor o) v s e i edge x old kl (ver <$> entries k.1)) as (s' & e' & edge' & Hcf & Hbc); try done.
  { apply Hsc. }
  { apply Hsc. }
  { intros Hne. apply (kid_after seps ub kids l Hlen Hkb s e edge Hb i k Hi); [lia|done]. }
  { intros Hne. apply (kid_until seps ub kids l Hlen Hkb s e edge Hb i k Hi); [lia|done]. }
  exists x, kl, s', e', edge'. split; [done|]. split; [done|]. split; [done|]. intros fuel. cbn [get_next_loop].
  rewrite Hf, (proj2 (Z.ltb_ge _ 0)) by lia. cbn [orb]. rewrite Nat2Z.id, Htop. runs. cbn [f_node f_end f_cur].
  rewrite (proj2 (Z.eqb_neq _ _)) by lia. rewrite (child_ptr_ok v seps i Hrep) by lia. runs. rewrite Hx. runs.
  replace (n2z sp + 1) with (n2z (S sp)) by lia. rewrite Nat2Z.id, Hold. runs. rewrite Hcf. runs.
  rewrite (sc_dir _ _ _ _ _ _ _ _ _ Hsc). unfold set_cur. cbn [f_node f_start f_end f_edge].
  pose proof (nr_fit _ _ _ Hrep). pose proof (key_bytes_nonneg seps). pose proof (bt_node_max _ Hbt).
  unfold SIZEOF_BTREE_RAW_NODE, SIZEOF_NODE_VKEY, BTREE_MAX_NODE_SIZE in *.
  rewrite i16_small by lia. by replace (n2z i + 1) with (n2z (S i)) by lia.
Qed.

Lemma visits_children r : forall i sp stack o P,
  (i + r = S e)%nat -> (s <= i)%nat -> scanned o P -> stack !! sp = Some (top i) -> (sp + S d < length stack)%nat ->
  visits sp stack o P (pick (entries (kids_flat (take r (drop i kids))))) (1 + 2 * length (kids_ids (take r (drop i kids)))).
Proof using Hbt Hpage CmpOk0 Hord Hq Hrep Hlen Hk Hkb Hobj Hb IH.
  pose proof (bounds_le _ _ _ _ _ Hb) as Hle. rewrite length_fmap in Hle.
  induction r as [|r IHr]; intros i sp stack o P Hir Hsi Hsc Htop Hsp; (destruct (fatal (o_status o)) eqn:Hf; [by apply visits_fatal|]).
  - exists 1%nat, o. split; [lia|]. left. split; [by rewrite app_nil_r|]. eexists. split; cycle 1.
    + intros fuel. cbn [plus get_next_loop]. rewrite Hf, (proj2 (Z.ltb_ge _ 0)) by lia. cbn [orb]. rewrite Nat2Z.id, Htop. runs.
      cbn [f_node f_end f_cur]. rewrite (proj2 (Z.eqb_eq _ _)) by lia. done.
    + split; [apply length_insert|]. intros j Hj. by rewrite list_lookup_insert_ne by lia.
  - destruct (lookup_lt_is_Some_2 kids i) as [k Hi]; [lia|]. rewrite (drop_S kids k i Hi). cbn [take].
    rewrite kids_flat_cons, entries_app, pick_app, kids_ids_cons, length_app.
    destruct (push_child i k sp stack o P Hi ltac:(lia) Hsc Hf Htop ltac:(lia)) as (x & kl & s' & e' & edge' & Hx & Hsh & Hbc & Hpush).
    set (stack1 := <[sp := top (S i)]> (<[S sp := node_frame x s' e' edge']> stack)) in *.
    assert (length stack1 = length stack) as Hl1 by (unfold stack1; by rewrite !length_insert).
    assert (visits (S sp) stack1 o P (pick (entries k.1)) (2 * length k.2 - 1)) as Hkid.
    { apply (IH (child_at v seps i) (bound_at seps ub i) k.1 k.2 (match i with O => l | S j => bound_at seps ub j end)
               (S sp) stack1 o P x kl s' e' edge'); try done.
      - by apply Hk.
      - by apply Hkb.
      - rewrite <- (take_drop_middle kids i k Hi), kids_flat_app, kids_flat_cons, !entries_app in Hobj.
        by apply Forall_app in Hobj as [_ [? _]%Forall_app].
      - unfold stack1. rewrite list_lookup_insert_ne, list_lookup_insert_eq by lia. done.
      - lia. }
    pose proof (subtree_depth bt node_ret page _ _ _ _ _ _ (Hk i k Hi)) as Hd.
    destruct (visits_seq sp stack o P (pick (entries k.1)) (pick (entries (kids_flat (take r (drop (S i) kids)))))
                (2 * length k.2 - 1) (1 + 2 * length (kids_ids (take r (drop (S i) kids)))) stack1 Hpush) as (k' & o' & Hk' & Hout).
    + split; [done|]. intros j Hj. unfold stack1. by rewrite !list_lookup_insert_ne by lia.
    + done.
    + intros stack2 o2 [Hl2 Hb2] Hsc2. apply IHr; [lia|lia|done| |lia].
      rewrite Hb2 by lia. unfold stack1. rewrite list_lookup_insert_eq; [done|rewrite length_insert; lia].
    + exists k', o'. split; [lia|done].
Qed.
End children.

(** What is left of the children outside the indexes is not wanted. *)
Lemma pick_children seps ub l kids s e edge :
  length kids = S (length seps) ->
  (forall i k, kids !! i = Some k -> flat_in cmp (match i with O => l | S j => bound_at seps ub j end) k.1 (bound_at seps ub i)) ->
  bounds_ok (ent_version <$> seps) (ver <$> entries (kids_flat kids)) s e edge ->
  pick (entries (kids_flat kids)) = pick (entries (kids_flat (take (S e - s) (drop s kids)))).
Proof using CmpOk0 Hord.
  intros Hlen Hkb Hb. pose proof (bounds_le _ _ _ _ _ Hb) as Hle. rewrite length_fmap in Hle.
  rewrite <- (take_drop s kids) at 1. rewrite <- (take_drop (S e - s) (drop s kids)) at 1.
  rewrite !kids_flat_app, !entries_app, !pick_app, (pick_kids_nil (take s kids)), (pick_kids_nil (drop (S e - s) (drop s kids))), app_nil_r; [done|..].
  - intros k (j & Hj)%list_elem_of_lookup_1. rewrite !lookup_drop in Hj. apply (kid_skipped seps ub kids l Hlen Hkb s e edge Hb _ k Hj). lia.
  - intros k (j & Hj)%list_elem_of_lookup_1. apply lookup_take_Some in Hj as [Hj Hlt].
    apply (kid_skipped seps ub kids l Hlen Hkb s e edge Hb _ k Hj). lia.
Qed.

Lemma subtree_visited_all d : subtree_visited d.
Proof using Hbt Hpage CmpOk0 Hord Hq.
  induction d as [|d IH]; intros id ub fl ids l sp stack o P x kl s e edge Hsub Hf Hobj Hsc Hx Hsh Hb Htop Hsp;
    destruct (subtree_node _ _ _ _ _ _ Hsub Hf) as (x' & kl' & Hx' & Hsh' & _ & Hshape);
    rewrite Hx in Hx'; injection Hx' as <-; rewrite <- (tshows_unique _ _ _ Hsh Hsh') in Hshape.
  - destruct x as [n|v]; [|done]. destruct Hshape as (es & Hp & -> & -> & ->).
    rewrite entries_cons in *. change (entries []) with (@nil entry) in *. rewrite app_nil_r in *.
    by apply (visits_leaf sp stack o P n es s e edge).
  - destruct x as [n|v]; [done|]. destruct Hshape as (seps & kids & Hrep & Hlen & Hk & -> & -> & -> & Hkb).
    pose proof (bounds_le _ _ _ _ _ Hb) as Hle. rewrite length_fmap in Hle.
    rewrite (pick_children seps ub l kids s e edge Hlen Hkb Hb).
    destruct (visits_children d IH v seps ub l kids Hrep Hlen Hk Hkb Hobj s e edge Hb (S e - s) s sp stack o P)
      as (k & o' & Hk' & Hout); [lia|lia|done|done|done|].
    exists k, o'. split; [|done]. etrans; [exact Hk'|].
    rewrite <- (take_drop s kids) at 2. rewrite <- (take_drop (S e - s) (drop s kids)) at 2.
    rewrite !kids_ids_app. cbn [length]. rewrite !length_app. lia.
Qed.
End run.
End walk.
