(* ===== verification/RangeChunk.v ===== *)
(** * Chunks of ascending range queries

    From a query to its first node and through the walk to the results of a
    chunk: the first entries of the list of the query, at most as many as asked
    for and none after one at which the application pauses the query. *)

From stdpp Require Import gmap.
From S2P Require Import Prelude Status LeafMeta LeafNode LeafOps LeafCells LeafEncode LeafFixup LeafSpec LeafRefine LeafPlain LeafMove NodeSearch LeafTheorems NodeSearchSpec NonLeaf NonLeafSpec NodeTheorems TreeFlat PStats Overflow OverflowSpec OverflowTheorems Tree TreeSpec Range RangeWalk RangeSpec RangeLeaf RangeTree.

(** ** Flags *)

Lemma has_bit flags k : 0 <= k -> has flags (2 ^ k) = Z.testbit flags k.
Proof.
  intros Hk. unfold has. destruct (Z.testbit flags k) eqn:E.
  - apply negb_true_iff, Z.eqb_neq. intros H. apply (f_equal (fun z => Z.testbit z k)) in H.
    by rewrite Z.land_spec, E, Z.pow2_bits_true, Z.bits_0 in H.
  - apply negb_false_iff, Z.eqb_eq. apply Z.bits_inj'. intros i Hi. rewrite Z.land_spec, Z.bits_0, Z.pow2_bits_eqb by done.
    destruct (Z.eqb_spec k i) as [->|]; [by rewrite E|]. apply andb_false_r.
Qed.

(** A number without two bits set is 0 or a power of two. *)
Lemma one_bit n : 0 <= n < 2 ^ 32 -> Z.land n (u32 (n - 1)) = 0 -> n = 0 \/ exists k, 0 <= k /\ n = 2 ^ k.
Proof.
  intros Hn H. destruct (decide (n = 0)) as [|Hz]; [by left|]. right. exists (Z.log2 n). split; [apply Z.log2_nonneg|].
  destruct (Z.log2_spec n) as [Hl Hu]; [lia|]. destruct (decide (n = 2 ^ Z.log2 n)) as [|Hne]; [done|]. exfalso.
  unfold u32 in H. rewrite Z.mod_small in H by lia.
  assert (Z.testbit (n - 1) (Z.log2 n) = true) as Hb.
  { rewrite <- (Z.log2_unique (n - 1) (Z.log2 n)) by (try apply Z.log2_nonneg; lia). apply Z.bit_log2.
    pose proof (Z.pow_pos_nonneg 2 (Z.log2 n)). pose proof (Z.log2_nonneg n). lia. }
  apply (f_equal (fun z => Z.testbit z (Z.log2 n))) in H. rewrite Z.land_spec, Hb, Z.bit_log2, Z.bits_0 in H by lia. done.
Qed.

Lemma multiple_bits flags mask i j :
  0 <= mask < 2 ^ 32 -> is_multiple_flags_set flags mask = false -> Z.testbit mask i = true -> Z.testbit mask j = true ->
  Z.testbit flags i = true -> Z.testbit flags j = true -> 0 <= i -> 0 <= j -> i = j.
Proof.
  intros Hm H Hmi Hmj Hi Hj Hi0 Hj0. unfold is_multiple_flags_set in H. apply negb_false_iff, Z.eqb_eq in H.
  assert (0 <= Z.land flags mask < 2 ^ 32) as Hr.
  { assert (Z.land flags mask = Z.land (Z.land flags mask) (Z.ones 32)) as ->; [|rewrite Z.land_ones by lia; apply Z.mod_pos_bound; lia].
    rewrite <- Z.land_assoc, Z.land_ones, (Z.mod_small mask) by lia. done. }
  assert (Z.testbit (Z.land flags mask) i = true) as Bi by (by rewrite Z.land_spec, Hi, Hmi).
  assert (Z.testbit (Z.land flags mask) j = true) as Bj by (by rewrite Z.land_spec, Hj, Hmj).
  destruct (one_bit _ Hr H) as [E|(k & Hk & E)]; rewrite E in Bi, Bj; [by rewrite Z.bits_0 in Bi|].
  rewrite Z.pow2_bits_eqb in Bi, Bj by lia. b2p. lia.
Qed.

(** ** Valid queries *)

Lemma validate_inv qm : validate_range_query qm = BTREE_SUCCESS ->
  is_multiple_flags_set (r_flags qm) all_start_flags = false /\ is_multiple_flags_set (r_flags qm) all_end_flags = false /\
  is_multiple_flags_set (r_flags qm) (RANGE_START_GT .| RANGE_START_GE .| RANGE_END_GT .| RANGE_END_GE) = false /\
  is_multiple_flags_set (r_flags qm) (RANGE_START_LT .| RANGE_START_LE .| RANGE_END_LT .| RANGE_END_LE) = false /\
  has (r_flags qm) all_start_flags = bool_decide (is_Some (key_start qm)) /\
  has (r_flags qm) all_end_flags = bool_decide (is_Some (key_end qm)).
Proof.
  unfold validate_range_query. intros H. repeat (case_match; [done|]).
  split_and!; try done; by apply eqb_prop, negb_false_iff.
Qed.

(** Two flags of a group are not set together. *)
Lemma not_both flags mask i j :
  is_multiple_flags_set flags mask = false -> 0 <= mask < 2 ^ 32 -> Z.testbit mask i && Z.testbit mask j && (0 <=? i) && (i <? j) = true ->
  has flags (2 ^ i) && has flags (2 ^ j) = false.
Proof.
  intros H Hm Hb. b2p. rewrite !has_bit by lia. apply not_true_iff_false. intros [Hi Hj]%andb_true_iff.
  assert (i = j); [by eapply (multiple_bits flags mask); try done; lia|lia].
Qed.

Lemma ascending_flags qm :
  validate_range_query qm = BTREE_SUCCESS -> IS_ASCENDING_QUERY qm = true ->
  (is_Some (key_start qm) -> has (r_flags qm) RANGE_START_LT = false) /\
  (is_Some (key_end qm) -> has (r_flags qm) RANGE_END_GE = false /\ has (r_flags qm) RANGE_END_LT = negb (has (r_flags qm) RANGE_END_LE)).
Proof.
  intros (H1 & H2 & H3 & H4 & Hs & He)%validate_inv Ha. unfold IS_ASCENDING_QUERY in Ha.
  unfold all_start_flags, all_end_flags in Hs, He. rewrite !has_lor in Hs, He. rewrite !has_lor in Ha.
  pose proof (not_both _ _ 7 9 H1 ltac:(by vm_compute) eq_refl). pose proof (not_both _ _ 8 9 H1 ltac:(by vm_compute) eq_refl).
  pose proof (not_both _ _ 12 13 H2 ltac:(by vm_compute) eq_refl). pose proof (not_both _ _ 12 14 H2 ltac:(by vm_compute) eq_refl).
  pose proof (not_both _ _ 13 14 H2 ltac:(by vm_compute) eq_refl). pose proof (not_both _ _ 7 11 H3 ltac:(by vm_compute) eq_refl).
  pose proof (not_both _ _ 7 12 H3 ltac:(by vm_compute) eq_refl). pose proof (not_both _ _ 8 11 H3 ltac:(by vm_compute) eq_refl).
  pose proof (not_both _ _ 8 12 H3 ltac:(by vm_compute) eq_refl). pose proof (not_both _ _ 9 13 H4 ltac:(by vm_compute) eq_refl).
  pose proof (not_both _ _ 9 14 H4 ltac:(by vm_compute) eq_refl). clear H1 H2 H3 H4.
  unfold RANGE_START_GT, RANGE_START_GE, RANGE_START_LT, RANGE_START_LE, RANGE_END_GT, RANGE_END_GE, RANGE_END_LT, RANGE_END_LE in *.
  destruct (key_start qm) as [a|], (key_end qm) as [b|]; cbn in Hs, He, Ha; (split; intros [? ?]; try done);
    destruct (has (r_flags qm) (2 ^ 7)), (has (r_flags qm) (2 ^ 8)), (has (r_flags qm) (2 ^ 9)),
      (has (r_flags qm) (2 ^ 11)), (has (r_flags qm) (2 ^ 12)), (has (r_flags qm) (2 ^ 13)), (has (r_flags qm) (2 ^ 14)); done.
Qed.

(** A query that passes the validation, goes up and comes without buffers has
    the flags the walk relies on. *)
Lemma valid_ascending qm :
  validate_range_query qm = BTREE_SUCCESS -> IS_ASCENDING_QUERY qm = true -> plain_query qm -> ascending qm.
Proof.
  intros Hv Ha Hp. destruct (ascending_flags qm Hv Ha) as [Hs He]. split; [done|..]; intros Hk; rewrite has_lor.
  - rewrite Hs by done. apply orb_false_r.
  - destruct (He Hk) as [-> ->]. done.
  - destruct (He Hk) as [-> _]. done.
Qed.

Section chunk.
Context (bt : btree_raw) (Hbt : bt_ok bt) `{!CmpOk (cmp_cb bt)} (read_ret node_ret : Z -> btree_status)
  (page : btree_raw_node -> list entry -> Prop) (Hpage : forall n es, page n es -> leaf_rep bt n es)
  (allowed_fn : option (list byte -> bool)) (junk : Z) (content : entry -> list byte)
  (qm : btree_range_meta) (Hq : ascending qm) (t : tree).
Abbreviation cmp := (cmp_cb bt).
Abbreviation m := (smeta_of junk qm).
Abbreviation lo := (lo_of qm).
Abbreviation hi := (hi_of qm).
Abbreviation pick := (pick cmp m lo hi).
Abbreviation before := (before cmp m lo).
Abbreviation upto := (upto cmp m hi).
Abbreviation ver := entry_version.
Abbreviation subtree := (subtree bt node_ret page (t_nodes t)).
Context (Hord : bounds_ordered cmp lo hi).

(** ** The first node *)

(** When the paths do not part at a node, only the child of the start is
    wanted. *)
Lemma no_diversion c v seps ub kids l s e :
  query_meta c = qm -> c_dir c = 1 -> nl_rep bt v seps -> nl_sorted bt seps -> length kids = S (length seps) ->
  (forall i k, kids !! i = Some k -> flat_in cmp (match i with O => l | S j => bound_at seps ub j end) k.1 (bound_at seps ub i)) ->
  bounds_ok bt junk qm (ent_version <$> seps) (ver <$> entries (kids_flat kids)) s e 3 ->
  exists b, diverges bt c v (n2z s) = Some b /\ (b = false -> forall i k, kids !! i = Some k -> i <> s -> pick (entries k.1) = []).
Proof using CmpOk0 Hord Hq.
  intros Hm Hd Hrep Hsort Hlen Hkb Hb. pose proof (bounds_le bt junk qm Hord _ _ _ _ _ Hb) as Hle. rewrite length_fmap in Hle.
  assert (forall i k, kids !! i = Some k -> (i < s)%nat \/ (e < i)%nat -> pick (entries k.1) = []) as Hskip.
  { intros i k Hi Hie. by apply (kid_skipped bt junk qm seps ub kids l Hlen Hkb s e 3 Hb i k Hi). }
  unfold diverges. rewrite Hm, Hd, (nl_count bt v seps Hrep). cbn [Z.ltb Z.compare andb]. rewrite orb_false_r.
  destruct (Z.ltb_spec (n2z s) (lenZ seps)) as [Hlt|Hge]; cycle 1.
  { exists false. split; [done|]. intros _ i k Hi Hne. apply (Hskip i k Hi). pose proof (lookup_lt_Some _ _ _ Hi). lia. }
  destruct (lookup_lt_is_Some_2 seps s) as [sep Hsep]; [lia|].
  destruct (key_end qm) as [b|] eqn:Hke; [|by exists true].
  unfold get_key_stuff_non_leaf. rewrite (proj2 (Z.ltb_ge _ 0)), Nat2Z.id, (get_key_stuff_ok bt v seps s sep Hrep Hsep) by lia. runs.
  cbn [ks_key s_key]. rewrite (as_end_incl _ Hq) by (by rewrite Hke). eexists. split; [done|]. intros Hdiv i k Hi Hne.
  destruct (decide (i < s)%nat) as [|Hge]; [apply (Hskip i k Hi); by left|].
  apply orb_false_iff in Hdiv as [H1%Z.ltb_ge H2]. destruct i as [|i]; [lia|].
  assert (hi = Some (b, has (r_flags qm) RANGE_END_LE)) as Ehi by (unfold hi_of; by rewrite Hke).
  apply pick_nil. intros x Hx [Hr Hin]. rewrite Ehi in Hin. apply andb_true_iff in Hin as [_ Hin]. cbn in Hin.
  assert (vle cmp (ent_version sep) (ver x)) as Hv.
  { destruct (lookup_lt_is_Some_2 seps i) as [sep' Hsep']; [pose proof (lookup_lt_Some _ _ _ Hi); lia|].
    assert (vle cmp (ent_version sep') (ver x)) as Hv' by (apply (kid_above bt seps ub kids l Hkb i k); [done|by rewrite list_lookup_fmap, Hsep'|done]).
    destruct (decide (i = s)) as [->|]; [congruence|]. apply (vle_trans cmp _ (ent_version sep')); [|done]. apply ordered_vle.
    apply (Hsort s i); [lia|by rewrite list_lookup_fmap, ?Hsep, ?Hsep'..]. }
  assert (cmp (n_key sep) (e_key x) <= 0) as Hle' by (unfold vle in Hv; cbn in Hv; lia).
  change (s_key _) with (n_key sep) in H1, H2. destruct (Z.eqb_spec (cmp b (n_key sep)) 0) as [E0|E0].
  - cbn [andb] in H2. rewrite H2 in Hin. apply Z.ltb_lt in Hin. pose proof (cmp_eq_l cmp b (n_key sep) (e_key x) E0). lia.
  - assert (cmp b (e_key x) < 0) by (apply (cmp_lt_trans' cmp _ (n_key sep)); lia). destruct (has _ _); b2p; lia.
Qed.

(** The walk of a query can start at node [x]: it holds all that is wanted of
    the leaves [fl]. *)
Definition diversion_at (D : nat) (fl : list fleaf) (K : nat) (x : tnode) (s e : nat) : Prop :=
  exists d id ub fl' ids l kl, subtree d id ub fl' ids /\ flat_in cmp l fl' ub /\ get_existing_node node_ret t id = Some (inr x) /\
    tshows bt x kl /\ bounds_ok bt junk qm kl (ver <$> entries fl') s e 3 /\ pick (entries fl') = pick (entries fl) /\
    (forall y, y ∈ entries fl' -> y ∈ entries fl) /\ (d <= D)%nat /\ (length ids <= K)%nat.

Lemma search_bounds c x kl vs :
  query_meta c = qm -> c_dir c = 1 -> tshows bt x kl -> lenZ kl < 2 ^ 14 ->
  exists s e, bsearch_start bt junk c x = Some (n2z s) /\ bsearch_end bt junk c x = Some (n2z e) /\ bounds_ok bt junk qm kl vs s e 3 /\
    (s <= e)%nat /\ i16 (n2z s) = n2z s /\ i16 (n2z e) = n2z e /\ i16 (n2z e + 1) = n2z (S e).
Proof using CmpOk0 Hord Hq.
  intros Hm Hd Hx Hsm. destruct (bsearch_start_ok bt junk qm Hq c x kl Hm Hd Hx) as (s & Es & Hs).
  destruct (bsearch_end_ok bt junk qm Hq c x kl Hm Hd Hx) as (e & Ee & He). exists s, e.
  assert (bounds_ok bt junk qm kl vs s e 3) as Hb by (split; by left).
  pose proof (bounds_le bt junk qm Hord _ _ _ _ _ Hb). split_and!; try done; try lia; rewrite i16_small; lia.
Qed.

Lemma diversion_ok c d : forall fuel id ub fl ids l x,
  query_meta c = qm -> c_dir c = 1 -> subtree d id ub fl ids -> flat_in cmp l fl ub ->
  get_existing_node node_ret t id = Some (inr x) -> (d < fuel)%nat ->
  exists x' s e, find_diversion_loop bt node_ret junk fuel t c (inr x) =
      Some (inr (x', f_start (node_frame x' s e 3), f_end (node_frame x' s e 3))) /\ diversion_at d fl (length ids) x' s e.
Proof using Hbt Hpage CmpOk0 Hord Hq.
  induction d as [|d IH]; intros fuel id ub fl ids l x Hm Hd Hsub Hf Hx Hfu; (destruct fuel as [|fuel]; [lia|]);
    destruct (subtree_node bt Hbt node_ret page Hpage t _ _ _ _ _ _ Hsub Hf) as (x' & kl & Hx' & Hsh & Hsm & Hshape);
    rewrite Hx in Hx'; injection Hx' as <-;
    destruct (search_bounds c x kl (ver <$> entries fl) Hm Hd Hsh Hsm) as (s & e & Es & Ee & Hb & Hse & I1 & I2 & I3).
  - destruct x as [n|v]; [|done]. cbn [find_diversion_loop]. rewrite Es, Ee. runs. rewrite Hd, I1, I2. cbn [Z.ltb Z.compare].
    exists (TLeaf n), s, e. split; [done|]. by exists 0%nat, id, ub, fl, ids, l, kl.
  - destruct x as [n|v]; [done|]. destruct Hshape as (seps & kids & Hrep & Hlen & Hk & Hfl & Hids & -> & Hkb). rewrite Hfl in Hb.
    destruct (no_diversion c v seps ub kids l s e Hm Hd Hrep (proj1 Hsh) Hlen Hkb Hb) as (b & Hdiv & Hno).
    pose proof (bounds_le bt junk qm Hord _ _ _ _ _ Hb) as Hle. rewrite length_fmap in Hle.
    cbn [find_diversion_loop]. rewrite Es. runs. rewrite (child_ptr_ok bt v seps s Hrep) by lia. runs. rewrite Hdiv. runs. destruct b.
    + rewrite Ee. runs. rewrite Hd, I1, I2, I3. exists (TNonLeaf v), s, e. split; [done|].
      exists (S d), id, ub, fl, ids, l, (ent_version <$> seps). by rewrite Hfl in *.
    + destruct (lookup_lt_is_Some_2 kids s) as [k Hks]; [lia|].
      destruct (subtree_node bt Hbt node_ret page Hpage t _ _ _ _ _ _ (Hk s k Hks) (Hkb s k Hks)) as (y & kl' & Hy & _). cbn [plus] in Hy.
      rewrite Hy. runs.
      destruct (IH fuel _ _ k.1 k.2 _ y Hm Hd (Hk s k Hks) (Hkb s k Hks) Hy ltac:(lia)) as (x' & s' & e' & -> & Hat).
      exists x', s', e'. split; [done|].
      destruct Hat as (d' & id' & ub' & fl' & ids' & l' & kl'' & ? & ? & ? & ? & ? & Hpick & Hin & ? & ?).
      assert (pick (entries fl) = pick (entries k.1)) as Ep.
      { rewrite Hfl, <- (take_drop_middle kids s k Hks), kids_flat_app, kids_flat_cons, !entries_app, !pick_app.
        rewrite (pick_kids_nil bt junk qm (take s kids)), (pick_kids_nil bt junk qm (drop (S s) kids)), app_nil_r; [done|..].
        - intros k1 (j & Hj)%list_elem_of_lookup_1. rewrite lookup_drop in Hj. apply (Hno eq_refl _ _ Hj). lia.
        - intros k1 (j & Hj)%list_elem_of_lookup_1. apply lookup_take_Some in Hj as [Hj Hlt]. apply (Hno eq_refl _ _ Hj). lia. }
      exists d', id', ub', fl', ids', l', kl''. split_and!; try done.
      * by rewrite Ep.
      * intros z Hz%Hin. rewrite Hfl, <- (take_drop_middle kids s k Hks), kids_flat_app, kids_flat_cons, !entries_app, !elem_of_app. auto.
      * lia.
      * rewrite Hids, <- (take_drop_middle kids s k Hks), kids_ids_app, kids_ids_cons. cbn [length]. rewrite !length_app. lia.
Qed.

(** ** The results of a chunk *)

Abbreviation passes := (passes allowed_fn).

(** The first [n] entries, but none after one at which the query pauses. *)
Fixpoint first_part (n : nat) (L : list entry) : list entry :=
  match n, L with
  | S n, e :: L => if passes (e_key e) then e :: first_part n L else [e]
  | _, _ => []
  end.

Lemma first_part_unique n L out :
  out `prefix_of` L -> (length out <= n)%nat -> (forall i e, out !! i = Some e -> (S i < length out)%nat -> passes (e_key e) = true) ->
  out = L \/ length out = n \/ (exists e, list.last out = Some e /\ passes (e_key e) = false) -> first_part n L = out.
Proof using Type.
  revert n L; induction out as [|x out IH]; intros n L [k ->] Hn Hp Hend.
  - destruct Hend as [<-|[<-|(e & ? & _)]]; [by destruct n|done|done].
  - destruct n as [|n]; [cbn in Hn; lia|]. cbn [first_part app].
    assert (out <> [] -> passes (e_key x) = true) as Hx.
    { intros Hne. apply (Hp 0%nat x eq_refl). cbn. destruct out; [done|cbn; lia]. }
    destruct out as [|y out].
    + destruct (passes (e_key x)) eqn:E; [|done]. f_equal. destruct Hend as [H|[H|(e & H & He)]].
      * cbn in H. injection H as H. subst k. by destruct n.
      * cbn in H. by replace n with 0%nat by lia.
      * injection H as <-. congruence.
    + rewrite Hx by done. f_equal. apply IH; [by exists k|cbn in *; lia|intros i e Hi Hl; by apply (Hp (S i)); [done|cbn in *; lia]|].
      destruct Hend as [H|[H|(e & H & He)]]; [left; exact (f_equal (list.tail) H)|right; left; cbn in *; lia|right; right; by exists e].
Qed.

Lemma first_part_prefix n L : first_part n L `prefix_of` L.
Proof using Type.
  revert n; induction L as [|e L IH]; intros [|n]; cbn; try apply prefix_nil. destruct (passes _); apply prefix_cons; [apply IH|apply prefix_nil].
Qed.

(** The query after a chunk that ended with [e]. *)
Definition next_meta (e : entry) : btree_range_meta :=
  let cleared := Z.land (r_flags qm) (Z.lnot (RANGE_START_LE .| RANGE_START_LT .| RANGE_START_GE .| RANGE_START_GT)) in
  mk_btree_range_meta (cleared .| (if passes (e_key e) then RANGE_START_GT else RANGE_START_GE)) (keybuf_size qm) (databuf_size qm)
    (Some (e_key e)) (key_end qm) (r_start_seq qm) (r_end_seq qm).

(** What a chunk that returns the entries [out] of the list leaves behind. *)
Record chunk_result (n_in : Z) (values : list btree_range_data) (out : list entry) (o : range_out) : Prop := {
  cr_n : n_out o = length out;
  cr_values : o_values o = zip_with (shown allowed_fn content qm) out values ++ drop (length out) values;
  cr_status : o_status o = match list.last out with Some e => pass_status allowed_fn (e_key e) | None => BTREE_QUERY_DONE end;
  cr_meta : query_meta (o_cursor o) = match list.last out with Some e => next_meta e | None => qm end;
  cr_dir : c_dir (o_cursor o) = 1;
  cr_ts : is_Some (ts_key (o_cursor o));
  cr_unknown : key_last_seq_unknown (o_cursor o) = false;
  cr_st : exists c, ov_cached (t_ov t) ⊆ c /\ o_st o = set_cached (t_ov t) c
}.

(** A cursor between two chunks of the query. *)
Definition ready (c : btree_range_cursor) : Prop :=
  query_meta c = qm /\ c_dir c = 1 /\ is_Some (ts_key c) /\ key_last_seq_unknown c = false.

(** The last steps of a chunk. *)
Definition finish_chunk (sp : Z) (n_in : Z) (o : range_out) : option range_out :=
  o ← (if (sp <? 0) && negb (fatal (o_status o)) && (c_dir (o_cursor o) <? 0) && key_last_seq_unknown (o_cursor o)
       then r ← populate_output_array bt read_ret allowed_fn junk None 0 0 n_in o; Some r.2
       else Some o);
  let o := if negb (fatal (o_status o)) && (n_out o =? 0)%nat then set_ostatus o BTREE_QUERY_DONE else o in
  if bool_decide (o_status o = BTREE_FAILURE) || bool_decide (o_status o = BTREE_QUERY_DONE) || storage_error (o_status o)
  then Some o
  else store_last_key o.

Lemma finish_ok sp n_in values o P :
  scanned bt allowed_fn content qm (t_ov t) values n_in o P ->
  exists o', finish_chunk sp n_in o = Some o' /\ chunk_result n_in values (live cmp P) o'.
Proof using Type.
  intros Hsc. pose proof Hsc as [Hm Hd Ht Hu Hst Hn Hroom Hv Hl Hp Hs]. unfold finish_chunk. rewrite Hd. cbn [Z.ltb Z.compare].
  rewrite andb_false_r. cbn [andb]. runs. rewrite Hn. destruct (decide (live cmp P = [])) as [E|(out & e & E)%snoc_of]; rewrite E in *.
  - rewrite Hs. cbn. eexists. split; [done|]. by split.
  - rewrite last_snoc in Hs. rewrite length_app, Nat.add_1_r in *. cbn [Nat.eqb length]. rewrite andb_false_r.
    assert (bool_decide (o_status o = BTREE_FAILURE) || bool_decide (o_status o = BTREE_QUERY_DONE) || storage_error (o_status o) = false) as ->.
    { rewrite Hs. unfold pass_status. by destruct (RangeLeaf.passes _ _). }
    unfold store_last_key. rewrite Hn. cbn in Hn.
    destruct (lookup_lt_is_Some_2 values (length out)) as [v Hv0]; [lia|].
    assert (o_values o !! length out = Some (shown allowed_fn content qm e v)) as ->.
    { rewrite Hv, lookup_app_l by (rewrite length_zip_with, length_app; cbn; lia).
      rewrite lookup_zip_with, Hv0, list_lookup_middle by done. done. }
    runs. assert (rd_key (shown allowed_fn content qm e v) = Some (e_key e) /\ rd_keylen (shown allowed_fn content qm e v) = lenZ (e_key e)) as [-> ->].
    { unfold shown. by destruct (RangeLeaf.passes _ _), (has (r_flags qm) RANGE_KEYS_ONLY). }
    rewrite bytes_at_all. runs. eexists. split; [done|].
    split; cbn [n_out o_values o_status o_cursor o_st set_query_meta query_meta]; rewrite ?last_snoc, ?length_app; try done.
    + cbn. lia.
    + rewrite Hv. f_equal. f_equal. cbn. lia.
    + unfold next_meta. rewrite Hm, Hs, Hd. unfold pass_status. destruct (RangeLeaf.passes _ _).
      * by rewrite decide_False.
      * by rewrite decide_True.
Qed.

(** A chunk returns the next part of the list of the query. *)
Lemma chunk_ok stack0 c n_in values D W I :
  subtree D (rootid t) None W I -> NoDup I -> flat_in cmp None W None ->
  Forall (fun e => object bt read_ret (t_ov t) e (content e)) (entries W) ->
  (D < length stack0)%nat -> ready c -> 0 <= n_in <= lenZ values ->
  exists o, btree_range_get_next_fast bt read_ret node_ret allowed_fn junk stack0 t c n_in values = Some o /\
    chunk_result n_in values (first_part (z2n n_in) (listing cmp m lo hi (entries W))) o.
Proof using Hbt Hpage CmpOk0 Hord Hq.
  intros Hsub Hnd Hf Hobj HD (Hm & Hd & Ht & Hu) Hn.
  set (o0 := mk_range_out (set_prior c false) (t_ov t) 0 values BTREE_SUCCESS).
  assert (scanned bt allowed_fn content qm (t_ov t) values n_in o0 []) as Hsc0.
  { split; try done. exists (ov_cached (t_ov t)). split; [done|]. cbn. by destruct (t_ov t). }
  destruct (subtree_node bt Hbt node_ret page Hpage t _ _ _ _ _ _ Hsub Hf) as (x & _ & Hx & _).
  pose proof (depth_bound bt node_ret page _ _ _ _ _ _ Hsub Hnd) as Hdb.
  destruct (diversion_ok (set_prior c false) D (S (size (t_nodes t))) _ _ _ _ _ x Hm Hd Hsub Hf Hx ltac:(lia)) as (x' & s & e & Hdiv & Hat).
  destruct Hat as (d & id & ub & fl & ids & l & kl & Hsub' & Hf' & Hx' & Hsh & Hb & Hpick & Hin & Hdd & Hids).
  pose proof (ids_bound bt node_ret page _ _ _ _ _ _ Hsub Hnd) as HI.
  set (stack1 := <[0%nat := mk_frame x' (f_start (node_frame x' s e 3)) (f_end (node_frame x' s e 3)) (f_start (node_frame x' s e 3)) (START_EDGE .| END_EDGE)]> stack0).
  destruct (subtree_visited_all bt Hbt read_ret node_ret page Hpage allowed_fn junk content qm Hq (t_ov t) values n_in Hord t d
              id ub fl ids l 0%nat stack1 o0 [] x' kl s e 3 Hsub' Hf') as (k & o & Hk & Hout); try done.
  { rewrite Forall_forall in *. intros y Hy%list_elem_of_In. by apply Hobj, list_elem_of_In, Hin. }
  { unfold stack1. by rewrite list_lookup_insert_eq by lia. }
  { unfold stack1. rewrite length_insert. lia. }
  unfold btree_range_get_next_fast, btree_range_find_diversion, root_get_and_lock. rewrite Hx. runs. rewrite Hdiv. runs.
  fold o0. fold stack1. cbn [app] in Hout. rewrite Hpick in Hout.
  assert (exists sp stack P, get_next_loop bt read_ret node_ret allowed_fn junk (2 * size (t_nodes t) + 3) t n_in 0 stack1 o0 = Some (sp, stack, o) /\
    scanned bt allowed_fn content qm (t_ov t) values n_in o P /\ P `prefix_of` pick (entries W) /\
    (P = pick (entries W) \/ stopped n_in o)) as (sp & stack & P & Hloop & Hsc & Hpre & Hend).
  { destruct Hout as [(Hsc & stack' & _ & Hrun)|(Hst & (Q & HQ & Hsc) & sp & stack' & Hrun)].
    - exists (-1), stack', (pick (entries W)). split; [|by split; [|split; [|left]]].
      replace (2 * size (t_nodes t) + 3)%nat with (k + S (2 * size (t_nodes t) + 2 - k))%nat by lia. by rewrite (Hrun _).
    - exists sp, stack', Q. split; [|by split; [|split; [|right]]].
      replace (2 * size (t_nodes t) + 3)%nat with (S (k + (2 * size (t_nodes t) + 2 - k)))%nat by lia. apply Hrun. }
  rewrite Hloop. runs. destruct (finish_ok sp n_in values o P Hsc) as (o' & Hfin & Hres). exists o'. split; [exact Hfin|].
  rewrite (first_part_unique (z2n n_in) _ (live cmp P)); [done|..].
  - by apply live_prefix.
  - pose proof (sc_room _ _ _ _ _ _ _ _ _ Hsc). pose proof (sc_n _ _ _ _ _ _ _ _ _ Hsc). lia.
  - apply Hsc.
  - destruct Hend as [->|[Hfull|Hfatal]]; [by left|..]; right.
    + left. pose proof (sc_room _ _ _ _ _ _ _ _ _ Hsc). pose proof (sc_n _ _ _ _ _ _ _ _ _ Hsc). lia.
    + right. rewrite (sc_status _ _ _ _ _ _ _ _ _ Hsc) in Hfatal. destruct (list.last (live cmp P)) as [y|]; [|done].
      exists y. split; [done|]. unfold pass_status in Hfatal. by destruct (RangeLeaf.passes _ _).
Qed.
End chunk.
