(* ===== verification/RangeTheorems.v ===== *)
(** * Range queries implement ordered listings

    A query reads chunk after chunk until it is done. Whatever the size of the
    chunks, it returns the keys of its range in increasing order, each once and
    with the data that a read of the key returns, and then reports its end. *)

From stdpp Require Import gmap.
From S2P Require Import Prelude Status LeafMeta LeafNode LeafOps LeafCells LeafEncode LeafFixup LeafSpec LeafRefine LeafPlain LeafMove NodeSearch LeafTheorems NodeSearchSpec NonLeaf NonLeafSpec NodeTheorems TreeFlat PStats Overflow OverflowSpec OverflowTheorems Snapshot SnapshotSpec SnapshotTheorems Scavenger ScavengerTheorems Tree TreeSpec TreeTheorems TreeWrite TreeEdit TreeSplit TreeSplitLeaf TreeDescend TreeStore TreeLeafWrite TreePut TreeRequests TreeHistory Range RangeWalk RangeSpec RangeLeaf RangeTree RangeChunk.

(** ** The query after a chunk *)

Section next.
Context (allowed_fn : option (list byte -> bool)) (junk : Z) (qm : btree_range_meta) (e : entry).
Abbreviation next := (next_meta allowed_fn qm e).
Abbreviation start_mask := (RANGE_START_LE .| RANGE_START_LT .| RANGE_START_GE .| RANGE_START_GT).

Lemma next_has f g :
  Z.land (Z.lnot start_mask) f = g -> has (r_flags next) f =
  has (r_flags qm) g || has (if passes allowed_fn (e_key e) then RANGE_START_GT else RANGE_START_GE) f.
Proof using Type.
  intros E. unfold has. cbn [next_meta r_flags]. rewrite Z.land_lor_distr_l, <- Z.land_assoc, E.
  destruct (Z.eqb_spec (Z.land (r_flags qm) g) 0) as [->|H1]; [done|]. apply negb_true_iff, Z.eqb_neq. intros [H _]%Z.lor_eq_0_iff. done.
Qed.

Lemma next_keeps f : Z.land (Z.lnot start_mask) f = f -> Z.land (RANGE_START_GT .| RANGE_START_GE) f = 0 -> has (r_flags next) f = has (r_flags qm) f.
Proof using Type.
  intros E1 E2. rewrite (next_has f f E1). rewrite Z.land_lor_distr_l in E2. apply Z.lor_eq_0_iff in E2 as [E2 E3].
  unfold has at 2. destruct (passes _ _); rewrite ?E2, ?E3; apply orb_false_r.
Qed.

Lemma next_smeta : smeta_of junk next = smeta_of junk qm.
Proof using Type. unfold smeta_of. by rewrite !next_keeps by done. Qed.

Lemma next_hi : hi_of next = hi_of qm.
Proof using Type. unfold hi_of. by rewrite next_keeps by done. Qed.

Lemma next_lo : lo_of next = Some (e_key e, negb (passes allowed_fn (e_key e))).
Proof using Type.
  unfold lo_of. cbn [next_meta key_start fmap option_fmap option_map]. rewrite (next_has _ 0) by done.
  unfold has at 1. rewrite Z.land_0_r. by destruct (passes _ _).
Qed.

Lemma next_keys_only : has (r_flags next) RANGE_KEYS_ONLY = has (r_flags qm) RANGE_KEYS_ONLY.
Proof using Type. by apply next_keeps. Qed.

Lemma next_ascending : ascending qm -> ascending next.
Proof using Type.
  intros [[H1 H2] Hs He He']. split; [split; by rewrite next_keeps|intros _|intros Hk|intros Hk].
  - rewrite !(next_has _ 0) by done. unfold has at 1 3. rewrite !Z.land_0_r. by destruct (passes _ _).
  - by rewrite !next_keeps by done; apply He.
  - by rewrite !next_keeps by done; apply He'.
Qed.
End next.

(** ** Reading a query to its end *)

Section queries.
Context (bt : btree_raw) (read_ret node_ret : Z -> btree_status) (allowed_fn : option (list byte -> bool)) (junk : Z)
  (stack0 : list frame).

(** A client asks for chunks of [n_in] results as long as they succeed: all
    results and the last status. *)
Fixpoint read_all (fuel : nat) (t : tree) (c : btree_range_cursor) (n_in : Z) (values : list btree_range_data)
    : option (list btree_range_data * btree_status) :=
  match fuel with
  | O => None
  | S fuel =>
      o ← btree_range_get_next bt read_ret node_ret allowed_fn junk stack0 t c n_in values;
      let results := take (n_out o) (o_values o) in
      if decide (o_status o = BTREE_SUCCESS) then
        r ← read_all fuel (set_ov t (o_st o)) (o_cursor o) n_in values;
        Some (results ++ r.1, r.2)
      else Some (results, o_status o)
  end.

(** The tree holds the leaves [W], each object with its content. *)
Record holds_leaves (page : btree_raw_node -> list entry -> Prop) (t : tree) (D : nat) (W : list fleaf) (I : list Z)
    (content : entry -> list byte) : Prop := {
  hl_tree : subtree bt node_ret page (t_nodes t) D (rootid t) None W I;
  hl_nodup : NoDup I;
  hl_flat : flat_in (cmp_cb bt) None W None;
  hl_objects : Forall (fun e => object bt read_ret (t_ov t) e (content e)) (entries W)
}.

(** The result for an entry. *)
Definition result_for (content : entry -> list byte) (keys_only : bool) (e : entry) (r : btree_range_data) : Prop :=
  rd_key r = Some (e_key e) /\ rd_keylen r = lenZ (e_key e) /\ rd_status r = BTREE_RANGE_SUCCESS /\
  (keys_only = false -> rd_data r = Some (content e) /\ rd_datalen r = e_datalen e).

Context (Hbt : bt_ok bt) `{!CmpOk (cmp_cb bt)} (page : btree_raw_node -> list entry -> Prop)
  (Hpage : forall n es, page n es -> leaf_rep bt n es).
Abbreviation cmp := (cmp_cb bt).

(** The list of a query. *)
Abbreviation listed qm W := (listing cmp (smeta_of junk qm) (lo_of qm) (hi_of qm) (entries W)).

Lemma holds_cached t D W I content c :
  holds_leaves page t D W I content -> ov_cached (t_ov t) ⊆ c -> holds_leaves page (set_ov t (set_cached (t_ov t) c)) D W I content.
Proof using Type.
  intros [Ht Hnd Hf Ho] Hc. split; try done. eapply Forall_impl; [|exact Ho]. intros e He. by apply object_cached.
Qed.

Lemma entry_bounds qm W e :
  vsorted cmp (entries W) -> e ∈ listed qm W -> bounds_ordered cmp (lo_of (next_meta allowed_fn qm e)) (hi_of (next_meta allowed_fn qm e)).
Proof using CmpOk0.
  intros Hs He. apply listing_spec in He as (Hin & _); [|done|done]. apply andb_true_iff in Hin as [_ Hin].
  rewrite next_lo, next_hi. destruct (hi_of qm) as [[b []]|]; cbn in *; [| |done]; b2p; pose proof (cmp_antisym b (e_key e)).
  - rewrite orb_true_r. lia.
  - rewrite orb_false_r. left. lia.
Qed.

(** What a chunk leaves of the list: what it returned and the application let
    pass is gone. *)
Lemma next_listed qm W out rest e :
  vsorted cmp (entries W) -> listed qm W = out ++ e :: rest ->
  listed (next_meta allowed_fn qm e) W = if passes allowed_fn (e_key e) then rest else e :: rest.
Proof using CmpOk0.
  intros Hs E. rewrite next_smeta, next_lo, next_hi.
  rewrite (listing_rest cmp _ _ _ _ _ _ _ _ Hs E). by destruct (passes _ _).
Qed.

Lemma first_part_all n L : (forall e, e ∈ L -> passes allowed_fn (e_key e) = true) -> first_part allowed_fn n L = take n L.
Proof using Type.
  revert n; induction L as [|e L IH]; intros [|n] Hp; try done. cbn. rewrite Hp by (by left). f_equal. apply IH. intros x Hx. apply Hp. by right.
Qed.

Lemma shown_results qm content out values :
  (forall e, e ∈ out -> passes allowed_fn (e_key e) = true) -> (length out <= length values)%nat ->
  Forall2 (result_for content (has (r_flags qm) RANGE_KEYS_ONLY)) out (zip_with (shown allowed_fn content qm) out values).
Proof using Type.
  revert values; induction out as [|e out IH]; intros [|v values] Hp Hl; cbn in *; try done; try lia. constructor.
  - unfold shown. rewrite Hp by (by left). destruct (has _ _); by split_and!.
  - apply IH; [|lia]. intros x Hx. apply Hp. by right.
Qed.

Lemma read_all_ok content n_in values D W I : forall fuel qm t c,
  holds_leaves page t D W I content -> (D < length stack0)%nat -> ascending qm -> bounds_ordered cmp (lo_of qm) (hi_of qm) ->
  ready qm c -> 0 < n_in <= lenZ values -> (forall e, e ∈ listed qm W -> passes allowed_fn (e_key e) = true) ->
  (length (listed qm W) < fuel)%nat ->
  exists rs, read_all fuel t c n_in values = Some (rs, BTREE_QUERY_DONE) /\
    Forall2 (result_for content (has (r_flags qm) RANGE_KEYS_ONLY)) (listed qm W) rs.
Proof using Hbt Hpage CmpOk0.
  induction fuel as [|fuel IH]; intros qm t c Ht HD Hq Hord Hc Hn Hp Hf; [lia|]. pose proof Ht as [Hsub Hnd Hfl Hobj].
  destruct (flat_entries cmp _ _ _ Hfl) as (Hs & _ & _).
  destruct (chunk_ok bt Hbt read_ret node_ret page Hpage allowed_fn junk content qm Hq t Hord stack0 c n_in values D W I
              Hsub Hnd Hfl Hobj HD Hc ltac:(lia)) as (o & Ho & Hres).
  rewrite first_part_all in Hres by done. cbn [read_all]. unfold btree_range_get_next.
  rewrite (proj1 Hc), (proj2 (as_plain _ Hq)), Ho. runs. rewrite (cr_n _ _ _ _ _ _ _ _ Hres), (cr_values _ _ _ _ _ _ _ _ Hres).
  set (L := listed qm W) in *.
  assert (length (take (z2n n_in) L) <= length values)%nat as Hlv by (rewrite length_take; lia).
  rewrite take_app_length' by (rewrite length_zip_with; lia).
  pose proof (take_drop (z2n n_in) L) as Etd.
  destruct (decide (take (z2n n_in) L = [])) as [E|(out & e & E)%snoc_of].
  - assert (L = []) as EL by (destruct L; [done|]; by destruct (z2n n_in) eqn:En; [lia|]).
    rewrite (cr_status _ _ _ _ _ _ _ _ Hres), E. cbn. eexists. split; [done|]. by rewrite EL.
  - rewrite E in *. rewrite <- app_assoc in Etd. cbn [app] in Etd.
    assert (e ∈ L) as HeL by (rewrite <- Etd; apply elem_of_app; right; by left).
    rewrite (cr_status _ _ _ _ _ _ _ _ Hres), last_snoc. unfold pass_status. rewrite (Hp e HeL). rewrite decide_True by done.
    pose proof (next_listed qm W out (drop (z2n n_in) L) e Hs (eq_sym Etd)) as Enext. rewrite (Hp e HeL) in Enext.
    destruct (cr_st _ _ _ _ _ _ _ _ Hres) as (cc & Hcc & ->).
    destruct (IH (next_meta allowed_fn qm e) (set_ov t (set_cached (t_ov t) cc)) (o_cursor o)) as (rs & Hrs & Hall).
    + by apply holds_cached.
    + done.
    + by apply next_ascending.
    + by apply entry_bounds with W.
    + split_and!; [|by eapply cr_dir|by eapply cr_ts|by eapply cr_unknown]. rewrite (cr_meta _ _ _ _ _ _ _ _ Hres), last_snoc. done.
    + done.
    + rewrite Enext. intros x Hx. apply Hp. rewrite <- Etd. apply elem_of_app. right. by right.
    + rewrite Enext, length_drop. destruct L; [by apply not_elem_of_nil in HeL|]. cbn in *. lia.
    + rewrite Hrs. runs. eexists. split; [done|]. rewrite Enext, next_keys_only in Hall. cbn [fst].
      rewrite <- Etd at 1. change (e :: drop (z2n n_in) L) with ([e] ++ drop (z2n n_in) L). rewrite app_assoc. apply Forall2_app; [|done].
      apply shown_results; [|done]. intros x Hx. apply Hp. rewrite <- Etd, elem_of_app, elem_of_cons.
      apply elem_of_app in Hx as [Hx|Hx]; [by left|]. apply list_elem_of_singleton in Hx. auto.
Qed.

(** ** The depth of a tree *)

Lemma kids_count (kids : list kid) (b : nat) : (forall k, k ∈ kids -> (b <= length k.2)%nat) -> (length kids * b <= length (kids_ids kids))%nat.
Proof using Type.
  induction kids as [|k kids IH]; intros H; [done|]. rewrite kids_ids_cons, length_app. cbn.
  pose proof (H k ltac:(by left)). specialize (IH (fun x Hx => H x ltac:(by right))). lia.
Qed.

(** Every node that is not a leaf has two children. *)
Lemma subtree_pow ns d : forall id ub fl ids, subtree bt node_ret page ns d id ub fl ids -> (2 ^ d <= length ids)%nat.
Proof using Type.
  induction d as [|d IH]; intros id ub fl ids.
  - intros (_ & _ & n & es & _ & _ & _ & _ & ->). cbn. lia.
  - intros (_ & _ & v & seps & kids & _ & _ & Hne & Hlen & _ & -> & Hk)%subtree_inv. cbn [length].
    assert (length kids * 2 ^ d <= length (kids_ids kids))%nat as H.
    { apply kids_count. intros k (i & Hi)%list_elem_of_lookup_1. by apply (IH _ _ _ _ (Hk i k Hi)). }
    assert (2 <= length kids)%nat by (destruct seps; [done|cbn in Hlen; lia]). rewrite Nat.pow_succ_r'. nia.
Qed.

Lemma stack_enough t D W I content :
  holds_leaves page t D W I content -> n2z (size (t_nodes t)) < 2 ^ n2z (length stack0) -> (D < length stack0)%nat.
Proof using Type.
  intros [Hsub Hnd _ _] Hsz. pose proof (subtree_pow _ _ _ _ _ _ Hsub) as Hp.
  pose proof (ids_bound bt node_ret page _ _ _ _ _ _ Hsub Hnd) as HI.
  apply Nat2Z.inj_le in Hp. rewrite Nat2Z.inj_pow in Hp. change (n2z 2) with 2 in Hp.
  destruct (decide (D < length stack0)%nat) as [|Hge]; [done|].
  pose proof (Z.pow_le_mono_r 2 (n2z (length stack0)) (n2z D) ltac:(lia) ltac:(lia)). lia.
Qed.

(** ** Starting a query *)

Lemma started_ready cursors old qm cursors' i c :
  btree_raw_range_query_start cursors old qm = Some (cursors', BTREE_SUCCESS, Some i) -> cursors' !! i = Some (Some c) ->
  IS_ASCENDING_QUERY qm = true -> validate_range_query qm = BTREE_SUCCESS /\ ready qm c.
Proof using Type.
  unfold btree_raw_range_query_start, btree_range_query_start_fast. intros Hst Hc Ha. case_decide as Hv; [|done]. split; [done|].
  destruct (list_find _ cursors) as [[j x]|] eqn:Ef; [|done]. case_match; [done|]. injection Hst as <- <-.
  apply list_find_Some in Ef as (Hj & _). rewrite list_lookup_insert_eq in Hc by (by eapply lookup_lt_Some). injection Hc as <-.
  split_and!; [done| |done|done]. cbn [c_dir]. by rewrite Ha.
Qed.

(** ** The list and the reads *)

(** Two conditions that accept the same sequence numbers. *)
Lemma side_cond key m m' v : (forall s, seqno_cmp_range m s = seqno_cmp_range m' s) -> side cmp key m v = side cmp key m' v.
Proof using Type. intros E. rewrite ?side_code. by rewrite E. Qed.

Lemma view_cond W content k m m' :
  (forall s, seqno_cmp_range m s = seqno_cmp_range m' s) -> view cmp W content k m = view cmp W content k m'.
Proof using Type.
  intros E. unfold view, answer. erewrite list_filter_iff; [done|]. intros e. cbn. by rewrite (side_cond k m m' _ E).
Qed.

(** A query of the active state. *)
Lemma smeta_active qm :
  has (r_flags qm) (RANGE_SEQNO_EQ .| RANGE_SEQNO_LE .| RANGE_SEQNO_GT_LE) = false ->
  forall s, seqno_cmp_range (smeta_of junk qm) s = seqno_cmp_range None s.
Proof using Type. rewrite !has_lor. intros H s. unfold smeta_of. cbn. by rewrite H. Qed.

(** A query through a snapshot. *)
Lemma smeta_snapshot qm :
  has (r_flags qm) RANGE_SEQNO_EQ = false -> has (r_flags qm) RANGE_SEQNO_LE = true ->
  forall s, seqno_cmp_range (smeta_of junk qm) s = seqno_cmp_range (at_snapshot (r_end_seq qm)) s.
Proof using Type. intros H1 H2 s. unfold smeta_of. cbn. by rewrite H1, H2. Qed.

Definition pair_of (content : entry -> list byte) (e : entry) : list byte * list byte := (e_key e, content e).

(** The list as keys with their data. *)
Lemma listed_pairs qm W content mm k d :
  (forall a b, cmp a b = 0 -> a = b) -> vsorted cmp (entries W) ->
  (forall s, seqno_cmp_range (smeta_of junk qm) s = seqno_cmp_range mm s) ->
  (k, d) ∈ pair_of content <$> listed qm W <-> in_range cmp (lo_of qm) (hi_of qm) k = true /\ view cmp W content k mm = Some d.
Proof using CmpOk0.
  intros Hinj Hs Hmm. rewrite list_elem_of_fmap, <- (view_cond W content k _ _ Hmm). unfold view. split.
  - intros (e & [= -> ->] & He). apply listing_spec in He as (Hin & Ht & Ha); [|done|done]. by rewrite Ha, Ht.
  - intros [Hin Hv]. destruct (answer _ _ _ _) as [e|] eqn:Ea; [|done]. destruct (e_tomb e) eqn:Et; [done|]. injection Hv as <-.
    assert (k = e_key e) as -> by (apply answer_Some in Ea as [_ Ea]; by apply Hinj, (side_eq_key cmp _ _ _ Ea)).
    exists e. split; [done|]. by apply listing_spec.
Qed.

Lemma pairs_increase qm W content : vsorted cmp (entries W) -> keys_increase cmp fst (pair_of content <$> listed qm W).
Proof using CmpOk0.
  intros Hs i j x y Hij Hi Hj. rewrite list_lookup_fmap in Hi, Hj.
  destruct (listed qm W !! i) as [e|] eqn:Ei; [|done]. destruct (listed qm W !! j) as [e'|] eqn:Ej; [|done].
  injection Hi as <-. injection Hj as <-. by apply (listing_increase cmp (smeta_of junk qm) (lo_of qm) (hi_of qm) (entries W) Hs i j).
Qed.

Definition result_pairs (rs : list btree_range_data) : list (option (list byte) * option (list byte)) :=
  (fun r => (rd_key r, rd_data r)) <$> rs.

Lemma results_pairs content L rs :
  Forall2 (result_for content false) L rs -> result_pairs rs = (fun p => (Some p.1, Some p.2)) <$> (pair_of content <$> L).
Proof using Type.
  induction 1 as [|e r L rs (Hk & _ & _ & Hd) _ IH]; [done|]. destruct (Hd eq_refl) as [Hd' _].
  change (result_pairs (r :: rs)) with ((rd_key r, rd_data r) :: result_pairs rs). by rewrite Hk, Hd', IH.
Qed.
End queries.

(** ** Theorems *)


(** A whole query on a well-formed tree, when the application never pauses. *)
Lemma query_ok bt read_ret node_ret junk stack0 page t D W I content cursors old qm cursors' i c n_in values fuel :
  bt_ok bt -> CmpOk (cmp_cb bt) -> (forall n es, page n es -> leaf_rep bt n es) ->
  holds_leaves bt read_ret node_ret page t D W I content ->
  n2z (size (t_nodes t)) < 2 ^ n2z TREE_DEPTH_MAX -> length stack0 = TREE_DEPTH_MAX ->
  btree_raw_range_query_start cursors old qm = Some (cursors', BTREE_SUCCESS, Some i) -> cursors' !! i = Some (Some c) ->
  IS_ASCENDING_QUERY qm = true -> plain_query qm -> bounds_ordered (cmp_cb bt) (lo_of qm) (hi_of qm) -> 0 < n_in <= lenZ values ->
  let L := listing (cmp_cb bt) (smeta_of junk qm) (lo_of qm) (hi_of qm) (entries W) in (length L < fuel)%nat ->
  exists rs, read_all bt read_ret node_ret None junk stack0 fuel t c n_in values = Some (rs, BTREE_QUERY_DONE) /\
    Forall2 (result_for content (has (r_flags qm) RANGE_KEYS_ONLY)) L rs.
Proof.
  intros Hbt Hcmp Hpage Ht Hsz Hst Hstart Hc Ha Hp Hord Hn L Hfu. rewrite <- Hst in Hsz.
  destruct (started_ready cursors old qm cursors' i c Hstart Hc Ha) as [Hv Hr]. pose proof (valid_ascending qm Hv Ha Hp) as Hq.
  pose proof (stack_enough bt read_ret node_ret stack0 _ t D W I content Ht Hsz) as HD.
  by apply (read_all_ok bt read_ret node_ret None junk stack0 Hbt page Hpage content n_in values D W I fuel qm t c).
Qed.

Section histories.
Context (bt : btree_raw) (read_ret node_ret : Z -> btree_status) (nsz : Z) (m : btree_snap_meta)
  (astats_done : bool) (is_nodes_available : Z -> bool) (stale : bool) (junk : Z) (stack0 : list frame).
Abbreviation cmp := (cmp_cb bt).
Abbreviation snaps := (snap_seqs m).
Abbreviation db := (db bt read_ret node_ret m).
Abbreviation history := (history bt read_ret node_ret nsz m astats_done is_nodes_available stale).

(** A client's query of keys and data that the application does not pause. *)
Record query (t : tree) (qm : btree_range_meta) (c : btree_range_cursor) (n_in : Z) (values : list btree_range_data) : Prop := {
  qy_size : n2z (size (t_nodes t)) < 2 ^ n2z TREE_DEPTH_MAX;
  qy_stack : length stack0 = TREE_DEPTH_MAX;
  qy_start : exists cursors old cursors' i, btree_raw_range_query_start cursors old qm = Some (cursors', BTREE_SUCCESS, Some i) /\
               cursors' !! i = Some (Some c);
  qy_up : IS_ASCENDING_QUERY qm = true;
  qy_plain : plain_query qm;
  qy_data : has (r_flags qm) RANGE_KEYS_ONLY = false;
  qy_order : bounds_ordered cmp (lo_of qm) (hi_of qm);
  qy_n : 0 < n_in <= lenZ values
}.

Lemma query_pairs q t D W I content own qm c n_in values mm :
  bt_ok bt -> CmpOk cmp -> (forall a b, cmp a b = 0 -> a = b) -> db q t D W I content own -> query t qm c n_in values ->
  (forall s, seqno_cmp_range (smeta_of junk qm) s = seqno_cmp_range mm s) ->
  exists fuel rs ps, read_all bt read_ret node_ret None junk stack0 fuel t c n_in values = Some (rs, BTREE_QUERY_DONE) /\
    result_pairs rs = (fun p => (Some p.1, Some p.2)) <$> ps /\ keys_increase cmp fst ps /\
    forall k d, (k, d) ∈ ps <-> in_range cmp (lo_of qm) (hi_of qm) k = true /\ view cmp W content k mm = Some d.
Proof using Type.
  intros Hbt Hcmp Hinj Hdb [Hsz Hst (cursors & old & cursors' & i & Hstart & Hc) Ha Hp Hd Hord Hn] Hmm.
  destruct (db_serves _ _ _ _ _ _ _ _ _ _ _ Hdb) as [[Hsub Hnd [Hf _]] Hobj].
  destruct (query_ok bt read_ret node_ret junk stack0 (leaf_plain bt) t D W I content cursors old qm cursors' i c n_in values
              (S (length (listing cmp (smeta_of junk qm) (lo_of qm) (hi_of qm) (entries W)))) Hbt Hcmp) as (rs & Hrs & Hall); try done; [|lia|].
  { intros n es. by apply plain_rep. }
  destruct (flat_entries cmp _ _ _ Hf) as (Hs & _). rewrite Hd in Hall.
  eexists _, rs, _. split; [exact Hrs|]. split; [by apply results_pairs|]. split; [by apply pairs_increase|].
  intros k d. by apply listed_pairs.
Qed.

(** C5: range queries see the map that the requests implement: after a history
    of writes and deletes ([history]: objects of up to a seventh of a page, the
    default page format, no failures of storage or allocator), an ascending
    query of the active state with data, without buffers or a callback of the application and
    with bounds in order, read in chunks of any size from a tree of less than
    2^32 nodes, ends and has returned exactly the keys of the map between its
    bounds with their data, in increasing order and each once. *)
Theorem history_range_query rs q t q' t' D W I content own qm c n_in values :
  bt_ok bt -> CmpOk cmp -> (forall a b, cmp a b = 0 -> a = b) -> history rs q t q' t' -> db q t D W I content own ->
  query t' qm c n_in values -> has (r_flags qm) (RANGE_SEQNO_EQ .| RANGE_SEQNO_LE .| RANGE_SEQNO_GT_LE) = false ->
  exists fuel results ps,
    read_all bt read_ret node_ret None junk stack0 fuel t' c n_in values = Some (results, BTREE_QUERY_DONE) /\
    result_pairs results = (fun p => (Some p.1, Some p.2)) <$> ps /\ keys_increase cmp fst ps /\
    forall k d, (k, d) ∈ ps <-> in_range cmp (lo_of qm) (hi_of qm) k = true /\
      foldl apply_request (fun k => view cmp W content k None) rs k = Some d.
Proof using Type.
  intros Hbt Hcmp Hinj Hh Hdb Hqy Hfl.
  destruct (history_ok bt read_ret node_ret nsz m astats_done is_nodes_available stale rs q t q' t' Hh D W I content own Hdb)
    as (D' & W' & I' & c' & o' & Hdb' & _ & Hv).
  destruct (query_pairs q' t' D' W' I' c' o' qm c n_in values None Hbt Hcmp Hinj Hdb' Hqy (smeta_active junk qm Hfl))
    as (fuel & results & ps & H1 & H2 & H3 & H4).
  exists fuel, results, ps. split_and!; try done. intros k d. by rewrite H4, Hv.
Qed.

(** C14: range queries through a snapshot are isolated: after a history as
    above, an ascending query of the same bounds, with data and
    without buffers or a callback of the application, through an existing
    snapshot returns the same keys with the same data as before, whatever the
    sizes of the chunks. *)
Theorem range_snapshot_isolation rs q t q' t' D W I content own qm c c' n_in n_in' values values' :
  bt_ok bt -> CmpOk cmp -> (forall a b, cmp a b = 0 -> a = b) -> history rs q t q' t' -> db q t D W I content own ->
  query t qm c n_in values -> query t' qm c' n_in' values' ->
  has (r_flags qm) RANGE_SEQNO_EQ = false -> has (r_flags qm) RANGE_SEQNO_LE = true -> r_end_seq qm ∈ snaps ->
  exists fuel fuel' results results',
    read_all bt read_ret node_ret None junk stack0 fuel t c n_in values = Some (results, BTREE_QUERY_DONE) /\
    read_all bt read_ret node_ret None junk stack0 fuel' t' c' n_in' values' = Some (results', BTREE_QUERY_DONE) /\
    result_pairs results' = result_pairs results.
Proof using Type.
  intros Hbt Hcmp Hinj Hh Hdb Hqy Hqy' Hf1 Hf2 Hs.
  destruct (history_ok bt read_ret node_ret nsz m astats_done is_nodes_available stale rs q t q' t' Hh D W I content own Hdb)
    as (D' & W' & I' & ct' & o' & Hdb' & Hv & _).
  pose proof (smeta_snapshot junk qm Hf1 Hf2) as Hmm.
  destruct (query_pairs q t D W I content own qm c n_in values _ Hbt Hcmp Hinj Hdb Hqy Hmm) as (fuel & rs1 & ps1 & H1 & H2 & H3 & H4).
  destruct (query_pairs q' t' D' W' I' ct' o' qm c' n_in' values' _ Hbt Hcmp Hinj Hdb' Hqy' Hmm) as (fuel' & rs2 & ps2 & H1' & H2' & H3' & H4').
  exists fuel, fuel', rs1, rs2. split_and!; [done|done|]. rewrite H2, H2'. f_equal.
  apply (increase_unique cmp fst); [done|done|]. intros [k d]. by rewrite H4, H4', Hv.
Qed.
End histories.

(** ** Concrete queries *)

Definition no_result : btree_range_data := mk_btree_range_data BTREE_RANGE_STATUS_NONE None 0 None 0.
Definition old_cursor : btree_range_cursor :=
  mk_btree_range_cursor (mk_btree_range_meta 0 0 0 None None 0 0) 1 None 0 None 0 true false 77 0 false.
(** A stack whose old marks say that every node is at both edges. *)
Definition dirty_stack : list frame :=
  replicate TREE_DEPTH_MAX (mk_frame (TNonLeaf (nl_page (bt_8k true) [] 0)) 9 9 9 3).

(** From [ab1] excluded, in the active state or through snapshot 8. *)
Definition above_1 (flags s : Z) : btree_range_meta :=
  mk_btree_range_meta (RANGE_START_GT .| flags) 0 0 (Some (key_ab Byte.x31)) None 0 s.
Definition start_cursor (qm : btree_range_meta) : btree_range_cursor :=
  mk_btree_range_cursor qm 1 (Some []) 0 None 0 true false 0 0 false.

Lemma query_ab t flags s :
  bool_decide (n2z (size (t_nodes t)) < 2 ^ n2z TREE_DEPTH_MAX) = true ->
  bool_decide (validate_range_query (above_1 flags s) = BTREE_SUCCESS) = true -> IS_ASCENDING_QUERY (above_1 flags s) = true ->
  has (r_flags (above_1 flags s)) RANGE_BUFFER_PROVIDED = false -> has (r_flags (above_1 flags s)) RANGE_INPLACE_POINTERS = false ->
  has (r_flags (above_1 flags s)) RANGE_KEYS_ONLY = false ->
  query (bt_8k true) dirty_stack t (above_1 flags s) (start_cursor (above_1 flags s)) 1 [no_result].
Proof.
  intros Hsz%bool_decide_eq_true Hv%bool_decide_eq_true Ha Hb Hi Hk. split; [done|done| |done|done|done|done|done].
  exists [None; None; None], old_cursor, [Some (start_cursor (above_1 flags s)); None; None], 0%nat. split; [|done].
  unfold btree_raw_range_query_start, btree_range_query_start_fast. rewrite decide_True by done. cbn [list_find]. rewrite decide_True by done. rewrite Hi, Ha. done.
Qed.

Lemma history_range_query_witness :
  exists fuel results ps,
    read_all (bt_8k true) ret_ok ret_ok None 5 dirty_stack fuel tree2 (start_cursor (above_1 0 0)) 1 [no_result] = Some (results, BTREE_QUERY_DONE) /\
    result_pairs results = (fun p => (Some p.1, Some p.2)) <$> ps /\ keys_increase default_cmp_cb fst ps /\
    forall k d, (k, d) ∈ ps <-> in_range default_cmp_cb (lo_of (above_1 0 0)) (hi_of (above_1 0 0)) k = true /\
      foldl apply_request (fun k => view default_cmp_cb fl_ab e_data k None) [r1; r2] k = Some d.
Proof.
  apply (history_range_query (bt_8k true) ret_ok ret_ok 8192 snap8 true always false 5 dirty_stack [r1; r2] 20 tree_ab 22 tree2 1 fl_ab
           [5; 11; 12] e_data (fun _ => []) (above_1 0 0)).
  - apply bt_8k_ok.
  - apply default_cmp_ok.
  - apply default_cmp_inj.
  - apply history_ab.
  - apply db_ab.
  - apply query_ab; by vm_compute.
  - done.
Defined.

Lemma range_snapshot_isolation_witness :
  exists fuel fuel' results results',
    read_all (bt_8k true) ret_ok ret_ok None 5 dirty_stack fuel tree_ab (start_cursor (above_1 RANGE_SEQNO_LE 8)) 1 [no_result]
      = Some (results, BTREE_QUERY_DONE) /\
    read_all (bt_8k true) ret_ok ret_ok None 5 dirty_stack fuel' tree2 (start_cursor (above_1 RANGE_SEQNO_LE 8)) 1 [no_result]
      = Some (results', BTREE_QUERY_DONE) /\
    result_pairs results' = result_pairs results.
Proof.
  apply (range_snapshot_isolation (bt_8k true) ret_ok ret_ok 8192 snap8 true always false 5 dirty_stack [r1; r2] 20 tree_ab 22 tree2 1 fl_ab
           [5; 11; 12] e_data (fun _ => []) (above_1 RANGE_SEQNO_LE 8)).
  - apply bt_8k_ok.
  - apply default_cmp_ok.
  - apply default_cmp_inj.
  - apply history_ab.
  - apply db_ab.
  - apply query_ab; by vm_compute.
  - apply query_ab; by vm_compute.
  - done.
  - done.
  - left.
Defined.


