(* ===== verification/RangeRescue.v ===== *)
(** * The query that repeats a failed request (btree/btree_raw.c)

    When a request meets a storage error, what it was doing is recorded; a
    rescue of the tree first repeats it as a range query, to see whether the
    error is still there. The model goes up to the start of that query; [junk]
    fills the fields of the query that are not initialised. *)

From S2P Require Import Prelude Status LeafMeta LeafNode LeafOps LeafCells NodeSearch NodeSearchSpec NonLeaf PStats Overflow Snapshot Scavenger Tree Range RangeWalk RangeSpec RangeLeaf RangeTree RangeChunk.

(** [btree_op_err_t]: the node that failed and the request. The recorded
    pointers to the keys of a range query are never null. *)
Inductive err_op :=
  | ERR_OPTYPE_UNKNOWN
  | ERR_OPTYPE_SINGLE (key : list byte) (flags : Z)
  | ERR_OPTYPE_RQUERY (start_ end_ : list byte) (flags : Z)
  | ERR_OPTYPE_RUPDATE (key : list byte).

Record btree_op_err := mk_btree_op_err { le_logical_id : Z; op_type : err_op }.

(** Absent keys have length 0. *)
Definition set_lasterror_rquery (id : Z) (rmeta : btree_range_meta) : btree_op_err :=
  mk_btree_op_err id (ERR_OPTYPE_RQUERY (default [] (key_start rmeta)) (default [] (key_end rmeta)) (r_flags rmeta)).

Definition set_lasterror_rupdate (id : Z) (key : list byte) : btree_op_err := mk_btree_op_err id (ERR_OPTYPE_RUPDATE key).

Definition set_lasterror_single (id : Z) (key : list byte) (flags : Z) : btree_op_err :=
  mk_btree_op_err id (ERR_OPTYPE_SINGLE key flags).

(** The flag [g] when [flags] has [f]. *)
Definition flag_if (flags f g : Z) : Z := if has flags f then g else 0.

(** The query of [btree_raw_rescue_validate]. *)
Definition rescue_rmeta (junk : Z) (e : err_op) : option btree_range_meta :=
  let query := fun flags s e => mk_btree_range_meta flags junk junk s e junk junk in
  match e with
  | ERR_OPTYPE_UNKNOWN => None
  | ERR_OPTYPE_SINGLE key flags =>
      Some (query (flag_if flags RANGE_SEQNO_EQ RANGE_SEQNO_EQ .| flag_if flags RANGE_SEQNO_LE RANGE_SEQNO_LE
                     .| flag_if flags RANGE_SEQNO_GT_LE RANGE_SEQNO_GT_LE .| RANGE_START_GE .| RANGE_END_LE) (Some key) (Some key))
  | ERR_OPTYPE_RQUERY start_ end_ flags =>
      let clear := fun f => Z.land f (Z.lnot (RANGE_BUFFER_PROVIDED .| RANGE_ALLOC_IF_TOO_SMALL .| RANGE_INPLACE_POINTERS)) in
      Some (if has flags RANGE_START_GT || has flags RANGE_START_GE then query (clear flags) (Some start_) (Some end_)
            else query (clear (flag_if flags RANGE_START_LE RANGE_END_LE .| flag_if flags RANGE_START_LT RANGE_END_LT
                                 .| flag_if flags RANGE_END_GT RANGE_START_GT .| flag_if flags RANGE_END_GE RANGE_START_GE))
                       (Some end_) (Some start_))
  | ERR_OPTYPE_RUPDATE key => Some (query (RANGE_START_GE .| RANGE_END_LE) (Some key) None)
  end.

(** The first part of [btree_raw_rescue_validate], up to the start of the
    query: its status, or why there is none. *)
Definition rescue_validate_start (junk : Z) (lerr : btree_op_err) (cursors : list (option btree_range_cursor))
    (old : btree_range_cursor) : option (list (option btree_range_cursor) * btree_status) :=
  if le_logical_id lerr =? 0 then Some (cursors, BTREE_RESCUE_NOT_NEEDED)
  else
    match rescue_rmeta junk (op_type lerr) with
    | None => Some (cursors, BTREE_FAILURE)
    | Some rmeta =>
        r ← btree_raw_range_query_start cursors old rmeta;
        let '(cursors, status, _) := r in
        Some (cursors, if decide (status = BTREE_SUCCESS) then BTREE_SUCCESS else BTREE_FAILURE)
    end.

(** ** The validation by flags *)

Lemma land_bit flags k : 0 <= k -> Z.land flags (2 ^ k) = flag_if flags (2 ^ k) (2 ^ k).
Proof.
  intros Hk. unfold flag_if. rewrite has_bit by done. apply Z.bits_inj'. intros i Hi.
  rewrite Z.land_spec, Z.pow2_bits_eqb by done. destruct (Z.testbit flags k) eqn:E.
  - rewrite Z.pow2_bits_eqb by done. destruct (Z.eqb_spec k i) as [->|]; [by rewrite E|apply andb_false_r].
  - rewrite Z.bits_0. destruct (Z.eqb_spec k i) as [->|]; [by rewrite E|apply andb_false_r].
Qed.

(** At least two of the flags. *)
Definition two_of (a b c d : bool) : bool := (a && (b || c || d)) || (b && (c || d)) || (c && d).

Ltac by_flags :=
  unfold is_multiple_flags_set, all_start_flags, all_end_flags, RANGE_SEQNO_LE, RANGE_SEQNO_GT_LE,
    RANGE_START_GT, RANGE_START_GE, RANGE_START_LE, RANGE_START_LT, RANGE_END_GT, RANGE_END_GE, RANGE_END_LE, RANGE_END_LT;
  rewrite !Z.land_lor_distr_r, !land_bit by lia; unfold flag_if;
  repeat match goal with |- context [has ?f ?k] => destruct (has f k) end; reflexivity.

Lemma multiple_seqno f : is_multiple_flags_set f (RANGE_SEQNO_LE .| RANGE_SEQNO_GT_LE) = has f RANGE_SEQNO_LE && has f RANGE_SEQNO_GT_LE.
Proof. by_flags. Qed.
Lemma multiple_start f : is_multiple_flags_set f all_start_flags =
  two_of (has f RANGE_START_GT) (has f RANGE_START_GE) (has f RANGE_START_LE) (has f RANGE_START_LT).
Proof. by_flags. Qed.
Lemma multiple_end f : is_multiple_flags_set f all_end_flags =
  two_of (has f RANGE_END_GT) (has f RANGE_END_GE) (has f RANGE_END_LE) (has f RANGE_END_LT).
Proof. by_flags. Qed.
Lemma multiple_greater f : is_multiple_flags_set f (RANGE_START_GT .| RANGE_START_GE .| RANGE_END_GT .| RANGE_END_GE) =
  two_of (has f RANGE_START_GT) (has f RANGE_START_GE) (has f RANGE_END_GT) (has f RANGE_END_GE).
Proof. by_flags. Qed.
Lemma multiple_less f : is_multiple_flags_set f (RANGE_START_LT .| RANGE_START_LE .| RANGE_END_LT .| RANGE_END_LE) =
  two_of (has f RANGE_START_LT) (has f RANGE_START_LE) (has f RANGE_END_LT) (has f RANGE_END_LE).
Proof. by_flags. Qed.

(** A query is valid when each bound that is present has exactly one flag and
    the flags of the two bounds agree on the direction. *)
Definition valid_flags (f : Z) (s e : bool) : bool :=
  negb (has f RANGE_SEQNO_LE && has f RANGE_SEQNO_GT_LE) &&
  negb (two_of (has f RANGE_START_GT) (has f RANGE_START_GE) (has f RANGE_START_LE) (has f RANGE_START_LT)) &&
  negb (two_of (has f RANGE_END_GT) (has f RANGE_END_GE) (has f RANGE_END_LE) (has f RANGE_END_LT)) &&
  eqb (has f RANGE_START_GT || has f RANGE_START_GE || has f RANGE_START_LE || has f RANGE_START_LT) s &&
  eqb (has f RANGE_END_GT || has f RANGE_END_GE || has f RANGE_END_LE || has f RANGE_END_LT) e &&
  negb (two_of (has f RANGE_START_GT) (has f RANGE_START_GE) (has f RANGE_END_GT) (has f RANGE_END_GE)) &&
  negb (two_of (has f RANGE_START_LT) (has f RANGE_START_LE) (has f RANGE_END_LT) (has f RANGE_END_LE)).

Lemma validate_flags qm :
  validate_range_query qm =
  if valid_flags (r_flags qm) (bool_decide (is_Some (key_start qm))) (bool_decide (is_Some (key_end qm))) then BTREE_SUCCESS else BTREE_INVALID_QUERY.
Proof.
  unfold validate_range_query, valid_flags. rewrite multiple_seqno, multiple_start, multiple_end, multiple_greater, multiple_less.
  unfold all_start_flags, all_end_flags. rewrite !has_lor.
  destruct (has _ RANGE_SEQNO_LE && _); [done|].
  repeat match goal with |- context [two_of ?a ?b ?c ?d] => destruct (two_of a b c d) end;
  repeat match goal with |- context [eqb ?a ?b] => destruct (eqb a b) end; done.
Qed.

(** ** Which queries are repeated *)

Lemma rescue_start junk cursors old id e rmeta j :
  id <> 0 -> cursors !! j = Some None -> rescue_rmeta junk e = Some rmeta -> has (r_flags rmeta) RANGE_INPLACE_POINTERS = false ->
  exists cursors', rescue_validate_start junk (mk_btree_op_err id e) cursors old =
    Some (cursors', if decide (validate_range_query rmeta = BTREE_SUCCESS) then BTREE_SUCCESS else BTREE_FAILURE).
Proof.
  intros Hid Hj Hr Hi. unfold rescue_validate_start. cbn [le_logical_id op_type]. rewrite (proj2 (Z.eqb_neq _ _) Hid), Hr.
  unfold btree_raw_range_query_start, btree_range_query_start_fast. destruct (decide (validate_range_query rmeta = BTREE_SUCCESS)) as [|Hv].
  - destruct (list_find (fun c => c = None) cursors) as [[k x]|] eqn:Ef.
    + rewrite Hi. runs. rewrite decide_True by done. by eexists.
    + apply list_find_None in Ef. by rewrite Forall_lookup in Ef; specialize (Ef _ _ Hj).
  - runs. rewrite decide_False by done. by eexists.
Qed.

(** ** Theorems *)

Lemma clear_keeps flags mask f : Z.land (Z.lnot mask) f = f -> has (Z.land flags (Z.lnot mask)) f = has flags f.
Proof. intros E. unfold has. by rewrite <- Z.land_assoc, E. Qed.

(** a failed range query is repeated by the rescue of the tree only when
    both of its bounds were given. The record of the failure always has two
    keys, so the repeated query of a query with an open end has a key without
    a flag and is rejected. *)
Theorem rescue_needs_both_bounds junk cursors old id rmeta j :
  id <> 0 -> cursors !! j = Some None -> validate_range_query rmeta = BTREE_SUCCESS ->
  exists cursors', rescue_validate_start junk (set_lasterror_rquery id rmeta) cursors old =
    Some (cursors', if decide (is_Some (key_start rmeta) /\ is_Some (key_end rmeta)) then BTREE_SUCCESS else BTREE_FAILURE).
Proof.
  intros Hid Hj Hv. unfold set_lasterror_rquery.
  destruct (rescue_start junk cursors old id _ _ j Hid Hj (eq_refl (rescue_rmeta junk (ERR_OPTYPE_RQUERY (default [] (key_start rmeta))
    (default [] (key_end rmeta)) (r_flags rmeta))))) as (cursors' & ->).
  { destruct (_ || _); cbn [r_flags]; unfold has; by rewrite <- Z.land_assoc, Z.land_0_r. }
  exists cursors'. do 2 f_equal. rewrite validate_flags in Hv |- *.
  destruct (valid_flags (r_flags rmeta) _ _) eqn:Hok; [clear Hv|done]. unfold valid_flags in Hok.
  destruct (has (r_flags rmeta) RANGE_START_GT || has (r_flags rmeta) RANGE_START_GE) eqn:Hup; cbn [r_flags key_start key_end].
  - unfold valid_flags. rewrite !clear_keeps by done.
    destruct (key_start rmeta) as [a|], (key_end rmeta) as [b|]; cbn [default bool_decide] in *;
      destruct (has (r_flags rmeta) RANGE_START_GT), (has (r_flags rmeta) RANGE_START_GE); try done;
      destruct (has (r_flags rmeta) RANGE_START_LE), (has (r_flags rmeta) RANGE_START_LT); cbn in Hok; rewrite ?andb_false_r in Hok; try done;
      destruct (has (r_flags rmeta) RANGE_SEQNO_LE), (has (r_flags rmeta) RANGE_SEQNO_GT_LE); try done;
      destruct (has (r_flags rmeta) RANGE_END_GT), (has (r_flags rmeta) RANGE_END_GE), (has (r_flags rmeta) RANGE_END_LE),
        (has (r_flags rmeta) RANGE_END_LT); try done; cbn; repeat case_decide; naive_solver.
  - apply orb_false_iff in Hup as [H7 H8]. rewrite H7, H8 in Hok. unfold flag_if.
    destruct (key_start rmeta) as [a|], (key_end rmeta) as [b|]; cbn [default bool_decide] in *;
      destruct (has (r_flags rmeta) RANGE_START_LE), (has (r_flags rmeta) RANGE_START_LT); cbn in Hok; rewrite ?andb_false_r in Hok; try done;
      destruct (has (r_flags rmeta) RANGE_END_GT), (has (r_flags rmeta) RANGE_END_GE), (has (r_flags rmeta) RANGE_END_LE),
        (has (r_flags rmeta) RANGE_END_LT); cbn in Hok; rewrite ?andb_false_r in Hok; try done; vm_compute (valid_flags _ _ _); repeat case_decide; naive_solver.
Qed.

Lemma rescue_needs_both_bounds_witness :
  exists cursors', rescue_validate_start 0 (set_lasterror_rquery 11 (mk_btree_range_meta RANGE_START_GT 0 0 (Some [Byte.x31]) None 0 0))
      [None; None; None] (mk_btree_range_cursor (mk_btree_range_meta 0 0 0 None None 0 0) 1 None 0 None 0 false false 0 0 false)
    = Some (cursors', BTREE_FAILURE).
Proof. apply (rescue_needs_both_bounds 0 [None; None; None] _ 11 (mk_btree_range_meta RANGE_START_GT 0 0 (Some [Byte.x31]) None 0 0) 0); done. Defined.

(** The query that repeats a failed range update has a flag for an end key but
    no end key, and is always rejected. *)
Theorem rescue_of_update_fails junk cursors old id key j :
  id <> 0 -> cursors !! j = Some None ->
  exists cursors', rescue_validate_start junk (set_lasterror_rupdate id key) cursors old = Some (cursors', BTREE_FAILURE).
Proof.
  intros Hid Hj. unfold set_lasterror_rupdate.
  destruct (rescue_start junk cursors old id _ _ j Hid Hj (eq_refl (rescue_rmeta junk (ERR_OPTYPE_RUPDATE key))) eq_refl) as (cursors' & ->).
  by exists cursors'.
Qed.
