(* ===== verification/RangeFaults.v ===== *)
(** * Faults of range queries

    Descending queries end at a tombstone that is the first entry of a leaf,
    and queries into key buffers that are too small do not advance. *)

From stdpp Require Import gmap.
From S2P Require Import Prelude Status LeafMeta LeafNode LeafOps LeafCells LeafEncode LeafFixup LeafSpec LeafRefine LeafPlain LeafMove NodeSearch LeafTheorems NodeSearchSpec NonLeaf NonLeafSpec NodeTheorems TreeFlat PStats Overflow OverflowSpec OverflowTheorems Snapshot SnapshotSpec SnapshotTheorems Scavenger ScavengerTheorems Tree TreeSpec TreeTheorems TreeWrite TreeRequests Range RangeWalk RangeSpec RangeLeaf RangeTree RangeChunk RangeTheorems.

(** ** Descending queries and tombstones *)

(** What a step of a descending query does once a tombstone has been held
    back: nothing is returned, and the mark stays. *)
Definition silent (c : btree_range_cursor) (values : list btree_range_data)
    (r : option (btree_range_cursor * ov_state * btree_status * list btree_range_data)) : Prop :=
  forall c' st' ret values', r = Some (c', st', ret, values') ->
    is_tombstone c' = true /\ c_dir c' = c_dir c /\ values' = values /\ (ret = BTREE_SKIPPED \/ ret = BTREE_FAILURE).

Section silent.
Context (bt : btree_raw) (read_ret : Z -> btree_status) (allowed_fn : option (list byte -> bool)) (junk : Z).

Lemma continue_silent c st n index ks n_out values :
  is_tombstone c = true -> silent c values (continue_key_processing bt read_ret allowed_fn c st n index ks n_out values).
Proof using Type.
  intros Ht c' st' ret values'. unfold continue_key_processing. rewrite Ht. destruct (key_last_seq_unknown c); intros [= <- <- <- <-]; auto.
Qed.

Lemma store_keeps_mark c k c' : store_ts_key bt c k = Some c' -> is_tombstone c' = is_tombstone c /\ c_dir c' = c_dir c.
Proof using Type. unfold store_ts_key. by case_match; intros [= <-]. Qed.

Lemma copy_keeps_mark c st n index ks c' st' ret :
  copy_key_and_data_to_cursor bt read_ret c st n index ks = Some (c', st', ret) -> is_tombstone c = true ->
  is_tombstone c' = true /\ c_dir c' = c_dir c.
Proof using Type.
  unfold copy_key_and_data_to_cursor. intros H Ht.
  destruct (bytes_at (ts_key c) (ts_keylen c)) as [k|]; [cbn [mbind option_bind] in H|done]. destruct (_ =? 0); [by injection H as <- <- <-|].
  destruct (get_leaf_key_index _ _ _ _) as [[[s b] len]|]; [cbn [mbind option_bind] in H|done]. destruct (bytes_at b len) as [src|]; [cbn [mbind option_bind] in H|done].
  destruct (store_ts_key bt _ src) as [c1|] eqn:Es; [cbn [mbind option_bind] in H|done]. apply store_keeps_mark in Es.
  assert (is_tombstone c1 = true /\ c_dir c1 = c_dir c) as [Hc1 Hc2] by (destruct Es as [-> ->]; by destruct s).
  destruct (btree_leaf_get_meta n index) as [km|]; [cbn [mbind option_bind] in H|done]. destruct (tombstone km); [by injection H as <- <- <-|].
  destruct (has _ _).
  - case_decide; by injection H as <- <- <-.
  - destruct (get_leaf_data_index _ _ _ _ _ _ _ _) as [[[[st1 s1] d] l]|]; [cbn [mbind option_bind] in H|done]. destruct s1; by injection H as <- <- <-.
Qed.

Lemma chosen_silent c st n index km n_out values prev :
  is_tombstone c = true -> silent c values (fill_chosen bt read_ret allowed_fn c st n index km n_out values prev).
Proof using Type.
  intros Ht c' st' ret values' H. unfold fill_chosen in H. destruct (get_key_stuff_info2 n index) as [ks'|]; [cbn [mbind option_bind] in H|done].
  destruct (match prev with Some _ => _ | None => _ end) as [same|]; [cbn [mbind option_bind] in H|done].
  destruct (same || tombstone km); [injection H as <- <- <- <-; auto|]. by eapply continue_silent in H.
Qed.

Lemma newest_silent c st n index km ks n_out values prev :
  is_tombstone c = true -> silent c values (fill_newest bt read_ret allowed_fn junk c st n index km ks n_out values prev).
Proof using Type.
  intros Ht c' st' ret values' H. unfold fill_newest in H.
  destruct (bsearch_key_low _ _ _ _ _ _ _) as [[latest found]|]; [cbn [mbind option_bind] in H|done].
  destruct (_ && _); [|by eapply chosen_silent in H]. destruct (_ || _).
  - destruct (negb _); [|injection H as <- <- <- <-; auto].
    destruct (copy_key_and_data_to_cursor _ _ _ _ _ _ _) as [[[c1 st1] s1]|] eqn:Ec; [cbn [mbind option_bind] in H|done]. apply copy_keeps_mark in Ec as [? ?]; [|done].
    case_decide; injection H as <- <- <- <-; auto.
  - destruct (btree_leaf_get_meta n _) as [km'|]; [cbn [mbind option_bind] in H|done]. destruct (out_of_range _ _ _); [injection H as <- <- <- <-; auto|].
    by eapply chosen_silent in H.
Qed.

Lemma reverse_silent c st n index n_out values prev :
  is_tombstone c = true -> silent c values (fill_key_range_reverse bt read_ret allowed_fn junk c st n index n_out values prev).
Proof using Type.
  intros Ht c' st' ret values' H. unfold fill_key_range_reverse in H.
  destruct (assert_ _); [cbn [mbind option_bind] in H|done]. destruct n as [n|]; [|by eapply continue_silent in H].
  destruct (entry_at n index) as [[km ks]|]; [cbn [mbind option_bind] in H|done]. destruct (out_of_range _ _ _).
  { destruct (_ && _); [by eapply continue_silent in H|injection H as <- <- <- <-; auto]. }
  destruct (key_last_seq_unknown c); [|by eapply newest_silent in H].
  destruct (_ =? _); [injection H as <- <- <- <-; auto|].
  destruct (bytes_at _ _) as [k|]; [cbn [mbind option_bind] in H|done].
  destruct (if index =? nkeys n - 1 then _ else _) as [[]|]; [..|done]; cbn [mbind option_bind] in H.
  - by eapply newest_silent in H.
  - by eapply continue_silent in H.
Qed.

(** ** The rest of the query *)

(** Nothing has been added to the results. *)
Record no_more (o o' : range_out) : Prop := {
  nm_mark : is_tombstone (o_cursor o') = true;
  nm_dir : c_dir (o_cursor o') = c_dir (o_cursor o);
  nm_n : n_out o' = n_out o
}.

Lemma no_more_trans o1 o2 o3 : no_more o1 o2 -> no_more o2 o3 -> no_more o1 o3.
Proof using Type. intros [H1 H2 H3] [H4 H5 H6]. split; congruence. Qed.

Lemma populate_silent fuel : forall n cur_idx end_idx n_in o i o',
  is_tombstone (o_cursor o) = true -> c_dir (o_cursor o) < 0 ->
  populate_loop bt read_ret allowed_fn junk fuel n cur_idx end_idx n_in o = Some (i, o') -> no_more o o'.
Proof using Type.
  induction fuel as [|fuel IH]; intros n cur_idx end_idx n_in o i o' Ht Hd H; [done|]. cbn [populate_loop] in H.
  destruct (_ || _ || _); [injection H as <- <-; by split|].
  destruct (fill_key_range _ _ _ _ _ _ _ _ _ _ _) as [[[[c st] ret] values]|] eqn:Ef; [cbn [mbind option_bind] in H|done].
  unfold fill_key_range in Ef. rewrite (proj2 (Z.ltb_lt _ 0) Hd) in Ef.
  destruct (reverse_silent _ _ _ _ _ _ _ Ht _ _ _ _ Ef) as (Hm & Hcd & -> & [->| ->]).
  - rewrite decide_True in H by done. apply (no_more_trans _ (mk_range_out c st (n_out o) (o_values o) (o_status o))); [by split|].
    eapply IH; [| |exact H]; [done|]. cbn [o_cursor]. lia.
  - rewrite !decide_False in H by done. rewrite bool_decide_eq_true_2 in H by done. cbn [orb] in H.
    apply (no_more_trans _ (set_ostatus (mk_range_out c st (n_out o) (o_values o) (o_status o)) BTREE_FAILURE)); [by split|].
    eapply IH; [| |exact H]; [done|]. cbn. lia.
Qed.

Context (node_ret : Z -> btree_status).

Lemma loop_silent fuel : forall t n_in sp stack o sp' stack' o',
  is_tombstone (o_cursor o) = true -> c_dir (o_cursor o) < 0 ->
  get_next_loop bt read_ret node_ret allowed_fn junk fuel t n_in sp stack o = Some (sp', stack', o') -> no_more o o'.
Proof using Type.
  induction fuel as [|fuel IH]; intros t n_in sp stack o sp' stack' o' Ht Hd H; [done|]. cbn [get_next_loop] in H.
  destruct (_ || _); [injection H as <- <- <-; by split|].
  destruct (stack !! z2n sp) as [cur|]; [cbn [mbind option_bind] in H|done]. destruct (f_node cur) as [n|v].
  - destruct (n_in <=? _); [injection H as <- <- <-; by split|].
    destruct (_ <? _).
    { cbn [mbind option_bind] in H. apply (no_more_trans _ (set_ostatus o BTREE_FAILURE)); [by split|]. by eapply IH. }
    destruct (populate_output_array _ _ _ _ _ _ _ _ _) as [[i o1]|] eqn:Ep; [cbn [mbind option_bind] in H|done].
    pose proof (populate_silent _ _ _ _ _ _ _ _ Ht Hd Ep) as Hn. apply (no_more_trans _ o1); [done|].
    eapply IH; [by eapply nm_mark| |exact H]. rewrite (nm_dir _ _ Hn). lia.
  - destruct (f_cur cur =? f_end cur); [by eapply IH|].
    destruct (child_ptr _ _ _) as [id|]; [cbn [mbind option_bind] in H|done].
    destruct (get_existing_node _ _ _) as [[e|x]|]; [..|done]; cbn [mbind option_bind] in H; [injection H as <- <- <-; by split|].
    destruct (stack !! _) as [old|]; [cbn [mbind option_bind] in H|done].
    destruct (child_frame _ _ _ _ _ _) as [child|]; [cbn [mbind option_bind] in H|done]. by eapply IH.
Qed.

(** a descending query that has met a tombstone as the first entry of a
    leaf returns nothing any more: the mark it sets is never cleared, so every
    further chunk is empty, whatever keys are left in the range. *)
Theorem descending_query_stuck stack0 t c n_in values o :
  is_tombstone c = true -> c_dir c < 0 ->
  btree_range_get_next_fast bt read_ret node_ret allowed_fn junk stack0 t c n_in values = Some o -> n_out o = 0%nat.
Proof using Type.
  intros Ht Hd H. unfold btree_range_get_next_fast in H.
  destruct (btree_range_find_diversion _ _ _ _ _) as [d|]; [cbn [mbind option_bind] in H|done].
  set (o0 := mk_range_out (set_prior c false) (t_ov t) 0 values BTREE_SUCCESS) in H.
  destruct (match d with inl _ => _ | inr _ => _ end) as [[[sp stack] o1]|] eqn:El; [cbn [mbind option_bind] in H|done].
  assert (no_more o0 o1) as H1.
  { destruct d as [e|[[x s] e]]; [by injection El as <- <- <-|]. by eapply loop_silent in El. }
  destruct (if _ && _ && _ && _ then _ else _) as [o2|] eqn:E2; [cbn [mbind option_bind] in H|done].
  assert (no_more o1 o2) as H2.
  { destruct (_ && _ && _ && _); [|injection E2 as <-; split; [by eapply nm_mark|done|done]]. unfold populate_output_array in E2.
    destruct (fill_key_range_reverse _ _ _ _ _ _ _ _ _ _ _) as [[[[c' st'] ret] vs]|] eqn:Ef; [|done].
    cbn [mbind option_bind snd] in E2. injection E2 as <-.
    destruct (reverse_silent _ _ _ _ _ _ _ (nm_mark _ _ H1) _ _ _ _ Ef) as (Hm & Hcd & -> & [->| ->]); by split. }
  assert (n_out o2 = 0%nat) as Hn by (rewrite (nm_n _ _ H2), (nm_n _ _ H1); done).
  assert (n_out (if negb (fatal (o_status o2)) && (n_out o2 =? 0)%nat then set_ostatus o2 BTREE_QUERY_DONE else o2) = 0%nat) as E0 by (destruct (negb (fatal (o_status o2)) && (n_out o2 =? 0)%nat); done).
  destruct (_ || _ || _); [by injection H as <-|]. unfold store_last_key in H. by rewrite E0 in H.
Qed.
End silent.

(** ** Concrete descending query *)

(** [ab1], [ab2] on the left; a deleted [ab3] and [ab4] on the right. *)
Definition es_dead : list entry := [mk_entry (key_ab Byte.x33) 0 [] 0 9 true; entry_ab Byte.x34 10].
Definition nodes_dead : gmap Z tnode :=
  <[5 := TNonLeaf (nl_page (bt_8k true) [mk_nent (key_ab Byte.x32) 11 8] 12)]>
    (<[11 := TLeaf (leaf_page 11 es_l)]> (<[12 := TLeaf (leaf_page 12 es_dead)]> ∅)).
Definition tree_dead : tree :=
  mk_tree 5 nodes_dead st_two (mk_scav_stats 0 0) stat0 [] (mk_storage 5 nodes_dead (ov_nodes st_two)).

(** From [ab4] down. *)
Definition down_4 : btree_range_meta := mk_btree_range_meta RANGE_START_LE 0 0 (Some (key_ab Byte.x34)) None 0 0.
Definition down_cursor : btree_range_cursor := mk_btree_range_cursor down_4 (-1) (Some []) 0 None 0 true false 0 0 false.

Definition next_ab (t : tree) (c : btree_range_cursor) (values : list btree_range_data) : option range_out :=
  btree_range_get_next_fast (bt_8k true) ret_ok ret_ok None 5 dirty_stack t c (lenZ values) values.
Definition no_out : range_out := mk_range_out old_cursor (t_ov tree_ab) 0 [] BTREE_FAILURE.
Definition after_next (t : tree) (c : btree_range_cursor) (values : list btree_range_data) : range_out := default no_out (next_ab t c values).

Lemma after_next_ok t c values : (if next_ab t c values then true else false) = true -> next_ab t c values = Some (after_next t c values).
Proof. unfold after_next. by destruct (next_ab t c values). Qed.

(** The first chunk is [ab4] alone, the second one is empty. *)
Lemma descending_query_stuck_witness :
  exists c o o', btree_raw_range_query_start [None] old_cursor down_4 = Some ([Some c], BTREE_SUCCESS, Some 0%nat) /\
    next_ab tree_dead c [no_result; no_result] = Some o /\
    rd_key <$> take (n_out o) (o_values o) = [Some (key_ab Byte.x34)] /\
    next_ab tree_dead (o_cursor o) [no_result; no_result] = Some o' /\ o_status o' = BTREE_QUERY_DONE /\ n_out o' = 0%nat.
Proof.
  set (o := after_next tree_dead down_cursor [no_result; no_result]).
  set (o' := after_next tree_dead (o_cursor o) [no_result; no_result]).
  assert (next_ab tree_dead (o_cursor o) [no_result; no_result] = Some o') as E by (apply after_next_ok; by vm_compute).
  exists down_cursor, o, o'. split; [done|]. split; [apply after_next_ok; by vm_compute|]. split; [by vm_compute|]. split; [done|].
  split; [by vm_compute|]. by eapply descending_query_stuck; [| |exact E]; vm_compute.
Defined.

(** ** Small key buffers *)

(** All of the tree, into a key buffer of four bytes. *)
Definition small_meta : btree_range_meta := mk_btree_range_meta (RANGE_BUFFER_PROVIDED .| RANGE_KEYS_ONLY) 4 0 None None 0 0.
Definition small_result (old : list byte) : btree_range_data := mk_btree_range_data BTREE_RANGE_STATUS_NONE (Some old) 0 None 0.
Definition small_cursor : btree_range_cursor := mk_btree_range_cursor small_meta 1 (Some []) 0 None 0 true false 0 0 false.
Definition zeros4 : list byte := replicate 4 Byte.x00.

(** The key of every result, and its status. *)
Definition keys_of (o : range_out) : list (option (list byte) * Z) := (fun v => (rd_key v, rd_status v)) <$> take (n_out o) (o_values o).

(** a chunk whose key buffers are too small leaves them as they were and
    reports it per entry, but takes the contents of the last buffer for the
    last key: with zeroed buffers the next chunk starts before the first key
    again, and so does every later one. The cursor after the second chunk is
    the cursor after the first. *)
Theorem small_buffer_query_repeats :
  exists c o o', btree_raw_range_query_start [None] old_cursor small_meta = Some ([Some c], BTREE_SUCCESS, Some 0%nat) /\
    next_ab tree_ab c [small_result zeros4; small_result zeros4] = Some o /\ n_out o = 2%nat /\
    o_status o = BTREE_WARNING /\ keys_of o = replicate 2 (Some zeros4, BTREE_KEY_BUFFER_TOO_SMALL) /\
    key_start (query_meta (o_cursor o)) = Some zeros4 /\
    next_ab tree_ab (o_cursor o) (o_values o) = Some o' /\ keys_of o' = keys_of o /\ o_cursor o' = o_cursor o.
Proof.
  set (o := after_next tree_ab small_cursor [small_result zeros4; small_result zeros4]).
  exists small_cursor, o, (after_next tree_ab (o_cursor o) (o_values o)). split; [done|].
  split; [apply after_next_ok; by vm_compute|]. do 4 (split; [by vm_compute|]).
  split; [apply after_next_ok; by vm_compute|]. split; by vm_compute.
Qed.

(** ** Crashes of descending queries *)

(** Two versions of [ab2], one at the end of the left leaf and one at the start
    of the right leaf. *)
Definition es_v1 : list entry := [entry_ab Byte.x31 7; entry_ab Byte.x32 10].
Definition es_v2 : list entry := [entry_ab Byte.x32 8; entry_ab Byte.x33 9].
Definition nodes_v : gmap Z tnode :=
  <[5 := TNonLeaf (nl_page (bt_8k true) [mk_nent (key_ab Byte.x32) 11 10] 12)]>
    (<[11 := TLeaf (leaf_page 11 es_v1)]> (<[12 := TLeaf (leaf_page 12 es_v2)]> ∅)).
Definition tree_v : tree := mk_tree 5 nodes_v st_two (mk_scav_stats 0 0) stat0 [] (mk_storage 5 nodes_v (ov_nodes st_two)).

(** A new descending query with these flags, over the whole tree. *)
Definition down_meta (flags : Z) : btree_range_meta :=
  mk_btree_range_meta (RANGE_START_LE .| flags) 100 100 (Some (key_ab Byte.x39)) None 0 0.
Definition down_from (flags : Z) : btree_range_cursor :=
  mk_btree_range_cursor (down_meta flags) (-1) (Some []) 0 None 0 true false 0 0 false.
Definition wide : btree_range_data :=
  mk_btree_range_data BTREE_RANGE_STATUS_NONE (Some (replicate 100 Byte.x00)) 0 (Some (replicate 100 Byte.x00)) 0.

(** holding back the first entry of a leaf follows a null pointer in two
    cases: in every query into (nonempty) buffers of the application that do not grow,
    since no buffer is provided for the key that is held back, and after the
    query has found a newer version of a held key in the next leaf, which
    drops the buffer of the cursor for good. *)
Theorem descending_query_crashes bt read_ret c st n index ks k :
  bytes_at (ts_key c) (ts_keylen c) = Some k -> cmp_cb bt k (ks_key ks) <> 0 -> ks_key ks <> [] ->
  ts_key c = None \/ has (r_flags (query_meta c)) RANGE_BUFFER_PROVIDED = true /\
    has (r_flags (query_meta c)) RANGE_ALLOC_IF_TOO_SMALL = false /\ has (r_flags (query_meta c)) RANGE_INPLACE_POINTERS = false /\ keybuf_size (query_meta c) <> 0 ->
  copy_key_and_data_to_cursor bt read_ret c st n index ks = None.
Proof.
  intros Hk Hc Hn Hcase. unfold copy_key_and_data_to_cursor. rewrite Hk. cbn [mbind option_bind]. rewrite (proj2 (Z.eqb_neq _ _) Hc).
  destruct (get_leaf_key_index _ _ _ _) as [[[s b] len]|] eqn:Eg; [cbn [mbind option_bind]|done].
  destruct (bytes_at b len) as [src|] eqn:Eb; [cbn [mbind option_bind]|done]. destruct Hcase as [Hnone|(Hb & Ha & Hi & Hz)].
  - assert (forall c1, ts_key c1 = None -> store_ts_key bt c1 src = None) as Hs.
    { intros c1 H1. unfold store_ts_key. rewrite H1, orb_true_r. done. }
    rewrite Hs; [done|]. by case_decide.
  - exfalso. unfold get_leaf_key_index, meta_flags_of, keybuf_of in Eg. rewrite !has_land, Hi, Hb, Ha in Eg by done. cbn [negb] in Eg.
    destruct (keybuf_size (query_meta c) <? lenZ (ks_key ks)).
    + injection Eg as <- <- <-. unfold bytes_at in Eb. by rewrite (proj2 (Z.eqb_neq _ _) Hz) in Eb.
    + unfold write_at in Eg. by destruct (ks_key ks).
Qed.

(** The first entry of a leaf of [tree_ab], in a new query into buffers; the
    first entry of the left leaf of [tree_v], after a chunk of two entries. *)
Lemma descending_query_crashes_witness :
  (btree_raw_range_query_start [None] old_cursor (down_meta RANGE_BUFFER_PROVIDED) =
     Some ([Some (down_from RANGE_BUFFER_PROVIDED)], BTREE_SUCCESS, Some 0%nat) /\
   get_key_stuff_info2 (leaf_page 12 es_r) 0 = Some (mk_key_stuff_info (key_ab Byte.x33) 0 2 9 true) /\
   copy_key_and_data_to_cursor (bt_8k true) ret_ok (down_from RANGE_BUFFER_PROVIDED) st_two (leaf_page 12 es_r) 0
     (mk_key_stuff_info (key_ab Byte.x33) 0 2 9 true) = None) /\
  (let o := after_next tree_v (down_from 0) [wide; wide] in
   n_out o = 2%nat /\ get_key_stuff_info2 (leaf_page 11 es_v1) 0 = Some (mk_key_stuff_info (key_ab Byte.x31) 0 2 7 true) /\
   copy_key_and_data_to_cursor (bt_8k true) ret_ok (o_cursor o) st_two (leaf_page 11 es_v1) 0
     (mk_key_stuff_info (key_ab Byte.x31) 0 2 7 true) = None).
Proof.
  split; cbn zeta; (split; [by vm_compute|split; [by vm_compute|]]).
  - apply (descending_query_crashes _ _ _ _ _ _ _ []); [by vm_compute|done|done|]. right. do 3 (split; [by vm_compute|]). done.
  - apply (descending_query_crashes _ _ _ _ _ _ _ []); [by vm_compute|done|done|]. left. by vm_compute.
Defined.
