(* ===== verification/HashTable.v ===== *)
(** * The object directory of a shard (ssd/fifo/hash.c)

    A shard finds its objects through a hash table in memory. A bucket is a
    chain of nodes of four entries each; an entry holds 16 bits of the hash,
    the container and the block address of an object, whose key is on flash.
    Only the first node of a chain has free entries. Nodes that become empty go
    to a free list of their lock; new ones come from that list, from the unused
    part of the node table, or from the list of another lock. Depending on the
    mode, a table leads from a block address back to the hash index, and a cache
    holds the keys of eight bytes.

    Pointers to nodes are numbers as in the source: 0 is the end of a chain, and
    [i + 1] the node [i]. A pointer to an entry is a node and a place in it.
    [None] stands for a failed assertion, a call of [plat_abort] or an access
    outside an array. Memory does not run out. The shift [1 << n] of the bit
    maps is one of 32 bits; for [n] from 32 on the model has what the machine
    does, which takes [n] modulo 32. *)

From S2P Require Import Prelude Hash.

(** ** Constants and data *)

Definition OSD_HASH_ENTRY_PER_BUCKET_ENTRY : nat := 4.
Definition OSD_HASH_BUCKET_SIZE : Z := 16.
Definition OSD_HASH_SYN_SHIFT : Z := 48.
Definition OSD_HASH_LOCK_BUCKETS : Z := 262144.
Definition OSD_HASH_LOCKBKT_MINSIZE : Z := 256.
Definition Mcd_osd_bucket_size : Z := OSD_HASH_BUCKET_SIZE.

Record hash_entry := mk_hash_entry {
  used : bool;
  he_deleted : bool;
  referenced : bool;
  reserved : bool;
  blocks : Z;
  hesyndrome : Z;
  blkaddress : Z;
  cntr_id : Z
}.

Record bucket_entry := mk_bucket_entry {
  be_entries : list hash_entry;
  be_next : Z
}.

(** Without the locks and the accounting of memory. *)
Record hash_handle := mk_hash_handle {
  bkti_l2_size : Z;
  bkti_l2_mask : Z;
  addr_table : option (list Z);
  hash_size : Z;
  hash_table : list bucket_entry;
  hash_table_idx : Z;
  max_hash_table_idx : Z;
  hash_buckets : list Z;
  lock_bktsize : Z;
  lock_buckets : Z;
  bucket_locks_free_list : list Z;
  bucket_locks_free_map : list Z;
  key_cache : option (list (option (list Z)));
  alloc_count : Z
}.

(** A pointer to an entry: the index of its node and its place there. *)
Abbreviation heptr := (nat * nat)%type.

Definition no_entry : hash_entry := mk_hash_entry false false false false 0 0 0 0.
Definition new_node : bucket_entry := mk_bucket_entry (replicate OSD_HASH_ENTRY_PER_BUCKET_ENTRY no_entry) 0.

Definition set_addr_table (h : hash_handle) (t : option (list Z)) : hash_handle :=
  mk_hash_handle (bkti_l2_size h) (bkti_l2_mask h) t (hash_size h) (hash_table h) (hash_table_idx h) (max_hash_table_idx h)
    (hash_buckets h) (lock_bktsize h) (lock_buckets h) (bucket_locks_free_list h) (bucket_locks_free_map h) (key_cache h) (alloc_count h).
Definition set_table (h : hash_handle) (t : list bucket_entry) : hash_handle :=
  mk_hash_handle (bkti_l2_size h) (bkti_l2_mask h) (addr_table h) (hash_size h) t (hash_table_idx h) (max_hash_table_idx h)
    (hash_buckets h) (lock_bktsize h) (lock_buckets h) (bucket_locks_free_list h) (bucket_locks_free_map h) (key_cache h) (alloc_count h).
Definition set_table_idx (h : hash_handle) (i : Z) : hash_handle :=
  mk_hash_handle (bkti_l2_size h) (bkti_l2_mask h) (addr_table h) (hash_size h) (hash_table h) i (max_hash_table_idx h)
    (hash_buckets h) (lock_bktsize h) (lock_buckets h) (bucket_locks_free_list h) (bucket_locks_free_map h) (key_cache h) (alloc_count h).
Definition set_buckets (h : hash_handle) (l : list Z) : hash_handle :=
  mk_hash_handle (bkti_l2_size h) (bkti_l2_mask h) (addr_table h) (hash_size h) (hash_table h) (hash_table_idx h) (max_hash_table_idx h)
    l (lock_bktsize h) (lock_buckets h) (bucket_locks_free_list h) (bucket_locks_free_map h) (key_cache h) (alloc_count h).
Definition set_free_list (h : hash_handle) (l : list Z) : hash_handle :=
  mk_hash_handle (bkti_l2_size h) (bkti_l2_mask h) (addr_table h) (hash_size h) (hash_table h) (hash_table_idx h) (max_hash_table_idx h)
    (hash_buckets h) (lock_bktsize h) (lock_buckets h) l (bucket_locks_free_map h) (key_cache h) (alloc_count h).
Definition set_free_map (h : hash_handle) (m : list Z) : hash_handle :=
  mk_hash_handle (bkti_l2_size h) (bkti_l2_mask h) (addr_table h) (hash_size h) (hash_table h) (hash_table_idx h) (max_hash_table_idx h)
    (hash_buckets h) (lock_bktsize h) (lock_buckets h) (bucket_locks_free_list h) m (key_cache h) (alloc_count h).
Definition set_key_cache (h : hash_handle) (c : option (list (option (list Z)))) : hash_handle :=
  mk_hash_handle (bkti_l2_size h) (bkti_l2_mask h) (addr_table h) (hash_size h) (hash_table h) (hash_table_idx h) (max_hash_table_idx h)
    (hash_buckets h) (lock_bktsize h) (lock_buckets h) (bucket_locks_free_list h) (bucket_locks_free_map h) c (alloc_count h).
Definition set_alloc_count (h : hash_handle) (n : Z) : hash_handle :=
  mk_hash_handle (bkti_l2_size h) (bkti_l2_mask h) (addr_table h) (hash_size h) (hash_table h) (hash_table_idx h) (max_hash_table_idx h)
    (hash_buckets h) (lock_bktsize h) (lock_buckets h) (bucket_locks_free_list h) (bucket_locks_free_map h) (key_cache h) n.

(** ** Arrays *)

(** An element of an array, and an assignment to one. *)
Definition at_ {A} (l : list A) (i : Z) : option A := if i <? 0 then None else l !! z2n i.
Definition put_ {A} (l : list A) (i : Z) (x : A) : option (list A) :=
  if (0 <=? i) && (i <? lenZ l) then Some (<[z2n i := x]> l) else None.

(** ** Bit maps *)

(** [1 << (pos % 64)] as an [int], then as a word of 64 bits. *)
Definition bit_int (pos : Z) : Z := i32 (Z.shiftl 1 (pos mod 64 mod 32)).

Definition map_bit_set (map : list Z) (pos : Z) : option (list Z) :=
  word ← at_ map (pos / 64);
  put_ map (pos / 64) (Z.lor word (u64 (bit_int pos))).

Definition map_bit_unset (map : list Z) (pos : Z) : option (list Z) :=
  word ← at_ map (pos / 64);
  put_ map (pos / 64) (Z.land word (u64 (Z.lnot (bit_int pos)))).

Definition map_bit_isset (map : list Z) (pos : Z) : option bool :=
  word ← at_ map (pos / 64);
  Some (negb (Z.land word (u64 (bit_int pos)) =? 0)).

(** ** The hash of an object *)

(** [hashb] of utils/hash.c is the algorithm of [btree_hash_int]. *)
Definition hashb (k : list byte) (level : Z) : Z := btree_hash_int k level.

Definition hashck (key : list byte) (level cntr : Z) : Z := u64 (hashb key level + cntr * OSD_HASH_BUCKET_SIZE).

(** ** Sizes *)

Fixpoint log2i_loop (fuel : nat) (n l : Z) : Z :=
  match fuel with
  | O => l
  | S fuel => if n =? 0 then l else log2i_loop fuel (Z.shiftr n 1) (l + 1)
  end.
Definition log2i (n : Z) : Z := log2i_loop 64 (Z.shiftr n 1) 0.

(** More hash indexes per lock, until there are few enough locks. *)
Fixpoint fewer_locks (fuel : nat) (bktsize buckets : Z) : Z * Z :=
  match fuel with
  | O => (bktsize, buckets)
  | S fuel => if OSD_HASH_LOCK_BUCKETS <? buckets then fewer_locks fuel (i32 (bktsize * 2)) (buckets / 2) else (bktsize, buckets)
  end.

(** Fewer hash indexes per lock, until there are many locks. *)
Fixpoint more_locks (fuel : nat) (bktsize buckets : Z) : Z * Z :=
  match fuel with
  | O => (bktsize, buckets)
  | S fuel => if (buckets <? 32768) && (Mcd_osd_bucket_size <=? bktsize / 2)
              then more_locks fuel (bktsize / 2) (u64 (buckets * 2)) else (bktsize, buckets)
  end.

Section directory.
Context (Mcd_osd_blk_size Mcd_osd_segment_blks Mcd_osd_segment_size : Z) (storm_mode : bool).

(** The number of objects a shard of this size is made for. *)
Definition init_hash_size (total_size max_nobjs : Z) : Z :=
  let n := total_size / Mcd_osd_blk_size in
  let n := if (0 <? max_nobjs) && (max_nobjs <? n)
           then (max_nobjs + Mcd_osd_segment_blks - 1) / Mcd_osd_segment_blks * Mcd_osd_segment_blks else n in
  n + n / 4.

Definition init_locks (size : Z) : Z * Z :=
  let '(bktsize, buckets) := fewer_locks 64 OSD_HASH_LOCKBKT_MINSIZE ((size + OSD_HASH_LOCKBKT_MINSIZE - 1) / OSD_HASH_LOCKBKT_MINSIZE) in
  more_locks 64 bktsize buckets.

(** The cache of keys: in storm mode its segments are allocated on use;
    otherwise they are slices of one array, with the contents [junk]. *)
Definition init_key_cache (junk : nat -> Z) (total_size : Z) : list (option (list Z)) :=
  let segs := z2n (total_size / Mcd_osd_segment_size + 1) in
  let total_blks := z2n (total_size / Mcd_osd_blk_size) in
  let blks := z2n Mcd_osd_segment_blks in
  (fun s => if storm_mode || negb (s * blks <? total_blks)%nat then None
            else Some (junk <$> seq (s * blks) (Nat.min blks (total_blks - s * blks)))) <$> seq 0 segs.

(** The handle, or [None] for the null pointer. *)
Definition hash_table_init (junk : nat -> Z) (total_size max_nobjs : Z) (kc : bool) : option hash_handle :=
  if (total_size =? 0) && (max_nobjs =? 0) then None
  else
    let size := init_hash_size total_size max_nobjs in
    let l2_size := log2i (size / OSD_HASH_BUCKET_SIZE) in
    let '(bktsize, buckets) := init_locks size in
    let size := if size <? bktsize * buckets then bktsize * buckets else size in
    let max_idx := u32 (size / n2z OSD_HASH_ENTRY_PER_BUCKET_ENTRY + size / OSD_HASH_BUCKET_SIZE) in
    Some (mk_hash_handle l2_size (u64 (i32 (i32 (Z.shiftl 1 (l2_size mod 32)) - 1)))
            (if storm_mode then None else Some (replicate (z2n (total_size / Mcd_osd_blk_size)) 0))
            size (replicate (z2n max_idx) new_node) 0 max_idx
            (replicate (z2n (size / OSD_HASH_BUCKET_SIZE)) 0) bktsize buckets
            (replicate (z2n buckets) 0) (replicate (z2n ((buckets + 64 - 1) / 64)) 0)
            (if kc then Some (init_key_cache junk total_size) else None) 0).

(** ** The cache of keys *)

Definition keycache_set (h : hash_handle) (blkaddr key : Z) : option hash_handle :=
  cache ← key_cache h;
  seg ← at_ cache (blkaddr / Mcd_osd_segment_blks);
  let words := default (replicate (z2n Mcd_osd_segment_blks) 0) seg in
  words ← put_ words (blkaddr mod Mcd_osd_segment_blks) key;
  cache ← put_ cache (blkaddr / Mcd_osd_segment_blks) (Some words);
  Some (set_key_cache h (Some cache)).

Definition keycache_get (h : hash_handle) (blkaddr : Z) : option Z :=
  cache ← key_cache h;
  seg ← at_ cache (blkaddr / Mcd_osd_segment_blks);
  match seg with
  | Some words => at_ words (blkaddr mod Mcd_osd_segment_blks)
  | None => Some 0
  end.

(** ** Entries *)

Definition read_entry (h : hash_handle) (p : heptr) : option hash_entry :=
  be ← hash_table h !! p.1; be_entries be !! p.2.

(** [hash_entry_copy]; without a source the entry is cleared. *)
Definition hash_entry_copy (h : hash_handle) (dst : heptr) (src : option hash_entry) : option hash_handle :=
  be ← hash_table h !! dst.1;
  _ ← be_entries be !! dst.2;
  Some (set_table h (<[dst.1 := mk_bucket_entry (<[dst.2 := default no_entry src]> (be_entries be)) (be_next be)]> (hash_table h))).

Definition set_next (h : hash_handle) (i : nat) (next : Z) : option hash_handle :=
  be ← hash_table h !! i;
  Some (set_table h (<[i := mk_bucket_entry (be_entries be) next]> (hash_table h))).

Definition set_addr (h : hash_handle) (addr v : Z) : option hash_handle :=
  match addr_table h with
  | Some t => t ← put_ t addr v; Some (set_addr_table h (Some t))
  | None => Some h
  end.

Definition add_alloc (h : hash_handle) (n : Z) : hash_handle := set_alloc_count h (u64 (alloc_count h + n)).

(** ** Searching a chain *)

(** The first place from [i] on whose entry passes the test. *)
Fixpoint find_slot (test : hash_entry -> option bool) (es : list hash_entry) (i : nat) : option (option nat) :=
  match es with
  | [] => Some None
  | e :: es => b ← test e; if (b : bool) then Some (Some i) else find_slot test es (S i)
  end.

(** The first entry of the chain [idx] that is in use and passes the test. *)
Fixpoint find_entry (fuel : nat) (table : list bucket_entry) (idx : Z) (test : hash_entry -> option bool)
    : option (option heptr) :=
  if idx =? 0 then Some None
  else
    match fuel with
    | O => None
    | S fuel =>
        be ← at_ table (idx - 1);
        r ← find_slot (fun e => if used e then test e else Some false) (be_entries be) 0;
        match r with
        | Some i => Some (Some (z2n (idx - 1), i))
        | None => find_entry fuel table (be_next be) test
        end
    end.

Definition chain_fuel (h : hash_handle) : nat := length (hash_table h).

(** The bucket and the lock of a hash. *)
Definition bucket_of_syn (h : hash_handle) (syndrome : Z) : Z := syndrome mod hash_size h / OSD_HASH_BUCKET_SIZE.
Definition lock_of_syn (h : hash_handle) (syndrome : Z) : Z := syndrome mod hash_size h / lock_bktsize h.

Inductive lock_mode := SYN | ADDR.

(** The index of the lock. *)
Definition hash_table_find_lock (h : hash_handle) (hint : Z) (mode : lock_mode) : option Z :=
  match mode with
  | SYN => Some (lock_of_syn h hint)
  | ADDR => t ← addr_table h; i ← at_ t (u32 hint); Some (i / lock_bktsize h)
  end.

(** ** Lookup *)

Section lookup.
(** The key in the object at a block address, when it can be read. *)
Context (onflash : Z -> option (list byte)).

Definition mcd_onflash_key_match (addr : Z) (key : list byte) : bool := bool_decide (onflash addr = Some key).

(** The test of the loop, after [used]. *)
Definition key_matches (h : hash_handle) (key : list byte) (cntr syndrome : Z) (e : hash_entry) : option bool :=
  if negb (cntr_id e =? cntr) then Some false
  else if negb (u16 (Z.shiftr syndrome OSD_HASH_SYN_SHIFT) =? hesyndrome e) then Some false
  else
    tmpkey ← (if (lenZ key =? 8) && bool_decide (is_Some (key_cache h)) then keycache_get h (blkaddress e) else Some 0);
    Some (if negb (tmpkey =? 0) then le_combine key =? tmpkey else mcd_onflash_key_match (blkaddress e) key).

Definition hash_table_get (h : hash_handle) (key : list byte) (cntr : Z) : option (option heptr) :=
  if (lenZ key =? 0) || (cntr =? 0) then Some None
  else
    let syndrome := hashck key 0 cntr in
    idx ← at_ (hash_buckets h) (bucket_of_syn h syndrome);
    find_entry (chain_fuel h) (hash_table h) idx (key_matches h key cntr syndrome).
End lookup.

(** The entry with a block address, in the chain of a hash. *)
Definition hash_entry_insert_by_addr (h : hash_handle) (addr syndrome : Z) : option (option heptr) :=
  idx ← at_ (hash_buckets h) (bucket_of_syn h syndrome);
  find_entry (chain_fuel h) (hash_table h) idx (fun e => Some (addr =? blkaddress e)).

Definition obj_valid (h : hash_handle) (key : list byte) (cguid addr : Z) : option bool :=
  let syndrome := hashck key 0 cguid in
  let hashsyn := u16 (Z.shiftr syndrome OSD_HASH_SYN_SHIFT) in
  idx ← at_ (hash_buckets h) (bucket_of_syn h syndrome);
  r ← find_entry (chain_fuel h) (hash_table h) idx (fun e => Some ((hesyndrome e =? hashsyn) && (blkaddress e =? addr)));
  Some (bool_decide (is_Some r)).

(** ** Insertion *)

Definition unused_slot (be : bucket_entry) : option nat := fst <$> list_find (fun e => used e = false) (be_entries be).

(** Move the first node of the free list of lock [lock_idx] to the front of
    the bucket [bucket]; its first entry. *)
Definition pop_free (h : hash_handle) (lock_idx bucket : Z) : option (option heptr * hash_handle) :=
  set_ ← map_bit_isset (bucket_locks_free_map h) lock_idx;
  pop_idx ← at_ (bucket_locks_free_list h) lock_idx;
  if (set_ : bool) && negb (pop_idx =? 0) then
    be ← at_ (hash_table h) (pop_idx - 1);
    fl ← put_ (bucket_locks_free_list h) lock_idx (be_next be);
    m ← (if be_next be =? 0 then map_bit_unset (bucket_locks_free_map h) lock_idx else Some (bucket_locks_free_map h));
    head ← at_ (hash_buckets h) bucket;
    h ← set_next (set_free_map (set_free_list h fl) m) (z2n (pop_idx - 1)) head;
    bs ← put_ (hash_buckets h) bucket pop_idx;
    Some (Some (z2n (pop_idx - 1), 0%nat), add_alloc (set_buckets h bs) 1)
  else Some (None, h).

(** The lists of the locks [i], [i + 1], ... in turn. *)
Fixpoint pop_other (n : nat) (h : hash_handle) (i bucket : Z) : option (option heptr * hash_handle) :=
  match n with
  | O => Some (None, h)
  | S n =>
      set_ ← map_bit_isset (bucket_locks_free_map h) i;
      if (set_ : bool) then
        r ← pop_free h i bucket;
        match r with
        | (Some p, h) => Some (Some p, h)
        | (None, _) => pop_other n h (i + 1) bucket
        end
      else pop_other n h (i + 1) bucket
  end.

(** A free entry in the first node of the bucket of a hash. *)
Definition hash_entry_insert_by_key (h : hash_handle) (syndrome : Z) : option (option heptr * hash_handle) :=
  let bucket := bucket_of_syn h syndrome in
  let lock_idx := lock_of_syn h syndrome in
  head ← at_ (hash_buckets h) bucket;
  slot ← (if negb (head =? 0) then be ← at_ (hash_table h) (head - 1); Some (unused_slot be) else Some None);
  match slot with
  | Some i => Some (Some (z2n (head - 1), i), add_alloc h 1)
  | None =>
      r ← pop_free h lock_idx bucket;
      match r with
      | (Some p, h) => Some (Some p, h)
      | (None, _) =>
          if hash_table_idx h <? max_hash_table_idx h then
            let pop_idx := hash_table_idx h in
            let h := set_table_idx h (u32 (pop_idx + 1)) in
            h ← set_next h (z2n pop_idx) head;
            bs ← put_ (hash_buckets h) bucket (u32 (pop_idx + 1));
            Some (Some (z2n pop_idx, 0%nat), add_alloc (set_buckets h bs) 1)
          else pop_other (z2n (lock_bktsize h)) h 0 bucket
      end
  end.

(** An object found by the recovery of a shard. *)
Record mcd_rec_flash_object := mk_mcd_rec_flash_object {
  osyndrome : Z;
  o_deleted : bool;
  o_blocks : Z;
  obucket : Z;
  o_cntr_id : Z
}.

Definition hash_entry_recovery_insert (total_segments : Z) (h : hash_handle) (obj : mcd_rec_flash_object) (blk_offset : Z)
    : option (heptr * hash_handle) :=
  let bucket := if storm_mode then obucket obj else obucket obj / OSD_HASH_BUCKET_SIZE in
  head ← at_ (hash_buckets h) bucket;
  slot ← (if negb (head =? 0) then be ← at_ (hash_table h) (head - 1); Some (unused_slot be) else Some None);
  r ← (match slot with
       | Some i => Some ((z2n (head - 1), i), h)
       | None =>
           if hash_table_idx h <? max_hash_table_idx h then
             let pop_idx := hash_table_idx h in
             let h := set_table_idx h (u32 (pop_idx + 1)) in
             h ← set_next h (z2n pop_idx) head;
             bs ← put_ (hash_buckets h) bucket (u32 (pop_idx + 1));
             Some ((z2n pop_idx, 0%nat), set_buckets h bs)
           else None
       end);
  let '(p, h) := r in
  e ← read_entry h p;
  _ ← assert_ (negb (used e));
  h ← hash_entry_copy (add_alloc h 1) p
        (Some (mk_hash_entry true (o_deleted obj) true (reserved e) (o_blocks obj) (osyndrome obj) blk_offset (o_cntr_id obj)));
  _ ← assert_ (blk_offset / Mcd_osd_segment_blks <? total_segments);
  h ← set_addr h blk_offset (obucket obj);
  Some (p, h).

(** ** Deletion *)

(** The node of the chain [idx] that has the entry [p]; 0 when there is none. *)
Fixpoint find_node (fuel : nat) (table : list bucket_entry) (idx : Z) (p : heptr) : option Z :=
  if idx =? 0 then Some 0
  else
    match fuel with
    | O => None
    | S fuel =>
        be ← at_ table (idx - 1);
        if (z2n (idx - 1) =? p.1)%nat && (p.2 <? OSD_HASH_ENTRY_PER_BUCKET_ENTRY)%nat then Some idx
        else find_node fuel table (be_next be) p
    end.

(** Fill the free entries [slots] of node [d] from the entries of node [hd] from
    [j] on; [moved] records the new place of an address. *)
Fixpoint refill (moved : hash_handle -> Z -> option hash_handle) (h : hash_handle) (d hd : nat) (slots : list nat) (j : nat)
    : option hash_handle :=
  match slots with
  | [] => Some h
  | i :: slots =>
      e ← read_entry h (d, i);
      if used e then refill moved h d hd slots j
      else
        be ← hash_table h !! hd;
        match list_find (fun e => used e = true) (drop j (be_entries be)) with
        | Some (k, x) =>
            h ← hash_entry_copy h (d, i) (Some x);
            h ← hash_entry_copy h (hd, (j + k)%nat) None;
            h ← moved h (blkaddress x);
            refill moved h d hd slots (j + k)
        | None => refill moved h d hd slots OSD_HASH_ENTRY_PER_BUCKET_ENTRY
        end
  end.

(** Move the first node of the bucket to the free list of the lock if it has
    no entries. *)
Definition free_head (h : hash_handle) (bucket lock_idx head : Z) : option hash_handle :=
  be ← at_ (hash_table h) (head - 1);
  if existsb used (be_entries be) then Some h
  else
    bs ← put_ (hash_buckets h) bucket (be_next be);
    first ← at_ (bucket_locks_free_list h) lock_idx;
    h ← set_next (set_buckets h bs) (z2n (head - 1)) first;
    fl ← put_ (bucket_locks_free_list h) lock_idx head;
    m ← map_bit_set (bucket_locks_free_map h) lock_idx;
    _ ← assert_ (negb (head =? 0));
    Some (set_free_map (set_free_list h fl) m).

(** The common part of the three functions. *)
Definition delete_entry (moved : hash_handle -> Z -> option hash_handle) (h : hash_handle) (he : heptr) (bucket lock_idx : Z)
    : option hash_handle :=
  head ← at_ (hash_buckets h) bucket;
  hbi ← find_node (chain_fuel h) (hash_table h) head he;
  _ ← assert_ (negb (hbi =? 0));
  e ← read_entry h he;
  h ← set_addr (add_alloc h (-1)) (blkaddress e) 0;
  h ← hash_entry_copy h he None;
  h ← (if head =? hbi then Some h
       else refill moved h (z2n (hbi - 1)) (z2n (head - 1)) (seq 0 OSD_HASH_ENTRY_PER_BUCKET_ENTRY) 0);
  free_head h bucket lock_idx head.

Definition hash_entry_delete (h : hash_handle) (he : heptr) (hash_idx : Z) : option hash_handle :=
  delete_entry (fun h addr => set_addr h addr hash_idx) h he (hash_idx / OSD_HASH_BUCKET_SIZE) (hash_idx / lock_bktsize h).

Definition hash_entry_delete1 (h : hash_handle) (he : heptr) (hash_idx bucket_idx : Z) : option hash_handle :=
  _ ← assert_ (hash_idx / OSD_HASH_BUCKET_SIZE =? bucket_idx);
  _ ← assert_ (hash_idx / lock_bktsize h =? bucket_idx * OSD_HASH_BUCKET_SIZE / lock_bktsize h);
  delete_entry (fun h addr => set_addr h addr hash_idx) h he (hash_idx / OSD_HASH_BUCKET_SIZE) (hash_idx / lock_bktsize h).

Definition hash_entry_delete2 (h : hash_handle) (he : heptr) (bucket_idx : Z) : option hash_handle :=
  _ ← assert_ storm_mode;
  delete_entry (fun h _ => Some h) h he bucket_idx (bucket_idx * OSD_HASH_BUCKET_SIZE / lock_bktsize h).

(** What the removal of an object does to the directory: the key leaves the
    cache. *)
Definition mcd_fth_osd_remove_entry (h : hash_handle) (e : hash_entry) : option hash_handle :=
  _ ← assert_ (used e && negb (blocks e =? 0));
  match key_cache h with Some _ => keycache_set h (blkaddress e) 0 | None => Some h end.

(** All objects of a container: bucket by bucket, and over each bucket until a
    pass finds none (recovery.c). A pass visits the nodes of the chain. A deletion
    may have moved entries, or the node itself to the free list, on which the
    pass then goes on. *)
Definition delete_object (h : hash_handle) (he : heptr) (e : hash_entry) (bucket : Z) : option hash_handle :=
  hash_idx ← (match addr_table h with Some t => at_ t (blkaddress e) | None => Some 0 end);
  h ← set_addr h (blkaddress e) 0;
  h ← hash_entry_copy h he
        (Some (mk_hash_entry (used e) true (referenced e) (reserved e) (blocks e) (hesyndrome e) (blkaddress e) (cntr_id e)));
  h ← mcd_fth_osd_remove_entry h e;
  if storm_mode then hash_entry_delete2 h he bucket
  else
    _ ← assert_ (bucket =? hash_idx / OSD_HASH_BUCKET_SIZE);
    hash_entry_delete1 h he hash_idx bucket.

Fixpoint delete_in_node (h : hash_handle) (i : nat) (js : list nat) (bucket cguid n : Z) : option (hash_handle * Z) :=
  match js with
  | [] => Some (h, n)
  | j :: js =>
      e ← read_entry h (i, j);
      if used e && (cntr_id e =? cguid)
      then h ← delete_object h (i, j) e bucket; delete_in_node h i js bucket cguid (n + 1)
      else delete_in_node h i js bucket cguid n
  end.

Fixpoint delete_pass (fuel : nat) (h : hash_handle) (idx bucket cguid n : Z) : option (hash_handle * Z) :=
  if idx =? 0 then Some (h, n)
  else
    match fuel with
    | O => None
    | S fuel =>
        r ← delete_in_node h (z2n (idx - 1)) (seq 0 OSD_HASH_ENTRY_PER_BUCKET_ENTRY) bucket cguid n;
        be ← at_ (hash_table r.1) (idx - 1);
        delete_pass fuel r.1 (be_next be) bucket cguid r.2
    end.

Fixpoint delete_bucket (fuel : nat) (h : hash_handle) (bucket cguid : Z) : option hash_handle :=
  match fuel with
  | O => None
  | S fuel =>
      idx ← at_ (hash_buckets h) bucket;
      r ← delete_pass (2 * chain_fuel h) h idx bucket cguid 0;
      if r.2 =? 0 then Some r.1 else delete_bucket fuel r.1 bucket cguid
  end.

Fixpoint delete_buckets (buckets : list nat) (h : hash_handle) (cguid : Z) : option hash_handle :=
  match buckets with
  | [] => Some h
  | b :: buckets =>
      h ← delete_bucket (S (4 * length (hash_table h))) h (n2z b) cguid;
      delete_buckets buckets h cguid
  end.

Definition delete_all_objects (h : hash_handle) (cguid : Z) : option hash_handle :=
  delete_buckets (seq 0 (z2n (hash_size h / OSD_HASH_BUCKET_SIZE))) h cguid.

(** ** Requests (ssd/fifo/mcd_osd.c) *)

(** Roll a deletion back: the original entry is inserted again. *)
Definition mcd_osd_trx_insert (h : hash_handle) (syn : Z) (orig : hash_entry) : option (hash_handle * bool) :=
  r ← hash_entry_insert_by_key h syn;
  match r with
  | (None, h) => Some (h, false)
  | (Some p, h) =>
      h ← hash_entry_copy h p (Some orig);
      h ← set_addr h (blkaddress orig) (syn mod hash_size h);
      Some (h, true)
  end.

(** Roll a write back: the entry of the new object gets its old contents
    [orig], or goes when there were none. The block that is deallocated, when
    the object is found. *)
Definition mcd_osd_trx_revert (h : hash_handle) (mlo_blk_offset : Z) (orig : option hash_entry) (syn : Z)
    : option (hash_handle * option Z) :=
  r ← hash_entry_insert_by_addr h mlo_blk_offset syn;
  match r with
  | None => Some (h, None)
  | Some p =>
      h ← (match orig with
           | Some o => h ← hash_entry_copy h p (Some o); set_addr h (blkaddress o) (syn mod hash_size h)
           | None => hash_entry_delete h p (syn mod hash_size h)
           end);
      Some (h, Some mlo_blk_offset)
  end.

Inductive flash_rc := FLASH_EOK | FLASH_ENOENT | FLASH_EEXIST | FLASH_EINVAL | FLASH_ENOSPC.

Definition MCD_OSD_OBJ_MAX_BLKS : Z := 4095.

(** A write or a deletion of an object, in store mode: the directory's part of
    [mcd_fth_osd_slab_set]. A write comes with the block address and the number
    of blocks of the new object, which has been written there; [rsv] is the bit
    of the new entry that is not initialised. The status and the block address
    reported to the caller. The log, the statistics, expiry and sequence
    numbers, compression and evicting containers are left out. *)
Record set_request := mk_set_request {
  s_key : list byte;
  s_cntr : Z;
  test_exist : bool;
  test_nonexist : bool;
  s_data : option (Z * Z * bool);
  s_rsv : bool
}.

Definition slab_delete (h : hash_handle) (syndrome : Z) (p : heptr) : option (hash_handle * flash_rc * option Z) :=
  e ← read_entry h p;
  h ← mcd_fth_osd_remove_entry h e;
  h ← hash_entry_delete h p (syndrome mod hash_size h);
  e ← read_entry h p;
  Some (h, FLASH_EOK, Some (blkaddress e)).

Definition slab_write (h : hash_handle) (rq : set_request) (syndrome : Z) (he : option heptr) (blk_offset nblocks : Z) (del : bool)
    : option (hash_handle * flash_rc * option Z) :=
  let new_entry := mk_hash_entry true del true (s_rsv rq) nblocks (u16 (Z.shiftr syndrome OSD_HASH_SYN_SHIFT)) blk_offset (s_cntr rq) in
  h ← (if (lenZ (s_key rq) =? 8) && bool_decide (is_Some (key_cache h))
       then keycache_set h blk_offset (le_combine (s_key rq)) else Some h);
  r ← (match he with
       | Some p => e ← read_entry h p; h ← mcd_fth_osd_remove_entry h e; Some (Some p, h)
       | None => hash_entry_insert_by_key h syndrome
       end);
  match r with
  | (None, h) => h ← mcd_fth_osd_remove_entry h new_entry; Some (h, FLASH_ENOSPC, None)
  | (Some p, h) =>
      h ← hash_entry_copy h p (Some new_entry);
      h ← set_addr h blk_offset (syndrome mod hash_size h);
      Some (h, FLASH_EOK, Some blk_offset)
  end.

Definition too_big (rq : set_request) : bool := match s_data rq with Some (_, nblocks, _) => MCD_OSD_OBJ_MAX_BLKS <? nblocks | None => false end.

Definition mcd_fth_osd_slab_set (onflash : Z -> option (list byte)) (h : hash_handle) (rq : set_request)
    : option (hash_handle * flash_rc * option Z) :=
  let syndrome := hashck (s_key rq) 0 (s_cntr rq) in
  if too_big rq then Some (h, FLASH_EINVAL, None) else
  he ← hash_table_get onflash h (s_key rq) (s_cntr rq);
  match he, s_data rq with
  | None, None => Some (h, FLASH_ENOENT, None)
  | None, Some (blk_offset, nblocks, del) =>
      if test_nonexist rq then Some (h, FLASH_ENOENT, None) else slab_write h rq syndrome None blk_offset nblocks del
  | Some p, None => if test_exist rq then Some (h, FLASH_EEXIST, None) else slab_delete h syndrome p
  | Some p, Some (blk_offset, nblocks, del) =>
      if test_exist rq then Some (h, FLASH_EEXIST, None) else slab_write h rq syndrome (Some p) blk_offset nblocks del
  end.
End directory.
