(* ===== verification/HashTableRep.v ===== *)
(** * The object directory: chains and contents

    [chain] relates a pointer to the nodes it leads to, [contents] are the
    entries in use of a bucket. [dir_inv] is the invariant of the directory:
    the chains of the buckets and of the free lists are disjoint and cover the
    allocated nodes, all nodes of a bucket but the first are full, the free ones
    are empty. *)

From S2P Require Import Prelude Hash HashTable.
From stdpp Require Import list.
Open Scope Z_scope.

(** ** Entries in use *)

Definition uses (es : list hash_entry) : list hash_entry := filter (fun e => used e = true) es.

Lemma uses_app es es' : uses (es ++ es') = uses es ++ uses es'.
Proof. apply list.filter_app. Qed.

Lemma uses_elem es e : e ∈ uses es <-> used e = true /\ e ∈ es.
Proof. unfold uses. by rewrite list_elem_of_filter. Qed.

(** The entry itself when it is in use. *)
Definition use1 (e : hash_entry) : list hash_entry := if used e then [e] else [].

Lemma uses_cons e es : uses (e :: es) = use1 e ++ uses es.
Proof. unfold uses, use1. rewrite filter_cons. by destruct (used e). Qed.

(** Replacing one entry. *)
Lemma uses_insert es s old : es !! s = Some old ->
  exists rest, uses es ≡ₚ use1 old ++ rest /\ forall e, uses (<[s := e]> es) ≡ₚ use1 e ++ rest.
Proof.
  intros Hs. exists (uses (take s es) ++ uses (drop (S s) es)). pose proof (lookup_lt_Some _ _ _ Hs) as Hlt.
  assert (forall e l1 l2, uses (l1 ++ e :: l2) ≡ₚ use1 e ++ uses l1 ++ uses l2) as H.
  { intros e l1 l2. rewrite uses_app, uses_cons, !(assoc app). by rewrite (comm app (uses l1) (use1 e)). }
  split; [|intros e; rewrite insert_take_drop by done; apply H].
  rewrite <- (take_drop_middle es s old Hs) at 1. apply H.
Qed.

Lemma uses_full es : Forall (fun e => used e = true) es -> uses es = es.
Proof. induction 1 as [|e es H Hes IH]; [done|]. rewrite uses_cons, IH. unfold use1. by rewrite H. Qed.

Lemma uses_empty es : Forall (fun e => used e = false) es -> uses es = [].
Proof. induction 1 as [|e es H Hes IH]; [done|]. rewrite uses_cons, IH. unfold use1. by rewrite H. Qed.

Lemma existsb_used es : existsb used es = false -> Forall (fun e => used e = false) es.
Proof. intros H. apply Forall_forall. intros e He. destruct (used e) eqn:E; [|done]. assert (existsb used es = true); [|congruence]. apply existsb_exists. exists e. split; [by apply list_elem_of_In|done]. Qed.

Lemma existsb_uses es : existsb used es = true -> uses es <> [].
Proof. intros (e & He & Hu)%existsb_exists Hn. assert (e ∈ uses es) as H by (apply uses_elem; split; [done|by apply list_elem_of_In]). rewrite Hn in H. by apply not_elem_of_nil in H. Qed.

(** ** Arrays *)

Lemma at_lookup {A} (l : list A) i : at_ l (n2z i) = l !! i.
Proof. unfold at_. rewrite (proj2 (Z.ltb_ge _ _)) by lia. by rewrite Nat2Z.id. Qed.

Lemma put_insert {A} (l : list A) i x : (i < length l)%nat -> put_ l (n2z i) x = Some (<[i := x]> l).
Proof. intros H. unfold put_. rewrite (proj2 (Z.leb_le _ _)), (proj2 (Z.ltb_lt _ _)) by lia. cbn. by rewrite Nat2Z.id. Qed.

(** ** Chains *)

(** The pointer to node [i]. *)
Definition ptr_to (i : nat) : Z := n2z i + 1.

Fixpoint chain (tbl : list bucket_entry) (p : Z) (l : list nat) : Prop :=
  match l with
  | [] => p = 0
  | i :: l => p = ptr_to i /\ exists be, tbl !! i = Some be /\ chain tbl (be_next be) l
  end.

Definition node (tbl : list bucket_entry) (i : nat) : list hash_entry :=
  match tbl !! i with Some be => be_entries be | None => [] end.

Definition contents (tbl : list bucket_entry) (l : list nat) : list hash_entry := l ≫= (fun i => uses (node tbl i)).

Lemma ptr_to_ne i : ptr_to i =? 0 = false.
Proof. apply Z.eqb_neq. unfold ptr_to. lia. Qed.

Lemma at_ptr {A} (l : list A) i : at_ l (ptr_to i - 1) = l !! i.
Proof. unfold ptr_to. replace (n2z i + 1 - 1) with (n2z i) by lia. apply at_lookup. Qed.

Lemma ptr_to_idx i : z2n (ptr_to i - 1) = i.
Proof. unfold ptr_to. lia. Qed.

(** A chain only depends on the links of its nodes. *)
Lemma chain_links tbl tbl' p l :
  (forall i be, i ∈ l -> tbl !! i = Some be -> exists be', tbl' !! i = Some be' /\ be_next be' = be_next be) ->
  chain tbl p l -> chain tbl' p l.
Proof.
  revert p. induction l as [|i l IH]; intros p Hl; [done|]. intros (-> & be & Hb & Hc). split; [done|].
  destruct (Hl i be) as (be' & Hb' & E); [left|done|]. exists be'. split; [done|]. rewrite E. apply IH; [|done]. intros. apply Hl; [by right|done].
Qed.

Lemma chain_in tbl p l i : chain tbl p l -> i ∈ l -> is_Some (tbl !! i).
Proof.
  revert p. induction l as [|j l IH]; intros p; [by intros _ ?%not_elem_of_nil|]. intros (_ & be & Hb & Hc) [->|Hi]%elem_of_cons; [by exists be|].
  by eapply IH.
Qed.

Lemma chain_insert tbl p l i be : i ∉ l -> chain tbl p l -> chain (<[i := be]> tbl) p l.
Proof. intros Hi. apply chain_links. intros j b Hj Hb. exists b. split; [|done]. rewrite list_lookup_insert_ne; [done|congruence]. Qed.

Lemma chain_insert_same tbl p l i be be0 : tbl !! i = Some be0 -> be_next be = be_next be0 -> chain tbl p l -> chain (<[i := be]> tbl) p l.
Proof.
  intros Hb0 E. apply chain_links. intros j b Hj Hb. destruct (decide (i = j)) as [->|].
  - exists be. split; [|congruence]. apply list_lookup_insert_eq. by eapply lookup_lt_Some.
  - exists b. split; [|done]. by rewrite list_lookup_insert_ne.
Qed.

Lemma node_insert tbl i be : (i < length tbl)%nat -> node (<[i := be]> tbl) i = be_entries be.
Proof. intros H. unfold node. by rewrite list_lookup_insert_eq. Qed.

Lemma node_insert_ne tbl i j be : i <> j -> node (<[i := be]> tbl) j = node tbl j.
Proof. intros H. unfold node. by rewrite list_lookup_insert_ne. Qed.

Lemma contents_ext tbl tbl' l : (forall i, i ∈ l -> node tbl' i = node tbl i) -> contents tbl' l = contents tbl l.
Proof.
  induction l as [|i l IH]; intros H; [done|]. unfold contents in *. cbn. rewrite H by left. f_equal. apply IH. intros. apply H. by right.
Qed.

Lemma contents_insert tbl i l be : i ∉ l -> contents (<[i := be]> tbl) l = contents tbl l.
Proof. intros H. apply contents_ext. intros j Hj. apply node_insert_ne. congruence. Qed.

Lemma contents_elem tbl l e : e ∈ contents tbl l <-> exists i, i ∈ l /\ used e = true /\ e ∈ node tbl i.
Proof.
  unfold contents. rewrite list_elem_of_bind. split.
  - intros (i & He & Hi). exists i. apply uses_elem in He. tauto.
  - intros (i & Hi & He). exists i. rewrite uses_elem. tauto.
Qed.

(** The whole contents of a chain with node [d] changed. *)
Lemma contents_change tbl l d es es' be' rest :
  NoDup l -> d ∈ l -> (d < length tbl)%nat -> node tbl d = es -> be_entries be' = es' ->
  forall x y, uses es ≡ₚ x ++ rest -> uses es' ≡ₚ y ++ rest ->
  exists others, contents tbl l ≡ₚ x ++ others /\ contents (<[d := be']> tbl) l ≡ₚ y ++ others.
Proof.
  intros Hnd Hd Hlt Hn Hn' x y Hx Hy. apply list_elem_of_split in Hd as (l1 & l2 & ->).
  apply NoDup_app in Hnd as (_ & Hd1 & [Hd2 _]%NoDup_cons). exists (rest ++ contents tbl l1 ++ contents tbl l2).
  assert (forall t, contents t (l1 ++ d :: l2) ≡ₚ uses (node t d) ++ contents t l1 ++ contents t l2) as H.
  { intros t. unfold contents. rewrite bind_app. cbn [mbind list_bind]. rewrite !(assoc app). by rewrite (comm app (mbind _ l1)). }
  assert (d ∉ l1) as Hd1' by (intros Hin; apply (Hd1 d Hin); left).
  rewrite !H, node_insert, !contents_insert, Hn, Hn', Hx, Hy by done. by rewrite !(assoc app).
Qed.

(** ** The invariant *)

Definition full (es : list hash_entry) : Prop := Forall (fun e => used e = true) es.

(** The first node of a bucket has an entry, unless the bucket is the [hole];
    the others are full. *)
Definition heads_ok (tbl : list bucket_entry) (hole : option nat) (j : nat) (c : list nat) : Prop :=
  match c with
  | [] => True
  | i :: l => (hole <> Some j -> uses (node tbl i) <> []) /\ Forall (fun d => full (node tbl d)) l
  end.

(** [cs] are the chains of the buckets, [fs] those of the free lists; [k]
    entries are counted but not yet in use. *)
Record dir_inv (hole : option nat) (k : Z) (h : hash_handle) (cs fs : list (list nat)) : Prop := {
  d_size : hash_size h = lock_bktsize h * lock_buckets h;
  d_bktsize : 0 < lock_bktsize h <= lock_buckets h;
  d_mod : lock_bktsize h mod OSD_HASH_BUCKET_SIZE = 0;
  d_cs : hash_size h = OSD_HASH_BUCKET_SIZE * lenZ cs;
  d_fs : lock_buckets h = lenZ fs;
  d_map : lock_buckets h <= 64 * lenZ (bucket_locks_free_map h);
  d_idx : 0 <= hash_table_idx h <= max_hash_table_idx h;
  d_max : lenZ (hash_table h) = max_hash_table_idx h;
  d_max32 : max_hash_table_idx h < 2 ^ 32;
  d_four : Forall (fun be => length (be_entries be) = OSD_HASH_ENTRY_PER_BUCKET_ENTRY) (hash_table h);
  d_chains : Forall2 (chain (hash_table h)) (hash_buckets h) cs;
  d_frees : Forall2 (chain (hash_table h)) (bucket_locks_free_list h) fs;
  d_nodup : NoDup (concat cs ++ concat fs);
  d_alloc : forall i, i ∈ concat cs ++ concat fs -> n2z i < hash_table_idx h;
  d_cover : lenZ (concat cs ++ concat fs) = hash_table_idx h;
  d_heads : forall j c, cs !! j = Some c -> heads_ok (hash_table h) hole j c;
  d_empty : forall i, i ∈ concat fs \/ hash_table_idx h <= n2z i -> uses (node (hash_table h) i) = [];
  d_count : alloc_count h = lenZ (contents (hash_table h) (concat cs)) + k
}.

Abbreviation dir_ok := (dir_inv None 0).

Lemma elem_concat {A} (ls : list (list A)) j l x : ls !! j = Some l -> x ∈ l -> x ∈ concat ls.
Proof. intros Hj Hx. apply list_elem_of_In, in_concat. exists l. split; apply list_elem_of_In; [by eapply list_elem_of_lookup_2|done]. Qed.

Lemma concat_split {A} (ls : list (list A)) j l : ls !! j = Some l -> concat ls ≡ₚ l ++ concat (delete j ls).
Proof.
  intros H. rewrite <- (take_drop_middle ls j l H) at 1. rewrite delete_take_drop, !concat_app. cbn. rewrite !(assoc app). by rewrite (comm app (concat _) l).
Qed.

Lemma concat_insert {A} (ls : list (list A)) j l l' : ls !! j = Some l -> concat (<[j := l']> ls) ≡ₚ l' ++ concat (delete j ls).
Proof.
  intros H. pose proof (lookup_lt_Some _ _ _ H). rewrite insert_take_drop by done. rewrite delete_take_drop, !concat_app. cbn. rewrite !(assoc app). by rewrite (comm app (concat _) l').
Qed.

Lemma contents_perm tbl l l' : l ≡ₚ l' -> contents tbl l ≡ₚ contents tbl l'.
Proof. intros H. unfold contents. by rewrite H. Qed.

Lemma contents_app tbl l l' : contents tbl (l ++ l') = contents tbl l ++ contents tbl l'.
Proof. apply bind_app. Qed.

(** Two chains of the directory share no node. *)
Lemma chains_disjoint {A} (ls : list (list A)) i j l l' x : NoDup (concat ls) -> ls !! i = Some l -> ls !! j = Some l' -> x ∈ l -> x ∈ l' -> i = j.
Proof.
  intros Hnd Hi Hj Hx Hx'. destruct (decide (i = j)) as [|Hne]; [done|]. exfalso.
  rewrite (concat_split ls i l Hi), NoDup_app in Hnd. destruct Hnd as (_ & Hd & _). apply (Hd x Hx).
  destruct (decide (j < i)%nat).
  - apply (elem_concat _ j l'); [by rewrite list_lookup_delete_lt|done].
  - apply (elem_concat _ (j - 1) l'); [|done]. rewrite list_lookup_delete_ge by lia. by replace (S (j - 1)) with j by lia.
Qed.

Section inv.
Context (hole : option nat) (k : Z) (h : hash_handle) (cs fs : list (list nat)) (H : dir_inv hole k h cs fs).

Lemma bucket_lt syn : 0 <= syn -> 0 <= bucket_of_syn h syn < lenZ cs.
Proof using H.
  intros Hs. unfold bucket_of_syn. pose proof (d_cs _ _ _ _ _ H) as Hc. pose proof (d_bktsize _ _ _ _ _ H). pose proof (d_size _ _ _ _ _ H).
  assert (0 < hash_size h) by nia. pose proof (Z.mod_pos_bound syn (hash_size h) ltac:(lia)). unfold OSD_HASH_BUCKET_SIZE in *.
  split; [apply Z.div_pos; lia|]. apply Z.div_lt_upper_bound; lia.
Qed.

Lemma lock_lt syn : 0 <= syn -> 0 <= lock_of_syn h syn < lenZ fs.
Proof using H.
  intros Hs. unfold lock_of_syn. pose proof (d_fs _ _ _ _ _ H) as Hc. pose proof (d_bktsize _ _ _ _ _ H). pose proof (d_size _ _ _ _ _ H).
  assert (0 < hash_size h) by nia. pose proof (Z.mod_pos_bound syn (hash_size h) ltac:(lia)).
  split; [apply Z.div_pos; lia|]. apply Z.div_lt_upper_bound; nia.
Qed.

(** The chain of a bucket. *)
Lemma bucket_chain b c : cs !! b = Some c -> exists p, hash_buckets h !! b = Some p /\ chain (hash_table h) p c.
Proof using H. intros Hb. destruct (Forall2_lookup_r _ _ _ _ _ (d_chains _ _ _ _ _ H) Hb) as (p & ? & ?). by exists p. Qed.

Lemma free_chain b c : fs !! b = Some c -> exists p, bucket_locks_free_list h !! b = Some p /\ chain (hash_table h) p c.
Proof using H. intros Hb. destruct (Forall2_lookup_r _ _ _ _ _ (d_frees _ _ _ _ _ H) Hb) as (p & ? & ?). by exists p. Qed.

Lemma nodes_nodup : NoDup (concat cs).
Proof using H. pose proof (d_nodup _ _ _ _ _ H) as [? _]%NoDup_app. done. Qed.

Lemma chain_nodup b c : cs !! b = Some c -> NoDup c.
Proof using H. intros Hb. pose proof nodes_nodup as Hn. rewrite (concat_split _ _ _ Hb), NoDup_app in Hn. tauto. Qed.

Lemma node_lt i : i ∈ concat cs ++ concat fs -> (i < length (hash_table h))%nat.
Proof using H. intros Hi%(d_alloc _ _ _ _ _ H). pose proof (d_max _ _ _ _ _ H). pose proof (d_idx _ _ _ _ _ H). lia. Qed.

Lemma dir_chain_length b c : cs !! b = Some c -> (length c <= chain_fuel h)%nat.
Proof using H.
  intros Hb. assert (c ⊆+ seq 0 (length (hash_table h))) as Hs%submseteq_length; [|by rewrite length_seq in Hs].
  apply NoDup_submseteq; [by eapply chain_nodup|]. intros i Hi. apply elem_of_seq.
  assert (i < length (hash_table h))%nat; [|lia]. apply node_lt, elem_of_app. left. by eapply elem_concat.
Qed.
End inv.

(** ** Search *)

Lemma find_slot_ok (T : hash_entry -> bool) test es : forall n,
  (forall e, e ∈ es -> test e = Some (T e)) ->
  exists r, find_slot test es n = Some r /\
    match r with
    | None => forall e, e ∈ es -> T e = false
    | Some i => (n <= i)%nat /\ exists e, es !! (i - n)%nat = Some e /\ T e = true
    end.
Proof.
  induction es as [|e es IH]; intros n Ht; cbn; [exists None; split; [done|]; by intros e ?%not_elem_of_nil|].
  rewrite Ht by left. cbn. destruct (T e) eqn:E.
  - exists (Some n). split; [done|]. split; [done|]. exists e. by rewrite Nat.sub_diag.
  - destruct (IH (S n)) as (r & Hr & Hcase); [intros; apply Ht; by right|]. exists r. split; [done|]. destruct r as [i|].
    + destruct Hcase as (Hi & e' & He & HT). split; [lia|]. exists e'. by replace (i - n)%nat with (S (i - S n)) by lia.
    + intros e' [->|He]%elem_of_cons; [done|by apply Hcase].
Qed.

(** The search finds an entry that passes the test, if there is one. *)
Lemma find_entry_ok (T : hash_entry -> bool) tbl test l : forall fuel p,
  chain tbl p l -> (length l <= fuel)%nat -> (forall e, e ∈ contents tbl l -> test e = Some (T e)) ->
  exists r, find_entry fuel tbl p test = Some r /\
    match r with
    | None => forall e, e ∈ contents tbl l -> T e = false
    | Some (i, s) => i ∈ l /\ exists e, node tbl i !! s = Some e /\ used e = true /\ T e = true
    end.
Proof.
  induction l as [|i l IH]; intros fuel p Hc Hf Ht.
  - cbn in Hc. subst p. exists None. split; [by destruct fuel|]. by intros e ?%not_elem_of_nil.
  - destruct Hc as (-> & be & Hb & Hc). destruct fuel as [|fuel]; cbn in Hf; [lia|]. cbn [find_entry]. rewrite ptr_to_ne.
    rewrite at_ptr, Hb. cbn [mbind option_bind].
    assert (node tbl i = be_entries be) as Hn by (unfold node; by rewrite Hb).
    assert (forall e, e ∈ contents tbl (i :: l) <-> (used e = true /\ e ∈ be_entries be) \/ e ∈ contents tbl l) as Hin.
    { intros e. unfold contents. cbn. rewrite elem_of_app, uses_elem, Hn. done. }
    destruct (find_slot_ok (fun e => used e && T e) (fun e => if used e then test e else Some false) (be_entries be) 0) as (r & -> & Hr).
    { intros e He. destruct (used e) eqn:E; [|done]. apply Ht, Hin. by left. }
    cbn [mbind option_bind]. destruct r as [s|].
    + destruct Hr as (_ & e & He & [Hu HT]%andb_true_iff). exists (Some (i, s)). rewrite ptr_to_idx. split; [done|]. split; [left|].
      exists e. by rewrite Hn, Nat.sub_0_r in *.
    + destruct (IH fuel (be_next be) Hc ltac:(lia)) as (r & -> & Hr'); [intros e He; apply Ht, Hin; by right|]. exists r. split; [done|].
      destruct r as [[i' s']|].
      * destruct Hr' as [? ?]. split; [by right|done].
      * intros e [[Hu He]|He]%Hin; [|by apply Hr']. specialize (Hr e He). by rewrite Hu in Hr.
Qed.
