(* ===== verification/HashTableOps.v ===== *)
(** * The object directory: insertion and deletion

    Each step of an insertion or a deletion keeps the invariant; the contents of
    the bucket gain or lose one entry, those of the other buckets stay. *)

From S2P Require Import Prelude Hash HashTable HashTableRep.
From stdpp Require Import list.
Open Scope Z_scope.

(** The sizes of a directory never change. *)
Record same_sizes (h h' : hash_handle) : Prop := {
  ss_size : hash_size h' = hash_size h;
  ss_bktsize : lock_bktsize h' = lock_bktsize h;
  ss_buckets : lock_buckets h' = lock_buckets h;
  ss_max : max_hash_table_idx h' = max_hash_table_idx h;
  ss_len : length (hash_table h') = length (hash_table h);
  ss_map : length (bucket_locks_free_map h') = length (bucket_locks_free_map h)
}.

(** The tables by address. *)
Definition same_addrs (h h' : hash_handle) : Prop := addr_table h' = addr_table h /\ key_cache h' = key_cache h.

#[export] Instance same_sizes_refl : Reflexive same_sizes.
Proof. by split. Qed.

#[export] Instance same_sizes_trans : Transitive same_sizes.
Proof. intros h1 h2 h3 [] []. split; congruence. Qed.

#[export] Instance same_addrs_refl : Reflexive same_addrs.
Proof. by split. Qed.

#[export] Instance same_addrs_trans : Transitive same_addrs.
Proof. intros h1 h2 h3 [] []. split; congruence. Qed.

(** Buckets other than [b] keep their chain and its contents. *)
Definition same_others (b : nat) (h h' : hash_handle) (cs cs' : list (list nat)) : Prop :=
  length cs' = length cs /\
  forall j c, j <> b -> cs !! j = Some c -> cs' !! j = Some c /\ contents (hash_table h') c = contents (hash_table h) c.

Lemma same_others_trans b h1 h2 h3 cs1 cs2 cs3 :
  same_others b h1 h2 cs1 cs2 -> same_others b h2 h3 cs2 cs3 -> same_others b h1 h3 cs1 cs3.
Proof.
  intros [L1 H1] [L2 H2]. split; [congruence|]. intros j c Hj Hc. destruct (H1 j c Hj Hc) as [Hc2 E2]. destruct (H2 j c Hj Hc2) as [Hc3 E3]. split; congruence.
Qed.

Lemma contents_concat_len tbl cs b c : cs !! b = Some c ->
  lenZ (contents tbl (concat cs)) = lenZ (contents tbl c) + lenZ (contents tbl (concat (delete b cs))).
Proof. intros Hb. rewrite (contents_perm _ _ _ (concat_split _ _ _ Hb)), contents_app, length_app. lia. Qed.

Lemma not_in_others (cs fs : list (list nat)) b c i : NoDup (concat cs ++ concat fs) -> cs !! b = Some c ->
  i ∈ concat (delete b cs) \/ i ∈ concat fs -> i ∉ c.
Proof.
  intros Hnd Hb Hi Hin. rewrite (concat_split _ _ _ Hb), <- (assoc app), NoDup_app in Hnd. destruct Hnd as (_ & Hd & _).
  apply (Hd i Hin), elem_of_app. tauto.
Qed.

Lemma in_delete (cs : list (list nat)) b j c i : j <> b -> cs !! j = Some c -> i ∈ c -> i ∈ concat (delete b cs).
Proof.
  intros Hj Hc Hi. destruct (decide (j < b)%nat).
  - apply (elem_concat _ j c); [by rewrite list_lookup_delete_lt|done].
  - apply (elem_concat _ (j - 1) c); [|done]. rewrite list_lookup_delete_ge by lia. by replace (S (j - 1)) with j by lia.
Qed.

(** The invariant after a change of entries, without the links, in the nodes
    of bucket [b]. *)
Lemma inv_entries hole hole' k k' h h' cs fs b c :
  dir_inv hole k h cs fs -> hole = None \/ hole = Some b -> hole' = None \/ hole' = Some b -> cs !! b = Some c ->
  same_sizes h h' -> hash_table_idx h' = hash_table_idx h -> hash_buckets h' = hash_buckets h ->
  bucket_locks_free_list h' = bucket_locks_free_list h ->
  Forall (fun be => length (be_entries be) = OSD_HASH_ENTRY_PER_BUCKET_ENTRY) (hash_table h') ->
  (forall i be, hash_table h !! i = Some be -> exists be', hash_table h' !! i = Some be' /\ be_next be' = be_next be) ->
  (forall i, i ∉ c -> node (hash_table h') i = node (hash_table h) i) ->
  heads_ok (hash_table h') hole' b c ->
  alloc_count h' - k' - lenZ (contents (hash_table h') c) = alloc_count h - k - lenZ (contents (hash_table h) c) ->
  dir_inv hole' k' h' cs fs /\ same_others b h h' cs cs.
Proof.
  intros H Hh Hh' Hb [Es1 Es2 Es3 Es4 Es5 Es6] Ei Ebk Efl Hfour Hlinks Hnodes Hheads Hcount.
  assert (forall i, i ∈ concat (delete b cs) \/ i ∈ concat fs -> node (hash_table h') i = node (hash_table h) i) as Ho.
  { intros i Hi. apply Hnodes. by eapply not_in_others; [apply (d_nodup _ _ _ _ _ H)|..]. }
  split.
  - split; try (rewrite ?Es1, ?Es2, ?Es3, ?Es4, ?Es5, ?Es6, ?Ei; apply H); [done|..].
    + rewrite Ebk. eapply Forall2_impl; [apply H|]. intros p l. apply chain_links. eauto.
    + rewrite Efl. eapply Forall2_impl; [apply H|]. intros p l. apply chain_links. eauto.
    + intros j cj Hj. destruct (decide (j = b)) as [->|Hne]; [congruence|]. pose proof (d_heads _ _ _ _ _ H j cj Hj) as Hok.
      destruct cj as [|i l]; [done|]. cbn in Hok |- *.
      assert (forall d, d ∈ i :: l -> node (hash_table h') d = node (hash_table h) d) as Hd.
      { intros d Hd. apply Ho. left. by eapply in_delete. }
      destruct Hok as [Hok1 Hok2]. split.
      * intros _. rewrite Hd by left. apply Hok1. destruct Hh as [->| ->]; congruence.
      * apply Forall_forall. intros d Hdl. rewrite Forall_forall in Hok2. rewrite Hd by (by right). by apply Hok2.
    + intros i Hi. rewrite Ei in Hi. rewrite Hnodes; [by apply (d_empty _ _ _ _ _ H)|]. destruct Hi as [Hi|Hi].
      * eapply not_in_others; [apply (d_nodup _ _ _ _ _ H)|done|by right].
      * intros Hin. assert (i ∈ concat cs ++ concat fs) as Ha%(d_alloc _ _ _ _ _ H) by (apply elem_of_app; left; by eapply elem_concat). lia.
    + pose proof (d_count _ _ _ _ _ H) as Hn. rewrite (contents_concat_len _ _ _ _ Hb) in Hn. rewrite (contents_concat_len _ _ _ _ Hb).
      rewrite (contents_ext (hash_table h) (hash_table h') (concat (delete b cs))) by (intros; apply Ho; by left). lia.
  - split; [done|]. intros j cj Hj Hc. split; [done|]. apply contents_ext. intros i Hi. apply Ho. left. by eapply in_delete.
Qed.

(** ** Filling the free entry *)

Lemma copy_entry h p es_old e : (fun be => be_entries be !! p.2) <$> hash_table h !! p.1 = Some (Some es_old) ->
  exists be, hash_table h !! p.1 = Some be /\ be_entries be !! p.2 = Some es_old /\
    hash_entry_copy h p e = Some (set_table h (<[p.1 := mk_bucket_entry (<[p.2 := default no_entry e]> (be_entries be)) (be_next be)]> (hash_table h))).
Proof.
  intros Hp. destruct (hash_table h !! p.1) as [be|] eqn:Hb; [|done]. injection Hp as Hs. exists be. split; [done|]. split; [done|].
  unfold hash_entry_copy. rewrite Hb. cbn [mbind option_bind]. by rewrite Hs.
Qed.

Lemma four_insert (tbl : list bucket_entry) i be : Forall (fun be => length (be_entries be) = OSD_HASH_ENTRY_PER_BUCKET_ENTRY) tbl ->
  length (be_entries be) = OSD_HASH_ENTRY_PER_BUCKET_ENTRY ->
  Forall (fun be => length (be_entries be) = OSD_HASH_ENTRY_PER_BUCKET_ENTRY) (<[i := be]> tbl).
Proof. intros. by apply Forall_insert. Qed.

Lemma links_insert (tbl : list bucket_entry) i be be' : tbl !! i = Some be -> be_next be' = be_next be ->
  forall j b, tbl !! j = Some b -> exists b', <[i := be']> tbl !! j = Some b' /\ be_next b' = be_next b.
Proof.
  intros Hi E j b Hj. destruct (decide (i = j)) as [->|].
  - exists be'. split; [apply list_lookup_insert_eq; by eapply lookup_lt_Some|congruence].
  - exists b. by rewrite list_lookup_insert_ne.
Qed.

Lemma entry_fill_ok h cs fs b i c s old e :
  dir_inv (Some b) 1 h cs fs -> cs !! b = Some (i :: c) -> node (hash_table h) i !! s = Some old -> used old = false -> used e = true ->
  exists h', hash_entry_copy h (i, s) (Some e) = Some h' /\ dir_ok h' cs fs /\ same_sizes h h' /\ same_addrs h h' /\
    same_others b h h' cs cs /\ contents (hash_table h') (i :: c) ≡ₚ e :: contents (hash_table h) (i :: c).
Proof.
  intros H Hb Hs Hold He. unfold node in Hs. destruct (hash_table h !! i) as [be|] eqn:Hi; [|done].
  destruct (copy_entry h (i, s) old (Some e)) as (be' & Hbe & _ & ->); [cbn; rewrite Hi; cbn; by rewrite Hs|].
  cbn [fst snd default] in *. assert (be' = be) as -> by congruence. set (be' := mk_bucket_entry _ _).
  pose proof (lookup_lt_Some _ _ _ Hi) as Hlt. pose proof (chain_nodup _ _ _ _ _ H _ _ Hb) as Hnd.
  destruct (uses_insert (be_entries be) s old Hs) as (rest & Hr1 & Hr2). specialize (Hr2 e).
  destruct (contents_change (hash_table h) (i :: c) i (be_entries be) (<[s := e]> (be_entries be)) be' rest Hnd ltac:(left) Hlt
              ltac:(unfold node; by rewrite Hi) eq_refl _ _ Hr1 Hr2) as (others & Hc1 & Hc2).
  unfold use1 in Hc1, Hc2. rewrite Hold in Hc1. rewrite He in Hc2. cbn [app] in Hc1, Hc2.
  eexists. split; [reflexivity|].
  destruct (inv_entries (Some b) None 1 0 h (set_table h (<[i := be']> (hash_table h))) cs fs b (i :: c) H ltac:(by right) ltac:(by left) Hb)
    as [Hinv Hothers]; cbn.
  - split; try done. cbn. by rewrite length_insert.
  - done.
  - done.
  - done.
  - apply four_insert; [apply H|]. unfold be'. cbn. rewrite length_insert. pose proof (d_four _ _ _ _ _ H) as Hf. rewrite Forall_lookup in Hf. by eapply Hf.
  - by apply (links_insert _ _ be).
  - intros j Hj. apply node_insert_ne. intros ->. apply Hj. left.
  - pose proof (d_heads _ _ _ _ _ H b _ Hb) as [_ Hfull]. split.
    + intros _ Hn. rewrite node_insert in Hn by done. change (uses (<[s := e]> (be_entries be)) = []) in Hn. rewrite Hn in Hr2. unfold use1 in Hr2. rewrite He in Hr2. by apply Permutation_nil_cons in Hr2.
    + apply NoDup_cons in Hnd as [Hni _]. apply Forall_forall. intros d Hd. rewrite Forall_forall in Hfull.
      rewrite node_insert_ne by congruence. by apply Hfull.
  - rewrite Hc1, Hc2. cbn. lia.
  - split; [done|]. split; [split; try done; cbn; by rewrite length_insert|]. split; [done|]. split; [done|]. cbn. rewrite Hc2. by rewrite Hc1.
Qed.

(** ** Bit maps *)

Lemma map_word (m : list Z) pos : 0 <= pos < 64 * lenZ m -> exists i w, pos / 64 = n2z i /\ m !! i = Some w.
Proof.
  intros Hp. exists (z2n (pos / 64)). assert (0 <= pos / 64 < lenZ m) by (split; [apply Z.div_pos|apply Z.div_lt_upper_bound]; lia).
  destruct (lookup_lt_is_Some_2 m (z2n (pos / 64)) ltac:(lia)) as [w Hw]. exists w. split; [lia|done].
Qed.

Lemma isset_some m pos : 0 <= pos < 64 * lenZ m -> is_Some (map_bit_isset m pos).
Proof. intros (i & w & E & Hw)%map_word. unfold map_bit_isset. rewrite E, at_lookup, Hw. by eexists. Qed.

Lemma bit_int_ne pos : u64 (bit_int pos) <> 0.
Proof.
  unfold bit_int. pose proof (Z.mod_pos_bound (pos mod 64) 32 ltac:(lia)) as Hk. set (k := pos mod 64 mod 32) in *. rewrite Z.shiftl_1_l.
  destruct (decide (k = 31)) as [->|Hne]; [done|]. assert (2 ^ k <= 2 ^ 30) by (apply Z.pow_le_mono_r; lia). pose proof (Z.pow_pos_nonneg 2 k ltac:(lia) ltac:(lia)).
  rewrite i32_small, u64_small by lia. lia.
Qed.

(** A bit that is set is seen. *)
Lemma set_some m pos : 0 <= pos < 64 * lenZ m -> exists m', map_bit_set m pos = Some m' /\ length m' = length m /\ map_bit_isset m' pos = Some true.
Proof.
  intros (i & w & E & Hw)%map_word. unfold map_bit_set. rewrite E, at_lookup, Hw. cbn [mbind option_bind]. pose proof (lookup_lt_Some _ _ _ Hw) as Hlt.
  rewrite put_insert by done. eexists. split; [done|]. split; [by rewrite length_insert|]. unfold map_bit_isset. rewrite E, at_lookup, list_lookup_insert_eq by done.
  cbn [mbind option_bind]. rewrite Z.land_comm. f_equal. apply negb_true_iff, Z.eqb_neq.
  replace (Z.land (u64 (bit_int pos)) (Z.lor w (u64 (bit_int pos)))) with (u64 (bit_int pos)); [apply bit_int_ne|]. apply Z.bits_inj'. intros n Hn. rewrite Z.land_spec, Z.lor_spec. by destruct (Z.testbit _ n), (Z.testbit w n).
Qed.

Lemma unset_some m pos : 0 <= pos < 64 * lenZ m -> exists m', map_bit_unset m pos = Some m' /\ length m' = length m.
Proof.
  intros (i & w & E & Hw)%map_word. unfold map_bit_unset. rewrite E, at_lookup, Hw. cbn [mbind option_bind].
  rewrite put_insert by (by eapply lookup_lt_Some). eexists. split; [done|]. by rewrite length_insert.
Qed.

(** ** A new first node *)

Lemma chains_insert tbl ps ls i be : Forall2 (chain tbl) ps ls -> i ∉ concat ls -> Forall2 (chain (<[i := be]> tbl)) ps ls.
Proof.
  induction 1 as [|p l ps ls Hp Hps IH]; intros Hi; [done|]. cbn in Hi. rewrite not_elem_of_app in Hi. constructor; [apply chain_insert; tauto|apply IH; tauto].
Qed.

(** [h'] is [h] with the empty node [i] in front of bucket [b]. *)
Record pushed (h h' : hash_handle) (b i : nat) (head : Z) (be : bucket_entry) : Prop := {
  pu_sizes : same_sizes h h';
  pu_addrs : same_addrs h h';
  pu_table : hash_table h' = <[i := mk_bucket_entry (be_entries be) head]> (hash_table h);
  pu_buckets : hash_buckets h' = <[b := ptr_to i]> (hash_buckets h);
  pu_count : alloc_count h' = alloc_count h + 1
}.

(** The invariant after it, when the node left the free lists or the unused
    part of the table. *)
Lemma push_ok h h' cs fs fs' b c i head be :
  dir_ok h cs fs -> cs !! b = Some c -> hash_buckets h !! b = Some head -> hash_table h !! i = Some be ->
  uses (be_entries be) = [] -> (forall d l, c = d :: l -> full (node (hash_table h) d)) -> pushed h h' b i head be ->
  Forall2 (chain (hash_table h)) (bucket_locks_free_list h') fs' -> length fs' = length fs ->
  hash_table_idx h <= hash_table_idx h' <= max_hash_table_idx h ->
  NoDup (i :: concat cs ++ concat fs') -> (forall x, x ∈ i :: concat fs' -> x ∈ concat fs \/ hash_table_idx h <= n2z x < hash_table_idx h') ->
  lenZ (concat fs') + 1 - hash_table_idx h' = lenZ (concat fs) - hash_table_idx h ->
  let cs' := <[b := i :: c]> cs in
  dir_inv (Some b) 1 h' cs' fs' /\ same_others b h h' cs cs' /\ contents (hash_table h') (i :: c) = contents (hash_table h) c /\
  node (hash_table h') i = be_entries be.
Proof.
  intros H Hb Hhead Hi Hun Hfull [[Es1 Es2 Es3 Es4 Es5 Es6] _ Et Ebk Ec] Hfl Hlfs Hidx [Hnin Hnd]%NoDup_cons Hsub Hcov cs'.
  pose proof (lookup_lt_Some _ _ _ Hi) as Hlt. pose proof (lookup_lt_Some _ _ _ Hb) as Hblt.
  assert (i ∉ concat cs) as Hncs by (intros ?; apply Hnin, elem_of_app; tauto).
  assert (i ∉ concat fs') as Hnfs by (intros ?; apply Hnin, elem_of_app; tauto).
  assert (concat cs' ≡ₚ i :: concat cs) as Hcs'.
  { unfold cs'. rewrite (concat_insert _ _ _ _ Hb), (concat_split _ _ _ Hb). done. }
  assert (forall j, j <> i -> node (hash_table h') j = node (hash_table h) j) as Hn by (intros j Hj; rewrite Et; apply node_insert_ne; congruence).
  assert (node (hash_table h') i = be_entries be) as Hni by (rewrite Et, node_insert by done; done).
  assert (forall l, i ∉ l -> contents (hash_table h') l = contents (hash_table h) l) as Hcont by (intros l Hl; rewrite Et; by apply contents_insert).
  assert (contents (hash_table h') (i :: c) = contents (hash_table h) c) as Hc.
  { change (uses (node (hash_table h') i) ++ contents (hash_table h') c = contents (hash_table h) c). rewrite Hni, Hun. cbn. apply Hcont.
    intros Hin. apply Hncs. by eapply elem_concat. }
  split; [|split; [|by split]].
  - split; try (rewrite ?Es1, ?Es2, ?Es3, ?Es4, ?Es5, ?Es6; apply H).
    + rewrite Es1, (d_cs _ _ _ _ _ H). unfold cs'. by rewrite length_insert.
    + rewrite Es3, (d_fs _ _ _ _ _ H). by rewrite Hlfs.
    + pose proof (d_idx _ _ _ _ _ H). rewrite Es4. lia.
    + rewrite Et. apply four_insert; [apply H|]. cbn. pose proof (d_four _ _ _ _ _ H) as Hf. rewrite Forall_lookup in Hf. by eapply Hf.
    + rewrite Ebk, Et. unfold cs'. apply Forall2_insert.
      * apply chains_insert; [apply H|done].
      * split; [done|]. eexists. split; [by apply list_lookup_insert_eq|]. cbn [be_next]. apply chain_insert; [intros Hin; apply Hncs; by eapply elem_concat|].
        destruct (bucket_chain _ _ _ _ _ H b c Hb) as (p & Hp & Hch). congruence.
    + rewrite Et. by apply chains_insert.
    + rewrite Hcs'. by apply NoDup_cons.
    + intros x Hx. rewrite Hcs' in Hx. cbn [app] in Hx. rewrite elem_of_cons, elem_of_app in Hx.
      assert (x ∈ concat cs \/ x ∈ i :: concat fs') as [Hx1|Hx1] by (rewrite elem_of_cons; tauto).
      * pose proof (d_alloc _ _ _ _ _ H x). assert (x ∈ concat cs ++ concat fs) as Hx2%(d_alloc _ _ _ _ _ H) by (apply elem_of_app; tauto). lia.
      * destruct (Hsub x Hx1) as [Hx2|Hx2]; [|lia]. assert (x ∈ concat cs ++ concat fs) as Hx3%(d_alloc _ _ _ _ _ H) by (apply elem_of_app; tauto). lia.
    + rewrite Hcs'. cbn [app length]. pose proof (d_cover _ _ _ _ _ H) as Hd. rewrite length_app in Hd |- *. lia.
    + intros j cj Hj. unfold cs' in Hj. destruct (decide (j = b)) as [->|Hne].
      * rewrite list_lookup_insert_eq in Hj by done. injection Hj as <-. split; [done|]. apply Forall_forall. intros d Hd.
        assert (d ∈ concat cs) by (by eapply elem_concat). rewrite Hn by congruence.
        pose proof (d_heads _ _ _ _ _ H b c Hb) as Hok. destruct c as [|d' c]; [by apply not_elem_of_nil in Hd|]. destruct Hok as [_ Hok].
        apply elem_of_cons in Hd as [->|Hd]; [by eapply Hfull|]. rewrite Forall_forall in Hok. by apply Hok.
      * rewrite list_lookup_insert_ne in Hj by congruence. pose proof (d_heads _ _ _ _ _ H j cj Hj) as Hok.
        assert (forall d, d ∈ cj -> node (hash_table h') d = node (hash_table h) d) as Hd.
        { intros d Hd. apply Hn. intros ->. apply Hncs. by eapply elem_concat. }
        destruct cj as [|d l]; [done|]. destruct Hok as [Hok1 Hok2]. split.
        -- intros _. rewrite Hd by left. by apply Hok1.
        -- apply Forall_forall. intros x Hx. rewrite Forall_forall in Hok2. rewrite Hd by (by right). by apply Hok2.
    + intros x Hx. assert (x <> i) as Hxi.
      { intros ->. destruct Hx as [Hx|Hx]; [done|]. destruct (Hsub i) as [Hs|Hs]; [left|..|lia].
        assert (i ∈ concat cs ++ concat fs) as Hx3%(d_alloc _ _ _ _ _ H) by (apply elem_of_app; tauto). lia. }
      rewrite Hn by done. apply (d_empty _ _ _ _ _ H). destruct Hx as [Hx|Hx]; [|lia]. destruct (Hsub x) as [Hs|Hs]; [by right|tauto|lia].
    + rewrite Ec, (d_count _ _ _ _ _ H). rewrite (contents_perm _ _ _ Hcs'). cbn [length].
      change (contents (hash_table h') (i :: concat cs)) with (uses (node (hash_table h') i) ++ contents (hash_table h') (concat cs)).
      rewrite Hni, Hun, Hcont by done. cbn. lia.
  - unfold cs'. split; [by rewrite length_insert|]. intros j cj Hj Hcj. split; [by rewrite list_lookup_insert_ne|]. apply Hcont.
    intros Hin. apply Hncs. by eapply elem_concat.
Qed.

(** ** Insertion *)

Lemma contents_len tbl l : Forall (fun be => length (be_entries be) = OSD_HASH_ENTRY_PER_BUCKET_ENTRY) tbl ->
  (length (contents tbl l) <= 4 * length l)%nat.
Proof.
  intros Hf. induction l as [|i l IH]; [cbn; lia|]. change (contents tbl (i :: l)) with (uses (node tbl i) ++ contents tbl l).
  rewrite length_app. cbn [length]. assert (length (uses (node tbl i)) <= 4)%nat; [|lia].
  etransitivity; [apply length_filter|]. unfold node. destruct (tbl !! i) as [be|] eqn:Hi; [|cbn; lia]. rewrite Forall_lookup in Hf. by rewrite (Hf i be Hi).
Qed.

Lemma count_bound hole k h cs fs : dir_inv hole k h cs fs -> k <= alloc_count h <= 4 * max_hash_table_idx h + k.
Proof.
  intros H. rewrite (d_count _ _ _ _ _ H). pose proof (contents_len (hash_table h) (concat cs) (d_four _ _ _ _ _ H)).
  pose proof (d_cover _ _ _ _ _ H) as Hc. rewrite length_app in Hc. pose proof (d_idx _ _ _ _ _ H). lia.
Qed.

Lemma add_alloc_1 hole h cs fs : dir_inv hole 0 h cs fs -> u64 (alloc_count h + 1) = alloc_count h + 1.
Proof. intros H. pose proof (count_bound _ _ _ _ _ H). pose proof (d_max32 _ _ _ _ _ H). pose proof (d_idx _ _ _ _ _ H). apply u64_small. lia. Qed.

(** A free entry [p] at the front of bucket [b], whose chain was [c]. *)
Definition opened (h h1 : hash_handle) (cs : list (list nat)) (b : nat) (c : list nat) (p : nat * nat) : Prop :=
  exists cs' fs' i l s old, p = (i, s) /\ dir_inv (Some b) 1 h1 cs' fs' /\ cs' !! b = Some (i :: l) /\
    node (hash_table h1) i !! s = Some old /\ used old = false /\ same_sizes h h1 /\ same_addrs h h1 /\
    same_others b h h1 cs cs' /\ contents (hash_table h1) (i :: l) = contents (hash_table h) c.

(** The free list of lock [l] is empty or not seen. *)
Definition hidden (h : hash_handle) (fs : list (list nat)) (l : nat) : Prop :=
  map_bit_isset (bucket_locks_free_map h) (n2z l) = Some false \/ fs !! l = Some [].

Definition head_full (h : hash_handle) (c : list nat) : Prop := forall d l, c = d :: l -> full (node (hash_table h) d).

Lemma first_slot (be : bucket_entry) : length (be_entries be) = OSD_HASH_ENTRY_PER_BUCKET_ENTRY -> uses (be_entries be) = [] ->
  exists old, be_entries be !! 0%nat = Some old /\ used old = false.
Proof.
  intros Hl Hu. destruct (be_entries be) as [|e es]; [done|]. exists e. split; [done|]. rewrite uses_cons in Hu. unfold use1 in Hu. by destruct (used e).
Qed.

Lemma pop_free_ok h cs fs l b c :
  dir_ok h cs fs -> (l < length fs)%nat -> cs !! b = Some c -> head_full h c ->
  exists r h1, pop_free h (n2z l) (n2z b) = Some (r, h1) /\
    match r with None => h1 = h /\ hidden h fs l | Some p => opened h h1 cs b c p end.
Proof.
  intros H Hl Hb Hfull. unfold pop_free. pose proof (d_fs _ _ _ _ _ H) as Hfs. pose proof (d_map _ _ _ _ _ H) as Hmap.
  destruct (isset_some (bucket_locks_free_map h) (n2z l) ltac:(lia)) as [bit Hbit]. rewrite Hbit. cbn [mbind option_bind].
  destruct (lookup_lt_is_Some_2 fs l Hl) as [fl Hfl]. destruct (free_chain _ _ _ _ _ H l fl Hfl) as (p & Hp & Hch). rewrite (at_lookup (bucket_locks_free_list h)), Hp. cbn [mbind option_bind].
  destruct bit; [|exists None, h; split; [done|split; [done|by left]]]. destruct fl as [|i fl]; cbn in Hch.
  { subst p. exists None, h. split; [done|]. split; [done|by right]. }
  destruct Hch as (-> & be & Hbe & Hch). rewrite ptr_to_ne. cbn [andb negb]. rewrite at_ptr, Hbe. cbn [mbind option_bind].
  pose proof (lookup_lt_Some _ _ _ Hp) as Hplt. rewrite put_insert by done. cbn [mbind option_bind].
  assert (exists m, (if be_next be =? 0 then map_bit_unset (bucket_locks_free_map h) (n2z l) else Some (bucket_locks_free_map h)) = Some m /\
    length m = length (bucket_locks_free_map h)) as (m & -> & Hm).
  { destruct (be_next be =? 0); [apply unset_some; lia|by eexists]. }
  cbn [mbind option_bind]. destruct (bucket_chain _ _ _ _ _ H b c Hb) as (head & Hhead & Hbch). rewrite (at_lookup (hash_buckets h)), Hhead. cbn [mbind option_bind].
  unfold set_next. rewrite ptr_to_idx. cbn [hash_table set_free_map set_free_list]. rewrite Hbe. cbn [mbind option_bind hash_buckets set_table set_free_map set_free_list].
  rewrite put_insert by (by eapply lookup_lt_Some). cbn [mbind option_bind]. eexists (Some (i, 0%nat)), _. split; [reflexivity|].
  assert (uses (be_entries be) = []) as Hun.
  { pose proof (d_empty _ _ _ _ _ H i) as He. unfold node in He. rewrite Hbe in He. apply He. left. eapply elem_concat; [done|left]. }
  destruct (push_ok h (add_alloc (set_buckets (set_table (set_free_map (set_free_list h (<[l := be_next be]> (bucket_locks_free_list h))) m)
              (<[i := mk_bucket_entry (be_entries be) head]> (hash_table h))) (<[b := ptr_to i]> (hash_buckets h))) 1)
              cs fs (<[l := fl]> fs) b c i head be H Hb Hhead Hbe Hun Hfull) as (Hinv & Hoth & Hcont & Hnode); cbn.
  - split; [split; try done; cbn; by rewrite length_insert|by split|done|done|]. by apply add_alloc_1 in H.
  - apply Forall2_insert; [apply H|done].
  - by rewrite length_insert.
  - pose proof (d_idx _ _ _ _ _ H). lia.
  - pose proof (d_nodup _ _ _ _ _ H) as Hnd. rewrite (concat_split _ _ _ Hfl) in Hnd. rewrite (concat_insert _ _ _ _ Hfl). cbn [app] in Hnd. by rewrite <- Permutation_middle in Hnd.
  - intros x. rewrite (concat_split _ _ _ Hfl), elem_of_cons, (concat_insert _ _ _ _ Hfl), !elem_of_app, elem_of_cons. tauto.
  - rewrite (concat_insert _ _ _ _ Hfl), (concat_split _ _ _ Hfl), !length_app. cbn [length]. lia.
  - destruct (first_slot be) as (old & Hold & Hu); [pose proof (d_four _ _ _ _ _ H) as Hf; rewrite Forall_lookup in Hf; by eapply Hf|done|].
    eexists _, _, i, c, 0%nat, old. split; [done|]. split; [exact Hinv|]. split; [apply list_lookup_insert_eq; by eapply lookup_lt_Some|].
    split; [by rewrite Hnode|]. split; [done|]. split; [split; try done; cbn; by rewrite length_insert|]. split; [by split|]. by split.
Qed.

Lemma pop_other_ok n : forall h cs fs l b c,
  dir_ok h cs fs -> (l + n <= length fs)%nat -> cs !! b = Some c -> head_full h c ->
  exists r h1, pop_other n h (n2z l) (n2z b) = Some (r, h1) /\
    match r with None => h1 = h /\ (forall j, (l <= j < l + n)%nat -> hidden h fs j) | Some p => opened h h1 cs b c p end.
Proof.
  induction n as [|n IH]; intros h cs fs l b c H Hl Hb Hfull; [exists None, h; split; [done|]; split; [done|lia]|]. cbn [pop_other].
  pose proof (d_fs _ _ _ _ _ H). pose proof (d_map _ _ _ _ _ H).
  destruct (isset_some (bucket_locks_free_map h) (n2z l) ltac:(lia)) as [bit Hbit]. rewrite Hbit. cbn [mbind option_bind].
  replace (n2z l + 1) with (n2z (S l)) by lia. destruct (IH h cs fs (S l) b c H ltac:(lia) Hb Hfull) as (r & h1 & Hr & Hcase).
  assert (hidden h fs l -> exists r h1, pop_other n h (n2z (S l)) (n2z b) = Some (r, h1) /\
    match r with None => h1 = h /\ (forall j, (l <= j < l + S n)%nat -> hidden h fs j) | Some p => opened h h1 cs b c p end) as Hrest.
  { intros Hh. exists r, h1. split; [done|]. destruct r as [p|]; [done|]. destruct Hcase as [-> Hj]. split; [done|]. intros j Hlt.
    destruct (decide (j = l)) as [->|]; [done|apply Hj; lia]. }
  destruct bit; [|apply Hrest; by left].
  destruct (pop_free_ok h cs fs l b c H ltac:(lia) Hb Hfull) as (r' & h' & -> & Hcase'). cbn [mbind option_bind].
  destruct r' as [p|]; [exists (Some p), h'; by split|]. apply Hrest. tauto.
Qed.

(** The node after the last one in use. *)
Lemma new_node_ok h cs fs b c :
  dir_ok h cs fs -> cs !! b = Some c -> head_full h c -> hash_table_idx h < max_hash_table_idx h ->
  exists head h1, hash_buckets h !! b = Some head /\
    (h' ← set_next (set_table_idx h (u32 (hash_table_idx h + 1))) (z2n (hash_table_idx h)) head;
     bs ← put_ (hash_buckets h') (n2z b) (u32 (hash_table_idx h + 1));
     Some (Some (z2n (hash_table_idx h), 0%nat), add_alloc (set_buckets h' bs) 1)) = Some (Some (z2n (hash_table_idx h), 0%nat), h1) /\
    opened h h1 cs b c (z2n (hash_table_idx h), 0%nat).
Proof.
  intros H Hb Hfull Hlt. destruct (bucket_chain _ _ _ _ _ H b c Hb) as (head & Hhead & Hch). pose proof (d_idx _ _ _ _ _ H) as Hidx. pose proof (d_max _ _ _ _ _ H) as Hmax.
  set (i := z2n (hash_table_idx h)). assert (hash_table_idx h = n2z i) as Ei by (unfold i; lia).
  destruct (lookup_lt_is_Some_2 (hash_table h) i ltac:(lia)) as [be Hbe]. pose proof (d_max32 _ _ _ _ _ H).
  assert (u32 (hash_table_idx h + 1) = ptr_to i) as Eu by (rewrite u32_small; [unfold ptr_to; lia|lia]).
  assert (uses (be_entries be) = []) as Hun.
  { pose proof (d_empty _ _ _ _ _ H i) as He. unfold node in He. rewrite Hbe in He. apply He. right. lia. }
  exists head. eexists. split; [done|]. unfold set_next. cbn [hash_table set_table_idx]. rewrite Hbe. cbn [mbind option_bind hash_buckets set_table set_table_idx].
  rewrite put_insert by (by eapply lookup_lt_Some). cbn [mbind option_bind]. split; [reflexivity|]. rewrite Eu.
  destruct (push_ok h (add_alloc (set_buckets (set_table (set_table_idx h (ptr_to i)) (<[i := mk_bucket_entry (be_entries be) head]> (hash_table h)))
              (<[b := ptr_to i]> (hash_buckets h))) 1) cs fs fs b c i head be H Hb Hhead Hbe Hun Hfull) as (Hinv & Hoth & Hcont & Hnode); cbn.
  - split; [split; try done; cbn; by rewrite length_insert|by split|done|done|]. by apply add_alloc_1 in H.
  - apply H.
  - done.
  - unfold ptr_to. lia.
  - apply NoDup_cons. split; [|apply H]. intros Hin%(d_alloc _ _ _ _ _ H). lia.
  - intros x [->|Hx]%elem_of_cons; [right; unfold ptr_to; lia|by left].
  - unfold ptr_to. lia.
  - destruct (first_slot be) as (old & Hold & Hu); [pose proof (d_four _ _ _ _ _ H) as Hf; rewrite Forall_lookup in Hf; by eapply Hf|done|].
    eexists _, _, i, c, 0%nat, old. split; [done|]. split; [exact Hinv|]. split; [apply list_lookup_insert_eq; by eapply lookup_lt_Some|].
    split; [by rewrite Hnode|]. split; [done|]. split; [split; try done; cbn; by rewrite length_insert|]. split; [by split|]. by split.
Qed.

(** What the directory lacks when an insertion finds no entry. *)
Definition no_room (h : hash_handle) (cs fs : list (list nat)) (syn : Z) : Prop :=
  max_hash_table_idx h <= hash_table_idx h /\ hidden h fs (z2n (lock_of_syn h syn)) /\
  forall l, n2z l < lock_bktsize h -> hidden h fs l.

Lemma insert_by_key_ok h cs fs syn b c :
  dir_ok h cs fs -> 0 <= syn -> bucket_of_syn h syn = n2z b -> cs !! b = Some c ->
  exists r h1, hash_entry_insert_by_key h syn = Some (r, h1) /\
    match r with None => h1 = h /\ head_full h c /\ no_room h cs fs syn | Some p => opened h h1 cs b c p end.
Proof.
  intros H Hsyn Hbk Hb. unfold hash_entry_insert_by_key. rewrite Hbk. destruct (bucket_chain _ _ _ _ _ H b c Hb) as (head & Hhead & Hch).
  rewrite (at_lookup (hash_buckets h)), Hhead. cbn [mbind option_bind]. pose proof (d_heads _ _ _ _ _ H b c Hb) as Hok.
  assert (exists slot, (if negb (head =? 0) then be ← at_ (hash_table h) (head - 1); Some (unused_slot be) else Some None) = Some slot /\
    match slot with
    | Some s => exists i l e, c = i :: l /\ head = ptr_to i /\ node (hash_table h) i !! s = Some e /\ used e = false
    | None => head_full h c
    end) as (slot & -> & Hslot).
  { destruct c as [|i l]; cbn in Hch; [subst head; exists None; by split|]. destruct Hch as (-> & be & Hbe & _). rewrite ptr_to_ne. cbn [negb].
    rewrite at_ptr, Hbe. cbn [mbind option_bind]. exists (unused_slot be). split; [done|]. unfold unused_slot, head_full, node.
    destruct (list_find _ _) as [[s e]|] eqn:Ef; cbn.
    - apply list_find_Some in Ef as (He & Hu & _). exists i, l, e. by rewrite Hbe.
    - apply list_find_None in Ef. intros d l' [= <- <-]. rewrite Hbe. eapply Forall_impl; [exact Ef|]. intros e He. cbn in He. destruct (used e); [done|by destruct He]. }
  cbn [mbind option_bind]. destruct slot as [s|].
  { destruct Hslot as (i & l & e & -> & -> & He & Hu). rewrite ptr_to_idx. eexists _, _. split; [reflexivity|]. cbn.
    destruct (inv_entries None (Some b) 0 1 h (add_alloc h 1) cs fs b (i :: l) H ltac:(by left) ltac:(by right) Hb) as [Hinv Hoth]; cbn; try done.
    - apply H.
    - intros j be Hj. by exists be.
    - split; [done|apply Hok].
    - rewrite (add_alloc_1 _ _ _ _ H). lia.
    - exists cs, fs, i, l, s, e. split; [done|]. split; [exact Hinv|]. done. }
  pose proof (lock_lt _ _ _ _ _ H syn Hsyn) as Hll. destruct (pop_free_ok h cs fs (z2n (lock_of_syn h syn)) b c H ltac:(lia) Hb Hslot) as (r & h1 & Hr & Hcase).
  rewrite Z2Nat.id in Hr by lia. rewrite Hr. cbn [mbind option_bind]. destruct r as [p|]; [exists (Some p), h1; by split|]. destruct Hcase as [-> Hhid].
  destruct (Z.ltb_spec (hash_table_idx h) (max_hash_table_idx h)).
  - destruct (new_node_ok h cs fs b c H Hb Hslot ltac:(lia)) as (head' & h1 & Hh' & Heq & Hop). assert (head' = head) as -> by congruence.
    exists (Some (z2n (hash_table_idx h), 0%nat)), h1. split; [exact Heq|done].
  - pose proof (d_bktsize _ _ _ _ _ H). pose proof (d_fs _ _ _ _ _ H).
    destruct (pop_other_ok (z2n (lock_bktsize h)) h cs fs 0 b c H ltac:(lia) Hb Hslot) as (r & h1 & Hr' & Hcase). cbn [Z.of_nat] in Hr'.
    exists r, h1. split; [exact Hr'|]. destruct r as [p|]; [done|]. destruct Hcase as [-> Hj]. split; [done|]. split; [done|]. split; [done|]. split; [done|].
    intros l Hl. apply Hj. lia.
Qed.

(** Inserting and filling an entry. *)
Lemma insert_ok h cs fs syn b c e :
  dir_ok h cs fs -> 0 <= syn -> bucket_of_syn h syn = n2z b -> cs !! b = Some c -> used e = true ->
  exists r h1, hash_entry_insert_by_key h syn = Some (r, h1) /\
    match r with
    | None => h1 = h /\ head_full h c /\ no_room h cs fs syn
    | Some p => exists h2 cs' fs' c', hash_entry_copy h1 p (Some e) = Some h2 /\ dir_ok h2 cs' fs' /\ same_sizes h h2 /\ same_addrs h h2 /\
        same_addrs h h1 /\ same_others b h h2 cs cs' /\ cs' !! b = Some c' /\ contents (hash_table h2) c' ≡ₚ e :: contents (hash_table h) c
    end.
Proof.
  intros H Hs Hbk Hb He. destruct (insert_by_key_ok h cs fs syn b c H Hs Hbk Hb) as (r & h1 & Hr & Hcase). exists r, h1. split; [done|].
  destruct r as [p|]; [|done]. destruct Hcase as (cs' & fs' & i & l & s & old & -> & Hinv & Hb' & Hold & Hu & Hsz & Had & Hoth & Hc).
  destruct (entry_fill_ok h1 cs' fs' b i l s old e Hinv Hb' Hold Hu He) as (h2 & Hcopy & Hok & Hsz2 & Had2 & Hoth2 & Hc2).
  exists h2, cs', fs', (i :: l). split; [done|]. split; [done|]. split; [by etransitivity|]. split; [by etransitivity|]. split; [done|].
  split; [by eapply same_others_trans|]. split; [done|]. by rewrite Hc2, Hc.
Qed.

(** ** The table by address *)

Definition upd_addr (t : option (list Z)) (a v : Z) : option (list Z) := (fun t => <[z2n a := v]> t) <$> t.

(** The address has a place in the table, if there is one. *)
Definition addr_in (t : option (list Z)) (a : Z) : Prop := match t with Some t => 0 <= a < lenZ t | None => True end.

Lemma set_addr_ok h a v : addr_in (addr_table h) a -> set_addr h a v = Some (set_addr_table h (upd_addr (addr_table h) a v)).
Proof.
  intros Ha. unfold set_addr, upd_addr. destruct (addr_table h) as [t|] eqn:E; cbn in *.
  - unfold put_. rewrite (proj2 (Z.leb_le _ _)), (proj2 (Z.ltb_lt _ _)) by lia. done.
  - destruct h. cbn in E. by subst.
Qed.

Lemma addr_in_upd t a a' v : addr_in (upd_addr t a' v) a <-> addr_in t a.
Proof. destruct t as [t|]; [|done]. cbn. by rewrite length_insert. Qed.

Lemma inv_addr hole k h cs fs t : dir_inv hole k h cs fs -> dir_inv hole k (set_addr_table h t) cs fs.
Proof. intros []. by split. Qed.

(** ** Deletion *)

Lemma find_node_ok tbl i s c : forall fuel p, chain tbl p c -> i ∈ c -> (length c <= fuel)%nat -> (s < 4)%nat ->
  find_node fuel tbl p (i, s) = Some (ptr_to i).
Proof.
  induction c as [|j c IH]; intros fuel p Hc Hi Hf Hs; [by apply not_elem_of_nil in Hi|]. destruct Hc as (-> & be & Hbe & Hc).
  destruct fuel as [|fuel]; cbn in Hf; [lia|]. cbn [find_node]. rewrite ptr_to_ne, at_ptr, Hbe. cbn [mbind option_bind]. rewrite ptr_to_idx. cbn [fst snd].
  unfold OSD_HASH_ENTRY_PER_BUCKET_ENTRY. rewrite (proj2 (Nat.ltb_lt s 4) Hs). destruct (Nat.eqb_spec j i) as [->|]; [done|]. cbn [andb].
  apply IH; [done| |lia|done]. apply elem_of_cons in Hi as [->|]; [done|done].
Qed.

Section refill.
Context (moved : hash_handle -> Z -> option hash_handle).

Lemma refill_skip h d hd j slots : (forall x, x ∈ slots -> exists e, read_entry h (d, x) = Some e /\ used e = true) ->
  refill moved h d hd slots j = Some h.
Proof.
  induction slots as [|x slots IH]; intros Hs; [done|]. cbn [refill]. destruct (Hs x) as (e & -> & Hu); [left|]. cbn [mbind option_bind]. rewrite Hu. apply IH. intros. apply Hs. by right.
Qed.

Lemma refill_app h d hd j slots slots' : (forall x, x ∈ slots -> exists e, read_entry h (d, x) = Some e /\ used e = true) ->
  refill moved h d hd (slots ++ slots') j = refill moved h d hd slots' j.
Proof.
  induction slots as [|x slots IH]; intros Hs; [done|]. cbn [refill app]. destruct (Hs x) as (e & -> & Hu); [left|]. cbn [mbind option_bind]. rewrite Hu. apply IH. intros. apply Hs. by right.
Qed.
End refill.

Lemma read_entry_node h i s : read_entry h (i, s) = node (hash_table h) i !! s.
Proof. unfold read_entry, node. cbn. by destruct (hash_table h !! i). Qed.

(** The chain after a deletion: the first node may have gone to the free list
    of lock [lk]. *)
Definition head_step (c c' : list nat) (h' : hash_handle) (fs fs' : list (list nat)) (lk : nat) : Prop :=
  (c' = c /\ fs' = fs) \/ (exists hd, c = hd :: c' /\ hd ∈ concat fs' /\ (forall i, i ∈ concat fs -> i ∈ concat fs') /\ ~ hidden h' fs' lk).

(** The first node of the bucket may have become empty. *)
Lemma free_head_ok h cs fs b hd l lk :
  dir_inv (Some b) 0 h cs fs -> cs !! b = Some (hd :: l) -> (lk < length fs)%nat ->
  exists h' cs' fs' c', free_head h (n2z b) (n2z lk) (ptr_to hd) = Some h' /\ dir_ok h' cs' fs' /\ same_sizes h h' /\ same_addrs h h' /\
    same_others b h h' cs cs' /\ cs' !! b = Some c' /\ contents (hash_table h') c' = contents (hash_table h) (hd :: l) /\
    head_step (hd :: l) c' h' fs fs' lk.
Proof.
  intros H Hb Hlk. unfold free_head. rewrite at_ptr. destruct (bucket_chain _ _ _ _ _ H b _ Hb) as (p & Hp & -> & be & Hbe & Hch). rewrite Hbe. cbn [mbind option_bind].
  assert (node (hash_table h) hd = be_entries be) as Hnode by (unfold node; by rewrite Hbe).
  pose proof (d_heads _ _ _ _ _ H b _ Hb) as [_ Hfull]. pose proof (lookup_lt_Some _ _ _ Hb) as Hblt.
  destruct (existsb used (be_entries be)) eqn:Eu.
  { exists h, cs, fs, (hd :: l). split; [done|].
    destruct (inv_entries (Some b) None 0 0 h h cs fs b (hd :: l) H ltac:(by right) ltac:(by left) Hb) as [Hinv Hoth]; try done.
    - apply H.
    - intros j x Hj. by exists x.
    - split; [|done]. intros _. rewrite Hnode. by apply existsb_uses.
    - do 6 (split; [done|]). by left. }
  rewrite put_insert by (by eapply lookup_lt_Some). cbn [mbind option_bind].
  destruct (lookup_lt_is_Some_2 fs lk Hlk) as [fl Hfl]. destruct (free_chain _ _ _ _ _ H lk fl Hfl) as (first & Hfirst & Hfch).
  rewrite (at_lookup (bucket_locks_free_list h)), Hfirst. cbn [mbind option_bind]. unfold set_next. rewrite ptr_to_idx. cbn [hash_table set_buckets]. rewrite Hbe.
  cbn [mbind option_bind bucket_locks_free_list set_table set_buckets bucket_locks_free_map]. rewrite put_insert by (by eapply lookup_lt_Some). cbn [mbind option_bind].
  pose proof (d_fs _ _ _ _ _ H) as Hfs. pose proof (d_map _ _ _ _ _ H) as Hmap.
  destruct (set_some (bucket_locks_free_map h) (n2z lk) ltac:(lia)) as (m & -> & Hm & Hbit). cbn [mbind option_bind]. rewrite ptr_to_ne. cbn [assert_ negb mbind option_bind].
  set (tbl := <[hd := mk_bucket_entry (be_entries be) first]> (hash_table h)). set (h' := set_free_map _ _).
  pose proof (lookup_lt_Some _ _ _ Hbe) as Hlt. pose proof (existsb_used _ Eu) as Hemp%uses_empty.
  assert (forall x, node tbl x = node (hash_table h) x) as Hn.
  { intros x. unfold tbl. destruct (decide (x = hd)) as [->|]; [rewrite node_insert by done; by rewrite Hnode|apply node_insert_ne; congruence]. }
  assert (forall l, contents tbl l = contents (hash_table h) l) as Hcont by (intros x; by apply contents_ext).
  assert (concat (<[b := l]> cs) ++ concat (<[lk := hd :: fl]> fs) ≡ₚ concat cs ++ concat fs) as Hperm.
  { rewrite (concat_insert _ _ _ _ Hb), (concat_split _ _ _ Hb), (concat_insert _ _ _ _ Hfl), (concat_split _ _ _ Hfl). cbn [app].
    rewrite <- Permutation_middle. by rewrite !(assoc app). }
  exists h', (<[b := l]> cs), (<[lk := hd :: fl]> fs), l. split; [done|].
  assert (same_sizes h h') as Hsz by (split; try done; cbn; unfold tbl; by rewrite ?length_insert).
  assert (hd ∉ concat (<[b := l]> cs)) as Hnin.
  { pose proof (nodes_nodup _ _ _ _ _ H) as Hnd. rewrite (concat_split _ _ _ Hb) in Hnd. cbn in Hnd. apply NoDup_cons in Hnd as [Hnd _].
    by rewrite (concat_insert _ _ _ _ Hb). }
  split; [|split; [done|split; [by split|split; [|split; [by apply list_lookup_insert_eq|split]]]]].
  - split; cbn; try apply H.
    + rewrite length_insert. apply H.
    + rewrite length_insert. apply H.
    + rewrite Hm. apply H.
    + unfold tbl. rewrite length_insert. apply H.
    + unfold tbl. apply four_insert; [apply H|]. cbn. pose proof (d_four _ _ _ _ _ H) as Hf. rewrite Forall_lookup in Hf. by eapply Hf.
    + unfold tbl. apply chains_insert; [|done]. apply Forall2_insert; [apply H|done].
    + unfold tbl. apply Forall2_insert.
      * apply chains_insert; [apply H|]. intros Hin. apply (not_in_others _ _ _ _ hd (d_nodup _ _ _ _ _ H) Hb); [by right|left].
      * split; [done|]. eexists. split; [by apply list_lookup_insert_eq|]. cbn. apply chain_insert; [|done]. intros Hin.
        apply (not_in_others _ _ _ _ hd (d_nodup _ _ _ _ _ H) Hb); [right; by eapply elem_concat|left].
    + rewrite Hperm. apply H.
    + intros x. rewrite Hperm. apply H.
    + rewrite Hperm. apply H.
    + intros j cj Hj. destruct (decide (j = b)) as [->|Hne].
      * rewrite list_lookup_insert_eq in Hj by done. injection Hj as <-. destruct l as [|x l]; [done|]. apply Forall_cons in Hfull as [Hx Hfull]. split.
        -- intros _. rewrite Hn. intros Hnil. rewrite uses_full in Hnil by done.
           destruct (chain_in _ _ _ x Hch ltac:(left)) as [bx Hbx]. pose proof (d_four _ _ _ _ _ H) as Hf. rewrite Forall_lookup in Hf. specialize (Hf x bx Hbx).
           unfold node in Hnil. rewrite Hbx in Hnil. by rewrite Hnil in Hf.
        -- apply Forall_forall. intros y Hy. rewrite Hn. rewrite Forall_forall in Hfull. by apply Hfull.
      * rewrite list_lookup_insert_ne in Hj by congruence. pose proof (d_heads _ _ _ _ _ H j cj Hj) as Hok. destruct cj as [|x cj]; [done|].
        destruct Hok as [Hok1 Hok2]. split; [intros _; rewrite Hn; apply Hok1; congruence|]. apply Forall_forall. intros y Hy. rewrite Hn. rewrite Forall_forall in Hok2. by apply Hok2.
    + intros x Hx. rewrite Hn. destruct Hx as [Hx|Hx]; [|apply (d_empty _ _ _ _ _ H); by right].
      rewrite (concat_insert _ _ _ _ Hfl) in Hx. cbn in Hx. apply elem_of_cons in Hx as [->|Hx]; [by rewrite Hnode|].
      apply (d_empty _ _ _ _ _ H). left. by rewrite (concat_split _ _ _ Hfl).
    + rewrite (d_count _ _ _ _ _ H), !Hcont. f_equal. f_equal. rewrite (contents_perm _ _ _ (concat_split _ _ _ Hb)), (contents_perm _ _ _ (concat_insert _ _ _ l Hb)).
      change (contents (hash_table h) ((hd :: l) ++ concat (delete b cs))) with (uses (node (hash_table h) hd) ++ contents (hash_table h) (l ++ concat (delete b cs))).
      by rewrite Hnode, Hemp.
  - split; [by rewrite length_insert|]. intros j cj Hj Hcj. rewrite list_lookup_insert_ne by congruence. split; [done|]. apply Hcont.
  - cbn. rewrite Hcont. change (contents (hash_table h) (hd :: l)) with (uses (node (hash_table h) hd) ++ contents (hash_table h) l). by rewrite Hnode, Hemp.
  - right. exists hd. split; [done|]. split; [rewrite (concat_insert _ _ _ _ Hfl); left|]. split.
    + intros x Hx. rewrite (concat_split _ _ _ Hfl) in Hx. rewrite (concat_insert _ _ _ _ Hfl). by right.
    + intros [Hx|Hx]; [cbn in Hx; congruence|]. by rewrite list_lookup_insert_eq in Hx.
Qed.

(** Clearing an entry of the first node. *)
Lemma clear_head_ok h cs fs b i l s e :
  dir_ok h cs fs -> cs !! b = Some (i :: l) -> node (hash_table h) i !! s = Some e -> used e = true ->
  exists h', hash_entry_copy (add_alloc h (-1)) (i, s) None = Some h' /\ dir_inv (Some b) 0 h' cs fs /\ same_sizes h h' /\ same_addrs h h' /\
    same_others b h h' cs cs /\ contents (hash_table h) (i :: l) ≡ₚ e :: contents (hash_table h') (i :: l).
Proof.
  intros H Hb Hs He. unfold node in Hs. destruct (hash_table h !! i) as [be|] eqn:Hi; [|done].
  destruct (copy_entry (add_alloc h (-1)) (i, s) e None) as (be' & Hbe & _ & ->); [cbn; rewrite Hi; cbn; by rewrite Hs|].
  cbn [fst snd default hash_table add_alloc set_alloc_count] in *. assert (be' = be) as -> by congruence. set (be' := mk_bucket_entry _ _).
  pose proof (lookup_lt_Some _ _ _ Hi) as Hlt. pose proof (chain_nodup _ _ _ _ _ H _ _ Hb) as Hnd.
  destruct (uses_insert (be_entries be) s e Hs) as (rest & Hr1 & Hr2). specialize (Hr2 no_entry).
  destruct (contents_change (hash_table h) (i :: l) i (be_entries be) (<[s := no_entry]> (be_entries be)) be' rest Hnd ltac:(left) Hlt
              ltac:(unfold node; by rewrite Hi) eq_refl _ _ Hr1 Hr2) as (others & Hc1 & Hc2).
  unfold use1 in Hc1, Hc2. rewrite He in Hc1. cbn [app used no_entry] in Hc1, Hc2. eexists. split; [reflexivity|].
  pose proof (count_bound _ _ _ _ _ H) as Hcb. pose proof (d_max32 _ _ _ _ _ H). pose proof (d_count _ _ _ _ _ H) as Hcount. rewrite (contents_concat_len _ _ _ _ Hb), Hc1 in Hcount.
  cbn [length] in Hcount.
  destruct (inv_entries None (Some b) 0 0 h (set_table (add_alloc h (-1)) (<[i := be']> (hash_table h))) cs fs b (i :: l) H ltac:(by left) ltac:(by right) Hb)
    as [Hinv Hothers]; cbn.
  - split; try done. cbn. by rewrite length_insert.
  - done.
  - done.
  - done.
  - apply four_insert; [apply H|]. unfold be'. cbn. rewrite length_insert. pose proof (d_four _ _ _ _ _ H) as Hf. rewrite Forall_lookup in Hf. by eapply Hf.
  - by apply (links_insert _ _ be).
  - intros j Hj. apply node_insert_ne. intros ->. apply Hj. left.
  - pose proof (d_heads _ _ _ _ _ H b _ Hb) as [_ Hfull]. split; [done|]. apply NoDup_cons in Hnd as [Hni _]. apply Forall_forall. intros d Hd. rewrite Forall_forall in Hfull.
    rewrite node_insert_ne by congruence. by apply Hfull.
  - rewrite Hc1, Hc2. cbn. rewrite u64_small; lia.
  - split; [done|]. split; [split; try done; cbn; by rewrite length_insert|]. split; [done|]. split; [done|]. cbn. rewrite Hc1. by rewrite Hc2.
Qed.

(** Clearing an entry [e] of another node: the first entry [x] of the first
    node takes its place. *)
Lemma seq_split s : (s < 4)%nat -> seq 0 4 = seq 0 s ++ s :: seq (S s) (3 - s).
Proof. intros Hs. change (s :: seq (S s) (3 - s)) with (seq s (S (3 - s))). replace 4%nat with (s + S (3 - s))%nat at 1 by lia. by rewrite seq_app. Qed.

Lemma refill_ok h cs fs b hd l i s e hidx :
  dir_ok h cs fs -> cs !! b = Some (hd :: l) -> i ∈ l -> node (hash_table h) i !! s = Some e -> used e = true ->
  (forall x, x ∈ contents (hash_table h) (hd :: l) -> addr_in (addr_table h) (blkaddress x)) ->
  exists h1 h2 x, hash_entry_copy (add_alloc h (-1)) (i, s) None = Some h1 /\
    refill (fun h a => set_addr h a hidx) h1 i hd (seq 0 4) 0 = Some h2 /\
    dir_inv (Some b) 0 h2 cs fs /\ same_sizes h h2 /\ addr_table h2 = upd_addr (addr_table h) (blkaddress x) hidx /\ key_cache h2 = key_cache h /\
    same_others b h h2 cs cs /\ contents (hash_table h) (hd :: l) ≡ₚ e :: contents (hash_table h2) (hd :: l) /\ x ∈ contents (hash_table h2) (hd :: l).
Proof.
  intros H Hb Hil Hs He Haddr. pose proof (chain_nodup _ _ _ _ _ H _ _ Hb) as Hnd. pose proof (d_heads _ _ _ _ _ H b _ Hb) as [Hhd Hfull]. specialize (Hhd ltac:(done)).
  destruct (bucket_chain _ _ _ _ _ H b _ Hb) as (p & Hp & -> & beh & Hbeh & Hch). destruct (chain_in _ _ _ i Hch Hil) as [be Hbe].
  assert (i <> hd) as Hne by (apply NoDup_cons in Hnd as [Hnd _]; congruence).
  assert (node (hash_table h) i = be_entries be) as Hn by (unfold node; by rewrite Hbe). assert (node (hash_table h) hd = be_entries beh) as Hnh by (unfold node; by rewrite Hbeh).
  rewrite Hn in Hs. rewrite Hnh in Hhd. rewrite Forall_forall in Hfull. assert (full (be_entries be)) as Hfi by (rewrite <- Hn; by apply Hfull).
  pose proof (d_four _ _ _ _ _ H) as Hfour. rewrite Forall_lookup in Hfour. pose proof (Hfour i be Hbe) as Hf1. pose proof (Hfour hd beh Hbeh) as Hf2. unfold OSD_HASH_ENTRY_PER_BUCKET_ENTRY in Hf1, Hf2.
  assert (s < 4)%nat as Hs4 by (pose proof (lookup_lt_Some _ _ _ Hs) as Hl; by rewrite Hf1 in Hl).
  destruct (copy_entry (add_alloc h (-1)) (i, s) e None) as (be' & Hbe' & _ & ->); [cbn; rewrite Hbe; cbn; by rewrite Hs|].
  cbn [fst snd default hash_table add_alloc set_alloc_count] in *. assert (be' = be) as -> by congruence.
  set (h1 := set_table _ _). pose proof (lookup_lt_Some _ _ _ Hbe) as Hlt. pose proof (lookup_lt_Some _ _ _ Hbeh) as Hlth.
  assert (node (hash_table h1) i = <[s := no_entry]> (be_entries be)) as Hn1 by (unfold h1; cbn; by rewrite node_insert).
  exists h1. rewrite (seq_split s Hs4), refill_app.
  2: { intros j [_ Hj]%elem_of_seq. rewrite read_entry_node, Hn1, list_lookup_insert_ne by lia.
       destruct (lookup_lt_is_Some_2 (be_entries be) j ltac:(lia)) as [y Hy]. exists y. split; [done|]. unfold full in Hfi. rewrite Forall_lookup in Hfi. by eapply Hfi. }
  cbn [refill]. rewrite read_entry_node, Hn1, list_lookup_insert_eq by (by eapply lookup_lt_Some). cbn [mbind option_bind used no_entry].
  assert (hash_table h1 !! hd = Some beh) as Hbeh1 by (unfold h1; cbn; by rewrite list_lookup_insert_ne).
  rewrite Hbeh1. cbn [mbind option_bind]. rewrite drop_0.
  (* the entry that moves *)
  match goal with |- context [@list_find ?A ?P ?D (be_entries beh)] => destruct (@list_find A P D (be_entries beh)) as [[kx x]|] eqn:Ef end.
  2: { exfalso. apply list_find_None in Ef. apply Hhd, uses_empty. eapply Forall_impl; [exact Ef|]. intros y Hy. cbn in Hy. by destruct (used y). }
  pose proof Ef as (Hx & Hux & _)%list_find_Some.
  (* the first copy *)
  destruct (copy_entry h1 (i, s) no_entry (Some x)) as (be1 & Hbe1 & _ & ->).
  { cbn [fst snd]. unfold h1. cbn [hash_table set_table]. rewrite list_lookup_insert_eq by done. cbn. rewrite list_lookup_insert_eq by lia. done. }
  cbn [mbind option_bind fst snd default]. assert (be1 = mk_bucket_entry (<[s := no_entry]> (be_entries be)) (be_next be)) as ->.
  { unfold h1 in Hbe1. cbn in Hbe1. rewrite list_lookup_insert_eq in Hbe1 by done. congruence. }
  cbn [be_entries be_next]. unfold h1. cbn [hash_table set_table]. rewrite !list_insert_insert_eq. set (bi := mk_bucket_entry (<[s := x]> (be_entries be)) (be_next be)).
  (* the second copy *)
  match goal with |- context [hash_entry_copy ?hh (hd, ?kk) None] => destruct (copy_entry hh (hd, kk) x None) as (be2 & Hbe2 & _ & ->) end.
  { cbn [fst snd hash_table set_table]. rewrite list_lookup_insert_ne, Hbeh by done. cbn. by rewrite Hx. }
  cbn [mbind option_bind fst snd default hash_table set_table] in *. rewrite list_lookup_insert_ne in Hbe2 by done. assert (be2 = beh) as -> by congruence. clear Hbe2.
  set (bh := mk_bucket_entry (<[(0 + kx)%nat := no_entry]> (be_entries beh)) (be_next beh)). set (t2 := <[hd := bh]> (<[i := bi]> (hash_table h))).
  assert (x ∈ contents (hash_table h) (hd :: l)) as Hxin.
  { change (x ∈ uses (node (hash_table h) hd) ++ contents (hash_table h) l). apply elem_of_app. left. rewrite Hnh. apply uses_elem. split; [done|]. by eapply list_elem_of_lookup_2. }
  rewrite set_addr_ok by (cbn; by apply Haddr). cbn [mbind option_bind]. rewrite refill_skip.
  2: { intros j [Hj1 Hj2]%elem_of_seq. rewrite read_entry_node. cbn [hash_table set_addr_table set_table]. unfold t2. rewrite node_insert_ne, node_insert by congruence || done. cbn.
       rewrite list_lookup_insert_ne by lia. destruct (lookup_lt_is_Some_2 (be_entries be) j ltac:(lia)) as [y Hy]. exists y. split; [done|].
       unfold full in Hfi. rewrite Forall_lookup in Hfi. by eapply Hfi. }
  eexists _, x. split; [reflexivity|]. split; [reflexivity|].
  (* contents *)
  destruct (uses_insert (be_entries be) s e Hs) as (r1 & Hr1 & Hr1'). specialize (Hr1' x).
  destruct (contents_change (hash_table h) (hd :: l) i (be_entries be) (<[s := x]> (be_entries be)) bi r1 Hnd ltac:(by right) Hlt Hn eq_refl _ _ Hr1 Hr1')
    as (o1 & Hc1 & Hc1').
  destruct (uses_insert (be_entries beh) kx x Hx) as (r2 & Hr2 & Hr2'). specialize (Hr2' no_entry).
  destruct (contents_change (<[i := bi]> (hash_table h)) (hd :: l) hd (be_entries beh) (<[kx := no_entry]> (be_entries beh)) bh r2 Hnd ltac:(left)
              ltac:(by rewrite length_insert) ltac:(by rewrite node_insert_ne) eq_refl _ _ Hr2 Hr2') as (o2 & Hc2 & Hc2').
  fold t2 in Hc2'. unfold use1 in Hc1, Hc1', Hc2, Hc2'. rewrite He in Hc1. rewrite Hux in Hc1', Hc2. cbn [app used no_entry] in Hc1, Hc1', Hc2, Hc2'.
  rewrite Hc1' in Hc2. apply Permutation_cons_inv in Hc2.
  assert (contents (hash_table h) (hd :: l) ≡ₚ e :: contents t2 (hd :: l)) as Hcc by (by rewrite Hc1, Hc2', Hc2).
  pose proof (count_bound _ _ _ _ _ H) as Hcb. pose proof (d_max32 _ _ _ _ _ H). pose proof (d_count _ _ _ _ _ H) as Hcount.
  rewrite (contents_concat_len _ _ _ _ Hb), Hcc in Hcount. cbn [length] in Hcount.
  assert (length t2 = length (hash_table h)) as Hlen by (unfold t2; by rewrite !length_insert).
  destruct (inv_entries None (Some b) 0 0 h (set_table (add_alloc h (-1)) t2) cs fs b (hd :: l) H ltac:(by left) ltac:(by right) Hb) as [Hinv Hoth]; cbn.
  - by split.
  - done.
  - done.
  - done.
  - unfold t2. apply four_insert; [apply four_insert; [apply H|]|]; cbn; by rewrite length_insert.
  - intros j y Hj. unfold t2. destruct (links_insert (hash_table h) i be bi Hbe eq_refl j y Hj) as (y1 & Hy1 & E1).
    destruct (links_insert (<[i := bi]> (hash_table h)) hd beh bh) with j y1 as (y2 & Hy2 & E2); [by rewrite list_lookup_insert_ne|done|done|].
    exists y2. split; [done|congruence].
  - intros j Hj. unfold t2. rewrite !node_insert_ne; [done| |]; intros ->; apply Hj; [by right|left].
  - split; [done|]. apply NoDup_cons in Hnd as [Hni _]. apply Forall_forall. intros d Hd. unfold t2. rewrite node_insert_ne by congruence.
    destruct (decide (d = i)) as [->|]; [|rewrite node_insert_ne by congruence; by apply Hfull]. rewrite node_insert by done. cbn. by apply Forall_insert.
  - rewrite Hcc. cbn. rewrite u64_small; lia.
  - split; [apply (inv_addr _ _ _ _ _ _ Hinv)|]. split; [by split|]. split; [done|]. split; [done|]. split; [done|]. split; [done|]. change (x ∈ contents t2 (hd :: l)).
    apply contents_elem. exists i. split; [by right|]. split; [done|]. unfold t2. rewrite node_insert_ne, node_insert by (congruence || done). cbn.
    apply list_elem_of_lookup_2 with s, list_lookup_insert_eq. lia.
Qed.

(** A deletion removes exactly the entry. *)
Lemma delete_entry_ok h cs fs b c i s e lk hidx :
  dir_ok h cs fs -> cs !! b = Some c -> i ∈ c -> node (hash_table h) i !! s = Some e -> used e = true -> (lk < length fs)%nat ->
  (forall x, x ∈ contents (hash_table h) c -> addr_in (addr_table h) (blkaddress x)) ->
  exists h' cs' fs' c' mv, delete_entry (fun h a => set_addr h a hidx) h (i, s) (n2z b) (n2z lk) = Some h' /\ dir_ok h' cs' fs' /\ same_sizes h h' /\
    key_cache h' = key_cache h /\ same_others b h h' cs cs' /\ cs' !! b = Some c' /\ contents (hash_table h) c ≡ₚ e :: contents (hash_table h') c' /\
    addr_table h' = match mv with
                    | Some x => upd_addr (upd_addr (addr_table h) (blkaddress e) 0) (blkaddress x) hidx
                    | None => upd_addr (addr_table h) (blkaddress e) 0
                    end /\ (forall x, mv = Some x -> x ∈ contents (hash_table h') c') /\ head_step c c' h' fs fs' lk.
Proof.
  intros H Hb Hi Hs He Hlk Haddr. unfold delete_entry. destruct (bucket_chain _ _ _ _ _ H b c Hb) as (head & Hhead & Hch). rewrite (at_lookup (hash_buckets h)), Hhead.
  cbn [mbind option_bind]. assert (s < 4)%nat as Hs4.
  { pose proof (lookup_lt_Some _ _ _ Hs) as Hl. unfold node in Hl. destruct (hash_table h !! i) as [be|] eqn:Hbe; [|cbn in Hl; lia].
    pose proof (d_four _ _ _ _ _ H) as Hf. rewrite Forall_lookup in Hf. by rewrite (Hf i be Hbe) in Hl. }
  rewrite (find_node_ok _ i s c) by (done || by eapply dir_chain_length). cbn [mbind option_bind]. rewrite ptr_to_ne. cbn [assert_ negb mbind option_bind].
  rewrite read_entry_node, Hs. cbn [mbind option_bind].
  assert (e ∈ contents (hash_table h) c) as Hein by (apply contents_elem; exists i; split; [done|]; split; [done|]; by eapply list_elem_of_lookup_2).
  rewrite set_addr_ok by (cbn; by apply Haddr). cbn [mbind option_bind].
  set (t0 := upd_addr (addr_table (add_alloc h (-1))) (blkaddress e) 0). set (h0 := set_addr_table h t0).
  change (set_addr_table (add_alloc h (-1)) t0) with (add_alloc h0 (-1)). assert (dir_ok h0 cs fs) as H0 by (by apply inv_addr).
  assert (forall h1 cs1, same_others b h0 h1 cs cs1 -> same_others b h h1 cs cs1) as Hso by done.
  assert (forall h1, same_sizes h0 h1 -> same_sizes h h1) as Hss by (intros h1 []; by split).
  destruct c as [|hd l]; [by apply not_elem_of_nil in Hi|]. assert (head = ptr_to hd) as -> by apply Hch. apply elem_of_cons in Hi as [->|Hil].
  - destruct (clear_head_ok h0 cs fs b hd l s e H0 Hb Hs He) as (h1 & -> & Hinv & Hsz & Had & Hoth & Hc). cbn [mbind option_bind]. rewrite Z.eqb_refl. cbn [mbind option_bind].
    destruct (free_head_ok h1 cs fs b hd l lk Hinv Hb Hlk) as (h' & cs' & fs' & c' & -> & Hok & Hsz' & Had' & Hoth' & Hb' & Hc' & Hroom).
    exists h', cs', fs', c', None. split; [done|]. split; [done|]. split; [apply Hss; by etransitivity|]. destruct Had as [Ha1 Ha2], Had' as [Ha1' Ha2'].
    split; [by rewrite Ha2', Ha2|]. split; [apply Hso; by eapply same_others_trans|]. split; [done|]. split; [by rewrite Hc'|]. split; [by rewrite Ha1', Ha1|by split].
  - destruct (refill_ok h0 cs fs b hd l i s e hidx H0 Hb Hil Hs He) as (h1 & h2 & x & -> & Hrf & Hinv & Hsz & Hat & Hkc & Hoth & Hc & Hx).
    { intros y Hy. cbn. apply addr_in_upd. by apply Haddr. }
    cbn [mbind option_bind]. rewrite (proj2 (Z.eqb_neq (ptr_to hd) (ptr_to i))).
    2: { unfold ptr_to. pose proof (chain_nodup _ _ _ _ _ H _ _ Hb) as [Hnd _]%NoDup_cons. intros E. apply Hnd. by replace hd with i by lia. }
    rewrite !ptr_to_idx. unfold OSD_HASH_ENTRY_PER_BUCKET_ENTRY. rewrite Hrf. cbn [mbind option_bind].
    destruct (free_head_ok h2 cs fs b hd l lk Hinv Hb Hlk) as (h' & cs' & fs' & c' & -> & Hok & Hsz' & Had' & Hoth' & Hb' & Hc' & Hroom).
    exists h', cs', fs', c', (Some x). split; [done|]. split; [done|]. split; [apply Hss; by etransitivity|]. destruct Had' as [Ha1' Ha2'].
    split; [by rewrite Ha2'|]. split; [apply Hso; by eapply same_others_trans|]. split; [done|]. split; [by rewrite Hc'|].
    split; [by rewrite Ha1', Hat|]. split; [|done]. intros y [= <-]. by rewrite Hc'.
Qed.

(** ** Room after a deletion *)

Lemma full_node_len h cs fs i : dir_ok h cs fs -> i ∈ concat cs -> full (node (hash_table h) i) -> length (uses (node (hash_table h) i)) = 4%nat.
Proof.
  intros H Hi Hf. rewrite (uses_full _ Hf). pose proof (node_lt _ _ _ _ _ H i ltac:(apply elem_of_app; by left)) as Hlt. destruct (lookup_lt_is_Some_2 _ _ Hlt) as [be Hbe].
  unfold node. rewrite Hbe. pose proof (d_four _ _ _ _ _ H) as Hf4. rewrite Forall_lookup in Hf4. by apply (Hf4 i be).
Qed.

Lemma full_nodes_len h cs fs l : dir_ok h cs fs -> (forall d, d ∈ l -> d ∈ concat cs) -> Forall (fun d => full (node (hash_table h) d)) l ->
  length (contents (hash_table h) l) = (4 * length l)%nat.
Proof.
  intros H Hin Hfull. induction l as [|d l IH]; [done|]. apply Forall_cons in Hfull as [Hd Hfull].
  change (contents (hash_table h) (d :: l)) with (uses (node (hash_table h) d) ++ contents (hash_table h) l).
  rewrite length_app, IH; [|intros x Hx; apply Hin; by right|done]. rewrite (full_node_len h cs fs d H ltac:(apply Hin; left) Hd). cbn. lia.
Qed.

(** The bucket has a free entry at its front, or its lock a free node. *)
Lemma delete_room h h' cs cs' fs fs' b c c' e lk : dir_ok h cs fs -> dir_ok h' cs' fs' -> cs' !! b = Some c' ->
  contents (hash_table h) c ≡ₚ e :: contents (hash_table h') c' -> head_step c c' h' fs fs' lk -> ~ (head_full h' c' /\ hidden h' fs' lk).
Proof.
  intros H H' Hb Hc Hcase [Hfull Hhid]. destruct Hcase as [[-> _]|(_ & _ & _ & _ & ?)]; [|done]. pose proof (d_heads _ _ _ _ _ H' b c Hb) as Hh.
  pose proof (contents_len (hash_table h) c (d_four _ _ _ _ _ H)) as Hle. rewrite Hc in Hle. cbn [length] in Hle.
  rewrite (full_nodes_len h' cs' fs' c H') in Hle; [lia|intros d Hd; by eapply elem_concat|]. destruct c as [|i l]; [done|]. constructor; [by apply (Hfull i l)|apply Hh].
Qed.
