(* ===== verification/HashTableSpec.v ===== *)
(** * The object directory as a map

    [dir_rep] relates a directory and the keys on flash to a map from
    containers and keys to objects. Lookup, insertion, replacement and deletion
    of an entry correspond to those of the map. *)

From Stdlib Require Strings.Byte.
From stdpp Require Import gmap.
From S2P Require Import Prelude Hash HashTable HashTableRep HashTableOps.
From stdpp Require Import list.
Open Scope Z_scope.

(** What the directory knows of an object. *)
Record object := mk_object { ob_addr : Z; ob_blocks : Z; ob_deleted : bool }.
Definition object_of (e : hash_entry) : object := mk_object (blkaddress e) (blocks e) (he_deleted e).

#[export] Instance byte_countable : Countable byte := inj_countable Strings.Byte.to_N Strings.Byte.of_N Strings.Byte.of_to_N.

(** Containers and keys. *)
Abbreviation directory := (gmap (Z * list byte) object).

(** The keys on flash after a write to block [a]. *)
Definition on_write (onflash : Z -> option (list byte)) (a : Z) (key : list byte) (x : Z) : option (list byte) :=
  if x =? a then Some key else onflash x.

Section rep.
Context (Mcd_osd_segment_blks : Z) (Hseg : 0 < Mcd_osd_segment_blks).
Abbreviation keycache_get := (keycache_get Mcd_osd_segment_blks).
Abbreviation keycache_set := (keycache_set Mcd_osd_segment_blks).

(** ** Addresses *)

(** The address has a place in the tables. *)
Definition cache_in (h : hash_handle) (a : Z) : Prop :=
  match key_cache h with
  | None => True
  | Some c => exists seg, at_ c (a / Mcd_osd_segment_blks) = Some seg /\
      match seg with None => True | Some w => a mod Mcd_osd_segment_blks < lenZ w end
  end.
Definition addr_ok (h : hash_handle) (a : Z) : Prop := 0 <= a /\ addr_in (addr_table h) a /\ cache_in h a.

(** The table by address leads to bucket [b]. *)
Definition addr_leads (h : hash_handle) (a : Z) (b : nat) : Prop :=
  match addr_table h with
  | Some t => exists v, t !! z2n a = Some v /\ 0 <= v < hash_size h /\ v / OSD_HASH_BUCKET_SIZE = n2z b
  | None => True
  end.

(** The cache has the key [k] or nothing. *)
Definition cached (h : hash_handle) (a : Z) (k : list byte) : Prop :=
  match key_cache h with
  | Some _ => exists v, keycache_get h a = Some v /\ (v = 0 \/ (length k = 8%nat /\ v = le_combine k))
  | None => True
  end.

Lemma put_at {A} (l : list A) i x l' j : put_ l i x = Some l' -> at_ l' j = if decide (i = j) then Some x else at_ l j.
Proof.
  unfold put_, at_. destruct ((0 <=? i) && (i <? lenZ l)) eqn:E; [|done]. b2p. intros [= <-]. destruct (decide (i = j)) as [->|Hne].
  - rewrite (proj2 (Z.ltb_ge _ _)) by lia. apply list_lookup_insert_eq. lia.
  - destruct (Z.ltb_spec j 0); [done|]. rewrite list_lookup_insert_ne; [done|]. lia.
Qed.

Lemma put_some {A} (l : list A) i x : 0 <= i < lenZ l -> exists l', put_ l i x = Some l' /\ length l' = length l.
Proof. intros Hi. unfold put_. rewrite (proj2 (Z.leb_le _ _)), (proj2 (Z.ltb_lt _ _)) by lia. eexists. split; [done|]. by rewrite length_insert. Qed.

Lemma at_range {A} (l : list A) i x : at_ l i = Some x -> 0 <= i < lenZ l.
Proof. unfold at_. destruct (Z.ltb_spec i 0); [done|]. intros Hx%lookup_lt_Some. lia. Qed.

(** Writing to the cache. *)
Lemma keycache_set_ok h a v : key_cache h <> None -> addr_ok h a ->
  exists c', keycache_set h a v = Some (set_key_cache h (Some c')) /\
    keycache_get (set_key_cache h (Some c')) a = Some v /\
    (forall a', a' <> a -> 0 <= a' -> cache_in h a' -> keycache_get (set_key_cache h (Some c')) a' = keycache_get h a') /\
    (forall a', 0 <= a' -> cache_in (set_key_cache h (Some c')) a' <-> cache_in h a').
Proof using Hseg.
  intros Hc (Ha & _ & Hin). unfold keycache_set, keycache_get, cache_in in *. cbn [key_cache set_key_cache].
  destruct (key_cache h) as [c|]; [|done]. clear Hc. destruct Hin as (seg & Hseg' & Hw). cbn [mbind option_bind]. rewrite Hseg'. cbn [mbind option_bind].
  set (words := default (replicate (z2n Mcd_osd_segment_blks) 0) seg).
  assert (a mod Mcd_osd_segment_blks < lenZ words) as Hlt.
  { unfold words. pose proof (Z.mod_pos_bound a Mcd_osd_segment_blks Hseg). destruct seg as [w|]; cbn; [done|]. rewrite length_replicate. lia. }
  pose proof (Z.mod_pos_bound a Mcd_osd_segment_blks Hseg) as Hmod.
  destruct (put_some words (a mod Mcd_osd_segment_blks) v ltac:(lia)) as (w' & Hw' & Hlw). rewrite Hw'. cbn [mbind option_bind].
  destruct (put_some c (a / Mcd_osd_segment_blks) (Some w') ltac:(by eapply at_range)) as (c' & Hc' & Hlc). rewrite Hc'. cbn [mbind option_bind].
  exists c'. split; [done|]. cbn [mbind option_bind].
  assert (forall a', at_ c' (a' / Mcd_osd_segment_blks) = if decide (a / Mcd_osd_segment_blks = a' / Mcd_osd_segment_blks) then Some (Some w') else at_ c (a' / Mcd_osd_segment_blks)) as Hat
    by (intros a'; by eapply put_at).
  split; [|split].
  - rewrite Hat, decide_True by done. cbn [mbind option_bind]. rewrite (put_at _ _ _ _ _ Hw'). by rewrite decide_True.
  - intros a' Hne Ha' (seg' & Hs' & Hw2). rewrite Hat. case_decide as E; [|done]. cbn [mbind option_bind].
    assert (seg' = seg) as -> by (rewrite <- E in Hs'; congruence). rewrite Hs'. cbn [mbind option_bind]. rewrite (put_at _ _ _ _ _ Hw').
    assert (a mod Mcd_osd_segment_blks <> a' mod Mcd_osd_segment_blks).
    { intros Em. apply Hne. rewrite (Z.div_mod a Mcd_osd_segment_blks), (Z.div_mod a' Mcd_osd_segment_blks) by lia. by rewrite E, Em. }
    rewrite decide_False by done. pose proof (Z.mod_pos_bound a' Mcd_osd_segment_blks Hseg). destruct seg as [w|]; [done|].
    unfold words, at_. cbn [default]. rewrite (proj2 (Z.ltb_ge _ _)) by lia. apply lookup_replicate. split; [done|lia].
  - intros a' Ha'. rewrite Hat. case_decide as E; [|done]. rewrite <- E, Hseg'. pose proof (Z.mod_pos_bound a' Mcd_osd_segment_blks Hseg).
    assert (a' mod Mcd_osd_segment_blks < lenZ w' <-> match seg with None => True | Some w => a' mod Mcd_osd_segment_blks < lenZ w end) as Hiff.
    { rewrite Hlw. unfold words. destruct seg as [w|]; cbn; [done|]. rewrite length_replicate. lia. }
    split; intros (seg' & [= <-] & Hs'); eexists; (split; [done|]); tauto.
Qed.
(** ** The map *)

(** An entry of bucket [b] describes the object at its address. *)
Record entry_ok (onflash : Z -> option (list byte)) (h : hash_handle) (b : nat) (e : hash_entry) (k : list byte) : Prop := {
  e_onflash : onflash (blkaddress e) = Some k;
  e_key_ne : k <> [];
  e_cntr : cntr_id e <> 0;
  e_blocks : blocks e <> 0;
  e_bucket : bucket_of_syn h (hashck k 0 (cntr_id e)) = n2z b;
  e_syn : hesyndrome e = u16 (Z.shiftr (hashck k 0 (cntr_id e)) OSD_HASH_SYN_SHIFT);
  e_addr : addr_ok h (blkaddress e);
  e_leads : addr_leads h (blkaddress e) b;
  e_cached : cached h (blkaddress e) k
}.

Definition all_entries (h : hash_handle) (cs : list (list nat)) : list hash_entry := contents (hash_table h) (concat cs).

(** The entries [L] are those of the objects of the map. *)
Record list_rep (onflash : Z -> option (list byte)) (L : list hash_entry) (M : directory) : Prop := {
  l_addrs : NoDup (blkaddress <$> L);
  l_keys : forall e e', e ∈ L -> e' ∈ L -> cntr_id e = cntr_id e' -> onflash (blkaddress e) = onflash (blkaddress e') -> e = e';
  l_map : forall cntr k o, M !! (cntr, k) = Some o <->
    exists e, e ∈ L /\ cntr_id e = cntr /\ onflash (blkaddress e) = Some k /\ o = object_of e
}.

(** Nothing is cached for the addresses that are not in use. *)
Record dir_rep (onflash : Z -> option (list byte)) (h : hash_handle) (M : directory) (cs fs : list (list nat)) : Prop := {
  r_ok : dir_ok h cs fs;
  r_place : forall b c e, cs !! b = Some c -> e ∈ contents (hash_table h) c -> exists k, entry_ok onflash h b e k;
  r_list : list_rep onflash (all_entries h cs) M;
  r_free : forall a, addr_ok h a -> a ∉ blkaddress <$> all_entries h cs -> key_cache h <> None -> keycache_get h a = Some 0
}.

Lemma in_bucket h cs e : e ∈ all_entries h cs <-> exists b c, cs !! b = Some c /\ e ∈ contents (hash_table h) c.
Proof using Type.
  unfold all_entries. rewrite contents_elem. split.
  - intros (i & Hi & He). apply list_elem_of_In, in_concat in Hi as (c & Hc & Hi). apply list_elem_of_In, list_elem_of_lookup in Hc as (b & Hb).
    exists b, c. split; [done|]. apply contents_elem. exists i. split; [by apply list_elem_of_In|done].
  - intros (b & c & Hb & (i & Hi & He)%contents_elem). exists i. split; [by eapply elem_concat|done].
Qed.

(** ** Lookup *)

Section lookup.
Context (onflash : Z -> option (list byte)) (h : hash_handle) (M : directory) (cs fs : list (list nat)) (H : dir_rep onflash h M cs fs).

(** The test of the search is right on the entries of the bucket. *)
Lemma key_matches_ok key cntr b e k : entry_ok onflash h b e k -> key <> [] ->
  key_matches Mcd_osd_segment_blks onflash h key cntr (hashck key 0 cntr) e = Some (bool_decide (cntr_id e = cntr /\ onflash (blkaddress e) = Some key)).
Proof using Type.
  intros [He1 He2 He3 He4 He5 He6 He7 He8 He9] Hk. unfold key_matches. destruct (Z.eqb_spec (cntr_id e) cntr) as [Ec|Hne]; cbn [negb].
  2: { rewrite (bool_decide_eq_false_2 (cntr_id e = cntr /\ _)); [done|tauto]. }
  rewrite He1. destruct (decide (k = key)) as [->|Hkey].
  - rewrite (bool_decide_eq_true_2 (cntr_id e = cntr /\ _)) by done. rewrite Ec in He6. rewrite He6, Z.eqb_refl. cbn [negb]. unfold cached in He9.
    destruct (key_cache h) as [c|] eqn:Ekc; [|rewrite bool_decide_eq_false_2 by (by intros []); rewrite andb_false_r; cbn [mbind option_bind]].
    + rewrite bool_decide_eq_true_2, andb_true_r by done. destruct He9 as (v & Hv & Hcase). destruct (Z.eqb_spec (lenZ key) 8) as [El|Hl].
      * rewrite Hv. cbn [mbind option_bind]. destruct Hcase as [->|[_ ->]]; cbn [negb].
        -- unfold mcd_onflash_key_match. by rewrite bool_decide_eq_true_2.
        -- destruct (Z.eqb_spec (le_combine key) 0); cbn [negb]; [|by rewrite Z.eqb_refl]. unfold mcd_onflash_key_match. by rewrite bool_decide_eq_true_2.
      * cbn [mbind option_bind negb]. unfold mcd_onflash_key_match. by rewrite bool_decide_eq_true_2.
    + unfold mcd_onflash_key_match. cbn [negb]. by rewrite bool_decide_eq_true_2.
  - rewrite (bool_decide_eq_false_2 (cntr_id e = cntr /\ _)) by (intros [_ ?]; congruence). destruct (_ =? hesyndrome e); cbn [negb]; [|done].
    assert (mcd_onflash_key_match onflash (blkaddress e) key = false) as Hfl by (apply bool_decide_eq_false_2; congruence).
    unfold cached in He9. destruct (key_cache h) as [c|] eqn:Ekc; [|rewrite bool_decide_eq_false_2 by (by intros []); rewrite andb_false_r; cbn [mbind option_bind negb]; by rewrite Hfl].
    rewrite bool_decide_eq_true_2, andb_true_r by done. destruct He9 as (v & Hv & Hcase). destruct (Z.eqb_spec (lenZ key) 8) as [El|Hl]; [|cbn; by rewrite Hfl].
    rewrite Hv. cbn [mbind option_bind]. destruct (Z.eqb_spec v 0); cbn [negb]; [by rewrite Hfl|]. destruct Hcase as [->|[Hl ->]]; [done|]. f_equal. apply Z.eqb_neq.
    intros E. apply Hkey. symmetry. apply (le_combine_inj key k); [lia|done].
Qed.

(** The entry that is found, with its place. *)
Definition found_at (key : list byte) (cntr : Z) (i s : nat) (e : hash_entry) (b : nat) (c : list nat) : Prop :=
  cs !! b = Some c /\ i ∈ c /\ node (hash_table h) i !! s = Some e /\ used e = true /\ entry_ok onflash h b e key /\ cntr_id e = cntr.

Lemma table_get_ok key cntr : key <> [] -> cntr <> 0 ->
  exists r, hash_table_get Mcd_osd_segment_blks onflash h key cntr = Some r /\
    match r with
    | None => M !! (cntr, key) = None
    | Some (i, s) => exists e b c, found_at key cntr i s e b c /\ M !! (cntr, key) = Some (object_of e)
    end.
Proof using H.
  intros Hk Hc. unfold hash_table_get. rewrite (proj2 (Z.eqb_neq (lenZ key) 0)), (proj2 (Z.eqb_neq cntr 0)); [|done|destruct key; [done|cbn; lia]]. cbn [orb].
  set (syn := hashck key 0 cntr). assert (0 <= syn) as Hsyn by (apply u64_range). pose proof (bucket_lt _ _ _ _ _ (r_ok _ _ _ _ _ H) syn Hsyn) as Hb.
  destruct (lookup_lt_is_Some_2 cs (z2n (bucket_of_syn h syn)) ltac:(lia)) as [c Hcb]. set (b := z2n (bucket_of_syn h syn)) in *.
  assert (bucket_of_syn h syn = n2z b) as Eb by lia. rewrite Eb. destruct (bucket_chain _ _ _ _ _ (r_ok _ _ _ _ _ H) b c Hcb) as (p & Hp & Hch).
  rewrite at_lookup, Hp. cbn [mbind option_bind].
  destruct (find_entry_ok (fun e => bool_decide (cntr_id e = cntr /\ onflash (blkaddress e) = Some key)) (hash_table h)
              (key_matches Mcd_osd_segment_blks onflash h key cntr syn) c (chain_fuel h) p Hch) as (r & Hr & Hcase).
  - by eapply dir_chain_length; [apply H|].
  - intros e He. destruct (r_place _ _ _ _ _ H b c e Hcb He) as [k Hok]. by eapply key_matches_ok.
  - exists r. split; [exact Hr|]. destruct r as [[i s]|].
    + destruct Hcase as (Hi & e & He & Hu & [Hec Hef]%bool_decide_eq_true). assert (e ∈ contents (hash_table h) c) as Hin.
      { apply contents_elem. exists i. split; [done|]. split; [done|]. by eapply list_elem_of_lookup_2. }
      destruct (r_place _ _ _ _ _ H b c e Hcb Hin) as [k Hok]. assert (k = key) as -> by (pose proof (e_onflash _ _ _ _ _ Hok); congruence).
      exists e, b, c. split; [done|]. apply (l_map _ _ _ (r_list _ _ _ _ _ H)). exists e. split; [apply in_bucket; by exists b, c|done].
    + destruct (M !! (cntr, key)) as [o|] eqn:EM; [|done]. exfalso. apply (l_map _ _ _ (r_list _ _ _ _ _ H)) in EM as (e & He & Hec & Hef & _).
      apply in_bucket in He as (b' & c' & Hb' & He). destruct (r_place _ _ _ _ _ H b' c' e Hb' He) as [k Hok].
      assert (k = key) as -> by (pose proof (e_onflash _ _ _ _ _ Hok); congruence). pose proof (e_bucket _ _ _ _ _ Hok) as Hbk. rewrite Hec in Hbk. fold syn in Hbk.
      assert (b' = b) as -> by lia. assert (c' = c) as -> by congruence. specialize (Hcase e He). rewrite bool_decide_eq_false in Hcase. tauto.
Qed.
End lookup.

(** ** Changes of one bucket *)

Lemma contents_concat tbl ls : contents tbl (concat ls) = concat (contents tbl <$> ls).
Proof using Type. induction ls as [|l ls IH]; [done|]. cbn [concat]. rewrite fmap_cons. cbn [concat]. by rewrite contents_app, IH. Qed.

Lemma others_contents b h h' cs cs' : same_others b h h' cs cs' -> (b < length cs)%nat ->
  contents (hash_table h') (concat (delete b cs')) = contents (hash_table h) (concat (delete b cs)).
Proof using Type.
  intros [Hlen Hoth] Hb. rewrite !contents_concat. f_equal. apply list_eq. intros j. rewrite !list_lookup_fmap.
  assert (forall j, j <> b -> contents (hash_table h') <$> cs' !! j = contents (hash_table h) <$> cs !! j) as Hj.
  { intros i Hi. destruct (cs !! i) as [c|] eqn:Ec; [destruct (Hoth i c Hi Ec) as [-> E]; cbn; by rewrite E|].
    apply lookup_ge_None in Ec. rewrite (lookup_ge_None_2 cs' i) by lia. done. }
  destruct (decide (j < b)%nat); [rewrite !list_lookup_delete_lt by done|rewrite !list_lookup_delete_ge by lia]; apply Hj; lia.
Qed.

Lemma all_change b h h' cs cs' c c' x y r :
  same_others b h h' cs cs' -> cs !! b = Some c -> cs' !! b = Some c' ->
  contents (hash_table h) c ≡ₚ x ++ r -> contents (hash_table h') c' ≡ₚ y ++ r ->
  exists R, all_entries h cs ≡ₚ x ++ R /\ all_entries h' cs' ≡ₚ y ++ R.
Proof using Type.
  intros Ho Hb Hb' Hx Hy. exists (r ++ contents (hash_table h) (concat (delete b cs))). unfold all_entries.
  rewrite (contents_perm _ _ _ (concat_split _ _ _ Hb)), (contents_perm _ _ _ (concat_split _ _ _ Hb')), !contents_app, Hx, Hy.
  rewrite (others_contents b h h' cs cs' Ho (lookup_lt_Some _ _ _ Hb)), !(assoc app). done.
Qed.

(** The buckets of the new state. *)
Lemma place_change onflash onflash' h h' b cs cs' c c' old new r :
  same_others b h h' cs cs' -> cs !! b = Some c -> cs' !! b = Some c' ->
  contents (hash_table h) c ≡ₚ old ++ r -> contents (hash_table h') c' ≡ₚ new ++ r ->
  (forall b c e, cs !! b = Some c -> e ∈ contents (hash_table h) c -> exists k, entry_ok onflash h b e k) ->
  NoDup (blkaddress <$> all_entries h cs) ->
  (forall e, e ∈ new -> exists k, entry_ok onflash' h' b e k) ->
  (forall e b2 k, e ∈ all_entries h cs -> (forall o, o ∈ old -> blkaddress e <> blkaddress o) -> entry_ok onflash h b2 e k -> entry_ok onflash' h' b2 e k) ->
  forall b2 c2 e, cs' !! b2 = Some c2 -> e ∈ contents (hash_table h') c2 -> exists k, entry_ok onflash' h' b2 e k.
Proof using Type.
  intros Ho Hb Hb' Hx Hy Hplace Hnd Hnew Hkeep b2 c2 e Hc2 He.
  assert (forall e b2 c2, cs !! b2 = Some c2 -> e ∈ contents (hash_table h) c2 -> (b2 <> b \/ e ∈ r) -> exists k, entry_ok onflash' h' b2 e k) as Hold.
  { clear e b2 c2 Hc2 He. intros e b2 c2 Hc2 He Hcase. destruct (Hplace b2 c2 e Hc2 He) as [k Hk]. exists k. apply Hkeep; [apply in_bucket; by exists b2, c2| |done].
    intros o Hin E. unfold all_entries in Hnd. rewrite (contents_perm _ _ _ (concat_split _ _ _ Hb)), contents_app, Hx, !fmap_app, <- (assoc app) in Hnd.
    apply NoDup_app in Hnd as (_ & Hd & _). apply (Hd (blkaddress o)); [by apply list_elem_of_fmap_2|]. rewrite <- E, elem_of_app.
    destruct Hcase as [Hne|Hr]; [right|left; by apply list_elem_of_fmap_2]. apply list_elem_of_fmap_2. apply contents_elem.
    apply contents_elem in He as (i & Hi & He). exists i. split; [by eapply in_delete|done]. }
  destruct (decide (b2 = b)) as [->|Hne].
  - assert (c2 = c') as -> by congruence. rewrite Hy in He. apply elem_of_app in He as [He|He]; [by apply Hnew|]. apply (Hold e b c Hb); [|by right]. rewrite Hx. apply elem_of_app. by right.
  - destruct Ho as [Hl Ho]. destruct (cs !! b2) as [c1|] eqn:Ec1.
    + destruct (Ho b2 c1 Hne Ec1) as [Hc1 E1]. assert (c2 = c1) as -> by congruence. apply (Hold e b2 c1 Ec1); [congruence|by left].
    + apply lookup_ge_None in Ec1. apply lookup_lt_Some in Hc2. lia.
Qed.

(** ** Changes of the map *)

Lemma list_rep_perm onflash L L' M : L ≡ₚ L' -> list_rep onflash L M -> list_rep onflash L' M.
Proof using Type. intros HL [H1 H2 H3]. split; setoid_rewrite <- HL; done. Qed.

Lemma list_rep_delete onflash e R M key : list_rep onflash (e :: R) M -> onflash (blkaddress e) = Some key ->
  list_rep onflash R (delete (cntr_id e, key) M).
Proof using Type.
  intros [H1 H2 H3] Hk. cbn in H1. apply NoDup_cons in H1 as [Hn H1]. split; [done|intros x y Hx Hy; apply H2; by right|].
  intros cntr k o. destruct (decide ((cntr_id e, key) = (cntr, k))) as [[= <- <-]|Hne].
  - rewrite lookup_delete_eq. split; [done|]. intros (x & Hx & Hc & Hf & _). exfalso. apply Hn.
    assert (x = e) as -> by (apply H2; [by right|left|done|congruence]). by apply list_elem_of_fmap_2.
  - rewrite lookup_delete_ne by done. rewrite H3. split; intros (x & Hx & Hc & Hf & Ho); exists x; (split; [|done]); [|by right].
    apply elem_of_cons in Hx as [->|]; [|done]. exfalso. apply Hne. congruence.
Qed.

Lemma list_rep_insert onflash e R M key : list_rep onflash R M -> M !! (cntr_id e, key) = None -> blkaddress e ∉ blkaddress <$> R ->
  list_rep (on_write onflash (blkaddress e) key) (e :: R) (<[(cntr_id e, key) := object_of e]> M).
Proof using Type.
  intros [H1 H2 H3] HM Hn.
  assert (forall x, x ∈ R -> on_write onflash (blkaddress e) key (blkaddress x) = onflash (blkaddress x)) as Hold.
  { intros x Hx. unfold on_write. rewrite (proj2 (Z.eqb_neq _ _)); [done|]. intros E. apply Hn. rewrite <- E. by apply list_elem_of_fmap_2. }
  assert (on_write onflash (blkaddress e) key (blkaddress e) = Some key) as Hnew by (unfold on_write; by rewrite Z.eqb_refl).
  assert (forall x, x ∈ R -> cntr_id x = cntr_id e -> onflash (blkaddress x) <> Some key) as Hno.
  { intros x Hx Hc Hf. assert (M !! (cntr_id e, key) = Some (object_of x)); [apply H3; by exists x|congruence]. }
  split; [cbn; by apply NoDup_cons| |].
  - intros x y [->|Hx]%elem_of_cons [->|Hy]%elem_of_cons Hc; rewrite ?Hnew, ?Hold by done; intros Hf; [done| | |by apply H2]; exfalso; eapply Hno; eauto.
  - intros cntr k o. destruct (decide ((cntr_id e, key) = (cntr, k))) as [[= <- <-]|Hne].
    + rewrite lookup_insert_eq. split.
      * intros [= <-]. exists e. split; [left|done].
      * intros (x & [->|Hx]%elem_of_cons & Hc & Hf & ->); [done|]. rewrite Hold in Hf by done. exfalso. by eapply Hno.
    + rewrite lookup_insert_ne by done. rewrite H3. split.
      * intros (x & Hx & Hc & Hf & Ho). exists x. split; [by right|]. by rewrite Hold.
      * intros (x & [->|Hx]%elem_of_cons & Hc & Hf & ->); [exfalso; apply Hne; congruence|]. rewrite Hold in Hf by done. by exists x.
Qed.

(** The directory after a change of bucket [b]. *)
Lemma rep_change onflash onflash' h h' M M' cs fs cs' fs' b c c' old new r :
  dir_rep onflash h M cs fs -> cs !! b = Some c -> dir_ok h' cs' fs' -> same_others b h h' cs cs' -> cs' !! b = Some c' ->
  contents (hash_table h) c ≡ₚ old ++ r -> contents (hash_table h') c' ≡ₚ new ++ r ->
  (forall e, e ∈ new -> exists k, entry_ok onflash' h' b e k) ->
  (forall e b2 k, e ∈ all_entries h cs -> (forall o, o ∈ old -> blkaddress e <> blkaddress o) -> entry_ok onflash h b2 e k -> entry_ok onflash' h' b2 e k) ->
  (forall R, all_entries h cs ≡ₚ old ++ R -> list_rep onflash (old ++ R) M -> list_rep onflash' (new ++ R) M') ->
  (forall a, addr_ok h' a -> addr_ok h a) -> (key_cache h' <> None -> key_cache h <> None) ->
  (forall a, addr_ok h a -> a ∉ blkaddress <$> new -> key_cache h <> None -> a ∈ blkaddress <$> old \/ keycache_get h a = Some 0 -> keycache_get h' a = Some 0) ->
  dir_rep onflash' h' M' cs' fs'.
Proof using Type.
  intros H Hb Hok' Ho Hb' Hc Hc' Hnew Hkeep HM Haddr Hkc Hfree.
  destruct (all_change b h h' cs cs' c c' old new r Ho Hb Hb' Hc Hc') as (R & HR & HR'). split.
  - done.
  - eapply (place_change onflash onflash' h h' b cs cs' c c' old new r); [done..|apply H|apply (l_addrs _ _ _ (r_list _ _ _ _ _ H))|done|done].
  - eapply list_rep_perm; [symmetry; exact HR'|]. apply HM; [done|]. eapply list_rep_perm; [exact HR|]. apply H.
  - intros a Ha Hn Hk. rewrite HR', fmap_app, not_elem_of_app in Hn. destruct Hn as [Hn1 Hn2]. apply Hfree; [by apply Haddr|done|by apply Hkc|].
    destruct (decide (a ∈ blkaddress <$> old)) as [|Hn3]; [by left|right]. apply (r_free _ _ _ _ _ H); [by apply Haddr| |by apply Hkc].
    rewrite HR, fmap_app, not_elem_of_app. done.
Qed.
End rep.
