(* ===== verification/HashTableSet.v ===== *)
(** * The object directory: writes and deletions of objects

    [mcd_fth_osd_slab_set] does to the directory what the request says of the
    map: [set_spec]. The only other outcome is an insertion without room, which
    changes nothing. *)

From stdpp Require Import gmap.
From S2P Require Import Prelude Hash HashTable HashTableRep HashTableOps HashTableSpec.
From stdpp Require Import list.
Open Scope Z_scope.

(** ** The map's answer to a request *)

Definition set_spec (M : directory) (rq : set_request) : flash_rc * directory :=
  let id := (s_cntr rq, s_key rq) in
  if too_big rq then (FLASH_EINVAL, M) else
  match M !! id, s_data rq with
  | None, None => (FLASH_ENOENT, M)
  | None, Some (a, n, del) => if test_nonexist rq then (FLASH_ENOENT, M) else (FLASH_EOK, <[id := mk_object a n del]> M)
  | Some _, None => if test_exist rq then (FLASH_EEXIST, M) else (FLASH_EOK, delete id M)
  | Some _, Some (a, n, del) => if test_exist rq then (FLASH_EEXIST, M) else (FLASH_EOK, <[id := mk_object a n del]> M)
  end.

(** The keys on flash after a request: a write comes before its entry. *)
Definition flash_after (onflash : Z -> option (list byte)) (rq : set_request) (rc : flash_rc) : Z -> option (list byte) :=
  match s_data rq, rc with
  | Some (a, _, _), FLASH_EOK | Some (a, _, _), FLASH_ENOSPC => on_write onflash a (s_key rq)
  | _, _ => onflash
  end.

Section set.
Context (Mcd_osd_segment_blks : Z) (Hseg : 0 < Mcd_osd_segment_blks).
Abbreviation keycache_get := (keycache_get Mcd_osd_segment_blks).
Abbreviation keycache_set := (keycache_set Mcd_osd_segment_blks).
Abbreviation cache_in := (cache_in Mcd_osd_segment_blks).
Abbreviation addr_ok := (addr_ok Mcd_osd_segment_blks).
Abbreviation cached := (cached Mcd_osd_segment_blks).
Abbreviation entry_ok := (entry_ok Mcd_osd_segment_blks).
Abbreviation dir_rep := (dir_rep Mcd_osd_segment_blks).
Abbreviation found_at := (found_at Mcd_osd_segment_blks).
Abbreviation remove_entry := (mcd_fth_osd_remove_entry Mcd_osd_segment_blks).

(** ** Steps on the tables by address *)

(** The tables by address change at the addresses [A] at most. *)
Record addr_step (A : list Z) (h h' : hash_handle) : Prop := {
  a_size : hash_size h' = hash_size h;
  a_none : key_cache h' = None <-> key_cache h = None;
  a_some : is_Some (addr_table h') <-> is_Some (addr_table h);
  a_cache : forall a, 0 <= a -> cache_in h' a <-> cache_in h a;
  a_get : forall a, a ∉ A -> 0 <= a -> cache_in h a -> keycache_get h' a = keycache_get h a;
  a_in : forall a, addr_in (addr_table h') a <-> addr_in (addr_table h) a;
  a_leads : forall a b, a ∉ A -> 0 <= a -> addr_leads h a b -> addr_leads h' a b
}.

Lemma addr_step_trans A h1 h2 h3 : addr_step A h1 h2 -> addr_step A h2 h3 -> addr_step A h1 h3.
Proof using Type*.
  intros [S1 N1 T1 C1 G1 I1 L1] [S2 N2 T2 C2 G2 I2 L2]. split.
  - congruence.
  - tauto.
  - tauto.
  - intros a Ha. rewrite C2, C1; done.
  - intros a Hn Ha Hc. rewrite G2, G1; [done..|by apply C1].
  - intros a. by rewrite I2, I1.
  - intros a b Hn Ha Hl. apply L2; [done..|]. by apply L1.
Qed.

Lemma addr_step_weaken A A' h h' : A ⊆ A' -> addr_step A h h' -> addr_step A' h h'.
Proof using Type*. intros Hs [S1 N1 T1 C1 G1 I1 L1]. split; try done; intros; [apply G1|apply L1]; set_solver. Qed.

Lemma addr_step_same A h h' : same_sizes h h' -> same_addrs h h' -> addr_step A h h'.
Proof using Type*.
  intros Hs [Ht Hc]. pose proof (ss_size _ _ Hs) as Es. unfold HashTableSpec.cache_in, addr_in, addr_leads.
  split; unfold HashTable.keycache_get, HashTableSpec.cache_in, addr_leads; rewrite ?Ht, ?Hc, ?Es; done.
Qed.

Lemma addr_step_ok A h h' a : addr_step A h h' -> addr_ok h' a <-> addr_ok h a.
Proof using Type*. intros H. unfold HashTableSpec.addr_ok. rewrite (a_in _ _ _ H). split; intros (? & ? & ?); (split; [done|]); (split; [done|]); by apply (a_cache _ _ _ H). Qed.

(** A write of the cache. *)
Lemma cache_step h a v : key_cache h <> None -> addr_ok h a ->
  exists c', keycache_set h a v = Some (set_key_cache h (Some c')) /\ addr_step [a] h (set_key_cache h (Some c')) /\
    keycache_get (set_key_cache h (Some c')) a = Some v.
Proof using Hseg.
  intros Hk Ha. destruct (keycache_set_ok _ Hseg h a v Hk Ha) as (c' & Hs & Hg & Ho & Hc). exists c'. split; [done|]. split; [|done]. split; try done.
  intros a' Hn. apply Ho. set_solver.
Qed.

(** A write of the table. *)
Lemma table_step h a v : 0 <= a -> addr_step [a] h (set_addr_table h (upd_addr (addr_table h) a v)).
Proof using Type*.
  intros H0. split; try done; [cbn; by destruct (addr_table h)|intros a'; apply addr_in_upd|]. intros a' b Hn Ha. unfold addr_leads. cbn. destruct (addr_table h) as [t|]; [|done]. cbn.
  rewrite list_lookup_insert_ne; [done|]. intros E. apply Hn. rewrite list_elem_of_singleton. lia.
Qed.

(** An entry stays right when its address is not affected. *)
Lemma entry_keep A onflash onflash' h h' b e k : addr_step A h h' -> blkaddress e ∉ A -> onflash' (blkaddress e) = onflash (blkaddress e) ->
  entry_ok onflash h b e k -> entry_ok onflash' h' b e k.
Proof using Type*.
  intros Hst Hn Hf [He1 He2 He3 He4 He5 He6 He7 He8 He9]. destruct He7 as (H0 & Hin & Hci). split; try done.
  - congruence.
  - unfold bucket_of_syn in *. by rewrite (a_size _ _ _ Hst).
  - by apply (addr_step_ok _ _ _ _ Hst).
  - by apply (a_leads _ _ _ Hst).
  - unfold HashTableSpec.cached in *. pose proof (a_none _ _ _ Hst). rewrite (a_get _ _ _ Hst) by done. destruct (key_cache h), (key_cache h'); try done; exfalso; naive_solver.
Qed.

Lemma inv_cache hole k h cs fs c : dir_inv hole k h cs fs -> dir_inv hole k (set_key_cache h c) cs fs.
Proof using Type*. intros []. by split. Qed.

(** The removal of an object clears its place in the cache. *)
Lemma remove_ok h e : used e = true -> blocks e <> 0 -> addr_ok h (blkaddress e) ->
  exists h', remove_entry h e = Some h' /\ h' = set_key_cache h (key_cache h') /\ addr_step [blkaddress e] h h' /\
    (key_cache h <> None -> keycache_get h' (blkaddress e) = Some 0).
Proof using Hseg.
  intros Hu Hb Ha. unfold mcd_fth_osd_remove_entry. rewrite Hu, (proj2 (Z.eqb_neq _ _) Hb). cbn [andb negb assert_ mbind option_bind].
  destruct (key_cache h) as [c|] eqn:Ec.
  - destruct (cache_step h (blkaddress e) 0) as (c' & -> & Hst & Hg); [congruence|done|]. eexists. split; [done|]. by split.
  - exists h. split; [done|]. split; [destruct h; cbn in *; by subst|]. split; [apply addr_step_same; reflexivity|done].
Qed.

(** ** Deletion *)

Lemma bucket_idx h syn b : bucket_of_syn h syn = n2z b -> syn mod hash_size h / OSD_HASH_BUCKET_SIZE = n2z b.
Proof using Type. done. Qed.

(** The table by address after a deletion: the entry that moves gets the index
    of the deleted one, which is in the same bucket. *)
Lemma delete_leads h h' e mv hidx b e' b2 :
  addr_table h' = match mv with
                  | Some x => upd_addr (upd_addr (addr_table h) (blkaddress e) 0) (blkaddress x) hidx
                  | None => upd_addr (addr_table h) (blkaddress e) 0
                  end ->
  hash_size h' = hash_size h -> 0 <= hidx < hash_size h -> hidx / OSD_HASH_BUCKET_SIZE = n2z b ->
  0 <= blkaddress e -> 0 <= blkaddress e' -> blkaddress e' <> blkaddress e -> addr_in (addr_table h) (blkaddress e') ->
  (forall x, mv = Some x -> 0 <= blkaddress x /\ (blkaddress e' = blkaddress x -> b2 = b)) ->
  addr_leads h (blkaddress e') b2 -> addr_leads h' (blkaddress e') b2.
Proof using Type*.
  intros Et Es Hh Hb H0 H0' Hne Hin Hmv. unfold addr_leads. rewrite Et, Es. destruct (addr_table h) as [t|]; [|by destruct mv].
  intros (v & Hv & Hr & Hd). destruct mv as [x|]; cbn.
  - destruct (Hmv x eq_refl) as [Hx Hbx]. destruct (decide (blkaddress e' = blkaddress x)) as [E|Hn].
    + exists hidx. rewrite E, list_lookup_insert_eq, (Hbx E); [done|]. cbn in Hin. rewrite length_insert. lia.
    + exists v. rewrite !list_lookup_insert_ne by lia. done.
  - exists v. rewrite list_lookup_insert_ne by lia. done.
Qed.

(** An entry is in one bucket only. *)
Lemma entry_bucket onflash h e b b2 k k2 : entry_ok onflash h b e k -> entry_ok onflash h b2 e k2 -> b2 = b.
Proof using Type. intros H1 H2. pose proof (e_onflash _ _ _ _ _ _ H1). pose proof (e_onflash _ _ _ _ _ _ H2). pose proof (e_bucket _ _ _ _ _ _ H1). pose proof (e_bucket _ _ _ _ _ _ H2). assert (k2 = k) by congruence. subst. lia. Qed.

Lemma addr_inj onflash L M e e' : list_rep onflash L M -> e ∈ L -> e' ∈ L -> blkaddress e = blkaddress e' -> e = e'.
Proof using Type.
  intros [H _ _] He He' E. induction L as [|x L IH]; [by apply not_elem_of_nil in He|]. cbn in H. apply NoDup_cons in H as [Hn H].
  apply elem_of_cons in He as [->|He], He' as [->|He']; [done| | |by apply IH]; exfalso; apply Hn; [rewrite E|rewrite <- E]; by apply list_elem_of_fmap_2.
Qed.

(** What stays from one request to the next. *)
Definition keeps (h h' : hash_handle) : Prop :=
  same_sizes h h' /\ (forall a, addr_ok h' a <-> addr_ok h a) /\ (key_cache h' = None <-> key_cache h = None) /\ (is_Some (addr_table h') <-> is_Some (addr_table h)).

Lemma keeps_refl h : keeps h h.
Proof using Type. by split. Qed.

Lemma keeps_trans h1 h2 h3 : keeps h1 h2 -> keeps h2 h3 -> keeps h1 h3.
Proof using Type. intros (S1 & A1 & N1 & T1) (S2 & A2 & N2 & T2). split; [by etransitivity|]. split; [intros a; by rewrite A2, A1|tauto]. Qed.


(** The directory without entry [e] of bucket [b]. [h0] is a state with its
    place in the cache cleared. *)
Lemma delete_rep onflash h h0 h' M cs fs cs' fs' b c c' e key hidx mv :
  dir_rep onflash h M cs fs -> cs !! b = Some c -> entry_ok onflash h b e key -> dir_ok h' cs' fs' -> same_sizes h h' -> same_others b h h' cs cs' ->
  cs' !! b = Some c' -> contents (hash_table h) c ≡ₚ e :: contents (hash_table h') c' ->
  addr_table h' = match mv with
                  | Some x => upd_addr (upd_addr (addr_table h) (blkaddress e) 0) (blkaddress x) hidx
                  | None => upd_addr (addr_table h) (blkaddress e) 0
                  end ->
  (forall x, mv = Some x -> x ∈ contents (hash_table h') c') -> 0 <= hidx < hash_size h -> hidx / OSD_HASH_BUCKET_SIZE = n2z b ->
  addr_step [blkaddress e] h h0 -> (key_cache h <> None -> keycache_get h0 (blkaddress e) = Some 0) -> key_cache h' = key_cache h0 ->
  dir_rep onflash h' (delete (cntr_id e, key) M) cs' fs' /\ keeps h h'.
Proof using Type*.
  intros H Hb Hok Hok' Hsz Ho Hb' Hc Hat Hmv Hhr Hhb Hst Hg Hkc. pose proof (e_addr _ _ _ _ _ _ Hok) as (Hea & _).
  assert (forall a, addr_ok h' a <-> addr_ok h a) as Hao.
  { intros a. rewrite <- (addr_step_ok _ _ _ a Hst). unfold HashTableSpec.addr_ok, HashTableSpec.cache_in. rewrite Hkc, Hat, (a_in _ _ _ Hst). destruct mv; by rewrite !addr_in_upd. }
  assert (forall x, mv = Some x -> x ∈ all_entries h cs /\ entry_ok onflash h b x (default [] (onflash (blkaddress x)))) as Hmvx.
  { intros x E. assert (x ∈ contents (hash_table h) c) as Hx by (rewrite Hc; right; by apply Hmv). split; [apply in_bucket; by exists b, c|].
    destruct (r_place _ _ _ _ _ _ H b c x Hb Hx) as [k Hk]. by rewrite (e_onflash _ _ _ _ _ _ Hk). }
  assert (forall a, keycache_get h' a = keycache_get h0 a) as Hget by (intros a; unfold HashTable.keycache_get; by rewrite Hkc).
  split; [|split; [done|split; [done|split; [rewrite Hkc; apply Hst|rewrite Hat; destruct mv; cbn; by destruct (addr_table h)]]]].
  eapply (rep_change _ onflash onflash h h' M _ cs fs cs' fs' b c c' [e] []); [done|done|done|done|done|exact Hc|done|by intros ? ?%not_elem_of_nil|..].
  - intros e' b2 k Hin Hne Hk. specialize (Hne e ltac:(left)). assert (entry_ok onflash h0 b2 e' k) as [He1 He2 He3 He4 He5 He6 He7 He8 He9] by (eapply entry_keep; [done|by rewrite list_elem_of_singleton|done|done]).
    assert (addr_ok h (blkaddress e')) as Hae by apply (e_addr _ _ _ _ _ _ Hk). split; try done.
    + unfold bucket_of_syn in *. rewrite (ss_size _ _ Hsz). by rewrite (a_size _ _ _ Hst) in He5.
    + by apply Hao.
    + eapply (delete_leads h h' e mv hidx b); [done|apply Hsz|done|done|done|apply Hae|done|apply Hae| |apply (e_leads _ _ _ _ _ _ Hk)].
      intros x E. destruct (Hmvx x E) as [Hx Hkx]. split; [apply (e_addr _ _ _ _ _ _ Hkx)|]. intros Ea. assert (e' = x) as -> by (eapply addr_inj; [apply H|done..]). by eapply entry_bucket.
    + unfold HashTableSpec.cached in *. by rewrite Hkc, Hget.
  - intros R _ HR. cbn [app] in HR |- *. eapply list_rep_delete; [done|]. apply (e_onflash _ _ _ _ _ _ Hok).
  - intros a. by rewrite Hao.
  - rewrite Hkc. intros Hn E. by apply Hn, (a_none _ _ _ Hst).
  - intros a Ha _ Hk Hcase. rewrite Hget. destruct (decide (a = blkaddress e)) as [->|Hne]; [by apply Hg|].
    destruct Hcase as [Hin|Hz]; [cbn in Hin; by apply list_elem_of_singleton in Hin|]. destruct Ha as (H0 & _ & Hci). rewrite <- Hz. apply (a_get _ _ _ Hst); [by rewrite list_elem_of_singleton|done|done].
Qed.

Lemma bucket_addrs onflash h M cs fs b c : dir_rep onflash h M cs fs -> cs !! b = Some c ->
  forall x, x ∈ contents (hash_table h) c -> addr_in (addr_table h) (blkaddress x).
Proof using Type. intros H Hb x Hx. destruct (r_place _ _ _ _ _ _ H b c x Hb Hx) as [k Hk]. apply (e_addr _ _ _ _ _ _ Hk). Qed.

Lemma size_pos hole k h cs fs : dir_inv hole k h cs fs -> 0 < hash_size h.
Proof using Type. intros H. pose proof (d_size _ _ _ _ _ H). pose proof (d_bktsize _ _ _ _ _ H). nia. Qed.

Lemma entry_delete_ok onflash h h0 M cs fs key cntr i s e b c :
  dir_rep onflash h M cs fs -> found_at onflash h cs key cntr i s e b c ->
  h0 = set_key_cache h (key_cache h0) -> addr_step [blkaddress e] h h0 -> (key_cache h <> None -> keycache_get h0 (blkaddress e) = Some 0) ->
  exists h' cs' fs', hash_entry_delete h0 (i, s) (hashck key 0 cntr mod hash_size h) = Some h' /\
    dir_rep onflash h' (delete (cntr, key) M) cs' fs' /\ keeps h h' /\
    exists c', cs' !! b = Some c' /\ ~ (head_full h' c' /\ hidden h' fs' (z2n (lock_of_syn h (hashck key 0 cntr)))).
Proof using Hseg.
  intros H (Hb & Hi & Hs & Hu & Hok & Hcn) E0 Hst Hg. subst cntr. pose proof (e_bucket _ _ _ _ _ _ Hok) as Hbk. set (syn := hashck key 0 (cntr_id e)) in *.
  assert (0 <= syn) as Hsyn by apply u64_range. pose proof (r_ok _ _ _ _ _ _ H) as Hinv. assert (dir_ok h0 cs fs) as Hinv0 by (rewrite E0; by apply inv_cache).
  pose proof (lock_lt _ _ _ _ _ Hinv syn Hsyn) as Hlk. pose proof (bucket_idx _ _ _ Hbk) as Hbi. unfold hash_entry_delete. rewrite Hbi.
  assert (same_sizes h h0) as Hsz0 by (rewrite E0; by split). assert (hash_table h0 = hash_table h) as Et0 by (by rewrite E0). assert (addr_table h0 = addr_table h) as Ea0 by (by rewrite E0).
  rewrite (ss_bktsize _ _ Hsz0). fold (lock_of_syn h syn). replace (lock_of_syn h syn) with (n2z (z2n (lock_of_syn h syn))) by lia. rewrite Nat2Z.id.
  destruct (delete_entry_ok h0 cs fs b c i s e (z2n (lock_of_syn h syn)) (syn mod hash_size h) Hinv0 Hb Hi) as (h' & cs' & fs' & c' & mv & -> & Hok' & Hsz & Hkc & Ho & Hb' & Hc & Hat & Hmv & Hroom);
    [by rewrite Et0|done|lia|rewrite Et0, Ea0; by eapply bucket_addrs|].
  rewrite Et0 in Hc. rewrite Ea0 in Hat. destruct (delete_rep onflash h h0 h' M cs fs cs' fs' b c c' e key (syn mod hash_size h) mv) as [H' Hk']; try done.
  - by etransitivity.
  - rewrite E0 in Ho. exact Ho.
  - apply Z.mod_pos_bound. by eapply size_pos.
  - exists h', cs', fs'. split; [done|]. split; [done|]. split; [done|]. exists c'. split; [done|]. apply (delete_room h h' cs cs' fs fs' b c c' e _ Hinv Hok' Hb' Hc Hroom).
Qed.

Lemma slab_delete_ok onflash h M cs fs key cntr i s e b c :
  dir_rep onflash h M cs fs -> found_at onflash h cs key cntr i s e b c ->
  exists h' a cs' fs', slab_delete Mcd_osd_segment_blks h (hashck key 0 cntr) (i, s) = Some (h', FLASH_EOK, Some a) /\
    dir_rep onflash h' (delete (cntr, key) M) cs' fs' /\ keeps h h' /\
    exists c', cs' !! b = Some c' /\ ~ (head_full h' c' /\ hidden h' fs' (z2n (lock_of_syn h (hashck key 0 cntr)))).
Proof using Hseg.
  intros H Hf. pose proof Hf as (Hb & Hi & Hs & Hu & Hok & Hcn). unfold slab_delete. rewrite read_entry_node, Hs. cbn [mbind option_bind].
  destruct (remove_ok h e Hu (e_blocks _ _ _ _ _ _ Hok) (e_addr _ _ _ _ _ _ Hok)) as (h0 & -> & E0 & Hst & Hg). cbn [mbind option_bind]. rewrite (a_size _ _ _ Hst).
  destruct (entry_delete_ok onflash h h0 M cs fs key cntr i s e b c H Hf E0 Hst Hg) as (h' & cs' & fs' & -> & H' & Hk & Hroom). cbn [mbind option_bind].
  rewrite read_entry_node. pose proof (r_ok _ _ _ _ _ _ H) as Hinv. pose proof (r_ok _ _ _ _ _ _ H') as Hinv'.
  assert (exists e', node (hash_table h') i !! s = Some e') as (e' & He').
  { apply lookup_lt_is_Some_2. apply lookup_lt_Some in Hs. unfold node in Hs |- *. destruct (hash_table h !! i) as [be|] eqn:Hbe; [|cbn in Hs; lia].
    pose proof (lookup_lt_Some _ _ _ Hbe) as Hlt. rewrite <- (ss_len _ _ (proj1 Hk)) in Hlt. destruct (lookup_lt_is_Some_2 _ _ Hlt) as [be' Hbe']. rewrite Hbe'.
    pose proof (d_four _ _ _ _ _ Hinv) as Hf4. pose proof (d_four _ _ _ _ _ Hinv') as Hf4'. rewrite Forall_lookup in Hf4, Hf4'. rewrite (Hf4' _ _ Hbe'). by rewrite (Hf4 _ _ Hbe) in Hs. }
  rewrite He'. cbn [mbind option_bind]. exists h', (blkaddress e'), cs', fs'. done.
Qed.

(** ** Writes *)

(** A new entry in the place of another. *)
Lemma replace_ok h cs fs b c i s e e' :
  dir_ok h cs fs -> cs !! b = Some c -> i ∈ c -> node (hash_table h) i !! s = Some e -> used e = true -> used e' = true ->
  exists h', hash_entry_copy h (i, s) (Some e') = Some h' /\ dir_ok h' cs fs /\ same_sizes h h' /\ same_addrs h h' /\ same_others b h h' cs cs /\
    exists r, contents (hash_table h) c ≡ₚ e :: r /\ contents (hash_table h') c ≡ₚ e' :: r.
Proof using Type.
  intros H Hb Hic Hs He He'. unfold node in Hs. destruct (hash_table h !! i) as [be|] eqn:Hi; [|done].
  destruct (copy_entry h (i, s) e (Some e')) as (be' & Hbe & _ & ->); [cbn; rewrite Hi; cbn; by rewrite Hs|].
  cbn [fst snd default] in *. assert (be' = be) as -> by congruence. set (be' := mk_bucket_entry _ _).
  pose proof (lookup_lt_Some _ _ _ Hi) as Hlt. pose proof (chain_nodup _ _ _ _ _ H _ _ Hb) as Hnd.
  destruct (uses_insert (be_entries be) s e Hs) as (rest & Hr1 & Hr2). specialize (Hr2 e').
  destruct (contents_change (hash_table h) c i (be_entries be) (<[s := e']> (be_entries be)) be' rest Hnd Hic Hlt
              ltac:(unfold node; by rewrite Hi) eq_refl _ _ Hr1 Hr2) as (others & Hc1 & Hc2).
  unfold use1 in Hc1, Hc2, Hr2. rewrite He in Hc1. rewrite He' in Hc2, Hr2. cbn [app] in Hc1, Hc2, Hr2.
  eexists. split; [reflexivity|].
  destruct (inv_entries None None 0 0 h (set_table h (<[i := be']> (hash_table h))) cs fs b c H ltac:(by left) ltac:(by left) Hb)
    as [Hinv Hothers]; cbn.
  - split; try done. cbn. by rewrite length_insert.
  - done.
  - done.
  - done.
  - apply four_insert; [apply H|]. unfold be'. cbn. rewrite length_insert. pose proof (d_four _ _ _ _ _ H) as Hf. rewrite Forall_lookup in Hf. by eapply Hf.
  - by apply (links_insert _ _ be).
  - intros j Hj. apply node_insert_ne. congruence.
  - pose proof (d_heads _ _ _ _ _ H b _ Hb) as Hh. destruct c as [|hd l]; [done|]. destruct Hh as [Hh Hfull]. split.
    + intros _. destruct (decide (hd = i)) as [->|]; [|rewrite node_insert_ne by done; by apply Hh]. rewrite node_insert by done. intros E. change (uses (<[s := e']> (be_entries be)) = []) in E.
      rewrite E in Hr2. by apply Permutation_nil_cons in Hr2.
    + apply Forall_forall. intros d Hd. rewrite Forall_forall in Hfull. specialize (Hfull d Hd). destruct (decide (d = i)) as [->|]; [|by rewrite node_insert_ne].
      rewrite node_insert by done. unfold node in Hfull. rewrite Hi in Hfull. by apply Forall_insert.
  - rewrite Hc1, Hc2. done.
  - split; [done|]. split; [split; try done; cbn; by rewrite length_insert|]. split; [done|]. split; [done|]. by exists others.
Qed.

(** An entry [e'] for the object with this key takes the place of the entry
    [old] for it, if there is one. *)
Lemma write_rep onflash h h' M cs fs cs' fs' b c c' old r key e' :
  let a := blkaddress e' in let cntr := cntr_id e' in
  dir_rep onflash h M cs fs -> cs !! b = Some c -> dir_ok h' cs' fs' -> same_others b h h' cs cs' -> cs' !! b = Some c' ->
  contents (hash_table h) c ≡ₚ old ++ r -> contents (hash_table h') c' ≡ₚ e' :: r ->
  (old = [] /\ M !! (cntr, key) = None \/ exists e, old = [e] /\ cntr_id e = cntr /\ onflash (blkaddress e) = Some key) ->
  a ∉ blkaddress <$> all_entries h cs -> addr_step (a :: (blkaddress <$> old)) h h' ->
  addr_leads h' a b -> cached h' a key -> (forall o, o ∈ old -> key_cache h <> None -> keycache_get h' (blkaddress o) = Some 0) ->
  addr_ok h a -> key <> [] -> cntr <> 0 -> blocks e' <> 0 -> bucket_of_syn h (hashck key 0 cntr) = n2z b ->
  hesyndrome e' = u16 (Z.shiftr (hashck key 0 cntr) OSD_HASH_SYN_SHIFT) ->
  dir_rep (on_write onflash a key) h' (<[(cntr, key) := object_of e']> M) cs' fs'.
Proof using Type*.
  intros a cntr H Hb Hok' Ho Hb' Hc Hc' Hold Hfr Hst Hl Hca Hz Ha Hk Hcn Hn Hbk Hsy.
  assert (forall x, x ∈ all_entries h cs -> blkaddress x <> a) as Hne by (intros x Hx <-; apply Hfr; by apply list_elem_of_fmap_2).
  eapply (rep_change _ onflash _ h h' M _ cs fs cs' fs' b c c' old [e'] r); [done|done|done|done|done|done|exact Hc'|..].
  - intros x ->%list_elem_of_singleton. exists key. split; try done.
    + unfold on_write. cbn. by rewrite Z.eqb_refl.
    + unfold bucket_of_syn in *. by rewrite (a_size _ _ _ Hst).
    + by apply (addr_step_ok _ _ _ _ Hst).
  - intros x b2 k Hx Hxo Hkx. eapply entry_keep; [exact Hst| | |exact Hkx].
    + rewrite not_elem_of_cons. split; [by apply Hne|]. intros (o & E & Hin)%list_elem_of_fmap. by apply (Hxo o).
    + unfold on_write. by rewrite (proj2 (Z.eqb_neq _ _) (Hne x Hx)).
  - intros R HR HL. rewrite HR, fmap_app, not_elem_of_app in Hfr. destruct Hfr as [_ HfR]. unfold a, cntr in *.
    destruct Hold as [[-> HM]|(e & -> & Hce & Hf)]; cbn [app] in HL |- *.
    + by apply (list_rep_insert onflash e').
    + rewrite <- insert_delete_eq. apply (list_rep_insert onflash e'); [|by apply lookup_delete_eq|done]. rewrite <- Hce. by apply (list_rep_delete onflash e R M key).
  - intros x. by apply (addr_step_ok _ _ _ _ Hst).
  - intros Hx E. by apply Hx, (a_none _ _ _ Hst).
  - intros x Hx Hxn Hkc Hcase. cbn in Hxn. apply not_elem_of_cons in Hxn as [Hxa _]. destruct (decide (x ∈ blkaddress <$> old)) as [(o & -> & Hin)%list_elem_of_fmap|Hxo]; [by apply Hz|].
    destruct Hcase as [|Hg]; [done|]. rewrite <- Hg. apply (a_get _ _ _ Hst); [by rewrite not_elem_of_cons|apply Hx|apply Hx].
Qed.

(** The key of a new object in the cache. *)
Lemma key_step h a key : addr_ok h a -> (key_cache h <> None -> keycache_get h a = Some 0) ->
  exists h0, (if (lenZ key =? 8) && bool_decide (is_Some (key_cache h)) then keycache_set h a (le_combine key) else Some h) = Some h0 /\
    h0 = set_key_cache h (key_cache h0) /\ addr_step [a] h h0 /\ cached h0 a key.
Proof using Hseg.
  intros Ha Hz. destruct (key_cache h) as [c|] eqn:Ec.
  - rewrite bool_decide_eq_true_2, andb_true_r by done. destruct (Z.eqb_spec (lenZ key) 8) as [El|Hl].
    + destruct (cache_step h a (le_combine key)) as (c' & -> & Hst & Hg); [congruence|done|]. eexists. split; [done|]. split; [done|]. split; [done|].
      unfold HashTableSpec.cached. cbn. eexists. split; [done|]. right. split; [lia|done].
    + exists h. split; [done|]. split; [by destruct h|]. split; [by apply addr_step_same|]. unfold HashTableSpec.cached. rewrite Ec. exists 0. split; [by apply Hz|by left].
  - rewrite bool_decide_eq_false_2, andb_false_r by (by intros []). exists h. split; [done|]. split; [by destruct h|]. split; [by apply addr_step_same|]. unfold HashTableSpec.cached. by rewrite Ec.
Qed.

Lemma list_rep_flash onflash onflash' L M : (forall e, e ∈ L -> onflash' (blkaddress e) = onflash (blkaddress e)) ->
  list_rep onflash L M -> list_rep onflash' L M.
Proof using Type.
  intros Hf [H1 H2 H3]. split; [done|intros x y Hx Hy; rewrite !Hf by done; by apply H2|]. intros cntr k o. rewrite H3.
  split; intros (e & He & Hc & Hk & Ho); exists e; (split; [done|]); (split; [done|]); (split; [|done]); [by rewrite Hf|by rewrite <- Hf].
Qed.

(** A write that does not get an entry. *)
Lemma no_entry_rep onflash h h' M cs fs b c a key :
  dir_rep onflash h M cs fs -> cs !! b = Some c -> h' = set_key_cache h (key_cache h') -> addr_step [a] h h' -> a ∉ blkaddress <$> all_entries h cs ->
  (key_cache h <> None -> keycache_get h' a = Some 0) -> dir_rep (on_write onflash a key) h' M cs fs.
Proof using Type*.
  intros H Hb E Hst Hfr Hg.
  assert (forall x, x ∈ all_entries h cs -> on_write onflash a key (blkaddress x) = onflash (blkaddress x)) as Hfl.
  { intros x Hx. unfold on_write. destruct (Z.eqb_spec (blkaddress x) a) as [<-|]; [|done]. exfalso. apply Hfr. by apply list_elem_of_fmap_2. }
  eapply (rep_change _ onflash _ h h' M M cs fs cs fs b c c [] []); [done|done|rewrite E; apply inv_cache, H|rewrite E; split; [done|intros; by split]|done|by rewrite app_nil_l|by rewrite E|by intros ? ?%not_elem_of_nil|..].
  - intros x b2 k Hx _ Hk. eapply entry_keep; [done| |by apply Hfl|done]. rewrite list_elem_of_singleton. intros E'. apply Hfr. rewrite <- E'. by apply list_elem_of_fmap_2.
  - intros R HR HL. eapply list_rep_flash; [|done]. intros x Hx. apply Hfl. by rewrite HR.
  - intros x. by apply (addr_step_ok _ _ _ _ Hst).
  - intros Hx E'. by apply Hx, (a_none _ _ _ Hst).
  - intros x Hx _ Hk [Hin|Hz]; [by apply not_elem_of_nil in Hin|]. destruct (decide (x = a)) as [->|Hne]; [by apply Hg|]. rewrite <- Hz. apply (a_get _ _ _ Hst); [by rewrite list_elem_of_singleton|apply Hx..].
Qed.

(** The last assignment of a write. *)
Lemma set_addr_last h b a v : addr_ok h a -> 0 <= v < hash_size h -> v / OSD_HASH_BUCKET_SIZE = n2z b ->
  exists h', set_addr h a v = Some h' /\ h' = set_addr_table h (addr_table h') /\ addr_step [a] h h' /\ addr_leads h' a b /\ key_cache h' = key_cache h.
Proof using Type*.
  intros (H0 & Hin & _) Hv Hb. rewrite set_addr_ok by done. eexists. split; [done|]. split; [done|]. split; [by apply table_step|]. split; [|done].
  unfold addr_leads. cbn. destruct (addr_table h) as [t|]; [|done]. cbn in Hin |- *. exists v. rewrite list_lookup_insert_eq by lia. done.
Qed.

Lemma keeps_step A h h' : same_sizes h h' -> addr_step A h h' -> keeps h h'.
Proof using Type*. intros Hs Hst. split; [done|]. split; [intros a; by apply (addr_step_ok _ _ _ _ Hst)|split; apply Hst]. Qed.

Lemma inv_table hole k h h' cs fs : h' = set_addr_table h (addr_table h') -> dir_inv hole k h cs fs -> dir_inv hole k h' cs fs.
Proof using Type. intros ->. apply inv_addr. Qed.

Section write.
Context (onflash : Z -> option (list byte)) (h : hash_handle) (M : directory) (cs fs : list (list nat)) (H : dir_rep onflash h M cs fs).
Context (rq : set_request) (a n : Z) (del : bool).
Context (Hkey : s_key rq <> []) (Hcntr : s_cntr rq <> 0) (Hn : n <> 0) (Ha : addr_ok h a) (Hfr : a ∉ blkaddress <$> all_entries h cs).
Let syn := hashck (s_key rq) 0 (s_cntr rq).

Lemma syn_idx : 0 <= syn mod hash_size h < hash_size h.
Proof using H. pose proof (r_ok _ _ _ _ _ _ H) as Hi. apply Z.mod_pos_bound. pose proof (d_size _ _ _ _ _ Hi). pose proof (d_bktsize _ _ _ _ _ Hi). nia. Qed.

Lemma syn_bucket : exists b c, bucket_of_syn h syn = n2z b /\ cs !! b = Some c.
Proof using H.
  pose proof (bucket_lt _ _ _ _ _ (r_ok _ _ _ _ _ _ H) syn ltac:(apply u64_range)) as Hb. destruct (lookup_lt_is_Some_2 cs (z2n (bucket_of_syn h syn)) ltac:(lia)) as [c Hc].
  exists (z2n (bucket_of_syn h syn)), c. split; [lia|done].
Qed.

(** A new object. *)
Lemma slab_insert_ok : M !! (s_cntr rq, s_key rq) = None ->
  exists h' rc ra M' cs' fs', slab_write Mcd_osd_segment_blks h rq syn None a n del = Some (h', rc, ra) /\
    dir_rep (on_write onflash a (s_key rq)) h' M' cs' fs' /\ keeps h h' /\
    ((rc = FLASH_EOK /\ M' = <[(s_cntr rq, s_key rq) := mk_object a n del]> M) \/ (rc = FLASH_ENOSPC /\ M' = M /\ no_room h cs fs syn)).
Proof using H Ha Hcntr Hfr Hkey Hn Hseg.
  intros HM. unfold slab_write. destruct syn_bucket as (b & c & Hbk & Hb). set (e' := mk_hash_entry _ _ _ _ _ _ _ _).
  destruct (key_step h a (s_key rq) Ha ltac:(by apply (r_free _ _ _ _ _ _ H))) as (h0 & -> & E0 & Hst0 & Hca). cbn [mbind option_bind].
  assert (same_sizes h h0) as Hs0 by (rewrite E0; by split). assert (dir_ok h0 cs fs) as Hi0 by (rewrite E0; apply inv_cache, H).
  destruct (insert_ok h0 cs fs syn b c e' Hi0 ltac:(apply u64_range) ltac:(by rewrite E0) Hb eq_refl) as (r & h1 & -> & Hcase). cbn [mbind option_bind]. destruct r as [p|].
  - destruct Hcase as (h2 & cs' & fs' & c' & -> & Hi2 & Hs2 & Had2 & _ & Ho & Hb' & Hc). cbn [mbind option_bind].
    assert (addr_step [a] h h2) as Hst2 by (eapply addr_step_trans; [done|by apply addr_step_same]). rewrite (a_size _ _ _ Hst2).
    destruct (set_addr_last h2 b a (syn mod hash_size h)) as (h' & -> & E' & Hst' & Hl & Hkc); [by apply (addr_step_ok _ _ _ _ Hst2)|rewrite (a_size _ _ _ Hst2); apply syn_idx|done|]. cbn [mbind option_bind].
    assert (addr_step [a] h h') as Hst by (by eapply addr_step_trans). assert (same_sizes h h') as Hs' by (etransitivity; [done|]; etransitivity; [done|]; rewrite E'; by split).
    eexists h', FLASH_EOK, _, _, cs', fs'. split; [done|]. split; [|split; [by eapply keeps_step|by left]].
    eapply (write_rep onflash h h' M cs fs cs' fs' b c c' [] _ (s_key rq) e'); [done|done|by eapply inv_table| |done|by rewrite app_nil_l| |by left|done|done|done| |by intros ? ?%not_elem_of_nil|done..].
    + rewrite E0 in Ho. rewrite E'. exact Ho.
    + rewrite E0 in Hc. rewrite E'. exact Hc.
    + assert (key_cache h' = key_cache h0) as Ek by (rewrite Hkc; apply Had2). unfold HashTableSpec.cached, HashTable.keycache_get in *. rewrite Ek. exact Hca.
  - destruct Hcase as (-> & _ & Hno). destruct (remove_ok h0 e' eq_refl Hn) as (h1 & -> & E1 & Hst1 & Hg1); [by apply (addr_step_ok _ _ _ _ Hst0)|]. cbn [mbind option_bind].
    assert (addr_step [a] h h1) as Hst by (by eapply addr_step_trans). assert (h1 = set_key_cache h (key_cache h1)) as E1' by (rewrite E1 at 1; rewrite E0; done).
    eexists h1, FLASH_ENOSPC, _, M, cs, fs. split; [done|]. split; [|split; [eapply keeps_step; [|done]; rewrite E1'; by split|right; split; [done|split; [done|by rewrite E0 in Hno]]]].
    eapply no_entry_rep; [done..|]. intros Hk. apply Hg1. intros E. by apply Hk, (a_none _ _ _ Hst0).
Qed.

(** A new version of an object. *)
Lemma slab_overwrite_ok i s e b c : found_at onflash h cs (s_key rq) (s_cntr rq) i s e b c ->
  exists h' ra cs' fs', slab_write Mcd_osd_segment_blks h rq syn (Some (i, s)) a n del = Some (h', FLASH_EOK, ra) /\
    dir_rep (on_write onflash a (s_key rq)) h' (<[(s_cntr rq, s_key rq) := mk_object a n del]> M) cs' fs' /\ keeps h h'.
Proof using H Ha Hcntr Hfr Hkey Hn Hseg.
  intros (Hb & Hi & Hs & Hu & Hok & Hcn). unfold slab_write. set (e' := mk_hash_entry _ _ _ _ _ _ _ _). pose proof (e_bucket _ _ _ _ _ _ Hok) as Hbk. rewrite Hcn in Hbk. fold syn in Hbk.
  assert (e ∈ all_entries h cs) as Hin. { apply in_bucket. exists b, c. split; [done|]. apply contents_elem. exists i. split; [done|]. split; [done|]. by eapply list_elem_of_lookup_2. }
  assert (blkaddress e <> a) as Hne by (intros E; apply Hfr; rewrite <- E; by apply list_elem_of_fmap_2).
  destruct (key_step h a (s_key rq) Ha ltac:(by apply (r_free _ _ _ _ _ _ H))) as (h0 & -> & E0 & Hst0 & Hca). cbn [mbind option_bind].
  rewrite read_entry_node. assert (hash_table h0 = hash_table h) as -> by (by rewrite E0). rewrite Hs. cbn [mbind option_bind].
  pose proof (e_addr _ _ _ _ _ _ Hok) as Hae. destruct (remove_ok h0 e Hu (e_blocks _ _ _ _ _ _ Hok)) as (h1 & -> & E1 & Hst1 & Hg1); [by apply (addr_step_ok _ _ _ _ Hst0)|]. cbn [mbind option_bind].
  assert (h1 = set_key_cache h (key_cache h1)) as E1' by (rewrite E1 at 1; rewrite E0; done). assert (dir_ok h1 cs fs) as Hi1 by (rewrite E1'; apply inv_cache, H).
  destruct (replace_ok h1 cs fs b c i s e e' Hi1 Hb Hi ltac:(by rewrite E1') Hu eq_refl) as (h2 & -> & Hi2 & Hs2 & Had2 & Ho & r & Hc & Hc'). cbn [mbind option_bind].
  set (A := [a; blkaddress e]). assert (addr_step A h h2) as Hst2.
  { eapply addr_step_trans; [eapply addr_step_weaken; [|exact Hst0]; unfold A; set_solver|]. eapply addr_step_trans; [eapply addr_step_weaken; [|exact Hst1]; unfold A; set_solver|]. by apply addr_step_same. }
  rewrite (a_size _ _ _ Hst2). destruct (set_addr_last h2 b a (syn mod hash_size h)) as (h' & -> & E' & Hst' & Hl & Hkc); [by apply (addr_step_ok _ _ _ _ Hst2)|rewrite (a_size _ _ _ Hst2); apply syn_idx|done|]. cbn [mbind option_bind].
  assert (addr_step A h h') as Hst by (eapply addr_step_trans; [done|]; eapply addr_step_weaken; [|done]; unfold A; set_solver).
  assert (same_sizes h h') as Hs' by (transitivity h1; [rewrite E1'; by split|]; etransitivity; [done|]; rewrite E'; by split).
  assert (forall x, keycache_get h' x = keycache_get h1 x) as Hget by (intros x; unfold HashTable.keycache_get; destruct Had2 as [_ Ek]; by rewrite Hkc, Ek).
  eexists h', _, cs, fs. split; [done|]. split; [|by eapply keeps_step].
  eapply (write_rep onflash h h' M cs fs cs fs b c c [e] _ (s_key rq) e'); [done|done|by eapply inv_table| |done|rewrite E1' in Hc; exact Hc| | |done|done|done| | |done..].
  - rewrite E1' in Ho. rewrite E'. exact Ho.
  - rewrite E'. exact Hc'.
  - right. exists e. split; [done|]. split; [done|]. apply (e_onflash _ _ _ _ _ _ Hok).
  - unfold HashTableSpec.cached in *. rewrite Hget. assert (key_cache h' = key_cache h1) as Ek by (destruct Had2 as [_ Ek]; by rewrite Hkc, Ek). rewrite Ek.
    pose proof (a_none _ _ _ Hst1) as Hnone. rewrite (a_get _ _ _ Hst1); [|by rewrite list_elem_of_singleton|apply Ha|by apply (a_cache _ _ _ Hst0), Ha; apply Ha].
    destruct (key_cache h1), (key_cache h0); try done. exfalso. naive_solver.
  - intros o ->%list_elem_of_singleton Hk. rewrite Hget. apply Hg1. intros E. by apply Hk, (a_none _ _ _ Hst0).
Qed.
End write.

(** ** Requests *)

(** The requests of the callers: a write comes with a block that no object
    uses. *)
Record rq_ok (h : hash_handle) (M : directory) (rq : set_request) : Prop := {
  q_key : s_key rq <> [];
  q_cntr : s_cntr rq <> 0;
  q_data : forall a n del, s_data rq = Some (a, n, del) -> n <> 0 /\ addr_ok h a /\ forall id o, M !! id = Some o -> ob_addr o <> a
}.

Lemma fresh_addr onflash h M cs fs a : dir_rep onflash h M cs fs -> (forall id o, M !! id = Some o -> ob_addr o <> a) ->
  a ∉ blkaddress <$> all_entries h cs.
Proof using Type.
  intros H Hfr (e & -> & He)%list_elem_of_fmap. pose proof He as (b & c & Hb & Hc)%in_bucket. destruct (r_place _ _ _ _ _ _ H b c e Hb Hc) as [k Hk].
  apply (Hfr (cntr_id e, k) (object_of e)); [|done]. apply (l_map _ _ _ (r_list _ _ _ _ _ _ H)). exists e. split; [done|]. split; [done|]. split; [apply (e_onflash _ _ _ _ _ _ Hk)|done].
Qed.

(** The state and the map after a request. *)
Definition next_map (M : directory) (rq : set_request) (rc : flash_rc) : directory :=
  match rc with FLASH_ENOSPC => M | _ => snd (set_spec M rq) end.

Lemma slab_set_ok onflash h M cs fs rq : dir_rep onflash h M cs fs -> rq_ok h M rq ->
  exists h' rc ra cs' fs', mcd_fth_osd_slab_set Mcd_osd_segment_blks onflash h rq = Some (h', rc, ra) /\
    dir_rep (flash_after onflash rq rc) h' (next_map M rq rc) cs' fs' /\ keeps h h' /\
    (rc = fst (set_spec M rq) \/
     (rc = FLASH_ENOSPC /\ fst (set_spec M rq) = FLASH_EOK /\ M !! (s_cntr rq, s_key rq) = None /\ no_room h cs fs (hashck (s_key rq) 0 (s_cntr rq)))).
Proof using Hseg.
  intros H [Hk Hc Hd]. unfold mcd_fth_osd_slab_set, next_map, set_spec, flash_after.
  destruct (too_big rq); [eexists h, FLASH_EINVAL, _, cs, fs; split; [done|]; split; [destruct (s_data rq) as [[[a n] del]|]; done|split; [apply keeps_refl|by left]]|].
  destruct (table_get_ok _ onflash h M cs fs H (s_key rq) (s_cntr rq) Hk Hc) as (r & -> & Hr). cbn [mbind option_bind].
  pose proof (keeps_refl h) as Hrefl. destruct r as [[i s]|].
  - destruct Hr as (e & b & c & Hf & HM). rewrite HM. destruct (s_data rq) as [[[a n] del]|] eqn:Ed; (destruct (test_exist rq); [eexists h, FLASH_EEXIST, _, cs, fs; split; [done|]; by split; [|split; [|left]]|]).
    + destruct (Hd a n del eq_refl) as (Hn & Ha & Hfr). eapply fresh_addr in Hfr; [|done].
      destruct (slab_overwrite_ok onflash h M cs fs H rq a n del Hk Hc Hn Ha Hfr i s e b c Hf) as (h' & ra & cs' & fs' & -> & H' & Hke).
      exists h', FLASH_EOK, ra, cs', fs'. split; [done|]. by split; [|split; [|left]].
    + destruct (slab_delete_ok onflash h M cs fs (s_key rq) (s_cntr rq) i s e b c H Hf) as (h' & a & cs' & fs' & -> & H' & Hke & _).
      exists h', FLASH_EOK, (Some a), cs', fs'. split; [done|]. by split; [|split; [|left]].
  - rewrite Hr. destruct (s_data rq) as [[[a n] del]|] eqn:Ed; [|eexists h, FLASH_ENOENT, _, cs, fs; split; [done|]; by split; [|split; [|left]]].
    destruct (test_nonexist rq) eqn:Et; [eexists h, FLASH_ENOENT, _, cs, fs; split; [done|]; by split; [|split; [|left]]|].
    destruct (Hd a n del eq_refl) as (Hn & Ha & Hfr). eapply fresh_addr in Hfr; [|done].
    destruct (slab_insert_ok onflash h M cs fs H rq a n del Hk Hc Hn Ha Hfr Hr) as (h' & rc & ra & M' & cs' & fs' & -> & H' & Hke & Hcase).
    exists h', rc, ra, cs', fs'. split; [done|]. destruct Hcase as [[-> ->]|(-> & -> & Hno)]; (split; [done|]); (split; [done|]); [by left|right; done].
Qed.
End set.
