(* ===== verification/HashTableInit.v ===== *)
(** * The object directory: sizes

    First the sizes and the state of a new directory, then its room for
    entries. *)

From stdpp Require Import gmap.
From S2P Require Import Prelude Hash HashTable HashTableRep HashTableOps HashTableSpec HashTableSet.
From stdpp Require Import list.
Open Scope Z_scope.

(** * The object directory: a new shard

    The sizes [hash_table_init] computes fit together, and the new directory is
    empty. *)

(** ** Sizes *)

(** The hash indexes of a shard: at most as many as there can be locks with the
    smallest share each, or a multiple that can be halved six times. *)
Definition size_ok (size : Z) : Prop := 0 < size /\ (size <= 2 ^ 26 \/ (size mod 16384 = 0 /\ size < 2 ^ 32)).

Lemma fewer_locks_small fuel bs bk : bk <= OSD_HASH_LOCK_BUCKETS -> fewer_locks fuel bs bk = (bs, bk).
Proof. intros H. destruct fuel; [done|]. cbn. by rewrite (proj2 (Z.ltb_ge _ _)). Qed.

Lemma pow2_S k : 2 ^ n2z (S k) = 2 ^ n2z k * 2.
Proof. replace (n2z (S k)) with (n2z k + 1) by lia. rewrite Z.pow_add_r; lia. Qed.

(** Halving an even number of locks keeps the product. *)
Lemma fewer_locks_ok k : forall fuel bs bk q, bk = 2 ^ n2z k * q -> 0 < q <= OSD_HASH_LOCK_BUCKETS -> (k <= fuel)%nat ->
  0 < bs -> bs * 2 ^ n2z k < 2 ^ 31 ->
  exists j bk', fewer_locks fuel bs bk = (bs * 2 ^ n2z j, bk') /\ (j <= k)%nat /\ bk = 2 ^ n2z j * bk' /\ bk' <= OSD_HASH_LOCK_BUCKETS /\
    (j = 0%nat \/ OSD_HASH_LOCK_BUCKETS <= 2 * bk').
Proof.
  induction k as [|k IH]; intros fuel bs bk q Hbk Hq Hf Hbs Hlt.
  - change (2 ^ n2z 0) with 1 in *. rewrite fewer_locks_small by lia. exists 0%nat, bk. change (2 ^ n2z 0) with 1. rewrite Z.mul_1_r. repeat split; lia.
  - destruct fuel as [|fuel]; [lia|]. cbn [fewer_locks]. rewrite pow2_S in *.
    pose proof (Z.pow_pos_nonneg 2 (n2z k) ltac:(lia) ltac:(lia)) as Hp. destruct (Z.ltb_spec OSD_HASH_LOCK_BUCKETS bk) as [Hbig|Hsmall].
    + assert (bk / 2 = 2 ^ n2z k * q) as Ehalf by (rewrite Hbk; replace (2 ^ n2z k * 2 * q) with (2 ^ n2z k * q * 2) by ring; apply Z.div_mul; lia).
      assert (i32 (bs * 2) = bs * 2) as -> by (apply i32_small; nia).
      destruct (IH fuel (bs * 2) (bk / 2) q Ehalf Hq ltac:(lia) ltac:(lia) ltac:(nia)) as (j & bk' & -> & Hj & Hprod & Hle & Hlast).
      exists (S j), bk'. rewrite pow2_S. split; [f_equal; ring|]. split; [lia|]. split; [rewrite <- Z.mul_assoc, (Z.mul_comm 2 bk'), Z.mul_assoc; lia|]. split; [done|].
      right. destruct Hlast as [->|]; [|done]. change (2 ^ n2z 0) with 1 in *. lia.
    + exists 0%nat, bk. change (2 ^ n2z 0) with 1. rewrite Z.mul_1_r. repeat split; lia.
Qed.

(** Doubling the number of locks keeps the product too. *)
Lemma more_locks_ok k : forall fuel bs bk, bs = 16 * 2 ^ n2z k -> (k <= fuel)%nat -> 0 < bk <= OSD_HASH_LOCK_BUCKETS ->
  exists j bk', more_locks fuel bs bk = (16 * 2 ^ n2z j, bk') /\ (j <= k)%nat /\ 16 * 2 ^ n2z j * bk' = bs * bk /\ bk <= bk' /\ (j = 0%nat \/ 32768 <= bk').
Proof.
  induction k as [|k IH]; intros fuel bs bk -> Hf Hbk.
  - exists 0%nat, bk. change (16 * 2 ^ n2z 0) with 16. split; [|repeat split; lia]. destruct fuel; [done|]. cbn [more_locks]. change (Mcd_osd_bucket_size <=? 16 / 2) with false. by rewrite andb_false_r.
  - destruct fuel as [|fuel]; [lia|]. cbn [more_locks]. rewrite pow2_S in *.
    pose proof (Z.pow_pos_nonneg 2 (n2z k) ltac:(lia) ltac:(lia)) as Hp. destruct (Z.ltb_spec bk 32768) as [Hlt|Hge]; cbn [andb].
    + assert (16 * (2 ^ n2z k * 2) / 2 = 16 * 2 ^ n2z k) as -> by (rewrite Z.mul_assoc; apply Z.div_mul; lia).
      change Mcd_osd_bucket_size with 16. rewrite (proj2 (Z.leb_le _ _)) by lia. unfold OSD_HASH_LOCK_BUCKETS in *. rewrite u64_small by lia.
      destruct (IH fuel _ (bk * 2) eq_refl ltac:(lia) ltac:(unfold OSD_HASH_LOCK_BUCKETS; lia)) as (j & bk' & -> & Hj & Hprod & Hle & Hlast). exists j, bk'. repeat split; try done; try nia.
    + exists (S k), bk. rewrite pow2_S. repeat split; try lia.
Qed.

(** The locks cover the hash indexes exactly. *)
Lemma init_locks_ok size : size_ok size ->
  exists j bk, init_locks size = (16 * 2 ^ n2z j, bk) /\ size <= 16 * 2 ^ n2z j * bk < size + 256 /\ (j <= 10)%nat /\ 16 * 2 ^ n2z j <= bk.
Proof.
  intros [Hpos Hsz]. unfold init_locks. set (B := (size + OSD_HASH_LOCKBKT_MINSIZE - 1) / OSD_HASH_LOCKBKT_MINSIZE). change OSD_HASH_LOCKBKT_MINSIZE with 256 in *.
  assert (size <= 256 * B < size + 256 /\ 0 < B) as [HB HB0].
  { unfold B. pose proof (Z.div_mod (size + 256 - 1) 256 ltac:(lia)). pose proof (Z.mod_pos_bound (size + 256 - 1) 256 ltac:(lia)). lia. }
  assert (exists k q, B = 2 ^ n2z k * q /\ 0 < q <= OSD_HASH_LOCK_BUCKETS /\ (k <= 6)%nat) as (k & q & HBq & Hq & Hk).
  { unfold OSD_HASH_LOCK_BUCKETS. destruct Hsz as [Hsz|[Hm Hsz]]; [exists 0%nat, B; change (2 ^ n2z 0) with 1; lia|].
    exists 6%nat, (size / 16384). change (2 ^ n2z 6) with 64. pose proof (Z.div_mod size 16384 ltac:(lia)). lia. }
  assert (2 ^ n2z k <= 2 ^ 6) as Hpk by (apply Z.pow_le_mono_r; lia).
  destruct (fewer_locks_ok k 64 256 B q HBq Hq ltac:(lia) ltac:(lia) ltac:(lia)) as (j & bk & -> & Hj & HBj & Hbk & Hlast).
  pose proof (Z.pow_pos_nonneg 2 (n2z j) ltac:(lia) ltac:(lia)) as Hp. assert (0 < bk) by nia.
  destruct (more_locks_ok (4 + j) 64 (256 * 2 ^ n2z j) bk) as (j' & bk' & -> & Hj' & Hprod & Hle & Hlast'); [|lia|lia|].
  { replace (n2z (4 + j)) with (4 + n2z j) by lia. rewrite Z.pow_add_r by lia. lia. }
  exists j', bk'. split; [done|]. rewrite Hprod. split; [rewrite HBj in HB; lia|]. split; [lia|].
  assert (2 ^ n2z j' <= 2 ^ 10) as Hpj by (apply Z.pow_le_mono_r; lia). destruct Hlast' as [->|]; [|lia]. change (2 ^ n2z 0) with 1 in *. nia.
Qed.

(** ** The new directory *)

Lemma replicate_chains tbl n : Forall2 (chain tbl) (replicate n 0) (replicate n []).
Proof. induction n; cbn; constructor; done. Qed.

Lemma concat_replicate_nil {A} n : concat (replicate n ([] : list A)) = [].
Proof. by induction n. Qed.

Section init.
Context (Mcd_osd_blk_size Mcd_osd_segment_blks Mcd_osd_segment_size : Z) (storm_mode : bool) (junk : nat -> Z) (total_size max_nobjs : Z) (kc : bool).
Context (Hblk : 0 < Mcd_osd_blk_size) (Hseg : 0 < Mcd_osd_segment_blks) (Hsize : Mcd_osd_segment_size = Mcd_osd_blk_size * Mcd_osd_segment_blks).
Context (Htotal : 0 <= total_size) (Hjunk : storm_mode = true \/ forall n, junk n = 0).
Let size := init_hash_size Mcd_osd_blk_size Mcd_osd_segment_blks total_size max_nobjs.
Context (Hok : size_ok size) (h : hash_handle).
Context (Hinit : hash_table_init Mcd_osd_blk_size Mcd_osd_segment_blks Mcd_osd_segment_size storm_mode junk total_size max_nobjs kc = Some h).

Lemma init_dir : exists cs fs, dir_ok h cs fs /\ all_entries h cs = [] /\ (forall b c, cs !! b = Some c -> c = []).
Proof using Hinit Hok.
  unfold hash_table_init in Hinit. destruct ((total_size =? 0) && (max_nobjs =? 0)); [done|]. fold size in Hinit.
  destruct (init_locks_ok size Hok) as (j & bk & E & Hr & Hj & Hle). rewrite E in Hinit. pose proof (Z.pow_pos_nonneg 2 (n2z j) ltac:(lia) ltac:(lia)) as Hp.
  assert ((if size <? 16 * 2 ^ n2z j * bk then 16 * 2 ^ n2z j * bk else size) = 16 * 2 ^ n2z j * bk) as Es by (destruct (Z.ltb_spec size (16 * 2 ^ n2z j * bk)); lia).
  rewrite Es in Hinit. set (sz := 16 * 2 ^ n2z j * bk) in *. destruct Hok as [Hs1 Hs2]. change (n2z OSD_HASH_ENTRY_PER_BUCKET_ENTRY) with 4 in Hinit. unfold OSD_HASH_BUCKET_SIZE in *.
  pose proof (Z.div_mod sz 4 ltac:(lia)). pose proof (Z.mod_pos_bound sz 4 ltac:(lia)). assert (sz / 16 = 2 ^ n2z j * bk) as E16 by (unfold sz; replace (16 * 2 ^ n2z j * bk) with (2 ^ n2z j * bk * 16) by ring; apply Z.div_mul; lia).
  rewrite u32_small in Hinit by nia. injection Hinit as <-. exists (replicate (z2n (sz / 16)) []), (replicate (z2n bk) []). unfold all_entries. cbn. rewrite concat_replicate_nil.
  split; [|split; [done|by intros b c [-> _]%lookup_replicate]]. split; cbn; rewrite ?length_replicate, ?concat_replicate_nil; try done; try lia; try nia.
  - unfold OSD_HASH_BUCKET_SIZE. rewrite Z.mul_comm. apply Z.mod_mul. lia.
  - unfold OSD_HASH_BUCKET_SIZE. rewrite E16. unfold sz. nia.
  - pose proof (Z.div_mod (bk + 64 - 1) 64 ltac:(lia)). pose proof (Z.mod_pos_bound (bk + 64 - 1) 64 ltac:(lia)). rewrite Z2Nat.id by (apply Z.div_pos; lia). lia.
  - by apply Forall_replicate.
  - apply replicate_chains.
  - apply replicate_chains.
  - constructor.
  - by intros i Hi%not_elem_of_nil.
  - by intros b c [-> _]%lookup_replicate.
  - intros i _. unfold node. destruct (replicate _ new_node !! i) as [be|] eqn:Ei; [|done]. by apply lookup_replicate in Ei as [-> _].
Qed.

(** The blocks of the shard have their places in the tables. *)
Lemma init_addr a : 0 <= a < total_size / Mcd_osd_blk_size -> addr_ok Mcd_osd_segment_blks h a.
Proof using Hblk Hinit Hseg Hsize Htotal.
  clear Hjunk. intros Ha. unfold hash_table_init in Hinit. destruct ((total_size =? 0) && (max_nobjs =? 0)); [done|]. destruct (init_locks _) as [bs bk]. injection Hinit as <-.
  split; [lia|]. split; cbn.
  - destruct storm_mode; [done|]. cbn. rewrite length_replicate. lia.
  - unfold cache_in. cbn. destruct kc; [|done]. set (s := a / Mcd_osd_segment_blks). set (blks := total_size / Mcd_osd_blk_size) in *.
    assert (0 <= s /\ s * Mcd_osd_segment_blks + a mod Mcd_osd_segment_blks = a) as [Hs0 Hsa]
      by (split; [apply Z.div_pos; lia|unfold s; pose proof (Z.div_mod a Mcd_osd_segment_blks ltac:(lia)); lia]).
    pose proof (Z.mod_pos_bound a Mcd_osd_segment_blks Hseg) as Hm.
    assert (s < total_size / Mcd_osd_segment_size + 1) as Hs1.
    { rewrite Hsize, <- Z.div_div by lia. fold blks. assert (s <= blks / Mcd_osd_segment_blks); [|lia]. apply Z.div_le_mono; lia. }
    unfold init_key_cache, at_. rewrite (proj2 (Z.ltb_ge _ _)) by lia. rewrite list_lookup_fmap, lookup_seq_lt by lia. cbn [fmap option_fmap option_map]. eexists. split; [done|]. fold blks.
    rewrite (proj2 (Nat.ltb_lt _ _)) by nia. destruct storm_mode; cbn; [done|]. rewrite length_fmap, length_seq. nia.
Qed.

Lemma init_rep onflash : exists cs fs, dir_rep Mcd_osd_segment_blks onflash h ∅ cs fs.
Proof using Hblk Hinit Hjunk Hok Hseg.
  destruct init_dir as (cs & fs & Hdir & Hall & Hcs). exists cs, fs. split; [done| | |].
  - intros b c e Hb He. rewrite (Hcs b c Hb) in He. by apply not_elem_of_nil in He.
  - rewrite Hall. split; [constructor|by intros e e' ?%not_elem_of_nil|]. intros cntr k o. rewrite lookup_empty. split; [done|]. by intros (e & ?%not_elem_of_nil & _).
  - intros a (H0 & _ & Hci) _ Hk. unfold hash_table_init in Hinit. destruct ((total_size =? 0) && (max_nobjs =? 0)); [done|]. destruct (init_locks _) as [bs bk]. injection Hinit as <-.
    unfold cache_in, keycache_get in *. cbn in *. destruct kc; [|done]. cbn. destruct Hci as (seg & Hs & Hw). rewrite Hs. cbn. unfold at_, init_key_cache in Hs.
    destruct (_ <? 0); [done|]. rewrite list_lookup_fmap in Hs. destruct (seq _ _ !! _) as [s|]; [|done]. injection Hs as <-. destruct storm_mode; [done|]. destruct Hjunk as [?|Hj]; [done|].
    cbn in *. destruct (negb _); [done|]. unfold at_ at 1. pose proof (Z.mod_pos_bound a Mcd_osd_segment_blks Hseg). rewrite (proj2 (Z.ltb_ge _ _)) by lia. rewrite list_lookup_fmap.
    rewrite length_fmap, length_seq in Hw. rewrite lookup_seq_lt by lia. cbn. by rewrite Hj.
Qed.
End init.

(** * The object directory: room for entries

    The nodes a number of entries needs at most, and why an insertion can
    fail. *)

(** The number of nodes [hash_table_init] allocates. *)
Definition capacity (h : hash_handle) : Prop := max_hash_table_idx h = hash_size h / 4 + hash_size h / OSD_HASH_BUCKET_SIZE.

Lemma capacity_keeps h h' : same_sizes h h' -> capacity h -> capacity h'.
Proof. intros Hs. unfold capacity. by rewrite (ss_max _ _ Hs), (ss_size _ _ Hs). Qed.

(** ** Nodes and entries *)

(** All nodes of a chain but the first have four entries. *)
Lemma chain_nodes h cs fs b c : dir_ok h cs fs -> cs !! b = Some c -> 4 * lenZ c <= lenZ (contents (hash_table h) c) + 3.
Proof.
  intros H Hb. pose proof (d_heads _ _ _ _ _ H b c Hb) as Hh. destruct c as [|i l]; [cbn; lia|]. destruct Hh as [Hne Hfull]. specialize (Hne ltac:(done)).
  change (contents (hash_table h) (i :: l)) with (uses (node (hash_table h) i) ++ contents (hash_table h) l). rewrite length_app. cbn [length].
  assert (length (contents (hash_table h) l) = 4 * length l)%nat as Hl by (eapply full_nodes_len; [done| |done]; intros d Hd; eapply elem_concat; [done|by right]).
  destruct (uses (node (hash_table h) i)); [done|]. cbn [length]. lia.
Qed.

Lemma nodes_bound h cs fs : dir_ok h cs fs -> 4 * lenZ (concat cs) <= alloc_count h + 3 * lenZ cs.
Proof.
  intros H. rewrite (d_count _ _ _ _ _ H), Z.add_0_r.
  assert (forall ls, (forall c, c ∈ ls -> c ∈ cs) -> 4 * lenZ (concat ls) <= lenZ (contents (hash_table h) (concat ls)) + 3 * lenZ ls) as Hgen; [|by apply Hgen].
  induction ls as [|c ls IH]; intros Hin; [cbn; lia|]. cbn [concat]. rewrite contents_app, !length_app. cbn [length].
  destruct (list_elem_of_lookup_1 cs c ltac:(apply Hin; left)) as [b Hb]. pose proof (chain_nodes h cs fs b c H Hb). specialize (IH ltac:(intros x Hx; apply Hin; by right)). lia.
Qed.

(** As long as no node was freed, there is room for as many entries as the
    directory was made for. *)
Lemma room_left h cs fs : dir_ok h cs fs -> capacity h -> alloc_count h < hash_size h -> concat fs = [] -> hash_table_idx h < max_hash_table_idx h.
Proof.
  intros H Hcap Ha Hfs. pose proof (nodes_bound h cs fs H) as Hb. pose proof (d_cover _ _ _ _ _ H) as Hc. rewrite Hfs, app_nil_r in Hc. pose proof (d_cs _ _ _ _ _ H) as Hcs.
  rewrite Hcap, Hcs. unfold OSD_HASH_BUCKET_SIZE in *. rewrite (Z.mul_comm 16), Z.div_mul by lia. replace (lenZ cs * 16) with (lenZ cs * 4 * 4) by lia. rewrite Z.div_mul by lia. lia.
Qed.

(** A free node that an insertion with this hash does not see: its lock's bit
    is clear, or the lock is another one past the number of indexes per lock. *)
Definition unseen_node (h : hash_handle) (syn : Z) (l : nat) (p : Z) : Prop :=
  bucket_locks_free_list h !! l = Some p /\ p <> 0 /\
  (map_bit_isset (bucket_locks_free_map h) (n2z l) = Some false \/ (lock_bktsize h <= n2z l /\ n2z l <> lock_of_syn h syn)).

Lemma no_room_reason h cs fs syn : dir_ok h cs fs -> capacity h -> 0 <= syn -> alloc_count h < hash_size h -> no_room h cs fs syn -> exists l p, unseen_node h syn l p.
Proof.
  intros H Hcap Hsyn Ha (Hfull & Hown & Hothers). destruct (decide (concat fs = [])) as [Hnil|Hne]; [pose proof (room_left h cs fs H Hcap Ha Hnil); lia|].
  assert (exists l f, fs !! l = Some f /\ f <> []) as (l & f & Hl & Hf).
  { clear -Hne. induction fs as [|f fs IH]; [done|]. cbn in Hne. destruct f as [|x f]; [|exists 0%nat, (x :: f); done]. destruct (IH Hne) as (l & f & Hl & Hf). by exists (S l), f. }
  destruct (free_chain _ _ _ _ _ H l f Hl) as (p & Hp & Hch). exists l, p. split; [done|]. destruct f as [|i f]; [done|]. destruct Hch as [-> _].
  split; [unfold ptr_to; lia|]. assert (forall j, j = l -> hidden h fs j -> map_bit_isset (bucket_locks_free_map h) (n2z l) = Some false) as Hhid by (intros j -> [|E]; [done|congruence]).
  destruct (decide (n2z l < lock_bktsize h)) as [Hlt|Hge]; [left; by eapply Hhid, Hothers|]. pose proof (lock_lt _ _ _ _ _ H syn Hsyn) as Hlk.
  destruct (decide (n2z l = lock_of_syn h syn)) as [E|Hno]; [left; eapply Hhid, Hown; lia|right; lia].
Qed.
