(* ===== verification/HashTableUndo.v ===== *)
(** * The object directory: rollback of a request

    The roll back of a transaction undoes a write with [mcd_osd_trx_revert] and
    a deletion with [mcd_osd_trx_insert]. *)

From stdpp Require Import gmap.
From S2P Require Import Prelude Hash HashTable HashTableRep HashTableOps HashTableSpec HashTableSet.
From stdpp Require Import list.
Open Scope Z_scope.

Section undo.
Context (Mcd_osd_segment_blks : Z) (Hseg : 0 < Mcd_osd_segment_blks).
Abbreviation keycache_get := (keycache_get Mcd_osd_segment_blks).
Abbreviation addr_ok := (addr_ok Mcd_osd_segment_blks).
Abbreviation cached := (cached Mcd_osd_segment_blks).
Abbreviation entry_ok := (entry_ok Mcd_osd_segment_blks).
Abbreviation dir_rep := (dir_rep Mcd_osd_segment_blks).
Abbreviation found_at := (found_at Mcd_osd_segment_blks).
Abbreviation keeps := (keeps Mcd_osd_segment_blks).

(** The entry of an object. *)
Definition lookup_entry (onflash : Z -> option (list byte)) (h : hash_handle) (key : list byte) (cntr : Z) : option (option hash_entry) :=
  r ← hash_table_get Mcd_osd_segment_blks onflash h key cntr;
  match r with Some p => e ← read_entry h p; Some (Some e) | None => Some None end.

(** It is what the map has. *)
Lemma lookup_entry_ok onflash h M cs fs key cntr : dir_rep onflash h M cs fs -> key <> [] -> cntr <> 0 ->
  exists r, lookup_entry onflash h key cntr = Some r /\ object_of <$> r = M !! (cntr, key).
Proof using Type.
  intros H Hk Hc. unfold lookup_entry. destruct (table_get_ok _ onflash h M cs fs H key cntr Hk Hc) as (r & -> & Hr). cbn [mbind option_bind]. destruct r as [[i s]|]; [|by exists None].
  destruct Hr as (e & b & c & (_ & _ & Hs & _) & HM). rewrite read_entry_node, Hs. exists (Some e). by rewrite HM.
Qed.

Lemma rep_flash onflash onflash' h M cs fs : (forall a, onflash' a = onflash a) -> dir_rep onflash h M cs fs -> dir_rep onflash' h M cs fs.
Proof using Type.
  intros E [H1 H2 H3 H4]. split; [done| |eapply list_rep_flash; [|done]; intros; apply E|done]. intros b c e Hb He. destruct (H2 b c e Hb He) as [k Hk]. exists k. destruct Hk. split; try done. by rewrite E.
Qed.

(** No other object is at the address of an entry. *)
Lemma addr_unique onflash h M cs fs e key : dir_rep onflash h M cs fs -> e ∈ all_entries h cs -> onflash (blkaddress e) = Some key ->
  forall id o, M !! id = Some o -> id <> (cntr_id e, key) -> ob_addr o <> blkaddress e.
Proof using Type.
  intros H He Hf [cn k] o (e2 & He2 & Hc & Hk & ->)%(l_map _ _ _ (r_list _ _ _ _ _ _ H)) Hne E. apply Hne.
  assert (e2 = e) as -> by (eapply addr_inj; [apply H|done..]). congruence.
Qed.

Lemma found_in onflash h cs key cntr i s e b c : found_at onflash h cs key cntr i s e b c -> e ∈ all_entries h cs.
Proof using Type.
  intros (Hb & Hi & Hs & Hu & _). apply in_bucket. exists b, c. split; [done|]. apply contents_elem. exists i. split; [done|]. split; [done|]. by eapply list_elem_of_lookup_2.
Qed.

(** ** Undoing a deletion *)

Lemma trx_insert_ok onflash h M cs fs b c key e :
  dir_rep onflash h M cs fs -> used e = true -> cs !! b = Some c -> bucket_of_syn h (hashck key 0 (cntr_id e)) = n2z b ->
  ~ (head_full h c /\ hidden h fs (z2n (lock_of_syn h (hashck key 0 (cntr_id e))))) ->
  M !! (cntr_id e, key) = None -> (forall id o, M !! id = Some o -> ob_addr o <> blkaddress e) ->
  addr_ok h (blkaddress e) -> key <> [] -> cntr_id e <> 0 -> blocks e <> 0 -> hesyndrome e = u16 (Z.shiftr (hashck key 0 (cntr_id e)) OSD_HASH_SYN_SHIFT) ->
  exists h' cs' fs', mcd_osd_trx_insert h (hashck key 0 (cntr_id e)) e = Some (h', true) /\
    dir_rep (on_write onflash (blkaddress e) key) h' (<[(cntr_id e, key) := object_of e]> M) cs' fs' /\ keeps h h'.
Proof using Hseg.
  intros H Hu Hb Hbk Hroom HM Hfr Ha Hk Hcn Hn Hsy. set (syn := hashck key 0 (cntr_id e)) in *. unfold mcd_osd_trx_insert. pose proof (r_ok _ _ _ _ _ _ H) as Hi.
  destruct (insert_ok h cs fs syn b c e Hi ltac:(apply u64_range) Hbk Hb Hu) as (r & h1 & -> & Hcase). cbn [mbind option_bind].
  destruct r as [p|]; [|destruct Hcase as (_ & Hf & (_ & Hhid & _)); by destruct Hroom].
  destruct Hcase as (h2 & cs' & fs' & c' & -> & Hi2 & Hs2 & Had2 & _ & Ho & Hb' & Hc). cbn [mbind option_bind].
  assert (addr_step Mcd_osd_segment_blks [blkaddress e] h h2) as Hst2 by (by apply addr_step_same). rewrite (a_size _ _ _ _ Hst2).
  assert (0 <= syn mod hash_size h < hash_size h) as Hidx by (apply Z.mod_pos_bound; pose proof (d_size _ _ _ _ _ Hi); pose proof (d_bktsize _ _ _ _ _ Hi); nia).
  destruct (set_addr_last _ Hseg h2 b (blkaddress e) (syn mod hash_size h)) as (h' & -> & E' & Hst' & Hl & Hkc); [by apply (addr_step_ok _ Hseg _ _ _ _ Hst2)|by rewrite (a_size _ _ _ _ Hst2)|done|]. cbn [mbind option_bind].
  assert (addr_step Mcd_osd_segment_blks [blkaddress e] h h') as Hst by (by eapply addr_step_trans). assert (same_sizes h h') as Hs' by (etransitivity; [done|]; rewrite E'; by split).
  assert (blkaddress e ∉ blkaddress <$> all_entries h cs) as Hfr' by (by eapply fresh_addr).
  eexists h', cs', fs'. split; [done|]. split; [|by eapply keeps_step].
  eapply (write_rep _ Hseg onflash h h' M cs fs cs' fs' b c c' [] _ key e); [done|done|by eapply inv_table| |done|by rewrite app_nil_l| |by left|done|done|done| |by intros ? ?%not_elem_of_nil|done..].
  - rewrite E'. exact Ho.
  - rewrite E'. exact Hc.
  - unfold HashTableSpec.cached. assert (key_cache h' = key_cache h) as Ek by (rewrite Hkc; apply Had2). unfold HashTable.keycache_get. rewrite Ek. destruct (key_cache h) as [kc|] eqn:Ekc; [|done].
    exists 0. split; [|by left]. rewrite <- Ekc. apply (r_free _ _ _ _ _ _ H); [done|done|congruence].
Qed.

Lemma undo_delete_ok onflash h M cs fs key cntr i s e b c :
  dir_rep onflash h M cs fs -> found_at onflash h cs key cntr i s e b c -> M !! (cntr, key) = Some (object_of e) ->
  exists h1 a h2 cs' fs', slab_delete Mcd_osd_segment_blks h (hashck key 0 cntr) (i, s) = Some (h1, FLASH_EOK, Some a) /\
    mcd_osd_trx_insert h1 (hashck key 0 cntr) e = Some (h2, true) /\ dir_rep onflash h2 M cs' fs' /\ keeps h h2.
Proof using Hseg.
  intros H Hf HM. pose proof (found_in _ _ _ _ _ _ _ _ _ _ Hf) as Hin. pose proof Hf as (_ & _ & _ & Hu & Hok & Hcn). subst cntr.
  destruct (slab_delete_ok _ Hseg onflash h M cs fs key (cntr_id e) i s e b c H Hf) as (h1 & a & cs1 & fs1 & -> & H1 & Hk1 & c1 & Hb1 & Hroom).
  destruct Hok as [Eo Ek Ec Eb Ebk Es Ea El Eca]. pose proof (ss_size _ _ (proj1 Hk1)) as Esz. pose proof (ss_bktsize _ _ (proj1 Hk1)) as Ebs.
  destruct (trx_insert_ok onflash h1 (delete (cntr_id e, key) M) cs1 fs1 b c1 key e) as (h2 & cs' & fs' & Hins & H2 & Hk2); try done.
  - unfold bucket_of_syn in *. by rewrite Esz.
  - unfold lock_of_syn in *. by rewrite Esz, Ebs.
  - apply lookup_delete_eq.
  - intros id o [Hne Ho]%lookup_delete_Some. eapply (addr_unique _ _ _ _ _ _ _ H Hin Eo id o Ho); congruence.
  - by apply Hk1.
  - exists h1, a, h2, cs', fs'. split; [done|]. split; [done|]. rewrite insert_delete_id in H2 by done. split.
    + eapply rep_flash; [|exact H2]. intros x. unfold on_write. destruct (Z.eqb_spec x (blkaddress e)) as [->|]; done.
    + by eapply keeps_trans.
Qed.

(** ** Undoing a write *)

(** The object at an address is found in the bucket of its hash. *)
Lemma by_addr_ok onflash h M cs fs e key b : dir_rep onflash h M cs fs -> e ∈ all_entries h cs -> entry_ok onflash h b e key ->
  exists i s c, hash_entry_insert_by_addr h (blkaddress e) (hashck key 0 (cntr_id e)) = Some (Some (i, s)) /\ found_at onflash h cs key (cntr_id e) i s e b c.
Proof using Type.
  intros H He Hok. pose proof He as (b' & c & Hb & Hc)%in_bucket. destruct (r_place _ _ _ _ _ _ H b' c e Hb Hc) as [k' Hk']. assert (b' = b) as -> by (by eapply entry_bucket).
  pose proof (r_ok _ _ _ _ _ _ H) as Hi. unfold hash_entry_insert_by_addr. rewrite (e_bucket _ _ _ _ _ _ Hok), at_lookup. destruct (bucket_chain _ _ _ _ _ Hi b c Hb) as (p & -> & Hch). cbn [mbind option_bind].
  destruct (find_entry_ok (fun x => blkaddress e =? blkaddress x) (hash_table h) (fun x => Some (blkaddress e =? blkaddress x)) c (chain_fuel h) p Hch) as (r & -> & Hr);
    [by eapply dir_chain_length|done|]. destruct r as [[i s]|].
  - destruct Hr as (Hic & x & Hs & Hu & Hx). b2p. assert (x ∈ all_entries h cs) as Hxin.
    { apply in_bucket. exists b, c. split; [done|]. apply contents_elem. exists i. split; [done|]. split; [done|]. by eapply list_elem_of_lookup_2. }
    assert (x = e) as -> by (eapply addr_inj; [apply H|done..]). by exists i, s, c.
  - specialize (Hr e Hc). by rewrite Z.eqb_refl in Hr.
Qed.

(** The cache keeps nothing of a key that is not eight bytes long. *)
Lemma cached_zero h a k : key_cache h = None \/ length k <> 8%nat -> cached h a k -> key_cache h <> None -> keycache_get h a = Some 0.
Proof using Type.
  intros Hcase Hca Hk. destruct Hcase as [?|Hl]; [done|]. unfold HashTableSpec.cached in Hca. destruct (key_cache h); [|done]. destruct Hca as (v & -> & [->|[? _]]); done.
Qed.

Lemma undo_insert_ok onflash h M cs fs key cntr i s e b c :
  dir_rep onflash h M cs fs -> found_at onflash h cs key cntr i s e b c -> key_cache h = None \/ length key <> 8%nat ->
  exists h' cs' fs', mcd_osd_trx_revert h (blkaddress e) None (hashck key 0 cntr) = Some (h', Some (blkaddress e)) /\
    dir_rep onflash h' (delete (cntr, key) M) cs' fs' /\ keeps h h'.
Proof using Hseg.
  intros H Hf Hk. pose proof (found_in _ _ _ _ _ _ _ _ _ _ Hf) as Hin. pose proof Hf as (_ & _ & _ & _ & Hok & Hcn). subst cntr. unfold mcd_osd_trx_revert.
  destruct (by_addr_ok onflash h M cs fs e key b H Hin Hok) as (i' & s' & c' & -> & Hf'). cbn [mbind option_bind].
  destruct (entry_delete_ok _ Hseg onflash h h M cs fs key (cntr_id e) i' s' e b c' H Hf') as (h' & cs' & fs' & -> & H' & Hke & _); [by destruct h|by apply addr_step_same| |].
  - apply (cached_zero h _ key); [done|]. apply (e_cached _ _ _ _ _ _ Hok).
  - exists h', cs', fs'. done.
Qed.

Lemma undo_overwrite_ok onflash h M cs fs key cntr i s e b c o :
  dir_rep onflash h M cs fs -> found_at onflash h cs key cntr i s e b c -> key_cache h = None \/ length key <> 8%nat ->
  used o = true -> cntr_id o = cntr -> blocks o <> 0 -> hesyndrome o = u16 (Z.shiftr (hashck key 0 cntr) OSD_HASH_SYN_SHIFT) ->
  addr_ok h (blkaddress o) -> (forall id x, M !! id = Some x -> ob_addr x <> blkaddress o) ->
  exists h' cs' fs', mcd_osd_trx_revert h (blkaddress e) (Some o) (hashck key 0 cntr) = Some (h', Some (blkaddress e)) /\
    dir_rep (on_write onflash (blkaddress o) key) h' (<[(cntr, key) := object_of o]> M) cs' fs' /\ keeps h h'.
Proof using Hseg.
  intros H Hf Hk Hu <- Hn Hsy Ha Hfr. pose proof (found_in _ _ _ _ _ _ _ _ _ _ Hf) as Hin. pose proof Hf as (_ & _ & _ & _ & Hok & Hcn). unfold mcd_osd_trx_revert. rewrite <- Hcn.
  destruct (by_addr_ok onflash h M cs fs e key b H Hin Hok) as (i' & s' & c' & -> & (Hb & Hi & Hs & Hue & _ & _)). cbn [mbind option_bind].
  pose proof (r_ok _ _ _ _ _ _ H) as Hinv. destruct Hok as [Eo Ek Ec Eb Ebk Es Ea El Eca]. set (syn := hashck key 0 (cntr_id e)) in *.
  destruct (replace_ok h cs fs b c' i' s' e o Hinv Hb Hi Hs Hue Hu) as (h2 & -> & Hi2 & Hs2 & Had2 & Ho & r & Hc & Hc'). cbn [mbind option_bind].
  set (A := [blkaddress o; blkaddress e]). assert (addr_step Mcd_osd_segment_blks A h h2) as Hst2 by (by apply addr_step_same). rewrite (a_size _ _ _ _ Hst2).
  assert (0 <= syn mod hash_size h < hash_size h) as Hidx by (apply Z.mod_pos_bound; pose proof (d_size _ _ _ _ _ Hinv); pose proof (d_bktsize _ _ _ _ _ Hinv); nia).
  destruct (set_addr_last _ Hseg h2 b (blkaddress o) (syn mod hash_size h)) as (h' & -> & E' & Hst' & Hl & Hkc); [by apply (addr_step_ok _ Hseg _ _ _ _ Hst2)|by rewrite (a_size _ _ _ _ Hst2)|done|]. cbn [mbind option_bind].
  assert (addr_step Mcd_osd_segment_blks A h h') as Hst by (apply (addr_step_trans _ Hseg A h h2 h' Hst2), (addr_step_weaken _ Hseg [blkaddress o]); [unfold A; set_solver|done]).
  assert (same_sizes h h') as Hs' by (etransitivity; [done|]; rewrite E'; by split). assert (key_cache h' = key_cache h) as Ekc by (rewrite Hkc; apply Had2).
  assert (forall x, keycache_get h' x = keycache_get h x) as Hget by (intros x; unfold HashTable.keycache_get; by rewrite Ekc).
  assert (blkaddress o ∉ blkaddress <$> all_entries h cs) as Hfr' by (by eapply fresh_addr).
  exists h', cs, fs. split; [done|]. split; [|by eapply keeps_step].
  rewrite Hcn. eapply (write_rep _ Hseg onflash h h' M cs fs cs fs b c' c' [e] r key o); [done|done|by eapply inv_table| |done|exact Hc| | |done|exact Hst|done| | |done|done|congruence|done|by rewrite <- Hcn|done].
  - rewrite E'. exact Ho.
  - rewrite E'. exact Hc'.
  - right. exists e. done.
  - unfold HashTableSpec.cached. rewrite Ekc, Hget. destruct (key_cache h) eqn:E; [|done]. exists 0. split; [|by left]. apply (r_free _ _ _ _ _ _ H); [done|done|congruence].
  - intros x ->%list_elem_of_singleton Hx. rewrite Hget. by apply (cached_zero h _ key).
Qed.

(** ** Undoing a request *)

(** The entry of the object that a search finds. *)
Lemma lookup_found onflash h M cs fs key cntr r : dir_rep onflash h M cs fs -> key <> [] -> cntr <> 0 -> lookup_entry onflash h key cntr = Some r ->
  match r with
  | None => hash_table_get Mcd_osd_segment_blks onflash h key cntr = Some None /\ M !! (cntr, key) = None
  | Some e => exists i s b c, hash_table_get Mcd_osd_segment_blks onflash h key cntr = Some (Some (i, s)) /\ found_at onflash h cs key cntr i s e b c /\ M !! (cntr, key) = Some (object_of e)
  end.
Proof using Type.
  intros H Hk Hc. unfold lookup_entry. destruct (table_get_ok _ onflash h M cs fs H key cntr Hk Hc) as (r0 & -> & Hr). cbn [mbind option_bind]. destruct r0 as [[i s]|].
  - destruct Hr as (e & b & c & Hf & HM). pose proof Hf as (_ & _ & Hs & _). rewrite read_entry_node, Hs. cbn [mbind option_bind]. intros [= <-]. by exists i, s, b, c.
  - intros [= <-]. done.
Qed.

(** A write and its rollback. *)
Lemma undo_write_ok onflash h M cs fs rq a n del h' ra orig :
  dir_rep onflash h M cs fs -> rq_ok Mcd_osd_segment_blks h M rq -> s_data rq = Some (a, n, del) ->
  mcd_fth_osd_slab_set Mcd_osd_segment_blks onflash h rq = Some (h', FLASH_EOK, ra) ->
  lookup_entry onflash h (s_key rq) (s_cntr rq) = Some orig -> key_cache h = None \/ length (s_key rq) <> 8%nat ->
  exists h2 cs' fs', mcd_osd_trx_revert h' a orig (hashck (s_key rq) 0 (s_cntr rq)) = Some (h2, Some a) /\
    dir_rep (on_write onflash a (s_key rq)) h2 M cs' fs' /\ keeps h h2.
Proof using Hseg.
  intros H Hrq Ed Hset Hlook Hkc. destruct (slab_set_ok _ Hseg onflash h M cs fs rq H Hrq) as (h1 & rc & ra1 & cs1 & fs1 & Hset1 & H1 & Hk1 & Hrc). rewrite Hset in Hset1. injection Hset1 as <- <- <-.
  destruct Hrq as [Hk Hc Hd]. destruct (Hd a n del Ed) as (Hn & Ha & Hfr). set (id := (s_cntr rq, s_key rq)) in *.
  assert (dir_rep (on_write onflash a (s_key rq)) h' (<[id := mk_object a n del]> M) cs1 fs1) as H1'.
  { unfold flash_after, next_map in H1. rewrite Ed in H1. destruct Hrc as [Hrc|(? & _)]; [|done]. unfold set_spec in *. rewrite Ed in *. fold id in H1, Hrc. destruct (too_big rq); [done|].
    destruct (M !! id); [destruct (test_exist rq)|destruct (test_nonexist rq)]; done. }
  assert (key_cache h' = None \/ length (s_key rq) <> 8%nat) as Hkc' by (destruct Hkc as [E|]; [left; by apply Hk1|by right]).
  destruct (table_get_ok _ _ h' _ cs1 fs1 H1' (s_key rq) (s_cntr rq) Hk Hc) as (r & _ & Hr). fold id in Hr. rewrite lookup_insert_eq in Hr. destruct r as [[i s]|]; [|done]. destruct Hr as (e' & b & c & Hf & [= Ea En Edel]).
  subst a n del. pose proof (lookup_found onflash h M cs fs _ _ orig H Hk Hc Hlook) as Hfound. destruct orig as [e|].
  - destruct Hfound as (i0 & s0 & b0 & c0 & _ & Hf0 & HM). pose proof (found_in _ _ _ _ _ _ _ _ _ _ Hf0) as Hin. pose proof Hf0 as (_ & _ & _ & Hu & [Eo Ek Ec Eb Ebk Es Eadr El Eca] & Hcn). fold id in HM.
    assert (blkaddress e <> blkaddress e') as Hne by (intros E; by apply (Hfr id (object_of e))).
    destruct (undo_overwrite_ok _ h' _ cs1 fs1 (s_key rq) (s_cntr rq) i s e' b c e H1' Hf Hkc' Hu Hcn Eb) as (h2 & cs' & fs' & -> & H2 & Hk2); [by rewrite <- Hcn|by apply Hk1| |].
    + intros id' x. destruct (decide (id = id')) as [<-|Hid].
      * rewrite lookup_insert_eq. intros [= <-]. cbn. congruence.
      * rewrite lookup_insert_ne by done. intros Hx. eapply (addr_unique onflash h M cs fs e (s_key rq) H Hin Eo id' x Hx). rewrite Hcn. unfold id in Hid. congruence.
    + exists h2, cs', fs'. split; [done|]. split; [|by eapply keeps_trans]. fold id in H2. rewrite insert_insert_eq, insert_id in H2 by done. eapply rep_flash; [|exact H2].
      intros x. unfold on_write. destruct (Z.eqb_spec x (blkaddress e)) as [->|]; [|done]. by rewrite (proj2 (Z.eqb_neq _ _) Hne).
  - destruct Hfound as [_ HM]. fold id in HM. destruct (undo_insert_ok _ h' _ cs1 fs1 (s_key rq) (s_cntr rq) i s e' b c H1' Hf Hkc') as (h2 & cs' & fs' & -> & H2 & Hk2).
    exists h2, cs', fs'. split; [done|]. split; [|by eapply keeps_trans]. fold id in H2. by rewrite delete_insert_id in H2.
Qed.

(** A deletion and its rollback. *)
Lemma undo_delete_rq_ok onflash h M cs fs rq h' ra e :
  dir_rep onflash h M cs fs -> rq_ok Mcd_osd_segment_blks h M rq -> s_data rq = None ->
  mcd_fth_osd_slab_set Mcd_osd_segment_blks onflash h rq = Some (h', FLASH_EOK, ra) -> lookup_entry onflash h (s_key rq) (s_cntr rq) = Some (Some e) ->
  exists h2 cs' fs', mcd_osd_trx_insert h' (hashck (s_key rq) 0 (s_cntr rq)) e = Some (h2, true) /\ dir_rep onflash h2 M cs' fs' /\ keeps h h2.
Proof using Hseg.
  intros H [Hk Hc _] Ed Hset Hlook. destruct (lookup_found onflash h M cs fs _ _ _ H Hk Hc Hlook) as (i & s & b & c & Hget & Hf & HM). unfold mcd_fth_osd_slab_set, too_big in Hset. rewrite Ed, Hget in Hset. cbn [mbind option_bind] in Hset.
  destruct (test_exist rq); [done|]. destruct (undo_delete_ok onflash h M cs fs (s_key rq) (s_cntr rq) i s e b c H Hf HM) as (h1 & a & h2 & cs' & fs' & Hdel & Hins & H2 & Hk2).
  rewrite Hdel in Hset. injection Hset as <- <-. by exists h2, cs', fs'.
Qed.
End undo.
