(* ===== verification/HashTableClear.v ===== *)
(** * The object directory: deletion of a container

    [delete_all_objects] removes the objects of the container and no other. A
    pass over a bucket may miss entries that a deletion moves, and it may leave
    the chain for the free list when its node is freed; it is repeated until it
    finds nothing. *)

From stdpp Require Import gmap.
From S2P Require Import Prelude Hash HashTable HashTableRep HashTableOps HashTableSpec HashTableSet.
From stdpp Require Import list.
Open Scope Z_scope.

(** ** Without a table by address *)

Lemma copy_addr h p e h' : hash_entry_copy h p e = Some h' -> addr_table h' = addr_table h.
Proof. unfold hash_entry_copy. destruct (hash_table h !! p.1) as [be|]; cbn; [|done]. destruct (be_entries be !! p.2); cbn; [|done]. by intros [= <-]. Qed.

Lemma copy_node h i s e h' : hash_entry_copy h (i, s) (Some e) = Some h' -> node (hash_table h') i !! s = Some e.
Proof.
  unfold hash_entry_copy. cbn [fst snd]. destruct (hash_table h !! i) as [be|] eqn:Hb; cbn; [|done]. destruct (be_entries be !! s) eqn:Hs; cbn; [|done]. intros [= <-].
  cbn. rewrite node_insert by (by eapply lookup_lt_Some). cbn. apply list_lookup_insert_eq. by eapply lookup_lt_Some.
Qed.

Lemma refill_none v slots : forall h d hd j, addr_table h = None ->
  refill (fun h _ => Some h) h d hd slots j = refill (fun h a => set_addr h a v) h d hd slots j.
Proof.
  induction slots as [|i slots IH]; intros h d hd j Hn; [done|]. cbn [refill]. destruct (read_entry h (d, i)) as [e|]; [|done]. cbn [mbind option_bind].
  destruct (used e); [by apply IH|]. destruct (hash_table h !! hd) as [be|]; [|done]. cbn [mbind option_bind]. destruct (list_find _ _) as [[k x]|]; [|by apply IH].
  destruct (hash_entry_copy h (d, i) (Some x)) as [h1|] eqn:E1; [|done]. cbn [mbind option_bind]. destruct (hash_entry_copy h1 _ None) as [h2|] eqn:E2; [|done]. cbn [mbind option_bind].
  assert (addr_table h2 = None) as Hn2 by (rewrite (copy_addr _ _ _ _ E2), (copy_addr _ _ _ _ E1); done). assert (set_addr h2 (blkaddress x) v = Some h2) as -> by (unfold set_addr; by rewrite Hn2). cbn [mbind option_bind]. by apply IH.
Qed.

Lemma delete_entry_none v h p bk lk : addr_table h = None ->
  delete_entry (fun h _ => Some h) h p bk lk = delete_entry (fun h a => set_addr h a v) h p bk lk.
Proof.
  intros Hn. unfold delete_entry. destruct (at_ (hash_buckets h) bk) as [head|]; cbn [mbind option_bind]; [|reflexivity]. destruct (find_node _ _ _ _) as [hbi|]; cbn [mbind option_bind]; [|reflexivity].
  destruct (assert_ _); cbn [mbind option_bind]; [|reflexivity]. destruct (read_entry h p) as [e|]; cbn [mbind option_bind]; [|reflexivity].
  assert (set_addr (add_alloc h (-1)) (blkaddress e) 0 = Some (add_alloc h (-1))) as -> by (unfold set_addr; cbn; by rewrite Hn). cbn [mbind option_bind].
  destruct (hash_entry_copy (add_alloc h (-1)) p None) as [h1|] eqn:E1; cbn [mbind option_bind]; [|reflexivity]. assert (addr_table h1 = None) as Hn1 by (by rewrite (copy_addr _ _ _ _ E1)).
  rewrite (refill_none v) by exact Hn1. reflexivity.
Qed.

(** ** One object *)

(** A lock has whole buckets. *)
Lemma bucket_lock hole k h cs fs hidx b : dir_inv hole k h cs fs -> hidx / OSD_HASH_BUCKET_SIZE = b -> hidx / lock_bktsize h = b * OSD_HASH_BUCKET_SIZE / lock_bktsize h.
Proof.
  intros H <-. pose proof (d_mod _ _ _ _ _ H) as Hm. pose proof (d_bktsize _ _ _ _ _ H) as Hp. unfold OSD_HASH_BUCKET_SIZE in *. apply Z.mod_divide in Hm as [m E]; [|lia]. rewrite E in *.
  rewrite Z.div_mul_cancel_r by lia. rewrite (Z.mul_comm m 16), <- Z.div_div by lia. done.
Qed.

Section clear.
Context (Mcd_osd_segment_blks : Z) (Hseg : 0 < Mcd_osd_segment_blks) (storm_mode : bool) (onflash : Z -> option (list byte)).
Abbreviation keycache_get := (keycache_get Mcd_osd_segment_blks).
Abbreviation dir_rep := (dir_rep Mcd_osd_segment_blks onflash).
Abbreviation found_at := (found_at Mcd_osd_segment_blks onflash).
Abbreviation entry_ok := (entry_ok Mcd_osd_segment_blks onflash).
Abbreviation keeps := (keeps Mcd_osd_segment_blks).

(** Only storm mode has no table by address. *)
Definition mode_ok (h : hash_handle) : Prop := is_Some (addr_table h) <-> storm_mode = false.

Lemma upd_addr_twice t a v : upd_addr (upd_addr t a v) a v = upd_addr t a v.
Proof using Type. destruct t as [t|]; [|done]. cbn. by rewrite list_insert_insert_eq. Qed.

Lemma upd_addr_some t a v : is_Some (upd_addr t a v) <-> is_Some t.
Proof using Type. by destruct t. Qed.

(** The lock of bucket [b]. *)
Definition lock_of_bucket (h : hash_handle) (b : nat) : nat := z2n (n2z b * OSD_HASH_BUCKET_SIZE / lock_bktsize h).

Lemma lock_of_bucket_lt hole k h cs fs b : dir_inv hole k h cs fs -> (b < length cs)%nat ->
  (lock_of_bucket h b < length fs)%nat /\ n2z b * OSD_HASH_BUCKET_SIZE / lock_bktsize h = n2z (lock_of_bucket h b) /\ 0 <= n2z b * OSD_HASH_BUCKET_SIZE < hash_size h.
Proof using Type.
  intros H Hb. unfold lock_of_bucket. pose proof (d_cs _ _ _ _ _ H). pose proof (d_fs _ _ _ _ _ H). pose proof (d_size _ _ _ _ _ H). pose proof (d_bktsize _ _ _ _ _ H). unfold OSD_HASH_BUCKET_SIZE in *.
  assert (0 <= n2z b * 16 / lock_bktsize h < lock_buckets h) by (split; [apply Z.div_pos; lia|apply Z.div_lt_upper_bound; lia]). lia.
Qed.

(** The index that [delete_all_objects] has for an object. *)
Lemma object_index h M cs fs b e key : dir_rep h M cs fs -> entry_ok h b e key -> mode_ok h ->
  exists hidx, (match addr_table h with Some t => at_ t (blkaddress e) | None => Some 0 end) = Some hidx /\
    (storm_mode = false -> 0 <= hidx < hash_size h /\ hidx / OSD_HASH_BUCKET_SIZE = n2z b).
Proof using Type.
  intros H Hok Hm. pose proof (e_leads _ _ _ _ _ _ Hok) as Hl. pose proof (e_addr _ _ _ _ _ _ Hok) as (H0 & _). unfold addr_leads in Hl. unfold mode_ok in Hm. destruct (addr_table h) as [t|].
  - destruct Hl as (v & Hv & Hr & Hd). exists v. split; [|done]. unfold at_. by rewrite (proj2 (Z.ltb_ge _ _)).
  - exists 0. split; [done|]. intros E. by apply Hm in E as [].
Qed.

(** The rest of a deletion, after the entry has been marked. *)
Lemma delete_tail h3 hash_idx b i s : mode_ok h3 -> (exists cs fs, dir_ok h3 cs fs) ->
  (storm_mode = false -> hash_idx / OSD_HASH_BUCKET_SIZE = n2z b) ->
  (if storm_mode then hash_entry_delete2 storm_mode h3 (i, s) (n2z b)
   else _ ← assert_ (n2z b =? hash_idx / OSD_HASH_BUCKET_SIZE); hash_entry_delete1 h3 (i, s) hash_idx (n2z b)) =
  delete_entry (fun h a => set_addr h a (if storm_mode then n2z b * OSD_HASH_BUCKET_SIZE else hash_idx)) h3 (i, s) (n2z b) (n2z b * OSD_HASH_BUCKET_SIZE / lock_bktsize h3).
Proof using Type.
  intros Hm (cs & fs & Hi) Hidx. unfold mode_ok in Hm. destruct storm_mode eqn:Es.
  - unfold hash_entry_delete2. cbn [assert_ mbind option_bind]. apply delete_entry_none. destruct (addr_table h3); [|done]. destruct Hm as [Hm _]. discriminate (Hm ltac:(by eexists)).
  - specialize (Hidx eq_refl). rewrite Hidx, Z.eqb_refl. cbn [assert_ mbind option_bind]. unfold hash_entry_delete1. rewrite Hidx, Z.eqb_refl. cbn [assert_ mbind option_bind].
    by rewrite (bucket_lock _ _ _ _ _ _ _ Hi Hidx), Z.eqb_refl.
Qed.

Lemma delete_object_ok h M cs fs b c i s e key :
  dir_rep h M cs fs -> found_at h cs key (cntr_id e) i s e b c -> mode_ok h ->
  exists h' cs' fs' c', delete_object Mcd_osd_segment_blks storm_mode h (i, s) e (n2z b) = Some h' /\ dir_rep h' (delete (cntr_id e, key) M) cs' fs' /\ keeps h h' /\ mode_ok h' /\
    cs' !! b = Some c' /\ head_step c c' h' fs fs' (lock_of_bucket h b) /\ same_others b h h' cs cs' /\ contents (hash_table h) c ≡ₚ e :: contents (hash_table h') c'.
Proof using Hseg.
  intros H (Hb & Hic & Hs & Hu & Hok & _) Hm. unfold delete_object. destruct (object_index h M cs fs b e key H Hok Hm) as (hidx & -> & Hidx). cbn [mbind option_bind].
  pose proof (r_ok _ _ _ _ _ _ H) as Hinv. pose proof (e_addr _ _ _ _ _ _ Hok) as Hae. rewrite set_addr_ok by apply Hae. cbn [mbind option_bind]. set (h1 := set_addr_table h _). set (e' := mk_hash_entry _ _ _ _ _ _ _ _).
  assert (dir_ok h1 cs fs) as Hi1 by (by apply inv_addr). assert (addr_step Mcd_osd_segment_blks [blkaddress e] h h1) as Hst1 by (apply table_step; [done|apply Hae]).
  destruct (replace_ok h1 cs fs b c i s e e' Hi1 Hb Hic Hs Hu Hu) as (h2 & Hcp & Hi2 & Hs2 & Had2 & Ho2 & r & Hc1 & Hc2). rewrite Hcp. cbn [mbind option_bind].
  assert (addr_step Mcd_osd_segment_blks [blkaddress e] h h2) as Hst2 by (eapply addr_step_trans; [done|done|by apply addr_step_same]).
  destruct (remove_ok _ Hseg h2 e Hu (e_blocks _ _ _ _ _ _ Hok)) as (h3 & -> & E3 & Hst3 & Hg3); [by apply (addr_step_ok _ Hseg _ _ _ _ Hst2)|]. cbn [mbind option_bind].
  assert (dir_ok h3 cs fs) as Hi3 by (rewrite E3; by apply inv_cache). assert (addr_table h3 = upd_addr (addr_table h) (blkaddress e) 0) as Ea3 by (rewrite E3; cbn; apply Had2).
  assert (mode_ok h3) as Hm3 by (unfold mode_ok; rewrite Ea3, upd_addr_some; done). rewrite (delete_tail h3 hidx b i s Hm3 (ex_intro _ cs (ex_intro _ fs Hi3)) ltac:(intros E; by apply Hidx)).
  set (hx := if storm_mode then n2z b * OSD_HASH_BUCKET_SIZE else hidx). destruct (lock_of_bucket_lt _ _ _ _ _ b Hi3 (lookup_lt_Some _ _ _ Hb)) as (Hlk & -> & Hb16).
  assert (same_sizes h h3) as Hsz3 by (transitivity h2; [destruct Hs2; by split|rewrite E3; by split]). assert (lock_of_bucket h3 b = lock_of_bucket h b) as Elk by (unfold lock_of_bucket; by rewrite (ss_bktsize _ _ Hsz3)). rewrite Elk in *.
  assert (hash_table h3 = hash_table h2) as Et3 by (by rewrite E3).
  destruct (delete_entry_ok h3 cs fs b c i s e' (lock_of_bucket h b) hx Hi3 Hb Hic) as (h' & cs' & fs' & c' & mv & -> & Hok' & Hsz & Hkc & Ho & Hb' & Hc & Hat & Hmv & Hroom).
  { rewrite Et3. by eapply copy_node. }
  { done. }
  { done. }
  { rewrite Et3, Ea3. intros x Hx. rewrite Hc2 in Hx. apply addr_in_upd. change (contents (hash_table h1) c) with (contents (hash_table h) c) in Hc1.
    apply elem_of_cons in Hx as [->|Hx]; [apply Hae|]. eapply bucket_addrs; [exact H|done|]. rewrite Hc1. by right. }
  change (contents (hash_table h1) c) with (contents (hash_table h) c) in Hc1. assert (contents (hash_table h) c ≡ₚ e :: contents (hash_table h') c') as Hcc.
  { rewrite Et3, Hc2 in Hc. apply Permutation_cons_inv in Hc. by rewrite Hc1, Hc. }
  assert (same_others b h h' cs cs') as Hoo by (eapply same_others_trans; [exact Ho2|]; rewrite E3 in Ho; exact Ho).
  change (blkaddress e') with (blkaddress e) in Hat. rewrite Ea3, upd_addr_twice in Hat. assert (same_sizes h h') as Hsz' by (by etransitivity).
  destruct (delete_rep _ Hseg onflash h h3 h' M cs fs cs' fs' b c c' e key hx mv) as [H' Hk']; try done.
  - pose proof (ss_size _ _ Hsz3) as Ess. rewrite Ess in Hb16. unfold hx. destruct storm_mode eqn:Esm; [done|]. by apply Hidx.
  - unfold hx. destruct storm_mode eqn:Esm; [apply Z.div_mul; unfold OSD_HASH_BUCKET_SIZE; lia|by apply Hidx].
  - by eapply addr_step_trans.
  - intros Hn. apply Hg3. intros E. by apply Hn, (a_none _ _ _ _ Hst2).
  - exists h', cs', fs', c'. split; [done|]. split; [done|]. split; [done|]. split; [|done]. unfold mode_ok. rewrite Hat. destruct mv; by rewrite !upd_addr_some.
Qed.

(** ** One node *)

Context (cguid : Z).

(** Some objects of the container have gone. *)
Definition cleared (M M' : directory) : Prop := forall id, M' !! id = M !! id \/ (id.1 = cguid /\ M' !! id = None).

Lemma cleared_trans M1 M2 M3 : cleared M1 M2 -> cleared M2 M3 -> cleared M1 M3.
Proof using Type. intros H1 H2 id. destruct (H2 id) as [->|]; [apply H1|by right]. Qed.

Lemma cleared_delete M key : cleared M (delete (cguid, key) M).
Proof using Type. intros id. destruct (decide ((cguid, key) = id)) as [<-|Hne]; [right; split; [done|apply lookup_delete_eq]|left; by apply lookup_delete_ne]. Qed.

(** From one state to a later one of the deletion; [n] objects have gone. *)
Record went (b : nat) (h : hash_handle) (M : directory) (fs : list (list nat)) (c : list nat) (h' : hash_handle) (M' : directory) (cs' fs' : list (list nat)) (c' : list nat) (n : Z) : Prop := {
  w_rep : dir_rep h' M' cs' fs';
  w_mode : mode_ok h';
  w_keeps : keeps h h';
  w_chain : cs' !! b = Some c';
  w_free : forall i, i ∈ concat fs -> i ∈ concat fs';
  w_suffix : c' `suffix_of` c;
  w_cleared : cleared M M';
  w_pos : 0 <= n;
  w_count : alloc_count h' = alloc_count h - n;
  w_same : n = 0 -> h' = h /\ c' = c
}.

Lemma went_trans b h1 M1 fs1 c1 h2 M2 cs2 fs2 c2 n h3 M3 cs3 fs3 c3 m :
  went b h1 M1 fs1 c1 h2 M2 cs2 fs2 c2 n -> went b h2 M2 fs2 c2 h3 M3 cs3 fs3 c3 m -> went b h1 M1 fs1 c1 h3 M3 cs3 fs3 c3 (n + m).
Proof using Type.
  intros [A1 A2 A3 A4 A0 A5 A6 A7 A8 A9] [B1 B2 B3 B4 B0 B5 B6 B7 B8 B9]. split; try done.
  - by eapply keeps_trans.
  - auto.
  - by etransitivity.
  - by eapply cleared_trans.
  - lia.
  - lia.
  - intros E. destruct (A9 ltac:(lia)) as [-> ->]. apply B9. lia.
Qed.

Lemma went_refl b h M cs fs c : dir_rep h M cs fs -> mode_ok h -> cs !! b = Some c -> went b h M fs c h M cs fs c 0.
Proof using Type. intros H Hm Hb. split; try done; [by left|lia]. Qed.

(** The free nodes are empty. *)
Lemma free_empty h M cs fs i j e : dir_rep h M cs fs -> i ∈ concat fs -> node (hash_table h) i !! j = Some e -> used e = false.
Proof using Type.
  intros H Hi Hj. pose proof (d_empty _ _ _ _ _ (r_ok _ _ _ _ _ _ H) i (or_introl Hi)) as Hn. destruct (used e) eqn:E; [|done]. exfalso.
  assert (e ∈ uses (node (hash_table h) i)) as Hin by (apply uses_elem; split; [done|by eapply list_elem_of_lookup_2]). rewrite Hn in Hin. by apply not_elem_of_nil in Hin.
Qed.

Lemma off_not_both h cs fs b c i : dir_ok h cs fs -> cs !! b = Some c -> i ∈ c -> i ∈ concat fs -> False.
Proof using Type. intros H Hb Hi Hf. pose proof (d_nodup _ _ _ _ _ H) as (_ & Hd & _)%NoDup_app. apply (Hd i); [by eapply elem_concat|done]. Qed.

Lemma node_entry h M cs fs b c i j : dir_rep h M cs fs -> cs !! b = Some c -> i ∈ c \/ i ∈ concat fs -> (j < 4)%nat -> exists e, node (hash_table h) i !! j = Some e.
Proof using Type.
  intros H Hb Hi Hj. pose proof (r_ok _ _ _ _ _ _ H) as Hinv. apply lookup_lt_is_Some_2. assert (i < length (hash_table h))%nat as Hlt.
  { apply (node_lt _ _ _ _ _ Hinv), elem_of_app. destruct Hi; [left; by eapply elem_concat|by right]. }
  destruct (lookup_lt_is_Some_2 _ _ Hlt) as [be Hbe]. unfold node. rewrite Hbe. pose proof (d_four _ _ _ _ _ Hinv) as Hf. rewrite Forall_lookup in Hf. by rewrite (Hf i be Hbe).
Qed.

(** The deletion of the entry at [(i, j)]. *)
Lemma object_went h M cs fs b c i j e : dir_rep h M cs fs -> mode_ok h -> cs !! b = Some c -> i ∈ c -> node (hash_table h) i !! j = Some e -> used e = true -> cntr_id e = cguid ->
  exists h' M' cs' fs' c', delete_object Mcd_osd_segment_blks storm_mode h (i, j) e (n2z b) = Some h' /\ went b h M fs c h' M' cs' fs' c' 1 /\ (i ∈ c' \/ i ∈ concat fs').
Proof using Hseg.
  intros H Hm Hb Hi Hj Hu Hcg. assert (e ∈ contents (hash_table h) c) as Hin by (apply contents_elem; exists i; split; [done|]; split; [done|]; by eapply list_elem_of_lookup_2).
  destruct (r_place _ _ _ _ _ _ H b c e Hb Hin) as [key Hok].
  destruct (delete_object_ok h M cs fs b c i j e key H ltac:(done) Hm) as (h' & cs' & fs' & c' & Hd & H' & Hk & Hm' & Hb' & Hstep & Ho & Hc).
  exists h', (delete (cntr_id e, key) M), cs', fs', c'. split; [done|]. split.
  - split; try done.
    + destruct Hstep as [[_ ->]|(hd & _ & _ & Hfr & _)]; [done|exact Hfr].
    + destruct Hstep as [[-> _]|(hd & -> & _)]; [done|]. by exists [hd].
    + rewrite Hcg. apply cleared_delete.
    + destruct (all_change b h h' cs cs' c c' [e] [] (contents (hash_table h') c') Ho Hb Hb' Hc ltac:(done)) as (R & HR & HR').
      rewrite (d_count _ _ _ _ _ (r_ok _ _ _ _ _ _ H)), (d_count _ _ _ _ _ (r_ok _ _ _ _ _ _ H')). fold (all_entries h cs) (all_entries h' cs'). rewrite HR, HR'. cbn [app length]. lia.
  - destruct Hstep as [[-> _]|(hd & -> & Hhd & _)]; [by left|]. apply elem_of_cons in Hi as [->|]; [by right|by left].
Qed.

Lemma delete_in_node_ok b i js : forall h M cs fs c n, dir_rep h M cs fs -> mode_ok h -> cs !! b = Some c -> i ∈ c \/ i ∈ concat fs -> (forall j, j ∈ js -> j < 4)%nat ->
  exists h' M' cs' fs' c' m, delete_in_node Mcd_osd_segment_blks storm_mode h i js (n2z b) cguid n = Some (h', n + m) /\ went b h M fs c h' M' cs' fs' c' m /\ (i ∈ c' \/ i ∈ concat fs') /\
    (i ∈ concat fs -> m = 0) /\ (m = 0 -> forall j e, j ∈ js -> node (hash_table h) i !! j = Some e -> used e = true -> cntr_id e <> cguid).
Proof using Hseg.
  induction js as [|j js IH]; intros h M cs fs c n H Hm Hb Hi Hjs.
  - exists h, M, cs, fs, c, 0. cbn. rewrite Z.add_0_r. split; [done|]. split; [by apply went_refl|]. split; [done|]. split; [done|]. by intros _ j e ?%not_elem_of_nil.
  - destruct (node_entry h M cs fs b c i j H Hb Hi) as [e He]; [apply Hjs; left|]. cbn [delete_in_node]. rewrite read_entry_node, He. cbn [mbind option_bind].
    assert (forall j, j ∈ js -> j < 4)%nat as Hjs' by (intros; apply Hjs; by right). destruct (used e && (cntr_id e =? cguid)) eqn:Ee.
    + apply andb_true_iff in Ee as [Eu Ec%Z.eqb_eq]. assert (i ∉ concat fs) as Hnf by (intros Hf; pose proof (free_empty _ _ _ _ _ _ _ H Hf He); congruence). assert (i ∈ c) as Hic by tauto.
      destruct (object_went h M cs fs b c i j e H Hm Hb Hic He) as (h1 & M1 & cs1 & fs1 & c1 & -> & W1 & Hi1); [done..|]. cbn [mbind option_bind].
      destruct (IH h1 M1 cs1 fs1 c1 (n + 1) (w_rep _ _ _ _ _ _ _ _ _ _ _ W1) (w_mode _ _ _ _ _ _ _ _ _ _ _ W1) (w_chain _ _ _ _ _ _ _ _ _ _ _ W1) Hi1 Hjs') as (h' & M' & cs' & fs' & c' & m & -> & W & Hi' & _ & _).
      exists h', M', cs', fs', c', (1 + m). pose proof (w_pos _ _ _ _ _ _ _ _ _ _ _ W). split; [f_equal; f_equal; lia|]. split; [by eapply went_trans|]. split; [done|]. split; [done|lia].
    + destruct (IH h M cs fs c n H Hm Hb Hi Hjs') as (h' & M' & cs' & fs' & c' & m & -> & W & Hi' & Hf & Hz).
      exists h', M', cs', fs', c', m. split; [done|]. split; [done|]. split; [done|]. split; [done|]. intros E j' e' [->|Hj]%elem_of_cons He' Hu; [|by eapply Hz].
      assert (e' = e) as -> by congruence. apply andb_false_iff in Ee as [Ee|Ee]; [congruence|by apply Z.eqb_neq].
Qed.

(** ** One pass *)

Lemma nodup_split {A} (x : A) a b a' b' : NoDup (a ++ x :: b) -> a ++ x :: b = a' ++ x :: b' -> b = b'.
Proof using Type.
  revert a'. induction a as [|y a IH]; intros [|y' a'] Hnd E; cbn in *; simplify_eq.
  - done.
  - apply NoDup_cons in Hnd as [Hn _]. exfalso. apply Hn. apply elem_of_app. right. left.
  - apply NoDup_cons in Hnd as [Hn _]. exfalso. apply Hn. apply elem_of_app. right. left.
  - apply NoDup_cons in Hnd as [_ Hnd]. by apply (IH a').
Qed.

(** The chain goes on after one of its nodes. *)
Lemma dir_chain_next tbl p l1 i l2 : chain tbl p (l1 ++ i :: l2) -> exists be, tbl !! i = Some be /\ chain tbl (be_next be) l2.
Proof using Type. revert p. induction l1 as [|j l1 IH]; intros p; [by intros [_ H]|]. intros (_ & be & _ & Hc). by apply (IH (be_next be)). Qed.

(** The way that is left: along the rest of the chain, or of a free list. *)
Definition way (fuel : nat) (h : hash_handle) (fs : list (list nat)) (c l : list nat) : Prop :=
  (l `suffix_of` c /\ (length l + length (hash_table h) <= fuel)%nat) \/ ((forall i, i ∈ l -> i ∈ concat fs) /\ (length l <= fuel)%nat).

Lemma free_list_len h cs fs l f : dir_ok h cs fs -> fs !! l = Some f -> (length f <= length (hash_table h))%nat.
Proof using Type.
  intros H Hl. pose proof (d_cover _ _ _ _ _ H) as Hc. rewrite length_app in Hc. pose proof (d_idx _ _ _ _ _ H). pose proof (d_max _ _ _ _ _ H).
  assert (length f <= length (concat fs))%nat; [|lia]. rewrite (concat_split _ _ _ Hl), length_app. lia.
Qed.

(** The next node after the node [i] of the chain. *)
Lemma way_next fuel b h M c h1 M1 cs fs cs1 fs1 c1 m i l : dir_rep h M cs fs -> cs !! b = Some c -> went b h M fs c h1 M1 cs1 fs1 c1 m -> i :: l `suffix_of` c ->
  (length l + length (hash_table h) <= fuel)%nat -> i ∈ c1 \/ i ∈ concat fs1 ->
  exists be l1, hash_table h1 !! i = Some be /\ chain (hash_table h1) (be_next be) l1 /\ way fuel h1 fs1 c1 l1 /\ (m = 0 -> l1 = l).
Proof using Type.
  intros H Hb [A1 A2 A3 A4 A0 A5 A6 A7 A8 A9] Hsuf Hlen Hi. pose proof (r_ok _ _ _ _ _ _ A1) as Hi1. pose proof (ss_len _ _ (proj1 A3)) as El.
  pose proof (chain_nodup _ _ _ _ _ (r_ok _ _ _ _ _ _ H) b c Hb) as Hnd. destruct Hsuf as [k Ek]. destruct (decide (i ∈ c1)) as [Hic|Hnc].
  - pose proof Hic as (p & q & Ep)%list_elem_of_split. destruct A5 as [k1 Ek1]. assert (q = l) as ->.
    { apply (nodup_split i (k1 ++ p) q k l); [rewrite <- (assoc app), <- Ep, <- Ek1; done|]. rewrite <- (assoc app), <- Ep, <- Ek1. done. }
    destruct (bucket_chain _ _ _ _ _ Hi1 b c1 A4) as (pt & _ & Hch). rewrite Ep in Hch. destruct (dir_chain_next _ _ _ _ _ Hch) as (be & Hbe & Hn). exists be, l.
    split; [done|]. split; [done|]. split; [|done]. left. rewrite El. split; [|done]. exists (p ++ [i]). by rewrite <- (assoc app).
  - destruct Hi as [|Hif]; [done|]. apply list_elem_of_In, in_concat in Hif as (f & Hf & Hif). apply list_elem_of_In, list_elem_of_lookup in Hf as (lk & Hlk). apply list_elem_of_In in Hif.
    pose proof (free_list_len _ _ _ _ _ Hi1 Hlk) as Hfl. pose proof Hif as (p & q & Ep)%list_elem_of_split. destruct (free_chain _ _ _ _ _ Hi1 lk f Hlk) as (pt & _ & Hch). rewrite Ep in Hch.
    destruct (dir_chain_next _ _ _ _ _ Hch) as (be & Hbe & Hn). exists be, q. split; [done|]. split; [done|]. split.
    + right. split; [intros x Hx; eapply elem_concat; [done|]; rewrite Ep; apply elem_of_app; right; by right|]. rewrite Ep, length_app in Hfl. cbn in Hfl. lia.
    + intros Em. exfalso. destruct (A9 Em) as [_ ->]. apply Hnc. rewrite Ek. apply elem_of_app. right. left.
Qed.

(** Node [i] has no object of the container. *)
Definition clean (h : hash_handle) (i : nat) : Prop := forall j e, node (hash_table h) i !! j = Some e -> used e = true -> cntr_id e <> cguid.

Lemma clean_node h M cs fs b c i : dir_rep h M cs fs -> cs !! b = Some c -> i ∈ c \/ i ∈ concat fs ->
  (forall j e, j ∈ seq 0 OSD_HASH_ENTRY_PER_BUCKET_ENTRY -> node (hash_table h) i !! j = Some e -> used e = true -> cntr_id e <> cguid) -> clean h i.
Proof using Type.
  intros H Hb Hi Hall j e Hj. apply (Hall j); [|done]. apply elem_of_seq. split; [lia|]. apply lookup_lt_Some in Hj. unfold node in Hj. destruct (hash_table h !! i) as [be|] eqn:Hbe; [|cbn in Hj; lia].
  pose proof (d_four _ _ _ _ _ (r_ok _ _ _ _ _ _ H)) as Hf. rewrite Forall_lookup in Hf. rewrite (Hf i be Hbe) in Hj. cbn. lia.
Qed.

Lemma delete_pass_ok b fuel : forall h M cs fs c idx l n, dir_rep h M cs fs -> mode_ok h -> cs !! b = Some c -> chain (hash_table h) idx l -> way fuel h fs c l ->
  exists h' M' cs' fs' c' m, delete_pass Mcd_osd_segment_blks storm_mode fuel h idx (n2z b) cguid n = Some (h', n + m) /\ went b h M fs c h' M' cs' fs' c' m /\
    (m = 0 -> forall i, i ∈ l -> clean h i).
Proof using Hseg.
  induction fuel as [|fuel IH]; intros h M cs fs c idx l n H Hm Hb Hch Hway.
  - assert (l = []) as -> by (destruct l; [done|]; destruct Hway as [[_ Hl]|[_ Hl]]; cbn in Hl; lia). cbn in Hch. subst idx. exists h, M, cs, fs, c, 0. cbn. rewrite Z.add_0_r.
    split; [done|]. split; [by apply went_refl|]. by intros _ i ?%not_elem_of_nil.
  - destruct l as [|i l]; cbn [delete_pass].
    { cbn in Hch. subst idx. exists h, M, cs, fs, c, 0. cbn. rewrite Z.add_0_r. split; [done|]. split; [by apply went_refl|]. by intros _ i ?%not_elem_of_nil. }
    pose proof Hch as (-> & be0 & Hbe0 & Hch0). rewrite ptr_to_ne, ptr_to_idx.
    assert (i ∈ c \/ i ∈ concat fs) as Hi by (destruct Hway as [[[k ->] _]|[Hall _]]; [left; apply elem_of_app; right; left|right; apply Hall; left]).
    destruct (delete_in_node_ok b i (seq 0 OSD_HASH_ENTRY_PER_BUCKET_ENTRY) h M cs fs c n H Hm Hb Hi) as (h1 & M1 & cs1 & fs1 & c1 & m & -> & W & Hi1 & Hf & Hz).
    { intros j [_ Hj]%elem_of_seq. exact Hj. }
    cbn [mbind option_bind fst snd]. rewrite at_ptr.
    assert (exists be l1, hash_table h1 !! i = Some be /\ chain (hash_table h1) (be_next be) l1 /\ way fuel h1 fs1 c1 l1 /\ (m = 0 -> l1 = l)) as (be & l1 & -> & Hch1 & Hway1 & Hl1).
    { destruct Hway as [[Hsuf Hlen]|[Hall Hlen]]; cbn [length] in Hlen; [eapply way_next; [exact H|exact Hb|exact W|exact Hsuf|lia|exact Hi1]|].
      pose proof (Hf (Hall i ltac:(left))) as Em. destruct (w_same _ _ _ _ _ _ _ _ _ _ _ W Em) as [-> _]. exists be0, l. split; [done|]. split; [done|]. split; [|done]. right. split; [|lia]. intros x Hx. apply (w_free _ _ _ _ _ _ _ _ _ _ _ W), Hall. by right. }
    cbn [mbind option_bind].
    destruct (IH h1 M1 cs1 fs1 c1 (be_next be) l1 (n + m) (w_rep _ _ _ _ _ _ _ _ _ _ _ W) (w_mode _ _ _ _ _ _ _ _ _ _ _ W) (w_chain _ _ _ _ _ _ _ _ _ _ _ W) Hch1 Hway1) as (h' & M' & cs' & fs' & c' & m' & -> & W' & Hc').
    exists h', M', cs', fs', c', (m + m'). pose proof (w_pos _ _ _ _ _ _ _ _ _ _ _ W). pose proof (w_pos _ _ _ _ _ _ _ _ _ _ _ W'). split; [f_equal; f_equal; lia|]. split; [by eapply went_trans|].
    intros E x [->|Hx]%elem_of_cons; [eapply clean_node; [done..|]; apply Hz; lia|]. destruct (w_same _ _ _ _ _ _ _ _ _ _ _ W ltac:(lia)) as [<- _]. apply Hc'; [lia|]. rewrite Hl1 by lia. done.
Qed.

(** ** Buckets *)

(** No object of the container is in bucket [b]. *)
Definition bucket_clean (h : hash_handle) (M : directory) (b : nat) : Prop :=
  forall key, bucket_of_syn h (hashck key 0 cguid) = n2z b -> M !! (cguid, key) = None.

Lemma clean_bucket h M cs fs b c : dir_rep h M cs fs -> cs !! b = Some c -> (forall i, i ∈ c -> clean h i) -> bucket_clean h M b.
Proof using Type.
  intros H Hb Hc key Hk. destruct (M !! (cguid, key)) as [o|] eqn:EM; [|done]. exfalso. apply (l_map _ _ _ (r_list _ _ _ _ _ _ H)) in EM as (e & He & Hcg & Hf & _).
  apply in_bucket in He as (b' & c' & Hb' & He). destruct (r_place _ _ _ _ _ _ H b' c' e Hb' He) as [k Hok]. pose proof (e_bucket _ _ _ _ _ _ Hok) as Hbk. pose proof (e_onflash _ _ _ _ _ _ Hok) as Hof.
  assert (k = key) as -> by congruence. rewrite Hcg in Hbk. assert (b' = b) as -> by lia. assert (c' = c) as -> by congruence.
  apply contents_elem in He as (i & Hi & Hu & (j & Hj)%list_elem_of_lookup). by apply (Hc i Hi j e).
Qed.

Lemma bucket_clean_keeps h h' M M' b : keeps h h' -> cleared M M' -> bucket_clean h M b -> bucket_clean h' M' b.
Proof using Type. intros [Hs _] Hc Hb key Hk. unfold bucket_of_syn in *. rewrite (ss_size _ _ Hs) in Hk. destruct (Hc (cguid, key)) as [->|[_ ?]]; [by apply Hb|done]. Qed.

(** What has happened to the directory, whatever the bucket. *)
Definition gone (h : hash_handle) (M : directory) (h' : hash_handle) (M' : directory) (cs' fs' : list (list nat)) : Prop :=
  dir_rep h' M' cs' fs' /\ mode_ok h' /\ keeps h h' /\ cleared M M'.

Lemma went_gone b h M fs c h' M' cs' fs' c' n : went b h M fs c h' M' cs' fs' c' n -> gone h M h' M' cs' fs'.
Proof using Type. by intros []. Qed.

Lemma delete_bucket_ok b fuel : forall h M cs fs, dir_rep h M cs fs -> mode_ok h -> (b < length cs)%nat -> alloc_count h < n2z fuel ->
  exists h' M' cs' fs', delete_bucket Mcd_osd_segment_blks storm_mode fuel h (n2z b) cguid = Some h' /\ gone h M h' M' cs' fs' /\ bucket_clean h' M' b.
Proof using Hseg.
  induction fuel as [|fuel IH]; intros h M cs fs H Hm Hlt Hcount; pose proof (count_bound _ _ _ _ _ (r_ok _ _ _ _ _ _ H)) as Hcb; [lia|].
  destruct (lookup_lt_is_Some_2 cs b Hlt) as [c Hb]. destruct (bucket_chain _ _ _ _ _ (r_ok _ _ _ _ _ _ H) b c Hb) as (p & Hp & Hch). cbn [delete_bucket]. rewrite at_lookup, Hp. cbn [mbind option_bind].
  pose proof (dir_chain_length _ _ _ _ _ (r_ok _ _ _ _ _ _ H) b c Hb) as Hlen. unfold chain_fuel in Hlen.
  destruct (delete_pass_ok b (2 * chain_fuel h) h M cs fs c p c 0 H Hm Hb Hch) as (h1 & M1 & cs1 & fs1 & c1 & m & -> & W & Hz); [left; split; [done|unfold chain_fuel; lia]|].
  cbn [mbind option_bind fst snd]. rewrite Z.add_0_l. destruct (Z.eqb_spec m 0) as [->|Hne].
  - exists h1, M1, cs1, fs1. split; [done|]. split; [by eapply went_gone|]. destruct (w_same _ _ _ _ _ _ _ _ _ _ _ W eq_refl) as [-> ->].
    eapply clean_bucket; [apply W|apply W|]. by apply Hz.
  - pose proof (w_count _ _ _ _ _ _ _ _ _ _ _ W) as Hc1. pose proof (w_pos _ _ _ _ _ _ _ _ _ _ _ W) as Hp1.
    destruct (IH h1 M1 cs1 fs1) as (h' & M' & cs' & fs' & -> & (G1 & G2 & G3 & G4) & Hcl); [apply W|apply W| |lia|].
    { by eapply lookup_lt_Some, W. }
    exists h', M', cs', fs'. split; [done|]. split; [|done]. split; [done|]. split; [done|]. split; [eapply keeps_trans; [apply W|done]|eapply cleared_trans; [apply W|done]].
Qed.

Lemma keeps_length h h' M M' cs cs' fs fs' : dir_rep h M cs fs -> dir_rep h' M' cs' fs' -> keeps h h' -> length cs' = length cs.
Proof using Type.
  intros H H' [Hs _]. pose proof (d_cs _ _ _ _ _ (r_ok _ _ _ _ _ _ H)). pose proof (d_cs _ _ _ _ _ (r_ok _ _ _ _ _ _ H')). rewrite (ss_size _ _ Hs) in *. unfold OSD_HASH_BUCKET_SIZE in *. lia.
Qed.

Lemma delete_buckets_ok bs : forall h M cs fs, dir_rep h M cs fs -> mode_ok h -> (forall b, b ∈ bs -> b < length cs)%nat ->
  exists h' M' cs' fs', delete_buckets Mcd_osd_segment_blks storm_mode bs h cguid = Some h' /\ gone h M h' M' cs' fs' /\ forall b, b ∈ bs -> bucket_clean h' M' b.
Proof using Hseg.
  induction bs as [|b bs IH]; intros h M cs fs H Hm Hbs; cbn [delete_buckets].
  - exists h, M, cs, fs. split; [done|]. split; [|by intros b ?%not_elem_of_nil]. split; [done|]. split; [done|]. split; [apply keeps_refl|by left].
  - pose proof (count_bound _ _ _ _ _ (r_ok _ _ _ _ _ _ H)) as Hcb. pose proof (d_max _ _ _ _ _ (r_ok _ _ _ _ _ _ H)).
    destruct (delete_bucket_ok b (S (4 * length (hash_table h))) h M cs fs H Hm ltac:(apply Hbs; left) ltac:(lia)) as (h1 & M1 & cs1 & fs1 & -> & (G1 & G2 & G3 & G4) & Hcl). cbn [mbind option_bind].
    destruct (IH h1 M1 cs1 fs1 G1 G2) as (h' & M' & cs' & fs' & -> & (K1 & K2 & K3 & K4) & Hall).
    { intros x Hx. rewrite (keeps_length _ _ _ _ _ _ _ _ H G1 G3). apply Hbs. by right. }
    exists h', M', cs', fs'. split; [done|]. split; [split; [done|]; split; [done|]; split; [by eapply keeps_trans|by eapply cleared_trans]|].
    intros x [->|Hx]%elem_of_cons; [by eapply bucket_clean_keeps|by apply Hall].
Qed.

(** Exactly the objects of the container are gone. *)
Lemma delete_all_ok h M cs fs : dir_rep h M cs fs -> mode_ok h ->
  exists h' cs' fs', delete_all_objects Mcd_osd_segment_blks storm_mode h cguid = Some h' /\
    dir_rep h' (filter (fun kv => kv.1.1 <> cguid) M) cs' fs' /\ mode_ok h' /\ keeps h h'.
Proof using Hseg.
  intros H Hm. unfold delete_all_objects. pose proof (d_cs _ _ _ _ _ (r_ok _ _ _ _ _ _ H)) as Hcs.
  assert (z2n (hash_size h / OSD_HASH_BUCKET_SIZE) = length cs) as -> by (rewrite Hcs, Z.mul_comm, Z.div_mul by (unfold OSD_HASH_BUCKET_SIZE; lia); lia).
  destruct (delete_buckets_ok (seq 0 (length cs)) h M cs fs H Hm) as (h' & M' & cs' & fs' & -> & (G1 & G2 & G3 & G4) & Hall); [intros b Hb%elem_of_seq; lia|].
  exists h', cs', fs'. split; [done|]. split; [|done]. replace (filter (fun kv : Z * list byte * object => kv.1.1 <> cguid) M) with M'; [done|].
  apply map_eq. intros [cn key]. destruct (decide (cn = cguid)) as [->|Hne].
  - rewrite map_lookup_filter_None_2 by (right; intros x _ Hx; by apply Hx). pose proof (bucket_lt _ _ _ _ _ (r_ok _ _ _ _ _ _ G1) (hashck key 0 cguid) ltac:(apply u64_range)) as Hbk.
    apply (Hall (z2n (bucket_of_syn h' (hashck key 0 cguid)))); [|lia]. apply elem_of_seq. rewrite (keeps_length _ _ _ _ _ _ _ _ H G1 G3) in Hbk. lia.
  - destruct (G4 (cn, key)) as [->|[? _]]; [|done]. destruct (M !! (cn, key)) as [o|] eqn:E; symmetry; [by apply map_lookup_filter_Some|apply map_lookup_filter_None; by left].
Qed.
End clear.
