(* ===== verification/HashTableLoad.v ===== *)
(** * The object directory: recovery from the object table

    At startup, [update_hash_table] (ssd/fifo/mcd_rec.c) enters the objects of
    the persistent object table, which has one record per block, into a new
    directory. Its part on slabs is in [SlabLoad]; statistics are left out. *)

From stdpp Require Import gmap.
From S2P Require Import Prelude Hash HashTable HashTableRep HashTableOps HashTableSpec HashTableSet HashTableInit HashTableUndo HashTableClear.
From stdpp Require Import list.
Open Scope Z_scope.

(** ** The code *)

Definition mcd_osd_lba_to_blk (blocks : Z) : Z := blocks.

Definition power_of_two_roundup (i : Z) : Z :=
  if i <? 0 then 0
  else
    let i := i - 1 in
    let i := Z.lor i (Z.shiftr i 1) in
    let i := Z.lor i (Z.shiftr i 2) in
    let i := Z.lor i (Z.shiftr i 4) in
    let i := Z.lor i (Z.shiftr i 8) in
    let i := Z.lor i (Z.shiftr i 16) in
    let i := Z.lor i (Z.shiftr i 32) in
    i + 1.

Section load.
Context (Mcd_osd_segment_blks : Z) (storm_mode : bool) (total_segments total_blks start_obj : Z).

(** [objs] is the part of the object table from block [start_obj] on. *)
Fixpoint update_hash_table_from (fuel : nat) (objs : list mcd_rec_flash_object) (h : hash_handle) (obj_offset : Z) : option hash_handle :=
  if negb (obj_offset <? lenZ objs) then Some h
  else
    match fuel with
    | O => None
    | S fuel =>
        let blk_offset := start_obj + obj_offset in
        if total_blks <=? blk_offset then Some h
        else
          obj ← at_ objs obj_offset;
          if o_blocks obj =? 0 then
            _ ← assert_ (osyndrome obj =? 0);
            _ ← assert_ (obucket obj =? 0);
            update_hash_table_from fuel objs h (obj_offset + 1)
          else
            r ← hash_entry_recovery_insert Mcd_osd_segment_blks storm_mode total_segments h obj blk_offset;
            update_hash_table_from fuel objs r.2 (obj_offset + power_of_two_roundup (mcd_osd_lba_to_blk (o_blocks obj)))
    end.

Definition update_hash_table (objs : list mcd_rec_flash_object) (h : hash_handle) : option hash_handle :=
  update_hash_table_from (S (length objs)) objs h 0.
End load.

(** ** The stride *)

(** The least power of two from [i] on. *)
Definition is_roundup (i r : Z) : bool := (2 ^ Z.log2 r =? r) && (i <=? r) && (r <? 2 * i).

Lemma roundup_12 i : 1 <= i < 4096 -> is_roundup i (power_of_two_roundup i) = true.
Proof.
  intros Hi. assert (forallb (fun n => is_roundup (n2z n) (power_of_two_roundup (n2z n))) (seq 1 4095) = true) as Hall by (vm_compute; reflexivity).
  rewrite forallb_forall in Hall. replace i with (n2z (z2n i)) by lia. apply Hall. apply in_seq. lia.
Qed.

Lemma roundup_ge i : 1 <= i < 4096 -> i <= power_of_two_roundup i.
Proof. intros Hi. pose proof (roundup_12 i Hi) as H. unfold is_roundup in H. apply andb_true_iff in H as [H _]. apply andb_true_iff in H as [_ H]. by apply Z.leb_le. Qed.

(** ** One object *)

Definition no_free (h : hash_handle) : Prop := Forall (fun p => p = 0) (bucket_locks_free_list h).

Lemma no_free_chains h cs fs : dir_ok h cs fs -> no_free h -> concat fs = [].
Proof.
  intros H Hn. pose proof (d_frees _ _ _ _ _ H) as Hf. unfold no_free in Hn. clear H. revert Hn. generalize dependent (bucket_locks_free_list h). intros l Hf. induction Hf as [|p f ps fs Hp Hps IH]; [done|]. intros [-> Hn]%Forall_cons.
  destruct f as [|i f]; [by apply IH|]. destruct Hp as [Hp _]. unfold ptr_to in Hp. lia.
Qed.

(** The place of the entry, before the count. *)
Definition recovery_slot (h : hash_handle) (bucket : Z) : option ((nat * nat) * hash_handle) :=
  head ← at_ (hash_buckets h) bucket;
  slot ← (if negb (head =? 0) then be ← at_ (hash_table h) (head - 1); Some (unused_slot be) else Some None);
  match slot with
  | Some i => Some ((z2n (head - 1), i), h)
  | None =>
      if hash_table_idx h <? max_hash_table_idx h then
        let pop_idx := hash_table_idx h in
        let h := set_table_idx h (u32 (pop_idx + 1)) in
        h ← set_next h (z2n pop_idx) head;
        bs ← put_ (hash_buckets h) bucket (u32 (pop_idx + 1));
        Some ((z2n pop_idx, 0%nat), set_buckets h bs)
      else None
  end.

(** It is the place an insertion finds when nothing was freed. *)
Lemma recovery_slot_ok h cs fs syn : dir_ok h cs fs -> no_free h -> 0 <= syn -> hash_table_idx h < max_hash_table_idx h ->
  hash_entry_insert_by_key h syn = ('(p, h1) ← recovery_slot h (bucket_of_syn h syn); Some (Some p, add_alloc h1 1)).
Proof.
  intros H Hn Hsyn Hlt. unfold hash_entry_insert_by_key, recovery_slot. pose proof (bucket_lt _ _ _ _ _ H syn Hsyn) as Hb. pose proof (lock_lt _ _ _ _ _ H syn Hsyn) as Hl.
  destruct (at_ (hash_buckets h) (bucket_of_syn h syn)) as [head|]; [|done]. cbn [mbind option_bind].
  destruct (if negb (head =? 0) then _ else _) as [slot|]; [|done]. cbn [mbind option_bind]. destruct slot as [i|]; [done|].
  assert (pop_free h (lock_of_syn h syn) (bucket_of_syn h syn) = Some (None, h)) as ->.
  { unfold pop_free. pose proof (d_fs _ _ _ _ _ H) as Hfs. pose proof (d_map _ _ _ _ _ H) as Hmap. destruct (isset_some (bucket_locks_free_map h) (lock_of_syn h syn) ltac:(lia)) as [bit ->]. cbn [mbind option_bind].
    pose proof (Forall2_length _ _ _ (d_frees _ _ _ _ _ H)) as Hlen. destruct (lookup_lt_is_Some_2 (bucket_locks_free_list h) (z2n (lock_of_syn h syn)) ltac:(lia)) as [p Hp].
    unfold no_free in Hn. rewrite Forall_lookup in Hn. pose proof (Hn _ _ Hp) as ->. assert (at_ (bucket_locks_free_list h) (lock_of_syn h syn) = Some 0) as -> by (unfold at_; rewrite (proj2 (Z.ltb_ge _ _)) by lia; exact Hp). cbn [mbind option_bind]. change (negb (0 =? 0)) with false. by rewrite andb_false_r. }
  cbn [mbind option_bind]. rewrite (proj2 (Z.ltb_lt _ _) Hlt). destruct (set_next _ _ _) as [h1|]; [|done]. cbn [mbind option_bind]. by destruct (put_ _ _ _).
Qed.

Lemma slot_free h b p h1 : recovery_slot h b = Some (p, h1) -> bucket_locks_free_list h1 = bucket_locks_free_list h.
Proof.
  unfold recovery_slot. destruct (at_ (hash_buckets h) b) as [head|]; cbn [mbind option_bind]; [|done]. destruct (if negb (head =? 0) then _ else _) as [[i|]|]; cbn [mbind option_bind]; [by intros [= <- <-]| |done].
  destruct (_ <? _); [|done]. unfold set_next. destruct (hash_table _ !! _); cbn [mbind option_bind]; [|done]. destruct (put_ _ _ _); cbn [mbind option_bind]; [|done]. by intros [= <- <-].
Qed.

Lemma copy_free h p e h' : hash_entry_copy h p e = Some h' -> bucket_locks_free_list h' = bucket_locks_free_list h.
Proof. unfold hash_entry_copy. destruct (hash_table h !! p.1) as [be|]; cbn; [|done]. destruct (be_entries be !! p.2); cbn; [|done]. by intros [= <-]. Qed.

Section recover.
Context (Mcd_osd_segment_blks : Z) (Hseg : 0 < Mcd_osd_segment_blks) (storm_mode : bool) (onflash : Z -> option (list byte)) (total_segments : Z).
Abbreviation addr_ok := (addr_ok Mcd_osd_segment_blks).
Abbreviation dir_rep := (dir_rep Mcd_osd_segment_blks onflash).
Abbreviation keeps := (keeps Mcd_osd_segment_blks).
Abbreviation mode_ok := (mode_ok storm_mode).

(** The entry of a recovered object; one bit stays as it is in the table. *)
Definition recovered (obj : mcd_rec_flash_object) (a : Z) (rsv : bool) : hash_entry :=
  mk_hash_entry true (o_deleted obj) true rsv (o_blocks obj) (osyndrome obj) a (o_cntr_id obj).

Lemma recovery_insert_eq h obj a :
  hash_entry_recovery_insert Mcd_osd_segment_blks storm_mode total_segments h obj a =
    ('(p, h1) ← recovery_slot h (if storm_mode then obucket obj else obucket obj / OSD_HASH_BUCKET_SIZE);
     e ← read_entry h1 p; _ ← assert_ (negb (used e));
     h2 ← hash_entry_copy (add_alloc h1 1) p (Some (recovered obj a (reserved e)));
     _ ← assert_ (a / Mcd_osd_segment_blks <? total_segments);
     h3 ← set_addr h2 a (obucket obj); Some (p, h3)).
Proof using Type.
  unfold hash_entry_recovery_insert, recovery_slot. destruct (at_ (hash_buckets h) _) as [head|]; cbn [mbind option_bind]; [|reflexivity].
  destruct (if negb (head =? 0) then _ else _) as [[i|]|]; cbn [mbind option_bind]; [reflexivity| |reflexivity]. destruct (_ <? _); [|reflexivity].
  destruct (set_next _ _ _); cbn [mbind option_bind]; [|reflexivity]. destruct (put_ _ _ _); reflexivity.
Qed.

(** The record of an object in the object table. *)
Record obj_ok (h : hash_handle) (obj : mcd_rec_flash_object) (key : list byte) : Prop := {
  b_key : key <> [];
  b_cntr : o_cntr_id obj <> 0;
  b_blocks : o_blocks obj <> 0;
  b_syn : osyndrome obj = u16 (Z.shiftr (hashck key 0 (o_cntr_id obj)) OSD_HASH_SYN_SHIFT);
  b_bucket : obucket obj = if storm_mode then bucket_of_syn h (hashck key 0 (o_cntr_id obj)) else hashck key 0 (o_cntr_id obj) mod hash_size h
}.

Lemma obj_addr h2 b a obj key : obj_ok h2 obj key -> mode_ok h2 -> addr_ok h2 a -> 0 < hash_size h2 -> bucket_of_syn h2 (hashck key 0 (o_cntr_id obj)) = n2z b ->
  exists h', set_addr h2 a (obucket obj) = Some h' /\ h' = set_addr_table h2 (addr_table h') /\ addr_step Mcd_osd_segment_blks [a] h2 h' /\ addr_leads h' a b /\ key_cache h' = key_cache h2 /\ mode_ok h'.
Proof using Hseg.
  intros Hobj Hm Ha Hsz Hbk. destruct storm_mode eqn:Es.
  - assert (addr_table h2 = None) as En by (destruct (addr_table h2) as [t|] eqn:Et; [|done]; unfold HashTableClear.mode_ok in Hm; rewrite Et in Hm; destruct Hm as [Hm _]; discriminate (Hm ltac:(by eexists))).
    exists h2. unfold set_addr, addr_leads. rewrite En. split; [done|]. split; [destruct h2; cbn in *; by subst|]. split; [by apply addr_step_same|done].
  - rewrite (b_bucket _ _ _ Hobj), Es. destruct (set_addr_last _ Hseg h2 b a (hashck key 0 (o_cntr_id obj) mod hash_size h2) Ha) as (h' & H1 & H2 & H3 & H4 & H5); [by apply Z.mod_pos_bound|done|].
    exists h'. split; [done|]. split; [done|]. split; [done|]. split; [done|]. split; [done|]. unfold HashTableClear.mode_ok in *. rewrite set_addr_ok in H1 by apply Ha. injection H1 as <-. cbn. by rewrite upd_addr_some.
Qed.

(** The place is one an insertion opens. *)
Lemma recovery_slot_opened h cs fs syn b c : dir_ok h cs fs -> no_free h -> hash_table_idx h < max_hash_table_idx h -> 0 <= syn -> bucket_of_syn h syn = n2z b -> cs !! b = Some c ->
  exists p h1 old, recovery_slot h (n2z b) = Some (p, h1) /\ read_entry h1 p = Some old /\ used old = false /\
    forall e, used e = true -> exists h2 cs' fs' c', hash_entry_copy (add_alloc h1 1) p (Some e) = Some h2 /\ dir_ok h2 cs' fs' /\ same_sizes h h2 /\ same_addrs h h2 /\
      same_others b h h2 cs cs' /\ cs' !! b = Some c' /\ contents (hash_table h2) c' ≡ₚ e :: contents (hash_table h) c.
Proof using Type.
  intros H Hn Hlt Hsyn Hbk Hb. destruct (insert_by_key_ok h cs fs syn b c H Hsyn Hbk Hb) as (r & hi & Hins & Hcase). pose proof Hins as Hins'. rewrite (recovery_slot_ok h cs fs syn H Hn Hsyn Hlt), Hbk in Hins'.
  destruct (recovery_slot h (n2z b)) as [[p h1]|]; cbn in Hins'; [|done]. injection Hins' as <- <-. destruct Hcase as (cs0 & fs0 & i & l & s & old & -> & _ & _ & Hs & Hu & _).
  exists (i, s), h1, old. split; [done|]. split; [by rewrite read_entry_node|]. split; [done|]. intros e He.
  destruct (insert_ok h cs fs syn b c e H Hsyn Hbk Hb He) as (r & hi & Hins2 & Hcase). rewrite Hins in Hins2. injection Hins2 as <- <-.
  destruct Hcase as (h2 & cs' & fs' & c' & H1 & H2 & H3 & H4 & _ & H5 & H6 & H7). by exists h2, cs', fs', c'.
Qed.

Lemma recovery_insert_ok h M cs fs key obj a :
  dir_rep h M cs fs -> no_free h -> mode_ok h -> hash_table_idx h < max_hash_table_idx h -> obj_ok h obj key -> onflash a = Some key -> addr_ok h a ->
  a / Mcd_osd_segment_blks < total_segments -> M !! (o_cntr_id obj, key) = None -> (forall id o, M !! id = Some o -> ob_addr o <> a) ->
  exists p h' cs' fs', hash_entry_recovery_insert Mcd_osd_segment_blks storm_mode total_segments h obj a = Some (p, h') /\
    dir_rep h' (<[(o_cntr_id obj, key) := mk_object a (o_blocks obj) (o_deleted obj)]> M) cs' fs' /\ no_free h' /\ mode_ok h' /\ keeps h h' /\ alloc_count h' = alloc_count h + 1.
Proof using Hseg.
  intros H Hn Hm Hlt Hobj Hfl Ha Hts HM Hfr. pose proof (r_ok _ _ _ _ _ _ H) as Hinv. rewrite recovery_insert_eq. set (syn := hashck key 0 (o_cntr_id obj)). assert (0 <= syn) as Hsyn by apply u64_range.
  pose proof (bucket_lt _ _ _ _ _ Hinv syn Hsyn) as Hbr. set (b := z2n (bucket_of_syn h syn)). assert (bucket_of_syn h syn = n2z b) as Hbk by lia. destruct (lookup_lt_is_Some_2 cs b ltac:(lia)) as [c Hb].
  assert ((if storm_mode then obucket obj else obucket obj / OSD_HASH_BUCKET_SIZE) = n2z b) as -> by (rewrite (b_bucket _ _ _ Hobj); destruct storm_mode; exact Hbk).
  destruct (recovery_slot_opened h cs fs syn b c Hinv Hn Hlt Hsyn Hbk Hb) as (p & h1 & old & Hslot & Hold & Hu & Hcopy). rewrite Hslot. cbn [mbind option_bind]. rewrite Hold. cbn [mbind option_bind]. rewrite Hu. cbn [negb assert_ mbind option_bind].
  set (e := recovered obj a (reserved old)). destruct (Hcopy e eq_refl) as (h2 & cs' & fs' & c' & Hcp & Hi2 & Hs2 & Had2 & Ho & Hb' & Hc). rewrite Hcp. cbn [mbind option_bind].
  rewrite (proj2 (Z.ltb_lt _ _) Hts). cbn [assert_ mbind option_bind]. assert (addr_step Mcd_osd_segment_blks [a] h h2) as Hst2 by (by apply addr_step_same).
  destruct (obj_addr h2 b a obj key) as (h' & -> & E' & Hst' & Hl & Hkc & Hm').
  { destruct Hobj. split; try done. unfold bucket_of_syn in *. by rewrite (ss_size _ _ Hs2). }
  { unfold HashTableClear.mode_ok in *. by rewrite (proj1 Had2). }
  { by apply (addr_step_ok _ Hseg _ _ _ _ Hst2). }
  { by eapply size_pos. }
  { unfold bucket_of_syn in *. by rewrite (ss_size _ _ Hs2). }
  cbn [mbind option_bind]. assert (addr_step Mcd_osd_segment_blks [a] h h') as Hst by (by eapply addr_step_trans). assert (same_sizes h h') as Hs' by (etransitivity; [done|]; rewrite E'; by split).
  assert (a ∉ blkaddress <$> all_entries h cs) as Hfr' by (by eapply fresh_addr). exists p, h', cs', fs'. split; [done|]. assert (same_others b h h' cs cs') as Ho' by (rewrite E'; exact Ho).
  assert (contents (hash_table h') c' ≡ₚ e :: contents (hash_table h) c) as Hc' by (rewrite E'; exact Hc). assert (dir_ok h' cs' fs') as Hi' by (by eapply inv_table).
  assert (dir_rep h' (<[(o_cntr_id obj, key) := mk_object a (o_blocks obj) (o_deleted obj)]> M) cs' fs') as H'.
  { eapply (rep_flash _ (on_write onflash a key)); [intros x; unfold on_write; destruct (Z.eqb_spec x a) as [->|]; done|].
    apply (write_rep _ Hseg onflash h h' M cs fs cs' fs' b c c' [] (contents (hash_table h) c) key e); try done; try apply Hobj; [by left| |by intros ? ?%not_elem_of_nil].
    unfold HashTableSpec.cached. assert (key_cache h' = key_cache h) as Ek by (rewrite Hkc; apply Had2). unfold HashTable.keycache_get. rewrite Ek. destruct (key_cache h) as [kc|] eqn:Ekc; [|done].
    exists 0. split; [|by left]. rewrite <- Ekc. apply (r_free _ _ _ _ _ _ H); [done|done|congruence]. }
  split; [done|]. split; [|split; [done|split; [by eapply keeps_step|]]].
  - unfold no_free in *. rewrite E'. cbn. rewrite (copy_free _ _ _ _ Hcp). cbn. by rewrite (slot_free _ _ _ _ Hslot).
  - destruct (all_change b h h' cs cs' c c' [] [e] (contents (hash_table h) c) Ho' Hb Hb' ltac:(done) Hc') as (R & HR & HR').
    rewrite (d_count _ _ _ _ _ Hinv), (d_count _ _ _ _ _ Hi'). fold (all_entries h cs) (all_entries h' cs'). rewrite HR, HR'. cbn [app length]. lia.
Qed.

(** ** The whole table *)

(** The object table [objs] records the objects of the map. An object has the
    blocks up to the next power of two for itself. *)
Record table_of (h : hash_handle) (objs : list mcd_rec_flash_object) (M : directory) : Prop := {
  t_obj : forall a obj, objs !! a = Some obj -> o_blocks obj <> 0 ->
    exists key, onflash (n2z a) = Some key /\ obj_ok h obj key /\ M !! (o_cntr_id obj, key) = Some (mk_object (n2z a) (o_blocks obj) (o_deleted obj));
  t_width : forall a obj, objs !! a = Some obj -> 0 <= o_blocks obj < 4096;
  t_blank : forall a obj, objs !! a = Some obj -> o_blocks obj = 0 -> osyndrome obj = 0 /\ obucket obj = 0;
  t_map : forall cntr key o, M !! (cntr, key) = Some o -> 0 <= ob_addr o /\ onflash (ob_addr o) = Some key /\
    exists obj, objs !! z2n (ob_addr o) = Some obj /\ o_blocks obj <> 0 /\ o_cntr_id obj = cntr;
  t_gap : forall a obj a' obj', objs !! a = Some obj -> o_blocks obj <> 0 -> n2z a < n2z a' < n2z a + power_of_two_roundup (o_blocks obj) ->
    objs !! a' = Some obj' -> o_blocks obj' = 0
}.

(** The number of objects in a table. *)
Definition nobjs (objs : list mcd_rec_flash_object) : Z := lenZ (filter (fun obj => o_blocks obj <> 0) objs).

(** The objects before block [k]. *)
Definition before (k : Z) (M : directory) : directory := filter (fun kv => ob_addr kv.2 < k) M.

Lemma before_skip h objs M k k' : table_of h objs M -> k <= k' -> (forall a obj, k <= n2z a < k' -> objs !! a = Some obj -> o_blocks obj = 0) -> before k' M = before k M.
Proof using Type.
  intros T Hk Hgap. apply map_eq. intros [cntr key]. unfold before. destruct (M !! (cntr, key)) as [o|] eqn:E.
  - destruct (t_map _ _ _ T cntr key o E) as (H0 & _ & obj & Ho & Hb & _). destruct (decide (ob_addr o < k)) as [Hlt|Hge].
    + transitivity (Some o); [|symmetry]; apply map_lookup_filter_Some; (split; [done|]); cbn; lia.
    + transitivity (@None object); [|symmetry]; apply map_lookup_filter_None; right; intros x Hx; assert (x = o) as -> by congruence; cbn; [|lia].
      intros Hlt. apply Hb, (Hgap (z2n (ob_addr o)) obj); [lia|done].
  - transitivity (@None object); [|symmetry]; apply map_lookup_filter_None; by left.
Qed.

Lemma before_one h objs M a obj key : table_of h objs M -> objs !! a = Some obj -> onflash (n2z a) = Some key -> o_blocks obj <> 0 ->
  M !! (o_cntr_id obj, key) = Some (mk_object (n2z a) (o_blocks obj) (o_deleted obj)) ->
  before (n2z a + 1) M = <[(o_cntr_id obj, key) := mk_object (n2z a) (o_blocks obj) (o_deleted obj)]> (before (n2z a) M) /\ before (n2z a) M !! (o_cntr_id obj, key) = None.
Proof using Type.
  intros T Ho Hk Hb HM. split; [|apply map_lookup_filter_None; right; intros x Hx; rewrite HM in Hx; injection Hx as <-; cbn; lia].
  apply map_eq. intros [cn k]. destruct (decide ((o_cntr_id obj, key) = (cn, k))) as [[= <- <-]|Hne].
  - rewrite lookup_insert_eq. apply map_lookup_filter_Some. split; [done|]. cbn. lia.
  - rewrite lookup_insert_ne by done. unfold before. destruct (M !! (cn, k)) as [o|] eqn:E.
    + destruct (t_map _ _ _ T cn k o E) as (H0 & Hf & obj' & Ho' & _ & Hc). assert (ob_addr o <> n2z a) as Hna.
      { intros Ea. apply Hne. rewrite Ea in Hf, Ho'. rewrite Nat2Z.id in Ho'. congruence. }
      destruct (decide (ob_addr o < n2z a)); [transitivity (Some o); [|symmetry]; apply map_lookup_filter_Some; (split; [done|]); cbn; lia|].
      transitivity (@None object); [|symmetry]; apply map_lookup_filter_None; right; intros x Hx; assert (x = o) as -> by congruence; cbn; lia.
    + transitivity (@None object); [|symmetry]; apply map_lookup_filter_None; by left.
Qed.

Lemma nobjs_drop objs n m : nobjs (drop (n + m) objs) <= nobjs (drop n objs).
Proof using Type. unfold nobjs. rewrite <- drop_drop. rewrite <- (take_drop m (drop n objs)) at 2. rewrite list.filter_app, length_app. lia. Qed.

Lemma nobjs_cons objs k obj : objs !! k = Some obj -> o_blocks obj <> 0 -> nobjs (drop k objs) = 1 + nobjs (drop (S k) objs).
Proof using Type. intros Hk Hb. rewrite (drop_S objs obj k Hk). unfold nobjs. rewrite filter_cons_True by done. cbn [length]. lia. Qed.

(** A directory being rebuilt. *)
Record loading (h0 : hash_handle) (objs : list mcd_rec_flash_object) (M : directory) (h : hash_handle) (k : nat) : Prop := {
  g_rep : exists cs fs, dir_rep h (before (n2z k) M) cs fs;
  g_free : no_free h;
  g_mode : mode_ok h;
  g_keeps : keeps h0 h;
  g_cap : capacity h;
  g_count : alloc_count h + nobjs (drop k objs) <= hash_size h
}.

Section table.
Context (h0 : hash_handle) (objs : list mcd_rec_flash_object) (M : directory) (total_blks : Z) (T : table_of h0 objs M).
Context (Hblks : lenZ objs <= total_blks) (Hsegs : forall a, 0 <= a < lenZ objs -> addr_ok h0 a /\ a / Mcd_osd_segment_blks < total_segments).

Lemma load_skip h k k' : loading h0 objs M h k -> (k <= k')%nat -> (forall a obj, n2z k <= n2z a < n2z k' -> objs !! a = Some obj -> o_blocks obj = 0) -> loading h0 objs M h k'.
Proof using T.
  intros [(cs & fs & G1) G2 G3 G4 G5 G6] Hk Hgap. split; try done.
  - exists cs, fs. rewrite (before_skip h0 objs M (n2z k) (n2z k') T ltac:(lia) Hgap). done.
  - pose proof (nobjs_drop objs k (k' - k)) as Hd. replace (k + (k' - k))%nat with k' in Hd by lia. lia.
Qed.

Lemma load_one h k obj : loading h0 objs M h k -> objs !! k = Some obj -> o_blocks obj <> 0 ->
  exists p h', hash_entry_recovery_insert Mcd_osd_segment_blks storm_mode total_segments h obj (n2z k) = Some (p, h') /\ loading h0 objs M h' (S k).
Proof using T Hseg Hsegs.
  intros [(cs & fs & G1) G2 G3 G4 G5 G6] Hk Hb. destruct (t_obj _ _ _ T k obj Hk Hb) as (key & Hf & Hobj & HM). destruct (before_one h0 objs M k obj key T Hk Hf Hb HM) as [Enext Hnone].
  pose proof (lookup_lt_Some _ _ _ Hk) as Hlt. destruct (Hsegs (n2z k) ltac:(lia)) as [Ha Hts]. rewrite (nobjs_cons objs k obj Hk Hb) in G6. assert (0 <= nobjs (drop (S k) objs)) as Hn0 by (unfold nobjs; lia).
  assert (hash_table_idx h < max_hash_table_idx h) as Hroom by (apply (room_left h cs fs); [apply G1|done|lia|eapply no_free_chains; [apply G1|done]]).
  destruct (recovery_insert_ok h (before (n2z k) M) cs fs key obj (n2z k)) as (p & h' & cs' & fs' & Hins & H' & Hfree & Hm' & Hk' & Hcount); try done.
  - destruct Hobj. split; try done. unfold bucket_of_syn in *. by rewrite (ss_size _ _ (proj1 G4)).
  - by apply G4.
  - intros id o [_ Ho]%map_lookup_filter_Some. cbn in Ho. lia.
  - exists p, h'. split; [done|]. split; try done.
    + exists cs', fs'. replace (n2z (S k)) with (n2z k + 1) by lia. by rewrite Enext.
    + by eapply keeps_trans.
    + eapply capacity_keeps; [apply Hk'|done].
    + rewrite Hcount, (ss_size _ _ (proj1 Hk')). lia.
Qed.

Lemma load_from fuel : forall h k, loading h0 objs M h k -> (length objs - k < fuel)%nat ->
  exists h' k', update_hash_table_from Mcd_osd_segment_blks storm_mode total_segments total_blks 0 fuel objs h (n2z k) = Some h' /\ loading h0 objs M h' k' /\ lenZ objs <= n2z k'.
Proof using T Hseg Hsegs Hblks.
  induction fuel as [|fuel IH]; intros h k G Hf; [lia|]. cbn [update_hash_table_from]. destruct (Z.ltb_spec (n2z k) (lenZ objs)) as [Hlt|Hge]; cbn [negb]; [|exists h, k; done].
  rewrite Z.add_0_l, (proj2 (Z.leb_gt _ _)) by lia. destruct (lookup_lt_is_Some_2 objs k ltac:(lia)) as [obj Hk]. rewrite at_lookup, Hk. cbn [mbind option_bind].
  destruct (Z.eqb_spec (o_blocks obj) 0) as [Hz|Hnz].
  - destruct (t_blank _ _ _ T k obj Hk Hz) as [-> ->]. cbn [assert_ mbind option_bind Z.eqb]. replace (n2z k + 1) with (n2z (S k)) by lia. apply IH; [|lia].
    apply (load_skip h k); [done|lia|]. intros a o Ha Ho. assert (a = k) as -> by lia. congruence.
  - destruct (load_one h k obj G Hk Hnz) as (p & h1 & -> & G1). cbn [mbind option_bind snd]. pose proof (t_width _ _ _ T k obj Hk) as Hw. unfold mcd_osd_lba_to_blk.
    pose proof (roundup_ge (o_blocks obj) ltac:(lia)) as Hr. set (r := power_of_two_roundup (o_blocks obj)) in *. replace (n2z k + r) with (n2z (k + z2n r)) by lia. apply IH; [|lia].
    apply (load_skip h1 (S k)); [done|lia|]. intros a o Ha Ho. apply (t_gap _ _ _ T k obj a o Hk Hnz); [fold r; lia|done].
Qed.

Lemma before_all k : lenZ objs <= k -> before k M = M.
Proof using T.
  intros Hk. apply map_filter_id. intros [cntr key] o Hm. destruct (t_map _ _ _ T cntr key o Hm) as (H0 & _ & obj & Ho & _). apply lookup_lt_Some in Ho. cbn. lia.
Qed.
End table.
End recover.
