(* ===== verification/HashTableTheorems.v ===== *)
(** * The object directory: theorems

    [reach] is the life of a shard's directory: a new one or one recovered from
    the object table, then writes, deletions, rollbacks and deletions of
    containers. The theorems say what the map of the objects is after each, that
    no step fails, when an insertion finds no room, and what goes wrong. *)

From stdpp Require Import gmap.
From S2P Require Import Prelude Hash HashTable HashTableRep HashTableOps HashTableSpec HashTableSet HashTableInit HashTableUndo HashTableClear HashTableLoad.
From stdpp Require Import list.
From Stdlib Require Strings.String.
Import String.StringSyntax.
Open Scope Z_scope.
Delimit Scope string_scope with string.

(** ** The life of a directory *)

(** A shard: the sizes of blocks and segments, the mode, what its memory holds
    before it is initialised, its size and its number of segments. *)
Record shard := mk_shard {
  sh_blk_size : Z;
  sh_segment_blks : Z;
  sh_storm : bool;
  sh_junk : nat -> Z;
  sh_total_size : Z;
  sh_max_nobjs : Z;
  sh_keycache : bool;
  sh_segments : Z
}.

Section life.
Context (sh : shard).
Abbreviation seg_blks := (sh_segment_blks sh).
Definition sh_blks : Z := sh_total_size sh / sh_blk_size sh.
Definition sh_init : option hash_handle :=
  hash_table_init (sh_blk_size sh) seg_blks (sh_blk_size sh * seg_blks) (sh_storm sh) (sh_junk sh) (sh_total_size sh) (sh_max_nobjs sh) (sh_keycache sh).

(** The memory of the cache has to be clear where it is not allocated on use. *)
Record shard_ok : Prop := {
  so_blk : 0 < sh_blk_size sh;
  so_seg : 0 < seg_blks;
  so_total : 0 <= sh_total_size sh;
  so_junk : sh_storm sh = true \/ forall n, sh_junk sh n = 0;
  so_size : size_ok (init_hash_size (sh_blk_size sh) seg_blks (sh_total_size sh) (sh_max_nobjs sh));
  so_segs : sh_blks <= sh_segments sh * seg_blks
}.

(** A request: a write comes with a block of the shard that no object uses. *)
Record request_ok (M : directory) (rq : set_request) : Prop := {
  ro_key : s_key rq <> [];
  ro_cntr : s_cntr rq <> 0;
  ro_data : forall a n del, s_data rq = Some (a, n, del) -> n <> 0 /\ 0 <= a < sh_blks /\ forall id o, M !! id = Some o -> ob_addr o <> a
}.

Abbreviation slab_set := (mcd_fth_osd_slab_set seg_blks).
Abbreviation syn_of rq := (hashck (s_key rq) 0 (s_cntr rq)).

(** The states of the directory with the keys on flash and the map. A rollback
    comes directly after its request; one of a write with a cached key is left
    out (see [rolled_back_key_found]). *)
Inductive reach : (Z -> option (list byte)) -> hash_handle -> directory -> Prop :=
| reach_new onflash h : sh_init = Some h -> reach onflash h ∅
| reach_load onflash objs h0 h M : sh_init = Some h0 -> table_of (sh_storm sh) onflash h0 objs M -> lenZ objs <= sh_blks -> nobjs objs <= hash_size h0 ->
    update_hash_table seg_blks (sh_storm sh) (sh_segments sh) sh_blks 0 objs h0 = Some h -> reach onflash h M
| reach_set onflash h M rq h' rc ra : reach onflash h M -> request_ok M rq -> slab_set onflash h rq = Some (h', rc, ra) ->
    reach (flash_after onflash rq rc) h' (next_map M rq rc)
| reach_undo_write onflash h M rq a n del h1 ra orig h' d : reach onflash h M -> request_ok M rq -> s_data rq = Some (a, n, del) ->
    slab_set onflash h rq = Some (h1, FLASH_EOK, ra) -> lookup_entry seg_blks onflash h (s_key rq) (s_cntr rq) = Some orig ->
    sh_keycache sh = false \/ length (s_key rq) <> 8%nat -> mcd_osd_trx_revert h1 a orig (syn_of rq) = Some (h', d) -> reach (on_write onflash a (s_key rq)) h' M
| reach_undo_delete onflash h M rq h1 ra e h' ok : reach onflash h M -> request_ok M rq -> s_data rq = None ->
    slab_set onflash h rq = Some (h1, FLASH_EOK, ra) -> lookup_entry seg_blks onflash h (s_key rq) (s_cntr rq) = Some (Some e) ->
    mcd_osd_trx_insert h1 (syn_of rq) e = Some (h', ok) -> reach onflash h' M
| reach_clear onflash h M cguid h' : reach onflash h M -> delete_all_objects seg_blks (sh_storm sh) h cguid = Some h' ->
    reach onflash h' (filter (fun kv => kv.1.1 <> cguid) M).

(** ** The invariant *)

Lemma set_spec_rc M rq : FLASH_ENOSPC <> fst (set_spec M rq).
Proof using Type. unfold set_spec. destruct (too_big rq); [done|]. destruct (M !! _), (s_data rq) as [[[a n] del]|]; [destruct (test_exist rq)|destruct (test_exist rq)|destruct (test_nonexist rq)|]; done. Qed.

Record life_ok (onflash : Z -> option (list byte)) (h : hash_handle) (M : directory) : Prop := {
  lo_rep : exists cs fs, dir_rep seg_blks onflash h M cs fs;
  lo_mode : mode_ok (sh_storm sh) h;
  lo_cap : capacity h;
  lo_cache : sh_keycache sh = false -> key_cache h = None;
  lo_addr : forall a, 0 <= a < sh_blks -> addr_ok seg_blks h a
}.

Lemma life_keeps onflash onflash' h h' M M' : life_ok onflash h M -> keeps seg_blks h h' -> (exists cs fs, dir_rep seg_blks onflash' h' M' cs fs) -> life_ok onflash' h' M'.
Proof using Type.
  intros [L1 L2 L3 L4 L5] (K1 & K2 & K3 & K4) Hrep. split; [done| |by eapply capacity_keeps| |].
  - unfold mode_ok in *. by rewrite K4.
  - intros E. by apply K3, L4.
  - intros a Ha. by apply K2, L5.
Qed.

Lemma life_rq onflash h M rq : life_ok onflash h M -> request_ok M rq -> rq_ok seg_blks h M rq.
Proof using Type. intros L [R1 R2 R3]. split; try done. intros a n del E. destruct (R3 a n del E) as (Hn & Ha & Hfr). split; [done|]. split; [by apply (lo_addr _ _ _ L)|done]. Qed.

Section ok.
Context (Hok : shard_ok).

Lemma init_life onflash h : sh_init = Some h -> life_ok onflash h ∅ /\ no_free h /\ alloc_count h = 0.
Proof using Hok.
  intros Hi. pose proof Hok as [O1 O2 O3 O4 O5 O6]. unfold sh_init in Hi. assert (life_ok onflash h ∅) as L.
  { split.
    - eapply (init_rep (sh_blk_size sh)); [done|done|exact O4|exact O5|exact Hi].
    - unfold hash_table_init in Hi. destruct (_ && _); [done|]. destruct (init_locks _) as [bs bk]. injection Hi as <-. unfold mode_ok. cbn. destruct (sh_storm sh); split; intros E; try done; by destruct E.
    - unfold capacity. unfold hash_table_init in Hi. destruct (_ && _); [done|]. destruct (init_locks_ok _ O5) as (j & bk & E & Hr & Hj & Hle). rewrite E in Hi. injection Hi as <-. cbn.
      set (sz := if _ <? _ then _ else _). change (n2z OSD_HASH_ENTRY_PER_BUCKET_ENTRY) with 4. apply u32_small. destruct O5 as [Hp Hs].
      assert (0 < sz < 2 ^ 32 + 256) as Hsz by (unfold sz; destruct (_ <? _); lia). unfold OSD_HASH_BUCKET_SIZE. pose proof (Z.div_mod sz 4 ltac:(lia)). pose proof (Z.mod_pos_bound sz 4 ltac:(lia)).
      pose proof (Z.div_mod sz 16 ltac:(lia)). pose proof (Z.mod_pos_bound sz 16 ltac:(lia)). lia.
    - unfold hash_table_init in Hi. destruct (_ && _); [done|]. destruct (init_locks _) as [bs bk]. injection Hi as <-. cbn. by intros ->.
    - intros a Ha. eapply (init_addr (sh_blk_size sh)); [exact O1|exact O2|reflexivity|exact O3|exact Hi|exact Ha]. }
  split; [done|]. unfold hash_table_init in Hi. destruct (_ && _); [done|]. destruct (init_locks _) as [bs bk]. injection Hi as <-. cbn. split; [|done]. unfold no_free. cbn. by apply Forall_replicate.
Qed.

(** Loading does not fail. *)
Lemma load_life onflash objs h0 M : sh_init = Some h0 -> table_of (sh_storm sh) onflash h0 objs M -> lenZ objs <= sh_blks -> nobjs objs <= hash_size h0 ->
  exists h, update_hash_table seg_blks (sh_storm sh) (sh_segments sh) sh_blks 0 objs h0 = Some h /\ life_ok onflash h M.
Proof using Hok.
  intros Hi T Hlen Hn. destruct (init_life onflash h0 Hi) as (L & Hfree & Hzero). assert (before 0 M = ∅) as Eb.
  { apply map_eq. intros [cn key]. rewrite lookup_empty. apply map_lookup_filter_None. right. intros o Ho. destruct (t_map _ _ _ _ _ T cn key o Ho) as [H0 _]. cbn. lia. }
  destruct (lo_rep _ _ _ L) as (cs & fs & Hrep). unfold update_hash_table.
  destruct (load_from seg_blks (so_seg Hok) (sh_storm sh) onflash (sh_segments sh) h0 objs M sh_blks T Hlen) with (fuel := S (length objs)) (h := h0) (k := 0%nat) as (h & k & Hu & G & Hk).
  - intros a Ha. split; [apply (lo_addr _ _ _ L); lia|]. pose proof (so_segs Hok). pose proof (so_seg Hok). apply Z.div_lt_upper_bound; nia.
  - split; try done; [exists cs, fs; change (n2z 0) with 0; by rewrite Eb|apply (lo_mode _ _ _ L)|apply (lo_cap _ _ _ L)|]. rewrite Hzero, drop_0. lia.
  - lia.
  - exists h. split; [exact Hu|]. destruct G as [G1 G2 G3 G4 G5 G6]. rewrite (before_all _ _ _ _ _ T) in G1 by done. by eapply life_keeps.
Qed.

(** A request does not fail, and a rollback undoes it. *)
Lemma set_life onflash h M rq : life_ok onflash h M -> request_ok M rq ->
  exists h' rc ra, slab_set onflash h rq = Some (h', rc, ra) /\ life_ok (flash_after onflash rq rc) h' (next_map M rq rc) /\
    (rc = fst (set_spec M rq) \/ (rc = FLASH_ENOSPC /\ fst (set_spec M rq) = FLASH_EOK /\ M !! (s_cntr rq, s_key rq) = None)).
Proof using Hok.
  intros L R. destruct (lo_rep _ _ _ L) as (cs & fs & H). destruct (slab_set_ok _ (so_seg Hok) onflash h M cs fs rq H (life_rq _ _ _ _ L R)) as (h' & rc & ra & cs' & fs' & Hs & H' & K & Hrc).
  exists h', rc, ra. split; [done|]. split; [eapply life_keeps; [done|done|by exists cs', fs']|tauto].
Qed.

Lemma undo_write_life onflash h M rq a n del h1 ra orig : life_ok onflash h M -> request_ok M rq -> s_data rq = Some (a, n, del) ->
  slab_set onflash h rq = Some (h1, FLASH_EOK, ra) -> lookup_entry seg_blks onflash h (s_key rq) (s_cntr rq) = Some orig -> sh_keycache sh = false \/ length (s_key rq) <> 8%nat ->
  exists h', mcd_osd_trx_revert h1 a orig (syn_of rq) = Some (h', Some a) /\ life_ok (on_write onflash a (s_key rq)) h' M.
Proof using Hok.
  intros L R Ed Hs Hl Hk. destruct (lo_rep _ _ _ L) as (cs & fs & H).
  destruct (undo_write_ok _ (so_seg Hok) onflash h M cs fs rq a n del h1 ra orig H (life_rq _ _ _ _ L R) Ed Hs Hl) as (h' & cs' & fs' & Hr & H' & K); [destruct Hk; [left; by apply (lo_cache _ _ _ L)|by right]|].
  exists h'. split; [done|]. eapply life_keeps; [done|done|by exists cs', fs'].
Qed.

Lemma undo_delete_life onflash h M rq h1 ra e : life_ok onflash h M -> request_ok M rq -> s_data rq = None ->
  slab_set onflash h rq = Some (h1, FLASH_EOK, ra) -> lookup_entry seg_blks onflash h (s_key rq) (s_cntr rq) = Some (Some e) ->
  exists h', mcd_osd_trx_insert h1 (syn_of rq) e = Some (h', true) /\ life_ok onflash h' M.
Proof using Hok.
  intros L R Ed Hs Hl. destruct (lo_rep _ _ _ L) as (cs & fs & H).
  destruct (undo_delete_rq_ok _ (so_seg Hok) onflash h M cs fs rq h1 ra e H (life_rq _ _ _ _ L R) Ed Hs Hl) as (h' & cs' & fs' & Hr & H' & K).
  exists h'. split; [done|]. eapply life_keeps; [done|done|by exists cs', fs'].
Qed.

Lemma clear_life onflash h M cguid : life_ok onflash h M ->
  exists h', delete_all_objects seg_blks (sh_storm sh) h cguid = Some h' /\ life_ok onflash h' (filter (fun kv => kv.1.1 <> cguid) M).
Proof using Hok.
  intros L. destruct (lo_rep _ _ _ L) as (cs & fs & H). destruct (delete_all_ok _ (so_seg Hok) (sh_storm sh) onflash cguid h M cs fs H (lo_mode _ _ _ L)) as (h' & cs' & fs' & Hd & H' & _ & K).
  exists h'. split; [done|]. eapply life_keeps; [done|done|by exists cs', fs'].
Qed.

Lemma reach_life onflash h M : reach onflash h M -> life_ok onflash h M.
Proof using Hok.
  induction 1 as [f h Hi|f objs h0 h M Hi T Hl Hn Hu|f h M rq h' rc ra Hr IH R Hs|f h M rq a n del h1 ra orig h' d Hr IH R Ed Hs Hl Hk Hu|f h M rq h1 ra e h' ok Hr IH R Ed Hs Hl Hu|f h M cguid h' Hr IH Hd].
  - by apply init_life.
  - destruct (load_life f objs h0 M Hi T Hl Hn) as (h2 & Hu2 & L). congruence.
  - destruct (set_life f h M rq IH R) as (h2 & rc2 & ra2 & Hs2 & L & _). congruence.
  - destruct (undo_write_life f h M rq a n del h1 ra orig IH R Ed Hs Hl Hk) as (h2 & Hu2 & L). congruence.
  - destruct (undo_delete_life f h M rq h1 ra e IH R Ed Hs Hl) as (h2 & Hu2 & L). congruence.
  - destruct (clear_life f h M cguid IH) as (h2 & Hd2 & L). congruence.
Qed.
End ok.

(** A search gives what the map has. *)
Definition answers (onflash : Z -> option (list byte)) (h : hash_handle) (M : directory) : Prop :=
  forall key cntr, key <> [] -> cntr <> 0 -> exists r, lookup_entry seg_blks onflash h key cntr = Some r /\ object_of <$> r = M !! (cntr, key).

Lemma life_answers onflash h M : life_ok onflash h M -> answers onflash h M.
Proof using Type. intros L key cntr Hk Hc. destruct (lo_rep _ _ _ L) as (cs & fs & H). by eapply lookup_entry_ok. Qed.

(** ** Theorems *)

(** C9: the directory refines a map from containers and keys to objects: in
    every state of its life ([reach]: new or recovered, then written, deleted
    from, rolled back and cleared of containers), a search gives exactly what the
    map has, and a write to a block that no object uses or a deletion does not
    fail; its status is the one of the map, except that the insertion of a new
    object may be rejected for lack of room. (The sizes are those [shard_ok]
    admits; outside storm mode the memory of the key cache is clear at the
    start; rollbacks of writes with cached keys are left out.) *)
Theorem directory_refines onflash h M : shard_ok -> reach onflash h M ->
  answers onflash h M /\
  forall rq, request_ok M rq -> exists h' rc ra, slab_set onflash h rq = Some (h', rc, ra) /\
    (rc = fst (set_spec M rq) \/ (rc = FLASH_ENOSPC /\ fst (set_spec M rq) = FLASH_EOK /\ M !! (s_cntr rq, s_key rq) = None)).
Proof using Type.
  intros Hok Hr. pose proof (reach_life Hok _ _ _ Hr) as L. split; [by apply life_answers|]. intros rq R.
  destruct (set_life Hok onflash h M rq L R) as (h' & rc & ra & Hs & _ & Hrc). by exists h', rc, ra.
Qed.

(** A directory with fewer entries than it was made for rejects an
    insertion only when there is a free node that the insertion does not see:
    one of another lock past the number of indexes per lock, where the scan of
    the free lists stops, or one of a lock whose bit in the map is clear. *)
Theorem rejected_insertion onflash h M rq h' ra : shard_ok -> reach onflash h M -> request_ok M rq ->
  slab_set onflash h rq = Some (h', FLASH_ENOSPC, ra) -> alloc_count h < hash_size h -> exists l p, unseen_node h (syn_of rq) l p.
Proof using Type.
  intros Hok Hr R Hs Hc. pose proof (reach_life Hok _ _ _ Hr) as L. destruct (lo_rep _ _ _ L) as (cs & fs & H).
  destruct (slab_set_ok _ (so_seg Hok) onflash h M cs fs rq H (life_rq _ _ _ _ L R)) as (h2 & rc & ra2 & cs' & fs' & Hs2 & _ & _ & Hrc). rewrite Hs in Hs2. injection Hs2 as <- <- <-.
  destruct Hrc as [E|(_ & _ & _ & Hno)]; [by apply set_spec_rc in E|]. eapply no_room_reason; [apply H|apply (lo_cap _ _ _ L)|apply u64_range|done|done].
Qed.

(** The lock of an object found through its block address is the lock found
    through its hash. *)
Theorem lock_by_address onflash h M cntr key o : shard_ok -> reach onflash h M -> sh_storm sh = false -> M !! (cntr, key) = Some o -> ob_addr o < 2 ^ 32 ->
  hash_table_find_lock h (ob_addr o) ADDR = hash_table_find_lock h (hashck key 0 cntr) SYN.
Proof using Type.
  intros Hok Hr Hst HM Ha. pose proof (reach_life Hok _ _ _ Hr) as L. destruct (lo_rep _ _ _ L) as (cs & fs & H).
  apply (l_map _ _ _ (r_list _ _ _ _ _ _ H)) in HM as (e & He & <- & Hf & ->). apply in_bucket in He as (b & c & Hb & He). destruct (r_place _ _ _ _ _ _ H b c e Hb He) as [k Hk].
  pose proof (e_onflash _ _ _ _ _ _ Hk) as Hf'. assert (k = key) as -> by congruence. pose proof (e_addr _ _ _ _ _ _ Hk) as (H0 & _). pose proof (e_leads _ _ _ _ _ _ Hk) as Hl. cbn [object_of ob_addr] in *.
  unfold hash_table_find_lock, addr_leads in *. destruct (addr_table h) as [t|] eqn:Et.
  - destruct Hl as (v & Hv & Hr2 & Hd). cbn [mbind option_bind]. rewrite u32_small by lia. unfold at_. rewrite (proj2 (Z.ltb_ge _ _)), Hv by done. cbn [mbind option_bind]. f_equal. unfold lock_of_syn.
    rewrite (bucket_lock _ _ _ _ _ _ _ (r_ok _ _ _ _ _ _ H) Hd). symmetry. apply (bucket_lock _ _ _ _ _ _ _ (r_ok _ _ _ _ _ _ H)). apply (e_bucket _ _ _ _ _ _ Hk).
  - pose proof (lo_mode _ _ _ L) as Hm. unfold mode_ok in Hm. rewrite Et in Hm. apply Hm in Hst. by destruct Hst.
Qed.

(** C21: The rollback of a write, when its key is not cached, restores the
    directory: the object has its previous version, or is gone if it was new.
    All other objects are as before. *)
Theorem rollback_write onflash h M rq a n del h1 ra orig : shard_ok -> reach onflash h M -> request_ok M rq -> s_data rq = Some (a, n, del) ->
  slab_set onflash h rq = Some (h1, FLASH_EOK, ra) -> lookup_entry seg_blks onflash h (s_key rq) (s_cntr rq) = Some orig -> sh_keycache sh = false \/ length (s_key rq) <> 8%nat ->
  exists h', mcd_osd_trx_revert h1 a orig (syn_of rq) = Some (h', Some a) /\ answers (on_write onflash a (s_key rq)) h' M.
Proof using Type.
  intros Hok Hr R Ed Hs Hl Hk. pose proof (reach_life Hok _ _ _ Hr) as L. destruct (undo_write_life Hok onflash h M rq a n del h1 ra orig L R Ed Hs Hl Hk) as (h' & Hu & L').
  exists h'. split; [done|]. by apply life_answers.
Qed.

(** The rollback of a deletion always finds room for the entry, and
    restores the directory. *)
Theorem rollback_delete onflash h M rq h1 ra e : shard_ok -> reach onflash h M -> request_ok M rq -> s_data rq = None ->
  slab_set onflash h rq = Some (h1, FLASH_EOK, ra) -> lookup_entry seg_blks onflash h (s_key rq) (s_cntr rq) = Some (Some e) ->
  exists h', mcd_osd_trx_insert h1 (syn_of rq) e = Some (h', true) /\ answers onflash h' M.
Proof using Type.
  intros Hok Hr R Ed Hs Hl. pose proof (reach_life Hok _ _ _ Hr) as L. destruct (undo_delete_life Hok onflash h M rq h1 ra e L R Ed Hs Hl) as (h' & Hu & L').
  exists h'. split; [done|]. by apply life_answers.
Qed.

(** C20: in every such state of the directory, the deletion of a container ends
    without a failed assertion, although entries move and nodes are freed under
    its scan; afterwards the objects of the container are gone and all others are
    there. *)
Theorem container_deleted onflash h M cguid : shard_ok -> reach onflash h M ->
  exists h', delete_all_objects seg_blks (sh_storm sh) h cguid = Some h' /\ answers onflash h' (filter (fun kv => kv.1.1 <> cguid) M).
Proof using Type.
  intros Hok Hr. destruct (clear_life Hok onflash h M cguid (reach_life Hok _ _ _ Hr)) as (h' & Hd & L'). exists h'. split; [done|]. by apply life_answers.
Qed.

(** Recovery rebuilds the directory from the object table: for at most as
    many objects as the directory has hash indexes, it does not abort, and a
    search then finds exactly the recorded objects. *)
Theorem recovery_rebuilds onflash objs h0 M : shard_ok -> sh_init = Some h0 -> table_of (sh_storm sh) onflash h0 objs M -> lenZ objs <= sh_blks -> nobjs objs <= hash_size h0 ->
  exists h, update_hash_table seg_blks (sh_storm sh) (sh_segments sh) sh_blks 0 objs h0 = Some h /\ answers onflash h M.
Proof using Type.
  intros Hok Hi T Hl Hn. destruct (load_life Hok onflash objs h0 M Hi T Hl Hn) as (h & Hu & L). exists h. split; [done|]. by apply life_answers.
Qed.
End life.

(** ** Faults *)

(** A small shard: 512 blocks, 768 hash indexes, 48 locks of 16 indexes each,
    and room for 240 nodes. *)
Definition ex_shard : shard := mk_shard 1 16 false (fun _ => 0) 512 0 true 32.

Definition ex_write (key : String.string) (a : Z) : set_request := mk_set_request (String.list_byte_of_string key) 1 false false (Some (a, 1, false)) false.
Definition ex_delete (key : String.string) : set_request := mk_set_request (String.list_byte_of_string key) 1 false false None false.

(** Requests in turn, as long as they do not fail and each writes to a block that
    none has written to before; [blks] are the blocks written. *)
Definition request_okb (sh : shard) (blks : list Z) (rq : set_request) : bool :=
  negb (bool_decide (s_key rq = [])) && negb (s_cntr rq =? 0) &&
  match s_data rq with
  | Some (a, n, _) => negb (n =? 0) && (0 <=? a) && (a <? sh_blks sh) && negb (existsb (Z.eqb a) blks)
  | None => true
  end.

Fixpoint run (sh : shard) (onflash : Z -> option (list byte)) (h : hash_handle) (M : directory) (blks : list Z) (rqs : list set_request)
    : option ((Z -> option (list byte)) * hash_handle * directory) :=
  match rqs with
  | [] => Some (onflash, h, M)
  | rq :: rqs =>
      if request_okb sh blks rq then
        match mcd_fth_osd_slab_set (sh_segment_blks sh) onflash h rq with
        | Some (h, rc, _) =>
            run sh (flash_after onflash rq rc) h (next_map M rq rc) (match s_data rq with Some (a, _, _) => a :: blks | None => blks end) rqs
        | None => None
        end
      else None
  end.

Definition written (M : directory) (blks : list Z) : Prop := forall id o, M !! id = Some o -> ob_addr o ∈ blks.

Lemma request_okb_ok sh M blks rq : written M blks -> request_okb sh blks rq = true -> request_ok sh M rq.
Proof.
  intros Hw. unfold request_okb. intros H. apply andb_true_iff in H as [H Hd]. apply andb_true_iff in H as [Hk Hc]. apply negb_true_iff in Hk, Hc. apply bool_decide_eq_false in Hk. apply Z.eqb_neq in Hc.
  split; [done|done|]. intros a n del E. rewrite E in Hd. apply andb_true_iff in Hd as [Hd Hm]. apply andb_true_iff in Hd as [Hd Ha]. apply andb_true_iff in Hd as [Hn H0].
  apply negb_true_iff, Z.eqb_neq in Hn. apply Z.leb_le in H0. apply Z.ltb_lt in Ha. split; [done|]. split; [done|]. intros id o Ho Eo. specialize (Hw id o Ho). rewrite Eo in Hw.
  assert (existsb (Z.eqb a) blks = true); [|by rewrite H in Hm]. apply existsb_exists. exists a. split; [by apply list_elem_of_In|apply Z.eqb_refl].
Qed.

Lemma written_next M blks rq rc : written M blks -> written (next_map M rq rc) (match s_data rq with Some (a, _, _) => a :: blks | None => blks end).
Proof.
  intros Hw. assert (written M (match s_data rq with Some (a, _, _) => a :: blks | None => blks end)) as Hw'.
  { intros id o Ho. destruct (s_data rq) as [[[a n] del]|]; [right|]; by eapply Hw. }
  assert (forall id o, snd (set_spec M rq) !! id = Some o -> ob_addr o ∈ match s_data rq with Some (a, _, _) => a :: blks | None => blks end) as Hs; [|by destruct rc].
  intros id o. unfold set_spec. destruct (too_big rq); [apply Hw'|]. destruct (M !! _), (s_data rq) as [[[a n] del]|]; [destruct (test_exist rq)|destruct (test_exist rq)|destruct (test_nonexist rq)|]; cbn; try apply Hw';
    [|intros [_ Ho]%lookup_delete_Some; by eapply Hw|]; intros [[_ <-]|[_ Ho]]%lookup_insert_Some; try (cbn; left); right; by eapply Hw.
Qed.

Lemma run_reach sh rqs : forall onflash h M blks onflash' h' M', run sh onflash h M blks rqs = Some (onflash', h', M') -> written M blks -> reach sh onflash h M -> reach sh onflash' h' M'.
Proof.
  induction rqs as [|rq rqs IH]; intros f h M blks f' h' M' E Hw Hr; cbn [run] in E; [by injection E as <- <- <-|].
  destruct (request_okb sh blks rq) eqn:Ek; [|done]. destruct (mcd_fth_osd_slab_set _ f h rq) as [[[h1 rc] ra]|] eqn:Es; [|done].
  apply (IH _ _ _ _ _ _ _ E); [by apply written_next|]. eapply reach_set; [done|by eapply request_okb_ok|done].
Qed.

(** A shard with 512 hash indexes, 32 locks of 16 indexes each, and 160 nodes. *)
Definition ex_full : shard := mk_shard 1 16 false (fun _ => 0) 2048 400 false 128.

(** Objects whose locks are past the first 16: written until there is no room,
    and deleted. *)
Definition far_keys (n : nat) : list Z := filter (fun i => 256 <= hashck (le_split 4 i) 0 1 mod 512) (n2z <$> seq 1 n).
Definition write_then_delete (js : list Z) : list set_request :=
  ((fun i => mk_set_request (le_split 4 i) 1 false false (Some (i, 1, false)) false) <$> js) ++
  ((fun i => mk_set_request (le_split 4 i) 1 false false None false) <$> js).
Definition near_write : set_request := mk_set_request (le_split 4 5) 1 false false (Some (5, 1, false)) false.

Definition rejects (r : option (hash_handle * flash_rc * option Z)) : bool := match r with Some (_, FLASH_ENOSPC, _) => true | _ => false end.

(** After the requests, the directory is empty and rejects the write [w]. *)
Definition full_when_empty (sh : shard) (size : Z) (rqs : list set_request) (w : set_request) : bool :=
  match sh_init sh with
  | Some h =>
      match run sh (fun _ => None) h ∅ [] rqs with
      | Some (onflash, h, M) => (alloc_count h =? 0) && (hash_size h =? size) && bool_decide (M = ∅) && rejects (mcd_fth_osd_slab_set (sh_segment_blks sh) onflash h w)
      | None => false
      end
  | None => false
  end.

Lemma full_when_empty_ok sh size rqs w : full_when_empty sh size rqs w = true ->
  exists onflash h h' ra, reach sh onflash h ∅ /\ alloc_count h = 0 /\ hash_size h = size /\ mcd_fth_osd_slab_set (sh_segment_blks sh) onflash h w = Some (h', FLASH_ENOSPC, ra).
Proof.
  unfold full_when_empty. destruct (sh_init sh) as [h0|] eqn:Ei; [|done]. destruct (run _ _ h0 ∅ [] _) as [[[f h] M]|] eqn:Er; [|done]. intros H.
  apply andb_true_iff in H as [H Hs]. apply andb_true_iff in H as [H HM%bool_decide_eq_true]. apply andb_true_iff in H as [Ha%Z.eqb_eq Hh%Z.eqb_eq]. subst M.
  unfold rejects in Hs. destruct (mcd_fth_osd_slab_set _ f h w) as [[[h' rc] ra]|] eqn:Es; [|done]. destruct rc; try done. exists f, h, h', ra. split; [|done].
  eapply run_reach; [exact Er|intros id o; by rewrite lookup_empty|by apply reach_new].
Qed.

Lemma full_run : full_when_empty ex_full 512 (write_then_delete (far_keys 1270)) near_write = true.
Proof. vm_cast_no_check (eq_refl true). Qed.

Lemma near_write_ok : request_ok ex_full ∅ near_write.
Proof. apply (request_okb_ok ex_full ∅ []); [intros id o; by rewrite lookup_empty|vm_compute; reflexivity]. Qed.

(** An empty directory can reject a write: there is a history of writes and
    deletions after which no object is left, all nodes are on free lists of locks
    past the number of indexes per lock, and the write of a new object finds no
    room. *)
Theorem empty_table_is_full : exists onflash h h' ra, reach ex_full onflash h ∅ /\ alloc_count h = 0 /\ hash_size h = 512 /\
  mcd_fth_osd_slab_set 16 onflash h near_write = Some (h', FLASH_ENOSPC, ra).
Proof. exact (full_when_empty_ok ex_full 512 _ near_write full_run). Qed.

(** Write an object to block [a], roll the write back, and write another object
    to the same block. The block that a search for the first key gives, and the
    key there. *)
Definition handle_after (r : option (hash_handle * flash_rc * option Z)) : option hash_handle := (fun r => fst (fst r)) <$> r.

Definition rolled_back_search (w1 w2 : set_request) (a : Z) : option (option Z * option (list byte)) :=
  h ← sh_init ex_shard;
  h ← handle_after (mcd_fth_osd_slab_set 16 (fun _ => None) h w1);
  r ← mcd_osd_trx_revert h a None (hashck (s_key w1) 0 (s_cntr w1));
  h ← handle_after (mcd_fth_osd_slab_set 16 (on_write (fun _ => None) a (s_key w1)) (fst r) w2);
  e ← lookup_entry 16 (on_write (fun _ => None) a (s_key w2)) h (s_key w1) (s_cntr w1);
  Some (fmap (M := option) blkaddress e, on_write (fun _ => None) a (s_key w2) a).

(** The rollback of a write leaves its key in the cache. When another
    object, whose key has the same 16 bits of hash and the same bucket, is then
    written to the block, a search for the first key finds it. *)
Theorem rolled_back_key_found : rolled_back_search (ex_write "k0013150"%string 5) (ex_write "n00000063"%string 5) 5 = Some (Some 5, Some (String.list_byte_of_string "n00000063"%string)).
Proof. vm_compute. reflexivity. Qed.

(** ** Witnesses *)

Lemma ex_ok : shard_ok ex_shard.
Proof. split; [done|done|done|by right|split; [|left]; vm_compute; congruence|vm_compute; congruence]. Qed.

Definition no_handle : hash_handle := mk_hash_handle 0 0 None 0 [] 0 0 [] 0 0 [] [] None 0.
Definition ex_h0 : hash_handle := default no_handle (sh_init ex_shard).
Definition ex_key : list byte := String.list_byte_of_string "obj"%string.
Definition ex_h1 : hash_handle := default no_handle ((fun r => r.1.1) <$> mcd_fth_osd_slab_set 16 (fun _ => None) ex_h0 (ex_write "obj"%string 5)).
Definition ex_flash : Z -> option (list byte) := on_write (fun _ => None) 5 ex_key.
Definition ex_map : directory := {[ (1, ex_key) := mk_object 5 1 false ]}.

Lemma ex_reach0 : reach ex_shard (fun _ => None) ex_h0 ∅.
Proof. apply reach_new. vm_compute. reflexivity. Qed.

Lemma ex_request0 : request_ok ex_shard ∅ (ex_write "obj"%string 5).
Proof. split; [done|done|]. intros a n del [= <- <- <-]. split; [done|]. split; [vm_compute; split; congruence|]. intros id o. by rewrite lookup_empty. Qed.

Lemma ex_set : mcd_fth_osd_slab_set 16 (fun _ => None) ex_h0 (ex_write "obj"%string 5) = Some (ex_h1, FLASH_EOK, Some 5).
Proof. vm_compute. reflexivity. Qed.

Lemma ex_reach1 : reach ex_shard ex_flash ex_h1 ex_map.
Proof.
  pose proof (reach_set ex_shard (fun _ => None) ex_h0 ∅ (ex_write "obj"%string 5) ex_h1 FLASH_EOK (Some 5) ex_reach0 ex_request0 ex_set) as H.
  unfold next_map, set_spec in H. rewrite lookup_empty in H. exact H.
Qed.

Lemma ex_request1 : request_ok ex_shard ex_map (ex_write "obj"%string 7).
Proof.
  split; [done|done|]. intros a n del [= <- <- <-]. split; [done|]. split; [vm_compute; split; congruence|].
  intros id o Ho. unfold ex_map in Ho. apply lookup_singleton_Some in Ho as [_ <-]. done.
Qed.

Lemma directory_refines_witness : shard_ok ex_shard /\ answers ex_shard ex_flash ex_h1 ex_map.
Proof. split; [apply ex_ok|]. apply (directory_refines ex_shard ex_flash ex_h1 ex_map ex_ok ex_reach1). Defined.

Lemma lock_by_address_witness : hash_table_find_lock ex_h1 5 ADDR = hash_table_find_lock ex_h1 (hashck ex_key 0 1) SYN.
Proof. apply (lock_by_address ex_shard ex_flash ex_h1 ex_map 1 ex_key (mk_object 5 1 false) ex_ok ex_reach1); [reflexivity|reflexivity|done]. Defined.

Lemma container_deleted_witness : exists h', delete_all_objects 16 false ex_h1 1 = Some h' /\ answers ex_shard ex_flash h' (filter (fun kv => kv.1.1 <> 1) ex_map).
Proof. apply (container_deleted ex_shard ex_flash ex_h1 ex_map 1 ex_ok ex_reach1). Defined.

Lemma full_ok : shard_ok ex_full.
Proof. split; [done|done|done|by right|split; [|left]; vm_compute; congruence|vm_compute; congruence]. Qed.

Lemma rejected_insertion_witness : exists onflash h l p, reach ex_full onflash h ∅ /\ unseen_node h (hashck (s_key near_write) 0 1) l p.
Proof.
  destruct (full_when_empty_ok ex_full 512 _ near_write full_run) as (onflash & h & h' & ra & Hr & Ha & Hs & Hw).
  destruct (rejected_insertion ex_full onflash h ∅ near_write h' ra full_ok Hr near_write_ok Hw ltac:(lia)) as (l & p & Hu). exists onflash, h, l, p. split; [exact Hr|exact Hu].
Defined.

Definition ex_h2 : hash_handle := default no_handle (handle_after (mcd_fth_osd_slab_set 16 ex_flash ex_h1 (ex_write "obj"%string 7))).
Definition ex_entry : hash_entry := mk_hash_entry true false true false 1 (u16 (Z.shiftr (hashck ex_key 0 1) 48)) 5 1.
Definition ex_h3 : hash_handle := default no_handle (handle_after (mcd_fth_osd_slab_set 16 ex_flash ex_h1 (ex_delete "obj"%string))).

Lemma rollback_write_witness : exists h', mcd_osd_trx_revert ex_h2 7 (Some ex_entry) (hashck ex_key 0 1) = Some (h', Some 7) /\ answers ex_shard (on_write ex_flash 7 ex_key) h' ex_map.
Proof.
  apply (rollback_write ex_shard ex_flash ex_h1 ex_map (ex_write "obj"%string 7) 7 1 false ex_h2 (Some 7) (Some ex_entry) ex_ok ex_reach1 ex_request1);
    [reflexivity|vm_compute; reflexivity|vm_compute; reflexivity|right; done].
Defined.

Lemma rollback_delete_witness : exists h', mcd_osd_trx_insert ex_h3 (hashck ex_key 0 1) ex_entry = Some (h', true) /\ answers ex_shard ex_flash h' ex_map.
Proof.
  apply (rollback_delete ex_shard ex_flash ex_h1 ex_map (ex_delete "obj"%string) ex_h3 (Some 0) ex_entry ex_ok ex_reach1); [by split|reflexivity|vm_compute; reflexivity|vm_compute; reflexivity].
Defined.

(** The object table of the shard after the write: block 5 has the object. *)
Definition ex_blank : mcd_rec_flash_object := mk_mcd_rec_flash_object 0 false 0 0 0.
Definition ex_obj : mcd_rec_flash_object := mk_mcd_rec_flash_object (u16 (Z.shiftr (hashck ex_key 0 1) 48)) false 1 (hashck ex_key 0 1 mod 768) 1.
Definition ex_objs : list mcd_rec_flash_object := replicate 5 ex_blank ++ [ex_obj; ex_blank].

Lemma ex_objs_lookup a obj : ex_objs !! a = Some obj -> (a = 5%nat /\ obj = ex_obj) \/ (a <> 5%nat /\ obj = ex_blank).
Proof. unfold ex_objs. do 7 (destruct a as [|a]; [intros [= <-]; auto|]). by cbn. Qed.

Lemma ex_obj_ok : obj_ok false ex_h0 ex_obj ex_key.
Proof.
  assert (hash_size ex_h0 = 768) as E by (vm_compute; reflexivity). split; [discriminate|discriminate|discriminate|reflexivity|]. rewrite E. reflexivity.
Qed.

Lemma ex_table : table_of false ex_flash ex_h0 ex_objs ex_map.
Proof.
  split.
  - intros a obj [[-> ->]|[_ ->]]%ex_objs_lookup Hb; [|done]. exists ex_key. split; [reflexivity|]. split; [apply ex_obj_ok|]. apply lookup_singleton_eq.
  - intros a obj [[_ ->]|[_ ->]]%ex_objs_lookup; cbn; lia.
  - intros a obj [[_ ->]|[_ ->]]%ex_objs_lookup; done.
  - intros cntr key o Ho. unfold ex_map in Ho. apply lookup_singleton_Some in Ho as [[= <- <-] <-]. split; [done|]. split; [reflexivity|]. exists ex_obj. split; [reflexivity|]. split; [discriminate|reflexivity].
  - intros a obj a' obj' [[-> ->]|[_ ->]]%ex_objs_lookup Hb Ha; [|done]. exfalso. change (power_of_two_roundup (o_blocks ex_obj)) with 1 in Ha. lia.
Qed.

Lemma recovery_rebuilds_witness : exists h, update_hash_table 16 false 32 512 0 ex_objs ex_h0 = Some h /\ answers ex_shard ex_flash h ex_map.
Proof. apply (recovery_rebuilds ex_shard ex_flash ex_objs ex_h0 ex_map ex_ok); [vm_compute; reflexivity|apply ex_table|vm_compute; congruence|vm_compute; congruence]. Defined.
