(* ===== verification/Slab.v ===== *)
(** * The slab allocator of a shard (ssd/fifo/mcd_osd.c)

    A shard divides its flash space into segments. A segment belongs to a class,
    whose slabs have [2^i] blocks, or is free. The segment has a bit map of its
    slabs in use and the number of slabs handed out in sequence; the class has a
    list of its segments, and for each thread a stack of freed slabs and a hand
    where the search of the bit maps goes on. A slab is allocated from the stack,
    from the next unused place of a segment, by a search of the bit maps, or from
    a new segment of the class.

    Segments are numbers, the indexes of [base_segments]; a null pointer is
    [None]. The stacks are lists, the top first. [None] as the result of a
    function stands for a failed assertion, a null pointer or an access outside
    an array. The words of a bit map may have more bits than the memory allocated
    for it; those are what the memory holds, a parameter [junk] of the functions
    that create a map. Requests run one at a time, so a segment is always in use
    by one of them ([used] is left out), and the collector of slabs does not run.
    The lists of segments are written to flash without errors, and the check
    mode, which keeps a second map, is off. *)

From S2P Require Import Prelude HashTable.

(** ** Constants and data *)

Definition MCD_OSD_MAX_PTHREADS : nat := 128.
Definition MCD_OSD_MAX_NCLASSES : nat := 16.
Definition MCD_OSD_FREELIST_LEN : Z := 32768.
Definition MCD_OSD_FREELIST_MIN : Z := 64.
Definition MCD_OSD_SCAN_TBSIZE : Z := 4093.

(** The settings of the device. The number of threads is
    [num_sdf_threads * num_cores]. *)
Record geometry := mk_geometry {
  Mcd_osd_segment_size : Z;
  Mcd_osd_blk_size : Z;
  Mcd_aio_num_files : Z;
  num_threads : Z
}.

Record mcd_osd_segment := mk_segment {
  used_slabs : Z;
  sg_idx : nat;
  next_slab : Z;
  blk_offset : Z;
  mos_bitmap : option (list Z);
  sg_class : option nat
}.

Record mcd_osd_slab_class := mk_class {
  cl_used_slabs : Z;
  total_slabs : Z;
  dealloc_pending : Z;
  slab_blksize : Z;
  slabs_per_segment : Z;
  num_segments : nat;
  segments : list (option nat);
  freelist_len : Z;
  free_slabs : list (list Z);
  scan_hand : list Z
}.

Record slab_shard := mk_slab_shard {
  slab_classes : list mcd_osd_slab_class;
  class_table : list nat;
  base_segments : list mcd_osd_segment;
  segment_table : list (option nat);
  free_segments : list Z;
  blk_allocated : Z;
  blk_dealloc_pending : Z;
  total_blks : Z;
  total_segments : Z;
  num_stolen_slabs : Z;
  gc : bool;
  from_end : bool
}.

Definition set_segment (sh : slab_shard) (s : nat) (g : mcd_osd_segment) : slab_shard :=
  mk_slab_shard (slab_classes sh) (class_table sh) (<[s := g]> (base_segments sh)) (segment_table sh) (free_segments sh) (blk_allocated sh)
    (blk_dealloc_pending sh) (total_blks sh) (total_segments sh) (num_stolen_slabs sh) (gc sh) (from_end sh).
Definition set_class (sh : slab_shard) (c : nat) (cl : mcd_osd_slab_class) : slab_shard :=
  mk_slab_shard (<[c := cl]> (slab_classes sh)) (class_table sh) (base_segments sh) (segment_table sh) (free_segments sh) (blk_allocated sh)
    (blk_dealloc_pending sh) (total_blks sh) (total_segments sh) (num_stolen_slabs sh) (gc sh) (from_end sh).
Definition set_segment_table (sh : slab_shard) (t : list (option nat)) : slab_shard :=
  mk_slab_shard (slab_classes sh) (class_table sh) (base_segments sh) t (free_segments sh) (blk_allocated sh)
    (blk_dealloc_pending sh) (total_blks sh) (total_segments sh) (num_stolen_slabs sh) (gc sh) (from_end sh).
Definition set_free_segments (sh : slab_shard) (l : list Z) : slab_shard :=
  mk_slab_shard (slab_classes sh) (class_table sh) (base_segments sh) (segment_table sh) l (blk_allocated sh)
    (blk_dealloc_pending sh) (total_blks sh) (total_segments sh) (num_stolen_slabs sh) (gc sh) (from_end sh).
Definition set_blk_allocated (sh : slab_shard) (n : Z) : slab_shard :=
  mk_slab_shard (slab_classes sh) (class_table sh) (base_segments sh) (segment_table sh) (free_segments sh) n
    (blk_dealloc_pending sh) (total_blks sh) (total_segments sh) (num_stolen_slabs sh) (gc sh) (from_end sh).
Definition set_blk_pending (sh : slab_shard) (n : Z) : slab_shard :=
  mk_slab_shard (slab_classes sh) (class_table sh) (base_segments sh) (segment_table sh) (free_segments sh) (blk_allocated sh)
    n (total_blks sh) (total_segments sh) (num_stolen_slabs sh) (gc sh) (from_end sh).
Definition set_stolen (sh : slab_shard) (n : Z) : slab_shard :=
  mk_slab_shard (slab_classes sh) (class_table sh) (base_segments sh) (segment_table sh) (free_segments sh) (blk_allocated sh)
    (blk_dealloc_pending sh) (total_blks sh) (total_segments sh) n (gc sh) (from_end sh).

Definition seg_map (g : mcd_osd_segment) (used : Z) (bm : option (list Z)) : mcd_osd_segment :=
  mk_segment used (sg_idx g) (next_slab g) (blk_offset g) bm (sg_class g).
Definition seg_next (g : mcd_osd_segment) (n : Z) : mcd_osd_segment :=
  mk_segment (used_slabs g) (sg_idx g) n (blk_offset g) (mos_bitmap g) (sg_class g).

Definition class_used (cl : mcd_osd_slab_class) (n : Z) : mcd_osd_slab_class :=
  mk_class n (total_slabs cl) (dealloc_pending cl) (slab_blksize cl) (slabs_per_segment cl) (num_segments cl) (segments cl)
    (freelist_len cl) (free_slabs cl) (scan_hand cl).
Definition class_pending (cl : mcd_osd_slab_class) (n : Z) : mcd_osd_slab_class :=
  mk_class (cl_used_slabs cl) (total_slabs cl) n (slab_blksize cl) (slabs_per_segment cl) (num_segments cl) (segments cl)
    (freelist_len cl) (free_slabs cl) (scan_hand cl).
Definition class_segments (cl : mcd_osd_slab_class) (total : Z) (num : nat) (l : list (option nat)) : mcd_osd_slab_class :=
  mk_class (cl_used_slabs cl) total (dealloc_pending cl) (slab_blksize cl) (slabs_per_segment cl) num l
    (freelist_len cl) (free_slabs cl) (scan_hand cl).
Definition class_free (cl : mcd_osd_slab_class) (l : list (list Z)) : mcd_osd_slab_class :=
  mk_class (cl_used_slabs cl) (total_slabs cl) (dealloc_pending cl) (slab_blksize cl) (slabs_per_segment cl) (num_segments cl) (segments cl)
    (freelist_len cl) l (scan_hand cl).
Definition class_hand (cl : mcd_osd_slab_class) (l : list Z) : mcd_osd_slab_class :=
  mk_class (cl_used_slabs cl) (total_slabs cl) (dealloc_pending cl) (slab_blksize cl) (slabs_per_segment cl) (num_segments cl) (segments cl)
    (freelist_len cl) (free_slabs cl) l.

(** ** Tables for the search of bit maps *)

(** [1 << i], and the number of a bit from its mask modulo the size of the
    table; two masks with the same remainder abort the start of the program. *)
Fixpoint fill_scan_table (n : nat) (i mask : Z) (masks table : list Z) : option (list Z * list Z) :=
  match n with
  | O => Some (masks, table)
  | S n =>
      old ← at_ table (mask mod MCD_OSD_SCAN_TBSIZE);
      _ ← assert_ (old =? 255);
      table ← put_ table (mask mod MCD_OSD_SCAN_TBSIZE) i;
      fill_scan_table n (i + 1) (u64 (Z.shiftl mask 1)) (masks ++ [mask]) table
  end.

Fixpoint fill_scan_masks (n : nat) (mask : Z) : list Z :=
  match n with
  | O => []
  | S n => mask :: fill_scan_masks n (u64 (Z.shiftl mask 1 + 1))
  end.

Definition mcd_osd_slab_init : option (list Z * list Z * list Z) :=
  r ← fill_scan_table 64 0 1 [] (replicate (z2n MCD_OSD_SCAN_TBSIZE) 255);
  Some (r.1, r.2, fill_scan_masks 64 1).

Definition slab_tables : list Z * list Z * list Z := default ([], [], []) mcd_osd_slab_init.
Definition Mcd_osd_bitmap_masks : list Z := slab_tables.1.1.
Definition Mcd_osd_scan_table : list Z := slab_tables.1.2.
Definition Mcd_osd_scan_masks : list Z := slab_tables.2.

(** ** Slabs of a segment *)

(** The map of [slabs] slabs: memory for [(slabs + 7) / 8] bytes of which the
    first [zeroed] are cleared; the allocator gives out at least one word. *)
Definition new_bitmap (slabs zeroed junk : Z) : list Z :=
  let words := Z.max 1 (((slabs + 7) / 8 + 7) / 8) in
  (fun i => let clear := zeroed - 8 * n2z i in
            if 8 <=? clear then 0 else Z.ldiff (u64 junk) (Z.ones (8 * Z.max 0 clear))) <$> seq 0 (z2n words).

(** Take slab [offs] of a segment: its address, unless it is in use. *)
Definition mcd_osd_slab_slot_alloc (sh : slab_shard) (s : nat) (offs : Z) : option (option Z * slab_shard) :=
  g ← base_segments sh !! s;
  bm ← mos_bitmap g;
  tmp ← at_ bm (offs / 64);
  mask ← at_ Mcd_osd_bitmap_masks (offs mod 64);
  bm ← put_ bm (offs / 64) (Z.lor tmp mask);
  if negb (Z.land tmp mask =? 0) then Some (None, set_stolen (set_segment sh s (seg_map g (used_slabs g) (Some bm))) (u64 (num_stolen_slabs sh + 1)))
  else
    c ← sg_class g;
    cl ← slab_classes sh !! c;
    let sh := set_class sh c (class_used cl (u64 (cl_used_slabs cl + 1))) in
    let sh := set_segment sh s (seg_map g (u32 (used_slabs g + 1)) (Some bm)) in
    Some (Some (blk_offset g + offs * slab_blksize cl), sh).

(** Clear the bits of [count] slabs from [offs] on. *)
Fixpoint clear_slots (count : nat) (bm : list Z) (offs : Z) : option (list Z) :=
  match count with
  | O => Some bm
  | S count =>
      word ← at_ bm (offs / 64);
      mask ← at_ Mcd_osd_bitmap_masks (offs mod 64);
      bm ← put_ bm (offs / 64) (Z.land word (u64 (Z.lnot mask)));
      clear_slots count bm (offs + 1)
  end.

Definition mcd_fth_osd_slab_dealloc_low (sh : slab_shard) (s : nat) (address : Z) (count : nat) : option slab_shard :=
  g ← base_segments sh !! s;
  c ← sg_class g;
  cl ← slab_classes sh !! c;
  bm ← mos_bitmap g;
  bm ← clear_slots count bm ((address - blk_offset g) / slab_blksize cl);
  let sh := set_class sh c (class_used cl (u64 (cl_used_slabs cl - n2z count))) in
  Some (set_segment sh s (seg_map g (u32 (used_slabs g - n2z count)) (Some bm))).

(** ** Segments *)

(** The segment if it is the one the class has at its index. *)
Definition mcd_osd_segment_lock (sh : slab_shard) (cl : mcd_osd_slab_class) (s : nat) : option (option nat) :=
  g ← base_segments sh !! s;
  p ← segments cl !! sg_idx g;
  Some (if decide (p = Some s) then Some s else None).

Definition mcd_osd_segment_get_and_lock (sh : slab_shard) (cl : mcd_osd_slab_class) (i : nat) : option (option nat) :=
  p ← segments cl !! i;
  match p with Some s => mcd_osd_segment_lock sh cl s | None => Some None end.

Section geo.
Context (geo : geometry).

Definition Mcd_osd_segment_blks : Z := Mcd_osd_segment_size geo / Mcd_osd_blk_size geo.
Definition Mcd_aio_strip_size : Z := Mcd_osd_segment_size geo / Mcd_aio_num_files geo.

Definition mcd_osd_get_free_segments_count (sh : slab_shard) : Z :=
  (if blk_allocated sh <? total_blks sh then (total_blks sh - blk_allocated sh) / Mcd_osd_segment_blks else 0) + lenZ (free_segments sh).

Definition mcd_fth_osd_allocate_segment (sh : slab_shard) : Z * slab_shard :=
  match free_segments sh with
  | a :: l => (a, set_free_segments sh l)
  | [] => (total_blks sh + 1, sh)
  end.

(** The first place without a segment among the [n] places from [i] on. *)
Fixpoint mcd_osd_slab_segments_get_free_slot (l : list (option nat)) (n i : nat) : nat :=
  match n, l with
  | S n, Some _ :: l => mcd_osd_slab_segments_get_free_slot l n (S i)
  | _, _ => i
  end.

(** Remove a segment from its class, if it is there. *)
Definition mcd_osd_slab_segments_free_slot (cl : mcd_osd_slab_class) (idx s : nat) : option (option mcd_osd_slab_class) :=
  p ← segments cl !! idx;
  Some (if decide (p = Some s) then Some (class_segments cl (total_slabs cl) (num_segments cl) (<[idx := None]> (segments cl))) else None).

Definition mcd_osd_assign_segment (junk : nat -> Z) (sh : slab_shard) (c : nat) (address : Z) : option (nat * slab_shard) :=
  cl ← slab_classes sh !! c;
  let more := n2z (num_segments cl) <? total_segments sh in
  let seg_idx := if more then num_segments cl else mcd_osd_slab_segments_get_free_slot (segments cl) (num_segments cl) 0 in
  let num := if more then S (num_segments cl) else num_segments cl in
  _ ← assert_ (seg_idx <? num)%nat;
  let s := z2n (address / Mcd_osd_segment_blks) in
  g ← base_segments sh !! s;
  _ ← assert_ (bool_decide (mos_bitmap g = None));
  let slabs := slabs_per_segment cl in
  let g := mk_segment (used_slabs g) seg_idx (next_slab g) address (Some (new_bitmap slabs ((slabs + 7) / 8) (junk s))) (Some c) in
  t ← put_ (segment_table sh) (n2z s) (Some s);
  l ← put_ (segments cl) (n2z seg_idx) (Some s);
  let cl := class_segments cl (u64 (total_slabs cl + slabs)) num l in
  Some (seg_idx, set_class (set_segment_table (set_segment sh s g) t) c cl).

(** A new segment for the class: the next one of the shard, or a freed one. *)
Definition mcd_fth_osd_grow_class (junk : nat -> Z) (sh : slab_shard) (c : nat) : option (option nat * slab_shard) :=
  let address := blk_allocated sh in
  let '(address, sh) :=
    if total_blks sh <? address + Mcd_osd_segment_blks then
      match free_segments sh with [] => (address, sh) | _ :: _ => mcd_fth_osd_allocate_segment sh end
    else (if from_end sh then total_blks sh - Mcd_osd_segment_blks - address else address, set_blk_allocated sh (address + Mcd_osd_segment_blks)) in
  if total_blks sh <? address + Mcd_osd_segment_blks then Some (None, sh)
  else r ← mcd_osd_assign_segment junk sh c address; Some (Some r.1, r.2).

(** Drop the places without a segment at the end of the list. *)
Fixpoint trim_segments (l : list (option nat)) (n : nat) : nat :=
  match n with
  | O => O
  | S n' => match l !! n' with Some None => trim_segments l n' | _ => n end
  end.

Definition mcd_fth_osd_free_segment (sh : slab_shard) (s : nat) : option slab_shard :=
  g ← base_segments sh !! s;
  c ← sg_class g;
  cl ← slab_classes sh !! c;
  _ ← assert_ (used_slabs g =? 0);
  let cl := class_segments cl (u64 (total_slabs cl - slabs_per_segment cl)) (trim_segments (segments cl) (num_segments cl)) (segments cl) in
  let sh := set_class (set_segment sh s (seg_next g 0)) c cl in
  Some (set_free_segments sh (blk_offset g :: free_segments sh)).

(** Called when the last slab of a segment is freed. *)
Definition mcd_fth_osd_shrink_class (sh : slab_shard) (s : nat) : option slab_shard :=
  g ← base_segments sh !! s;
  c ← sg_class g;
  cl ← slab_classes sh !! c;
  r ← mcd_osd_slab_segments_free_slot cl (sg_idx g) s;
  match r with
  | None => Some sh
  | Some cl' => if used_slabs g =? 0 then mcd_fth_osd_free_segment (set_class sh c cl') s else Some sh
  end.

(** ** Allocation *)

(** A slab of the stack of the thread that is not in use. *)
Fixpoint take_free_slab (sh : slab_shard) (c pth : nat) (stack : list Z) : option (option Z * slab_shard) :=
  match stack with
  | [] => Some (None, sh)
  | address :: stack =>
      cl ← slab_classes sh !! c;
      l ← put_ (free_slabs cl) (n2z pth) stack;
      let cl := class_free cl l in
      let sh := set_class sh c cl in
      p ← at_ (segment_table sh) (address / Mcd_osd_segment_blks);
      s ← p;
      locked ← mcd_osd_segment_lock sh cl s;
      match locked with
      | None => take_free_slab sh c pth stack
      | Some s =>
          g ← base_segments sh !! s;
          r ← mcd_osd_slab_slot_alloc sh s ((address - blk_offset g) / slab_blksize cl);
          match r with
          | (Some _, sh) => Some (Some address, sh)
          | (None, sh) => take_free_slab sh c pth stack
          end
      end
  end.

Definition mcd_fth_osd_get_free_slab (sh : slab_shard) (c pth : nat) : option (option Z * slab_shard) :=
  cl ← slab_classes sh !! c;
  stack ← free_slabs cl !! pth;
  take_free_slab sh c pth stack.

(** The number of the first clear bit of a word, when there is one. *)
Definition scan_word (map_value : Z) : option (option Z) :=
  if Z.lxor map_value (Z.ones 64) =? 0 then Some None
  else
    let temp := Z.land (u64 (map_value + 1)) (Z.lxor map_value (Z.ones 64)) in
    tmp_offset ← at_ Mcd_osd_scan_table (temp mod MCD_OSD_SCAN_TBSIZE);
    Some (Some tmp_offset).

(** The first clear bit of each segment, with the hand that all threads
    share. *)
Fixpoint scan_small (n : nat) (sh : slab_shard) (c : nat) (hand : Z) : option (option Z * slab_shard) :=
  match n with
  | O => Some (None, sh)
  | S n =>
      cl ← slab_classes sh !! c;
      locked ← mcd_osd_segment_get_and_lock sh cl (z2n (hand mod n2z (num_segments cl)));
      r ← (match locked with
           | None => Some (None, sh)
           | Some s =>
               g ← base_segments sh !! s;
               bm ← mos_bitmap g;
               map_value ← at_ bm 0;
               t ← scan_word map_value;
               match t with
               | Some tmp_offset => if tmp_offset <? slabs_per_segment cl then mcd_osd_slab_slot_alloc sh s tmp_offset else Some (None, sh)
               | None => Some (None, sh)
               end
           end);
      match r with
      | (Some address, sh) => Some (Some address, sh)
      | (None, sh) =>
          cl ← slab_classes sh !! c;
          h ← scan_hand cl !! 0%nat;
          let h := u32 (h + 1) in
          scan_small n (set_class sh c (class_hand cl (<[0%nat := h]> (scan_hand cl)))) c h
      end
  end.

(** The words of a map from slab [map_offset] to [limit], the end of the part of
    the thread. *)
Fixpoint scan_part (fuel : nat) (sh : slab_shard) (s : nat) (map_offset limit : Z) : option (option (Z * Z) * slab_shard) :=
  if limit <=? map_offset then Some (None, sh)
  else
    match fuel with
    | O => None
    | S fuel =>
        g ← base_segments sh !! s;
        bm ← mos_bitmap g;
        map_value ← at_ bm (map_offset / 64);
        map_value ← (if map_offset mod 64 =? 0 then Some map_value
                     else m ← at_ Mcd_osd_scan_masks (map_offset mod 64 - 1); Some (Z.lor map_value m));
        t ← scan_word map_value;
        r ← (match t with
             | None => Some (None, sh)
             | Some bit =>
                 let tmp_offset := map_offset / 64 * 64 + bit in
                 if tmp_offset <? limit
                 then r ← mcd_osd_slab_slot_alloc sh s tmp_offset;
                      Some (match r.1 with Some address => Some (address, tmp_offset) | None => None end, r.2)
                 else Some (None, sh)
             end);
        match r with
        | (Some found, sh) => Some (Some found, sh)
        | (None, sh) => scan_part fuel sh s (map_offset + (64 - map_offset mod 64)) limit
        end
    end.

(** The part of the thread in each segment, from the hand of the thread on. *)
Fixpoint scan_large (n : nat) (sh : slab_shard) (c pth : nat) (slabs_per_pth hand : Z) : option (option Z * slab_shard) :=
  cl ← slab_classes sh !! c;
  match n with
  | O => l ← put_ (scan_hand cl) (n2z pth) hand; Some (None, set_class sh c (class_hand cl l))
  | S n =>
      let next := u32 (hand + (slabs_per_pth - hand mod slabs_per_pth)) in
      locked ← mcd_osd_segment_get_and_lock sh cl (z2n (hand / slabs_per_pth mod n2z (num_segments cl)));
      match locked with
      | None => scan_large n sh c pth slabs_per_pth next
      | Some s =>
          g ← base_segments sh !! s;
          if slabs_per_segment cl <=? used_slabs g then scan_large n sh c pth slabs_per_pth next
          else
            let first := n2z pth * slabs_per_pth in
            r ← scan_part (z2n slabs_per_pth) sh s (hand mod slabs_per_pth + first) (first + slabs_per_pth);
            match r with
            | (Some (address, tmp_offset), sh) =>
                cl ← slab_classes sh !! c;
                l ← put_ (scan_hand cl) (n2z pth) (u32 (tmp_offset - first + hand - hand mod slabs_per_pth));
                Some (Some address, set_class sh c (class_hand cl l))
            | (None, sh) => scan_large n sh c pth slabs_per_pth next
            end
      end
  end.

(** A slab of an existing segment, in store mode. *)
Definition mcd_fth_osd_get_slab (sh : slab_shard) (c pth : nat) : option (option Z * slab_shard) :=
  r ← mcd_fth_osd_get_free_slab sh c pth;
  match r with
  | (Some address, sh) => Some (Some address, sh)
  | (None, sh) =>
      cl ← slab_classes sh !! c;
      if (num_segments cl =? 0)%nat then Some (None, sh)
      else
        let slabs_per_pth := slabs_per_segment cl / num_threads geo in
        if slabs_per_pth <=? 1 then
          _ ← assert_ (slabs_per_segment cl <=? 64);
          hand ← scan_hand cl !! 0%nat;
          scan_small (num_segments cl) sh c hand
        else if cl_used_slabs cl <? total_slabs cl then
          hand ← scan_hand cl !! pth;
          scan_large (num_segments cl) sh c pth slabs_per_pth hand
        else Some (None, sh)
  end.

(** Take [count] slabs from [offs] on, as many as are free: how many. *)
Fixpoint take_slots (count : nat) (sh : slab_shard) (s : nat) (offs : Z) : option (nat * slab_shard) :=
  match count with
  | O => Some (O, sh)
  | S count =>
      r ← mcd_osd_slab_slot_alloc sh s offs;
      match r with
      | (Some _, sh) => r ← take_slots count sh s (offs + 1); Some (S r.1, r.2)
      | (None, sh) => Some (O, sh)
      end
  end.

(** The next [count] slabs of a segment. *)
Definition mcd_fth_osd_slab_alloc_low (sh : slab_shard) (s count : nat) : option (option Z * slab_shard) :=
  g ← base_segments sh !! s;
  c ← sg_class g;
  cl ← slab_classes sh !! c;
  let next := next_slab g in
  if slabs_per_segment cl <? next + n2z count then Some (None, sh)
  else
    let sh := set_segment sh s (seg_next g (u32 (next + n2z count))) in
    let address :=
      if slab_blksize cl <=? Mcd_aio_strip_size / Mcd_osd_blk_size geo
      then blk_offset g + next mod Mcd_aio_num_files geo * Mcd_aio_strip_size / Mcd_osd_blk_size geo + next / Mcd_aio_num_files geo * slab_blksize cl
      else blk_offset g + next * slab_blksize cl in
    r ← take_slots count sh s ((address - blk_offset g) / slab_blksize cl);
    if (r.1 <? count)%nat then sh ← mcd_fth_osd_slab_dealloc_low r.2 s address r.1; Some (None, sh)
    else Some (Some address, r.2).

(** From the last segment of the class down, the first one after which a segment
    has no room for [count] slabs in sequence. *)
Fixpoint find_unfilled (i : nat) (sh : slab_shard) (cl : mcd_osd_slab_class) (count idx : nat) : option nat :=
  match i with
  | O => Some idx
  | S i =>
      locked ← mcd_osd_segment_get_and_lock sh cl i;
      match locked with
      | None => find_unfilled i sh cl count idx
      | Some s =>
          g ← base_segments sh !! s;
          if slabs_per_segment cl <? next_slab g + n2z count then Some idx else find_unfilled i sh cl count i
      end
  end.

(** The outcome of a round of the allocation. *)
Inductive round := Allocated (n : nat) (address : Z) | Rejected | Again.

(** Once the segments have no room in sequence: search, then grow. *)
Definition search_or_grow (junk : nat -> Z) (sh : slab_shard) (c pth count : nat) : option (round * slab_shard) :=
  r ← (if (count <? 2)%nat then mcd_fth_osd_get_slab sh c pth else Some (None, sh));
  match r with
  | (Some address, sh) => Some (Allocated 1 address, sh)
  | (None, sh) =>
      r ← mcd_fth_osd_grow_class junk sh c;
      match r with
      | (Some _, sh) => Some (Again, sh)
      | (None, sh) =>
          r ← mcd_fth_osd_get_slab sh c pth;
          Some (match r.1 with Some address => Allocated 1 address | None => Rejected end, r.2)
      end
  end.

Definition alloc_round (junk : nat -> Z) (sh : slab_shard) (c pth count : nat) : option (round * slab_shard) :=
  cl ← slab_classes sh !! c;
  idx ← find_unfilled (num_segments cl) sh cl count (num_segments cl);
  if decide (idx = num_segments cl) then search_or_grow junk sh c pth count
  else
    locked ← mcd_osd_segment_get_and_lock sh cl idx;
    match locked with
    | None => Some (Again, sh)
    | Some s =>
        g ← base_segments sh !! s;
        r ← (if next_slab g + n2z count <=? slabs_per_segment cl then mcd_fth_osd_slab_alloc_low sh s count else Some (None, sh));
        match r with
        | (Some address, sh) => Some (Allocated count address, sh)
        | (None, sh) =>
            cl ← slab_classes sh !! c;
            p ← segments cl !! (num_segments cl - 1)%nat;
            if decide (p = Some s) then search_or_grow junk sh c pth count else Some (Again, sh)
        end
    end.

Fixpoint alloc_loop (fuel : nat) (junk : nat -> Z) (sh : slab_shard) (c pth count : nat) : option (nat * Z * slab_shard) :=
  match fuel with
  | O => None
  | S fuel =>
      r ← alloc_round junk sh c pth count;
      match r with
      | (Allocated n address, sh) => Some (n, address, sh)
      | (Rejected, sh) => Some (O, 0, sh)
      | (Again, sh) => alloc_loop fuel junk sh c pth count
      end
  end.

(** A round that is repeated has used up a place of a segment or a segment. *)
Definition alloc_fuel (sh : slab_shard) (cl : mcd_osd_slab_class) : nat :=
  S (length (base_segments sh) * S (z2n (slabs_per_segment cl))).

(** Slabs for objects of [blocks] blocks: how many of [count], and where. *)
Definition mcd_fth_osd_slab_alloc (junk : nat -> Z) (sh : slab_shard) (pth : nat) (nblocks : Z) (count : nat) : option (nat * Z * slab_shard) :=
  c ← at_ (class_table sh) nblocks;
  cl ← slab_classes sh !! c;
  r ← (if (count <? 2)%nat then mcd_fth_osd_get_free_slab sh c pth else Some (None, sh));
  match r with
  | (Some address, sh) => Some (1%nat, address, sh)
  | (None, sh) => alloc_loop (alloc_fuel sh cl) junk sh c pth count
  end.

(** ** Deallocation *)

(** Free a slab; [async] when its deallocation was delayed. *)
Definition mcd_fth_osd_slab_dealloc (sh : slab_shard) (pth : nat) (address : Z) (async : bool) : option slab_shard :=
  p ← at_ (segment_table sh) (address / Mcd_osd_segment_blks);
  match p with
  | None => Some sh
  | Some s =>
      sh ← mcd_fth_osd_slab_dealloc_low sh s address 1;
      g ← base_segments sh !! s;
      c ← sg_class g;
      cl ← slab_classes sh !! c;
      sh ← (if async then
              _ ← assert_ (negb (dealloc_pending cl =? 0));
              Some (set_blk_pending (set_class sh c (class_pending cl (dealloc_pending cl - 1))) (u64 (blk_dealloc_pending sh - slab_blksize cl)))
            else
              stack ← free_slabs cl !! pth;
              if lenZ stack <? freelist_len cl
              then Some (set_class sh c (class_free cl (<[pth := address :: stack]> (free_slabs cl))))
              else Some sh);
      if (used_slabs g =? 0) && gc sh then mcd_fth_osd_shrink_class sh s else Some sh
  end.

(** The part of [mcd_fth_osd_remove_entry] on slabs, for an object of [nblocks]
    blocks: free its slab, or count it as pending. *)
Definition remove_entry_slab (sh : slab_shard) (pth : nat) (address nblocks : Z) (delayed : bool) : option slab_shard :=
  if delayed then
    c ← at_ (class_table sh) nblocks;
    cl ← slab_classes sh !! c;
    Some (set_blk_pending (set_class sh c (class_pending cl (u64 (dealloc_pending cl + 1)))) (u64 (blk_dealloc_pending sh + slab_blksize cl)))
  else mcd_fth_osd_slab_dealloc sh pth address false.

(** Slab 0 is not used for raw objects: the numbers of overflow nodes of the
    b-tree are addresses, and 0 is not a node. *)
Definition mcd_fth_osd_slab_dealloc_low_special (sh : slab_shard) (address : Z) : option slab_shard :=
  _ ← assert_ (address =? 0);
  p ← at_ (segment_table sh) (address / Mcd_osd_segment_blks);
  s ← p;
  mcd_fth_osd_slab_dealloc_low sh s address 1.

(** The allocation of [mcd_fth_osd_slab_create_raw]. *)
Fixpoint alloc_raw (fuel : nat) (junk : nat -> Z) (sh : slab_shard) (pth : nat) (nblocks : Z) : option (option Z * slab_shard) :=
  match fuel with
  | O => None
  | S fuel =>
      r ← mcd_fth_osd_slab_alloc junk sh pth nblocks 1;
      let '(n, address, sh) := r in
      if negb (n =? 1)%nat then Some (None, sh)
      else if negb (address =? 0) then Some (Some address, sh)
      else
        r ← mcd_fth_osd_slab_alloc junk sh pth nblocks 1;
        let '(n, address1, sh) := r in
        sh ← mcd_fth_osd_slab_dealloc_low_special sh address;
        if negb (n =? 1)%nat then Some (None, sh)
        else if negb (address1 =? 0) then Some (Some address1, sh)
        else sh ← mcd_fth_osd_slab_dealloc_low_special sh address1; alloc_raw fuel junk sh pth nblocks
  end.

(** ** A new shard *)

Definition clip_freelist (len : Z) : Z :=
  if MCD_OSD_FREELIST_LEN <? len then MCD_OSD_FREELIST_LEN else if len <? MCD_OSD_FREELIST_MIN then MCD_OSD_FREELIST_MIN else len.

(** The classes of [blksize], [2 * blksize], ... blocks. *)
Fixpoint init_classes (n : nat) (total max_segments blksize : Z) : list mcd_osd_slab_class :=
  match n with
  | O => []
  | S n =>
      mk_class 0 0 0 blksize (Mcd_osd_segment_size geo / Mcd_osd_blk_size geo / blksize) 0 (replicate (z2n max_segments) None)
        (clip_freelist (total / 32768 / blksize)) (replicate MCD_OSD_MAX_PTHREADS []) (replicate MCD_OSD_MAX_PTHREADS 0)
      :: (if MCD_OSD_OBJ_MAX_BLKS <? blksize then [] else init_classes n total max_segments (blksize * 2))
  end.

(** The first class from [j] on whose slabs have at least [i] blocks. *)
Fixpoint fitting_class (n : nat) (classes : list mcd_osd_slab_class) (i : Z) (j : nat) : option nat :=
  cl ← classes !! j;
  if slab_blksize cl <? i then match n with O => None | S n => fitting_class n classes i (S j) end else Some j.

Fixpoint init_class_table (n : nat) (classes : list mcd_osd_slab_class) (i : Z) (j : nat) : option (list nat) :=
  match n with
  | O => Some []
  | S n =>
      j ← fitting_class MCD_OSD_MAX_NCLASSES classes i j;
      l ← init_class_table n classes (i + 1) j;
      Some (j :: l)
  end.

Definition no_segment : mcd_osd_segment := mk_segment 0 0 0 0 None None.

(** The part of [mcd_osd_slab_shard_init] on slabs. *)
Definition mcd_osd_slab_shard_init (nsegments : Z) (gc from_end : bool) : option slab_shard :=
  let total := nsegments * Mcd_osd_segment_blks in
  let max_segments := nsegments * Mcd_osd_segment_size geo / Mcd_osd_segment_size geo in
  let classes := init_classes MCD_OSD_MAX_NCLASSES total max_segments 1 in
  t ← init_class_table (z2n (MCD_OSD_OBJ_MAX_BLKS + 1)) classes 0 0;
  Some (mk_slab_shard classes t (replicate (z2n max_segments) no_segment) (replicate (z2n max_segments) None) [] 0 0 total nsegments 0 gc from_end).
End geo.
