(* ===== verification/SlabRep.v ===== *)
(** * The slab allocator: representation

    First bit maps as sets of slab numbers, then the invariant of a shard and
    the map of its slabs in use. *)

From stdpp Require Import gmap.
From S2P Require Import Prelude HashTable Slab.

(** * Bit maps of slabs

    The tables of the search are right, [scan_word] finds the first clear bit of
    a word, and the maps behave as sets of slab numbers. *)

(** ** Arrays *)

Lemma at_Some {A} (l : list A) i x : at_ l i = Some x <-> 0 <= i /\ l !! z2n i = Some x.
Proof. unfold at_. destruct (Z.ltb_spec i 0); split; [done|lia|auto|naive_solver]. Qed.

Lemma put_Some {A} (l : list A) i x : 0 <= i < lenZ l -> put_ l i x = Some (<[z2n i := x]> l).
Proof. intros H. unfold put_. by rewrite (proj2 (Z.leb_le _ _)), (proj2 (Z.ltb_lt _ _)) by lia. Qed.

(** ** The tables *)

Definition tables_right (t : list Z * list Z * list Z) : bool :=
  forallb (fun i => let z := n2z i in
    bool_decide (at_ t.1.1 z = Some (2 ^ z)) &&
    bool_decide (at_ t.1.2 (2 ^ z mod MCD_OSD_SCAN_TBSIZE) = Some z) &&
    bool_decide (at_ t.2 z = Some (Z.ones (z + 1)))) (seq 0 64).

Lemma tables_ok : tables_right slab_tables = true.
Proof. vm_compute. reflexivity. Qed.

Lemma table_at i : 0 <= i < 64 ->
  at_ Mcd_osd_bitmap_masks i = Some (2 ^ i) /\ at_ Mcd_osd_scan_table (2 ^ i mod MCD_OSD_SCAN_TBSIZE) = Some i /\ at_ Mcd_osd_scan_masks i = Some (Z.ones (i + 1)).
Proof.
  intros Hi. pose proof tables_ok as H. unfold Mcd_osd_bitmap_masks, Mcd_osd_scan_table, Mcd_osd_scan_masks. revert H. generalize slab_tables. intros t H. unfold tables_right in H. rewrite forallb_forall in H. specialize (H (z2n i)).
  rewrite !Z2Nat.id in H by lia. cbv zeta in H. rewrite !andb_true_iff, !bool_decide_eq_true in H. destruct H as [[H1 H2] H3]; [|done].
  apply in_seq. lia.
Qed.

(** The start of the program does not abort: no two masks share a place of the
    scan table. *)
Lemma slab_init_ok : is_Some mcd_osd_slab_init.
Proof. vm_compute. by eexists. Qed.

#[global] Opaque Mcd_osd_bitmap_masks Mcd_osd_scan_table Mcd_osd_scan_masks.

(** ** Words *)

Lemma land_pow2 w i : 0 <= i -> (Z.land w (2 ^ i) =? 0) = negb (Z.testbit w i).
Proof.
  intros Hi. destruct (Z.testbit w i) eqn:E; cbn.
  - apply Z.eqb_neq. intros H. assert (Z.testbit (Z.land w (2 ^ i)) i = false) as H2 by by rewrite H, Z.bits_0.
    by rewrite Z.land_spec, E, Z.pow2_bits_true in H2.
  - apply Z.eqb_eq. apply Z.bits_inj'. intros j Hj. rewrite Z.land_spec, Z.bits_0. destruct (decide (j = i)) as [->|Hne]; [by rewrite E|].
    rewrite Z.pow2_bits_false by lia. by rewrite andb_false_r.
Qed.

Definition word_ok (w : Z) : Prop := 0 <= w < 2 ^ 64.

Lemma word_bits w : word_ok w <-> 0 <= w /\ forall j, 64 <= j -> Z.testbit w j = false.
Proof.
  split.
  - intros [H1 H2]. split; [done|]. intros j Hj. destruct (Z.eq_dec w 0) as [->|]; [apply Z.bits_0|]. apply Z.bits_above_log2; [done|].
    apply Z.lt_le_trans with 64; [|done]. apply Z.log2_lt_pow2; lia.
  - intros [H0 H]. split; [done|]. destruct (Z.lt_ge_cases w (2 ^ 64)) as [|Hge]; [done|]. exfalso.
    assert (0 < w) by lia. assert (64 <= Z.log2 w) by (apply Z.log2_le_pow2; lia). pose proof (Z.bit_log2 w ltac:(done)) as Hb. by rewrite H in Hb.
Qed.

Lemma word_lor w m : word_ok w -> word_ok m -> word_ok (Z.lor w m).
Proof.
  rewrite !word_bits. intros [Hw Hw'] [Hm Hm']. split; [by apply Z.lor_nonneg|]. intros j Hj. by rewrite Z.lor_spec, Hw', Hm'.
Qed.

Lemma word_land w m : word_ok w -> 0 <= m -> word_ok (Z.land w m).
Proof. rewrite !word_bits. intros [Hw Hw'] Hm. split; [apply Z.land_nonneg; by left|]. intros j Hj. by rewrite Z.land_spec, Hw'. Qed.

Lemma word_pow2 i : 0 <= i < 64 -> word_ok (2 ^ i).
Proof. intros H. split; [apply Z.pow_nonneg; lia|]. apply Z.pow_lt_mono_r; lia. Qed.

Lemma word_ones i : 0 <= i <= 64 -> word_ok (Z.ones i).
Proof. intros H. unfold word_ok. rewrite Z.ones_equiv. pose proof (Z.pow_le_mono_r 2 i 64 ltac:(lia) ltac:(lia)). pose proof (Z.pow_pos_nonneg 2 i ltac:(lia) ltac:(lia)). lia. Qed.

Lemma ones_bit n i : 0 <= i -> 0 <= n -> Z.testbit (Z.ones n) i = (i <? n).
Proof. intros Hi Hn. destruct (Z.ltb_spec i n); [apply Z.ones_spec_low; lia|apply Z.ones_spec_high; lia]. Qed.

(** The first clear bit of a word. *)
Lemma first_clear w : word_ok w -> w <> Z.ones 64 ->
  exists i, 0 <= i < 64 /\ Z.testbit w i = false /\ forall j, 0 <= j < i -> Z.testbit w j = true.
Proof.
  intros Hw Hne. assert (forall n : nat, (exists i, 0 <= i < n2z n /\ Z.testbit w i = false /\ forall j, 0 <= j < i -> Z.testbit w j = true) \/ forall j, 0 <= j < n2z n -> Z.testbit w j = true) as H.
  { induction n as [|n [(i & Hi & Hr)|IH]].
    - right. lia.
    - left. exists i. split; [lia|done].
    - destruct (Z.testbit w (n2z n)) eqn:E.
      + right. intros j Hj. destruct (decide (j = n2z n)) as [->|]; [done|]. apply IH. lia.
      + left. exists (n2z n). split; [lia|done]. }
  destruct (H 64%nat) as [(i & Hi & Hr)|Hall]; [by exists i|]. exfalso. apply Hne. apply Z.bits_inj'. intros j Hj.
  rewrite ones_bit by lia. destruct (Z.ltb_spec j 64); [apply Hall; lia|]. by apply word_bits.
Qed.

Lemma succ_split w i : word_ok w -> 0 <= i < 64 -> Z.testbit w i = false -> (forall j, 0 <= j < i -> Z.testbit w j = true) ->
  exists q, 0 <= q /\ w = Z.ones i + 2 ^ (i + 1) * q.
Proof.
  intros [Hw _] Hi Hc Hs. exists (w / 2 ^ (i + 1)). split; [apply Z.div_pos; [done|apply Z.pow_pos_nonneg; lia]|].
  assert (w mod 2 ^ (i + 1) = Z.ones i) as Hm.
  { rewrite <- Z.land_ones by lia. apply Z.bits_inj'. intros j Hj. rewrite Z.land_spec, !ones_bit by lia.
    destruct (Z.ltb_spec j (i + 1)), (Z.ltb_spec j i); try lia.
    - rewrite Hs by lia. done.
    - assert (j = i) as -> by lia. by rewrite Hc. }
  rewrite <- Hm, Z.add_comm. apply Z.div_mod. apply Z.pow_nonzero; lia.
Qed.

Lemma succ_land w i : word_ok w -> 0 <= i < 64 -> Z.testbit w i = false -> (forall j, 0 <= j < i -> Z.testbit w j = true) ->
  w + 1 < 2 ^ 64 -> Z.land (u64 (w + 1)) (Z.lxor w (Z.ones 64)) = 2 ^ i.
Proof.
  intros Hw Hi Hc Hs Hlt. rewrite u64_small by (destruct Hw; lia). destruct (succ_split w i Hw Hi Hc Hs) as (q & Hq & Ew).
  assert (w + 1 = 2 ^ i * (1 + 2 * q)) as E.
  { rewrite Ew, Z.ones_equiv, Z.pow_add_r by lia. lia. }
  apply Z.bits_inj'. intros j Hj. rewrite Z.land_spec, Z.lxor_spec, ones_bit by lia. destruct (Z.lt_trichotomy j i) as [Hji|[->|Hji]].
  - rewrite E, Z.mul_comm, Z.mul_pow2_bits_low, Z.pow2_bits_false by lia. done.
  - rewrite E, Z.mul_comm, Z.mul_pow2_bits, Z.sub_diag, Hc, Z.pow2_bits_true by lia. rewrite (proj2 (Z.ltb_lt _ _)) by lia.
    rewrite Z.bit0_odd, Z.odd_add, Z.odd_mul. done.
  - rewrite Z.pow2_bits_false by lia. destruct (Z.ltb_spec j 64).
    + rewrite xorb_true_r. assert (Z.testbit (w + 1) j = Z.testbit w j) as ->; [|by destruct (Z.testbit w j)].
      rewrite E, Z.mul_comm, Z.mul_pow2_bits by lia. rewrite Z.add_comm. replace (j - i) with (Z.succ (j - i - 1)) by lia.
      rewrite Z.testbit_odd_succ by lia. rewrite Ew. replace (Z.testbit (Z.ones i + 2 ^ (i + 1) * q) j) with (Z.testbit q (j - (i + 1))); [f_equal; lia|].
      rewrite (Z.add_nocarry_lxor (Z.ones i)).
      * rewrite Z.lxor_spec, ones_bit, (proj2 (Z.ltb_ge _ _)), xorb_false_l, Z.mul_comm, Z.mul_pow2_bits by lia. done.
      * apply Z.bits_inj'. intros k Hk. rewrite Z.land_spec, Z.bits_0, ones_bit, Z.mul_comm by lia. destruct (Z.ltb_spec k i); [|done]. rewrite Z.mul_pow2_bits_low by lia. done.
    + rewrite xorb_false_r. rewrite (proj2 (proj1 (word_bits w) Hw) j) by done. apply andb_false_r.
Qed.

(** [scan_word] gives the first clear bit. *)
Lemma scan_word_ok w : word_ok w ->
  (scan_word w = Some None /\ forall j, 0 <= j < 64 -> Z.testbit w j = true) \/
  exists i, scan_word w = Some (Some i) /\ 0 <= i < 64 /\ Z.testbit w i = false /\ forall j, 0 <= j < i -> Z.testbit w j = true.
Proof.
  intros Hw. unfold scan_word. destruct (Z.eqb_spec (Z.lxor w (Z.ones 64)) 0) as [E|E].
  - left. split; [done|]. apply Z.lxor_eq in E as ->. intros j Hj. rewrite ones_bit by lia. apply Z.ltb_lt. lia.
  - right. assert (w <> Z.ones 64) as Hne by (intros ->; by rewrite Z.lxor_nilpotent in E). destruct (first_clear w Hw Hne) as (i & Hi & Hc & Hs).
    exists i. split; [|done]. cbv zeta. rewrite (succ_land w i Hw Hi Hc Hs).
    + destruct (table_at i Hi) as (_ & -> & _). done.
    + destruct Hw. change (Z.ones 64) with (2 ^ 64 - 1) in Hne. lia.
Qed.

(** ** Maps *)

Definition slot_bit (bm : list Z) (k : Z) : bool :=
  match bm !! z2n (k / 64) with Some w => Z.testbit w (k mod 64) | None => false end.

(** The map with the bit of slab [k] set or cleared. *)
Definition put_slot (b : bool) (bm : list Z) (k : Z) : list Z :=
  match bm !! z2n (k / 64) with
  | Some w => <[z2n (k / 64) := if b then Z.lor w (2 ^ (k mod 64)) else Z.land w (u64 (Z.lnot (2 ^ (k mod 64))))]> bm
  | None => bm
  end.

Lemma put_slot_length b bm k : length (put_slot b bm k) = length bm.
Proof. unfold put_slot. case_match; [apply length_insert|done]. Qed.

Lemma u64_not_bit i j : 0 <= i < 64 -> 0 <= j < 64 -> Z.testbit (u64 (Z.lnot (2 ^ i))) j = negb (j =? i).
Proof.
  intros Hi Hj. unfold u64. rewrite Z.mod_pow2_bits_low, Z.lnot_spec by lia. f_equal. destruct (Z.eqb_spec j i) as [->|]; [apply Z.pow2_bits_true; lia|apply Z.pow2_bits_false; lia].
Qed.

Lemma split64 j k : 0 <= j -> 0 <= k -> z2n (j / 64) = z2n (k / 64) -> j mod 64 = k mod 64 -> j = k.
Proof. intros Hj Hk Hd Hm. pose proof (Z.div_pos j 64). pose proof (Z.div_pos k 64). rewrite (Z.div_mod j 64), (Z.div_mod k 64) by lia. lia. Qed.

Lemma mod64 k : 0 <= k mod 64 < 64.
Proof. apply Z.mod_pos_bound. lia. Qed.

Lemma put_slot_bit b bm k j : 0 <= k -> 0 <= j -> (z2n (k / 64) < length bm)%nat -> slot_bit (put_slot b bm k) j = if decide (j = k) then b else slot_bit bm j.
Proof.
  intros Hk Hj Hlen. unfold slot_bit, put_slot. destruct (lookup_lt_is_Some_2 bm _ Hlen) as [w Hw]. rewrite Hw. pose proof (mod64 k). pose proof (mod64 j).
  destruct (decide (z2n (j / 64) = z2n (k / 64))) as [E|E].
  - rewrite E, list_lookup_insert_eq, Hw by done. destruct (decide (j = k)) as [->|Hne].
    + destruct b; [by rewrite Z.lor_spec, Z.pow2_bits_true, orb_true_r by lia|]. rewrite Z.land_spec, u64_not_bit, Z.eqb_refl by lia. apply andb_false_r.
    + assert (j mod 64 <> k mod 64) as Hm by (intros ?; apply Hne; by apply split64). destruct b.
      * rewrite Z.lor_spec, Z.pow2_bits_false, orb_false_r by lia. done.
      * rewrite Z.land_spec, u64_not_bit by lia. rewrite (proj2 (Z.eqb_neq _ _)) by done. apply andb_true_r.
  - rewrite list_lookup_insert_ne by done. rewrite decide_False; [done|]. by intros ->.
Qed.

Lemma put_slot_words b bm k : 0 <= k -> Forall word_ok bm -> Forall word_ok (put_slot b bm k).
Proof.
  intros Hk Hbm. unfold put_slot. case_match; [|done]. apply Forall_insert; [done|]. pose proof (mod64 k). assert (word_ok z) by (eapply Forall_at; done).
  destruct b; [apply word_lor; [done|by apply word_pow2]|apply word_land; [done|apply u64_range]].
Qed.

(** How many of the first [n] slabs are in use. *)
Definition slots_used (bm : list Z) (n : nat) : nat := length (filter (fun k => slot_bit bm (n2z k) = true) (seq 0 n)).

Lemma slots_used_S bm n : slots_used bm (S n) = (slots_used bm n + if slot_bit bm (n2z n) then 1 else 0)%nat.
Proof.
  unfold slots_used. rewrite seq_S, list.filter_app, length_app. f_equal. cbn. destruct (slot_bit bm (n2z n)) eqn:E; [by rewrite decide_True|rewrite decide_False by congruence; done].
Qed.

Lemma slots_used_le bm n : (slots_used bm n <= n)%nat.
Proof. induction n as [|n IH]; [done|]. rewrite slots_used_S. destruct (slot_bit _ _); lia. Qed.

Lemma slots_used_ext bm bm' n : (forall k, 0 <= k < n2z n -> slot_bit bm k = slot_bit bm' k) -> slots_used bm n = slots_used bm' n.
Proof.
  induction n as [|n IH]; [done|]. intros H. rewrite !slots_used_S, IH, (H (n2z n)) by (try intros; try apply H; lia). done.
Qed.

Lemma slots_used_put b bm k n : 0 <= k < n2z n -> (z2n (k / 64) < length bm)%nat ->
  (slots_used (put_slot b bm k) n + (if slot_bit bm k then 1 else 0) = slots_used bm n + if b then 1 else 0)%nat.
Proof.
  intros Hk Hlen. revert Hk. induction n as [|n IH]; [lia|]. intros Hk. rewrite !slots_used_S, put_slot_bit by lia.
  destruct (decide (n2z n = k)) as [E|E].
  - subst k. rewrite (slots_used_ext (put_slot b bm (n2z n)) bm n); [lia|]. intros j Hj. rewrite put_slot_bit, decide_False by lia. done.
  - specialize (IH ltac:(lia)). lia.
Qed.

Lemma slots_full bm n : slots_used bm n = n <-> forall k, 0 <= k < n2z n -> slot_bit bm k = true.
Proof.
  split.
  - induction n as [|n IH]; [lia|]. rewrite slots_used_S. intros H k Hk. pose proof (slots_used_le bm n). destruct (slot_bit bm (n2z n)) eqn:E; [|lia].
    destruct (decide (k = n2z n)) as [->|]; [done|]. apply IH; lia.
  - induction n as [|n IH]; [done|]. intros H. rewrite slots_used_S, IH, (H (n2z n)) by (try intros; try apply H; lia). lia.
Qed.

(** * The slab allocator: invariant and slabs in use

    [slab_inv] relates segments, classes, stacks and counters of a shard;
    [slab_rep] relates the shard to the map of the slabs in use, from their
    address to their size. Taking a slab and freeing one keep both. *)

(** ** Sums over segments *)

Definition seg_sum (f : mcd_osd_segment -> Z) (l : list mcd_osd_segment) : Z := foldr (fun g n => f g + n) 0 l.

Lemma seg_sum_cons f g l : seg_sum f (g :: l) = f g + seg_sum f l.
Proof. done. Qed.

Lemma seg_sum_insert f l s g g' : l !! s = Some g -> seg_sum f (<[s := g']> l) = seg_sum f l - f g + f g'.
Proof.
  revert s. induction l as [|x l IH]; [done|]. intros [|s] H; cbn [lookup list_lookup insert list_insert] in *; rewrite !seg_sum_cons.
  - injection H as ->. lia.
  - rewrite IH by done. lia.
Qed.

Lemma seg_sum_bound f l m : (forall s g, l !! s = Some g -> 0 <= f g <= m) -> 0 <= seg_sum f l <= lenZ l * m.
Proof.
  induction l as [|x l IH]; [cbn; lia|]. intros H. pose proof (H 0%nat x eq_refl) as Hx. specialize (IH (fun s => H (S s))). rewrite seg_sum_cons. cbn [length]. lia.
Qed.

Lemma seg_sum_nonneg f l : (forall s g, l !! s = Some g -> 0 <= f g) -> 0 <= seg_sum f l.
Proof.
  induction l as [|x l IH]; [done|]. intros H. pose proof (H 0%nat x eq_refl). specialize (IH (fun s => H (S s))). rewrite seg_sum_cons. lia.
Qed.

Lemma seg_sum_elem f l s g : (forall s g, l !! s = Some g -> 0 <= f g) -> l !! s = Some g -> f g <= seg_sum f l.
Proof.
  revert s. induction l as [|x l IH]; [done|]. intros [|s] H Hs; cbn [lookup list_lookup] in *; rewrite !seg_sum_cons.
  - injection Hs as ->. pose proof (seg_sum_nonneg f l (fun s => H (S s))). lia.
  - pose proof (H 0%nat x eq_refl). specialize (IH s (fun s => H (S s)) Hs). lia.
Qed.

Lemma seg_sum_ext f f' l : (forall s g, l !! s = Some g -> f g = f' g) -> seg_sum f l = seg_sum f' l.
Proof.
  induction l as [|x l IH]; [done|]. intros H. rewrite !seg_sum_cons, (H 0%nat x eq_refl). f_equal. apply IH. intros s. apply (H (S s)).
Qed.

(** What a segment adds to a sum over class [c]. *)
Definition in_class (c : nat) (f : mcd_osd_segment -> Z) (g : mcd_osd_segment) : Z := if decide (sg_class g = Some c) then f g else 0.

Section rep.
Context (geo : geometry).

Abbreviation seg_blks := (Mcd_osd_segment_blks geo).
Abbreviation slab_size c := (2 ^ n2z c).
Abbreviation slabs_in c := (seg_blks / 2 ^ n2z c).

(** The settings that the program accepts: a segment has up to [2^16] blocks, a
    power of two, there is one device file, and at most 64 threads. *)
Record geo_ok : Prop := {
  g_blk : 0 < Mcd_osd_blk_size geo;
  g_seg : exists e, 0 <= e <= 16 /\ Mcd_osd_segment_size geo = 2 ^ e * Mcd_osd_blk_size geo;
  g_files : Mcd_aio_num_files geo = 1;
  g_threads : 1 <= num_threads geo <= 64
}.

Lemma seg_blks_pow : geo_ok -> exists e, 0 <= e <= 16 /\ seg_blks = 2 ^ e.
Proof using Type. intros [H1 (e & He & Hs) _ _]. exists e. split; [done|]. unfold Mcd_osd_segment_blks. rewrite Hs. apply Z.div_mul. lia. Qed.

Lemma seg_blks_bound : geo_ok -> 1 <= seg_blks <= 65536.
Proof using Type.
  intros Hg. destruct (seg_blks_pow Hg) as (e & He & ->). pose proof (Z.pow_le_mono_r 2 e 16 ltac:(lia) ltac:(lia)).
  pose proof (Z.pow_pos_nonneg 2 e ltac:(lia) ltac:(lia)). change (2 ^ 16) with 65536 in *. lia.
Qed.

Lemma slab_size_pos c : 0 < slab_size c.
Proof using Type. apply Z.pow_pos_nonneg; lia. Qed.

Lemma slabs_in_bound c : geo_ok -> 0 <= slabs_in c <= 65536.
Proof using Type.
  intros Hg. pose proof (seg_blks_bound Hg). pose proof (slab_size_pos c). split; [apply Z.div_pos; lia|]. apply Z.div_le_upper_bound; [lia|]. nia.
Qed.

(** A slab lies in its segment. *)
Lemma slab_inside c k : geo_ok -> 0 <= k < slabs_in c -> 0 <= k * slab_size c /\ k * slab_size c + slab_size c <= seg_blks.
Proof using Type. intros Hg Hk. pose proof (slab_size_pos c). pose proof (Z.mul_div_le seg_blks (slab_size c) ltac:(lia)). nia. Qed.

(** ** Invariant *)

Definition map_words (slabs : Z) : nat := z2n (Z.max 1 (((slabs + 7) / 8 + 7) / 8)).

(** A segment is free, or in the list of its class. *)
Record seg_ok (classes : list mcd_osd_slab_class) (table : list (option nat)) (s : nat) (g : mcd_osd_segment) (c : nat) (cl : mcd_osd_slab_class) (bm : list Z) : Prop := {
  s_class : sg_class g = Some c;
  s_cl : classes !! c = Some cl;
  s_listed : segments cl !! sg_idx g = Some (Some s);
  s_offset : blk_offset g = n2z s * seg_blks;
  s_map : mos_bitmap g = Some bm;
  s_table : table !! s = Some (Some s);
  s_len : length bm = map_words (slabs_in c);
  s_words : Forall word_ok bm;
  s_used : used_slabs g = n2z (slots_used bm (z2n (slabs_in c)));
  s_next : 0 <= next_slab g <= slabs_in c
}.

Record seg_free (table : list (option nat)) (s : nat) (g : mcd_osd_segment) : Prop := {
  f_class : sg_class g = None;
  f_map : mos_bitmap g = None;
  f_next : next_slab g = 0;
  f_used : used_slabs g = 0;
  f_table : table !! s = Some None
}.

(** [a] is the address of a slab of class [c]. *)
Definition slab_of (base : list mcd_osd_segment) (c : nat) (a : Z) : Prop :=
  exists s g k, base !! s = Some g /\ sg_class g = Some c /\ 0 <= k < slabs_in c /\ a = n2z s * seg_blks + k * slab_size c.

Record class_ok (base : list mcd_osd_segment) (c : nat) (cl : mcd_osd_slab_class) : Prop := {
  k_blksize : slab_blksize cl = slab_size c;
  k_slabs : slabs_per_segment cl = slabs_in c;
  k_len : length (segments cl) = length base;
  k_num : (num_segments cl <= length base)%nat;
  k_ptr : forall i s, segments cl !! i = Some (Some s) -> (i < num_segments cl)%nat /\ exists g, base !! s = Some g /\ sg_class g = Some c /\ sg_idx g = i;
  k_total : total_slabs cl = seg_sum (in_class c (fun _ => slabs_in c)) base;
  k_used : cl_used_slabs cl = seg_sum (in_class c used_slabs) base;
  k_free : length (free_slabs cl) = MCD_OSD_MAX_PTHREADS;
  k_hand : length (scan_hand cl) = MCD_OSD_MAX_PTHREADS;
  k_hands : Forall (fun h => 0 <= h < 2 ^ 32) (scan_hand cl);
  k_stack : forall p l a, free_slabs cl !! p = Some l -> a ∈ l -> slab_of base c a
}.

(** The segments that [blk_allocated] has not reached. *)
Definition unreached (sh : slab_shard) (s : nat) : Prop :=
  if from_end sh then n2z s * seg_blks + blk_allocated sh < total_blks sh else blk_allocated sh <= n2z s * seg_blks.

Record slab_inv (sh : slab_shard) : Prop := {
  v_class : forall c cl, slab_classes sh !! c = Some cl -> class_ok (base_segments sh) c cl;
  v_seg : forall s g, base_segments sh !! s = Some g ->
    seg_free (segment_table sh) s g \/ exists c cl bm, seg_ok (slab_classes sh) (segment_table sh) s g c cl bm;
  v_table : length (segment_table sh) = length (base_segments sh);
  v_segments : total_segments sh = lenZ (base_segments sh);
  v_blks : total_blks sh = lenZ (base_segments sh) * seg_blks;
  v_size : total_blks sh <= 2 ^ 49;
  v_alloc : exists k, blk_allocated sh = n2z k * seg_blks /\ (k <= length (base_segments sh))%nat;
  v_fresh : forall s g, base_segments sh !! s = Some g -> unreached sh s -> sg_class g = None;
  v_freed : forall a, a ∈ free_segments sh -> exists s g, a = n2z s * seg_blks /\ base_segments sh !! s = Some g /\ sg_class g = None /\ ~ unreached sh s;
  v_nodup : NoDup (free_segments sh);
  v_gc : gc sh = false
}.

(** A slab of the shard in use, with its size. *)
Definition slab_at (base : list mcd_osd_segment) (a n : Z) : Prop :=
  exists s g c bm k, base !! s = Some g /\ sg_class g = Some c /\ mos_bitmap g = Some bm /\ 0 <= k < slabs_in c /\ slot_bit bm k = true /\
    a = n2z s * seg_blks + k * slab_size c /\ n = slab_size c.

Definition slab_rep (sh : slab_shard) (A : gmap Z Z) : Prop := forall a n, A !! a = Some n <-> slab_at (base_segments sh) a n.

(** ** Addresses *)

Lemma slab_place s k c : geo_ok -> 0 <= k < slabs_in c -> (n2z s * seg_blks + k * slab_size c) / seg_blks = n2z s.
Proof using Type.
  intros Hg Hk. pose proof (seg_blks_bound Hg). pose proof (slab_inside c k Hg Hk). pose proof (slab_size_pos c).
  symmetry. apply (Z.div_unique _ _ _ (k * slab_size c)); lia.
Qed.

Lemma slab_number s k c : (n2z s * seg_blks + k * slab_size c - n2z s * seg_blks) / slab_size c = k.
Proof using Type. pose proof (slab_size_pos c). replace (_ + _ - _) with (k * slab_size c) by lia. apply Z.div_mul. lia. Qed.

(** An address determines its segment, and with the class its slab. *)
Lemma slab_unique s k c s' k' c' : geo_ok -> 0 <= k < slabs_in c -> 0 <= k' < slabs_in c' ->
  n2z s * seg_blks + k * slab_size c = n2z s' * seg_blks + k' * slab_size c' -> s = s' /\ (c = c' -> k = k').
Proof using Type.
  intros Hg Hk Hk' E. pose proof (slab_place s k c Hg Hk) as H1. rewrite E, (slab_place s' k' c' Hg Hk') in H1. assert (s = s') as -> by lia. split; [done|].
  intros ->. pose proof (slab_size_pos c'). nia.
Qed.

(** Two slabs in use do not overlap, and lie in the shard. *)
Lemma slabs_apart sh A a n a' n' : geo_ok -> slab_inv sh -> slab_rep sh A -> A !! a = Some n -> A !! a' = Some n' -> a <> a' -> a + n <= a' \/ a' + n' <= a.
Proof using Type.
  intros Hg I R H H' Hne. apply R in H as (s & g & c & bm & k & Hs & Hc & _ & Hk & _ & -> & ->). apply R in H' as (s' & g' & c' & bm' & k' & Hs' & Hc' & _ & Hk' & _ & -> & ->).
  pose proof (slab_inside c k Hg Hk). pose proof (slab_inside c' k' Hg Hk'). pose proof (seg_blks_bound Hg). destruct (decide (s = s')) as [->|Hss]; [|nia].
  rewrite Hs in Hs'. injection Hs' as ->. rewrite Hc in Hc'. injection Hc' as ->. assert (k <> k') by (by intros ->). nia.
Qed.

Lemma slabs_inside sh A a n : geo_ok -> slab_inv sh -> slab_rep sh A -> A !! a = Some n -> 0 <= a /\ a + n <= total_blks sh.
Proof using Type.
  intros Hg I R H. apply R in H as (s & g & c & bm & k & Hs & Hc & _ & Hk & _ & -> & ->). apply lookup_lt_Some in Hs. rewrite (v_blks _ I).
  pose proof (slab_inside c k Hg Hk). pose proof (seg_blks_bound Hg). nia.
Qed.

(** ** Changes of a class *)

Lemma class_inv sh c cl cl' : slab_inv sh -> slab_classes sh !! c = Some cl -> class_ok (base_segments sh) c cl' -> segments cl' = segments cl -> slab_inv (set_class sh c cl').
Proof using Type.
  intros I Hc Hk Hs. destruct I as [V1 V2 V3 V4 V5 V6 V7 V8 V9 V10 V11]. split; try done.
  - intros d x. cbn. intros Hx. destruct (decide (c = d)) as [->|]; [|rewrite list_lookup_insert_ne in Hx by done; by apply V1].
    rewrite list_lookup_insert_eq in Hx by (by apply lookup_lt_Some in Hc). by injection Hx as <-.
  - intros s g Hg. destruct (V2 s g Hg) as [Hf|(d & x & bm & Ho)]; [by left|]. right. cbn. destruct (decide (c = d)) as [->|Hne].
    + exists d, cl', bm. destruct Ho as [A1 A2 A3 A4 A5 A6 A7 A8 A9 A10]. rewrite Hc in A2. injection A2 as <-. split; try done; [|by rewrite Hs].
      apply list_lookup_insert_eq. by apply lookup_lt_Some in Hc.
    + exists d, x, bm. destruct Ho. split; try done. by rewrite list_lookup_insert_ne.
Qed.

Lemma class_rep sh A c cl' : slab_rep sh A -> slab_rep (set_class sh c cl') A.
Proof using Type. done. Qed.

(** ** Changes of a segment *)

Definition same_place (g g' : mcd_osd_segment) : Prop := sg_class g' = sg_class g /\ sg_idx g' = sg_idx g /\ blk_offset g' = blk_offset g.

Lemma slab_of_place base s g g' c a : base !! s = Some g -> same_place g g' -> slab_of base c a -> slab_of (<[s := g']> base) c a.
Proof using Type.
  intros Hs [E1 [E2 E3]] (t & h & k & Ht & Hc & Hk & Ha). destruct (decide (s = t)) as [->|Hne].
  - rewrite Hs in Ht. injection Ht as <-. exists t, g', k. split; [apply list_lookup_insert_eq; by apply lookup_lt_Some in Hs|]. by rewrite E1.
  - exists t, h, k. by rewrite list_lookup_insert_ne.
Qed.

(** The sums over a class after a change of one of its segments. *)
Lemma in_class_insert d f base s g g' c : base !! s = Some g -> sg_class g = Some c -> sg_class g' = Some c ->
  seg_sum (in_class d f) (<[s := g']> base) = if decide (d = c) then seg_sum (in_class d f) base - f g + f g' else seg_sum (in_class d f) base.
Proof using Type.
  intros Hs H1 H2. rewrite (seg_sum_insert _ _ _ _ _ Hs). unfold in_class at 2 3. rewrite H1, H2. destruct (decide (d = c)) as [->|Hne].
  - by rewrite !decide_True.
  - rewrite !decide_False by congruence. lia.
Qed.

Lemma class_ok_place base d cl s g g' c : base !! s = Some g -> sg_class g = Some c -> same_place g g' -> class_ok base d cl -> d <> c \/ used_slabs g' = used_slabs g ->
  class_ok (<[s := g']> base) d cl.
Proof using Type.
  intros Hs Hc E [K1 K2 K3 K4 K5 K6 K7 K8 K9 K10 K11] Hu. pose proof E as [E1 [E2 E3]]. split; try done; rewrite ?length_insert; try done.
  - intros i t Ht. destruct (K5 i t Ht) as (Hi & h & Hh & Hd & Hx). split; [done|]. destruct (decide (s = t)) as [->|Hne].
    + rewrite Hs in Hh. injection Hh as <-. exists g'. split; [apply list_lookup_insert_eq; by apply lookup_lt_Some in Hs|]. by rewrite E1, E2.
    + exists h. by rewrite list_lookup_insert_ne.
  - rewrite (in_class_insert _ _ _ _ _ _ c Hs) by (by rewrite ?E1). case_decide; lia.
  - rewrite (in_class_insert _ _ _ _ _ _ c Hs) by (by rewrite ?E1). case_decide; destruct Hu; try done; lia.
  - intros p l a Hp Ha. by apply (slab_of_place _ _ _ _ _ _ Hs E), (K11 p l).
Qed.

(** Segment [s] of class [c] becomes [g'], and the count of the class
    follows. *)
Lemma segment_inv sh s g g' c cl bm bm' : geo_ok -> slab_inv sh -> base_segments sh !! s = Some g -> seg_ok (slab_classes sh) (segment_table sh) s g c cl bm ->
  same_place g g' -> mos_bitmap g' = Some bm' -> length bm' = length bm -> Forall word_ok bm' -> used_slabs g' = n2z (slots_used bm' (z2n (slabs_in c))) ->
  0 <= next_slab g' <= slabs_in c ->
  slab_inv (set_segment (set_class sh c (class_used cl (cl_used_slabs cl - used_slabs g + used_slabs g'))) s g').
Proof using Type.
  intros Hgeo I Hs O E Hm Hl Hw Hu Hn. pose proof E as [E1 [E2 E3]]. destruct O as [A1 A2 A3 A4 A5 A6 A7 A8 A9 A10].
  assert (c < length (slab_classes sh))%nat as Hcl by (by apply lookup_lt_Some in A2). pose proof (lookup_lt_Some _ _ _ Hs) as Hsl.
  pose proof I as [V1 V2 V3 V4 V5 V6 V7 V8 V9 V10 V11]. split; cbn; rewrite ?length_insert; try done.
  - intros d x Hx. destruct (decide (c = d)) as [<-|Hne].
    + rewrite list_lookup_insert_eq in Hx by done. injection Hx as <-. destruct (V1 _ _ A2) as [K1 K2 K3 K4 K5 K6 K7 K8 K9 K10 K11].
      split; cbn; try done; rewrite ?length_insert; try done.
      * intros i t Ht. destruct (K5 i t Ht) as (Hi & h & Hh & Hd & Hx). split; [done|]. destruct (decide (s = t)) as [->|Hne].
        -- rewrite Hs in Hh. injection Hh as <-. exists g'. rewrite list_lookup_insert_eq, E1, E2 by done. done.
        -- exists h. by rewrite list_lookup_insert_ne.
      * rewrite (in_class_insert _ _ _ _ _ _ c Hs), decide_True by (by rewrite ?E1). lia.
      * rewrite (in_class_insert _ _ _ _ _ _ c Hs), decide_True by (by rewrite ?E1). lia.
      * intros p l a Hp Ha. by apply (slab_of_place _ _ _ _ _ _ Hs E), (K11 p l).
    + rewrite list_lookup_insert_ne in Hx by done. apply (class_ok_place _ _ _ _ _ _ _ Hs A1 E (V1 _ _ Hx)). left. congruence.
  - intros t h Ht. destruct (decide (s = t)) as [<-|Hne].
    + rewrite list_lookup_insert_eq in Ht by done. injection Ht as <-. right. exists c, (class_used cl (cl_used_slabs cl - used_slabs g + used_slabs g')), bm'.
      split; try done; rewrite ?E1, ?E2, ?E3, ?Hl; try done. by apply list_lookup_insert_eq.
    + rewrite list_lookup_insert_ne in Ht by done. destruct (V2 t h Ht) as [Hf|(d & x & bm2 & O2)]; [by left|]. right. destruct (decide (c = d)) as [<-|Hne2].
      * exists c, (class_used cl (cl_used_slabs cl - used_slabs g + used_slabs g')), bm2. destruct O2 as [B1 B2 B3 B4 B5 B6 B7 B8 B9 B10]. rewrite A2 in B2. injection B2 as <-.
        split; try done. by apply list_lookup_insert_eq.
      * exists d, x, bm2. destruct O2. split; try done. by rewrite list_lookup_insert_ne.
  - intros t h Ht Hf. destruct (decide (s = t)) as [<-|Hne].
    + rewrite list_lookup_insert_eq in Ht by done. injection Ht as <-. rewrite E1. by apply (V8 s g).
    + rewrite list_lookup_insert_ne in Ht by done. by apply (V8 t h).
  - intros a Ha. destruct (V9 a Ha) as (t & h & -> & Ht & Hd & Hr). exists t, h. split; [done|]. rewrite list_lookup_insert_ne; [done|]. intros ->. rewrite Hs in Ht. injection Ht as <-. congruence.
Qed.
End rep.

(** Only the fact itself is given to a projection. *)
Arguments s_class {geo classes table s g c cl bm}.
Arguments s_cl {geo classes table s g c cl bm}.
Arguments s_listed {geo classes table s g c cl bm}.
Arguments s_offset {geo classes table s g c cl bm}.
Arguments s_map {geo classes table s g c cl bm}.
Arguments s_table {geo classes table s g c cl bm}.
Arguments s_len {geo classes table s g c cl bm}.
Arguments s_words {geo classes table s g c cl bm}.
Arguments s_used {geo classes table s g c cl bm}.
Arguments s_next {geo classes table s g c cl bm}.
Arguments f_class {table s g}.
Arguments f_map {table s g}.
Arguments f_next {table s g}.
Arguments f_used {table s g}.
Arguments f_table {table s g}.
Arguments k_blksize {geo base c cl}.
Arguments k_slabs {geo base c cl}.
Arguments k_len {geo base c cl}.
Arguments k_num {geo base c cl}.
Arguments k_ptr {geo base c cl}.
Arguments k_total {geo base c cl}.
Arguments k_used {geo base c cl}.
Arguments k_free {geo base c cl}.
Arguments k_hand {geo base c cl}.
Arguments k_hands {geo base c cl}.
Arguments k_stack {geo base c cl}.
Arguments v_class {geo sh}.
Arguments v_seg {geo sh}.
Arguments v_table {geo sh}.
Arguments v_segments {geo sh}.
Arguments v_blks {geo sh}.
Arguments v_size {geo sh}.
Arguments v_alloc {geo sh}.
Arguments v_fresh {geo sh}.
Arguments v_freed {geo sh}.
Arguments v_nodup {geo sh}.
Arguments v_gc {geo sh}.
