(* ===== verification/SlabScan.v ===== *)
(** * The slab allocator: slabs of existing segments

    First taking and freeing slabs of a segment, then the stacks of freed slabs
    and the search of bit maps. *)

From stdpp Require Import gmap.
From S2P Require Import Prelude HashTable Slab SlabRep.

(** * The slab allocator: taking and freeing slabs of a segment

    The bit of a slab is set or cleared, and the counters follow. [same_shape]
    is what these steps leave alone: the segments of the classes, and all of the
    shard but maps, counters, stacks and hands. *)

(** ** Shape *)

Definition grown_place (g g' : mcd_osd_segment) : Prop := same_place g g' /\ next_slab g <= next_slab g'.

Definition same_class (cl cl' : mcd_osd_slab_class) : Prop :=
  slab_blksize cl' = slab_blksize cl /\ slabs_per_segment cl' = slabs_per_segment cl /\ num_segments cl' = num_segments cl /\ segments cl' = segments cl /\
  dealloc_pending cl' = dealloc_pending cl.

Record same_shape (sh sh' : slab_shard) : Prop := {
  p_classes : Forall2 same_class (slab_classes sh) (slab_classes sh');
  p_base : Forall2 grown_place (base_segments sh) (base_segments sh');
  p_class_table : class_table sh' = class_table sh;
  p_table : segment_table sh' = segment_table sh;
  p_free : free_segments sh' = free_segments sh;
  p_alloc : blk_allocated sh' = blk_allocated sh;
  p_blks : total_blks sh' = total_blks sh;
  p_segments : total_segments sh' = total_segments sh;
  p_end : from_end sh' = from_end sh
}.

#[export] Instance grown_place_refl : Reflexive grown_place.
Proof. intros g. repeat split; done. Qed.
#[export] Instance grown_place_trans : Transitive grown_place.
Proof. intros g1 g2 g3 [(H1 & H2 & H3) H4] [(K1 & K2 & K3) K4]. repeat split; try congruence. lia. Qed.
#[export] Instance same_class_refl : Reflexive same_class.
Proof. intros g. repeat split; done. Qed.
#[export] Instance same_class_trans : Transitive same_class.
Proof. intros g1 g2 g3 (H1 & H2 & H3 & H4 & H5) (K1 & K2 & K3 & K4 & K5). repeat split; congruence. Qed.

#[export] Instance same_shape_refl : Reflexive same_shape.
Proof. intros sh. split; reflexivity. Qed.
#[export] Instance same_shape_trans : Transitive same_shape.
Proof. intros a b c [] []. split; try congruence; etrans; done. Qed.

Lemma Forall2_insert_l {A} (R : A -> A -> Prop) `{!Reflexive R} l i x y : l !! i = Some x -> R x y -> Forall2 R l (<[i := y]> l).
Proof. intros Hi Hr. rewrite <- (list_insert_id l i x Hi) at 1. by apply Forall2_insert. Qed.

Lemma shape_class sh c cl cl' : slab_classes sh !! c = Some cl -> same_class cl cl' -> same_shape sh (set_class sh c cl').
Proof. intros Hc H. split; try reflexivity. cbn. by apply (Forall2_insert_l _ _ _ cl). Qed.

Lemma shape_segment sh s g g' : base_segments sh !! s = Some g -> grown_place g g' -> same_shape sh (set_segment sh s g').
Proof. intros Hc H. split; try reflexivity. cbn. by apply (Forall2_insert_l _ _ _ g). Qed.

Lemma shape_stolen sh n : same_shape sh (set_stolen sh n).
Proof. split; reflexivity. Qed.

Lemma shape_at_class sh sh' c cl : same_shape sh sh' -> slab_classes sh !! c = Some cl -> exists cl', slab_classes sh' !! c = Some cl' /\ same_class cl cl'.
Proof. intros P H. destruct (Forall2_lookup_l _ _ _ _ _ (p_classes _ _ P) H) as (cl' & H' & E). by exists cl'. Qed.

Lemma shape_at_segment sh sh' s g : same_shape sh sh' -> base_segments sh !! s = Some g -> exists g', base_segments sh' !! s = Some g' /\ grown_place g g'.
Proof. intros P H. destruct (Forall2_lookup_l _ _ _ _ _ (p_base _ _ P) H) as (g' & H' & E). by exists g'. Qed.

Lemma stolen_inv geo sh n : slab_inv geo sh -> slab_inv geo (set_stolen sh n).
Proof. intros [V1 V2 V3 V4 V5 V6 V7 V8 V9 V10 V11]. by split. Qed.

(** ** Maps *)

Lemma put_slot_id bm k : slot_bit bm k = true -> 0 <= k -> put_slot true bm k = bm.
Proof.
  unfold slot_bit, put_slot. destruct (bm !! z2n (k / 64)) as [w|] eqn:E; [|done]. intros Hb Hk. rewrite <- (list_insert_id bm _ w E) at 2. f_equal. pose proof (mod64 k).
  apply Z.bits_inj'. intros j Hj. rewrite Z.lor_spec. destruct (decide (j = k mod 64)) as [->|Hne]; [by rewrite Hb|]. rewrite Z.pow2_bits_false by lia. apply orb_false_r.
Qed.

Section slots.
Context (geo : geometry) (Hgeo : geo_ok geo).

Abbreviation seg_blks := (Mcd_osd_segment_blks geo).
Abbreviation slab_size c := (2 ^ n2z c).
Abbreviation slabs_in c := (Mcd_osd_segment_blks geo / 2 ^ n2z c).
Abbreviation slab_addr s k c := (n2z s * Mcd_osd_segment_blks geo + k * 2 ^ n2z c).

(** The word of a slab is in the map. *)
Lemma slot_word c k : 0 <= k < slabs_in c -> (z2n (k / 64) < map_words (slabs_in c))%nat.
Proof using Type.
  intros Hk. unfold map_words. pose proof (Z.div_pos k 64 ltac:(lia) ltac:(lia)). apply Z2Nat.inj_lt; [done|lia|].
  assert (k / 64 < ((slabs_in c + 7) / 8 + 7) / 8); [|lia]. apply Z.div_lt_upper_bound; [lia|]. pose proof (Z.mul_succ_div_gt ((slabs_in c + 7) / 8 + 7) 8 ltac:(lia)). pose proof (Z.mul_succ_div_gt (slabs_in c + 7) 8 ltac:(lia)). lia.
Qed.

Lemma slot_read sh s g c cl bm k : seg_ok geo (slab_classes sh) (segment_table sh) s g c cl bm -> 0 <= k < slabs_in c ->
  exists w, at_ bm (k / 64) = Some w /\ bm !! z2n (k / 64) = Some w /\ word_ok w /\ slot_bit bm k = Z.testbit w (k mod 64) /\
    forall b, put_ bm (k / 64) (if b : bool then Z.lor w (2 ^ (k mod 64)) else Z.land w (u64 (Z.lnot (2 ^ (k mod 64))))) = Some (put_slot b bm k).
Proof using Type.
  intros O Hk. pose proof (slot_word c k Hk) as Hw. rewrite <- (s_len O) in Hw. destruct (lookup_lt_is_Some_2 _ _ Hw) as [w Ew]. exists w.
  pose proof (Z.div_pos k 64 ltac:(lia) ltac:(lia)). split; [by apply at_Some|]. split; [done|]. split; [by eapply Forall_at; [apply (s_words O)|]|].
  unfold slot_bit, put_slot. rewrite Ew. split; [done|]. intros b. rewrite put_Some by lia. done.
Qed.

(** The counters do not wrap. *)
Lemma used_bound sh s g c cl bm : slab_inv geo sh -> base_segments sh !! s = Some g -> seg_ok geo (slab_classes sh) (segment_table sh) s g c cl bm -> 0 <= used_slabs g <= slabs_in c.
Proof using Hgeo. intros I Hs O. rewrite (s_used O). pose proof (slots_used_le bm (z2n (slabs_in c))). pose proof (slabs_in_bound geo c Hgeo). lia. Qed.

Lemma in_class_used sh d s g : slab_inv geo sh -> base_segments sh !! s = Some g -> 0 <= in_class d used_slabs g <= slabs_in d.
Proof using Hgeo.
  intros I Hs. unfold in_class. pose proof (slabs_in_bound geo d Hgeo). case_decide as Hd; [|lia]. destruct (v_seg I s g Hs) as [F|(c & cl & bm & O)].
  - rewrite (f_class F) in Hd. done.
  - pose proof (used_bound _ _ _ _ _ _ I Hs O). rewrite (s_class O) in Hd. by injection Hd as ->.
Qed.

Lemma class_used_bound sh c cl : slab_inv geo sh -> slab_classes sh !! c = Some cl -> 0 <= cl_used_slabs cl <= 2 ^ 49.
Proof using Hgeo.
  intros I Hc. rewrite (k_used (v_class I _ _ Hc)). pose proof (seg_sum_bound (in_class c used_slabs) (base_segments sh) (slabs_in c)) as H.
  specialize (H ltac:(intros s g Hs; by apply (in_class_used sh c s g))). pose proof (v_size I). pose proof (v_blks I).
  assert (slabs_in c <= seg_blks); [|nia]. pose proof (slab_size_pos c). pose proof (seg_blks_bound geo Hgeo). apply Z.div_le_upper_bound; nia.
Qed.

(** The state after the bit of a slab has changed. *)
Definition slot_state (b : bool) (sh : slab_shard) (s : nat) (g : mcd_osd_segment) (c : nat) (cl : mcd_osd_slab_class) (bm : list Z) (k : Z) : slab_shard :=
  let n := used_slabs g + (if b then 1 else -1) in
  set_segment (set_class sh c (class_used cl (cl_used_slabs cl - used_slabs g + n))) s (seg_map g n (Some (put_slot b bm k))).

Lemma slot_state_ok b sh s g c cl bm k : slab_inv geo sh -> base_segments sh !! s = Some g -> seg_ok geo (slab_classes sh) (segment_table sh) s g c cl bm ->
  0 <= k < slabs_in c -> slot_bit bm k = negb b -> slab_inv geo (slot_state b sh s g c cl bm k) /\ same_shape sh (slot_state b sh s g c cl bm k).
Proof using Hgeo.
  intros I Hs O Hk Hb. pose proof (slot_word c k Hk) as Hw. rewrite <- (s_len O) in Hw. split.
  - apply (segment_inv geo sh s g (seg_map g (used_slabs g + (if b then 1 else -1)) (Some (put_slot b bm k))) c cl bm (put_slot b bm k) Hgeo I Hs O); try done.
    + apply put_slot_length.
    + apply put_slot_words; [lia|]. apply (s_words O).
    + cbn. rewrite (s_used O). pose proof (slots_used_put b bm k (z2n (slabs_in c)) ltac:(lia) Hw) as Hc. rewrite Hb in Hc. destruct b; cbn in Hc; lia.
    + apply (s_next O).
  - unfold slot_state. etrans; [|apply (shape_segment _ s g); [done|split; [done|cbn; lia]]]. apply (shape_class _ c cl); [apply (s_cl O)|done].
Qed.

(** Whether a slab is in use. *)
Lemma slot_in_use sh s g c cl bm k A : base_segments sh !! s = Some g -> seg_ok geo (slab_classes sh) (segment_table sh) s g c cl bm -> 0 <= k < slabs_in c -> slab_rep geo sh A ->
  A !! (slab_addr s k c) = if slot_bit bm k then Some (slab_size c) else None.
Proof using Hgeo.
  intros Hs [A1 A2 A3 A4 A5 A6 A7 A8 A9 A10] Hk R. destruct (slot_bit bm k) eqn:E.
  - apply R. by exists s, g, c, bm, k.
  - apply eq_None_not_Some. intros [n Hn]. apply R in Hn as (t & h & d & bm2 & j & Ht & Hd & Hm & Hj & Hb & Ea & ->).
    apply slab_unique in Ea as [-> Ea]; [|done..]. rewrite Hs in Ht. injection Ht as <-. rewrite A1 in Hd. injection Hd as <-. rewrite A5 in Hm. injection Hm as <-. specialize (Ea eq_refl) as ->. congruence.
Qed.

(** An address is one of a row of [n] slabs or not. *)
Lemma in_row a sz (n : nat) b : 0 < sz -> (exists i : nat, (i < n)%nat /\ b = a + n2z i * sz) \/ forall i : nat, (i < n)%nat -> b <> a + n2z i * sz.
Proof using Type.
  intros Hsz. induction n as [|n [(i & Hi & ->)|IH]].
  - right. lia.
  - left. exists i. split; [lia|done].
  - destruct (decide (b = a + n2z n * sz)) as [->|Hne].
    + left. exists n. split; [lia|done].
    + right. intros i Hi. destruct (decide (i = n)) as [->|]; [done|]. apply IH. lia.
Qed.

Lemma in_segment a s c : (exists k, 0 <= k < slabs_in c /\ a = slab_addr s k c) \/ forall k, 0 <= k < slabs_in c -> a <> slab_addr s k c.
Proof using Type.
  destruct (in_row (n2z s * seg_blks) (slab_size c) (z2n (slabs_in c)) a (slab_size_pos c)) as [(i & Hi & ->)|H].
  - left. exists (n2z i). split; [lia|done].
  - right. intros k Hk ->. apply (H (z2n k)); lia.
Qed.

(** The slabs in use after a change of the map of a segment. *)
Lemma map_rep sh sh' s g g' c cl bm bm' A A' : base_segments sh !! s = Some g -> seg_ok geo (slab_classes sh) (segment_table sh) s g c cl bm ->
  base_segments sh' = <[s := g']> (base_segments sh) -> sg_class g' = Some c -> mos_bitmap g' = Some bm' -> slab_rep geo sh A ->
  (forall k, 0 <= k < slabs_in c -> A' !! slab_addr s k c = if slot_bit bm' k then Some (slab_size c) else None) ->
  (forall a, (forall k, 0 <= k < slabs_in c -> a <> slab_addr s k c) -> A' !! a = A !! a) -> slab_rep geo sh' A'.
Proof using Hgeo.
  intros Hs O Eb Hc Hm R Hin Hout a n. pose proof (lookup_lt_Some _ _ _ Hs) as Hsl. rewrite Eb. split.
  - intros Ha. destruct (in_segment a s c) as [(k & Hk & ->)|Hno].
    + rewrite Hin in Ha by done. destruct (slot_bit bm' k) eqn:E; [|done]. injection Ha as <-. exists s, g', c, bm', k. by rewrite list_lookup_insert_eq.
    + rewrite Hout in Ha by done. apply R in Ha as (t & h & d & bm2 & j & Ht & Hd & Hm2 & Hj & Hb & -> & ->).
      exists t, h, d, bm2, j. rewrite list_lookup_insert_ne; [done|]. intros ->. rewrite Hs in Ht. injection Ht as <-. rewrite (s_class O) in Hd. injection Hd as <-. by apply (Hno j).
  - intros (t & h & d & bm2 & j & Ht & Hd & Hm2 & Hj & Hb & -> & ->). destruct (decide (s = t)) as [<-|Hne].
    + rewrite list_lookup_insert_eq in Ht by done. injection Ht as <-. rewrite Hc in Hd. injection Hd as <-. rewrite Hm in Hm2. injection Hm2 as <-. by rewrite Hin, Hb.
    + rewrite list_lookup_insert_ne in Ht by done. rewrite Hout; [apply R; by exists t, h, d, bm2, j|]. intros k Hk E. apply slab_unique in E as [E _]; [|done..]. by subst.
Qed.

(** Take slab [k]. *)
Lemma slot_take_rep sh s g c cl bm k A : base_segments sh !! s = Some g -> seg_ok geo (slab_classes sh) (segment_table sh) s g c cl bm ->
  0 <= k < slabs_in c -> slab_rep geo sh A -> slab_rep geo (slot_state true sh s g c cl bm k) (<[slab_addr s k c := slab_size c]> A).
Proof using Hgeo.
  intros Hs O Hk R. pose proof (slot_word c k Hk) as Hw. rewrite <- (s_len O) in Hw.
  apply (map_rep sh _ s g (seg_map g (used_slabs g + 1) (Some (put_slot true bm k))) c cl bm (put_slot true bm k) A); try done.
  - apply (s_class O).
  - intros j Hj. rewrite put_slot_bit by lia. case_decide as E; [by subst; rewrite lookup_insert_eq|]. rewrite lookup_insert_ne; [by apply (slot_in_use sh s g c cl)|].
    intros E2. apply slab_unique in E2 as [_ E2]; [|done..]. symmetry in E2; auto.
  - intros a Ha. rewrite lookup_insert_ne; [done|]. intros E. by apply (Ha k).
Qed.

Lemma slot_alloc_ok sh s g c cl bm k A : slab_inv geo sh -> base_segments sh !! s = Some g -> seg_ok geo (slab_classes sh) (segment_table sh) s g c cl bm ->
  0 <= k < slabs_in c -> slab_rep geo sh A ->
  exists r sh', mcd_osd_slab_slot_alloc sh s k = Some (r, sh') /\ slab_inv geo sh' /\ same_shape sh sh' /\
    match r with
    | None => slot_bit bm k = true /\ base_segments sh' = base_segments sh
    | Some a => slot_bit bm k = false /\ a = slab_addr s k c /\ A !! a = None /\ slab_rep geo sh' (<[a := slab_size c]> A)
    end.
Proof using Hgeo.
  intros I Hs O Hk R. destruct (slot_read _ _ _ _ _ _ k O Hk) as (w & Hat & _ & Hw & Hbit & Hput). pose proof (slot_in_use _ _ _ _ _ _ k A Hs O Hk R) as Hin.
  unfold mcd_osd_slab_slot_alloc. rewrite Hs. cbn [mbind option_bind]. rewrite (s_map O). cbn [mbind option_bind]. rewrite Hat. cbn [mbind option_bind].
  pose proof (mod64 k). destruct (table_at (k mod 64) ltac:(done)) as (-> & _). cbn [mbind option_bind]. rewrite (Hput true). cbn [mbind option_bind]. rewrite land_pow2, negb_involutive, <- Hbit by lia.
  destruct (slot_bit bm k) eqn:Eb.
  - eexists None, _. split; [done|]. rewrite put_slot_id by (done || lia). rewrite <- (s_map O).
    assert (set_segment sh s (seg_map g (used_slabs g) (mos_bitmap g)) = sh) as ->. { unfold set_segment. rewrite list_insert_id by (by destruct g). by destruct sh. }
    split; [by apply stolen_inv|]. split; [apply shape_stolen|done].
  - rewrite (s_class O). cbn [mbind option_bind]. rewrite (s_cl O). cbn [mbind option_bind]. cbv zeta.
    pose proof (v_class I _ _ (s_cl O)) as K. rewrite (k_blksize K), (s_offset O).
    pose proof (used_bound _ _ _ _ _ _ I Hs O). pose proof (slabs_in_bound geo c Hgeo). pose proof (class_used_bound _ _ _ I (s_cl O)).
    rewrite u64_small, u32_small by lia. exists (Some (slab_addr s k c)), (slot_state true sh s g c cl bm k).
    split; [unfold slot_state; cbv zeta; do 4 f_equal; f_equal; lia|].
    destruct (slot_state_ok true sh s g c cl bm k I Hs O Hk Eb) as [I' P]. split; [done|]. split; [done|]. split; [done|]. split; [done|]. split; [done|].
    by apply slot_take_rep.
Qed.

(** ** Several slabs *)

Fixpoint ins_slabs (a sz : Z) (n : nat) (A : gmap Z Z) : gmap Z Z :=
  match n with O => A | S n => ins_slabs (a + sz) sz n (<[a := sz]> A) end.
Fixpoint del_slabs (a sz : Z) (n : nat) (A : gmap Z Z) : gmap Z Z :=
  match n with O => A | S n => del_slabs (a + sz) sz n (delete a A) end.

Lemma ins_slabs_other a sz n A b : (forall i : nat, (i < n)%nat -> b <> a + n2z i * sz) -> ins_slabs a sz n A !! b = A !! b.
Proof using Type.
  revert a A. induction n as [|n IH]; intros a A H; [done|]. cbn. rewrite IH.
  - apply lookup_insert_ne. intros <-. apply (H 0%nat); lia.
  - intros i Hi ->. apply (H (S i)); lia.
Qed.

Lemma ins_slabs_at a sz n A (i : nat) : 0 < sz -> (i < n)%nat -> ins_slabs a sz n A !! (a + n2z i * sz) = Some sz.
Proof using Type.
  intros Hsz. revert a A i. induction n as [|n IH]; intros a A i Hi; [lia|]. cbn. destruct i as [|i].
  - rewrite ins_slabs_other by (intros j Hj; nia). replace (a + n2z 0 * sz) with a by lia. apply lookup_insert_eq.
  - replace (a + n2z (S i) * sz) with (a + sz + n2z i * sz) by lia. apply IH. lia.
Qed.

Lemma del_slabs_other a sz n A b : (forall i : nat, (i < n)%nat -> b <> a + n2z i * sz) -> del_slabs a sz n A !! b = A !! b.
Proof using Type.
  revert a A. induction n as [|n IH]; intros a A H; [done|]. cbn. rewrite IH.
  - apply lookup_delete_ne. intros <-. apply (H 0%nat); lia.
  - intros i Hi ->. apply (H (S i)); lia.
Qed.

Lemma del_slabs_at a sz n A (i : nat) : 0 < sz -> (i < n)%nat -> del_slabs a sz n A !! (a + n2z i * sz) = None.
Proof using Type.
  intros Hsz. revert a A i. induction n as [|n IH]; intros a A i Hi; [lia|]. cbn. destruct i as [|i].
  - rewrite del_slabs_other by (intros j Hj; nia). replace (a + n2z 0 * sz) with a by lia. apply lookup_delete_eq.
  - replace (a + n2z (S i) * sz) with (a + sz + n2z i * sz) by lia. apply IH. lia.
Qed.

Lemma del_ins_slabs a sz n A : 0 < sz -> (forall i : nat, (i < n)%nat -> A !! (a + n2z i * sz) = None) -> del_slabs a sz n (ins_slabs a sz n A) = A.
Proof using Type.
  intros Hsz HA. apply map_eq. intros b. destruct (in_row a sz n b Hsz) as [(i & Hi & ->)|Hno].
  - by rewrite del_slabs_at, HA.
  - by rewrite del_slabs_other, ins_slabs_other.
Qed.

(** Clearing the bits of [m] slabs that are in use. *)
Lemma clear_slots_ok c bm k (m : nat) : 0 <= k -> k + n2z m <= slabs_in c -> length bm = map_words (slabs_in c) -> Forall word_ok bm ->
  (forall j, k <= j < k + n2z m -> slot_bit bm j = true) ->
  exists bm', clear_slots m bm k = Some bm' /\ length bm' = length bm /\ Forall word_ok bm' /\
    (forall j, 0 <= j -> slot_bit bm' j = if decide (k <= j < k + n2z m) then false else slot_bit bm j) /\
    (slots_used bm' (z2n (slabs_in c)) + m = slots_used bm (z2n (slabs_in c)))%nat.
Proof using Type.
  revert bm k. induction m as [|m IH]; intros bm k Hk Hm Hl Hw Hb.
  - exists bm. split; [done|]. split; [done|]. split; [done|]. split; [|lia]. intros j Hj. rewrite decide_False by lia. done.
  - pose proof (slot_word c k ltac:(lia)) as Hword. rewrite <- Hl in Hword. destruct (lookup_lt_is_Some_2 _ _ Hword) as [w Ew]. pose proof (Z.div_pos k 64 ltac:(lia) ltac:(lia)). pose proof (mod64 k).
    cbn [clear_slots]. rewrite (proj2 (at_Some bm (k / 64) w)) by done. cbn [mbind option_bind]. destruct (table_at (k mod 64) ltac:(done)) as (-> & _). cbn [mbind option_bind].
    rewrite put_Some by lia. cbn [mbind option_bind]. change (<[z2n (k / 64) := _]> bm) with (<[z2n (k / 64) := Z.land w (u64 (Z.lnot (2 ^ (k mod 64))))]> bm).
    assert (<[z2n (k / 64) := Z.land w (u64 (Z.lnot (2 ^ (k mod 64))))]> bm = put_slot false bm k) as -> by (unfold put_slot; by rewrite Ew).
    destruct (IH (put_slot false bm k) (k + 1)) as (bm' & -> & E1 & E2 & E3 & E4); try lia.
    + by rewrite put_slot_length.
    + by apply put_slot_words.
    + intros j Hj. rewrite put_slot_bit, decide_False by lia. apply Hb. lia.
    + exists bm'. split; [done|]. split; [by rewrite E1, put_slot_length|]. split; [done|]. split.
      * intros j Hj. rewrite E3, put_slot_bit by lia. repeat case_decide; try done; lia.
      * pose proof (slots_used_put false bm k (z2n (slabs_in c)) ltac:(lia) Hword) as Hc. rewrite Hb in Hc by lia. lia.
Qed.

Lemma dealloc_low_ok sh s g c cl bm k (m : nat) A : slab_inv geo sh -> base_segments sh !! s = Some g -> seg_ok geo (slab_classes sh) (segment_table sh) s g c cl bm ->
  0 <= k -> k + n2z m <= slabs_in c -> slab_rep geo sh A -> (forall j, k <= j < k + n2z m -> slot_bit bm j = true) ->
  exists sh', mcd_fth_osd_slab_dealloc_low sh s (slab_addr s k c) m = Some sh' /\ slab_inv geo sh' /\ same_shape sh sh' /\
    slab_rep geo sh' (del_slabs (slab_addr s k c) (slab_size c) m A).
Proof using Hgeo.
  intros I Hs O Hk Hm R Hb. pose proof (v_class I _ _ (s_cl O)) as K. destruct (clear_slots_ok c bm k m Hk Hm (s_len O) (s_words O) Hb) as (bm' & Ec & E1 & E2 & E3 & E4).
  unfold mcd_fth_osd_slab_dealloc_low. rewrite Hs. cbn [mbind option_bind]. rewrite (s_class O). cbn [mbind option_bind]. rewrite (s_cl O). cbn [mbind option_bind]. rewrite (s_map O). cbn [mbind option_bind].
  rewrite (s_offset O), (k_blksize K), slab_number, Ec. cbn [mbind option_bind]. cbv zeta.
  pose proof (used_bound _ _ _ _ _ _ I Hs O) as Hu. pose proof (slabs_in_bound geo c Hgeo). pose proof (class_used_bound _ _ _ I (s_cl O)) as Hcu. pose proof (s_used O) as Hus.
  assert (used_slabs g <= cl_used_slabs cl) as Hle.
  { rewrite (k_used K). assert (used_slabs g = in_class c used_slabs g) as -> by (unfold in_class; by rewrite decide_True by apply (s_class O)).
    apply (seg_sum_elem _ _ s); [|done]. intros t h Ht. by apply (in_class_used sh c t h). }
  rewrite u64_small, u32_small by lia. eexists. split; [done|]. set (g' := seg_map g (used_slabs g - n2z m) (Some bm')).
  assert (cl_used_slabs cl - n2z m = cl_used_slabs cl - used_slabs g + used_slabs g') as -> by (cbn; lia). split; [|split].
  - apply (segment_inv geo sh s g g' c cl bm bm' Hgeo I Hs O); try done; [cbn; lia|apply (s_next O)].
  - etrans; [|apply (shape_segment _ s g g'); [done|split; [done|cbn; lia]]]. apply (shape_class _ c cl); [apply (s_cl O)|done].
  - apply (map_rep sh _ s g g' c cl bm bm' A); try done.
    + apply (s_class O).
    + pose proof (slab_size_pos c). intros j Hj. rewrite E3 by lia. case_decide as Hin.
      * replace (slab_addr s j c) with (slab_addr s k c + n2z (z2n (j - k)) * slab_size c) by (rewrite Z2Nat.id by lia; ring). apply del_slabs_at; lia.
      * rewrite del_slabs_other; [by apply (slot_in_use sh s g c cl)|]. intros i Hi E. apply Hin. nia.
    + intros a Ha. apply del_slabs_other. intros i Hi ->. apply (Ha (k + n2z i)); lia.
Qed.

(** Taking [m] slabs that may be in use. *)
Lemma take_slots_ok sh s g c cl bm k (m : nat) A : slab_inv geo sh -> base_segments sh !! s = Some g -> seg_ok geo (slab_classes sh) (segment_table sh) s g c cl bm ->
  0 <= k -> k + n2z m <= slabs_in c -> slab_rep geo sh A ->
  exists n sh', take_slots m sh s k = Some (n, sh') /\ (n <= m)%nat /\ slab_inv geo sh' /\ same_shape sh sh' /\
    (forall i : nat, (i < n)%nat -> A !! (slab_addr s k c + n2z i * slab_size c) = None) /\
    ((n < m)%nat -> is_Some (A !! (slab_addr s k c + n2z n * slab_size c))) /\
    slab_rep geo sh' (ins_slabs (slab_addr s k c) (slab_size c) n A).
Proof using Hgeo.
  revert sh g cl bm k A. induction m as [|m IH]; intros sh g cl bm k A I Hs O Hk Hm R; cbn [take_slots].
  - exists 0%nat, sh. split; [done|]. split; [done|]. split; [done|]. split; [reflexivity|]. split; [lia|]. split; [lia|done].
  - pose proof (slot_in_use _ _ _ _ _ _ k A Hs O ltac:(lia) R) as Hin. destruct (slot_alloc_ok sh s g c cl bm k A I Hs O ltac:(lia) R) as (r & sh1 & -> & I1 & P1 & Hr). cbn [mbind option_bind]. destruct r as [a|].
    + destruct Hr as (Hb & -> & Hnone & R1). destruct (shape_at_segment _ _ _ _ P1 Hs) as (g1 & Hs1 & (Hc1 & _ & _) & _). rewrite (s_class O) in Hc1.
      destruct (v_seg I1 s g1 Hs1) as [F|(c1 & cl1 & bm1 & O1)]; [by rewrite (f_class F) in Hc1|]. assert (c1 = c) as -> by (pose proof (s_class O1); congruence).
      destruct (IH sh1 g1 cl1 bm1 (k + 1) _ I1 Hs1 O1 ltac:(lia) ltac:(lia) R1) as (n & sh2 & -> & Hn & I2 & P2 & Hfree & Hstop & R2). cbn [mbind option_bind].
      exists (S n), sh2. split; [done|]. split; [lia|]. split; [done|]. split; [by etrans|]. pose proof (slab_size_pos c). split; [|split].
      * intros [|i] Hi; [by rewrite Z.mul_0_l, Z.add_0_r|]. specialize (Hfree i ltac:(lia)). replace (slab_addr s (k + 1) c + n2z i * slab_size c) with (slab_addr s k c + n2z (S i) * slab_size c) in Hfree by lia.
        rewrite lookup_insert_ne in Hfree by nia. done.
      * intros Hlt. specialize (Hstop ltac:(lia)). replace (slab_addr s (k + 1) c + n2z n * slab_size c) with (slab_addr s k c + n2z (S n) * slab_size c) in Hstop by lia.
        rewrite lookup_insert_ne in Hstop by nia. done.
      * cbn. replace (slab_addr s k c + slab_size c) with (slab_addr s (k + 1) c) by lia. done.
    + destruct Hr as (Hb & Eb). exists 0%nat, sh1. split; [done|]. split; [lia|]. split; [done|]. split; [done|]. split; [lia|]. split.
      * intros _. rewrite Z.mul_0_l, Z.add_0_r, Hin, Hb. done.
      * intros a n. rewrite Eb. apply R.
Qed.
End slots.

(** * The slab allocator: stacks and search of bit maps

    A slab that a search returns was not in use; a search that returns nothing
    has changed no map, and all slabs it looked at are in use. *)

(** The rest of a chain of binds whose first part is known. *)
Lemma bind_known {A B C} (m : option A) (f : A -> option B) (k : B -> option C) y : (x ← m; f x) = Some y -> (x ← m; z ← f x; k z) = k y.
Proof. destruct m as [x|]; [|done]. cbn. by intros ->. Qed.

Section scan.
Context (geo : geometry) (Hgeo : geo_ok geo).

Abbreviation seg_blks := (Mcd_osd_segment_blks geo).
Abbreviation slab_size c := (2 ^ n2z c).
Abbreviation slabs_in c := (Mcd_osd_segment_blks geo / 2 ^ n2z c).
Abbreviation slab_addr s k c := (n2z s * Mcd_osd_segment_blks geo + k * 2 ^ n2z c).

(** The outcome of a search for a slab of class [c]. *)
Definition outcome (sh sh' : slab_shard) (A : gmap Z Z) (c : nat) (r : option Z) : Prop :=
  match r with
  | None => base_segments sh' = base_segments sh
  | Some a => A !! a = None /\ slab_of geo (base_segments sh') c a /\ slab_rep geo sh' (<[a := slab_size c]> A)
  end.

Definition search_ok (sh : slab_shard) (A : gmap Z Z) (c : nat) (r : option Z) (sh' : slab_shard) : Prop :=
  slab_inv geo sh' /\ same_shape sh sh' /\ outcome sh sh' A c r.

Lemma search_step sh sh1 sh2 A c r : same_shape sh sh1 -> base_segments sh1 = base_segments sh -> search_ok sh1 A c r sh2 -> search_ok sh A c r sh2.
Proof using Type.
  intros P E (I & P2 & O). split; [done|]. split; [by etrans|]. destruct r; [done|]. cbn in *. congruence.
Qed.

Lemma rep_base sh sh' A : base_segments sh' = base_segments sh -> slab_rep geo sh A -> slab_rep geo sh' A.
Proof using Type. intros E R a n. rewrite E. apply R. Qed.

(** The segment at a place of a class. *)
Lemma get_and_lock_ok sh c cl i : slab_inv geo sh -> slab_classes sh !! c = Some cl -> (i < length (base_segments sh))%nat ->
  exists p, segments cl !! i = Some p /\ mcd_osd_segment_get_and_lock sh cl i = Some p /\
    forall s, p = Some s -> exists g bm, base_segments sh !! s = Some g /\ seg_ok geo (slab_classes sh) (segment_table sh) s g c cl bm.
Proof using Type.
  intros I Hc Hi. pose proof (v_class I _ _ Hc) as K. destruct (lookup_lt_is_Some_2 (segments cl) i ltac:(rewrite (k_len K); done)) as [p Hp]. exists p. split; [done|].
  unfold mcd_osd_segment_get_and_lock. rewrite Hp. cbn [mbind option_bind]. destruct p as [s|]; [|split; done]. destruct (k_ptr K i s Hp) as (Hn & g & Hs & Hd & Hx).
  unfold mcd_osd_segment_lock. rewrite Hs. cbn [mbind option_bind]. rewrite Hx, Hp. cbn [mbind option_bind]. rewrite decide_True by done. split; [done|]. intros s' [= <-].
  destruct (v_seg I s g Hs) as [F|(d & cl' & bm & O)]; [by rewrite (f_class F) in Hd|]. rewrite (s_class O) in Hd. injection Hd as ->. pose proof (s_cl O) as E. rewrite Hc in E. injection E as <-. by exists g, bm.
Qed.

(** The segment of the address of a slab. *)
Lemma slab_of_segment sh c cl a : slab_inv geo sh -> slab_classes sh !! c = Some cl -> slab_of geo (base_segments sh) c a ->
  exists s g bm k, base_segments sh !! s = Some g /\ seg_ok geo (slab_classes sh) (segment_table sh) s g c cl bm /\ 0 <= k < slabs_in c /\ a = slab_addr s k c /\
    at_ (segment_table sh) (a / seg_blks) = Some (Some s).
Proof using Hgeo.
  intros I Hc (s & g & k & Hs & Hd & Hk & ->). destruct (v_seg I s g Hs) as [F|(d & cl' & bm & O)]; [by rewrite (f_class F) in Hd|].
  rewrite (s_class O) in Hd. injection Hd as ->. pose proof (s_cl O) as E. rewrite Hc in E. injection E as <-. exists s, g, bm, k. split; [done|]. split; [done|]. split; [done|]. split; [done|].
  rewrite slab_place by done. apply at_Some. split; [lia|]. rewrite Nat2Z.id. apply (s_table O).
Qed.

(** ** The stack of a thread *)

Lemma free_class_inv sh c cl p l : slab_inv geo sh -> slab_classes sh !! c = Some cl -> (forall a, a ∈ l -> slab_of geo (base_segments sh) c a) ->
  slab_inv geo (set_class sh c (class_free cl (<[p := l]> (free_slabs cl)))) /\ same_shape sh (set_class sh c (class_free cl (<[p := l]> (free_slabs cl)))).
Proof using Type.
  intros I Hc Hl. pose proof (v_class I _ _ Hc) as K. split; [|by apply (shape_class _ c cl)]. apply (class_inv geo sh c cl); try done. destruct K as [K1 K2 K3 K4 K5 K6 K7 K8 K9 K10 K11]. split; cbn; try done.
  - by rewrite length_insert.
  - intros q l' a Hq Ha. destruct (decide (p = q)) as [->|Hne]; [|rewrite list_lookup_insert_ne in Hq by done; by apply (K11 q l')].
    rewrite list_lookup_insert_eq in Hq; [injection Hq as <-; by apply Hl|]. apply lookup_lt_Some in Hq. by rewrite length_insert in Hq.
Qed.

Lemma take_free_slab_ok stack : forall sh c cl (p : nat) A, slab_inv geo sh -> slab_classes sh !! c = Some cl -> (p < MCD_OSD_MAX_PTHREADS)%nat ->
  (forall a, a ∈ stack -> slab_of geo (base_segments sh) c a) -> slab_rep geo sh A ->
  exists r sh', take_free_slab geo sh c p stack = Some (r, sh') /\ search_ok sh A c r sh'.
Proof using Hgeo.
  induction stack as [|a stack IH]; intros sh c cl p A I Hc Hp Hst R; cbn [take_free_slab].
  - exists None, sh. split; [done|]. split; [done|]. split; [reflexivity|done].
  - pose proof (v_class I _ _ Hc) as K. rewrite Hc. cbn [mbind option_bind]. rewrite put_Some by (rewrite (k_free K); lia). cbn [mbind option_bind]. cbv zeta. rewrite Nat2Z.id.
    destruct (free_class_inv sh c cl p stack I Hc) as [I1 P1]; [intros; apply Hst; by right|]. set (cl1 := class_free cl (<[p := stack]> (free_slabs cl))) in *. set (sh1 := set_class sh c cl1) in *.
    assert (slab_classes sh1 !! c = Some cl1) as Hc1 by (cbn; apply list_lookup_insert_eq; by apply lookup_lt_Some in Hc).
    destruct (slab_of_segment sh1 c cl1 a I1 Hc1) as (s & g & bm & k & Hs & O & Hk & -> & ->); [apply Hst; by left|]. cbn [mbind option_bind].
    unfold mcd_osd_segment_lock. rewrite Hs. cbn [mbind option_bind]. rewrite (s_listed O). cbn [mbind option_bind]. rewrite decide_True by done. rewrite Hs. cbn [mbind option_bind].
    rewrite (s_offset O), (k_blksize (v_class I1 _ _ Hc1)), slab_number. destruct (slot_alloc_ok geo Hgeo sh1 s g c cl1 bm k A I1 Hs O Hk R) as (r & sh2 & -> & I2 & P2 & Hr). cbn [mbind option_bind].
    destruct r as [a|].
    + destruct Hr as (_ & -> & Hn & R2). exists (Some (slab_addr s k c)), sh2. split; [done|]. split; [done|]. split; [by etrans|]. cbn. split; [done|]. split; [|done].
      destruct (shape_at_segment _ _ _ _ P2 Hs) as (g2 & Hs2 & (E & _) & _). exists s, g2, k. rewrite E. split; [done|]. split; [apply (s_class O)|done].
    + destruct Hr as (_ & Eb). destruct (shape_at_class _ _ _ _ P2 Hc1) as (cl2 & Hc2 & _).
      destruct (IH sh2 c cl2 p A I2 Hc2 Hp) as (r & sh3 & E & S3); [rewrite Eb; intros; apply Hst; by right|by apply (rep_base sh1)|]. exists r, sh3. split; [done|].
      apply (search_step sh sh2); [by etrans|by rewrite Eb|done].
Qed.

Lemma get_free_slab_ok sh c cl (p : nat) A : slab_inv geo sh -> slab_classes sh !! c = Some cl -> (p < MCD_OSD_MAX_PTHREADS)%nat -> slab_rep geo sh A ->
  exists r sh', mcd_fth_osd_get_free_slab geo sh c p = Some (r, sh') /\ search_ok sh A c r sh'.
Proof using Hgeo.
  intros I Hc Hp R. unfold mcd_fth_osd_get_free_slab. rewrite Hc. cbn [mbind option_bind]. pose proof (v_class I _ _ Hc) as K.
  destruct (lookup_lt_is_Some_2 (free_slabs cl) p ltac:(rewrite (k_free K); done)) as [l Hl]. rewrite Hl. cbn [mbind option_bind].
  apply (take_free_slab_ok l sh c cl p A I Hc Hp); [|done]. intros a Ha. by apply (k_stack K p l).
Qed.

(** ** Hands *)

Lemma hand_inv sh c cl p h : slab_inv geo sh -> slab_classes sh !! c = Some cl -> 0 <= h < 2 ^ 32 ->
  slab_inv geo (set_class sh c (class_hand cl (<[p := h]> (scan_hand cl)))) /\ same_shape sh (set_class sh c (class_hand cl (<[p := h]> (scan_hand cl)))).
Proof using Type.
  intros I Hc Hh. split; [|by apply (shape_class _ c cl)]. apply (class_inv geo sh c cl); try done. destruct (v_class I _ _ Hc) as [K1 K2 K3 K4 K5 K6 K7 K8 K9 K10 K11]. split; cbn; try done.
  - by rewrite length_insert.
  - by apply Forall_insert.
Qed.

(** The slabs from [lo] to [hi] of the segment at place [i] of a class are in
    use. *)
Definition place_full (base : list mcd_osd_segment) (cl : mcd_osd_slab_class) (lo hi : Z) (i : nat) : Prop :=
  forall s g bm k, segments cl !! i = Some (Some s) -> base !! s = Some g -> mos_bitmap g = Some bm -> lo <= k < hi -> slot_bit bm k = true.

Lemma place_empty base cl lo hi i : segments cl !! i = Some None -> place_full base cl lo hi i.
Proof using Type. intros H s g bm k H'. congruence. Qed.

Lemma place_map base cl lo hi i s g bm : segments cl !! i = Some (Some s) -> base !! s = Some g -> mos_bitmap g = Some bm ->
  (forall k, lo <= k < hi -> slot_bit bm k = true) -> place_full base cl lo hi i.
Proof using Type. intros H1 H2 H3 H s' g' bm' k' H1' H2' H3' Hk. assert (s' = s) as -> by congruence. assert (g' = g) as -> by congruence. assert (bm' = bm) as -> by congruence. by apply H. Qed.

(** ** The search with a common hand *)

Lemma u32_range z : 0 <= u32 z < 2 ^ 32.
Proof using Type. apply Z.mod_pos_bound. lia. Qed.

Lemma u32_add a b : u32 (u32 a + b) = u32 (a + b).
Proof using Type. unfold u32. by rewrite Zplus_mod_idemp_l. Qed.

Lemma small_word sh s g c cl bm k w : seg_ok geo (slab_classes sh) (segment_table sh) s g c cl bm -> 0 <= k < slabs_in c -> slabs_in c <= 64 -> at_ bm 0 = Some w -> slot_bit bm k = Z.testbit w k.
Proof using Type. intros O Hk Hle Hw. unfold slot_bit. rewrite Z.div_small, Z.mod_small by lia. apply at_Some in Hw as [_ Hw]. change (z2n 0) with 0%nat in *. by rewrite Hw. Qed.

(** One segment of the search. *)
Lemma small_step sh c cl i A : slab_inv geo sh -> slab_classes sh !! c = Some cl -> (i < length (base_segments sh))%nat -> slabs_in c <= 64 -> slab_rep geo sh A ->
  exists r sh', (locked ← mcd_osd_segment_get_and_lock sh cl i;
      match locked with
      | None => Some (None, sh)
      | Some s => g ← base_segments sh !! s; bm ← mos_bitmap g; map_value ← at_ bm 0; t ← scan_word map_value;
          match t with
          | Some tmp_offset => if tmp_offset <? slabs_per_segment cl then mcd_osd_slab_slot_alloc sh s tmp_offset else Some (None, sh)
          | None => Some (None, sh)
          end
      end) = Some (r, sh') /\ search_ok sh A c r sh' /\ (r = None -> sh' = sh /\ place_full (base_segments sh) cl 0 (slabs_in c) i).
Proof using Hgeo.
  intros I Hc Hi H64 R. pose proof (v_class I _ _ Hc) as K. destruct (get_and_lock_ok sh c cl i I Hc Hi) as (p & Hp & -> & Hseg). cbn [mbind option_bind]. destruct p as [s|].
  2: { exists None, sh. split; [done|]. split; [split; [done|split; [reflexivity|done]]|]. intros _. split; [done|]. by apply place_empty. }
  destruct (Hseg s eq_refl) as (g & bm & Hs & O). rewrite Hs. cbn [mbind option_bind]. rewrite (s_map O). cbn [mbind option_bind].
  assert (exists w, at_ bm 0 = Some w /\ word_ok w) as (w & Hw & Hok).
  { assert (0 < length bm)%nat as Hl by (rewrite (s_len O); unfold map_words; lia). destruct (lookup_lt_is_Some_2 bm 0 Hl) as [w Hw]. exists w. split; [by apply at_Some|]. eapply Forall_at; [apply (s_words O)|done]. }
  rewrite Hw. cbn [mbind option_bind]. destruct (scan_word_ok w Hok) as [(-> & Hall)|(j & -> & Hj & Hclear & Hbelow)]; cbn [mbind option_bind].
  - exists None, sh. split; [done|]. split; [split; [done|split; [reflexivity|done]]|]. intros _. split; [done|]. apply (place_map _ _ _ _ _ s g bm Hp Hs (s_map O)). intros k Hk.
    rewrite (small_word sh s g c cl bm k w) by done. apply Hall. lia.
  - rewrite (k_slabs K). destruct (Z.ltb_spec j (slabs_in c)) as [Hlt|Hge].
    + destruct (slot_alloc_ok geo Hgeo sh s g c cl bm j A I Hs O ltac:(lia) R) as (r & sh' & E & I' & P & Hr). rewrite (small_word sh s g c cl bm j w), Hclear in Hr by (done || lia). destruct r as [a|]; [|by destruct Hr].
      exists (Some a), sh'. split; [done|]. split; [|done]. destruct Hr as (_ & -> & Hn & R'). split; [done|]. split; [done|]. cbn. split; [done|]. split; [|done].
      destruct (shape_at_segment _ _ _ _ P Hs) as (g2 & Hs2 & (E2 & _) & _). exists s, g2, j. rewrite E2. split; [done|]. split; [apply (s_class O)|]. split; [lia|done].
    + exists None, sh. split; [done|]. split; [split; [done|split; [reflexivity|done]]|]. intros _. split; [done|]. apply (place_map _ _ _ _ _ s g bm Hp Hs (s_map O)). intros k Hk.
      rewrite (small_word sh s g c cl bm k w) by done. apply Hbelow. lia.
Qed.
Lemma place_shape base cl cl' lo hi i : segments cl' = segments cl -> place_full base cl' lo hi i -> place_full base cl lo hi i.
Proof using Type. intros E H s g bm k. rewrite <- E. apply H. Qed.

Lemma place_index hand n (m : nat) : (0 < m)%nat -> (m <= n)%nat -> (z2n (hand mod n2z m) < n)%nat.
Proof using Type. intros Hm Hn. pose proof (Z.mod_pos_bound hand (n2z m) ltac:(lia)). lia. Qed.

Lemma scan_small_ok n : forall sh c cl hand A, slab_inv geo sh -> slab_classes sh !! c = Some cl -> (0 < num_segments cl)%nat -> scan_hand cl !! 0%nat = Some hand -> slabs_in c <= 64 ->
  slab_rep geo sh A ->
  exists r sh', scan_small n sh c hand = Some (r, sh') /\ search_ok sh A c r sh' /\
    (r = None -> (forall i : nat, (i < n)%nat -> place_full (base_segments sh) cl 0 (slabs_in c) (z2n (u32 (hand + n2z i) mod n2z (num_segments cl)))) /\
      exists cl', slab_classes sh' !! c = Some cl' /\ scan_hand cl' !! 0%nat = Some (u32 (hand + n2z n))).
Proof using Hgeo.
  induction n as [|n IH]; intros sh c cl hand A I Hc Hnum Hh H64 R; cbn [scan_small].
  - exists None, sh. split; [done|]. split; [split; [done|split; [reflexivity|done]]|]. intros _. split; [lia|]. exists cl. split; [done|]. rewrite Z.add_0_r, u32_small; [done|].
    eapply (Forall_at (k_hands (v_class I _ _ Hc))); done.
  - pose proof (v_class I _ _ Hc) as K. assert (0 <= hand < 2 ^ 32) as Hhr by (eapply (Forall_at (k_hands K)); done).
    rewrite Hc. cbn [mbind option_bind].
    destruct (small_step sh c cl (z2n (hand mod n2z (num_segments cl))) A I Hc) as (r & sh1 & E & (I1 & P1 & O1) & Hf); [apply place_index; [done|apply (k_num K)]|done..|].
    rewrite (bind_known _ _ _ _ E). destruct r as [a|].
    { exists (Some a), sh1. split; [done|]. split; [by split|done]. }
    destruct (Hf eq_refl) as [-> Hfull]. rewrite Hc. cbn [mbind option_bind]. rewrite Hh. cbn [mbind option_bind]. cbv zeta.
    destruct (hand_inv sh c cl 0%nat (u32 (hand + 1)) I Hc (u32_range _)) as [I2 P2]. set (cl2 := class_hand cl (<[0%nat := u32 (hand + 1)]> (scan_hand cl))) in *.
    destruct (IH (set_class sh c cl2) c cl2 (u32 (hand + 1)) A I2) as (r & sh3 & -> & S3 & Hall); try done.
    + apply list_lookup_insert_eq. by apply lookup_lt_Some in Hc.
    + cbn. apply list_lookup_insert_eq. by apply lookup_lt_Some in Hh.
    + exists r, sh3. split; [done|]. split; [by apply (search_step sh (set_class sh c cl2))|]. intros Hr. destruct (Hall Hr) as [Hi2 Hfin]. split.
      * intros [|i] Hi; [by rewrite Z.add_0_r, u32_small by done|]. specialize (Hi2 i ltac:(lia)). rewrite u32_add in Hi2. replace (hand + n2z (S i)) with (hand + 1 + n2z i) by lia. done.
      * rewrite u32_add in Hfin. replace (hand + n2z (S n)) with (hand + 1 + n2z n) by lia. done.
Qed.

(** ** The search of the part of a thread *)

(** The word of a map where the slabs below [off] count as used. *)
Lemma masked_word w off : word_ok w -> 0 <= off < 64 ->
  exists w', (if off =? 0 then Some w else m ← at_ Mcd_osd_scan_masks (off - 1); Some (Z.lor w m)) = Some w' /\ word_ok w' /\
    forall j, 0 <= j < 64 -> Z.testbit w' j = (j <? off) || Z.testbit w j.
Proof using Type.
  intros Hw Ho. destruct (Z.eqb_spec off 0) as [->|Hne].
  - exists w. split; [done|]. split; [done|]. intros j Hj. by rewrite (proj2 (Z.ltb_ge j 0)) by lia.
  - destruct (table_at (off - 1) ltac:(lia)) as (_ & _ & ->). cbn. replace (off - 1 + 1) with off by lia. exists (Z.lor w (Z.ones off)). split; [done|]. split; [apply word_lor; [done|apply word_ones; lia]|].
    intros j Hj. rewrite Z.lor_spec, ones_bit by lia. apply orb_comm.
Qed.

Lemma scan_part_ok fuel : forall sh s g c cl bm off limit A, slab_inv geo sh -> base_segments sh !! s = Some g -> seg_ok geo (slab_classes sh) (segment_table sh) s g c cl bm ->
  0 <= off -> limit <= slabs_in c -> limit - off <= n2z fuel -> slab_rep geo sh A ->
  exists r sh', scan_part fuel sh s off limit = Some (r, sh') /\ search_ok sh A c (fst <$> r) sh' /\
    match r with None => sh' = sh /\ forall k, off <= k < limit -> slot_bit bm k = true | Some (a, k) => off <= k < limit end.
Proof using Hgeo.
  induction fuel as [|fuel IH]; intros sh s g c cl bm off limit A I Hs O Ho Hl Hf R; cbn [scan_part].
  { rewrite (proj2 (Z.leb_le _ _)) by lia. exists None, sh. split; [done|]. split; [split; [done|split; [reflexivity|done]]|]. split; [done|lia]. }
  destruct (Z.leb_spec limit off) as [Hle|Hlt].
  { exists None, sh. split; [done|]. split; [split; [done|split; [reflexivity|done]]|]. split; [done|lia]. }
  rewrite Hs. cbn [mbind option_bind]. rewrite (s_map O). cbn [mbind option_bind]. destruct (slot_read geo sh s g c cl bm off O ltac:(lia)) as (w & -> & Hbw & Hw & _ & _). cbn [mbind option_bind].
  pose proof (mod64 off) as Hm. destruct (masked_word w (off mod 64) Hw Hm) as (w' & -> & Hw' & Hbits). cbn [mbind option_bind].
  pose proof (Z.div_mod off 64 ltac:(lia)) as Edm. pose proof (Z.div_pos off 64 ltac:(lia) ltac:(lia)) as Hdp.
  assert (forall j, 0 <= j < 64 -> slot_bit bm (off / 64 * 64 + j) = Z.testbit w j) as Hword.
  { intros j Hj. unfold slot_bit. rewrite Z.div_add_l, (Z.div_small j), Z.add_0_r by lia. rewrite Hbw. f_equal. rewrite Z.add_comm, Z.mod_add, Z.mod_small by lia. done. }
  assert (forall k, (forall j, 0 <= j < k -> Z.testbit w' j = true) -> k <= 64 -> forall j, off <= j < off / 64 * 64 + k -> slot_bit bm j = true) as Hbelow.
  { intros k Hk Hk64 j Hj. replace j with (off / 64 * 64 + (j - off / 64 * 64)) by lia. rewrite Hword by lia. specialize (Hk (j - off / 64 * 64) ltac:(lia)).
    rewrite Hbits in Hk by lia. rewrite (proj2 (Z.ltb_ge _ _)) in Hk by lia. done. }
  (* what follows when the word has no slab for the thread *)
  assert ((forall j, off <= j < Z.min limit (off + (64 - off mod 64)) -> slot_bit bm j = true) ->
    exists r sh', scan_part fuel sh s (off + (64 - off mod 64)) limit = Some (r, sh') /\ search_ok sh A c (fst <$> r) sh' /\
      match r with None => sh' = sh /\ forall k, off <= k < limit -> slot_bit bm k = true | Some (a, k) => off <= k < limit end) as Hnext.
  { intros Hfull. destruct (IH sh s g c cl bm (off + (64 - off mod 64)) limit A I Hs O ltac:(lia) Hl ltac:(lia) R) as (r & sh' & E & S' & Hr). exists r, sh'. split; [done|]. split; [done|].
    destruct r as [[a k]|]; [lia|]. destruct Hr as [-> Hr]. split; [done|]. intros k Hk. destruct (Z.lt_ge_cases k (off + (64 - off mod 64))); [apply Hfull; lia|apply Hr; lia]. }
  destruct (scan_word_ok w' Hw') as [(-> & Hall)|(j & -> & Hj & Hclear & Hbel)]; cbn [mbind option_bind].
  { apply Hnext. intros j Hj. apply (Hbelow 64); [intros; by apply Hall|lia|lia]. }
  cbv zeta. destruct (Z.ltb_spec (off / 64 * 64 + j) limit) as [Hin|Hout]; cbn [mbind option_bind].
  2: { apply Hnext. intros i Hi. apply (Hbelow j); [done|lia|lia]. }
  rewrite Hbits in Hclear by done. apply orb_false_iff in Hclear as [Hge Hclear]. apply Z.ltb_ge in Hge.
  destruct (slot_alloc_ok geo Hgeo sh s g c cl bm (off / 64 * 64 + j) A I Hs O ltac:(lia) R) as (r & sh' & -> & I' & P & Hr). cbn [mbind option_bind]. rewrite Hword, Hclear in Hr by done.
  destruct r as [a|]; [|by destruct Hr]. exists (Some (a, off / 64 * 64 + j)), sh'. split; [done|]. split; [|lia]. destruct Hr as (_ & -> & Hn & R').
  split; [done|]. split; [done|]. cbn. split; [done|]. split; [|done]. destruct (shape_at_segment _ _ _ _ P Hs) as (g2 & Hs2 & (E2 & _) & _). exists s, g2, (off / 64 * 64 + j). rewrite E2. split; [done|]. split; [apply (s_class O)|]. split; [lia|done].
Qed.
(** The hand after [i] segments. *)
Fixpoint hand_at (spp hand : Z) (i : nat) : Z :=
  match i with O => hand | S i => hand_at spp (u32 (hand + (spp - hand mod spp))) i end.

(** All slabs of a segment are in use when their number says so. *)
Lemma full_segment sh s g c cl bm k : slab_inv geo sh -> base_segments sh !! s = Some g -> seg_ok geo (slab_classes sh) (segment_table sh) s g c cl bm ->
  slabs_in c <= used_slabs g -> 0 <= k < slabs_in c -> slot_bit bm k = true.
Proof using Hgeo.
  intros I Hs O Hu Hk. pose proof (s_used O). pose proof (slots_used_le bm (z2n (slabs_in c))). apply (slots_full bm (z2n (slabs_in c))); lia.
Qed.

Lemma scan_large_ok n : forall sh c cl (p : nat) spp hand A, slab_inv geo sh -> slab_classes sh !! c = Some cl -> (0 < num_segments cl)%nat -> (p < MCD_OSD_MAX_PTHREADS)%nat ->
  0 <= hand < 2 ^ 32 -> 0 < spp -> n2z p * spp + spp <= slabs_in c -> slab_rep geo sh A ->
  exists r sh', scan_large n sh c p spp hand = Some (r, sh') /\ search_ok sh A c r sh' /\
    (r = None -> (forall i : nat, (i < n)%nat ->
        place_full (base_segments sh) cl (n2z p * spp + hand_at spp hand i mod spp) (n2z p * spp + spp) (z2n (hand_at spp hand i / spp mod n2z (num_segments cl)))) /\
      exists cl', slab_classes sh' !! c = Some cl' /\ scan_hand cl' !! p = Some (hand_at spp hand n)).
Proof using Hgeo.
  induction n as [|n IH]; intros sh c cl p spp hand A I Hc Hnum Hp Hh Hspp Hpart R; cbn [scan_large]; rewrite Hc; cbn [mbind option_bind]; pose proof (v_class I _ _ Hc) as K.
  { rewrite put_Some by (rewrite (k_hand K); lia). cbn [mbind option_bind]. rewrite Nat2Z.id. destruct (hand_inv sh c cl p hand I Hc Hh) as [I' P']. eexists None, _. split; [done|].
    split; [split; [done|split; [done|done]]|]. intros _. split; [lia|]. eexists. split; [apply list_lookup_insert_eq; by apply lookup_lt_Some in Hc|]. cbn. apply list_lookup_insert_eq. by rewrite (k_hand K). }
  cbv zeta. set (next := u32 (hand + (spp - hand mod spp))). pose proof (Z.mod_pos_bound hand spp Hspp) as Hmod.
  (* what follows when the segment has no slab for the thread *)
  assert (place_full (base_segments sh) cl (n2z p * spp + hand mod spp) (n2z p * spp + spp) (z2n (hand / spp mod n2z (num_segments cl))) ->
    exists r sh', scan_large n sh c p spp next = Some (r, sh') /\ search_ok sh A c r sh' /\
    (r = None -> (forall i : nat, (i < S n)%nat ->
        place_full (base_segments sh) cl (n2z p * spp + hand_at spp hand i mod spp) (n2z p * spp + spp) (z2n (hand_at spp hand i / spp mod n2z (num_segments cl)))) /\
      exists cl', slab_classes sh' !! c = Some cl' /\ scan_hand cl' !! p = Some (hand_at spp hand (S n)))) as Hnext.
  { intros Hfull. destruct (IH sh c cl p spp next A I Hc Hnum Hp (u32_range _) Hspp Hpart R) as (r & sh' & E & S' & Hr). exists r, sh'. split; [done|]. split; [done|]. intros ->. destruct (Hr eq_refl) as [Hall Hfin].
    split; [|done]. intros [|i] Hi; [done|]. apply Hall. lia. }
  destruct (get_and_lock_ok sh c cl (z2n (hand / spp mod n2z (num_segments cl))) I Hc) as (q & Hq & -> & Hseg); [apply place_index; [done|apply (k_num K)]|]. cbn [mbind option_bind].
  destruct q as [s|]; [|by apply Hnext, place_empty]. destruct (Hseg s eq_refl) as (g & bm & Hs & O). rewrite Hs. cbn [mbind option_bind]. rewrite (k_slabs K).
  destruct (Z.leb_spec (slabs_in c) (used_slabs g)) as [Hfu|Hroom].
  { apply Hnext. apply (place_map _ _ _ _ _ s g bm Hq Hs (s_map O)). intros k Hk. apply (full_segment sh s g c cl bm k I Hs O Hfu). lia. }
  rewrite (Z.add_comm (hand mod spp)).
  destruct (scan_part_ok (z2n spp) sh s g c cl bm (n2z p * spp + hand mod spp) (n2z p * spp + spp) A I Hs O ltac:(lia) ltac:(lia) ltac:(lia) R) as (r & sh1 & -> & (I1 & P1 & O1) & Hr). cbn [mbind option_bind].
  destruct r as [[a k]|].
  - destruct (shape_at_class _ _ _ _ P1 Hc) as (cl1 & Hc1 & _). rewrite Hc1. cbn [mbind option_bind]. rewrite put_Some by (rewrite (k_hand (v_class I1 _ _ Hc1)); lia). cbn [mbind option_bind]. rewrite Nat2Z.id.
    eexists (Some a), _. split; [done|]. split; [|done]. cbn in O1. destruct (hand_inv sh1 c cl1 p (u32 (k - n2z p * spp + hand - hand mod spp)) I1 Hc1 (u32_range _)) as [I2 P2]. split; [done|]. split; [by etrans|done].
  - destruct Hr as [-> Hr]. apply Hnext. by apply (place_map _ _ _ _ _ s g bm Hq Hs (s_map O)).
Qed.

(** ** Both searches *)

(** The part of thread [p] in the segments of class [c]: where the search of the
    thread looks. With few slabs per thread it is the whole segment. *)
Definition part_of (c p : nat) : Z * Z :=
  let spp := slabs_in c / num_threads geo in if spp <=? 1 then (0, slabs_in c) else (n2z p * spp, n2z p * spp + spp).

Lemma threads_part c p : slabs_in c / num_threads geo <= 1 \/ n2z p < num_threads geo -> 0 <= fst (part_of c p) /\ snd (part_of c p) <= slabs_in c.
Proof using Hgeo.
  intros Hp. unfold part_of. pose proof (slabs_in_bound geo c Hgeo). pose proof (g_threads _ Hgeo) as Ht. destruct (Z.leb_spec (slabs_in c / num_threads geo) 1); cbn; [lia|].
  pose proof (Z.mul_div_le (slabs_in c) (num_threads geo) ltac:(lia)). assert (0 <= slabs_in c / num_threads geo) by (apply Z.div_pos; lia). nia.
Qed.

(** A class with more than 64 slabs per segment has more than one per thread. *)
Lemma small_class c : slabs_in c / num_threads geo <= 1 -> slabs_in c <= 64.
Proof using Hgeo.
  intros H. destruct (Z.le_gt_cases (slabs_in c) 64) as [|Hgt]; [done|]. exfalso. destruct (seg_blks_pow geo Hgeo) as (e & He & Eb). pose proof (g_threads _ Hgeo) as Ht.
  assert (128 <= slabs_in c) as H128.
  { destruct (Z.le_gt_cases e (n2z c)) as [Hle|Hlt].
    - exfalso. assert (slabs_in c <= 1); [|lia]. rewrite Eb. pose proof (Z.pow_le_mono_r 2 e (n2z c) ltac:(lia) Hle). pose proof (slab_size_pos c). apply Z.div_le_upper_bound; lia.
    - rewrite Eb in *. rewrite <- (Z.sub_add (n2z c) e) in *. rewrite Z.pow_add_r, Z.div_mul in * by (pose proof (slab_size_pos c); lia).
      assert (6 < e - n2z c) by (apply (Z.pow_lt_mono_r_iff 2); lia). change 128 with (2 ^ 7). apply Z.pow_le_mono_r; lia. }
  assert (2 <= slabs_in c / num_threads geo); [|lia]. apply Z.div_le_lower_bound; lia.
Qed.

Lemma get_slab_ok sh c cl (p : nat) A : slab_inv geo sh -> slab_classes sh !! c = Some cl -> n2z p < num_threads geo -> slab_rep geo sh A ->
  exists r sh', mcd_fth_osd_get_slab geo sh c p = Some (r, sh') /\ search_ok sh A c r sh'.
Proof using Hgeo.
  intros I Hc Hp R. pose proof (g_threads _ Hgeo) as Ht. unfold mcd_fth_osd_get_slab. destruct (get_free_slab_ok sh c cl p A I Hc ltac:(unfold MCD_OSD_MAX_PTHREADS; lia) R) as (r & sh1 & -> & S1). cbn [mbind option_bind].
  destruct r as [a|]; [by exists (Some a), sh1|]. pose proof S1 as (I1 & P1 & O1). cbn in O1. destruct (shape_at_class _ _ _ _ P1 Hc) as (cl1 & Hc1 & _). rewrite Hc1. cbn [mbind option_bind].
  pose proof (v_class I1 _ _ Hc1) as K1. pose proof (rep_base sh sh1 A O1 R) as R1.
  destruct (Nat.eqb_spec (num_segments cl1) 0) as [E0|E0]; [by exists None, sh1|]. cbv zeta. rewrite (k_slabs K1). destruct (Z.leb_spec (slabs_in c / num_threads geo) 1) as [Hsm|Hlg].
  - pose proof (small_class c Hsm). rewrite (assert_true (slabs_in c <=? 64)) by (by apply Z.leb_le). cbn [mbind option_bind]. destruct (lookup_lt_is_Some_2 (scan_hand cl1) 0 ltac:(rewrite (k_hand K1); unfold MCD_OSD_MAX_PTHREADS; lia)) as [h Hh]. rewrite Hh. cbn [mbind option_bind].
    destruct (scan_small_ok (num_segments cl1) sh1 c cl1 h A I1 Hc1 ltac:(lia) Hh ltac:(done) R1) as (r & sh2 & -> & S2 & _). exists r, sh2. split; [done|]. by apply (search_step sh sh1).
  - destruct (Z.ltb_spec (cl_used_slabs cl1) (total_slabs cl1)); [|by exists None, sh1]. destruct (lookup_lt_is_Some_2 (scan_hand cl1) p ltac:(rewrite (k_hand K1); unfold MCD_OSD_MAX_PTHREADS; lia)) as [h Hh]. rewrite Hh. cbn [mbind option_bind].
    destruct (scan_large_ok (num_segments cl1) sh1 c cl1 p (slabs_in c / num_threads geo) h A I1 Hc1) as (r & sh2 & -> & S2 & _); try done; [lia|unfold MCD_OSD_MAX_PTHREADS; lia|eapply (Forall_at (k_hands K1)); done|lia| |].
    + pose proof (threads_part c p ltac:(by right)) as [_ H2]. unfold part_of in H2. cbv zeta in H2. rewrite (proj2 (Z.leb_gt _ _)) in H2 by lia. done.
    + exists r, sh2. split; [done|]. by apply (search_step sh sh1).
Qed.
End scan.
