(* ===== verification/SlabAlloc.v ===== *)
(** * The slab allocator: growth and allocation

    First the segment that a class gets, then the loop of an allocation. *)

From stdpp Require Import gmap.
From S2P Require Import Prelude HashTable Slab SlabRep SlabScan.

(** * The slab allocator: segments of a class

    A new segment is in no class and has no slabs in use; giving it to a class
    keeps the invariant and the slabs in use. *)

(** ** New maps *)

Lemma new_bitmap_length slabs zeroed junk : length (new_bitmap slabs zeroed junk) = map_words slabs.
Proof. unfold new_bitmap. by rewrite length_fmap, length_seq. Qed.

Lemma new_bitmap_words slabs zeroed junk : Forall word_ok (new_bitmap slabs zeroed junk).
Proof.
  unfold new_bitmap. apply Forall_fmap, Forall_forall. intros i _. cbn. case_if; [split; [done|by vm_compute]|]. apply word_bits. split.
  - apply Z.ldiff_nonneg. left. apply u64_range.
  - intros j Hj. rewrite Z.ldiff_spec. pose proof (u64_range junk) as Hr. by rewrite (proj2 (proj1 (word_bits (u64 junk)) Hr) j Hj).
Qed.

Lemma new_bitmap_clear slabs zeroed junk k : 0 <= k < 8 * zeroed -> slot_bit (new_bitmap slabs zeroed junk) k = false.
Proof.
  intros Hk. unfold slot_bit, new_bitmap. rewrite list_lookup_fmap. destruct (seq 0 _ !! z2n (k / 64)) as [i|] eqn:E; [|done]. apply lookup_seq in E as [-> _]. cbn.
  pose proof (Z.div_pos k 64 ltac:(lia) ltac:(lia)). pose proof (Z.div_mod k 64 ltac:(lia)). pose proof (mod64 k). rewrite Z2Nat.id by done. case_if; [apply Z.bits_0|]. b2p.
  rewrite Z.ldiff_spec, ones_bit by lia. rewrite (proj2 (Z.ltb_lt _ _)) by lia. apply andb_false_r.
Qed.

Lemma unused_map bm n : (forall k, 0 <= k < n2z n -> slot_bit bm k = false) -> slots_used bm n = 0%nat.
Proof. induction n as [|n IH]; [done|]. intros H. rewrite slots_used_S, IH, (H (n2z n)) by (try intros; try apply H; lia). done. Qed.

(** ** Free places *)

Lemma free_slot_spec l n i : (exists j : nat, (j < n)%nat /\ l !! j = Some None) ->
  exists j : nat, mcd_osd_slab_segments_get_free_slot l n i = (i + j)%nat /\ (j < n)%nat /\ l !! j = Some None.
Proof.
  revert l i. induction n as [|n IH]; intros l i (j & Hj & Hl); [lia|]. destruct l as [|[s|] l]; [done| |].
  - cbn. destruct j as [|j]; [done|]. destruct (IH l (S i)) as (j' & -> & Hj' & Hl'); [exists j; split; [lia|done]|]. exists (S j'). split; [lia|]. split; [lia|done].
  - exists 0%nat. cbn. split; [lia|]. split; [lia|done].
Qed.

(** A list of different numbers below its length has them all. *)
Lemma all_numbers l n : NoDup l -> (forall s, s ∈ l -> (s < n)%nat) -> length l = n -> forall s, (s < n)%nat -> s ∈ l.
Proof.
  intros Hnd Hlt Hlen s Hs. assert (l ≡ₚ seq 0 n) as ->; [|by apply elem_of_seq; lia]. apply submseteq_length_Permutation; [|rewrite length_seq; lia].
  apply NoDup_submseteq; [done|]. intros x Hx. apply elem_of_seq. specialize (Hlt x Hx). lia.
Qed.

Section grow.
Context (geo : geometry) (Hgeo : geo_ok geo).

Abbreviation seg_blks := (Mcd_osd_segment_blks geo).
Abbreviation slab_size c := (2 ^ n2z c).
Abbreviation slabs_in c := (Mcd_osd_segment_blks geo / 2 ^ n2z c).

(** While a segment is free, a class has a place without a segment. *)
Lemma free_place base c cl s g : class_ok geo base c cl -> base !! s = Some g -> sg_class g <> Some c -> exists j : nat, (j < length base)%nat /\ segments cl !! j = Some None.
Proof using Type.
  intros K Hs Hg. destruct (decide (None ∈ segments cl)) as [Hp|Hno].
  - apply list_elem_of_lookup_1 in Hp as [j Hj]. exists j. split; [|done]. rewrite <- (k_len K). by apply lookup_lt_Some in Hj.
  - exfalso. assert (forall j p, segments cl !! j = Some p -> exists t, p = Some t) as Hall.
    { intros j [t|] Hj; [by exists t|]. exfalso. by apply Hno, (list_elem_of_lookup_2 _ j). }
    assert (s ∈ omap id (segments cl)) as Hin.
    { apply (all_numbers _ (length base)).
      - assert (omap id (segments cl) = (fun p => default 0%nat p) <$> segments cl) as ->.
        { clear -Hall. induction (segments cl) as [|p l IH]; [done|]. destruct (Hall 0%nat p eq_refl) as [t ->]. cbn. f_equal. apply IH. intros j q. apply (Hall (S j)). }
        apply NoDup_fmap_2_strong.
        + intros p q Hp Hq E. apply list_elem_of_lookup_1 in Hp as [i Hi], Hq as [j Hj]. destruct (Hall _ _ Hi) as [t ->], (Hall _ _ Hj) as [t' ->]. cbn in E. by subst.
        + apply NoDup_alt. intros i j p Hi Hj. destruct (Hall _ _ Hi) as [t ->]. destruct (k_ptr K i t Hi) as (_ & h & Hh & _ & <-). destruct (k_ptr K j t Hj) as (_ & h' & Hh' & _ & <-). congruence.
      - intros t Ht. apply list_elem_of_omap in Ht as (p & Hp & Hid). cbn in Hid. subst p. apply list_elem_of_lookup_1 in Hp as [j Hj]. destruct (k_ptr K j t Hj) as (_ & h & Hh & _). by apply lookup_lt_Some in Hh.
      - rewrite <- (k_len K). clear -Hall. induction (segments cl) as [|p l IH]; [done|]. destruct (Hall 0%nat p eq_refl) as [t ->]. cbn. f_equal. apply IH. intros j q. apply (Hall (S j)).
      - by apply lookup_lt_Some in Hs. }
    apply list_elem_of_omap in Hin as (p & Hp & Hid). cbn in Hid. subst p. apply list_elem_of_lookup_1 in Hp as [j Hj]. destruct (k_ptr K j s Hj) as (_ & h & Hh & Hd & _). congruence.
Qed.

(** ** Assignment *)

Lemma in_class_assign d f base s g g' c : base !! s = Some g -> sg_class g = None -> sg_class g' = Some c ->
  seg_sum (in_class d f) (<[s := g']> base) = if decide (d = c) then seg_sum (in_class d f) base + f g' else seg_sum (in_class d f) base.
Proof using Type.
  intros Hs H1 H2. rewrite (seg_sum_insert _ _ _ _ _ Hs). unfold in_class at 2 3. rewrite H1, H2, decide_False by done. destruct (decide (d = c)) as [->|Hne].
  - rewrite decide_True by done. lia.
  - rewrite decide_False by congruence. lia.
Qed.

Lemma slab_of_assign base s g g' c a : base !! s = Some g -> sg_class g = None -> slab_of geo base c a -> slab_of geo (<[s := g']> base) c a.
Proof using Type.
  intros Hs Hn (t & h & k & Ht & Hc & Hk & Ha). exists t, h, k. rewrite list_lookup_insert_ne; [done|]. intros ->. congruence.
Qed.

(** The classes after free segment [s] has become [g'], of class [c] at place
    [i]. *)
Lemma class_ok_assign base d c cl cl' s g g' (i num : nat) : class_ok geo base d cl -> base !! s = Some g -> sg_class g = None -> sg_class g' = Some c -> sg_idx g' = i -> used_slabs g' = 0 ->
  cl' = (if decide (d = c) then class_segments cl (total_slabs cl + slabs_in c) num (<[i := Some s]> (segments cl)) else cl) ->
  (d = c -> segments cl !! i = Some None /\ (i < num)%nat /\ (num_segments cl <= num <= length base)%nat) -> class_ok geo (<[s := g']> base) d cl'.
Proof using Type.
  intros K Hs Hn Hc Hi Hu -> Hnum. pose proof (lookup_lt_Some _ _ _ Hs) as Hsl. destruct K as [K1 K2 K3 K4 K5 K6 K7 K8 K9 K10 K11]. destruct (decide (d = c)) as [->|Hne].
  - destruct (Hnum eq_refl) as (Hp & Hin & Hle). split; cbn; rewrite ?length_insert; try done.
    + lia.
    + intros j t Ht. destruct (decide (i = j)) as [<-|Hij].
      * rewrite list_lookup_insert_eq in Ht by (by apply lookup_lt_Some in Hp). injection Ht as <-. split; [done|]. exists g'. by rewrite list_lookup_insert_eq.
      * rewrite list_lookup_insert_ne in Ht by done. destruct (K5 j t Ht) as (Hj & h & Hh & Hd & Hx). split; [lia|]. exists h. rewrite list_lookup_insert_ne; [done|]. intros ->. congruence.
    + rewrite (in_class_assign _ _ _ _ _ _ c Hs Hn Hc), decide_True by done. lia.
    + rewrite (in_class_assign _ _ _ _ _ _ c Hs Hn Hc), decide_True by done. lia.
    + intros p l a Hl Ha. eapply slab_of_assign; [done..|]. by apply (K11 p l).
  - split; rewrite ?length_insert; try done.
    + intros j t Ht. destruct (K5 j t Ht) as (Hj & h & Hh & Hd & Hx). split; [done|]. exists h. rewrite list_lookup_insert_ne; [done|]. intros ->. congruence.
    + by rewrite (in_class_assign _ _ _ _ _ _ c Hs Hn Hc), decide_False.
    + by rewrite (in_class_assign _ _ _ _ _ _ c Hs Hn Hc), decide_False.
    + intros p l a Hl Ha. eapply slab_of_assign; [done..|]. by apply (K11 p l).
Qed.

(** What an operation on classes leaves alone. *)
Definition same_kind (cl cl' : mcd_osd_slab_class) : Prop :=
  slab_blksize cl' = slab_blksize cl /\ slabs_per_segment cl' = slabs_per_segment cl /\ dealloc_pending cl' = dealloc_pending cl.

Record slab_keeps (sh sh' : slab_shard) : Prop := {
  q_classes : Forall2 same_kind (slab_classes sh) (slab_classes sh');
  q_base : length (base_segments sh') = length (base_segments sh);
  q_class_table : class_table sh' = class_table sh;
  q_blks : total_blks sh' = total_blks sh
}.

#[export] Instance same_kind_refl : Reflexive same_kind.
Proof using Type. intros g. repeat split; done. Qed.
#[export] Instance same_kind_trans : Transitive same_kind.
Proof using Type. intros g1 g2 g3 (H1 & H2 & H3) (K1 & K2 & K3). repeat split; congruence. Qed.
#[export] Instance slab_keeps_refl : Reflexive slab_keeps.
Proof using Type. intros sh. split; reflexivity. Qed.
#[export] Instance slab_keeps_trans : Transitive slab_keeps.
Proof using Type. intros a b c [] []. split; try congruence; etrans; done. Qed.

Lemma shape_keeps sh sh' : same_shape sh sh' -> slab_keeps sh sh'.
Proof using Type.
  intros [P1 P2 P3 P4 P5 P6 P7 P8 P9]. split; try done.
  - revert P1. apply Forall2_impl. intros cl cl' (H1 & H2 & _ & _ & H3). done.
  - symmetry. by apply Forall2_length in P2.
Qed.

Lemma total_bound sh c cl : slab_inv geo sh -> slab_classes sh !! c = Some cl -> 0 <= total_slabs cl <= 2 ^ 49.
Proof using Hgeo.
  intros I Hc. rewrite (k_total (v_class I _ _ Hc)). pose proof (slabs_in_bound geo c Hgeo). pose proof (seg_sum_bound (in_class c (fun _ => slabs_in c)) (base_segments sh) (slabs_in c)) as H'.
  specialize (H' ltac:(intros s g Hs; unfold in_class; case_decide; lia)). pose proof (v_size I). pose proof (v_blks I).
  assert (slabs_in c <= seg_blks); [|nia]. pose proof (slab_size_pos c). pose proof (seg_blks_bound geo Hgeo). apply Z.div_le_upper_bound; nia.
Qed.

(** The place of a new segment. *)
Lemma new_place sh c cl s g : slab_inv geo sh -> slab_classes sh !! c = Some cl -> base_segments sh !! s = Some g -> sg_class g = None ->
  let more := n2z (num_segments cl) <? total_segments sh in
  let i := if more then num_segments cl else mcd_osd_slab_segments_get_free_slot (segments cl) (num_segments cl) 0 in
  let num := if more then S (num_segments cl) else num_segments cl in
  segments cl !! i = Some None /\ (i < num)%nat /\ (num_segments cl <= num <= length (base_segments sh))%nat.
Proof using Type.
  intros I Hc Hs Hn. cbv zeta. pose proof (v_class I _ _ Hc) as K. rewrite (v_segments I). pose proof (k_num K). destruct (Z.ltb_spec (n2z (num_segments cl)) (lenZ (base_segments sh))).
  - split; [|lia]. destruct (lookup_lt_is_Some_2 (segments cl) (num_segments cl) ltac:(rewrite (k_len K); lia)) as [[t|] Ht]; [|done]. destruct (k_ptr K _ _ Ht). lia.
  - destruct (free_place _ _ _ _ _ K Hs ltac:(congruence)) as (j & Hj & Hl). destruct (free_slot_spec (segments cl) (num_segments cl) 0) as (j' & -> & Hj' & Hl'); [exists j; split; [lia|done]|]. split; [done|]. lia.
Qed.

(** Free segment [s] becomes a segment of class [c] at place [i], with nothing
    in use. *)
Lemma assign_inv sh c cl s g (i num : nat) bm A : slab_inv geo sh -> slab_classes sh !! c = Some cl -> base_segments sh !! s = Some g -> sg_class g = None -> ~ unreached geo sh s ->
  n2z s * seg_blks ∉ free_segments sh -> slab_rep geo sh A -> segments cl !! i = Some None -> (i < num)%nat -> (num_segments cl <= num <= length (base_segments sh))%nat ->
  length bm = map_words (slabs_in c) -> Forall word_ok bm -> (forall k, 0 <= k < slabs_in c -> slot_bit bm k = false) ->
  let g' := mk_segment 0 i 0 (n2z s * seg_blks) (Some bm) (Some c) in
  let cl' := class_segments cl (total_slabs cl + slabs_in c) num (<[i := Some s]> (segments cl)) in
  let sh' := set_class (set_segment_table (set_segment sh s g') (<[s := Some s]> (segment_table sh))) c cl' in
  slab_inv geo sh' /\ slab_keeps sh sh' /\ slab_rep geo sh' A.
Proof using Hgeo.
  intros I Hc Hs Hn Hu Hf R Hp Hin Hle Hbl Hbw Hbits g' cl' sh'. pose proof (v_class I _ _ Hc) as K. pose proof (slabs_in_bound geo c Hgeo).
  pose proof (lookup_lt_Some _ _ _ Hs) as Hsl. pose proof (lookup_lt_Some _ _ _ Hp) as Hpl. pose proof (lookup_lt_Some _ _ _ Hc) as Hcl.
  split; [|split].
  - split; cbn; rewrite ?length_insert; try apply I.
    + intros d x Hx. destruct (decide (c = d)) as [<-|Hne].
      * rewrite list_lookup_insert_eq in Hx by done. injection Hx as <-. apply (class_ok_assign _ c c cl cl' s g g' i num K Hs Hn); try done. by rewrite decide_True.
      * rewrite list_lookup_insert_ne in Hx by done. apply (class_ok_assign _ d c x x s g g' i num (v_class I _ _ Hx) Hs Hn); try done. by rewrite decide_False.
    + intros t h Ht. destruct (decide (s = t)) as [<-|Hne].
      * rewrite list_lookup_insert_eq in Ht by done. injection Ht as <-. right. exists c, cl', bm. split; try done.
        -- by apply list_lookup_insert_eq.
        -- cbn. by apply list_lookup_insert_eq.
        -- apply list_lookup_insert_eq. by rewrite (v_table I).
        -- cbn. rewrite unused_map; [done|]. intros k Hk. apply Hbits. lia.
        -- cbn. lia.
      * rewrite list_lookup_insert_ne in Ht by done. destruct (v_seg I t h Ht) as [F2|(d & x & bm2 & O)].
        -- left. destruct F2. split; try done. by rewrite list_lookup_insert_ne.
        -- right. destruct (decide (c = d)) as [<-|Hcd].
           ++ exists c, cl', bm2. destruct O as [B1 B2 B3 B4 B5 B6 B7 B8 B9 B10]. rewrite Hc in B2. injection B2 as <-. split; try done.
              ** by apply list_lookup_insert_eq.
              ** cbn. rewrite list_lookup_insert_ne; [done|]. intros E. rewrite <- E in B3. congruence.
              ** by rewrite list_lookup_insert_ne.
           ++ exists d, x, bm2. destruct O. split; try done; by rewrite list_lookup_insert_ne.
    + intros t h Ht Hr. destruct (decide (s = t)) as [<-|Hne]; [by exfalso|]. rewrite list_lookup_insert_ne in Ht by done. by apply (v_fresh I t h).
    + intros a Ha. destruct (v_freed I a Ha) as (t & h & -> & Ht & Hd & Hr). exists t, h. split; [done|]. rewrite list_lookup_insert_ne; [done|]. by intros ->.
  - split; cbn; rewrite ?length_insert; try done. by apply (Forall2_insert_l _ _ _ cl).
  - intros a n. cbn. split.
    + intros Ha. apply R in Ha as (t & h & d & bm2 & j & Ht & Hd & Hm & Hj & Hb & -> & ->). exists t, h, d, bm2, j. rewrite list_lookup_insert_ne; [done|]. intros ->. congruence.
    + intros (t & h & d & bm2 & j & Ht & Hd & Hm & Hj & Hb & -> & ->). destruct (decide (s = t)) as [<-|Hne].
      * rewrite list_lookup_insert_eq in Ht by done. injection Ht as <-. cbn in Hd, Hm. injection Hd as <-. injection Hm as <-. by rewrite Hbits in Hb.
      * rewrite list_lookup_insert_ne in Ht by done. apply R. by exists t, h, d, bm2, j.
Qed.

Lemma assign_segment_ok junk sh c cl s g A : slab_inv geo sh -> slab_classes sh !! c = Some cl -> base_segments sh !! s = Some g -> sg_class g = None -> ~ unreached geo sh s ->
  n2z s * seg_blks ∉ free_segments sh -> slab_rep geo sh A ->
  exists i sh', mcd_osd_assign_segment geo junk sh c (n2z s * seg_blks) = Some (i, sh') /\ slab_inv geo sh' /\ slab_keeps sh sh' /\ slab_rep geo sh' A /\
    exists g', base_segments sh' = <[s := g']> (base_segments sh) /\ sg_class g' = Some c /\ next_slab g' = 0.
Proof using Hgeo.
  intros I Hc Hs Hn Hu Hf R. pose proof (seg_blks_bound geo Hgeo) as HB. pose proof (v_class I _ _ Hc) as K. destruct (v_seg I s g Hs) as [F|(d & x & bm & O)]; [|pose proof (s_class O); congruence].
  pose proof (new_place sh c cl s g I Hc Hs Hn) as Hplace. unfold mcd_osd_assign_segment. rewrite Hc. cbn [mbind option_bind]. cbv zeta in *.
  set (more := n2z (num_segments cl) <? total_segments sh) in *. set (i := if more then num_segments cl else mcd_osd_slab_segments_get_free_slot (segments cl) (num_segments cl) 0) in *.
  set (num := if more then S (num_segments cl) else num_segments cl) in *. destruct Hplace as (Hp & Hin & Hle).
  rewrite (assert_true (i <? num)%nat) by (by apply Nat.ltb_lt). cbn [mbind option_bind]. rewrite Z.div_mul, Nat2Z.id, Hs by lia. cbn [mbind option_bind].
  rewrite (assert_true (bool_decide (mos_bitmap g = None))) by (apply bool_decide_eq_true; apply (f_map F)). cbn [mbind option_bind].
  pose proof (lookup_lt_Some _ _ _ Hs) as Hsl. pose proof (lookup_lt_Some _ _ _ Hp) as Hpl.
  rewrite (put_Some (segment_table sh)) by (rewrite (v_table I); lia). cbn [mbind option_bind]. rewrite (put_Some (segments cl)) by lia. cbn [mbind option_bind]. rewrite !Nat2Z.id.
  pose proof (total_bound sh c cl I Hc). pose proof (slabs_in_bound geo c Hgeo). rewrite (k_slabs K), u64_small by lia. eexists i, _. split; [done|]. rewrite (f_used F), (f_next F).
  destruct (assign_inv sh c cl s g i num (new_bitmap (slabs_in c) ((slabs_in c + 7) / 8) (junk s)) A) as (I' & Q' & R'); try done; [apply new_bitmap_length|apply new_bitmap_words| |].
  - intros k Hk. apply new_bitmap_clear. pose proof (Z.mul_succ_div_gt (slabs_in c + 7) 8 ltac:(lia)). lia.
  - split; [done|]. split; [done|]. split; [done|]. by eexists.
Qed.
End grow.

(** * The slab allocator: allocation

    [mcd_fth_osd_slab_alloc] ends, and the slabs it returns were not in use. A
    round that is repeated lowers [potential], the number of places in sequence
    that the segments of the class and the free segments still have. *)

Section alloc.
Context (geo : geometry) (Hgeo : geo_ok geo) (junk : nat -> Z).

Abbreviation seg_blks := (Mcd_osd_segment_blks geo).
Abbreviation slab_size c := (2 ^ n2z c).
Abbreviation slabs_in c := (Mcd_osd_segment_blks geo / 2 ^ n2z c).
Abbreviation slab_addr s k c := (n2z s * Mcd_osd_segment_blks geo + k * 2 ^ n2z c).

(** ** Growth of a class *)

Lemma blk_allocated_inv sh k : slab_inv geo sh -> blk_allocated sh = n2z k * seg_blks -> (k < length (base_segments sh))%nat ->
  slab_inv geo (set_blk_allocated sh (blk_allocated sh + seg_blks)).
Proof using Hgeo.
  intros [V1 V2 V3 V4 V5 V6 V7 V8 V9 V10 V11] Hk Hlt. pose proof (seg_blks_bound geo Hgeo).
  assert (forall s, unreached geo (set_blk_allocated sh (blk_allocated sh + seg_blks)) s -> unreached geo sh s) as Hm by (intros s; unfold unreached; cbn; destruct (from_end sh); lia).
  split; try done.
  - exists (S k). cbn. split; [lia|done].
  - intros s g Hs Hu. by apply (V8 s g), Hm.
  - intros a Ha. destruct (V9 a Ha) as (s & g & -> & Hs & Hc & Hr). exists s, g. split; [done|]. split; [done|]. split; [done|]. intros Hu. by apply Hr, Hm.
Qed.

Lemma free_segments_inv sh a l : slab_inv geo sh -> free_segments sh = a :: l -> slab_inv geo (set_free_segments sh l).
Proof using Type.
  intros [V1 V2 V3 V4 V5 V6 V7 V8 V9 V10 V11] Hl. rewrite Hl in V9, V10. split; try done.
  - intros b Hb. apply V9. by right.
  - by apply list.NoDup_cons in V10 as [_ V10].
Qed.

(** No segment is left. *)
Definition no_segments (sh : slab_shard) : Prop := free_segments sh = [] /\ total_blks sh < blk_allocated sh + seg_blks.

Lemma grow_class_ok sh c cl A : slab_inv geo sh -> slab_classes sh !! c = Some cl -> slab_rep geo sh A ->
  exists r sh', mcd_fth_osd_grow_class geo junk sh c = Some (r, sh') /\
    match r with
    | None => sh' = sh /\ no_segments sh
    | Some _ => slab_inv geo sh' /\ slab_keeps sh sh' /\ slab_rep geo sh' A /\
        exists s g g', base_segments sh !! s = Some g /\ sg_class g = None /\ base_segments sh' = <[s := g']> (base_segments sh) /\ sg_class g' = Some c /\ next_slab g' = 0
    end.
Proof using Hgeo.
  intros I Hc R. pose proof (seg_blks_bound geo Hgeo) as HB. destruct (v_alloc I) as (k & Hk & Hkl). pose proof (v_blks I) as Htot. unfold mcd_fth_osd_grow_class. cbv zeta.
  destruct (Z.ltb_spec (total_blks sh) (blk_allocated sh + seg_blks)) as [Hend|Hmore].
  - destruct (free_segments sh) as [|a l] eqn:El.
    + rewrite (proj2 (Z.ltb_lt _ _)) by lia. exists None, sh. split; [done|]. split; [done|]. by split.
    + unfold mcd_fth_osd_allocate_segment. rewrite El. pose proof (v_nodup I) as Hnd. rewrite El in Hnd. apply list.NoDup_cons in Hnd as [Hnd _].
      destruct (v_freed I a ltac:(rewrite El; by left)) as (s & g & -> & Hs & Hcl & Hr). pose proof (lookup_lt_Some _ _ _ Hs). cbn [total_blks set_free_segments].
      rewrite (proj2 (Z.ltb_ge _ _)) by nia. destruct (assign_segment_ok geo Hgeo junk (set_free_segments sh l) c cl s g A) as (i & sh' & -> & I' & P' & R' & g' & Hg'); try done.
      * by apply (free_segments_inv sh (n2z s * seg_blks)).
      * exists (Some i), sh'. cbn. split; [done|]. split; [done|]. split; [by destruct P'|]. split; [done|]. by exists s, g, g'.
  - assert (k < length (base_segments sh))%nat as Hlt by nia. set (s := if from_end sh then (length (base_segments sh) - 1 - k)%nat else k).
    assert ((if from_end sh then total_blks sh - seg_blks - blk_allocated sh else blk_allocated sh) = n2z s * seg_blks) as -> by (unfold s; destruct (from_end sh); nia).
    assert (s < length (base_segments sh))%nat as Hsl by (unfold s; destruct (from_end sh); lia). destruct (lookup_lt_is_Some_2 _ _ Hsl) as [g Hs].
    assert (unreached geo sh s) as Hun by (unfold unreached, s; destruct (from_end sh); nia). pose proof (v_fresh I s g Hs Hun) as Hcl.
    cbn [total_blks set_blk_allocated]. rewrite (proj2 (Z.ltb_ge _ _)) by nia.
    destruct (assign_segment_ok geo Hgeo junk (set_blk_allocated sh (blk_allocated sh + seg_blks)) c cl s g A) as (i & sh' & -> & I' & P' & R' & g' & Hg'); try done.
    + by apply (blk_allocated_inv sh k).
    + unfold unreached, s. cbn. destruct (from_end sh); nia.
    + cbn. intros Hin. destruct (v_freed I _ Hin) as (t & h & E & _ & _ & Hr). assert (t = s) as -> by nia. done.
    + exists (Some i), sh'. cbn. split; [done|]. split; [done|]. split; [by destruct P'|]. split; [done|]. by exists s, g, g'.
Qed.

(** ** Progress *)

Definition places (c : nat) (g : mcd_osd_segment) : Z :=
  match sg_class g with None => 1 + slabs_in c | Some d => if decide (d = c) then slabs_in c - next_slab g else 0 end.

Definition potential (c : nat) (sh : slab_shard) : Z := seg_sum (places c) (base_segments sh).

Lemma places_bound sh c s g : slab_inv geo sh -> base_segments sh !! s = Some g -> 0 <= places c g <= 1 + slabs_in c.
Proof using Hgeo.
  intros I Hs. unfold places. pose proof (slabs_in_bound geo c Hgeo). destruct (v_seg I s g Hs) as [F|(d & cl & bm & O)].
  - rewrite (f_class F). lia.
  - rewrite (s_class O). pose proof (s_next O). case_decide; [subst; lia|lia].
Qed.

Lemma potential_bound sh c : slab_inv geo sh -> 0 <= potential c sh <= lenZ (base_segments sh) * (1 + slabs_in c).
Proof using Hgeo. intros I. apply seg_sum_bound. intros s g Hs. by apply (places_bound sh c s g). Qed.

Lemma potential_shape sh sh' c : same_shape sh sh' -> potential c sh' <= potential c sh.
Proof using Type.
  intros P. unfold potential. pose proof (p_base _ _ P) as H. induction H as [|g g' l l' [(E & _) Hn] _ IH]; [done|]. rewrite !seg_sum_cons. unfold places at 1 3. rewrite E.
  destruct (sg_class g); [case_decide|]; lia.
Qed.

(** The potential falls with the next place of a segment. *)
Lemma potential_next sh sh' c s g g' : same_shape sh sh' -> base_segments sh !! s = Some g -> base_segments sh' !! s = Some g' -> sg_class g = Some c -> next_slab g < next_slab g' ->
  potential c sh' < potential c sh.
Proof using Type.
  intros P Hs Hs' Hc Hn. pose proof (p_base _ _ P) as H. unfold potential. revert s Hs Hs'. induction H as [|x x' l l' [(E & _) Hle] Hl IH]; intros [|s] Hs Hs'; try done; rewrite !seg_sum_cons; cbn in Hs, Hs'.
  - injection Hs as ->. injection Hs' as ->. assert (seg_sum (places c) l' <= seg_sum (places c) l).
    { clear -Hl. induction Hl as [|h h' l l' [(E & _) Hn] _ IH]; [done|]. rewrite !seg_sum_cons. unfold places at 1 3. rewrite E. destruct (sg_class h); [case_decide|]; lia. }
    unfold places at 1 3. rewrite E, Hc, !decide_True by done. lia.
  - specialize (IH s Hs Hs'). unfold places at 1 3. rewrite E. destruct (sg_class x); [case_decide|]; lia.
Qed.

Lemma potential_grow sh sh' c s g g' : base_segments sh !! s = Some g -> sg_class g = None -> base_segments sh' = <[s := g']> (base_segments sh) -> sg_class g' = Some c -> next_slab g' = 0 ->
  potential c sh' < potential c sh.
Proof using Type.
  intros Hs Hc E Hc' Hn. unfold potential. rewrite E, (seg_sum_insert _ _ _ _ _ Hs). unfold places at 2 3. rewrite Hc, Hc', Hn, decide_True by done. lia.
Qed.

(** ** The next places of a segment *)

Lemma next_inv sh s g c cl bm n : slab_inv geo sh -> base_segments sh !! s = Some g -> seg_ok geo (slab_classes sh) (segment_table sh) s g c cl bm -> 0 <= n <= slabs_in c ->
  slab_inv geo (set_segment sh s (seg_next g n)).
Proof using Hgeo.
  intros I Hs O Hn. pose proof (segment_inv geo sh s g (seg_next g n) c cl bm bm Hgeo I Hs O) as H. cbn in H. rewrite Z.sub_add in H.
  assert (set_class sh c (class_used cl (cl_used_slabs cl)) = sh) as E. { unfold set_class. rewrite list_insert_id; [by destruct sh|]. rewrite (s_cl O). by destruct cl. }
  rewrite E in H. apply H; try done; [apply (s_map O)|apply (s_words O)|apply (s_used O)].
Qed.

Lemma alloc_low_ok sh s g c cl bm (count : nat) A : slab_inv geo sh -> base_segments sh !! s = Some g -> seg_ok geo (slab_classes sh) (segment_table sh) s g c cl bm ->
  (1 <= count)%nat -> next_slab g + n2z count <= slabs_in c -> slab_rep geo sh A ->
  exists r sh', mcd_fth_osd_slab_alloc_low geo sh s count = Some (r, sh') /\ slab_inv geo sh' /\ same_shape sh sh' /\ potential c sh' < potential c sh /\
    match r with
    | None => slab_rep geo sh' A
    | Some a => slab_of geo (base_segments sh') c a /\ (forall i : nat, (i < count)%nat -> A !! (a + n2z i * slab_size c) = None) /\ slab_rep geo sh' (ins_slabs a (slab_size c) count A)
    end.
Proof using Hgeo.
  intros I Hs O Hcount Hroom R. pose proof (v_class I _ _ (s_cl O)) as K. pose proof (s_next O) as Hnx. pose proof (slabs_in_bound geo c Hgeo). pose proof (slab_size_pos c) as Hsz.
  unfold mcd_fth_osd_slab_alloc_low. rewrite Hs. cbn [mbind option_bind]. rewrite (s_class O). cbn [mbind option_bind]. rewrite (s_cl O). cbn [mbind option_bind]. cbv zeta.
  rewrite (k_slabs K), (k_blksize K), (s_offset O), (g_files _ Hgeo), Z.mod_1_r, Z.div_1_r, (proj2 (Z.ltb_ge _ _)) by lia. rewrite Z.mul_0_l, Z.div_0_l, Z.add_0_r by (pose proof (g_blk _ Hgeo); lia).
  assert (forall b : bool, (if b then slab_addr s (next_slab g) c else slab_addr s (next_slab g) c) = slab_addr s (next_slab g) c) as -> by (by intros []).
  rewrite slab_number, u32_small by lia. set (g1 := seg_next g (next_slab g + n2z count)). set (sh1 := set_segment sh s g1).
  assert (slab_inv geo sh1) as I1 by (apply (next_inv sh s g c cl bm); try done; lia). assert (same_shape sh sh1) as P1 by (apply (shape_segment sh s g); [done|split; [done|cbn; lia]]).
  assert (base_segments sh1 !! s = Some g1) as Hs1 by (apply list_lookup_insert_eq; by apply lookup_lt_Some in Hs).
  assert (seg_ok geo (slab_classes sh1) (segment_table sh1) s g1 c cl bm) as O1 by (destruct O; split; try done; cbn; lia).
  assert (slab_rep geo sh1 A) as R1. { apply (map_rep geo Hgeo sh sh1 s g g1 c cl bm bm A A); try done; [apply (s_class O)|apply (s_map O)|]. intros k Hk. by apply (slot_in_use geo Hgeo sh s g c cl). }
  assert (forall sh2, same_shape sh1 sh2 -> potential c sh2 < potential c sh) as Hpot.
  { intros sh2 P2. apply Z.le_lt_trans with (potential c sh1); [by apply potential_shape|]. apply (potential_next sh sh1 c s g g1); try done; [apply (s_class O)|cbn; lia]. }
  destruct (take_slots_ok geo Hgeo sh1 s g1 c cl bm (next_slab g) count A I1 Hs1 O1 ltac:(lia) ltac:(lia) R1) as (n & sh2 & -> & Hn & I2 & P2 & Hfree & Hstop & R2). cbn [mbind option_bind fst snd].
  destruct (shape_at_segment _ _ _ _ P2 Hs1) as (g2 & Hs2 & (Ec2 & _) & _). cbn in Ec2. rewrite (s_class O) in Ec2.
  destruct (v_seg I2 s g2 Hs2) as [F|(d & cl2 & bm2 & O2)]; [by rewrite (f_class F) in Ec2|]. assert (d = c) as -> by (pose proof (s_class O2); congruence).
  destruct (Nat.ltb_spec n count) as [Hlt|Hge].
  - destruct (dealloc_low_ok geo Hgeo sh2 s g2 c cl2 bm2 (next_slab g) n _ I2 Hs2 O2 ltac:(lia) ltac:(lia) R2) as (sh3 & -> & I3 & P3 & R3).
    + intros j Hj. pose proof (slot_in_use geo Hgeo sh2 s g2 c cl2 bm2 j _ Hs2 O2 ltac:(lia) R2) as Hin. replace (slab_addr s j c) with (slab_addr s (next_slab g) c + n2z (z2n (j - next_slab g)) * slab_size c) in Hin by (rewrite Z2Nat.id by lia; ring).
      rewrite ins_slabs_at in Hin by lia. by destruct (slot_bit bm2 j).
    + cbn [mbind option_bind]. exists None, sh3. split; [done|]. split; [done|]. split; [etrans; [done|by etrans]|]. split; [apply Hpot; by etrans|]. by rewrite del_ins_slabs in R3.
  - assert (n = count) as -> by lia. exists (Some (slab_addr s (next_slab g) c)), sh2. split; [done|]. split; [done|]. split; [by etrans|]. split; [by apply Hpot|]. split; [|done].
    exists s, g2, (next_slab g). split; [done|]. split; [done|]. split; [lia|done].
Qed.

Lemma find_unfilled_ok i : forall sh c cl (count idx : nat), slab_inv geo sh -> slab_classes sh !! c = Some cl -> (i <= num_segments cl)%nat ->
  exists idx', find_unfilled i sh cl count idx = Some idx' /\ (idx' = idx \/ (idx' < i)%nat /\ exists s g bm, segments cl !! idx' = Some (Some s) /\ base_segments sh !! s = Some g /\
    seg_ok geo (slab_classes sh) (segment_table sh) s g c cl bm /\ next_slab g + n2z count <= slabs_in c).
Proof using Type.
  induction i as [|i IH]; intros sh c cl count idx I Hc Hi; cbn [find_unfilled]; [exists idx; split; [done|by left]|]. pose proof (v_class I _ _ Hc) as K.
  destruct (get_and_lock_ok geo sh c cl i I Hc ltac:(pose proof (k_num K); lia)) as (p & Hp & -> & Hseg). cbn [mbind option_bind]. destruct p as [s|].
  - destruct (Hseg s eq_refl) as (g & bm & Hs & O). rewrite Hs. cbn [mbind option_bind]. rewrite (k_slabs K). destruct (Z.ltb_spec (slabs_in c) (next_slab g + n2z count)) as [Hf|Hr]; [exists idx; split; [done|by left]|].
    destruct (IH sh c cl count i I Hc ltac:(lia)) as (idx' & -> & [->|(Hlt & H)]); exists idx' || exists i; (split; [done|]); right; (split; [lia|]); [|done]. by exists s, g, bm.
  - destruct (IH sh c cl count idx I Hc ltac:(lia)) as (idx' & -> & [->|(Hlt & H)]); [exists idx; split; [done|by left]|]. exists idx'. split; [done|]. right. split; [lia|done].
Qed.
(** ** Rounds *)

(** [n] slabs of class [c] from [a] on, none of them in use before. *)
Definition placed (sh' : slab_shard) (A : gmap Z Z) (c : nat) (a : Z) (n : nat) : Prop :=
  slab_of geo (base_segments sh') c a /\ (forall i : nat, (i < n)%nat -> A !! (a + n2z i * slab_size c) = None) /\ slab_rep geo sh' (ins_slabs a (slab_size c) n A).

Lemma placed_one sh' A c a : A !! a = None -> slab_of geo (base_segments sh') c a -> slab_rep geo sh' (<[a := slab_size c]> A) -> placed sh' A c a 1.
Proof using Type. intros Ha Ho R. split; [done|]. split; [|done]. intros i Hi. assert (i = 0%nat) as -> by lia. by rewrite Z.mul_0_l, Z.add_0_r. Qed.

(** Why an allocation is rejected: the class cannot grow, and the search, which
    for a single slab runs twice, finds nothing. *)
Definition given_up (A : gmap Z Z) (c p count : nat) (sh' : slab_shard) : Prop :=
  exists sh0 sh1, slab_inv geo sh0 /\ slab_rep geo sh0 A /\ same_shape sh0 sh1 /\ base_segments sh1 = base_segments sh0 /\
    ((count < 2)%nat -> mcd_fth_osd_get_slab geo sh0 c p = Some (None, sh1)) /\ no_segments sh1 /\ mcd_fth_osd_get_slab geo sh1 c p = Some (None, sh').

Definition round_ok (sh : slab_shard) (A : gmap Z Z) (c p count : nat) (r : round) (sh' : slab_shard) : Prop :=
  slab_inv geo sh' /\ slab_keeps sh sh' /\
  match r with
  | Allocated n a => (n = 1%nat \/ n = count) /\ placed sh' A c a n
  | Rejected => slab_rep geo sh' A /\ given_up A c p count sh'
  | Again => slab_rep geo sh' A /\ potential c sh' < potential c sh
  end.

Lemma round_step sh sh1 sh2 A c p count r : same_shape sh sh1 -> round_ok sh1 A c p count r sh2 -> round_ok sh A c p count r sh2.
Proof using Type.
  intros P (I & Q & H). split; [done|]. split; [etrans; [by apply shape_keeps|done]|]. destruct r; [done..|]. destruct H as [R H]. split; [done|]. pose proof (potential_shape sh sh1 c P). lia.
Qed.

Lemma search_or_grow_ok sh c cl (p count : nat) A : slab_inv geo sh -> slab_classes sh !! c = Some cl -> n2z p < num_threads geo -> slab_rep geo sh A ->
  exists r sh', search_or_grow geo junk sh c p count = Some (r, sh') /\ round_ok sh A c p count r sh'.
Proof using Hgeo.
  intros I Hc Hp R. unfold search_or_grow.
  assert (exists r sh1, (if (count <? 2)%nat then mcd_fth_osd_get_slab geo sh c p else Some (None, sh)) = Some (r, sh1) /\ search_ok geo sh A c r sh1) as (r & sh1 & Hgs & I1 & P1 & O1).
  { destruct (count <? 2)%nat; [by apply (get_slab_ok geo Hgeo sh c cl)|]. exists None, sh. split; [done|]. split; [done|]. split; [reflexivity|done]. }
  rewrite Hgs. cbn [mbind option_bind]. destruct r as [a|].
  { exists (Allocated 1 a), sh1. split; [done|]. split; [done|]. split; [by apply shape_keeps|]. split; [by left|]. destruct O1 as (? & ? & ?). by apply placed_one. }
  cbn in O1. destruct (shape_at_class _ _ _ _ P1 Hc) as (cl1 & Hc1 & _). pose proof (rep_base geo sh sh1 A O1 R) as R1.
  destruct (grow_class_ok sh1 c cl1 A I1 Hc1 R1) as (r & sh2 & -> & Hr). cbn [mbind option_bind]. destruct r as [i|].
  - destruct Hr as (I2 & Q2 & R2 & s & g & g' & Hs & Hn & Eb & Hcl & Hnx). exists Again, sh2. split; [done|]. split; [done|]. split; [etrans; [by apply shape_keeps|done]|]. split; [done|].
    apply Z.lt_le_trans with (potential c sh1); [|by apply potential_shape]. by apply (potential_grow sh1 sh2 c s g g').
  - destruct Hr as (-> & Hnone). destruct (get_slab_ok geo Hgeo sh1 c cl1 p A I1 Hc1 Hp R1) as (r & sh3 & E3 & I3 & P3 & O3). rewrite E3. cbn [mbind option_bind fst snd]. eexists _, sh3. split; [done|].
    split; [done|]. split; [apply shape_keeps; by etrans|]. destruct r as [a|].
    + split; [by left|]. destruct O3 as (? & ? & ?). by apply placed_one.
    + cbn in O3. split; [by apply (rep_base geo sh1)|]. exists sh, sh1. split; [done|]. split; [done|]. split; [done|]. split; [done|]. split; [|done]. intros Hlt. by rewrite (proj2 (Nat.ltb_lt _ _) Hlt) in Hgs.
Qed.

Lemma alloc_round_ok sh c cl (p count : nat) A : slab_inv geo sh -> slab_classes sh !! c = Some cl -> n2z p < num_threads geo -> (1 <= count)%nat -> slab_rep geo sh A ->
  exists r sh', alloc_round geo junk sh c p count = Some (r, sh') /\ round_ok sh A c p count r sh'.
Proof using Hgeo.
  intros I Hc Hp Hcount R. unfold alloc_round. rewrite Hc. cbn [mbind option_bind]. pose proof (v_class I _ _ Hc) as K.
  destruct (find_unfilled_ok (num_segments cl) sh c cl count (num_segments cl) I Hc ltac:(lia)) as (idx & -> & Hidx). cbn [mbind option_bind].
  destruct (decide (idx = num_segments cl)) as [_|Hne]; [by apply (search_or_grow_ok sh c cl)|]. destruct Hidx as [|(Hlt & s & g & bm & Hl & Hs & O & Hroom)]; [done|].
  destruct (get_and_lock_ok geo sh c cl idx I Hc ltac:(pose proof (k_num K); lia)) as (q & Hq & -> & _). rewrite Hl in Hq. injection Hq as <-. cbn [mbind option_bind]. rewrite Hs. cbn [mbind option_bind].
  rewrite (k_slabs K), (proj2 (Z.leb_le _ _)) by done. destruct (alloc_low_ok sh s g c cl bm count A I Hs O Hcount Hroom R) as (r & sh1 & -> & I1 & P1 & Hpot & Hr). cbn [mbind option_bind]. destruct r as [a|].
  - eexists _, sh1. split; [done|]. split; [done|]. split; [by apply shape_keeps|]. split; [by right|done].
  - destruct (shape_at_class _ _ _ _ P1 Hc) as (cl1 & Hc1 & (_ & _ & En & Es & _)). rewrite Hc1. cbn [mbind option_bind]. rewrite En, Es.
    destruct (lookup_lt_is_Some_2 (segments cl) (num_segments cl - 1) ltac:(rewrite (k_len K); pose proof (k_num K); lia)) as [q Hq]. rewrite Hq. cbn [mbind option_bind]. case_decide.
    + destruct (search_or_grow_ok sh1 c cl1 p count A I1 Hc1 Hp Hr) as (r & sh2 & -> & H2). exists r, sh2. split; [done|]. by apply (round_step sh sh1).
    + exists Again, sh1. split; [done|]. split; [done|]. split; [by apply shape_keeps|]. by split.
Qed.

(** ** The whole allocation *)

Definition alloc_ok (sh : slab_shard) (A : gmap Z Z) (c p count : nat) (n : nat) (a : Z) (sh' : slab_shard) : Prop :=
  slab_inv geo sh' /\ slab_keeps sh sh' /\ (n = 0%nat /\ slab_rep geo sh' A /\ given_up A c p count sh' \/ (n = 1%nat \/ n = count) /\ placed sh' A c a n).

Lemma slab_keeps_class sh sh' c cl : slab_keeps sh sh' -> slab_classes sh !! c = Some cl -> exists cl', slab_classes sh' !! c = Some cl' /\ same_kind cl cl'.
Proof using Type. intros Q H. destruct (Forall2_lookup_l _ _ _ _ _ (q_classes _ _ Q) H) as (cl' & H' & E). by exists cl'. Qed.

Lemma alloc_loop_ok fuel : forall sh c cl (p count : nat) A, slab_inv geo sh -> slab_classes sh !! c = Some cl -> n2z p < num_threads geo -> (1 <= count)%nat -> slab_rep geo sh A ->
  potential c sh < n2z fuel -> exists n a sh', alloc_loop geo fuel junk sh c p count = Some (n, a, sh') /\ alloc_ok sh A c p count n a sh'.
Proof using Hgeo.
  induction fuel as [|fuel IH]; intros sh c cl p count A I Hc Hp Hcount R Hf; [pose proof (potential_bound sh c I); lia|]. cbn [alloc_loop].
  destruct (alloc_round_ok sh c cl p count A I Hc Hp Hcount R) as (r & sh1 & -> & I1 & Q1 & Hr). cbn [mbind option_bind]. destruct r as [n a| |].
  - exists n, a, sh1. split; [done|]. split; [done|]. split; [done|]. by right.
  - exists 0%nat, 0, sh1. split; [done|]. split; [done|]. split; [done|]. by left.
  - destruct Hr as [R1 Hpot]. destruct (slab_keeps_class _ _ _ _ Q1 Hc) as (cl1 & Hc1 & _). destruct (IH sh1 c cl1 p count A I1 Hc1 Hp Hcount R1 ltac:(lia)) as (n & a & sh2 & -> & I2 & Q2 & H2).
    exists n, a, sh2. split; [done|]. split; [done|]. split; [by etrans|done].
Qed.

(** An allocation of [count] slabs for objects of [nblocks] blocks, when the
    class table leads to class [c]. *)
Lemma slab_alloc_ok sh c cl (p count : nat) nblocks A : slab_inv geo sh -> at_ (class_table sh) nblocks = Some c -> slab_classes sh !! c = Some cl -> n2z p < num_threads geo -> (1 <= count)%nat ->
  slab_rep geo sh A -> exists n a sh', mcd_fth_osd_slab_alloc geo junk sh p nblocks count = Some (n, a, sh') /\ alloc_ok sh A c p count n a sh'.
Proof using Hgeo.
  intros I Ht Hc Hp Hcount R. unfold mcd_fth_osd_slab_alloc. rewrite Ht. cbn [mbind option_bind]. rewrite Hc. cbn [mbind option_bind]. pose proof (g_threads _ Hgeo).
  assert (exists r sh1, (if (count <? 2)%nat then mcd_fth_osd_get_free_slab geo sh c p else Some (None, sh)) = Some (r, sh1) /\ search_ok geo sh A c r sh1) as (r & sh1 & -> & I1 & P1 & O1).
  { destruct (count <? 2)%nat; [apply (get_free_slab_ok geo Hgeo sh c cl); try done; unfold MCD_OSD_MAX_PTHREADS; lia|]. exists None, sh. split; [done|]. split; [done|]. split; [reflexivity|done]. }
  cbn [mbind option_bind]. destruct r as [a|].
  - exists 1%nat, a, sh1. split; [done|]. split; [done|]. split; [by apply shape_keeps|]. right. split; [by left|]. destruct O1 as (? & ? & ?). by apply placed_one.
  - destruct (shape_at_class _ _ _ _ P1 Hc) as (cl1 & Hc1 & _). pose proof (v_class I _ _ Hc) as K. pose proof (potential_bound sh1 c I1). pose proof (q_base _ _ (shape_keeps _ _ P1)).
    pose proof (slabs_in_bound geo c Hgeo). destruct (alloc_loop_ok (alloc_fuel sh1 cl) sh1 c cl1 p count A I1 Hc1 Hp Hcount (rep_base geo sh sh1 A O1 R)) as (n & a & sh2 & -> & I2 & Q2 & Hres).
    + unfold alloc_fuel. rewrite (k_slabs K). nia.
    + exists n, a, sh2. split; [done|]. split; [done|]. split; [etrans; [by apply shape_keeps|done]|done].
Qed.
End alloc.
