(* ===== verification/SlabFree.v ===== *)
(** * The slab allocator: deallocation, new shards and rejections

    First deallocation, raw objects and a new shard, then when an allocation is
    rejected. *)

From stdpp Require Import gmap.
From S2P Require Import Prelude HashTable Slab SlabRep SlabScan SlabAlloc.

(** * The slab allocator: deallocation, raw objects and a new shard

    Freeing a slab removes it from the slabs in use; the allocation for a raw
    object never returns slab 0; a new shard has no slabs in use, and its class
    table leads to the smallest slabs that are large enough. *)

(** ** The class table *)

Definition class_for (b : Z) (c : nat) : Prop := b <= 2 ^ n2z c /\ (c = 0%nat \/ 2 ^ n2z (c - 1) < b).

Lemma class_for_unique b c c' : class_for b c -> class_for b c' -> c = c'.
Proof.
  assert (forall c c', class_for b c -> class_for b c' -> (c < c')%nat -> False) as H.
  { intros d d' [H1 _] [_ [->|H2]] Hlt; [lia|]. pose proof (Z.pow_le_mono_r 2 (n2z d) (n2z (d' - 1)) ltac:(lia) ltac:(lia)). lia. }
  intros H1 H2. destruct (Nat.lt_trichotomy c c') as [Hl|[->|Hl]]; [|done|]; exfalso; eauto.
Qed.

Lemma class_for_size b c : class_for b c -> b <= 2 ^ n2z c < 2 * Z.max 1 b.
Proof.
  intros [H1 H2]. split; [done|]. destruct c as [|c]; [cbn; lia|]. destruct H2 as [|H2]; [lia|]. replace (S c - 1)%nat with c in H2 by lia. rewrite Nat2Z.inj_succ, Z.pow_succ_r by lia. lia.
Qed.

Lemma class_sizes geo total mx : slab_blksize <$> init_classes geo MCD_OSD_MAX_NCLASSES total mx 1 = (fun c => 2 ^ n2z c) <$> seq 0 13.
Proof. reflexivity. Qed.

(** The loop over the classes stops at the smallest that is large enough, when
    those before [j] are too small. *)
Lemma fitting_class_smallest cls i : slab_blksize <$> cls = (fun c => 2 ^ n2z c) <$> seq 0 13 -> i <= MCD_OSD_OBJ_MAX_BLKS ->
  forall n j, (13 <= j + n)%nat -> (j < 13)%nat -> (j = 0%nat \/ 2 ^ n2z (j - 1) < i) ->
  exists c, fitting_class n cls i j = Some c /\ (c < 13)%nat /\ class_for i c.
Proof.
  intros E Hi. assert (forall j, (j < 13)%nat -> exists cl, cls !! j = Some cl /\ slab_blksize cl = 2 ^ n2z j) as Hat.
  { intros j Hj. assert ((slab_blksize <$> cls) !! j = Some (2 ^ n2z j)) as Ej by (rewrite E, list_lookup_fmap, lookup_seq_lt by done; done).
    rewrite list_lookup_fmap in Ej. destruct (cls !! j) as [cl|]; [|done]. injection Ej as Ej. by exists cl. }
  induction n as [|n IH]; intros j Hn Hj Hlow; [lia|]. destruct (Hat j Hj) as (cl & Hcl & Hs). cbn [fitting_class]. rewrite Hcl. cbn [mbind option_bind]. rewrite Hs.
  destruct (Z.ltb_spec (2 ^ n2z j) i) as [Hlt|Hge]; [|by exists j].
  apply IH; [lia| |right; by replace (S j - 1)%nat with j by lia].
  destruct (decide (j = 12)%nat) as [->|]; [|lia]. change (2 ^ n2z 12) with 4096 in Hlt. unfold MCD_OSD_OBJ_MAX_BLKS in Hi. lia.
Qed.

Lemma init_class_table_smallest cls : slab_blksize <$> cls = (fun c => 2 ^ n2z c) <$> seq 0 13 ->
  forall n i j, i + n2z n <= MCD_OSD_OBJ_MAX_BLKS + 1 -> (j < 13)%nat -> (j = 0%nat \/ 2 ^ n2z (j - 1) < i) ->
  exists t, init_class_table n cls i j = Some t /\ forall b : nat, (b < n)%nat -> exists c, t !! b = Some c /\ (c < 13)%nat /\ class_for (i + n2z b) c.
Proof.
  intros E. induction n as [|n IH]; intros i j Hn Hj Hlow; cbn [init_class_table]; [by exists []; split; [|lia]|].
  destruct (fitting_class_smallest cls i E ltac:(lia) MCD_OSD_MAX_NCLASSES j) as (c & -> & Hc & Hfor); [unfold MCD_OSD_MAX_NCLASSES; lia|done|done|]. cbn [mbind option_bind].
  destruct (IH (i + 1) c) as (t & -> & Ht); [lia|done|destruct (proj2 Hfor); [by left|right; lia]|]. cbn [mbind option_bind]. eexists. split; [done|].
  intros [|b] Hb; [exists c; by rewrite Z.add_0_r|]. destruct (Ht b ltac:(lia)) as (d & Hd & Hd1 & Hd2). exists d. split; [done|]. split; [done|]. by replace (i + n2z (S b)) with (i + 1 + n2z b) by lia.
Qed.

Lemma init_class_table_right cls n : slab_blksize <$> cls = (fun c => 2 ^ n2z c) <$> seq 0 13 -> n2z n = MCD_OSD_OBJ_MAX_BLKS + 1 ->
  exists t, init_class_table n cls 0 0 = Some t /\ forall b, 0 <= b <= MCD_OSD_OBJ_MAX_BLKS -> exists c, t !! z2n b = Some c /\ (c < 13)%nat /\ class_for b c.
Proof.
  intros Ec En. destruct (init_class_table_smallest cls Ec n 0 0) as (t & E & Ht); [lia|lia|by left|].
  exists t. split; [done|]. intros b Hb. destruct (Ht (z2n b)) as (c & Hc & Hc' & Hf); [lia|]. exists c. by rewrite Z.add_0_l, Z2Nat.id in Hf by lia.
Qed.

Lemma table_length : n2z (z2n (MCD_OSD_OBJ_MAX_BLKS + 1)) = MCD_OSD_OBJ_MAX_BLKS + 1.
Proof. by apply Z2Nat.id. Qed.

Section free.
Context (geo : geometry) (Hgeo : geo_ok geo) (junk : nat -> Z).

Abbreviation seg_blks := (Mcd_osd_segment_blks geo).
Abbreviation slab_size c := (2 ^ n2z c).
Abbreviation slabs_in c := (Mcd_osd_segment_blks geo / 2 ^ n2z c).
Abbreviation slab_addr s k c := (n2z s * Mcd_osd_segment_blks geo + k * 2 ^ n2z c).

(** A shard with its class table. *)
Record shard_inv (sh : slab_shard) : Prop := {
  w_inv : slab_inv geo sh;
  w_table : forall b, 0 <= b <= MCD_OSD_OBJ_MAX_BLKS -> exists c cl, at_ (class_table sh) b = Some c /\ slab_classes sh !! c = Some cl /\ class_for b c
}.

Lemma slab_keeps_table sh sh' : slab_keeps sh sh' -> slab_inv geo sh' -> shard_inv sh -> shard_inv sh'.
Proof using Type.
  intros Q I [_ H]. split; [done|]. intros b Hb. destruct (H b Hb) as (c & cl & H1 & H2 & H3). destruct (slab_keeps_class _ _ _ _ Q H2) as (cl' & H2' & _). exists c, cl'. by rewrite (q_class_table _ _ Q).
Qed.

(** ** Deallocation *)

(** The segment of a slab in use. *)
Lemma slab_used_at sh A a n : slab_inv geo sh -> slab_rep geo sh A -> A !! a = Some n ->
  exists s g c cl bm k, base_segments sh !! s = Some g /\ seg_ok geo (slab_classes sh) (segment_table sh) s g c cl bm /\ 0 <= k < slabs_in c /\ slot_bit bm k = true /\ a = slab_addr s k c /\ n = slab_size c /\
    at_ (segment_table sh) (a / seg_blks) = Some (Some s).
Proof using Hgeo.
  intros I R Ha. apply R in Ha as (s & g & c & bm & k & Hs & Hc & Hm & Hk & Hb & -> & ->). destruct (v_seg I s g Hs) as [F|(d & cl & bm2 & O)]; [by rewrite (f_class F) in Hc|].
  rewrite (s_class O) in Hc. injection Hc as ->. pose proof (s_map O) as E. rewrite Hm in E. injection E as <-. exists s, g, c, cl, bm, k. split; [done|]. split; [done|]. split; [done|]. split; [done|]. split; [done|]. split; [done|].
  rewrite slab_place by done. apply at_Some. split; [lia|]. rewrite Nat2Z.id. apply (s_table O).
Qed.

Lemma dealloc_low_one sh A s c g cl bm k : slab_inv geo sh -> slab_rep geo sh A -> base_segments sh !! s = Some g -> seg_ok geo (slab_classes sh) (segment_table sh) s g c cl bm -> 0 <= k < slabs_in c -> slot_bit bm k = true ->
  exists sh', mcd_fth_osd_slab_dealloc_low sh s (slab_addr s k c) 1 = Some sh' /\ slab_inv geo sh' /\ same_shape sh sh' /\ slab_rep geo sh' (delete (slab_addr s k c) A).
Proof using Hgeo. intros I R Hs O Hk Hb. apply (dealloc_low_ok geo Hgeo sh s g c cl bm k 1 A); try done; [lia|lia|]. intros j Hj. by assert (j = k) as -> by lia. Qed.

Lemma pending_inv sh c cl n m : slab_inv geo sh -> slab_classes sh !! c = Some cl -> slab_inv geo (set_blk_pending (set_class sh c (class_pending cl n)) m).
Proof using Type.
  intros I Hc. assert (slab_inv geo (set_class sh c (class_pending cl n))) as [V1 V2 V3 V4 V5 V6 V7 V8 V9 V10 V11]; [|by split]. apply (class_inv geo sh c cl); try done. destruct (v_class I _ _ Hc). by split.
Qed.

(** The shard with one pending deallocation less, or more, in class [c]. *)
Definition add_pending (sh : slab_shard) (c : nat) (cl : mcd_osd_slab_class) (n : Z) : slab_shard := set_class sh c (class_pending cl (dealloc_pending cl + n)).

Lemma dealloc_ok sh A (p : nat) a n (async : bool) : slab_inv geo sh -> slab_rep geo sh A -> A !! a = Some n -> (p < MCD_OSD_MAX_PTHREADS)%nat ->
  (async = true -> forall c cl, n = slab_size c -> slab_classes sh !! c = Some cl -> dealloc_pending cl <> 0) ->
  exists sh', mcd_fth_osd_slab_dealloc geo sh p a async = Some sh' /\ slab_inv geo sh' /\ slab_rep geo sh' (delete a A) /\
    exists c cl, n = slab_size c /\ slab_classes sh !! c = Some cl /\ slab_keeps (if async then add_pending sh c cl (-1) else sh) sh'.
Proof using Hgeo.
  intros I R Ha Hp Hpend. destruct (slab_used_at sh A a n I R Ha) as (s & g & c & cl & bm & k & Hs & O & Hk & Hb & -> & -> & Ht). unfold mcd_fth_osd_slab_dealloc. rewrite Ht. cbn [mbind option_bind].
  destruct (dealloc_low_one sh A s c g cl bm k I R Hs O Hk Hb) as (sh1 & -> & I1 & P1 & R1). cbn [mbind option_bind]. destruct (shape_at_segment _ _ _ _ P1 Hs) as (g1 & Hs1 & (Ec & _) & _). rewrite Hs1. cbn [mbind option_bind].
  rewrite Ec, (s_class O). cbn [mbind option_bind]. destruct (shape_at_class _ _ _ _ P1 (s_cl O)) as (cl1 & Hc1 & Hcl1). rewrite Hc1. cbn [mbind option_bind]. pose proof Hcl1 as (_ & _ & _ & _ & Epend).
  destruct async.
  - rewrite Epend, assert_true by (apply negb_true_iff, Z.eqb_neq; apply (Hpend eq_refl c cl); [done|apply (s_cl O)]). cbn [mbind option_bind gc set_blk_pending set_class]. rewrite (v_gc I1), andb_false_r. eexists. split; [done|].
    split; [by apply pending_inv|]. split; [done|]. exists c, cl. split; [done|]. split; [apply (s_cl O)|]. split; cbn.
    + apply Forall2_insert; [apply (q_classes _ _ (shape_keeps _ _ P1))|]. destruct Hcl1 as (E1 & E2 & _). done.
    + apply (q_base _ _ (shape_keeps _ _ P1)).
    + apply P1.
    + apply P1.
  - pose proof (v_class I1 _ _ Hc1) as K1. destruct (lookup_lt_is_Some_2 (free_slabs cl1) p ltac:(rewrite (k_free K1); done)) as [l Hl]. rewrite Hl. cbn [mbind option_bind].
    assert (slab_of geo (base_segments sh1) c (slab_addr s k c)) as Hof by (exists s, g1, k; rewrite Ec; split; [done|]; split; [apply (s_class O)|done]).
    destruct (free_class_inv geo sh1 c cl1 p (slab_addr s k c :: l) I1 Hc1) as [I2 P2].
    { intros b [->|Hb']%elem_of_cons; [done|]. by apply (k_stack K1 p l). }
    destruct (lenZ l <? freelist_len cl1); cbn [mbind option_bind]; rewrite ?(v_gc I1), ?(v_gc I2), andb_false_r; eexists; (split; [done|]); (split; [done|]); (split; [done|]); exists c, cl; (split; [done|]); (split; [apply (s_cl O)|]); apply shape_keeps; [by etrans|done].
Qed.

(** ** Raw objects *)

Lemma alloc_raw_ok sh (p : nat) nblocks A : shard_inv sh -> slab_rep geo sh A -> 0 <= nblocks <= MCD_OSD_OBJ_MAX_BLKS -> n2z p < num_threads geo ->
  exists r sh', alloc_raw geo 1 junk sh p nblocks = Some (r, sh') /\ slab_inv geo sh' /\ slab_keeps sh sh' /\
    match r with None => slab_rep geo sh' A | Some a => a <> 0 /\ exists c, class_for nblocks c /\ placed geo sh' A c a 1 end.
Proof using Hgeo.
  intros W R Hb Hp. destruct (w_table _ W nblocks Hb) as (c & cl & Ht & Hc & Hfor). cbn [alloc_raw].
  destruct (slab_alloc_ok geo Hgeo junk sh c cl p 1 nblocks A (w_inv _ W) Ht Hc Hp ltac:(lia) R) as (n & a & sh1 & -> & I1 & Q1 & Hr). cbn [mbind option_bind].
  destruct Hr as [(-> & R1 & _)|(Hn & Hpl)]; cbn [Nat.eqb negb].
  { exists None, sh1. done. }
  assert (n = 1%nat) as -> by lia. cbn [Nat.eqb negb]. destruct (Z.eqb_spec a 0) as [->|Hne]; cbn [negb].
  2: { exists (Some a), sh1. split; [done|]. split; [done|]. split; [done|]. split; [done|]. by exists c. }
  destruct Hpl as (Hof1 & Hfree1 & R1). cbn in R1. specialize (Hfree1 0%nat ltac:(lia)). rewrite Z.mul_0_l, Z.add_0_r in Hfree1.
  destruct (slab_keeps_class _ _ _ _ Q1 Hc) as (cl1 & Hc1 & _). rewrite <- (q_class_table _ _ Q1) in Ht.
  destruct (slab_alloc_ok geo Hgeo junk sh1 c cl1 p 1 nblocks _ I1 Ht Hc1 Hp ltac:(lia) R1) as (n & a1 & sh2 & -> & I2 & Q2 & Hr). cbn [mbind option_bind].
  assert (exists A', slab_rep geo sh2 A' /\ A' !! 0 = Some (slab_size c) /\ (n = 0%nat /\ A' = <[0 := slab_size c]> A \/ n = 1%nat /\ a1 <> 0 /\ A !! a1 = None /\ slab_of geo (base_segments sh2) c a1 /\ A' = <[a1 := slab_size c]> (<[0 := slab_size c]> A))) as (A' & R2 & H0 & Hcase).
  { destruct Hr as [(-> & R2 & _)|(Hn2 & Hof2 & Hfree2 & R2)]; [exists (<[0 := slab_size c]> A); split; [done|]; split; [apply lookup_insert_eq|by left]|].
    assert (n = 1%nat) as -> by lia. specialize (Hfree2 0%nat ltac:(lia)). rewrite Z.mul_0_l, Z.add_0_r in Hfree2.
    assert (a1 <> 0) as Hne by (intros ->; by rewrite lookup_insert_eq in Hfree2). rewrite lookup_insert_ne in Hfree2 by done.
    exists (<[a1 := slab_size c]> (<[0 := slab_size c]> A)). split; [done|]. split; [by rewrite lookup_insert_ne, lookup_insert_eq|]. by right. }
  unfold mcd_fth_osd_slab_dealloc_low_special. cbn [Z.eqb assert_ mbind option_bind]. destruct (slab_used_at sh2 A' 0 _ I2 R2 H0) as (s & g & d & cl2 & bm & k & Hs & O & Hk & Hbit & E0 & _ & Hat). rewrite Hat. cbn [mbind option_bind].
  destruct (dealloc_low_one sh2 A' s d g cl2 bm k I2 R2 Hs O Hk Hbit) as (sh3 & E3 & I3 & P3 & R3). rewrite <- E0 in E3, R3. rewrite E3. cbn [mbind option_bind].
  assert (slab_keeps sh sh3) as Q3 by (etrans; [done|]; etrans; [done|by apply shape_keeps]).
  destruct Hcase as [(-> & ->)|(-> & Hne & Hfree & Hof & ->)]; cbn [Nat.eqb negb].
  - exists None, sh3. split; [done|]. split; [done|]. split; [done|]. by rewrite delete_insert_id in R3.
  - rewrite (proj2 (Z.eqb_neq _ _)) by done. cbn [negb]. exists (Some a1), sh3. split; [done|]. split; [done|]. split; [done|]. split; [done|]. exists c. split; [done|]. apply placed_one; [done|..].
    + destruct Hof as (t & h & j & Ht2 & Hd & Hj & ->). destruct (shape_at_segment _ _ _ _ P3 Ht2) as (h3 & Hh3 & (E & _) & _). exists t, h3, j. by rewrite E.
    + rewrite delete_insert_ne in R3 by done. by rewrite delete_insert_id in R3.
Qed.
(** ** A new shard *)

Definition new_class (total mx : Z) (c : nat) : mcd_osd_slab_class :=
  mk_class 0 0 0 (slab_size c) (seg_blks / slab_size c) 0 (replicate (z2n mx) None) (clip_freelist (total / 32768 / slab_size c))
    (replicate MCD_OSD_MAX_PTHREADS []) (replicate MCD_OSD_MAX_PTHREADS 0).

Lemma init_classes_at n total mx : forall c i cl, init_classes geo n total mx (slab_size c) !! i = Some cl -> cl = new_class total mx (c + i).
Proof using Type.
  induction n as [|n IH]; intros c i cl; [done|]. cbn [init_classes]. destruct i as [|i].
  - intros [= <-]. by rewrite Nat.add_0_r.
  - cbn [lookup list_lookup]. destruct (MCD_OSD_OBJ_MAX_BLKS <? slab_size c); [done|]. intros H. replace (slab_size c * 2) with (slab_size (S c)) in H by (rewrite Nat2Z.inj_succ, Z.pow_succ_r by lia; lia).
    rewrite (IH (S c) i cl H). f_equal. lia.
Qed.

Lemma no_sum f n : f no_segment = 0 -> seg_sum f (replicate n no_segment) = 0.
Proof using Type. intros H. induction n as [|n IH]; [done|]. cbn [replicate]. rewrite seg_sum_cons, H, IH. done. Qed.

Lemma new_class_ok total c (n : nat) : class_ok geo (replicate n no_segment) c (new_class total (n2z n) c).
Proof using Type.
  unfold new_class. split; cbn [cl_used_slabs total_slabs slab_blksize slabs_per_segment num_segments segments free_slabs scan_hand]; rewrite ?Nat2Z.id, ?length_replicate; try done.
  - lia.
  - intros i s H. by apply lookup_replicate in H as [H _].
  - by rewrite no_sum.
  - by rewrite no_sum.
  - by apply Forall_replicate.
  - intros p l a H Ha. apply lookup_replicate in H as [-> _]. by apply not_elem_of_nil in Ha.
Qed.

Lemma shard_init_ok (n : nat) fe : n2z n * seg_blks <= 2 ^ 49 ->
  exists sh, mcd_osd_slab_shard_init geo (n2z n) false fe = Some sh /\ shard_inv sh /\ slab_rep geo sh ∅ /\ (forall c cl, slab_classes sh !! c = Some cl -> dealloc_pending cl = 0) /\
    total_blks sh = n2z n * seg_blks.
Proof using Hgeo.
  intros Hsize. unfold mcd_osd_slab_shard_init. cbv zeta. pose proof (seg_blks_bound geo Hgeo) as HB. assert (0 < Mcd_osd_segment_size geo) as Hpos.
  { destruct (g_seg _ Hgeo) as (e & He & ->). pose proof (Z.pow_pos_nonneg 2 e ltac:(lia) ltac:(lia)). pose proof (g_blk _ Hgeo). nia. }
  rewrite Z.div_mul by lia. destruct (init_class_table_right _ _ (class_sizes geo (n2z n * seg_blks) (n2z n)) table_length) as (t & -> & Ht). cbn [mbind option_bind]. eexists. split; [done|].
  set (cls := init_classes geo MCD_OSD_MAX_NCLASSES (n2z n * seg_blks) (n2z n) 1). assert (forall c cl, cls !! c = Some cl -> cl = new_class (n2z n * seg_blks) (n2z n) c) as Hcls.
  { intros c cl H. apply (init_classes_at _ _ _ 0 c cl) in H. done. }
  rewrite Nat2Z.id. split; [split|split; [|split]].
  - split; cbn; rewrite ?length_replicate; try done.
    + intros c cl H. rewrite (Hcls c cl H). apply new_class_ok.
    + intros s g H. left. apply lookup_replicate in H as [-> Hs]. split; try done. by apply lookup_replicate.
    + exists 0%nat. split; [lia|lia].
    + intros s g H. apply lookup_replicate in H as [-> Hs]. done.
    + intros a Ha. by apply not_elem_of_nil in Ha.
    + constructor.
  - intros b Hb. cbn [class_table slab_classes]. destruct (Ht b Hb) as (c & Ec & H1 & Hfor).
    assert (c < length cls)%nat as Hl. { assert (length (slab_blksize <$> cls) = 13%nat) as E by (unfold cls; rewrite class_sizes; done). rewrite length_fmap in E. lia. }
    destruct (lookup_lt_is_Some_2 _ _ Hl) as [cl Hcl]. exists c, cl. split; [apply at_Some; split; [lia|done]|]. by split.
  - intros a m. cbn. rewrite lookup_empty. split; [done|]. intros (s & g & c & bm & k & Hs & Hc & _). apply lookup_replicate in Hs as [-> _]. done.
  - intros c cl H. by rewrite (Hcls c cl H).
  - done.
Qed.

Lemma shard_init_fresh (n : nat) fe sh : mcd_osd_slab_shard_init geo (n2z n) false fe = Some sh ->
  free_segments sh = [] /\ from_end sh = fe /\ base_segments sh = replicate n no_segment /\ length (slab_classes sh) = 13%nat /\ (forall c cl, slab_classes sh !! c = Some cl -> num_segments cl = 0%nat).
Proof using Hgeo.
  unfold mcd_osd_slab_shard_init. cbv zeta. assert (0 < Mcd_osd_segment_size geo) as Hpos.
  { destruct (g_seg _ Hgeo) as (e & He & ->). pose proof (Z.pow_pos_nonneg 2 e ltac:(lia) ltac:(lia)). pose proof (g_blk _ Hgeo). nia. }
  rewrite Z.div_mul by lia. destruct (init_class_table_right _ _ (class_sizes geo (n2z n * seg_blks) (n2z n)) table_length) as (t & -> & _). cbn [mbind option_bind]. intros E%(inj Some). rewrite <- E. cbn [free_segments from_end base_segments slab_classes]. rewrite Nat2Z.id.
  split; [done|]. split; [done|]. split; [done|]. split; [exact (eq_trans (eq_sym (length_fmap slab_blksize _)) (f_equal length (class_sizes geo (n2z n * seg_blks) (n2z n))))|]. intros c cl H. by rewrite (init_classes_at _ _ _ 0 c cl H).
Qed.
End free.

(** * The slab allocator: when an allocation is rejected

    A request for one slab is rejected only when no segment is left and the part
    of the thread in every segment of the class is in use, unless the hand of the
    search, a number of 32 bits, has just wrapped around. *)

(** ** Hands *)

Lemma hand_upper spp n : forall h, 0 < spp -> 0 <= h -> hand_at spp h n <= h + n2z n * spp.
Proof.
  induction n as [|n IH]; intros h Hs Hh; [cbn; lia|]. cbn [hand_at]. pose proof (Z.mod_pos_bound h spp Hs). specialize (IH (u32 (h + (spp - h mod spp))) Hs ltac:(apply u32_range)).
  assert (u32 (h + (spp - h mod spp)) <= h + (spp - h mod spp)) by (apply Z.mod_le; lia). lia.
Qed.

(** After a step the hand is at the start of a part, or has wrapped around. *)
Lemma hand_aligned spp n : forall h, 0 < spp -> 0 <= h < 2 ^ 32 -> (1 <= n)%nat -> hand_at spp h n mod spp = 0 \/ hand_at spp h n < spp.
Proof.
  induction n as [|n IH]; intros h Hs Hh Hn; [lia|]. cbn [hand_at]. destruct n as [|n]; [|apply IH; [done|apply u32_range|lia]]. cbn [hand_at].
  pose proof (Z.mod_pos_bound h spp Hs). pose proof (Z.div_mod h spp ltac:(lia)). destruct (Z.lt_ge_cases (h + (spp - h mod spp)) (2 ^ 32)) as [Hlt|Hge].
  - left. rewrite u32_small by lia. replace (h + (spp - h mod spp)) with ((h / spp + 1) * spp) by lia. apply Z.mod_mul. lia.
  - right. unfold u32. replace (h + (spp - h mod spp)) with (h + (spp - h mod spp) - 2 ^ 32 + 1 * 2 ^ 32) by lia. rewrite Z.mod_add by lia.
    apply Z.le_lt_trans with (h + (spp - h mod spp) - 2 ^ 32); [apply Z.mod_le|]; lia.
Qed.

(** Without a wrap the hand visits parts in sequence. *)
Lemma hand_straight spp n : forall h, 0 < spp -> 0 <= h < 2 ^ 32 -> h mod spp = 0 -> n2z n * spp <= hand_at spp h n -> forall i, (i <= n)%nat -> hand_at spp h i = h + n2z i * spp.
Proof.
  induction n as [|n IH]; intros h Hs Hh Hm Hle i Hi; [assert (i = 0%nat) as -> by lia; cbn; lia|]. destruct i as [|i]; [cbn; lia|]. cbn [hand_at] in *. rewrite Hm, Z.sub_0_r in *.
  destruct (Z.lt_ge_cases (h + spp) (2 ^ 32)) as [Hlt|Hge].
  - rewrite u32_small in * by lia. rewrite (IH (h + spp)); try done; try lia. rewrite <- Hm, <- (Z.mod_add h 1 spp) by lia. f_equal. lia.
  - exfalso. assert (u32 (h + spp) < spp).
    { unfold u32. replace (h + spp) with (h + spp - 2 ^ 32 + 1 * 2 ^ 32) by lia. rewrite Z.mod_add by lia. apply Z.le_lt_trans with (h + spp - 2 ^ 32); [apply Z.mod_le|]; lia. }
    pose proof (hand_upper spp n (u32 (h + spp)) Hs ltac:(apply u32_range)). lia.
Qed.

(** [n] numbers in sequence reach every remainder. *)
Lemma reach_index h n j : 0 <= j < n2z n -> exists i : nat, (i < n)%nat /\ (h + n2z i) mod n2z n = j.
Proof.
  intros Hj. pose proof (Z.mod_pos_bound (j - h) (n2z n) ltac:(lia)). exists (z2n ((j - h) mod n2z n)). split; [lia|]. rewrite Z2Nat.id, Zplus_mod_idemp_r by lia.
  replace (h + (j - h)) with j by lia. apply Z.mod_small. lia.
Qed.

Section full.
Context (geo : geometry) (Hgeo : geo_ok geo) (junk : nat -> Z).

Abbreviation seg_blks := (Mcd_osd_segment_blks geo).
Abbreviation slab_size c := (2 ^ n2z c).
Abbreviation slabs_in c := (Mcd_osd_segment_blks geo / 2 ^ n2z c).
Abbreviation slab_addr s k c := (n2z s * Mcd_osd_segment_blks geo + k * 2 ^ n2z c).

(** ** The stack leaves the hands *)

Lemma slot_alloc_classes sh s k sh' : mcd_osd_slab_slot_alloc sh s k = Some (None, sh') -> slab_classes sh' = slab_classes sh.
Proof using Type. unfold mcd_osd_slab_slot_alloc. intros H. peel H. destruct (negb _); [by injection H as <-|]. peel H. done. Qed.

Lemma take_free_hands stack : forall sh c p sh' cl, slab_classes sh !! c = Some cl -> take_free_slab geo sh c p stack = Some (None, sh') ->
  exists cl', slab_classes sh' !! c = Some cl' /\ scan_hand cl' = scan_hand cl.
Proof using Type.
  induction stack as [|a stack IH]; intros sh c p sh' cl Hc H; cbn [take_free_slab] in H; [injection H as <-; by exists cl|].
  rewrite Hc in H. cbn [mbind option_bind] in H. destruct (put_ _ _ _) as [l|]; [|done]. cbn [mbind option_bind] in H. cbv zeta in H. set (cl1 := class_free cl l) in *. set (sh1 := set_class sh c cl1) in *.
  assert (slab_classes sh1 !! c = Some cl1) as Hc1 by (apply list_lookup_insert_eq; by apply lookup_lt_Some in Hc).
  destruct (at_ _ _) as [[s|]|]; [|done..]. cbn [mbind option_bind] in H. destruct (mcd_osd_segment_lock sh1 cl1 s) as [[t|]|]; [| |done]; cbn [mbind option_bind] in H.
  - destruct (base_segments sh1 !! t) as [g|]; [|done]. cbn [mbind option_bind] in H. destruct (mcd_osd_slab_slot_alloc sh1 t _) as [[[b|] sh2]|] eqn:E; [done| |done]. cbn [mbind option_bind] in H.
    apply slot_alloc_classes in E. rewrite <- E in Hc1. by apply (IH sh2 c p sh' cl1).
  - by apply (IH sh1 c p sh' cl1).
Qed.

(** ** One search *)

(** What a search that finds nothing has seen, and where it leaves the hand. *)
Definition seen (base : list mcd_osd_segment) (c p : nat) (cl : mcd_osd_slab_class) (sh' : slab_shard) : Prop :=
  let spp := slabs_in c / num_threads geo in
  num_segments cl = 0%nat \/
  if spp <=? 1 then exists h cl', scan_hand cl !! 0%nat = Some h /\ 0 <= h < 2 ^ 32 /\ slab_classes sh' !! c = Some cl' /\ scan_hand cl' !! 0%nat = Some (u32 (h + n2z (num_segments cl))) /\
    forall i : nat, (i < num_segments cl)%nat -> place_full base cl 0 (slabs_in c) (z2n (u32 (h + n2z i) mod n2z (num_segments cl)))
  else total_slabs cl <= cl_used_slabs cl \/
    exists h cl', scan_hand cl !! p = Some h /\ 0 <= h < 2 ^ 32 /\ slab_classes sh' !! c = Some cl' /\ scan_hand cl' !! p = Some (hand_at spp h (num_segments cl)) /\
    forall i : nat, (i < num_segments cl)%nat -> place_full base cl (n2z p * spp + hand_at spp h i mod spp) (n2z p * spp + spp) (z2n (hand_at spp h i / spp mod n2z (num_segments cl))).

Lemma get_slab_seen sh c cl (p : nat) A sh' : slab_inv geo sh -> slab_classes sh !! c = Some cl -> n2z p < num_threads geo -> slab_rep geo sh A -> mcd_fth_osd_get_slab geo sh c p = Some (None, sh') ->
  seen (base_segments sh) c p cl sh'.
Proof using Hgeo.
  intros I Hc Hp R. pose proof (g_threads _ Hgeo) as Ht. unfold mcd_fth_osd_get_slab. destruct (get_free_slab_ok geo Hgeo sh c cl p A I Hc ltac:(unfold MCD_OSD_MAX_PTHREADS; lia) R) as (r & sh1 & E1 & I1 & P1 & O1). rewrite E1. cbn [mbind option_bind].
  destruct r as [a|]; [done|]. cbn in O1. destruct (shape_at_class _ _ _ _ P1 Hc) as (cl1 & Hc1 & (_ & _ & En & Es & _)). rewrite Hc1. cbn [mbind option_bind].
  assert (scan_hand cl1 = scan_hand cl) as Eh.
  { unfold mcd_fth_osd_get_free_slab in E1. rewrite Hc in E1. cbn [mbind option_bind] in E1. destruct (free_slabs cl !! p) as [l|]; [|done]. destruct (take_free_hands l sh c p sh1 cl Hc E1) as (x & Hx & <-). congruence. }
  pose proof (v_class I1 _ _ Hc1) as K1. pose proof (v_class I _ _ Hc) as K. pose proof (rep_base geo sh sh1 A O1 R) as R1.
  assert (total_slabs cl1 = total_slabs cl) as Et by (rewrite (k_total K1), (k_total K), O1; done). assert (cl_used_slabs cl1 = cl_used_slabs cl) as Eu by (rewrite (k_used K1), (k_used K), O1; done).
  unfold seen. cbv zeta. rewrite <- En. destruct (Nat.eqb_spec (num_segments cl1) 0) as [E0|E0]; [by left|]. intros H. right. rewrite (k_slabs K1) in H. destruct (Z.leb_spec (slabs_in c / num_threads geo) 1) as [Hsm|Hlg].
  - pose proof (small_class geo Hgeo c Hsm). rewrite (assert_true (slabs_in c <=? 64)) in H by (by apply Z.leb_le). cbn [mbind option_bind] in H.
    destruct (lookup_lt_is_Some_2 (scan_hand cl1) 0 ltac:(rewrite (k_hand K1); unfold MCD_OSD_MAX_PTHREADS; lia)) as [h Hh]. rewrite Hh in H. cbn [mbind option_bind] in H.
    destruct (scan_small_ok geo Hgeo (num_segments cl1) sh1 c cl1 h A I1 Hc1 ltac:(lia) Hh ltac:(done) R1) as (r & sh2 & E2 & _ & Hn). rewrite E2 in H. injection H as -> ->. destruct (Hn eq_refl) as (Hall & cl2 & Hc2 & Hh2).
    exists h, cl2. rewrite <- Eh. split; [done|]. split; [eapply (Forall_at (k_hands K1)); done|]. split; [done|]. split; [done|]. intros i Hi. apply (place_shape _ _ cl1); [done|]. rewrite <- O1. by apply Hall.
  - rewrite Eu, Et in H. destruct (Z.ltb_spec (cl_used_slabs cl) (total_slabs cl)); [|left; lia]. right.
    destruct (lookup_lt_is_Some_2 (scan_hand cl1) p ltac:(rewrite (k_hand K1); unfold MCD_OSD_MAX_PTHREADS; lia)) as [h Hh]. rewrite Hh in H. cbn [mbind option_bind] in H.
    assert (0 <= h < 2 ^ 32) as Hhr by (eapply (Forall_at (k_hands K1)); done).
    destruct (scan_large_ok geo Hgeo (num_segments cl1) sh1 c cl1 p (slabs_in c / num_threads geo) h A I1 Hc1) as (r & sh2 & E2 & _ & Hn); try done; [lia|unfold MCD_OSD_MAX_PTHREADS; lia|lia| |].
    + pose proof (threads_part geo Hgeo c p ltac:(by right)) as [_ H2]. unfold part_of in H2. cbv zeta in H2. rewrite (proj2 (Z.leb_gt _ _)) in H2 by lia. done.
    + rewrite E2 in H. injection H as -> ->. destruct (Hn eq_refl) as (Hall & cl2 & Hc2 & Hh2). exists h, cl2. rewrite <- Eh. split; [done|]. split; [done|]. split; [done|]. split; [done|]. intros i Hi.
      apply (place_shape _ _ cl1); [done|]. rewrite <- O1. by apply Hall.
Qed.
(** ** The class is full *)

(** The slabs of class [c] in the part of thread [p] are in use. *)
Definition part_used (sh : slab_shard) (A : gmap Z Z) (c p : nat) : Prop :=
  forall s g k, base_segments sh !! s = Some g -> sg_class g = Some c -> fst (part_of geo c p) <= k < snd (part_of geo c p) -> A !! slab_addr s k c = Some (slab_size c).

(** The hand of the search is in its first turn: it may have wrapped around. *)
Definition first_turn (sh : slab_shard) (c p : nat) : Prop :=
  let spp := slabs_in c / num_threads geo in
  exists cl h, slab_classes sh !! c = Some cl /\ scan_hand cl !! (if spp <=? 1 then 0%nat else p) = Some h /\ h < (n2z (num_segments cl) + 1) * Z.max 1 spp.

Lemma places_used sh c cl p A : slab_inv geo sh -> slab_rep geo sh A -> slab_classes sh !! c = Some cl -> n2z p < num_threads geo ->
  (forall i : nat, (i < num_segments cl)%nat -> place_full (base_segments sh) cl (fst (part_of geo c p)) (snd (part_of geo c p)) i) -> part_used sh A c p.
Proof using Hgeo.
  intros I R Hc Hp H s g k Hs Hg Hk. destruct (v_seg I s g Hs) as [F|(d & cl' & bm & O)]; [by rewrite (f_class F) in Hg|]. rewrite (s_class O) in Hg. injection Hg as ->. pose proof (s_cl O) as E. rewrite Hc in E. injection E as <-.
  pose proof (threads_part geo Hgeo c p ltac:(by right)) as [H1 H2]. rewrite (slot_in_use geo Hgeo sh s g c cl bm k A Hs O ltac:(lia) R).
  destruct (k_ptr (v_class I _ _ Hc) (sg_idx g) s (s_listed O)) as [Hi _]. rewrite (H (sg_idx g) Hi s g bm k (s_listed O) Hs (s_map O) Hk). done.
Qed.

(** When the count of a class says that it is full, all its slabs are in use. *)
Lemma class_full sh c cl p A : slab_inv geo sh -> slab_rep geo sh A -> slab_classes sh !! c = Some cl -> n2z p < num_threads geo -> total_slabs cl <= cl_used_slabs cl -> part_used sh A c p.
Proof using Hgeo.
  intros I R Hc Hp Hfull s g k Hs Hg Hk. destruct (v_seg I s g Hs) as [F|(d & cl' & bm & O)]; [by rewrite (f_class F) in Hg|]. rewrite (s_class O) in Hg. injection Hg as ->. pose proof (s_cl O) as E. rewrite Hc in E. injection E as <-.
  pose proof (threads_part geo Hgeo c p ltac:(by right)) as [H1 H2]. rewrite (slot_in_use geo Hgeo sh s g c cl bm k A Hs O ltac:(lia) R). rewrite (full_segment geo Hgeo sh s g c cl bm k); try done; [|lia].
  pose proof (v_class I _ _ Hc) as K. rewrite (k_total K), (k_used K) in Hfull. set (f := fun g => in_class c (fun _ => slabs_in c) g - in_class c used_slabs g).
  assert (seg_sum f (base_segments sh) = seg_sum (in_class c (fun _ => slabs_in c)) (base_segments sh) - seg_sum (in_class c used_slabs) (base_segments sh)) as Es.
  { clear. unfold f. induction (base_segments sh) as [|x l IH]; [done|]. rewrite !seg_sum_cons, IH. lia. }
  assert (f g <= seg_sum f (base_segments sh)) as Hle.
  { apply (seg_sum_elem _ _ s); [|done]. intros t h Ht. unfold f. pose proof (in_class_used geo Hgeo sh c t h I Ht). unfold in_class in *. case_decide; lia. }
  assert (f g = slabs_in c - used_slabs g) as Ef by (unfold f, in_class; by rewrite !decide_True by apply (s_class O)). lia.
Qed.

(** A search that has turned once has seen all places. *)
Lemma small_turn (base : list mcd_osd_segment) (full : nat -> Prop) (n : nat) h : 0 <= h < 2 ^ 32 -> (0 < n)%nat -> n2z n <= u32 (h + n2z n) -> (forall i : nat, (i < n)%nat -> full (z2n (u32 (h + n2z i) mod n2z n))) ->
  forall j, (j < n)%nat -> full j.
Proof using Type.
  intros Hh Hn Hfin Hall j Hj. assert (h + n2z n < 2 ^ 32) as Hlt.
  { destruct (Z.lt_ge_cases (h + n2z n) (2 ^ 32)) as [|Hge]; [done|]. exfalso. unfold u32 in Hfin. replace (h + n2z n) with (h + n2z n - 2 ^ 32 + 1 * 2 ^ 32) in Hfin by lia. rewrite Z.mod_add in Hfin by lia.
    assert ((h + n2z n - 2 ^ 32) mod 2 ^ 32 <= h + n2z n - 2 ^ 32) by (apply Z.mod_le; lia). lia. }
  destruct (reach_index h n (n2z j) ltac:(lia)) as (i & Hi & E). specialize (Hall i Hi). rewrite u32_small, E, Nat2Z.id in Hall by lia. done.
Qed.

Lemma given_up_full A c cl (p : nat) sh' : slab_inv geo sh' -> slab_classes sh' !! c = Some cl -> n2z p < num_threads geo -> given_up geo A c p 1 sh' ->
  no_segments geo sh' /\ (part_used sh' A c p \/ first_turn sh' c p).
Proof using Hgeo.
  intros I' Hc' Hp (sh0 & sh1 & I0 & R0 & P01 & Eb1 & Hg0 & Hno & Hg1). specialize (Hg0 ltac:(lia)).
  assert (exists cl0, slab_classes sh0 !! c = Some cl0) as (cl0 & Hc0).
  { unfold mcd_fth_osd_get_slab, mcd_fth_osd_get_free_slab in Hg0. destruct (slab_classes sh0 !! c) as [x|]; [by exists x|done]. }
  destruct (get_slab_ok geo Hgeo sh0 c cl0 p A I0 Hc0 Hp R0) as (r & sh1' & E1 & I1 & P1 & O1). rewrite Hg0 in E1. injection E1 as <- <-. destruct (shape_at_class _ _ _ _ P1 Hc0) as (cl1 & Hc1 & (_ & _ & En1 & Es1 & _)).
  pose proof (rep_base geo sh0 sh1 A O1 R0) as R1. destruct (get_slab_ok geo Hgeo sh1 c cl1 p A I1 Hc1 Hp R1) as (r & sh2 & E2 & I2 & P2 & O2). rewrite Hg1 in E2. injection E2 as <- <-. cbn in O2.
  destruct (shape_at_class _ _ _ _ P2 Hc1) as (cl2 & Hc2 & (_ & _ & En2 & _)). rewrite Hc' in Hc2. injection Hc2 as <-.
  pose proof (get_slab_seen sh0 c cl0 p A sh1 I0 Hc0 Hp R0 Hg0) as S0. pose proof (get_slab_seen sh1 c cl1 p A sh' I1 Hc1 Hp R1 Hg1) as S1. split.
  { destruct Hno as [H1 H2]. split; [by rewrite (p_free _ _ P2)|by rewrite (p_alloc _ _ P2), (p_blks _ _ P2)]. }
  assert (forall H : part_used sh1 A c p, part_used sh' A c p) as Hback by (intros H s g k; rewrite O2; apply H).
  unfold seen, first_turn in *. cbv zeta in *. set (spp := slabs_in c / num_threads geo) in *. destruct S1 as [E0|S1].
  { left. apply Hback, (places_used sh1 c cl1); try done. rewrite E0. lia. }
  destruct S0 as [E0|S0]; [left; apply Hback, (places_used sh1 c cl1); try done; rewrite En1, E0; lia|]. destruct (num_segments cl1) as [|m] eqn:Em; [left; apply Hback, (places_used sh1 c cl1); try done; rewrite Em; lia|].
  rewrite <- Em in *. assert (0 < num_segments cl1)%nat as Hm by lia.
  destruct (Z.leb_spec spp 1) as [Hsm|Hlg].
  - destruct S1 as (h & cl' & Hh & Hhr & Hc2 & Hh2 & Hall). rewrite Hc' in Hc2. injection Hc2 as <-. destruct (Z.lt_ge_cases (u32 (h + n2z (num_segments cl1))) (n2z (num_segments cl1))) as [Hw|Hw].
    + right. exists cl, (u32 (h + n2z (num_segments cl1))). rewrite En2. split; [done|]. split; [done|]. rewrite Z.max_l by lia. lia.
    + left. apply Hback, (places_used sh1 c cl1); try done. unfold part_of. cbv zeta. fold spp. rewrite (proj2 (Z.leb_le _ _)) by done. cbn [fst snd].
      apply (small_turn (base_segments sh1) _ (num_segments cl1) h); try done.
  - assert (total_slabs cl1 = total_slabs cl0 /\ cl_used_slabs cl1 = cl_used_slabs cl0) as [Et Eu].
    { rewrite (k_total (v_class I1 _ _ Hc1)), (k_total (v_class I0 _ _ Hc0)), (k_used (v_class I1 _ _ Hc1)), (k_used (v_class I0 _ _ Hc0)), Eb1. done. }
    destruct S1 as [Hf|(h & cl' & Hh & Hhr & Hc2 & Hh2 & Hall)]; [left; by apply Hback, (class_full sh1 c cl1)|]. destruct S0 as [Hf|(h0 & cl1' & _ & Hhr0 & Hc1' & Hh1 & _)]; [left; apply Hback, (class_full sh1 c cl1); try done; by rewrite Et, Eu|].
    rewrite Hc1 in Hc1'. injection Hc1' as <-. rewrite Hh in Hh1. injection Hh1 as Eh. rewrite Hc' in Hc2. injection Hc2 as <-.
    destruct (Z.lt_ge_cases (hand_at spp h (num_segments cl1)) ((n2z (num_segments cl1) + 1) * spp)) as [Hw|Hw].
    { right. exists cl, (hand_at spp h (num_segments cl1)). rewrite En2. split; [done|]. split; [done|]. by rewrite Z.max_r by lia. }
    left. apply Hback, (places_used sh1 c cl1); try done. unfold part_of. cbv zeta. fold spp. rewrite (proj2 (Z.leb_gt _ _)) by done. cbn [fst snd].
    assert (h mod spp = 0) as Ha.
    { rewrite Eh. destruct (hand_aligned spp (num_segments cl0) h0 ltac:(lia) Hhr0 ltac:(lia)) as [|Hlt]; [done|]. exfalso. rewrite <- Eh in Hlt. pose proof (hand_upper spp (num_segments cl1) h ltac:(lia) ltac:(lia)). lia. }
    pose proof (hand_straight spp (num_segments cl1) h ltac:(lia) Hhr Ha ltac:(lia)) as Hst. intros j Hj. destruct (reach_index (h / spp) (num_segments cl1) (n2z j) ltac:(lia)) as (i & Hi & Ei).
    specialize (Hall i Hi). rewrite (Hst i ltac:(lia)) in Hall. rewrite Z.mod_add, Ha, Z.add_0_r, Z.div_add, Ei, Nat2Z.id in Hall by lia. done.
Qed.
End full.
