(* ===== verification/SlabLoad.v ===== *)
(** * The slab allocator: recovery

    At startup the segments of the classes are read from their lists on flash
    (shard_recover of mcd_rec.c), the slabs of the objects in the object table
    are marked (update_hash_table), and the segments that no class has become the
    free list (mcd_osd_slab_shard_init_free_segments of mcd_osd.c). The slabs in
    use are then those of the objects. *)

From stdpp Require Import gmap.
From S2P Require Import Prelude Hash HashTable HashTableRep HashTableOps HashTableSpec HashTableLoad Slab SlabRep SlabScan SlabAlloc SlabFree.
From stdpp Require Import list.
Open Scope Z_scope.

Section load.
Context (geo : geometry) (junk : nat -> Z).
Abbreviation seg_blks := (Mcd_osd_segment_blks geo).
Abbreviation slab_size c := (2 ^ n2z c).
Abbreviation slabs_in c := (Mcd_osd_segment_blks geo / 2 ^ n2z c).
Abbreviation slab_addr s k c := (n2z s * Mcd_osd_segment_blks geo + k * 2 ^ n2z c).

(** ** The lists of segments *)

(** An entry of the list of class [c]: the address of a segment with its bits
    inverted. *)
Definition recover_segment (sl : slab_shard) (c c_seg : nat) (d : Z) : option slab_shard :=
  let address := u64 (Z.lnot d) in
  let s := z2n (address / seg_blks) in
  cl ← slab_classes sl !! c;
  g ← base_segments sl !! s;
  l ← put_ (segments cl) (n2z c_seg) (Some s);
  let slabs := slabs_per_segment cl in
  let bm := match mos_bitmap g with Some bm => bm | None => new_bitmap slabs (slabs / 8) (junk s) end in
  let g := mk_segment (used_slabs g) c_seg (next_slab g) address (Some bm) (Some c) in
  t ← put_ (segment_table sl) (n2z s) (Some s);
  let top := address + seg_blks in
  let sl := set_blk_allocated sl (if blk_allocated sl <? top then top else blk_allocated sl) in
  Some (set_class (set_segment_table (set_segment sl s g) t) c (class_segments cl (u64 (total_slabs cl + slabs)) (S c_seg) l)).

Fixpoint recover_class (sl : slab_shard) (c c_seg : nat) (data : list Z) : option slab_shard :=
  match data with
  | [] => Some sl
  | d :: data => sl ← (if d =? 0 then Some sl else recover_segment sl c c_seg d); recover_class sl c (S c_seg) data
  end.

Fixpoint recover_classes (sl : slab_shard) (c : nat) (lists : list (list Z)) : option slab_shard :=
  match lists with
  | [] => Some sl
  | data :: lists => sl ← recover_class sl c 0 data; recover_classes sl (S c) lists
  end.

(** ** The objects *)

(** Mark the slab of an object of [nblocks] blocks. *)
Definition recover_slab (sl : slab_shard) (nblocks address : Z) : option slab_shard :=
  p ← at_ (segment_table sl) (address / seg_blks);
  r ← (match p with
       | Some s => Some (s, sl)
       | None =>
           c ← at_ (class_table sl) nblocks;
           r ← mcd_osd_assign_segment geo junk sl c (address / seg_blks * seg_blks);
           Some (z2n (address / seg_blks), r.2)
       end);
  let '(s, sl) := r in
  g ← base_segments sl !! s;
  c ← sg_class g;
  cl ← slab_classes sl !! c;
  let map_offset := (address - blk_offset g) / slab_blksize cl in
  bm ← mos_bitmap g;
  word ← at_ bm (map_offset / 64);
  mask ← at_ Mcd_osd_bitmap_masks (map_offset mod 64);
  bm ← put_ bm (map_offset / 64) (Z.lor word mask);
  p ← segments cl !! (num_segments cl - 1)%nat;
  next ← (if decide (p = Some s) then
            let temp :=
              if slab_blksize cl * Mcd_osd_blk_size geo <=? Mcd_aio_strip_size geo
              then (map_offset mod (Mcd_aio_strip_size geo / (slab_blksize cl * Mcd_osd_blk_size geo)) + 1) * Mcd_aio_num_files geo
              else map_offset + 1 in
            let next := if next_slab g <? u32 temp then u32 temp else next_slab g in
            _ ← assert_ (next <=? slabs_per_segment cl);
            Some next
          else Some (slabs_per_segment cl));
  Some (set_segment (set_class sl c (class_used cl (u64 (cl_used_slabs cl + 1)))) s
          (mk_segment (u32 (used_slabs g + 1)) (sg_idx g) next (blk_offset g) (Some bm) (sg_class g))).

(** The part of [update_hash_table] on slabs; [objs] is the object table. *)
Fixpoint recover_slabs_from (fuel : nat) (objs : list mcd_rec_flash_object) (sl : slab_shard) (obj_offset : Z) : option slab_shard :=
  if negb (obj_offset <? lenZ objs) then Some sl
  else
    match fuel with
    | O => None
    | S fuel =>
        if total_blks sl <=? obj_offset then Some sl
        else
          obj ← at_ objs obj_offset;
          if o_blocks obj =? 0 then recover_slabs_from fuel objs sl (obj_offset + 1)
          else
            sl ← recover_slab sl (mcd_osd_lba_to_blk (o_blocks obj)) obj_offset;
            recover_slabs_from fuel objs sl (obj_offset + power_of_two_roundup (mcd_osd_lba_to_blk (o_blocks obj)))
    end.

(** ** The free segments *)

Fixpoint mark_segments (sl : slab_shard) (used : list bool) (l : list (option nat)) : option (list bool) :=
  match l with
  | [] => Some used
  | None :: l => mark_segments sl used l
  | Some s :: l => g ← base_segments sl !! s; used ← put_ used (blk_offset g / seg_blks) true; mark_segments sl used l
  end.

Fixpoint mark_classes (sl : slab_shard) (used : list bool) (classes : list mcd_osd_slab_class) : option (list bool) :=
  match classes with
  | [] => Some used
  | cl :: classes => used ← mark_segments sl used (take (num_segments cl) (segments cl)); mark_classes sl used classes
  end.

(** The last one found is on top. *)
Fixpoint push_unused (used : list bool) (i : Z) (stack : list Z) : list Z :=
  match used with
  | [] => stack
  | u :: used => push_unused used (i + 1) (if u : bool then stack else i * seg_blks :: stack)
  end.

Definition mcd_osd_slab_shard_init_free_segments (sl : slab_shard) : option slab_shard :=
  used ← mark_classes sl (replicate (z2n (total_segments sl)) false) (slab_classes sl);
  Some (set_free_segments sl (push_unused (take (z2n (blk_allocated sl / seg_blks)) used) 0 (free_segments sl))).

(** The recovery of the slabs of a new shard. For the first shard the objects
    come before the free segments, for the others after them. *)
Definition recover_slabs (first_shard : bool) (lists : list (list Z)) (objs : list mcd_rec_flash_object) (sl : slab_shard) : option slab_shard :=
  sl ← recover_classes sl 0 lists;
  if first_shard then sl ← recover_slabs_from (S (length objs)) objs sl 0; mcd_osd_slab_shard_init_free_segments sl
  else sl ← mcd_osd_slab_shard_init_free_segments sl; recover_slabs_from (S (length objs)) objs sl 0.

(** ** Lists that were recorded *)

Definition recorded (lists : list (list Z)) (c i s : nat) : Prop :=
  exists data d, lists !! c = Some data /\ data !! i = Some d /\ d <> 0 /\ u64 (Z.lnot d) = n2z s * seg_blks.

(** Every entry is a segment of the shard, and no segment is there twice; the
    maps of classes with less than 8 slabs per segment, which are not cleared,
    happen to be clear. *)
Record lists_ok (n : nat) (lists : list (list Z)) : Prop := {
  i_entry : forall c data i d, lists !! c = Some data -> data !! i = Some d -> d <> 0 -> (i < n)%nat /\ exists s, (s < n)%nat /\ u64 (Z.lnot d) = n2z s * seg_blks;
  i_once : forall c i c' i' s, recorded lists c i s -> recorded lists c' i' s -> c = c' /\ i = i';
  i_classes : (length lists <= 13)%nat;
  i_clear : forall c i s, recorded lists c i s -> 8 <= slabs_in c \/ junk s = 0
}.

Section ok.
Context (Hgeo : geo_ok geo).

(** The maps of recovered segments are clear. *)
Lemma recovered_clear c s k : 8 <= slabs_in c \/ junk s = 0 -> 0 <= k < slabs_in c -> slot_bit (new_bitmap (slabs_in c) (slabs_in c / 8) (junk s)) k = false.
Proof using Hgeo.
  intros H Hk. destruct (Z.lt_ge_cases (slabs_in c) 8) as [Hlt|Hge].
  - destruct H as [|Hj]; [lia|]. unfold slot_bit, new_bitmap. rewrite list_lookup_fmap. destruct (seq 0 _ !! _) as [i|]; [|done]. cbn. rewrite Hj. case_if; apply Z.bits_0.
  - apply new_bitmap_clear. assert (8 * (slabs_in c / 8) = slabs_in c) as ->; [|done]. destruct (seg_blks_pow geo Hgeo) as (e & He & Eb). rewrite Eb in *.
    destruct (Z.le_gt_cases e (n2z c)) as [Hle|Hlt].
    + exfalso. assert (2 ^ e / slab_size c <= 1); [|lia]. pose proof (Z.pow_le_mono_r 2 e (n2z c) ltac:(lia) Hle). pose proof (slab_size_pos c). apply Z.div_le_upper_bound; lia.
    + rewrite <- (Z.sub_add (n2z c) e) in *. rewrite Z.pow_add_r, Z.div_mul in * by (pose proof (slab_size_pos c); lia). assert (3 <= e - n2z c) by (apply (Z.pow_le_mono_r_iff 2); lia).
      replace (e - n2z c) with (3 + (e - n2z c - 3)) by lia. rewrite Z.pow_add_r by lia. change (2 ^ 3) with 8. rewrite (Z.mul_comm 8 (2 ^ _)), Z.div_mul by lia. lia.
Qed.

(** Raising [blk_allocated]. *)
Lemma raise_inv sl k : slab_inv geo sl -> from_end sl = false -> (k <= length (base_segments sl))%nat -> blk_allocated sl <= n2z k * seg_blks -> slab_inv geo (set_blk_allocated sl (n2z k * seg_blks)).
Proof using Type.
  intros [V1 V2 V3 V4 V5 V6 V7 V8 V9 V10 V11] Hfe Hk Hle. split; try done.
  - by exists k.
  - intros s g Hs Hu. apply (V8 s g Hs). unfold unreached in *. cbn in Hu. rewrite Hfe in *. lia.
  - intros a Ha. destruct (V9 a Ha) as (s & g & H1 & H2 & H3 & H4). exists s, g. split; [done|]. split; [done|]. split; [done|]. unfold unreached in *. cbn. rewrite Hfe in *. lia.
Qed.

(** ** Recovered lists *)

(** The entries of the lists before entry [i0] of class [c0]. *)
Definition passed (c0 i0 c i : nat) : Prop := (c < c0)%nat \/ c = c0 /\ (i < i0)%nat.

Lemma passed_next c0 i0 c i : passed c0 (S i0) c i <-> passed c0 i0 c i \/ c = c0 /\ i = i0.
Proof using Type. unfold passed. lia. Qed.

Lemma raise_top sl s : slab_inv geo sl -> from_end sl = false -> (s < length (base_segments sl))%nat ->
  let top := n2z s * seg_blks + seg_blks in
  let sl' := set_blk_allocated sl (if blk_allocated sl <? top then top else blk_allocated sl) in slab_inv geo sl' /\ ~ unreached geo sl' s.
Proof using Hgeo.
  intros I Hfe Hs. cbv zeta. pose proof (seg_blks_bound geo Hgeo) as HB. destruct (Z.ltb_spec (blk_allocated sl) (n2z s * seg_blks + seg_blks)) as [Hlt|Hge].
  - replace (n2z s * seg_blks + seg_blks) with (n2z (S s) * seg_blks) in * by lia. split; [apply raise_inv; try done; lia|]. unfold unreached. cbn. rewrite Hfe. lia.
  - assert (set_blk_allocated sl (blk_allocated sl) = sl) as -> by (by destruct sl). split; [done|]. unfold unreached. rewrite Hfe. lia.
Qed.

Context (lists : list (list Z)) (sl0 : slab_shard).
Context (Hlists : lists_ok (length (base_segments sl0)) lists) (H13 : (13 <= length (slab_classes sl0))%nat).

(** The shard when the lists have been read up to that entry. *)
Record listed (sl : slab_shard) (c0 i0 : nat) : Prop := {
  n_inv : slab_inv geo sl;
  n_rep : slab_rep geo sl ∅;
  n_free : free_segments sl = [];
  n_end : from_end sl = false;
  n_keeps : slab_keeps sl0 sl;
  n_only : forall s g c, base_segments sl !! s = Some g -> sg_class g = Some c -> exists i, recorded lists c i s /\ passed c0 i0 c i;
  n_all : forall c i s, recorded lists c i s -> passed c0 i0 c i -> exists g, base_segments sl !! s = Some g /\ sg_class g = Some c;
  n_num : forall c cl, slab_classes sl !! c = Some cl -> (c = c0 -> (num_segments cl <= i0)%nat) /\ ((c0 < c)%nat -> num_segments cl = 0%nat)
}.

Lemma recover_segment_ok sl c i d s : listed sl c i -> lists !! c ≫= (.!! i) = Some d -> d <> 0 -> u64 (Z.lnot d) = n2z s * seg_blks -> (s < length (base_segments sl0))%nat -> (i < length (base_segments sl0))%nat ->
  exists sl', recover_segment sl c i d = Some sl' /\ listed sl' c (S i).
Proof using Hgeo Hlists H13.
  intros L Hd Hnz Ha Hs Hi. destruct L as [I R Ef Ee Q N1 N2 N3]. pose proof (seg_blks_bound geo Hgeo) as HB. destruct (lists !! c) as [data|] eqn:Ed; [|done]. cbn in Hd.
  assert (recorded lists c i s) as Hrec by (by exists data, d). assert (c < length (slab_classes sl))%nat as Hc.
  { rewrite <- (Forall2_length _ _ _ (q_classes _ _ Q)). apply lookup_lt_Some in Ed. pose proof (i_classes _ _ Hlists). lia. }
  destruct (lookup_lt_is_Some_2 _ _ Hc) as [cl Hcl]. pose proof (q_base _ _ Q) as Hlen. destruct (lookup_lt_is_Some_2 (base_segments sl) s ltac:(lia)) as [g Hg].
  assert (sg_class g = None) as Hn.
  { destruct (sg_class g) as [c'|] eqn:E; [|done]. exfalso. destruct (N1 s g c' Hg E) as (i' & Hr & Hp). destruct (i_once _ _ Hlists _ _ _ _ _ Hr Hrec) as [-> ->]. unfold passed in Hp. lia. }
  destruct (v_seg I s g Hg) as [F|(c' & cl' & bm & O)]; [|by rewrite (s_class O) in Hn]. pose proof (v_class I _ _ Hcl) as K. destruct (N3 c cl Hcl) as [Hnum _]. specialize (Hnum eq_refl).
  assert (segments cl !! i = Some None) as Hp.
  { destruct (lookup_lt_is_Some_2 (segments cl) i ltac:(rewrite (k_len K); lia)) as [[t|] Ht]; [|done]. destruct (k_ptr K i t Ht). lia. }
  destruct (raise_top sl s I Ee ltac:(lia)) as [I1 Hu]. set (top := n2z s * seg_blks + seg_blks) in *. set (sl1 := set_blk_allocated sl (if blk_allocated sl <? top then top else blk_allocated sl)) in *.
  unfold recover_segment. rewrite Hcl. cbn [mbind option_bind]. rewrite Ha, Z.div_mul, Nat2Z.id, Hg by lia. cbn [mbind option_bind]. rewrite (put_Some (segments cl)) by (rewrite (k_len K); lia). cbn [mbind option_bind].
  rewrite (put_Some (segment_table sl)) by (rewrite (v_table I); lia). cbn [mbind option_bind]. rewrite !Nat2Z.id, (f_map F), (f_used F), (f_next F), (k_slabs K). fold top. fold sl1.
  pose proof (total_bound geo Hgeo sl c cl I Hcl). pose proof (slabs_in_bound geo c Hgeo). rewrite u64_small by lia. eexists. split; [done|].
  destruct (assign_inv geo Hgeo sl1 c cl s g i (S i) (new_bitmap (slabs_in c) (slabs_in c / 8) (junk s)) ∅) as (I' & Q' & R'); try done; [cbn; rewrite Ef; apply not_elem_of_nil|lia|cbn; lia|apply new_bitmap_length|apply new_bitmap_words| |].
  { intros k Hk. apply recovered_clear; [by apply (i_clear _ _ Hlists c i)|done]. }
  split; try done.
  - etrans; [exact Q|]. etrans; [|exact Q']. split; reflexivity.
  - intros t h c' Ht Hc'. cbn in Ht. destruct (decide (s = t)) as [<-|Hne].
    + rewrite list_lookup_insert_eq in Ht by lia. injection Ht as <-. injection Hc' as <-. exists i. split; [done|]. apply passed_next. by right.
    + rewrite list_lookup_insert_ne in Ht by done. destruct (N1 t h c' Ht Hc') as (i' & Hr & Hp'). exists i'. split; [done|]. apply passed_next. by left.
  - intros c' i' t Hr [Hp'|[-> ->]]%passed_next.
    + destruct (N2 c' i' t Hr Hp') as (h & Ht & Hc'). exists h. cbn. rewrite list_lookup_insert_ne; [done|]. intros ->. congruence.
    + destruct Hr as (data2 & d2 & E1 & E2 & _ & E3). assert (data2 = data) as -> by congruence. assert (d2 = d) as -> by congruence. assert (t = s) as -> by nia. cbn. rewrite list_lookup_insert_eq by lia. by eexists.
  - intros c' cl' Hc'. cbn in Hc'. destruct (decide (c = c')) as [<-|Hne].
    + rewrite list_lookup_insert_eq in Hc' by done. injection Hc' as <-. cbn. lia.
    + rewrite list_lookup_insert_ne in Hc' by done. destruct (N3 c' cl' Hc'). lia.
Qed.

Lemma listed_skip sl c i : listed sl c i -> (forall s, ~ recorded lists c i s) -> listed sl c (S i).
Proof using Type.
  clear H13. intros [I R Ef Ee Q N1 N2 N3] Hno. split; try done.
  - intros s g c' Hs Hc. destruct (N1 s g c' Hs Hc) as (i' & Hr & Hp). exists i'. split; [done|]. apply passed_next. by left.
  - intros c' i' s Hr [Hp|[-> ->]]%passed_next; [by apply (N2 c' i')|]. by apply Hno in Hr.
  - intros c' cl Hc. destruct (N3 c' cl Hc) as [H1 H2]. split; [|done]. intros E. specialize (H1 E). lia.
Qed.

Lemma recover_class_ok c data rest : lists !! c = Some data -> forall i sl, rest = drop i data -> (i <= length data)%nat -> listed sl c i ->
  exists sl', recover_class sl c i rest = Some sl' /\ listed sl' c (length data).
Proof using Hgeo Hlists H13.
  intros Hc. induction rest as [|d rest IH]; intros i sl Hr Hi L; cbn [recover_class].
  - assert (i = length data) as -> by (apply (f_equal length) in Hr; rewrite length_drop in Hr; cbn in Hr; lia). by exists sl.
  - assert (data !! i = Some d) as Hd by (rewrite <- (Nat.add_0_r i), <- lookup_drop, <- Hr; done). pose proof (lookup_lt_Some _ _ _ Hd) as Hlt. assert (rest = drop (S i) data) as Hr' by (rewrite (drop_S data d i Hd) in Hr; by injection Hr).
    destruct (Z.eqb_spec d 0) as [->|Hnz].
    + cbn [mbind option_bind]. apply (IH (S i) sl Hr' ltac:(lia)). apply listed_skip; [done|]. intros s (data2 & d2 & E1 & E2 & Hd2 & _). congruence.
    + destruct (i_entry _ _ Hlists c data i d Hc Hd Hnz) as (Hin & s & Hs & Ha). destruct (recover_segment_ok sl c i d s L) as (sl1 & -> & L1); try done; [by rewrite Hc|]. cbn [mbind option_bind]. apply (IH (S i) sl1 Hr' ltac:(lia) L1).
Qed.

Lemma listed_next sl c data : lists !! c = Some data -> listed sl c (length data) -> listed sl (S c) 0.
Proof using Type.
  clear H13. intros Hc [I R Ef Ee Q N1 N2 N3]. assert (forall c' i s, recorded lists c' i s -> passed (S c) 0 c' i <-> passed c (length data) c' i) as Hp.
  { intros c' i s (data' & d & E1 & E2 & _). unfold passed. split; [|lia]. intros [H|H]; [|lia]. destruct (decide (c' = c)) as [->|]; [|lia]. right. split; [done|]. assert (data' = data) as -> by congruence. by apply lookup_lt_Some in E2. }
  split; try done.
  - intros s g c' Hs Hg. destruct (N1 s g c' Hs Hg) as (i & Hr & H). exists i. split; [done|]. by apply (Hp c' i s).
  - intros c' i s Hr H. apply (N2 c' i s Hr). by apply (Hp c' i s).
  - intros c' cl Hcl. destruct (N3 c' cl Hcl) as [_ H]. split; [intros ->; rewrite H; lia|intros Hlt; apply H; lia].
Qed.

Lemma recover_classes_ok rest : forall c sl, rest = drop c lists -> (c <= length lists)%nat -> listed sl c 0 -> exists sl', recover_classes sl c rest = Some sl' /\ listed sl' (length lists) 0.
Proof using Hgeo Hlists H13.
  induction rest as [|data rest IH]; intros c sl Hr Hc L; cbn [recover_classes].
  - assert (c = length lists) as -> by (apply (f_equal length) in Hr; rewrite length_drop in Hr; cbn in Hr; lia). by exists sl.
  - assert (lists !! c = Some data) as Hd by (rewrite <- (Nat.add_0_r c), <- lookup_drop, <- Hr; done). pose proof (lookup_lt_Some _ _ _ Hd) as Hlt. assert (rest = drop (S c) lists) as Hr' by (rewrite (drop_S lists data c Hd) in Hr; by injection Hr).
    destruct (recover_class_ok c data data Hd 0 sl ltac:(by rewrite drop_0) ltac:(lia) L) as (sl1 & -> & L1). cbn [mbind option_bind]. apply (IH (S c) sl1 Hr' ltac:(lia)). by apply (listed_next sl1 c data).
Qed.
End ok.

(** ** Recovered objects *)

(** The shard while slabs are marked: [A] are those in use, and the segments of
    the lists have their classes. *)
Record marking (sl0 : slab_shard) (fs : list Z) (lists : list (list Z)) (sl : slab_shard) (A : gmap Z Z) : Prop := {
  m_inv : slab_inv geo sl;
  m_rep : slab_rep geo sl A;
  m_keeps : slab_keeps sl0 sl;
  m_free : free_segments sl = fs;
  m_end : from_end sl = false;
  m_all : forall c i s, recorded lists c i s -> exists g, base_segments sl !! s = Some g /\ sg_class g = Some c
}.

Section mark.
Context (Hgeo : geo_ok geo).

(** The number of slabs of a segment that recovery assumes to be given out. *)
Lemma next_after c k : 0 <= k < slabs_in c ->
  (if slab_size c * Mcd_osd_blk_size geo <=? Mcd_aio_strip_size geo
   then (k mod (Mcd_aio_strip_size geo / (slab_size c * Mcd_osd_blk_size geo)) + 1) * Mcd_aio_num_files geo else k + 1) = k + 1.
Proof using Hgeo.
  intros Hk. destruct (_ <=? _); [|done]. rewrite (g_files _ Hgeo), Z.mul_1_r. unfold Mcd_aio_strip_size. rewrite (g_files _ Hgeo), Z.div_1_r.
  pose proof (slab_size_pos c). pose proof (g_blk _ Hgeo). rewrite (Z.mul_comm (slab_size c)), <- Z.div_div by lia. fold (Mcd_osd_segment_blks geo). rewrite Z.mod_small by done. done.
Qed.

Lemma recover_slab_ok sl0 fs lists sl A b c i s k : marking sl0 fs lists sl A -> recorded lists c i s -> 0 <= k < slabs_in c -> A !! slab_addr s k c = None ->
  exists sl', recover_slab sl b (slab_addr s k c) = Some sl' /\ marking sl0 fs lists sl' (<[slab_addr s k c := slab_size c]> A).
Proof using Hgeo.
  intros [I R Q Ef Ee N] Hrec Hk HA. destruct (N c i s Hrec) as (g & Hs & Hg). destruct (v_seg I s g Hs) as [F|(c' & cl & bm & O)]; [by rewrite (f_class F) in Hg|]. assert (c' = c) as -> by (pose proof (s_class O); congruence).
  pose proof (v_class I _ _ (s_cl O)) as K. destruct (slot_read geo sl s g c cl bm k O Hk) as (w & Hat & _ & Hw & Hbit & Hput). pose proof (slot_in_use geo Hgeo sl s g c cl bm k A Hs O Hk R) as Hin.
  destruct (slot_bit bm k) eqn:Eb; [congruence|]. unfold recover_slab. rewrite (slab_place geo s k c Hgeo Hk). rewrite (proj2 (at_Some (segment_table sl) (n2z s) (Some s))) by (split; [lia|]; rewrite Nat2Z.id; apply (s_table O)). cbn [mbind option_bind].
  rewrite Hs. cbn [mbind option_bind]. rewrite (s_class O). cbn [mbind option_bind]. rewrite (s_cl O). cbn [mbind option_bind]. rewrite (k_blksize K), (s_offset O), (slab_number geo s k c). cbv zeta. rewrite (s_map O). cbn [mbind option_bind].
  rewrite Hat. cbn [mbind option_bind]. pose proof (mod64 k). destruct (table_at (k mod 64) ltac:(done)) as (-> & _). cbn [mbind option_bind]. rewrite (Hput true). cbn [mbind option_bind].
  destruct (k_ptr K _ _ (s_listed O)) as [Hidx _]. destruct (lookup_lt_is_Some_2 (segments cl) (num_segments cl - 1) ltac:(rewrite (k_len K); pose proof (k_num K); lia)) as [p Hp]. rewrite Hp. cbn [mbind option_bind].
  rewrite (next_after c k Hk), (k_slabs K). pose proof (slabs_in_bound geo c Hgeo) as HB. pose proof (s_next O) as Hnx. rewrite (u32_small (k + 1)) by lia. pose proof (used_bound geo Hgeo _ _ _ _ _ _ I Hs O). pose proof (class_used_bound geo Hgeo _ _ _ I (s_cl O)).
  assert (exists next, (if decide (p = Some s) then _ ← assert_ ((if next_slab g <? k + 1 then k + 1 else next_slab g) <=? slabs_in c); Some (if next_slab g <? k + 1 then k + 1 else next_slab g) else Some (slabs_in c)) = Some next /\ 0 <= next <= slabs_in c) as (next & -> & Hnext).
  { destruct (decide (p = Some s)); [|eexists; split; [done|lia]]. rewrite assert_true by (apply Z.leb_le; destruct (_ <? _); lia). eexists. split; [done|]. destruct (_ <? _); lia. }
  cbn [mbind option_bind]. rewrite u64_small, u32_small by lia. set (g' := mk_segment (used_slabs g + 1) (sg_idx g) next (n2z s * seg_blks) (Some (put_slot true bm k)) (Some c)).
  assert (same_place g g') as Hpl by (split; [cbn; by rewrite (s_class O)|split; [done|cbn; by rewrite (s_offset O)]]). pose proof (slot_word geo c k Hk) as Hwd. rewrite <- (s_len O) in Hwd.
  assert (used_slabs g' = n2z (slots_used (put_slot true bm k) (z2n (slabs_in c)))) as Hus. { cbn. rewrite (s_used O). pose proof (slots_used_put true bm k (z2n (slabs_in c)) ltac:(lia) Hwd) as Hc. rewrite Eb in Hc. cbn in Hc. lia. }
  pose proof (segment_inv geo sl s g g' c cl bm (put_slot true bm k) Hgeo I Hs O Hpl eq_refl (put_slot_length _ _ _) ltac:(apply put_slot_words; [lia|apply (s_words O)]) Hus Hnext) as I'.
  replace (cl_used_slabs cl - used_slabs g + used_slabs g') with (cl_used_slabs cl + 1) in I' by (cbn; lia). eexists. split; [done|]. split; [done| | |done|done|].
  - apply (map_rep geo Hgeo sl _ s g g' c cl bm (put_slot true bm k) A); try done.
    + intros j Hj. rewrite put_slot_bit by lia. case_decide as E; [by subst; rewrite lookup_insert_eq|]. rewrite lookup_insert_ne; [by apply (slot_in_use geo Hgeo sl s g c cl)|].
      intros E2. apply slab_unique in E2 as [_ E2]; [|done..]. symmetry in E2; auto.
    + intros a Ha. rewrite lookup_insert_ne; [done|]. intros E. by apply (Ha k).
  - etrans; [exact Q|]. split; cbn; rewrite ?length_insert; try done. by apply (Forall2_insert_l _ _ _ cl); [apply (s_cl O)|].
  - intros c' i' t Hr. destruct (N c' i' t Hr) as (h & Ht & Hc'). cbn. destruct (decide (s = t)) as [<-|Hne]; [|exists h; by rewrite list_lookup_insert_ne].
    exists g'. rewrite list_lookup_insert_eq by (by apply lookup_lt_Some in Hs). split; [done|]. cbn. congruence.
Qed.

(** The slabs of the objects of a directory. *)
Definition slabs_of (M : directory) (A : gmap Z Z) : Prop :=
  forall a n, A !! a = Some n <-> exists id o c, M !! id = Some o /\ ob_addr o = a /\ class_for (ob_blocks o) c /\ n = slab_size c.

(** Every object is in a slab of its class, in a segment of the lists. *)
Definition objects_listed (lists : list (list Z)) (M : directory) : Prop :=
  forall id o, M !! id = Some o -> exists c i s k, class_for (ob_blocks o) c /\ recorded lists c i s /\ 0 <= k < slabs_in c /\ ob_addr o = slab_addr s k c.

Lemma slabs_of_insert M A id o c : slabs_of M A -> M !! id = None -> class_for (ob_blocks o) c -> A !! ob_addr o = None -> slabs_of (<[id := o]> M) (<[ob_addr o := slab_size c]> A).
Proof using Type.
  intros H Hid Hc Ha a n. split.
  - intros [[<- <-]|[Hne Hn]]%lookup_insert_Some.
    + exists id, o, c. by rewrite lookup_insert_eq.
    + apply H in Hn as (id' & o' & c' & Ho & E & Hc' & ->). exists id', o', c'. rewrite lookup_insert_ne; [done|]. by intros ->; rewrite Hid in Ho.
  - intros (id' & o' & c' & [[<- <-]|[Hne Ho]]%lookup_insert_Some & <- & Hc' & ->).
    + rewrite (class_for_unique _ _ _ Hc Hc'). by rewrite lookup_insert_eq.
    + assert (A !! ob_addr o' = Some (slab_size c')) as Hn by (apply H; by exists id', o', c'). rewrite lookup_insert_ne; [done|]. intros E. congruence.
Qed.

Section objects.
Context (storm : bool) (onflash : Z -> option (list byte)) (h0 : hash_handle) (objs : list mcd_rec_flash_object) (M : directory) (T : table_of storm onflash h0 objs M).
Context (sl0 : slab_shard) (fs : list Z) (lists : list (list Z)) (Hobj : objects_listed lists M) (Hblks : lenZ objs <= total_blks sl0).

Lemma mark_one sl A k obj : marking sl0 fs lists sl A -> slabs_of (before (n2z k) M) A -> objs !! k = Some obj -> o_blocks obj <> 0 ->
  exists sl' A', recover_slab sl (o_blocks obj) (n2z k) = Some sl' /\ marking sl0 fs lists sl' A' /\ slabs_of (before (n2z k + 1) M) A'.
Proof using Hgeo T Hobj.
  intros H HA Hk Hb. destruct (t_obj _ _ _ _ _ T k obj Hk Hb) as (key & Hf & _ & HM). destruct (before_one _ _ _ _ _ _ _ _ T Hk Hf Hb HM) as [-> Hnone]. destruct (Hobj _ _ HM) as (c & i & s & j & Hc & Hr & Hj & Ea). cbn in Hc, Ea.
  assert (A !! n2z k = None) as Hfree. { apply eq_None_not_Some. intros [n Hn]. apply HA in Hn as (id & o & d & [_ Ho]%map_lookup_filter_Some & E & _). cbn in Ho. lia. }
  rewrite Ea in Hfree |- *. destruct (recover_slab_ok sl0 fs lists sl A (o_blocks obj) c i s j H Hr Hj Hfree) as (sl' & E & H'). exists sl', (<[slab_addr s j c := slab_size c]> A). split; [done|]. split; [done|].
  rewrite <- Ea in *. by apply (slabs_of_insert _ _ _ (mk_object (n2z k) (o_blocks obj) (o_deleted obj)) c).
Qed.

Lemma recover_from_ok fuel : forall sl A k, marking sl0 fs lists sl A -> slabs_of (before (n2z k) M) A -> (length objs - k < fuel)%nat ->
  exists sl' A', recover_slabs_from fuel objs sl (n2z k) = Some sl' /\ marking sl0 fs lists sl' A' /\ slabs_of M A'.
Proof using Hgeo T Hobj Hblks.
  induction fuel as [|fuel IH]; intros sl A k H HA Hf; [lia|]. cbn [recover_slabs_from]. destruct (Z.ltb_spec (n2z k) (lenZ objs)) as [Hlt|Hge]; cbn [negb].
  2: { exists sl, A. split; [done|]. split; [done|]. by rewrite (before_all _ _ _ _ _ T) in HA. }
  rewrite (q_blks _ _ (m_keeps _ _ _ _ _ H)), (proj2 (Z.leb_gt _ _)) by lia. destruct (lookup_lt_is_Some_2 objs k ltac:(lia)) as [obj Hk]. rewrite at_lookup, Hk. cbn [mbind option_bind].
  destruct (Z.eqb_spec (o_blocks obj) 0) as [Hz|Hnz].
  - replace (n2z k + 1) with (n2z (S k)) by lia. apply (IH sl A); [done| |lia]. rewrite (before_skip _ _ _ _ _ (n2z k) _ T); [done|lia|]. intros a o Ha Ho. assert (a = k) as -> by lia. congruence.
  - unfold mcd_osd_lba_to_blk. destruct (mark_one sl A k obj H HA Hk Hnz) as (sl1 & A1 & -> & H1 & HA1). cbn [mbind option_bind]. pose proof (t_width _ _ _ _ _ T k obj Hk) as Hw. pose proof (roundup_ge (o_blocks obj) ltac:(lia)) as Hr.
    set (r := power_of_two_roundup (o_blocks obj)) in *. replace (n2z k + r) with (n2z (k + z2n r)) by lia. apply (IH sl1 A1); [done| |lia]. rewrite (before_skip _ _ _ _ _ (n2z k + 1) _ T); [done|lia|].
    intros a o Ha Ho. apply (t_gap _ _ _ _ _ T k obj a o Hk Hnz); [fold r; lia|done].
Qed.
End objects.
End mark.

(** ** The free segments *)

Lemma mark_segments_ok sl l : (forall s, Some s ∈ l -> exists g, base_segments sl !! s = Some g /\ blk_offset g = n2z s * seg_blks) -> 0 < seg_blks -> forall used, length used = length (base_segments sl) ->
  exists used', mark_segments sl used l = Some used' /\ length used' = length (base_segments sl) /\ forall j, used' !! j = Some true <-> used !! j = Some true \/ Some j ∈ l.
Proof using Type.
  clear junk. intros Hl HB. induction l as [|[s|] l IH]; intros used Hu; cbn [mark_segments].
  - exists used. split; [done|]. split; [done|]. intros j. rewrite elem_of_nil. tauto.
  - destruct (Hl s ltac:(left)) as (g & Hs & Ho). rewrite Hs. cbn [mbind option_bind]. rewrite Ho, Z.div_mul by lia. pose proof (lookup_lt_Some _ _ _ Hs) as Hlt. rewrite (put_Some used) by lia. cbn [mbind option_bind]. rewrite Nat2Z.id.
    destruct (IH ltac:(intros t Ht; apply Hl; by right) (<[s := true]> used) ltac:(by rewrite length_insert)) as (used' & -> & Hlen & H). exists used'. split; [done|]. split; [done|]. intros j. rewrite H, elem_of_cons. destruct (decide (s = j)) as [->|Hne].
    + rewrite list_lookup_insert_eq by lia. tauto.
    + rewrite list_lookup_insert_ne by done. split; [tauto|]. intros [|[[= ->]|]]; tauto.
  - destruct (IH ltac:(intros t Ht; apply Hl; by right) used Hu) as (used' & -> & Hlen & H). exists used'. split; [done|]. split; [done|]. intros j. rewrite H, elem_of_cons. split; [tauto|]. intros [|[|]]; [tauto|done|tauto].
Qed.

Lemma mark_classes_ok sl classes : (forall cl s, cl ∈ classes -> Some s ∈ segments cl -> exists g, base_segments sl !! s = Some g /\ blk_offset g = n2z s * seg_blks) -> 0 < seg_blks ->
  forall used, length used = length (base_segments sl) -> exists used', mark_classes sl used classes = Some used' /\ length used' = length (base_segments sl) /\
    forall j, used' !! j = Some true <-> used !! j = Some true \/ exists cl, cl ∈ classes /\ Some j ∈ take (num_segments cl) (segments cl).
Proof using Type.
  clear junk. intros Hc HB. induction classes as [|cl classes IH]; intros used Hu; cbn [mark_classes].
  - exists used. split; [done|]. split; [done|]. intros j. split; [by left|]. intros [|(cl & []%elem_of_nil & _)]. done.
  - destruct (mark_segments_ok sl (take (num_segments cl) (segments cl))) with (used := used) as (used1 & -> & Hl1 & H1); [|done..|].
    { intros s Hs. apply (Hc cl); [by left|]. apply (subseteq_take _ _ _ Hs). }
    cbn [mbind option_bind]. destruct (IH ltac:(intros x s Hx; apply Hc; by right) used1 Hl1) as (used2 & -> & Hl2 & H2). exists used2. split; [done|]. split; [done|]. intros j. rewrite H2, H1. split.
    + intros [[|]|(x & Hx & Hj)]; [by left|right; exists cl; by split; [left|]|right; exists x; by split; [right|]].
    + intros [|(x & [->|Hx]%elem_of_cons & Hj)]; [tauto|tauto|right; by exists x].
Qed.

Lemma push_unused_ok used : 0 < seg_blks -> forall i stack, NoDup stack -> (forall a, a ∈ stack -> a < i * seg_blks) ->
  NoDup (push_unused used i stack) /\ forall a, a ∈ push_unused used i stack <-> a ∈ stack \/ exists j, used !! j = Some false /\ a = (i + n2z j) * seg_blks.
Proof using Type.
  intros HB. induction used as [|u used IH]; intros i stack Hnd Hlt; cbn [push_unused].
  - split; [done|]. intros a. split; [by left|]. intros [|(j & Hj & _)]; done.
  - destruct (IH (i + 1) (if u then stack else i * seg_blks :: stack)) as [H1 H2].
    { destruct u; [done|]. apply list.NoDup_cons. split; [|done]. intros Hin. specialize (Hlt _ Hin). lia. }
    { intros a Ha. destruct u; [specialize (Hlt a Ha); nia|]. apply elem_of_cons in Ha as [->|Ha]; [nia|]. specialize (Hlt a Ha). nia. }
    split; [done|]. intros a. rewrite H2. split.
    + intros [Ha|(j & Hj & ->)]; [|right; exists (S j); split; [done|f_equal; lia]]. destruct u; [by left|]. apply elem_of_cons in Ha as [->|Ha]; [|by left]. right. exists 0%nat. split; [done|f_equal; lia].
    + intros [Ha|([|j] & Hj & ->)]; [left; destruct u; [done|by right]| |right; exists j; split; [done|f_equal; lia]]. cbn in Hj. injection Hj as ->. left. rewrite Z.add_0_r. left.
Qed.

(** The free list gets the segments below [blk_allocated] that no class has. *)
Lemma init_free_ok sl : geo_ok geo -> slab_inv geo sl -> free_segments sl = [] -> from_end sl = false ->
  exists fs, mcd_osd_slab_shard_init_free_segments sl = Some (set_free_segments sl fs) /\ slab_inv geo (set_free_segments sl fs).
Proof using Type.
  intros Hgeo I Ef Ee. pose proof (seg_blks_bound geo Hgeo) as HB. unfold mcd_osd_slab_shard_init_free_segments. rewrite (v_segments I), Nat2Z.id.
  destruct (mark_classes_ok sl (slab_classes sl)) with (used := replicate (length (base_segments sl)) false) as (used & -> & Hl & H); [|lia|by rewrite length_replicate|].
  { intros cl s Hcl Hs. apply list_elem_of_lookup in Hcl as (c & Hc), Hs as (j & Hj). destruct (k_ptr (v_class I _ _ Hc) j s Hj) as (_ & g & Hg & Hcg & _). exists g. split; [done|].
    destruct (v_seg I s g Hg) as [F|(d & x & bm & O)]; [by rewrite (f_class F) in Hcg|apply (s_offset O)]. }
  cbn [mbind option_bind]. eexists. split; [done|]. rewrite Ef. destruct (v_alloc I) as (k & Hk & Hkl). rewrite Hk, Z.div_mul, Nat2Z.id by lia. destruct (push_unused_ok (take k used) ltac:(lia) 0 []) as [H1 H2]; [constructor|intros a []%elem_of_nil|].
  pose proof I as [V1 V2 V3 V4 V5 V6 V7 V8 V9 V10 V11]. split; try done. cbn [free_segments set_free_segments]. intros a Ha. apply H2 in Ha as [[]%elem_of_nil|(s & Hs & ->)].
  pose proof (lookup_lt_Some _ _ _ Hs) as Hlt. rewrite length_take in Hlt. rewrite lookup_take_lt in Hs by lia. destruct (lookup_lt_is_Some_2 (base_segments sl) s ltac:(lia)) as [g Hg]. exists s, g. split; [f_equal; lia|]. split; [done|]. split.
  - destruct (V2 s g Hg) as [F|(c & cl & bm & O)]; [apply (f_class F)|]. exfalso. assert (used !! s = Some true); [|congruence]. apply H. right. exists cl. split; [apply (list_elem_of_lookup_2 _ c), (s_cl O)|].
    destruct (k_ptr (V1 _ _ (s_cl O)) _ _ (s_listed O)) as [Hi _]. apply (list_elem_of_lookup_2 _ (sg_idx g)). rewrite lookup_take_lt by done. apply (s_listed O).
  - unfold unreached. cbn. rewrite Ee, Hk. nia.
Qed.

(** ** The whole recovery *)

Section whole.
Context (Hgeo : geo_ok geo) (n : nat) (sl0 : slab_shard) (Hsize : n2z n * seg_blks <= 2 ^ 49) (Hinit : mcd_osd_slab_shard_init geo (n2z n) false false = Some sl0).

Lemma init_listed lists : listed lists sl0 sl0 0 0 /\ shard_inv geo sl0 /\ length (slab_classes sl0) = 13%nat /\ length (base_segments sl0) = n.
Proof using Hgeo Hsize Hinit.
  destruct (shard_init_ok geo Hgeo n false Hsize) as (x & Ex & W & R & _). rewrite Hinit in Ex. injection Ex as <-. destruct (shard_init_fresh geo Hgeo n false sl0 Hinit) as (F1 & F2 & F3 & F4 & F5). clear Hinit. split; [|split; [exact W|split; [done|by rewrite F3, length_replicate]]].
  split; [apply W|exact R|done|done|reflexivity| | |].
  - intros s g c Hs Hc. rewrite F3 in Hs. apply lookup_replicate in Hs as [-> _]. done.
  - intros c i s _ [H|[_ H]]; lia.
  - intros c cl Hc. rewrite (F5 c cl Hc). lia.
Qed.

Lemma recover_slabs_ok storm onflash h0 objs M lists (first_shard : bool) : table_of storm onflash h0 objs M -> lists_ok n lists -> objects_listed lists M -> lenZ objs <= total_blks sl0 ->
  exists sl A, recover_slabs first_shard lists objs sl0 = Some sl /\ shard_inv geo sl /\ slab_keeps sl0 sl /\ slab_rep geo sl A /\ slabs_of M A.
Proof using Hgeo Hsize Hinit.
  intros T Hlists Hobj Hblks. destruct (init_listed lists) as (L0 & W & H13 & Hn). clear Hinit. subst n. unfold recover_slabs. destruct (recover_classes_ok Hgeo lists sl0 Hlists ltac:(lia) lists 0 sl0 ltac:(by rewrite drop_0) ltac:(lia) L0) as (sl1 & -> & L1). cbn [mbind option_bind].
  destruct L1 as [I1 R1 Ef1 Ee1 Q1 _ N2 _]. assert (forall c i s, recorded lists c i s -> exists g, base_segments sl1 !! s = Some g /\ sg_class g = Some c) as Hall.
  { intros c i s Hr. apply (N2 c i s Hr). left. destruct Hr as (data & d & E & _). by apply lookup_lt_Some in E. }
  assert (slabs_of (before (n2z 0) M) ∅) as H0.
  { intros a m. rewrite lookup_empty. split; [done|]. intros ([cn key] & o & c & [Ho Hlt]%map_lookup_filter_Some & _). destruct (t_map _ _ _ _ _ T cn key o Ho) as [? _]. cbn in Hlt. lia. }
  assert (forall fs sl, marking sl0 fs lists sl ∅ -> exists sl' A, recover_slabs_from (S (length objs)) objs sl 0 = Some sl' /\ marking sl0 fs lists sl' A /\ slabs_of M A) as Hmark.
  { intros fs sl Hm. apply (recover_from_ok Hgeo storm onflash h0 objs M T sl0 fs lists Hobj Hblks (S (length objs)) sl ∅ 0); [done|done|lia]. }
  destruct first_shard.
  - destruct (Hmark [] sl1) as (sl2 & A & -> & [I2 R2 Q2 Ef2 Ee2 _] & HA); [by split|]. cbn [mbind option_bind]. destruct (init_free_ok sl2 Hgeo I2 Ef2 Ee2) as (fs & -> & I3). eexists _, A. split; [done|]. split; [|split; [|done]]; [apply (slab_keeps_table geo sl0); [|done|done]|]; (etrans; [exact Q2|split; reflexivity]).
  - destruct (init_free_ok sl1 Hgeo I1 Ef1 Ee1) as (fs & -> & I2). cbn [mbind option_bind]. destruct (Hmark fs (set_free_segments sl1 fs)) as (sl2 & A & -> & [I3 R3 Q3 Ef3 Ee3 _] & HA).
    { split; try done. etrans; [exact Q1|split; reflexivity]. }
    exists sl2, A. split; [done|]. split; [by apply (slab_keeps_table geo sl0)|]. done.
Qed.
End whole.
End load.
