(* ===== verification/SlabStore.v ===== *)
(** * The object store

    First the requests on directory, slabs and flash together, then the restart
    of a store from what it has on flash. *)

From stdpp Require Import gmap.
From S2P Require Import Prelude Hash HashTable HashTableSpec HashTableSet HashTableUndo HashTableLoad HashTableTheorems Slab SlabRep SlabScan SlabAlloc SlabFree SlabLoad.
From stdpp Require Import list.
Open Scope Z_scope.

(** * The object store: directory, slabs and flash

    [mcd_fth_osd_slab_set] takes a slab for the new object, writes it, enters it
    into the directory and frees the slab of the old version; in a persistent
    shard slabs are freed after the log has been synchronised
    ([log_sync_postprocess] of mcd_rec.c). The slabs in use are exactly those of
    the objects of the directory and those that wait to be freed, so an
    allocation never gives out the blocks of an object. *)

(** ** The store *)

(** [st_pending] are the slabs of the log records that are not yet synchronised,
    [st_ring] those that the shard of virtual containers holds back. *)
Record store := mk_store {
  st_dir : hash_handle;
  st_slabs : slab_shard;
  st_flash : Z -> option (list byte);
  st_pending : list Z;
  st_ring : list Z
}.

(** A request without an address: a write has the number of blocks and whether
    the object is to be deleted in the future. *)
Record put_request := mk_put_request {
  p_key : list byte;
  p_cntr : Z;
  p_exist : bool;
  p_nonexist : bool;
  p_data : option (Z * bool);
  p_rsv : bool
}.

Definition at_address (rq : put_request) (a : Z) : set_request :=
  mk_set_request (p_key rq) (p_cntr rq) (p_exist rq) (p_nonexist rq) (match p_data rq with Some (n, del) => Some (a, n, del) | None => None end) (p_rsv rq).

Definition dealloc_ring_size : Z := 80000.

Section store.
Context (sd : shard) (geo : geometry) (junk : nat -> Z) (persistent vdc ring_enabled : bool).
Abbreviation seg_blks := (Mcd_osd_segment_blks geo).

(** The slab of a version that is replaced or deleted. *)
Definition release_slab (sl : slab_shard) (pending : list Z) (pth : nat) (e : hash_entry) : option (slab_shard * list Z) :=
  sl ← remove_entry_slab geo sl pth (blkaddress e) (mcd_osd_lba_to_blk (blocks e)) persistent;
  Some (sl, if persistent then pending ++ [blkaddress e] else pending).

(** The write of an object: [old] is its entry if it exists. *)
Definition store_write (st : store) (pth : nat) (rq : put_request) (old : option hash_entry) (nblocks : Z) : option (store * flash_rc) :=
  r ← mcd_fth_osd_slab_alloc geo junk (st_slabs st) pth nblocks 1;
  let '(n, a, sl) := r in
  if negb (n =? 1)%nat then Some (mk_store (st_dir st) sl (st_flash st) (st_pending st) (st_ring st), FLASH_ENOSPC)
  else
    p ← at_ (segment_table sl) (a / seg_blks);
    s ← p;
    g ← base_segments sl !! s;
    c ← sg_class g;
    cl ← slab_classes sl !! c;
    _ ← assert_ (mcd_osd_lba_to_blk nblocks <=? slab_blksize cl);
    r ← mcd_fth_osd_slab_set seg_blks (st_flash st) (st_dir st) (at_address rq a);
    let '(h, rc, _) := r in
    let flash := on_write (st_flash st) a (p_key rq) in
    match rc, old with
    | FLASH_EOK, Some e => r ← release_slab sl (st_pending st) pth e; Some (mk_store h r.1 flash r.2 (st_ring st), FLASH_EOK)
    | FLASH_ENOSPC, _ => sl ← remove_entry_slab geo sl pth a (mcd_osd_lba_to_blk nblocks) false; Some (mk_store h sl flash (st_pending st) (st_ring st), FLASH_ENOSPC)
    | _, _ => Some (mk_store h sl flash (st_pending st) (st_ring st), rc)
    end.

(** A write or a deletion of an object in store mode. *)
Definition store_set (st : store) (pth : nat) (rq : put_request) : option (store * flash_rc) :=
  if too_big (at_address rq 0) then Some (st, FLASH_EINVAL) else
  old ← lookup_entry seg_blks (st_flash st) (st_dir st) (p_key rq) (p_cntr rq);
  match old, p_data rq with
  | None, None => Some (st, FLASH_ENOENT)
  | None, Some (n, _) => if p_nonexist rq then Some (st, FLASH_ENOENT) else store_write st pth rq None n
  | Some e, None =>
      if p_exist rq then Some (st, FLASH_EEXIST)
      else
        r ← release_slab (st_slabs st) (st_pending st) pth e;
        d ← mcd_fth_osd_slab_set seg_blks (st_flash st) (st_dir st) (at_address rq 0);
        Some (mk_store d.1.1 r.1 (st_flash st) r.2 (st_ring st), d.1.2)
  | Some e, Some (n, _) => if p_exist rq then Some (st, FLASH_EEXIST) else store_write st pth rq (Some e) n
  end.

(** Free the slabs of a list, the first one first. *)
Fixpoint free_all (sl : slab_shard) (pth : nat) (l : list Z) : option slab_shard :=
  match l with
  | [] => Some sl
  | o :: l => sl ← mcd_fth_osd_slab_dealloc geo sl pth o true; free_all sl pth l
  end.

(** The slabs pass through the ring, when it is enabled. *)
Fixpoint free_through (sl : slab_shard) (pth : nat) (l ring : list Z) : option (slab_shard * list Z) :=
  match l with
  | [] => Some (sl, ring)
  | o :: l =>
      if ring_enabled then
        match ring ++ [o] with
        | t :: ring' => if lenZ (ring ++ [o]) =? dealloc_ring_size then sl ← mcd_fth_osd_slab_dealloc geo sl pth t true; free_through sl pth l ring' else free_through sl pth l (ring ++ [o])
        | [] => None
        end
      else sl ← mcd_fth_osd_slab_dealloc geo sl pth o true; free_through sl pth l ring
  end.

(** After the log has been synchronised. *)
Definition log_sync_postprocess (st : store) (pth : nat) : option store :=
  if vdc then r ← free_through (st_slabs st) pth (st_pending st) (st_ring st); Some (mk_store (st_dir st) r.1 (st_flash st) [] r.2)
  else sl ← free_all (st_slabs st) pth (rev (st_pending st)); Some (mk_store (st_dir st) sl (st_flash st) [] (st_ring st)).

(** ** Invariant *)

(** The settings of directory and slabs agree. *)
Record agree (sl : slab_shard) : Prop := {
  ag_seg : sh_segment_blks sd = seg_blks;
  ag_blks : sh_blks sd = total_blks sl;
  ag_classes : length (slab_classes sl) = 13%nat
}.

Definition waiting (st : store) : list Z := st_pending st ++ st_ring st.

(** The slabs [A] in use are those of the objects and those that wait. *)
Record accounts (M : directory) (wait : list Z) (A : gmap Z Z) : Prop := {
  ac_objects : forall id o, M !! id = Some o -> 0 < ob_blocks o <= MCD_OSD_OBJ_MAX_BLKS /\ exists c, class_for (ob_blocks o) c /\ A !! ob_addr o = Some (2 ^ n2z c);
  ac_apart : forall id o id' o', M !! id = Some o -> M !! id' = Some o' -> ob_addr o = ob_addr o' -> id = id';
  ac_wait : forall a, a ∈ wait -> is_Some (A !! a) /\ forall id o, M !! id = Some o -> ob_addr o <> a;
  ac_nodup : NoDup wait;
  ac_all : forall a, is_Some (A !! a) -> a ∈ wait \/ exists id o, M !! id = Some o /\ ob_addr o = a
}.

(** The classes know how many of their slabs wait. *)
Definition pending_right (sl : slab_shard) (wait : list Z) (A : gmap Z Z) : Prop :=
  forall c cl, slab_classes sl !! c = Some cl -> dealloc_pending cl = lenZ (filter (fun a => A !! a = Some (2 ^ n2z c)) wait).

(** The slabs serve the objects [M] and those that wait. *)
Record slabs_ok (sl : slab_shard) (M : directory) (wait : list Z) : Prop := {
  b_inv : shard_inv geo sl;
  b_agree : agree sl;
  b_used : exists A, slab_rep geo sl A /\ accounts M wait A /\ pending_right sl wait A
}.

Record store_ok (st : store) (M : directory) : Prop := {
  x_life : life_ok sd (st_flash st) (st_dir st) M;
  x_slabs : slabs_ok (st_slabs st) M (waiting st);
  x_wait : persistent = false -> waiting st = []
}.

(** ** Accounts *)

Lemma accounts_perm M wait wait' A : wait ≡ₚ wait' -> accounts M wait A -> accounts M wait' A.
Proof using Type.
  intros P [H1 H2 H3 H4 H5]. split; try done.
  - intros a. rewrite <- P. apply H3.
  - by rewrite <- P.
  - intros a Ha. rewrite <- P. by apply H5.
Qed.

Lemma pending_perm sl wait wait' A : wait ≡ₚ wait' -> pending_right sl wait A -> pending_right sl wait' A.
Proof using Type. intros P H c cl Hc. rewrite (H c cl Hc). by rewrite P. Qed.

Lemma accounts_insert M wait A id a n del c : accounts M wait A -> M !! id = None -> A !! a = None -> class_for n c -> 0 < n <= MCD_OSD_OBJ_MAX_BLKS ->
  accounts (<[id := mk_object a n del]> M) wait (<[a := 2 ^ n2z c]> A).
Proof using Type.
  intros [H1 H2 H3 H4 H5] Hid Ha Hc Hb. assert (forall id' o, M !! id' = Some o -> ob_addr o <> a) as Hfr. { intros id' o Ho E. destruct (H1 id' o Ho) as (_ & d & _ & Hd). congruence. }
  split; try done.
  - intros id' o Ho. apply lookup_insert_Some in Ho as [[<- <-]|[Hne Ho]]; [split; [done|]; exists c; cbn; by rewrite lookup_insert_eq|]. destruct (H1 id' o Ho) as (Hr & d & Hd & HA). split; [done|]. exists d. rewrite lookup_insert_ne; [done|]. intros E. by apply (Hfr id' o).
  - intros i o i' o' Ho Ho' E. apply lookup_insert_Some in Ho as [[<- <-]|[Hne Ho]], Ho' as [[<- <-]|[Hne' Ho']]; cbn in E; try done.
    + exfalso. by apply (Hfr i' o').
    + exfalso. by apply (Hfr i o).
    + by apply (H2 i o i' o').
  - intros b Hb'. destruct (H3 b Hb') as [Hs Hn]. assert (b <> a) by (intros ->; by rewrite Ha in Hs; destruct Hs). split; [by rewrite lookup_insert_ne|].
    intros id' o Ho. apply lookup_insert_Some in Ho as [[<- <-]|[Hne Ho]]; [done|]. by apply (Hn id' o).
  - intros b Hb'. destruct (decide (b = a)) as [->|Hne]; [right; exists id, (mk_object a n del); by rewrite lookup_insert_eq|]. rewrite lookup_insert_ne in Hb' by done.
    destruct (H5 b Hb') as [|(id' & o & Ho & E)]; [by left|]. right. exists id', o. rewrite lookup_insert_ne; [done|]. intros <-. congruence.
Qed.

(** The object goes: its slab is free, or waits. *)
Lemma accounts_delete M wait A id o : accounts M wait A -> M !! id = Some o -> accounts (delete id M) wait (delete (ob_addr o) A).
Proof using Type.
  intros [H1 H2 H3 H4 H5] Hid. split; try done.
  - intros id' o' Ho. apply lookup_delete_Some in Ho as [Hne Ho]. destruct (H1 id' o' Ho) as (Hr & d & Hd & HA). split; [done|]. exists d. rewrite lookup_delete_ne; [done|]. intros E. by apply Hne, (H2 id o id' o').
  - intros i x i' x' Hx Hx'. apply lookup_delete_Some in Hx as [_ Hx], Hx' as [_ Hx']. by apply H2.
  - intros b Hb. destruct (H3 b Hb) as [Hs Hn]. split; [rewrite lookup_delete_ne; [done|by apply (Hn id o)]|]. intros id' o' Ho. apply lookup_delete_Some in Ho as [_ Ho]. by apply (Hn id' o').
  - intros b [n Hb]. apply lookup_delete_Some in Hb as [Hne Hb]. destruct (H5 b ltac:(by exists n)) as [|(id' & o' & Ho & E)]; [by left|]. right. exists id', o'. split; [|done]. apply lookup_delete_Some. split; [|done]. intros <-. congruence.
Qed.

Lemma accounts_wait M wait A id o : accounts M wait A -> M !! id = Some o -> accounts (delete id M) (ob_addr o :: wait) A.
Proof using Type.
  intros [H1 H2 H3 H4 H5] Hid. split.
  - intros id' o' Ho. apply lookup_delete_Some in Ho as [_ Ho]. by apply (H1 id').
  - intros i x i' x' Hx Hx'. apply lookup_delete_Some in Hx as [_ Hx], Hx' as [_ Hx']. by apply H2.
  - intros b [->|Hb]%elem_of_cons.
    + split; [destruct (H1 id o Hid) as (_ & d & _ & ->); by eexists|]. intros id' o' Ho E. apply lookup_delete_Some in Ho as [Hne Ho]. apply Hne. by apply (H2 id o id' o').
    + destruct (H3 b Hb) as [Hs Hn]. split; [done|]. intros id' o' Ho. apply lookup_delete_Some in Ho as [_ Ho]. by apply (Hn id' o').
  - apply list.NoDup_cons. split; [|done]. intros Hin. by apply (proj2 (H3 _ Hin) id o).
  - intros b Hb. rewrite elem_of_cons. destruct (H5 b Hb) as [|(id' & o' & Ho & <-)]; [by left; right|]. destruct (decide (id' = id)) as [->|Hne]; [left; left; congruence|].
    right. exists id', o'. split; [|done]. apply lookup_delete_Some. split; [congruence|done].
Qed.

(** A slab that waited is freed. *)
Lemma accounts_free M wait A a : accounts M (a :: wait) A -> accounts M wait (delete a A).
Proof using Type.
  intros [H1 H2 H3 H4 H5]. apply list.NoDup_cons in H4 as [Hin H4]. destruct (H3 a ltac:(by left)) as [_ Ha]. split; try done.
  - intros id o Ho. destruct (H1 id o Ho) as (Hr & d & Hd & HA). split; [done|]. exists d. rewrite lookup_delete_ne; [done|]. intros E. by apply (Ha id o).
  - intros b Hb. destruct (H3 b ltac:(by right)) as [Hs Hn]. split; [|done]. rewrite lookup_delete_ne; [done|]. by intros ->.
  - intros b [n Hb]. apply lookup_delete_Some in Hb as [Hne Hb]. destruct (H5 b ltac:(by exists n)) as [Hin'|]; [|by right]. left. apply elem_of_cons in Hin' as [->|]; done.
Qed.

(** The filter of a class only looks at the slabs that wait. *)
Lemma wait_filter (A A' : gmap Z Z) n (wait : list Z) : (forall a, a ∈ wait -> A' !! a = A !! a) -> filter (fun a => A' !! a = Some n) wait = filter (fun a => A !! a = Some n) wait.
Proof using Type.
  induction wait as [|a wait IH]; intros H; [done|]. rewrite !filter_cons, (H a) by (by left). rewrite IH; [done|]. intros b Hb. apply H. by right.
Qed.

Lemma pending_ext sl wait A A' : (forall a, a ∈ wait -> A' !! a = A !! a) -> pending_right sl wait A -> pending_right sl wait A'.
Proof using Type. intros H P c cl Hc. by rewrite (wait_filter A A'), (P c cl Hc). Qed.

Lemma pending_keeps sl sl' wait A : slab_keeps sl sl' -> pending_right sl wait A -> pending_right sl' wait A.
Proof using Type.
  intros Q P c cl' Hc. destruct (Forall2_lookup_r _ _ _ _ _ (q_classes _ _ Q) Hc) as (cl & Hc0 & (_ & _ & E)). rewrite E. by apply P.
Qed.

Lemma agree_keeps sl sl' : slab_keeps sl sl' -> agree sl -> agree sl'.
Proof using Type. intros Q [E1 E2 E3]. split; [done|by rewrite (q_blks _ _ Q)|]. by rewrite <- (Forall2_length _ _ _ (q_classes _ _ Q)). Qed.
(** ** Operations on slabs *)

Section ok.
Context (Hgeo : geo_ok geo).

(** Numbers below [m] that differ are at most [m]. *)
Lemma distinct_bound (l : list Z) m : NoDup l -> (forall a, a ∈ l -> 0 <= a < m) -> lenZ l <= Z.max 0 m.
Proof using Type.
  intros Hnd Hb. assert (z2n <$> l ⊆+ seq 0 (z2n m)) as H.
  { apply NoDup_submseteq.
    - apply NoDup_fmap_2_strong; [|done]. intros x y Hx Hy E. pose proof (Hb x Hx). pose proof (Hb y Hy). lia.
    - intros x Hx. apply list_elem_of_fmap in Hx as (y & -> & Hy). specialize (Hb y Hy). apply elem_of_seq. lia. }
  apply submseteq_length in H. rewrite length_fmap, length_seq in H. lia.
Qed.

Lemma wait_bound sl wait A c cl : slab_inv geo sl -> slab_rep geo sl A -> NoDup wait -> (forall a, a ∈ wait -> is_Some (A !! a)) -> slab_classes sl !! c = Some cl -> pending_right sl wait A -> 0 <= dealloc_pending cl <= 2 ^ 49.
Proof using Hgeo.
  intros I R Hnd Hw Hc P. rewrite (P c cl Hc). pose proof (length_filter (fun a => A !! a = Some (2 ^ n2z c)) wait).
  pose proof (distinct_bound wait (total_blks sl) Hnd) as Hb. pose proof (v_size I). pose proof (v_blks I). pose proof (seg_blks_bound geo Hgeo). enough (lenZ wait <= 2 ^ 49) by lia. rewrite Z.max_r in Hb by nia.
  etrans; [apply Hb|done]. intros a Ha. destruct (Hw a Ha) as [n Hn]. pose proof (slabs_inside geo sl A a n Hgeo I R Hn) as [Hlo Hhi]. apply R in Hn as (s & g & d & bm & k & _ & _ & _ & _ & _ & _ & ->). pose proof (slab_size_pos d). lia.
Qed.

(** One more slab waits, or one less. *)
Lemma pending_add sl c cl wait A a n : pending_right sl wait A -> slab_classes sl !! c = Some cl -> A !! a = Some (2 ^ n2z c) -> n = 1 ->
  pending_right (add_pending sl c cl n) (a :: wait) A.
Proof using Type.
  intros P Hc Ha -> d x Hd. cbn in Hd. rewrite filter_cons. destruct (decide (c = d)) as [<-|Hne].
  - rewrite list_lookup_insert_eq in Hd by (by apply lookup_lt_Some in Hc). injection Hd as <-. cbn. rewrite decide_True, (P c cl Hc) by done. cbn. lia.
  - rewrite list_lookup_insert_ne in Hd by done. rewrite decide_False, (P d x Hd); [done|]. rewrite Ha. intros [= E]. apply Z.pow_inj_r in E; lia.
Qed.

Lemma pending_sub sl c cl wait A a : pending_right sl (a :: wait) A -> slab_classes sl !! c = Some cl -> A !! a = Some (2 ^ n2z c) -> pending_right (add_pending sl c cl (-1)) wait A.
Proof using Type.
  intros P Hc Ha d x Hd. cbn in Hd. destruct (decide (c = d)) as [<-|Hne].
  - rewrite list_lookup_insert_eq in Hd by (by apply lookup_lt_Some in Hc). injection Hd as <-. cbn. specialize (P c cl Hc). rewrite filter_cons, decide_True in P by done. cbn in P. lia.
  - rewrite list_lookup_insert_ne in Hd by done. specialize (P d x Hd). rewrite filter_cons, decide_False in P; [done|]. rewrite Ha. intros [= E]. apply Z.pow_inj_r in E; lia.
Qed.

Lemma add_pending_inv sl c cl n m : shard_inv geo sl -> slab_classes sl !! c = Some cl -> shard_inv geo (set_blk_pending (set_class sl c (class_pending cl n)) m).
Proof using Type.
  intros W Hc. split; [by apply pending_inv, Hc; apply W|]. intros b Hb. destruct (w_table _ _ W b Hb) as (d & x & H1 & H2 & H3). cbn. destruct (decide (c = d)) as [<-|Hne].
  - exists c, (class_pending cl n). split; [done|]. split; [|done]. apply list_lookup_insert_eq. by apply lookup_lt_Some in Hc.
  - exists d, x. by rewrite list_lookup_insert_ne.
Qed.

(** The slab of a version that goes. *)
Lemma release_slab_ok sl pend wait A (p : nat) e c : shard_inv geo sl -> slab_rep geo sl A -> pending_right sl wait A -> NoDup wait -> (forall a, a ∈ wait -> is_Some (A !! a)) ->
  A !! blkaddress e = Some (2 ^ n2z c) -> class_for (blocks e) c -> 0 <= blocks e <= MCD_OSD_OBJ_MAX_BLKS -> blkaddress e ∉ wait -> (p < MCD_OSD_MAX_PTHREADS)%nat ->
  exists sl' A', release_slab sl pend p e = Some (sl', if persistent then pend ++ [blkaddress e] else pend) /\ shard_inv geo sl' /\ (agree sl -> agree sl') /\ slab_rep geo sl' A' /\
    A' = (if persistent then A else delete (blkaddress e) A) /\ pending_right sl' (if persistent then blkaddress e :: wait else wait) A'.
Proof using Hgeo.
  intros W R P Hnd Hw He Hfor Hblk Hni Hp. unfold release_slab, remove_entry_slab, mcd_osd_lba_to_blk. destruct persistent.
  - destruct (w_table _ _ W (blocks e) Hblk) as (d & cl & Ht & Hc & Hd). rewrite (class_for_unique _ _ _ Hd Hfor) in *. rewrite Ht. cbn [mbind option_bind]. rewrite Hc. cbn [mbind option_bind].
    pose proof (wait_bound sl wait A c cl (w_inv _ _ W) R Hnd Hw Hc P). rewrite (u64_small (dealloc_pending cl + 1)) by lia. eexists _, A. split; [done|]. split; [by apply add_pending_inv|]. split; [intros [E1 E2 E3]; split; [done|done|cbn; by rewrite length_insert]|]. split; [done|]. split; [done|].
    apply (pending_add sl c cl wait A (blkaddress e) 1); done.
  - destruct (dealloc_ok geo Hgeo sl A p (blkaddress e) (2 ^ n2z c) false (w_inv _ _ W) R He Hp ltac:(done)) as (sl' & -> & I' & R' & d & cl & _ & _ & Q). cbn [mbind option_bind].
    exists sl', (delete (blkaddress e) A). split; [done|]. split; [by apply (slab_keeps_table geo sl)|]. split; [by apply agree_keeps|]. split; [done|]. split; [done|].
    apply (pending_ext sl' wait A); [|by apply (pending_keeps sl)]. intros a Ha. apply lookup_delete_ne. by intros <-.
Qed.

(** A slab that waited. *)
Lemma free_waiting sl M wait (p : nat) a : slabs_ok sl M (a :: wait) -> (p < MCD_OSD_MAX_PTHREADS)%nat ->
  exists sl', mcd_fth_osd_slab_dealloc geo sl p a true = Some sl' /\ slabs_ok sl' M wait.
Proof using Hgeo.
  intros [W G (A & R & Ac & P)] Hp. destruct (ac_wait _ _ _ Ac a ltac:(by left)) as [[n Hn] _]. pose proof (ac_nodup _ _ _ Ac) as Hnd. apply list.NoDup_cons in Hnd as [Hni _].
  destruct (dealloc_ok geo Hgeo sl A p a n true (w_inv _ _ W) R Hn Hp) as (sl' & -> & I' & R' & c & cl & -> & Hc & Q).
  { intros _ c cl -> Hc. rewrite (P c cl Hc), filter_cons, decide_True by done. cbn. lia. }
  exists sl'. split; [done|]. pose proof (pending_sub sl c cl wait A a P Hc Hn) as P1. split.
  - apply (slab_keeps_table geo _ _ Q I'). pose proof (add_pending_inv sl c cl (dealloc_pending cl + -1) (blk_dealloc_pending sl) W Hc) as H. destruct sl. done.
  - apply (agree_keeps _ _ Q). destruct G. split; [done|done|cbn; by rewrite length_insert].
  - exists (delete a A). split; [done|]. split; [by apply accounts_free|]. apply (pending_ext sl' wait A); [|by apply (pending_keeps (add_pending sl c cl (-1)))].
    intros b Hb. apply lookup_delete_ne. by intros <-.
Qed.

Lemma slabs_perm sl M wait wait' : wait ≡ₚ wait' -> slabs_ok sl M wait -> slabs_ok sl M wait'.
Proof using Type. intros Pm [W G (A & R & Ac & P)]. split; [done..|]. exists A. split; [done|]. split; [by eapply accounts_perm|by eapply pending_perm]. Qed.

Lemma free_all_ok l : forall sl M wait (p : nat), slabs_ok sl M (l ++ wait) -> (p < MCD_OSD_MAX_PTHREADS)%nat -> exists sl', free_all sl p l = Some sl' /\ slabs_ok sl' M wait.
Proof using Hgeo.
  induction l as [|a l IH]; intros sl M wait p H Hp; cbn [free_all]; [by exists sl|]. destruct (free_waiting sl M (l ++ wait) p a H Hp) as (sl1 & -> & H1). cbn [mbind option_bind]. by apply IH.
Qed.

Lemma free_through_ok l : forall sl M ring (p : nat), slabs_ok sl M (l ++ ring) -> (p < MCD_OSD_MAX_PTHREADS)%nat -> exists sl' ring', free_through sl p l ring = Some (sl', ring') /\ slabs_ok sl' M ring'.
Proof using Hgeo.
  induction l as [|a l IH]; intros sl M ring p H Hp; cbn [free_through]; [by exists sl, ring|]. destruct ring_enabled.
  - destruct (ring ++ [a]) as [|t ring'] eqn:Er; [by destruct ring|]. assert (a :: l ++ ring ≡ₚ t :: l ++ ring') as Pm.
    { rewrite (Permutation_middle l ring' t), <- Er, app_assoc, <- (Permutation_cons_append (l ++ ring) a). done. }
    destruct (lenZ (t :: ring') =? dealloc_ring_size).
    + destruct (free_waiting sl M (l ++ ring') p t) as (sl1 & -> & H1); [by apply (slabs_perm sl M (a :: l ++ ring))|done|]. cbn [mbind option_bind]. by apply IH.
    + apply IH; [|done]. apply (slabs_perm sl M (a :: l ++ ring)); [|done]. by rewrite Pm, Permutation_middle.
  - destruct (free_waiting sl M (l ++ ring) p a H Hp) as (sl1 & -> & H1). cbn [mbind option_bind]. by apply IH.
Qed.

(** ** Requests *)

Context (Hok : shard_ok sd).

Record put_ok (rq : put_request) (pth : nat) : Prop := {
  u_key : p_key rq <> [];
  u_cntr : p_cntr rq <> 0;
  u_data : forall n del, p_data rq = Some (n, del) -> 0 < n;
  u_thread : n2z pth < num_threads geo
}.

(** A slab for a new object: none is left, or it is of no object. *)
Lemma alloc_slabs sl M wait A (p : nat) n : shard_inv geo sl -> agree sl -> slab_rep geo sl A -> accounts M wait A -> pending_right sl wait A -> 0 < n <= MCD_OSD_OBJ_MAX_BLKS -> n2z p < num_threads geo ->
  exists k a sl', mcd_fth_osd_slab_alloc geo junk sl p n 1 = Some (k, a, sl') /\ shard_inv geo sl' /\ agree sl' /\ pending_right sl' wait A /\
    (k = 0%nat /\ slab_rep geo sl' A \/
     exists c, k = 1%nat /\ class_for n c /\ A !! a = None /\ slab_rep geo sl' (<[a := 2 ^ n2z c]> A) /\ 0 <= a < sh_blks sd /\
       exists s g cl, at_ (segment_table sl') (a / seg_blks) = Some (Some s) /\ base_segments sl' !! s = Some g /\ sg_class g = Some c /\ slab_classes sl' !! c = Some cl /\ slab_blksize cl = 2 ^ n2z c).
Proof using Hgeo.
  intros W G R Ac P Hn Hp. destruct (w_table _ _ W n ltac:(lia)) as (c & cl & Ht & Hc & Hfor). destruct (slab_alloc_ok geo Hgeo junk sl c cl p 1 n A (w_inv _ _ W) Ht Hc Hp ltac:(lia) R) as (k & a & sl' & E & I' & Q & Hr).
  exists k, a, sl'. split; [done|]. split; [by apply (slab_keeps_table geo sl)|]. pose proof (agree_keeps _ _ Q G) as G'. split; [done|]. split; [by apply (pending_keeps sl)|].
  destruct Hr as [(-> & R' & _)|(Hk & Hof & Hfree & R')]; [by left|]. right. assert (k = 1%nat) as -> by lia. cbn [ins_slabs] in R'. specialize (Hfree 0%nat ltac:(lia)). rewrite Z.mul_0_l, Z.add_0_r in Hfree.
  exists c. split; [done|]. split; [done|]. split; [done|]. split; [done|]. destruct (slab_keeps_class _ _ _ _ Q Hc) as (cl' & Hc' & _). split.
  - rewrite (ag_blks _ G'). pose proof (slabs_inside geo sl' _ a (2 ^ n2z c) Hgeo I' R' ltac:(apply lookup_insert_eq)). pose proof (slab_size_pos c). lia.
  - destruct (slab_of_segment geo Hgeo sl' c cl' a I' Hc' Hof) as (s & g & bm & j & Hs & O & _ & _ & Hat). exists s, g, cl'. split; [done|]. split; [done|]. split; [apply (s_class O)|]. split; [done|]. apply (k_blksize (v_class I' _ _ Hc')).
Qed.

(** The entry of an object, with its slab. *)
Lemma entry_slab M wait A id e : accounts M wait A -> M !! id = Some (object_of e) ->
  exists c, class_for (blocks e) c /\ 0 <= blocks e <= MCD_OSD_OBJ_MAX_BLKS /\ A !! blkaddress e = Some (2 ^ n2z c) /\ blkaddress e ∉ wait.
Proof using Type.
  intros Ac HM. destruct (ac_objects _ _ _ Ac id _ HM) as (Hr & c & Hc & HA). exists c. cbn in *. split; [done|]. split; [lia|]. split; [done|]. intros Hin. by apply (proj2 (ac_wait _ _ _ Ac _ Hin) id (object_of e)).
Qed.

Lemma set_spec_write M rq n del a : p_data rq = Some (n, del) -> n <= MCD_OSD_OBJ_MAX_BLKS -> (M !! (p_cntr rq, p_key rq) = None -> p_nonexist rq = false) -> (is_Some (M !! (p_cntr rq, p_key rq)) -> p_exist rq = false) ->
  set_spec M (at_address rq a) = (FLASH_EOK, <[(p_cntr rq, p_key rq) := mk_object a n del]> M).
Proof using Type.
  intros Hd Hn H1 H2. unfold set_spec, too_big, at_address. cbn. rewrite Hd. cbn. rewrite (proj2 (Z.ltb_ge _ _)) by done. destruct (M !! (p_cntr rq, p_key rq)) eqn:E; [rewrite H2 by done; done|by rewrite H1].
Qed.

Lemma store_write_ok st M (p : nat) rq old n del : store_ok st M -> put_ok rq p -> p_data rq = Some (n, del) -> n <= MCD_OSD_OBJ_MAX_BLKS -> object_of <$> old = M !! (p_cntr rq, p_key rq) ->
  (M !! (p_cntr rq, p_key rq) = None -> p_nonexist rq = false) -> (is_Some (M !! (p_cntr rq, p_key rq)) -> p_exist rq = false) ->
  exists st' rc, store_write st p rq old n = Some (st', rc) /\
    (rc = FLASH_EOK /\ (exists a, store_ok st' (<[(p_cntr rq, p_key rq) := mk_object a n del]> M)) \/ rc = FLASH_ENOSPC /\ store_ok st' M).
Proof using Hgeo Hok.
  intros [L [W G (A & R & Ac & P)] Hw] U Hd Hn Hold H1 H2. set (id := (p_cntr rq, p_key rq)) in *. pose proof (u_data _ _ U n del Hd) as Hn0. pose proof (u_thread _ _ U) as Hp. pose proof (g_threads _ Hgeo).
  assert (p < MCD_OSD_MAX_PTHREADS)%nat as Hp2 by (unfold MCD_OSD_MAX_PTHREADS; lia). unfold store_write.
  destruct (alloc_slabs (st_slabs st) M (waiting st) A p n W G R Ac P ltac:(lia) Hp) as (k & a & sl & -> & W1 & G1 & P1 & Hr). cbn [mbind option_bind].
  destruct Hr as [(-> & R1)|(c & -> & Hfor & Hfree & R1 & Ha & s & g & cl & -> & Hs & Hgc & Hcl & Hsz)]; cbn [Nat.eqb negb].
  { eexists _, _. split; [done|]. right. split; [done|]. split; [done| |done]. split; [done..|]. by exists A. }
  cbn [mbind option_bind]. rewrite Hs. cbn [mbind option_bind]. rewrite Hgc. cbn [mbind option_bind]. rewrite Hcl. cbn [mbind option_bind]. unfold mcd_osd_lba_to_blk.
  rewrite Hsz, assert_true by (apply Z.leb_le; apply Hfor). cbn [mbind option_bind]. set (A1 := <[a := 2 ^ n2z c]> A) in *.
  assert (request_ok sd M (at_address rq a)) as Rq.
  { split; [apply U|apply U|]. cbn. rewrite Hd. intros x y z [= <- <- <-]. split; [lia|]. split; [done|]. intros i o Ho E. destruct (ac_objects _ _ _ Ac i o Ho) as (_ & d & _ & HA). congruence. }
  destruct (set_life sd Hok (st_flash st) (st_dir st) M (at_address rq a) L Rq) as (h & rc & ra & Hset & L' & Hrc). rewrite (ag_seg _ G) in Hset. rewrite Hset. cbn [mbind option_bind].
  pose proof (set_spec_write M rq n del a Hd Hn H1 H2) as Hspec. rewrite Hspec in Hrc. cbn [fst] in Hrc. fold id in Hspec, Hrc. unfold next_map, flash_after in L'. cbn [at_address s_data s_key] in L'. rewrite Hd in L'.
  assert (pending_right sl (waiting st) A1) as P2. { apply (pending_ext _ _ A); [|done]. intros b Hb. apply lookup_insert_ne. intros <-. destruct (proj1 (ac_wait _ _ _ Ac _ Hb)). congruence. }
  destruct Hrc as [->|(-> & _ & Hnone)].
  - rewrite Hspec in L'. cbn [snd] in L'. destruct old as [e|]; cbn in Hold; symmetry in Hold.
    + destruct (entry_slab M (waiting st) A id e Ac Hold) as (d & Hd2 & Hbl & HA & Hni). assert (blkaddress e <> a) as Hne by (intros E; congruence).
      destruct (release_slab_ok sl (st_pending st) (waiting st) A1 p e d W1 R1 P2 (ac_nodup _ _ _ Ac)) as (sl2 & A2 & -> & W2 & Et & R2 & EA & P3); try done.
      { intros b Hb. destruct (proj1 (ac_wait _ _ _ Ac b Hb)) as [m Hm]. exists m. unfold A1. rewrite lookup_insert_ne; [done|]. intros <-. congruence. }
      { unfold A1. by rewrite lookup_insert_ne. }
      cbn [mbind option_bind fst snd]. eexists _, FLASH_EOK. split; [done|]. left. split; [done|]. exists a. fold id.
      pose proof (Et G1) as G2.
      assert (<[id := mk_object a n del]> M = <[id := mk_object a n del]> (delete id M)) as EM by (by rewrite insert_delete_eq). destruct persistent eqn:Eper.
      * split; [done| |congruence]. split; [done|done|]. exists A1. subst A2. split; [done|]. unfold waiting. cbn [st_pending st_ring]. assert (blkaddress e :: waiting st ≡ₚ (st_pending st ++ [blkaddress e]) ++ st_ring st) as Pm.
        { unfold waiting. rewrite <- app_assoc. cbn. by rewrite Permutation_middle. }
        split; [|by apply (pending_perm _ (blkaddress e :: waiting st))]. apply (accounts_perm _ (blkaddress e :: waiting st)); [done|]. rewrite EM.
        apply accounts_insert; [by apply (accounts_wait M (waiting st) A id (object_of e))|apply lookup_delete_eq|done..|lia].
      * split; [done| |intros _; by apply Hw]. split; [done|done|]. exists A2. split; [done|]. split; [|done]. rewrite EM, EA. unfold A1. rewrite delete_insert_ne by done.
        apply accounts_insert; [by apply (accounts_delete M (waiting st) A id (object_of e))|apply lookup_delete_eq|by rewrite lookup_delete_ne|done|lia].
    + eexists _, FLASH_EOK. split; [done|]. left. split; [done|]. exists a. fold id. split; [done| |done]. split; [done|done|]. exists A1. split; [done|]. split; [|done]. by apply accounts_insert.
  - unfold remove_entry_slab. destruct (dealloc_ok geo Hgeo sl A1 p a (2 ^ n2z c) false (w_inv _ _ W1) R1 ltac:(apply lookup_insert_eq) Hp2 ltac:(done)) as (sl2 & -> & I2 & R2 & d & x & _ & _ & Q). cbn [mbind option_bind].
    eexists _, FLASH_ENOSPC. split; [done|]. right. split; [done|]. unfold A1 in R2. rewrite delete_insert_id in R2 by done. split; [done| |done]. split; [by apply (slab_keeps_table geo sl)|by apply (agree_keeps sl)|].
    exists A. split; [done|]. split; [done|]. by apply (pending_keeps sl).
Qed.

(** The status and the map of a request, whose slab is chosen by the store. *)
Lemma store_set_ok st M (p : nat) rq : store_ok st M -> put_ok rq p ->
  exists st' rc, store_set st p rq = Some (st', rc) /\
    ((exists a, rc = fst (set_spec M (at_address rq a)) /\ store_ok st' (snd (set_spec M (at_address rq a)))) \/
     rc = FLASH_ENOSPC /\ fst (set_spec M (at_address rq 0)) = FLASH_EOK /\ p_data rq <> None /\ store_ok st' M).
Proof using Hgeo Hok.
  intros X U. pose proof (x_slabs _ _ X) as [W G (A & R & Ac & P)]. unfold store_set. destruct (too_big (at_address rq 0)) eqn:Eb.
  { eexists _, _. split; [done|]. left. exists 0. unfold set_spec. rewrite Eb. done. }
  destruct (life_answers sd _ _ _ (x_life _ _ X) (p_key rq) (p_cntr rq) (u_key _ _ U) (u_cntr _ _ U)) as (old & El & Hold). rewrite (ag_seg _ G) in El. rewrite El. cbn [mbind option_bind].
  assert (forall a, too_big (at_address rq a) = false) as Htb by (intros a; rewrite <- Eb; unfold too_big, at_address; cbn; by destruct (p_data rq) as [[? ?]|]).
  assert (forall n del, p_data rq = Some (n, del) -> n <= MCD_OSD_OBJ_MAX_BLKS) as Hle. { intros n del Hd. unfold too_big, at_address in Eb. cbn in Eb. rewrite Hd in Eb. by apply Z.ltb_ge in Eb. }
  destruct (p_data rq) as [[n del]|] eqn:Hd.
  - assert (forall a, set_spec M (at_address rq a) = match M !! (p_cntr rq, p_key rq) with None => if p_nonexist rq then (FLASH_ENOENT, M) else (FLASH_EOK, <[(p_cntr rq, p_key rq) := mk_object a n del]> M)
      | Some _ => if p_exist rq then (FLASH_EEXIST, M) else (FLASH_EOK, <[(p_cntr rq, p_key rq) := mk_object a n del]> M) end) as Hspec.
    { intros a. unfold set_spec. rewrite Htb. unfold at_address. cbn. rewrite Hd. done. }
    assert (forall Hx : M !! (p_cntr rq, p_key rq) = None -> p_nonexist rq = false, forall Hy : is_Some (M !! (p_cntr rq, p_key rq)) -> p_exist rq = false, exists st' rc, store_write st p rq old n = Some (st', rc) /\
      ((exists a, rc = fst (set_spec M (at_address rq a)) /\ store_ok st' (snd (set_spec M (at_address rq a)))) \/
      rc = FLASH_ENOSPC /\ fst (set_spec M (at_address rq 0)) = FLASH_EOK /\ Some (n, del) <> None /\ store_ok st' M)) as Hwrite.
    { intros Hx Hy. destruct (store_write_ok st M p rq old n del X U Hd (Hle n del eq_refl) Hold Hx Hy) as (st' & rc & -> & Hr). exists st', rc. split; [done|]. destruct Hr as [(-> & a & X')|(-> & X')]; [left; exists a|right; split; [done|]; by rewrite (set_spec_write M rq n del 0 Hd (Hle n del eq_refl) Hx Hy)].
      rewrite (set_spec_write M rq n del a Hd (Hle n del eq_refl) Hx Hy). done. }
    destruct old as [e|]; cbn in Hold.
    + destruct (p_exist rq) eqn:Ee; [eexists _, _; split; [done|]; left; exists 0; rewrite Hspec, <- Hold; done|]. apply Hwrite; [by rewrite <- Hold|done].
    + destruct (p_nonexist rq) eqn:Ee; [eexists _, _; split; [done|]; left; exists 0; rewrite Hspec, <- Hold; done|]. apply Hwrite; [done|]. rewrite <- Hold. by intros [].
  - assert (set_spec M (at_address rq 0) = match M !! (p_cntr rq, p_key rq) with None => (FLASH_ENOENT, M) | Some _ => if p_exist rq then (FLASH_EEXIST, M) else (FLASH_EOK, delete (p_cntr rq, p_key rq) M) end) as Hspec.
    { unfold set_spec. rewrite Htb. unfold at_address. cbn. rewrite Hd. done. }
    destruct old as [e|]; cbn in Hold; [|eexists _, _; split; [done|]; left; exists 0; rewrite Hspec, <- Hold; done].
    destruct (p_exist rq) eqn:Ee; [eexists _, _; split; [done|]; left; exists 0; rewrite Hspec, <- Hold; done|]. set (id := (p_cntr rq, p_key rq)) in *. symmetry in Hold.
    destruct (entry_slab M (waiting st) A id e Ac Hold) as (d & Hd2 & Hbl & HA & Hni). pose proof (u_thread _ _ U). pose proof (g_threads _ Hgeo).
    destruct (release_slab_ok (st_slabs st) (st_pending st) (waiting st) A p e d W R P (ac_nodup _ _ _ Ac)) as (sl2 & A2 & -> & W2 & Et & R2 & EA & P3); try done; [intros b Hb; apply (proj1 (ac_wait _ _ _ Ac b Hb))|unfold MCD_OSD_MAX_PTHREADS; lia|].
    cbn [mbind option_bind fst snd]. assert (request_ok sd M (at_address rq 0)) as Rq by (split; [apply U|apply U|]; cbn; by rewrite Hd).
    destruct (set_life sd Hok (st_flash st) (st_dir st) M (at_address rq 0) (x_life _ _ X) Rq) as (h & rc & ra & Hset & L' & Hrc). rewrite (ag_seg _ G) in Hset. rewrite Hset. cbn [mbind option_bind fst snd].
    rewrite Hspec, Hold in Hrc. destruct Hrc as [Hrc|(_ & _ & Hno)]; [|cbn in Hno; fold id in Hno; congruence]. cbn in Hrc. subst rc. unfold next_map, flash_after in L'. rewrite Hspec, Hold in L'. cbn [at_address s_data snd] in L'. rewrite Hd in L'.
    eexists _, _. split; [done|]. left. exists 0. rewrite Hspec, Hold. cbn [fst snd]. split; [done|]. pose proof (Et G) as G2. destruct persistent eqn:Eper.
    + split; [done| |congruence]. split; [done|done|]. exists A. subst A2. split; [done|]. unfold waiting. cbn [st_pending st_ring]. assert (blkaddress e :: waiting st ≡ₚ (st_pending st ++ [blkaddress e]) ++ st_ring st) as Pm.
      { unfold waiting. rewrite <- app_assoc. cbn. by rewrite Permutation_middle. }
      split; [|by apply (pending_perm _ (blkaddress e :: waiting st))]. apply (accounts_perm _ (blkaddress e :: waiting st)); [done|]. by apply (accounts_wait M (waiting st) A id (object_of e)).
    + split; [done| |by apply X]. split; [done|done|]. exists A2. split; [done|]. split; [|done]. rewrite EA. by apply (accounts_delete M (waiting st) A id (object_of e)).
Qed.

Lemma sync_ok st M (p : nat) : store_ok st M -> (p < MCD_OSD_MAX_PTHREADS)%nat -> exists st', log_sync_postprocess st p = Some st' /\ store_ok st' M /\ st_pending st' = [].
Proof using Hgeo.
  intros [L S Hw] Hp. unfold log_sync_postprocess. destruct vdc.
  - destruct (free_through_ok (st_pending st) (st_slabs st) M (st_ring st) p S Hp) as (sl & ring & E & S'). rewrite E. cbn [mbind option_bind fst snd]. eexists. split; [done|]. split; [|done]. split; [done|done|].
    intros Hper. specialize (Hw Hper). unfold waiting in *. cbn. apply app_eq_nil in Hw as [E1 E2]. rewrite E1, E2 in E. cbn in E. by injection E as <- <-.
  - destruct (free_all_ok (rev (st_pending st)) (st_slabs st) M (st_ring st) p) as (sl & E & S'); [|done|].
    + apply (slabs_perm _ _ (waiting st)); [|done]. unfold waiting. f_equiv. by rewrite <- Permutation_rev.
    + rewrite E. cbn [mbind option_bind]. eexists. split; [done|]. split; [|done]. split; [done|done|]. intros Hper. specialize (Hw Hper). unfold waiting in *. cbn. by apply app_eq_nil in Hw as [_ ->].
Qed.
End ok.
End store.

(** * The object store: restart

    The lists of segments on flash have, for every place of the list of a class,
    the address of its segment, which [update_class] writes when the place
    changes. A store that starts again from them and from the object table has
    the slabs of its objects in use, and no others. *)

(** ** The lists on flash *)

(** What [update_class] stores for a place: the inverted address, since address
    0 is valid. *)
Definition list_entry (sl : slab_shard) (p : option nat) : Z :=
  match p with Some s => match base_segments sl !! s with Some g => u64 (Z.lnot (blk_offset g)) | None => 0 end | None => 0 end.

Definition recorded_lists (sl : slab_shard) : list (list Z) := (fun cl => list_entry sl <$> segments cl) <$> slab_classes sl.

Lemma invert_twice x : 0 <= x < 2 ^ 64 -> u64 (Z.lnot (u64 (Z.lnot x))) = x.
Proof.
  intros Hx. unfold Z.lnot. assert (u64 (Z.pred (- x)) = 2 ^ 64 - 1 - x) as ->.
  { unfold u64. replace (Z.pred (- x)) with (2 ^ 64 - 1 - x + (-1) * 2 ^ 64) by lia. rewrite Z.mod_add by lia. apply Z.mod_small. lia. }
  unfold u64. replace (Z.pred (- (2 ^ 64 - 1 - x))) with (x + (-1) * 2 ^ 64) by lia. rewrite Z.mod_add by lia. apply Z.mod_small. lia.
Qed.

Lemma inverted_nonzero x : 0 <= x < 2 ^ 64 - 1 -> u64 (Z.lnot x) <> 0.
Proof.
  intros Hx E. pose proof (invert_twice x ltac:(lia)) as H. rewrite E in H. change (u64 (Z.lnot 0)) with (2 ^ 64 - 1) in H. lia.
Qed.

Section restart.
Context (sd : shard) (geo : geometry) (junk : nat -> Z) (Hgeo : geo_ok geo).
Abbreviation seg_blks := (Mcd_osd_segment_blks geo).
Abbreviation slabs_in c := (Mcd_osd_segment_blks geo / 2 ^ n2z c).

Lemma entry_at sl c cl i s : slab_inv geo sl -> slab_classes sl !! c = Some cl -> segments cl !! i = Some (Some s) ->
  (s < length (base_segments sl))%nat /\ list_entry sl (Some s) <> 0 /\ u64 (Z.lnot (list_entry sl (Some s))) = n2z s * seg_blks.
Proof using Hgeo.
  intros I Hc Hs. destruct (k_ptr (v_class I _ _ Hc) i s Hs) as (_ & g & Hg & Hcg & _). pose proof (lookup_lt_Some _ _ _ Hg) as Hlt. split; [done|]. unfold list_entry. rewrite Hg.
  destruct (v_seg I s g Hg) as [F|(d & x & bm & O)]; [by rewrite (f_class F) in Hcg|]. rewrite (s_offset O). pose proof (v_size I). pose proof (v_blks I). pose proof (seg_blks_bound geo Hgeo).
  split; [apply inverted_nonzero; nia|apply invert_twice; nia].
Qed.

(** The recorded segments are those of the lists of the classes. *)
Lemma recorded_iff sl c i s : slab_inv geo sl -> recorded geo (recorded_lists sl) c i s <-> exists cl, slab_classes sl !! c = Some cl /\ segments cl !! i = Some (Some s).
Proof using Hgeo.
  intros I. pose proof (seg_blks_bound geo Hgeo). unfold recorded, recorded_lists. split.
  - intros (data & d & Hd & Hi & Hnz & Ha). rewrite list_lookup_fmap in Hd. destruct (slab_classes sl !! c) as [cl|] eqn:Hc; [|done]. injection Hd as <-. rewrite list_lookup_fmap in Hi. destruct (segments cl !! i) as [[t|]|] eqn:Ht; [| |done]; injection Hi as <-; [|done].
    destruct (entry_at sl c cl i t I Hc Ht) as (_ & _ & E). assert (n2z t * seg_blks = n2z s * seg_blks) by (rewrite <- E; exact Ha). assert (t = s) as -> by nia. by exists cl.
  - intros (cl & Hc & Hs). destruct (entry_at sl c cl i s I Hc Hs) as (_ & Hnz & E). exists (list_entry sl <$> segments cl), (list_entry sl (Some s)). rewrite list_lookup_fmap, Hc. split; [done|]. rewrite list_lookup_fmap, Hs. done.
Qed.

Lemma recorded_lists_ok sl : slab_inv geo sl -> length (slab_classes sl) = 13%nat -> (forall c s g, base_segments sl !! s = Some g -> sg_class g = Some c -> 8 <= slabs_in c \/ junk s = 0) ->
  lists_ok geo junk (length (base_segments sl)) (recorded_lists sl).
Proof using Hgeo.
  intros I H13 Hj. split.
  - intros c data i d Hd Hi Hnz. unfold recorded_lists in Hd. rewrite list_lookup_fmap in Hd. destruct (slab_classes sl !! c) as [cl|] eqn:Hc; [|done]. injection Hd as <-. rewrite list_lookup_fmap in Hi. destruct (segments cl !! i) as [[t|]|] eqn:Ht; [| |done]; injection Hi as <-; [|done].
    destruct (entry_at sl c cl i t I Hc Ht) as (Hlt & _ & E). pose proof (lookup_lt_Some _ _ _ Ht) as Hi. rewrite (k_len (v_class I _ _ Hc)) in Hi. split; [done|]. by exists t.
  - intros c i c' i' s (cl & Hc & Hs)%(recorded_iff sl c i s I) (cl' & Hc' & Hs')%(recorded_iff sl c' i' s I). destruct (k_ptr (v_class I _ _ Hc) i s Hs) as (_ & g & Hg & E1 & E2), (k_ptr (v_class I _ _ Hc') i' s Hs') as (_ & g' & Hg' & E1' & E2').
    rewrite Hg in Hg'. injection Hg' as <-. split; congruence.
  - unfold recorded_lists. rewrite length_fmap. lia.
  - intros c i s (cl & Hc & Hs)%(recorded_iff sl c i s I). destruct (k_ptr (v_class I _ _ Hc) i s Hs) as (_ & g & Hg & E1 & _). by apply (Hj c s g).
Qed.

(** ** The slabs after a restart *)

Lemma accounts_listed sl M wait A : slab_inv geo sl -> slab_rep geo sl A -> accounts M wait A -> objects_listed geo (recorded_lists sl) M.
Proof using Hgeo.
  intros I R Ac id o Ho. destruct (ac_objects _ _ _ Ac id o Ho) as (_ & c & Hc & HA). destruct (slab_used_at geo Hgeo sl A _ _ I R HA) as (s & g & d & cl & bm & k & Hs & O & Hk & _ & Ea & En & _).
  assert (c = d) as <- by (apply Nat2Z.inj, (Z.pow_inj_r 2); lia). exists c, (sg_idx g), s, k. split; [done|]. split; [|done]. apply (recorded_iff sl); [done|]. exists cl. split; [apply (s_cl O)|apply (s_listed O)].
Qed.

Lemma slabs_of_accounts storm onflash h0 objs M A : table_of storm onflash h0 objs M -> slabs_of M A -> (forall id o, M !! id = Some o -> 0 < ob_blocks o <= MCD_OSD_OBJ_MAX_BLKS /\ exists c, class_for (ob_blocks o) c) -> accounts M [] A.
Proof using Type.
  intros T HA Hb. split.
  - intros id o Ho. destruct (Hb id o Ho) as (Hr & c & Hc). split; [done|]. exists c. split; [done|]. apply HA. by exists id, o, c.
  - intros [cn key] o [cn' key'] o' Ho Ho' E. destruct (t_map _ _ _ _ _ T cn key o Ho) as (_ & Hf & obj & Hx & _ & Hcn), (t_map _ _ _ _ _ T cn' key' o' Ho') as (_ & Hf' & obj' & Hx' & _ & Hcn'). rewrite E in *. congruence.
  - intros a Ha. by apply not_elem_of_nil in Ha.
  - constructor.
  - intros a [n Hn]. apply HA in Hn as (id & o & c & Ho & E & _). right. by exists id, o.
Qed.

(** A restart uses exactly the slabs of the objects. *)
Lemma restart_slabs_ok sl M wait (n : nat) sl0 storm onflash h0 objs (first_shard : bool) : slabs_ok sd geo sl M wait -> table_of storm onflash h0 objs M -> n2z n * seg_blks <= 2 ^ 49 -> sh_blks sd = n2z n * seg_blks ->
  mcd_osd_slab_shard_init geo (n2z n) false false = Some sl0 -> lenZ objs <= sh_blks sd -> (forall c s g, base_segments sl !! s = Some g -> sg_class g = Some c -> 8 <= slabs_in c \/ junk s = 0) ->
  exists sl', recover_slabs geo junk first_shard (recorded_lists sl) objs sl0 = Some sl' /\ slabs_ok sd geo sl' M [].
Proof using Hgeo.
  intros [W G (A & R & Ac & _)] T Hsize Hn Hinit Hobjs Hj. pose proof (w_inv _ _ W) as I. pose proof (seg_blks_bound geo Hgeo). destruct (shard_init_ok geo Hgeo n false Hsize) as (x & Ex & _ & _ & P0 & Et). rewrite Hinit in Ex. injection Ex as <-.
  destruct (init_listed geo Hgeo n sl0 Hsize Hinit []) as (_ & _ & H13 & _). assert (length (base_segments sl) = n) as Hlen by (pose proof (v_blks I); pose proof (ag_blks _ _ _ G); nia).
  pose proof (recorded_lists_ok sl I (ag_classes _ _ _ G) Hj) as Hlists. rewrite Hlen in Hlists.
  destruct (recover_slabs_ok geo junk Hgeo n sl0 Hsize Hinit storm onflash h0 objs M (recorded_lists sl) first_shard T Hlists (accounts_listed sl M wait A I R Ac) ltac:(lia)) as (sl' & A' & E & W' & Q & R' & HA). clear Hinit.
  exists sl'. split; [exact E|]. clear E. split; [exact W'| |].
  - apply (agree_keeps sd geo sl0); [exact Q|]. split; [apply G|lia|done].
  - exists A'. split; [exact R'|]. split.
    + apply (slabs_of_accounts storm onflash h0 objs); [done|done|]. intros id o Ho. destruct (ac_objects _ _ _ Ac id o Ho) as (Hb & c & Hc & _). split; [done|]. by exists c.
    + apply (pending_keeps sl0 sl'); [exact Q|]. intros c cl Hc. by rewrite (P0 c cl Hc).
Qed.
End restart.
