(* ===== verification/SlabTheorems.v ===== *)
(** * The slab allocator and the object store: theorems

    [slab_reach] is the life of the slabs of a shard with the map of the slabs in
    use, [store_reach] that of a store of objects with the map that its clients
    see. The theorems say that slabs given out never overlap, when an allocation
    is rejected, that the store answers as the map, also after restarts, that no
    space is shared between objects or lost, and what goes wrong. *)

From stdpp Require Import gmap.
From S2P Require Import Prelude Hash HashTable HashTableSpec HashTableSet HashTableUndo HashTableLoad HashTableTheorems Slab SlabRep SlabScan SlabAlloc SlabFree SlabLoad SlabStore.
From stdpp Require Import list.
From Stdlib Require Strings.String.
Import String.StringSyntax.
Open Scope Z_scope.
Delimit Scope string_scope with string.

Section slabs.
Context (geo : geometry) (junk : nat -> Z).
Abbreviation seg_blks := (Mcd_osd_segment_blks geo).

(** ** The life of the slabs *)

(** A request for slabs: at most the largest object, by one of the threads. *)
Definition alloc_request_ok (p : nat) (nblocks : Z) : Prop := 0 <= nblocks <= MCD_OSD_OBJ_MAX_BLKS /\ n2z p < num_threads geo.

(** The slabs in use are those given out and not freed, with the size of the
    class of the request. *)
Inductive slab_reach : slab_shard -> gmap Z Z -> Prop :=
| slab_new (n : nat) fe sh : n2z n * seg_blks <= 2 ^ 49 -> mcd_osd_slab_shard_init geo (n2z n) false fe = Some sh -> slab_reach sh ∅
| slab_alloc sh A p nblocks count c k a sh' : slab_reach sh A -> alloc_request_ok p nblocks -> (1 <= count)%nat -> class_for nblocks c ->
    mcd_fth_osd_slab_alloc geo junk sh p nblocks count = Some (k, a, sh') -> slab_reach sh' (ins_slabs a (2 ^ n2z c) k A)
| slab_alloc_raw sh A p nblocks c r sh' : slab_reach sh A -> alloc_request_ok p nblocks -> class_for nblocks c ->
    alloc_raw geo 1 junk sh p nblocks = Some (r, sh') -> slab_reach sh' (match r with Some a => <[a := 2 ^ n2z c]> A | None => A end)
| slab_dealloc sh A p a sh' : slab_reach sh A -> (p < MCD_OSD_MAX_PTHREADS)%nat -> is_Some (A !! a) ->
    mcd_fth_osd_slab_dealloc geo sh p a false = Some sh' -> slab_reach sh' (delete a A).

Section ok.
Context (Hgeo : geo_ok geo).

Lemma alloc_step sh A p nblocks count c : shard_inv geo sh -> slab_rep geo sh A -> alloc_request_ok p nblocks -> (1 <= count)%nat -> class_for nblocks c ->
  exists k a sh', mcd_fth_osd_slab_alloc geo junk sh p nblocks count = Some (k, a, sh') /\ shard_inv geo sh' /\ slab_rep geo sh' (ins_slabs a (2 ^ n2z c) k A) /\
    (k = 0%nat /\ given_up geo A c p count sh' \/ (k = 1%nat \/ k = count) /\ forall i : nat, (i < k)%nat -> A !! (a + n2z i * 2 ^ n2z c) = None) /\
    (exists cl, slab_classes sh' !! c = Some cl) /\ total_blks sh' = total_blks sh.
Proof using Hgeo.
  intros W R [Hb Hp] Hcount Hfor. destruct (w_table _ _ W nblocks Hb) as (d & cl & Ht & Hc & Hd). rewrite (class_for_unique _ _ _ Hfor Hd).
  destruct (slab_alloc_ok geo Hgeo junk sh d cl p count nblocks A (w_inv _ _ W) Ht Hc Hp Hcount R) as (k & a & sh' & -> & I & Q & Hr). exists k, a, sh'. split; [done|]. split; [by apply (slab_keeps_table geo sh)|].
  assert (exists cl, slab_classes sh' !! d = Some cl) as Hcl by (destruct (slab_keeps_class _ _ _ _ Q Hc) as (x & Hx & _); by exists x). pose proof (q_blks _ _ Q).
  destruct Hr as [(-> & R' & G)|(Hk & _ & Hfree & R')]; (split; [done|]); (split; [|done]); [by left|by right].
Qed.

Lemma raw_step sh A p nblocks c : shard_inv geo sh -> slab_rep geo sh A -> alloc_request_ok p nblocks -> class_for nblocks c ->
  exists r sh', alloc_raw geo 1 junk sh p nblocks = Some (r, sh') /\ shard_inv geo sh' /\ slab_rep geo sh' (match r with Some a => <[a := 2 ^ n2z c]> A | None => A end) /\
    forall a, r = Some a -> a <> 0 /\ A !! a = None.
Proof using Hgeo.
  intros W R [Hb Hp] Hfor. destruct (alloc_raw_ok geo Hgeo junk sh p nblocks A W R Hb Hp) as (r & sh' & -> & I & Q & Hr). exists r, sh'. split; [done|]. split; [by apply (slab_keeps_table geo sh)|].
  destruct r as [a|]; [|done]. destruct Hr as (Ha & d & Hd & _ & Hfree & R'). rewrite (class_for_unique _ _ _ Hfor Hd). split; [done|]. intros b [= <-]. split; [done|].
  specialize (Hfree 0%nat ltac:(lia)). by rewrite Z.mul_0_l, Z.add_0_r in Hfree.
Qed.

Lemma dealloc_step sh A p a : shard_inv geo sh -> slab_rep geo sh A -> (p < MCD_OSD_MAX_PTHREADS)%nat -> is_Some (A !! a) ->
  exists sh', mcd_fth_osd_slab_dealloc geo sh p a false = Some sh' /\ shard_inv geo sh' /\ slab_rep geo sh' (delete a A).
Proof using Hgeo.
  intros W R Hp [n Ha]. destruct (dealloc_ok geo Hgeo sh A p a n false (w_inv _ _ W) R Ha Hp ltac:(done)) as (sh' & -> & I & R' & c & cl & _ & _ & Q). exists sh'. split; [done|]. split; [by apply (slab_keeps_table geo sh)|done].
Qed.

Lemma slab_reach_ok sh A : slab_reach sh A -> shard_inv geo sh /\ slab_rep geo sh A.
Proof using Hgeo.
  induction 1 as [n fe sh Hn E|sh A p nblocks count c k a sh' _ [W R] Hrq Hc Hfor E|sh A p nblocks c r sh' _ [W R] Hrq Hfor E|sh A p a sh' _ [W R] Hp Ha E].
  - destruct (shard_init_ok geo Hgeo n fe Hn) as (x & Ex & W & R & _). rewrite Ex in E. injection E as <-. split; [exact W|exact R].
  - destruct (alloc_step sh A p nblocks count c W R Hrq Hc Hfor) as (k2 & a2 & sh2 & E2 & W2 & R2 & _). rewrite E in E2. injection E2 as <- <- <-. split; [exact W2|exact R2].
  - destruct (raw_step sh A p nblocks c W R Hrq Hfor) as (r2 & sh2 & E2 & W2 & R2 & _). rewrite E in E2. injection E2 as <- <-. split; [exact W2|exact R2].
  - destruct (dealloc_step sh A p a W R Hp Ha) as (sh2 & E2 & W2 & R2). rewrite E in E2. injection E2 as <-. split; [exact W2|exact R2].
Qed.
End ok.



(** A request for one slab is rejected only when the shard has no free
    segment and the part of the thread in every segment of the class is in use,
    unless the hand of the search, a number of 32 bits, has just wrapped
    around. *)
Theorem rejected_allocation sh A p nblocks c a sh' : geo_ok geo -> slab_reach sh A -> alloc_request_ok p nblocks -> class_for nblocks c ->
  mcd_fth_osd_slab_alloc geo junk sh p nblocks 1 = Some (0%nat, a, sh') ->
  mcd_osd_get_free_segments_count geo sh' = 0 /\ (part_used geo sh' A c p \/ first_turn geo sh' c p).
Proof using Type.
  intros Hgeo Hr Hrq Hfor E. destruct (slab_reach_ok Hgeo sh A Hr) as [W R]. destruct (alloc_step Hgeo sh A p nblocks 1 c W R Hrq ltac:(lia) Hfor) as (k & b & sh2 & E2 & W' & R' & Hk & (cl & Hcl) & _).
  rewrite E in E2. injection E2 as <- <- <-. destruct Hk as [(_ & G)|([]&_)]; [|done..]. destruct (given_up_full geo Hgeo A c cl p sh' (w_inv _ _ W') Hcl (proj2 Hrq) G) as [[Hf Hb] H]. split; [|done].
  unfold mcd_osd_get_free_segments_count. rewrite Hf. pose proof (seg_blks_bound geo Hgeo). destruct (Z.ltb_spec (blk_allocated sh') (total_blks sh')); [|done]. rewrite Z.div_small by lia. done.
Qed.

(** The allocation for a raw object never gives slab 0, ends after at most
    two allocations, and gives a slab of no one else. *)
Theorem raw_never_zero sh A p nblocks : geo_ok geo -> slab_reach sh A -> alloc_request_ok p nblocks ->
  exists r sh', alloc_raw geo 1 junk sh p nblocks = Some (r, sh') /\ forall a, r = Some a -> a <> 0 /\ A !! a = None.
Proof using Type.
  intros Hgeo Hr Hrq. destruct (slab_reach_ok Hgeo sh A Hr) as [W R]. destruct (w_table _ _ W nblocks (proj1 Hrq)) as (c & _ & _ & _ & Hfor).
  destruct (raw_step Hgeo sh A p nblocks c W R Hrq Hfor) as (r & sh' & E & _ & _ & H). by exists r, sh'.
Qed.
End slabs.

Section objects.
Context (sd : shard) (geo : geometry) (junk : nat -> Z) (persistent vdc ring_enabled from_end : bool).
Abbreviation seg_blks := (Mcd_osd_segment_blks geo).
Abbreviation set := (store_set geo junk persistent).
Abbreviation sync := (log_sync_postprocess geo vdc ring_enabled).

(** ** The life of the store *)

(** What the clients see of an object: its size and whether it is to be deleted
    in the future. *)
Definition info (o : object) : Z * bool := (ob_blocks o, ob_deleted o).

Definition put_spec (N : gmap (Z * list byte) (Z * bool)) (rq : put_request) : flash_rc * gmap (Z * list byte) (Z * bool) :=
  let id := (p_cntr rq, p_key rq) in
  if match p_data rq with Some (n, _) => MCD_OSD_OBJ_MAX_BLKS <? n | None => false end then (FLASH_EINVAL, N) else
  match N !! id, p_data rq with
  | None, None => (FLASH_ENOENT, N)
  | None, Some d => if p_nonexist rq then (FLASH_ENOENT, N) else (FLASH_EOK, <[id := d]> N)
  | Some _, None => if p_exist rq then (FLASH_EEXIST, N) else (FLASH_EOK, delete id N)
  | Some _, Some d => if p_exist rq then (FLASH_EEXIST, N) else (FLASH_EOK, <[id := d]> N)
  end.

(** The maps of classes with less than 8 slabs per segment are not cleared at a
    restart: they happen to be clear. *)
Definition maps_clear (sl : slab_shard) : Prop := forall c s g, base_segments sl !! s = Some g -> sg_class g = Some c -> 8 <= seg_blks / 2 ^ n2z c \/ junk s = 0.

(** What a restart needs: the object table [objs] on flash has the objects that a
    search finds, as many as the new directory has room for. *)
Record restart_ok (st : store) (M : directory) (objs : list mcd_rec_flash_object) (h0 : hash_handle) (sl0 : slab_shard) : Prop := {
  z_persistent : persistent = true;
  z_end : from_end = false;
  z_dir : sh_init sd = Some h0;
  z_slabs : mcd_osd_slab_shard_init geo (sh_segments sd) false from_end = Some sl0;
  z_found : answers sd (st_flash st) (st_dir st) M;
  z_table : table_of (sh_storm sd) (st_flash st) h0 objs M;
  z_len : lenZ objs <= sh_blks sd;
  z_room : nobjs objs <= hash_size h0;
  z_maps : maps_clear (st_slabs st)
}.

Definition recover_dir (objs : list mcd_rec_flash_object) (h0 : hash_handle) : option hash_handle :=
  update_hash_table (sh_segment_blks sd) (sh_storm sd) (sh_segments sd) (sh_blks sd) 0 objs h0.

(** A new store, then writes, deletions, synchronisations of the log and
    restarts. *)
Inductive store_reach : store -> gmap (Z * list byte) (Z * bool) -> Prop :=
| store_new h sl flash : sh_init sd = Some h -> mcd_osd_slab_shard_init geo (sh_segments sd) false from_end = Some sl -> store_reach (mk_store h sl flash [] []) ∅
| store_put st N p rq st' rc : store_reach st N -> put_ok geo rq p -> set st p rq = Some (st', rc) ->
    store_reach st' (match rc with FLASH_ENOSPC => N | _ => snd (put_spec N rq) end)
| store_sync st N p st' : store_reach st N -> (p < MCD_OSD_MAX_PTHREADS)%nat -> sync st p = Some st' -> store_reach st' N
| store_restart st N M objs h0 sl0 first_shard h sl : store_reach st N -> restart_ok st M objs h0 sl0 -> recover_dir objs h0 = Some h ->
    recover_slabs geo junk first_shard (recorded_lists (st_slabs st)) objs sl0 = Some sl -> store_reach (mk_store h sl (st_flash st) [] []) N.

(** The settings of directory and slabs. *)
Record settings_ok : Prop := {
  y_shard : shard_ok sd;
  y_geo : geo_ok geo;
  y_seg : sh_segment_blks sd = seg_blks;
  y_segs : 0 <= sh_segments sd;
  y_blks : sh_blks sd = sh_segments sd * seg_blks;
  y_size : sh_blks sd <= 2 ^ 49
}.

(** The objects of the directory have keys and containers. *)
Lemma life_named flash h M cntr key o : life_ok sd flash h M -> M !! (cntr, key) = Some o -> key <> [] /\ cntr <> 0.
Proof using Type.
  intros L HM. destruct (lo_rep _ _ _ _ L) as (cs & fs & H). apply (proj1 (l_map _ _ _ (r_list _ _ _ _ _ _ H) cntr key o)) in HM. destruct HM as (e & He & Ec & Hf & _). apply in_bucket in He as (b & c & Hb & He).
  destruct (r_place _ _ _ _ _ _ H b c e Hb He) as [k Hk]. pose proof (e_onflash _ _ _ _ _ _ Hk). assert (k = key) as -> by congruence. split; [apply (e_key_ne _ _ _ _ _ _ Hk)|rewrite <- Ec; apply (e_cntr _ _ _ _ _ _ Hk)].
Qed.

Lemma put_spec_ok M rq a : put_spec (info <$> M) rq = (fst (set_spec M (at_address rq a)), info <$> snd (set_spec M (at_address rq a))).
Proof using Type.
  unfold put_spec, set_spec, too_big, at_address. cbn. rewrite lookup_fmap. destruct (p_data rq) as [[n del]|]; [destruct (_ <? n); [done|]|];
    (destruct (M !! _); cbn; [destruct (p_exist rq)|try destruct (p_nonexist rq)]; cbn; rewrite ?fmap_insert, ?fmap_delete; done).
Qed.

Section ok.
Context (Hok : settings_ok).

Lemma new_store_ok h sl flash : sh_init sd = Some h -> mcd_osd_slab_shard_init geo (sh_segments sd) false from_end = Some sl -> store_ok sd geo persistent (mk_store h sl flash [] []) ∅.
Proof using Hok.
  intros Hi Hs. destruct Hok as [Y1 Y2 Y3 Y4 Y5 Y6]. split; [apply (init_life sd Y1 flash h Hi)| |done]. cbn [st_slabs].
  destruct (shard_init_ok geo Y2 (z2n (sh_segments sd)) from_end) as (x & Ex & W & R & P & Et); [rewrite Z2Nat.id by done; lia|]. rewrite Z2Nat.id in Ex, Et by done. rewrite Hs in Ex. injection Ex as <-. destruct (shard_init_fresh geo Y2 (z2n (sh_segments sd)) from_end sl) as (_ & _ & _ & H13 & _); [by rewrite Z2Nat.id|]. clear Hs Hi. split; [exact W|split; [done|lia|done]|].
  exists ∅. split; [exact R|]. split; [|exact P]. split.
  - intros id o Ho. by rewrite lookup_empty in Ho.
  - intros id o id' o' Ho. by rewrite lookup_empty in Ho.
  - intros a Ha. by apply not_elem_of_nil in Ha.
  - constructor.
  - intros a [n Ha]. by rewrite lookup_empty in Ha.
Qed.

Lemma put_step st M rq p : store_ok sd geo persistent st M -> put_ok geo rq p ->
  exists st' rc M', set st p rq = Some (st', rc) /\ store_ok sd geo persistent st' M' /\ info <$> M' = (match rc with FLASH_ENOSPC => info <$> M | _ => snd (put_spec (info <$> M) rq) end) /\
    (rc = fst (put_spec (info <$> M) rq) \/ rc = FLASH_ENOSPC /\ fst (put_spec (info <$> M) rq) = FLASH_EOK /\ p_data rq <> None).
Proof using Hok.
  intros X U. destruct (store_set_ok sd geo junk persistent (y_geo Hok) (y_shard Hok) st M p rq X U) as (st' & rc & -> & [(a & Hrc & X')|(-> & Hf & Hd & X')]).
  - exists st', rc, (snd (set_spec M (at_address rq a))). rewrite (put_spec_ok M rq a). cbn [fst snd]. split; [done|]. split; [done|]. split; [|by left]. destruct rc; try done. by apply set_spec_rc in Hrc.
  - exists st', FLASH_ENOSPC, M. split; [done|]. split; [done|]. split; [done|]. right. rewrite (put_spec_ok M rq 0). done.
Qed.

(** The map of a restart is the map of the store. *)
Lemma restart_map st M M' objs h0 sl0 : store_ok sd geo persistent st M' -> restart_ok st M objs h0 sl0 -> M = M'.
Proof using Type.
  intros X Z. pose proof (z_table _ _ _ _ _ Z) as T. apply map_eq. intros [cn key]. destruct (decide (key <> [] /\ cn <> 0)) as [[Hk Hc]|Hno].
  - destruct (z_found _ _ _ _ _ Z key cn Hk Hc) as (r & Er & <-), (life_answers sd _ _ _ (x_life _ _ _ _ _ X) key cn Hk Hc) as (r' & Er' & <-). congruence.
  - transitivity (@None object); [|symmetry]; apply eq_None_not_Some; intros [o Ho]; apply Hno.
    + destruct (t_map _ _ _ _ _ T cn key o Ho) as (H0 & Hf & obj & Hx & Hb & <-). destruct (t_obj _ _ _ _ _ T _ obj Hx Hb) as (k & Hf' & [B1 B2 _ _ _] & _). rewrite Z2Nat.id in Hf' by done. split; [congruence|done].
    + by apply (life_named _ _ _ _ _ _ (x_life _ _ _ _ _ X) Ho).
Qed.

Lemma restart_step st M objs h0 sl0 first_shard : store_ok sd geo persistent st M -> restart_ok st M objs h0 sl0 ->
  exists h sl, recover_dir objs h0 = Some h /\ recover_slabs geo junk first_shard (recorded_lists (st_slabs st)) objs sl0 = Some sl /\ store_ok sd geo persistent (mk_store h sl (st_flash st) [] []) M.
Proof using Hok.
  intros X [Z1 Z2 Z3 Z4 Z5 Z6 Z7 Z8 Z9]. destruct Hok as [Y1 Y2 Y3 Y4 Y5 Y6]. destruct (load_life sd Y1 (st_flash st) objs h0 M Z3 Z6 Z7 Z8) as (h & Eh & L). exists h. rewrite Z2 in Z4. rewrite <- (Z2Nat.id (sh_segments sd)) in Z4, Y5 by done.
  destruct (restart_slabs_ok sd geo junk Y2 (st_slabs st) M (waiting st) (z2n (sh_segments sd)) sl0 (sh_storm sd) (st_flash st) h0 objs first_shard (x_slabs _ _ _ _ _ X) Z6 ltac:(lia) Y5 Z4 Z7 Z9) as (sl & El & S).
  exists sl. split; [exact Eh|]. split; [exact El|]. split; [exact L|exact S|done].
Qed.

Lemma store_reach_ok st N : store_reach st N -> exists M, store_ok sd geo persistent st M /\ info <$> M = N.
Proof using Hok.
  induction 1 as [h sl flash Hi Hs|st N p rq st' rc _ (M & X & <-) U E|st N p st' _ (M & X & <-) Hp E|st N M objs h0 sl0 first_shard h sl _ (M' & X & <-) Z Eh El].
  - exists ∅. split; [by apply new_store_ok|apply fmap_empty].
  - destruct (put_step st M rq p X U) as (st2 & rc2 & M' & E2 & X' & EN & _). rewrite E in E2. injection E2 as <- <-. by exists M'.
  - destruct (sync_ok sd geo persistent vdc ring_enabled (y_geo Hok) st M p X Hp) as (st2 & E2 & X' & _). rewrite E in E2. injection E2 as <-. by exists M.
  - pose proof (restart_map st M M' objs h0 sl0 X Z) as ->. destruct (restart_step st M' objs h0 sl0 first_shard X Z) as (h2 & sl2 & Eh2 & El2 & X'). rewrite Eh in Eh2. injection Eh2 as <-. rewrite El in El2. injection El2 as <-. by exists M'.
Qed.
End ok.

(** The entry of an object in the store. *)
Definition found (st : store) (cntr : Z) (key : list byte) : option (option hash_entry) := lookup_entry seg_blks (st_flash st) (st_dir st) key cntr.

Lemma ok_found st M key cntr : settings_ok -> store_ok sd geo persistent st M -> key <> [] -> cntr <> 0 -> exists r, found st cntr key = Some r /\ (fun e => info (object_of e)) <$> r = (info <$> M) !! (cntr, key).
Proof using Type.
  intros Hok X Hk Hc. destruct (life_answers sd _ _ _ (x_life _ _ _ _ _ X) key cntr Hk Hc) as (r & Er & HM). exists r. unfold found. rewrite <- (y_seg Hok). split; [done|]. rewrite lookup_fmap, <- HM. by destruct r.
Qed.



Lemma object_found st M cntr key o : settings_ok -> store_ok sd geo persistent st M -> M !! (cntr, key) = Some o -> exists e, found st cntr key = Some (Some e) /\ object_of e = o.
Proof using Type.
  intros Hok X HM. destruct (life_named _ _ _ _ _ _ (x_life _ _ _ _ _ X) HM) as [Hk Hc]. destruct (life_answers sd _ _ _ (x_life _ _ _ _ _ X) key cntr Hk Hc) as (r & Er & E). rewrite HM in E. destruct r as [e|]; [|done].
  exists e. unfold found. rewrite <- (y_seg Hok). split; [done|]. by injection E.
Qed.

(** Whose slab a slab in use is. *)
Lemma slab_owner st M a n : settings_ok -> store_ok sd geo persistent st M -> slab_at geo (base_segments (st_slabs st)) a n ->
  a ∈ waiting st \/ exists cntr key e, found st cntr key = Some (Some e) /\ blkaddress e = a /\ blocks e <= n < 2 * blocks e.
Proof using Type.
  intros Hok X Ha. destruct (x_slabs _ _ _ _ _ X) as [W G (A & R & Ac & _)]. apply R in Ha. destruct (ac_all _ _ _ Ac a ltac:(by exists n)) as [|([cntr key] & o & HM & <-)]; [by left|]. right.
  destruct (object_found st M cntr key o Hok X HM) as (e & E & <-). exists cntr, key, e. split; [done|]. split; [done|].
  destruct (ac_objects _ _ _ Ac _ _ HM) as (Hb & c & Hfor & HA). cbn [object_of ob_addr ob_blocks] in *. rewrite Ha in HA. injection HA as ->. pose proof (class_for_size _ _ Hfor). lia.
Qed.



(** C12: a restart of a persistent store from the lists of segments that it wrote
    and an object table on flash with exactly its objects, as many as the new
    directory has room for ([restart_ok]; the replay of the log that makes the
    table is not part of it, and the bit maps of classes with less than 8 slabs
    per segment happen to be clear), does not fail; afterwards a search finds
    every object as before, and the slabs in use are exactly those of the
    objects: those that waited are free again. *)
Theorem restart_keeps_objects st N M objs h0 sl0 first_shard : settings_ok -> store_reach st N -> restart_ok st M objs h0 sl0 ->
  exists h sl, recover_dir objs h0 = Some h /\ recover_slabs geo junk first_shard (recorded_lists (st_slabs st)) objs sl0 = Some sl /\
    let st' := mk_store h sl (st_flash st) [] [] in
    (forall key cntr, key <> [] -> cntr <> 0 -> exists r, found st' cntr key = Some r /\ (fun e => info (object_of e)) <$> r = N !! (cntr, key)) /\
    (forall a n, slab_at geo (base_segments sl) a n -> exists cntr key e, found st' cntr key = Some (Some e) /\ blkaddress e = a /\ blocks e <= n < 2 * blocks e).
Proof using Type.
  intros Hok Hr Z. destruct (store_reach_ok Hok st N Hr) as (M' & X & <-). pose proof (restart_map st M M' objs h0 sl0 X Z) as ->. destruct (restart_step Hok st M' objs h0 sl0 first_shard X Z) as (h & sl & Eh & El & X').
  exists h, sl. split; [exact Eh|]. split; [exact El|]. split.
  - intros key cntr Hk Hc. by apply ok_found.
  - intros a n Ha. destruct (slab_owner _ _ a n Hok X' Ha) as [[]%elem_of_nil|]. done.
Qed.
End objects.

(** ** Faults *)

(** A shard of 8 segments of 16 blocks of 512 bytes, with one thread. *)
Definition ex_geo : geometry := mk_geometry (16 * 512) 512 1 1.
Definition no_shard : slab_shard := mk_slab_shard [] [] [] [] [] 0 0 0 0 0 false false.
Definition ex_slabs (gc : bool) : slab_shard := default no_shard (mcd_osd_slab_shard_init ex_geo 8 gc false).

(** A slab of 16 blocks is allocated in each of [n] segments; then they are
    freed. *)
Fixpoint use_segments (n : nat) (sh : slab_shard) : option slab_shard :=
  match n with
  | O => Some sh
  | S n => r ← mcd_fth_osd_slab_alloc ex_geo (fun _ => 0) sh 0 16 1; sh ← use_segments n r.2; mcd_fth_osd_slab_dealloc ex_geo sh 0 r.1.2 false
  end.

(** The number of free segments then, and an allocation for another class. *)
Definition reuse_run : option (Z * option (nat * Z * slab_shard)) :=
  sh ← use_segments 8 (ex_slabs true);
  Some (mcd_osd_get_free_segments_count ex_geo sh, mcd_fth_osd_slab_alloc ex_geo (fun _ => 0) sh 0 8 1).

(** With the collection of segments on, a segment whose last slab is freed
    goes back to the free list with its bit map, and the allocation that takes it
    again fails the assertion that there is none: after all segments of a shard
    were used once and freed, all are free, and an allocation aborts. *)
Theorem segment_reuse_aborts : reuse_run = Some (8, None).
Proof. vm_compute. reflexivity. Qed.

(** Blocks of 16 KB: a segment of 32 MB has 2048 of them. *)
Definition big_geo : geometry := mk_geometry (33554432) 16384 1 1.

(** The free segments of a new shard, the slabs that an allocation for an object
    of 2049 blocks gives, and the free segments after it. *)
Definition huge_run : option (Z * nat * Z) :=
  sh ← mcd_osd_slab_shard_init big_geo 8 false false;
  r ← mcd_fth_osd_slab_alloc big_geo (fun _ => 0) sh 0 2049 1;
  Some (mcd_osd_get_free_segments_count big_geo sh, r.1.1, mcd_osd_get_free_segments_count big_geo r.2).

(** With blocks of 16 KB the slabs of the largest class are larger than a
    segment, so a segment of that class has none; the allocation for an object of
    more than 2048 blocks gives all free segments of the shard to the class, and
    is rejected. *)
Theorem huge_object_takes_all : huge_run = Some (8, 0%nat, 0).
Proof. vm_compute. reflexivity. Qed.

(** A shard of one segment whose list says that it belongs to the class of 4
    blocks, with 4 slabs; its object table is empty and the memory of its bit map
    was used before. What an allocation gives after the restart. *)
Definition uncleared_run : option (nat * Z) :=
  sl ← mcd_osd_slab_shard_init ex_geo 1 false false;
  sl ← recover_slabs ex_geo (fun _ => Z.ones 64) false [[]; []; [u64 (Z.lnot 0)]] [] sl;
  r ← mcd_fth_osd_slab_alloc ex_geo (fun _ => Z.ones 64) sl 0 4 1;
  Some (r.1.1, mcd_osd_get_free_segments_count ex_geo sl).

(** Recovery clears only whole bytes of a bit map by rounding down, so the
    map of a segment with less than 8 slabs keeps what the memory had: slabs that
    no object uses count as in use, and an allocation in an empty shard is
    rejected. *)
Theorem recovered_map_uncleared : uncleared_run = Some (0%nat, 0).
Proof. vm_compute. reflexivity. Qed.

(** The object table has an object of one block at block 0, and no list has its
    segment; then a slab of another class is wanted. *)
Definition unlisted_run : option (option (nat * Z * slab_shard)) :=
  sl ← mcd_osd_slab_shard_init ex_geo 4 false false;
  sl ← recover_slabs ex_geo (fun _ => 0) true [] [mk_mcd_rec_flash_object 0 false 1 0 1] sl;
  Some (mcd_fth_osd_slab_alloc ex_geo (fun _ => 0) sl 0 4 1).

(** A segment that recovery gives to a class for an object is not counted as
    allocated: the next segment taken is the same, which fails the assertion that
    it has no bit map. *)
Lemma unlisted_segment_aborts : unlisted_run = Some None.
Proof. vm_compute. reflexivity. Qed.

(** ** Witnesses *)

(** A run that ends, and one that ends with a result, are those of the state
    defined by it. *)
Definition ends {A} (o : option A) : bool := match o with Some _ => true | None => false end.

Lemma run_ends {A} (d : A) (o : option A) : ends o = true -> o = Some (default d o).
Proof. by destruct o. Qed.

Lemma run_answers {A B} (d : A) (o : option (A * B)) (b : B) : snd <$> o = Some b -> o = Some (default d (fst <$> o), b).
Proof. destruct o as [[x y]|]; [|done]. by intros [= ->]. Qed.

Lemma ex_geo_ok : geo_ok ex_geo.
Proof. split; [done|exists 4; split; [lia|done]|done|cbn; lia]. Qed.

Lemma ex_slabs_reach : slab_reach ex_geo (fun _ => 0) (ex_slabs false) ∅.
Proof. apply (slab_new _ _ 8 false); [vm_compute; congruence|]. apply run_ends. vm_compute. reflexivity. Qed.

Lemma ex_class : class_for 16 4.
Proof. split; [vm_compute; congruence|right; reflexivity]. Qed.

(** Allocations of single slabs of 16 blocks, as long as they succeed. *)
Fixpoint alloc_times (n : nat) (sh : slab_shard) (A : gmap Z Z) : option (slab_shard * gmap Z Z) :=
  match n with
  | O => Some (sh, A)
  | S n => match mcd_fth_osd_slab_alloc ex_geo (fun _ => 0) sh 0 16 1 with Some (1%nat, a, sh) => alloc_times n sh (<[a := 16]> A) | _ => None end
  end.

Lemma alloc_times_reach n : forall sh A sh' A', alloc_times n sh A = Some (sh', A') -> slab_reach ex_geo (fun _ => 0) sh A -> slab_reach ex_geo (fun _ => 0) sh' A'.
Proof.
  induction n as [|n IH]; intros sh A sh' A' E Hr; cbn [alloc_times] in E; [by injection E as <- <-|]. destruct (mcd_fth_osd_slab_alloc _ _ sh 0 16 1) as [[[[|[|k]] a] sh1]|] eqn:E1; try discriminate.
  apply (IH _ _ _ _ E). apply (slab_alloc ex_geo (fun _ => 0) sh A 0 16 1 4 1 a sh1); [exact Hr|split; [vm_compute; split; congruence|reflexivity]|lia|apply ex_class|exact E1].
Qed.

(** The shard with all its segments in use. *)
Definition ex_full_slabs : slab_shard * gmap Z Z := default (no_shard, ∅) (alloc_times 8 (ex_slabs false) ∅).

Lemma ex_full_reach : slab_reach ex_geo (fun _ => 0) ex_full_slabs.1 ex_full_slabs.2.
Proof.
  apply (alloc_times_reach 8 (ex_slabs false) ∅); [|apply ex_slabs_reach]. rewrite <- surjective_pairing. apply run_ends. vm_compute. reflexivity.
Qed.

Lemma ex_request_slabs : alloc_request_ok ex_geo 0 16.
Proof. split; [vm_compute; split; congruence|reflexivity]. Qed.


Definition ex_rejected : nat * Z * slab_shard := default (0%nat, 0, no_shard) (mcd_fth_osd_slab_alloc ex_geo (fun _ => 0) ex_full_slabs.1 0 16 1).

Lemma ex_rejects : mcd_fth_osd_slab_alloc ex_geo (fun _ => 0) ex_full_slabs.1 0 16 1 = Some (0%nat, ex_rejected.1.2, ex_rejected.2).
Proof.
  assert ((fun r => r.1.1) <$> mcd_fth_osd_slab_alloc ex_geo (fun _ => 0) ex_full_slabs.1 0 16 1 = Some 0%nat) as H by (vm_compute; reflexivity).
  unfold ex_rejected. destruct (mcd_fth_osd_slab_alloc _ _ _ _ _ _) as [[[k a] sh]|]; [|done]. by injection H as ->.
Qed.

Lemma rejected_allocation_witness : mcd_osd_get_free_segments_count ex_geo ex_rejected.2 = 0 /\ (part_used ex_geo ex_rejected.2 ex_full_slabs.2 4 0 \/ first_turn ex_geo ex_rejected.2 4 0).
Proof. apply (rejected_allocation ex_geo (fun _ => 0) ex_full_slabs.1 ex_full_slabs.2 0 16 4 ex_rejected.1.2 ex_rejected.2 ex_geo_ok ex_full_reach ex_request_slabs ex_class ex_rejects). Defined.

Lemma raw_never_zero_witness : exists r sh', alloc_raw ex_geo 1 (fun _ => 0) (ex_slabs false) 0 16 = Some (r, sh') /\ forall a, r = Some a -> a <> 0 /\ (∅ : gmap Z Z) !! a = None.
Proof. apply (raw_never_zero ex_geo (fun _ => 0) (ex_slabs false) ∅ 0 16 ex_geo_ok ex_slabs_reach ex_request_slabs). Defined.

(** A store over a shard of 32 segments, with one object, then a new version of
    it. *)
Definition st_geo : geometry := mk_geometry 16 1 1 1.

Lemma st_settings : settings_ok ex_shard st_geo.
Proof. split; [apply ex_ok|split; [done|exists 4; split; [lia|done]|done|cbn; lia]|done|done|vm_compute; reflexivity|vm_compute; congruence]. Qed.

Definition ex_put (n : Z) : put_request := mk_put_request ex_key 1 false false (Some (n, false)) false.
Definition no_store : store := mk_store no_handle no_shard (fun _ => None) [] [].
Definition ex_set_store (st : store) (rq : put_request) : store := default no_store (fst <$> store_set st_geo (fun _ => 0) true st 0 rq).
Definition ex_st0 : store := mk_store ex_h0 (default no_shard (mcd_osd_slab_shard_init st_geo 32 false false)) (fun _ => None) [] [].
Definition ex_st1 : store := ex_set_store ex_st0 (ex_put 3).
Definition ex_st2 : store := ex_set_store ex_st1 (ex_put 5).

Lemma ex_put_ok n : 0 < n -> put_ok st_geo (ex_put n) 0.
Proof. intros Hn. split; [done|done| |done]. by intros m del [= <- <-]. Qed.

Lemma ex_put_3 : store_set st_geo (fun _ => 0) true ex_st0 0 (ex_put 3) = Some (ex_st1, FLASH_EOK).
Proof. apply run_answers. vm_compute. reflexivity. Qed.

Lemma ex_put_5 : store_set st_geo (fun _ => 0) true ex_st1 0 (ex_put 5) = Some (ex_st2, FLASH_EOK).
Proof. apply run_answers. vm_compute. reflexivity. Qed.

Lemma ex_h0_init : sh_init ex_shard = Some ex_h0.
Proof. apply run_ends. vm_compute. reflexivity. Qed.

Lemma ex_st0_slabs : mcd_osd_slab_shard_init st_geo 32 false false = Some (st_slabs ex_st0).
Proof. apply run_ends. vm_compute. reflexivity. Qed.

Lemma ex_st_reach : store_reach ex_shard st_geo (fun _ => 0) true false false false ex_st2 {[ (1, ex_key) := (5, false) ]}.
Proof.
  assert (store_reach ex_shard st_geo (fun _ => 0) true false false false ex_st0 ∅) as H0 by (apply store_new; [apply ex_h0_init|apply ex_st0_slabs]).
  assert (store_reach ex_shard st_geo (fun _ => 0) true false false false ex_st1 {[ (1, ex_key) := (3, false) ]}) as H1
    by apply (store_put _ _ _ _ _ _ _ _ _ _ _ _ _ H0 (ex_put_ok 3 ltac:(lia)) ex_put_3).
  apply (store_put _ _ _ _ _ _ _ _ _ _ _ _ _ H1 (ex_put_ok 5 ltac:(lia)) ex_put_5).
Qed.



(** The object table of that store: the object is at block 16. *)
Definition st_obj : mcd_rec_flash_object := mk_mcd_rec_flash_object (u16 (Z.shiftr (hashck ex_key 0 1) 48)) false 5 (hashck ex_key 0 1 mod 768) 1.
Definition st_objs : list mcd_rec_flash_object := replicate 16 ex_blank ++ [st_obj; ex_blank].
Definition st_map : directory := {[ (1, ex_key) := mk_object 16 5 false ]}.

Lemma st_objs_lookup a obj : st_objs !! a = Some obj -> (a = 16%nat /\ obj = st_obj) \/ (a <> 16%nat /\ obj = ex_blank).
Proof. unfold st_objs. do 18 (destruct a as [|a]; [intros [= <-]; auto|]). by cbn. Qed.

Lemma st_flash_16 : st_flash ex_st2 16 = Some ex_key.
Proof. vm_compute. reflexivity. Qed.

Lemma st_table : table_of false (st_flash ex_st2) ex_h0 st_objs st_map.
Proof.
  assert (hash_size ex_h0 = 768) as E by (vm_compute; reflexivity). split.
  - intros a obj [[-> ->]|[_ ->]]%st_objs_lookup Hb; [|done]. exists ex_key. split; [exact st_flash_16|]. split; [|apply lookup_singleton_eq]. split; [discriminate|discriminate|discriminate|reflexivity|]. rewrite E. reflexivity.
  - intros a obj [[_ ->]|[_ ->]]%st_objs_lookup; cbn; lia.
  - intros a obj [[_ ->]|[_ ->]]%st_objs_lookup; done.
  - intros cntr key o Ho. unfold st_map in Ho. apply lookup_singleton_Some in Ho as [[= <- <-] <-]. split; [done|]. split; [exact st_flash_16|]. exists st_obj. split; [reflexivity|]. split; [discriminate|reflexivity].
  - intros a obj a' obj' [[-> ->]|[_ ->]]%st_objs_lookup Hb Ha Ho; [|done]. apply st_objs_lookup in Ho as [[-> ->]|[_ ->]]; [lia|done].
Qed.

Lemma st_answers : answers ex_shard (st_flash ex_st2) (st_dir ex_st2) st_map.
Proof.
  destruct (store_reach_ok ex_shard st_geo (fun _ => 0) true false false false st_settings ex_st2 _ ex_st_reach) as (M & X & E). enough (st_map = M) as -> by (apply life_answers; apply X). apply map_eq. intros id.
  destruct (decide (id = (1, ex_key))) as [->|Hne].
  - destruct (life_answers ex_shard _ _ _ (x_life _ _ _ _ _ X) ex_key 1 ltac:(done) ltac:(done)) as (r & Er & <-). assert (lookup_entry (sh_segment_blks ex_shard) (st_flash ex_st2) (st_dir ex_st2) ex_key 1 =
      Some (Some (mk_hash_entry true false true false 5 (u16 (Z.shiftr (hashck ex_key 0 1) 48)) 16 1))) as Hl by (vm_compute; reflexivity). rewrite Hl in Er. injection Er as <-. reflexivity.
  - assert ((info <$> M) !! id = None) as Ei by (rewrite E; apply lookup_singleton_ne; congruence). rewrite lookup_fmap in Ei. unfold st_map. rewrite lookup_singleton_ne by congruence. destruct (M !! id); [discriminate Ei|reflexivity].
Qed.

Lemma st_restart_ok : restart_ok ex_shard st_geo (fun _ => 0) true false ex_st2 st_map st_objs ex_h0 (st_slabs ex_st0).
Proof. split; [done|done|apply ex_h0_init|apply ex_st0_slabs|exact st_answers|exact st_table|vm_compute; congruence|vm_compute; congruence|]. intros c s g _ _. right. reflexivity. Qed.

Lemma restart_keeps_objects_witness : settings_ok ex_shard st_geo /\ exists h sl, recover_dir ex_shard st_objs ex_h0 = Some h /\ recover_slabs st_geo (fun _ => 0) false (recorded_lists (st_slabs ex_st2)) st_objs (st_slabs ex_st0) = Some sl /\
  exists r, found st_geo (mk_store h sl (st_flash ex_st2) [] []) 1 ex_key = Some r /\ (fun e => info (object_of e)) <$> r = Some (5, false).
Proof.
  split; [apply st_settings|]. destruct (restart_keeps_objects ex_shard st_geo (fun _ => 0) true false false false ex_st2 _ st_map st_objs ex_h0 (st_slabs ex_st0) false st_settings ex_st_reach st_restart_ok) as (h & sl & Eh & El & H & _).
  exists h, sl. split; [exact Eh|]. split; [exact El|]. destruct (H ex_key 1 ltac:(discriminate) ltac:(discriminate)) as (r & E & Hr). exists r. split; [exact E|]. rewrite Hr. apply lookup_singleton_eq.
Defined.
